(* ===== verification/_CoqProject ===== *)
-Q . S2P
Prelude.v
GoStrings.v
Regex.v
GoPath.v
Address.v
PolicyRule.v
PolicyEval.v
PolicySpec.v
Io.v
Tables.v
Risk.v
Approval.v
ApprovalSpec.v
Registry.v
RegistrySpec.v
MailTypes.v
MailStore.v
MailAccounts.v
MailService.v
MailRead.v
MailSpec.v
MailProps.v
MailFlow.v
GoText.v
RegexFind.v
GoJson.v
Transcript.v
ProseCalls.v
Cascade.v
CascadeSpec.v
AuditLog.v
AuditLogSpec.v
Envelope.v
EnvelopeSpec.v
Pairing.v
PairingSpec.v
Untrusted.v
UntrustedSpec.v
Ics.v
IcsSpec.v
Planner.v
Tasks.v
PlanEngine.v
PlanEngineSpec.v
Heartbeat.v
HeartbeatSpec.v
Bus.v
BusSpec.v
InboundQueue.v
QueueSpec.v
ChannelManager.v
Router.v
RouterSpec.v
FileEdit.v
FileEditSpec.v
Vfs.v
SafePath.v
SafePathSpec.v
SafeDial.v
SafeDialSpec.v
Cron.v
CronProps.v
WsDisk.v
WsDiskSpec.v
Workspace.v
WorkspaceSpec.v
WorkspaceTree.v
WorkspaceProps.v
SystemAuth.v
SystemAuthSpec.v
AgentRuns.v
AgentContext.v
AgentEngine.v
AgentStep.v
AgentStream.v
AgentSpec.v
AgentResume.v
AgentParts.v
AgentRunSpec.v
ProseSpec.v
