(* ===== verification/Prelude.v ===== *)
(** * ActonOS kernel: a verification library

    ActonOS ([src/], Go) runs agents around language models on a person's own
    device.  This library models the parts that decide what those agents may
    do, what is remembered of it and how work reaches them, and proves what
    makes each part correct.  Names follow the code; a comment before a
    definition names the function it translates when the name differs.

    ** How the parts interact

    - A message of a chat channel is published on the event bus, stored in
      the inbound queue by the bus's hook, claimed by the router, admitted by
      the pairing guard, and given to an agent with the history of its
      conversation; the answer goes back through the channel manager.
    - An agent is a loop around a language model: the conversation is kept
      within the window ([PruneMessages]), cleaned ([SanitizeMessages]) and
      sent down a cascade of providers; the tools that are wanted are executed
      and their results go back, until an answer comes.  A turn that needs an
      approval stops at a checkpoint in the table of runs and is resumed from
      there, or, when it is streamed, waits for the operator.
    - What the model wants done are tool calls: the registry checks each
      against lists, skills, command screen, policy, gate, grants and human
      approvals, and the audit log records it.
    - Mail and calendar tools go through one service that puts every write to
      the policy engine, keeps drafts immutable and sends a draft once.
    - Long missions are plans: a graph of steps run in turns, kept in a table.
      The heartbeat picks one mission, or the standing directives, has the
      engine work on it, and decides what the operator is told.
    - Documents are nodes of a workspace: rows, files, and a directory tree
      under their own names in which sandboxed programs work.

    ** Files and sources

    - [Prelude] results, integers, time, list lemmas, automation.  [Io] the
      state-and-error monad with its schedule of failures, clock and
      identifiers, and its rules ([wp], [keeps], [quiet]).  [Tables] SQL over
      lists of rows, the rest of the platform.  [GoStrings], [GoText] Go
      strings as bytes and runes, UTF-8, [strings].  [GoJson] the text
      [encoding/json] writes for strings.
      [Regex] a matcher for the regular expressions of the code,
      [RegexFind] finding and removing their leftmost matches.  [GoPath]
      [path/filepath].
    - [Address] (mailcal/abi/address.go), [PolicyRule] (mailcal/policy/rule.go),
      [PolicyEval] (mailcal/policy/evaluate.go), [PolicySpec].
    - [Risk] (tools/risk.go), [Approval] (tools/approval.go), [ApprovalSpec];
      [Registry] (tools/registry.go, gate.go, command_policy.go), [RegistrySpec].
    - [MailTypes] (mailcal/abi/abi.go and the rows of the tables), [MailStore]
      (settings.go, decisions.go, ledger.go, drafts.go, rules.go,
      proposals.go), [MailAccounts] (accounts.go), [MailService] (service.go,
      writeops.go, tools_write.go), [MailRead] (service.go, bounce.go,
      proposals.go); [MailSpec], [MailProps], [MailFlow].
    - [Untrusted] (mailcal/untrusted.go), [UntrustedSpec]; [Ics]
      (mailcal/provkit/icskit/icskit.go), [IcsSpec].
    - [Transcript] (llm/types.go, llm/sanitize.go), [ProseCalls]
      (llm/sanitize.go: thinking and calls in prose), [ProseSpec]; [Cascade] (llm/router.go), [CascadeSpec].
    - [AuditLog] (system/audit.go), [AuditLogSpec].
    - [Planner] (agent/planner.go); [Tasks] (agent/tasks.go); [PlanEngine]
      (agent/engine_plan.go, engine_resume.go), [PlanEngineSpec]; [Heartbeat]
      (agent/heartbeat.go, heartbeat_cycle.go, heartbeat_agents.go,
      heartbeat_classify.go), [HeartbeatSpec].
    - [Envelope] (channels/adapter.go, envelope.go, media.go),
      [EnvelopeSpec]; [Pairing] (channels/pairing.go), [PairingSpec]; [Bus]
      (bus/), [BusSpec]; [InboundQueue] (channels/inbound_queue.go),
      [QueueSpec]; [ChannelManager] (channels/manager.go, session.go),
      [Router] (channels/router.go), [RouterSpec].
    - [AgentRuns] (agent/runs.go), [AgentContext] (agent/context.go),
      [AgentEngine] (agent/engine.go, lifecycle.go,
      approval_wait.go, verifier.go), [AgentStep] (agent/engine_step.go),
      [AgentStream] (agent/engine_stream.go), [AgentResume]
      (agent/engine_resume.go), [AgentParts] the cascade and the registry as
      the engine's interfaces [Mind] and [Hands]; [AgentSpec], [AgentRunSpec].
    - [SystemAuth] (auth/system_auth.go, state.go), [SystemAuthSpec].
    - [Vfs] a file system with symbolic links; [SafePath] (security/path.go),
      [SafePathSpec]; [SafeDial] (security/safedial.go, network.go),
      [SafeDialSpec]; [FileEdit] (tools/native_file_edit.go), [FileEditSpec].
    - [Cron] (agent/cron_scheduler.go), [CronProps].
    - [WsDisk] (workspace/store.go, store_write.go,
      named.go: rows, disk, projection), [WsDiskSpec]; [Workspace]
      (workspace/store.go, store_write.go, store_mutate.go, store_search.go,
      named.go), [WorkspaceSpec], [WorkspaceTree], [WorkspaceProps].

    The state of a component is a record: its tables as lists or maps of
    rows, its caches, and a log of the calls that leave it (provider calls,
    model requests, dispatched messages, engine runs).  An operation is a
    function in [io state error]; [zoom] and [within] run a component's
    operation inside the state of its client.

    ** What the theorems show

    - The policy engine allows only what a rule covers, and a rule book can
      only be made stricter by taking allow rules away or adding deny rules.
    - Human approvals: decisions are exact and final, and an approval serves
      the very action it was given for.  The registry runs a tool only when
      every check passed; the checks are put to the name as given.
    - Mail and calendar: every outgoing call but marks and moves was put to
      the engine as it is sent; every one is off when the switch is off, is
      made once per ledger key, with the stored draft; deleting needs a person;
      returned mail pauses rules.
    - Pairing: across restarts, a sender is let in by the operator, by a live
      code that is used up, or by a row that a restart reads back; wrong guesses
      are bounded per fixed window.  The router lets an agent work
      only behind that guard, for an agent that is active, with the recent
      history, and loses no wake-up of a message the guard lets through; the
      queue hands out each row at most once and in order; the
      bus never panics and loses only what it counts.
    - External text is cleaned and framed so that it cannot close its frame;
      calendar text is read back as it was written; metadata of messages is
      lifted once.
    - Conversations sent to a provider follow the providers' contract; the
      cascade asks usable providers in order and leaves an open circuit
      alone; the breaker is a function of the results.
    - A turn of an agent is a run of an abstract loop, which bounds its
      requests and founds every call of a tool on an answer; its one
      row says how the turn ended, with the checkpoint of a turn that waits, and
      other rows stay; a resumed turn executes what was approved and
      goes on with the conversation as if the call had been answered at once,
      where the ids of calls are good; a pruned conversation keeps what it must;
      of a streamed answer the screen has a part in order, and all of it where
      nothing looks like markup.
    - An answer of plain prose is read as it is; a call written between plain
      prose in the format of tokens is read back and leaves no trace; examples
      show what else is taken for a call.
    - The administrator's password is the only one that logs in, tokens live
      as long as they should, and guesses one after the other are bounded.
    - The audit chain verifies after any logging and restarts whose read of the
      last entry does not fail, pins the entries unless two texts at hand have
      one hash, and is broken by a rotation and by ill-formed text.
    - Plans are normalized to graphs that [ExecutePlan] runs in order and
      always ends on; a turn of the engine refines an abstract scheduler.
    - The heartbeat works on one mission per cycle, of an agent that is not
      in the listing of approvals it consulted, within its hours, and tells the
      operator once per turn; an answer completes a mission only for one of four
      reasons and never with an open plan; a mission that goes on without
      progress, once it has made some, is blocked.
    - An accepted path opens a file below the root, up to the links the
      theorem names; a connection goes to no address for local use; an edit changes
      the text it names and, with the exception the theorem states, nothing
      else.
    - The entries of the cron library are those of the jobs listed now; the
      quota holds while ids keep their agents; a restart finds the jobs.
    - The nodes of a workspace stay a forest whose files are where and what
      their rows say, but for the content of a file that a program wrote into; a
      write is all or nothing; what was written is read;
      the path shown for a node leads back to it; no name leads out of the
      projection.

    ** Bounds and fuel

    Recursion is structural where the code's loops walk their data.  Loops
    without a structural measure take fuel, proved to be enough: the loop
    that shortens newlines has the length of the text; the readers of
    calendar text have the length plus one ([split_params_total],
    [param_values_total]); [ExecutePlan] has one round more than there are
    steps; the pulse runs the eight turns the code allows; a turn has the
    twenty iterations of the code and a resumed one ten, and the code after
    them is not reached ([turn_is_react_run], [resumes_what_was_approved]);
    shrinking has a round for every byte of tool results ([shrinking_ends]),
    the walk over blocks one for every message ([walk_spec]), the comments of
    a line of directives one for every byte ([uncomment_enough]); the
    recursive queries of a workspace have one level more than there are
    rows ([subtree_spec], [descendants_spec]), the walk up a tree the 1024
    levels of the code; the parents of a path are no more than its bytes,
    links are followed as often as the kernel (40) and [filepath] (255) do.  The index of
    [SanitizeMessages] that jumps over consumed results is a count of
    messages to skip.  Integers are in [Z] with the bounds of [int] and
    [int64] written where the code can leave them; durations saturate.

    ** What is not modelled, and why

    Code outside the repository is a class with the laws the code relies on:
    JSON decoding, SHA-256, time formats, randomness, Unicode tables beyond
    ASCII, SQLite (statements are atomic and may fail at any point), the
    networks behind providers, plugins and adapters, and what a language
    model answers.  The order of a map range is picked by a class.  Sections
    under one mutex run alone; where an operation leaves its mutex in
    between ([Publish], [executeJob]) its steps interleave.  Schema creation, logging
    calls and HTTP handlers are left out.  Not modelled at all, for now:
    prompts, the sums of the token tracker, panics inside a turn or a cycle
    of the heartbeat, reflection and proactive scans,
    OAuth exchanges, memory and embeddings, the plugin host, process isolation, over-the-air updates and backups, the HTTP
    server, the conversion of calendar times.  The context of a turn is
    looked at where the code does; the next entry of the schedule of failures
    says whether it is done. *)

From Stdlib Require Export ZArith Lia.
From stdpp Require Export base tactics numbers option list gmap strings pretty sorting.

(** ** Fallible code

    A Go function that returns [(T, error)] returns a [result]: a value or
    an error.  The error type is a parameter, since each component has its
    own sentinel errors. *)

Inductive result (E A : Type) : Type :=
  | Ok (a : A)
  | Err (e : E).
Arguments Ok {E A} a.
Arguments Err {E A} e.

#[export] Instance result_ret E : MRet (result E) := fun A a => Ok a.
#[export] Instance result_bind E : MBind (result E) := fun A B f m =>
  match m with Ok a => f a | Err e => Err e end.
#[export] Instance result_fmap E : FMap (result E) := fun A B f m =>
  match m with Ok a => Ok (f a) | Err e => Err e end.

Definition is_ok {E A} (m : result E A) : bool :=
  match m with Ok _ => true | Err _ => false end.

(** [for _, x := range l { y, err := f(x); if err != nil { return nil, err }; out = append(out, y) }] *)
Fixpoint mapM_result {E A B} (f : A -> result E B) (l : list A) : result E (list B) :=
  match l with
  | [] => Ok []
  | x :: l' => y ← f x; ys ← mapM_result f l'; Ok (y :: ys)
  end.

Lemma result_bind_Ok {E A B} (m : result E A) (f : A -> result E B) b :
  (m ≫= f) = Ok b <-> exists a, m = Ok a /\ f a = Ok b.
Proof. destruct m; cbn; naive_solver. Qed.

Lemma mapM_result_Ok {E A B} (f : A -> result E B) l ys :
  mapM_result f l = Ok ys <-> Forall2 (fun x y => f x = Ok y) l ys.
Proof.
  revert ys. induction l as [|x l IH]; intros ys; cbn.
  - split; [intros [= <-]; constructor | intros H; inversion H; done].
  - rewrite result_bind_Ok. setoid_rewrite result_bind_Ok. setoid_rewrite IH.
    split.
    + intros (y & Hy & ys' & Hys & [= <-]). by constructor.
    + intros H. inversion H; subst. naive_solver.
Qed.

Lemma mapM_result_elem {E A B} (f : A -> result E B) l ys y :
  mapM_result f l = Ok ys -> y ∈ ys -> exists x, x ∈ l /\ f x = Ok y.
Proof.
  rewrite mapM_result_Ok. induction 1 as [|x y' l ys Hx _ IH]; [set_solver|].
  intros [->|Hy]%elem_of_cons; [|apply IH in Hy]; set_solver.
Qed.

Lemma mapM_result_ext {E A B} (f g : A -> result E B) l :
  Forall (fun x => f x = g x) l -> mapM_result f l = mapM_result g l.
Proof. induction 1 as [|x l H _ IH]; cbn; [done|]. by rewrite H, IH. Qed.

Lemma mapM_result_id {E A} (f : A -> result E A) l :
  Forall (fun x => f x = Ok x) l -> mapM_result f l = Ok l.
Proof. induction 1 as [|x l H _ IH]; cbn; [done|]. by rewrite H; cbn; rewrite IH. Qed.

Lemma mapM_result_app_Err {E A B} (f : A -> result E B) l1 x l2 e :
  Forall (fun y => is_ok (f y) = true) l1 -> f x = Err e ->
  mapM_result f (l1 ++ x :: l2) = Err e.
Proof.
  induction 1 as [|y l1 Hy _ IH]; intros Hx; cbn.
  - by rewrite Hx.
  - destruct (f y); cbn in *; [by rewrite IH | done].
Qed.

(** ** Integers and time

    [time.Duration] and [int64] values are nanoseconds in [Z], kept in
    range where the code can leave it; instants are nanoseconds since the
    Unix epoch. *)

Definition max_int64 : Z := 9223372036854775807.
Definition min_int64 : Z := -9223372036854775808.

Definition nanosecond : Z := 1.
Definition millisecond : Z := 1000000.
Definition second : Z := 1000000000.
Definition minute : Z := 60 * second.
Definition hour : Z := 60 * minute.
Definition day : Z := 24 * hour.

(** [t.Sub(u)]: the difference of two instants saturates at the ends of
    [int64]. *)
Definition time_sub (t u : Z) : Z := Z.max min_int64 (Z.min max_int64 (t - u)).

(** [t.Add(d)], [t.After(u)], [t.Before(u)] on instants. *)
Definition time_add (t d : Z) : Z := t + d.
Definition time_after (t u : Z) : bool := (u <? t)%Z.
Definition time_before (t u : Z) : bool := (t <? u)%Z.

Lemma time_sub_small t u :
  (min_int64 <= t - u <= max_int64)%Z -> time_sub t u = (t - u)%Z.
Proof. unfold time_sub. lia. Qed.

(** ** Booleans and lists *)

Lemma filter_none {A} (P : A -> Prop) `{!forall x, Decision (P x)} (l : list A) :
  (forall x, x ∈ l -> ~ P x) -> filter P l = [].
Proof.
  intros Hn. destruct (filter P l) as [|x l'] eqn:Hf; [done|].
  assert (Hx : x ∈ filter P l) by (rewrite Hf; apply elem_of_cons; by left).
  apply list_elem_of_filter in Hx as [Hp Hx]. by destruct (Hn x Hx).
Qed.

Lemma filter_all {A} (P : A -> Prop) `{!forall x, Decision (P x)} (l : list A) :
  (forall x, x ∈ l -> P x) -> filter P l = l.
Proof.
  induction l as [|x l IH]; intros Hp; [done|]. rewrite filter_cons_True by (apply Hp, elem_of_cons; by left).
  f_equal. apply IH. intros y Hy. apply Hp, elem_of_cons. by right.
Qed.

Lemma existsb_exists_elem {A} (f : A -> bool) (l : list A) :
  existsb f l = true <-> exists x, x ∈ l /\ f x = true.
Proof. rewrite existsb_exists. by setoid_rewrite list_elem_of_In. Qed.

Lemma existsb_false_elem {A} (f : A -> bool) (l : list A) :
  existsb f l = false <-> forall x, x ∈ l -> f x = false.
Proof.
  rewrite <- not_true_iff_false, existsb_exists_elem.
  split.
  - intros H x Hx. apply not_true_iff_false. naive_solver.
  - intros H (x & Hx & Hf). by rewrite H in Hf.
Qed.

Lemma forallb_elem {A} (f : A -> bool) (l : list A) :
  forallb f l = true <-> forall x, x ∈ l -> f x = true.
Proof. rewrite forallb_forall. by setoid_rewrite list_elem_of_In. Qed.

(** A [for ... { if test(x) { return g(x) } }] loop: the first hit. *)
Fixpoint first_some {A B} (f : A -> option B) (l : list A) : option B :=
  match l with
  | [] => None
  | x :: l' => match f x with Some y => Some y | None => first_some f l' end
  end.

Lemma first_some_Some {A B} (f : A -> option B) l y :
  first_some f l = Some y <->
  exists l1 x l2, l = l1 ++ x :: l2 /\ f x = Some y /\ Forall (fun z => f z = None) l1.
Proof.
  induction l as [|a l IH]; cbn.
  - split; [done|]. intros ([|? ?] & ? & ? & [=] & _).
  - destruct (f a) eqn:Ha.
    + split.
      * intros [= ->]. exists [], a, l. auto.
      * intros ([|a0 l1] & x & l2 & Hl & Hx & Hn); cbn in Hl; injection Hl as <- ->; [congruence|].
        inversion Hn; congruence.
    + rewrite IH. split.
      * intros (l1 & x & l2 & -> & Hx & Hn). exists (a :: l1), x, l2. auto.
      * intros ([|a0 l1] & x & l2 & Hl & Hx & Hn); cbn in Hl; injection Hl as <- ->; [congruence|].
        inversion Hn; subst. eauto 10.
Qed.

Lemma first_some_None {A B} (f : A -> option B) l :
  first_some f l = None <-> Forall (fun x => f x = None) l.
Proof.
  induction l as [|a l IH]; cbn; [done|].
  rewrite Forall_cons. destruct (f a) eqn:?; naive_solver.
Qed.

(** ** Automation

    [split_guards] splits on every test of a Go-style body in the goal or in
    a hypothesis; [inv_res] inverts the equations between results that are
    left. *)

Create HintDb acton discriminated.
Create Rewrite HintDb acton_bool.
#[export] Hint Rewrite
  @existsb_exists_elem @existsb_false_elem @forallb_elem
  bool_decide_eq_true bool_decide_eq_false
  andb_true_iff orb_true_iff andb_false_iff orb_false_iff
  negb_true_iff negb_false_iff Z.ltb_lt Z.ltb_ge Z.leb_le Z.leb_gt
  : acton_bool.

Ltac split_guard :=
  match goal with
  | |- context [match ?x with _ => _ end] =>
      lazymatch x with
      | context [match _ with _ => _ end] => fail
      | _ => destruct x eqn:?
      end
  | H : context [match ?x with _ => _ end] |- _ =>
      lazymatch x with
      | context [match _ with _ => _ end] => fail
      | _ => destruct x eqn:?
      end
  end.

Ltac inv_res :=
  repeat match goal with
  | H : Ok _ = Ok _ |- _ => injection H as H; subst
  | H : Err _ = Err _ |- _ => injection H as H; subst
  | H : Some _ = Some _ |- _ => injection H as H; subst
  | H : (_, _) = (_, _) |- _ => injection H as H; subst
  | H : Ok _ = Err _ |- _ => discriminate H
  | H : Err _ = Ok _ |- _ => discriminate H
  | H : Some _ = None |- _ => discriminate H
  | H : None = Some _ |- _ => discriminate H
  | H : (_ ≫= _) = Ok _ |- _ => apply result_bind_Ok in H as (? & ? & H)
  end.

Ltac split_guards := repeat (split_guard; cbn in *; inv_res; try done).

Ltac bool_simp := autorewrite with acton_bool in *.
