(* ===== verification/GoStrings.v ===== *)
(** * Go strings

    A Go [string] is a sequence of bytes: here a Stdlib [string].  The file
    models what the kernel uses of packages [strings], [unicode] and
    [unicode/utf8]: decoding into runes (with the acceptance ranges of
    [utf8.DecodeRuneInString], a bad byte being U+FFFD of width 1),
    [TrimSpace], [ToLower], [ToUpper], [Fields], [Contains], [HasPrefix],
    [HasSuffix], [Join] and [EqualFold] against a literal.

    The case tables of Unicode beyond ASCII are generated data of Go's
    standard library; they are the class [Unicode]. *)

From S2P Require Import Prelude.
From Stdlib Require Import Ascii.

#[local] Open Scope Z_scope.

(** ** Bytes *)

Definition byte_val (a : ascii) : Z := Z.of_N (N_of_ascii a).
Definition byte_of (z : Z) : ascii := ascii_of_N (Z.to_N z).

Lemma byte_of_val a : byte_of (byte_val a) = a.
Proof. unfold byte_of, byte_val. by rewrite N2Z.id, ascii_N_embedding. Qed.

Lemma byte_val_range a : 0 <= byte_val a < 256.
Proof.
  unfold byte_val. pose proof (N_ascii_bounded a). lia.
Qed.

(** ** Runes *)

Definition rune_error : Z := 65533.

Definition cont (lo hi : Z) (b : ascii) : bool :=
  ((lo <=? byte_val b) && (byte_val b <=? hi))%bool.

(** The low six bits of a continuation byte. *)
Definition low6 (b : ascii) : Z := Z.land (byte_val b) 63.

(** [utf8.DecodeRuneInString] along the string: every rune with the bytes it
    was decoded from. *)
Fixpoint segments (s : string) : list (Z * string) :=
  match s with
  | EmptyString => []
  | String b0 s0 =>
    let v := byte_val b0 in
    let bad := (rune_error, String b0 EmptyString) in
    if v <? 128 then (v, String b0 EmptyString) :: segments s0
    else if (194 <=? v) && (v <=? 223) then
      match s0 with
      | String b1 s1 =>
        if cont 128 191 b1 then
          (Z.lor (Z.shiftl (Z.land v 31) 6) (low6 b1), String b0 (String b1 EmptyString)) :: segments s1
        else bad :: segments s0
      | _ => bad :: segments s0
      end
    else if (224 <=? v) && (v <=? 239) then
      let lo := if v =? 224 then 160 else 128 in
      let hi := if v =? 237 then 159 else 191 in
      match s0 with
      | String b1 (String b2 s2) =>
        if cont lo hi b1 && cont 128 191 b2 then
          (Z.lor (Z.shiftl (Z.land v 15) 12) (Z.lor (Z.shiftl (low6 b1) 6) (low6 b2)),
           String b0 (String b1 (String b2 EmptyString))) :: segments s2
        else bad :: segments s0
      | _ => bad :: segments s0
      end
    else if (240 <=? v) && (v <=? 244) then
      let lo := if v =? 240 then 144 else 128 in
      let hi := if v =? 244 then 143 else 191 in
      match s0 with
      | String b1 (String b2 (String b3 s3)) =>
        if cont lo hi b1 && cont 128 191 b2 && cont 128 191 b3 then
          (Z.lor (Z.shiftl (Z.land v 7) 18)
             (Z.lor (Z.shiftl (low6 b1) 12) (Z.lor (Z.shiftl (low6 b2) 6) (low6 b3))),
           String b0 (String b1 (String b2 (String b3 EmptyString)))) :: segments s3
        else bad :: segments s0
      | _ => bad :: segments s0
      end
    else bad :: segments s0
  end.

(** [for _, r := range s], and [[]rune(s)]. *)
Definition runes (s : string) : list Z := (segments s).*1.

(** The bytes of a list of segments. *)
Definition bytes_of (l : list (Z * string)) : string :=
  foldr (fun p acc => p.2 +:+ acc) "" l.

(** [utf8.EncodeRune]; surrogates and out-of-range values become U+FFFD. *)
Definition encode_rune (r : Z) : string :=
  let r := if (r <? 0) || (1114111 <? r) || ((55296 <=? r) && (r <=? 57343)) then rune_error else r in
  if r <? 128 then String (byte_of r) ""
  else if r <? 2048 then
    String (byte_of (Z.lor 192 (Z.shiftr r 6))) (String (byte_of (Z.lor 128 (Z.land r 63))) "")
  else if r <? 65536 then
    String (byte_of (Z.lor 224 (Z.shiftr r 12)))
      (String (byte_of (Z.lor 128 (Z.land (Z.shiftr r 6) 63)))
        (String (byte_of (Z.lor 128 (Z.land r 63))) ""))
  else
    String (byte_of (Z.lor 240 (Z.shiftr r 18)))
      (String (byte_of (Z.lor 128 (Z.land (Z.shiftr r 12) 63)))
        (String (byte_of (Z.lor 128 (Z.land (Z.shiftr r 6) 63)))
          (String (byte_of (Z.lor 128 (Z.land r 63))) ""))).

Definition encode_runes (l : list Z) : string :=
  foldr (fun r acc => encode_rune r +:+ acc) "" l.

(** ** Package [unicode] *)

(** [unicode.IsSpace]. *)
Definition is_space (r : Z) : bool :=
  ((9 <=? r) && (r <=? 13)) || (r =? 32) || (r =? 133) || (r =? 160) || (r =? 5760)
  || ((8192 <=? r) && (r <=? 8202)) || (r =? 8232) || (r =? 8233) || (r =? 8239)
  || (r =? 8287) || (r =? 12288).

(** [unicode.IsControl]. *)
Definition is_control (r : Z) : bool :=
  ((0 <=? r) && (r <=? 31)) || ((127 <=? r) && (r <=? 159)).

Class Unicode := {
  uni_lower : Z -> Z;   (* unicode.ToLower beyond ASCII *)
  uni_upper : Z -> Z    (* unicode.ToUpper beyond ASCII *)
}.

(** Tables that change nothing beyond ASCII, for closed examples. *)
Definition ascii_tables : Unicode := {| uni_lower := id; uni_upper := id |}.

Definition rune_lower `{Unicode} (r : Z) : Z :=
  if r <=? 127 then (if (65 <=? r) && (r <=? 90) then r + 32 else r) else uni_lower r.

Definition rune_upper `{Unicode} (r : Z) : Z :=
  if r <=? 127 then (if (97 <=? r) && (r <=? 122) then r - 32 else r) else uni_upper r.

(** ** Package [strings] *)

(** [strings.ToLower], [strings.ToUpper]. *)
Definition to_lower `{Unicode} (s : string) : string := encode_runes (rune_lower <$> runes s).
Definition to_upper `{Unicode} (s : string) : string := encode_runes (rune_upper <$> runes s).

Fixpoint drop_while {A} (p : A -> bool) (l : list A) : list A :=
  match l with
  | [] => []
  | x :: l' => if p x then drop_while p l' else l
  end.

Definition seg_space (p : Z * string) : bool := is_space p.1.

(** [strings.TrimSpace]. *)
Definition trim_space (s : string) : string :=
  bytes_of (reverse (drop_while seg_space (reverse (drop_while seg_space (segments s))))).

(** [strings.Fields]: the maximal runs of runes that are not spaces. *)
Fixpoint fields_go (l : list (Z * string)) (acc : string) : list string :=
  match l with
  | [] => if bool_decide (acc = "") then [] else [acc]
  | (r, b) :: l' =>
    if is_space r then
      (if bool_decide (acc = "") then fields_go l' "" else acc :: fields_go l' "")
    else fields_go l' (acc +:+ b)
  end.
Definition fields (s : string) : list string := fields_go (segments s) "".

(** [strings.HasPrefix(s, p)]. *)
Fixpoint has_prefix (s p : string) {struct p} : bool :=
  match p, s with
  | "", _ => true
  | String a p', String b s' => bool_decide (a = b) && has_prefix s' p'
  | _, _ => false
  end.

Fixpoint string_rev (s acc : string) : string :=
  match s with "" => acc | String a s' => string_rev s' (String a acc) end.

(** [strings.HasSuffix(s, p)]. *)
Definition has_suffix (s p : string) : bool := has_prefix (string_rev s "") (string_rev p "").

(** [strings.Contains(s, sub)]. *)
Fixpoint contains_str (s sub : string) : bool :=
  has_prefix s sub ||
  match s with "" => false | String _ s' => contains_str s' sub end.

(** [strings.ContainsAny(s, chars)] for ASCII [chars], and
    [strings.ContainsRune]. *)
Definition contains_any (s : string) (chars : list Z) : bool :=
  existsb (fun r => bool_decide (r ∈ chars)) (runes s).

(** [strings.Join(l, sep)]. *)
Fixpoint join (l : list string) (sep : string) : string :=
  match l with
  | [] => ""
  | [x] => x
  | x :: l' => x +:+ sep +:+ join l' sep
  end.

(** [strings.ReplaceAll(s, old, new)] for [old] not empty; the fuel is the
    length of the string. *)
Fixpoint replace_all_go (fuel : nat) (s old new : string) : string :=
  match fuel with
  | O => s
  | S fuel' =>
    match s with
    | "" => ""
    | String a s' =>
      if has_prefix s old
      then new +:+ replace_all_go fuel' (String.substring (String.length old) (String.length s) s) old new
      else String a (replace_all_go fuel' s' old new)
    end
  end.
Definition replace_all (s old new : string) : string :=
  replace_all_go (S (String.length s)) s old new.

(** [strings.LastIndexByte(s, c)] as the split at that byte: what precedes it
    and what follows it. *)
Fixpoint split_last (s : string) (c : ascii) : option (string * string) :=
  match s with
  | "" => None
  | String a s' =>
    match split_last s' c with
    | Some (l, r) => Some (String a l, r)
    | None => if bool_decide (a = c) then Some ("", s') else None
    end
  end.

(** [len(s)] in bytes. *)
Definition len (s : string) : Z := Z.of_nat (String.length s).

(** [s[:n]] for [n <= len(s)]. *)
Definition take_bytes (n : nat) (s : string) : string := String.substring 0 n s.

(** The ASCII letters of a literal compared with [strings.EqualFold]: for the
    letters of [true] simple folding is ASCII lower-casing. *)
Definition ascii_lower (a : ascii) : ascii :=
  let v := byte_val a in if (65 <=? v) && (v <=? 90) then byte_of (v + 32) else a.
Fixpoint map_bytes (f : ascii -> ascii) (s : string) : string :=
  match s with "" => "" | String a s' => String (f a) (map_bytes f s') end.
Definition equal_fold_true (s : string) : bool := bool_decide (map_bytes ascii_lower s = "true").

(** ** What the tests of package [strings] decide *)

Lemma string_app_cons a (s t : string) : String a s +:+ t = String a (s +:+ t).
Proof. reflexivity. Qed.

Lemma string_app_assoc (a b c : string) : (a +:+ b) +:+ c = a +:+ (b +:+ c).
Proof. induction a as [|x a IH]; [done|]. by rewrite !string_app_cons, IH. Qed.

Lemma string_app_nil_r (a : string) : a +:+ "" = a.
Proof. induction a as [|x a IH]; [done|]. by rewrite string_app_cons, IH. Qed.

Lemma string_length_app (a b : string) :
  String.length (a +:+ b) = (String.length a + String.length b)%nat.
Proof. induction a as [|x a IH]; [done|]. rewrite string_app_cons. cbn. by rewrite IH. Qed.

Lemma has_prefix_spec s p : has_prefix s p = true <-> exists t, s = p +:+ t.
Proof.
  revert s. induction p as [|a p IH]; intros s; cbn.
  - split; [by exists s | done].
  - destruct s as [|b s]; cbn.
    + split; [done | by intros (t & ?)].
    + rewrite andb_true_iff, bool_decide_eq_true, IH. split.
      * intros (-> & t & ->). by exists t.
      * intros (t & [= -> ->]). eauto.
Qed.

Lemma contains_str_spec s sub :
  contains_str s sub = true <-> exists l r, s = l +:+ sub +:+ r.
Proof.
  induction s as [|a s IH]; cbn [contains_str]; rewrite orb_true_iff, has_prefix_spec.
  - split.
    + intros [(t & ->)|?]; [by exists "", t | done].
    + intros (l & r & Hs). destruct l; [|done]. left. by exists r.
  - rewrite IH. split.
    + intros [(t & ->)|(l & r & ->)]; [by exists "", t | by exists (String a l), r].
    + intros (l & r & Hs). destruct l as [|b l]; [left; by exists r|].
      right. injection Hs as -> ->. by exists l, r.
Qed.

Lemma split_last_Some s c l r :
  split_last s c = Some (l, r) -> s = l +:+ String c r.
Proof.
  revert l r. induction s as [|a s IH]; intros l r; cbn; [done|].
  destruct (split_last s c) as [[l' r']|] eqn:Hs.
  - intros [= <- <-]. rewrite string_app_cons. f_equal. by apply IH.
  - case_bool_decide; [|done]. intros [= <- <-]. by subst.
Qed.

Lemma split_last_None_iff s c :
  split_last s c = None <-> ~ exists l r, s = l +:+ String c r.
Proof.
  induction s as [|a s IH]; cbn.
  - split; [|done]. intros _ (l & r & Hs). by destruct l.
  - destruct (split_last s c) as [[l' r']|] eqn:Hs.
    + split; [done|]. intros []. apply split_last_Some in Hs as ->.
      by exists (String a l'), r'.
    + case_bool_decide as Ha.
      * split; [done|]. intros []. subst. by exists "", s.
      * split; [|done]. intros _ (l & r & Hl).
        destruct l as [|b l]; injection Hl as -> ->; [done|].
        apply IH; [done|]. by exists l, r.
Qed.

(** The separator found is the last one: what follows has none. *)
Lemma split_last_right s c l r :
  split_last s c = Some (l, r) -> split_last r c = None.
Proof.
  revert l r. induction s as [|a s IH]; intros l r; cbn; [done|].
  destruct (split_last s c) as [[l' r']|] eqn:Hs.
  - intros [= <- <-]. by eapply IH.
  - case_bool_decide; [|done]. by intros [= <- <-].
Qed.

Lemma split_last_app l c r :
  split_last r c = None -> split_last (l +:+ String c r) c = Some (l, r).
Proof.
  intros Hr. induction l as [|a l IH]; rewrite ?string_app_cons; cbn.
  - change (split_last (String c r) c = Some ("", r)). cbn. by rewrite Hr, bool_decide_true.
  - by rewrite IH.
Qed.

(** Decoding loses nothing: the segments of a string are its bytes.  The
    induction is on the length, since a segment takes up to four bytes. *)
Lemma bytes_of_segments s : bytes_of (segments s) = s.
Proof.
  induction s as [s IH] using (induction_ltof1 _ String.length); unfold ltof in IH.
  assert (Hrec : forall p s', (String.length s' < String.length s)%nat ->
            s = p +:+ s' -> forall r, bytes_of ((r, p) :: segments s') = s).
  { intros p s' Hlt -> r. unfold bytes_of; cbn. f_equal. by apply IH. }
  destruct s as [|b0 s0]; [done|]. cbn [segments].
  repeat match goal with
  | |- context [match ?x with "" => _ | String _ _ => _ end] => is_var x; destruct x
  | |- context [if ?b then _ else _] => destruct b
  end; apply Hrec; cbn; try lia; reflexivity.
Qed.

(** ** Separators *)

Fixpoint no_byte (c : ascii) (s : string) : bool :=
  match s with "" => true | String a s' => negb (bool_decide (a = c)) && no_byte c s' end.

(** A separator that does not occur before it splits a string in one way. *)
Lemma app_sep_inj c a a' x x' :
  no_byte c a = true -> no_byte c a' = true -> a +:+ String c x = a' +:+ String c x' -> a = a' /\ x = x'.
Proof.
  revert a'. induction a as [|d a IH]; intros [|d' a']; rewrite ?string_app_cons;
    try change ("" +:+ String c x) with (String c x); try change ("" +:+ String c x') with (String c x'); cbn [no_byte].
  - intros _ _ [= ->]. done.
  - intros _ [Hc _]%andb_true_iff [= <- _]. by rewrite negb_true_iff, bool_decide_eq_false in Hc.
  - intros [Hc _]%andb_true_iff _ [= -> _]. by rewrite negb_true_iff, bool_decide_eq_false in Hc.
  - intros [_ Ha]%andb_true_iff [_ Ha']%andb_true_iff [= -> H]. destruct (IH a' Ha Ha' H) as [-> ->]. done.
Qed.

(** Parts of equal lengths. *)
Lemma app_len_inj a a' x x' :
  String.length a = String.length a' -> a +:+ x = a' +:+ x' -> a = a' /\ x = x'.
Proof.
  revert a'. induction a as [|d a IH]; intros [|d' a']; try discriminate; [done|].
  rewrite !string_app_cons. intros [= Hl] [= -> H]. destruct (IH a' Hl H) as [-> ->]. done.
Qed.

Lemma no_byte_app c a b : no_byte c (a +:+ b) = no_byte c a && no_byte c b.
Proof. induction a as [|d a IH]; [done|]. rewrite string_app_cons. cbn. by rewrite IH, andb_assoc. Qed.

(** Decimal numbers are digits. *)
Lemma pretty_N_digits n s : no_byte (byte_of 58) s = true -> no_byte (byte_of 58) (pretty_N_go n s) = true.
Proof.
  revert s. induction (N.lt_wf_0 n) as [n _ IH]. intros s Hs. destruct (decide (n = 0)%N) as [->|Hn].
  - by rewrite pretty_N_go_0.
  - rewrite pretty_N_go_step by lia. apply IH; [apply N.div_lt; lia|]. cbn [no_byte]. rewrite Hs, andb_true_r.
    apply negb_true_iff, bool_decide_eq_false. unfold pretty_N_char. by repeat case_match.
Qed.
Lemma pretty_N_no_colon (n : N) : no_byte (byte_of 58) (pretty n) = true.
Proof.
  unfold pretty, pretty_N. case_decide; [done|]. by apply pretty_N_digits.
Qed.
Lemma pretty_Z_no_colon (z : Z) : 0 <= z -> no_byte (byte_of 58) (pretty z) = true.
Proof. intros Hz. unfold pretty, pretty_Z. destruct z; [done|apply pretty_N_no_colon|lia]. Qed.
