(* ===== verification/Regex.v ===== *)
(** * Regular expressions

    The kernel screens text with a handful of [regexp] patterns.  This file
    gives the fragment of RE2 they use (character classes, sequence,
    alternation, repetition, optional [(?i)] case folding) as a syntax tree
    over runes, its meaning as an inductive relation, and an executable
    matcher by derivatives proved to decide that meaning. *)

From S2P Require Import Prelude GoStrings.

#[local] Open Scope Z_scope.

Inductive re :=
  | REmpty                       (* matches nothing *)
  | REps                         (* the empty string *)
  | RCls (f : Z -> bool)         (* one rune of a class *)
  | RSeq (a b : re)
  | RAlt (a b : re)
  | RStar (a : re).

(** What a pattern matches. *)
Inductive matches : re -> list Z -> Prop :=
  | m_eps : matches REps []
  | m_cls f r : f r = true -> matches (RCls f) [r]
  | m_seq a b u v : matches a u -> matches b v -> matches (RSeq a b) (u ++ v)
  | m_alt_l a b u : matches a u -> matches (RAlt a b) u
  | m_alt_r a b u : matches b u -> matches (RAlt a b) u
  | m_star_nil a : matches (RStar a) []
  | m_star_app a u v : matches a u -> matches (RStar a) v -> matches (RStar a) (u ++ v).

Fixpoint nullable (e : re) : bool :=
  match e with
  | REmpty | RCls _ => false
  | REps | RStar _ => true
  | RSeq a b => nullable a && nullable b
  | RAlt a b => nullable a || nullable b
  end.

(** Constructors that drop what cannot match, so derivatives stay small. *)
Definition seq' (a b : re) : re :=
  match a, b with
  | REmpty, _ => REmpty
  | _, REmpty => REmpty
  | REps, _ => b
  | _, _ => RSeq a b
  end.
Definition alt' (a b : re) : re :=
  match a, b with
  | REmpty, _ => b
  | _, REmpty => a
  | _, _ => RAlt a b
  end.

Fixpoint deriv (r : Z) (e : re) : re :=
  match e with
  | REmpty | REps => REmpty
  | RCls f => if f r then REps else REmpty
  | RSeq a b =>
    if nullable a then alt' (seq' (deriv r a) b) (deriv r b) else seq' (deriv r a) b
  | RAlt a b => alt' (deriv r a) (deriv r b)
  | RStar a => seq' (deriv r a) (RStar a)
  end.

Fixpoint match_runes (e : re) (s : list Z) : bool :=
  match s with
  | [] => nullable e
  | r :: s' => match_runes (deriv r e) s'
  end.

Lemma seq'_matches a b u : matches (seq' a b) u <-> matches (RSeq a b) u.
Proof.
  assert (He : forall b v, matches b v <-> matches (RSeq REps b) v).
  { intros b' v. split.
    - intros H. apply (m_seq REps b' [] v); [constructor | done].
    - intros H. inversion H as [| |? ? ? ? H1 H2| | | |]; subst. inversion H1; subst. done. }
  destruct a, b; cbn [seq']; try reflexivity; try apply He;
    split; intros H; inversion H; subst;
    match goal with H : matches REmpty _ |- _ => inversion H end.
Qed.

Lemma alt'_matches a b u : matches (alt' a b) u <-> matches (RAlt a b) u.
Proof.
  destruct a, b; cbn [alt']; try reflexivity;
    (split; intros H;
     [ first [by apply m_alt_l | by apply m_alt_r]
     | inversion H; subst; first [done | match goal with H : matches REmpty _ |- _ => inversion H end]]).
Qed.

Lemma matches_seq_inv a b u :
  matches (RSeq a b) u <-> exists v w, u = v ++ w /\ matches a v /\ matches b w.
Proof.
  split; [intros H; inversion H; subst; eauto 6 | intros (v & w & -> & ? & ?); by constructor].
Qed.

Lemma matches_alt_inv a b u : matches (RAlt a b) u <-> matches a u \/ matches b u.
Proof. split; [intros H; inversion H; auto | intros [?|?]; [by apply m_alt_l|by apply m_alt_r]]. Qed.

Lemma nullable_spec e : nullable e = true <-> matches e [].
Proof.
  induction e as [| |f|a IHa b IHb|a IHa b IHb|a IHa]; cbn.
  - split; [done | intros H; inversion H].
  - split; [constructor | done].
  - split; [done | intros H; inversion H].
  - rewrite andb_true_iff, IHa, IHb, matches_seq_inv. split.
    + intros [? ?]. by exists [], [].
    + intros (v & w & Hvw & ? & ?). symmetry in Hvw. apply app_eq_nil in Hvw as [-> ->]. done.
  - by rewrite orb_true_iff, IHa, IHb, matches_alt_inv.
  - split; [constructor | done].
Qed.

(** A non-empty match of a repetition starts with a non-empty match of its body. *)
Lemma matches_star_cons a r u :
  matches (RStar a) (r :: u) ->
  exists v w, u = v ++ w /\ matches a (r :: v) /\ matches (RStar a) w.
Proof.
  remember (RStar a) as e eqn:He. remember (r :: u) as s eqn:Hs.
  intros H. revert u Hs. induction H as [| | | | | |a' v w Hv _ Hw IH]; intros t Hs; try discriminate.
  injection He as ->. destruct v as [|x v]; cbn in Hs.
  - by apply IH.
  - injection Hs as -> <-. by exists v, w.
Qed.

Lemma deriv_spec r e u : matches (deriv r e) u <-> matches e (r :: u).
Proof.
  revert u. induction e as [| |f|a IHa b IHb|a IHa b IHb|a IHa]; intros u; cbn.
  - split; intros H; inversion H.
  - split; intros H; inversion H.
  - destruct (f r) eqn:Hf; split; intros H; inversion H; subst; try congruence; by constructor.
  - assert (Hs : matches (seq' (deriv r a) b) u <->
             exists v w, u = v ++ w /\ matches a (r :: v) /\ matches b w).
    { rewrite seq'_matches, matches_seq_inv. by setoid_rewrite IHa. }
    assert (Hc : matches (RSeq a b) (r :: u) <->
             (matches a [] /\ matches b (r :: u)) \/ (exists v w, u = v ++ w /\ matches a (r :: v) /\ matches b w)).
    { rewrite matches_seq_inv. split.
      - intros ([|x v] & w & Hu & Ha & Hb); cbn in Hu; [subst; auto|].
        injection Hu as <- ->. right. eauto.
      - intros [[? ?]|(v & w & -> & ? & ?)]; [by exists [], (r :: u) | by exists (r :: v), w]. }
    rewrite Hc. destruct (nullable a) eqn:Hn.
    + rewrite alt'_matches, matches_alt_inv, Hs, IHb. apply nullable_spec in Hn. tauto.
    + rewrite Hs. split; [auto|]. intros [[Ha _]|?]; [|done].
      apply nullable_spec in Ha. congruence.
  - by rewrite alt'_matches, !matches_alt_inv, IHa, IHb.
  - rewrite seq'_matches, matches_seq_inv. setoid_rewrite IHa. split.
    + intros (v & w & -> & Ha & Hw). by apply (m_star_app a (r :: v) w).
    + apply matches_star_cons.
Qed.

(** The matcher decides the relation. *)
Lemma match_runes_spec e s : match_runes e s = true <-> matches e s.
Proof.
  revert e. induction s as [|r s IH]; intros e; cbn.
  - apply nullable_spec.
  - by rewrite IH, deriv_spec.
Qed.

(** ** Building patterns *)

Definition any : re := RStar (RCls (fun _ => true)).

Definition rs (l : list re) : re := foldr RSeq REps l.      (* juxtaposition *)
Definition alts (l : list re) : re := foldr RAlt REmpty l.  (* a|b|c *)
Definition ropt (a : re) : re := RAlt a REps.                (* a? *)
Definition rplus (a : re) : re := RSeq a (RStar a).          (* a+ *)
Definition rmin (n : nat) (a : re) : re := RSeq (rs (replicate n a)) (RStar a). (* a{n,} *)

Definition in_range (lo hi r : Z) : bool := (lo <=? r) && (r <=? hi).
Definition one (c : Z) : re := RCls (fun r => r =? c).

(** One letter under [(?i)]: simple folding adds U+017F to [s] and U+212A to [k]. *)
Definition fold_eq (c r : Z) : bool :=
  (rune_lower (H := ascii_tables) r =? c)
  || ((c =? 115) && (r =? 383)) || ((c =? 107) && (r =? 8490)).

(** A lower-case literal, exactly and under [(?i)]. *)
Definition lit (s : string) : re := rs (one <$> runes s).
Definition lit_i (s : string) : re := rs ((fun c => RCls (fold_eq c)) <$> runes s).

(** [\s] of RE2. *)
Definition re_space : re :=
  RCls (fun r => (r =? 9) || (r =? 10) || (r =? 12) || (r =? 13) || (r =? 32)).

(** [re.MatchString(s)]: anywhere in the string, or from its beginning when the
    pattern starts with [^]. *)
Definition match_string (e : re) (s : string) : bool :=
  match_runes (rs [any; e; any]) (runes s).
Definition match_prefix (e : re) (s : string) : bool :=
  match_runes (rs [e; any]) (runes s).

Lemma matches_any u : matches any u.
Proof.
  induction u as [|r u IH]; [constructor|].
  apply (m_star_app _ [r] u); [by constructor | done].
Qed.

Lemma match_string_spec e s :
  match_string e s = true <-> exists u v w, runes s = u ++ v ++ w /\ matches e v.
Proof.
  unfold match_string, rs; cbn. rewrite match_runes_spec. split.
  - intros H. apply matches_seq_inv in H as (u & x & Hs & _ & H).
    apply matches_seq_inv in H as (v & y & -> & Hv & H).
    apply matches_seq_inv in H as (w & z & -> & _ & H). inversion H; subst.
    rewrite app_nil_r in Hs. eauto.
  - intros (u & v & w & -> & Hv). constructor; [apply matches_any|].
    constructor; [done|]. rewrite <- (app_nil_r w). constructor; [apply matches_any | constructor].
Qed.
