(* ===== verification/GoPath.v ===== *)
(** * Paths ([path/filepath] on Linux)

    [Clean], [Rel], [Join] and [Base] as the kernel uses them, on byte
    strings, and what they compute on path elements. *)

From S2P Require Import Prelude GoStrings.
From Stdlib Require Import Ascii.

#[local] Open Scope Z_scope.

Definition slash : ascii := byte_of 47.

(** [strings.Split(s, c)] for one byte. *)
Fixpoint split_byte (c : ascii) (s : string) : list string :=
  match s with
  | "" => [""]
  | String a s' =>
    if bool_decide (a = c) then "" :: split_byte c s'
    else match split_byte c s' with
         | x :: l => String a x :: l
         | [] => [String a ""]
         end
  end.

(** The elements kept by [Clean], last first. *)
Definition clean_elem (rooted : bool) (out : list string) (x : string) : list string :=
  if bool_decide (x = "") || bool_decide (x = ".") then out
  else if bool_decide (x = "..") then
    match out with
    | y :: out' => if bool_decide (y = "..") then ".." :: out else out'
    | [] => if rooted then [] else [".."]
    end
  else x :: out.

Definition rooted (s : string) : bool := has_prefix s "/".
Definition elems (s : string) : list string :=
  reverse (fold_left (clean_elem (rooted s)) (split_byte slash s) []).

Definition render (r : bool) (l : list string) : string :=
  if r then "/" +:+ join l "/" else if bool_decide (l = []) then "." else join l "/".

Definition Clean (s : string) : string :=
  if bool_decide (s = "") then "." else render (rooted s) (elems s).

(** The elements of a cleaned path as [Rel] walks them. *)
Definition words (s : string) : list string :=
  if bool_decide (s = "") then [] else if bool_decide (s = "/") then [""] else split_byte slash s.

Fixpoint drop_common (b t : list string) : list string * list string :=
  match b, t with
  | x :: b', y :: t' => if bool_decide (x = y) then drop_common b' t' else (b, t)
  | _, _ => (b, t)
  end.

Definition Rel (basepath targpath : string) : option string :=
  let base := Clean basepath in
  let targ := Clean targpath in
  if bool_decide (targ = base) then Some "."
  else
    let base := if bool_decide (base = ".") then "" else base in
    if negb (Bool.eqb (rooted base) (rooted targ)) then None
    else
      let '(rb, rt) := drop_common (words base) (words targ) in
      match rb, rt with
      | [], _ => Some (join rt "/")
      | x :: _, _ :: _ =>
        if bool_decide (x = "..") then None
        else Some (join (replicate (List.length rb) ".." ++ rt) "/")
      | _ :: _, [] => Some (join (replicate (List.length rb) "..") "/")
      end.

(** [filepath.Join] and [filepath.Base]. *)
Definition Join (l : list string) : string :=
  match filter (fun x => x <> "") l with
  | [] => ""
  | l' => Clean (join l' "/")
  end.

Definition Base (s : string) : string :=
  if bool_decide (s = "") then "."
  else match filter (fun x => x <> "") (split_byte slash s) with
       | [] => "/"
       | x :: l => List.last (x :: l) ""
       end.

(** ** Splitting and joining *)

Lemma split_byte_no c s : Forall (fun x => no_byte c x = true) (split_byte c s).
Proof.
  induction s as [|a s IH]; cbn; [by constructor|]. case_bool_decide; [by constructor|].
  destruct (split_byte c s) as [|x l]; [by repeat constructor; cbn; rewrite bool_decide_false|].
  inversion IH; subst. constructor; [cbn; by rewrite bool_decide_false|done].
Qed.

Lemma split_byte_whole c x : no_byte c x = true -> split_byte c x = [x].
Proof.
  induction x as [|a x IH]; cbn; [done|]. intros [Ha Hx]%andb_true_iff.
  rewrite negb_true_iff in Ha. by rewrite Ha, IH.
Qed.

Lemma split_byte_app c x s :
  no_byte c x = true -> split_byte c (x +:+ String c s) = x :: split_byte c s.
Proof.
  induction x as [|a x IH].
  - intros _. change (split_byte c (String c s) = "" :: split_byte c s). cbn. by rewrite bool_decide_true.
  - cbn [no_byte]. intros [Ha Hx]%andb_true_iff. rewrite string_app_cons. cbn.
    rewrite negb_true_iff in Ha. by rewrite Ha, IH.
Qed.

Lemma split_join x l :
  Forall (fun x => no_byte slash x = true) (x :: l) -> split_byte slash (join (x :: l) "/") = x :: l.
Proof.
  revert x. induction l as [|y l IH]; intros x Hx; inversion Hx; subst.
  - by apply split_byte_whole.
  - change (split_byte slash (x +:+ "/" +:+ join (y :: l) "/") = x :: y :: l).
    change ("/" +:+ join (y :: l) "/") with (String slash (join (y :: l) "/")).
    rewrite split_byte_app by done. f_equal. by apply IH.
Qed.

(** ** Clean elements *)

Definition plain_elem (x : string) : Prop := x <> "" /\ x <> "." /\ no_byte slash x = true.

(** Only leading elements go up, and none of a rooted path. *)
Fixpoint ups_first (l : list string) : Prop :=
  match l with
  | [] => True
  | x :: l' => (x = ".." /\ ups_first l') \/ Forall (fun y => y <> "..") l
  end.

Definition clean_list (r : bool) (l : list string) : Prop :=
  Forall plain_elem l /\ ups_first l /\ (r = true -> Forall (fun y => y <> "..") l).

Lemma ups_first_snoc l x :
  ups_first l -> (x = ".." -> Forall (fun y => y = "..") l) -> ups_first (l ++ [x]).
Proof.
  induction l as [|y l IH]; cbn; intros Hl Hx.
  - destruct (decide (x = "..")); [by left|right; by constructor].
  - destruct Hl as [[-> Hl]|Hl].
    + left. split; [done|]. apply IH; [done|]. intros Hx'. specialize (Hx Hx'). by inversion Hx.
    + right. destruct (decide (x = "..")) as [Hx'|Hx'].
      * specialize (Hx Hx'). inversion Hx; inversion Hl; by subst.
      * rewrite app_comm_cons, Forall_app. split; [done|by constructor].
Qed.

Lemma ups_first_snoc_inv l x : ups_first (l ++ [x]) -> ups_first l /\ (x = ".." -> Forall (fun y => y = "..") l).
Proof.
  induction l as [|y l IH]; cbn; intros H; [done|]. destruct H as [[-> H]|H].
  - destruct (IH H) as [Hu Hx]. split; [by left|]. intros Hd. constructor; auto.
  - rewrite app_comm_cons, Forall_app in H. destruct H as [Hl Hx]. split; [by right|].
    intros ->. by inversion Hx.
Qed.

Lemma clean_list_step r l x :
  no_byte slash x = true -> clean_list r (reverse l) -> clean_list r (reverse (clean_elem r l x)).
Proof.
  intros Hnb (Hp & Hu & Hr). unfold clean_elem.
  destruct (bool_decide (x = "") || bool_decide (x = ".")) eqn:He; [done|].
  rewrite orb_false_iff, !bool_decide_eq_false in He. destruct He as [He1 He2].
  assert (Hcons : forall y, plain_elem y -> (y = ".." -> r = false /\ Forall (fun z => z = "..") (reverse l)) ->
            clean_list r (reverse (y :: l))).
  { intros y Hy Hd. rewrite reverse_cons. split; [|split].
    - rewrite Forall_app. split; [done|by constructor].
    - apply ups_first_snoc; [done|]. intros Hy'. by apply Hd.
    - intros Hrt. rewrite Forall_app. split; [auto|]. constructor; [|done]. intros Hy'.
      destruct (Hd Hy') as [Hf _]. congruence. }
  assert (Hup : forall z l', l = z :: l' -> clean_list r (reverse l')).
  { intros z l' ->. rewrite reverse_cons in Hp, Hu, Hr. apply ups_first_snoc_inv in Hu as [Hu _].
    rewrite Forall_app in Hp. split; [apply Hp|split; [done|]].
    intros Hrt. specialize (Hr Hrt). rewrite Forall_app in Hr. apply Hr. }
  case_bool_decide as Hx.
  - destruct l as [|y l'].
    + destruct r; [done|]. apply (Hcons ".."); [done|]. intros _. split; [done|by constructor].
    + case_bool_decide as Hy; [|by eapply Hup]. subst y.
      apply (Hcons ".."); [done|]. intros _. destruct r.
      * rewrite reverse_cons in Hr. specialize (Hr eq_refl). rewrite Forall_app in Hr.
        destruct Hr as [_ Hr]. by inversion Hr.
      * split; [done|]. rewrite reverse_cons in Hu. apply ups_first_snoc_inv in Hu as [_ Hu].
        rewrite reverse_cons, Forall_app. split; [by apply Hu|by constructor].
  - apply Hcons; [done|]. intros ->. by destruct Hx.
Qed.

Lemma elems_clean s : clean_list (rooted s) (elems s).
Proof.
  unfold elems.
  assert (H : forall l out, Forall (fun x => no_byte slash x = true) l -> clean_list (rooted s) (reverse out) ->
            clean_list (rooted s) (reverse (fold_left (clean_elem (rooted s)) l out))).
  { induction l as [|x l IH]; intros out Hl Hout; cbn; [done|]. inversion Hl; subst.
    apply IH; [done|]. by apply clean_list_step. }
  apply H; [apply split_byte_no|]. by split; [|split].
Qed.

(** ** [Rel] on cleaned paths *)

Lemma Clean_render s : Clean s = render (rooted s) (elems s).
Proof. unfold Clean. case_bool_decide as H; [by subst|done]. Qed.

Lemma plain_split l : l <> [] -> Forall plain_elem l -> split_byte slash (join l "/") = l.
Proof.
  intros Hl Hp. destruct l as [|x l]; [done|]. apply split_join.
  eapply Forall_impl; [exact Hp|]. intros y Hy. apply Hy.
Qed.

Lemma plain_join_not l s :
  l <> [] -> Forall plain_elem l -> Forall (fun x => x = "" \/ x = ".") (split_byte slash s) -> join l "/" <> s.
Proof.
  intros Hl Hp Hs Heq. rewrite <- Heq, plain_split in Hs by done.
  destruct l as [|x l]; [done|]. inversion Hs as [|? ? Hx _]; inversion Hp as [|? ? (Hx1 & Hx2 & _) _]; subst.
  naive_solver.
Qed.

Lemma rooted_render r l : Forall plain_elem l -> rooted (render r l) = r.
Proof.
  intros Hp. unfold render, rooted. destruct r; [done|]. case_bool_decide as Hl; [done|].
  apply not_true_iff_false. intros (t & Ht)%has_prefix_spec.
  assert (Hs : split_byte slash (join l "/") = "" :: split_byte slash t) by by rewrite Ht.
  rewrite plain_split in Hs by done. subst l. inversion Hp as [|? ? [Hx _] _]. done.
Qed.

Lemma words_render r l :
  Forall plain_elem l -> words (render r l) = if r then "" :: l else if bool_decide (l = []) then ["."] else l.
Proof.
  intros Hp. destruct (decide (l = [])) as [->|Hl]; [by destruct r|].
  assert (Hne : join l "/" <> "" /\ join l "/" <> "/").
  { split; apply plain_join_not; try done; cbn; repeat constructor; by left. }
  unfold render, words. rewrite (bool_decide_false (l = [])) by done. destruct r.
  - rewrite !bool_decide_false.
    + change ("/" +:+ join l "/") with (String slash (join l "/")). cbn.
      by rewrite bool_decide_true, plain_split.
    + change ("/" +:+ join l "/") with (String slash (join l "/")). intros [=]. by destruct Hne.
    + done.
  - rewrite !bool_decide_false by apply Hne. by apply plain_split.
Qed.

Lemma drop_common_spec b t :
  exists c rb rt, drop_common b t = (rb, rt) /\ b = c ++ rb /\ t = c ++ rt /\
    (rb = [] \/ rt = [] \/ exists x y b' t', rb = x :: b' /\ rt = y :: t' /\ x <> y).
Proof.
  revert t. induction b as [|x b IH]; intros t; [exists [], [], t; auto 6|].
  destruct t as [|y t]; [exists [], (x :: b), []; auto 6|]. cbn. case_bool_decide as Hxy.
  - subst y. destruct (IH t) as (c & rb & rt & -> & -> & -> & H). by exists (x :: c), rb, rt.
  - exists [], (x :: b), (y :: t). split_and!; try done. right; right. by exists x, y, b, t.
Qed.

Definition climbs (rel : string) : bool := bool_decide (rel = "..") || has_prefix rel "../".

Lemma climbs_join x l :
  no_byte slash x = true -> climbs (join (x :: l) "/") = bool_decide (x = "..").
Proof.
  intros Hx. destruct l as [|y l].
  - change (bool_decide (x = "..") || has_prefix x "../" = bool_decide (x = "..")).
    case_bool_decide as H; [done|]. cbn [orb]. apply not_true_iff_false. intros (t & Ht)%has_prefix_spec.
    pose proof (split_byte_whole slash x Hx) as Hs. by rewrite Ht in Hs.
  - change (climbs (x +:+ "/" +:+ join (y :: l) "/") = bool_decide (x = "..")).
    remember (x +:+ "/" +:+ join (y :: l) "/") as s eqn:Hs0.
    assert (Hs : split_byte slash s = x :: split_byte slash (join (y :: l) "/")).
    { rewrite Hs0. by apply split_byte_app. }
    change (bool_decide (s = "..") || has_prefix s "../" = bool_decide (x = "..")).
    case_bool_decide as Hdd; [rewrite Hdd in Hs; by inversion Hs|]. cbn [orb].
    case_bool_decide as Hxd.
    + subst x s. apply has_prefix_spec. by eexists.
    + apply not_true_iff_false. intros (t & Ht)%has_prefix_spec. rewrite Ht in Hs. by inversion Hs.
Qed.

Definition within (base targ : string) : Prop :=
  rooted base = rooted targ /\ exists rest, elems targ = elems base ++ rest /\ Forall (fun y => y <> "..") rest.

Lemma Rel_within base targ :
  match Rel base targ with Some r => climbs r = false | None => False end <-> within base targ.
Proof.
  destruct (elems_clean base) as (Hpb & _ & _), (elems_clean targ) as (Hpt & Hut & _).
  unfold Rel, within. rewrite !Clean_render.
  set (rb := rooted base) in *. set (rt := rooted targ) in *.
  set (lb := elems base) in *. set (lt := elems targ) in *. clearbody rb rt lb lt.
  case_bool_decide as Heq.
  { assert (Hr : rb = rt).
    { rewrite <- (rooted_render rb lb), <- (rooted_render rt lt) by done. by rewrite Heq. }
    split; [|done]. intros _. split; [done|]. exists []. rewrite app_nil_r. split; [|done].
    subst rt. pose proof (words_render rb lt Hpt) as H1. rewrite Heq, words_render in H1 by done.
    destruct rb; [congruence|]. repeat case_bool_decide; subst; try done.
    - inversion Hpt as [|? ? (_ & Hx & _) _]; subst. congruence.
    - inversion Hpb as [|? ? (_ & Hx & _) _]; subst. congruence. }
  assert (Hb : rooted (if bool_decide (render rb lb = ".") then "" else render rb lb) = rb /\
               words (if bool_decide (render rb lb = ".") then "" else render rb lb) = if rb then "" :: lb else lb).
  { case_bool_decide as Hd.
    - destruct rb; [done|]. split; [done|]. unfold render in Hd. case_bool_decide as Hl; [by rewrite Hl|].
      destruct (plain_join_not lb "." Hl Hpb); [by repeat constructor; right|done].
    - rewrite rooted_render, words_render by done. split; [done|]. destruct rb; [done|].
      case_bool_decide as Hl; [by subst lb|done]. }
  destruct Hb as [-> ->]. rewrite rooted_render, words_render by done.
  destruct (Bool.eqb rb rt) eqn:Hrr; cbn [negb]; [|split; [done|]; intros [-> _]; by rewrite eqb_reflx in Hrr].
  apply eqb_prop in Hrr as <-.
  assert (Hdc : drop_common (if rb then "" :: lb else lb)
     (if rb then "" :: lt else if bool_decide (lt = []) then ["."] else lt) =
     drop_common lb (if bool_decide (lt = []) && negb rb then ["."] else lt)).
  { destruct rb; cbn; [by rewrite andb_false_r|]. by rewrite andb_true_r. }
  rewrite Hdc. clear Hdc. destruct (bool_decide (lt = []) && negb rb) eqn:Hdot.
  - apply andb_true_iff in Hdot as [->%bool_decide_eq_true Hrb]. apply negb_true_iff in Hrb as ->.
    destruct lb as [|x lb]; [done|]. split; [|by intros (_ & rest & ? & _)].
    inversion Hpb as [|? ? (_ & Hx & _) _]; subst. cbn [drop_common]. rewrite bool_decide_false by done.
    case_bool_decide; [done|]. cbn [replicate List.length app]. by rewrite climbs_join.
  - destruct (drop_common_spec lb lt) as (c & b' & t' & -> & -> & -> & Hcase).
    rewrite Forall_app in Hpt. destruct Hpt as [_ Hpt].
    assert (Hup : forall t, ups_first (c ++ t) -> match t with [] => True | x :: _ => x <> ".." end ->
              Forall (fun y => y <> "..") t).
    { clear. induction c as [|z c IH]; cbn; intros t Hu Ht.
      - destruct t as [|x t]; [done|]. cbn in Hu. by destruct Hu as [[-> _]|Hu].
      - destruct Hu as [[_ Hu]|Hu]; [by apply IH|]. rewrite app_comm_cons, Forall_app in Hu. apply Hu. }
    destruct b' as [|x b'].
    + rewrite app_nil_r. destruct t' as [|y t'].
      * split; [|done]. intros _. split; [done|]. by exists [].
      * inversion Hpt as [|? ? (_ & _ & Hy) _]; subst. rewrite climbs_join, bool_decide_eq_false by done.
        split; [|intros (_ & rest & [= <-]%app_inv_head & Hr); by inversion Hr].
        intros Hdd. split; [done|]. exists (y :: t'). split; [done|]. by apply Hup.
    + split.
      * destruct t' as [|y t']; [cbn [replicate List.length]; by rewrite climbs_join|].
        destruct (bool_decide (x = "..")); [done|]. cbn [replicate List.length app]. by rewrite climbs_join.
      * intros (_ & rest & Hl & _). rewrite <- app_assoc in Hl. apply app_inv_head in Hl.
        destruct Hcase as [?|[->|(x' & y & b'' & t'' & [= -> ->] & -> & Hne)]]; [done..|]. by inversion Hl.
Qed.

(** ** Cleaning twice changes nothing *)

Lemma fold_clean r l out :
  clean_list r (reverse out ++ l) -> fold_left (clean_elem r) l out = reverse l ++ out.
Proof.
  revert out. induction l as [|x l IH]; intros out Hc; [done|]. cbn [fold_left].
  assert (Hx : clean_elem r out x = x :: out).
  { destruct Hc as (Hp & Hu & Hr). apply Forall_app in Hp as [_ Hp]. inversion Hp as [|? ? (Hx1 & Hx2 & _) _]; subst.
    unfold clean_elem. rewrite (bool_decide_false (x = "")), (bool_decide_false (x = ".")) by done. cbn [orb].
    case_bool_decide as Hx; [|done]. subst x.
    assert (Hpre : Forall (fun y => y = "..") (reverse out)).
    { clear IH Hr. induction (reverse out) as [|z o IH]; [done|]. cbn in Hu. destruct Hu as [[-> Hu]|Hu].
      - constructor; auto.
      - rewrite app_comm_cons in Hu. apply Forall_app in Hu as [_ Hu]. by inversion Hu. }
    destruct out as [|z out].
    - destruct r; [|done]. specialize (Hr eq_refl). apply Forall_app in Hr as [_ Hr]. by inversion Hr.
    - rewrite reverse_cons, Forall_app, Forall_singleton in Hpre. destruct Hpre as [_ ->]. by rewrite bool_decide_true. }
  rewrite Hx, IH, reverse_cons, <- app_assoc; [done|].
  by rewrite reverse_cons, <- app_assoc.
Qed.

Lemma elems_render r l : clean_list r l -> elems (render r l) = l.
Proof.
  intros Hc. destruct Hc as (Hp & Hu & Hr). unfold elems. rewrite rooted_render by done.
  assert (Hf : fold_left (clean_elem r) l [] = reverse l).
  { rewrite fold_clean; [apply app_nil_r|]. by split. }
  assert (Hs : fold_left (clean_elem r) (split_byte slash (render r l)) [] = reverse l).
  { destruct (decide (l = [])) as [->|Hl]; [by destruct r|].
    unfold render. destruct r.
    - change ("/" +:+ join l "/") with (String slash (join l "/")). cbn [split_byte].
      rewrite bool_decide_true by done. by rewrite plain_split.
    - rewrite bool_decide_false by done. by rewrite plain_split. }
  by rewrite Hs, reverse_involutive.
Qed.

Lemma rooted_Clean s : rooted (Clean s) = rooted s.
Proof. rewrite Clean_render. apply rooted_render. apply elems_clean. Qed.
Lemma elems_Clean s : elems (Clean s) = elems s.
Proof. rewrite Clean_render. apply elems_render, elems_clean. Qed.

Lemma within_Clean base targ : within (Clean base) (Clean targ) <-> within base targ.
Proof. unfold within. by rewrite !rooted_Clean, !elems_Clean. Qed.

(** ** Absolute paths by their elements *)

(** [filepath.Dir] *)
Definition filepath_Dir (s : string) : string :=
  Clean (match split_last s slash with Some (l, _) => l +:+ "/" | None => "" end).

(** An element that names an entry. *)
Definition entry_name (x : string) : Prop := plain_elem x /\ x <> "..".
Definition abs_path (l : list string) : string := render true l.

Lemma entry_names_clean r l : Forall entry_name l -> clean_list r l.
Proof.
  intros Hl. split; [|split].
  - eapply Forall_impl; [exact Hl|]. by intros x [? _].
  - destruct Hl as [|x l Hx Hl]; [done|]. right. constructor; [apply Hx|]. eapply Forall_impl; [exact Hl|]. by intros y [_ ?].
  - intros _. eapply Forall_impl; [exact Hl|]. by intros y [_ ?].
Qed.
Lemma clean_entry_names l : clean_list true l -> Forall entry_name l.
Proof.
  intros (Hp & _ & Hr). specialize (Hr eq_refl). rewrite Forall_forall in *. intros x Hx. split; auto.
Qed.

Lemma elems_abs l : Forall entry_name l -> elems (abs_path l) = l.
Proof. intros Hl. by apply elems_render, entry_names_clean. Qed.
Lemma rooted_abs l : rooted (abs_path l) = true.
Proof. done. Qed.
Lemma Clean_abs s : rooted s = true -> Clean s = abs_path (elems s) /\ Forall entry_name (elems s).
Proof. intros Hs. rewrite Clean_render, Hs. split; [done|]. apply clean_entry_names. rewrite <- Hs. apply elems_clean. Qed.
Lemma Clean_abs_path l : Forall entry_name l -> Clean (abs_path l) = abs_path l.
Proof. intros Hl. rewrite (proj1 (Clean_abs (abs_path l) eq_refl)). by rewrite elems_abs. Qed.

Lemma split_byte_sep c a b : split_byte c (a +:+ String c b) = split_byte c a ++ split_byte c b.
Proof.
  induction a as [|x a IH].
  - change (split_byte c (String c b) = "" :: split_byte c b). cbn [split_byte]. by rewrite bool_decide_true.
  - rewrite string_app_cons. cbn [split_byte]. rewrite IH. case_bool_decide; [done|]. destruct (split_byte c a) as [|y l] eqn:Hs; [|done].
    exfalso. clear -Hs. destruct a; cbn in Hs; repeat case_match; done.
Qed.

Lemma split_abs l : Forall entry_name l -> split_byte slash (abs_path l) = "" :: (if bool_decide (l = []) then [""] else l).
Proof.
  intros Hl. unfold abs_path, render. change ("/" +:+ join l "/") with (String slash (join l "/")). cbn [split_byte].
  rewrite bool_decide_true by done. f_equal. case_bool_decide as Hn; [by subst|]. apply plain_split; [done|].
  eapply Forall_impl; [exact Hl|]. by intros x [? _].
Qed.

Lemma Join_abs p t : Forall entry_name p -> Forall entry_name t ->
  Join [abs_path p; if bool_decide (t = []) then "." else join t "/"] = abs_path (p ++ t).
Proof.
  intros Hp Ht. unfold Join. assert (Hne : abs_path p <> "") by done.
  set (rel := if bool_decide (t = []) then "." else join t "/").
  assert (Hrel : rel <> "").
  { unfold rel. case_bool_decide; [done|]. apply plain_join_not; [done| |repeat constructor].
    eapply Forall_impl; [exact Ht|]. by intros x [? _]. }
  rewrite filter_cons_True by done. rewrite filter_cons_True by done. rewrite filter_nil.
  change (join [abs_path p; rel] "/") with (abs_path p +:+ String slash rel).
  destruct (Clean_abs (abs_path p +:+ String slash rel) eq_refl) as [-> _]. f_equal. unfold elems. rewrite split_byte_sep, fold_left_app.
  change (rooted (abs_path p +:+ String slash rel)) with true.
  assert (Hfp : fold_left (clean_elem true) (split_byte slash (abs_path p)) [] = reverse p).
  { rewrite <- (elems_abs p Hp) at 2. unfold elems. by rewrite reverse_involutive. }
  rewrite Hfp. assert (Hsr : fold_left (clean_elem true) (split_byte slash rel) (reverse p) = reverse t ++ reverse p).
  { unfold rel. case_bool_decide as Hn; [by subst|]. rewrite plain_split; [|done|eapply Forall_impl; [exact Ht|]; by intros x [? _]].
    apply fold_clean. rewrite reverse_involutive. apply entry_names_clean. by apply Forall_app. }
  by rewrite Hsr, reverse_app, !reverse_involutive.
Qed.

Lemma drop_common_app q t : drop_common q (q ++ t) = ([], t).
Proof. induction q as [|x q IH]; cbn; [done|]. by rewrite bool_decide_true. Qed.

Lemma abs_path_inj p q : Forall entry_name p -> Forall entry_name q -> abs_path p = abs_path q -> p = q.
Proof. intros Hp Hq Heq. by rewrite <- (elems_abs p Hp), <- (elems_abs q Hq), Heq. Qed.

Lemma Rel_abs q t : Forall entry_name q -> Forall entry_name t ->
  Rel (abs_path q) (abs_path (q ++ t)) = Some (if bool_decide (t = []) then "." else join t "/").
Proof.
  intros Hq Ht. assert (Hqt : Forall entry_name (q ++ t)) by by apply Forall_app. unfold Rel. rewrite !Clean_abs_path by done.
  case_bool_decide as Heq.
  - apply abs_path_inj in Heq; [|done..]. rewrite <- (app_nil_r q) in Heq at 2. apply app_inv_head in Heq. subst t. done.
  - rewrite (bool_decide_false (abs_path q = ".")) by done. cbn [negb Bool.eqb].
    assert (Hw : forall l, Forall entry_name l -> words (abs_path l) = "" :: l).
    { intros l Hl. unfold abs_path. rewrite words_render; [done|]. eapply Forall_impl; [exact Hl|]. by intros x [? _]. }
    rewrite !Hw by done. change (rooted (abs_path q)) with true. change (rooted (abs_path (q ++ t))) with true. cbn [Bool.eqb negb].
    change ("" :: q ++ t) with (("" :: q) ++ t). rewrite drop_common_app.
    rewrite bool_decide_false; [done|]. intros ->. by rewrite app_nil_r in Heq.
Qed.

Lemma no_byte_split_last c s : no_byte c s = true -> split_last s c = None.
Proof.
  intros Hs. apply split_last_None_iff. intros (l & r & ->). rewrite no_byte_app in Hs. apply andb_true_iff in Hs as [_ Hs].
  cbn [no_byte] in Hs. by rewrite bool_decide_true in Hs.
Qed.

Lemma Dir_abs l : Forall entry_name l -> filepath_Dir (abs_path l) = abs_path (take (length l - 1) l).
Proof.
  intros Hl. induction l as [|x l _] using rev_ind; [done|]. apply Forall_app in Hl as [Hl Hx]. apply Forall_cons in Hx as [((_ & _ & Hx) & _) _].
  assert (Hs : split_last (abs_path (l ++ [x])) slash = Some (if bool_decide (l = []) then "" else abs_path l, x)).
  { destruct (decide (l = [])) as [->|Hne].
    - rewrite bool_decide_true by done. change (abs_path ([] ++ [x])) with ("" +:+ String slash x). by apply split_last_app, no_byte_split_last.
    - rewrite bool_decide_false by done. assert (Hj : abs_path (l ++ [x]) = abs_path l +:+ String slash x).
      { unfold abs_path, render. rewrite string_app_assoc. f_equal. clear -Hne. induction l as [|y l IH]; [done|]. destruct l as [|z l]; [done|].
        change (y +:+ "/" +:+ join ((z :: l) ++ [x]) "/" = (y +:+ "/" +:+ join (z :: l) "/") +:+ String slash x).
        rewrite IH by done. by rewrite !string_app_assoc. }
      rewrite Hj. by apply split_last_app, no_byte_split_last. }
  unfold filepath_Dir. rewrite Hs. rewrite length_app. cbn [length]. rewrite Nat.add_sub, take_app_length.
  case_bool_decide as Hn; [by subst|].
  destruct (Clean_abs (abs_path l +:+ "/") eq_refl) as [-> _]. f_equal. unfold elems. change (abs_path l +:+ "/") with (abs_path l +:+ String slash "").
  rewrite split_byte_sep, fold_left_app. change (rooted (abs_path l +:+ String slash "")) with true. cbn [split_byte fold_left].
  assert (Hskip : forall o, clean_elem true o "" = o) by done. rewrite Hskip. exact (elems_abs l Hl).
Qed.
