(* ===== verification/Address.v ===== *)
(** * Mail addresses ([internal/mailcal/abi/address.go])

    The canonical form under which every address of the mail and calendar
    subsystem is compared.  [net/mail.ParseAddress] is modelled on the inputs
    that reach it (no separators, quotes, comments or white space, so only an
    addr-spec can be accepted); [idna.Lookup.ToASCII] is third-party code and
    a parameter, as is [net.ParseIP] for domain literals. *)

From S2P Require Import Prelude GoStrings.

From Stdlib Require Import Ascii.

#[local] Open Scope Z_scope.

Definition at_sign : ascii := ascii_of_N 64.

Record Address := mkAddress { Name : string; Email : string }.
#[export] Instance Address_eq_dec : EqDecision Address.
Proof. solve_decision. Defined.

Inductive addr_error := ErrBadAddress.
#[export] Instance addr_error_eq_dec : EqDecision addr_error.
Proof. solve_decision. Defined.

(** Code outside the repository: [idna.Lookup.ToASCII] ([None] for an error)
    and [net.ParseIP(s) != nil]. *)
Class MailEnv := {
  mail_unicode :: Unicode;
  idna_to_ascii : string -> option string;
  net_parse_ip : string -> bool
}.

(** Domains already in ASCII and no domain literals, for closed examples. *)
Definition plain_mail_env : MailEnv :=
  {| mail_unicode := ascii_tables; idna_to_ascii := Some; net_parse_ip := fun _ => false |}.

(** ** [net/mail.ParseAddress], the addr-spec part *)

Definition is_vchar (r : Z) : bool := ((33 <=? r) && (r <=? 126)) || (128 <=? r).

(** The RFC 5322 specials, without the dot. *)
Definition mail_specials : list Z := [40; 41; 60; 62; 91; 93; 58; 59; 64; 92; 44; 34].

Definition is_atext (r : Z) : bool := negb (bool_decide (r ∈ mail_specials)) && is_vchar r.
Definition is_dtext (r : Z) : bool := negb (bool_decide (r ∈ [91; 93; 92])) && is_vchar r.

(** A byte that is not UTF-8: U+FFFD of width one. *)
Definition bad_utf8 (p : Z * string) : bool :=
  (p.1 =? rune_error) && bool_decide (String.length p.2 = 1%nat).

(** The longest run of a class of runes; [None] at a bad byte. *)
Fixpoint take_runes (f : Z -> bool) (l : list (Z * string)) : option (string * list (Z * string)) :=
  match l with
  | [] => Some ("", [])
  | p :: l' =>
    if bad_utf8 p then None
    else if f p.1 then
      match take_runes f l' with
      | Some (s, rest) => Some (p.2 +:+ s, rest)
      | None => None
      end
    else Some ("", l)
  end.

(** [consumeAtom(dot = true, permissive = false)]. *)
Definition consume_atom (l : list (Z * string)) : option (string * list (Z * string)) :=
  match take_runes is_atext l with
  | Some (atom, rest) =>
    if bool_decide (atom = "") || has_prefix atom "." || contains_str atom ".." || has_suffix atom "."
    then None else Some (atom, rest)
  | None => None
  end.

(** [consumeDomainLiteral], after the opening bracket. *)
Definition consume_domain_literal `{MailEnv} (l : list (Z * string)) : option (string * list (Z * string)) :=
  match take_runes is_dtext l with
  | Some (dtext, (93, _) :: rest) =>
    if net_parse_ip dtext then Some ("[" +:+ dtext +:+ "]", rest) else None
  | _ => None
  end.

(** [mail.ParseAddress(s)] for [s] without separators: the address parsed. *)
Definition parse_address `{MailEnv} (s : string) : option string :=
  match consume_atom (segments s) with
  | Some (local, (64, _) :: rest) =>
    let dom := match rest with
               | (91, _) :: rest' => consume_domain_literal rest'
               | _ => consume_atom rest
               end in
    match dom with
    | Some (d, []) => Some (local +:+ "@" +:+ d)
    | _ => None
    end
  | _ => None
  end.

(** ** [NormalizeEmail], [DomainOf] *)

(** Angle brackets, comma, semicolon, double quote, parentheses, blank, TAB, CR, LF. *)
Definition email_separators : list Z := [60; 62; 44; 59; 34; 40; 41; 32; 9; 13; 10].

Definition NormalizeEmail `{MailEnv} (raw : string) : result addr_error string :=
  let s := trim_space raw in
  if bool_decide (s = "") || contains_any s email_separators then Err ErrBadAddress
  else if negb (bool_decide (parse_address s = Some s)) then Err ErrBadAddress
  else match split_last s at_sign with
  | None => Err ErrBadAddress
  | Some (local, domain) =>
    if bool_decide (local = "") || bool_decide (domain = "") then Err ErrBadAddress
    else match idna_to_ascii domain with
    | None => Err ErrBadAddress
    | Some ascii =>
      if bool_decide (ascii = "") then Err ErrBadAddress
      else Ok (to_lower local +:+ "@" +:+ to_lower ascii)
    end
  end.

Definition DomainOf (email : string) : string :=
  match split_last email at_sign with Some (_, d) => d | None => "" end.

Definition NormalizeAddress `{MailEnv} (a : Address) : result addr_error Address :=
  email ← NormalizeEmail (Email a);
  Ok (mkAddress (trim_space (Name a)) email).

(** The loop of [NormalizeAddresses]: [seen] is the map, [out] the list. *)
Fixpoint NormalizeAddresses_go `{MailEnv} (l : list Address) (seen : gset string) (out : list Address)
    : result addr_error (list Address) :=
  match l with
  | [] => Ok out
  | a :: l' =>
    n ← NormalizeAddress a;
    if bool_decide (Email n ∈ seen) then NormalizeAddresses_go l' seen out
    else NormalizeAddresses_go l' ({[ Email n ]} ∪ seen) (out ++ [n])
  end.
Definition NormalizeAddresses `{MailEnv} (l : list Address) : result addr_error (list Address) :=
  NormalizeAddresses_go l ∅ [].

(** ** Lemmas *)

Section address_lemmas.
Context `{ME : MailEnv}.

(** What an accepted address is: a local part and a domain around the last
    at-sign, in lower case, the domain in its ASCII form. *)
Lemma NormalizeEmail_Ok raw e :
  NormalizeEmail raw = Ok e ->
  exists local domain ascii,
    trim_space raw = local +:+ String at_sign domain /\ local <> "" /\ domain <> "" /\
    parse_address (trim_space raw) = Some (trim_space raw) /\
    contains_any (trim_space raw) email_separators = false /\
    idna_to_ascii domain = Some ascii /\ ascii <> "" /\
    e = to_lower local +:+ "@" +:+ to_lower ascii.
Proof.
  unfold NormalizeEmail. intros H.
  destruct (bool_decide (trim_space raw = "") || _) eqn:H1; [done|].
  destruct (negb _) eqn:H2; [done|].
  destruct (split_last _ _) as [[local domain]|] eqn:H3; [|done].
  destruct (bool_decide (local = "") || _) eqn:H4; [done|].
  destruct (idna_to_ascii domain) as [ascii|] eqn:H5; [|done].
  destruct (bool_decide (ascii = "")) eqn:H6; [done|].
  injection H as <-. bool_simp. exists local, domain, ascii.
  apply split_last_Some in H3. naive_solver.
Qed.

(** A separator anywhere, as in [Boss <a@b.com>, evil@x.com], is refused. *)
Lemma NormalizeEmail_separators raw :
  contains_any (trim_space raw) email_separators = true -> NormalizeEmail raw = Err ErrBadAddress.
Proof. unfold NormalizeEmail. intros ->. by rewrite orb_true_r. Qed.

Lemma DomainOf_normal l d :
  split_last d at_sign = None -> DomainOf (l +:+ "@" +:+ d) = d.
Proof.
  intros Hd. unfold DomainOf. change ("@" +:+ d) with (String at_sign d).
  by rewrite split_last_app.
Qed.

Lemma NormalizeAddresses_go_spec l seen out res :
  (forall e, e ∈ seen <-> e ∈ Email <$> out) -> NoDup (Email <$> out) ->
  NormalizeAddresses_go l seen out = Ok res ->
  out `prefix_of` res /\ NoDup (Email <$> res) /\
  exists ns, mapM_result NormalizeAddress l = Ok ns /\
    (forall e, e ∈ Email <$> res <-> e ∈ Email <$> out \/ e ∈ Email <$> ns) /\
    (forall a, a ∈ res -> a ∈ out \/ a ∈ ns).
Proof.
  revert seen out. induction l as [|a l IH]; intros seen out Hseen Hnd; cbn.
  - intros [= ->]. split; [done|]. split; [done|]. exists []. set_solver.
  - destruct (NormalizeAddress a) as [n|]; cbn; [|done]. case_bool_decide as Hin; intros H.
    + destruct (IH _ _ Hseen Hnd H) as (? & ? & ns & -> & Hmem & Hsub).
      split; [done|]. split; [done|]. exists (n :: ns). split; [done|]. set_solver.
    + destruct (IH ({[Email n]} ∪ seen) (out ++ [n])) as (Hpre & ? & ns & -> & Hmem & Hsub); [| |done|].
      * intros e. rewrite fmap_app. set_solver.
      * rewrite fmap_app. apply NoDup_app. split_and!; [done| |apply NoDup_singleton].
        intros e He. cbn. rewrite list_elem_of_singleton. intros ->. by apply Hin, Hseen.
      * split; [by eapply prefix_app_l|]. split; [done|]. exists (n :: ns). split; [done|].
        split; [intros e; rewrite Hmem, fmap_app; set_solver | set_solver].
Qed.

End address_lemmas.
