(* ===== verification/PolicyRule.v ===== *)
(** * The rule book ([internal/mailcal/policy/rule.go])

    Rules decide which mail and calendar writes may run without a person.
    [Validate] normalizes a rule and refuses anything too broad.  Enumerated
    strings stay strings, as in the code: an unknown action is a value the
    code has to refuse. *)

From S2P Require Import Prelude GoStrings Address.

#[local] Open Scope Z_scope.

(** ** Data *)

Definition ActionReply : string := "reply".
Definition ActionSendNew : string := "send_new".
Definition ActionCalendarAccept : string := "calendar_accept".
Definition ActionCalendarCreate : string := "calendar_create".
Definition ActionCalendarUpdate : string := "calendar_update".
Definition EffectAllow : string := "allow".
Definition EffectDeny : string := "deny".
Definition BodyTemplate : string := "template".
Definition BodyFree : string := "free".

Record Recipients := mkRecipients { Addresses : list string; Domains : list string }.
Record BodyMatch := mkBodyMatch { Mode : string; Template : string; AllowLinks : bool }.
Record CalendarMatch := mkCalendarMatch {
  WorkingHours : string; MaxMinutes : Z; AttendeeDomains : list string }.
Record Match := mkMatch {
  MRecipients : Recipients; ReplyOnly : bool; Body : BodyMatch; Calendar : option CalendarMatch }.
Record Limits := mkLimits { PerHour : Z; PerDay : Z }.
Record Rule := mkRule {
  ID : string; Enabled : bool; ExpiresAt : option Z; AccountID : string;
  Action : string; Effect : string; AllowPublicDomain : bool;
  RMatch : Match; RLimits : Limits }.

#[export] Instance Recipients_eq_dec : EqDecision Recipients. Proof. solve_decision. Defined.
#[export] Instance BodyMatch_eq_dec : EqDecision BodyMatch. Proof. solve_decision. Defined.
#[export] Instance CalendarMatch_eq_dec : EqDecision CalendarMatch. Proof. solve_decision. Defined.
#[export] Instance Match_eq_dec : EqDecision Match. Proof. solve_decision. Defined.
#[export] Instance Limits_eq_dec : EqDecision Limits. Proof. solve_decision. Defined.
#[export] Instance Rule_eq_dec : EqDecision Rule. Proof. solve_decision. Defined.

(** [ErrInvalidRule] with the message of each refusal. *)
Inductive rule_error :=
  | AccountRequired | UnknownAction | BadEffect | WildcardAddress | BadRuleAddress
  | NotSpecificDomain | BadDomain | PublicDomain | AllowNeedsWho | TemplateEmpty | BadBodyMode
  | CalendarNeedsDomains | CalendarNeedsBounds | AllowNeedsLimits
  | BadHoursShape | HoursOutOfRange | HoursReversed | NegativeMinutes.

(** ** Domains and addresses *)

Definition publicDomains : list string :=
  ["gmail.com"; "googlemail.com"; "outlook.com"; "hotmail.com"; "live.com";
   "msn.com"; "yahoo.com"; "icloud.com"; "me.com"; "proton.me";
   "protonmail.com"; "aol.com"; "gmx.com"; "yandex.com"; "qq.com";
   "163.com"; "mail.com"; "zoho.com"].

Definition IsPublicDomain `{Unicode} (d : string) : bool :=
  bool_decide (to_lower (trim_space d) ∈ publicDomains).

Definition normalizeDomain `{MailEnv} (raw : string) : result rule_error string :=
  let d := trim_space raw in
  if bool_decide (d = "") || contains_any d [42; 63; 64; 32; 9] || has_prefix d "."
     || negb (contains_str d ".")
  then Err NotSpecificDomain
  else match NormalizeEmail ("x@" +:+ d) with
  | Err _ => Err BadDomain
  | Ok e => Ok (DomainOf e)
  end.

(** The method [(r *Rule) normalizeDomains]: it reads [AllowPublicDomain] and
    [Effect] of the receiver. *)
Definition normalizeDomains `{MailEnv} (r : Rule) (l : list string) : result rule_error (list string) :=
  mapM_result (fun raw =>
    d ← normalizeDomain raw;
    if IsPublicDomain d && negb (AllowPublicDomain r) && bool_decide (Effect r = EffectAllow)
    then Err PublicDomain else Ok d) l.

Definition normalizeAddressList `{MailEnv} (l : list string) : result rule_error (list string) :=
  mapM_result (fun raw =>
    if contains_str raw "*" then Err WildcardAddress
    else match NormalizeEmail raw with
    | Err _ => Err BadRuleAddress
    | Ok e => Ok e
    end) l.

(** ** [parseHours] over [fmt.Sscanf(s, "%d:%d-%d:%d")] *)

(** [SkipSpace] of package [fmt] when newlines are not blanks. *)
Fixpoint skip_space (l : list Z) : option (list Z) :=
  match l with
  | [] => Some []
  | r :: l' =>
    if r =? 10 then None
    else if (r =? 13) && (match l' with 10 :: _ => true | _ => false end) then None
    else if is_space r then skip_space l'
    else Some l
  end.

Definition is_digit (r : Z) : bool := (48 <=? r) && (r <=? 57).

Fixpoint scan_digits (l : list Z) (acc : Z) : Z * list Z :=
  match l with
  | r :: l' => if is_digit r then scan_digits l' (acc * 10 + (r - 48)) else (acc, l)
  | [] => (acc, [])
  end.

(** The [%d] verb into an [int] of 64 bits. *)
Definition scan_int (l : list Z) : option (Z * list Z) :=
  match skip_space l with
  | None | Some [] => None
  | Some ((r :: l') as l0) =>
    let (neg, l1) := (if r =? 45 then (true, l') else if r =? 43 then (false, l') else (false, l0)) : bool * list Z in
    match l1 with
    | d :: _ =>
      if is_digit d then
        let (n, rest) := scan_digits l1 0 in
        let v := if neg : bool then - n else n in
        if (min_int64 <=? v) && (v <=? max_int64) then Some (v, rest) else None
      else None
    | [] => None
    end
  end.

(** A literal rune of the format. *)
Definition scan_lit (c : Z) (l : list Z) : option (list Z) :=
  match l with
  | r :: l' => if r =? c then Some l' else None
  | [] => None
  end.

Definition sscanf_hours (s : string) : option (Z * Z * Z * Z) :=
  '(sh, l) ← scan_int (runes s);
  l ← scan_lit 58 l;
  '(sm, l) ← scan_int l;
  l ← scan_lit 45 l;
  '(eh, l) ← scan_int l;
  l ← scan_lit 58 l;
  '(em, _) ← scan_int l;
  Some (sh, sm, eh, em).

Definition parseHours (s : string) : result rule_error (Z * Z) :=
  match sscanf_hours s with
  | None => Err BadHoursShape
  | Some (sh, sm, eh, em) =>
    if (sh <? 0) || (23 <? sh) || (eh <? 0) || (24 <? eh) || (sm <? 0) || (59 <? sm)
       || (em <? 0) || (59 <? em)
    then Err HoursOutOfRange
    else
      let start := sh * 60 + sm in
      let stop := eh * 60 + em in
      if stop <=? start then Err HoursReversed else Ok (start, stop)
  end.

(** ** [Validate]: the normalized rule, or why it is refused *)

Definition known_action (a : string) : bool :=
  bool_decide (a ∈ [ActionReply; ActionSendNew; ActionCalendarAccept; ActionCalendarCreate; ActionCalendarUpdate]).

Definition isMail (a : string) : bool :=
  bool_decide (a = ActionReply) || bool_decide (a = ActionSendNew).

Definition isCalendarRuleAction (a : string) : bool :=
  bool_decide (a = ActionCalendarCreate) || bool_decide (a = ActionCalendarUpdate)
  || bool_decide (a = ActionCalendarAccept).

Definition set_who (r : Rule) (addrs domains : list string) (reply_only : bool) : Rule :=
  mkRule (ID r) (Enabled r) (ExpiresAt r) (AccountID r) (Action r) (Effect r) (AllowPublicDomain r)
    (mkMatch (mkRecipients addrs domains) reply_only (Body (RMatch r)) (Calendar (RMatch r))) (RLimits r).

Definition set_calendar (r : Rule) (c : CalendarMatch) : Rule :=
  mkRule (ID r) (Enabled r) (ExpiresAt r) (AccountID r) (Action r) (Effect r) (AllowPublicDomain r)
    (mkMatch (MRecipients (RMatch r)) (ReplyOnly (RMatch r)) (Body (RMatch r)) (Some c)) (RLimits r).

(** The checks of an allow rule, once its recipients are normalized. *)
Definition validate_allow (r : Rule) : result rule_error Rule :=
  let m := RMatch r in
  let hasWho := negb (bool_decide (Addresses (MRecipients m) = [] /\ Domains (MRecipients m) = [])) in
  if isMail (Action r) && negb hasWho then Err AllowNeedsWho
  else
    let r := if bool_decide (Action r = ActionReply)
             then set_who r (Addresses (MRecipients m)) (Domains (MRecipients m)) true else r in
    let body_err :=
      if isMail (Action r) then
        if bool_decide (Mode (Body m) = BodyTemplate) then
          (if bool_decide (trim_space (Template (Body m)) = "") then Some TemplateEmpty else None)
        else if bool_decide (Mode (Body m) = BodyFree) then None else Some BadBodyMode
      else None in
    let cal_err :=
      if isCalendarRuleAction (Action r) then
        match Calendar m with
        | None => Some CalendarNeedsDomains
        | Some c =>
          if bool_decide (AttendeeDomains c = []) then Some CalendarNeedsDomains
          else if negb (bool_decide (Action r = ActionCalendarAccept))
                  && ((MaxMinutes c <=? 0) || bool_decide (WorkingHours c = ""))
          then Some CalendarNeedsBounds else None
        end
      else None in
    match body_err, cal_err with
    | Some e, _ => Err e
    | None, Some e => Err e
    | None, None =>
      if (PerHour (RLimits r) <=? 0) || (PerDay (RLimits r) <=? 0) then Err AllowNeedsLimits else Ok r
    end.

(** The checks of the calendar part, whatever the effect. *)
Definition validate_calendar `{MailEnv} (r : Rule) : result rule_error Rule :=
  match Calendar (RMatch r) with
  | None => Ok r
  | Some c =>
    ds ← normalizeDomains r (AttendeeDomains c);
    _ ← (if bool_decide (WorkingHours c = "") then Ok (0, 0) else parseHours (WorkingHours c));
    if MaxMinutes c <? 0 then Err NegativeMinutes
    else Ok (set_calendar r (mkCalendarMatch (WorkingHours c) (MaxMinutes c) ds))
  end.

Definition Validate `{MailEnv} (r : Rule) : result rule_error Rule :=
  if bool_decide (trim_space (AccountID r) = "") then Err AccountRequired
  else if negb (known_action (Action r)) then Err UnknownAction
  else if negb (bool_decide (Effect r = EffectAllow) || bool_decide (Effect r = EffectDeny)) then Err BadEffect
  else
    let m := RMatch r in
    addrs ← normalizeAddressList (Addresses (MRecipients m));
    domains ← normalizeDomains r (Domains (MRecipients m));
    let r := set_who r addrs domains (ReplyOnly m) in
    r ← (if bool_decide (Effect r = EffectAllow) then validate_allow r else Ok r);
    validate_calendar r.
