(* ===== verification/PolicyEval.v ===== *)
(** * The policy engine ([internal/mailcal/policy/evaluate.go])

    [Evaluate] takes the exact payload of a write and the rule book and
    answers allow, deny or needs_approval.  The usage counter is an argument,
    as in the code: it may answer, fail or panic (the deferred [recover] turns
    a panic into needs_approval). *)

From S2P Require Import Prelude GoStrings Regex Address PolicyRule.

#[local] Open Scope Z_scope.

(** ** Data *)

Inductive Verdict := VerdictAllow | VerdictNeedsApproval | VerdictDeny.
#[export] Instance Verdict_eq_dec : EqDecision Verdict. Proof. solve_decision. Defined.

Record ReplyFacts := mkReplyFacts { Verified : bool; Participants : list string }.

(** A [time.Time] with its zone: the instant in nanoseconds and the offset of
    its location at that instant, in seconds. *)
Record zoned := mkZoned { instant : Z; offset : Z }.

Record CalendarFacts := mkCalendarFacts {
  Start : zoned; End : zoned; Attendees : list string; Organizer : string }.

Record Request := mkRequest {
  QAccountID : string; QAction : string; Destructive : bool;
  To : list string; Cc : list string; Bcc : list string;
  Subject : string; QBody : string; Attachments : Z;
  Reply : option ReplyFacts; QCalendar : option CalendarFacts }.

Record Decision := mkDecision { DVerdict : Verdict; RuleID : string; Reasons : list string }.

(** What [usage(ruleID, window)] does. *)
Inductive usage_answer := UCount (n : Z) | UError | UPanic (msg : string).
Definition Usage : Type := string -> Z -> usage_answer.

(** Local seconds, and [t.Date()] as a day number, [t.Hour()], [t.Minute()]. *)
Definition local_seconds (t : zoned) : Z := instant t / second + offset t.
Definition Date (t : zoned) : Z := local_seconds t / 86400.
Definition Hour (t : zoned) : Z := (local_seconds t mod 86400) / 3600.
Definition Minute (t : zoned) : Z := (local_seconds t mod 3600) / 60.

(** ** Patterns, all under [(?i)] *)

Definition re_dash : re := one 45.
Definition is_letter_i (r : Z) : bool :=
  in_range 97 122 r || in_range 65 90 r || (r =? 383) || (r =? 8490).
Definition re_letter : re := RCls is_letter_i.
Definition re_host_rune : re := RCls (fun r => is_letter_i r || is_digit r || (r =? 45)).

Definition linkPattern : re :=
  alts [ rs [lit_i "http"; ropt (lit_i "s"); lit_i "://"];
         lit_i "www."; lit_i "mailto:"; lit_i "ftp://";
         rs [rplus re_host_rune; one 46; rmin 2 re_letter; one 47] ].

Definition forwardSubject : re :=
  rs [RStar re_space; alts [rs [lit_i "fw"; ropt (lit_i "d")]; lit_i "tr"; lit_i "wg"]; RStar re_space; one 58].

Definition forwardBody : re :=
  alts [ rs [rmin 3 re_dash; RStar re_space; lit_i "forwarded message"];
         lit_i "begin forwarded message";
         rs [lit_i "original message"; RStar re_space; rmin 3 re_dash] ].

(** ** Normalizing the request *)

Section evaluate.
Context `{ME : MailEnv}.

Definition needsApproval (reasons : list string) : Decision :=
  mkDecision VerdictNeedsApproval "" reasons.

Definition normList (l : list string) : result addr_error (list string) := mapM_result NormalizeEmail l.

Definition normReply (r : option ReplyFacts) : result addr_error (option ReplyFacts) :=
  match r with
  | None => Ok None
  | Some rf => ps ← normList (Participants rf); Ok (Some (mkReplyFacts (Verified rf) ps))
  end.

Definition normCalendar (c : option CalendarFacts) : result addr_error (option CalendarFacts) :=
  match c with
  | None => Ok None
  | Some cf =>
    att ← normList (Attendees cf);
    org ← (if bool_decide (Organizer cf = "") then Ok "" else NormalizeEmail (Organizer cf));
    Ok (Some (mkCalendarFacts (Start cf) (End cf) att org))
  end.

Definition normalizeRequest (q : Request) : result addr_error Request :=
  to ← normList (To q);
  cc ← normList (Cc q);
  bcc ← normList (Bcc q);
  rep ← normReply (Reply q);
  cal ← normCalendar (QCalendar q);
  Ok (mkRequest (QAccountID q) (QAction q) (Destructive q) to cc bcc
        (Subject q) (QBody q) (Attachments q) rep cal).

(** ** Matching *)

Definition people (q : Request) : list string :=
  if isMail (QAction q) then To q ++ Cc q
  else match QCalendar q with Some c => Attendees c | None => [] end.

Definition listed (email : string) (addrs domains : list string) : bool :=
  existsb (fun a => bool_decide (a = email)) addrs
  || existsb (fun d => bool_decide (d = DomainOf email)) domains.

Definition denyMatches (r : Rule) (q : Request) : bool :=
  let addrs := Addresses (MRecipients (RMatch r)) in
  let domains := Domains (MRecipients (RMatch r)) in
  if bool_decide (addrs = [] /\ domains = []) then true
  else existsb (fun e => listed e addrs domains) (people q ++ Bcc q).

Definition alwaysApprove (q : Request) : list string :=
  (if Destructive q then ["deleting is always reviewed by a person"] else [])
  ++ (if bool_decide (Bcc q = []) then [] else ["the message has Bcc recipients"])
  ++ (if 0 <? Attachments q then ["the message has attachments"] else [])
  ++ (if isMail (QAction q) && (match_prefix forwardSubject (Subject q) || match_string forwardBody (QBody q))
      then ["the message looks like a forward"] else []).

Definition contains (l : list string) (s : string) : bool := existsb (fun v => bool_decide (v = s)) l.

Definition CRLF : string := String (byte_of 13) (String (byte_of 10) "").
Definition LF : string := String (byte_of 10) "".
Definition normalizeText (s : string) : string := trim_space (replace_all s CRLF LF).

(** [for _, e := range l { if !ok(e) { reasons = append(reasons, e+suffix) } }] *)
Definition complain (ok : string -> bool) (suffix : string) (l : list string) : list string :=
  flat_map (fun e => if ok e then [] else [e +:+ suffix]) l.

Definition reply_reasons (r : Rule) (q : Request) : list string :=
  if ReplyOnly (RMatch r) || bool_decide (QAction q = ActionReply) then
    match Reply q with
    | Some rf =>
      if Verified rf then complain (contains (Participants rf)) " has not written in this thread" (people q)
      else ["this is not a verified reply"]
    | None => ["this is not a verified reply"]
    end
  else [].

Definition body_reasons (r : Rule) (q : Request) : list string :=
  let b := Body (RMatch r) in
  if bool_decide (Mode b = BodyTemplate) then
    (if bool_decide (normalizeText (QBody q) = normalizeText (Template b)) then []
     else ["the text differs from the approved template"])
  else if bool_decide (Mode b = BodyFree) then []
  else ["the rule has no valid body mode"].

Definition link_reasons (r : Rule) (q : Request) : list string :=
  if negb (AllowLinks (Body (RMatch r))) && match_string linkPattern (QBody q)
  then ["the text contains a link"] else [].

Definition mailMismatch (r : Rule) (q : Request) : list string :=
  let all := people q in
  if bool_decide (all = []) then ["no recipients"]
  else
    complain (fun e => listed e (Addresses (MRecipients (RMatch r))) (Domains (MRecipients (RMatch r))))
      " is not covered by the rule" all
    ++ reply_reasons r q ++ body_reasons r q ++ link_reasons r q.

(** The reasons of the time checks of an event that is created or updated. *)
Definition time_reasons (c : CalendarMatch) (f : CalendarFacts) : list string :=
  if negb (time_after (instant (End f)) (instant (Start f))) then ["the event ends before it starts"]
  else
    let mins := Z.quot (time_sub (instant (End f)) (instant (Start f))) minute in
    (if MaxMinutes c <? mins
     then ["the event lasts " +:+ pretty mins +:+ " minutes, more than " +:+ pretty (MaxMinutes c)] else [])
    ++ (if bool_decide (WorkingHours c = "") then []
        else match parseHours (WorkingHours c) with
        | Err _ => ["invalid working hours"]
        | Ok (start, stop) =>
          let s := Hour (Start f) * 60 + Minute (Start f) in
          let e := Hour (End f) * 60 + Minute (End f) in
          if negb (Date (Start f) =? Date (End f)) || (s <? start) || (stop <? e)
          then ["the event is outside working hours"] else []
        end).

Definition calendarMismatch (r : Rule) (q : Request) : list string :=
  match Calendar (RMatch r), QCalendar q with
  | Some c, Some f =>
    let accept := bool_decide (QAction q = ActionCalendarAccept) in
    if accept && bool_decide (Organizer f = "") then ["the organizer is unknown"]
    else
      let check := if accept then [Organizer f] else Attendees f in
      let outside := complain (fun e => listed e [] (AttendeeDomains c)) " is outside the allowed domains" check in
      if accept then outside else outside ++ time_reasons c f
  | _, _ => ["calendar facts are missing"]
  end.

Definition allowMismatch (r : Rule) (q : Request) : list string :=
  if isMail (QAction q) then mailMismatch r q else calendarMismatch r q.

(** ** Limits *)

Inductive limit_answer := Within | Over (why : string) | LimitPanic (msg : string).

(** The loop over the two windows. *)
Fixpoint check_windows (id : string) (usage : Usage) (ws : list (Z * Z * string)) : limit_answer :=
  match ws with
  | [] => Within
  | (window, mx, name) :: ws' =>
    if mx <=? 0 then Over "no limit configured"
    else match usage id window with
    | UPanic m => LimitPanic m
    | UError => Over "usage is unknown"
    | UCount n =>
      if mx <=? n then Over ("the limit of " +:+ pretty mx +:+ " per " +:+ name +:+ " is used up")
      else check_windows id usage ws'
    end
  end.

Definition overLimit (r : Rule) (usage : option Usage) : limit_answer :=
  match usage with
  | None => Over "usage is unknown"
  | Some u => check_windows (ID r) u [(hour, PerHour (RLimits r), "hour"); (24 * hour, PerDay (RLimits r), "day")]
  end.

(** ** The decision *)

(** The rules that apply: enabled, for this account and action, not expired. *)
Definition candidate (q : Request) (now : Z) (r : Rule) : bool :=
  Enabled r && bool_decide (AccountID r = QAccountID q) && bool_decide (Action r = QAction q)
  && match ExpiresAt r with Some t => time_before now t | None => true end.

Definition blocking (q : Request) (r : Rule) : bool :=
  bool_decide (Effect r = EffectDeny) && denyMatches r q.

(** The loop over allow rules; [why] collects the reasons of the rules passed over. *)
Fixpoint scan_allow (l : list Rule) (q : Request) (usage : option Usage) (why : list string) : Decision :=
  match l with
  | [] => needsApproval (if bool_decide (why = []) then ["no rule allows this action"] else why)
  | r :: l' =>
    if negb (bool_decide (Effect r = EffectAllow)) then scan_allow l' q usage why
    else match allowMismatch r q with
    | [] =>
      match overLimit r usage with
      | LimitPanic m => needsApproval ["policy engine error: " +:+ m]
      | Over o => scan_allow l' q usage (why ++ ["rule " +:+ ID r +:+ ": " +:+ o])
      | Within => mkDecision VerdictAllow (ID r) ["matched rule " +:+ ID r]
      end
    | reasons => scan_allow l' q usage (why ++ ["rule " +:+ ID r +:+ ": " +:+ join reasons "; "])
    end
  end.

Definition Evaluate (rules : list Rule) (q : Request) (now : Z) (usage : option Usage) : Decision :=
  match normalizeRequest q with
  | Err ErrBadAddress => needsApproval ["could not read the request safely: invalid email address"]
  | Ok req =>
    let candidates := filter (fun r => candidate req now r = true) rules in
    match first_some (fun r => if blocking req r then Some r else None) candidates with
    | Some r => mkDecision VerdictDeny (ID r) ["blocked by deny rule " +:+ ID r]
    | None =>
      match alwaysApprove req with
      | [] => scan_allow candidates req usage []
      | reasons => needsApproval reasons
      end
    end
  end.

End evaluate.
