(* ===== verification/PolicySpec.v ===== *)
(** * What the policy engine promises

    [permits] states, without the code's order of tests, when one rule covers
    one request.  The theorems show that [Evaluate] says allow exactly when no
    deny rule blocks, nothing forces a review and some enabled rule permits
    the request with headroom in both windows; that deny rules win whatever
    the order; and what [Validate] and [parseHours] guarantee of stored rules. *)

From S2P Require Import Prelude GoStrings Regex Address PolicyRule PolicyEval.

#[local] Open Scope Z_scope.

(** ** The abstract permission *)

Section spec.
Context `{ME : MailEnv}.

Definition covers (r : Recipients) (e : string) : Prop :=
  e ∈ Addresses r \/ DomainOf e ∈ Domains r.

Record mail_permits (r : Rule) (q : Request) : Prop := {
  mp_someone : people q <> [];
  mp_covered : forall e, e ∈ people q -> covers (MRecipients (RMatch r)) e;
  mp_reply : ReplyOnly (RMatch r) = true \/ QAction q = ActionReply ->
    exists rf, Reply q = Some rf /\ Verified rf = true /\ forall e, e ∈ people q -> e ∈ Participants rf;
  mp_body : (Mode (Body (RMatch r)) = BodyTemplate /\
              normalizeText (QBody q) = normalizeText (Template (Body (RMatch r)))) \/
            Mode (Body (RMatch r)) = BodyFree;
  mp_links : AllowLinks (Body (RMatch r)) = true \/ match_string linkPattern (QBody q) = false
}.

(** A created or updated event fits the time bounds of the rule. *)
Definition fits_hours (c : CalendarMatch) (f : CalendarFacts) : Prop :=
  instant (Start f) < instant (End f) /\
  Z.quot (time_sub (instant (End f)) (instant (Start f))) minute <= MaxMinutes c /\
  (WorkingHours c = "" \/
   exists s e, parseHours (WorkingHours c) = Ok (s, e) /\ Date (Start f) = Date (End f) /\
     s <= Hour (Start f) * 60 + Minute (Start f) /\ Hour (End f) * 60 + Minute (End f) <= e).

Definition calendar_permits (r : Rule) (q : Request) : Prop :=
  exists c f, Calendar (RMatch r) = Some c /\ QCalendar q = Some f /\
    if bool_decide (QAction q = ActionCalendarAccept)
    then Organizer f <> "" /\ DomainOf (Organizer f) ∈ AttendeeDomains c
    else (forall e, e ∈ Attendees f -> DomainOf e ∈ AttendeeDomains c) /\ fits_hours c f.

Definition permits (r : Rule) (q : Request) : Prop :=
  if isMail (QAction q) then mail_permits r q else calendar_permits r q.

(** Both windows have room. *)
Definition headroom (r : Rule) (usage : option Usage) : Prop :=
  exists u h d, usage = Some u /\ u (ID r) hour = UCount h /\ u (ID r) (24 * hour) = UCount d /\
    0 < PerHour (RLimits r) /\ 0 < PerDay (RLimits r) /\ h < PerHour (RLimits r) /\ d < PerDay (RLimits r).

(** Nothing forces a person to look. *)
Definition unforced (q : Request) : Prop :=
  Destructive q = false /\ Bcc q = [] /\ Attachments q <= 0 /\
  (isMail (QAction q) = true ->
     match_prefix forwardSubject (Subject q) = false /\ match_string forwardBody (QBody q) = false).

(** A rule in force for the request at [now]. *)
Definition in_force (rules : list Rule) (q : Request) (now : Z) (r : Rule) : Prop :=
  r ∈ rules /\ Enabled r = true /\ AccountID r = QAccountID q /\ Action r = QAction q /\
  (forall t, ExpiresAt r = Some t -> now < t).

Definition blocks (q : Request) (r : Rule) : Prop :=
  Effect r = EffectDeny /\
  ((Addresses (MRecipients (RMatch r)) = [] /\ Domains (MRecipients (RMatch r)) = []) \/
   exists e, e ∈ people q ++ Bcc q /\ covers (MRecipients (RMatch r)) e).

(** ** The tests of the engine decide the specification *)

Lemma complain_nil ok suffix l : complain ok suffix l = [] <-> forall e, e ∈ l -> ok e = true.
Proof.
  unfold complain. induction l as [|x l IH]; cbn; [set_solver|].
  destruct (ok x) eqn:Hx; cbn.
  - rewrite IH. setoid_rewrite elem_of_cons. naive_solver.
  - split; [done|]. intros H. rewrite (H x) in Hx; [done | set_solver].
Qed.

Lemma listed_spec e addrs domains :
  listed e addrs domains = true <-> e ∈ addrs \/ DomainOf e ∈ domains.
Proof.
  unfold listed. rewrite orb_true_iff, !existsb_exists_elem.
  setoid_rewrite bool_decide_eq_true. naive_solver.
Qed.

Lemma contains_spec l s : contains l s = true <-> s ∈ l.
Proof. unfold contains. rewrite existsb_exists_elem. setoid_rewrite bool_decide_eq_true. naive_solver. Qed.

Lemma denyMatches_spec r q :
  denyMatches r q = true <->
  (Addresses (MRecipients (RMatch r)) = [] /\ Domains (MRecipients (RMatch r)) = []) \/
  exists e, e ∈ people q ++ Bcc q /\ covers (MRecipients (RMatch r)) e.
Proof.
  unfold denyMatches. case_bool_decide as H; [tauto|].
  rewrite existsb_exists_elem. setoid_rewrite listed_spec. unfold covers. naive_solver.
Qed.

Lemma blocking_spec q r : blocking q r = true <-> blocks q r.
Proof. unfold blocking, blocks. by rewrite andb_true_iff, bool_decide_eq_true, denyMatches_spec. Qed.

Lemma candidate_spec rules q now r :
  r ∈ filter (fun r => candidate q now r = true) rules <-> in_force rules q now r.
Proof.
  rewrite list_elem_of_filter. unfold candidate, in_force, time_before.
  rewrite !andb_true_iff, !bool_decide_eq_true.
  destruct (ExpiresAt r) as [t|]; [rewrite Z.ltb_lt|]; naive_solver.
Qed.

Lemma if_nil (b : bool) (x : string) : (if b then [x] else []) = [] <-> b = false.
Proof. by destruct b. Qed.
Lemma if_nil' (b : bool) (x : string) : (if b then [] else [x]) = [] <-> b = true.
Proof. by destruct b. Qed.

Lemma alwaysApprove_nil q : alwaysApprove q = [] <-> unforced q.
Proof.
  unfold alwaysApprove, unforced. rewrite !app_nil, !if_nil, if_nil', bool_decide_eq_true.
  rewrite Z.ltb_ge, andb_false_iff, orb_false_iff. destruct (isMail (QAction q)); intuition congruence.
Qed.

Lemma reply_reasons_nil r q :
  reply_reasons r q = [] <->
  (ReplyOnly (RMatch r) = true \/ QAction q = ActionReply ->
   exists rf, Reply q = Some rf /\ Verified rf = true /\ forall e, e ∈ people q -> e ∈ Participants rf).
Proof.
  unfold reply_reasons. destruct (_ || _) eqn:Hc.
  - rewrite orb_true_iff, bool_decide_eq_true in Hc.
    destruct (Reply q) as [rf|]; [destruct (Verified rf) eqn:Hv|].
    + rewrite complain_nil. setoid_rewrite contains_spec. naive_solver.
    + split; [done|]. intros H. destruct (H Hc) as (? & [= <-] & ? & _). congruence.
    + split; [done|]. intros H. by destruct (H Hc) as (? & ? & _).
  - rewrite orb_false_iff, bool_decide_eq_false in Hc. intuition congruence.
Qed.

Lemma body_reasons_nil r q :
  body_reasons r q = [] <->
  (Mode (Body (RMatch r)) = BodyTemplate /\
     normalizeText (QBody q) = normalizeText (Template (Body (RMatch r)))) \/
  Mode (Body (RMatch r)) = BodyFree.
Proof.
  unfold body_reasons. cbv zeta. case_bool_decide as H1.
  - rewrite if_nil', bool_decide_eq_true, H1. unfold BodyTemplate, BodyFree. naive_solver.
  - case_bool_decide; naive_solver.
Qed.

Lemma link_reasons_nil r q :
  link_reasons r q = [] <->
  AllowLinks (Body (RMatch r)) = true \/ match_string linkPattern (QBody q) = false.
Proof. unfold link_reasons. by rewrite if_nil, andb_false_iff, negb_false_iff. Qed.

Lemma mailMismatch_nil r q : mailMismatch r q = [] <-> mail_permits r q.
Proof.
  unfold mailMismatch. case_bool_decide as Hp.
  - split; [done|]. intros []. done.
  - rewrite !app_nil, complain_nil, reply_reasons_nil, body_reasons_nil, link_reasons_nil.
    setoid_rewrite listed_spec.
    split; [intros (? & ? & ? & ?); by split | intros []; done].
Qed.

Lemma time_reasons_nil c f : time_reasons c f = [] <-> fits_hours c f.
Proof.
  unfold time_reasons, fits_hours, time_after. cbv zeta.
  destruct (_ <? _) eqn:Hlt; cbn [negb]; [|apply Z.ltb_ge in Hlt; split; [done | lia]].
  apply Z.ltb_lt in Hlt. rewrite app_nil, if_nil, Z.ltb_ge.
  case_bool_decide as Hw; [tauto|].
  destruct (parseHours _) as [[s e]|]; [|naive_solver].
  rewrite if_nil, !orb_false_iff, negb_false_iff, Z.eqb_eq, !Z.ltb_ge. naive_solver.
Qed.

Lemma calendarMismatch_nil r q : calendarMismatch r q = [] <-> calendar_permits r q.
Proof.
  unfold calendarMismatch, calendar_permits.
  destruct (Calendar (RMatch r)) as [c|]; [|naive_solver].
  destruct (QCalendar q) as [f|]; [|naive_solver]. cbv zeta.
  case_bool_decide as Ha; cbn [andb].
  - case_bool_decide as Ho; [naive_solver|].
    rewrite complain_nil. setoid_rewrite listed_spec. set_solver.
  - rewrite app_nil, complain_nil, time_reasons_nil. setoid_rewrite listed_spec. set_solver.
Qed.

Lemma allowMismatch_nil r q : allowMismatch r q = [] <-> permits r q.
Proof.
  unfold allowMismatch, permits.
  destruct (isMail _); [apply mailMismatch_nil | apply calendarMismatch_nil].
Qed.

(** The limit tests fail one after the other. *)
Ltac limit_dead :=
  split; [done|]; intros (?&?&?&?&?&?&?&?&?&?); simplify_eq;
  repeat match goal with
  | H : ?f ?a ?b = UCount _, H' : ?f ?a ?b = _ |- _ => rewrite H in H'; simplify_eq
  end; lia.
Ltac limit_case H :=
  let Hc := fresh in
  destruct H eqn:Hc; [apply Z.leb_le in Hc; limit_dead | apply Z.leb_gt in Hc].

Lemma overLimit_Within r usage : overLimit r usage = Within <-> headroom r usage.
Proof.
  unfold overLimit, headroom. destruct usage as [u|]; [|limit_dead]. cbn.
  limit_case (PerHour (RLimits r) <=? 0).
  destruct (u (ID r) hour) as [h| |] eqn:Hh; [|limit_dead..].
  limit_case (PerHour (RLimits r) <=? h).
  limit_case (PerDay (RLimits r) <=? 0).
  destruct (u (ID r) (24 * hour)) as [d| |] eqn:Hd; [|limit_dead..].
  limit_case (PerDay (RLimits r) <=? d).
  split; [|done]. intros _. by exists u, h, d.
Qed.

(** ** The loops *)

(** The counter may fail, but does not panic. *)
Definition no_panic (usage : option Usage) : Prop :=
  forall u id w m, usage = Some u -> u id w <> UPanic m.

Lemma overLimit_no_panic r usage m : no_panic usage -> overLimit r usage <> LimitPanic m.
Proof.
  intros Hn. unfold overLimit. destruct usage as [u|]; [|done]. cbn.
  repeat split_guard; try done; intros _; by eapply Hn.
Qed.

Lemma scan_allow_sound l q usage why :
  DVerdict (scan_allow l q usage why) = VerdictAllow ->
  exists r, r ∈ l /\ Effect r = EffectAllow /\ permits r q /\ headroom r usage /\
    scan_allow l q usage why = mkDecision VerdictAllow (ID r) ["matched rule " +:+ ID r].
Proof.
  revert why. induction l as [|r l IH]; intros why; cbn; [done|].
  assert (Hrec : forall w, DVerdict (scan_allow l q usage w) = VerdictAllow ->
     exists r0, r0 ∈ r :: l /\ Effect r0 = EffectAllow /\ permits r0 q /\ headroom r0 usage /\
     scan_allow l q usage w = mkDecision VerdictAllow (ID r0) ["matched rule " +:+ ID r0]).
  { intros w Hw. destruct (IH w Hw) as (r0 & ? & ?). exists r0. set_solver. }
  case_bool_decide as He; cbn [negb]; [|apply Hrec].
  destruct (allowMismatch r q) eqn:Hm; [|apply Hrec].
  destruct (overLimit r usage) eqn:Hl; [|apply Hrec|done].
  intros _. exists r. apply allowMismatch_nil in Hm. apply overLimit_Within in Hl. set_solver.
Qed.

Lemma scan_allow_complete l q usage why r :
  no_panic usage -> r ∈ l -> Effect r = EffectAllow -> permits r q -> headroom r usage ->
  DVerdict (scan_allow l q usage why) = VerdictAllow.
Proof.
  intros Hn Hr He Hp Hh. revert why. induction l as [|r' l IH]; intros why; cbn; [set_solver|].
  apply elem_of_cons in Hr as [<-|Hr].
  - rewrite bool_decide_true by done. cbn.
    apply allowMismatch_nil in Hp as ->. by apply overLimit_Within in Hh as ->.
  - specialize (IH Hr). destruct (negb _); [done|].
    destruct (allowMismatch r' q); [|done].
    destruct (overLimit r' usage) eqn:Hl; [done|done|]. by apply overLimit_no_panic in Hl.
Qed.

Lemma scan_allow_not_deny l q usage why : DVerdict (scan_allow l q usage why) <> VerdictDeny.
Proof.
  revert why. induction l as [|r l IH]; intros why; cbn; [done|].
  repeat split_guard; done.
Qed.

(** The candidate loop finds a deny rule iff one is in force and blocks. *)
Lemma deny_search rules q now :
  match first_some (fun r => if blocking q r then Some r else None)
          (filter (fun r => candidate q now r = true) rules) with
  | Some r => in_force rules q now r /\ blocks q r
  | None => forall r, in_force rules q now r -> ~ blocks q r
  end.
Proof.
  destruct (first_some _ _) as [r|] eqn:Hf.
  - apply first_some_Some in Hf as (l1 & x & l2 & Hl & Hx & _).
    destruct (blocking q x) eqn:Hb; [|done]. injection Hx as ->.
    split; [|by apply blocking_spec]. apply candidate_spec. rewrite Hl. set_solver.
  - intros r Hr Hb. apply first_some_None in Hf. rewrite Forall_forall in Hf.
    apply candidate_spec, Hf in Hr. apply blocking_spec in Hb. by rewrite Hb in Hr.
Qed.

(** Everything an unattended write needs. *)
Definition allowed_by (rules : list Rule) (q : Request) (now : Z) (usage : option Usage) (r : Rule) : Prop :=
  exists req, normalizeRequest q = Ok req /\
    (forall r', in_force rules req now r' -> ~ blocks req r') /\ unforced req /\
    in_force rules req now r /\ Effect r = EffectAllow /\ permits r req /\ headroom r usage.

Lemma Evaluate_allow_inv rules q now usage :
  DVerdict (Evaluate rules q now usage) = VerdictAllow ->
  exists r, allowed_by rules q now usage r /\
    Evaluate rules q now usage = mkDecision VerdictAllow (ID r) ["matched rule " +:+ ID r].
Proof.
  unfold Evaluate, allowed_by. destruct (normalizeRequest q) as [req|[]]; [|done]. cbv zeta.
  pose proof (deny_search rules req now) as Hd. destruct (first_some _ _); [done|].
  destruct (alwaysApprove req) eqn:Ha; [|done]. apply alwaysApprove_nil in Ha.
  intros H. destruct (scan_allow_sound _ _ _ _ H) as (r & Hr & ? & ? & ? & ?).
  apply candidate_spec in Hr. eauto 15.
Qed.

Lemma Evaluate_allow_intro rules q now usage r :
  no_panic usage -> allowed_by rules q now usage r ->
  DVerdict (Evaluate rules q now usage) = VerdictAllow.
Proof.
  intros Hn (req & Hq & Hd & Hu & Hr & He & Hp & Hh). unfold Evaluate. rewrite Hq. cbv zeta.
  pose proof (deny_search rules req now) as Hs. destruct (first_some _ _); [naive_solver|].
  apply alwaysApprove_nil in Hu as ->. apply scan_allow_complete with r; try done.
  by apply candidate_spec.
Qed.

Lemma Evaluate_deny_char rules q now usage :
  DVerdict (Evaluate rules q now usage) = VerdictDeny <->
  exists req r, normalizeRequest q = Ok req /\ in_force rules req now r /\ blocks req r.
Proof.
  unfold Evaluate. destruct (normalizeRequest q) as [req|[]]; [|naive_solver]. cbv zeta.
  pose proof (deny_search rules req now) as Hd. destruct (first_some _ _).
  - naive_solver.
  - split; [|naive_solver]. destruct (alwaysApprove req); [|done].
    intros H. by apply scan_allow_not_deny in H.
Qed.

(** ** The claims *)

(** C1. Safety: the engine says allow only when the request could be read, no
    deny rule in force blocks it, nothing forces a review (no deletion, Bcc,
    attachment or forward), and a rule that is enabled, unexpired, for this
    account and action, and an allow rule permits it with room in both usage
    windows; the decision names that rule. *)
Theorem Evaluate_allow_sound rules q now usage :
  DVerdict (Evaluate rules q now usage) = VerdictAllow ->
  exists r, allowed_by rules q now usage r /\ RuleID (Evaluate rules q now usage) = ID r.
Proof.
  intros H. destruct (Evaluate_allow_inv _ _ _ _ H) as (r & Hr & ->). by exists r.
Qed.

(** Completeness: when the usage counter answers, an allow rule that
    permits the request with headroom is never overlooked: every other rule
    that is passed over, whatever its order, cannot hide it. *)
Theorem Evaluate_allow_complete rules q now usage :
  no_panic usage ->
  DVerdict (Evaluate rules q now usage) = VerdictAllow <-> exists r, allowed_by rules q now usage r.
Proof.
  intros Hn. split.
  - intros H. destruct (Evaluate_allow_inv _ _ _ _ H) as (r & Hr & _). by exists r.
  - intros (r & Hr). by apply Evaluate_allow_intro with r.
Qed.

(** A deny rule in force that names anyone in the request (or names nobody)
    blocks it, whatever other rules say, and nothing else does. *)
Theorem Evaluate_deny_iff rules q now usage :
  DVerdict (Evaluate rules q now usage) = VerdictDeny <->
  exists req r, normalizeRequest q = Ok req /\ in_force rules req now r /\ blocks req r.
Proof. apply Evaluate_deny_char. Qed.

Lemma in_force_mono rules rules' q now r :
  (r ∈ rules -> r ∈ rules') -> in_force rules q now r -> in_force rules' q now r.
Proof. unfold in_force. naive_solver. Qed.

(** More deny rules and fewer allow rules never widen what runs unattended. *)
Theorem Evaluate_restrict rules rules' q now usage :
  no_panic usage ->
  (forall r, r ∈ rules -> Effect r = EffectDeny -> r ∈ rules') ->
  (forall r, r ∈ rules' -> Effect r = EffectAllow -> r ∈ rules) ->
  DVerdict (Evaluate rules' q now usage) = VerdictAllow ->
  DVerdict (Evaluate rules q now usage) = VerdictAllow.
Proof.
  intros Hn Hdeny Hallow H. destruct (Evaluate_allow_inv _ _ _ _ H) as (r & Hr & _).
  destruct Hr as (req & Hq & Hd & Hu & Hf & He & Hp & Hh).
  apply Evaluate_allow_intro with r; [done|]. exists req. split_and!; try done.
  - intros r' Hr' Hb. apply (Hd r'); [|done]. eapply in_force_mono; [|done].
    intros. apply Hdeny; [done|]. apply Hb.
  - eapply in_force_mono; [|done]. auto.
Qed.

(** The order of the rule book does not change the verdict. *)
Theorem Evaluate_verdict_perm rules rules' q now usage :
  no_panic usage -> rules ≡ₚ rules' ->
  DVerdict (Evaluate rules q now usage) = DVerdict (Evaluate rules' q now usage).
Proof.
  intros Hn Hp.
  assert (Hf : forall req r, in_force rules req now r <-> in_force rules' req now r).
  { intros req r. unfold in_force. by rewrite Hp. }
  assert (Ha : DVerdict (Evaluate rules q now usage) = VerdictAllow <->
               DVerdict (Evaluate rules' q now usage) = VerdictAllow).
  { split; intros H; destruct (Evaluate_allow_inv _ _ _ _ H) as (r & Hr & _);
      apply Evaluate_allow_intro with r; try done;
      unfold allowed_by in *; setoid_rewrite Hf || setoid_rewrite <- Hf; done. }
  assert (Hd : DVerdict (Evaluate rules q now usage) = VerdictDeny <->
               DVerdict (Evaluate rules' q now usage) = VerdictDeny).
  { rewrite !Evaluate_deny_char. by setoid_rewrite Hf. }
  destruct (DVerdict (Evaluate rules q now usage)), (DVerdict (Evaluate rules' q now usage)); naive_solver.
Qed.

(** ** Stored rules *)

Lemma parseHours_range s a b :
  parseHours s = Ok (a, b) -> 0 <= a < b /\ a <= 1439 /\ b <= 24 * 60 + 59.
Proof.
  unfold parseHours. destruct (sscanf_hours s) as [[[[sh sm] eh] em]|]; [|done].
  destruct (_ || _) eqn:Hr; [done|]. cbv zeta.
  destruct (_ <=? _) eqn:Hle; [done|]. intros [= <- <-].
  apply Z.leb_gt in Hle. rewrite !orb_false_iff, !Z.ltb_ge in Hr. lia.
Qed.

Lemma normalizeDomains_public r l ds :
  normalizeDomains r l = Ok ds -> Effect r = EffectAllow ->
  forall d, d ∈ ds -> IsPublicDomain d = true -> AllowPublicDomain r = true.
Proof.
  unfold normalizeDomains. intros Hl He d Hd Hp.
  destruct (mapM_result_elem _ _ _ _ Hl Hd) as (raw & _ & Hraw).
  apply result_bind_Ok in Hraw as (d' & _ & Hraw). rewrite (bool_decide_true _ He), andb_true_r in Hraw.
  destruct (IsPublicDomain d' && _) eqn:Hc; [done|]. injection Hraw as ->.
  rewrite Hp in Hc. cbn in Hc. by apply negb_false_iff in Hc.
Qed.

(** What an accepted allow rule is known to bound. *)
Record bounded_allow (r : Rule) : Prop := {
  ba_limits : 0 < PerHour (RLimits r) /\ 0 < PerDay (RLimits r);
  ba_who : isMail (Action r) = true ->
    Addresses (MRecipients (RMatch r)) <> [] \/ Domains (MRecipients (RMatch r)) <> [];
  ba_reply : Action r = ActionReply -> ReplyOnly (RMatch r) = true;
  ba_body : isMail (Action r) = true ->
    (Mode (Body (RMatch r)) = BodyTemplate /\ trim_space (Template (Body (RMatch r))) <> "") \/
    Mode (Body (RMatch r)) = BodyFree;
  ba_calendar : isCalendarRuleAction (Action r) = true ->
    exists c, Calendar (RMatch r) = Some c /\ AttendeeDomains c <> [] /\
      (Action r <> ActionCalendarAccept -> 0 < MaxMinutes c /\ WorkingHours c <> "")
}.

Lemma validate_allow_bounded r r' :
  validate_allow r = Ok r' ->
  bounded_allow r' /\
  r' = set_who r (Addresses (MRecipients (RMatch r))) (Domains (MRecipients (RMatch r)))
         (bool_decide (Action r = ActionReply) || ReplyOnly (RMatch r)).
Proof.
  unfold validate_allow. cbv zeta.
  destruct (isMail (Action r) && _) eqn:Hwho; [done|].
  set (r1 := if bool_decide (Action r = ActionReply) then _ else r).
  assert (Hr1 : r1 = set_who r (Addresses (MRecipients (RMatch r))) (Domains (MRecipients (RMatch r)))
                       (bool_decide (Action r = ActionReply) || ReplyOnly (RMatch r))).
  { subst r1. destruct r as [? ? ? ? a ? ? [[] ? ? ?] ?]. unfold set_who; cbn. destruct (bool_decide (a = ActionReply)); reflexivity. }
  assert (Ha : Action r1 = Action r) by by rewrite Hr1.
  assert (HL : RLimits r1 = RLimits r) by by rewrite Hr1.
  assert (HB : Body (RMatch r1) = Body (RMatch r)) by by rewrite Hr1.
  assert (HC : Calendar (RMatch r1) = Calendar (RMatch r)) by by rewrite Hr1.
  destruct (if isMail (Action r1) then _ else _) as [?|] eqn:Hbody; [done|].
  destruct (if isCalendarRuleAction (Action r1) then _ else _) as [?|] eqn:Hcal; [done|].
  destruct ((PerHour _ <=? 0) || _) eqn:Hlim; [done|]. intros [= <-]. split; [|done].
  rewrite orb_false_iff, !Z.leb_gt in Hlim. split.
  - done.
  - intros Hm. rewrite Ha in Hm. rewrite Hm in Hwho. cbn in Hwho.
    rewrite negb_involutive, bool_decide_eq_false in Hwho. rewrite Hr1. cbn.
    destruct (Addresses _); [right; naive_solver | by left].
  - intros Hr. rewrite Ha in Hr. rewrite Hr1. cbn. by rewrite bool_decide_true.
  - intros Hm. rewrite Hm, <- HB in Hbody. repeat case_bool_decide; naive_solver.
  - intros Hk. rewrite Hk, <- HC in Hcal. destruct (Calendar (RMatch r1)) as [c|]; [|done].
    exists c. split; [done|]. revert Hcal. destruct (MaxMinutes c <=? 0) eqn:Hmx;
      [|apply Z.leb_gt in Hmx]; repeat case_bool_decide; naive_solver.
Qed.

(** The calendar part of an accepted rule. *)
Definition calendar_wf (r : Rule) : Prop :=
  forall c, Calendar (RMatch r) = Some c ->
    0 <= MaxMinutes c /\ (WorkingHours c <> "" -> exists s e, parseHours (WorkingHours c) = Ok (s, e)) /\
    (Effect r = EffectAllow -> forall d, d ∈ AttendeeDomains c -> IsPublicDomain d = true -> AllowPublicDomain r = true).

Lemma validate_calendar_Ok r r' :
  validate_calendar r = Ok r' ->
  calendar_wf r' /\ (bounded_allow r -> bounded_allow r') /\
  MRecipients (RMatch r') = MRecipients (RMatch r) /\
  (ID r', Enabled r', ExpiresAt r', AccountID r', Action r', Effect r', AllowPublicDomain r', RLimits r') =
  (ID r, Enabled r, ExpiresAt r, AccountID r, Action r, Effect r, AllowPublicDomain r, RLimits r).
Proof.
  unfold validate_calendar. destruct (Calendar (RMatch r)) as [c|] eqn:Hc.
  - intros H. apply result_bind_Ok in H as (ds & Hds & H).
    apply result_bind_Ok in H as ([s e] & Hh & H).
    destruct (_ <? 0) eqn:Hm; [done|]. injection H as <-. apply Z.ltb_ge in Hm.
    split_and!; try done.
    + intros c' [= <-]. cbn. split_and!; [done| |].
      * intros Hw. rewrite bool_decide_false in Hh by done. eauto.
      * intros He d. by apply (normalizeDomains_public _ _ _ Hds He).
    + intros []. split; try done. cbn. intros Hk. destruct (ba_calendar0 Hk) as (c' & Hc' & Hne & ?).
      rewrite Hc in Hc'. injection Hc' as <-. eexists. split; [done|]. split; [|done]. cbn.
      unfold normalizeDomains in Hds. apply mapM_result_Ok in Hds. by destruct Hds.
  - intros [= <-]. split_and!; try done. intros c. by rewrite Hc.
Qed.

(** A rule accepted by [Validate] keeps its identity, account, action,
    effect and limits; an accepted allow rule has positive limits, names
    someone (mail), is reply-only (replies), has a body mode, bounds calendar
    domains, minutes and hours (calendar), and names a public mailbox
    provider only with the explicit flag. *)
Theorem Validate_guarantees r r' :
  Validate r = Ok r' ->
  known_action (Action r') = true /\ (Effect r' = EffectAllow \/ Effect r' = EffectDeny) /\
  (ID r', Enabled r', ExpiresAt r', AccountID r', Action r', Effect r', AllowPublicDomain r', RLimits r') =
  (ID r, Enabled r, ExpiresAt r, AccountID r, Action r, Effect r, AllowPublicDomain r, RLimits r) /\
  calendar_wf r' /\
  (Effect r' = EffectAllow ->
    bounded_allow r' /\
    forall d, d ∈ Domains (MRecipients (RMatch r')) -> IsPublicDomain d = true -> AllowPublicDomain r' = true).
Proof.
  unfold Validate. case_bool_decide as Hacc; [done|].
  destruct (negb (known_action _)) eqn:Hk; [done|]. apply negb_false_iff in Hk.
  destruct (negb (_ || _)) eqn:He; [done|].
  rewrite negb_false_iff, orb_true_iff, !bool_decide_eq_true in He. cbv zeta.
  intros H. apply result_bind_Ok in H as (addrs & _ & H).
  apply result_bind_Ok in H as (domains & Hds & H).
  apply result_bind_Ok in H as (r1 & Hr1 & H).
  apply validate_calendar_Ok in H as (Hwf & Hb & Hmr & [= -> -> -> -> -> -> -> ->]).
  assert (Hid : (ID r1, Enabled r1, ExpiresAt r1, AccountID r1, Action r1, Effect r1, AllowPublicDomain r1, RLimits r1) =
    (ID r, Enabled r, ExpiresAt r, AccountID r, Action r, Effect r, AllowPublicDomain r, RLimits r) /\
    Domains (MRecipients (RMatch r1)) = domains /\ (Effect r = EffectAllow -> bounded_allow r1)).
  { revert Hr1. case_bool_decide as Hal.
    - intros Hv. apply validate_allow_bounded in Hv as [? ->]. done.
    - intros [= <-]. done. }
  destruct Hid as ([= -> -> -> -> -> -> -> ->] & Hdom & Hba).
  split_and!; try done. intros Hal. split; [auto|].
  intros d. rewrite Hmr, Hdom. by apply (normalizeDomains_public _ _ _ Hds Hal).
Qed.

(** Working hours that parse are a window inside the day: they start
    before they end, at 23:59 at the latest, and end by minute 1499. *)
Theorem parseHours_bounds s a b :
  parseHours s = Ok (a, b) -> 0 <= a < b /\ a <= 1439 /\ b <= 24 * 60 + 59.
Proof. apply parseHours_range. Qed.

End spec.

(** ** Closed instances

    One reply rule with a template, one deny rule, and a verified reply. *)

Definition demo_rule : Rule :=
  mkRule "rule_1" true (Some 100) "acct" ActionReply EffectAllow false
    (mkMatch (mkRecipients ["bob@corp.example"] ["partner.example"]) true
       (mkBodyMatch BodyTemplate "Thank you." false) None)
    (mkLimits 3 10).

Definition demo_deny : Rule :=
  mkRule "rule_2" true None "acct" ActionReply EffectDeny false
    (mkMatch (mkRecipients [] ["blocked.example"]) false (mkBodyMatch "" "" false) None)
    (mkLimits 0 0).

Definition demo_request : Request :=
  mkRequest "acct" ActionReply false [" Bob@Corp.example"] ["ann@partner.example"] []
    "Re: hello" "Thank you. " 0
    (Some (mkReplyFacts true ["bob@corp.example"; "ann@partner.example"])) None.

Definition demo_usage : option Usage := Some (fun _ w => UCount (if w =? hour then 2 else 9)).

#[local] Existing Instance plain_mail_env.

Lemma demo_no_panic : no_panic demo_usage.
Proof. intros u id w m [= <-]. done. Defined.

Lemma Evaluate_allow_sound_witness :
  exists r, allowed_by [demo_deny; demo_rule] demo_request 50 demo_usage r /\
    RuleID (Evaluate [demo_deny; demo_rule] demo_request 50 demo_usage) = ID r.
Proof. apply Evaluate_allow_sound. vm_compute. reflexivity. Defined.

Lemma Evaluate_allow_complete_witness :
  no_panic demo_usage /\
  (DVerdict (Evaluate [demo_deny; demo_rule] demo_request 50 demo_usage) = VerdictAllow <->
   exists r, allowed_by [demo_deny; demo_rule] demo_request 50 demo_usage r).
Proof. split; [exact demo_no_panic | apply (Evaluate_allow_complete _ _ _ _ demo_no_panic)]. Defined.

Lemma Evaluate_restrict_witness :
  DVerdict (Evaluate [demo_rule] demo_request 50 demo_usage) = VerdictAllow.
Proof.
  apply (Evaluate_restrict [demo_rule] [demo_deny; demo_rule]); [exact demo_no_panic| | |].
  - intros r Hr. apply list_elem_of_singleton in Hr as ->. discriminate.
  - intros r Hr He. apply elem_of_cons in Hr as [->|Hr]; [discriminate He | exact Hr].
  - vm_compute. reflexivity.
Defined.

Lemma Evaluate_verdict_perm_witness :
  DVerdict (Evaluate [demo_deny; demo_rule] demo_request 50 demo_usage) =
  DVerdict (Evaluate [demo_rule; demo_deny] demo_request 50 demo_usage).
Proof. apply (Evaluate_verdict_perm _ _ _ _ _ demo_no_panic). constructor. Defined.

Lemma Validate_guarantees_witness :
  exists r', Validate demo_rule = Ok r' /\ Effect r' = EffectAllow /\ bounded_allow r'.
Proof.
  eexists. split; [vm_compute; reflexivity|].
  match goal with |- Effect ?r' = _ /\ _ =>
    assert (Hv : Validate demo_rule = Ok r') by (vm_compute; reflexivity);
    destruct (Validate_guarantees _ _ Hv) as (_ & _ & _ & _ & Hb)
  end.
  split; [reflexivity | apply Hb; reflexivity].
Defined.

Lemma parseHours_bounds_witness : 0 <= 540 < 1080 /\ 540 <= 1439 /\ 1080 <= 24 * 60 + 59.
Proof. apply (parseHours_bounds "09:00-18:00"). vm_compute. reflexivity. Defined.

(** A deny rule listed after the allow rule still wins. *)
Example deny_wins :
  DVerdict (Evaluate [demo_rule; set_who demo_deny [] [] false] demo_request 50 demo_usage) = VerdictDeny.
Proof. vm_compute. reflexivity. Qed.
