(* ===== verification/Io.v ===== *)
(** * Effects

    Code that talks to SQLite, reads the clock and draws identifiers is
    modelled in one state-and-error monad over a component's own state [S]
    (its tables and caches) and an environment: a schedule of database
    failures, a clock that never goes back, and a counter of identifiers
    drawn.  A theorem quantified over the environment therefore holds for
    every pattern of database errors and every timing.

    A failed statement changes nothing (SQLite statements are atomic);
    TIMESTAMP columns are compared as the instants they hold. *)

From S2P Require Import Prelude.

#[local] Open Scope Z_scope.

Record env := mkEnv {
  faults : list bool;   (* outcome of the next statements: [true] fails *)
  clock : Z;            (* the last instant read *)
  ticks : list N;       (* how far the clock moves before each read *)
  fresh : nat           (* identifiers drawn so far *)
}.

Definition io (S E A : Type) : Type := S -> env -> result E A * (S * env).

#[export] Instance io_ret S E : MRet (io S E) := fun A a s e => (Ok a, (s, e)).
#[export] Instance io_bind S E : MBind (io S E) := fun A B f m s e =>
  match m s e with
  | (Ok a, (s', e')) => f a s' e'
  | (Err x, se) => (Err x, se)
  end.

Section ops.
Context {S E : Type}.

Definition throw {A} (x : E) : io S E A := fun s e => (Err x, (s, e)).
Definition lift {A} (r : result E A) : io S E A := fun s e => (r, (s, e)).
Definition get : io S E S := fun s e => (Ok s, (s, e)).
Definition gets {A} (f : S -> A) : io S E A := fun s e => (Ok (f s), (s, e)).
Definition modify (f : S -> S) : io S E unit := fun s e => (Ok tt, (f s, e)).

(** Run [m] and look at its result instead of propagating an error. *)
Definition attempt {A} (m : io S E A) : io S E (result E A) := fun s e =>
  let '(r, se) := m s e in (Ok r, se).

(** [_ = m] and [_, _ = m]: the error is dropped. *)
Definition ignore {A} (m : io S E A) : io S E unit := _ ← attempt m; mret tt.

(** One SQL statement: it fails with [x] or goes through. *)
Definition db (x : E) : io S E unit := fun s e =>
  match faults e with
  | true :: fs => (Err x, (s, mkEnv fs (clock e) (ticks e) (fresh e)))
  | false :: fs => (Ok tt, (s, mkEnv fs (clock e) (ticks e) (fresh e)))
  | [] => (Ok tt, (s, e))
  end.

(** [time.Now()]. *)
Definition now : io S E Z := fun s e =>
  match ticks e with
  | d :: ts => let t := clock e + Z.of_N d in (Ok t, (s, mkEnv (faults e) t ts (fresh e)))
  | [] => (Ok (clock e), (s, e))
  end.

(** The number of the next identifier, for [uuid.NewString]. *)
Definition draw : io S E nat := fun s e =>
  (Ok (fresh e), (s, mkEnv (faults e) (clock e) (ticks e) (Datatypes.S (fresh e)))).

(** [for _, x := range l { body(x) }] *)
Fixpoint for_each {A} (f : A -> io S E unit) (l : list A) : io S E unit :=
  match l with
  | [] => mret tt
  | x :: l' => _ ← f x; for_each f l'
  end.

(** ** Weakest preconditions *)

Definition wp {A} (m : io S E A) (Q : result E A -> S -> env -> Prop) (s : S) (e : env) : Prop :=
  match m s e with (r, (s', e')) => Q r s' e' end.

(** [I] holds before and after, whatever happens. *)
Definition preserves {A} (I : S -> env -> Prop) (m : io S E A) : Prop :=
  forall s e, I s e -> wp m (fun _ => I) s e.

(** A statement about a run, read off a precondition. *)
Lemma run_wp {A} (m : io S E A) (Q : result E A -> S -> env -> Prop) s e r s' e' :
  wp m Q s e -> m s e = (r, (s', e')) -> Q r s' e'.
Proof. unfold wp. intros H Hm. by rewrite Hm in H. Qed.
Lemma run_ok {A} (m : io S E A) (Q : A -> S -> env -> Prop) s e a s' e' :
  wp m (fun r s' e' => forall a, r = Ok a -> Q a s' e') s e -> m s e = (Ok a, (s', e')) -> Q a s' e'.
Proof. unfold wp. intros H Hm. rewrite Hm in H. auto. Qed.

Lemma wp_ret {A} (a : A) Q s e : Q (Ok a) s e -> wp (mret a : io S E A) Q s e.
Proof. done. Qed.
Lemma wp_throw {A} (x : E) Q s e : Q (Err x) s e -> wp (throw x : io S E A) Q s e.
Proof. done. Qed.
Lemma wp_lift {A} (r : result E A) Q s e : Q r s e -> wp (lift r) Q s e.
Proof. done. Qed.
Lemma wp_get Q s e : Q (Ok s) s e -> wp get Q s e.
Proof. done. Qed.
Lemma wp_gets {A} (f : S -> A) Q s e : Q (Ok (f s)) s e -> wp (gets f) Q s e.
Proof. done. Qed.
Lemma wp_modify f (Q : result E unit -> S -> env -> Prop) s e : Q (Ok tt) (f s) e -> wp (modify f) Q s e.
Proof. done. Qed.

Lemma wp_bind {A B} (m : io S E A) (f : A -> io S E B) Q s e :
  wp m (fun r s' e' => match r with Ok a => wp (f a) Q s' e' | Err x => Q (Err x) s' e' end) s e ->
  wp (m ≫= f) Q s e.
Proof. unfold wp, mbind, io_bind. destruct (m s e) as [[a|x] [s' e']]; done. Qed.

Lemma wp_attempt {A} (m : io S E A) Q s e :
  wp m (fun r => Q (Ok r)) s e -> wp (attempt m) Q s e.
Proof. unfold wp, attempt. by destruct (m s e) as [r [s' e']]. Qed.

Lemma wp_mono {A} (m : io S E A) (P Q : result E A -> S -> env -> Prop) s e :
  wp m P s e -> (forall r s' e', P r s' e' -> Q r s' e') -> wp m Q s e.
Proof. unfold wp. destruct (m s e) as [r [s' e']]. auto. Qed.

Lemma wp_and {A} (m : io S E A) (P Q : result E A -> S -> env -> Prop) s e :
  wp m P s e -> wp m Q s e -> wp m (fun r s' e' => P r s' e' /\ Q r s' e') s e.
Proof. unfold wp. destruct (m s e) as [r [s' e']]. auto. Qed.

Lemma wp_ignore {A} (m : io S E A) (Q : result E unit -> S -> env -> Prop) s e :
  wp m (fun _ => Q (Ok tt)) s e -> wp (ignore m) Q s e.
Proof.
  intros H. unfold ignore. apply wp_bind, wp_attempt.
  eapply wp_mono; [exact H|]. intros. by apply wp_ret.
Qed.

(** Environments only move forward. *)
Definition env_le (e e' : env) : Prop := clock e <= clock e' /\ (fresh e <= fresh e')%nat.

#[export] Instance env_le_preorder : PreOrder env_le.
Proof. split; [intros e | intros e1 e2 e3]; unfold env_le; lia. Qed.

Lemma wp_db x (Q : result E unit -> S -> env -> Prop) s e :
  (forall e', env_le e e' -> clock e' = clock e -> fresh e' = fresh e ->
     Q (Ok tt) s e' /\ Q (Err x) s e') ->
  wp (db x) Q s e.
Proof.
  unfold wp, db. intros H. destruct (faults e) as [|[] fs];
    apply H; unfold env_le; cbn; lia.
Qed.

Lemma wp_now (Q : result E Z -> S -> env -> Prop) s e :
  (forall e', env_le e e' -> fresh e' = fresh e -> Q (Ok (clock e')) s e') -> wp now Q s e.
Proof.
  unfold wp, now. intros H. destruct (ticks e) as [|d ts]; [apply H; [reflexivity|done]|].
  apply (H (mkEnv (faults e) (clock e + Z.of_N d) ts (fresh e)));
    [split; cbn [clock fresh]; lia | done].
Qed.

Lemma wp_draw (Q : result E nat -> S -> env -> Prop) s e :
  (forall e', env_le e e' -> clock e' = clock e -> fresh e' = Datatypes.S (fresh e) ->
     Q (Ok (fresh e)) s e') -> wp draw Q s e.
Proof. unfold wp, draw. intros H. apply H; unfold env_le; cbn; lia. Qed.

Lemma wp_for_each {A} (f : A -> io S E unit) l (I : S -> env -> Prop) s e :
  I s e -> (forall x s e, x ∈ l -> I s e -> wp (f x) (fun _ => I) s e) ->
  wp (for_each f l) (fun _ => I) s e.
Proof.
  revert s e. induction l as [|x l IH]; intros s e HI Hf; cbn.
  - exact HI.
  - apply wp_bind. eapply wp_mono; [apply Hf; [set_solver|done]|].
    intros [u|x'] s' e' HI'; [|done]. apply IH; [done|]. intros. apply Hf; set_solver.
Qed.

End ops.

(** ** What the runtime picks

    Identifiers of [uuid.New], told apart by their number, and the order in
    which [for k, v := range m] walks a map. *)
Class Uuid := { uuid : nat -> string; uuid_inj : Inj (=) (=) uuid }.

Class MapRange := {
  range_order : forall A : Type, nat -> list A -> list A;
  range_perm : forall A n (l : list A), range_order A n l ≡ₚ l;
}.

Definition ranged {S E A} `{MapRange} (m : gmap string A) : io S E (list (string * A)) :=
  n ← draw; mret (range_order _ n (map_to_list m)).

(** Run a component's operation inside a larger state. *)
Definition zoom {S T E A} (view : T -> S) (upd : S -> T -> T) (m : io S E A) : io T E A := fun t e =>
  let '(r, (s', e')) := m (view t) e in (r, (upd s' t, e')).

Lemma wp_zoom {S T E A} (view : T -> S) upd (m : io S E A) Q t e :
  wp m (fun r s' e' => Q r (upd s' t) e') (view t) e -> wp (zoom view upd m) Q t e.
Proof. unfold wp, zoom. by destruct (m (view t) e) as [r [s' e']]. Qed.

(** Change the error type. *)
Definition map_err {S E F A} (g : E -> F) (m : io S E A) : io S F A := fun s e =>
  match m s e with
  | (Ok a, se) => (Ok a, se)
  | (Err x, se) => (Err (g x), se)
  end.

Lemma wp_map_err {S E F A} (g : E -> F) (m : io S E A) (Q : result F A -> S -> env -> Prop) s e :
  wp m (fun r => Q (match r with Ok a => Ok a | Err x => Err (g x) end)) s e -> wp (map_err g m) Q s e.
Proof. unfold wp, map_err. by destruct (m s e) as [[a|x] [s' e']]. Qed.

(** [wp_go] runs through the straight-line part of a body. *)
Ltac wp_step :=
  lazymatch goal with
  | |- wp (mret _) _ _ _ => apply wp_ret
  | |- wp (throw _) _ _ _ => apply wp_throw
  | |- wp (lift _) _ _ _ => apply wp_lift
  | |- wp get _ _ _ => apply wp_get
  | |- wp (gets _) _ _ _ => apply wp_gets
  | |- wp (modify _) _ _ _ => apply wp_modify
  | |- wp (_ ≫= _) _ _ _ => apply wp_bind
  | |- wp (attempt _) _ _ _ => apply wp_attempt
  | |- wp (ignore _) _ _ _ => apply wp_ignore
  | |- wp (zoom _ _ _) _ _ _ => apply wp_zoom
  | |- wp (map_err _ _) _ _ _ => apply wp_map_err
  | |- wp (db _) _ _ _ => apply wp_db; intros ? ? ? ?; split
  | |- wp now _ _ _ => apply wp_now; intros ? ? ?
  | |- wp draw _ _ _ => apply wp_draw; intros ? ? ? ?
  | |- wp (if ?b then _ else _) _ _ _ => destruct b eqn:?
  | |- wp (match ?x with _ => _ end) _ _ _ => destruct x eqn:?
  | |- match ?x with Ok _ => _ | Err _ => _ end => destruct x eqn:?
  end.
Ltac wp_go := repeat (wp_step; cbn beta iota match).

(** ** What an operation keeps

    [keeps R m]: from every state, [m] ends in a state related by [R],
    whether it succeeds or fails.  For a preorder [R] the rules follow the
    structure of the operation; [keeps_go] applies them and leaves the
    updates. *)

Section keeps.
Context {S E : Type} (R : S -> S -> Prop) `{!PreOrder R}.

Definition keeps {A} (m : io S E A) : Prop := forall s e, wp m (fun _ s' _ => R s s') s e.

Lemma keeps_ret {A} (a : A) : keeps (mret a).
Proof. intros s e. apply wp_ret. reflexivity. Qed.
Lemma keeps_throw {A} x : keeps (throw x : io S E A).
Proof. intros s e. apply wp_throw. reflexivity. Qed.
Lemma keeps_lift {A} (r : result E A) : keeps (lift r).
Proof. intros s e. apply wp_lift. reflexivity. Qed.
Lemma keeps_get : keeps get.
Proof. intros s e. apply wp_get. reflexivity. Qed.
Lemma keeps_gets {A} (f : S -> A) : keeps (gets f).
Proof. intros s e. apply wp_gets. reflexivity. Qed.
Lemma keeps_db x : keeps (db x).
Proof. intros s e. apply wp_db. by split. Qed.
Lemma keeps_now : keeps now.
Proof. intros s e. apply wp_now. reflexivity. Qed.
Lemma keeps_draw : keeps draw.
Proof. intros s e. apply wp_draw. reflexivity. Qed.
Lemma keeps_modify f : (forall s, R s (f s)) -> keeps (modify f).
Proof. intros Hf s e. by apply wp_modify. Qed.

Lemma keeps_bind {A B} (m : io S E A) (f : A -> io S E B) : keeps m -> (forall a, keeps (f a)) -> keeps (m ≫= f).
Proof.
  intros Hm Hf s e. apply wp_bind. eapply wp_mono; [apply Hm|]. cbn. intros [a|x] s' e' HR; [|done].
  eapply wp_mono; [apply Hf|]. cbn. intros _ s2 _ HR2. by transitivity s'.
Qed.
Lemma keeps_attempt {A} (m : io S E A) : keeps m -> keeps (attempt m).
Proof. intros Hm s e. apply wp_attempt, Hm. Qed.
Lemma keeps_ignore {A} (m : io S E A) : keeps m -> keeps (ignore m).
Proof. intros Hm s e. apply wp_ignore, Hm. Qed.
Lemma keeps_for_each {A} (f : A -> io S E unit) l : (forall x, keeps (f x)) -> keeps (for_each f l).
Proof. intros Hf. induction l; cbn; [apply keeps_ret|]. by apply keeps_bind. Qed.

Lemma wp_keeps {A} (m : io S E A) (Q : result E A -> S -> env -> Prop) s e :
  keeps m -> (forall r s' e', R s s' -> Q r s' e') -> wp m Q s e.
Proof. intros Hm HQ. eapply wp_mono; [apply Hm|]. auto. Qed.

Lemma keeps_run {A} (m : io S E A) s e r s' e' : keeps m -> m s e = (r, (s', e')) -> R s s'.
Proof. intros Hm Hrun. specialize (Hm s e). unfold wp in Hm. by rewrite Hrun in Hm. Qed.
End keeps.

Lemma keeps_map_err {S E F A} (R : S -> S -> Prop) (g : E -> F) (m : io S E A) :
  keeps R m -> keeps R (map_err g m).
Proof. intros Hm s e. apply wp_map_err, Hm. Qed.

Lemma keeps_weaken {S E A} (R R' : S -> S -> Prop) (m : io S E A) :
  (forall s s', R s s' -> R' s s') -> keeps R m -> keeps R' m.
Proof. intros HR Hm s e. eapply wp_mono; [apply Hm|]. eauto. Qed.

Create HintDb keeps discriminated.
Ltac keeps_step :=
  lazymatch goal with
  | |- keeps _ (mret _) => apply keeps_ret
  | |- keeps _ (throw _) => apply keeps_throw
  | |- keeps _ (lift _) => apply keeps_lift
  | |- keeps _ get => apply keeps_get
  | |- keeps _ (gets _) => apply keeps_gets
  | |- keeps _ (db _) => apply keeps_db
  | |- keeps _ now => apply keeps_now
  | |- keeps _ draw => apply keeps_draw
  | |- keeps _ (modify _) => apply keeps_modify; intros ?
  | |- keeps _ (_ ≫= _) => apply keeps_bind; [try typeclasses eauto|..|intros ?]
  | |- keeps _ (attempt _) => apply keeps_attempt
  | |- keeps _ (ignore _) => apply keeps_ignore
  | |- keeps _ (map_err _ _) => apply keeps_map_err
  | |- keeps _ (for_each _ _) => apply keeps_for_each; [try typeclasses eauto|..|intros ?]
  | |- keeps _ (if ?b then _ else _) => destruct b
  | |- keeps _ (match ?x with _ => _ end) => destruct x
  | |- keeps _ (let _ := _ in _) => cbv zeta
  | |- keeps _ _ => solve [auto 2 with keeps nocore]
  end.
Ltac keeps_go := repeat (keeps_step; try typeclasses eauto).

(** ** Time and failures along an operation

    [quiet m]: [m] never turns the clock or the counter back, and from an
    environment that schedules no failure it ends in one that schedules none;
    [quiet_go] follows the structure of the operation. *)

Definition onward (e e' : env) : Prop := env_le e e' /\ (faults e = [] -> faults e' = []).
#[export] Instance onward_preorder : PreOrder onward.
Proof.
  split; [intros e; split; [reflexivity|done]|]. intros e1 e2 e3 [H1 F1] [H2 F2].
  split; [by transitivity e2|auto].
Qed.

Section quiet.
Context {S E : Type}.

Definition quiet {A} (m : io S E A) : Prop := forall s e, wp m (fun _ _ e' => onward e e') s e.

Lemma wp_db_onward x (Q : result E unit -> S -> env -> Prop) s e :
  (forall e', onward e e' -> clock e' = clock e -> Q (Ok tt) s e') ->
  (forall e', faults e <> [] -> onward e e' -> Q (Err x) s e') -> wp (db x) Q s e.
Proof.
  unfold wp, db. intros HO HE. destruct (faults e) as [|[] fs] eqn:Hf.
  - by apply HO.
  - apply HE; [done|]. split; [split; cbn; lia|]. by rewrite Hf.
  - apply HO; [|done]. split; [split; cbn; lia|]. by rewrite Hf.
Qed.
Lemma wp_now_onward (Q : result E Z -> S -> env -> Prop) s e :
  (forall e', onward e e' -> Q (Ok (clock e')) s e') -> wp now Q s e.
Proof.
  intros H. unfold wp, now. destruct (ticks e) as [|d ts]; [by apply H|].
  apply (H (mkEnv (faults e) (clock e + Z.of_N d) ts (fresh e))). split; [|done]. split; cbn [clock fresh]; lia.
Qed.
Lemma wp_draw_onward (Q : result E nat -> S -> env -> Prop) s e :
  (forall e', onward e e' -> Q (Ok (fresh e)) s e') -> wp draw Q s e.
Proof. intros H. unfold wp, draw. apply H. split; [|done]. split; cbn; lia. Qed.
Lemma wp_draw_next (Q : result E nat -> S -> env -> Prop) s e :
  (forall e', onward e e' -> clock e' = clock e -> fresh e' = Datatypes.S (fresh e) -> Q (Ok (fresh e)) s e') -> wp draw Q s e.
Proof. intros H. unfold wp, draw. apply H; [|done|done]. split; [|done]. split; cbn; lia. Qed.

Lemma quiet_ret {A} (a : A) : quiet (mret a). Proof. intros s e. apply wp_ret. reflexivity. Qed.
Lemma quiet_throw {A} x : quiet (throw x : io S E A). Proof. intros s e. apply wp_throw. reflexivity. Qed.
Lemma quiet_lift {A} (r : result E A) : quiet (lift r). Proof. intros s e. apply wp_lift. reflexivity. Qed.
Lemma quiet_get : quiet get. Proof. intros s e. apply wp_get. reflexivity. Qed.
Lemma quiet_gets {A} (f : S -> A) : quiet (gets f). Proof. intros s e. apply wp_gets. reflexivity. Qed.
Lemma quiet_modify f : quiet (modify f). Proof. intros s e. apply wp_modify. reflexivity. Qed.
Lemma quiet_draw : quiet draw. Proof. intros s e. by apply wp_draw_onward. Qed.
Lemma quiet_db x : quiet (db x). Proof. intros s e. by apply wp_db_onward. Qed.
Lemma quiet_now : quiet now. Proof. intros s e. by apply wp_now_onward. Qed.
Lemma quiet_bind {A B} (m : io S E A) (f : A -> io S E B) : quiet m -> (forall a, quiet (f a)) -> quiet (m ≫= f).
Proof.
  intros Hm Hf s e. apply wp_bind. eapply wp_mono; [by apply Hm|]. cbv beta. intros [a|x] s' e' He'; [|done].
  eapply wp_mono; [apply Hf|]. cbv beta. intros _ s2 e2 He2. by transitivity e'.
Qed.
Lemma quiet_attempt {A} (m : io S E A) : quiet m -> quiet (attempt m).
Proof. intros Hm s e. by apply wp_attempt, Hm. Qed.
Lemma quiet_ignore {A} (m : io S E A) : quiet m -> quiet (ignore m).
Proof. intros Hm s e. by apply wp_ignore, Hm. Qed.
Lemma quiet_for_each {A} (f : A -> io S E unit) l : (forall x, quiet (f x)) -> quiet (for_each f l).
Proof. intros Hf. induction l; cbn; [apply quiet_ret|]. by apply quiet_bind. Qed.

Lemma wp_and_quiet {A} (m : io S E A) (P Q : result E A -> S -> env -> Prop) s e :
  quiet m -> wp m P s e -> (forall r s' e', P r s' e' -> onward e e' -> Q r s' e') -> wp m Q s e.
Proof. intros Hm HP HQ. specialize (Hm s e). unfold wp in *. destruct (m s e) as [r [s' e']]. auto. Qed.
End quiet.

Create HintDb quiet discriminated.
Ltac quiet_step :=
  lazymatch goal with
  | |- quiet (mret _) => apply quiet_ret
  | |- quiet (throw _) => apply quiet_throw
  | |- quiet (lift _) => apply quiet_lift
  | |- quiet get => apply quiet_get
  | |- quiet (gets _) => apply quiet_gets
  | |- quiet (db _) => apply quiet_db
  | |- quiet now => apply quiet_now
  | |- quiet draw => apply quiet_draw
  | |- quiet (modify _) => apply quiet_modify
  | |- quiet (_ ≫= _) => apply quiet_bind; [|intros ?]
  | |- quiet (attempt _) => apply quiet_attempt
  | |- quiet (ignore _) => apply quiet_ignore
  | |- quiet (for_each _ _) => apply quiet_for_each; intros ?
  | |- quiet (if ?b then _ else _) => destruct b
  | |- quiet (match ?x with _ => _ end) => destruct x
  | |- quiet (let _ := _ in _) => cbv zeta
  | |- quiet _ => solve [auto 2 with quiet nocore]
  end.
Ltac quiet_go := repeat quiet_step.

(** The environment of closed examples: no failure, the clock stands. *)
Definition calm (t : Z) : env := mkEnv [] t [] 0.

(** From [m s e = (Ok a, (s', e')) -> G] to the precondition of [G]. *)
Ltac of_run_ok :=
  lazymatch goal with
  | |- ?m ?s ?e = (Ok ?a, (?s', ?e')) -> ?G =>
    let H := fresh in intros H; pattern a, s', e';
    refine (run_ok m _ s e a s' e' _ H); clear a s' e' H; cbv beta
  end.
Ltac of_run :=
  lazymatch goal with
  | |- ?m ?s ?e = (?r, (?s', ?e')) -> ?G =>
    let H := fresh in intros H; pattern r, s', e';
    refine (run_wp m _ s e r s' e' _ H); clear r s' e' H
  end.
