(* ===== verification/Tables.v ===== *)
(** * Tables and the platform

    SQL statements over a table kept as the list of its rows in insertion
    order: [UPDATE ... WHERE], [SELECT ... ORDER BY ... LIMIT 1], and the order
    "newest first" of the listings; and the class of the hash, the normal form
    of JSON and the identifiers ([Platform]). *)

From S2P Require Import Prelude.

#[local] Open Scope Z_scope.

(** [ORDER BY key DESC LIMIT 1]: the first of the rows with the largest key. *)
Fixpoint latest {A} (key : A -> Z) (l : list A) : option A :=
  match l with
  | [] => None
  | x :: l' =>
    match latest key l' with
    | Some y => if key x <? key y then Some y else Some x
    | None => Some x
    end
  end.

(** [UPDATE approvals SET ... WHERE id = ? AND ...] *)
Definition update_where {A} (p : A -> bool) (f : A -> A) (l : list A) : list A :=
  (fun r => if p r then f r else r) <$> l.

(** [ORDER BY created_at DESC, id DESC]. *)
Definition newest_first {A} (created : A -> Z) (key : A -> string) (a b : A) : Prop :=
  created b < created a \/ (created a = created b /\ String.leb (key b) (key a) = true).
#[export] Instance newest_first_dec {A} (created : A -> Z) (key : A -> string) a b :
  Decision (newest_first created key a b).
Proof. unfold newest_first. apply _. Defined.

Definition order_newest {A} (created : A -> Z) (key : A -> string) (l : list A) : list A :=
  merge_sort (newest_first created key) l.

(** [ORDER BY key ASC], rows with equal keys in the order of the table; its
    reverse is the order by key and row number descending. *)
Fixpoint place {A} (key : A -> Z) (x : A) (l : list A) : list A :=
  match l with
  | [] => [x]
  | y :: l' => if key x <=? key y then x :: l else y :: place key x l'
  end.
Definition order_asc {A} (key : A -> Z) (l : list A) : list A := foldr (place key) [] l.

(** How many rows a condition selects. *)
Definition affected {A} (p : A -> bool) (l : list A) : nat := List.length (filter (fun r => p r = true) l).

(** ** Lemmas *)

Lemma elem_of_update_where {A} (p : A -> bool) f (l : list A) y :
  y ∈ update_where p f l <-> exists x, x ∈ l /\ y = if p x then f x else x.
Proof. unfold update_where. rewrite list_elem_of_fmap. naive_solver. Qed.

Lemma update_where_none {A} (p : A -> bool) f (l : list A) :
  (forall x, x ∈ l -> p x = false) -> update_where p f l = l.
Proof.
  unfold update_where. induction l as [|x l IH]; intros Hp; cbn; [done|].
  rewrite (Hp x) by set_solver. f_equal. apply IH. set_solver.
Qed.

Lemma update_where_keys {A B} (key : A -> B) (p : A -> bool) f (l : list A) :
  (forall x, key (f x) = key x) -> key <$> update_where p f l = key <$> l.
Proof.
  intros Hk. unfold update_where. rewrite <- list_fmap_compose.
  apply list_fmap_ext. intros i x _. cbn. destruct (p x); auto.
Qed.

Lemma Forall_update_where {A} (Q : A -> Prop) (p : A -> bool) f (l : list A) :
  Forall Q l -> (forall x, Q x -> p x = true -> Q (f x)) -> Forall Q (update_where p f l).
Proof.
  rewrite !Forall_forall. intros Hl Hf y (x & Hx & ->)%elem_of_update_where.
  destruct (p x) eqn:?; auto.
Qed.

Lemma latest_Some {A} (key : A -> Z) l x : latest key l = Some x -> x ∈ l /\ forall y, y ∈ l -> key y <= key x.
Proof.
  revert x. induction l as [|a l IH]; intros x; cbn; [done|].
  destruct (latest key l) as [y|] eqn:Hy.
  - destruct (IH y eq_refl) as [Hin Hmax]. destruct (key a <? key y) eqn:Hlt.
    + apply Z.ltb_lt in Hlt. intros [= <-]. split; [set_solver|].
      intros z [->|Hz]%elem_of_cons; [lia|auto].
    + apply Z.ltb_ge in Hlt. intros [= <-]. split; [set_solver|].
      intros z [->|Hz]%elem_of_cons; [lia|]. apply Hmax in Hz. lia.
  - intros [= <-]. split; [set_solver|].
    assert (l = []) as ->; [|intros y Hy'; apply list_elem_of_singleton in Hy' as ->; lia].
    destruct l as [|b l]; [done|]. cbn in Hy. destruct (latest key l); [destruct (_ <? _)|]; done.
Qed.

Lemma latest_None {A} (key : A -> Z) l : latest key l = None <-> l = [].
Proof.
  split; [|by intros ->]. destruct l as [|a l]; [done|]. cbn.
  destruct (latest key l); [destruct (_ <? _)|]; done.
Qed.

Lemma elem_of_order_newest {A} (created : A -> Z) (key : A -> string) l x :
  x ∈ order_newest created key l <-> x ∈ l.
Proof. unfold order_newest. by rewrite (merge_sort_Permutation _ l). Qed.

Lemma affected_pos {A} (p : A -> bool) (l : list A) :
  affected p l <> 0%nat <-> exists x, x ∈ l /\ p x = true.
Proof.
  unfold affected. split.
  - intros H. destruct (filter _ l) as [|x l'] eqn:Hf; [done|]. exists x.
    assert (Hx : x ∈ x :: l') by (apply elem_of_cons; by left). rewrite <- Hf in Hx.
    apply list_elem_of_filter in Hx. tauto.
  - intros (x & Hx & Hp) H. apply length_zero_iff_nil in H.
    assert (Hx' : x ∈ filter (fun r => p r = true) l) by by apply list_elem_of_filter.
    rewrite H in Hx'. set_solver.
Qed.

Lemma place_Permutation {A} (key : A -> Z) x (l : list A) : place key x l ≡ₚ x :: l.
Proof. induction l as [|y l IH]; cbn; [done|]. destruct (_ <=? _); [done|]. rewrite IH. constructor. Qed.
Lemma order_asc_Permutation {A} (key : A -> Z) (l : list A) : order_asc key l ≡ₚ l.
Proof. induction l as [|x l IH]; cbn; [done|]. by rewrite place_Permutation, IH. Qed.

(** A table whose rows are in order is listed as it stands. *)
Lemma order_asc_sorted {A} (key : A -> Z) (l : list A) : StronglySorted (fun x y => key x <= key y) l -> order_asc key l = l.
Proof.
  induction 1 as [|x l _ IH Hx]; [done|]. change (place key x (order_asc key l) = x :: l). rewrite IH. destruct l as [|y l]; [done|]. cbn.
  apply Forall_cons in Hx as [Hx _]. by replace (key x <=? key y) with true by lia.
Qed.

Lemma StronglySorted_filter {A} (R : A -> A -> Prop) (P : A -> Prop) `{!forall x, Decision (P x)} (l : list A) :
  StronglySorted R l -> StronglySorted R (filter P l).
Proof.
  induction 1 as [|x l _ IH Hx]; cbn; [constructor|]. destruct (decide (P x)); [|done].
  constructor; [done|]. rewrite Forall_forall in Hx |- *. intros y [_ Hy]%list_elem_of_filter. auto.
Qed.

(** ** The platform

    What the kernel uses and does not implement: SHA-256 in hexadecimal, the
    JSON normal form of a payload ([None] when it is not JSON), and the text of
    the identifiers it draws. *)

Class Platform := {
  sha256_hex : string -> string;
  json_canonical : string -> option string;
  uuid_string : nat -> string;
  trace_string : nat -> string
}.

(** Every text its own digest and normal form, identifiers numbered, for closed
    examples. *)
Definition plain_platform : Platform := {|
  sha256_hex := id; json_canonical := Some;
  uuid_string := fun n => pretty n; trace_string := fun n => pretty n |}.
