(* ===== verification/Risk.v ===== *)
(** * Risk tiers of tools ([internal/tools/risk.go], parts of [gate.go], [registry.go])

    Which tools act outside the device, which tier a call has, which calls may
    be approved by a timer and which may receive a don't-ask-again waiver. *)

From S2P Require Import Prelude GoStrings.

#[local] Open Scope Z_scope.

Definition RiskTierLow : string := "low".
Definition RiskTierMedium : string := "medium".
Definition RiskTierHigh : string := "high".
Definition AutoApproveScopeThisOnly : string := "this_only".
Definition AutoApproveScopeNever : string := "never".
Definition DefaultLowRiskAutoApproveDuration : Z := 4 * hour.

Definition has_any_prefix (s : string) (ps : list string) : bool := existsb (has_prefix s) ps.
Definition contains_one_of (s : string) (subs : list string) : bool := existsb (contains_str s) subs.
Definition one_of (s : string) (l : list string) : bool := bool_decide (s ∈ l).

(** [gate.go] *)
Definition externalEffectTools : list string :=
  ["native_mail_send"; "native_mail_delete"; "native_calendar_create_event";
   "native_calendar_update_event"; "native_calendar_respond"; "native_calendar_delete_event"].

Section risk.
Context `{U : Unicode}.

Definition IsExternalEffectTool (name : string) : bool :=
  one_of (to_lower (trim_space name)) externalEffectTools.

(** [risk.go]; the input of the call is not looked at. *)
Definition ClassifyRisk (toolName : string) (input : string) : string :=
  let name := trim_space (to_lower toolName) in
  if one_of name ["native_exec"; "native_cron_schedule"; "system_restart"; "admin_restart";
                  "system_ota_apply"; "admin_ota_apply"; "system_mcp_connect"]
     || has_prefix name "admin_" || IsExternalEffectTool name
     || contains_one_of name ["vault_write"; "vault_delete"; "vault_set"]
  then RiskTierHigh
  else if contains_one_of name ["delete"; "remove"] then RiskTierHigh
  else if has_any_prefix name ["mcp_"; "wasm_"] then RiskTierHigh
  else if has_any_prefix name ["native_file_read"; "native_workspace_read"; "native_file_list";
            "native_workspace_list"; "native_file_search"; "native_sysinfo"; "native_task_"]
          || one_of name ["native_workspace_get"; "native_file_exists"]
  then RiskTierLow
  else if has_any_prefix name ["native_file_write"; "native_file_edit"; "native_workspace_write";
            "native_browser_navigate"; "native_browser_screenshot"; "native_http_fetch";
            "native_web_search"; "native_channel_notify"]
  then RiskTierMedium
  else RiskTierMedium.

Definition CanAutoApprove (riskTier toolName : string) : bool :=
  let tier := to_lower (trim_space riskTier) in
  if negb (bool_decide (tier = RiskTierLow)) && negb (bool_decide (tier = "low")) then false
  else
    let name := to_lower (trim_space toolName) in
    if contains_one_of name ["exec"; "delete"; "remove"; "vault"; "restart"; "ota"; "cron"]
       || has_prefix name "admin_"
    then false else true.

(** [approval.go]: waivers are never available to administrative or
    external-effect tools. *)
Definition GrantEligibleTool (name : string) : bool :=
  negb (bool_decide (name = "") || has_prefix name "admin_"
        || bool_decide (name = "system_mcp_connect") || IsExternalEffectTool name).

(** [registry.go]: the risk level shown and compared with the agent's threshold. *)
Definition ToolRiskLevel (name : string) : string :=
  if one_of name ["native_exec"; "native_file_delete"; "native_workspace_delete"; "native_cron_schedule"]
  then "High"
  else if IsExternalEffectTool name then "High"
  else if one_of name ["native_file_write"; "native_workspace_write"; "native_browser_navigate";
                       "native_browser_screenshot"; "native_http_fetch"; "native_channel_notify"]
  then "Medium"
  else if has_any_prefix name ["mcp_"; "wasm_"] then "High"
  else "Low".

Definition approvalRequired (threshold risk : string) : bool :=
  let t := to_lower threshold in
  if one_of t ["low"; "none"; "auto"] then false
  else if bool_decide (t = "medium") then bool_decide (risk = "High")
  else if one_of t ["high"; "strict"; "always"]
  then bool_decide (risk = "High") || bool_decide (risk = "Medium")
  else bool_decide (risk = "High").

(** ** Lemmas *)

Lemma ClassifyRisk_tiers name input :
  ClassifyRisk name input ∈ [RiskTierLow; RiskTierMedium; RiskTierHigh].
Proof. unfold ClassifyRisk. cbv zeta. repeat case_match; set_solver. Qed.

Lemma ToolRiskLevel_external name : IsExternalEffectTool name = true -> ToolRiskLevel name = "High".
Proof. intros H. unfold ToolRiskLevel. rewrite H. by case_match. Qed.

Lemma GrantEligibleTool_external name : IsExternalEffectTool name = true -> GrantEligibleTool name = false.
Proof. intros H. unfold GrantEligibleTool. by rewrite H, !orb_true_r. Qed.

Lemma CanAutoApprove_true tier name :
  CanAutoApprove tier name = true ->
  to_lower (trim_space tier) = "low" /\
  forall w, w ∈ ["exec"; "delete"; "remove"; "vault"; "restart"; "ota"; "cron"] ->
    contains_str (to_lower (trim_space name)) w = false.
Proof.
  unfold CanAutoApprove, RiskTierLow. cbv zeta. case_bool_decide as Ht; cbn [negb andb].
  - destruct (_ || _) eqn:Hc; [done|]. intros _. split; [done|].
    apply orb_false_iff in Hc as [Hc _]. unfold contains_one_of in Hc.
    rewrite existsb_false_elem in Hc. done.
  - done.
Qed.

End risk.
