(* ===== verification/Approval.v ===== *)
(** * Human approvals ([internal/tools/approval.go])

    The durable approval records and don't-ask-again grants: a table of
    requests, a table of grants, and the operations on them.  [db] marks each
    SQL statement; [now] each reading of the clock. *)

From S2P Require Import Prelude GoStrings Io Tables Risk.

#[local] Open Scope Z_scope.

(** ** Data *)

Record ApprovalRequest := mkApproval {
  AID : string; TraceID : string; AgentID : string; ToolName : string;
  RiskLevel : string; RiskTier : string; AutoApproveAfter : Z; AutoApproveScope : string;
  AHash : string; Input : string; Status : string; Reason : string;
  RequestedAt : Z; ExpiresAt : Z; DecidedAt : option Z; DecidedBy : string;
  TaskID : string; Source : string;
  created : bool }.
#[export] Instance ApprovalRequest_eq_dec : EqDecision ApprovalRequest. Proof. solve_decision. Defined.

Record ApprovalGrant := mkGrant {
  GID : string; GAgentID : string; GToolName : string; GScope : string; GTaskID : string;
  GExpiresAt : Z; GCreatedAt : Z; GCreatedBy : string; GSourceApprovalID : string }.
#[export] Instance ApprovalGrant_eq_dec : EqDecision ApprovalGrant. Proof. solve_decision. Defined.

(** Outgoing effects: bus events and audit lines. *)
Inductive effect :=
  | Published (event subject : string)
  | Audited (tool status detail : string).

(** The manager: its tables, its time to live, what is attached to it. *)
Record ApprovalManager := mkManager {
  db_open : bool; ttl : Z; has_bus : bool; has_audit : bool;
  approvals : list ApprovalRequest; grants : list ApprovalGrant; log : list effect }.

Definition set_approvals (l : list ApprovalRequest) (m : ApprovalManager) : ApprovalManager :=
  mkManager (db_open m) (ttl m) (has_bus m) (has_audit m) l (grants m) (log m).
Definition set_grants (l : list ApprovalGrant) (m : ApprovalManager) : ApprovalManager :=
  mkManager (db_open m) (ttl m) (has_bus m) (has_audit m) (approvals m) l (log m).
Definition add_log (l : list effect) (m : ApprovalManager) : ApprovalManager :=
  mkManager (db_open m) (ttl m) (has_bus m) (has_audit m) (approvals m) (grants m) (log m ++ l).

Definition NewApprovalManager (open : bool) : ApprovalManager :=
  mkManager open (30 * minute) false false [] [] [].

Inductive not_pending := NoSuchApproval | AlreadyDecided (status : string) | ExpiredAt (t : Z).
Inductive invalid_reason := NotApproved (status : string) | ApprovalExpired | DifferentAction.
Inductive approval_error :=
  | StoreUnavailable | DbError (what : string) | BadDecision
  | ErrApprovalNotPending (why : not_pending) | ErrApprovalInvalid (why : invalid_reason)
  | LoadingApproval | ApprovalIsNil | GrantUnavailable (tool : string) | BadScope | GrantNeedsTask.

Definition DontAskTask : string := "task".
Definition DontAskToday : string := "today".

Abbreviation op := (io ApprovalManager approval_error).

(** ** Rows *)

(** A pending row that can still be decided at [t]. *)
Definition open_at (t : Z) (r : ApprovalRequest) : bool :=
  bool_decide (Status r = "pending") && (t <? ExpiresAt r).

Definition set_decision (status reason : string) (t : Z) (actor : string) (r : ApprovalRequest) : ApprovalRequest :=
  mkApproval (AID r) (TraceID r) (AgentID r) (ToolName r) (RiskLevel r) (RiskTier r)
    (AutoApproveAfter r) (AutoApproveScope r) (AHash r) (Input r) status reason
    (RequestedAt r) (ExpiresAt r) (Some t) actor (TaskID r) (Source r) (created r).
Definition set_status (status : string) (r : ApprovalRequest) : ApprovalRequest :=
  mkApproval (AID r) (TraceID r) (AgentID r) (ToolName r) (RiskLevel r) (RiskTier r)
    (AutoApproveAfter r) (AutoApproveScope r) (AHash r) (Input r) status (Reason r)
    (RequestedAt r) (ExpiresAt r) (DecidedAt r) (DecidedBy r) (TaskID r) (Source r) (created r).
Definition set_reopened (expires : Z) (r : ApprovalRequest) : ApprovalRequest :=
  mkApproval (AID r) (TraceID r) (AgentID r) (ToolName r) (RiskLevel r) (RiskTier r)
    (AutoApproveAfter r) (AutoApproveScope r) (AHash r) (Input r) "pending" ""
    (RequestedAt r) expires None "" (TaskID r) (Source r) (created r).
Definition set_created (b : bool) (r : ApprovalRequest) : ApprovalRequest :=
  mkApproval (AID r) (TraceID r) (AgentID r) (ToolName r) (RiskLevel r) (RiskTier r)
    (AutoApproveAfter r) (AutoApproveScope r) (AHash r) (Input r) (Status r) (Reason r)
    (RequestedAt r) (ExpiresAt r) (DecidedAt r) (DecidedBy r) (TaskID r) (Source r) b.

Section approval.
Context `{U : Unicode} `{P : Platform}.

(** ** Binding an approval to an action *)

Definition NUL : string := String (byte_of 0) "".

Definition canonicalizeInput (input : string) : string :=
  match json_canonical input with Some c => c | None => input end.

Definition action_preimage (agentID toolName input : string) : string :=
  agentID +:+ NUL +:+ toolName +:+ NUL +:+ canonicalizeInput input.

Definition ActionHash (agentID toolName input : string) : string :=
  sha256_hex (action_preimage agentID toolName input).

(** ** Reading *)

Definition find_approval (id : string) (l : list ApprovalRequest) : option ApprovalRequest :=
  find (fun r => bool_decide (AID r = id)) l.

Definition Get (id : string) : op ApprovalRequest :=
  _ ← db LoadingApproval;
  row ← gets (fun m => find_approval id (approvals m));
  match row with
  | Some r => mret r
  | None => throw LoadingApproval
  end.

(** ** Deciding *)

Definition explainNotPending {A} (id : string) : op A :=
  current ← attempt (Get id);
  match current with
  | Err _ => throw (ErrApprovalNotPending NoSuchApproval)
  | Ok r =>
    if negb (bool_decide (Status r = "pending")) then throw (ErrApprovalNotPending (AlreadyDecided (Status r)))
    else throw (ErrApprovalNotPending (ExpiredAt (ExpiresAt r)))
  end.

Definition decidable (id : string) (t : Z) (r : ApprovalRequest) : bool :=
  bool_decide (AID r = id) && open_at t r.

Definition Decide (id decision actor reason : string) : op ApprovalRequest :=
  if negb (bool_decide (decision = "approved")) && negb (bool_decide (decision = "rejected"))
  then throw BadDecision
  else
    t ← now;
    _ ← db (DbError "updating approval");
    rows ← gets approvals;
    let affected := List.length (filter (fun r => decidable id t r = true) rows) in
    _ ← modify (set_approvals (update_where (decidable id t) (set_decision decision reason t actor) rows));
    if negb (bool_decide (affected = 1%nat)) then explainNotPending id else Get id.

Definition Reopen (id : string) : op unit :=
  m ← get;
  if negb (db_open m) then throw StoreUnavailable
  else
    t ← now;
    _ ← db (DbError "reopening approval");
    modify (fun m => set_approvals
      (update_where (fun r => bool_decide (AID r = id) && one_of (Status r) ["approved"; "rejected"])
         (set_reopened (t + ttl m)) (approvals m)) m).

(** ** Requesting *)

Definition Request (ctx_task ctx_source traceID agentID toolName riskLevel input : string) : op ApprovalRequest :=
  m ← get;
  if negb (db_open m) then throw StoreUnavailable
  else
    let hash := ActionHash agentID toolName input in
    traceID ← (if bool_decide (traceID = "") then (n ← draw; mret (trace_string n)) else mret traceID);
    t0 ← now;
    _ ← db (DbError "querying pending approval");
    rows ← gets approvals;
    match latest RequestedAt (filter (fun r => bool_decide (AHash r = hash) && open_at t0 r = true) rows) with
    | Some existing => mret (set_created false existing)
    | None =>
      let riskTier := ClassifyRisk toolName input in
      let auto := CanAutoApprove riskTier toolName in
      t ← now;
      n ← draw;
      let request := mkApproval ("apr_" +:+ uuid_string n) traceID agentID toolName riskLevel riskTier
        (if auto then Z.quot DefaultLowRiskAutoApproveDuration second else 0)
        (if auto then AutoApproveScopeThisOnly else AutoApproveScopeNever)
        hash input "pending" "" t (t + ttl m) None "" ctx_task ctx_source true in
      _ ← db (DbError "creating approval request");
      _ ← modify (fun m => set_approvals (approvals m ++ [set_created false request]) m);
      mret request
    end.

(** ** Listing: overdue rows expire first *)

Definition overdue (t : Z) (r : ApprovalRequest) : bool :=
  bool_decide (Status r = "pending") && (ExpiresAt r <=? t).

Definition newer (a b : ApprovalRequest) : Prop := RequestedAt b <= RequestedAt a.
#[local] Instance newer_dec a b : Decision (newer a b).
Proof. unfold newer. apply _. Defined.

Definition List (status : string) (limit : Z) : op (list ApprovalRequest) :=
  let limit := if (limit <=? 0) || (200 <? limit) then 100 else limit in
  t ← now;
  _ ← db (DbError "expiring stale approvals");
  _ ← modify (fun m => set_approvals (update_where (overdue t) (set_status "expired") (approvals m)) m);
  _ ← db (DbError "listing approvals");
  rows ← gets approvals;
  let rows := if negb (bool_decide (status = "")) && negb (bool_decide (status = "all"))
              then filter (fun r => Status r = status) rows else rows in
  mret (take (Z.to_nat limit) (merge_sort newer rows)).

(** ** The timer *)

Definition sweep_candidate (t : Z) (r : ApprovalRequest) : bool :=
  bool_decide (Status r = "pending") && (0 <? AutoApproveAfter r) && (t <? ExpiresAt r).

(** [time.Duration(n) * time.Second] wraps around like any [int64] product. *)
Definition wrap64 (z : Z) : Z := (z - min_int64) mod 2 ^ 64 + min_int64.

Definition sweep_due (t : Z) (r : ApprovalRequest) : bool :=
  let timeoutDur := wrap64 (AutoApproveAfter r * second) in
  (0 <? timeoutDur) && time_after t (time_add (RequestedAt r) timeoutDur)
  && CanAutoApprove (RiskTier r) (ToolName r).

Fixpoint sweep_loop (l : list ApprovalRequest) (resolved : list ApprovalRequest) : op (list ApprovalRequest) :=
  match l with
  | [] => mret resolved
  | item :: l' =>
    decided ← attempt (Decide (AID item) "approved" "auto" "auto_approve_after_timeout");
    match decided with
    | Err _ => sweep_loop l' resolved
    | Ok d =>
      _ ← modify (fun m => add_log
        ((if has_bus m then [Published "approval:auto_resolved" (AID d)] else [])
         ++ (if has_audit m then [Audited (ToolName item) "AutoApproved" "auto_approve_after_timeout"] else [])) m);
      sweep_loop l' (resolved ++ [d])
    end
  end.

Definition SweepAutoApprovals : op (list ApprovalRequest) :=
  m ← get;
  if negb (db_open m) then mret []
  else
    t ← now;
    _ ← db (DbError "querying auto-approvals");
    rows ← gets approvals;
    sweep_loop (filter (fun r => sweep_candidate t r && sweep_due t r = true) rows) [].

(** ** Using an approval *)

Definition ValidateApproved (id agentID toolName input : string) : op unit :=
  item ← Get id;
  if negb (bool_decide (Status item = "approved")) then throw (ErrApprovalInvalid (NotApproved (Status item)))
  else
    t ← now;
    if time_after t (ExpiresAt item) then throw (ErrApprovalInvalid ApprovalExpired)
    else if negb (bool_decide (AHash item = ActionHash agentID toolName input))
    then throw (ErrApprovalInvalid DifferentAction)
    else mret tt.

(** ** Grants *)

(** The start of the next UTC day, at least an hour away; or a week. *)
Definition grantExpiry (scope : string) (t : Z) : result approval_error Z :=
  if bool_decide (scope = DontAskToday) then
    let stop := (t / day + 1) * day in
    Ok (if time_sub stop t <? hour then time_add stop (24 * hour) else stop)
  else if bool_decide (scope = DontAskTask) then Ok (time_add t (7 * 24 * hour))
  else Err BadScope.

Definition CreateGrant (approval : option ApprovalRequest) (scope actor : string) : op ApprovalGrant :=
  m ← get;
  if negb (db_open m) then throw StoreUnavailable
  else match approval with
  | None => throw ApprovalIsNil
  | Some a =>
    if negb (GrantEligibleTool (ToolName a)) then throw (GrantUnavailable (ToolName a))
    else
      t0 ← now;
      expiresAt ← lift (grantExpiry scope t0);
      taskID ← (if bool_decide (scope = DontAskTask) then
                  (if bool_decide (trim_space (TaskID a) = "") then throw GrantNeedsTask
                   else mret (trim_space (TaskID a)))
                else mret "");
      t ← now;
      n ← draw;
      let grant := mkGrant ("grn_" +:+ uuid_string n) (AgentID a) (ToolName a) scope taskID
                     expiresAt t actor (AID a) in
      _ ← db (DbError "creating approval grant");
      _ ← modify (fun m => set_grants (grants m ++ [grant]) m);
      mret grant
  end.

Definition lookupGrant (p : ApprovalGrant -> bool) : op (option ApprovalGrant) :=
  _ ← db (DbError "looking up approval grant");
  gets (fun m => latest GExpiresAt (filter (fun g => p g = true) (grants m))).

Definition grant_for (agentID toolName scope : string) (t : Z) (g : ApprovalGrant) : bool :=
  bool_decide (GAgentID g = agentID) && bool_decide (GToolName g = toolName)
  && bool_decide (GScope g = scope) && (t <? GExpiresAt g).

Definition ActiveGrant (agentID toolName taskID : string) : op (option ApprovalGrant) :=
  m ← get;
  if negb (db_open m) then mret None
  else
    t ← now;
    _ ← ignore (_ ← db (DbError "pruning grants");
                modify (fun m => set_grants (filter (fun g => t < GExpiresAt g) (grants m)) m));
    by_task ← (if negb (bool_decide (taskID = "")) then
                 lookupGrant (fun g => grant_for agentID toolName DontAskTask t g && bool_decide (GTaskID g = taskID))
               else mret None);
    match by_task with
    | Some g => mret (Some g)
    | None => lookupGrant (grant_for agentID toolName DontAskToday t)
    end.

End approval.
