(* ===== verification/ApprovalSpec.v ===== *)
(** * What the approval manager promises

    Reachable managers are those any sequence of operations leads to, under
    any pattern of database failures and any timing. *)

From S2P Require Import Prelude GoStrings Io Tables Risk Approval.

#[local] Open Scope Z_scope.

Section spec.
Context `{U : Unicode} `{P : Platform}.

(** ** The invariant of the tables *)

Definition statuses : list string := ["pending"; "approved"; "rejected"; "expired"].

Record row_ok (r : ApprovalRequest) : Prop := {
  ro_status : Status r ∈ statuses;
  ro_hash : AHash r = ActionHash (AgentID r) (ToolName r) (Input r);
  ro_tier : RiskTier r = ClassifyRisk (ToolName r) (Input r);
  ro_auto : AutoApproveAfter r = 0 \/
    (AutoApproveAfter r = 14400 /\ CanAutoApprove (RiskTier r) (ToolName r) = true)
}.

Definition grant_ok (g : ApprovalGrant) : Prop :=
  GrantEligibleTool (GToolName g) = true /\
  (GScope g = DontAskToday \/ (GScope g = DontAskTask /\ GTaskID g <> "")).

Definition mgr_ok (m : ApprovalManager) : Prop :=
  Forall row_ok (approvals m) /\ Forall grant_ok (grants m).

(** The operations a manager is driven with. *)
Inductive operation :=
  | OpRequest (task source trace agent tool risk input : string)
  | OpDecide (id decision actor reason : string)
  | OpReopen (id : string)
  | OpList (status : string) (limit : Z)
  | OpSweep
  | OpValidate (id agent tool input : string)
  | OpCreateGrant (a : option ApprovalRequest) (scope actor : string)
  | OpActiveGrant (agent tool task : string).

Definition run_op (o : operation) : op unit :=
  match o with
  | OpRequest k s t a n r i => ignore (Request k s t a n r i)
  | OpDecide i d a r => ignore (Decide i d a r)
  | OpReopen i => ignore (Reopen i)
  | OpList s l => ignore (Approval.List s l)
  | OpSweep => ignore SweepAutoApprovals
  | OpValidate i a n x => ignore (ValidateApproved i a n x)
  | OpCreateGrant a s b => ignore (CreateGrant a s b)
  | OpActiveGrant a n k => ignore (ActiveGrant a n k)
  end.

(** One operation, in an environment that only has moved forward. *)
Inductive astep (o : operation) : ApprovalManager * env -> ApprovalManager * env -> Prop :=
  | astep_run m e e0 : env_le e e0 -> astep o (m, e) (snd (run_op o m e0)).

Definition step_any (x y : ApprovalManager * env) : Prop := exists o, astep o x y.
Definition is_reopen (o : operation) : bool := match o with OpReopen _ => true | _ => false end.
Definition step_no_reopen (x y : ApprovalManager * env) : Prop := exists o, is_reopen o = false /\ astep o x y.

(** ** Every operation keeps the invariant *)

Lemma Get_wp id (Q : result approval_error ApprovalRequest -> ApprovalManager -> env -> Prop) m e :
  (forall e', env_le e e' -> clock e' = clock e ->
     Q (Err LoadingApproval) m e' /\
     forall r, find_approval id (approvals m) = Some r -> Q (Ok r) m e') ->
  wp (Get id) Q m e.
Proof.
  intros H. unfold Get. wp_step. wp_step.
  - wp_go; apply H; done.
  - apply H; done.
Qed.

Lemma find_approval_Some id l r : find_approval id l = Some r -> r ∈ l /\ AID r = id.
Proof.
  unfold find_approval. intros H. apply find_some in H as [Hin Hb].
  rewrite bool_decide_eq_true in Hb. by rewrite list_elem_of_In.
Qed.

Lemma decidable_spec id t r :
  decidable id t r = true <-> AID r = id /\ Status r = "pending" /\ t < ExpiresAt r.
Proof. unfold decidable, open_at. by rewrite !andb_true_iff, !bool_decide_eq_true, Z.ltb_lt. Qed.

(** What [Decide] does to the table: nothing, or it moves the decidable row. *)
Lemma Decide_wp id decision actor reason m e :
  wp (Decide id decision actor reason)
    (fun r m' e' => env_le e e' /\ grants m' = grants m /\ log m' = log m /\ ttl m' = ttl m /\
       (m' = m \/
        (decision = "approved" \/ decision = "rejected") /\
        exists t, clock e <= t <= clock e' /\
        approvals m' = update_where (decidable id t) (set_decision decision reason t actor) (approvals m)) /\
       forall row, r = Ok row ->
         (decision = "approved" \/ decision = "rejected") /\
         exists t r0, clock e <= t <= clock e' /\ r0 ∈ approvals m /\ decidable id t r0 = true /\
         approvals m' = update_where (decidable id t) (set_decision decision reason t actor) (approvals m) /\
         find_approval id (approvals m') = Some row)
    m e.
Proof.
  unfold Decide. destruct (negb _ && negb _) eqn:Hd; [by wp_go; naive_solver|].
  assert (Hdec : decision = "approved" \/ decision = "rejected").
  { rewrite andb_false_iff, !negb_false_iff, !bool_decide_eq_true in Hd. done. }
  apply wp_bind, wp_now. intros e1 He1 _. apply wp_bind, wp_db. intros e2 He2 Hc2 _.
  assert (env_le e e2) by (by transitivity e1).
  split; [|split_and!; try done; by left].
  apply wp_bind, wp_gets, wp_bind, wp_modify. rewrite <- Hc2.
  set (l' := update_where _ _ _). set (t := clock e2) in *.
  assert (Ht : forall e3, env_le e2 e3 -> clock e <= t <= clock e3).
  { intros e3 He3. unfold env_le, t in *. lia. }
  destruct (negb (bool_decide (_ = 1%nat))) eqn:Haff.
  - unfold explainNotPending. apply wp_bind, wp_attempt, Get_wp. intros e3 He3 Hc3.
    assert (env_le e e3) by (by transitivity e2).
    split; [|intros row Hrow]; wp_go; (split_and!; try done; right; eauto).
  - rewrite negb_false_iff, bool_decide_eq_true in Haff.
    assert (Hex : exists r0, r0 ∈ approvals m /\ decidable id t r0 = true).
    { destruct (filter _ _) as [|r0 rest] eqn:Hf in Haff; [done|].
      exists r0. assert (Hr : r0 ∈ r0 :: rest) by set_solver. rewrite <- Hf in Hr.
      by apply list_elem_of_filter in Hr as [? ?]. }
    apply Get_wp. intros e3 He3 Hc3. assert (env_le e e3) by (by transitivity e2).
    split; [|intros row Hrow]; (split_and!; try done; try (right; by eauto)).
    intros row' [= <-]. split; [done|]. destruct Hex as (r0 & ? & ?). exists t, r0. auto.
Qed.

Lemma set_decision_ok d r t a x :
  d = "approved" \/ d = "rejected" -> row_ok x -> row_ok (set_decision d r t a x).
Proof. intros Hd []. split; cbn; try done. unfold statuses. set_solver. Qed.

(** A row as [Request] inserts it. *)
Definition requested (m : ApprovalManager) (agent tool input : string) (t : Z) (r : ApprovalRequest) : Prop :=
  AgentID r = agent /\ ToolName r = tool /\ Input r = input /\
  AHash r = ActionHash agent tool input /\ Status r = "pending" /\
  RiskTier r = ClassifyRisk tool input /\
  AutoApproveAfter r = (if CanAutoApprove (RiskTier r) tool then 14400 else 0) /\
  RequestedAt r = t /\ ExpiresAt r = t + ttl m /\ DecidedAt r = None.

Lemma Request_wp k s tr agent tool risk input m e :
  wp (Request k s tr agent tool risk input)
    (fun r m' e' => env_le e e' /\ grants m' = grants m /\ log m' = log m /\ ttl m' = ttl m /\
       (m' = m \/ exists t new, requested m agent tool input t new /\ approvals m' = approvals m ++ [new]) /\
       (is_ok r = false -> m' = m) /\
       forall row, r = Ok row ->
         AHash row = ActionHash agent tool input /\ Status row = "pending" /\
         (created row = false -> m' = m /\ exists r0, r0 ∈ approvals m /\ row = set_created false r0) /\
         (created row = true -> requested m agent tool input (RequestedAt row) row /\
            approvals m' = approvals m ++ [set_created false row] /\
            exists t0, clock e <= t0 <= clock e' /\ forall r0, r0 ∈ approvals m ->
              AHash r0 = ActionHash agent tool input -> open_at t0 r0 = false))
    m e.
Proof.
  unfold Request. apply wp_bind, wp_get.
  destruct (db_open m); cbn [negb]; [|wp_go; by split_and!; try (by left)].
  cbv zeta. apply wp_bind.
  eapply (wp_mono _ (fun r m' e' => m' = m /\ env_le e e' /\ exists tr, r = Ok tr)).
  { destruct (bool_decide (tr = "")); wp_go; split_and!; by eauto. }
  intros ? ? e1 (-> & He1 & tr' & ->).
  apply wp_bind, wp_now. intros e2 He2 _. apply wp_bind, wp_db. intros e3 He3 Hc3 _.
  assert (env_le e e3) by (transitivity e1; [done|by transitivity e2]).
  split; [|by split_and!; try (by left)].
  apply wp_bind, wp_gets. destruct (latest _ _) as [ex|] eqn:Hl.
  - apply latest_Some in Hl as [Hin _]. apply list_elem_of_filter in Hin as [Hb Hin].
    unfold open_at in Hb. rewrite !andb_true_iff, !bool_decide_eq_true in Hb.
    apply wp_ret. split_and!; try done; [by left|]. intros row [= <-]. cbn. naive_solver.
  - apply latest_None in Hl.
    apply wp_bind, wp_now. intros e4 He4 _. apply wp_bind, wp_draw. intros e5 He5 _ _.
    set (req := mkApproval _ _ _ _ _ _ _ _ _ _ _ _ _ _ _ _ _ _ _).
    assert (Hreq : requested m agent tool input (clock e4) req).
    { unfold requested, req; cbn. split_and!; done. }
    apply wp_bind, wp_db. intros e6 He6 _ _.
    assert (env_le e e6) by (unfold env_le in *; lia).
    split; [|by split_and!; try (by left)].
    apply wp_bind, wp_modify, wp_ret. split_and!; try done.
    + right. exists (clock e4), (set_created false req). split; [exact Hreq|done].
    + intros row [= <-]. split_and!; try done. intros _. split_and!; [exact Hreq|done|].
      exists (clock e2). split; [unfold env_le in *; lia|]. intros r0 Hr0 Hh.
      apply not_true_iff_false. intros Ho. apply (not_elem_of_nil r0).
      rewrite <- Hl. apply list_elem_of_filter. split; [|done].
      by rewrite (bool_decide_true _ Hh).
Qed.

Lemma requested_ok m a n i t r : requested m a n i t r -> row_ok r.
Proof.
  unfold requested. intros (Ha & Hn & Hi & Hh & Hs & Ht & Hau & _). split.
  - rewrite Hs. unfold statuses. set_solver.
  - by rewrite Ha, Hn, Hi.
  - by rewrite Hn, Hi.
  - rewrite Hau, Hn. destruct (CanAutoApprove (RiskTier r) n); auto.
Qed.

(** [Sweep] applies [Decide] to the candidates it saw, in turn. *)
Lemma sweep_loop_ind (I : ApprovalManager -> env -> Prop) items acc m e :
  I m e ->
  (forall m e e', I m e -> env_le e e' -> I m e') ->
  (forall m e l, I m e -> I (add_log l m) e) ->
  (forall m e item t, I m e -> item ∈ items -> clock e <= t -> forall e', env_le e e' ->
     forall m', grants m' = grants m -> log m' = log m -> ttl m' = ttl m ->
     approvals m' = update_where (decidable (AID item) t)
       (set_decision "approved" "auto_approve_after_timeout" t "auto") (approvals m) -> I m' e') ->
  wp (sweep_loop items acc) (fun _ => I) m e.
Proof.
  intros HI Hle Hlog Hstep. revert acc m e HI. induction items as [|item items IH]; intros acc m e HI; cbn.
  - exact HI.
  - apply wp_bind, wp_attempt. eapply wp_mono; [apply Decide_wp|]. cbn.
    intros r m' e' (Hle' & Hg & Hl & Ht & Hm & _).
    assert (HI' : I m' e').
    { destruct Hm as [->|(_ & t & Hct & Ha)]; [by eapply Hle|].
      apply (Hstep m e item t HI); try done; [by apply elem_of_cons; left|lia]. }
    assert (Hrec : forall acc m e, I m e -> wp (sweep_loop items acc) (fun _ => I) m e).
    { intros acc' m1 e1 HI1. apply IH; [|done]. intros m2 e2 item2 t2 HI2 Hin2. apply Hstep; [done|].
      apply elem_of_cons; by right. }
    destruct r as [d|x]; [|by apply Hrec].
    apply wp_bind, wp_modify. apply Hrec. by apply Hlog.
Qed.

(** A property of single rows that every table update keeps is an invariant. *)
Section rows.
Variable R : ApprovalRequest -> Prop.
Variable T : Z.
Hypothesis R_decision : forall d rs t a r, d = "approved" \/ d = "rejected" -> R r -> R (set_decision d rs t a r).
Hypothesis R_expired : forall r, R r -> R (set_status "expired" r).
Hypothesis R_requested : forall m a n i t r, ttl m = T -> requested m a n i t r -> R r.

Definition rows_inv (m : ApprovalManager) (e : env) : Prop := ttl m = T /\ Forall R (approvals m).

Lemma rows_Sweep : preserves rows_inv SweepAutoApprovals.
Proof.
  intros m e HI. unfold SweepAutoApprovals. apply wp_bind, wp_get.
  destruct (negb _); [exact HI|].
  apply wp_bind, wp_now. intros e1 _ _. apply wp_bind, wp_db. intros e2 _ _ _.
  split; [|exact HI]. apply wp_bind, wp_gets, sweep_loop_ind; [exact HI|done|done|].
  intros m1 e3 item t [HT HR] _ _ e' _ m' _ _ Ht Ha. split; [congruence|].
  rewrite Ha. apply Forall_update_where; auto.
Qed.

Lemma rows_List s l : preserves rows_inv (Approval.List s l).
Proof.
  intros m e [HT HR]. unfold Approval.List. cbv zeta.
  wp_go; split; cbn; try done; apply Forall_update_where; auto.
Qed.

Lemma rows_step o :
  (is_reopen o = true -> forall t r, R r -> R (set_reopened t r)) -> preserves rows_inv (run_op o).
Proof.
  intros Hre m e HI. destruct o; cbn [run_op]; apply wp_ignore.
  - eapply wp_mono; [apply Request_wp|]. cbn. intros r m' e' (_ & _ & _ & Ht & Hm & _).
    destruct HI as [HT HR]. destruct Hm as [->|(t & new & Hreq & Ha)]; [done|].
    split; [congruence|]. rewrite Ha, Forall_app, Forall_singleton. eauto.
  - eapply wp_mono; [apply Decide_wp|]. cbn. intros r m' e' (_ & _ & _ & Ht & Hm & _).
    destruct HI as [HT HR]. destruct Hm as [->|(Hd & t & _ & Ha)]; [done|].
    split; [congruence|]. rewrite Ha. apply Forall_update_where; auto.
  - unfold Reopen. destruct HI as [HT HR]. wp_go; split; cbn; try done.
    apply Forall_update_where; auto.
  - by apply rows_List.
  - by apply rows_Sweep.
  - unfold ValidateApproved. apply wp_bind, Get_wp. intros e1 _ _. split; [done|]. intros r _. by wp_go.
  - unfold CreateGrant. destruct HI. wp_go; by split.
  - unfold ActiveGrant, lookupGrant. destruct HI. cbv zeta. wp_go; by split.
Qed.

(** Hence it holds of every reachable manager. *)
Lemma rows_reachable (ok : operation -> bool) x y :
  (forall o, ok o = true -> is_reopen o = true -> forall t r, R r -> R (set_reopened t r)) ->
  rtc (fun x y => exists o, ok o = true /\ astep o x y) x y ->
  rows_inv x.1 x.2 -> rows_inv y.1 y.2.
Proof.
  intros Hre. induction 1 as [|x y z (o & Hok & Hst) _ IH]; [done|]. intros HI. apply IH.
  destruct Hst as [m e e0 _]. pose proof (rows_step o (Hre o Hok) m e0 HI) as Hp.
  unfold wp in Hp. by destruct (run_op o m e0) as [? [? ?]].
Qed.
End rows.

(** ** Grants and decided rows *)

Definition grants_inv (m : ApprovalManager) (e : env) : Prop := Forall grant_ok (grants m).

Lemma CreateGrant_ok a scope actor : preserves grants_inv (CreateGrant a scope actor).
Proof.
  intros m e HI. unfold CreateGrant. apply wp_bind, wp_get.
  destruct (negb _); [exact HI|]. destruct a as [a|]; [|exact HI].
  destruct (negb _) eqn:Hel; [exact HI|]. apply negb_false_iff in Hel.
  apply wp_bind, wp_now. intros e1 _ _. apply wp_bind, wp_lift.
  destruct (grantExpiry scope (clock e1)) as [ex|] eqn:Hex; [|exact HI].
  assert (Hsc : scope = DontAskToday \/ scope = DontAskTask).
  { unfold grantExpiry in Hex. repeat case_bool_decide; naive_solver. }
  apply wp_bind.
  eapply (wp_mono _ (fun r m' e' => m' = m /\ forall k, r = Ok k -> scope = DontAskTask -> k <> "")).
  { repeat case_bool_decide; wp_go; split; try done; naive_solver. }
  intros [k|x] m' e' [-> Hk]; [|exact HI].
  wp_go; try exact HI. unfold grants_inv; cbn. apply Forall_app. split; [exact HI|].
  apply Forall_singleton. split; [done|]. cbn. destruct Hsc as [->| ->]; [by left|right]. split; [done|].
  by apply Hk.
Qed.

Lemma grants_step o : preserves grants_inv (run_op o).
Proof.
  intros m e HI. destruct o; cbn [run_op]; apply wp_ignore.
  - eapply wp_mono; [apply Request_wp|]. cbn. intros r m' e' (_ & Hg & _). unfold grants_inv. by rewrite Hg.
  - eapply wp_mono; [apply Decide_wp|]. cbn. intros r m' e' (_ & Hg & _). unfold grants_inv. by rewrite Hg.
  - unfold Reopen. by wp_go.
  - unfold Approval.List. cbv zeta. by wp_go.
  - unfold SweepAutoApprovals. apply wp_bind, wp_get. destruct (negb _); [exact HI|].
    apply wp_bind, wp_now. intros e1 _ _. apply wp_bind, wp_db. intros e2 _ _ _.
    split; [|exact HI]. apply wp_bind, wp_gets, sweep_loop_ind; [exact HI|done|done|].
    intros m1 e3 item t H1 _ _ e' _ m' Hg _ _ _. unfold grants_inv. by rewrite Hg.
  - unfold ValidateApproved. apply wp_bind, Get_wp. intros e1 _ _. split; [done|]. intros r _. by wp_go.
  - by apply CreateGrant_ok.
  - unfold ActiveGrant, lookupGrant. cbv zeta.
    assert (Hf : forall t, Forall grant_ok (filter (fun g => t < GExpiresAt g) (grants m))).
    { intros t. apply Forall_forall. intros g [_ Hg]%list_elem_of_filter. revert g Hg. by apply Forall_forall. }
    wp_go; try exact HI; apply Hf.
Qed.

Lemma reachable_ok open e m e' :
  rtc step_any (NewApprovalManager open, e) (m, e') ->
  Forall row_ok (approvals m) /\ Forall grant_ok (grants m).
Proof.
  intros H. split.
  - assert (Hr : rows_inv row_ok (30 * minute) m e'); [|apply Hr].
    change (rows_inv row_ok (30 * minute) (m, e').1 (m, e').2).
    assert (Hdec : forall d rs t a r, d = "approved" \/ d = "rejected" -> row_ok r -> row_ok (set_decision d rs t a r)).
    { intros d rs t a r Hd. by apply set_decision_ok. }
    assert (Hexp : forall r, row_ok r -> row_ok (set_status "expired" r)).
    { intros r []. split; cbn; try done. unfold statuses. set_solver. }
    assert (Hreq : forall m a n i t r, ttl m = 30 * minute -> requested m a n i t r -> row_ok r).
    { intros m0 a n i t r _. apply requested_ok. }
    eapply (rows_reachable row_ok (30 * minute) Hdec Hexp Hreq (fun _ => true)).
    + intros o _ _ t r []. split; cbn; try done. unfold statuses. set_solver.
    + eapply rtc_subrel; [|exact H]. intros x y [o Ho]. by exists o.
    + by split; [|apply Forall_nil].
  - remember (NewApprovalManager open, e) as x eqn:Hx. remember (m, e') as y eqn:Hy.
    assert (H0 : grants_inv x.1 x.2) by (subst; apply Forall_nil; done).
    replace (grants m) with (grants y.1) by (by subst). clear Hx Hy.
    induction H as [x|x y z [o Ho] _ IH]; [exact H0|]. apply IH. destruct Ho as [m0 e1 e0 _].
    pose proof (grants_step o m0 e0 H0) as Hp. unfold wp in Hp. by destruct (run_op o m0 e0) as [? [? ?]].
Qed.

(** A row that is no longer pending stays as it is, unless it is reopened. *)
Lemma keeps_decided o r :
  is_reopen o = false -> Status r <> "pending" ->
  preserves (fun m _ => r ∈ approvals m) (run_op o).
Proof.
  intros Hre Hst m e HI.
  assert (Hup : forall p f l, (forall x, p x = true -> Status x = "pending") ->
            r ∈ l -> r ∈ update_where p f l).
  { intros p f l Hp Hr. apply elem_of_update_where. exists r. split; [done|].
    destruct (p r) eqn:Hpr; [|done]. by apply Hp in Hpr. }
  assert (Hdec : forall id t x, decidable id t x = true -> Status x = "pending").
  { intros id t x Hx. apply decidable_spec in Hx. naive_solver. }
  destruct o; cbn [run_op]; try discriminate; apply wp_ignore.
  - eapply wp_mono; [apply Request_wp|]. cbn. intros x m' e' (_ & _ & _ & _ & [->|(t & n & _ & ->)] & _); set_solver.
  - eapply wp_mono; [apply Decide_wp|]. cbn. intros x m' e' (_ & _ & _ & _ & [->|(_ & t & _ & ->)] & _); eauto.
  - unfold Approval.List. cbv zeta. wp_go; cbn; try done; apply Hup; try done;
      intros x Hx; unfold overdue in Hx; rewrite andb_true_iff, bool_decide_eq_true in Hx; apply Hx.
  - unfold SweepAutoApprovals. apply wp_bind, wp_get. destruct (negb _); [exact HI|].
    apply wp_bind, wp_now. intros e1 _ _. apply wp_bind, wp_db. intros e2 _ _ _.
    split; [|exact HI]. apply wp_bind, wp_gets.
    apply (sweep_loop_ind (fun m _ => r ∈ approvals m)); [exact HI|done|done|].
    intros m1 e3 item t H1 _ _ e' _ m' _ _ _ ->. eauto.
  - unfold ValidateApproved. apply wp_bind, Get_wp. intros e1 _ _. split; [done|]. intros x _. by wp_go.
  - unfold CreateGrant. by wp_go.
  - unfold ActiveGrant, lookupGrant. cbv zeta. by wp_go.
Qed.


(** Checking an approval changes nothing; a grant lookup only forgets grants. *)
Lemma ValidateApproved_wp id agent tool input m e :
  wp (ValidateApproved id agent tool input)
    (fun r m' e' => m' = m /\ env_le e e' /\ (r = Ok tt -> exists x, find_approval id (approvals m) = Some x /\
       Status x = "approved" /\ clock e' <= ExpiresAt x /\ AHash x = ActionHash agent tool input)) m e.
Proof.
  unfold ValidateApproved. apply wp_bind, Get_wp. intros e1 He1 _. split; [done|]. intros r Hr.
  case_bool_decide as Hs; cbn [negb]; [|by apply wp_throw]. apply wp_bind, wp_now. intros e2 He2 _.
  assert (env_le e e2) by (by transitivity e1).
  unfold time_after. destruct (ExpiresAt r <? clock e2) eqn:He; [by apply wp_throw|]. apply Z.ltb_ge in He.
  case_bool_decide as Hh; cbn [negb]; [|by apply wp_throw]. apply wp_ret. split_and!; eauto.
Qed.

Lemma ActiveGrant_wp agent tool task m e :
  wp (ActiveGrant agent tool task)
    (fun r m' e' => approvals m' = approvals m /\ env_le e e' /\ (forall g, r = Ok (Some g) -> g ∈ grants m /\ clock e <= clock e' /\
       (grant_for agent tool DontAskToday (clock e') g = true \/
        grant_for agent tool DontAskTask (clock e') g = true /\ GTaskID g = task /\ task <> ""))) m e.
Proof.
  unfold ActiveGrant, lookupGrant. apply wp_bind, wp_get. destruct (negb _); [by apply wp_ret|].
  apply wp_bind, wp_now. intros e1 He1 _. apply wp_bind, wp_ignore.
  eapply (wp_mono _ (fun _ m1 e2 => approvals m1 = approvals m /\ env_le e1 e2 /\ grants m1 ⊆ grants m /\ clock e2 = clock e1)).
  { apply wp_bind, wp_db. intros e2 He2 Hc _. split; [apply wp_modify|]; split_and!; try done.
    intros x Hx. by apply list_elem_of_filter in Hx as [_ Hx]. }
  intros _ m1 e2 (Ham & He2 & Hsub & Hc2).
  assert (Hl : forall g p, latest GExpiresAt (filter (fun g => p g = true) (grants m1)) = Some g ->
            g ∈ grants m /\ p g = true).
  { intros g p Hp. apply latest_Some in Hp as [Hp _]. apply list_elem_of_filter in Hp as [Hp Hin]. auto. }
  apply wp_bind. eapply (wp_mono _ (fun r m2 e3 => m2 = m1 /\ clock e3 = clock e1 /\ env_le e2 e3 /\
    (forall o g, r = Ok o -> o = Some g -> g ∈ grants m /\ grant_for agent tool DontAskTask (clock e1) g = true /\
      GTaskID g = task /\ task <> ""))).
  { case_bool_decide as Ht; cbn [negb]; [by apply wp_ret; split_and!; try done; intros ? ? [= <-]|].
    apply wp_bind, wp_db. intros e3 He3 Hc3 _. split; [apply wp_gets|by rewrite Hc3].
    rewrite Hc3. split_and!; try done. intros o g [= <-] Ho. apply Hl in Ho as [Hin Ho].
    apply andb_true_iff in Ho as [Ho1 Ho2%bool_decide_eq_true]. by split_and!. }
  assert (Hle : forall e3, env_le e2 e3 -> env_le e e3) by (intros; unfold env_le in *; lia).
  intros [o|x] m2 e3 (-> & Hc3 & He3 & Htask); [destruct o as [g'|]|split_and!; auto; done].
  - apply wp_ret. split_and!; auto. intros g [= ->]. rewrite Hc3.
    destruct (Htask _ _ eq_refl eq_refl) as (? & ? & ? & ?). unfold env_le in *. tauto.
  - apply wp_bind, wp_db. intros e4 He4 Hc4 _. assert (env_le e e4) by (unfold env_le in *; lia).
    split; [apply wp_gets|done]. split_and!; try done. intros g [= Ho].
    apply Hl in Ho as [Hin Ho]. rewrite Hc4, Hc3. unfold env_le in *. tauto.
Qed.

(** ** Properties *)

(** C2. A decision reaches exactly one request: when Decide succeeds, the
    request existed, was pending and unexpired at an instant of the call, the
    decision was "approved" or "rejected", and the table differs in that row
    only, where only the decision, its reason, time and actor changed.
    ([NoDup]: [approvals.id] is the primary key.) *)
Theorem Decide_exact id d actor rs m e row m' e' :
  NoDup (AID <$> approvals m) ->
  Decide id d actor rs m e = (Ok row, (m', e')) ->
  (d = "approved" \/ d = "rejected") /\
  exists t pre r0 post, clock e <= t <= clock e' /\ approvals m = pre ++ r0 :: post /\
    AID r0 = id /\ Status r0 = "pending" /\ t < ExpiresAt r0 /\
    row = set_decision d rs t actor r0 /\ approvals m' = pre ++ row :: post.
Proof.
  intros Hnd Hrun. pose proof (Decide_wp id d actor rs m e) as Hw. unfold wp in Hw. rewrite Hrun in Hw.
  destruct Hw as (_ & _ & _ & _ & _ & Hok). destruct (Hok row eq_refl) as (Hd & t & r0 & Ht & Hin & Hdec & Ha & Hf).
  split; [done|]. apply list_elem_of_split in Hin as (pre & post & Heq). exists t, pre, r0, post.
  pose proof Hdec as Hdec'. apply decidable_spec in Hdec' as (Hid & Hs & Hex).
  assert (Hother : forall l, (forall x, x ∈ l -> AID x <> id) ->
            update_where (decidable id t) (set_decision d rs t actor) l = l).
  { intros l Hl. apply update_where_none. intros x Hx. apply not_true_iff_false.
    intros Hx'%decidable_spec. apply (Hl x Hx), Hx'. }
  rewrite Heq, fmap_app, fmap_cons, NoDup_app, NoDup_cons in Hnd. destruct Hnd as (_ & Hpp & Hpost & _).
  assert (Ha' : approvals m' = pre ++ set_decision d rs t actor r0 :: post).
  { rewrite Ha, Heq. unfold update_where in *. rewrite fmap_app, fmap_cons, Hdec, !Hother; [done| |].
    - intros x Hx He. apply Hpost. rewrite Hid, <- He. by apply list_elem_of_fmap_2.
    - intros x Hx He. apply (Hpp (AID x)); [by apply list_elem_of_fmap_2|]. rewrite He, <- Hid. set_solver. }
  rewrite Ha' in Hf. unfold find_approval in Hf.
  assert (Hrow : row = set_decision d rs t actor r0); [|by subst row].
  apply find_some in Hf as [Hf He]. rewrite bool_decide_eq_true in He. rewrite <- list_elem_of_In in Hf.
  apply elem_of_app in Hf as [Hf|[Hf|Hf]%elem_of_cons]; [|done|].
  - destruct (Hpp (AID row)); [by apply list_elem_of_fmap_2|]. rewrite He, <- Hid. set_solver.
  - destruct Hpost. rewrite Hid, <- He. by apply list_elem_of_fmap_2.
Qed.

(** A decision is final: whatever sequence of operations follows (other
    than an explicit reopening), under any failures and any timing, a request
    that is no longer pending keeps its row, unchanged. *)
Theorem decided_final m e m' e' r :
  rtc step_no_reopen (m, e) (m', e') -> r ∈ approvals m -> Status r <> "pending" -> r ∈ approvals m'.
Proof.
  intros H Hr Hs. remember (m, e) as x eqn:Hx. remember (m', e') as y eqn:Hy.
  assert (H0 : r ∈ approvals x.1) by (by subst).
  replace m' with y.1 by (by subst). clear Hx Hy Hr.
  induction H as [x|x y z (o & Hre & Ho) _ IH]; [done|]. apply IH. destruct Ho as [m0 e1 e0 _].
  pose proof (keeps_decided o r Hre Hs m0 e0 H0) as Hp. unfold wp in Hp. by destruct (run_op o m0 e0) as [? [? ?]].
Qed.

Definition nul_free (s : string) : bool := no_byte (byte_of 0) s.

(** C3. An approval is good for one exact action: in every reachable manager,
    when ValidateApproved accepts an identifier, that request was approved,
    had not expired, and was made for the same agent, the same tool and the
    same normalized input (SHA-256 not colliding on the two actions, names
    without NUL bytes). *)
Theorem ValidateApproved_sound open e0 m e id agent tool input se :
  rtc step_any (NewApprovalManager open, e0) (m, e) ->
  nul_free agent = true -> nul_free tool = true ->
  (forall r, r ∈ approvals m -> nul_free (AgentID r) = true /\ nul_free (ToolName r) = true /\
     (sha256_hex (action_preimage (AgentID r) (ToolName r) (Input r)) = sha256_hex (action_preimage agent tool input) ->
      action_preimage (AgentID r) (ToolName r) (Input r) = action_preimage agent tool input)) ->
  ValidateApproved id agent tool input m e = (Ok tt, se) ->
  exists r, r ∈ approvals m /\ AID r = id /\ Status r = "approved" /\ clock se.2 <= ExpiresAt r /\
    AgentID r = agent /\ ToolName r = tool /\ canonicalizeInput (Input r) = canonicalizeInput input.
Proof.
  intros Hreach Hna Hnt Hcol Hrun. destruct (reachable_ok _ _ _ _ Hreach) as [Hrows _].
  pose proof (ValidateApproved_wp id agent tool input m e) as Hw.
  unfold wp in Hw. rewrite Hrun in Hw. destruct se as [m1 e1].
  destruct Hw as (_ & _ & Hw). destruct (Hw eq_refl) as (r & Hf & Hs & He & Hh). apply find_approval_Some in Hf as [Hin Hid].
  destruct (proj1 (Forall_forall _ _) Hrows r Hin) as [_ Hhash _ _].
  destruct (Hcol r Hin) as (Hra & Hrt & Hinj). rewrite Hhash in Hh. apply Hinj in Hh.
  unfold action_preimage in Hh.
  apply (app_sep_inj (byte_of 0)) in Hh as [Hag Hh]; [|done|done].
  apply (app_sep_inj (byte_of 0)) in Hh as [Htl Hci]; [|done|done]. exists r. by split_and!.
Qed.

(** A request never waits long enough for the timer. *)
Definition short_lived (r : ApprovalRequest) : Prop :=
  ExpiresAt r = RequestedAt r + 30 * minute /\ (AutoApproveAfter r = 0 \/ AutoApproveAfter r = 14400).

Lemma short_lived_not_due t r : short_lived r -> sweep_candidate t r && sweep_due t r = false.
Proof.
  intros [He Ha]. apply not_true_iff_false. unfold sweep_candidate, sweep_due, time_after, time_add.
  intros H. repeat rewrite andb_true_iff in H. destruct H as [[[_ H1] H2] [[_ H4] _]].
  apply Z.ltb_lt in H1, H2, H4. destruct Ha as [Ha|Ha]; [lia|].
  rewrite Ha in H4. change (wrap64 (14400 * second)) with (4 * hour) in H4. unfold hour, minute, second in *. lia.
Qed.

(** The timer never fires: starting from a new manager, as long as no
    request is reopened, SweepAutoApprovals resolves nothing and changes
    nothing, because requests expire after 30 minutes and are only due for
    automatic approval after four hours. *)
Theorem Sweep_fresh_never open e0 m e :
  rtc step_no_reopen (NewApprovalManager open, e0) (m, e) ->
  wp SweepAutoApprovals (fun r m' _ => m' = m /\ forall l, r = Ok l -> l = []) m e.
Proof.
  intros H.
  assert (HI : rows_inv short_lived (30 * minute) (m, e).1 (m, e).2).
  { assert (Hdec : forall d rs t a r, d = "approved" \/ d = "rejected" -> short_lived r ->
              short_lived (set_decision d rs t a r)) by (unfold short_lived; auto).
    assert (Hexp : forall r, short_lived r -> short_lived (set_status "expired" r)) by (unfold short_lived; auto).
    assert (Hreq : forall m a n i t r, ttl m = 30 * minute -> requested m a n i t r -> short_lived r).
    { unfold requested, short_lived. intros m0 a n i t r -> (_ & _ & _ & _ & _ & _ & Hau & -> & -> & _).
      split; [done|]. rewrite Hau. destruct (CanAutoApprove _ _); auto. }
    eapply (rows_reachable short_lived (30 * minute) Hdec Hexp Hreq (fun o => negb (is_reopen o))).
    - intros o Ho Ho'. by rewrite Ho' in Ho.
    - eapply rtc_subrel; [|exact H]. intros x y (o & Ho & Hst). exists o. by rewrite Ho.
    - by split; [|apply Forall_nil]. }
  destruct HI as [_ HR]. cbn in HR.
  unfold SweepAutoApprovals. apply wp_bind, wp_get. destruct (negb _); [by split; [|intros l [= <-]]|].
  apply wp_bind, wp_now. intros e1 _ _. apply wp_bind, wp_db. intros e2 _ _ _.
  split; [|by split]. apply wp_bind, wp_gets.
  rewrite filter_none; [by split; [|intros l [= <-]]|].
  intros r Hr. rewrite short_lived_not_due; [done|]. revert r Hr. by apply Forall_forall.
Qed.


(** A waiver is honoured only as granted: in every reachable manager,
    when ActiveGrant answers with a grant, that grant is stored, is for this
    agent and tool, is live, has the scope "today" or the scope "task" with
    this non-empty task, and the tool has no external effect and is not
    administrative. *)
Theorem ActiveGrant_sound open e0 m e agent tool task g se :
  rtc step_any (NewApprovalManager open, e0) (m, e) ->
  ActiveGrant agent tool task m e = (Ok (Some g), se) ->
  g ∈ grants m /\ GAgentID g = agent /\ GToolName g = tool /\ clock e <= clock se.2 < GExpiresAt g /\
  (GScope g = DontAskToday \/ (GScope g = DontAskTask /\ GTaskID g = task /\ task <> "")) /\
  IsExternalEffectTool tool = false /\ has_prefix tool "admin_" = false.
Proof.
  intros Hreach Hrun. destruct (reachable_ok _ _ _ _ Hreach) as [_ Hgr].
  pose proof (ActiveGrant_wp agent tool task m e) as Hw.
  unfold wp in Hw. rewrite Hrun in Hw. destruct se as [m' e']. cbn.
  destruct Hw as (_ & _ & Hw). destruct (Hw g eq_refl) as (Hin & Hc & Hcase).
  destruct (proj1 (Forall_forall _ _) Hgr g Hin) as [Hel _].
  unfold grant_for in Hcase. repeat rewrite ?andb_true_iff, ?bool_decide_eq_true, ?Z.ltb_lt in Hcase.
  assert (GToolName g = tool) as <- by tauto.
  unfold GrantEligibleTool in Hel. rewrite negb_true_iff, !orb_false_iff in Hel. tauto.
Qed.

(** Asking twice while a request is open opens one request: after a
    first Request for an action, a later one for the same action, made before
    the first expires, adds no row. *)
Theorem Request_idempotent k s tr a n rk i m e row m1 e1 k2 s2 tr2 rk2 e1' r2 m2 e2 :
  Request k s tr a n rk i m e = (Ok row, (m1, e1)) -> env_le e1 e1' ->
  Request k2 s2 tr2 a n rk2 i m1 e1' = (r2, (m2, e2)) -> created row = true ->
  clock e2 < ExpiresAt row -> approvals m2 = approvals m1 /\ forall row2, r2 = Ok row2 -> created row2 = false.
Proof.
  intros H1 Hle H2 Hc He.
  pose proof (Request_wp k s tr a n rk i m e) as W1. unfold wp in W1. rewrite H1 in W1.
  pose proof (Request_wp k2 s2 tr2 a n rk2 i m1 e1') as W2. unfold wp in W2. rewrite H2 in W2.
  destruct W1 as (_ & _ & _ & _ & _ & _ & Hok1). destruct (Hok1 row eq_refl) as (Hh & Hs & _ & Hcr).
  destruct (Hcr Hc) as (_ & Ha & _). destruct W2 as (_ & _ & _ & _ & _ & Herr & Hok2).
  destruct r2 as [row2|x]; [|split; [by rewrite (Herr eq_refl)|done]].
  destruct (Hok2 row2 eq_refl) as (_ & _ & Hf & Ht).
  destruct (created row2) eqn:Hc2.
  - destruct (Ht eq_refl) as (_ & _ & t0 & Ht0 & Hno).
    assert (Hin : set_created false row ∈ approvals m1) by (rewrite Ha; set_solver).
    specialize (Hno _ Hin Hh). unfold open_at in Hno. cbn in Hno.
    rewrite (bool_decide_true _ Hs) in Hno. apply Z.ltb_ge in Hno. lia.
  - destruct (Hf eq_refl) as [-> _]. split; [done|]. by intros row3 [= <-].
Qed.

End spec.

(** ** Closed instances *)

#[local] Existing Instance ascii_tables.
#[local] Existing Instance plain_platform.

Definition demo_run (l : list operation) (m : ApprovalManager) (e : env) : ApprovalManager * env :=
  fold_left (fun me o => snd (run_op o me.1 me.2)) l (m, e).

Definition demo_asks : list operation :=
  [OpRequest "" "" "" "agent" "native_file_read" "Low" "{}"; OpDecide "apr_1" "approved" "ann" "ok"].

Lemma demo_reachable l open e : rtc step_any (NewApprovalManager open, e) (demo_run l (NewApprovalManager open) e).
Proof.
  unfold demo_run. generalize (NewApprovalManager open). revert e.
  induction l as [|o l IH]; intros e m; [done|].
  eapply rtc_l; [exists o; apply (astep_run o m e e); reflexivity|].
  cbn. destruct (snd (run_op o m e)) as [m' e']. apply IH.
Qed.

Definition demo_end : ApprovalManager * env := demo_run demo_asks (NewApprovalManager true) (calm 1000).
Definition demo_open : ApprovalManager * env := demo_run (take 1 demo_asks) (NewApprovalManager true) (calm 1000).
Definition demo_row : ApprovalRequest :=
  default (mkApproval "" "" "" "" "" "" 0 "" "" "" "" "" 0 0 None "" "" "" false) (approvals (fst demo_end) !! 0%nat).

Lemma Decide_exact_witness :
  exists t pre r0 post, 1000 <= t <= 1000 /\ approvals (fst demo_open) = pre ++ r0 :: post /\
    AID r0 = "apr_1" /\ Status r0 = "pending" /\ t < ExpiresAt r0 /\
    demo_row = set_decision "approved" "ok" t "ann" r0 /\ approvals (fst demo_end) = pre ++ demo_row :: post.
Proof.
  apply (Decide_exact "apr_1" "approved" "ann" "ok" (fst demo_open) (snd demo_open)
           demo_row (fst demo_end) (snd demo_end)).
  - vm_compute. apply NoDup_singleton.
  - vm_compute. reflexivity.
Defined.

Lemma demo_no_reopen l m e :
  forallb (fun o => negb (is_reopen o)) l = true -> rtc step_no_reopen (m, e) (demo_run l m e).
Proof.
  unfold demo_run. revert m e. induction l as [|o l IH]; intros m e Hl; [done|].
  cbn [forallb] in Hl. apply andb_true_iff in Hl as [Ho Hl]. apply negb_true_iff in Ho.
  eapply rtc_l; [exists o; split; [exact Ho|apply (astep_run o m e e); reflexivity]|].
  cbn. destruct (snd (run_op o m e)) as [m' e']. by apply IH.
Qed.

Definition demo_later : ApprovalManager * env :=
  demo_run [OpList "" 10; OpDecide "apr_1" "rejected" "eve" "no"; OpSweep] (fst demo_end) (snd demo_end).

Lemma decided_final_witness : demo_row ∈ approvals (fst demo_later).
Proof.
  apply (decided_final (fst demo_end) (snd demo_end) (fst demo_later) (snd demo_later)).
  - unfold demo_later. destruct (demo_run _ (fst demo_end) _) as [m e] eqn:Hd.
    change (rtc step_no_reopen (fst demo_end, snd demo_end) (m, e)). rewrite <- Hd.
    by apply demo_no_reopen.
  - vm_compute. constructor.
  - vm_compute. discriminate.
Defined.

Lemma ValidateApproved_sound_witness :
  exists r, r ∈ approvals (fst demo_end) /\ AID r = "apr_1" /\ Status r = "approved" /\
    clock (snd (fst demo_end, snd demo_end)) <= ExpiresAt r /\
    AgentID r = "agent" /\ ToolName r = "native_file_read" /\ canonicalizeInput (Input r) = canonicalizeInput "{}".
Proof.
  apply (ValidateApproved_sound true (calm 1000) (fst demo_end) (snd demo_end)
           "apr_1" "agent" "native_file_read" "{}" (fst demo_end, snd demo_end)).
  - exact (demo_reachable demo_asks true (calm 1000)).
  - reflexivity.
  - reflexivity.
  - intros r Hr. change (r ∈ [demo_row]) in Hr. apply list_elem_of_singleton in Hr as ->.
    split; [reflexivity|]. split; [reflexivity|]. intros _. reflexivity.
  - vm_compute. reflexivity.
Defined.

Lemma Sweep_fresh_never_witness :
  wp SweepAutoApprovals (fun r m' _ => m' = fst demo_open /\ forall l, r = Ok l -> l = [])
    (fst demo_open) (mkEnv [] 1000 [14401000000000%N] 5).
Proof.
  apply (Sweep_fresh_never true (calm 1000)).
  eapply rtc_l; [exists (OpRequest "" "" "" "agent" "native_file_read" "Low" "{}"); split; [reflexivity|];
    apply (astep_run _ _ _ (calm 1000)); reflexivity|].
  eapply rtc_l; [exists (OpValidate "" "" "" ""); split; [reflexivity|];
    apply (astep_run _ _ _ (mkEnv [] 1000 [14401000000000%N] 5)); vm_compute; split; [discriminate|];
    repeat constructor|].
  apply rtc_refl.
Defined.

Definition demo_granted : ApprovalManager * env :=
  demo_run [OpCreateGrant (Some demo_row) "today" "ann"] (NewApprovalManager true) (calm 1000).
Definition demo_grant : ApprovalGrant :=
  default (mkGrant "" "" "" "" "" 0 0 "" "") (grants (fst demo_granted) !! 0%nat).

Lemma ActiveGrant_sound_witness :
  GToolName demo_grant = "native_file_read" /\ IsExternalEffectTool "native_file_read" = false.
Proof.
  destruct (ActiveGrant_sound true (calm 1000) (fst demo_granted) (snd demo_granted)
    "agent" "native_file_read" "" demo_grant (fst demo_granted, snd demo_granted)) as (_ & _ & ? & _ & _ & ? & _).
  - rewrite <- surjective_pairing. apply demo_reachable.
  - vm_compute. reflexivity.
  - by split.
Defined.

Definition demo_created : ApprovalRequest := set_created true (set_status "pending"
  (default demo_row (approvals (fst demo_open) !! 0%nat))).

Lemma Request_idempotent_witness :
  approvals (fst (snd (Request "t" "s" "x" "agent" "native_file_read" "High" "{}" (fst demo_open) (snd demo_open))))
  = approvals (fst demo_open).
Proof.
  destruct (Request "t" "s" "x" "agent" "native_file_read" "High" "{}" (fst demo_open) (snd demo_open))
    as [r2 [m2 e2]] eqn:H2.
  apply (Request_idempotent "" "" "" "agent" "native_file_read" "Low" "{}"
    (NewApprovalManager true) (calm 1000) demo_created (fst demo_open) (snd demo_open)
    "t" "s" "x" "High" (snd demo_open) r2 m2 e2).
  - vm_compute. reflexivity.
  - reflexivity.
  - exact H2.
  - reflexivity.
  - assert (e2 = snd (snd (r2, (m2, e2)))) as -> by reflexivity. rewrite <- H2. vm_compute. reflexivity.
Defined.

(** A rejected request that is reopened five hours after it was made is
    approved by the next sweep: the delay counts from the original request. *)
Example reopened_is_swept :
  (fun r => (Status r, DecidedBy r)) <$>
    approvals (fst (demo_run [OpRequest "" "" "" "agent" "native_file_read" "Low" "{}";
      OpDecide "apr_1" "rejected" "ann" "no"; OpReopen "apr_1"; OpSweep]
      (NewApprovalManager true) (mkEnv [] 1000 [0; 0; 0; 18000000000000; 0]%N 0)))
  = [("approved", "auto")].
Proof. vm_compute. reflexivity. Qed.
