(* ===== verification/Registry.v ===== *)
(** * The tool registry ([internal/tools/registry.go, gate.go, command_policy.go])

    Execution contexts, the table of tools, the gates, and [Execute]: every
    check a tool call passes, in the order of the code, with the events,
    audit lines and notifications it leaves. *)

From S2P Require Import Prelude GoStrings Regex GoPath Io Tables Risk Approval.

#[local] Open Scope Z_scope.

(** ** Execution contexts *)

Record ctx := mkCtx {
  c_trace : string; c_approval : string; c_agent : string; c_source : string;
  c_task : string; c_task_legacy : string; c_bypass : bool;
  c_denied : option (gset string); c_allowed : option (gset string) }.

Definition Background : ctx := mkCtx "" "" "" "" "" "" false None None.

Definition set_lists (d a : option (gset string)) (c : ctx) : ctx :=
  mkCtx (c_trace c) (c_approval c) (c_agent c) (c_source c) (c_task c) (c_task_legacy c) (c_bypass c) d a.

Section context.
Context `{U : Unicode}.

Definition WithAgentID (c : ctx) (agentID : string) : ctx :=
  mkCtx (c_trace c) (c_approval c) agentID (c_source c) (c_task c) (c_task_legacy c) (c_bypass c) (c_denied c) (c_allowed c).
Definition AgentIDFromContext (c : ctx) : string := c_agent c.

Definition WithExecutionSource (c : ctx) (source : string) : ctx :=
  let source := trim_space source in
  if bool_decide (source = "") then c
  else mkCtx (c_trace c) (c_approval c) (c_agent c) source (c_task c) (c_task_legacy c) (c_bypass c) (c_denied c) (c_allowed c).
Definition ExecutionSourceFromContext (c : ctx) : string := trim_space (c_source c).

Definition WithTraceID (c : ctx) (traceID : string) : ctx :=
  mkCtx traceID (c_approval c) (c_agent c) (c_source c) (c_task c) (c_task_legacy c) (c_bypass c) (c_denied c) (c_allowed c).
Definition TraceIDFromContext (c : ctx) : string := c_trace c.

Definition WithApprovalID (c : ctx) (approvalID : string) : ctx :=
  mkCtx (c_trace c) approvalID (c_agent c) (c_source c) (c_task c) (c_task_legacy c) (c_bypass c) (c_denied c) (c_allowed c).
Definition ApprovalIDFromContext (c : ctx) : string := c_approval c.

Definition WithTaskID (c : ctx) (taskID : string) : ctx :=
  if bool_decide (trim_space taskID = "") then c
  else mkCtx (c_trace c) (c_approval c) (c_agent c) (c_source c) taskID (c_task_legacy c) (c_bypass c) (c_denied c) (c_allowed c).
Definition TaskIDFromContext (c : ctx) : string :=
  if negb (bool_decide (trim_space (c_task c) = "")) then trim_space (c_task c)
  else trim_space (c_task_legacy c).

Definition WithBypassApproval (c : ctx) : ctx :=
  mkCtx (c_trace c) (c_approval c) (c_agent c) (c_source c) (c_task c) (c_task_legacy c) true (c_denied c) (c_allowed c).
Definition IsApprovalBypassed (c : ctx) : bool := c_bypass c.

(** The deny list grows, the allow list shrinks. *)
Definition WithDeniedTools (c : ctx) (names : list string) : ctx :=
  if bool_decide (names = []) then c
  else set_lists (Some (list_to_set names ∪ default ∅ (c_denied c))) (c_allowed c) c.
Definition IsToolDenied (c : ctx) (name : string) : bool :=
  match c_denied c with Some d => bool_decide (name ∈ d) | None => false end.
Definition WithAllowedTools (c : ctx) (names : list string) : ctx :=
  if bool_decide (names = []) then c
  else
    let allowed : gset string := list_to_set names in
    set_lists (c_denied c)
      (Some (match c_allowed c with Some existing => filter (fun n => n ∈ existing) allowed | None => allowed end)) c.
Definition IsToolAllowedInContext (c : ctx) (name : string) : bool :=
  match c_allowed c with Some a => bool_decide (name ∈ a) | None => true end.

Definition str_le (a b : string) : Prop := String.leb a b = true.
#[local] Instance str_le_dec a b : Decision (str_le a b). Proof. unfold str_le. apply _. Defined.

Definition DeniedTools (c : ctx) : list string := merge_sort str_le (elements (default ∅ (c_denied c))).
Definition AllowedTools (c : ctx) : option (list string) :=
  (fun a => merge_sort str_le (elements a)) <$> c_allowed c.

(** ** Names *)

Definition name_prefixes : list string := ["functions."; "function."; "tools."; "tool."].

Definition drop_bytes (n : nat) (s : string) : string := String.substring n (String.length s) s.

(** The aliases of a lower-cased name, [None] when it has none. *)
Definition alias_of (lower : string) : option string :=
  if one_of lower ["websearch"; "web_search"; "google_search"; "search"; "browse"; "web"]
  then Some "native_web_search"
  else if one_of lower ["readfile"; "read_file"; "read"; "file_read"; "fetch_file"; "open_file"]
  then Some "native_file_read"
  else if one_of lower ["writefile"; "write_file"; "create_file"; "file_write"; "save_file"; "put_file"]
  then Some "native_file_write"
  else if one_of lower ["editfile"; "edit_file"; "file_edit"; "replace_file"; "patch_file"; "native_file_edit"]
  then Some "native_file_edit"
  else if one_of lower ["listfiles"; "list_files"; "list_dir"; "ls"; "dir"; "file_list"; "find_files";
                        "files_search"; "native_file_list"; "native_file_search"]
  then Some "native_file_search"
  else if one_of lower ["movefile"; "move_file"; "file_move"; "rename_file"; "native_file_move"]
  then Some "native_file_move"
  else if one_of lower ["copyfile"; "copy_file"; "file_copy"; "native_file_copy"]
  then Some "native_file_copy"
  else if one_of lower ["deletefile"; "delete_file"; "remove_file"; "file_delete"; "rm"; "native_file_delete"]
  then Some "native_file_delete"
  else if one_of lower ["workspace_search"; "search_workspace"; "user_file_search"]
  then Some "native_workspace_search"
  else if one_of lower ["workspace_read"; "read_workspace"; "user_file_read"]
  then Some "native_workspace_read"
  else if one_of lower ["workspace_write"; "write_workspace"; "user_file_write"]
  then Some "native_workspace_write"
  else if one_of lower ["workspace_delete"; "delete_workspace"; "user_file_delete"]
  then Some "native_workspace_delete"
  else if one_of lower ["task_enqueue"; "enqueue_task"; "enqueue_mission"; "create_task"; "create_mission";
                        "native_task_create"]
  then Some "native_task_enqueue"
  else if one_of lower ["subshell"; "bash"; "sh"; "exec"; "powershell"; "terminal"; "run_command"; "shell";
                        "native_subshell"]
  then Some "native_exec"
  else if one_of lower ["browser"; "browser_open"; "web_browser"] then Some "native_browser"
  else if one_of lower ["view_skill"; "read_skill"] then Some "skill_view"
  else None.

Definition NormalizeToolName (name : string) : string :=
  let clean := trim_space name in
  let lower := to_lower clean in
  let '(clean, lower) :=
    match first_some (fun p => if has_prefix lower p then Some p else None) name_prefixes with
    | Some p => (drop_bytes (String.length p) clean, drop_bytes (String.length p) lower)
    | None => (clean, lower)
    end in
  default clean (alias_of lower).

(** ** Permissions *)

Record AgentToolPolicy := mkPolicy {
  AuthorizedTools : list string; ApprovalThreshold : string; AllowedPaths : list string }.

Definition toolAllowed (authorized : list string) (name : string) : bool :=
  existsb (fun a => bool_decide (a = "*") || bool_decide (a = name)) authorized.

End context.

(** ** JSON payloads

    [encoding/json]: decoding into a string, into [map[string]any] ([null]
    leaves the map nil), into a struct with one string field, and encoding a
    map; [jsprint] is [fmt.Sprint]. *)
Class Json := {
  jval : Type;
  jstr : string -> jval;
  jsprint : jval -> string;
  json_string : string -> option string;
  json_object : string -> option (option (gmap string jval));
  json_field : string -> string -> option string;
  json_marshal : option (gmap string jval) -> option string
}.

(** A codec for closed examples: a struct's field is the text itself. *)
Definition plain_json : Json := {|
  jval := string; jstr := id; jsprint := id; json_string := Some;
  json_object := fun s => Some (Some {["content" := s]});
  json_field := fun _ s => Some s;
  json_marshal := fun m => Some (join (List.concat ((fun p => [p.1; p.2]) <$> map_to_list (default ∅ m))) ",") |}.

Definition dquote : string := String (byte_of 34) "".

Section payload.
Context `{J : Json} `{U : Unicode}.

Definition enclosed (s a b : string) : bool := has_prefix s a && has_suffix s b.
Definition looks_structured (s : string) : bool := enclosed s "{" "}" || enclosed s "[" "]".
Definition has_keys (s : string) : bool := has_prefix s "{" || contains_str s (dquote +:+ ":").

Definition marshal_or_nil (m : gmap string jval) : string := default "" (json_marshal (Some m)).
Definition wrap_plain (s : string) : string :=
  marshal_or_nil (<["url" := jstr s]> (<["path" := jstr s]> (<["command" := jstr s]> {["input" := jstr s]}))).

Definition NormalizeToolInput (input : string) : string :=
  let trimmed := trim_space input in
  if bool_decide (trimmed = "") || bool_decide (trimmed = dquote +:+ dquote) || bool_decide (trimmed = "{}") then "{}"
  else
    let plain :=
      if looks_structured trimmed then input
      else if has_keys trimmed then trimmed
      else wrap_plain trimmed in
    if enclosed trimmed dquote dquote then
      match json_string trimmed with
      | Some unescaped =>
        let u := trim_space unescaped in
        if looks_structured u then u
        else if has_prefix u "http://" || has_prefix u "https://" then marshal_or_nil {["url" := jstr u]}
        else if has_keys u then u
        else wrap_plain u
      | None => plain
      end
    else plain.

(** ** The screen of shell commands *)

Definition lower_az : re := RCls (in_range 97 122).
Definition lower_az_dash : re := RCls (fun r => in_range 97 122 r || (r =? 45)).
Definition cmd_sep (l : list Z) : re := RCls (fun r => bool_decide (r ∈ ([9; 10; 12; 13; 32] ++ l))).

Definition some_flags : re :=
  RStar (rs [alts [rs [lit "-"; rplus lower_az]; rs [lit "--"; rplus lower_az_dash]]; rplus re_space]).

(** The whole-string form of [recursiveRemoveRootRe]: its two anchors are the
    empty alternatives at the two ends. *)
Definition recursiveRemoveRootRe : re :=
  rs [RAlt REps (rs [any; cmd_sep [59; 38; 124; 40]]);
      lit "rm"; rplus re_space;
      some_flags;
      alts [rs [lit "-"; RStar lower_az; lit "r"; RStar lower_az]; lit "--recursive"]; rplus re_space;
      some_flags;
      alts [rs [lit "/"; ropt (lit "*")]; rs [lit "~"; ropt (lit "/")];
            rs [lit "$home"; ropt (lit "/")]; rs [lit "${home}"; ropt (lit "/")]];
      RAlt REps (rs [cmd_sep [59; 38; 124; 41]; any])].

Definition forbiddenCommandPatterns : list string :=
  [":(){ :|:& };:"; "mkfs"; "dd if=/dev/zero"; "> /dev/sda"; "> /dev/nvme"; "chmod -r 777 /";
   "chown -r root /"; "format c:"; "clear-disk"; "remove-item -recurse c:\"; "remove-item -recurse d:\"].

Inductive command_error := CommandUndecodable | CommandRequired | RemovesRoot | MatchedPattern (pattern : string).

Definition screen (command : string) : result command_error unit :=
  if bool_decide (command = "") then Err CommandRequired
  else if match_runes recursiveRemoveRootRe (runes command) then Err RemovesRoot
  else match first_some (fun p => if contains_str command p then Some p else None) forbiddenCommandPatterns with
       | Some p => Err (MatchedPattern p)
       | None => Ok tt
       end.

Definition validateCommandToolInput (input : string) : result command_error unit :=
  match json_field "command" input with
  | None => Err CommandUndecodable
  | Some command => screen (to_lower (join (fields command) " "))
  end.

(** ** Paths an agent may touch *)

Inductive path_error := PathUndecodable | PathOutside (path : string).

Definition validateAllowedPath (allowedPaths : list string) (input : string) : result path_error unit :=
  if existsb (fun a => bool_decide (a = "*")) allowedPaths then Ok tt
  else match json_field "path" input with
  | None => Err PathUndecodable
  | Some path =>
    let requested := Clean path in
    if existsb (fun a => match Rel (Clean a) requested with
                         | Some rel => negb (bool_decide (rel = "..")) && negb (has_prefix rel "../")
                         | None => false end) allowedPaths
    then Ok tt else Err (PathOutside path)
  end.

(** ** What events show *)

Definition toolInputForEvent (name input : string) : string :=
  if negb (bool_decide (name = "native_file_write")) && negb (bool_decide (name = "native_workspace_write"))
  then input
  else
    let redacted := "{" +:+ dquote +:+ "content" +:+ dquote +:+ ":" +:+ dquote +:+ "[redacted]" +:+ dquote +:+ "}" in
    match json_object input with
    | None => redacted
    | Some payload =>
      let redact (m : gmap string jval) key :=
        match m !! key with
        | Some v => <[key := jstr ("[redacted:" +:+ pretty (len (jsprint v)) +:+ " chars]")]> m
        | None => m
        end in
      default redacted (json_marshal ((fun m => fold_left redact ["content"; "content_base64"] m) <$> payload))
    end.

End payload.

(** ** Tools, gates and the registry *)

Inductive datum := DStr (s : string) | DStrs (l : list string) | DOther.
Record ToolResult := mkToolResult { Content : string; Data : option (gmap string datum); TError : string }.

(** A skill: its switch, what the last check found missing, what a check of
    the host finds missing now. *)
Record SkillTool := mkSkill { skill_enabled : bool; skill_missing : list string; host_missing : list string; skill_folder : string }.

Record Tool := mkTool {
  TName : string; TDescription : string; TCategory : string; TSchema : string;
  TSkill : option SkillTool;
  TExecute : ctx -> string -> result string (option ToolResult) }.

Definition set_skill (s : SkillTool) (t : Tool) : Tool :=
  mkTool (TName t) (TDescription t) (TCategory t) (TSchema t) (Some s) (TExecute t).

Definition GateAllow : string := "allow".
Definition GateRequireApproval : string := "needs_approval".
Definition GateDeny : string := "deny".
Record GateDecision := mkGateDecision { GAction : string; GReason : string }.
Definition ToolGate : Type := ctx -> string -> string -> string -> result string GateDecision.

(** What a call leaves behind: bus events, audit lines, the run of the tool
    itself, and notifications of changed files. *)
Inductive tool_event :=
  | EStarted (agent tool shown : string)
  | EApprovalRequired (agent : string) (a : ApprovalRequest)
  | EError (agent tool err : string) (ms : Z)
  | EResult (agent tool shown : string) (ms : Z)
  | Audit (trace agent tool risk status msg : string) (ms : Z)
  | Ran (tool : string) (c : ctx) (input : string)
  | FileMutated (path agent : string) (deleted : bool)
  | WorkspaceMutated (file agent : string) (deleted : bool).

Record ToolRegistry := mkRegistry {
  tools : gmap string Tool;
  reg_bus : bool; auditLogger : bool;
  policyResolver : option (ctx -> string -> result string AgentToolPolicy);
  manager : option ApprovalManager;
  fileMutations : bool; workspaceMutations : bool;
  gates : gmap string ToolGate; gateRequired : gset string;
  events : list tool_event }.

Definition NewToolRegistry (bus : bool) : ToolRegistry :=
  mkRegistry ∅ bus false None None false false ∅ ∅ [].

Definition set_tools (t : gmap string Tool) (r : ToolRegistry) : ToolRegistry :=
  mkRegistry t (reg_bus r) (auditLogger r) (policyResolver r) (manager r)
    (fileMutations r) (workspaceMutations r) (gates r) (gateRequired r) (events r).
Definition set_gates (g : gmap string ToolGate) (q : gset string) (r : ToolRegistry) : ToolRegistry :=
  mkRegistry (tools r) (reg_bus r) (auditLogger r) (policyResolver r) (manager r)
    (fileMutations r) (workspaceMutations r) g q (events r).
Definition set_manager (m : option ApprovalManager) (r : ToolRegistry) : ToolRegistry :=
  mkRegistry (tools r) (reg_bus r) (auditLogger r) (policyResolver r) m
    (fileMutations r) (workspaceMutations r) (gates r) (gateRequired r) (events r).
Definition SetPolicyResolver (p : ctx -> string -> result string AgentToolPolicy) (r : ToolRegistry) : ToolRegistry :=
  mkRegistry (tools r) (reg_bus r) (auditLogger r) (Some p) (manager r)
    (fileMutations r) (workspaceMutations r) (gates r) (gateRequired r) (events r).
Definition SetApprovalManager (m : ApprovalManager) (r : ToolRegistry) : ToolRegistry := set_manager (Some m) r.
Definition SetAuditLogger (r : ToolRegistry) : ToolRegistry :=
  mkRegistry (tools r) (reg_bus r) true (policyResolver r) (manager r)
    (fileMutations r) (workspaceMutations r) (gates r) (gateRequired r) (events r).
Definition SetFileMutationSink (r : ToolRegistry) : ToolRegistry :=
  mkRegistry (tools r) (reg_bus r) (auditLogger r) (policyResolver r) (manager r)
    true (workspaceMutations r) (gates r) (gateRequired r) (events r).
Definition SetWorkspaceMutationSink (r : ToolRegistry) : ToolRegistry :=
  mkRegistry (tools r) (reg_bus r) (auditLogger r) (policyResolver r) (manager r)
    (fileMutations r) true (gates r) (gateRequired r) (events r).
Definition add_events (l : list tool_event) (r : ToolRegistry) : ToolRegistry :=
  mkRegistry (tools r) (reg_bus r) (auditLogger r) (policyResolver r) (manager r)
    (fileMutations r) (workspaceMutations r) (gates r) (gateRequired r) (events r ++ l).

Inductive gate_denial :=
  | NoGate (name : string) | GateFailed (name err : string) | GateSaid (reason : string) | UnknownAction (action : string).

(** [gateErr.Error()]; an unknown action is printed quoted. *)
Definition denial_text (d : gate_denial) : string :=
  "tool call denied by gate: " +:+
  match d with
  | NoGate name => name +:+ " has no gate registered"
  | GateFailed name err => "gate failed for " +:+ name +:+ ": " +:+ err
  | GateSaid reason => reason
  | UnknownAction action => "unknown gate action " +:+ dquote +:+ action +:+ dquote
  end.

Inductive exec_error :=
  | ErrToolDeniedInContext | ErrToolNotFound (name : string) | ErrToolAlreadyExists (name : string)
  | NotASkill (name : string) | MarkerFailed | SkillDisabled | SkillUnmet (missing : list string)
  | VerifyingCommand (e : command_error) | ResolvingPolicy (e : string)
  | ErrToolUnauthorized (why : option path_error) | ErrToolDeniedByGate (why : gate_denial)
  | CheckingGrant (e : approval_error) | RequestingApproval (e : approval_error)
  | ErrApprovalRequired (a : ApprovalRequest) | ManagerUnavailable | ValidatingApproval (e : approval_error)
  | ErrExecutionFailed (e : string).

Abbreviation rop := (io ToolRegistry exec_error).

(** ** The table of tools *)

Definition Register (t : Tool) (r : ToolRegistry) : result exec_error ToolRegistry :=
  if bool_decide (is_Some (tools r !! TName t)) then Err (ErrToolAlreadyExists (TName t))
  else Ok (set_tools (<[TName t := t]> (tools r)) r).

Definition RegisterOrReplace (t : Tool) (r : ToolRegistry) : ToolRegistry :=
  set_tools (<[TName t := t]> (tools r)) r.
Definition Unregister (name : string) (r : ToolRegistry) : ToolRegistry :=
  set_tools (delete name (tools r)) r.

Definition RegisterGate (gate : option ToolGate) (toolNames : list string) (r : ToolRegistry) : ToolRegistry :=
  set_gates (fold_left (fun g n => match gate with Some f => <[n := f]> g | None => delete n g end) toolNames (gates r))
    (gateRequired r) r.
Definition RequireGate (toolNames : list string) (r : ToolRegistry) : ToolRegistry :=
  set_gates (gates r) (gateRequired r ∪ list_to_set toolNames) r.

Section registry.
Context `{U : Unicode} `{P : Platform} `{J : Json}.

Definition GetTool (name : string) (r : ToolRegistry) : result exec_error Tool :=
  match tools r !! NormalizeToolName name with
  | Some t => Ok t
  | None => match tools r !! name with Some t => Ok t | None => Err (ErrToolNotFound name) end
  end.

Definition SetToolEnabled (name : string) (enabled : bool) (marker_ok : bool) (r : ToolRegistry) : result exec_error ToolRegistry :=
  match tools r !! name with
  | None => Err (ErrToolNotFound name)
  | Some t =>
    match TSkill t with
    | None => Err (NotASkill name)
    | Some s =>
      if negb enabled && negb marker_ok then Err MarkerFailed
      else Ok (set_tools (<[name := set_skill (mkSkill enabled (skill_missing s) (host_missing s) (skill_folder s)) t]> (tools r)) r)
    end
  end.

Definition skill_ready (t : Tool) : bool :=
  match TSkill t with Some s => skill_enabled s && bool_decide (skill_missing s = []) | None => true end.

(** The tools shown to the model, in no particular order. *)
Definition ToLLMToolDefinitions (authorizedTools excludedTools : list string) (r : ToolRegistry) : list (string * string * string) :=
  let allowAll := existsb (fun a => bool_decide (a = "*")) authorizedTools in
  (fun p => (TName p.2, TDescription p.2, TSchema p.2)) <$>
    filter (fun p => skill_ready p.2 && (allowAll || bool_decide (p.1 ∈ authorizedTools))
                     && negb (bool_decide (p.1 ∈ excludedTools)) = true) (map_to_list (tools r)).

Definition ListByCategory (category : string) (r : ToolRegistry) : list Tool :=
  filter (fun t => TCategory t = category) (snd <$> map_to_list (tools r)).

Definition catalog_le (a b : string * string * string) : Prop := String.leb a.1.1 b.1.1 = true.
#[local] Instance catalog_le_dec a b : Decision (catalog_le a b). Proof. unfold catalog_le. apply _. Defined.

Definition EnabledSkillCatalog (authorizedTools : list string) (r : ToolRegistry) : list (string * string * string) :=
  let allowAll := existsb (fun a => bool_decide (a = "*")) authorizedTools in
  merge_sort catalog_le
    (omap (fun t =>
       match TSkill t with
       | Some s =>
         if negb (skill_enabled s && bool_decide (skill_missing s = [])) then None
         else if negb allowAll && (negb (bool_decide (TName t ∈ authorizedTools)) || bool_decide (TName t = "")) then None
         else Some (TName t, trim_space (TDescription t),
                    if bool_decide (skill_folder s = "") then ""
                    else Join ["skills"; Base (skill_folder s); "SKILL.md"])
       | None => None
       end) (snd <$> map_to_list (tools r))).

(** ** Gates *)

Definition evaluateGate (c : ctx) (agentID name input : string) (r : ToolRegistry) : result gate_denial bool :=
  match gates r !! name with
  | None => if bool_decide (name ∈ gateRequired r) || IsExternalEffectTool name then Err (NoGate name) else Ok false
  | Some check =>
    match check c agentID name input with
    | Err e => Err (GateFailed name e)
    | Ok d =>
      if bool_decide (GAction d = GateAllow) then Ok false
      else if bool_decide (GAction d = GateRequireApproval) then Ok true
      else if bool_decide (GAction d = GateDeny) then Err (GateSaid (GReason d))
      else Err (UnknownAction (GAction d))
    end
  end.

(** ** Executing a tool *)

Definition emit (l : list tool_event) : rop unit := modify (add_events l).
Definition audit (trace agent tool risk status msg : string) (ms : Z) : rop unit :=
  r ← get; if auditLogger r then emit [Audit trace agent tool risk status msg ms] else mret tt.
Definition publish (ev : tool_event) : rop unit := r ← get; if reg_bus r then emit [ev] else mret tt.

(** An operation of the approval manager; a nil manager has no store. *)
Definition on_manager {A} (f : approval_error -> exec_error) (m : op A) : rop A := fun r e =>
  match manager r with
  | None => (Err (f StoreUnavailable), (r, e))
  | Some am =>
    match m am e with
    | (Ok a, (am', e')) => (Ok a, (set_manager (Some am') r, e'))
    | (Err x, (am', e')) => (Err (f x), (set_manager (Some am') r, e'))
    end
  end.

Definition check_skill (t : Tool) : rop unit :=
  match TSkill t with
  | None => mret tt
  | Some s =>
    if negb (skill_enabled s) then throw SkillDisabled
    else
      _ ← modify (fun r => set_tools (<[TName t := set_skill (mkSkill (skill_enabled s) (host_missing s) (host_missing s) (skill_folder s)) t]> (tools r)) r);
      if bool_decide (host_missing s = []) then mret tt else throw (SkillUnmet (host_missing s))
  end.

Definition resolve_policy (c : ctx) (agentID name input : string) : rop (option AgentToolPolicy) :=
  r ← get;
  match policyResolver r with
  | None => mret None
  | Some resolver =>
    match resolver c agentID with
    | Err e => throw (ResolvingPolicy e)
    | Ok policy =>
      if negb (toolAllowed (AuthorizedTools policy) name) then throw (ErrToolUnauthorized None)
      else if has_prefix name "native_file_" then
        match validateAllowedPath (AllowedPaths policy) input with
        | Err e => throw (ErrToolUnauthorized (Some e))
        | Ok _ => mret (Some policy)
        end
      else mret (Some policy)
    end
  end.

Definition pass_gate (c : ctx) (agentID name input : string) : rop bool :=
  r ← get;
  match evaluateGate c agentID name input r with
  | Err why =>
    _ ← audit (TraceIDFromContext c) agentID name (ToolRiskLevel name) "Denied" (denial_text why) 0;
    throw (ErrToolDeniedByGate why)
  | Ok force => mret force
  end.

(** A standing grant, looked up only when the gate does not force approval. *)
Definition find_grant (c : ctx) (traceID agentID name risk : string) (force : bool) : rop bool :=
  r ← get;
  if negb force && bool_decide (is_Some (manager r)) && GrantEligibleTool name then
    grant ← on_manager CheckingGrant (ActiveGrant agentID name (TaskIDFromContext c));
    match grant with
    | Some g => _ ← audit traceID agentID name risk "Granted" (GID g) 0; mret true
    | None => mret false
    end
  else mret false.

Definition require_exact (c : ctx) (traceID agentID name risk input : string) : rop unit :=
  if bool_decide (ApprovalIDFromContext c = "") then
    request ← on_manager RequestingApproval
      (Request (TaskIDFromContext c) (ExecutionSourceFromContext c) traceID agentID name risk input);
    _ ← audit traceID agentID name risk "Blocked" "human approval required" 0;
    _ ← (if created request then publish (EApprovalRequired agentID request) else mret tt);
    throw (ErrApprovalRequired request)
  else
    r ← get;
    if bool_decide (manager r = None) then throw ManagerUnavailable
    else on_manager ValidatingApproval (ValidateApproved (ApprovalIDFromContext c) agentID name input).

Definition toolResultForEvent (name : string) (res : option ToolResult) : string :=
  match res with
  | None => ""
  | Some r => if one_of name ["native_file_read"; "native_workspace_read"; "native_workspace_search"]
              then "[workspace content omitted]" else Content r
  end.

Definition notify_files (agentID name : string) (d : gmap string datum) : rop unit :=
  r ← get;
  if one_of name ["native_file_write"; "native_file_delete"] && fileMutations r then
    match d !! "absolute_path" with
    | Some (DStr p) => if bool_decide (p = "") then mret tt
                       else emit [FileMutated p agentID (bool_decide (name = "native_file_delete"))]
    | _ => mret tt
    end
  else mret tt.

Definition notify_workspace (agentID name : string) (d : gmap string datum) : rop unit :=
  r ← get;
  if one_of name ["native_workspace_write"; "native_workspace_delete"; "native_exec"] && workspaceMutations r then
    _ ← (match d !! "workspace_file_id" with
         | Some (DStr f) => if bool_decide (f = "") then mret tt
                            else emit [WorkspaceMutated f agentID (bool_decide (name = "native_workspace_delete"))]
         | _ => mret tt
         end);
    match d !! "workspace_file_ids" with
    | Some (DStrs ids) =>
      for_each (fun f => if bool_decide (f = "") then mret tt else emit [WorkspaceMutated f agentID false]) ids
    | _ => mret tt
    end
  else mret tt.

(** [tool.Execute] and what is reported of it. *)
Definition run_tool (c : ctx) (t : Tool) (traceID agentID name risk input : string) : rop (option ToolResult) :=
  t0 ← now;
  _ ← emit [Ran (TName t) c input];
  t1 ← now;
  let ms := Z.quot (time_sub t1 t0) millisecond in
  match TExecute t c input with
  | Err e =>
    _ ← audit traceID agentID name risk "Failed" e ms;
    _ ← publish (EError agentID name e ms);
    throw (ErrExecutionFailed e)
  | Ok res =>
    _ ← audit traceID agentID name risk "Success" "" ms;
    _ ← publish (EResult agentID name (toolResultForEvent name res) ms);
    match res with
    | Some r =>
      match Data r with
      | Some d => _ ← notify_files agentID name d; _ ← notify_workspace agentID name d; mret res
      | None => mret res
      end
    | None => mret res
    end
  end.

Definition Execute (c : ctx) (agentID name input : string) : rop (option ToolResult) :=
  let c := if negb (bool_decide (agentID = "")) && bool_decide (AgentIDFromContext c = "")
           then WithAgentID c agentID else c in
  if IsToolDenied c name then throw ErrToolDeniedInContext
  else if negb (IsToolAllowedInContext c name) then throw ErrToolDeniedInContext
  else
    t ← gets (GetTool name) ≫= lift;
    _ ← check_skill t;
    let input := NormalizeToolInput input in
    _ ← (if bool_decide (name = "native_exec") then
           lift (match validateCommandToolInput input with Ok _ => Ok tt | Err e => Err (VerifyingCommand e) end)
         else mret tt);
    policy ← resolve_policy c agentID name input;
    force ← pass_gate c agentID name input;
    _ ← publish (EStarted agentID name (toolInputForEvent name input));
    let risk := ToolRiskLevel name in
    tr ← (if bool_decide (TraceIDFromContext c = "") then (n ← draw; mret (trace_string n))
          else mret (TraceIDFromContext c));
    let c := if bool_decide (TraceIDFromContext c = "") then WithTraceID c tr else c in
    let threshold := match policy with
                     | Some p => approvalRequired (ApprovalThreshold p) risk && negb (IsApprovalBypassed c)
                     | None => false
                     end in
    _ ← (if force || threshold then
           granted ← find_grant c tr agentID name risk force;
           if (granted : bool) then mret tt else require_exact c tr agentID name risk input
         else mret tt);
    run_tool c t tr agentID name risk input.

End registry.
