(* ===== verification/RegistrySpec.v ===== *)
(** * What the tool registry promises

    A tool runs only after every check of the call has passed; contexts only
    narrow; file tools stay inside the agent's paths; events of file writes
    do not carry the file's contents. *)

From S2P Require Import Prelude GoStrings Regex GoPath Io Tables Risk Approval ApprovalSpec Registry.

#[local] Open Scope Z_scope.

Definition is_run (ev : tool_event) : bool := match ev with Ran _ _ _ => true | _ => false end.
Definition runs (r : ToolRegistry) : list tool_event := filter (fun ev => is_run ev = true) (events r).

Section spec.
Context `{U : Unicode} `{P : Platform} `{J : Json}.

(** Two registries between which no tool ran, no rule of access changed and no
    approval was decided. *)
Record quiet (r r' : ToolRegistry) : Prop := {
  q_runs : runs r' = runs r;
  q_resolver : policyResolver r' = policyResolver r;
  q_gates : gates r' = gates r;
  q_required : gateRequired r' = gateRequired r;
  q_rows : approvals <$> manager r' = approvals <$> manager r
}.

#[local] Instance quiet_preorder : PreOrder quiet.
Proof.
  split; [by intros r|]. intros r1 r2 r3 [] []. split; congruence.
Qed.

Lemma runs_emit l r : Forall (fun ev => is_run ev = false) l -> runs (add_events l r) = runs r.
Proof.
  intros Hl. unfold runs. cbn. rewrite filter_app. rewrite (filter_none _ l), app_nil_r; [done|].
  intros ev Hev. rewrite Forall_forall in Hl. by rewrite (Hl ev Hev).
Qed.

Lemma quiet_emit l r : Forall (fun ev => is_run ev = false) l -> quiet r (add_events l r).
Proof. intros Hl. split; try done. by apply runs_emit. Qed.

Lemma audit_wp tr a t k s msg ms (Q : result exec_error unit -> ToolRegistry -> env -> Prop) r e :
  (forall r', quiet r r' -> manager r' = manager r -> Q (Ok tt) r' e) -> wp (audit tr a t k s msg ms) Q r e.
Proof.
  intros H. unfold audit. apply wp_bind, wp_get. destruct (auditLogger r).
  - apply wp_modify, H; [|done]. apply quiet_emit. by constructor.
  - apply wp_ret, H; done.
Qed.

Lemma publish_wp ev (Q : result exec_error unit -> ToolRegistry -> env -> Prop) r e :
  is_run ev = false ->
  (forall r', quiet r r' -> manager r' = manager r -> Q (Ok tt) r' e) -> wp (publish ev) Q r e.
Proof.
  intros Hev H. unfold publish. apply wp_bind, wp_get. destruct (reg_bus r).
  - apply wp_modify, H; [|done]. apply quiet_emit. by constructor.
  - apply wp_ret, H; done.
Qed.

Lemma on_manager_wp {A} f (m : op A) (Q : result exec_error A -> ToolRegistry -> env -> Prop) r e :
  (manager r = None -> Q (Err (f StoreUnavailable)) r e) ->
  (forall am, manager r = Some am ->
     wp m (fun x am' e' => Q (match x with Ok a => Ok a | Err x => Err (f x) end) (set_manager (Some am') r) e') am e) ->
  wp (on_manager f m) Q r e.
Proof.
  intros HN HS. unfold wp, on_manager. destruct (manager r) as [am|] eqn:Hm; [|by apply HN].
  specialize (HS am eq_refl). unfold wp in HS. by destruct (m am e) as [[a|x] [am' e']].
Qed.

Lemma quiet_manager r am am' :
  manager r = Some am -> approvals am' = approvals am -> quiet r (set_manager (Some am') r).
Proof. intros Hm Ha. split; try done. cbn. by rewrite Hm; cbn; rewrite Ha. Qed.

(** ** The stages of [Execute] *)

Lemma check_skill_wp t (Q : result exec_error unit -> ToolRegistry -> env -> Prop) r e :
  (forall r', quiet r r' -> manager r' = manager r ->
     (forall x, Q (Err x) r' e) /\
     ((forall k, TSkill t = Some k -> skill_enabled k = true /\ host_missing k = []) -> Q (Ok tt) r' e)) ->
  wp (check_skill t) Q r e.
Proof.
  intros H. unfold check_skill. destruct (TSkill t) as [k|]; [|by apply wp_ret, H].
  destruct (skill_enabled k) eqn:Hen; cbn [negb]; [|by apply wp_throw, H].
  apply wp_bind, wp_modify. case_bool_decide as Hmiss.
  - apply wp_ret, H; [done|done|]. by intros ? [= <-].
  - by apply wp_throw, H.
Qed.

Lemma resolve_policy_wp c a n i (Q : result exec_error (option AgentToolPolicy) -> ToolRegistry -> env -> Prop) r e :
  (forall x, Q (Err x) r e) ->
  (policyResolver r = None -> Q (Ok None) r e) ->
  (forall f p, policyResolver r = Some f -> f c a = Ok p -> toolAllowed (AuthorizedTools p) n = true ->
     (has_prefix n "native_file_" = true -> validateAllowedPath (AllowedPaths p) i = Ok tt) -> Q (Ok (Some p)) r e) ->
  wp (resolve_policy c a n i) Q r e.
Proof.
  intros HE HN HS. unfold resolve_policy. apply wp_bind, wp_get.
  destruct (policyResolver r) as [f|]; [|by apply wp_ret, HN].
  destruct (f c a) as [p|x] eqn:Hp; [|by apply wp_throw].
  destruct (toolAllowed _ _) eqn:Hal; cbn [negb]; [|by apply wp_throw].
  destruct (has_prefix n _) eqn:Hpre; [|by apply wp_ret, (HS f p)].
  destruct (validateAllowedPath _ _) as [[]|] eqn:Hv; [|by apply wp_throw]. by apply wp_ret, (HS f p).
Qed.

Lemma pass_gate_wp c a n i (Q : result exec_error bool -> ToolRegistry -> env -> Prop) r e :
  (forall why r', evaluateGate c a n i r = Err why -> quiet r r' -> Q (Err (ErrToolDeniedByGate why)) r' e) ->
  (forall force, evaluateGate c a n i r = Ok force -> Q (Ok force) r e) ->
  wp (pass_gate c a n i) Q r e.
Proof.
  intros HE HS. unfold pass_gate. apply wp_bind, wp_get.
  destruct (evaluateGate c a n i r) as [force|why]; [by apply wp_ret, HS|].
  apply wp_bind, audit_wp. intros r' Hq _. by apply wp_throw, HE.
Qed.

(** A live grant for this call, found in the manager. *)
Definition granted (am : ApprovalManager) (agent tool task : string) (t : Z) : Prop :=
  exists g, g ∈ grants am /\
    (grant_for agent tool DontAskToday t g = true \/
     grant_for agent tool DontAskTask t g = true /\ GTaskID g = task /\ task <> "").

Lemma find_grant_wp c tr a n k force r e :
  wp (find_grant c tr a n k force)
    (fun x r' e' => quiet r r' /\ env_le e e' /\ (x = Ok true -> force = false /\ GrantEligibleTool n = true /\
       exists am t, manager r = Some am /\ clock e <= t <= clock e' /\ granted am a n (TaskIDFromContext c) t)) r e.
Proof.
  unfold find_grant. apply wp_bind, wp_get. destruct (_ && _ && _) eqn:Hc; [|by apply wp_ret].
  rewrite !andb_true_iff, negb_true_iff in Hc. destruct Hc as [[-> _] Hel].
  apply wp_bind, on_manager_wp; [by intros _|]. intros am Hm.
  eapply wp_mono; [apply ActiveGrant_wp|]. cbn. intros [[g|]|x] am' e' (Ham & Hle & Hg).
  - apply wp_bind, audit_wp. intros r' Hq _. apply wp_ret. split_and!; [|done|].
    + etransitivity; [by eapply quiet_manager|done].
    + intros _. split_and!; [done|done|]. destruct (Hg g eq_refl) as (? & ? & ?).
      exists am, (clock e'). split_and!; [done|done|done|]. by exists g.
  - apply wp_ret. split_and!; try done. by eapply quiet_manager.
  - split_and!; try done. by eapply quiet_manager.
Qed.

(** The exact approval a call carries. *)
Definition approved_exactly (r : ToolRegistry) (id agent tool input : string) (t : Z) : Prop :=
  exists am a, manager r = Some am /\ find_approval id (approvals am) = Some a /\
    Status a = "approved" /\ t <= ExpiresAt a /\ AHash a = ActionHash agent tool input.

Lemma require_exact_wp c tr a n k i r e :
  wp (require_exact c tr a n k i)
    (fun x r' e' => runs r' = runs r /\ env_le e e' /\
       (x = Ok tt -> quiet r r' /\ exists t, clock e <= t <= clock e' /\
          approved_exactly r (ApprovalIDFromContext c) a n i t)) r e.
Proof.
  unfold require_exact. case_bool_decide as Hid.
  - apply wp_bind, on_manager_wp; [by intros _|]. intros am Hm.
    eapply wp_mono; [apply Request_wp|]. cbn. intros [req|x] am' e' (Hle & _); [|done].
    apply wp_bind, audit_wp. intros r1 Hq1 _. apply wp_bind.
    assert (Hend : forall r2, quiet r1 r2 -> runs r2 = runs r).
    { intros r2 [Hr2 _ _ _ _]. destruct Hq1 as [Hr1 _ _ _ _]. by rewrite Hr2, Hr1. }
    destruct (created req).
    + apply publish_wp; [done|]. intros r2 Hq2 _. apply wp_throw. split_and!; [by apply Hend|done|done].
    + apply wp_ret, wp_throw. split_and!; [by apply Hend|done|done].
  - apply wp_bind, wp_get. case_bool_decide as Hn; [by apply wp_throw|].
    apply on_manager_wp; [by intros _|]. intros am Hm.
    eapply wp_mono; [apply ValidateApproved_wp|]. cbn. intros x am' e' (-> & Hle & Hok).
    split_and!; [done|done|]. intros Hx. split; [by eapply quiet_manager|].
    destruct x as [[]|]; [|done]. destruct (Hok eq_refl) as (a' & Hf & Hs & He & Hh).
    exists (clock e'). split; [unfold env_le in *; lia|]. exists am, a'. done.
Qed.

Lemma notify_wp a n d r e (Q : result exec_error unit -> ToolRegistry -> env -> Prop) :
  (forall r', runs r' = runs r -> Q (Ok tt) r' e) ->
  wp (_ ← notify_files a n d; notify_workspace a n d) Q r e.
Proof.
  intros H.
  assert (Hemit : forall ev r, is_run ev = false -> runs (add_events [ev] r) = runs r).
  { intros ev r0 Hev. apply runs_emit. by constructor. }
  apply wp_bind. eapply (wp_mono _ (fun x r' e' => x = Ok tt /\ e' = e /\ runs r' = runs r)).
  { unfold notify_files, emit. apply wp_bind, wp_get. destruct (_ && _); [|by apply wp_ret].
    destruct (d !! _) as [[p| |]|]; try by apply wp_ret.
    case_bool_decide; [by apply wp_ret|]. apply wp_modify. split_and!; try done. by apply Hemit. }
  intros x r1 e1 (-> & -> & Hr1).
  eapply (wp_mono _ (fun x r' e' => x = Ok tt /\ e' = e /\ runs r' = runs r)); [|by intros ? ? ? (-> & -> & ?); apply H].
  unfold notify_workspace, emit. apply wp_bind, wp_get. destruct (_ && _); [|by apply wp_ret].
  assert (Hids : forall ids r2, runs r2 = runs r ->
    wp (for_each (fun f => if bool_decide (f = "") then mret tt else modify (add_events [WorkspaceMutated f a false])) ids : rop unit)
      (fun x r' e' => x = Ok tt /\ e' = e /\ runs r' = runs r) r2 e).
  { induction ids as [|f ids IH]; intros r2 Hr2; [done|]. apply wp_bind.
    case_bool_decide; [by apply wp_ret, IH|]. apply wp_modify, IH. by rewrite Hemit. }
  assert (Hfin : forall r2, runs r2 = runs r ->
    wp (match d !! "workspace_file_ids" with
        | Some (DStrs ids) => for_each (fun f => if bool_decide (f = "") then mret tt else modify (add_events [WorkspaceMutated f a false])) ids
        | _ => mret tt end : rop unit)
      (fun x r' e' => x = Ok tt /\ e' = e /\ runs r' = runs r) r2 e).
  { intros r2 Hr2. destruct (d !! _) as [[| |]|]; try by apply wp_ret. by apply Hids. }
  apply wp_bind. destruct (d !! "workspace_file_id") as [[f| |]|]; try by apply wp_ret, Hfin.
  case_bool_decide; [by apply wp_ret, Hfin|]. apply wp_modify, Hfin. by rewrite Hemit.
Qed.

Lemma run_tool_wp c t tr a n k i r e :
  wp (run_tool c t tr a n k i) (fun _ r' e' => runs r' = runs r ++ [Ran (TName t) c i]) r e.
Proof.
  unfold run_tool. apply wp_bind, wp_now. intros e1 _ _. apply wp_bind, wp_modify.
  set (r1 := add_events _ r).
  assert (Hr1 : runs r1 = runs r ++ [Ran (TName t) c i]) by (unfold runs, r1; cbn; by rewrite filter_app).
  clearbody r1. rewrite <- Hr1.
  apply wp_bind, wp_now. intros e2 _ _. cbv zeta. destruct (TExecute t c i) as [res|x].
  - apply wp_bind, audit_wp. intros r2 [Hr2 _ _ _ _] _. apply wp_bind, publish_wp; [done|].
    intros r3 [Hr3 _ _ _ _] _. rewrite <- Hr2, <- Hr3.
    destruct res as [[ct [d|] er]|]; try by apply wp_ret. cbn [Data].
    assert (Hn := notify_wp a n d r3 e2 (fun x r' e' => x = Ok tt /\ runs r' = runs r3)).
    specialize (Hn ltac:(done)). unfold wp in Hn |- *. unfold mbind, io_bind in *.
    destruct (notify_files a n d r3 e2) as [[u|x] [r4 e4]]; [|by destruct Hn].
    destruct (notify_workspace a n d r4 e4) as [[u'|x'] [r5 e5]]; [|by destruct Hn]. apply Hn.
  - apply wp_bind, audit_wp. intros r2 [Hr2 _ _ _ _] _. apply wp_bind, publish_wp; [done|].
    intros r3 [Hr3 _ _ _ _] _. apply wp_throw. by rewrite <- Hr2, <- Hr3.
Qed.

(** ** The checks a call has passed *)

Definition call_ctx (c : ctx) (agentID : string) : ctx :=
  if negb (bool_decide (agentID = "")) && bool_decide (AgentIDFromContext c = "") then WithAgentID c agentID else c.

(** The agent's policy asks for approval of this tool and the context does not
    waive it. *)
Definition threshold_asks (c : ctx) (agent name : string) (r : ToolRegistry) : Prop :=
  exists f p, policyResolver r = Some f /\ f c agent = Ok p /\
    approvalRequired (ApprovalThreshold p) (ToolRiskLevel name) = true /\ IsApprovalBypassed c = false.

Record cleared (c : ctx) (agent name input : string) (r : ToolRegistry) (t0 : Z) (t : Tool) : Prop := {
  cl_denied : IsToolDenied c name = false;
  cl_allowed : IsToolAllowedInContext c name = true;
  cl_tool : GetTool name r = Ok t;
  cl_skill : forall k, TSkill t = Some k -> skill_enabled k = true /\ host_missing k = [];
  cl_command : name = "native_exec" -> validateCommandToolInput input = Ok tt;
  cl_policy : forall f, policyResolver r = Some f -> exists p, f c agent = Ok p /\
    toolAllowed (AuthorizedTools p) name = true /\
    (has_prefix name "native_file_" = true -> validateAllowedPath (AllowedPaths p) input = Ok tt);
  cl_gate : exists force, evaluateGate c agent name input r = Ok force /\
    (force = true \/ threshold_asks c agent name r ->
       (exists t, t0 <= t /\ approved_exactly r (ApprovalIDFromContext c) agent name input t) \/
       (force = false /\ GrantEligibleTool name = true /\
        exists am t, manager r = Some am /\ t0 <= t /\ granted am agent name (TaskIDFromContext c) t))
}.

Lemma evaluateGate_quiet c a n i r r' : quiet r r' -> evaluateGate c a n i r' = evaluateGate c a n i r.
Proof. intros [_ _ Hg Hq _]. unfold evaluateGate. by rewrite Hg, Hq. Qed.

Lemma approved_exactly_quiet r r' id a n i t :
  quiet r r' -> approved_exactly r' id a n i t -> approved_exactly r id a n i t.
Proof.
  intros [_ _ _ _ Hrows] (am & x & Hm & Hx). rewrite Hm in Hrows. cbn in Hrows.
  destruct (manager r) as [am0|] eqn:Hm0; [|done]. cbn in Hrows. injection Hrows as Hrows.
  exists am0, x. by rewrite <- Hrows.
Qed.

(** The approval stage lets a call through only on an exact approval or a grant. *)
Lemma approval_stage_wp c tr a n k i force r e :
  wp (granted ← find_grant c tr a n k force;
      if (granted : bool) then mret tt else require_exact c tr a n k i)
    (fun x r' e' => runs r' = runs r /\ (x = Ok tt ->
       (exists t, clock e <= t /\ approved_exactly r (ApprovalIDFromContext c) a n i t) \/
       (force = false /\ GrantEligibleTool n = true /\
        exists am t, manager r = Some am /\ clock e <= t /\ granted am a n (TaskIDFromContext c) t))) r e.
Proof.
  apply wp_bind. eapply wp_mono; [apply find_grant_wp|]. cbn. intros [[|]|x] r1 e1 (Hq & Hle & Hg).
  - apply wp_ret. split; [by destruct Hq|]. intros _. right.
    destruct (Hg eq_refl) as (-> & Hel & am & t & Hm & Ht & Hgr). split_and!; try done.
    exists am, t. split_and!; try done. lia.
  - eapply wp_mono; [apply require_exact_wp|]. cbn. intros x r2 e2 (Hr2 & Hle2 & Hok). split.
    + rewrite Hr2. by destruct Hq.
    + intros Hx. left. destruct (Hok Hx) as (_ & t & Ht & Ha). exists t.
      split; [unfold env_le in *; lia|]. by eapply approved_exactly_quiet.
  - split; [by destruct Hq|done].
Qed.

Lemma Execute_wp c0 agent name input0 r e :
  let c := call_ctx c0 agent in
  let input := NormalizeToolInput input0 in
  wp (Execute c0 agent name input0)
    (fun _ r' _ => runs r' = runs r \/
       exists t c', runs r' = runs r ++ [Ran (TName t) c' input] /\ cleared c agent name input r (clock e) t) r e.
Proof.
  cbv zeta. unfold Execute. fold (call_ctx c0 agent). set (c := call_ctx c0 agent).
  set (input := NormalizeToolInput input0). cbv zeta.
  destruct (IsToolDenied c name) eqn:Hden; [by left|].
  destruct (IsToolAllowedInContext c name) eqn:Hall; cbn [negb]; [|by left].
  apply wp_bind, wp_bind, wp_gets, wp_lift. destruct (GetTool name r) as [t|x] eqn:Ht; [|by left].
  apply wp_bind, check_skill_wp. intros r1 Hq1 Hm1. split; [by intros x; left; destruct Hq1|]. intros Hskill.
  apply wp_bind.
  eapply (wp_mono _ (fun x r' e' => r' = r1 /\ e' = e /\
            (x = Ok tt -> name = "native_exec" -> validateCommandToolInput input = Ok tt))).
  { case_bool_decide; [|by apply wp_ret]. apply wp_lift. split_and!; try done.
    destruct (validateCommandToolInput input) as [[]|]; done. }
  intros [[]|x] r1' e1 (-> & -> & Hcmd); [|by left; destruct Hq1]. specialize (Hcmd eq_refl).
  apply wp_bind.
  eapply (wp_mono _ (fun x r' e' => r' = r1 /\ e' = e /\ forall po, x = Ok po ->
    match po with
    | None => policyResolver r = None
    | Some p => exists f, policyResolver r = Some f /\ f c agent = Ok p /\ toolAllowed (AuthorizedTools p) name = true /\
        (has_prefix name "native_file_" = true -> validateAllowedPath (AllowedPaths p) input = Ok tt)
    end)).
  { destruct Hq1 as [_ Hres _ _ _].
    apply resolve_policy_wp; [done| |].
    - intros Hn. split_and!; try done. intros po [= <-]. congruence.
    - intros f p Hf Hp Ha Hpath. split_and!; try done. intros po [= <-]. exists f. by rewrite <- Hres. }
  intros [po|x] r1' e1 (-> & -> & Hpo); [|by left; destruct Hq1]. specialize (Hpo po eq_refl).
  apply wp_bind, pass_gate_wp; [by intros why r2 _ [Hr2 _ _ _ _]; left; rewrite Hr2; destruct Hq1|].
  intros force Hgate. rewrite (evaluateGate_quiet _ _ _ _ _ _ Hq1) in Hgate.
  apply wp_bind, publish_wp; [done|]. intros r2 Hq2 Hm2. assert (Hq : quiet r r2) by (by transitivity r1).
  rewrite Hm1 in Hm2.
  apply wp_bind.
  eapply (wp_mono _ (fun x r' e' => r' = r2 /\ clock e' = clock e /\ is_ok x = true)).
  { case_bool_decide; wp_go; done. }
  intros [tr|x] r2' e2 (-> & He2 & Hokx); [|done].
  cbv beta iota. set (c1 := if bool_decide (TraceIDFromContext c = "") then WithTraceID c tr else c). cbv zeta.
  assert (Hc1 : IsApprovalBypassed c1 = IsApprovalBypassed c /\ ApprovalIDFromContext c1 = ApprovalIDFromContext c /\
                TaskIDFromContext c1 = TaskIDFromContext c).
  { unfold c1. by case_bool_decide. }
  destruct Hc1 as (Hby & Hid & Htask). clearbody c1.
  set (asks := match po with Some p => _ | None => false end).
  assert (Hasks : threshold_asks c agent name r -> asks = true).
  { intros (f & p & Hf & Hp & Hreq & Hb). unfold asks. destruct po as [p'|].
    - destruct Hpo as (f' & Hf' & Hp' & _). rewrite Hf in Hf'. injection Hf' as <-.
      rewrite Hp in Hp'. injection Hp' as <-. by rewrite Hreq, Hby, Hb.
    - congruence. }
  apply wp_bind.
  eapply (wp_mono _ (fun x r' e' => runs r' = runs r /\ (x = Ok tt -> force || asks = true ->
       (exists t, clock e <= t /\ approved_exactly r (ApprovalIDFromContext c) agent name input t) \/
       (force = false /\ GrantEligibleTool name = true /\
        exists am t, manager r = Some am /\ clock e <= t /\ granted am agent name (TaskIDFromContext c) t)))).
  { destruct (force || asks) eqn:Hfa; [|by apply wp_ret; destruct Hq].
    eapply wp_mono; [apply approval_stage_wp|]. cbn. rewrite He2, Hid, Htask. intros x r3 e3 (Hr3 & Hok).
    split; [rewrite Hr3; by destruct Hq|]. intros Hx _. destruct (Hok Hx) as [(t' & Ht' & Ha)|(Hf & Hel & am & t' & Hm & Hg)].
    - left. exists t'. split; [done|]. by eapply approved_exactly_quiet.
    - right. split_and!; try done. exists am, t'. by rewrite <- Hm2. }
  intros [[]|x] r3 e3 (Hr3 & Hok); [|by left]. specialize (Hok eq_refl).
  eapply wp_mono; [apply run_tool_wp|]. cbn. intros _ r4 e4 Hr4. right. exists t, c1.
  split; [by rewrite Hr4, Hr3|]. split; try done.
  - intros f Hf. destruct po as [p|]; [|congruence].
    destruct Hpo as (f' & Hf' & Hp & Ha & Hpath). exists p. split_and!; try done. congruence.
  - exists force. split; [done|]. intros H. apply Hok. rewrite orb_true_iff. destruct H as [->|H]; [by left|].
    right. by apply Hasks.
Qed.


(** ** Properties *)

(** C4. No unchecked tool call: whatever the registry, the context and the
    failures of the store, one Execute runs at most one tool, and when it runs
    one then: the name was not denied and was allowed in the context; the tool
    is the one found for the name, and a skill is enabled with nothing it needs
    missing from the host; the command of a native_exec passed the screen; the
    agent's policy (when there is one) lists the name and, for file tools, the
    path; the gate did not refuse; and when the gate forces approval or the
    policy's threshold asks for it, the call carried an approved, unexpired
    approval of exactly this agent, tool and input, or (only when the gate does
    not force) a live grant covers an eligible tool. The lists, the command
    screen, the policy and the gate are applied to the name as it was given,
    and the tool run is the one the registry finds for that name: for an alias
    these differ ([alias_skips_the_checks]). *)
Theorem Execute_cleared c0 agent name input0 r e res r' e' :
  Execute c0 agent name input0 r e = (res, (r', e')) -> runs r' <> runs r ->
  exists t c', runs r' = runs r ++ [Ran (TName t) c' (NormalizeToolInput input0)] /\
    cleared (call_ctx c0 agent) agent name (NormalizeToolInput input0) r (clock e) t.
Proof.
  intros Hrun Hne. pose proof (Execute_wp c0 agent name input0 r e) as Hw. cbv zeta in Hw.
  unfold wp in Hw. rewrite Hrun in Hw. by destruct Hw as [Hw|Hw].
Qed.

(** Tools with an effect outside the device never run ungated: such a name
    runs a tool only when a gate is registered for it and answered "allow", or
    answered "needs_approval" and the call carried an approved, unexpired
    approval of exactly this action; no bypass flag, policy or grant replaces it. *)
Theorem external_effect_gated c0 agent name input0 r e res r' e' :
  IsExternalEffectTool name = true ->
  Execute c0 agent name input0 r e = (res, (r', e')) -> runs r' <> runs r ->
  exists check d, gates r !! name = Some check /\
    check (call_ctx c0 agent) agent name (NormalizeToolInput input0) = Ok d /\
    (GAction d = GateAllow \/
     GAction d = GateRequireApproval /\ exists t, clock e <= t /\
       approved_exactly r (ApprovalIDFromContext c0) agent name (NormalizeToolInput input0) t).
Proof.
  intros Hext Hrun Hne. pose proof (Execute_wp c0 agent name input0 r e) as Hw. cbv zeta in Hw.
  unfold wp in Hw. rewrite Hrun in Hw. destruct Hw as [Hw|(t & c' & _ & Hcl)]; [done|].
  destruct (cl_gate _ _ _ _ _ _ _ Hcl) as (force & Hg & Hap). unfold evaluateGate in Hg.
  destruct (gates r !! name) as [check|]; [|by rewrite Hext, orb_true_r in Hg].
  destruct (check _ agent name _) as [d|x] eqn:Hd; [|done]. exists check, d. split_and!; [done|exact Hd|].
  case_bool_decide as Ha; [by left|]. case_bool_decide as Hr; [|by case_bool_decide]. injection Hg as <-.
  right. split; [done|]. destruct Hap as [(t' & Ht' & Hx)|(Hf & _)]; [by left| |done].
  exists t'. split; [done|]. replace (ApprovalIDFromContext c0) with (ApprovalIDFromContext (call_ctx c0 agent)); [done|].
  unfold call_ctx. by destruct (_ && _).
Qed.

Inductive ctx_op :=
  | Deny (names : list string) | AllowOnly (names : list string) | Bypass
  | Agent (s : string) | Source (s : string) | Trace (s : string) | ApprovalId (s : string) | Task (s : string).
Definition apply_ctx (o : ctx_op) (c : ctx) : ctx :=
  match o with
  | Deny l => WithDeniedTools c l | AllowOnly l => WithAllowedTools c l | Bypass => WithBypassApproval c
  | Agent s => WithAgentID c s | Source s => WithExecutionSource c s | Trace s => WithTraceID c s
  | ApprovalId s => WithApprovalID c s | Task s => WithTaskID c s
  end.
Definition permitted (c : ctx) (name : string) : Prop :=
  IsToolDenied c name = false /\ IsToolAllowedInContext c name = true.
Definition op_permits (name : string) (o : ctx_op) : Prop :=
  match o with
  | Deny l => name ∉ l | AllowOnly l => l = [] \/ name ∈ l | _ => True
  end.

Lemma permitted_step o c name : permitted (apply_ctx o c) name <-> permitted c name /\ op_permits name o.
Proof.
  unfold permitted, IsToolDenied, IsToolAllowedInContext.
  destruct o; cbn [apply_ctx op_permits].
  - unfold WithDeniedTools. case_bool_decide as Hn; [subst; set_solver|]. cbn.
    rewrite bool_decide_eq_false. destruct (c_denied c); cbn; rewrite ?bool_decide_eq_false; set_solver.
  - unfold WithAllowedTools. case_bool_decide as Hn; [subst; set_solver|]. cbn.
    rewrite bool_decide_eq_true. destruct (c_allowed c); cbn; rewrite ?bool_decide_eq_true; set_solver.
  - tauto.
  - tauto.
  - unfold WithExecutionSource. cbv zeta. case_bool_decide; cbn; tauto.
  - tauto.
  - tauto.
  - unfold WithTaskID. case_bool_decide; cbn; tauto.
Qed.

(** C16. Contexts only narrow: after any sequence of context operations, a tool
    is permitted exactly when it was permitted before and every deny list and
    every (non-empty) allow list on the way permits it. *)
Theorem contexts_only_narrow ops c name :
  permitted (fold_left (fun c o => apply_ctx o c) ops c) name <-> permitted c name /\ Forall (op_permits name) ops.
Proof.
  revert c. induction ops as [|o ops IH]; intros c; cbn.
  - split; [by split; [|constructor]|tauto].
  - rewrite IH, permitted_step, Forall_cons. tauto.
Qed.

(** File tools stay inside the agent's paths: the check accepts a payload
    exactly when "*" is listed or the payload has a path whose elements, after
    resolving "." and "..", extend those of a listed path (both absolute or both
    relative) without climbing out. *)
Theorem validateAllowedPath_iff allowed input :
  validateAllowedPath allowed input = Ok tt <->
  "*" ∈ allowed \/ exists path a, json_field "path" input = Some path /\ a ∈ allowed /\ within a path.
Proof.
  unfold validateAllowedPath. destruct (existsb (fun a => bool_decide (a = "*")) allowed) eqn:Hstar.
  { split; [|done]. intros _. left. rewrite existsb_exists_elem in Hstar.
    destruct Hstar as (a & Ha & Hb). apply bool_decide_eq_true in Hb. by subst. }
  assert (Hns : "*" ∉ allowed).
  { intros Hin. rewrite existsb_false_elem in Hstar. specialize (Hstar "*" Hin). by rewrite bool_decide_true in Hstar. }
  destruct (json_field "path" input) as [path|]; [|naive_solver].
  assert (Hin : forall a, match Rel (Clean a) (Clean path) with
                         | Some rel => negb (bool_decide (rel = "..")) && negb (has_prefix rel "../")
                         | None => false end = true <-> within a path).
  { intros a. rewrite <- within_Clean, <- Rel_within. unfold climbs.
    destruct (Rel _ _) as [rel|]; [|by split].
    by rewrite andb_true_iff, !negb_true_iff, orb_false_iff. }
  cbv zeta. set (inside := fun a : string => match Rel _ _ with Some rel => _ | None => false end) in *.
  destruct (existsb inside allowed) eqn:Hex.
  - split; [|done]. intros _. right. rewrite existsb_exists_elem in Hex.
    destruct Hex as (a & Ha & Hb). exists path, a. by rewrite <- Hin.
  - split; [done|]. intros [?|(path' & a & [= <-] & Ha & Hw)]; [done|].
    rewrite existsb_false_elem in Hex. apply Hin in Hw. change (inside a = true) in Hw. by rewrite Hex in Hw.
Qed.

(** C18. Events of file writes do not carry the contents: for the two writing
    tools, two payloads that agree outside "content" and "content_base64", and
    whose contents are present alike and print with the same lengths, are shown
    identically. *)
Theorem write_events_hide_content name i1 i2 m1 m2 :
  name = "native_file_write" \/ name = "native_workspace_write" ->
  json_object i1 = Some (Some m1) -> json_object i2 = Some (Some m2) ->
  (forall k, k <> "content" -> k <> "content_base64" -> m1 !! k = m2 !! k) ->
  (forall k, k = "content" \/ k = "content_base64" ->
     (fun v => len (jsprint v)) <$> m1 !! k = (fun v => len (jsprint v)) <$> m2 !! k) ->
  toolInputForEvent name i1 = toolInputForEvent name i2.
Proof.
  intros Hname H1 H2 Hrest Hsecret. unfold toolInputForEvent.
  assert (negb (bool_decide (name = "native_file_write")) && negb (bool_decide (name = "native_workspace_write")) = false) as ->.
  { by destruct Hname as [->| ->]. }
  rewrite H1, H2. cbv zeta. do 2 f_equal. cbn [fmap option_fmap option_map fold_left]. f_equal.
  set (red := fun (m : gmap string jval) (key : string) => match m !! key with
     | Some v => <[key := jstr ("[redacted:" +:+ pretty (len (jsprint v)) +:+ " chars]")]> m | None => m end).
  change (red (red m1 "content") "content_base64" = red (red m2 "content") "content_base64").
  assert (Hred : forall m key k, red m key !! k = if bool_decide (k = key)
            then (fun v => jstr ("[redacted:" +:+ pretty (len (jsprint v)) +:+ " chars]")) <$> m !! k else m !! k).
  { intros m key k. unfold red. case_bool_decide as Hk.
    - subst k. destruct (m !! key) eqn:Hm; [by rewrite lookup_insert_eq|by rewrite Hm].
    - destruct (m !! key); [by rewrite lookup_insert_ne|done]. }
  assert (Hlen : forall k, k = "content" \/ k = "content_base64" ->
     (fun v => jstr ("[redacted:" +:+ pretty (len (jsprint v)) +:+ " chars]")) <$> m1 !! k =
     (fun v => jstr ("[redacted:" +:+ pretty (len (jsprint v)) +:+ " chars]")) <$> m2 !! k).
  { intros k Hk. specialize (Hsecret k Hk). destruct (m1 !! k), (m2 !! k); cbn in *; try done. congruence. }
  apply map_eq. intros k. rewrite !Hred.
  repeat case_bool_decide; subst; try done; auto.
Qed.

End spec.

(** ** Closed instances *)

#[local] Existing Instance ascii_tables.
#[local] Existing Instance plain_platform.
#[local] Existing Instance plain_json.

Definition demo_tool (name : string) : Tool :=
  mkTool name "" "native" "" None (fun _ i => Ok (Some (mkToolResult i None ""))).
Definition demo_policy : ctx -> string -> result string AgentToolPolicy :=
  fun _ _ => Ok (mkPolicy ["*"] "medium" ["docs"]).
Definition demo_gate : ToolGate := fun _ _ _ _ => Ok (mkGateDecision GateRequireApproval "outside mail").

Definition demo_manager : ApprovalManager := fst (demo_run
  [OpRequest "" "" "" "agent" "native_mail_send" "High" "{}"; OpDecide "apr_1" "approved" "ann" "ok"]
  (NewApprovalManager true) (calm 1000)).

Definition demo_registry : ToolRegistry :=
  RegisterGate (Some demo_gate) ["native_mail_send"]
    (SetApprovalManager demo_manager (SetPolicyResolver demo_policy
      (RegisterOrReplace (demo_tool "native_mail_send") (RegisterOrReplace (demo_tool "native_exec")
        (NewToolRegistry false))))).

Definition demo_call (c : ctx) (name : string) : result exec_error (option ToolResult) * (ToolRegistry * env) :=
  Execute c "agent" name "{}" demo_registry (calm 2000).

Lemma Execute_cleared_witness :
  exists t c', runs (fst (snd (demo_call (WithApprovalID Background "apr_1") "native_mail_send")))
     = runs demo_registry ++ [Ran (TName t) c' (NormalizeToolInput "{}")] /\
    cleared (call_ctx (WithApprovalID Background "apr_1") "agent") "agent" "native_mail_send"
      (NormalizeToolInput "{}") demo_registry 2000 t.
Proof.
  destruct (demo_call (WithApprovalID Background "apr_1") "native_mail_send") as [res [r' e']] eqn:Hrun.
  apply (Execute_cleared (WithApprovalID Background "apr_1") "agent" "native_mail_send" "{}"
           demo_registry (calm 2000) res r' e').
  - exact Hrun.
  - assert (r' = fst (snd (res, (r', e')))) as -> by reflexivity. rewrite <- Hrun. vm_compute. discriminate.
Defined.

Lemma external_effect_gated_witness :
  exists check d, gates demo_registry !! "native_mail_send" = Some check /\
    check (call_ctx (WithApprovalID Background "apr_1") "agent") "agent" "native_mail_send" (NormalizeToolInput "{}") = Ok d /\
    (GAction d = GateAllow \/ GAction d = GateRequireApproval /\ exists t, 2000 <= t /\
       approved_exactly demo_registry "apr_1" "agent" "native_mail_send" (NormalizeToolInput "{}") t).
Proof.
  destruct (demo_call (WithApprovalID Background "apr_1") "native_mail_send") as [res [r' e']] eqn:Hrun.
  apply (external_effect_gated (WithApprovalID Background "apr_1") "agent" "native_mail_send" "{}"
           demo_registry (calm 2000) res r' e').
  - vm_compute. reflexivity.
  - exact Hrun.
  - assert (r' = fst (snd (res, (r', e')))) as -> by reflexivity. rewrite <- Hrun. vm_compute. discriminate.
Defined.

Lemma write_events_hide_content_witness :
  toolInputForEvent "native_file_write" "alpha" = toolInputForEvent "native_file_write" "gamma".
Proof.
  apply (write_events_hide_content "native_file_write" "alpha" "gamma" {["content" := "alpha"]} {["content" := "gamma"]}).
  - by left.
  - reflexivity.
  - reflexivity.
  - intros k Hk _. by rewrite !lookup_singleton_ne.
  - intros k [->| ->]; reflexivity.
Defined.

(** Without an approval the same calls stop, under the names the gate and the
    threshold know; with no gate at all an external tool is refused. *)
Example blocked_by_name :
  is_ok (fst (demo_call Background "native_mail_send")) = false /\
  runs (fst (snd (demo_call Background "native_mail_send"))) = [] /\
  is_ok (fst (demo_call Background "native_exec")) = false /\
  runs (fst (snd (demo_call Background "native_exec"))) = [].
Proof. vm_compute. done. Qed.

(** Under an alias the same tools run: the checks compare the name as given,
    [GetTool] resolves it. *)
Example alias_skips_the_checks :
  (fun ev => match ev with Ran t _ _ => t | _ => "" end) <$>
    runs (fst (snd (demo_call Background "functions.native_mail_send"))) = ["native_mail_send"] /\
  (fun ev => match ev with Ran t _ _ => t | _ => "" end) <$>
    runs (fst (snd (demo_call Background "bash"))) = ["native_exec"].
Proof. vm_compute. done. Qed.
