(* ===== verification/MailTypes.v ===== *)
(** * Mail and calendar: data ([internal/mailcal], [internal/mailcal/abi])

    The wire types of the provider ABI, the rows of the stores, the state of
    the service, and what the service uses of code outside the repository: the
    JSON codec of [encoding/json], time zones, and the provider plugins. *)

From S2P Require Import Prelude GoStrings Address PolicyRule PolicyEval Io Tables.

#[local] Open Scope Z_scope.

(** ** The provider ABI *)

Definition CapMail : string := "mail@1".
Definition CapCalendar : string := "calendar@1".
Definition ExportMailList : string := "acton_mail_list".
Definition ExportMailGet : string := "acton_mail_get".
Definition ExportMailGetThread : string := "acton_mail_get_thread".
Definition ExportMailSearch : string := "acton_mail_search".
Definition ExportMailSend : string := "acton_mail_send".
Definition ExportMailMark : string := "acton_mail_mark".
Definition ExportMailMove : string := "acton_mail_move".
Definition ExportMailDelete : string := "acton_mail_delete".
Definition ExportCalListEvents : string := "acton_calendar_list_events".
Definition ExportCalGetEvent : string := "acton_calendar_get_event".
Definition ExportCalCreateEvent : string := "acton_calendar_create_event".
Definition ExportCalUpdateEvent : string := "acton_calendar_update_event".
Definition ExportCalRespond : string := "acton_calendar_respond".
Definition ExportCalDeleteEvent : string := "acton_calendar_delete_event".
Definition ExportCalFreeBusy : string := "acton_calendar_free_busy".

Definition ErrAuthExpired : string := "auth_expired".
Definition ErrRateLimited : string := "rate_limited".
Definition ErrNotFound : string := "not_found".
Definition ErrUnsupported : string := "unsupported".
Definition ErrTransient : string := "transient".
Definition ErrInvalid : string := "invalid".

(** [abi.Error], and any other error a call can end with. *)
Record Error := mkError { Code : string; Message : string; RetryAfterMS : Z }.
Inductive call_error := Coded (e : Error) | Uncoded (msg : string).
Definition AsError (e : call_error) : option Error := match e with Coded x => Some x | Uncoded _ => None end.

Record ProviderLimits := mkProviderLimits { MaxRecipients : Z; MaxBodyBytes : Z; MaxAttachmentBytes : Z }.
Record Capabilities := mkCapabilities { ABI : list string; Ops : list string; PLimits : ProviderLimits }.
Definition Supports (c : Capabilities) (export : string) : bool := bool_decide (export ∈ Ops c).

Record Message_ := mkMessage {
  MsgID : string; MsgThreadID : string; MsgFrom : Address; MsgTo : list Address; MsgCc : list Address;
  MsgSubject : string; MsgBody : string }.
Record Thread := mkThread { ThID : string; ThMessages : list Message_ }.

Record MailSendParams := mkSendParams {
  STo : list Address; SCc : list Address; SBcc : list Address; SSubject : string; SBodyText : string;
  SInReplyTo : string; SThreadID : string; IdempotencyKey : string }.
Record MailSendResult := mkSendResult { ProviderMessageID : string; ResThreadID : string; Replayed : bool }.

Record Attendee := mkAttendee { AttEmail : string; AttName : string; AttStatus : string }.
Record Event := mkEvent {
  EvID : string; EvCalendarID : string; EvTitle : string; EvStart : Z; EvEnd : Z; EvTimeZone : string;
  EvAllDay : bool; EvLocation : string; EvDescription : string; EvConferenceURL : string;
  EvAttendees : list Attendee; EvOrganizer : option Address }.
Record CalWriteParams := mkCalWrite { WEvent : Event; WSendUpdates : bool; WKey : string }.
Record CalRespondParams := mkCalRespond { RCalendarID : string; REventID : string; Response : string; Comment : string }.
Record CalDeleteParams := mkCalDelete { DCalendarID : string; DEventID : string; DSendUpdates : bool }.

#[export] Instance MailSendParams_eq_dec : EqDecision MailSendParams. Proof. solve_decision. Defined.
#[export] Instance Attendee_eq_dec : EqDecision Attendee. Proof. solve_decision. Defined.
#[export] Instance Event_eq_dec : EqDecision Event. Proof. solve_decision. Defined.

(** One request to a provider plugin, with the account it is for. *)
Inductive call :=
  | CallMailList (acct : string) (folder cursor : string) (limit : Z) (unread : bool)
  | CallMailSearch (acct query : string)
  | CallMailGet (acct id : string)
  | CallMailGetThread (acct thread : string)
  | CallMailSend (acct : string) (p : MailSendParams)
  | CallMailMark (acct : string) (ids : list string) (unread : bool)
  | CallMailMove (acct : string) (ids : list string) (folder : string)
  | CallMailDelete (acct : string) (ids : list string)
  | CallCalList (acct calendar : string) (from to_ : Z)
  | CallFreeBusy (acct : string) (emails : list string) (from to_ : Z)
  | CallCalGet (acct calendar id : string)
  | CallCalCreate (acct : string) (p : CalWriteParams)
  | CallCalUpdate (acct : string) (p : CalWriteParams)
  | CallCalRespond (acct : string) (p : CalRespondParams)
  | CallCalDelete (acct : string) (p : CalDeleteParams).

(** Calls with an effect outside the device. *)
Definition is_write (c : call) : bool :=
  match c with
  | CallMailSend _ _ | CallMailDelete _ _ | CallCalCreate _ _ | CallCalUpdate _ _
  | CallCalRespond _ _ | CallCalDelete _ _ | CallMailMark _ _ _ | CallMailMove _ _ _ => true
  | _ => false
  end.

(** The provider plugins: what they answer may depend on everything they were
    asked before. *)
Class Plugins := {
  ask_send : list call -> string -> MailSendParams -> result call_error MailSendResult;
  ask_message : list call -> string -> string -> result call_error Message_;
  ask_thread : list call -> string -> string -> result call_error Thread;
  ask_list : list call -> call -> result call_error (list Message_);
  ask_events : list call -> call -> result call_error (list Event);
  ask_busy : list call -> call -> result call_error (list (string * list (Z * Z)));
  ask_event : list call -> call -> result call_error Event;
  ask_unit : list call -> call -> result call_error unit
}.

(** ** Drafts *)

Record DraftPayload := mkPayload {
  PTo : list Address; PCc : list Address; PBcc : list Address; PSubject : string; PBodyText : string;
  PInReplyTo : string; PThreadID : string }.
#[export] Instance DraftPayload_eq_dec : EqDecision DraftPayload. Proof. solve_decision. Defined.
Record ReplyContext := mkReplyContext {
  RcMessageID : string; RcThreadID : string; RcVerified : bool; RcParticipants : list string; SenderOfLast : string }.
#[export] Instance ReplyContext_eq_dec : EqDecision ReplyContext. Proof. solve_decision. Defined.

Record Draft := mkDraft {
  DrID : string; DrAccountID : string; CreatedBy : string; DrTraceID : string;
  Payload : DraftPayload; PayloadHash : string; DrReply : option ReplyContext; DrCreatedAt : Z }.
Record DraftRow := mkDraftRow {
  dr_id : string; dr_account : string; dr_by : string; dr_trace : string;
  dr_payload : string; dr_hash : string; dr_reply : string; dr_created : Z }.

(** ** Accounts *)

Definition KindMail : string := "mail".
Definition KindCalendar : string := "calendar".
Definition KindBoth : string := "both".
Definition StatusOK : string := "ok".
Definition StatusAuthExpired : string := "auth_expired".

(** A decoded [map[string]any]. *)
Inductive cval := CMap (m : list (string * cval)) | CArr (l : list cval) | CLeaf (text : string).
Record AuthRef := mkAuth { AuthType : string; AuthProvider : string; SecretRefs : list (string * string) }.

Record Account := mkAccount {
  AcID : string; Label : string; PluginID : string; Kind : string; AcEmail : string;
  Config : list (string * cval); Auth : AuthRef; AcStatus : string; StatusDetail : string;
  AcCreatedAt : Z; UpdatedAt : Z }.
Record AccountRow := mkAccountRow {
  ac_id : string; ac_label : string; ac_plugin : string; ac_kind : string; ac_email : string;
  ac_config : string; ac_auth : string; ac_status : string; ac_detail : string; ac_created : Z; ac_updated : Z }.

Definition SupportsMail (a : Account) : bool := bool_decide (Kind a = KindMail) || bool_decide (Kind a = KindBoth).
Definition SupportsCalendar (a : Account) : bool := bool_decide (Kind a = KindCalendar) || bool_decide (Kind a = KindBoth).

(** ** Rules, proposals, decisions, ledger *)

Record StoredRule := mkStoredRule {
  SRule : Rule; SCreatedBy : string; SCreatedAt : Z; PausedReason : string; PausedAt : option Z }.
Record RuleRow := mkRuleRow {
  rr_id : string; rr_account : string; rr_json : string; rr_enabled : Z; rr_reason : string;
  rr_paused : option Z; rr_by : string; rr_created : Z }.

Definition ProposalPending : string := "pending".
Definition ProposalApproved : string := "approved".
Definition ProposalRejected : string := "rejected".
Definition SourceAgent : string := "agent".
Definition SourceUser : string := "user".

Record Proposal := mkProposal {
  PrID : string; PrSource : string; PrAgentID : string; PrRule : Rule; Rationale : string; PrStatus : string;
  PrRuleID : string; PrCreatedAt : Z; PrDecidedAt : option Z }.
Record ProposalRow := mkProposalRow {
  pr_id : string; pr_source : string; pr_agent : string; pr_json : string; pr_rationale : string; pr_status : string;
  pr_rule : string; pr_created : Z; pr_decided : option Z }.

Definition PhaseGate : string := "gate".
Definition PhaseExecuted : string := "executed".
Definition PhaseBounce : string := "bounce".

Record DecisionRecord := mkDecisionRecord {
  DID : string; At : Z; Phase : string; DAccountID : string; DAgentID : string; DTool : string; DDraftID : string;
  DPayloadHash : string; DRVerdict : Verdict; DRuleID : string; DReasons : list string; Approved : bool; Outcome : string }.

Definition LedgerPending : string := "pending".
Definition LedgerSent : string := "sent".
Record LedgerEntry := mkLedgerEntry {
  Key : string; LAccountID : string; LDraftID : string; LPayloadHash : string; State : string;
  LProviderMessageID : string; LThreadID : string; LCreatedAt : Z; SentAt : option Z }.
#[export] Instance LedgerEntry_eq_dec : EqDecision LedgerEntry. Proof. solve_decision. Defined.

(** ** The service *)

Record providerEntry := mkProvider { pe_caps : Capabilities }.

Record Service := mkService {
  accounts : list AccountRow; drafts : list DraftRow; settings : option string; rules : list RuleRow;
  proposals : list ProposalRow; decisions : list DecisionRecord; ledger : list LedgerEntry;
  providers : gmap string providerEntry; calls : list call }.

Definition empty_service : Service := mkService [] [] None [] [] [] [] ∅ [].

Definition set_accounts l s := mkService l (drafts s) (settings s) (rules s) (proposals s) (decisions s) (ledger s) (providers s) (calls s).
Definition set_drafts l s := mkService (accounts s) l (settings s) (rules s) (proposals s) (decisions s) (ledger s) (providers s) (calls s).
Definition set_settings v s := mkService (accounts s) (drafts s) v (rules s) (proposals s) (decisions s) (ledger s) (providers s) (calls s).
Definition set_rules l s := mkService (accounts s) (drafts s) (settings s) l (proposals s) (decisions s) (ledger s) (providers s) (calls s).
Definition set_proposals l s := mkService (accounts s) (drafts s) (settings s) (rules s) l (decisions s) (ledger s) (providers s) (calls s).
Definition set_decisions l s := mkService (accounts s) (drafts s) (settings s) (rules s) (proposals s) l (ledger s) (providers s) (calls s).
Definition set_ledger l s := mkService (accounts s) (drafts s) (settings s) (rules s) (proposals s) (decisions s) l (providers s) (calls s).
Definition set_providers m s := mkService (accounts s) (drafts s) (settings s) (rules s) (proposals s) (decisions s) (ledger s) m (calls s).
Definition add_call c s := mkService (accounts s) (drafts s) (settings s) (rules s) (proposals s) (decisions s) (ledger s) (providers s) (calls s ++ [c]).

(** ** Errors *)

Inductive draft_fault :=
  | OwnerRequired | BadRecipients (label : string) | NoRecipient | TooManyRecipients (n limit : Z)
  | SubjectRequired | SubjectNotALine | SubjectTooLong | BodyRequired | BodyTooLarge | BodyControl | ThreadIdAlone.
Inductive account_fault :=
  | LabelRequired | PluginRequired | BadKind | BadEmail | BadAuthType | SecretInConfig (path : string) | ConfigTooLarge
  | PluginNotLoaded | NoMailSupport | NoCalendarSupport.

Inductive mail_error :=
  | DbError (what : string) | Cancelled
  | AccountNotFound | InvalidAccount (why : account_fault)
  | DraftNotFound | InvalidDraft (why : draft_fault) | DecodingDraft | DecodingReply | DraftTampered
  | DecodingAccount | RuleNotFound | InvalidRule (e : rule_error) | DecodingRule | NoAuthor
  | UnknownSource | ProposalDecided | BccNeverByRule
  | NoSuchAccount (need : string) | SeveralAccounts (ids : list string) | DoesNotServe (need : string)
  | AccountNotOk (status : string) | PluginMissing
  | FromProvider (e : call_error)
  | WriteDenied (reasons : list string) | ApprovalRequired (reasons : list string) | MailcalOff
  | NoMessageIds | EventIDRequired | UnknownTimeZone | LedgerKeyRequired | NoGateRules
  | ReplyUnverified.

Abbreviation mop := (io Service mail_error).

(** ** What the service uses of the standard library and the tz database *)

(** [encoding/json] on the values kept in columns; [LoadLocation] of a zone as
    its offset in seconds at an instant. *)
Class MailCodec := {
  rule_json : Rule -> string; rule_of_json : string -> option Rule;
  payload_json : DraftPayload -> string; payload_of_json : string -> option DraftPayload;
  reply_json : ReplyContext -> string; reply_of_json : string -> option ReplyContext;
  config_json : list (string * cval) -> option string; config_of_json : string -> option (list (string * cval));
  auth_json : AuthRef -> string; auth_of_json : string -> option AuthRef;
  event_json : Event -> string;
  load_location : string -> option (Z -> Z)
}.
