(* ===== verification/MailStore.v ===== *)
(** * Mail and calendar: the stores ([internal/mailcal/*.go])

    Settings, decisions, the idempotency ledger, drafts, rules, proposals and
    accounts, one Module each: every statement is a [db] step over the tables
    of the service. *)

From S2P Require Import Prelude GoStrings Regex Address PolicyRule PolicyEval Io Tables MailTypes.

#[local] Open Scope Z_scope.

Section stores.
Context `{ME : MailEnv} `{P : Platform} `{MC : MailCodec}.

(** ** Settings ([settings.go]) *)

(** [(s *SettingsStore) Enabled]: a failed read, or no row, means off. *)
Definition Enabled_ : mop bool :=
  row ← attempt (_ ← db (DbError "reading setting"); gets settings);
  match row with
  | Ok (Some v) => mret (equal_fold_true v)
  | _ => mret false
  end.

Definition SetEnabled_ (on : bool) : mop unit :=
  _ ← db (DbError "storing setting");
  modify (set_settings (Some (if on then "true" else "false"))).

(** ** Decisions ([decisions.go]) *)

Definition Record_ (d : DecisionRecord) : mop unit :=
  id ← (if bool_decide (DID d = "") then (n ← draw; mret ("dec_" +:+ uuid_string n)) else mret (DID d));
  at_ ← (if bool_decide (At d = 0) then now else mret (At d));
  _ ← db (DbError "recording decision");
  modify (fun s => set_decisions (decisions s ++
    [mkDecisionRecord id at_ (Phase d) (DAccountID d) (DAgentID d) (DTool d) (DDraftID d) (DPayloadHash d)
       (DRVerdict d) (DRuleID d) (DReasons d) (Approved d) (Outcome d)]) s).

(** Writes a rule allowed on its own since [from]. *)
Definition auto_execution (ruleID : string) (from : Z) (d : DecisionRecord) : bool :=
  bool_decide (DRuleID d = ruleID) && bool_decide (Phase d = PhaseExecuted) && negb (Approved d)
  && bool_decide (DRVerdict d = VerdictAllow) && (from <=? At d).

Definition CountAutoExecutions (ruleID : string) (window : Z) : mop Z :=
  t ← now;
  _ ← db (DbError "counting executions");
  gets (fun s => Z.of_nat (affected (auto_execution ruleID (time_add t (- window))) (decisions s))).

Definition HasBounce (accountID messageID : string) : mop bool :=
  _ ← db (DbError "reading bounces");
  gets (fun s => negb (bool_decide (affected (fun d => bool_decide (Phase d = PhaseBounce)
    && bool_decide (DAccountID d = accountID) && bool_decide (DDraftID d = messageID) && bool_decide (DTool d = "inbox"))
    (decisions s) = 0%nat))).

Definition CountSince (accountID phase : string) (window : Z) : mop Z :=
  t ← now;
  _ ← db (DbError "counting decisions");
  gets (fun s => Z.of_nat (affected (fun d => bool_decide (DAccountID d = accountID) && bool_decide (Phase d = phase)
    && bool_decide (DTool d = "inbox") && (time_add t (- window) <=? At d)) (decisions s))).

Record DecisionFilter := mkFilter { FAccountID : string; FVerdict : string; FPhase : string; FLimit : Z }.

Definition verdict_text (v : Verdict) : string :=
  match v with VerdictAllow => "allow" | VerdictNeedsApproval => "needs_approval" | VerdictDeny => "deny" end.

Definition ListDecisions (f : DecisionFilter) : mop (list DecisionRecord) :=
  let limit := if (FLimit f <=? 0) || (500 <? FLimit f) then 100 else FLimit f in
  _ ← db (DbError "listing decisions");
  gets (fun s => take (Z.to_nat limit) (order_newest At DID (filter (fun d =>
    (bool_decide (FAccountID f = "") || bool_decide (DAccountID d = FAccountID f))
    && (bool_decide (FVerdict f = "") || bool_decide (verdict_text (DRVerdict d) = FVerdict f))
    && (bool_decide (FPhase f = "") || bool_decide (Phase d = FPhase f)) = true) (decisions s)))).

(** ** The ledger ([ledger.go]) *)

Fixpoint key_preimage (parts : list string) : string :=
  match parts with
  | [] => ""
  | p :: rest => pretty (len p) +:+ ":" +:+ p +:+ "|" +:+ key_preimage rest
  end.
Definition KeyFor (parts : list string) : string := "idem_" +:+ take_bytes 40 (sha256_hex (key_preimage parts)).

Definition find_entry (key : string) (l : list LedgerEntry) : option LedgerEntry :=
  find (fun e => bool_decide (Key e = key)) l.

(** [Begin], inside the lock of its key: the entry and whether it existed. *)
Definition Begin (e : LedgerEntry) : mop (LedgerEntry * bool) :=
  if bool_decide (trim_space (Key e) = "") then throw LedgerKeyRequired
  else
    _ ← db (DbError "reading ledger");
    got ← gets (fun s => find_entry (Key e) (ledger s));
    match got with
    | Some old => mret (old, true)
    | None =>
      t ← now;
      let e := mkLedgerEntry (Key e) (LAccountID e) (LDraftID e) (LPayloadHash e) LedgerPending "" "" t None in
      _ ← db (DbError "reserving ledger key");
      _ ← modify (fun s => set_ledger (ledger s ++ [e]) s);
      mret (e, false)
    end.

Definition complete_entry (providerMessageID threadID : string) (t : Z) (e : LedgerEntry) : LedgerEntry :=
  mkLedgerEntry (Key e) (LAccountID e) (LDraftID e) (LPayloadHash e) LedgerSent providerMessageID threadID (LCreatedAt e) (Some t).

Definition Complete (key providerMessageID threadID : string) : mop unit :=
  t ← now;
  _ ← db (DbError "completing ledger entry");
  modify (fun s => set_ledger
    (update_where (fun e => bool_decide (Key e = key)) (complete_entry providerMessageID threadID t) (ledger s)) s).

(** ** Drafts ([drafts.go]) *)

Definition maxSubjectRunes : Z := 998.
Definition maxBodyBytes : Z := 256 * 1024.
Definition defaultMaxRcpt : Z := 50.

Definition hasControl (s : string) : bool :=
  existsb (fun r => negb ((r =? 10) || (r =? 9)) && is_control r) (runes s).

Definition normalizeRecipients (label : string) (l : list Address) : result mail_error (list Address) :=
  match NormalizeAddresses l with Ok out => Ok out | Err _ => Err (InvalidDraft (BadRecipients label)) end.

Definition count {A} (l : list A) : Z := Z.of_nat (List.length l).

(** [(p DraftPayload) Validate]. *)
Definition ValidatePayload (p : DraftPayload) (maxRcpt : Z) : result mail_error DraftPayload :=
  let maxRcpt := if maxRcpt <=? 0 then defaultMaxRcpt else maxRcpt in
  to ← normalizeRecipients "to" (PTo p);
  cc ← normalizeRecipients "cc" (PCc p);
  bcc ← normalizeRecipients "bcc" (PBcc p);
  let n := count to + count cc + count bcc in
  let subject := trim_space (PSubject p) in
  if bool_decide (to = []) then Err (InvalidDraft NoRecipient)
  else if maxRcpt <? n then Err (InvalidDraft (TooManyRecipients n maxRcpt))
  else if bool_decide (subject = "") then Err (InvalidDraft SubjectRequired)
  else if contains_any subject [13; 10] || hasControl subject then Err (InvalidDraft SubjectNotALine)
  else if maxSubjectRunes <? count (runes subject) then Err (InvalidDraft SubjectTooLong)
  else if bool_decide (trim_space (PBodyText p) = "") then Err (InvalidDraft BodyRequired)
  else if maxBodyBytes <? len (PBodyText p) then Err (InvalidDraft BodyTooLarge)
  else if hasControl (PBodyText p) then Err (InvalidDraft BodyControl)
  else Ok (mkPayload to cc bcc subject (PBodyText p) (trim_space (PInReplyTo p)) (trim_space (PThreadID p))).

Definition Hash (p : DraftPayload) : string := sha256_hex (payload_json p).

Record NewDraft := mkNewDraft {
  NAccountID : string; NCreatedBy : string; NTraceID : string; NPayload : DraftPayload;
  NReply : option ReplyContext; NMaxRcpt : Z }.

Definition CreateDraftRow (d : NewDraft) : mop Draft :=
  if bool_decide (trim_space (NAccountID d) = "") || bool_decide (trim_space (NCreatedBy d) = "")
  then throw (InvalidDraft OwnerRequired)
  else
    payload ← lift (ValidatePayload (NPayload d) (NMaxRcpt d));
    n ← draw;
    t ← now;
    let out := mkDraft ("draft_" +:+ uuid_string n) (NAccountID d) (NCreatedBy d) (NTraceID d)
                 payload (Hash payload) (NReply d) t in
    _ ← db (DbError "storing draft");
    _ ← modify (fun s => set_drafts (drafts s ++
          [mkDraftRow (DrID out) (DrAccountID out) (CreatedBy out) (DrTraceID out) (payload_json payload)
             (PayloadHash out) (match NReply d with Some r => reply_json r | None => "" end) t]) s);
    mret out.

(** What [Get] makes of a row. *)
Definition scanDraft (r : DraftRow) : result mail_error Draft :=
  match payload_of_json (dr_payload r) with
  | None => Err DecodingDraft
  | Some p =>
    reply ← (if bool_decide (dr_reply r = "") then Ok None
             else match reply_of_json (dr_reply r) with Some rc => Ok (Some rc) | None => Err DecodingReply end);
    if bool_decide (Hash p = dr_hash r)
    then Ok (mkDraft (dr_id r) (dr_account r) (dr_by r) (dr_trace r) p (dr_hash r) reply (dr_created r))
    else Err DraftTampered
  end.

Definition GetDraft (id : string) : mop Draft :=
  _ ← db (DbError "reading draft");
  row ← gets (fun s => find (fun r => bool_decide (dr_id r = id)) (drafts s));
  match row with
  | None => throw DraftNotFound
  | Some r => lift (scanDraft r)
  end.

Fixpoint get_all {A} (get_one : string -> mop A) (ids : list string) : mop (list A) :=
  match ids with
  | [] => mret []
  | id :: ids' => d ← get_one id; ds ← get_all get_one ids'; mret (d :: ds)
  end.

Definition ListDrafts (accountID : string) (limit : Z) : mop (list Draft) :=
  let limit := if (limit <=? 0) || (200 <? limit) then 50 else limit in
  _ ← db (DbError "listing drafts");
  ids ← gets (fun s => dr_id <$> take (Z.to_nat limit) (order_newest dr_created dr_id
          (filter (fun r => accountID = "" \/ dr_account r = accountID) (drafts s))));
  get_all GetDraft ids.

(** ** Rules ([rules.go]) *)

Definition boolInt (b : bool) : Z := if b then 1 else 0.

Definition with_id (id : string) (r : Rule) : Rule :=
  mkRule id (Enabled r) (ExpiresAt r) (AccountID r) (Action r) (Effect r) (AllowPublicDomain r) (RMatch r) (RLimits r).
Definition with_enabled (b : bool) (r : Rule) : Rule :=
  mkRule (ID r) b (ExpiresAt r) (AccountID r) (Action r) (Effect r) (AllowPublicDomain r) (RMatch r) (RLimits r).
Definition with_account (a : string) (r : Rule) : Rule :=
  mkRule (ID r) (Enabled r) (ExpiresAt r) a (Action r) (Effect r) (AllowPublicDomain r) (RMatch r) (RLimits r).

Definition CreateRule (r : Rule) (actor : string) : mop StoredRule :=
  if bool_decide (actor = "") then throw NoAuthor
  else
    r ← lift (match Validate r with Ok r' => Ok r' | Err e => Err (InvalidRule e) end);
    n ← draw;
    let r := with_id ("rule_" +:+ uuid_string n) r in
    t ← now;
    _ ← db (DbError "storing rule");
    _ ← modify (fun s => set_rules (rules s ++
          [mkRuleRow (ID r) (AccountID r) (rule_json r) (boolInt (Enabled r)) "" None actor t]) s);
    mret (mkStoredRule r actor t "" None).

Definition scanRule (row : RuleRow) : result mail_error StoredRule :=
  match rule_of_json (rr_json row) with
  | None => Err DecodingRule
  | Some r => Ok (mkStoredRule (with_enabled (bool_decide (rr_enabled row = 1)) r) (rr_by row) (rr_created row)
                    (rr_reason row) (rr_paused row))
  end.

Definition GetRule (id : string) : mop StoredRule :=
  _ ← db (DbError "reading rule");
  row ← gets (fun s => find (fun r => bool_decide (rr_id r = id)) (rules s));
  match row with None => throw RuleNotFound | Some r => lift (scanRule r) end.

Definition ListRules (accountID : string) : mop (list StoredRule) :=
  _ ← db (DbError "listing rules");
  rows ← gets (fun s => order_newest rr_created rr_id (filter (fun r => accountID = "" \/ rr_account r = accountID) (rules s)));
  lift (mapM_result scanRule rows).

Definition set_rule_enabled (on : bool) (reason : string) (paused : option Z) (r : RuleRow) : RuleRow :=
  mkRuleRow (rr_id r) (rr_account r) (rr_json r) (boolInt on) reason paused (rr_by r) (rr_created r).

Definition SetRuleEnabled (id : string) (on : bool) (reason : string) : mop unit :=
  paused ← (if on then mret None else (t ← now; mret (Some t)));
  let reason := if on then "" else reason in
  _ ← db (DbError "updating rule");
  let p r := bool_decide (rr_id r = id) in
  n ← gets (fun s => affected p (rules s));
  _ ← modify (fun s => set_rules (update_where p (set_rule_enabled on reason paused) (rules s)) s);
  if bool_decide (n = 0%nat) then throw RuleNotFound else mret tt.

Definition DeleteRule (id : string) : mop unit :=
  _ ← db (DbError "deleting rule");
  n ← gets (fun s => affected (fun r => bool_decide (rr_id r = id)) (rules s));
  _ ← modify (fun s => set_rules (filter (fun r => rr_id r <> id) (rules s)) s);
  if bool_decide (n = 0%nat) then throw RuleNotFound else mret tt.

Definition PauseAccount (accountID reason : string) : mop Z :=
  t ← now;
  _ ← db (DbError "pausing rules");
  let p r := bool_decide (rr_account r = accountID) && bool_decide (rr_enabled r = 1) in
  n ← gets (fun s => affected p (rules s));
  _ ← modify (fun s => set_rules (update_where p (set_rule_enabled false reason (Some t)) (rules s)) s);
  mret (Z.of_nat n).

(** ** Proposals ([proposals.go]) *)

(** [string([]rune(s)[:n])]: an ill-formed byte comes back as U+FFFD. *)
Definition truncateRunes (s : string) (n : Z) : string :=
  if count (runes s) <=? n then s else encode_runes (take (Z.to_nat n) (runes s)).

Definition Propose (source agentID : string) (r : Rule) (rationale : string) : mop Proposal :=
  if negb (bool_decide (source = SourceAgent)) && negb (bool_decide (source = SourceUser)) then throw UnknownSource
  else
    r ← lift (match Validate (with_id "" (with_enabled false r)) with Ok r' => Ok r' | Err e => Err (InvalidRule e) end);
    n ← draw;
    t ← now;
    let p := mkProposal ("prop_" +:+ uuid_string n) source agentID r (truncateRunes rationale 500) ProposalPending "" t None in
    _ ← db (DbError "storing proposal");
    _ ← modify (fun s => set_proposals (proposals s ++
          [mkProposalRow (PrID p) source agentID (rule_json r) (Rationale p) ProposalPending "" t None]) s);
    mret p.

Definition scanProposal (row : ProposalRow) : result mail_error Proposal :=
  match rule_of_json (pr_json row) with
  | None => Err DecodingRule
  | Some r => Ok (mkProposal (pr_id row) (pr_source row) (pr_agent row) r (pr_rationale row) (pr_status row)
                    (pr_rule row) (pr_created row) (pr_decided row))
  end.

Definition GetProposal (id : string) : mop Proposal :=
  _ ← db (DbError "reading proposal");
  row ← gets (fun s => find (fun r => bool_decide (pr_id r = id)) (proposals s));
  match row with None => throw RuleNotFound | Some r => lift (scanProposal r) end.

Definition ListProposals (status : string) : mop (list Proposal) :=
  _ ← db (DbError "listing proposals");
  rows ← gets (fun s => take 200 (order_newest pr_created pr_id
           (filter (fun r => status = "" \/ pr_status r = status) (proposals s))));
  lift (mapM_result scanProposal rows).

Definition decide_proposal (status ruleID : option string) (t : Z) (r : ProposalRow) : ProposalRow :=
  mkProposalRow (pr_id r) (pr_source r) (pr_agent r) (pr_json r) (pr_rationale r) (default (pr_status r) status)
    (default (pr_rule r) ruleID) (pr_created r) (Some t).

Definition pending_row (id : string) (r : ProposalRow) : bool :=
  bool_decide (pr_id r = id) && bool_decide (pr_status r = ProposalPending).

Definition Approve (id actor : string) : mop StoredRule :=
  p ← GetProposal id;
  if negb (bool_decide (PrStatus p = ProposalPending)) then throw ProposalDecided
  else
    stored ← CreateRule (with_enabled true (PrRule p)) actor;
    t ← now;
    _ ← db (DbError "deciding proposal");
    n ← gets (fun s => affected (pending_row id) (proposals s));
    _ ← modify (fun s => set_proposals
          (update_where (pending_row id) (decide_proposal (Some ProposalApproved) (Some (ID (SRule stored))) t) (proposals s)) s);
    if bool_decide (n = 0%nat) then (_ ← ignore (DeleteRule (ID (SRule stored))); throw ProposalDecided)
    else mret stored.

Definition Reject (id : string) : mop unit :=
  t ← now;
  _ ← db (DbError "deciding proposal");
  n ← gets (fun s => affected (pending_row id) (proposals s));
  _ ← modify (fun s => set_proposals
        (update_where (pending_row id) (decide_proposal (Some ProposalRejected) None t) (proposals s)) s);
  if bool_decide (n = 0%nat) then (_ ← GetProposal id; throw ProposalDecided) else mret tt.

End stores.
