(* ===== verification/MailAccounts.v ===== *)
(** * Mail and calendar: accounts ([internal/mailcal/accounts.go])

    The account store: validation (no credential in the configuration), the
    rows, and the status consulted before every call. *)

From S2P Require Import Prelude GoStrings Regex Address PolicyRule PolicyEval Io Tables MailTypes.

#[local] Open Scope Z_scope.

Section accounts.
Context `{ME : MailEnv} `{P : Platform} `{MC : MailCodec}.

Definition maxConfigBytes : Z := 16 * 1024.

Definition re_dash_or_low : re := ropt (RCls (fun r => (r =? 95) || (r =? 45))).
Definition secretKeyRE : re :=
  alts [rs [lit_i "pass"; ropt (alts [lit_i "word"; lit_i "wd"])]; lit_i "secret"; lit_i "token";
        rs [lit_i "api"; re_dash_or_low; lit_i "key"]; lit_i "credential"; rs [lit_i "private"; re_dash_or_low; lit_i "key"]].

(** The path of a key that looks like a credential, at any depth. *)
Fixpoint walk (prefix : string) (v : cval) : option string :=
  match v with
  | CMap m =>
    (fix go (m : list (string * cval)) : option string :=
       match m with
       | [] => None
       | (k, child) :: m' =>
         let path := if bool_decide (prefix = "") then k else prefix +:+ "." +:+ k in
         if match_string secretKeyRE k then Some path
         else match walk path child with Some p => Some p | None => go m' end
       end) m
  | CArr l =>
    (fix go (l : list cval) : option string :=
       match l with
       | [] => None
       | child :: l' => match walk prefix child with Some p => Some p | None => go l' end
       end) l
  | CLeaf _ => None
  end.

Definition rejectSecrets (config : list (string * cval)) : result mail_error unit :=
  match walk "" (CMap config) with Some p => Err (InvalidAccount (SecretInConfig p)) | None => Ok tt end.

Definition encode_config (config : list (string * cval)) : result mail_error string :=
  match config_json config with
  | Some cfg => if maxConfigBytes <? len cfg then Err (InvalidAccount ConfigTooLarge) else Ok cfg
  | None => Err (InvalidAccount ConfigTooLarge)
  end.

Definition owner_email (email : string) : result mail_error string :=
  if bool_decide (trim_space email = "") then Ok ""
  else match NormalizeEmail email with Ok e => Ok e | Err _ => Err (InvalidAccount BadEmail) end.

Record NewAccount := mkNewAccount {
  NaLabel : string; NaPluginID : string; NaKind : string; NaEmail : string;
  NaConfig : list (string * cval); NaAuth : AuthRef }.

Definition check_account (a : NewAccount) : result mail_error (string * string * AuthRef * string) :=
  let label := trim_space (NaLabel a) in
  if bool_decide (label = "") then Err (InvalidAccount LabelRequired)
  else if bool_decide (trim_space (NaPluginID a) = "") then Err (InvalidAccount PluginRequired)
  else if negb (bool_decide (NaKind a ∈ [KindMail; KindCalendar; KindBoth])) then Err (InvalidAccount BadKind)
  else
    email ← owner_email (NaEmail a);
    let auth := if bool_decide (AuthType (NaAuth a) = "")
                then mkAuth "none" (AuthProvider (NaAuth a)) (SecretRefs (NaAuth a)) else NaAuth a in
    if negb (bool_decide (AuthType auth ∈ ["none"; "oauth"; "password"])) then Err (InvalidAccount BadAuthType)
    else
      _ ← rejectSecrets (NaConfig a);
      cfg ← encode_config (NaConfig a);
      Ok (label, email, auth, cfg).

Definition CreateAccount (a : NewAccount) : mop Account :=
  '(label, email, auth, cfg) ← lift (check_account a);
  t ← now;
  n ← draw;
  let acct := mkAccount ("acct_" +:+ uuid_string n) label (NaPluginID a) (NaKind a) email (NaConfig a) auth StatusOK "" t t in
  _ ← db (DbError "storing account");
  _ ← modify (fun s => set_accounts (accounts s ++
        [mkAccountRow (AcID acct) label (NaPluginID a) (NaKind a) email cfg (auth_json auth) StatusOK "" t t]) s);
  mret acct.

Definition scanAccount (r : AccountRow) : result mail_error Account :=
  match config_of_json (ac_config r), auth_of_json (ac_auth r) with
  | Some cfg, Some auth =>
    Ok (mkAccount (ac_id r) (ac_label r) (ac_plugin r) (ac_kind r) (ac_email r) cfg auth (ac_status r) (ac_detail r)
          (ac_created r) (ac_updated r))
  | _, _ => Err DecodingAccount
  end.

Definition GetAccount (id : string) : mop Account :=
  _ ← db (DbError "reading account");
  row ← gets (fun s => find (fun r => bool_decide (ac_id r = id)) (accounts s));
  match row with None => throw AccountNotFound | Some r => lift (scanAccount r) end.

(** [ORDER BY created_at, id]. *)
Definition oldest_first (a b : AccountRow) : Prop :=
  ac_created a < ac_created b \/ (ac_created a = ac_created b /\ String.leb (ac_id a) (ac_id b) = true).
#[local] Instance oldest_first_dec a b : base.Decision (oldest_first a b). Proof. unfold oldest_first. apply _. Defined.

Definition ListAccounts : mop (list Account) :=
  _ ← db (DbError "listing accounts");
  rows ← gets (fun s => merge_sort oldest_first (accounts s));
  lift (mapM_result scanAccount rows).

Definition update_row (label email cfg : string) (t : Z) (r : AccountRow) : AccountRow :=
  mkAccountRow (ac_id r) label (ac_plugin r) (ac_kind r) email cfg (ac_auth r) (ac_status r) (ac_detail r) (ac_created r) t.

Definition UpdateAccount (id label email : string) (config : list (string * cval)) : mop Account :=
  cur ← GetAccount id;
  let label := trim_space label in
  if bool_decide (label = "") then throw (InvalidAccount LabelRequired)
  else
    normalized ← lift (owner_email email);
    _ ← lift (rejectSecrets config);
    cfg ← lift (encode_config config);
    t ← now;
    _ ← db (DbError "updating account");
    _ ← modify (fun s => set_accounts (update_where (fun r => bool_decide (ac_id r = id)) (update_row label normalized cfg t) (accounts s)) s);
    mret (mkAccount (AcID cur) label (PluginID cur) (Kind cur) normalized config (Auth cur) (AcStatus cur) (StatusDetail cur) (AcCreatedAt cur) t).

Definition update_account_row (id : string) (f : Z -> AccountRow -> AccountRow) : mop unit :=
  t ← now;
  _ ← db (DbError "updating account");
  n ← gets (fun s => affected (fun r => bool_decide (ac_id r = id)) (accounts s));
  _ ← modify (fun s => set_accounts (update_where (fun r => bool_decide (ac_id r = id)) (f t) (accounts s)) s);
  if bool_decide (n = 0%nat) then throw AccountNotFound else mret tt.

Definition SetAuth (id : string) (auth : AuthRef) : mop unit :=
  update_account_row id (fun t r => mkAccountRow (ac_id r) (ac_label r) (ac_plugin r) (ac_kind r) (ac_email r) (ac_config r)
    (auth_json auth) (ac_status r) (ac_detail r) (ac_created r) t).

Definition SetStatus (id status detail : string) : mop unit :=
  update_account_row id (fun t r => mkAccountRow (ac_id r) (ac_label r) (ac_plugin r) (ac_kind r) (ac_email r) (ac_config r)
    (ac_auth r) status detail (ac_created r) t).

(** One transaction: the account and its drafts, or nothing. *)
Definition DeleteAccount (id : string) : mop unit :=
  _ ← db (DbError "starting transaction");
  _ ← db (DbError "deleting account");
  n ← gets (fun s => affected (fun r => bool_decide (ac_id r = id)) (accounts s));
  if bool_decide (n = 0%nat) then throw AccountNotFound
  else
    _ ← db (DbError "deleting drafts");
    _ ← db (DbError "committing");
    modify (fun s => set_drafts (filter (fun r => dr_account r <> id) (drafts s))
                       (set_accounts (filter (fun r => ac_id r <> id) (accounts s)) s)).

(** ** No credential in a stored configuration *)

(** A key somewhere in a decoded configuration. *)
Inductive has_key (k : string) : cval -> Prop :=
  | hk_here m child : (k, child) ∈ m -> has_key k (CMap m)
  | hk_map m k' child : (k', child) ∈ m -> has_key k child -> has_key k (CMap m)
  | hk_arr l child : child ∈ l -> has_key k child -> has_key k (CArr l).

Lemma walk_none prefix v k : walk prefix v = None -> has_key k v -> match_string secretKeyRE k = false.
Proof.
  intros Hw Hk. revert prefix Hw. induction Hk as [m child Hin|m k' child Hin Hk IH|l child Hin Hk IH]; intros prefix Hw.
  - cbn [walk] in Hw. induction m as [|[k0 c0] m IHm]; [set_solver|].
    destruct (match_string secretKeyRE k0) eqn:Hm; [done|]. destruct (walk _ c0); [done|].
    apply elem_of_cons in Hin as [[= <- <-]|Hin]; [done|]. by apply IHm.
  - cbn [walk] in Hw. induction m as [|[k0 c0] m IHm]; [set_solver|].
    destruct (match_string secretKeyRE k0) eqn:Hm; [done|]. destruct (walk _ c0) eqn:Hc; [done|].
    apply elem_of_cons in Hin as [[= <- <-]|Hin]; [by eapply IH|]. by apply IHm.
  - cbn [walk] in Hw. induction l as [|c0 l IHl]; [set_solver|].
    destruct (walk prefix c0) eqn:Hc; [done|].
    apply elem_of_cons in Hin as [->|Hin]; [by eapply IH|]. by apply IHl.
Qed.

Lemma rejectSecrets_ok config k :
  rejectSecrets config = Ok tt -> has_key k (CMap config) -> match_string secretKeyRE k = false.
Proof.
  unfold rejectSecrets. destruct (walk _ _) eqn:Hw; [done|]. intros _. by apply walk_none with "".
Qed.

End accounts.
