(* ===== verification/MailService.v ===== *)
(** * Mail and calendar: the service ([service.go, writeops.go, bounce.go, tools_write.go])

    Resolving accounts, calling providers with bounded retries, deciding and
    carrying out writes.  One operation runs at a time here: the ledger's lock
    of a key is held from [Begin] to the end of the operation, as in the code;
    interleaved operations on different keys are not modelled. *)

From S2P Require Import Prelude GoStrings Address PolicyRule PolicyEval Io Tables MailTypes MailStore MailAccounts.

#[local] Open Scope Z_scope.

Section service.
Context `{ME : MailEnv} `{P : Platform} `{MC : MailCodec} `{PL : Plugins}.

(** ** Providers *)

(** One provider call: it is made, and answered from the history of calls. *)
Definition ask {A} (c : call) (answer : list call -> result call_error A) : mop (result call_error A) :=
  h ← gets calls;
  _ ← modify (add_call c);
  mret (answer h).

Definition declaresMailCal (caps : list string) : bool :=
  existsb (fun c => has_prefix c "mail@" || has_prefix c "calendar@") caps.
Definition hasABI (l : list string) (want : string) : bool := bool_decide (want ∈ l).

Definition registerProvider (pluginID : string) (caps : Capabilities) : mop unit :=
  modify (fun s => set_providers (<[pluginID := mkProvider caps]> (providers s)) s).

(** [probe] is what the plugin answers to the capabilities call. *)
Definition PluginActivated (pluginID : string) (declared : list string) (probe : result call_error Capabilities) : mop unit :=
  if negb (declaresMailCal declared) then mret tt
  else match probe with
  | Err _ => mret tt
  | Ok caps =>
    if negb (hasABI (ABI caps) CapMail) && negb (hasABI (ABI caps) CapCalendar) then mret tt
    else registerProvider pluginID caps
  end.

Definition PluginDeactivated (pluginID : string) : mop unit :=
  modify (fun s => set_providers (delete pluginID (providers s)) s).

Definition ValidateAccountAgainstProvider (pluginID kind : string) : mop unit :=
  e ← gets (fun s => providers s !! pluginID);
  match e with
  | None => throw (InvalidAccount PluginNotLoaded)
  | Some e =>
    let abi := ABI (pe_caps e) in
    if (bool_decide (kind = KindMail) || bool_decide (kind = KindBoth)) && negb (hasABI abi CapMail)
    then throw (InvalidAccount NoMailSupport)
    else if (bool_decide (kind = KindCalendar) || bool_decide (kind = KindBoth)) && negb (hasABI abi CapCalendar)
    then throw (InvalidAccount NoCalendarSupport)
    else mret tt
  end.

(** ** Accounts and their provider *)

Record binding := mkBinding { b_account : Account; b_caps : Capabilities }.

Definition serves (need : string) (a : Account) : bool :=
  (bool_decide (need = KindMail) && SupportsMail a) || (bool_decide (need = KindCalendar) && SupportsCalendar a).

Definition resolve (accountID need : string) : mop binding :=
  acct ← (if bool_decide (trim_space accountID = "") then
            all ← ListAccounts;
            match filter (fun a => serves need a = true) all with
            | [] => throw (NoSuchAccount need)
            | [a] => mret a
            | fit => throw (SeveralAccounts (AcID <$> fit))
            end
          else
            a ← GetAccount accountID;
            if (bool_decide (need = KindMail) && negb (SupportsMail a))
               || (bool_decide (need = KindCalendar) && negb (SupportsCalendar a))
            then throw (DoesNotServe need) else mret a);
  if negb (bool_decide (AcStatus acct = StatusOK)) then throw (AccountNotOk (AcStatus acct))
  else
    e ← gets (fun s => providers s !! PluginID acct);
    match e with
    | None => throw PluginMissing
    | Some e => mret (mkBinding acct (pe_caps e))
    end.

Definition unsupported (b : binding) (export : string) : call_error :=
  Coded (mkError ErrUnsupported ("the provider for account " +:+ AcID (b_account b) +:+ " does not support " +:+ export) 0).
Definition require (b : binding) (export : string) : mop unit :=
  if Supports (b_caps b) export then mret tt else throw (FromProvider (unsupported b export)).

(** The back-off sleep: time passes, or the context is cancelled. *)
Definition sleep (d : Z) : mop unit := _ ← now; db Cancelled.

Definition mark_auth_expired (b : binding) (msg : string) : mop unit :=
  ignore (SetStatus (AcID (b_account b)) StatusAuthExpired msg).

(** ** Retries *)

Definition readBackoff : list Z := [200 * millisecond; 800 * millisecond].
Definition writeBackoff : list Z := [300 * millisecond; 1200 * millisecond].

Fixpoint read_retry {A} (b : binding) (fn : mop (result call_error A)) (backoff : list Z) : mop A :=
  r ← fn;
  match r with
  | Ok a => mret a
  | Err err =>
    match AsError err with
    | None => throw (FromProvider err)
    | Some e =>
      if bool_decide (Code e = ErrAuthExpired) then (_ ← mark_auth_expired b (Message e); throw (FromProvider err))
      else if bool_decide (Code e = ErrTransient) || bool_decide (Code e = ErrRateLimited) then
        match backoff with
        | [] => throw (FromProvider err)
        | d :: rest =>
          if bool_decide (Code e = ErrRateLimited) && (0 <? RetryAfterMS e) then
            if 5000 <? RetryAfterMS e then throw (FromProvider err)
            else (_ ← sleep (RetryAfterMS e * millisecond); read_retry b fn rest)
          else (_ ← sleep d; read_retry b fn rest)
        end
      else throw (FromProvider err)
    end
  end.
Definition readCall {A} (b : binding) (fn : mop (result call_error A)) : mop A := read_retry b fn readBackoff.

Fixpoint write_retry {A} (b : binding) (fn : mop (result call_error A)) (backoff : list Z) : mop A :=
  r ← fn;
  match r with
  | Ok a => mret a
  | Err err =>
    match AsError err with
    | None => throw (FromProvider err)
    | Some e =>
      if bool_decide (Code e = ErrAuthExpired) then (_ ← mark_auth_expired b (Message e); throw (FromProvider err))
      else if bool_decide (Code e = ErrTransient) then
        match backoff with
        | [] => throw (FromProvider err)
        | d :: rest => _ ← sleep d; write_retry b fn rest
        end
      else throw (FromProvider err)
    end
  end.
Definition writeCall {A} (b : binding) (fn : mop (result call_error A)) : mop A := write_retry b fn writeBackoff.

(** ** Deciding ([writeops.go]) *)

Definition actionMailDelete : string := "mail_delete".
Definition actionCalDelete : string := "calendar_delete".
Definition actionCalRespond : string := "calendar_respond".

Definition addrsToEmails (l : list Address) : list string := Email <$> l.

Definition requestForDraft (d : Draft) : Request :=
  let p := Payload d in
  mkRequest (DrAccountID d) (match DrReply d with Some _ => ActionReply | None => ActionSendNew end) false
    (addrsToEmails (PTo p)) (addrsToEmails (PCc p)) (addrsToEmails (PBcc p)) (PSubject p) (PBodyText p) 0
    ((fun rc => mkReplyFacts (RcVerified rc) (RcParticipants rc)) <$> DrReply d) None.

Definition eventFacts (ev : Event) : result mail_error CalendarFacts :=
  match (if bool_decide (EvTimeZone ev = "") then Some (fun _ => 0) else load_location (EvTimeZone ev)) with
  | None => Err UnknownTimeZone
  | Some zone =>
    let in_zone t := mkZoned t (zone t) in
    Ok (mkCalendarFacts (in_zone (EvStart ev)) (in_zone (EvEnd ev)) (AttEmail <$> EvAttendees ev)
          (match EvOrganizer ev with Some a => Email a | None => "" end))
  end.

Definition plain_request (account action : string) (destructive : bool) (facts : option CalendarFacts) : Request :=
  mkRequest account action destructive [] [] [] "" "" 0 None facts.

(** The answers the engine will get from the usage counter, counted rule by
    rule, hour then day. *)
Fixpoint usage_table (l : list Rule) : mop (list (string * Z * usage_answer)) :=
  match l with
  | [] => mret []
  | r :: l' =>
    h ← attempt (CountAutoExecutions (ID r) hour);
    d ← attempt (CountAutoExecutions (ID r) (24 * hour));
    rest ← usage_table l';
    let answer (c : result mail_error Z) := match c with Ok n => UCount n | Err _ => UError end in
    mret ((ID r, hour, answer h) :: (ID r, 24 * hour, answer d) :: rest)
  end.

Definition table_usage (tab : list (string * Z * usage_answer)) : Usage := fun id w =>
  match find (fun x => bool_decide (x.1 = (id, w))) tab with Some (_, a) => a | None => UError end.

Definition off_text : string := "mail and calendar writes are switched off".

Definition Decide (req : Request) : mop Decision :=
  on ← Enabled_;
  if negb on then mret (mkDecision VerdictDeny "" [off_text])
  else
    stored ← attempt (ListRules (QAccountID req));
    match stored with
    | Err _ => mret (mkDecision VerdictNeedsApproval "" ["the rule book could not be read"])
    | Ok stored =>
      let rules := SRule <$> stored in
      t ← now;
      tab ← usage_table rules;
      mret (Evaluate rules req t (Some (table_usage tab)))
    end.

Record WriteOptions := mkWriteOptions { WAgentID : string; WTraceID : string; WApproved : bool }.

Definition authorize (dec : Decision) (opt : WriteOptions) : mop unit :=
  match DVerdict dec with
  | VerdictDeny => throw (WriteDenied (Reasons dec))
  | VerdictNeedsApproval => if WApproved opt then mret tt else throw (ApprovalRequired (Reasons dec))
  | VerdictAllow => mret tt
  end.

(** ** Writes *)

Definition executed (account : string) (opt : WriteOptions) (tool draft hash : string) (dec : Decision) (rule outcome : string) : DecisionRecord :=
  mkDecisionRecord "" 0 PhaseExecuted account (WAgentID opt) tool draft hash (DVerdict dec) rule [] (WApproved opt) outcome.

Definition ToolMailSend : string := "native_mail_send".
Definition ToolMailDelete : string := "native_mail_delete".
Definition ToolCalCreate : string := "native_calendar_create_event".
Definition ToolCalUpdate : string := "native_calendar_update_event".
Definition ToolCalRespond : string := "native_calendar_respond".
Definition ToolCalDelete : string := "native_calendar_delete_event".

Record SendResult := mkSendReport { SrMessageID : string; SrThreadID : string; SrReplayed : bool; SrRuleID : string }.

Definition send_key (d : Draft) : string := KeyFor ["mail_send"; DrAccountID d; DrID d].
Definition send_params (d : Draft) : MailSendParams :=
  let p := Payload d in
  mkSendParams (PTo p) (PCc p) (PBcc p) (PSubject p) (PBodyText p) (PInReplyTo p) (PThreadID p) (send_key d).

Definition Send (draftID : string) (opt : WriteOptions) : mop SendResult :=
  d ← GetDraft draftID;
  dec ← Decide (requestForDraft d);
  _ ← authorize dec opt;
  b ← resolve (DrAccountID d) KindMail;
  _ ← require b ExportMailSend;
  let key := send_key d in
  '(entry, existed) ← Begin (mkLedgerEntry key (DrAccountID d) (DrID d) (PayloadHash d) "" "" "" 0 None);
  if existed && bool_decide (State entry = LedgerSent)
  then mret (mkSendReport (LProviderMessageID entry) (LThreadID entry) true (RuleID dec))
  else
    res ← writeCall b (ask (CallMailSend (AcID (b_account b)) (send_params d))
                         (fun h => ask_send h (AcID (b_account b)) (send_params d)));
    done ← attempt (Complete key (ProviderMessageID res) (ResThreadID res));
    _ ← ignore (Record_ (executed (DrAccountID d) opt ToolMailSend (DrID d) (PayloadHash d) dec (RuleID dec)
                  (if is_ok done then "sent" else "sent_ledger_update_failed")));
    mret (mkSendReport (ProviderMessageID res) (ResThreadID res) (Replayed res) (RuleID dec)).

Definition MailDelete (accountID : string) (ids : list string) (opt : WriteOptions) : mop unit :=
  b ← resolve accountID KindMail;
  if bool_decide (ids = []) then throw NoMessageIds
  else
    let id := AcID (b_account b) in
    dec ← Decide (plain_request id actionMailDelete true None);
    _ ← authorize dec opt;
    _ ← require b ExportMailDelete;
    _ ← writeCall b (ask (CallMailDelete id ids) (fun h => ask_unit h (CallMailDelete id ids)));
    Record_ (executed id opt ToolMailDelete "" "" dec "" ("deleted " +:+ pretty (count ids))).

Definition with_event_id (id : string) (ev : Event) : Event :=
  mkEvent id (EvCalendarID ev) (EvTitle ev) (EvStart ev) (EvEnd ev) (EvTimeZone ev) (EvAllDay ev) (EvLocation ev)
    (EvDescription ev) (EvConferenceURL ev) (EvAttendees ev) (EvOrganizer ev).

Definition create_key (account : string) (opt : WriteOptions) (ev : Event) : string :=
  KeyFor ["cal_create"; account; WTraceID opt; event_json ev].

Definition CalendarCreate (accountID : string) (ev : Event) (sendUpdates : bool) (opt : WriteOptions) : mop Event :=
  b ← resolve accountID KindCalendar;
  facts ← lift (eventFacts ev);
  let id := AcID (b_account b) in
  dec ← Decide (plain_request id ActionCalendarCreate false (Some facts));
  _ ← authorize dec opt;
  _ ← require b ExportCalCreateEvent;
  let key := create_key id opt ev in
  '(entry, existed) ← Begin (mkLedgerEntry key id "" (KeyFor [event_json ev]) "" "" "" 0 None);
  if existed && bool_decide (State entry = LedgerSent)
  then mret (with_event_id (LProviderMessageID entry) ev)
  else
    let c := CallCalCreate id (mkCalWrite ev sendUpdates key) in
    out ← writeCall b (ask c (fun h => ask_event h c));
    _ ← ignore (Complete key (EvID out) "");
    _ ← ignore (Record_ (executed id opt ToolCalCreate "" "" dec (RuleID dec) "created"));
    mret out.

Definition CalendarUpdate (accountID : string) (ev : Event) (sendUpdates : bool) (opt : WriteOptions) : mop Event :=
  b ← resolve accountID KindCalendar;
  if bool_decide (trim_space (EvID ev) = "") then throw EventIDRequired
  else
    facts ← lift (eventFacts ev);
    let id := AcID (b_account b) in
    dec ← Decide (plain_request id ActionCalendarUpdate false (Some facts));
    _ ← authorize dec opt;
    _ ← require b ExportCalUpdateEvent;
    let c := CallCalUpdate id (mkCalWrite ev sendUpdates "") in
    out ← writeCall b (ask c (fun h => ask_event h c));
    _ ← ignore (Record_ (executed id opt ToolCalUpdate "" "" dec (RuleID dec) "updated"));
    mret out.

(** Only "accepted" has a rule action; the organizer is read from the provider. *)
Definition respondRequest (b : binding) (p : CalRespondParams) : mop Request :=
  let id := AcID (b_account b) in
  if negb (bool_decide (Response p = "accepted")) then mret (plain_request id actionCalRespond false None)
  else
    _ ← require b ExportCalGetEvent;
    let c := CallCalGet id (RCalendarID p) (REventID p) in
    ev ← readCall b (ask c (fun h => ask_event h c));
    facts ← lift (eventFacts ev);
    mret (plain_request id ActionCalendarAccept false (Some facts)).

Definition CalendarRespond (accountID : string) (p : CalRespondParams) (opt : WriteOptions) : mop Event :=
  b ← resolve accountID KindCalendar;
  req ← respondRequest b p;
  dec ← Decide req;
  _ ← authorize dec opt;
  _ ← require b ExportCalRespond;
  let id := AcID (b_account b) in
  let c := CallCalRespond id p in
  out ← writeCall b (ask c (fun h => ask_event h c));
  _ ← ignore (Record_ (executed id opt ToolCalRespond "" "" dec (RuleID dec) (Response p)));
  mret out.

Definition CalendarDelete (accountID : string) (p : CalDeleteParams) (opt : WriteOptions) : mop unit :=
  b ← resolve accountID KindCalendar;
  let id := AcID (b_account b) in
  dec ← Decide (plain_request id actionCalDelete true None);
  _ ← authorize dec opt;
  _ ← require b ExportCalDeleteEvent;
  let c := CallCalDelete id p in
  _ ← writeCall b (ask c (fun h => ask_unit h c));
  Record_ (executed id opt ToolCalDelete "" "" dec "" "deleted").

(** Marking and moving: no gate, but the master switch ([tools_write.go]). *)
Definition simpleMailWrite (accountID export : string) (c : string -> call) : mop unit :=
  b ← resolve accountID KindMail;
  _ ← require b export;
  on ← Enabled_;
  if negb on then throw MailcalOff
  else writeCall b (ask (c (AcID (b_account b))) (fun h => ask_unit h (c (AcID (b_account b))))).

Definition MailMark (accountID : string) (ids : list string) (unread : bool) : mop unit :=
  if bool_decide (ids = []) then throw NoMessageIds
  else simpleMailWrite accountID ExportMailMark (fun a => CallMailMark a ids unread).
Definition MailMove (accountID : string) (ids : list string) (folder : string) : mop unit :=
  if bool_decide (ids = []) || bool_decide (trim_space folder = "") then throw NoMessageIds
  else simpleMailWrite accountID ExportMailMove (fun a => CallMailMove a ids folder).

(** ** The gate ([tools_write.go]) *)

(** The decoded input of each gated tool. *)
Inductive gate_input :=
  | GateSend (draftID : string) | GateMailDelete (account : string)
  | GateCalWrite (create : bool) (account : string) (ev : Event)
  | GateRespond (account : string) (p : CalRespondParams) | GateCalDelete (account : string)
  | GateOther.

Definition gateRequest (g : gate_input) : mop (Request * string * string) :=
  match g with
  | GateSend draftID => d ← GetDraft (trim_space draftID); mret (requestForDraft d, DrID d, PayloadHash d)
  | GateMailDelete account =>
    b ← resolve account KindMail; mret (plain_request (AcID (b_account b)) actionMailDelete true None, "", "")
  | GateCalWrite create account ev =>
    b ← resolve account KindCalendar;
    facts ← lift (eventFacts ev);
    mret (plain_request (AcID (b_account b)) (if create then ActionCalendarCreate else ActionCalendarUpdate) false (Some facts), "", "")
  | GateRespond account p =>
    b ← resolve account KindCalendar; req ← respondRequest b p; mret (req, "", "")
  | GateCalDelete account =>
    b ← resolve account KindCalendar; mret (plain_request (AcID (b_account b)) actionCalDelete true None, "", "")
  | GateOther => throw NoGateRules
  end.

Definition gate_action (v : Verdict) : string :=
  match v with VerdictAllow => "allow" | VerdictNeedsApproval => "needs_approval" | VerdictDeny => "deny" end.

(** [Check]: the verdict that the registry acts on, after an audit line. *)
Definition Check_ (agentID toolName : string) (g : gate_input) : mop (string * string) :=
  '(req, draft, hash) ← gateRequest g;
  dec ← Decide req;
  _ ← ignore (Record_ (mkDecisionRecord "" 0 PhaseGate (QAccountID req) agentID toolName draft hash
                (DVerdict dec) (RuleID dec) (Reasons dec) false ""));
  mret (gate_action (DVerdict dec), join (Reasons dec) "; ").

End service.
