(* ===== verification/MailRead.v ===== *)
(** * Mail and calendar: reads, drafts and proposals ([service.go, bounce.go, proposals.go])

    Reading through a provider, the bounce monitor that pauses an account's
    rules, creating drafts with a verified reply context, and the proposals
    built from drafts. *)

From S2P Require Import Prelude GoStrings Address PolicyRule PolicyEval Io Tables MailTypes MailStore MailAccounts MailService.

#[local] Open Scope Z_scope.

Section reads.
Context `{ME : MailEnv} `{P : Platform} `{MC : MailCodec} `{PL : Plugins}.

(** ** Bounces ([bounce.go]) *)

Definition bounceLimit : Z := 3.
Definition bounceWindow : Z := hour.

Definition LooksLikeBounce (m : Message_) : bool :=
  let from := to_lower (Email (MsgFrom m)) in
  let subj := to_lower (MsgSubject m) in
  has_prefix from "mailer-daemon@" || has_prefix from "postmaster@"
  || contains_str subj "undelivered mail returned to sender"
  || contains_str subj "delivery status notification"
  || contains_str subj "mail delivery failed"
  || contains_str subj "undeliverable:".

Definition record_bounce (account : string) (m : Message_) : mop unit :=
  if negb (LooksLikeBounce m) then mret tt
  else
    seen ← attempt (HasBounce account (MsgID m));
    match seen with
    | Ok false =>
      ignore (Record_ (mkDecisionRecord "" 0 PhaseBounce account "" "inbox" (MsgID m) "" VerdictNeedsApproval "" [] false
                         "returned message observed"))
    | _ => mret tt
    end.

Definition observeInbox (account : string) (msgs : list Message_) : mop unit :=
  _ ← for_each (record_bounce account) msgs;
  n ← attempt (CountSince account PhaseBounce bounceWindow);
  match n with
  | Err _ => mret tt
  | Ok n =>
    if n <? bounceLimit then mret tt
    else
      paused ← attempt (PauseAccount account "automatic pause: several returned messages in one hour");
      match paused with
      | Ok k =>
        if 0 <? k then
          ignore (Record_ (mkDecisionRecord "" 0 PhaseBounce account "" "auto_pause" "" "" VerdictDeny "" [] false "rules paused"))
        else mret tt
      | Err _ => mret tt
      end
  end.

(** ** Reads ([service.go]) *)

Definition MailList (accountID folder cursor : string) (limit : Z) (unread : bool) : mop (list Message_) :=
  b ← resolve accountID KindMail;
  _ ← require b ExportMailList;
  let c := CallMailList (AcID (b_account b)) folder cursor limit unread in
  msgs ← readCall b (ask c (fun h => ask_list h c));
  _ ← observeInbox (AcID (b_account b)) msgs;
  mret msgs.

Definition MailSearch (accountID query : string) : mop (list Message_) :=
  b ← resolve accountID KindMail;
  _ ← require b ExportMailSearch;
  let c := CallMailSearch (AcID (b_account b)) query in
  readCall b (ask c (fun h => ask_list h c)).

Definition get_message (b : binding) (id : string) : mop Message_ :=
  readCall b (ask (CallMailGet (AcID (b_account b)) id) (fun h => ask_message h (AcID (b_account b)) id)).
Definition get_thread (b : binding) (id : string) : mop Thread :=
  readCall b (ask (CallMailGetThread (AcID (b_account b)) id) (fun h => ask_thread h (AcID (b_account b)) id)).

Definition MailGet (accountID id : string) : mop Message_ :=
  b ← resolve accountID KindMail;
  _ ← require b ExportMailGet;
  get_message b id.

Definition MailThread (accountID threadID : string) : mop Thread :=
  b ← resolve accountID KindMail;
  _ ← require b ExportMailGetThread;
  get_thread b threadID.

Definition CalendarList (accountID calendar : string) (from to_ : Z) : mop (list Event) :=
  b ← resolve accountID KindCalendar;
  _ ← require b ExportCalListEvents;
  let c := CallCalList (AcID (b_account b)) calendar from to_ in
  readCall b (ask c (fun h => ask_events h c)).

Definition FreeBusy (accountID : string) (emails : list string) (from to_ : Z) : mop (list (string * list (Z * Z))) :=
  b ← resolve accountID KindCalendar;
  _ ← require b ExportCalFreeBusy;
  let c := CallFreeBusy (AcID (b_account b)) emails from to_ in
  readCall b (ask c (fun h => ask_busy h c)).

Definition CalendarGet (accountID calendar id : string) : mop Event :=
  b ← resolve accountID KindCalendar;
  _ ← require b ExportCalGetEvent;
  let c := CallCalGet (AcID (b_account b)) calendar id in
  readCall b (ask c (fun h => ask_event h c)).

(** ** Drafts with a verified reply context *)

Definition add_participant (seen : list string) (a : Address) : list string :=
  match NormalizeEmail (Email a) with
  | Ok e => if bool_decide (e ∈ seen) then seen else seen ++ [e]
  | Err _ => seen
  end.

Definition string_le (a b : string) : Prop := String.leb a b = true.
#[local] Instance string_le_dec a b : base.Decision (string_le a b). Proof. unfold string_le. apply _. Defined.

Definition thread_participants (t : Thread) : list string :=
  merge_sort string_le (fold_left add_participant
    (List.concat ((fun m => MsgFrom m :: MsgTo m ++ MsgCc m) <$> ThMessages t)) []).

Definition last_sender (own : string) (t : Thread) : string :=
  fold_left (fun last m => match NormalizeEmail (Email (MsgFrom m)) with
    | Ok e => if bool_decide (e = own) then last else e | Err _ => last end) (ThMessages t) "".

(** Any failure on the way is [ErrReplyUnverified]; a cancelled context too. *)
Definition replyContext (b : binding) (messageID : string) : mop ReplyContext :=
  map_err (fun _ => ReplyUnverified)
    (_ ← require b ExportMailGet;
     _ ← require b ExportMailGetThread;
     msg ← get_message b messageID;
     thread ← get_thread b (MsgThreadID msg);
     mret (mkReplyContext (MsgID msg) (MsgThreadID msg) true (thread_participants thread)
             (last_sender (AcEmail (b_account b)) thread))).

Definition set_thread (inReplyTo threadID : string) (p : DraftPayload) : DraftPayload :=
  mkPayload (PTo p) (PCc p) (PBcc p) (PSubject p) (PBodyText p) inReplyTo threadID.

Definition CreateDraft (accountID agentID traceID : string) (payload : DraftPayload) : mop Draft :=
  b ← resolve accountID KindMail;
  _ ← require b ExportMailSend;
  if negb (bool_decide (PThreadID payload = "")) && bool_decide (PInReplyTo payload = "")
  then throw (InvalidDraft ThreadIdAlone)
  else
    '(payload, reply) ←
      (if bool_decide (trim_space (PInReplyTo payload) = "") then mret (set_thread (PInReplyTo payload) "" payload, None)
       else rc ← replyContext b (trim_space (PInReplyTo payload));
            mret (set_thread (RcMessageID rc) (RcThreadID rc) payload, Some rc));
    CreateDraftRow (mkNewDraft (AcID (b_account b)) agentID traceID payload reply (MaxRecipients (PLimits (b_caps b)))).

(** ** Proposals from drafts ([proposals.go]) *)

(** The narrowest rule that would have allowed the draft. *)
Definition rule_for_draft (d : Draft) : Rule :=
  let p := Payload d in
  let is_reply := match DrReply d with Some _ => true | None => false end in
  mkRule "" false None (DrAccountID d) (if is_reply then ActionReply else ActionSendNew) EffectAllow false
    (mkMatch (mkRecipients (addrsToEmails (PTo p ++ PCc p)) []) is_reply (mkBodyMatch BodyTemplate (PBodyText p) false) None)
    (mkLimits 3 10).

Definition ProposalFromDraft (draftID : string) : mop Proposal :=
  d ← GetDraft draftID;
  if negb (bool_decide (PBcc (Payload d) = [])) then throw BccNeverByRule
  else Propose SourceUser "" (rule_for_draft d) "created from an approved draft".

Definition DryRun (rule : Rule) (draftID : string) : mop Decision :=
  d ← GetDraft draftID;
  rule ← lift (match Validate (with_id "dry-run" (with_enabled true (with_account (DrAccountID d) rule))) with
               | Ok r => Ok r | Err e => Err (InvalidRule e) end);
  t ← now;
  mret (Evaluate [rule] (requestForDraft d) t (Some (fun _ _ => UCount 0))).

Definition EvaluateDraft (draftID : string) : mop Decision :=
  d ← GetDraft draftID;
  Decide (requestForDraft d).

(** ** Probing an account ([service.go]) *)

Inductive test_detail := Fine | PluginGone | ProbeFailed (what : string) (e : call_error).
Record TestResult := mkTestResult { TestOK : bool; Detail : test_detail; Checks : list string }.

(** The probe of one kind of data, once: [None] when it passes. *)
Definition probe_read {A} (b : binding) (export : string) (c : call) (answer : list call -> result call_error A) : mop (option call_error) :=
  if negb (Supports (b_caps b) export) then mret (Some (unsupported b export))
  else
    r ← ask c answer;
    match r with
    | Ok _ => mret None
    | Err e =>
      _ ← (match AsError e with
           | Some x => if bool_decide (Code x = ErrAuthExpired) then mark_auth_expired b (Message x) else mret tt
           | None => mret tt
           end);
      mret (Some e)
    end.

Definition probe_mail (b : binding) : mop (option call_error) :=
  let c := CallMailList (AcID (b_account b)) "" "" 1 false in
  if SupportsMail (b_account b) then probe_read b ExportMailList c (fun h => ask_list h c) else mret None.
Definition probe_calendar (b : binding) : mop (option call_error) :=
  if SupportsCalendar (b_account b) then
    if negb (Supports (b_caps b) ExportCalListEvents) then mret (Some (unsupported b ExportCalListEvents))
    else
      t ← now;
      let c := CallCalList (AcID (b_account b)) "" t (t + hour) in
      probe_read b ExportCalListEvents c (fun h => ask_events h c)
  else mret None.

Definition TestAccount (id : string) : mop TestResult :=
  acct ← GetAccount id;
  e ← gets (fun s => providers s !! PluginID acct);
  match e with
  | None => mret (mkTestResult false PluginGone [])
  | Some e =>
    let b := mkBinding acct (pe_caps e) in
    mail ← probe_mail b;
    match mail with
    | Some x => mret (mkTestResult false (ProbeFailed "mail" x) [])
    | None =>
      let checks := if SupportsMail acct then ["mail: listed the inbox"] else [] in
      cal ← probe_calendar b;
      match cal with
      | Some x => mret (mkTestResult false (ProbeFailed "calendar" x) checks)
      | None =>
        _ ← (if bool_decide (AcStatus acct = StatusOK) then mret tt else ignore (SetStatus id StatusOK ""));
        mret (mkTestResult true Fine (checks ++ (if SupportsCalendar acct then ["calendar: listed upcoming events"] else [])))
      end
    end
  end.

End reads.
