(* ===== verification/MailSpec.v ===== *)
(** * What mail and calendar promise

    A write reaches a provider only when the switch is on and the engine, or a
    person, allowed exactly it; a draft is sent at most once; nothing an agent
    can call enables a rule; stored configurations hold no credential. *)

From S2P Require Import Prelude GoStrings Regex Address PolicyRule PolicyEval PolicySpec Io Tables MailTypes MailStore MailAccounts MailService MailRead.

#[local] Open Scope Z_scope.

Section spec.
Context `{ME : MailEnv} `{P : Platform} `{MC : MailCodec} `{PL : Plugins}.

(** ** Time and failures along the operations *)

Lemma Enabled_quiet : quiet Enabled_. Proof. unfold Enabled_. quiet_go. Qed.
Lemma GetDraft_quiet id : quiet (GetDraft id). Proof. unfold GetDraft. quiet_go. Qed.
Lemma ListRules_quiet a : quiet (ListRules a). Proof. unfold ListRules. quiet_go. Qed.
Lemma CountAutoExecutions_quiet i w : quiet (CountAutoExecutions i w). Proof. unfold CountAutoExecutions. quiet_go. Qed.
Lemma GetAccount_quiet id : quiet (GetAccount id). Proof. unfold GetAccount. quiet_go. Qed.
Lemma ListAccounts_quiet : quiet ListAccounts. Proof. unfold ListAccounts. quiet_go. Qed.
Lemma Begin_quiet en : quiet (Begin en). Proof. unfold Begin. quiet_go. Qed.
Lemma sleep_quiet d : quiet (sleep d). Proof. unfold sleep. quiet_go. Qed.
Lemma mark_auth_expired_quiet b m : quiet (mark_auth_expired b m).
Proof. unfold mark_auth_expired, SetStatus, update_account_row. quiet_go. Qed.
Lemma Record_quiet d : quiet (Record_ d). Proof. unfold Record_. quiet_go. Qed.
Lemma ask_quiet {A} c (f : list call -> result call_error A) : quiet (ask c f). Proof. unfold ask. quiet_go. Qed.
#[local] Hint Resolve Enabled_quiet GetDraft_quiet ListRules_quiet CountAutoExecutions_quiet GetAccount_quiet ListAccounts_quiet
  Begin_quiet sleep_quiet mark_auth_expired_quiet Record_quiet ask_quiet : quiet.
Lemma usage_table_quiet l : quiet (usage_table l).
Proof. induction l as [|r l IH]; cbn [usage_table]; quiet_go. Qed.
#[local] Hint Resolve usage_table_quiet : quiet.
Lemma Decide_quiet q : quiet (Decide q). Proof. unfold Decide. quiet_go. Qed.
Lemma authorize_quiet d o : quiet (authorize d o). Proof. unfold authorize. quiet_go. Qed.
Lemma resolve_quiet a n : quiet (resolve a n). Proof. unfold resolve. quiet_go. Qed.
Lemma require_quiet b x : quiet (require b x). Proof. unfold require. quiet_go. Qed.
Lemma write_retry_quiet {A} b (fn : mop (result call_error A)) l : quiet fn -> quiet (write_retry b fn l).
Proof. intros Hfn. induction l as [|d l IH]; cbn [write_retry]; (apply quiet_bind; [exact Hfn|]); intros [a|err]; quiet_go. Qed.
#[local] Hint Resolve Decide_quiet authorize_quiet resolve_quiet require_quiet : quiet.
Lemma Complete_quiet k m t : quiet (Complete k m t). Proof. unfold Complete. quiet_go. Qed.
Lemma writeCall_quiet {A} b c (f : list call -> result call_error A) : quiet (writeCall b (ask c f)).
Proof. apply write_retry_quiet, ask_quiet. Qed.
Lemma readCall_quiet {A} b c (f : list call -> result call_error A) : quiet (readCall b (ask c f)).
Proof.
  unfold readCall. generalize readBackoff. intros l.
  induction l as [|d l IH]; cbn [read_retry]; (apply quiet_bind; [apply ask_quiet|]); intros [a|err]; quiet_go.
Qed.
#[local] Hint Resolve Complete_quiet writeCall_quiet readCall_quiet : quiet.
Lemma respondRequest_quiet b p : quiet (respondRequest b p).
Proof. unfold respondRequest. quiet_go. Qed.

(** ** Operations that only read the tables *)

Lemma Enabled_reads : keeps eq Enabled_.
Proof. unfold Enabled_. keeps_go. Qed.
Lemma GetDraft_reads id : keeps eq (GetDraft id).
Proof. unfold GetDraft. keeps_go. Qed.
Lemma ListRules_reads a : keeps eq (ListRules a).
Proof. unfold ListRules. keeps_go. Qed.
Lemma CountAutoExecutions_reads id w : keeps eq (CountAutoExecutions id w).
Proof. unfold CountAutoExecutions. keeps_go. Qed.
Lemma GetAccount_reads id : keeps eq (GetAccount id).
Proof. unfold GetAccount. keeps_go. Qed.
Lemma ListAccounts_reads : keeps eq ListAccounts.
Proof. unfold ListAccounts. keeps_go. Qed.
#[local] Hint Resolve Enabled_reads GetDraft_reads ListRules_reads CountAutoExecutions_reads GetAccount_reads ListAccounts_reads : keeps.

Lemma usage_table_reads l : keeps eq (usage_table l).
Proof. induction l as [|r l IH]; cbn [usage_table]; keeps_go. Qed.
#[local] Hint Resolve usage_table_reads : keeps.
Lemma Decide_reads q : keeps eq (Decide q).
Proof. unfold Decide. keeps_go. Qed.
Lemma resolve_reads a n : keeps eq (resolve a n).
Proof. unfold resolve. keeps_go. Qed.
Lemma require_reads b x : keeps eq (require b x).
Proof. unfold require. keeps_go. Qed.
Lemma authorize_reads d o : keeps eq (authorize d o).
Proof. unfold authorize. keeps_go. Qed.
#[local] Hint Resolve Decide_reads resolve_reads require_reads authorize_reads : keeps.

(** ** Frames *)

(** Everything but accounts and the audit trail is as it was. *)
Record frame (s s' : Service) : Prop := {
  fr_settings : settings s' = settings s;
  fr_drafts : drafts s' = drafts s;
  fr_rules : rules s' = rules s;
  fr_proposals : proposals s' = proposals s;
  fr_ledger : ledger s' = ledger s;
  fr_calls : calls s' = calls s
}.
#[export] Instance frame_preorder : PreOrder frame.
Proof. split; [by intros s|]. intros s1 s2 s3 [] []. split; congruence. Qed.

Lemma eq_frame s s' : s = s' -> frame s s'.
Proof. by intros ->. Qed.

Lemma update_account_row_frame id f : keeps frame (update_account_row id f).
Proof. unfold update_account_row. keeps_go. done. Qed.
#[local] Hint Resolve update_account_row_frame : keeps.
Lemma mark_auth_expired_frame b m : keeps frame (mark_auth_expired b m).
Proof. unfold mark_auth_expired, SetStatus. keeps_go. Qed.
Lemma SetStatus_frame i x d : keeps frame (SetStatus i x d).
Proof. apply update_account_row_frame. Qed.
#[local] Hint Resolve SetStatus_frame : keeps.
Lemma Record_frame d : keeps frame (Record_ d).
Proof. unfold Record_. keeps_go. done. Qed.
Lemma sleep_frame d : keeps frame (sleep d).
Proof. unfold sleep. keeps_go. Qed.
#[local] Hint Resolve mark_auth_expired_frame Record_frame sleep_frame : keeps.

(** The same, with some more calls [l]. *)
Definition framed_calls (l : list call) (s s' : Service) : Prop := frame (fold_left (fun s c => add_call c s) l s) s'.

Lemma calls_add l s : calls (fold_left (fun s c => add_call c s) l s) = calls s ++ l.
Proof.
  revert s. induction l as [|c l IH]; intros s; cbn; [by rewrite app_nil_r|].
  rewrite IH. cbn. by rewrite <- app_assoc.
Qed.

Lemma framed_fields l s s' :
  framed_calls l s s' <->
  settings s' = settings s /\ drafts s' = drafts s /\ rules s' = rules s /\ proposals s' = proposals s /\
  ledger s' = ledger s /\ calls s' = calls s ++ l.
Proof.
  assert (H : forall f : Service -> _ * _ * _ * _ * _, f = (fun s => (settings s, drafts s, rules s, proposals s, ledger s)) ->
            f (fold_left (fun s c => add_call c s) l s) = f s).
  { intros f ->. revert s. induction l as [|c l IH]; intros s; cbn; [done|]. by rewrite IH. }
  specialize (H _ eq_refl). cbn in H. injection H as H1 H2 H3 H4 H5. unfold framed_calls. split.
  - intros []. rewrite calls_add in *. split_and!; congruence.
  - intros (?&?&?&?&?&?). split; rewrite ?calls_add; congruence.
Qed.

Lemma framed_trans l1 l2 s1 s2 s3 : framed_calls l1 s1 s2 -> framed_calls l2 s2 s3 -> framed_calls (l1 ++ l2) s1 s3.
Proof.
  rewrite !framed_fields. intros (?&?&?&?&?&Hc1) (?&?&?&?&?&Hc2). rewrite Hc2, Hc1, <- app_assoc. split_and!; congruence.
Qed.
Lemma framed_nil s s' : framed_calls [] s s' <-> frame s s'.
Proof. done. Qed.

(** ** Provider calls *)

Lemma ask_wp {A} c (f : list call -> result call_error A) Q s e :
  (forall x, Q (Ok x) (add_call c s) e) -> wp (ask c f) Q s e.
Proof. intros H. unfold ask. apply wp_bind, wp_gets, wp_bind, wp_modify, wp_ret, H. Qed.

(** A write makes one call, and at most one more for each back-off. *)
Lemma write_retry_wp {A} b c (f : list call -> result call_error A) backoff s e :
  wp (write_retry b (ask c f) backoff)
    (fun r s' _ => exists k, (1 <= k <= S (List.length backoff))%nat /\ framed_calls (replicate k c) s s') s e.
Proof.
  revert s e. induction backoff as [|d backoff IH]; intros s e; cbn [write_retry List.length].
  - apply wp_bind, ask_wp. intros [a|err].
    + apply wp_ret. exists 1%nat. split; [lia|done].
    + destruct (AsError err) as [x|]; [|apply wp_throw; exists 1%nat; split; [lia|done]].
      case_bool_decide.
      * apply wp_bind. eapply wp_keeps; [apply mark_auth_expired_frame|]. intros [[]|y] s' e' Hf;
          [apply wp_throw|]; (exists 1%nat; split; [lia|done]).
      * case_bool_decide; apply wp_throw; (exists 1%nat; split; [lia|done]).
  - apply wp_bind, ask_wp. intros [a|err].
    + apply wp_ret. exists 1%nat. split; [lia|done].
    + destruct (AsError err) as [x|]; [|apply wp_throw; exists 1%nat; split; [lia|done]].
      case_bool_decide.
      * apply wp_bind. eapply wp_keeps; [apply mark_auth_expired_frame|]. intros [[]|y] s' e' Hf;
          [apply wp_throw|]; (exists 1%nat; split; [lia|done]).
      * case_bool_decide; [|apply wp_throw; exists 1%nat; split; [lia|done]].
        apply wp_bind. eapply wp_keeps; [apply sleep_frame|]. intros [[]|y] s1 e1 Hf.
        -- eapply wp_mono; [apply IH|]. cbn. intros r s2 e2 (k & Hk & Hc). exists (S k). split; [lia|].
           change (replicate (S k) c) with ([c] ++ replicate k c). by eapply framed_trans.
        -- exists 1%nat. split; [lia|done].
Qed.

(** A read makes only calls without an outside effect. *)
Definition reads (s s' : Service) : Prop := exists l, Forall (fun c => is_write c = false) l /\ framed_calls l s s'.
#[export] Instance reads_preorder : PreOrder reads.
Proof.
  split.
  - intros s. exists []. split; [by constructor|]. by apply framed_nil.
  - intros s1 s2 s3 (l1 & H1 & F1) (l2 & H2 & F2). exists (l1 ++ l2). split; [by apply Forall_app|by eapply framed_trans].
Qed.
Lemma frame_reads s s' : frame s s' -> reads s s'.
Proof. intros H. exists []. split; [by constructor|done]. Qed.
Lemma eq_reads s s' : s = s' -> reads s s'.
Proof. by intros ->. Qed.

Lemma ask_read {A} c (f : list call -> result call_error A) : is_write c = false -> keeps reads (ask c f).
Proof.
  intros Hc s e. apply ask_wp. intros _. exists [c]. split; [by constructor|].
  apply framed_fields. by split_and!.
Qed.

Lemma readCall_reads {A} b c (f : list call -> result call_error A) : is_write c = false -> keeps reads (readCall b (ask c f)).
Proof.
  intros Hc. unfold readCall. generalize readBackoff. intros l.
  assert (Hm : forall m, keeps reads (mark_auth_expired b m)).
  { intros m. eapply keeps_weaken; [apply frame_reads|]. apply mark_auth_expired_frame. }
  assert (Hs : forall d, keeps reads (sleep d)).
  { intros d. eapply keeps_weaken; [apply frame_reads|]. apply sleep_frame. }
  induction l as [|d l IH]; cbn [read_retry]; (apply keeps_bind; [apply _|by apply ask_read|]); intros [a|err]; keeps_go; auto.
Qed.

Lemma respondRequest_reads b p : keeps reads (respondRequest b p).
Proof.
  unfold respondRequest. assert (keeps reads (require b ExportCalGetEvent)).
  { eapply keeps_weaken; [apply eq_reads|]. apply require_reads. }
  keeps_go. by apply readCall_reads.
Qed.


(** ** Decisions *)

Definition switch_on (s : Service) : Prop := exists v, settings s = Some v /\ equal_fold_true v = true.

(** The rules an engine call reads. *)
Definition rules_for (account : string) (s : Service) : result mail_error (list StoredRule) :=
  mapM_result scanRule (order_newest rr_created rr_id (filter (fun r => account = "" \/ rr_account r = account) (rules s))).

(** What the usage counter answers between [e] and [e']: the executions by the
    rule that the trail of [s] holds since the start of the window. *)
Definition usage_counted (s : Service) (e e' : env) (u : Usage) : Prop := forall id w n, u id w = UCount n ->
  exists t, clock e <= t <= clock e' /\ n = Z.of_nat (affected (auto_execution id (time_add t (- w))) (decisions s)).

(** A rule of the account's book that covers the request at a time between [e]
    and [e'], with room left by the executions counted then. *)
Definition rule_allows (s : Service) (e e' : env) (req : Request) (dec : Decision) : Prop :=
  exists stored t usage r, rules_for (QAccountID req) s = Ok stored /\ clock e <= t <= clock e' /\
    usage_counted s e e' usage /\ allowed_by (SRule <$> stored) req t (Some usage) r /\ RuleID dec = ID r.

(** The engine was asked about the request between [e] and [e'], on the books
    of [s] and before any write, and answered [dec]. *)
Definition put_to_engine (s : Service) (e e' : env) (req : Request) (dec : Decision) : Prop :=
  exists s1 e1 e2, reads s s1 /\ decisions s1 = decisions s /\ env_le e e1 /\ env_le e2 e' /\
    Decide req s1 e1 = (Ok dec, (s1, e2)).

Definition authorized (s : Service) (e e' : env) (req : Request) (opt : WriteOptions) (dec : Decision) : Prop :=
  switch_on s /\ put_to_engine s e e' req dec /\
  ((DVerdict dec = VerdictAllow /\ rule_allows s e e' req dec) \/
   (DVerdict dec = VerdictNeedsApproval /\ WApproved opt = true)).

Lemma usage_counted_le s e e1 e2 e' u : env_le e e1 -> env_le e2 e' -> usage_counted s e1 e2 u -> usage_counted s e e' u.
Proof.
  intros [Ha _] [Hb _] H id w n Hn. destruct (H id w n Hn) as (t & Ht & ->). exists t. split; [lia|done].
Qed.

(** What was authorized on the way was authorized on the whole way. *)
Lemma authorized_wider s s1 e e1 e2 e' req opt dec :
  reads s s1 -> decisions s1 = decisions s -> env_le e e1 -> env_le e2 e' ->
  authorized s1 e1 e2 req opt dec -> authorized s e e' req opt dec.
Proof.
  intros Hr Hd He He' (Hon & (s2 & a & b & Hr2 & Hd2 & Ha & Hb & Hrun) & Hv).
  destruct (Hr) as (l & _ & Hf). apply framed_fields in Hf as (Hset & _ & Hru & _).
  split; [unfold switch_on in *; by rewrite <- Hset|]. split.
  { exists s2, a, b. split_and!; [by transitivity s1|congruence|by transitivity e1|by transitivity e2|done]. }
  destruct Hv as [[Hv (stored & t & u & r & Hst & Ht & Hu & Hal & Hid)]|Hv]; [|by right]. left. split; [done|].
  exists stored, t, u, r. unfold rules_for in *. rewrite <- Hru. split; [done|].
  split; [destruct He, He'; lia|]. split; [|done].
  eapply usage_counted_le; [exact He|exact He'|]. intros id w n Hn. rewrite <- Hd. by apply Hu.
Qed.

Lemma Enabled_wp s e :
  wp Enabled_ (fun r s' _ => s' = s /\ exists b, r = Ok b /\ (b = true -> switch_on s)) s e.
Proof.
  unfold Enabled_. apply wp_bind, wp_attempt, wp_bind, wp_db. intros e' _ _ _. split.
  - apply wp_gets. destruct (settings s) as [v|] eqn:Hv; apply wp_ret; (split; [done|]).
    + exists (equal_fold_true v). split; [done|]. intros Ht. by exists v.
    + by exists false.
  - apply wp_ret. split; [done|]. by exists false.
Qed.

Lemma ListRules_wp a s e :
  wp (ListRules a) (fun r s' _ => s' = s /\ forall l, r = Ok l -> rules_for a s = Ok l) s e.
Proof.
  unfold ListRules. apply wp_bind, wp_db. intros e' _ _ _. split; [|done].
  apply wp_bind, wp_gets, wp_lift. split; [done|]. by intros l.
Qed.

Lemma CountAutoExecutions_wp id w s e :
  wp (CountAutoExecutions id w) (fun r s' e' => s' = s /\ env_le e e' /\ forall n, r = Ok n ->
    exists t, clock e <= t <= clock e' /\ n = Z.of_nat (affected (auto_execution id (time_add t (- w))) (decisions s))) s e.
Proof.
  unfold CountAutoExecutions. apply wp_bind, wp_now. intros e1 He1 _. apply wp_bind, wp_db. intros e2 He2 Hc _.
  assert (He : env_le e e2) by by transitivity e1.
  split; [|by split_and!]. apply wp_gets. split_and!; [done|done|]. intros n [= <-].
  exists (clock e1). split; [|done]. destruct He1. lia.
Qed.

Lemma usage_table_wp l s e :
  wp (usage_table l) (fun r s' e' => s' = s /\ env_le e e' /\ exists tab, r = Ok tab /\ usage_counted s e e' (table_usage tab)) s e.
Proof.
  revert s e. induction l as [|x l IH]; intros s e; cbn [usage_table].
  - apply wp_ret. split; [done|]. split; [reflexivity|]. exists []. split; [done|]. by intros id w n.
  - apply wp_bind, wp_attempt. eapply wp_mono; [apply CountAutoExecutions_wp|]. cbv beta. intros h s1 e1 (-> & He1 & Hh).
    apply wp_bind, wp_attempt. eapply wp_mono; [apply CountAutoExecutions_wp|]. cbv beta. intros d s2 e2 (-> & He2 & Hd).
    apply wp_bind. eapply wp_mono; [apply IH|]. cbv beta. intros r s3 e3 (-> & He3 & tab & -> & Htab).
    split; [done|]. split; [by transitivity e1; [|transitivity e2]|]. eexists. split; [done|].
    intros id w n. unfold table_usage. cbn [find fst snd]. destruct He1 as [He1 _], He2 as [He2 _], He3 as [He3 _].
    case_bool_decide as H1.
    { injection H1 as <- <-. destruct h as [m|]; [|done]. intros [= <-].
      destruct (Hh m eq_refl) as (t & Ht & Hm). exists t. split; [lia|done]. }
    case_bool_decide as H2.
    { injection H2 as <- <-. destruct d as [m|]; [|done]. intros [= <-].
      destruct (Hd m eq_refl) as (t & Ht & Hm). exists t. split; [lia|done]. }
    intros Hn. destruct (Htab id w n Hn) as (t & Ht & Hm). exists t. split; [lia|done].
Qed.

Lemma Decide_Service_wp req s e :
  wp (Decide req) (fun r s' e' => s' = s /\ exists dec, r = Ok dec /\
    (DVerdict dec <> VerdictDeny -> switch_on s) /\ (DVerdict dec = VerdictAllow -> rule_allows s e e' req dec)) s e.
Proof.
  unfold Decide. apply wp_bind. eapply wp_and_quiet; [apply Enabled_quiet|apply Enabled_wp|]. cbv beta.
  intros r s1 e1 (-> & b & -> & Hb) [[He1 _] _].
  destruct b; cbn [negb]; [|apply wp_ret; split; [done|]; eexists; split; [done|]; by split].
  specialize (Hb eq_refl). apply wp_bind, wp_attempt.
  eapply wp_and_quiet; [apply ListRules_quiet|apply ListRules_wp|]. cbv beta.
  intros [stored|x] s2 e2 [-> Hl] [[He2 _] _].
  - apply wp_bind, wp_now. intros e3 [He3 _] _. apply wp_bind. eapply wp_mono; [apply usage_table_wp|]. cbv beta.
    intros rt s3 e4 (-> & [He4 Hf4] & tab & -> & Htab). cbv beta iota zeta.
    split; [done|]. eexists. split; [done|]. split; [done|]. intros Ha.
    destruct (Evaluate_allow_inv _ _ _ _ Ha) as (rl & Hr & Hdec). exists stored, (clock e3), (table_usage tab), rl.
    split; [by apply Hl|]. split; [lia|]. split; [|split; [done|by rewrite Hdec]].
    intros id w n Hn. destruct (Htab id w n Hn) as (t & Ht & Hm). exists t. split; [lia|done].
  - apply wp_ret. split; [done|]. eexists. split; [done|]. by split.
Qed.

(** The guard every write starts with: what comes after it ends in [Q] given
    that the request was authorized by then. *)
Lemma guard_wp {A} req opt (k : Decision -> mop A) (Q : result mail_error A -> Service -> env -> Prop) s e :
  (forall x e', Q (Err x) s e') -> (forall dec, quiet (k dec)) ->
  (forall dec e1, wp (k dec) (fun r s' e' => authorized s e e' req opt dec -> Q r s' e') s e1) ->
  wp (dec ← Decide req; _ ← authorize dec opt; k dec) Q s e.
Proof.
  intros HE Hq HS. apply wp_bind. unfold wp at 1. pose proof (Decide_Service_wp req s e) as Hd.
  pose proof (Decide_quiet req s e) as Hq1. unfold wp in Hd, Hq1.
  destruct (Decide req s e) as [r [s1 e1]] eqn:Hrun. destruct Hd as (-> & dec & -> & Hon & Hall).
  destruct Hq1 as [He1 _].
  assert (Hgo : authorize dec opt = mret tt ->
            (DVerdict dec = VerdictAllow \/ DVerdict dec = VerdictNeedsApproval /\ WApproved opt = true) ->
            wp (_ ← authorize dec opt; k dec) Q s e1).
  { intros Hau Hv. rewrite Hau. apply wp_bind, wp_ret.
    eapply wp_and_quiet; [apply Hq|apply HS|]. cbv beta. intros r s' e' HQ [He' _]. apply HQ.
    split; [apply Hon; destruct Hv as [->|[-> _]]; done|]. split.
    { exists s, e, e1. by split_and!. }
    destruct Hv as [Hv|Hv]; [left; split; [done|]|by right].
    destruct (Hall Hv) as (stored & t & u & rl & Hst & Ht & Hu & Hr). exists stored, t, u, rl.
    split; [done|]. split; [destruct He'; lia|]. split; [|done].
    by eapply usage_counted_le; [|exact He'|exact Hu]. }
  unfold authorize in *. destruct (DVerdict dec) eqn:Hv.
  - apply Hgo; [done|by left].
  - destruct (WApproved opt) eqn:Hw; [|by apply wp_bind, wp_throw]. apply Hgo; [done|by right].
  - by apply wp_bind, wp_throw.
Qed.

Lemma reads_wp {A B} (m : mop A) (k : A -> mop B) (Q : result mail_error B -> Service -> env -> Prop) s e :
  keeps eq m -> (forall x e', Q (Err x) s e') -> (forall a e', wp (k a) Q s e') -> wp (m ≫= k) Q s e.
Proof.
  intros Hm HE HS. apply wp_bind. eapply wp_keeps; [exact Hm|]. intros [a|x] s' e' <-; auto.
Qed.

(** ** The ledger *)

Lemma Begin_wp en s e :
  wp (Begin en) (fun r s' _ =>
    match r with
    | Err _ => s' = s
    | Ok (x, true) => s' = s /\ find_entry (Key en) (ledger s) = Some x
    | Ok (x, false) => find_entry (Key en) (ledger s) = None /\ s' = set_ledger (ledger s ++ [x]) s /\
                       Key x = Key en /\ State x = LedgerPending
    end) s e.
Proof.
  unfold Begin. case_bool_decide; [by apply wp_throw|]. apply wp_bind, wp_db. intros e1 _ _ _. split; [|done].
  apply wp_bind, wp_gets. destruct (find_entry _ _) eqn:Hf; [by apply wp_ret|].
  apply wp_bind, wp_now. intros e2 _ _. cbv zeta. apply wp_bind, wp_db. intros e3 _ _ _. split; [|done].
  apply wp_bind, wp_modify, wp_ret. by split_and!.
Qed.

(** ** Every outgoing write was put to the engine, as it is sent *)

Definition describes (req : Request) (c : call) : Prop :=
  match c with
  | CallMailSend _ p => exists d, req = requestForDraft d /\ p = send_params d
  | CallMailDelete a _ => req = plain_request a actionMailDelete true None
  | CallCalCreate a p => exists f, eventFacts (WEvent p) = Ok f /\ req = plain_request a ActionCalendarCreate false (Some f)
  | CallCalUpdate a p => exists f, eventFacts (WEvent p) = Ok f /\ req = plain_request a ActionCalendarUpdate false (Some f)
  | CallCalRespond a p =>
    if bool_decide (Response p = "accepted") then exists f, req = plain_request a ActionCalendarAccept false (Some f)
    else req = plain_request a actionCalRespond false None
  | CallCalDelete a _ => req = plain_request a actionCalDelete true None
  | _ => False
  end.

Inductive write_op :=
  | WSend (draft : string) | WMailDelete (acct : string) (ids : list string)
  | WCreate (acct : string) (ev : Event) (upd : bool) | WUpdate (acct : string) (ev : Event) (upd : bool)
  | WRespond (acct : string) (p : CalRespondParams) | WCalDelete (acct : string) (p : CalDeleteParams).

Definition run_write (o : write_op) (opt : WriteOptions) : mop unit :=
  match o with
  | WSend d => _ ← Send d opt; mret tt
  | WMailDelete a ids => MailDelete a ids opt
  | WCreate a ev u => _ ← CalendarCreate a ev u opt; mret tt
  | WUpdate a ev u => _ ← CalendarUpdate a ev u opt; mret tt
  | WRespond a p => _ ← CalendarRespond a p opt; mret tt
  | WCalDelete a p => CalendarDelete a p opt
  end.

(** Every call added is a read, or a write that was authorized on the way. *)
Definition mediated (opt : WriteOptions) (s : Service) (e : env) (s' : Service) (e' : env) : Prop :=
  exists l, calls s' = calls s ++ l /\
    Forall (fun c => is_write c = true -> exists req dec, authorized s e e' req opt dec /\ describes req c) l.

Lemma mediated_same opt s e s' e' : calls s' = calls s -> mediated opt s e s' e'.
Proof. intros H. exists []. by rewrite H, app_nil_r. Qed.

Lemma reads_mediated opt s e s' e' : reads s s' -> mediated opt s e s' e'.
Proof.
  intros (l & Hl & Hf). apply framed_fields in Hf as (_ & _ & _ & _ & _ & Hc). exists l. split; [done|].
  eapply Forall_impl; [exact Hl|]. intros x Hx. cbn in Hx. congruence.
Qed.

Lemma mediated_after_reads opt s e s1 e1 s2 e2 :
  reads s s1 -> decisions s1 = decisions s -> env_le e e1 -> mediated opt s1 e1 s2 e2 -> mediated opt s e s2 e2.
Proof.
  intros Hr Hd He (l2 & Hc2 & H2). destruct (reads_mediated opt s e s1 e1 Hr) as (l1 & Hc1 & _).
  destruct (Hr) as (l & Hl & Hf). apply framed_fields in Hf as (_ & _ & _ & _ & _ & Hc).
  exists (l ++ l2). split; [by rewrite Hc2, Hc, <- app_assoc|]. apply Forall_app. split.
  - eapply Forall_impl; [exact Hl|]. intros x Hx. cbn in Hx. congruence.
  - eapply Forall_impl; [exact H2|]. intros c Hcw Hw. destruct (Hcw Hw) as (req & dec & Ha & Hde).
    exists req, dec. split; [|done]. by eapply authorized_wider.
Qed.

(** What comes before the guard only reads. *)
Lemma lead_wp {A B} opt (m : mop A) (k : A -> mop B) (F : A -> Prop) s e :
  quiet m -> wp m (fun r s1 _ => reads s s1 /\ decisions s1 = decisions s /\ forall a, r = Ok a -> F a) s e ->
  (forall a s1 e1, F a -> wp (k a) (fun _ s' e' => mediated opt s1 e1 s' e') s1 e1) ->
  wp (m ≫= k) (fun _ s' e' => mediated opt s e s' e') s e.
Proof.
  intros Hq Hm Hk. apply wp_bind. eapply wp_and_quiet; [exact Hq|exact Hm|]. cbv beta.
  intros [a|x] s1 e1 (Hr & Hd & HF) [He _]; [|by apply reads_mediated].
  eapply wp_mono; [by apply Hk, HF|]. cbv beta. intros _ s2 e2 H. by eapply mediated_after_reads.
Qed.
Lemma lead_eq_wp {A B} opt (m : mop A) (k : A -> mop B) s e :
  quiet m -> keeps eq m -> (forall a s1 e1, wp (k a) (fun _ s' e' => mediated opt s1 e1 s' e') s1 e1) ->
  wp (m ≫= k) (fun _ s' e' => mediated opt s e s' e') s e.
Proof.
  intros Hq Hm Hk. apply (lead_wp opt m k (fun _ => True)); [done| |by intros; apply Hk].
  eapply wp_keeps; [exact Hm|]. by intros r s1 e1 <-.
Qed.

(** A write after the guard: the calls of [writeCall], then bookkeeping. *)
Definition mediated_if (opt : WriteOptions) (s : Service) (e : env) (req : Request) (dec : Decision) (s' : Service) (e' : env) : Prop :=
  authorized s e e' req opt dec -> mediated opt s e s' e'.
Lemma mediated_if_same opt s e req dec s' e' : calls s' = calls s -> mediated_if opt s e req dec s' e'.
Proof. intros H _. by apply mediated_same. Qed.

Lemma mediated_guard_wp {A} req opt (k : Decision -> mop A) s e :
  (forall dec, quiet (k dec)) ->
  (forall dec e1, wp (k dec) (fun _ s' e' => mediated_if opt s e req dec s' e') s e1) ->
  wp (dec ← Decide req; _ ← authorize dec opt; k dec) (fun _ s' e' => mediated opt s e s' e') s e.
Proof. intros Hq Hk. apply guard_wp; [by intros; apply mediated_same|done|exact Hk]. Qed.

Lemma write_tail_wp {A B} opt s e b c (f : list call -> result call_error A) req dec (k : A -> mop B) s1 e1 :
  calls s1 = calls s -> describes req c -> (forall a, keeps (fun s s' => calls s' = calls s) (k a)) ->
  wp (a ← writeCall b (ask c f); k a) (fun _ s' e' => mediated_if opt s e req dec s' e') s1 e1.
Proof.
  intros Hc Hd Hk. apply wp_bind. eapply wp_mono; [apply write_retry_wp|]. cbn. intros r s2 e2 (n & _ & Hf).
  apply framed_fields in Hf as (_ & _ & _ & _ & _ & Hcalls).
  assert (Hm : forall s3 e3, calls s3 = calls s2 -> mediated_if opt s e req dec s3 e3).
  { intros s3 e3 H3 Hau. exists (replicate n c). split; [by rewrite H3, Hcalls, Hc|].
    apply Forall_replicate. intros _. by exists req, dec. }
  destruct r as [a|x]; [|by apply Hm]. eapply wp_keeps; [apply Hk|]. intros _ s3 e3 H3. by apply Hm.
Qed.

Lemma Record_calls d : keeps (fun s s' => calls s' = calls s) (Record_ d).
Proof. eapply keeps_weaken; [|apply Record_frame]. by intros s s' []. Qed.
#[export] Instance same_calls_preorder : PreOrder (fun s s' : Service => calls s' = calls s).
Proof. split; [by intros s|]. intros s1 s2 s3 H1 H2. congruence. Qed.
Lemma Complete_calls k m t : keeps (fun s s' => calls s' = calls s) (Complete k m t).
Proof. unfold Complete. keeps_go. done. Qed.
#[local] Hint Resolve Record_calls Complete_calls : keeps.
#[local] Hint Resolve Begin_quiet Record_quiet : quiet.

Lemma Send_mediated id opt s e : wp (Send id opt) (fun _ s' e' => mediated opt s e s' e') s e.
Proof.
  unfold Send. apply lead_eq_wp; [apply GetDraft_quiet|apply GetDraft_reads|]. clear s e. intros d s e.
  apply mediated_guard_wp; [intros dec; quiet_go|]. intros dec e2.
  apply reads_wp; [apply resolve_reads|by intros; apply mediated_if_same|]. intros b e3.
  apply reads_wp; [apply require_reads|by intros; apply mediated_if_same|]. intros _ e4. cbv zeta.
  apply wp_bind. eapply wp_mono; [apply Begin_wp|]. cbn. intros [[en ex]|x] s1 e5; [|by intros ->; apply mediated_if_same].
  destruct ex.
  - intros [-> _]. cbn [andb]. case_bool_decide; [by apply wp_ret, mediated_if_same|].
    apply write_tail_wp; [done|by exists d|]. intros res. keeps_go.
  - intros (_ & Hs1 & _). cbn [andb]. apply write_tail_wp; [by rewrite Hs1|by exists d|]. intros res. keeps_go.
Qed.

Lemma MailDelete_mediated a ids opt s e : wp (MailDelete a ids opt) (fun _ s' e' => mediated opt s e s' e') s e.
Proof.
  unfold MailDelete. apply lead_eq_wp; [apply resolve_quiet|apply resolve_reads|]. clear s e. intros b s e.
  case_bool_decide; [by apply wp_throw, mediated_same|]. cbv zeta.
  apply mediated_guard_wp; [intros dec; quiet_go|]. intros dec e2.
  apply reads_wp; [apply require_reads|by intros; apply mediated_if_same|]. intros _ e3.
  apply write_tail_wp; [done|done|]. intros res. keeps_go.
Qed.

Lemma CalendarDelete_mediated a p opt s e : wp (CalendarDelete a p opt) (fun _ s' e' => mediated opt s e s' e') s e.
Proof.
  unfold CalendarDelete. apply lead_eq_wp; [apply resolve_quiet|apply resolve_reads|]. clear s e. intros b s e. cbv zeta.
  apply mediated_guard_wp; [intros dec; quiet_go|]. intros dec e2.
  apply reads_wp; [apply require_reads|by intros; apply mediated_if_same|]. intros _ e3.
  apply write_tail_wp; [done|done|]. intros res. keeps_go.
Qed.

Lemma lift_wp {A B} (r : result mail_error A) (k : A -> mop B) (Q : result mail_error B -> Service -> env -> Prop) s e :
  (forall x, Q (Err x) s e) -> (forall a, r = Ok a -> wp (k a) Q s e) -> wp (lift r ≫= k) Q s e.
Proof. intros HE HS. apply wp_bind, wp_lift. destruct r; auto. Qed.

Lemma CalendarCreate_mediated a ev u opt s e : wp (CalendarCreate a ev u opt) (fun _ s' e' => mediated opt s e s' e') s e.
Proof.
  unfold CalendarCreate. apply lead_eq_wp; [apply resolve_quiet|apply resolve_reads|]. clear s e. intros b s e.
  apply lift_wp; [by intros; apply mediated_same|]. intros f Hf. cbv zeta.
  apply mediated_guard_wp; [intros dec; quiet_go|]. intros dec e2.
  apply reads_wp; [apply require_reads|by intros; apply mediated_if_same|]. intros _ e3.
  apply wp_bind. eapply wp_mono; [apply Begin_wp|]. cbn. intros [[en ex]|x] s1 e5; [|by intros ->; apply mediated_if_same].
  destruct ex.
  - intros [-> _]. cbn [andb]. case_bool_decide; [by apply wp_ret, mediated_if_same|].
    apply write_tail_wp; [done|by exists f|]. intros res. keeps_go.
  - intros (_ & Hs1 & _). cbn [andb]. apply write_tail_wp; [by rewrite Hs1|by exists f|]. intros res. keeps_go.
Qed.

Lemma CalendarUpdate_mediated a ev u opt s e : wp (CalendarUpdate a ev u opt) (fun _ s' e' => mediated opt s e s' e') s e.
Proof.
  unfold CalendarUpdate. apply lead_eq_wp; [apply resolve_quiet|apply resolve_reads|]. clear s e. intros b s e.
  case_bool_decide; [by apply wp_throw, mediated_same|].
  apply lift_wp; [by intros; apply mediated_same|]. intros f Hf. cbv zeta.
  apply mediated_guard_wp; [intros dec; quiet_go|]. intros dec e2.
  apply reads_wp; [apply require_reads|by intros; apply mediated_if_same|]. intros _ e3.
  apply write_tail_wp; [done|by exists f|]. intros res. keeps_go.
Qed.

Definition same_trail (s s' : Service) : Prop := decisions s' = decisions s.
#[export] Instance same_trail_preorder : PreOrder same_trail.
Proof. split; [by intros s|]. unfold same_trail. intros s1 s2 s3 ? ?. congruence. Qed.
Lemma respondRequest_trail b p : keeps same_trail (respondRequest b p).
Proof.
  assert (Hq : forall A (m : mop A), keeps eq m -> keeps same_trail m).
  { intros A m. apply keeps_weaken. by intros s s' <-. }
  assert (Hm : forall m, keeps same_trail (mark_auth_expired b m)).
  { intros m. unfold mark_auth_expired, SetStatus, update_account_row. keeps_go. done. }
  assert (Hs : forall d, keeps same_trail (sleep d)) by (intros d; unfold sleep; keeps_go).
  unfold respondRequest. pose proof (Hq _ _ (require_reads b ExportCalGetEvent)). keeps_go.
  unfold readCall. generalize readBackoff. intros l.
  induction l as [|d l IH]; cbn [read_retry];
    (apply keeps_bind; [apply _|unfold ask; keeps_go; done|]); intros [v|err]; keeps_go; auto.
Qed.

Lemma respondRequest_wp b p s e :
  wp (respondRequest b p) (fun r s' _ => reads s s' /\ decisions s' = decisions s /\
    forall req, r = Ok req -> describes req (CallCalRespond (AcID (b_account b)) p)) s e.
Proof.
  apply wp_and; [apply respondRequest_reads|]. apply wp_and; [apply respondRequest_trail|].
  unfold respondRequest. cbn. case_bool_decide; cbn [negb]; [|by apply wp_ret; intros req [= <-]].
  apply wp_bind. eapply wp_keeps; [apply require_reads|]. intros [[]|x] s1 e1 _; [|done].
  apply wp_bind. eapply wp_keeps; [by apply readCall_reads|]. intros [ev|x] s2 e2 _; [|done].
  apply lift_wp; [done|]. intros f Hf. apply wp_ret. intros req [= <-]. by exists f.
Qed.

Lemma CalendarRespond_mediated a p opt s e : wp (CalendarRespond a p opt) (fun _ s' e' => mediated opt s e s' e') s e.
Proof.
  unfold CalendarRespond. apply lead_eq_wp; [apply resolve_quiet|apply resolve_reads|]. clear s e. intros b s e.
  eapply lead_wp; [apply respondRequest_quiet|apply respondRequest_wp|]. clear s e. cbv beta. intros req s e Hd.
  apply mediated_guard_wp; [intros dec; quiet_go|]. intros dec e3.
  apply reads_wp; [apply require_reads|by intros; apply mediated_if_same|]. intros _ e4. cbv zeta.
  apply write_tail_wp; [done|exact Hd|]. intros res. keeps_go.
Qed.

Lemma run_write_mediated o opt s e : wp (run_write o opt) (fun _ s' e' => mediated opt s e s' e') s e.
Proof.
  destruct o; cbn [run_write];
    first [apply MailDelete_mediated | apply CalendarDelete_mediated |
           apply wp_bind; eapply wp_mono;
             [first [apply Send_mediated | apply CalendarCreate_mediated | apply CalendarUpdate_mediated | apply CalendarRespond_mediated]|];
             by intros [x|x] s' e' Hm].
Qed.


(** ** What an agent can call, and what only the owner can *)

Inductive agent_op :=
  | AWrite (o : write_op) (opt : WriteOptions)
  | AMark (acct : string) (ids : list string) (unread : bool) | AMove (acct : string) (ids : list string) (folder : string)
  | AList (acct folder cursor : string) (limit : Z) (unread : bool) | ASearch (acct query : string)
  | AGet (acct id : string) | AThread (acct id : string)
  | ACalList (acct cal : string) (from to_ : Z) | AFreeBusy (acct : string) (emails : list string) (from to_ : Z)
  | ACalGet (acct cal id : string)
  | ADraft (acct agent trace : string) (p : DraftPayload)
  | APropose (agent : string) (r : Rule) (why : string)
  | AGate (agent tool : string) (g : gate_input).

Definition done_ {A} (m : mop A) : mop unit := _ ← m; mret tt.

Definition run_agent (o : agent_op) : mop unit :=
  match o with
  | AWrite o opt => run_write o opt
  | AMark a ids u => MailMark a ids u | AMove a ids f => MailMove a ids f
  | AList a f c l u => done_ (MailList a f c l u) | ASearch a q => done_ (MailSearch a q)
  | AGet a i => done_ (MailGet a i) | AThread a i => done_ (MailThread a i)
  | ACalList a c f t => done_ (CalendarList a c f t) | AFreeBusy a m f t => done_ (FreeBusy a m f t)
  | ACalGet a c i => done_ (CalendarGet a c i)
  | ADraft a g t p => done_ (CreateDraft a g t p)
  | APropose a r w => done_ (Propose SourceAgent a r w)
  | AGate a t g => done_ (Check_ a t g)
  end.

Inductive owner_op :=
  | OSwitch (on : bool) | OCreateRule (r : Rule) (actor : string) | OSetRule (id : string) (on : bool) (why : string)
  | ODeleteRule (id : string) | OApprove (id actor : string) | OReject (id : string) | OPropose (draft : string)
  | OCreateAccount (a : NewAccount) | OUpdateAccount (id label email : string) (c : list (string * cval))
  | OSetAuth (id : string) (a : AuthRef) | ODeleteAccount (id : string) | OTestAccount (id : string)
  | OPlugin (id : string) (caps : list string) (probe : result call_error Capabilities) | ONoPlugin (id : string).

Definition run_owner (o : owner_op) : mop unit :=
  match o with
  | OSwitch b => SetEnabled_ b | OCreateRule r a => done_ (CreateRule r a) | OSetRule i b w => SetRuleEnabled i b w
  | ODeleteRule i => DeleteRule i | OApprove i a => done_ (Approve i a) | OReject i => Reject i
  | OPropose d => done_ (ProposalFromDraft d)
  | OCreateAccount a => done_ (CreateAccount a) | OUpdateAccount i l m c => done_ (UpdateAccount i l m c)
  | OSetAuth i a => SetAuth i a | ODeleteAccount i => DeleteAccount i | OTestAccount i => done_ (TestAccount i)
  | OPlugin i c p => PluginActivated i c p | ONoPlugin i => PluginDeactivated i
  end.

Definition is_mark (c : call) : bool := match c with CallMailMark _ _ _ | CallMailMove _ _ _ => true | _ => false end.

Definition is_simple (o : agent_op) : bool := match o with AMark _ _ _ | AMove _ _ _ => true | _ => false end.

(** One call, with whatever failures and timing. *)
Definition agent_step (s s' : Service) : Prop := exists o e, s' = fst (snd (run_agent o s e)).
Definition owner_step (s s' : Service) : Prop := exists o e, s' = fst (snd (run_owner o s e)).

Lemma step_keeps {O} (run : O -> mop unit) (R : Service -> Service -> Prop) s s' :
  (forall o, keeps R (run o)) -> (exists o e, s' = fst (snd (run o s e))) -> R s s'.
Proof.
  intros HR (o & e & ->). specialize (HR o s e). unfold wp in HR. by destruct (run o s e) as [r [s1 e1]].
Qed.

Section kept.
Context (R : Service -> Service -> Prop) `{!PreOrder R}.
Hypothesis R_reads : forall s s', reads s s' -> R s s'.

Lemma keeps_eq {A} (m : mop A) : keeps eq m -> keeps R m.
Proof. apply keeps_weaken. intros s s' <-. by apply R_reads. Qed.
Lemma keeps_frame {A} (m : mop A) : keeps frame m -> keeps R m.
Proof. apply keeps_weaken. intros s s' H. by apply R_reads, frame_reads. Qed.
Lemma keeps_reads {A} (m : mop A) : keeps reads m -> keeps R m.
Proof. by apply keeps_weaken. Qed.
#[local] Hint Resolve keeps_eq keeps_frame : keeps.
#[local] Hint Extern 5 (keeps R (ask _ _)) => (apply keeps_reads, ask_read; reflexivity) : keeps.
#[local] Hint Extern 5 (keeps R (readCall _ _)) => (apply keeps_reads, readCall_reads; reflexivity) : keeps.
#[local] Hint Extern 5 (keeps R (respondRequest _ _)) => (apply keeps_reads, respondRequest_reads) : keeps.

Lemma write_retry_keeps {A} b (fn : mop (result call_error A)) l : keeps R fn -> keeps R (write_retry b fn l).
Proof.
  intros Hfn. induction l as [|d l IH]; cbn [write_retry]; (apply keeps_bind; [apply _|exact Hfn|]); intros [a|err]; keeps_go.
Qed.

Lemma done_keeps {A} (m : mop A) : keeps R m -> keeps R (done_ m).
Proof. intros Hm. unfold done_. apply keeps_bind; [apply _|exact Hm|]. intros _. apply keeps_ret. apply _. Qed.

Lemma Check_keeps a t g : keeps R (Check_ a t g).
Proof. unfold Check_, gateRequest. keeps_go. Qed.

Lemma get_message_keeps b i : keeps R (get_message b i).
Proof. unfold get_message. keeps_go. Qed.
Lemma get_thread_keeps b i : keeps R (get_thread b i).
Proof. unfold get_thread. keeps_go. Qed.
#[local] Hint Resolve get_message_keeps get_thread_keeps : keeps.

Lemma replyContext_keeps b i : keeps R (replyContext b i).
Proof. unfold replyContext. keeps_go. Qed.
#[local] Hint Resolve replyContext_keeps : keeps.

Lemma record_bounce_keeps a m : keeps R (record_bounce a m).
Proof.
  unfold record_bounce, HasBounce. keeps_go.
Qed.
#[local] Hint Resolve record_bounce_keeps : keeps.

Lemma MailList_keeps a f c l u :
  (forall a r, keeps R (PauseAccount a r)) -> keeps R (MailList a f c l u).
Proof. intros Hp. unfold MailList, observeInbox, CountSince. keeps_go. Qed.

(** A relation that all reads are in is kept by every agent call, when the
    five operations that change more keep it. *)
Lemma agent_keeps o :
  (forall a r, keeps R (PauseAccount a r)) -> (forall d, keeps R (CreateDraftRow d)) ->
  (forall s a r w, keeps R (Propose s a r w)) -> (forall w opt, o = AWrite w opt -> keeps R (run_write w opt)) ->
  (forall a x c, is_simple o = true -> (forall acct, is_mark (c acct) = true) -> keeps R (simpleMailWrite a x c)) ->
  keeps R (run_agent o).
Proof.
  intros Hpause Hdraft Hprop Hwrite Hsimple. destruct o; cbn [run_agent].
  - by apply Hwrite.
  - unfold MailMark. keeps_go. by apply Hsimple.
  - unfold MailMove. keeps_go. by apply Hsimple.
  - by apply done_keeps, MailList_keeps.
  - apply done_keeps. unfold MailSearch. keeps_go.
  - apply done_keeps. unfold MailGet. keeps_go.
  - apply done_keeps. unfold MailThread. keeps_go.
  - apply done_keeps. unfold CalendarList. keeps_go.
  - apply done_keeps. unfold FreeBusy. keeps_go.
  - apply done_keeps. unfold CalendarGet. keeps_go.
  - apply done_keeps. unfold CreateDraft. keeps_go.
  - by apply done_keeps.
  - apply done_keeps, Check_keeps.
Qed.

Lemma write_keeps o opt :
  (forall en, keeps R (Begin en)) -> (forall k m t, keeps R (Complete k m t)) -> (forall s c, R s (add_call c s)) ->
  keeps R (run_write o opt).
Proof.
  intros HB HC Hcall.
  assert (Hask : forall A c (f : list call -> result call_error A), keeps R (ask c f)).
  { intros A c f s e. apply ask_wp. intros _. apply Hcall. }
  assert (Hw : forall A b c (f : list call -> result call_error A), keeps R (writeCall b (ask c f))).
  { intros. by apply write_retry_keeps. }
  destruct o; cbn [run_write].
  - unfold Send. keeps_go.
  - unfold MailDelete. keeps_go.
  - unfold CalendarCreate. keeps_go.
  - unfold CalendarUpdate. keeps_go.
  - unfold CalendarRespond. keeps_go.
  - unfold CalendarDelete. keeps_go.
Qed.

Lemma TestAccount_keeps i : keeps R (TestAccount i).
Proof.
  assert (Hp : forall A b x c (f : list call -> result call_error A), is_write c = false -> keeps R (probe_read b x c f)).
  { intros A b x c f Hc. unfold probe_read. destruct (negb _); [apply keeps_ret; apply _|].
    apply keeps_bind; [apply _|apply keeps_reads; by apply ask_read|]. intros [a|err]; keeps_go. }
  unfold TestAccount, probe_mail, probe_calendar. keeps_go; try by apply Hp.
Qed.
End kept.


(** ** Instances *)

Definition same_settings (s s' : Service) : Prop := settings s' = settings s.
#[export] Instance same_settings_preorder : PreOrder same_settings.
Proof. split; [by intros s|]. unfold same_settings. intros s1 s2 s3 ? ?. congruence. Qed.
Lemma run_write_settings o opt : keeps same_settings (run_write o opt).
Proof.
  apply write_keeps; [apply _|..|done].
  - intros s s' (l & _ & Hf). apply framed_fields in Hf. by destruct Hf.
  - intros en. unfold Begin. keeps_go. done.
  - intros. unfold Complete. keeps_go. done.
Qed.

(** Off stays off, and nothing goes out. *)
Definition stays_off (s s' : Service) : Prop :=
  ~ switch_on s -> ~ switch_on s' /\ exists l, calls s' = calls s ++ l /\ Forall (fun c => is_write c = false) l.
#[export] Instance stays_off_preorder : PreOrder stays_off.
Proof.
  split.
  - intros s Hs. split; [done|]. exists []. by rewrite app_nil_r.
  - intros s1 s2 s3 H1 H2 Hs. destruct (H1 Hs) as (Hs2 & l1 & Hc1 & F1). destruct (H2 Hs2) as (Hs3 & l2 & Hc2 & F2).
    split; [done|]. exists (l1 ++ l2). rewrite Hc2, Hc1, <- app_assoc. split; [done|]. by apply Forall_app.
Qed.
Lemma stays_off_same s s' : settings s' = settings s -> calls s' = calls s -> stays_off s s'.
Proof.
  intros Hs Hc Hoff. unfold switch_on in *. rewrite Hs. split; [done|]. exists []. by rewrite Hc, app_nil_r.
Qed.
Lemma stays_off_reads s s' : reads s s' -> stays_off s s'.
Proof.
  intros (l & Hl & Hf) Hoff. apply framed_fields in Hf as (Hs & _ & _ & _ & _ & Hc). unfold switch_on in *. rewrite Hs.
  split; [done|]. by exists l.
Qed.

Lemma stays_off_write o opt : keeps stays_off (run_write o opt).
Proof.
  intros s e. pose proof (run_write_mediated o opt s e) as Hm. pose proof (run_write_settings o opt s e) as Hs.
  unfold wp in *. destruct (run_write o opt s e) as [r [s' e']]. destruct Hm as (l & Hc & Hl). intros Hoff.
  split; [unfold switch_on in *; by rewrite Hs|]. exists l. split; [done|]. eapply Forall_impl; [exact Hl|].
  intros c Hcw. cbn in Hcw. destruct (is_write c); [|done]. destruct (Hcw eq_refl) as (req & dec & (Hon & _) & _). by destruct Hoff.
Qed.

(** Marking and moving make the one call they stand for, with the switch on. *)
Lemma simple_wp a x c s e :
  wp (simpleMailWrite a x c) (fun _ s' _ => exists l, calls s' = calls s ++ l /\
    forall k, k ∈ l -> switch_on s /\ exists id, k = c id) s e.
Proof.
  assert (Hsame : exists l, calls s = calls s ++ l /\ forall k, k ∈ l -> switch_on s /\ exists id, k = c id).
  { exists []. rewrite app_nil_r. split; [done|set_solver]. }
  unfold simpleMailWrite. apply reads_wp; [apply resolve_reads|done|]. intros b e1.
  apply reads_wp; [apply require_reads|done|]. intros _ e2.
  apply wp_bind. eapply wp_mono; [apply Enabled_wp|]. cbv beta. intros r s1 e3 (-> & on & -> & Hon).
  destruct on; cbn [negb]; [|by apply wp_throw].
  eapply wp_mono; [apply write_retry_wp|]. cbv beta. intros r s' e' (n & _ & Hf).
  apply framed_fields in Hf as (_ & _ & _ & _ & _ & Hc). eexists. split; [exact Hc|].
  intros k (-> & _)%elem_of_replicate. split; [by apply Hon|by eexists].
Qed.

(** No call that leaves the device. *)
Definition no_writes (s s' : Service) : Prop := exists l, calls s' = calls s ++ l /\ Forall (fun c => is_write c = false) l.
#[export] Instance no_writes_preorder : PreOrder no_writes.
Proof.
  split.
  - intros s. exists []. by rewrite app_nil_r.
  - intros s1 s2 s3 (l1 & Hc1 & F1) (l2 & Hc2 & F2). exists (l1 ++ l2).
    rewrite Hc2, Hc1, <- app_assoc. split; [done|]. by apply Forall_app.
Qed.
Lemma no_writes_same s s' : calls s' = calls s -> no_writes s s'.
Proof. intros H. exists []. by rewrite H, app_nil_r. Qed.
Lemma no_writes_reads s s' : reads s s' -> no_writes s s'.
Proof. intros (l & Hl & Hf). apply framed_fields in Hf as (_ & _ & _ & _ & _ & Hc). by exists l. Qed.

Lemma no_writes_agent o :
  match o with AWrite _ _ => False | _ => is_simple o = false end -> keeps no_writes (run_agent o).
Proof.
  intros Ho. apply agent_keeps; [apply _|apply no_writes_reads| | | | |].
  - intros a r. unfold PauseAccount. keeps_go. by apply no_writes_same.
  - intros d. unfold CreateDraftRow. keeps_go. by apply no_writes_same.
  - intros x a r w. unfold Propose. keeps_go. by apply no_writes_same.
  - by intros w opt ->.
  - intros a x c Hs. destruct o; cbn in *; congruence || done.
Qed.

Lemma stays_off_simple a x c : keeps stays_off (simpleMailWrite a x c).
Proof.
  intros s e. unfold simpleMailWrite.
  apply reads_wp; [apply resolve_reads|by intros; reflexivity|]. intros b e1.
  apply reads_wp; [apply require_reads|by intros; reflexivity|]. intros _ e2.
  apply wp_bind. eapply wp_mono; [apply Enabled_wp|]. cbv beta. intros r s1 e3 (-> & on & -> & Hon).
  destruct on; cbn [negb]; [|by apply wp_throw; reflexivity].
  eapply wp_mono; [apply write_retry_wp|]. intros r s' e' _ Hoff. by destruct Hoff; apply Hon.
Qed.

Lemma stays_off_agent o : keeps stays_off (run_agent o).
Proof.
  apply agent_keeps; [apply _|apply stays_off_reads| | | |intros; apply stays_off_write|intros; by apply stays_off_simple].
  - intros a r. unfold PauseAccount. keeps_go. by apply stays_off_same.
  - intros d. unfold CreateDraftRow. keeps_go. by apply stays_off_same.
  - intros x a r w. unfold Propose. keeps_go. by apply stays_off_same.
Qed.

Lemma stays_off_owner o : (forall b, o = OSwitch b -> b = false) -> keeps stays_off (run_owner o).
Proof.
  intros Hb.
  assert (Heq : forall A (m : mop A), keeps eq m -> keeps stays_off m).
  { intros A m. apply keeps_eq, stays_off_reads. }
  destruct o; cbn [run_owner]; try apply done_keeps; try apply _;
    try (by unfold CreateRule, SetRuleEnabled, DeleteRule, Reject, GetProposal, CreateAccount, SetAuth, update_account_row,
           DeleteAccount, PluginActivated, registerProvider, PluginDeactivated; keeps_go; apply stays_off_same).
  - unfold SetEnabled_. rewrite (Hb on eq_refl). keeps_go. intros _. split.
    + intros (v & [= <-] & Hv). discriminate.
    + exists []. by rewrite app_nil_r.
  - unfold Approve, GetProposal, CreateRule, DeleteRule. keeps_go; by apply stays_off_same.
  - unfold ProposalFromDraft, Propose. assert (keeps stays_off (GetDraft draft)) by apply Heq, GetDraft_reads.
    keeps_go; by apply stays_off_same.
  - unfold UpdateAccount. assert (keeps stays_off (GetAccount id)) by apply Heq, GetAccount_reads.
    keeps_go; by apply stays_off_same.
  - apply TestAccount_keeps; [apply _|apply stays_off_reads].
Qed.


(** ** A key recorded as sent is never used again *)

Definition sent (k : string) (s : Service) : Prop := exists en, find_entry k (ledger s) = Some en /\ State en = LedgerSent.
Definition uses_key (k : string) (c : call) : Prop :=
  match c with
  | CallMailSend _ p => IdempotencyKey p = k
  | CallCalCreate _ p => WKey p = k
  | _ => False
  end.

Definition once (k : string) (s s' : Service) : Prop :=
  sent k s -> sent k s' /\ exists l, calls s' = calls s ++ l /\ Forall (fun c => ~ uses_key k c) l.
#[export] Instance once_preorder k : PreOrder (once k).
Proof.
  split.
  - intros s Hs. split; [done|]. exists []. by rewrite app_nil_r.
  - intros s1 s2 s3 H1 H2 Hs. destruct (H1 Hs) as (Hs2 & l1 & Hc1 & F1). destruct (H2 Hs2) as (Hs3 & l2 & Hc2 & F2).
    split; [done|]. exists (l1 ++ l2). rewrite Hc2, Hc1, <- app_assoc. split; [done|]. by apply Forall_app.
Qed.
Lemma once_same k s s' : ledger s' = ledger s -> calls s' = calls s -> once k s s'.
Proof. intros Hl Hc Hs. unfold sent in *. rewrite Hl. split; [done|]. exists []. by rewrite Hc, app_nil_r. Qed.
Lemma once_reads k s s' : reads s s' -> once k s s'.
Proof.
  intros (l & Hl & Hf) Hs. apply framed_fields in Hf as (_ & _ & _ & _ & Hle & Hc). unfold sent in *. rewrite Hle.
  split; [done|]. exists l. split; [done|]. eapply Forall_impl; [exact Hl|]. cbv beta. intros [] Hw; cbn in *; tauto || done.
Qed.
Lemma once_call k s c : ~ uses_key k c -> once k s (add_call c s).
Proof. intros Hc Hs. split; [done|]. exists [c]. split; [done|]. by constructor. Qed.

Lemma ask_once {A} k c (f : list call -> result call_error A) : ~ uses_key k c -> keeps (once k) (ask c f).
Proof. intros Hc s e. apply ask_wp. intros _. by apply once_call. Qed.

Lemma find_entry_app k l x : find_entry k l <> None -> find_entry k (l ++ [x]) = find_entry k l.
Proof.
  unfold find_entry. induction l as [|y l IH]; cbn; [done|]. destruct (bool_decide (Key y = k)); [done|]. apply IH.
Qed.
Lemma find_entry_complete k k' m t z l en :
  find_entry k l = Some en -> State en = LedgerSent ->
  exists en', find_entry k (update_where (fun e => bool_decide (Key e = k')) (complete_entry m t z) l) = Some en' /\
    State en' = LedgerSent.
Proof.
  unfold find_entry, update_where. induction l as [|y l IH]; cbn; [done|]. intros Hf Hs.
  assert (Hk : Key (if bool_decide (Key y = k') then complete_entry m t z y else y) = Key y).
  { by destruct (bool_decide (Key y = k')). }
  rewrite Hk. destruct (bool_decide (Key y = k)); [|by apply IH]. injection Hf as ->.
  exists (if bool_decide (Key en = k') then complete_entry m t z en else en). split; [done|].
  by destruct (bool_decide (Key en = k')).
Qed.

Lemma Begin_once k en : keeps (once k) (Begin en).
Proof.
  unfold Begin. keeps_go. intros (x & Hx & Hs). split.
  - exists x. split; [|done]. cbn [set_ledger ledger]. rewrite find_entry_app; [done|]. by rewrite Hx.
  - exists []. by rewrite app_nil_r.
Qed.
Lemma Complete_once k k' m t : keeps (once k) (Complete k' m t).
Proof.
  unfold Complete. keeps_go. intros (x & Hx & Hs). split.
  - destruct (find_entry_complete k k' m t a _ _ Hx Hs) as (x' & Hx' & Hs'). by exists x'.
  - exists []. by rewrite app_nil_r.
Qed.

(** After [Begin], a caller goes on only when its key is not recorded as sent. *)
Lemma begin_then_once {A} k en (stop go : LedgerEntry -> mop A) :
  (forall x, keeps (once k) (stop x)) -> (Key en <> k -> forall x, keeps (once k) (go x)) ->
  keeps (once k) ('(entry, existed) ← Begin en;
                  if existed && bool_decide (State entry = LedgerSent) then stop entry else go entry).
Proof.
  intros Hstop Hgo s e. apply wp_bind. pose proof (Begin_once k en s e) as Ho. pose proof (Begin_wp en s e) as Hb.
  unfold wp in Ho, Hb. unfold wp at 1. destruct (Begin en s e) as [[[x ex]|x] [s1 e1]]; [|exact Ho].
  destruct (decide (Key en = k)) as [Hk|Hk].
  - destruct ex; cbn [andb].
    + destruct Hb as [-> Hf]. case_bool_decide as Hs.
      * eapply wp_mono; [apply Hstop|]. intros r s' e' Hr. by transitivity s.
      * unfold wp. destruct (go x s e1) as [r [s' e']]. intros (y & Hy & Hys). rewrite Hk in Hf. congruence.
    + destruct Hb as (Hf & _). unfold wp. destruct (go x s1 e1) as [r [s' e']]. intros (y & Hy & _). rewrite Hk in Hf. congruence.
  - destruct (ex && _); (eapply wp_mono; [first [apply Hstop|by apply Hgo]|]; intros r s' e' Hr; by transitivity s1).
Qed.

Lemma run_write_once k o opt : keeps (once k) (run_write o opt).
Proof.
  assert (Heq : forall A (m : mop A), keeps eq m -> keeps (once k) m) by (intros A m; apply keeps_eq, once_reads).
  assert (Hrec : forall d, keeps (once k) (Record_ d)).
  { intros d. apply keeps_frame; [apply once_reads|apply Record_frame]. }
  assert (Hw : forall A b c (f : list call -> result call_error A), ~ uses_key k c -> keeps (once k) (writeCall b (ask c f))).
  { intros A b c f Hc. apply write_retry_keeps; [apply _|apply once_reads|by apply ask_once]. }
  assert (Hc : forall k' m t, keeps (once k) (Complete k' m t)) by apply Complete_once.
  assert (Hrespond : forall b p, keeps (once k) (respondRequest b p)).
  { intros b p. apply keeps_reads; [apply once_reads|apply respondRequest_reads]. }
  destruct o; cbn [run_write].
  - unfold Send. cbv zeta. apply keeps_bind; [apply _| |intros _; apply keeps_ret; apply _].
    repeat (apply keeps_bind; [apply _|apply Heq; first [apply GetDraft_reads|apply Decide_reads|apply authorize_reads|apply resolve_reads|apply require_reads]|intros ?]).
    apply begin_then_once; [intros x; apply keeps_ret; apply _|]. cbn [Key]. intros Hk x.
    apply keeps_bind; [apply _|apply Hw; first [exact Hk|by intros []]|intros res]. keeps_go.
  - unfold MailDelete.
    repeat first [apply keeps_bind; [apply _|apply Heq; first [apply Decide_reads|apply authorize_reads|apply resolve_reads|apply require_reads]|intros ?] | progress cbv zeta | case_bool_decide].
    + apply keeps_throw; apply _.
    + apply keeps_bind; [apply _|apply Hw; first [exact Hk|by intros []]|intros res]. keeps_go.
  - unfold CalendarCreate. cbv zeta. apply keeps_bind; [apply _| |intros _; apply keeps_ret; apply _].
    repeat (apply keeps_bind; [apply _|first [apply keeps_lift; apply _ | apply Heq; first [apply Decide_reads|apply authorize_reads|apply resolve_reads|apply require_reads]]|intros ?]).
    apply (begin_then_once k _ (fun entry => mret (with_event_id (LProviderMessageID entry) ev))); [intros x; apply keeps_ret; apply _|].
    cbn [Key]. intros Hk x. apply keeps_bind; [apply _|apply Hw; first [exact Hk|by intros []]|intros res]. keeps_go.
  - unfold CalendarUpdate. cbv zeta. apply keeps_bind; [apply _| |intros _; apply keeps_ret; apply _].
    repeat first [apply keeps_bind; [apply _|first [apply keeps_lift; apply _ | apply Heq; first [apply Decide_reads|apply authorize_reads|apply resolve_reads|apply require_reads]]|intros ?] | case_bool_decide].
    + apply keeps_throw; apply _.
    + apply keeps_bind; [apply _|apply Hw; first [exact Hk|by intros []]|intros res]. keeps_go.
  - unfold CalendarRespond. cbv zeta. apply keeps_bind; [apply _| |intros _; apply keeps_ret; apply _].
    repeat (apply keeps_bind; [apply _|first [apply Hrespond | apply Heq; first [apply Decide_reads|apply authorize_reads|apply resolve_reads|apply require_reads]]|intros ?]).
    apply keeps_bind; [apply _|apply Hw; first [exact Hk|by intros []]|intros res]. keeps_go.
  - unfold CalendarDelete. cbv zeta.
    repeat (apply keeps_bind; [apply _|apply Heq; first [apply Decide_reads|apply authorize_reads|apply resolve_reads|apply require_reads]|intros ?]).
    apply keeps_bind; [apply _|apply Hw; first [exact Hk|by intros []]|intros res]. keeps_go.
Qed.


Lemma is_mark_no_key k c : is_mark c = true -> ~ uses_key k c.
Proof. destruct c; cbn; try discriminate; tauto. Qed.

Lemma once_agent k o : keeps (once k) (run_agent o).
Proof.
  apply agent_keeps; [apply _|apply once_reads| | | |intros; apply run_write_once|].
  - intros a r. unfold PauseAccount. keeps_go. by apply once_same.
  - intros d. unfold CreateDraftRow. keeps_go. by apply once_same.
  - intros x a r w. unfold Propose. keeps_go. by apply once_same.
  - intros a x c _ Hc. unfold simpleMailWrite.
    assert (Heq : forall A (m : mop A), keeps eq m -> keeps (once k) m) by (intros A m; apply keeps_eq, once_reads).
    pose proof (Heq _ _ (resolve_reads a KindMail)). pose proof (Heq _ _ Enabled_reads).
    assert (forall b, keeps (once k) (require b x)) by (intros b; apply Heq, require_reads).
    keeps_go. apply write_retry_keeps; [apply _|apply once_reads|]. apply ask_once.
    by apply is_mark_no_key.
Qed.

(** The owner's operations touch neither the ledger nor the providers' write calls. *)
Lemma owner_keeps (R : Service -> Service -> Prop) `{!PreOrder R} o :
  (forall s s', reads s s' -> R s s') ->
  (forall s v, R s (set_settings v s)) -> (forall s l, R s (set_rules l s)) -> (forall s l, R s (set_proposals l s)) ->
  (forall s l, R s (set_accounts l s)) -> (forall s m, R s (set_providers m s)) ->
  (forall i, o = ODeleteAccount i -> keeps R (DeleteAccount i)) ->
  keeps R (run_owner o).
Proof.
  intros Hr Hset Hrul Hpro Hacc Hprov Hdel.
  assert (Heq : forall A (m : mop A), keeps eq m -> keeps R m) by (intros A m; by apply keeps_eq).
  destruct o; cbn [run_owner]; try apply done_keeps; try apply _;
    try (by unfold SetEnabled_, CreateRule, SetRuleEnabled, DeleteRule, Reject, GetProposal, CreateAccount, SetAuth, update_account_row,
           PluginActivated, registerProvider, PluginDeactivated; keeps_go).
  - by unfold Approve, GetProposal, CreateRule, DeleteRule; keeps_go.
  - unfold ProposalFromDraft, Propose. assert (keeps R (GetDraft draft)) by apply Heq, GetDraft_reads. by keeps_go.
  - unfold UpdateAccount. assert (keeps R (GetAccount id)) by apply Heq, GetAccount_reads. by keeps_go.
  - by apply Hdel.
  - by apply TestAccount_keeps.
Qed.

Lemma no_writes_owner o : keeps no_writes (run_owner o).
Proof.
  apply owner_keeps; try apply _; try (by intros; apply no_writes_same).
  - apply no_writes_reads.
  - intros i _. unfold DeleteAccount. keeps_go. by apply no_writes_same.
Qed.

(** A call that leaves the device, made by an operation run between [e] and
    [e']: with the switch on, marking and moving as the operation says, anything
    else authorized as it is sent. *)
Definition run_any (o : agent_op + owner_op) : mop unit := match o with inl o => run_agent o | inr o => run_owner o end.
Definition allowed_call (s : Service) (e e' : env) (o : agent_op + owner_op) (c : call) : Prop :=
  switch_on s /\
  match o with
  | inl (AWrite _ opt) => exists req dec, authorized s e e' req opt dec /\ describes req c
  | inl (AMark _ ids unread) => exists acct, c = CallMailMark acct ids unread
  | inl (AMove _ ids folder) => exists acct, c = CallMailMove acct ids folder
  | _ => False
  end.

Lemma run_any_allowed o s e :
  wp (run_any o) (fun _ s' e' => exists l, calls s' = calls s ++ l /\
    forall c, c ∈ l -> is_write c = true -> allowed_call s e e' o c) s e.
Proof.
  assert (Hno : forall (m : mop unit), keeps no_writes m -> wp m (fun _ s' e' => exists l, calls s' = calls s ++ l /\
    forall c, c ∈ l -> is_write c = true -> allowed_call s e e' o c) s e).
  { intros m Hm. eapply wp_keeps; [exact Hm|]. intros _ s' e' (l & Hc & Hl). exists l. split; [done|].
    rewrite Forall_forall in Hl. intros c Hin Hw. rewrite Hl in Hw; done. }
  destruct o as [o|o]; cbn [run_any]; [|apply Hno, no_writes_owner].
  destruct o as [o opt|a ids u|a ids f| | | | | | | | | |]; try (by apply Hno, no_writes_agent); cbn [run_agent].
  - eapply wp_mono; [apply run_write_mediated|]. cbv beta. intros _ s' e' (l & Hc & Hl). exists l. split; [done|].
    rewrite Forall_forall in Hl. intros c Hin Hw. destruct (Hl c Hin Hw) as (req & dec & Hau & Hd).
    split; [by destruct Hau|by exists req, dec].
  - unfold MailMark. case_bool_decide; [apply Hno, keeps_throw; apply _|].
    eapply wp_mono; [apply simple_wp|]. cbv beta. intros _ s' e' (l & Hc & Hl). exists l. split; [done|].
    intros c Hin _. by destruct (Hl c Hin).
  - unfold MailMove. destruct (_ || _); [apply Hno, keeps_throw; apply _|].
    eapply wp_mono; [apply simple_wp|]. cbv beta. intros _ s' e' (l & Hc & Hl). exists l. split; [done|].
    intros c Hin _. by destruct (Hl c Hin).
Qed.

Lemma once_owner k o : keeps (once k) (run_owner o).
Proof.
  apply owner_keeps; try apply _; try (by intros; apply once_same).
  - apply once_reads.
  - intros i _. unfold DeleteAccount. keeps_go. by apply once_same.
Qed.

(** ** Drafts never change *)

(** Rows of accounts other than the deleted ones stay. *)
Definition keeps_row (row : DraftRow) (s s' : Service) : Prop := row ∈ drafts s -> row ∈ drafts s'.
#[export] Instance keeps_row_preorder row : PreOrder (keeps_row row).
Proof. unfold keeps_row. split; [by intros s|]. intros s1 s2 s3. auto. Qed.
Lemma keeps_row_reads row s s' : reads s s' -> keeps_row row s s'.
Proof. intros (l & _ & Hf). apply framed_fields in Hf as (_ & Hd & _). unfold keeps_row. by rewrite Hd. Qed.
Lemma keeps_row_same row s s' : drafts s' = drafts s -> keeps_row row s s'.
Proof. intros H. unfold keeps_row. by rewrite H. Qed.

Lemma keeps_row_agent row o : keeps (keeps_row row) (run_agent o).
Proof.
  assert (Hcall : forall s c, keeps_row row s (add_call c s)) by (intros; by apply keeps_row_same).
  apply agent_keeps; [apply _|apply keeps_row_reads| | | | |].
  - intros a r. unfold PauseAccount. keeps_go. by apply keeps_row_same.
  - intros d. unfold CreateDraftRow. keeps_go. unfold keeps_row; cbn. set_solver.
  - intros x a r w. unfold Propose. keeps_go. by apply keeps_row_same.
  - intros w opt _. apply write_keeps; [apply _|apply keeps_row_reads| | |done].
    + intros en. unfold Begin. keeps_go. by apply keeps_row_same.
    + intros. unfold Complete. keeps_go. by apply keeps_row_same.
  - intros a x c _ _. unfold simpleMailWrite.
    assert (Heq : forall A (m : mop A), keeps eq m -> keeps (keeps_row row) m) by (intros A m; apply keeps_eq, keeps_row_reads).
    pose proof (Heq _ _ (resolve_reads a KindMail)). pose proof (Heq _ _ Enabled_reads).
    assert (forall b, keeps (keeps_row row) (require b x)) by (intros b; apply Heq, require_reads).
    keeps_go. apply write_retry_keeps; [apply _|apply keeps_row_reads|]. intros s e. apply ask_wp. intros _. apply Hcall.
Qed.

Lemma keeps_row_owner row o :
  o <> ODeleteAccount (dr_account row) -> keeps (keeps_row row) (run_owner o).
Proof.
  intros Ho. apply owner_keeps; try apply _; try (by intros; apply keeps_row_same).
  - apply keeps_row_reads.
  - intros i ->. unfold DeleteAccount. keeps_go. unfold keeps_row; cbn. intros Hr. apply list_elem_of_filter.
    split; [|done]. intros Hi. by rewrite Hi in Ho.
Qed.

(** ** An agent never turns a rule on *)

Definition no_new_rule (s s' : Service) : Prop := forall r, r ∈ rules s' -> rr_enabled r = 1 -> r ∈ rules s.
#[export] Instance no_new_rule_preorder : PreOrder no_new_rule.
Proof. unfold no_new_rule. split; [by intros s|]. intros s1 s2 s3 H1 H2 r Hr He. auto. Qed.
Lemma no_new_rule_same s s' : rules s' = rules s -> no_new_rule s s'.
Proof. intros H r. by rewrite H. Qed.
Lemma no_new_rule_reads s s' : reads s s' -> no_new_rule s s'.
Proof. intros (l & _ & Hf). apply framed_fields in Hf as (_ & _ & Hr & _). by apply no_new_rule_same. Qed.

Lemma no_new_rule_agent o : keeps no_new_rule (run_agent o).
Proof.
  apply agent_keeps; [apply _|apply no_new_rule_reads| | | | |].
  - intros a r. unfold PauseAccount. keeps_go. intros x Hx He. cbn in Hx. apply elem_of_update_where in Hx as (y & Hy & ->).
    destruct (_ && _); [discriminate|done].
  - intros d. unfold CreateDraftRow. keeps_go. by apply no_new_rule_same.
  - intros x a r w. unfold Propose. keeps_go. by apply no_new_rule_same.
  - intros w opt _. apply write_keeps; [apply _|apply no_new_rule_reads| | |by intros; apply no_new_rule_same].
    + intros en. unfold Begin. keeps_go. by apply no_new_rule_same.
    + intros. unfold Complete. keeps_go. by apply no_new_rule_same.
  - intros a x c _ _. unfold simpleMailWrite.
    assert (Heq : forall A (m : mop A), keeps eq m -> keeps no_new_rule m) by (intros A m; apply keeps_eq, no_new_rule_reads).
    pose proof (Heq _ _ (resolve_reads a KindMail)). pose proof (Heq _ _ Enabled_reads).
    assert (forall b, keeps no_new_rule (require b x)) by (intros b; apply Heq, require_reads).
    keeps_go. apply write_retry_keeps; [apply _|apply no_new_rule_reads|]. intros s e. apply ask_wp. intros _. by apply no_new_rule_same.
Qed.

End spec.
