(* ===== verification/MailProps.v ===== *)
(** * Mail and calendar: properties

    The theorems about outgoing writes, the ledger, drafts, rules, proposals,
    accounts and the bounce monitor, with closed instances ([Demo]). *)

From S2P Require Import Prelude GoStrings Regex GoPath Address PolicyRule PolicyEval PolicySpec Io Tables MailTypes MailStore MailAccounts MailService MailRead MailSpec.

#[local] Open Scope Z_scope.

(** ** Closed instances

    One account, one draft, one rule and one proposal; a codec of just these
    values and a provider that answers everything, for the examples. *)

Module Demo.
#[local] Existing Instance plain_mail_env.
#[local] Existing Instance plain_platform.

Definition demo_rule (id : string) : Rule :=
  mkRule id true None "acct_1" ActionSendNew EffectAllow false
    (mkMatch (mkRecipients ["bob@example.com"] []) false (mkBodyMatch BodyFree "" false) None) (mkLimits 5 20).
Definition demo_payload : DraftPayload :=
  mkPayload [mkAddress "Bob" "Bob@Example.com"] [] [] " Hello " "Lunch at noon?" "" "".
Definition demo_stored : DraftPayload :=
  mkPayload [mkAddress "Bob" "bob@example.com"] [] [] "Hello" "Lunch at noon?" "" "".

(** A codec of the few values of the examples, every text its own name. *)
Definition demo_codec : MailCodec := {|
  rule_json := fun r => ID r;
  rule_of_json := fun s => if bool_decide (s = "none") then None else Some (demo_rule s);
  payload_json := fun p => PSubject p +:+ "/" +:+ PBodyText p;
  payload_of_json := fun s => if bool_decide (s = "Hello/Lunch at noon?") then Some demo_stored else None;
  reply_json := fun r => RcMessageID r;
  reply_of_json := fun s => Some (mkReplyContext s "" true [] "");
  config_json := fun _ => Some "{}"; config_of_json := fun _ => Some [];
  auth_json := AuthType; auth_of_json := fun s => Some (mkAuth s "" []);
  event_json := EvTitle;
  load_location := fun _ => Some (fun _ => 0) |}.

Definition demo_event : Event := mkEvent "ev_1" "" "Standup" 0 hour "" false "" "" "" [] None.

(** A provider that answers everything, but the first send with a transient failure. *)
Definition demo_plugins : Plugins := {|
  ask_send := fun h _ _ => match h with
    | [] => Err (Coded (mkError ErrTransient "busy" 0)) | _ => Ok (mkSendResult "msg_1" "thr_1" false) end;
  ask_message := fun _ _ i => Ok (mkMessage i "thr_1" (mkAddress "" "bob@example.com") [] [] "Hi" "");
  ask_thread := fun _ _ i => Ok (mkThread i []);
  ask_list := fun _ _ => Ok ((fun i => mkMessage i "" (mkAddress "" "MAILER-DAEMON@example.com") [] [] "Undelivered" "") <$> ["m1"; "m2"; "m3"]);
  ask_events := fun _ _ => Ok [demo_event]; ask_busy := fun _ _ => Ok [];
  ask_event := fun _ _ => Ok demo_event; ask_unit := fun _ _ => Ok tt |}.

Definition demo_caps : Capabilities :=
  mkCapabilities [CapMail] [ExportMailSend; ExportMailDelete; ExportMailList] (mkProviderLimits 0 0 0).
Definition demo_row : DraftRow := mkDraftRow "draft_1" "acct_1" "agent" "" "Hello/Lunch at noon?" "Hello/Lunch at noon?" "" 5.
Definition demo_rule_row : RuleRow := mkRuleRow "rule_a" "acct_1" "rule_a" 1 "" None "ann" 5.
Definition demo_proposal : ProposalRow := mkProposalRow "prop_1" SourceAgent "agent" "prop" "why" ProposalPending "" 5 None.

Definition demo_service : Service :=
  mkService [mkAccountRow "acct_1" "Work" "imap" KindMail "me@example.com" "{}" "none" StatusOK "" 1 1]
    [demo_row] (Some "true") [demo_rule_row] [demo_proposal] [] [] {["imap" := mkProvider demo_caps]} [].

Definition nobody : WriteOptions := mkWriteOptions "agent" "trace" false.
Definition somebody : WriteOptions := mkWriteOptions "agent" "trace" true.

Definition after {A} (m : mop A) (s : Service) : Service := fst (snd (m s (calm 1000))).
Definition after_env {A} (m : mop A) (s : Service) : env := snd (snd (m s (calm 1000))).
Definition answer {A} (m : mop A) (s : Service) : result mail_error A := fst (m s (calm 1000)).

Lemma run_parts {A} (m : mop A) s : m s (calm 1000) = (answer m s, (after m s, after_env m s)).
Proof. unfold answer, after, after_env. by destruct (m s (calm 1000)) as [r [s' e']]. Qed.

End Demo.
Export Demo.

Section props.
Context `{ME : MailEnv} `{P : Platform} `{MC : MailCodec} `{PL : Plugins}.

(** ** Outgoing writes *)

(** C5. Complete mediation: whatever one operation of an agent or of the owner
    does, under any failures, every call it adds that leaves the device is made
    with the switch on.  Marking and moving mail need no more: the call is the
    one the operation names.  Any other such call comes from a writing
    operation and carries a payload that was put to the engine while the
    operation ran, before any write and on the books as they stood; the engine
    either answered "allow", by an enabled rule in force that covers it with
    headroom by the executions the trail counts at that time, or asked for a
    person, and the caller came with an approval. *)
Theorem writes_mediated o s e r s' e' :
  run_any o s e = (r, (s', e')) ->
  exists l, calls s' = calls s ++ l /\
    forall c, c ∈ l -> is_write c = true -> allowed_call s e e' o c.
Proof. of_run. apply run_any_allowed. Qed.

Lemma authorized_destructive s e e' req opt dec :
  authorized s e e' req opt dec -> Destructive req = true -> WApproved opt = true.
Proof.
  intros (_ & _ & [(_ & stored & t & u & r & _ & _ & _ & Hal & _)|[_ Ha]]) Hd; [|done].
  destruct Hal as (q & Hq & _ & (Hdq & _) & _). unfold normalizeRequest in Hq.
  rewrite !result_bind_Ok in Hq. destruct Hq as (to & _ & Hq). apply result_bind_Ok in Hq as (cc & _ & Hq).
  apply result_bind_Ok in Hq as (bcc & _ & Hq). apply result_bind_Ok in Hq as (rep & _ & Hq).
  apply result_bind_Ok in Hq as (cal & _ & [= <-]). cbn in Hdq. congruence.
Qed.

(** Deleting always needs a person: no rule book, however permissive, makes
    the service delete mail or an event without an approval. *)
Theorem deletes_need_a_person o opt s e r s' e' c :
  run_write o opt s e = (r, (s', e')) -> c ∈ drop (List.length (calls s)) (calls s') ->
  match c with CallMailDelete _ _ | CallCalDelete _ _ => True | _ => False end -> WApproved opt = true.
Proof.
  intros Hrun Hc Hdel. pose proof (run_write_mediated o opt s e) as H. unfold wp in H. rewrite Hrun in H.
  destruct H as (l & Hl & Hall). rewrite Hl, drop_app_length in Hc. rewrite Forall_forall in Hall.
  assert (Hw : is_write c = true) by by destruct c.
  destruct (Hall c Hc Hw) as (req & dec & Hau & Hd). eapply authorized_destructive; [exact Hau|].
  destruct c; try done; cbn in Hd; by subst.
Qed.

(** Any calls of the agent and of the owner, in any order. *)
Definition any_step (owner_may : owner_op -> Prop) (s s' : Service) : Prop :=
  agent_step s s' \/ exists o e, owner_may o /\ s' = fst (snd (run_owner o s e)).

Lemma any_steps_keep (R : Service -> Service -> Prop) `{!PreOrder R} may s s' :
  (forall o, keeps R (run_agent o)) -> (forall o, may o -> keeps R (run_owner o)) ->
  rtc (any_step may) s s' -> R s s'.
Proof.
  intros Ha Ho. induction 1 as [|s s1 s' Hst _ IH]; [reflexivity|]. transitivity s1; [|done].
  destruct Hst as [Hag|(o & e & Hm & ->)]; [by eapply (step_keeps run_agent)|].
  specialize (Ho o Hm s e). unfold wp in Ho. by destruct (run_owner o s e) as [r [s2 e2]].
Qed.

(** Off means off: while nobody turns the master switch on, no sequence of
    calls by agents and of other actions by the owner makes any call that
    leaves the device, marking and moving included. *)
Theorem off_means_off s s' :
  rtc (any_step (fun o => o <> OSwitch true)) s s' -> ~ switch_on s ->
  ~ switch_on s' /\ exists l, calls s' = calls s ++ l /\ Forall (fun c => is_write c = false) l.
Proof.
  intros H. assert (Hk : stays_off s s'); [|exact Hk].
  eapply any_steps_keep; [apply _|apply stays_off_agent| |exact H].
  intros o Ho. apply stays_off_owner. intros b ->. by destruct b.
Qed.

(** C6. At most once: when the ledger records a key as sent (the key of a draft,
    or of a created event), no later sequence of operations, under any
    failures, makes a provider call with that key, and the record stays. *)
Theorem sent_once k s s' :
  rtc (any_step (fun _ => True)) s s' -> sent k s ->
  sent k s' /\ exists l, calls s' = calls s ++ l /\ Forall (fun c => ~ uses_key k c) l.
Proof.
  intros H. assert (Hk : once k s s'); [|exact Hk].
  eapply any_steps_keep; [apply _|apply once_agent| |exact H]. intros o _. apply once_owner.
Qed.

Lemma key_preimage_nonempty p l : key_preimage (p :: l) <> "".
Proof.
  cbn [key_preimage]. intros H. apply (f_equal String.length) in H.
  rewrite !string_length_app in H. cbn in H. lia.
Qed.

(** Keys do not collide by construction: the length-prefixed text a key is
    hashed from determines its parts. *)
Theorem key_preimage_inj l l' : key_preimage l = key_preimage l' -> l = l'.
Proof.
  revert l'. induction l as [|p l IH]; intros [|p' l']; [done| | |].
  - intros H. exfalso. by eapply key_preimage_nonempty.
  - intros H. exfalso. by eapply key_preimage_nonempty.
  - cbn [key_preimage]. intros H.
    apply (app_sep_inj (byte_of 58)) in H as [Hlen H];
      [|apply pretty_Z_no_colon; unfold len; lia..].
    apply (inj pretty) in Hlen. unfold len in Hlen.
    apply app_len_inj in H as [-> H]; [|lia]. injection H as H. by rewrite (IH l' H).
Qed.

(** ** Drafts *)

(** Drafts never change: a stored draft row survives, unchanged, any
    sequence of operations that does not delete its account; there is no way to
    edit what an approval was given for. *)
Theorem drafts_immutable row s s' :
  rtc (any_step (fun o => o <> ODeleteAccount (dr_account row))) s s' -> row ∈ drafts s -> row ∈ drafts s'.
Proof.
  intros H. assert (Hk : keeps_row row s s'); [|exact Hk].
  eapply any_steps_keep; [apply _|apply keeps_row_agent| |exact H]. intros o. apply keeps_row_owner.
Qed.

(** The emails of a list of recipients are the normal forms of the given ones,
    each once. *)
Definition normalized_from (given out : list Address) : Prop :=
  NoDup (Email <$> out) /\ forall x, x ∈ Email <$> out <-> exists a, a ∈ given /\ NormalizeEmail (Email a) = Ok x.

Lemma normalizeRecipients_Ok label l out : normalizeRecipients label l = Ok out -> normalized_from l out.
Proof.
  unfold normalizeRecipients, NormalizeAddresses. destruct (NormalizeAddresses_go _ _ _) as [x|] eqn:H; [|done].
  intros [= <-]. apply NormalizeAddresses_go_spec in H as (_ & Hnd & ns & Hns & Hmem & _); [|set_solver|constructor].
  split; [done|]. intros y. rewrite Hmem. apply mapM_result_Ok in Hns.
  assert (Hiff : y ∈ Email <$> ns <-> exists a, a ∈ l /\ NormalizeEmail (Email a) = Ok y).
  { clear -Hns. induction Hns as [|a n l ns Ha _ IH]; [set_solver|].
    rewrite fmap_cons, elem_of_cons, IH. unfold NormalizeAddress in Ha.
    destruct (NormalizeEmail (Email a)) as [em|] eqn:He; [|done]. cbn in Ha. injection Ha as <-. cbn. split.
    - intros [->|(b & Hb & Hn)]; [exists a; split; [set_solver|done]|exists b; split; [set_solver|done]].
    - intros (b & [->|Hb]%elem_of_cons & Hn); [left; congruence|right; by exists b]. }
  rewrite Hiff. set_solver.
Qed.

(** C7. What a stored draft guarantees: at least one "to" recipient, at most the
    provider's limit (50 when it states none), every address the normal form of
    one given, none twice in its list; a non-empty one-line subject of at most
    998 characters; a body that is not blank, is at most 256 KiB and has no
    control character but newline and tab. *)
Theorem ValidatePayload_guarantees p n q :
  ValidatePayload p n = Ok q ->
  PTo q <> [] /\
  count (PTo q) + count (PCc q) + count (PBcc q) <= (if n <=? 0 then 50 else n) /\
  normalized_from (PTo p) (PTo q) /\ normalized_from (PCc p) (PCc q) /\ normalized_from (PBcc p) (PBcc q) /\
  PSubject q <> "" /\ count (runes (PSubject q)) <= 998 /\ contains_any (PSubject q) [13; 10] = false /\
  hasControl (PSubject q) = false /\
  PBodyText q = PBodyText p /\ trim_space (PBodyText q) <> "" /\ len (PBodyText q) <= 262144 /\ hasControl (PBodyText q) = false.
Proof.
  unfold ValidatePayload. intros H. apply result_bind_Ok in H as (to & Hto & H).
  apply result_bind_Ok in H as (cc & Hcc & H). apply result_bind_Ok in H as (bcc & Hbcc & H). cbv zeta in H.
  destruct (bool_decide (to = [])) eqn:H1; [done|]. destruct (_ <? count to + _ + _) eqn:H2; [done|].
  destruct (bool_decide (trim_space (PSubject p) = "")) eqn:H3; [done|].
  destruct (contains_any _ _ || _) eqn:H4; [done|]. destruct (maxSubjectRunes <? _) eqn:H5; [done|].
  destruct (bool_decide (trim_space (PBodyText p) = "")) eqn:H6; [done|].
  destruct (maxBodyBytes <? _) eqn:H7; [done|]. destruct (hasControl (PBodyText p)) eqn:H8; [done|].
  injection H as <-. cbn.
  rewrite bool_decide_eq_false in H1, H3, H6. rewrite Z.ltb_ge in H2, H5, H7. rewrite orb_false_iff in H4. destruct H4 as [H4a H4b].
  change maxSubjectRunes with 998 in H5. change maxBodyBytes with 262144 in H7. change defaultMaxRcpt with 50 in H2.
  split_and!; try done; by eapply normalizeRecipients_Ok.
Qed.

(** ** Rules and proposals *)

(** No agent turns a rule on: through any sequence of the tools an agent can
    call, every rule enabled afterwards is a row that was there before, unchanged. *)
Theorem agents_never_enable_rules s s' r :
  rtc agent_step s s' -> r ∈ rules s' -> rr_enabled r = 1 -> r ∈ rules s.
Proof.
  intros H. assert (Hk : no_new_rule s s'); [|intros; by apply Hk].
  induction H as [|s s1 s' Hst _ IH]; [reflexivity|]. transitivity s1; [|done].
  eapply (step_keeps run_agent); [apply no_new_rule_agent|exact Hst].
Qed.

Lemma CreateRule_wp r actor s e :
  wp (CreateRule r actor) (fun res s' _ =>
    (is_ok res = false -> s' = s) /\
    forall st, res = Ok st -> actor <> "" /\ exists r' id t, Validate r = Ok r' /\ SRule st = with_id id r' /\
      s' = set_rules (rules s ++ [mkRuleRow id (AccountID r') (rule_json (with_id id r')) (boolInt (Enabled r')) "" None actor t]) s) s e.
Proof.
  unfold CreateRule. case_bool_decide as Ha; [by apply wp_throw|].
  apply wp_bind, wp_lift. destruct (Validate r) as [r'|x] eqn:Hv; [|by split].
  apply wp_bind, wp_draw. intros e1 _ _ _. cbv zeta. apply wp_bind, wp_now. intros e2 _ _.
  apply wp_bind, wp_db. intros e3 _ _ _. split; [|by split].
  apply wp_bind, wp_modify, wp_ret. split; [done|]. intros st [= <-]. split; [done|].
  exists r', ("rule_" +:+ uuid_string (fresh e)), (clock e2). by split_and!.
Qed.

(** An approval makes one rule, once: when Approve succeeds, the proposal was
    pending, exactly one rule row was added, built from the proposal's rule,
    validated and signed by the actor, and no row of that id is pending any
    more; then approving or rejecting it again fails and changes neither rules
    nor proposals' statuses. *)
Theorem Approve_once id actor s e st s1 e1 :
  Approve id actor s e = (Ok st, (s1, e1)) ->
  (exists row p r' rid t, row ∈ proposals s /\ pr_id row = id /\ pr_status row = ProposalPending /\ scanProposal row = Ok p /\
     actor <> "" /\ Validate (with_enabled true (PrRule p)) = Ok r' /\ SRule st = with_id rid r' /\
     rules s1 = rules s ++ [mkRuleRow rid (AccountID r') (rule_json (with_id rid r')) (boolInt (Enabled r')) "" None actor t]) /\
  (forall row, row ∈ proposals s1 -> pr_id row = id -> pr_status row <> ProposalPending) /\
  forall actor2 e2 r2 s2 e3, Approve id actor2 s1 e2 = (r2, (s2, e3)) -> is_ok r2 = false /\ s2 = s1.
Proof.
  intros Hrun.
  assert (Hw : wp (Approve id actor) (fun res s' _ => forall st, res = Ok st ->
     (exists row p r' rid t, row ∈ proposals s /\ pr_id row = id /\ pr_status row = ProposalPending /\ scanProposal row = Ok p /\
       actor <> "" /\ Validate (with_enabled true (PrRule p)) = Ok r' /\ SRule st = with_id rid r' /\
       rules s' = rules s ++ [mkRuleRow rid (AccountID r') (rule_json (with_id rid r')) (boolInt (Enabled r')) "" None actor t]) /\
     (forall row, row ∈ proposals s' -> pr_id row = id -> pr_status row <> ProposalPending)) s e).
  { unfold Approve, GetProposal. apply wp_bind, wp_bind, wp_db. intros e2 _ _ _. split; [|done].
    apply wp_bind, wp_gets. destruct (find _ _) as [row|] eqn:Hf; [|done].
    apply find_some in Hf as [Hin Hid]. rewrite <- list_elem_of_In in Hin. apply bool_decide_eq_true in Hid.
    apply wp_lift. destruct (scanProposal row) as [p|x] eqn:Hp; [|done].
    assert (Hst : PrStatus p = pr_status row).
    { unfold scanProposal in Hp. destruct (rule_of_json _); [|done]. by injection Hp as <-. }
    case_bool_decide as Hpend; cbn [negb]; [|done]. rewrite Hst in Hpend.
    apply wp_bind. eapply wp_mono; [apply CreateRule_wp|]. cbv beta. intros [st'|x] s2 e3 [_ Hc]; [|done].
    destruct (Hc st' eq_refl) as (Ha & r' & rid & t & Hv & Hs & ->).
    apply wp_bind, wp_now. intros e4 _ _. apply wp_bind, wp_db. intros e5 _ _ _. split; [|done].
    apply wp_bind, wp_gets, wp_bind, wp_modify. case_bool_decide as Hn.
    - apply wp_bind, wp_ignore. unfold wp. destruct (DeleteRule _ _ _) as [? [? ?]]. done.
    - apply wp_ret. intros st2 [= <-]. split.
      + exists row, p, r', rid, t. by split_and!.
      + intros row' Hr' Hid'. cbn in Hr'. apply elem_of_update_where in Hr' as (y & Hy & ->).
        destruct (pending_row id y) eqn:Hpy; [done|]. intros Hps. unfold pending_row in Hpy.
        by rewrite !bool_decide_true in Hpy. }
  unfold wp in Hw. rewrite Hrun in Hw. destruct (Hw st eq_refl) as [Hadd Hnp]. split; [done|]. split; [done|].
  intros actor2 e2 r2 s2 e3 Hrun2.
  assert (Hw2 : wp (Approve id actor2) (fun res s' _ => is_ok res = false /\ s' = s1) s1 e2).
  { unfold Approve, GetProposal. apply wp_bind, wp_bind, wp_db. intros e4 _ _ _. split; [|done].
    apply wp_bind, wp_gets. destruct (find _ _) as [row|] eqn:Hf; [|done].
    apply find_some in Hf as [Hin Hid]. rewrite <- list_elem_of_In in Hin. apply bool_decide_eq_true in Hid.
    apply wp_lift. destruct (scanProposal row) as [p|x] eqn:Hp; [|done].
    assert (Hst : PrStatus p = pr_status row).
    { unfold scanProposal in Hp. destruct (rule_of_json _); [|done]. by injection Hp as <-. }
    case_bool_decide as Hpend; cbn [negb]; [|done]. exfalso. by apply (Hnp row Hin Hid); rewrite <- Hst. }
  unfold wp in Hw2. by rewrite Hrun2 in Hw2.
Qed.

End props.

(** ** Closed instances *)

#[local] Existing Instance plain_mail_env.
#[local] Existing Instance plain_platform.
#[local] Existing Instance demo_codec.
#[local] Existing Instance demo_plugins.

(** The demo draft goes out by the rule, on the second try. *)
Example demo_send :
  answer (Send "draft_1" nobody) demo_service = Ok (mkSendReport "msg_1" "thr_1" false "rule_a") /\
  List.length (calls (after (Send "draft_1" nobody) demo_service)) = 2%nat.
Proof. vm_compute. by split. Qed.

Definition demo_sent : Service := after (run_write (WSend "draft_1") nobody) demo_service.

Lemma writes_mediated_witness :
  calls demo_sent <> [] /\
  Forall (fun c => is_write c = true -> exists req dec,
    authorized demo_service (calm 1000) (after_env (run_write (WSend "draft_1") nobody) demo_service) req nobody dec /\
    describes req c) (calls demo_sent).
Proof.
  split; [vm_compute; discriminate|].
  destruct (writes_mediated (inl (AWrite (WSend "draft_1") nobody)) _ _ _ _ _
              (run_parts (run_write (WSend "draft_1") nobody) demo_service)) as (l & Hc & Hl).
  cbn [app] in Hc. fold demo_sent in Hc. rewrite Hc. apply Forall_forall. intros c Hin Hw. exact (proj2 (Hl c Hin Hw)).
Defined.

Lemma deletes_need_a_person_witness : WApproved somebody = true.
Proof.
  apply (deletes_need_a_person _ _ _ _ _ _ _ (CallMailDelete "acct_1" ["m1"])
           (run_parts (run_write (WMailDelete "acct_1" ["m1"]) somebody) demo_service)); [|exact I].
  vm_compute. constructor.
Defined.

Definition demo_off : Service := set_settings None demo_service.
Lemma demo_off_steps may :
  rtc (any_step may) demo_off (after (run_agent (AMark "acct_1" ["m"] false)) (after (run_agent (AWrite (WSend "draft_1") somebody)) demo_off)).
Proof.
  eapply rtc_l; [left; by exists (AWrite (WSend "draft_1") somebody), (calm 1000)|].
  eapply rtc_l; [left; by exists (AMark "acct_1" ["m"] false), (calm 1000)|]. apply rtc_refl.
Qed.
Lemma off_means_off_witness :
  ~ switch_on (after (run_agent (AMark "acct_1" ["m"] false)) (after (run_agent (AWrite (WSend "draft_1") somebody)) demo_off)).
Proof.
  apply (off_means_off demo_off); [apply demo_off_steps|]. intros (v & Hv & _). discriminate Hv.
Defined.

Lemma sent_once_witness :
  exists l, calls (after (run_agent (AWrite (WSend "draft_1") somebody)) demo_sent) = calls demo_sent ++ l /\
    Forall (fun c => ~ uses_key (send_key (mkDraft "draft_1" "acct_1" "agent" "" demo_stored "" None 5)) c) l.
Proof.
  apply sent_once.
  - eapply rtc_l; [left; by exists (AWrite (WSend "draft_1") somebody), (calm 1000)|]. apply rtc_refl.
  - eexists. vm_compute. by split.
Defined.

Lemma key_preimage_inj_witness : ["ab"; "c"] = ["ab"; "c"].
Proof. apply key_preimage_inj. vm_compute. reflexivity. Defined.

Lemma drafts_immutable_witness :
  demo_row ∈ drafts (after (run_owner (ODeleteAccount "acct_2")) demo_sent).
Proof.
  apply (drafts_immutable demo_row demo_service).
  - eapply rtc_l; [left; by exists (AWrite (WSend "draft_1") nobody), (calm 1000)|].
    eapply rtc_l; [right; exists (ODeleteAccount "acct_2"), (calm 1000); split; [discriminate|reflexivity]|]. apply rtc_refl.
  - constructor.
Defined.

Lemma ValidatePayload_guarantees_witness : PTo demo_stored <> [] /\ hasControl (PSubject demo_stored) = false.
Proof.
  destruct (ValidatePayload_guarantees demo_payload 0 demo_stored) as (H1 & _ & _ & _ & _ & _ & _ & _ & H2 & _);
    [vm_compute; reflexivity|]. by split.
Defined.

Lemma agents_never_enable_rules_witness :
  demo_rule_row ∈ rules demo_service.
Proof.
  apply (agents_never_enable_rules demo_service (after (run_agent (APropose "agent" (demo_rule "x") "why")) demo_service)).
  - eapply rtc_l; [by exists (APropose "agent" (demo_rule "x") "why"), (calm 1000)|]. apply rtc_refl.
  - vm_compute. constructor.
  - reflexivity.
Defined.

Lemma Approve_once_witness :
  is_ok (answer (Approve "prop_1" "bob") (after (Approve "prop_1" "ann") demo_service)) = false /\
  after (Approve "prop_1" "bob") (after (Approve "prop_1" "ann") demo_service) = after (Approve "prop_1" "ann") demo_service.
Proof.
  destruct (answer (Approve "prop_1" "ann") demo_service) as [st|x] eqn:Ha; [|vm_compute in Ha; discriminate Ha].
  pose proof (run_parts (Approve "prop_1" "ann") demo_service) as Hrun. rewrite Ha in Hrun.
  destruct (Approve_once _ _ _ _ _ _ _ Hrun) as (_ & _ & H). eapply H, run_parts.
Defined.

(** When the statement that marks the proposal fails, the rule it made stays,
    enabled, and the proposal is still pending. *)
Example approve_half_done :
  let s := fst (snd (Approve "prop_1" "ann" demo_service (mkEnv [false; false; true] 1000 [] 0))) in
  (rr_enabled <$> rules s, pr_status <$> proposals s) = ([1; 1], [ProposalPending]).
Proof. vm_compute. reflexivity. Qed.
