(* ===== verification/MailFlow.v ===== *)
(** * Mail and calendar: what single operations do

    A send carries out the stored draft and records it; the inbox monitor
    pauses an account that bounces; a stored account holds no credential; a
    verified reply context comes from the provider's own thread. *)

From S2P Require Import Prelude GoStrings Regex Address PolicyRule PolicyEval Io Tables MailTypes MailStore MailAccounts MailService MailRead MailSpec MailProps.

#[local] Open Scope Z_scope.

Section flow.
Context `{ME : MailEnv} `{P : Platform} `{MC : MailCodec} `{PL : Plugins}.

#[local] Hint Resolve Enabled_quiet GetDraft_quiet ListRules_quiet CountAutoExecutions_quiet GetAccount_quiet ListAccounts_quiet
  Begin_quiet sleep_quiet mark_auth_expired_quiet Record_quiet ask_quiet usage_table_quiet
  Decide_quiet authorize_quiet resolve_quiet require_quiet : quiet.

(** ** What an account resolves to *)

Lemma GetAccount_wp id s e :
  wp (GetAccount id) (fun r s' _ => s' = s /\ forall a, r = Ok a ->
    exists row, row ∈ accounts s /\ ac_id row = id /\ scanAccount row = Ok a) s e.
Proof.
  unfold GetAccount. apply wp_bind, wp_db. intros e' _ _ _. split; [|done].
  apply wp_bind, wp_gets. destruct (find _ _) as [row|] eqn:Hf; [|done].
  apply find_some in Hf as [Hin Hid]. rewrite <- list_elem_of_In in Hin. apply bool_decide_eq_true in Hid.
  apply wp_lift. split; [done|]. intros a Ha. by exists row.
Qed.

Lemma scanAccount_id row a : scanAccount row = Ok a -> AcID a = ac_id row /\ AcStatus a = ac_status row.
Proof. unfold scanAccount. destruct (config_of_json _); [|done]. destruct (auth_of_json _); [|done]. by intros [= <-]. Qed.

(** A named account is the one used; its status was "ok" when it was read. *)
Definition binds (account : string) (b : binding) : Prop :=
  (trim_space account <> "" -> AcID (b_account b) = account) /\ AcStatus (b_account b) = StatusOK.

Lemma resolve_wp account need s e :
  wp (resolve account need) (fun r s' _ => s' = s /\ forall b, r = Ok b -> binds account b) s e.
Proof.
  unfold resolve. apply wp_bind.
  apply (wp_mono _ (fun r s' _ => s' = s /\ forall a, r = Ok a -> trim_space account <> "" -> AcID a = account)).
  - case_bool_decide as Hb.
    + apply wp_bind. eapply wp_keeps; [apply ListAccounts_reads|]. intros [all|x] s1 e1 <-; [|done].
      by destruct (filter _ all) as [|a [|a' l]].
    + apply wp_bind. eapply wp_mono; [apply GetAccount_wp|]. cbv beta. intros [a|x] s1 e1 [-> Ha]; [|done].
      destruct (Ha a eq_refl) as (row & _ & Hid & Hs). apply scanAccount_id in Hs as [Hs _].
      destruct (_ || _); [done|]. apply wp_ret. split; [done|]. intros a' [= <-] _. congruence.
  - intros [a|x] s1 e1 [-> Ha]; [|done]. specialize (Ha a eq_refl).
    case_bool_decide as Hst; cbn [negb]; [|done]. apply wp_bind, wp_gets. destruct (providers s !! PluginID a); [|done].
    apply wp_ret. split; [done|]. by intros b [= <-].
Qed.

Lemma GetDraft_wp id s e :
  wp (GetDraft id) (fun r s' _ => s' = s /\ forall d, r = Ok d ->
    exists row, row ∈ drafts s /\ dr_id row = id /\ scanDraft row = Ok d) s e.
Proof.
  unfold GetDraft. apply wp_bind, wp_db. intros e' _ _ _. split; [|done].
  apply wp_bind, wp_gets. destruct (find _ _) as [row|] eqn:Hf; [|done].
  apply find_some in Hf as [Hin Hid]. rewrite <- list_elem_of_In in Hin. apply bool_decide_eq_true in Hid.
  apply wp_lift. split; [done|]. intros d Hd. by exists row.
Qed.

Lemma scanDraft_Ok row d :
  scanDraft row = Ok d ->
  payload_of_json (dr_payload row) = Some (Payload d) /\ Hash (Payload d) = dr_hash row /\
  DrID d = dr_id row /\ DrAccountID d = dr_account row /\ PayloadHash d = dr_hash row.
Proof.
  unfold scanDraft. destruct (payload_of_json _) as [p|]; [|done]. intros (rc & _ & H)%result_bind_Ok.
  revert H. case_bool_decide as Hh; [|done]. by intros [= <-].
Qed.

(** ** The ledger entry of a send *)

Lemma find_entry_completed k m t z l x :
  find_entry k l = Some x ->
  find_entry k (update_where (fun e => bool_decide (Key e = k)) (complete_entry m t z) l) = Some (complete_entry m t z x).
Proof.
  unfold find_entry, update_where. induction l as [|y l IH]; cbn; [done|].
  destruct (bool_decide (Key y = k)) eqn:Hk; cbn.
  - intros [= ->]. by rewrite Hk.
  - rewrite Hk. apply IH.
Qed.

Lemma find_entry_snoc k l x : find_entry k l = None -> Key x = k -> find_entry k (l ++ [x]) = Some x.
Proof.
  unfold find_entry. induction l as [|y l IH]; cbn; intros Hf Hx; [by rewrite bool_decide_true|].
  destruct (bool_decide (Key y = k)); [done|]. by apply IH.
Qed.

Lemma Begin_reserves en s e :
  wp (Begin en) (fun r s' _ => forall x ex, r = Ok (x, ex) ->
    find_entry (Key en) (ledger s') = Some x /\ calls s' = calls s /\
    (ex = true -> s' = s) /\ (ex = false -> find_entry (Key en) (ledger s) = None)) s e.
Proof.
  eapply wp_mono; [apply Begin_wp|]. cbv beta. intros r s' e' H x ex ->. destruct ex.
  - by destruct H as [-> Hf].
  - destruct H as (Hf & -> & Hk & _). split; [by apply find_entry_snoc|]. by split_and!.
Qed.

Lemma Complete_sends k m t s e :
  find_entry k (ledger s) <> None ->
  wp (Complete k m t) (fun r s' _ => calls s' = calls s /\ (r = Ok tt -> sent k s')) s e.
Proof.
  intros Hf. unfold Complete. apply wp_bind, wp_now. intros e1 _ _. apply wp_bind, wp_db. intros e2 _ _ _.
  split; [|done]. apply wp_modify. split; [done|]. intros _. destruct (find_entry k (ledger s)) as [x|] eqn:Hx; [|done].
  eexists. split; [by apply find_entry_completed|done].
Qed.
Lemma Complete_ok k m t s e : faults e = [] -> wp (Complete k m t) (fun r _ _ => r = Ok tt) s e.
Proof.
  intros He. unfold Complete. apply wp_bind, wp_now_onward. intros e1 [_ H1]. apply wp_bind, wp_db_onward; [done|].
  intros e2 Hf. by destruct Hf; apply H1.
Qed.

(** ** Sending *)

(** C8. What a successful send does: it found the draft's stored row, whose
    payload still has the recorded hash; either the ledger already recorded the
    draft's key as sent and nothing was called, or the draft's payload, and
    nothing else, went to the draft's account under the draft's key, in one to
    three identical requests, and, if no statement failed, the key is now
    recorded as sent. *)
Theorem Send_exact id opt s e rep s' e' :
  Send id opt s e = (Ok rep, (s', e')) ->
  exists row d, row ∈ drafts s /\ dr_id row = id /\ scanDraft row = Ok d /\ Hash (Payload d) = dr_hash row /\
    ((SrReplayed rep = true /\ sent (send_key d) s /\ calls s' = calls s) \/
     (~ sent (send_key d) s /\ (faults e = [] -> sent (send_key d) s') /\
      exists acct n, (1 <= n <= 3)%nat /\ (trim_space (DrAccountID d) <> "" -> acct = DrAccountID d) /\
        calls s' = calls s ++ replicate n (CallMailSend acct (send_params d)))).
Proof.
  of_run_ok. unfold Send. apply wp_bind. eapply wp_and_quiet; [apply GetDraft_quiet|apply GetDraft_wp|]. cbv beta.
  intros [d|x] s1 e1 [-> Hd] He1; [|done]. destruct (Hd d eq_refl) as (row & Hrow & Hid & Hscan).
  pose proof (scanDraft_Ok _ _ Hscan) as (_ & Hhash & _).
  apply wp_bind. eapply wp_and_quiet; [apply Decide_quiet|apply Decide_Service_wp|]. cbv beta.
  intros _ s2 e2 (-> & dec & -> & _) He2.
  apply wp_bind. eapply wp_and_quiet; [apply authorize_quiet|apply authorize_reads|]. cbv beta.
  intros [[]|x] s3 e3 <- He3; [|done].
  apply wp_bind. eapply wp_and_quiet; [apply resolve_quiet|apply resolve_wp|]. cbv beta.
  intros [b|x] s4 e4 [-> Hb] He4; [|done]. destruct (Hb b eq_refl) as [Hacct _].
  apply wp_bind. eapply wp_and_quiet; [apply require_quiet|apply require_reads|]. cbv beta.
  intros [[]|x] s5 e5 <- He5; [|done]. cbv zeta.
  apply wp_bind. eapply wp_and_quiet; [apply Begin_quiet|apply Begin_reserves|]. cbv beta.
  intros [[en ex]|x] s6 e6 Hen He6; [|done]. destruct (Hen en ex eq_refl) as (Hf & Hc & Hold & Hnew). cbn [Key] in *.
  destruct (ex && bool_decide (State en = LedgerSent)) eqn:Hre.
  - apply andb_true_iff in Hre as [-> Hs]. apply bool_decide_eq_true in Hs. specialize (Hold eq_refl). subst s6.
    apply wp_ret. intros rep [= <-]. exists row, d. split_and!; try done. left. split; [done|]. split; [by exists en|done].
  - assert (Hns : ~ sent (send_key d) s).
    { intros (y & Hy & Hys). destruct ex; [|rewrite Hnew in Hy by done; done]. rewrite (Hold eq_refl), Hy in Hf.
      injection Hf as ->. rewrite bool_decide_true in Hre by done. done. }
    apply wp_bind. eapply wp_and_quiet; [apply write_retry_quiet, ask_quiet|apply write_retry_wp|]. cbv beta.
    intros [res|x] s7 e7 (n & Hn & Hfr) He7; [|done]. apply framed_fields in Hfr as (_ & _ & _ & _ & Hl7 & Hc7).
    assert (Hsome : find_entry (send_key d) (ledger s7) <> None) by (rewrite Hl7, Hf; done).
    apply wp_bind, wp_attempt. pose proof (Complete_ok (send_key d) (ProviderMessageID res) (ResThreadID res) s7 e7) as Hok.
    pose proof (Complete_sends (send_key d) (ProviderMessageID res) (ResThreadID res) s7 e7 Hsome) as Hse.
    unfold wp at 1. unfold wp in Hok, Hse. destruct (Complete _ _ _ s7 e7) as [dn [s8 e8]]. destruct Hse as [Hc8 Hsent].
    apply wp_bind, wp_ignore. eapply wp_keeps; [apply Record_frame|]. intros _ s9 e9 Hfr9.
    apply wp_ret. intros rep [= <-]. exists row, d. split_and!; try done. right. split; [done|]. split.
    + intros He. unfold sent. rewrite (fr_ledger _ _ Hfr9). apply Hsent, Hok. unfold onward in *. tauto.
    + exists (AcID (b_account b)), n. split; [exact Hn|]. split; [exact Hacct|].
      by rewrite (fr_calls _ _ Hfr9), Hc8, Hc7, Hc.
Qed.

(** ** Accounts *)

Lemma check_account_ok a label email auth cfg :
  check_account a = Ok (label, email, auth, cfg) ->
  label <> "" /\ NaKind a ∈ [KindMail; KindCalendar; KindBoth] /\ AuthType auth ∈ ["none"; "oauth"; "password"] /\
  rejectSecrets (NaConfig a) = Ok tt /\ encode_config (NaConfig a) = Ok cfg.
Proof.
  unfold check_account. cbv zeta. case_bool_decide as H1; [done|]. case_bool_decide; [done|].
  case_bool_decide as H2; cbn [negb]; [|done]. intros (em & _ & Hrest)%result_bind_Ok. cbv zeta in Hrest. revert Hrest.
  set (au := if bool_decide (AuthType (NaAuth a) = "") then _ else _).
  destruct (bool_decide (AuthType au ∈ _)) eqn:H3; cbn [negb]; [|done]. apply bool_decide_eq_true in H3.
  intros ([] & Hr & (c & Hc & [= <- <- <- <-])%result_bind_Ok)%result_bind_Ok. by split_and!.
Qed.

Lemma encode_config_ok config cfg :
  encode_config config = Ok cfg -> config_json config = Some cfg /\ len cfg <= 16384.
Proof.
  unfold encode_config. destruct (config_json config) as [c|]; [|done]. change maxConfigBytes with 16384.
  destruct (16384 <? len c) eqn:Hl; [done|]. intros [= <-]. split; [done|lia].
Qed.

Definition clean_config (config : list (string * cval)) : Prop :=
  forall k, has_key k (CMap config) -> match_string secretKeyRE k = false.


(** No credential is stored with an account: creating or updating an account
    writes the text of a configuration without a key, at any depth, that looks
    like a credential, and of at most 16 KiB; a refused request writes nothing. *)
Theorem configs_hold_no_secret o s e r s' e' row :
  match o with OCreateAccount _ | OUpdateAccount _ _ _ _ => True | _ => False end ->
  run_owner o s e = (r, (s', e')) -> row ∈ accounts s' -> ~ row ∈ accounts s ->
  is_ok r = true /\ exists config, config_json config = Some (ac_config row) /\ clean_config config /\ len (ac_config row) <= 16384.
Proof.
  intros Ho. of_run. destruct o; try done; cbn [run_owner]; unfold done_.
  - apply wp_bind. unfold CreateAccount. apply lift_wp; [done|]. intros [[[label em] auth] cfg] Hc.
    apply check_account_ok in Hc as (_ & _ & _ & Hr & Hcfg). apply encode_config_ok in Hcfg as [Hj Hlen].
    apply wp_bind, wp_now. intros e1 _ _. apply wp_bind, wp_draw. intros e2 _ _ _. cbv zeta.
    apply wp_bind, wp_db. intros e3 _ _ _. split; [|done]. apply wp_bind, wp_modify, wp_ret, wp_ret. cbn [set_accounts accounts].
    rewrite elem_of_app, list_elem_of_singleton. intros [Hin| ->] Hnew; [done|]. split; [done|].
    exists (NaConfig a). split; [done|]. split; [|done]. intros k. by apply rejectSecrets_ok.
  - apply wp_bind. unfold UpdateAccount. apply wp_bind. eapply wp_mono; [apply GetAccount_wp|]. cbv beta.
    intros [cur|x] s1 e1 [-> _]; [|done]. case_bool_decide; [done|].
    apply lift_wp; [done|]. intros em _. apply lift_wp; [done|]. intros [] Hr.
    apply lift_wp; [done|]. intros cfg Hcfg. apply encode_config_ok in Hcfg as [Hj Hlen].
    apply wp_bind, wp_now. intros e2 _ _. apply wp_bind, wp_db. intros e3 _ _ _. split; [|done].
    apply wp_bind, wp_modify, wp_ret, wp_ret. cbn [set_accounts accounts].
    intros (y & Hy & ->)%elem_of_update_where. destruct (bool_decide _); [|done]. intros _. split; [done|].
    exists c. split; [done|]. split; [|done]. intros k. by apply rejectSecrets_ok.
Qed.

(** ** The bounce monitor *)

Definition bounce_of (account id : string) (d : DecisionRecord) : bool :=
  bool_decide (Phase d = PhaseBounce) && bool_decide (DAccountID d = account)
  && bool_decide (DDraftID d = id) && bool_decide (DTool d = "inbox").

(** Recorded at [t0] or later, or not at all. *)
Definition recorded (account : string) (t0 : Z) (id : string) (s : Service) : Prop :=
  exists d, d ∈ decisions s /\ bounce_of account id d = true /\ t0 <= At d.
Definition unseen (account id : string) (s : Service) : Prop :=
  forall d, d ∈ decisions s -> bounce_of account id d = false.

Lemma Record_wp d s e :
  wp (Record_ d) (fun r s' e' => rules s' = rules s /\ (faults e = [] -> r = Ok tt) /\
    ((r <> Ok tt /\ s' = s) \/ exists d', decisions s' = decisions s ++ [d'] /\ (At d = 0 -> clock e <= At d') /\
      forall a i, bounce_of a i d' = bounce_of a i d)) s e.
Proof.
  unfold Record_. apply wp_bind.
  apply (wp_mono _ (fun r s' e' => s' = s /\ onward e e' /\ is_ok r = true)).
  { case_bool_decide; [apply wp_bind, wp_draw_onward; intros e1 H1; by apply wp_ret|apply wp_ret]. by split_and!. }
  intros [id|x] s1 e1 (-> & H1 & Hok); [|done]. apply wp_bind.
  apply (wp_mono _ (fun r s' e' => s' = s /\ onward e1 e' /\ exists z, r = Ok z /\ (At d = 0 -> clock e1 <= z))).
  { case_bool_decide as Ha; [apply wp_now_onward; intros e2 H2|apply wp_ret].
    - split_and!; [done|done|]. eexists. split; [done|]. intros _. by destruct H2 as [[] _].
    - split_and!; [done|done|]. by eexists. }
  intros [z|x] s2 e2 (-> & H2 & z' & [= <-] & Hz). apply wp_bind, wp_db_onward.
  - intros e3 H3 _. apply wp_modify. split; [done|]. split; [done|]. right. eexists. split; [done|]. split; [|done].
    intros Hat. cbn [At]. specialize (Hz Hat). destruct H1 as [[] _]. lia.
  - intros e3 Hf H3. split; [done|]. split; [|by left]. intros He. destruct Hf. by apply H2, H1.
Qed.

Section loop.
Variables (account : string) (t0 : Z).

(** What one message adds, when no statement fails. *)
Definition observed (s s' : Service) : Prop :=
  rules s' = rules s /\ forall i, (recorded account t0 i s -> recorded account t0 i s') /\
    (unseen account i s -> recorded account t0 i s' \/ unseen account i s').

Lemma observed_refl s : observed s s.
Proof. split; [done|]. intros i. auto. Qed.
Lemma observed_trans s1 s2 s3 : observed s1 s2 -> observed s2 s3 -> observed s1 s3.
Proof.
  intros [R1 O1] [R2 O2]. split; [congruence|]. intros i. destruct (O1 i) as [A1 B1], (O2 i) as [A2 B2].
  split; [auto|]. intros Hu. destruct (B1 Hu); auto.
Qed.

Lemma record_bounce_quiet m : quiet (record_bounce account m).
Proof. unfold record_bounce, HasBounce. quiet_go. Qed.

Lemma record_bounce_wp m s e :
  faults e = [] -> t0 <= clock e ->
  wp (record_bounce account m) (fun r s' e' => r = Ok tt /\ observed s s' /\
    (LooksLikeBounce m = true -> unseen account (MsgID m) s -> recorded account t0 (MsgID m) s')) s e.
Proof.
  intros He Ht. unfold record_bounce. destruct (LooksLikeBounce m); cbn [negb]; [|by apply wp_ret; split_and!; [|apply observed_refl|]].
  apply wp_bind, wp_attempt. unfold HasBounce. apply wp_bind, wp_db_onward; [|done]. intros e1 H1 Hc. apply wp_gets.
  set (has := negb _). assert (Hhas : has = true -> ~ unseen account (MsgID m) s).
  { intros Hh Hu. apply negb_true_iff, bool_decide_eq_false in Hh. apply affected_pos in Hh as (d & Hd & Hp).
    specialize (Hu d Hd). unfold bounce_of in Hu. cbv beta in Hp. congruence. }
  destruct has; [apply wp_ret; split_and!; [done|apply observed_refl|intros _ Hu; by destruct Hhas]|].
  apply wp_ignore. eapply wp_mono; [apply Record_wp|]. cbv beta. intros r s' e' (Hr & Hok & Hd).
  destruct Hd as [[Hno _]|(d' & Hd & Hat & Hb)]; [by destruct Hno; apply Hok, H1|].
  cbn [At] in Hat. specialize (Hat eq_refl). set (d0 := mkDecisionRecord _ _ _ _ _ _ _ _ _ _ _ _ _) in Hb.
  assert (Hrec : forall i, bounce_of account i d0 = true -> recorded account t0 i s').
  { intros i Hi. exists d'. rewrite Hd, Hb. split; [apply elem_of_app; right; by apply list_elem_of_singleton|]. split; [done|lia]. }
  split; [done|]. split; [split; [done|]|].
  - intros i. split.
    + intros (x & Hx & Hbx & Hax). exists x. rewrite Hd. split; [apply elem_of_app; by left|done].
    + intros Hu. destruct (bounce_of account i d0) eqn:Hi; [left; by apply Hrec|right].
      intros x. rewrite Hd, elem_of_app, list_elem_of_singleton. intros [Hx| ->]; [by apply Hu|by rewrite Hb].
  - intros _ _. apply Hrec. unfold bounce_of, d0. cbn. by rewrite !bool_decide_true.
Qed.

Lemma bounces_recorded l s e :
  faults e = [] -> t0 <= clock e ->
  wp (for_each (record_bounce account) l) (fun r s' e' => r = Ok tt /\ observed s s' /\
    forall m, m ∈ l -> LooksLikeBounce m = true -> unseen account (MsgID m) s -> recorded account t0 (MsgID m) s') s e.
Proof.
  revert s e. induction l as [|m l IH]; intros s e He Ht; cbn [for_each].
  - apply wp_ret. split_and!; [done|apply observed_refl|set_solver].
  - apply wp_bind. eapply wp_and_quiet; [apply record_bounce_quiet|by apply record_bounce_wp|]. cbv beta.
    intros r s1 e1 (-> & Ho1 & Hm1) H1.
    eapply wp_mono; [apply IH; [by apply H1|destruct H1 as [[] _]; lia]|]. cbv beta.
    intros r s2 e2 (-> & Ho2 & Hm2). split; [done|]. split; [by eapply observed_trans|].
    intros m' [->|Hin]%elem_of_cons Hl Hu; [apply Ho2; by apply Hm1|].
    destruct (proj2 (proj2 Ho1 (MsgID m')) Hu) as [Hrec|Hu']; [by apply Ho2|by apply Hm2].
Qed.
End loop.

Lemma recorded_count account t0 ids s :
  NoDup ids -> (forall i, i ∈ ids -> recorded account t0 i s) ->
  Z.of_nat (List.length ids) <= Z.of_nat (affected (fun d => bool_decide (DAccountID d = account)
    && bool_decide (Phase d = PhaseBounce) && bool_decide (DTool d = "inbox") && (t0 <=? At d)) (decisions s)).
Proof.
  intros Hnd Hrec. apply inj_le. unfold affected. set (l := filter _ _).
  transitivity (List.length (DDraftID <$> l)); [|by rewrite length_fmap].
  apply submseteq_length, NoDup_submseteq; [done|]. intros i Hi. destruct (Hrec i Hi) as (d & Hd & Hb & Ht).
  apply list_elem_of_fmap. exists d. unfold bounce_of in Hb. rewrite !andb_true_iff, !bool_decide_eq_true in Hb.
  split; [by destruct Hb as [[_ ->] _]|]. apply list_elem_of_filter. split; [|done].
  rewrite !andb_true_iff, !bool_decide_eq_true, Z.leb_le. tauto.
Qed.

Lemma paused_rows account why t l :
  let l' := update_where (fun r => bool_decide (rr_account r = account) && bool_decide (rr_enabled r = 1)) (set_rule_enabled false why t) l in
  (forall x, x ∈ l' -> rr_account x = account -> rr_enabled x <> 1) /\ (forall x, rr_account x <> account -> x ∈ l <-> x ∈ l').
Proof.
  cbv zeta. split.
  - intros x (y & Hy & ->)%elem_of_update_where. destruct (_ && _) eqn:Hp; [done|].
    intros Ha He. by rewrite !bool_decide_true in Hp.
  - intros x Ha. rewrite elem_of_update_where. split.
    + intros Hx. exists x. split; [done|]. by rewrite bool_decide_false.
    + intros (y & Hy & ->). destruct (_ && _) eqn:Hp; [|done]. apply andb_true_iff in Hp as [Hp _].
      by apply bool_decide_eq_true in Hp.
Qed.

(** The brake: when a reading of the inbox shows three or more new returned
    messages, each counted once, and no statement fails within the hour, every
    rule of the account is off afterwards, and the rules of other accounts are
    as they were. *)
Theorem bounces_pause_the_account account msgs ids s e r s' e' :
  observeInbox account msgs s e = (r, (s', e')) -> faults e = [] -> clock e' <= clock e + hour ->
  NoDup ids -> 3 <= Z.of_nat (List.length ids) ->
  (forall i, i ∈ ids -> unseen account i s /\ exists m, m ∈ msgs /\ MsgID m = i /\ LooksLikeBounce m = true) ->
  (forall x, x ∈ rules s' -> rr_account x = account -> rr_enabled x <> 1) /\
  (forall x, rr_account x <> account -> x ∈ rules s <-> x ∈ rules s').
Proof.
  intros Hrun He Hclock Hnd Hlen Hids. revert Hclock. revert Hrun. of_run. unfold observeInbox.
  apply wp_bind. eapply wp_and_quiet; [apply quiet_for_each, record_bounce_quiet|by apply (bounces_recorded account (clock e))|]. cbv beta.
  intros r s1 e1 (-> & [Hru _] & Hrec) H1.
  apply wp_bind, wp_attempt. unfold CountSince. apply wp_bind, wp_now_onward. intros e2 H2.
  apply wp_bind, wp_db_onward; [|intros e3 Hf; destruct Hf; by apply H2, H1]. intros e3 H3 _. apply wp_gets.
  destruct (_ <? bounceLimit) eqn:Hn.
  - apply wp_ret. intros Hclock. exfalso. apply Z.ltb_lt in Hn. change bounceLimit with 3 in Hn.
    assert (Hcnt : Z.of_nat (List.length ids) <= 2); [|lia]. etrans; [|apply Zlt_succ_le; exact Hn].
    apply recorded_count; [done|]. intros i Hi. destruct (Hids i Hi) as [Hu (m & Hm & <- & Hb)].
    destruct (Hrec m Hm Hb Hu) as (d & Hd & Hbo & Hat). exists d. split; [done|]. split; [done|].
    unfold time_add. change bounceWindow with hour. destruct H3 as [[] _]. lia.
  - apply wp_bind, wp_attempt. unfold PauseAccount. apply wp_bind, wp_now_onward. intros e4 H4.
    apply wp_bind, wp_db_onward; [|intros e5 Hf; destruct Hf; by apply H4, H3, H2, H1]. intros e5 H5 _.
    apply wp_bind, wp_gets, wp_bind, wp_modify, wp_ret.
    assert (Hdone : forall s3, rules s3 = update_where (fun r => bool_decide (rr_account r = account) && bool_decide (rr_enabled r = 1))
        (set_rule_enabled false "automatic pause: several returned messages in one hour" (Some (clock e4))) (rules s1) ->
      (forall x, x ∈ rules s3 -> rr_account x = account -> rr_enabled x <> 1) /\
      (forall x, rr_account x <> account -> x ∈ rules s <-> x ∈ rules s3)).
    { intros s3 ->. rewrite Hru. apply paused_rows. }
    destruct (0 <? _).
    + apply wp_ignore. eapply wp_mono; [apply Record_wp|]. cbv beta. intros r s6 e6 (Hr6 & _) _. apply Hdone. by rewrite Hr6.
    + apply wp_ret. intros _. by apply Hdone.
Qed.

(** ** Replies *)

(** What a read returns is an answer of the plugin. *)
Lemma readCall_answer {A} b c (f : list call -> result call_error A) s e :
  wp (readCall b (ask c f)) (fun r _ _ => forall a, r = Ok a -> exists h, f h = Ok a) s e.
Proof.
  unfold readCall. generalize readBackoff. intros l. revert s e.
  induction l as [|d l IH]; intros s e; cbn [read_retry]; unfold ask; apply wp_bind, wp_bind, wp_gets, wp_bind, wp_modify, wp_ret.
  - destruct (f (calls s)) as [a|err] eqn:Hf; [apply wp_ret; intros a' [= <-]; by exists (calls s)|].
    destruct (AsError err) as [x|]; [|done]. case_bool_decide; [|case_bool_decide; [|case_bool_decide]; done].
    apply wp_bind. eapply wp_keeps; [apply mark_auth_expired_frame|]. by intros [[]|y] s' e' _.
  - destruct (f (calls s)) as [a|err] eqn:Hf; [apply wp_ret; intros a' [= <-]; by exists (calls s)|].
    destruct (AsError err) as [x|]; [|done]. case_bool_decide.
    + apply wp_bind. eapply wp_keeps; [apply mark_auth_expired_frame|]. by intros [[]|y] s' e' _.
    + destruct (_ || _); [|done]. destruct (_ && _); [destruct (_ <? _); [done|]|];
        (apply wp_bind; eapply wp_keeps; [apply sleep_frame|]; intros [[]|y] s' e' _; [apply IH|done]).
Qed.

(** The provider, asked about [messageID] of the account, answered with the
    message and the thread the context is made of. *)
Definition from_provider (b : binding) (messageID : string) (rc : ReplyContext) : Prop :=
  exists h1 h2 msg thr, ask_message h1 (AcID (b_account b)) messageID = Ok msg /\
    ask_thread h2 (AcID (b_account b)) (MsgThreadID msg) = Ok thr /\
    rc = mkReplyContext (MsgID msg) (MsgThreadID msg) true (thread_participants thr) (last_sender (AcEmail (b_account b)) thr).

Lemma replyContext_wp b id s e :
  wp (replyContext b id) (fun r _ _ => forall rc, r = Ok rc -> from_provider b id rc) s e.
Proof.
  unfold replyContext. apply wp_map_err, wp_bind. eapply wp_keeps; [apply require_reads|]. intros [[]|x] s1 e1 _; [|done].
  apply wp_bind. eapply wp_keeps; [apply require_reads|]. intros [[]|x] s2 e2 _; [|done].
  apply wp_bind. eapply wp_mono; [apply readCall_answer|]. cbv beta. intros [msg|x] s3 e3 Hm; [|done].
  apply wp_bind. eapply wp_mono; [apply readCall_answer|]. cbv beta. intros [thr|x] s4 e4 Ht; [|done].
  apply wp_ret. intros rc [= <-]. destruct (Hm msg eq_refl) as [h1 H1], (Ht thr eq_refl) as [h2 H2].
  by exists h1, h2, msg, thr.
Qed.

Lemma CreateDraftRow_wp n s e :
  wp (CreateDraftRow n) (fun r s' _ => forall d, r = Ok d ->
    ValidatePayload (NPayload n) (NMaxRcpt n) = Ok (Payload d) /\ DrReply d = NReply n /\ DrAccountID d = NAccountID n /\
    PayloadHash d = Hash (Payload d) /\
    exists row, drafts s' = drafts s ++ [row] /\ dr_id row = DrID d /\ dr_account row = NAccountID n /\
      dr_payload row = payload_json (Payload d) /\ dr_hash row = PayloadHash d) s e.
Proof.
  unfold CreateDraftRow. destruct (_ || _); [done|]. apply lift_wp; [done|]. intros p Hp.
  apply wp_bind, wp_draw. intros e1 _ _ _. apply wp_bind, wp_now. intros e2 _ _. cbv zeta.
  apply wp_bind, wp_db. intros e3 _ _ _. split; [|done]. apply wp_bind, wp_modify, wp_ret. intros d [= <-].
  split_and!; try done. by eexists.
Qed.

Lemma ValidatePayload_thread p n q :
  ValidatePayload p n = Ok q -> PThreadID q = trim_space (PThreadID p) /\ PInReplyTo q = trim_space (PInReplyTo p).
Proof.
  unfold ValidatePayload. intros (to & _ & H)%result_bind_Ok. apply result_bind_Ok in H as (cc & _ & H).
  apply result_bind_Ok in H as (bcc & _ & H). cbv zeta in H.
  repeat match type of H with (if ?b then _ else _) = _ => destruct b; [done|] end. by injection H as <-.
Qed.

(** A reply cannot be made up: a draft is stored as a reply only when the
    provider of the draft's account, asked about the message it answers, gave
    the message and its thread; the recorded participants, the only people a
    reply rule trusts, and the thread the draft goes to are the provider's, not
    the agent's.  A draft that answers nothing is stored outside any thread. *)
Theorem replies_are_verified accountID agent trace p s e d s' e' :
  CreateDraft accountID agent trace p s e = (Ok d, (s', e')) ->
  exists b, binds accountID b /\ DrAccountID d = AcID (b_account b) /\
    match DrReply d with
    | None => trim_space (PInReplyTo p) = "" /\ PThreadID (Payload d) = ""
    | Some rc => trim_space (PInReplyTo p) <> "" /\ from_provider b (trim_space (PInReplyTo p)) rc /\
                 PThreadID (Payload d) = trim_space (RcThreadID rc) /\ PInReplyTo (Payload d) = trim_space (RcMessageID rc)
    end.
Proof.
  of_run_ok. unfold CreateDraft. apply wp_bind. eapply wp_mono; [apply resolve_wp|]. cbv beta.
  intros [b|x] s1 e1 [-> Hb]; [|done]. specialize (Hb b eq_refl).
  apply wp_bind. eapply wp_keeps; [apply require_reads|]. intros [[]|x] s2 e2 <-; [|done].
  destruct (_ && _); [done|]. apply wp_bind. case_bool_decide as Hin.
  - apply wp_ret. eapply wp_mono; [apply CreateDraftRow_wp|]. cbv beta. intros r s3 e3 H d ->.
    destruct (H d eq_refl) as (Hv & Hr & Ha & _). cbn [NReply NAccountID NPayload] in *. exists b.
    split; [done|]. split; [done|]. rewrite Hr. split; [done|]. by apply ValidatePayload_thread in Hv as [-> _].
  - apply wp_bind. eapply wp_mono; [apply replyContext_wp|]. cbv beta. intros [rc|x] s3 e3 Hrc; [|done].
    apply wp_ret. eapply wp_mono; [apply CreateDraftRow_wp|]. cbv beta. intros r s4 e4 H d ->.
    destruct (H d eq_refl) as (Hv & Hr & Ha & _). cbn [NReply NAccountID NPayload] in *. exists b.
    split; [done|]. split; [done|]. rewrite Hr. apply ValidatePayload_thread in Hv as [Ht Hi]. split_and!; auto.
Qed.

End flow.

(** ** Closed instances *)

#[local] Existing Instance plain_mail_env.
#[local] Existing Instance plain_platform.
#[local] Existing Instance demo_codec.
#[local] Existing Instance demo_plugins.


Definition demo_report : SendResult := mkSendReport "msg_1" "thr_1" false "rule_a".

Lemma Send_exact_witness :
  exists acct n, (1 <= n <= 3)%nat /\ calls (after (Send "draft_1" nobody) demo_service) =
    replicate n (CallMailSend acct (mkSendParams (PTo demo_stored) [] [] "Hello" "Lunch at noon?" "" "" "idem_9:mail_send|6:acct_1|7:draft_1|")).
Proof.
  pose proof (run_parts (Send "draft_1" nobody) demo_service) as Hrun.
  assert (Ha : answer (Send "draft_1" nobody) demo_service = Ok demo_report) by (vm_compute; reflexivity). rewrite Ha in Hrun.
  destruct (Send_exact _ _ _ _ _ _ _ Hrun) as (row & d & Hrow & _ & Hs & _ & [(Hr & _)|(_ & _ & acct & n & Hn & _ & Hc)]);
    [discriminate Hr|]. exists acct, n. split; [exact Hn|]. rewrite Hc.
  apply list_elem_of_singleton in Hrow as ->. vm_compute in Hs. injection Hs as <-. reflexivity.
Defined.

Definition demo_new : NewAccount := mkNewAccount "Home" "imap" KindMail "me@home.example" [("host", CLeaf "imap.home.example")] (mkAuth "" "" []).

Lemma configs_hold_no_secret_witness :
  exists config, config_json config = Some "{}" /\ clean_config config.
Proof.
  destruct (configs_hold_no_secret (OCreateAccount demo_new) _ _ _ _ _
    (mkAccountRow "acct_0" "Home" "imap" KindMail "me@home.example" "{}" "none" StatusOK "" 1000 1000)
    I (run_parts (run_owner (OCreateAccount demo_new)) demo_service)) as (_ & config & Hj & Hc & _).
  - vm_compute. by right; left.
  - vm_compute. intros H. inversion H as [|? ? ? H']; subst. inversion H'.
  - by exists config.
Defined.

Definition demo_bounce (i : string) : Message_ := mkMessage i "" (mkAddress "" "MAILER-DAEMON@example.com") [] [] "Undelivered" "".
Definition demo_bounces : list Message_ := demo_bounce <$> ["m1"; "m2"; "m3"; "m3"].

Lemma bounces_pause_the_account_witness :
  Forall (fun x => rr_account x = "acct_1" -> rr_enabled x <> 1) (rules (after (observeInbox "acct_1" demo_bounces) demo_service)).
Proof.
  apply Forall_forall.
  apply (bounces_pause_the_account "acct_1" demo_bounces ["m1"; "m2"; "m3"] _ _ _ _ _
    (run_parts (observeInbox "acct_1" demo_bounces) demo_service)).
  - reflexivity.
  - vm_compute. discriminate.
  - apply (bool_decide_unpack _). vm_compute. exact I.
  - vm_compute. discriminate.
  - intros i Hi. split; [intros d Hd; by apply not_elem_of_nil in Hd|]. exists (demo_bounce i). split; [|by split].
    apply list_elem_of_fmap. exists i. split; [done|]. apply (elem_of_app ["m1"; "m2"; "m3"] ["m3"]). by left.
Defined.

Lemma replies_are_verified_witness :
  exists b, binds "acct_1" b /\ from_provider b "m9" (mkReplyContext "m9" "thr_1" true [] "").
Proof.
  set (s := set_providers {["imap" := mkProvider (mkCapabilities [CapMail] [ExportMailSend; ExportMailGet; ExportMailGetThread] (mkProviderLimits 0 0 0))]} demo_service).
  set (p := set_thread "m9" "" demo_payload).
  assert (Ha : answer (CreateDraft "acct_1" "agent" "" p) s =
    Ok (mkDraft "draft_0" "acct_1" "agent" "" (set_thread "m9" "thr_1" demo_stored) "Hello/Lunch at noon?"
          (Some (mkReplyContext "m9" "thr_1" true [] "")) 1000)) by (vm_compute; reflexivity).
  pose proof (run_parts (CreateDraft "acct_1" "agent" "" p) s) as Hrun. rewrite Ha in Hrun.
  destruct (replies_are_verified _ _ _ _ _ _ _ _ _ Hrun) as (b & Hb & _ & _ & Hrc & _). by exists b.
Defined.
