(* ===== verification/GoText.v ===== *)
(** * More of package [strings]

    [Index], [Trim] with a set of characters, and what the functions of
    [GoStrings] do on ASCII text, where every byte is a rune. *)

From S2P Require Import Prelude GoStrings.
From Stdlib Require Import Ascii.

#[local] Open Scope Z_scope.

(** [strings.Index(s, sub)]. *)
Fixpoint index (s sub : string) : option nat :=
  if has_prefix s sub then Some 0%nat
  else match s with "" => None | String _ s' => S <$> index s' sub end.

(** [strings.Trim(s, cutset)]. *)
Definition trim_chars (s : string) (cutset : list Z) : string :=
  let cut (p : Z * string) := bool_decide (p.1 ∈ cutset) in
  bytes_of (reverse (drop_while cut (reverse (drop_while cut (segments s))))).

(** [strings.TrimRight(s, cutset)] *)
Definition trim_right (s : string) (cutset : list Z) : string :=
  bytes_of (reverse (drop_while (fun q => bool_decide (q.1 ∈ cutset)) (reverse (segments s)))).

(** [strings.TrimPrefix] *)
Definition trim_prefix (s p : string) : string :=
  if has_prefix s p then String.substring (String.length p) (String.length s - String.length p) s else s.

(** [strings.TrimSuffix] *)
Definition trim_suffix (s p : string) : string :=
  if has_suffix s p then take_bytes (String.length s - String.length p) s else s.

(** [s[n:]], a panic when [n] is past the end. *)
Definition slice_from (n : nat) (s : string) : option string :=
  if bool_decide (n <= String.length s)%nat then Some (String.substring n (String.length s - n) s) else None.

(** ** [strings.NewReplacer(...).Replace] *)

Definition first_match (pairs : list (string * string)) (s : string) : option (string * string) :=
  find (fun p => has_prefix s p.1) pairs.

(** From left to right, the earliest pair that fits; [skip] bytes of the match
    are still to pass.  [ReplaceAll] is the case of one pair. *)
Fixpoint replace_from (pairs : list (string * string)) (skip : nat) (s : string) : string :=
  match s with
  | "" => ""
  | String a s' =>
    match skip with
    | S k => replace_from pairs k s'
    | O => match first_match pairs s with
           | Some (old, new) => new +:+ replace_from pairs (String.length old - 1) s'
           | None => String a (replace_from pairs 0 s')
           end
    end
  end.
Definition Replace (pairs : list (string * string)) (s : string) : string := replace_from pairs 0 s.

Lemma replace_skip ps p s : replace_from ps (String.length p) (p +:+ s) = replace_from ps 0 s.
Proof. induction p as [|a p IH]; [done|]. rewrite string_app_cons. cbn. apply IH. Qed.

Lemma Replace_no_byte c ps s :
  Forall (fun p => no_byte c p.2 = true) ps -> no_byte c s = true -> no_byte c (Replace ps s) = true.
Proof.
  intros Hps. unfold Replace. generalize 0%nat. induction s as [|a s IH]; intros k Hs; [done|]. cbn [no_byte] in Hs.
  apply andb_true_iff in Hs as [Ha Hs]. cbn [replace_from]. destruct k as [|k]; [|by apply IH].
  destruct (first_match ps (String a s)) as [[old new]|] eqn:Hf.
  - rewrite no_byte_app, IH, andb_true_r by done. unfold first_match in Hf. apply find_some in Hf as [Hin _].
    rewrite Forall_forall in Hps. apply (Hps (old, new)). by apply list_elem_of_In.
  - cbn [no_byte]. by rewrite Ha, IH.
Qed.

(** A byte with a replacement of its own, that has no such byte, goes. *)
Lemma Replace_removes c ps s :
  Forall (fun p => no_byte c p.2 = true) ps -> String c "" ∈ ps.*1 -> no_byte c (Replace ps s) = true.
Proof.
  intros Hps Hin. unfold Replace. generalize 0%nat. induction s as [|a s IH]; intros k; [done|]. cbn [replace_from].
  destruct k as [|k]; [|by apply IH]. destruct (first_match ps (String a s)) as [[old new]|] eqn:Hf.
  - rewrite no_byte_app, IH, andb_true_r. unfold first_match in Hf. apply find_some in Hf as [Hi _].
    rewrite Forall_forall in Hps. apply (Hps (old, new)). by apply list_elem_of_In.
  - cbn [no_byte]. rewrite IH, andb_true_r. apply negb_true_iff, bool_decide_eq_false. intros ->.
    apply list_elem_of_fmap in Hin as ([old new] & He & Hin). cbn in He. subst old.
    apply list_elem_of_In in Hin. apply (find_none _ _ Hf) in Hin. cbn [fst has_prefix] in Hin.
    rewrite bool_decide_true in Hin by done. by destruct s.
Qed.

(** ** [strings.EqualFold] *)

(** The orbits of [unicode.SimpleFold], for two runes not both ASCII. *)
Class Folding := { simple_fold : Z -> Z -> bool }.

Section folding.
Context `{F : Folding}.

(** [strings.EqualFold]: rune by rune, equal, the same ASCII letter, or in one
    orbit of [unicode.SimpleFold]. *)
Definition ascii_lower_rune (r : Z) : Z := if (65 <=? r) && (r <=? 90) then r + 32 else r.
Definition fold_rune (a b : Z) : bool :=
  (a =? b) || (if (a <? 128) && (b <? 128) then ascii_lower_rune a =? ascii_lower_rune b else simple_fold a b).
Fixpoint fold_runes (l m : list Z) : bool :=
  match l, m with
  | [], [] => true
  | a :: l', b :: m' => fold_rune a b && fold_runes l' m'
  | _, _ => false
  end.
Definition equal_fold (a b : string) : bool := fold_runes (runes a) (runes b).
End folding.

(** ** ASCII text *)

Fixpoint all_bytes (p : Z -> bool) (s : string) : bool :=
  match s with "" => true | String a s' => p (byte_val a) && all_bytes p s' end.

Definition byte_seg (a : ascii) : Z * string := (byte_val a, String a "").
Fixpoint chars (s : string) : list ascii := match s with "" => [] | String a s' => a :: chars s' end.

Lemma segments_ascii s : all_bytes (fun b => b <? 128) s = true -> segments s = byte_seg <$> chars s.
Proof.
  induction s as [|a s IH]; [done|]. cbn [all_bytes chars]. intros [Ha Hs]%andb_true_iff.
  cbn [segments]. rewrite Ha, (IH Hs). done.
Qed.

Lemma all_bytes_impl (p q : Z -> bool) s :
  (forall b, p b = true -> q b = true) -> all_bytes p s = true -> all_bytes q s = true.
Proof.
  intros Hpq. induction s as [|a s IH]; cbn; [done|]. rewrite !andb_true_iff. intros [Ha Hs]. auto.
Qed.

Lemma all_bytes_app p s t : all_bytes p (s +:+ t) = all_bytes p s && all_bytes p t.
Proof. induction s as [|a s IH]; [done|]. rewrite string_app_cons. cbn. by rewrite IH, andb_assoc. Qed.

Lemma all_bytes_chars p s : all_bytes p s = forallb (fun a => p (byte_val a)) (chars s).
Proof. induction s as [|a s IH]; [done|]. cbn. by rewrite IH. Qed.

Lemma bytes_of_chars s : bytes_of (byte_seg <$> chars s) = s.
Proof. induction s as [|a s IH]; [done|]. cbn [chars fmap list_fmap]. unfold bytes_of in *. cbn [foldr]. by rewrite IH. Qed.

Lemma encode_ascii a : byte_val a < 128 -> encode_rune (byte_val a) = String a "".
Proof.
  intros Ha. pose proof (byte_val_range a) as Hr. unfold encode_rune.
  rewrite (proj2 (Z.ltb_ge _ _) (proj1 Hr)), (proj2 (Z.ltb_ge 1114111 _)), (proj2 (Z.leb_gt 55296 _)) by lia. cbn [orb andb].
  rewrite (proj2 (Z.ltb_lt _ 128) Ha). by rewrite byte_of_val.
Qed.

Lemma drop_while_none {A} (p : A -> bool) l : Forall (fun x => p x = false) l -> drop_while p l = l.
Proof. destruct 1 as [|x l Hx _]; cbn; [done|]. by rewrite Hx. Qed.

Lemma segments_app_ascii s t : all_bytes (fun b => b <? 128) s = true -> segments (s +:+ t) = segments s ++ segments t.
Proof.
  induction s as [|a s IH]; [done|]. cbn [all_bytes]. intros [Ha Hs]%andb_true_iff. rewrite string_app_cons.
  cbn [segments]. rewrite Ha, (IH Hs). done.
Qed.

Lemma encode_runes_app l m : encode_runes (l ++ m) = encode_runes l +:+ encode_runes m.
Proof. induction l as [|r l IH]; [done|]. cbn. unfold encode_runes in *. cbn. by rewrite IH, string_app_assoc. Qed.

Lemma drop_while_app {A} (p : A -> bool) l m : l <> [] -> Forall (fun x => p x = false) l -> drop_while p (l ++ m) = l ++ m.
Proof. intros Hl. destruct 1 as [|x l Hx _]; cbn; [done|]. by rewrite Hx. Qed.

Lemma substring_all s : String.substring 0 (String.length s) s = s.
Proof. induction s as [|a s IH]; [done|]. cbn. by rewrite IH. Qed.

Section ascii.
Context `{U : Unicode}.

(** A map of the runes that keeps every byte of the text. *)
Lemma map_runes_fixed (f : Z -> Z) (p : Z -> bool) s :
  (forall b, p b = true -> b < 128 /\ f b = b) -> all_bytes p s = true -> encode_runes (f <$> runes s) = s.
Proof.
  intros Hp Hs. unfold runes. rewrite segments_ascii.
  - induction s as [|a s IH]; [done|]. cbn [all_bytes] in Hs. apply andb_true_iff in Hs as [Ha Hs].
    cbn. destruct (Hp _ Ha) as [Hlt ->]. rewrite (encode_ascii a Hlt). unfold encode_runes in IH. by rewrite IH.
  - eapply all_bytes_impl; [|exact Hs]. intros b Hb. apply Z.ltb_lt, (Hp b Hb).
Qed.

(** Trimming text that has nothing to trim. *)
Lemma trim_fixed (cut : Z * string -> bool) s :
  all_bytes (fun b => (b <? 128) && negb (cut (b, String (byte_of b) ""))) s = true ->
  bytes_of (reverse (drop_while cut (reverse (drop_while cut (segments s))))) = s.
Proof.
  intros Hs. rewrite segments_ascii by (eapply all_bytes_impl; [|exact Hs]; by intros b [? _]%andb_true_iff).
  assert (Hn : Forall (fun x => cut x = false) (byte_seg <$> chars s)).
  { rewrite all_bytes_chars in Hs. rewrite forallb_elem in Hs. apply Forall_fmap, Forall_forall. intros a Ha.
    specialize (Hs a Ha). apply andb_true_iff in Hs as [_ Hs]. rewrite byte_of_val in Hs. by apply negb_true_iff in Hs. }
  rewrite (drop_while_none _ _ Hn), drop_while_none by by apply Forall_reverse.
  by rewrite reverse_involutive, bytes_of_chars.
Qed.

Lemma fields_fixed s :
  all_bytes (fun b => (b <? 128) && negb (is_space b)) s = true -> s <> "" -> fields s = [s].
Proof.
  intros Hs Hne. unfold fields. rewrite segments_ascii by (eapply all_bytes_impl; [|exact Hs]; by intros b [? _]%andb_true_iff).
  assert (Hgo : forall acc, acc +:+ s <> "" -> fields_go (byte_seg <$> chars s) acc = [acc +:+ s]).
  { clear Hne. induction s as [|a s IH]; intros acc Hacc; cbn [chars fmap list_fmap fields_go].
    - rewrite string_app_nil_r in *. by rewrite bool_decide_false.
    - cbn [all_bytes] in Hs. rewrite !andb_true_iff, negb_true_iff in Hs. destruct Hs as [[_ Ha] Hs].
      unfold byte_seg at 1. rewrite Ha. rewrite IH; [by rewrite string_app_assoc|done|].
      intros He. apply (f_equal String.length) in He. rewrite !string_length_app in He. cbn in He. lia. }
  by apply (Hgo "").
Qed.

Lemma to_lower_app s t : all_bytes (fun b => b <? 128) s = true -> to_lower (s +:+ t) = to_lower s +:+ to_lower t.
Proof.
  intros Hs. unfold to_lower, runes. by rewrite (segments_app_ascii s t Hs), fmap_app, fmap_app, encode_runes_app.
Qed.
End ascii.

(** ** UTF-8: what is encoded is decoded *)

(** A Unicode scalar value. *)
Definition scalar (r : Z) : Prop := 0 <= r <= 1114111 /\ ~ 55296 <= r <= 57343.

Lemma byte_val_of z : 0 <= z < 256 -> byte_val (byte_of z) = z.
Proof. intros Hz. unfold byte_val, byte_of. rewrite N_ascii_embedding by lia. lia. Qed.

Lemma lor_shift a b k : 0 <= k -> 0 <= b < 2 ^ k -> Z.lor (Z.shiftl a k) b = a * 2 ^ k + b.
Proof.
  intros Hk Hb. rewrite Z.shiftl_mul_pow2 by done. symmetry. apply Z.add_nocarry_lor. apply Z.bits_inj'. intros n Hn.
  rewrite Z.land_spec, Z.bits_0, <- Z.shiftl_mul_pow2 by done.
  destruct (Z.lt_ge_cases n k).
  - by rewrite Z.shiftl_spec_low by done.
  - destruct (decide (b = 0)) as [->|]; [by rewrite Z.bits_0, andb_false_r|].
    rewrite (Z.bits_above_log2 b n); [by rewrite andb_false_r|lia|].
    assert (Z.log2 b < k); [|lia]. apply Z.log2_lt_pow2; lia.
Qed.

(** Lead and continuation bytes: a tag in the high bits. *)
Lemma tag_or tag k x : 0 <= k -> 0 <= x < 2 ^ k -> Z.lor (Z.shiftl tag k) x = tag * 2 ^ k + x.
Proof. apply lor_shift. Qed.

Lemma cont_byte m : 0 <= m < 64 -> byte_val (byte_of (Z.lor 128 m)) = 128 + m /\ low6 (byte_of (Z.lor 128 m)) = m.
Proof.
  intros Hm. change 128 with (Z.shiftl 2 6) at 1 3. rewrite (tag_or 2 6 m) by (try change (2 ^ 6) with 64; lia).
  change (2 * 2 ^ 6) with 128. assert (Hv : byte_val (byte_of (128 + m)) = 128 + m) by (apply byte_val_of; lia).
  split; [exact Hv|]. unfold low6. rewrite Hv. change 63 with (Z.ones 6). rewrite Z.land_ones by lia.
  change (2 ^ 6) with 64. rewrite <- (Z.mod_small m 64) at 2 by lia. replace (128 + m) with (m + 2 * 64) by lia. apply Z.mod_add. lia.
Qed.

(** Arithmetic with quotients and remainders by constants. *)
Ltac zdiv := Z.to_euclidean_division_equations; lia.
Ltac pow_zdiv := change (2 ^ 6) with 64; change (2 ^ 12) with 4096; change (2 ^ 18) with 262144; first [lia | zdiv].

Lemma land_ones_mod a k : 0 <= k -> Z.land a (Z.ones k) = a mod 2 ^ k.
Proof. intros Hk. by apply Z.land_ones. Qed.

(** The lead byte of a sequence: its value, and the bits it carries. *)
Lemma lead_byte tag k q :
  0 <= k -> 0 <= q < 2 ^ k -> 0 <= tag -> (tag + 1) * 2 ^ k <= 256 ->
  byte_val (byte_of (Z.lor (Z.shiftl tag k) q)) = tag * 2 ^ k + q /\
  Z.land (tag * 2 ^ k + q) (Z.ones k) = q.
Proof.
  intros Hk Hq Ht Hmax. rewrite (tag_or tag k q) by done. split; [apply byte_val_of; nia|].
  rewrite land_ones_mod, Z.add_comm, Z.mod_add by lia. by apply Z.mod_small.
Qed.

Lemma segments_encode r s : scalar r -> segments (encode_rune r +:+ s) = (r, encode_rune r) :: segments s.
Proof.
  intros [Hr Hsur]. unfold encode_rune.
  destruct ((r <? 0) || (1114111 <? r) || ((55296 <=? r) && (r <=? 57343))) eqn:Hbad; [exfalso; lia|].
  assert (Hm : forall a, Z.land a 63 = a mod 64) by (intros a; by apply (land_ones_mod a 6)).
  rewrite !Hm, !Z.shiftr_div_pow2 by lia. change (2 ^ 6) with 64. change (2 ^ 12) with 4096. change (2 ^ 18) with 262144.
  destruct (cont_byte (r mod 64)) as [Hc Hl]; [zdiv|].
  destruct (cont_byte ((r / 64) mod 64)) as [Hc1 Hl1]; [zdiv|].
  destruct (cont_byte ((r / 4096) mod 64)) as [Hc2 Hl2]; [zdiv|].
  destruct (r <? 128) eqn:H1; [|destruct (r <? 2048) eqn:H2; [|destruct (r <? 65536) eqn:H3]];
    rewrite ?Z.ltb_lt, ?Z.ltb_ge in *; rewrite !string_app_cons; cbn [segments]; unfold cont; rewrite ?Hc, ?Hl, ?Hc1, ?Hl1, ?Hc2, ?Hl2.
  - rewrite byte_val_of by lia. by rewrite (proj2 (Z.ltb_lt r 128) H1).
  - destruct (lead_byte 6 5 (r / 64)) as [Hv Hb]; [lia|zdiv|lia|lia|].
    change (Z.shiftl 6 5) with 192 in Hv. change (6 * 2 ^ 5) with 192 in *. change (Z.ones 5) with 31 in Hb.
    rewrite Hv, Hb. rewrite (lor_shift (r / 64) (r mod 64) 6) by (try lia; zdiv).
    repeat first [rewrite (proj2 (Z.ltb_ge _ _)) by zdiv | rewrite (proj2 (Z.leb_le _ _)) by zdiv]. cbn [andb].
    f_equal. f_equal. change (2 ^ 6) with 64. zdiv.
  - destruct (lead_byte 14 4 (r / 4096)) as [Hv Hb]; [lia|zdiv|lia|lia|].
    change (Z.shiftl 14 4) with 224 in Hv. change (14 * 2 ^ 4) with 224 in *. change (Z.ones 4) with 15 in Hb.
    rewrite Hv, Hb.
    assert (Hg : ((if 224 + r / 4096 =? 224 then 160 else 128) <=? 128 + (r / 64) mod 64)
      && (128 + (r / 64) mod 64 <=? (if 224 + r / 4096 =? 237 then 159 else 191))
      && ((128 <=? 128 + r mod 64) && (128 + r mod 64 <=? 191)) = true).
    { rewrite !andb_true_iff, !Z.leb_le. split_and!; try zdiv; (destruct (_ =? _) eqn:He; [apply Z.eqb_eq in He|]; zdiv). }
    rewrite (proj2 (Z.ltb_ge (224 + r / 4096) 128)) by zdiv.
    rewrite (proj2 (Z.leb_gt (224 + r / 4096) 223)) by zdiv. rewrite andb_false_r.
    rewrite (proj2 (Z.leb_le 224 (224 + r / 4096))), (proj2 (Z.leb_le (224 + r / 4096) 239)) by zdiv. cbn [andb].
    cbv zeta. rewrite Hg. f_equal. f_equal. rewrite (lor_shift _ (r mod 64) 6), (lor_shift _ _ 12) by pow_zdiv. pow_zdiv.
  - destruct (lead_byte 30 3 (r / 262144)) as [Hv Hb]; [lia|zdiv|lia|lia|].
    change (Z.shiftl 30 3) with 240 in Hv. change (30 * 2 ^ 3) with 240 in *. change (Z.ones 3) with 7 in Hb.
    rewrite Hv, Hb.
    assert (Hg : ((if 240 + r / 262144 =? 240 then 144 else 128) <=? 128 + (r / 4096) mod 64)
      && (128 + (r / 4096) mod 64 <=? (if 240 + r / 262144 =? 244 then 143 else 191))
      && ((128 <=? 128 + (r / 64) mod 64) && (128 + (r / 64) mod 64 <=? 191))
      && ((128 <=? 128 + r mod 64) && (128 + r mod 64 <=? 191)) = true).
    { rewrite !andb_true_iff, !Z.leb_le. split_and!; try zdiv; (destruct (_ =? _) eqn:He; [apply Z.eqb_eq in He|]; zdiv). }
    rewrite (proj2 (Z.ltb_ge (240 + r / 262144) 128)) by zdiv.
    rewrite (proj2 (Z.leb_gt (240 + r / 262144) 223)), (proj2 (Z.leb_gt (240 + r / 262144) 239)) by zdiv. rewrite !andb_false_r.
    rewrite (proj2 (Z.leb_le 240 (240 + r / 262144))), (proj2 (Z.leb_le (240 + r / 262144) 244)) by zdiv. cbn [andb].
    cbv zeta. rewrite Hg. f_equal. f_equal.
    rewrite (lor_shift _ (r mod 64) 6), (lor_shift _ _ 12), (lor_shift _ _ 18) by pow_zdiv. pow_zdiv.
Qed.

Lemma segments_encode_runes l : Forall scalar l -> segments (encode_runes l) = (fun r => (r, encode_rune r)) <$> l.
Proof.
  induction 1 as [|r l Hr _ IH]; [done|]. unfold encode_runes in *. cbn [foldr fmap list_fmap].
  by rewrite (segments_encode r _ Hr), IH.
Qed.

Lemma runes_encode_runes l : Forall scalar l -> runes (encode_runes l) = l.
Proof. intros Hl. unfold runes. rewrite (segments_encode_runes l Hl), <- list_fmap_compose. apply list_fmap_id. Qed.

Lemma bytes_of_encode l : bytes_of ((fun r => (r, encode_rune r)) <$> l) = encode_runes l.
Proof. induction l as [|r l IH]; [done|]. unfold bytes_of, encode_runes in *. cbn. by rewrite IH. Qed.

(** Decoding gives scalar values only. *)
Lemma low6_cont lo hi b : cont lo hi b = true -> 128 <= lo -> hi <= 191 -> low6 b = byte_val b - 128 /\ lo <= byte_val b <= hi.
Proof.
  unfold cont, low6. rewrite andb_true_iff, !Z.leb_le. intros Hb Hlo Hhi. split; [|done].
  change 63 with (Z.ones 6). rewrite land_ones_mod by lia. change (2 ^ 6) with 64. zdiv.
Qed.

Lemma scalar2 v b : 194 <= v <= 223 -> cont 128 191 b = true -> scalar (Z.lor (Z.shiftl (Z.land v 31) 6) (low6 b)).
Proof.
  intros Hv Hb. apply low6_cont in Hb as [-> Hb]; [|lia..]. change 31 with (Z.ones 5). rewrite land_ones_mod by lia.
  rewrite (lor_shift _ _ 6) by pow_zdiv. change (2 ^ 5) with 32. unfold scalar. pow_zdiv.
Qed.

Lemma scalar3 v b1 b2 :
  224 <= v <= 239 -> cont (if v =? 224 then 160 else 128) (if v =? 237 then 159 else 191) b1 = true -> cont 128 191 b2 = true ->
  scalar (Z.lor (Z.shiftl (Z.land v 15) 12) (Z.lor (Z.shiftl (low6 b1) 6) (low6 b2))).
Proof.
  intros Hv H1 H2. apply low6_cont in H2 as [-> H2]; [|lia..]. apply low6_cont in H1 as [-> H1]; [|by destruct (v =? 224)|by destruct (v =? 237)].
  change 15 with (Z.ones 4). rewrite land_ones_mod by lia. change (2 ^ 4) with 16.
  assert (Hb1 : 128 <= byte_val b1 <= 191) by (destruct (v =? 224), (v =? 237); lia).
  rewrite (lor_shift _ _ 6), (lor_shift _ _ 12) by pow_zdiv. change (2 ^ 6) with 64. change (2 ^ 12) with 4096. unfold scalar.
  destruct (Z.eqb_spec v 237) as [->|Hne]; [zdiv|]. clear H1. zdiv.
Qed.

Lemma scalar4 v b1 b2 b3 :
  240 <= v <= 244 -> cont (if v =? 240 then 144 else 128) (if v =? 244 then 143 else 191) b1 = true ->
  cont 128 191 b2 = true -> cont 128 191 b3 = true ->
  scalar (Z.lor (Z.shiftl (Z.land v 7) 18) (Z.lor (Z.shiftl (low6 b1) 12) (Z.lor (Z.shiftl (low6 b2) 6) (low6 b3)))).
Proof.
  intros Hv H1 H2 H3. apply low6_cont in H3 as [-> H3]; [|lia..]. apply low6_cont in H2 as [-> H2]; [|lia..].
  apply low6_cont in H1 as [-> H1]; [|by destruct (v =? 240)|by destruct (v =? 244)].
  change 7 with (Z.ones 3). rewrite land_ones_mod by lia. change (2 ^ 3) with 8.
  assert (Hb1 : 128 <= byte_val b1 <= 191) by (destruct (v =? 240), (v =? 244); lia).
  rewrite (lor_shift _ _ 6), (lor_shift _ _ 12), (lor_shift _ _ 18) by pow_zdiv.
  change (2 ^ 6) with 64. change (2 ^ 12) with 4096. change (2 ^ 18) with 262144. unfold scalar.
  destruct (Z.eqb_spec v 240) as [Hv1|Hne1], (Z.eqb_spec v 244) as [Hv2|Hne2]; zdiv.
Qed.

Lemma scalar_error : scalar rune_error.
Proof. unfold scalar, rune_error. lia. Qed.

Lemma runes_scalar s : Forall scalar (runes s).
Proof.
  induction s as [s IH] using (induction_ltof1 _ String.length); unfold ltof in IH.
  assert (Hrec : forall r p s', scalar r -> (String.length s' < String.length s)%nat -> Forall scalar (((r, p) :: segments s').*1)).
  { intros r p s' Hr Hlt. cbn [fmap list_fmap fst]. constructor; [done|by apply IH]. }
  unfold runes in *. destruct s as [|b0 s0]; [constructor|]. cbn [segments]. pose proof scalar_error as He.
  pose proof (byte_val_range b0) as Hr0.
  destruct (_ <? 128) eqn:H1; [apply Hrec; [unfold scalar; lia|cbn; lia]|].
  destruct ((194 <=? _) && _) eqn:H2.
  { destruct s0 as [|b1 s1]; [apply Hrec; [done|cbn; lia]|]. destruct (cont _ _ b1) eqn:Hc; apply Hrec; try (cbn; lia); [|done].
    apply scalar2; [lia|done]. }
  destruct ((224 <=? _) && _) eqn:H3.
  { destruct s0 as [|b1 [|b2 s2]]; try (apply Hrec; [done|cbn; lia]).
    destruct (cont _ _ b1 && _) eqn:Hc; apply Hrec; try (cbn; lia); [|done].
    apply andb_true_iff in Hc as [Hc1 Hc2]. apply scalar3; [lia|done..]. }
  destruct ((240 <=? _) && _) eqn:H4; [|apply Hrec; [done|cbn; lia]].
  destruct s0 as [|b1 [|b2 [|b3 s3]]]; try (apply Hrec; [done|cbn; lia]).
  destruct (cont _ _ b1 && _ && _) eqn:Hc; apply Hrec; try (cbn; lia); [|done].
  rewrite !andb_true_iff in Hc. destruct Hc as [[Hc1 Hc2] Hc3]. apply scalar4; [lia|done..].
Qed.

Lemma encode_low r : scalar r -> r < 128 -> encode_rune r = String (byte_of r) "".
Proof.
  intros [Hr _] Hlt. rewrite <- (byte_val_of r) at 1 by lia. apply encode_ascii. by rewrite byte_val_of by lia.
Qed.

(** The bytes of a rune beyond ASCII are beyond ASCII. *)
Lemma encode_high r : scalar r -> 128 <= r -> all_bytes (fun b => 128 <=? b) (encode_rune r) = true.
Proof.
  intros [Hr Hsur] Hge. unfold encode_rune.
  destruct ((r <? 0) || (1114111 <? r) || ((55296 <=? r) && (r <=? 57343))) eqn:Hbad; [exfalso; lia|].
  assert (Hm : forall a, Z.land a 63 = a mod 64) by (intros a; by apply (land_ones_mod a 6)).
  rewrite !Hm, !Z.shiftr_div_pow2 by lia. change (2 ^ 6) with 64. change (2 ^ 12) with 4096. change (2 ^ 18) with 262144.
  assert (Hl : forall tag k q, 0 <= k -> 0 <= q < 2 ^ k -> 0 <= tag -> 128 <= tag * 2 ^ k -> (tag + 1) * 2 ^ k <= 256 ->
    (128 <=? byte_val (byte_of (Z.lor (Z.shiftl tag k) q))) = true).
  { intros tag k q Hk Hq Ht Hlo Hhi. rewrite (tag_or tag k q) by done. apply Z.leb_le. rewrite byte_val_of; nia. }
  rewrite (proj2 (Z.ltb_ge r 128)) by done. destruct (r <? 2048) eqn:H2; [|destruct (r <? 65536) eqn:H3]; cbn [all_bytes].
  - by rewrite (Hl 6 5), (Hl 2 6) by pow_zdiv.
  - by rewrite (Hl 14 4), !(Hl 2 6) by pow_zdiv.
  - by rewrite (Hl 30 3), !(Hl 2 6) by pow_zdiv.
Qed.
Lemma high_no_byte c s : byte_val c < 128 -> all_bytes (fun b => 128 <=? b) s = true -> no_byte c s = true.
Proof.
  intros Hc. induction s as [|a s IH]; [done|]. cbn [all_bytes no_byte]. intros [Ha Hs]%andb_true_iff. rewrite (IH Hs), andb_true_r.
  apply negb_true_iff, bool_decide_eq_false. intros ->. apply Z.leb_le in Ha. lia.
Qed.

Lemma bytes_of_app l m : bytes_of (l ++ m) = bytes_of l +:+ bytes_of m.
Proof. induction l as [|p l IH]; [done|]. cbn [app bytes_of foldr]. unfold bytes_of in IH. by rewrite IH, string_app_assoc. Qed.

(** The bytes a rune was decoded from are its encoding. *)
Lemma byte_lead tag k q b : 0 <= k -> 0 <= q < 2 ^ k -> byte_val b = tag * 2 ^ k + q -> byte_of (Z.lor (Z.shiftl tag k) q) = b.
Proof. intros Hk Hq Hb. rewrite (tag_or tag k q Hk Hq), <- Hb. apply byte_of_val. Qed.

Lemma byte_cont r b : 128 <= byte_val b <= 191 -> r mod 64 = byte_val b - 128 -> byte_of (Z.lor 128 (Z.land r 63)) = b.
Proof.
  intros Hb Hr. change 63 with (Z.ones 6). rewrite land_ones_mod by lia. change (2 ^ 6) with 64. rewrite Hr.
  apply (byte_lead 2 6); [lia|change (2 ^ 6) with 64; lia|change (2 ^ 6) with 64; lia].
Qed.

Lemma encode2 b0 b1 : 194 <= byte_val b0 <= 223 -> cont 128 191 b1 = true ->
  encode_rune (Z.lor (Z.shiftl (Z.land (byte_val b0) 31) 6) (low6 b1)) = String b0 (String b1 "").
Proof.
  intros H0 H1. assert (Hs := scalar2 _ _ H0 H1). apply low6_cont in H1 as [E1 H1]; [|lia..]. rewrite E1 in *.
  set (r := Z.lor _ _) in *. assert (Hr : r = (byte_val b0 - 192) * 64 + (byte_val b1 - 128)).
  { unfold r. change 31 with (Z.ones 5). rewrite land_ones_mod by lia. rewrite (lor_shift _ _ 6) by pow_zdiv. change (2 ^ 5) with 32. zdiv. }
  clearbody r. unfold encode_rune, scalar in *.
  replace ((r <? 0) || (1114111 <? r) || ((55296 <=? r) && (r <=? 57343))) with false by lia.
  replace (r <? 128) with false by lia. replace (r <? 2048) with true by lia.
  rewrite (byte_cont r b1) by (try lia; zdiv). f_equal. rewrite Z.shiftr_div_pow2 by lia. change (2 ^ 6) with 64.
  apply (byte_lead 6 5); change (2 ^ 5) with 32; [lia|zdiv|zdiv].
Qed.

Lemma encode3 b0 b1 b2 : 224 <= byte_val b0 <= 239 ->
  cont (if byte_val b0 =? 224 then 160 else 128) (if byte_val b0 =? 237 then 159 else 191) b1 = true -> cont 128 191 b2 = true ->
  encode_rune (Z.lor (Z.shiftl (Z.land (byte_val b0) 15) 12) (Z.lor (Z.shiftl (low6 b1) 6) (low6 b2))) = String b0 (String b1 (String b2 "")).
Proof.
  intros H0 H1 H2. assert (Hs := scalar3 _ _ _ H0 H1 H2). apply low6_cont in H2 as [E2 H2]; [|lia..].
  apply low6_cont in H1 as [E1 H1]; [|by destruct (_ =? 224)|by destruct (_ =? 237)]. rewrite E1, E2 in *.
  assert (Hb1 : 128 <= byte_val b1 <= 191) by (destruct (_ =? 224), (_ =? 237); lia).
  assert (Hlo : byte_val b0 = 224 -> 160 <= byte_val b1) by (intros E; rewrite E in H1; cbn in H1; lia).
  set (r := Z.lor _ _) in *. assert (Hr : r = (byte_val b0 - 224) * 4096 + (byte_val b1 - 128) * 64 + (byte_val b2 - 128)).
  { unfold r. change 15 with (Z.ones 4). rewrite land_ones_mod by lia. change (2 ^ 4) with 16.
    rewrite (lor_shift _ _ 6), (lor_shift _ _ 12) by pow_zdiv. change (2 ^ 6) with 64. change (2 ^ 12) with 4096. clear H1 Hs Hlo. zdiv. }
  clearbody r. clear H1. unfold encode_rune, scalar in *.
  replace ((r <? 0) || (1114111 <? r) || ((55296 <=? r) && (r <=? 57343))) with false by lia.
  replace (r <? 128) with false by lia. replace (r <? 2048) with false by lia. replace (r <? 65536) with true by lia.
  clear Hs Hlo. rewrite !Z.shiftr_div_pow2 by lia. change (2 ^ 6) with 64. change (2 ^ 12) with 4096.
  rewrite (byte_cont r b2) by (try lia; zdiv). rewrite (byte_cont (r / 64) b1) by (try lia; zdiv). f_equal.
  apply (byte_lead 14 4); change (2 ^ 4) with 16; [lia|zdiv|zdiv].
Qed.

Lemma encode4 b0 b1 b2 b3 : 240 <= byte_val b0 <= 244 ->
  cont (if byte_val b0 =? 240 then 144 else 128) (if byte_val b0 =? 244 then 143 else 191) b1 = true ->
  cont 128 191 b2 = true -> cont 128 191 b3 = true ->
  encode_rune (Z.lor (Z.shiftl (Z.land (byte_val b0) 7) 18) (Z.lor (Z.shiftl (low6 b1) 12) (Z.lor (Z.shiftl (low6 b2) 6) (low6 b3))))
  = String b0 (String b1 (String b2 (String b3 ""))).
Proof.
  intros H0 H1 H2 H3. assert (Hs := scalar4 _ _ _ _ H0 H1 H2 H3). apply low6_cont in H3 as [E3 H3]; [|lia..]. apply low6_cont in H2 as [E2 H2]; [|lia..].
  apply low6_cont in H1 as [E1 H1]; [|by destruct (_ =? 240)|by destruct (_ =? 244)]. rewrite E1, E2, E3 in *.
  assert (Hb1 : 128 <= byte_val b1 <= 191) by (destruct (_ =? 240), (_ =? 244); lia).
  assert (Hlo : byte_val b0 = 240 -> 144 <= byte_val b1) by (intros E; rewrite E in H1; cbn in H1; lia).
  set (r := Z.lor _ _) in *.
  assert (Hr : r = (byte_val b0 - 240) * 262144 + (byte_val b1 - 128) * 4096 + (byte_val b2 - 128) * 64 + (byte_val b3 - 128)).
  { unfold r. change 7 with (Z.ones 3). rewrite land_ones_mod by lia. change (2 ^ 3) with 8.
    rewrite (lor_shift _ _ 6), (lor_shift _ _ 12), (lor_shift _ _ 18) by pow_zdiv.
    change (2 ^ 6) with 64. change (2 ^ 12) with 4096. change (2 ^ 18) with 262144. clear H1 Hs Hlo. zdiv. }
  clearbody r. clear H1. unfold encode_rune, scalar in *.
  replace ((r <? 0) || (1114111 <? r) || ((55296 <=? r) && (r <=? 57343))) with false by lia.
  replace (r <? 128) with false by lia. replace (r <? 2048) with false by lia. replace (r <? 65536) with false by lia.
  clear Hs Hlo. rewrite !Z.shiftr_div_pow2 by lia. change (2 ^ 6) with 64. change (2 ^ 12) with 4096. change (2 ^ 18) with 262144.
  rewrite (byte_cont r b3) by (try lia; zdiv). rewrite (byte_cont (r / 64) b2) by (try lia; zdiv). rewrite (byte_cont (r / 4096) b1) by (try lia; zdiv). f_equal.
  apply (byte_lead 30 3); change (2 ^ 3) with 8; [lia|zdiv|zdiv].
Qed.

Definition bad_lead (b : ascii) (s : string) : Prop :=
  segments (String b s) = (rune_error, String b "") :: segments s.

(** A byte that starts no rune still starts none when less follows it. *)
Lemma bad_lead_front b s u : 128 <= byte_val b -> bad_lead b (s +:+ u) -> bad_lead b s.
Proof.
  unfold bad_lead. intros Hb. cbn [segments].
  replace (byte_val b <? 128) with false by lia.
  destruct ((194 <=? _) && _); [|destruct ((224 <=? _) && _); [|destruct ((240 <=? _) && _); [|done]]].
  - destruct s as [|b1 s1]; [done|]. rewrite string_app_cons. by destruct (cont _ _ b1).
  - destruct s as [|b1 [|b2 s2]]; [done..|]. rewrite !string_app_cons. by destruct (cont _ _ b1 && _).
  - destruct s as [|b1 [|b2 [|b3 s3]]]; [done..|]. rewrite !string_app_cons. by destruct (cont _ _ b1 && _ && _).
Qed.

(** How a text is decoded: nothing, or one rune whose bytes are decoded so
    whatever follows them, or one byte that starts no rune. *)
Lemma segments_cases s :
  s = "" \/
  (exists r p s1, s = p +:+ s1 /\ p <> "" /\ p = encode_rune r /\ (forall t, segments (p +:+ t) = (r, p) :: segments t)) \/
  (exists b s1, s = String b s1 /\ 128 <= byte_val b /\ bad_lead b s1).
Proof.
  destruct s as [|b0 s0]; [by left|right].
  assert (Hbad : 128 <= byte_val b0 -> bad_lead b0 s0 ->
    exists b s1, String b0 s0 = String b s1 /\ 128 <= byte_val b /\ bad_lead b s1) by eauto.
  destruct (byte_val b0 <? 128) eqn:H1.
  { left. exists (byte_val b0), (String b0 ""), s0. split; [done|]. split; [done|]. split; [symmetry; apply encode_ascii; lia|]. intros t. rewrite ?string_app_cons. change ("" +:+ t) with t. cbn [segments]. by rewrite H1. }
  assert (Hb : 128 <= byte_val b0) by lia. specialize (Hbad Hb). unfold bad_lead in Hbad. cbn [segments] in Hbad. rewrite H1 in Hbad.
  destruct ((194 <=? byte_val b0) && (byte_val b0 <=? 223)) eqn:H2.
  { destruct s0 as [|b1 s1]; [by right; apply Hbad|]. destruct (cont _ _ b1) eqn:Hc; [|by right; apply Hbad].
    left. eexists _, (String b0 (String b1 "")), s1. split; [done|]. split; [done|]. split; [symmetry; apply encode2; [lia|done]|]. intros t. rewrite ?string_app_cons. change ("" +:+ t) with t. cbn [segments]. by rewrite H1, H2, Hc. }
  destruct ((224 <=? byte_val b0) && (byte_val b0 <=? 239)) eqn:H3.
  { destruct s0 as [|b1 [|b2 s2]]; [by right; apply Hbad..|]. destruct (cont _ _ b1 && _) eqn:Hc; [|by right; apply Hbad].
    left. eexists _, (String b0 (String b1 (String b2 ""))), s2. split; [done|]. split; [done|].
    apply andb_true_iff in Hc as Hc'. split; [symmetry; apply encode3; [lia|tauto..]|]. intros t. rewrite ?string_app_cons. change ("" +:+ t) with t. cbn [segments]. by rewrite H1, H2, H3, Hc. }
  destruct ((240 <=? byte_val b0) && (byte_val b0 <=? 244)) eqn:H4; [|by right; apply Hbad].
  destruct s0 as [|b1 [|b2 [|b3 s3]]]; [by right; apply Hbad..|]. destruct (cont _ _ b1 && _ && _) eqn:Hc; [|by right; apply Hbad].
  left. eexists _, (String b0 (String b1 (String b2 (String b3 "")))), s3. split; [done|]. split; [done|].
  assert (Hc' := Hc). rewrite !andb_true_iff in Hc'. split; [symmetry; apply encode4; [lia|tauto..]|]. intros t. rewrite ?string_app_cons. change ("" +:+ t) with t. cbn [segments]. by rewrite H1, H2, H3, H4, Hc.
Qed.

(** Cutting a text between two of its runes does not change how its parts
    are decoded. *)
Lemma segments_take s n : segments (bytes_of (take n (segments s))) = take n (segments s).
Proof.
  revert n. induction s as [s IH] using (induction_ltof1 _ String.length); unfold ltof in IH.
  intros [|n]; [done|].
  destruct (segments_cases s) as [->|[(r & p & s1 & -> & Hp & _ & Hseg)|(b & s1 & -> & Hb & Hseg)]]; [done| |].
  - rewrite Hseg. cbn [take bytes_of foldr snd]. fold (bytes_of (take n (segments s1))). rewrite Hseg. f_equal. apply IH.
    rewrite string_length_app. destruct p; [done|cbn; lia].
  - assert (H0 := IH s1 ltac:(cbn; lia) n).
    unfold bad_lead in Hseg. rewrite Hseg. cbn [take bytes_of foldr snd]. fold (bytes_of (take n (segments s1))).
    rewrite string_app_cons. change ("" +:+ ?x) with x. rewrite <- H0 at 2.
    apply (bad_lead_front _ _ (bytes_of (drop n (segments s1)))); [done|].
    rewrite <- bytes_of_app, take_drop, bytes_of_segments. exact Hseg.
Qed.

Lemma segments_drop s n : segments (bytes_of (drop n (segments s))) = drop n (segments s).
Proof.
  revert n. induction s as [s IH] using (induction_ltof1 _ String.length); unfold ltof in IH.
  intros [|n]; [by rewrite drop_0, bytes_of_segments|].
  destruct (segments_cases s) as [->|[(r & p & s1 & -> & Hp & _ & Hseg)|(b & s1 & -> & Hb & Hseg)]]; [done| |].
  - rewrite Hseg. cbn [drop]. apply IH. rewrite string_length_app. destruct p; [done|cbn; lia].
  - unfold bad_lead in Hseg. rewrite Hseg. cbn [drop]. apply IH. cbn. lia.
Qed.

Lemma drop_while_drop {A} (p : A -> bool) l : exists n, drop_while p l = drop n l.
Proof. induction l as [|x l [n IH]]; [by exists 0%nat|]. cbn. destruct (p x); [by exists (S n)|by exists 0%nat]. Qed.

Lemma drop_while_head {A} (p : A -> bool) l : match drop_while p l with x :: _ => p x = false | [] => True end.
Proof. induction l as [|x l IH]; [done|]. cbn. by destruct (p x) eqn:Hx. Qed.

Lemma drop_while_fixed {A} (p : A -> bool) l : match l with x :: _ => p x = false | [] => True end -> drop_while p l = l.
Proof. destruct l as [|x l]; [done|]. cbn. by intros ->. Qed.

(** The segments of a trimmed text, and that trimming it again does nothing. *)
Lemma trim_space_segments s :
  segments (trim_space s) = reverse (drop_while seg_space (reverse (drop_while seg_space (segments s)))).
Proof.
  unfold trim_space. destruct (drop_while_drop seg_space (segments s)) as [n ->].
  destruct (drop_while_drop seg_space (reverse (drop n (segments s)))) as [k ->].
  rewrite reverse_drop, reverse_involutive, <- segments_drop. apply segments_take.
Qed.

Lemma trim_space_idem s : trim_space (trim_space s) = trim_space s.
Proof.
  unfold trim_space at 1. rewrite trim_space_segments. set (l := drop_while seg_space (segments s)).
  assert (Hl := drop_while_head seg_space (segments s)). fold l in Hl.
  set (m := drop_while seg_space (reverse l)).
  assert (Hm := drop_while_head seg_space (reverse l)). fold m in Hm.
  assert (Hf : match reverse m with x :: _ => seg_space x = false | [] => True end).
  { destruct (drop_while_drop seg_space (reverse l)) as [k Hk]. unfold m. rewrite Hk, reverse_drop, reverse_involutive.
    match goal with |- context [take ?n _] => destruct n as [|j] end; [done|]. by destruct l. }
  rewrite (drop_while_fixed _ _ Hf), reverse_involutive, (drop_while_fixed _ _ Hm). done.
Qed.

(** Every rune of a text stands there as its encoding, or as one byte that
    starts no rune. *)
Definition whole_seg (q : Z * string) : Prop :=
  q.2 = encode_rune q.1 \/ exists b, q = (rune_error, String b "") /\ 128 <= byte_val b.

Lemma segments_whole s : Forall whole_seg (segments s).
Proof.
  induction s as [s IH] using (induction_ltof1 _ String.length); unfold ltof in IH.
  destruct (segments_cases s) as [->|[(r & p & s1 & -> & Hp & Henc & Hseg)|(b & s1 & -> & Hb & Hseg)]]; [constructor| |].
  - rewrite Hseg. constructor; [by left|]. apply IH. rewrite string_length_app. destruct p; [done|cbn; lia].
  - unfold bad_lead in Hseg. rewrite Hseg. constructor; [right; by exists b|]. apply IH. cbn. lia.
Qed.

(** ** Texts without some bytes below 128 *)

Definition no_bytes (f : Z -> bool) (s : string) : bool := all_bytes (fun b => negb (f b)) s.
Definition low_set (f : Z -> bool) : Prop := forall b, f b = true -> 0 <= b < 128.
Lemma no_bytes_app f s t : no_bytes f (s +:+ t) = no_bytes f s && no_bytes f t.
Proof. apply all_bytes_app. Qed.
Lemma no_bytes_sub (f g : Z -> bool) s : (forall b, g b = true -> f b = true) -> no_bytes f s = true -> no_bytes g s = true.
Proof. intros Hfg. apply all_bytes_impl. intros b. rewrite !negb_true_iff. destruct (g b) eqn:Hg; [|done]. by rewrite (Hfg b Hg). Qed.
Lemma no_bytes_runes f s : low_set f -> no_bytes f s = true -> Forall (fun q => f q.1 = false) (segments s).
Proof.
  intros Hf. unfold no_bytes. induction s as [s IH] using (induction_ltof1 _ String.length); unfold ltof in IH.
  destruct (segments_cases s) as [->|[(r & p & s1 & -> & Hp & Henc & Hseg)|(b & s1 & -> & Hb & Hseg)]]; [by constructor| |].
  - rewrite all_bytes_app, andb_true_iff. intros [Hb Hs]. rewrite Hseg. constructor.
    + cbn. destruct (f r) eqn:Hr; [|done]. pose proof (Hf r Hr) as Hr'. rewrite Henc, encode_low in Hb by (unfold scalar; lia). cbn in Hb. rewrite byte_val_of, Hr in Hb by lia. done.
    + apply IH; [rewrite string_length_app; destruct p; [done|cbn; lia]|done].
  - cbn [all_bytes]. rewrite andb_true_iff. intros [_ Hs]. unfold bad_lead in Hseg. rewrite Hseg. constructor.
    + cbn. destruct (f rune_error) eqn:Hr; [|done]. specialize (Hf _ Hr). unfold rune_error in Hf. lia.
    + apply IH; [cbn; lia|done].
Qed.
Lemma all_bytes_segments p l : all_bytes p (bytes_of l) = forallb (fun q => all_bytes p q.2) l.
Proof. induction l as [|q l IH]; [done|]. unfold bytes_of in *. cbn. by rewrite all_bytes_app, IH. Qed.
Lemma no_bytes_trim f s : no_bytes f s = true -> no_bytes f (trim_space s) = true.
Proof.
  unfold no_bytes. rewrite <- (bytes_of_segments s) at 1. unfold trim_space. rewrite !all_bytes_segments, !forallb_elem.
  intros Hs q Hq. apply Hs. rewrite elem_of_reverse in Hq.
  destruct (drop_while_drop seg_space (reverse (drop_while seg_space (segments s)))) as [k Hk]. rewrite Hk in Hq.
  apply subseteq_drop in Hq. rewrite elem_of_reverse in Hq. destruct (drop_while_drop seg_space (segments s)) as [j Hj]. rewrite Hj in Hq. by apply subseteq_drop in Hq.
Qed.
