(* ===== verification/RegexFind.v ===== *)
(** * Finding regular expressions

    [FindAllStringSubmatch] and [ReplaceAllString] of package [regexp]: the
    leftmost match, the first in the order of the pattern (greedy or lazy),
    with the text of its groups.  A match is one in the sense of [Regex], and a
    place without a match has none. *)

From S2P Require Import Prelude GoStrings Regex GoText.
#[local] Open Scope Z_scope.

Abbreviation seg := (Z * string)%type.
Definition caps : Type := list (nat * string).

(** A literal character apart from other classes; groups have their numbers. *)
Inductive pat :=
  | PEps
  | PChr (c : Z)
  | PCls (f : Z -> bool)
  | PSeq (a b : pat)
  | PAlt (a b : pat)
  | PStar (greedy : bool) (a : pat)
  | PCap (i : nat) (a : pat).

(** The pattern without priorities and groups. *)
Fixpoint erase (e : pat) : re :=
  match e with
  | PEps => REps
  | PChr c => RCls (Z.eqb c)
  | PCls f => RCls f
  | PSeq a b => RSeq (erase a) (erase b)
  | PAlt a b => RAlt (erase a) (erase b)
  | PStar _ a => RStar (erase a)
  | PCap _ a => erase a
  end.

(** ** The matcher *)

(** The text from [s] to its rest [s']. *)
Definition upto (s s' : list seg) : list seg := take (length s - length s') s.

(** A repetition of [ma]: each round takes something. *)
Fixpoint star_run {R} (ma : list seg -> caps -> (list seg -> caps -> option R) -> option R) (greedy : bool) (n : nat)
    (s : list seg) (c : caps) (k : list seg -> caps -> option R) : option R :=
  match n with
  | O => k s c
  | S n' =>
      if greedy then
        match ma s c (fun s' c' => if (length s' <? length s)%nat then star_run ma greedy n' s' c' k else None) with
        | Some r => Some r
        | None => k s c
        end
      else
        match k s c with
        | Some r => Some r
        | None => ma s c (fun s' c' => if (length s' <? length s)%nat then star_run ma greedy n' s' c' k else None)
        end
  end.

Fixpoint run {R} (e : pat) (s : list seg) (c : caps) (k : list seg -> caps -> option R) : option R :=
  match e with
  | PEps => k s c
  | PChr d => match s with q :: s' => if d =? q.1 then k s' c else None | [] => None end
  | PCls f => match s with q :: s' => if f q.1 then k s' c else None | [] => None end
  | PSeq a b => run a s c (fun s' c' => run b s' c' k)
  | PAlt a b => match run a s c k with Some r => Some r | None => run b s c k end
  | PStar greedy a => star_run (run a) greedy (length s) s c k
  | PCap i a => run a s c (fun s' c' => k s' ((i, bytes_of (upto s s')) :: c'))
  end.

(** The match at the head of a text: its rest and its groups. *)
Definition match_here (e : pat) (s : list seg) : option (list seg * caps) := run e s [] (fun s' c => Some (s', c)).

(** The text in pieces: what is passed over, and the matches. *)
Inductive found := Plain (q : seg) | Hit (u : list seg) (c : caps).
Fixpoint scan (e : pat) (skip : nat) (s : list seg) : list found :=
  match s with
  | [] => []
  | q :: s' =>
      match skip with
      | S k => scan e k s'
      | O =>
          match match_here e s with
          | Some (rest, c) =>
              if (length rest <? length s)%nat then Hit (upto s rest) c :: scan e (length s - length rest - 1) s'
              else Plain q :: scan e 0 s'
          | None => Plain q :: scan e 0 s'
          end
      end
  end.
Definition kept (l : list found) : list seg := omap (fun p => match p with Plain q => Some q | Hit _ _ => None end) l.
Definition hits (l : list found) : list caps := omap (fun p => match p with Hit _ c => Some c | Plain _ => None end) l.
Definition FindAll (e : pat) (s : string) : list caps := hits (scan e 0 (segments s)).
(** [ReplaceAllString(s, "")] *)
Definition RemoveAll (e : pat) (s : string) : string := bytes_of (kept (scan e 0 (segments s))).
(** [match[i]]; a group that took no part is the empty text. *)
Definition group (i : nat) (c : caps) : string := match find (fun p => bool_decide (p.1 = i)) c with Some p => p.2 | None => "" end.

(** ** Building patterns *)

Definition pseq (l : list pat) : pat := foldr PSeq PEps l.
Fixpoint palts (a : pat) (l : list pat) : pat := match l with [] => a | b :: l => PAlt a (palts b l) end.
Definition popt (a : pat) : pat := PAlt a PEps.
Definition pplus (a : pat) : pat := PSeq a (PStar true a).
Definition plit (s : string) : pat := pseq (PChr <$> runes s).
Definition plit_i (s : string) : pat := pseq ((fun c => PCls (fold_eq c)) <$> runes s).
Definition pspace : pat := PCls (fun r => (r =? 9) || (r =? 10) || (r =? 12) || (r =? 13) || (r =? 32)).
Definition pany : pat := PCls (fun _ => true).
Definition lazy_any : pat := PStar false pany.

(** ** Soundness *)

Lemma upto_app u s' : upto (u ++ s') s' = u.
Proof. unfold upto. rewrite length_app. replace (length u + length s' - length s')%nat with (length u) by lia. apply take_app_length. Qed.

(** Part of a text, as one piece. *)
Definition part (u : list seg) (t : string) : Prop := exists pre mid post, u = pre ++ mid ++ post /\ t = bytes_of mid.
Definition parts (u : list seg) (c c' : caps) : Prop := exists new, c' = new ++ c /\ Forall (fun p => part u p.2) new.
Lemma parts_refl u c : parts u c c.
Proof. exists []. split; [done|constructor]. Qed.
Lemma part_app_l u v t : part u t -> part (u ++ v) t.
Proof. intros (a & b & d & -> & ->). exists a, b, (d ++ v). by rewrite <- !app_assoc. Qed.
Lemma part_app_r u v t : part v t -> part (u ++ v) t.
Proof. intros (a & b & d & -> & ->). exists (u ++ a), b, d. by rewrite <- !app_assoc. Qed.
Lemma parts_app u v c1 c2 c3 : parts u c1 c2 -> parts v c2 c3 -> parts (u ++ v) c1 c3.
Proof.
  intros (n1 & -> & H1) (n2 & -> & H2). exists (n2 ++ n1). split; [by rewrite app_assoc|].
  apply Forall_app. split; eapply Forall_impl; [exact H2|intros; by apply part_app_r|exact H1|intros; by apply part_app_l].
Qed.

(** What a successful run did before it went on. *)
Definition took {R} (P : list Z -> Prop) (s : list seg) (c : caps) (k : list seg -> caps -> option R) (r : R) : Prop :=
  exists u s' c', s = u ++ s' /\ P (u.*1) /\ parts u c c' /\ k s' c' = Some r.
Lemma star_run_sound {R} (ma : list seg -> caps -> (list seg -> caps -> option R) -> option R) a g n s c k r :
  (forall s c k r, ma s c k = Some r -> took (matches a) s c k r) ->
  star_run ma g n s c k = Some r -> took (matches (RStar a)) s c k r.
Proof.
  intros Hma. revert s c r. induction n as [|n IH]; intros s c r.
  { intros Hk. exists [], s, c. split_and!; [done|constructor|apply parts_refl|done]. }
  assert (Hdone : k s c = Some r -> took (matches (RStar a)) s c k r)
    by (intros Hk; exists [], s, c; split_and!; [done|constructor|apply parts_refl|done]).
  assert (Hmore : ma s c (fun s' c' => if (length s' <? length s)%nat then star_run ma g n s' c' k else None) = Some r ->
    took (matches (RStar a)) s c k r).
  { intros (u & s' & c' & -> & Hu & Hp & Hk)%Hma. destruct (_ <? _)%nat; [|done]. apply IH in Hk as (v & s2 & c2 & -> & Hv & Hp' & Hk).
    exists (u ++ v), s2, c2. rewrite fmap_app. split_and!; [by rewrite app_assoc|by constructor|by eapply parts_app|done]. }
  cbn [star_run]. destruct g.
  - destruct (ma s c _) as [x|]; [intros [= ->]; by apply Hmore|apply Hdone].
  - destruct (k s c) as [x|]; [intros [= ->]; by apply Hdone|apply Hmore].
Qed.
Lemma run_sound {R} e s c (k : list seg -> caps -> option R) r : run e s c k = Some r -> took (matches (erase e)) s c k r.
Proof.
  revert s c k r. induction e as [|d|f|a IHa b IHb|a IHa b IHb|g a IHa|i a IHa]; intros s c k r; cbn [run erase].
  - intros Hk. exists [], s, c. split_and!; [done|constructor|apply parts_refl|done].
  - destruct s as [|q s]; [done|]. destruct (d =? q.1) eqn:Hq; [|done]. intros Hk. exists [q], s, c. cbn. split_and!; [done|by constructor|apply parts_refl|done].
  - destruct s as [|q s]; [done|]. destruct (f q.1) eqn:Hq; [|done]. intros Hk. exists [q], s, c. cbn. split_and!; [done|by constructor|apply parts_refl|done].
  - intros (u & s1 & c1 & -> & Hu & Hp & (v & s2 & c2 & -> & Hv & Hp' & Hk)%IHb)%IHa.
    exists (u ++ v), s2, c2. rewrite fmap_app. split_and!; [by rewrite app_assoc|by constructor|by eapply parts_app|done].
  - destruct (run a s c k) as [x|] eqn:Ha.
    + intros [= ->]. apply IHa in Ha as (u & s1 & c1 & -> & Hu & Hp & Hk). exists u, s1, c1. split_and!; [done|by apply m_alt_l|done..].
    + intros (u & s1 & c1 & -> & Hu & Hp & Hk)%IHb. exists u, s1, c1. split_and!; [done|by apply m_alt_r|done..].
  - apply star_run_sound, IHa.
  - intros (u & s1 & c1 & -> & Hu & (new & -> & Hnew) & Hk)%IHa. rewrite upto_app in Hk. exists u, s1, ((i, bytes_of u) :: new ++ c).
    split_and!; [done..| |done]. exists ((i, bytes_of u) :: new). split; [done|]. constructor; [|done].
    exists [], u, []. by rewrite app_nil_r.
Qed.

(** ** Completeness *)

Lemma matches_eps_inv l : matches REps l -> l = [].
Proof. intros H. by inversion H. Qed.
Lemma matches_cls_list f l : matches (RCls f) l -> exists r, l = [r] /\ f r = true.
Proof. intros H. inversion H; subst. eauto. Qed.
Lemma matches_cls_inv f (u : list seg) : matches (RCls f) (u.*1) -> exists q, u = [q] /\ f q.1 = true.
Proof. intros (r & Hu & Hr)%matches_cls_list. destruct u as [|q [|]]; [done| |done]. injection Hu as <-. eauto. Qed.
Lemma star_run_complete {R} (ma : list seg -> caps -> (list seg -> caps -> option R) -> option R) a g n s s' u c (k : list seg -> caps -> option R) :
  (forall u s s' c k, s = u ++ s' -> matches a (u.*1) -> (forall c', k s' c' <> None) -> ma s c k <> None) ->
  s = u ++ s' -> matches (RStar a) (u.*1) -> (forall c', k s' c' <> None) -> (length s <= n)%nat -> star_run ma g n s c k <> None.
Proof.
  intros Hma. revert s u c. induction n as [|n IH]; intros s u c -> Hu Hk Hn.
  { destruct u; [|cbn in Hn; lia]. apply Hk. }
  assert (Hmore : u <> [] -> ma (u ++ s') c (fun s2 c' => if (length s2 <? length (u ++ s'))%nat then star_run ma g n s2 c' k else None) <> None).
  { destruct u as [|q u]; [done|]. intros _. cbn in Hu. apply matches_star_cons in Hu as (v & w & Hvw & Hv & Hw).
    apply fmap_app_inv in Hvw as (l1 & l2 & -> & -> & ->). eapply (Hma (q :: l1) _ (l2 ++ s')); [by rewrite app_comm_cons, app_assoc|done|].
    intros c'. rewrite (proj2 (Nat.ltb_lt _ _)) by (cbn; rewrite !length_app; lia). eapply IH; [done|done|done|].
    cbn in Hn. rewrite !length_app in Hn. rewrite !length_app. lia. }
  cbn [star_run]. destruct g.
  - destruct (ma _ c _) eqn:Hm; [done|]. destruct u as [|q u]; [apply Hk|]. by destruct (Hmore ltac:(done)).
  - destruct (k (u ++ s') c) eqn:Hk0; [done|]. destruct u as [|q u]; [by destruct (Hk c)|]. by apply Hmore.
Qed.
Lemma run_complete {R} e s s' u c (k : list seg -> caps -> option R) :
  s = u ++ s' -> matches (erase e) (u.*1) -> (forall c', k s' c' <> None) -> run e s c k <> None.
Proof.
  revert s s' u c k. induction e as [|d|f|a IHa b IHb|a IHa b IHb|g a IHa|i a IHa]; intros s s' u c k -> Hu Hk; cbn [run erase] in *.
  - apply matches_eps_inv, fmap_nil_inv in Hu as ->. apply Hk.
  - apply matches_cls_inv in Hu as (q & -> & Hq). cbn. rewrite Hq. apply Hk.
  - apply matches_cls_inv in Hu as (q & -> & Hq). cbn. rewrite Hq. apply Hk.
  - apply matches_seq_inv in Hu as (v & w & Hvw & Hv & Hw). apply fmap_app_inv in Hvw as (l1 & l2 & -> & -> & ->).
    eapply (IHa _ (l2 ++ s') l1); [by rewrite app_assoc|done|]. intros c'. by eapply (IHb _ s' l2).
  - apply matches_alt_inv in Hu as [Hu|Hu].
    + specialize (IHa _ _ _ c k eq_refl Hu Hk). by destruct (run a _ c k).
    + destruct (run a _ c k); [done|]. by eapply IHb.
  - eapply star_run_complete; [|done|done|done|done]. intros. by eapply IHa.
  - eapply (IHa _ s' u); [done|done|]. intros c'. apply Hk.
Qed.

(** ** Scanning *)

Lemma match_here_sound e s rest c : match_here e s = Some (rest, c) ->
  exists u, s = u ++ rest /\ matches (erase e) (u.*1) /\ Forall (fun p => part u p.2) c.
Proof. intros (u & s' & c' & -> & Hu & (new & -> & Hnew) & [= <- <-])%run_sound. exists u. rewrite app_nil_r. done. Qed.
Lemma match_here_none e s : match_here e s = None <-> forall u rest, s = u ++ rest -> ~ matches (erase e) (u.*1).
Proof.
  split.
  - intros Hn u rest Hs Hu. by apply (run_complete e s rest u [] (fun s' c => Some (s', c))) in Hu.
  - intros Hn. destruct (match_here e s) as [[rest c]|] eqn:Hm; [|done]. apply match_here_sound in Hm as (u & Hs & Hu & _). by destruct (Hn u rest).
Qed.

Definition found_text (p : found) : list seg := match p with Plain q => [q] | Hit u _ => u end.
Lemma scan_skip e k s : scan e k s = scan e 0 (drop k s).
Proof. revert s. induction k as [|k IH]; intros [|q s]; try done. cbn. apply IH. Qed.
(** The pieces are the text, and every match is one. *)
Lemma scan_pieces e s : concat (found_text <$> scan e 0 s) = s /\
  Forall (fun p => match p with Hit u c => u <> [] /\ matches (erase e) (u.*1) /\ Forall (fun p => part u p.2) c | Plain _ => True end) (scan e 0 s).
Proof.
  induction s as [s IH] using (induction_ltof1 _ length). unfold ltof in IH. destruct s as [|q s]; [by split; [|constructor]|].
  cbn [scan]. assert (concat (found_text <$> Plain q :: scan e 0 s) = q :: s /\ Forall (fun p => match p with Hit u c => u <> [] /\
     matches (erase e) (u.*1) /\ Forall (fun p => part u p.2) c | Plain _ => True end) (Plain q :: scan e 0 s)) as Hplain.
  { destruct (IH s) as [Hc Hf]; [cbn; lia|]. split; [cbn; by f_equal|by constructor]. }
  destruct (match_here e (q :: s)) as [[rest c]|] eqn:Hm; [|done]. destruct (Nat.ltb_spec (length rest) (length (q :: s))) as [Hl|Hl]; [|done].
  apply match_here_sound in Hm as (u & Hs & Hu & Hc). rewrite Hs, upto_app. destruct u as [|q' u]; [rewrite Hs in Hl; cbn in Hl; lia|].
  injection Hs as <- ->. cbn [app length]. rewrite scan_skip, length_app.
  replace (drop (S (length u + length rest) - length rest - 1) (u ++ rest)) with rest
    by (replace (S (length u + length rest) - length rest - 1)%nat with (length u) by lia; by rewrite drop_app_length).
  destruct (IH rest) as [Hc' Hf]; [cbn; rewrite length_app; lia|]. split; [cbn [fmap list_fmap concat found_text]; by rewrite Hc'|].
  constructor; [|done]. split_and!; done.
Qed.
(** No match begins where the text was passed over. *)
Lemma scan_none e s : (forall u rest, s = u ++ rest -> match_here e rest = None) -> scan e 0 s = Plain <$> s.
Proof.
  induction s as [|q s IH]; intros Hn; [done|]. cbn [scan]. rewrite (Hn [] (q :: s) eq_refl). cbn. f_equal. apply IH.
  intros u rest ->. by apply (Hn (q :: u)).
Qed.

(** A character of [f] that every match contains, or begins with. *)
Fixpoint needs (f : Z -> bool) (e : pat) : bool :=
  match e with
  | PChr d => f d
  | PSeq a b => needs f a || needs f b
  | PAlt a b => needs f a && needs f b
  | PCap _ a => needs f a
  | PEps | PCls _ | PStar _ _ => false
  end.
Fixpoint leads (f : Z -> bool) (e : pat) : bool :=
  match e with
  | PChr d => f d
  | PSeq a b => leads f a
  | PAlt a b => leads f a && leads f b
  | PCap _ a => leads f a
  | PEps | PCls _ | PStar _ _ => false
  end.
Lemma matches_chr_list d l : matches (RCls (Z.eqb d)) l -> l = [d].
Proof. intros (r & -> & ->%Z.eqb_eq)%matches_cls_list. done. Qed.
Lemma needs_spec f e l : needs f e = true -> matches (erase e) l -> exists c, f c = true /\ c ∈ l.
Proof.
  revert l. induction e as [|d|g|a IHa b IHb|a IHa b IHb|g a IHa|i a IHa]; intros l; cbn; try done.
  - intros Hf ->%matches_chr_list. exists d. split; [done|left].
  - intros Hn (v & w & -> & Hv & Hw)%matches_seq_inv. apply orb_true_iff in Hn as [Hn|Hn].
    + destruct (IHa v Hn Hv) as (c & ? & ?). exists c. rewrite elem_of_app. auto.
    + destruct (IHb w Hn Hw) as (c & ? & ?). exists c. rewrite elem_of_app. auto.
  - intros [Ha Hb]%andb_true_iff [Hl|Hl]%matches_alt_inv; auto.
  - apply IHa.
Qed.
Lemma leads_spec f e l : leads f e = true -> matches (erase e) l -> exists c l', l = c :: l' /\ f c = true.
Proof.
  revert l. induction e as [|d|g|a IHa b IHb|a IHa b IHb|g a IHa|i a IHa]; intros l; cbn; try done.
  - intros Hf ->%matches_chr_list. eauto.
  - intros Hn (v & w & -> & Hv & Hw)%matches_seq_inv. destruct (IHa v Hn Hv) as (c & l' & -> & ?). exists c, (l' ++ w). done.
  - intros [Ha Hb]%andb_true_iff [Hl|Hl]%matches_alt_inv; auto.
  - apply IHa.
Qed.
(** A text without the characters of [f]. *)
Definition free (f : Z -> bool) (s : list seg) : Prop := Forall (fun q => f q.1 = false) s.
Lemma free_app f s t : free f (s ++ t) <-> free f s /\ free f t.
Proof. apply Forall_app. Qed.
Lemma free_cons f q s : free f (q :: s) <-> f q.1 = false /\ free f s.
Proof. unfold free. by rewrite Forall_cons. Qed.
Lemma absent_none f e s : needs f e = true -> free f s -> scan e 0 s = Plain <$> s.
Proof.
  intros Hn Hc. apply scan_none. intros u rest ->. apply match_here_none. intros v w -> Hv.
  destruct (needs_spec f e _ Hn Hv) as (c & Hf & (q & -> & Hq)%list_elem_of_fmap). unfold free in Hc. rewrite !Forall_app in Hc.
  destruct Hc as (_ & Hc & _). rewrite Forall_forall in Hc. by rewrite (Hc q Hq) in Hf.
Qed.
(** What no match begins with is passed over. *)
Lemma scan_over f e s s' : leads f e = true -> free f s -> scan e 0 (s ++ s') = (Plain <$> s) ++ scan e 0 s'.
Proof.
  intros Hl. induction s as [|q s IH]; intros Hf; [done|]. inversion_clear Hf as [|? ? Hq Hs]. cbn [app scan].
  destruct (match_here e (q :: s ++ s')) as [[rest c]|] eqn:Hm.
  - apply match_here_sound in Hm as (u & Hu & Hm & _). destruct (leads_spec f e _ Hl Hm) as (d & l' & Hd & Hfd).
    destruct u as [|q' u]; [done|]. injection Hu as <- _. injection Hd as <- _. congruence.
  - cbn. f_equal. by apply IH.
Qed.
Lemma leads_none {R} f e s c (k : list seg -> caps -> option R) : leads f e = true ->
  match s with q :: _ => f q.1 = false | [] => True end -> run e s c k = None.
Proof.
  intros Hl Hs. destruct (run e s c k) as [r|] eqn:Hr; [|done]. apply run_sound in Hr as (u & s' & c' & -> & Hm & _).
  destruct (leads_spec f e _ Hl Hm) as (d & l' & Hd & Hfd). destruct u as [|q u]; [done|]. injection Hd as Hq _. cbn in Hs. congruence.
Qed.
(** What is matched is cut out. *)
Lemma scan_hit e u s' c : u <> [] -> match_here e (u ++ s') = Some (s', c) -> scan e 0 (u ++ s') = Hit u c :: scan e 0 s'.
Proof.
  destruct u as [|q u]; [done|]. intros _ Hm. cbn [app scan] in *. rewrite Hm, (proj2 (Nat.ltb_lt _ _)) by (cbn; rewrite length_app; lia).
  change (q :: u ++ s') with ((q :: u) ++ s'). rewrite upto_app. f_equal. cbn [app length]. rewrite scan_skip, length_app.
  replace (S (length u + length s') - length s' - 1)%nat with (length u) by lia. by rewrite drop_app_length.
Qed.
Lemma scan_miss e q s' : match_here e (q :: s') = None -> scan e 0 (q :: s') = Plain q :: scan e 0 s'.
Proof. intros Hm. cbn [scan]. by rewrite Hm. Qed.

Lemma kept_app l m : kept (l ++ m) = kept l ++ kept m.
Proof. apply omap_app. Qed.
Lemma hits_app l m : hits (l ++ m) = hits l ++ hits m.
Proof. apply omap_app. Qed.
Lemma kept_hit u c l : kept (Hit u c :: l) = kept l.
Proof. done. Qed.
Lemma hits_hit u c l : hits (Hit u c :: l) = c :: hits l.
Proof. done. Qed.
Lemma kept_plain s : kept (Plain <$> s) = s.
Proof. induction s as [|q s IH]; [done|]. cbn. f_equal. exact IH. Qed.
Lemma hits_plain s : hits (Plain <$> s) = [].
Proof. by induction s. Qed.
Lemma FindAll_absent f e s : needs f e = true -> free f (segments s) -> FindAll e s = [].
Proof. intros Hn Hc. unfold FindAll. rewrite (absent_none f) by done. apply hits_plain. Qed.
Lemma RemoveAll_absent f e s : needs f e = true -> free f (segments s) -> RemoveAll e s = s.
Proof. intros Hn Hc. unfold RemoveAll. rewrite (absent_none f) by done. by rewrite kept_plain, bytes_of_segments. Qed.

(** ** Repetitions of a class *)

(** A greedy one takes all it can when what follows goes on from there. *)
Lemma star_greedy {R} f u s' c (k : list seg -> caps -> option R) r : Forall (fun q => f q.1 = true) u ->
  match s' with q :: _ => f q.1 = false | [] => True end -> k s' c = Some r -> run (PStar true (PCls f)) (u ++ s') c k = Some r.
Proof.
  intros Hu Hs Hk. cbn [run]. assert (Hn : (length u <= length (u ++ s'))%nat) by (rewrite length_app; lia).
  revert Hn. generalize (length (u ++ s')). induction Hu as [|q u Hq Hu IH]; intros n Hn.
  - destruct n as [|n]; cbn [star_run app]; [done|]. destruct s' as [|q s']; cbn [run]; [done|]. by rewrite Hs.
  - destruct n as [|n]; [cbn in Hn; lia|]. cbn [star_run app run]. rewrite Hq, (proj2 (Nat.ltb_lt _ _)) by (cbn; lia).
    rewrite IH by (cbn in Hn; lia). done.
Qed.
(** A lazy one stops at the first place from which what follows goes on. *)
Lemma star_lazy {R} f u s' c (k : list seg -> caps -> option R) : Forall (fun q => f q.1 = true) u ->
  (forall v w, u = v ++ w -> w <> [] -> k (w ++ s') c = None) -> k s' c <> None -> run (PStar false (PCls f)) (u ++ s') c k = k s' c.
Proof.
  intros Hu Hn Hk. cbn [run]. assert (Hl : (length u <= length (u ++ s'))%nat) by (rewrite length_app; lia).
  revert Hn Hl. generalize (length (u ++ s')). induction Hu as [|q u Hq Hu IH]; intros n Hn Hl.
  - destruct n as [|n]; cbn [star_run app]; [done|]. by destruct (k s' c).
  - destruct n as [|n]; [cbn in Hl; lia|]. cbn [star_run]. rewrite (Hn [] (q :: u) eq_refl) by done.
    cbn [app run]. rewrite Hq, (proj2 (Nat.ltb_lt _ _)) by (cbn; lia). rewrite IH; [done| |cbn in Hl; lia].
    intros v w -> Hw. by apply (Hn (q :: v)).
Qed.
Lemma plus_greedy {R} f u s' c (k : list seg -> caps -> option R) r : u <> [] -> Forall (fun q => f q.1 = true) u ->
  match s' with q :: _ => f q.1 = false | [] => True end -> k s' c = Some r -> run (pplus (PCls f)) (u ++ s') c k = Some r.
Proof.
  intros Hne Hu Hs Hk. destruct Hu as [|q u Hq Hu]; [done|]. unfold pplus. cbn [run app]. rewrite Hq. by apply star_greedy.
Qed.
(** One step into a pattern. *)
Lemma run_seq {R} a b s c (k : list seg -> caps -> option R) r : run a s c (fun s c => run b s c k) = Some r -> run (PSeq a b) s c k = Some r.
Proof. done. Qed.
Lemma run_cap {R} i a s c (k : list seg -> caps -> option R) r :
  run a s c (fun s' c' => k s' ((i, bytes_of (upto s s')) :: c')) = Some r -> run (PCap i a) s c k = Some r.
Proof. done. Qed.
Lemma run_alt_l {R} a b s c (k : list seg -> caps -> option R) r : run a s c k = Some r -> run (PAlt a b) s c k = Some r.
Proof. cbn [run]. by intros ->. Qed.
Lemma run_alt_r {R} a b s c (k : list seg -> caps -> option R) r : run a s c k = None -> run b s c k = Some r -> run (PAlt a b) s c k = Some r.
Proof. cbn [run]. by intros ->. Qed.
(** A literal. *)
Lemma run_lit {R} cs u s' c (k : list seg -> caps -> option R) : u.*1 = cs -> run (pseq (PChr <$> cs)) (u ++ s') c k = k s' c.
Proof. revert u. induction cs as [|d cs IH]; intros u Hu; [by apply fmap_nil_inv in Hu as ->|]. destruct u as [|q u]; [done|]. injection Hu as Hq Hu. cbn [fmap list_fmap pseq foldr run app]. rewrite (proj2 (Z.eqb_eq _ _)) by done. by apply IH. Qed.
