(* ===== verification/GoJson.v ===== *)
(** * JSON text ([encoding/json])

    Strings as [json.Marshal] writes them: quoted, with the characters that
    HTML or JavaScript would read escaped, and with U+FFFD for every byte that
    is not UTF-8.  [read_chars] reads such a string back. *)

From S2P Require Import Prelude GoStrings GoText.
From Stdlib Require Import Ascii.
#[local] Open Scope Z_scope.

Definition QUOTE : ascii := byte_of 34.
Definition BACKSLASH : ascii := byte_of 92.

(** ** Writing *)

Definition hex_digit (d : Z) : ascii := byte_of (if d <? 10 then 48 + d else 87 + d).

(** [\u00xx] *)
Definition hex_escape (r : Z) : string :=
  String BACKSLASH ("u00" +:+ String (hex_digit (r / 16)) (String (hex_digit (r mod 16)) "")).

(** The two-character escapes. *)
Definition short_escapes : list (Z * ascii) :=
  [(34, QUOTE); (92, BACKSLASH); (8, "b"%char); (12, "f"%char); (10, "n"%char); (13, "r"%char); (9, "t"%char)].

(** One rune of a string, with the bytes it stands as ([appendString] with
    HTML escaping). *)
Definition json_rune (q : Z * string) : string :=
  let r := q.1 in
  if r <? 128 then
    match first_some (fun p => if p.1 =? r then Some p.2 else None) short_escapes with
    | Some c => String BACKSLASH (String c "")
    | None => if (r <? 32) || (r =? 60) || (r =? 62) || (r =? 38) then hex_escape r else q.2
    end
  else if (r =? rune_error) && (String.length q.2 =? 1)%nat then String BACKSLASH "ufffd"
  else if r =? 8232 then String BACKSLASH "u2028"
  else if r =? 8233 then String BACKSLASH "u2029"
  else q.2.

Definition json_body (s : string) : string := foldr (fun q acc => json_rune q +:+ acc) "" (segments s).
Definition json_quote (s : string) : string := String QUOTE (json_body s +:+ String QUOTE "").

(** What a string is read back as: its runes, encoded. *)
Definition coerce (s : string) : string := encode_runes (runes s).

(** ** Reading *)

Definition hex_value (a : ascii) : option Z :=
  let v := byte_val a in
  if (48 <=? v) && (v <=? 57) then Some (v - 48)
  else if (97 <=? v) && (v <=? 102) then Some (v - 87)
  else if (65 <=? v) && (v <=? 70) then Some (v - 55)
  else None.

Definition short_unescape (c : ascii) : option Z :=
  first_some (fun p => if bool_decide (p.2 = c) then Some p.1 else None) ((47, "/"%char) :: short_escapes).

Definition prepend (p : string) (x : option (string * string)) : option (string * string) :=
  match x with Some (s, rest) => Some (p +:+ s, rest) | None => None end.

Definition hex4 (a b c d : ascii) : option Z :=
  match hex_value a, hex_value b, hex_value c, hex_value d with
  | Some a, Some b, Some c, Some d => Some (((a * 16 + b) * 16 + c) * 16 + d)
  | _, _, _, _ => None
  end.

(** The string after an opening quote, and what follows its closing one. *)
Fixpoint read_chars (s : string) : option (string * string) :=
  match s with
  | "" => None
  | String a s1 =>
      if bool_decide (a = QUOTE) then Some ("", s1)
      else if bool_decide (a = BACKSLASH) then
        match s1 with
        | "" => None
        | String c s2 =>
            match short_unescape c with
            | Some r => prepend (encode_rune r) (read_chars s2)
            | None =>
                match s2 with
                | String h1 (String h2 (String h3 (String h4 s3))) =>
                    if bool_decide (c = "u"%char) then
                      match hex4 h1 h2 h3 h4 with Some r => prepend (encode_rune r) (read_chars s3) | None => None end
                    else None
                | _ => None
                end
            end
        end
      else prepend (String a "") (read_chars s1)
  end.

(** ** What is written is read back *)

Lemma prepend_app p q x : prepend p (prepend q x) = prepend (p +:+ q) x.
Proof. destruct x as [[s r]|]; [|done]. cbn. by rewrite string_app_assoc. Qed.

Lemma read_literal p t :
  no_byte QUOTE p = true -> no_byte BACKSLASH p = true -> read_chars (p +:+ t) = prepend p (read_chars t).
Proof.
  induction p as [|a p IH]; intros H1 H2.
  { change ("" +:+ t) with t. by destruct (read_chars t) as [[]|]. }
  cbn [no_byte] in *. rewrite !andb_true_iff, !negb_true_iff, !bool_decide_eq_false in *. destruct H1 as [Ha1 H1], H2 as [Ha2 H2].
  rewrite string_app_cons. cbn [read_chars]. rewrite (bool_decide_eq_false_2 _ Ha1), (bool_decide_eq_false_2 _ Ha2).
  by rewrite (IH H1 H2), prepend_app.
Qed.

Lemma hex_value_digit d : 0 <= d < 16 -> hex_value (hex_digit d) = Some d.
Proof.
  intros Hd. unfold hex_value, hex_digit. destruct (Z.ltb_spec d 10); rewrite byte_val_of by lia.
  - replace ((48 <=? 48 + d) && (48 + d <=? 57)) with true by lia. f_equal. lia.
  - replace ((48 <=? 87 + d) && (87 + d <=? 57)) with false by lia.
    replace ((97 <=? 87 + d) && (87 + d <=? 102)) with true by lia. f_equal. lia.
Qed.

Lemma read_unicode a b c d t v : hex4 a b c d = Some v ->
  read_chars (String BACKSLASH (String "u" (String a (String b (String c (String d t)))))) = prepend (encode_rune v) (read_chars t).
Proof. intros H. cbn [read_chars]. change (bool_decide (BACKSLASH = QUOTE)) with false. cbv iota. change (bool_decide (BACKSLASH = BACKSLASH)) with true.
  cbv iota. change (short_unescape "u") with (@None Z). cbv iota. change (bool_decide ("u"%char = "u"%char)) with true. cbv iota. by rewrite H. Qed.

Lemma read_hex r t : 0 <= r < 256 -> read_chars (hex_escape r +:+ t) = prepend (encode_rune r) (read_chars t).
Proof.
  intros Hr. apply (read_unicode "0" "0" (hex_digit (r / 16)) (hex_digit (r mod 16))). unfold hex4. rewrite !hex_value_digit by zdiv.
  change (hex_value "0") with (Some 0). f_equal. zdiv.
Qed.

Lemma read_short r c t : first_some (fun p => if p.1 =? r then Some p.2 else None) short_escapes = Some c ->
  read_chars (String BACKSLASH (String c t)) = prepend (encode_rune r) (read_chars t).
Proof.
  intros Hc. assert (Hu : short_unescape c = Some r).
  { unfold short_escapes in Hc. cbn [first_some fst snd] in Hc.
    repeat (destruct (_ =? r) eqn:E in Hc; [injection Hc as <-; apply Z.eqb_eq in E as <-; vm_compute; reflexivity|clear E]). done. }
  cbn [read_chars]. change (bool_decide (BACKSLASH = QUOTE)) with false. change (bool_decide (BACKSLASH = BACKSLASH)) with true. cbv iota. by rewrite Hu.
Qed.

Lemma json_rune_read q t : whole_seg q -> scalar q.1 -> read_chars (json_rune q +:+ t) = prepend (encode_rune q.1) (read_chars t).
Proof.
  destruct q as [r p]. intros Hw Hs. unfold json_rune. cbn [fst snd] in *.
  destruct (Z.ltb_spec r 128) as [Hlt|Hge].
  - assert (Hp : p = String (byte_of r) "").
    { destruct Hw as [Hp|(b & [= -> ->] & _)]; [|by unfold rune_error in Hlt]. cbn in Hp. rewrite Hp. by apply encode_low. }
    destruct (first_some _ _) as [c|] eqn:Hc; [by apply read_short|].
    destruct (_ || _ || _ || _) eqn:Hh; [apply read_hex; unfold scalar in Hs; lia|].
    rewrite <- (encode_low r Hs Hlt) in Hp. rewrite Hp. apply read_literal; rewrite (encode_low r Hs Hlt); cbn [no_byte];
      rewrite andb_true_r, negb_true_iff, bool_decide_eq_false; intros Heq; apply (f_equal byte_val) in Heq;
      rewrite byte_val_of in Heq by (unfold scalar in Hs; lia); subst r; vm_compute in Hc; done.
  - destruct ((r =? rune_error) && _) eqn:He.
    { apply andb_true_iff in He as [->%Z.eqb_eq _]. apply (read_unicode "f" "f" "f" "d"). vm_compute. done. }
    destruct (Z.eqb_spec r 8232) as [->|_]; [apply (read_unicode "2" "0" "2" "8"); vm_compute; done|].
    destruct (Z.eqb_spec r 8233) as [->|_]; [apply (read_unicode "2" "0" "2" "9"); vm_compute; done|].
    destruct Hw as [Hp|(b & [= -> ->] & _)]; [|done]. cbn in Hp. rewrite Hp.
    assert (Hhigh := encode_high r Hs Hge). apply read_literal; (apply high_no_byte; [vm_compute; done|done]).
Qed.

(** A quoted string is read back as its runes, whatever follows it. *)
Lemma read_quoted s t : read_chars (json_body s +:+ String QUOTE t) = Some (coerce s, t).
Proof.
  unfold json_body, coerce, runes. assert (Hw := segments_whole s). assert (Hs := runes_scalar s). unfold runes in Hs.
  induction Hw as [|q l Hq _ IH]; [done|]. cbn [foldr fmap list_fmap] in *. apply Forall_cons in Hs as [Hsq Hs].
  rewrite string_app_assoc, (json_rune_read q _ Hq Hsq), IH by done. done.
Qed.

(** No line breaks are written. *)
Lemma json_rune_no_newline q : whole_seg q -> scalar q.1 -> no_byte (byte_of 10) (json_rune q) = true.
Proof.
  destruct q as [r p]. intros Hw Hs. unfold json_rune. cbn [fst snd] in *.
  destruct (Z.ltb_spec r 128) as [Hlt|Hge].
  - destruct (first_some _ _) as [c|] eqn:Hc.
    { unfold short_escapes in Hc. cbn [first_some fst snd] in Hc.
      repeat (destruct (_ =? r) in Hc; [injection Hc as <-; vm_compute; reflexivity|]). done. }
    assert (Hd : forall d, 0 <= d < 16 -> bool_decide (hex_digit d = byte_of 10) = false).
    { intros d Hd. apply bool_decide_eq_false. intros Heq. apply (f_equal byte_val) in Heq. unfold hex_digit in Heq.
      change (byte_val (byte_of 10)) with 10 in Heq. destruct (d <? 10); rewrite byte_val_of in Heq by lia; lia. }
    destruct (_ || _ || _ || _) eqn:Hh.
    { unfold hex_escape. change (?a +:+ ?b) with (String "u" (String "0" (String "0" b))). cbn [no_byte].
      rewrite !Hd by (unfold scalar in Hs; zdiv). vm_compute. done. }
    destruct Hw as [Hp|(b & [= -> ->] & _)]; [|done]. cbn in Hp. rewrite Hp, (encode_low r Hs Hlt). cbn [no_byte].
    rewrite andb_true_r, negb_true_iff, bool_decide_eq_false. intros Heq%(f_equal byte_val).
    rewrite byte_val_of in Heq by (unfold scalar in Hs; lia). subst r. vm_compute in Hc. done.
  - destruct (_ && _) eqn:He; [vm_compute; done|]. destruct (r =? 8232); [vm_compute; done|]. destruct (r =? 8233); [vm_compute; done|].
    destruct Hw as [Hp|(b & [= -> ->] & _)]; [|done]. cbn in Hp. rewrite Hp.
    apply high_no_byte; [vm_compute; done|by apply encode_high].
Qed.

Lemma json_quote_no_newline s : no_byte (byte_of 10) (json_quote s) = true.
Proof.
  unfold json_quote. cbn [no_byte]. rewrite no_byte_app. change (no_byte (byte_of 10) (String QUOTE "")) with true.
  change (bool_decide (QUOTE = byte_of 10)) with false. rewrite andb_true_r. cbn [negb andb].
  unfold json_body. assert (Hw := segments_whole s). assert (Hs := runes_scalar s). unfold runes in Hs.
  induction Hw as [|q l Hq _ IH]; [done|]. cbn [foldr fmap list_fmap] in *. apply Forall_cons in Hs as [Hsq Hs].
  by rewrite no_byte_app, (json_rune_no_newline q Hq Hsq), (IH Hs).
Qed.

Lemma coerce_idem s : coerce (coerce s) = coerce s.
Proof. unfold coerce. by rewrite (runes_encode_runes _ (runes_scalar s)). Qed.

(** ** Integers *)

Definition is_digit (a : ascii) : bool := (48 <=? byte_val a) && (byte_val a <=? 57).

Fixpoint read_digits (acc : Z) (s : string) : Z * string :=
  match s with
  | String a s' => if is_digit a then read_digits (acc * 10 + (byte_val a - 48)) s' else (acc, s)
  | "" => (acc, s)
  end.

Definition read_int (s : string) : Z * string :=
  match s with
  | String a s' => if bool_decide (a = "-"%char) then let '(n, rest) := read_digits 0 s' in (- n, rest) else read_digits 0 s
  | "" => (0, "")
  end.

Lemma pretty_char_digit x : (x < 10)%N -> byte_val (pretty_N_char x) = 48 + Z.of_N x.
Proof.
  intros Hx. assert (H : forallb (fun n => byte_val (pretty_N_char (N.of_nat n)) =? 48 + Z.of_nat n) (seq 0 10) = true) by (vm_compute; done).
  rewrite forallb_forall in H. specialize (H (N.to_nat x)). rewrite in_seq, N2Nat.id, Z.eqb_eq in H. rewrite H by lia. lia.
Qed.

Lemma read_digits_go x s : read_digits 0 (pretty_N_go x s) = read_digits (Z.of_N x) s.
Proof.
  revert s. induction (N.lt_wf_0 x) as [x _ IH]. intros s. destruct (decide (x = 0)%N) as [->|Hx]; [by rewrite pretty_N_go_0|].
  rewrite pretty_N_go_step by lia. rewrite IH by (apply N.div_lt; lia). cbn [read_digits].
  unfold is_digit. rewrite pretty_char_digit by (apply N.mod_lt; lia). assert (Hm := N.mod_lt x 10 ltac:(lia)).
  remember (x mod 10)%N as d eqn:Ed.
  replace ((48 <=? 48 + Z.of_N d) && (48 + Z.of_N d <=? 57)) with true by lia.
  f_equal. rewrite Ed, N2Z.inj_div, N2Z.inj_mod. change (Z.of_N 10) with 10. zdiv.
Qed.

Lemma read_digits_pretty (n : N) t : match t with String a _ => is_digit a = false | "" => True end ->
  read_digits 0 (pretty n +:+ t) = (Z.of_N n, t).
Proof.
  assert (Happ : forall x s, pretty_N_go x s +:+ t = pretty_N_go x (s +:+ t)).
  { intros x. induction (N.lt_wf_0 x) as [x _ IH]. intros s. destruct (decide (x = 0)%N) as [->|Hx]; [by rewrite !pretty_N_go_0|].
    rewrite !(pretty_N_go_step x) by lia. rewrite IH by (apply N.div_lt; lia). done. }
  intros Ht. assert (Hend : forall z, read_digits z t = (z, t)) by (intros z; destruct t; [done|cbn; by rewrite Ht]).
  unfold pretty, pretty_N. case_decide as H0.
  - subst n. change ("0" +:+ t) with (String "0" t). change (read_digits 0 (String "0" t)) with (read_digits 0 t). apply Hend.
  - by rewrite Happ, read_digits_go, Hend.
Qed.

Lemma pretty_no_dash (n : N) t : match pretty n +:+ t with String a _ => bool_decide (a = "-"%char) = false | "" => False end.
Proof.
  assert (Hgo : forall x s, (x <> 0)%N -> match pretty_N_go x s with String a _ => bool_decide (a = "-"%char) = false | "" => False end).
  { intros x. induction (N.lt_wf_0 x) as [x _ IH]. intros s Hx. rewrite pretty_N_go_step by lia.
    destruct (decide (x / 10 = 0)%N) as [->|Hd]; [|apply IH; [apply N.div_lt; lia|done]].
    rewrite pretty_N_go_0. apply bool_decide_eq_false. intros Heq%(f_equal byte_val).
    rewrite pretty_char_digit in Heq by (apply N.mod_lt; lia). change (byte_val "-") with 45 in Heq. revert Heq. generalize (x mod 10)%N. lia. }
  unfold pretty, pretty_N. case_decide as H0; [done|]. specialize (Hgo n "" H0). by destruct (pretty_N_go n "").
Qed.

Lemma read_int_pretty (z : Z) t : match t with String a _ => is_digit a = false | "" => True end ->
  read_int (pretty z +:+ t) = (z, t).
Proof.
  intros Ht. unfold pretty, pretty_Z. destruct z as [|p|p].
  - change ("0" +:+ t) with (String "0" t). unfold read_int. change (bool_decide ("0"%char = "-"%char)) with false. cbv iota.
    change (String "0" t) with (pretty 0%N +:+ t). by rewrite read_digits_pretty.
  - change (pretty p) with (pretty (N.pos p)). assert (Hd := pretty_no_dash (N.pos p) t). unfold read_int. destruct (pretty (N.pos p) +:+ t) as [|a s'] eqn:E; [done|].
    cbv iota beta. rewrite Hd, <- E. by rewrite read_digits_pretty.
  - change (pretty p) with (pretty (N.pos p)). change (("-" +:+ pretty (N.pos p)) +:+ t) with (String "-" (pretty (N.pos p) +:+ t)). unfold read_int.
    change (bool_decide ("-"%char = "-"%char)) with true. cbv iota. by rewrite read_digits_pretty.
Qed.

Lemma pretty_no_newline (z : Z) : no_byte (byte_of 10) (pretty z) = true.
Proof.
  assert (Hgo : forall x s, no_byte (byte_of 10) s = true -> no_byte (byte_of 10) (pretty_N_go x s) = true).
  { intros x. induction (N.lt_wf_0 x) as [x _ IH]. intros s Hs. destruct (decide (x = 0)%N) as [->|Hx]; [by rewrite pretty_N_go_0|].
    rewrite pretty_N_go_step by lia. apply IH; [apply N.div_lt; lia|]. cbn [no_byte]. rewrite Hs, andb_true_r, negb_true_iff, bool_decide_eq_false.
    intros Heq%(f_equal byte_val). rewrite pretty_char_digit in Heq by (apply N.mod_lt; lia). change (byte_val (byte_of 10)) with 10 in Heq. revert Heq. generalize (x mod 10)%N. lia. }
  assert (Hn : forall n : N, no_byte (byte_of 10) (pretty n) = true).
  { intros n. unfold pretty, pretty_N. case_decide; [done|by apply Hgo]. }
  unfold pretty, pretty_Z. destruct z as [|p|p]; [done|exact (Hn (N.pos p))|]. rewrite no_byte_app. exact (Hn (N.pos p)).
Qed.
