(* ===== verification/Transcript.v ===== *)
(** * Messages of a conversation with a language model

    [internal/llm/types.go] and [SanitizeMessages], [NormalizeToolName] of
    [internal/llm/sanitize.go]: what is cleaned up before a conversation is
    sent to a provider.  The loop of [SanitizeMessages] moves its index past
    the results it has consumed; here [sanitize_from] counts down the
    messages to skip.  The map [expectedIDs] is a finite set. *)

From S2P Require Import Prelude GoStrings GoText.
Open Scope Z_scope.

(** A Role is a string; other roles than the four constants exist. *)
Definition RoleSystem : string := "system".
Definition RoleUser : string := "user".
Definition RoleAssistant : string := "assistant".
Definition RoleTool : string := "tool".

(** Raw JSON is carried as text. *)
Record FunctionCall := mkFunctionCall { FnName : string; FnArguments : string }.

Record ToolCall := mkToolCall { TcID : string; TcType : string; TcFunction : FunctionCall }.

Record Message := mkMessage {
  Role : string;
  Content : string;
  ReasoningContent : string;
  ToolCalls : list ToolCall;
  ToolCallID : string;
  Name : string;
  ProviderItems : list string;
}.

#[export] Instance FunctionCall_eq_dec : EqDecision FunctionCall.
Proof. solve_decision. Defined.
#[export] Instance ToolCall_eq_dec : EqDecision ToolCall.
Proof. solve_decision. Defined.
#[export] Instance Message_eq_dec : EqDecision Message.
Proof. solve_decision. Defined.

Definition with_calls (m : Message) (tcs : list ToolCall) : Message :=
  mkMessage (Role m) (Content m) (ReasoningContent m) tcs (ToolCallID m) (Name m) (ProviderItems m).

(** ** SanitizeMessages *)

(** [content := strings.TrimSpace(c); if content == "" { content = fallback }] *)
Definition content_or (fallback c : string) : string :=
  let content := trim_space c in if bool_decide (content = "") then fallback else content.

(** [validCalls]: a call without an id can never be answered. *)
Definition validCalls (m : Message) : list ToolCall := filter (fun tc => TcID tc <> "") (ToolCalls m).

(** The look-ahead over the tool messages that follow: those that answer an
    expected call, how many messages were passed, what is still expected. *)
Fixpoint collect (expected : gset string) (l : list Message) : list Message * nat * gset string :=
  match l with
  | m :: l' =>
      if bool_decide (Role m = RoleTool) then
        let mine := bool_decide (ToolCallID m ∈ expected) in
        let '(out, n, rest) := collect (if mine then expected ∖ {[ToolCallID m]} else expected) l' in
        ((if mine then m :: out else out), S n, rest)
      else ([], 0%nat, expected)
  | [] => ([], 0%nat, expected)
  end.

(** [for i+1 < len(messages) && messages[i+1].Role == RoleTool { i++ }] *)
Fixpoint leading_tools (l : list Message) : nat :=
  match l with
  | m :: l' => if bool_decide (Role m = RoleTool) then S (leading_tools l') else 0
  | [] => 0
  end.

(** An assistant message without calls, rebuilt from its content. *)
Definition plain_turn (fallback : string) (m : Message) : Message :=
  mkMessage RoleAssistant (content_or fallback (Content m)) (ReasoningContent m) [] "" "" (ProviderItems m).

Definition synthetic (tc : ToolCall) : Message :=
  mkMessage RoleTool "[Tool execution completed or omitted]" "" [] (TcID tc) (FnName (TcFunction tc)) [].

(** One assistant message with the messages that follow it: what is appended
    and how far the index moves. *)
Definition assistant_turn (m : Message) (rest : list Message) : list Message * nat :=
  match ToolCalls m with
  | [] => ([plain_turn "[Acknowledged]" m], 0%nat)
  | _ =>
      match validCalls m with
      | [] => ([mkMessage RoleAssistant (content_or "[Completed tool actions]" (Content m)) "" [] "" "" []],
               leading_tools rest)
      | valid =>
          let '(toolMsgs, n, expected) := collect (list_to_set (TcID <$> valid)) rest in
          match toolMsgs with
          | [] => ([plain_turn "[Completed tool actions]" m], n)
          | _ => (with_calls m valid :: toolMsgs ++
                    (synthetic <$> filter (fun tc => TcID tc ∈ expected) valid), n)
          end
      end
  end.

Fixpoint sanitize_from (skip : nat) (l : list Message) : list Message :=
  match l with
  | [] => []
  | m :: rest =>
      match skip with
      | S k => sanitize_from k rest
      | O =>
          if bool_decide (Role m = RoleAssistant) then
            let '(out, n) := assistant_turn m rest in out ++ sanitize_from n rest
          else if bool_decide (Role m = RoleTool) then sanitize_from 0 rest
          else m :: sanitize_from 0 rest
      end
  end.

Definition SanitizeMessages (messages : list Message) : list Message :=
  match messages with [] => messages | _ => sanitize_from 0 messages end.

(** ** NormalizeToolName *)

Definition tool_prefixes : list string := ["functions."; "function."; "tools."; "tool."].

(** The cases of the switch, in order. *)
Definition tool_aliases : list (list string * string) := [
  (["websearch"; "web_search"; "google_search"; "search"; "browse"; "web"], "native_web_search");
  (["readfile"; "read_file"; "read"; "file_read"; "fetch_file"; "open_file"], "native_file_read");
  (["writefile"; "write_file"; "create_file"; "file_write"; "save_file"; "put_file"], "native_file_write");
  (["editfile"; "edit_file"; "file_edit"; "replace_file"; "patch_file"; "native_file_edit"], "native_file_edit");
  (["listfiles"; "list_files"; "list_dir"; "ls"; "dir"; "file_list"; "find_files"; "files_search";
    "native_file_list"; "native_file_search"], "native_file_search");
  (["movefile"; "move_file"; "file_move"; "rename_file"; "native_file_move"], "native_file_move");
  (["copyfile"; "copy_file"; "file_copy"; "native_file_copy"], "native_file_copy");
  (["deletefile"; "delete_file"; "remove_file"; "file_delete"; "rm"; "native_file_delete"], "native_file_delete");
  (["subshell"; "bash"; "sh"; "exec"; "powershell"; "terminal"; "run_command"; "shell"; "native_subshell"],
   "native_exec");
  (["browser"; "browser_open"; "web_browser"], "native_browser");
  (["view_skill"; "read_skill"], "skill_view")].

Definition alias_of (lower : string) : option string :=
  first_some (fun '(names, tool) => if bool_decide (lower ∈ names) then Some tool else None) tool_aliases.

Definition drop_prefix_len (p s : string) : string :=
  String.substring (String.length p) (String.length s - String.length p) s.

Section names.
Context `{Unicode}.

(** The prefix is found in the lower-cased name and its length cut from both. *)
Definition NormalizeToolName (name : string) : string :=
  let clean := trim_space name in
  let lower := to_lower clean in
  let '(clean, lower) :=
    match first_some (fun p => if has_prefix lower p then Some p else None) tool_prefixes with
    | Some p => (drop_prefix_len p clean, drop_prefix_len p lower)
    | None => (clean, lower)
    end in
  match alias_of lower with Some tool => tool | None => clean end.

End names.
