(* ===== verification/ProseCalls.v ===== *)
(** * Thinking and tool calls in prose

    [llm/sanitize.go]: reasoning between tags is moved out of an answer, and
    calls that a model wrote into its text are taken for calls, in seven
    formats one after the other; what is left of their markup is removed.
    The JSON decoder and encoder are parameters, as are the random bytes of
    the identifiers. *)

From stdpp Require Import gmap strings.
From S2P Require Import Prelude GoStrings Regex GoText Transcript RegexFind.
#[local] Open Scope Z_scope.

(** A JSON value in an [any], and the struct both decoders of one call fill;
    a [RawMessage] that is not set is the empty text. *)
Inductive jany :=
  | JNull
  | JBool (b : bool)
  | JNumber (text : string)
  | JString (s : string)
  | JArray (l : list jany)
  | JObject (m : gmap string jany).
Record call_shape := mkShape { CsName : string; CsTool : string; CsArguments : string; CsParameters : string }.

(** [call_rand n k] are the [k]-th four random bytes in hex. *)
Class CallTexts := {
  json_any : string -> option jany;
  json_call : string -> option call_shape;
  any_json : jany -> option string;
  call_rand : nat -> nat -> string }.

(** ** The expressions *)

Definition word_char (c : Z) : bool :=
  ((97 <=? c) && (c <=? 122)) || ((65 <=? c) && (c <=? 90)) || ((48 <=? c) && (c <=? 57)) || (c =? 95) || (c =? 45).
(** The same under [(?i)]: folding adds U+017F and U+212A. *)
Definition word_char_i (c : Z) : bool := word_char c || (c =? 383) || (c =? 8490).
Definition pnot (l : list Z) : pat := PCls (fun c => negb (existsb (Z.eqb c) l)).
Definition pword : pat := PCls word_char.
Definition pspaces : pat := PStar true pspace.
(** [[|｜]{1,2}] *)
Definition pbar : pat := PCls (fun c => (c =? 124) || (c =? 65372)).
Definition pbars : pat := PSeq pbar (popt pbar).
(** A tag with bars, one of the DSML, and a quoted attribute. *)
Definition bar_open (name : string) : pat := pseq [PChr 60; pbars; plit name].
Definition dsml (slash : bool) (name : string) : pat :=
  pseq [PChr 60; if slash then PChr 47 else PEps; pbars; plit "DSML"; pbars; plit name].
Definition name_attr (i : nat) : pat := pseq [plit "name="; PChr 34; PCap i (pplus (pnot [34])); PChr 34].
Definition braced : pat := pseq [PChr 123; lazy_any; PChr 125].
Definition newline : pat := PChr 10.
Definition fence : pat := pseq [PChr 96; PChr 96; PChr 96].

Definition thinkTagRe : pat :=
  let tag := palts (plit "think") [plit "thought"; plit "thinking"] in
  pseq [PChr 60; tag; PChr 62; PCap 1 lazy_any; PChr 60; PChr 47; tag; PChr 62].
Definition bracketThinkRe : pat :=
  let tag := palts (plit "THINK") [plit "REASONING"] in
  pseq [PChr 91; tag; PChr 93; PCap 1 lazy_any; PChr 91; PChr 47; tag; PChr 93].

Definition dsmlInvokeRe : pat :=
  pseq [dsml false "invoke"; pplus pspace; name_attr 1; PChr 62; pspaces; PCap 2 lazy_any; pspaces; dsml true "invoke"; PChr 62].
Definition dsmlParamRe : pat :=
  pseq [dsml false "parameter"; pplus pspace; name_attr 1;
        popt (pseq [pplus pspace; plit "string="; PChr 34; PCap 2 (PStar true (pnot [34])); PChr 34]);
        PChr 62; pspaces; PCap 3 lazy_any; pspaces; dsml true "parameter"; PChr 62].
Definition dsTokenRe : pat :=
  pseq [bar_open "tool call begin"; pbars; PChr 62; popt (plit "function:"); PCap 1 (pplus pword); pspaces; PCap 2 braced;
        bar_open "tool call end"; pbars; PChr 62].
Definition anthropicFuncRe : pat :=
  pseq [PChr 60; plit "function="; PCap 1 (pplus pword); PChr 62; pspaces; PCap 2 braced; pspaces; PChr 60; plit "/function>"].
Definition markdownToolRe : pat :=
  pseq [fence; palts (plit "tool_call") [plit "function_call"; plit "tool"]; newline; pspaces; PCap 1 braced; pspaces; newline; fence].
Definition genericInvokeRe : pat :=
  let tag := palts (plit "tool_call") [plit "function_call"; plit "invoke"] in
  pseq [PChr 60; tag; pspaces; popt (name_attr 1); PChr 62; pspaces; PCap 2 lazy_any; pspaces; PChr 60; PChr 47; tag; PChr 62].
(** [(?:to|recipient_name)\s*=\s*(?:functions\.)?] under [(?i)] *)
Definition addressee : pat :=
  pseq [PAlt (plit_i "to") (plit_i "recipient_name"); pspaces; PChr 61; pspaces; popt (PSeq (plit_i "functions") (PChr 46))].
Definition toFuncRe : pat :=
  pseq [addressee; PCap 1 (pplus (PCls word_char_i)); PStar true (pnot [123]); PCap 2 braced].

Definition till (a b : pat) : pat := pseq [a; lazy_any; b].
Definition bar_tag (slash : bool) (name : string) : pat :=
  pseq [PChr 60; if slash then PChr 47 else PEps; pbars; plit name; pbars; PChr 62].
Definition cleanBlockRe : pat :=
  palts (till (PSeq (dsml false "tool_calls") (PChr 62)) (PSeq (dsml true "tool_calls") (PChr 62)))
    [till (bar_tag false "tool call begin") (bar_tag false "tool call end");
     till (bar_tag false "tool calls") (bar_tag true "tool calls");
     till (PSeq (PChr 60) (plit "tool_call>")) (PSeq (PChr 60) (plit "/tool_call>"));
     till (PSeq (PChr 60) (plit "function_call>")) (PSeq (PChr 60) (plit "/function_call>"));
     till (pseq [PChr 60; plit "function="; pplus (pnot [62]); PChr 62]) (PSeq (PChr 60) (plit "/function>"));
     till (PSeq fence (palts (plit "tool_call") [plit "function_call"; plit "tool"])) fence].
Definition cleanSingleTagRe : pat :=
  PAlt (pseq [PChr 60; popt (PChr 47); pbars; PStar true (pnot [62]); PChr 62])
       (pseq [PChr 60; popt (PChr 47); palts (plit "tool_call") [plit "function_call"; plit "invoke"; plit "parameter"]; PStar true (pnot [62]); PChr 62]).
Definition cleanToRe : pat :=
  pseq [addressee; pplus (PCls word_char_i); PStar true (pnot [10; 13; 123]); braced].
Definition cleanGarbageToRe : pat := PSeq addressee (PStar true (pnot [10; 13])).

(** ** Thinking *)

Definition ExtractThinkingContent (content existingReasoning : string) : string * string :=
  if bool_decide (content = "") then (content, existingReasoning)
  else
    let some (t : string) := if bool_decide (trim_space t = "") then [] else [trim_space t] in
    let inside (e : pat) := c ← FindAll e content; some (group 1 c) in
    let extracted := some existingReasoning ++ inside thinkTagRe ++ inside bracketThinkRe in
    (trim_space (RemoveAll bracketThinkRe (RemoveAll thinkTagRe content)), join extracted (String (byte_of 10) (String (byte_of 10) ""))).

Section calls.
Context `{CallTexts} `{Unicode}.

(** A call without its identifier; [None] is one for which an identifier was
    drawn and that came to nothing. *)
Abbreviation draft := (option (string * string)).
Definition numbered (n : nat) (l : list draft) : list ToolCall :=
  omap id (imap (fun k d => (fun '(name, args) => mkToolCall ("call_" +:+ call_rand n k) "function" (mkFunctionCall name args)) <$> d) l).

(** ** The seven formats *)

Definition dsml_params (block : string) : gmap string jany :=
  fold_left (fun m c =>
    let value := trim_space (group 3 c) in
    <[trim_space (group 1 c) := if bool_decide (group 2 c = "true") then JString value else default (JString value) (json_any value)]> m)
    (FindAll dsmlParamRe block) ∅.
Definition marshal (v : jany) : string := default "" (any_json v).
Definition dsml_calls (content : string) : list draft :=
  (fun c => Some (NormalizeToolName (group 1 c), marshal (JObject (dsml_params (group 2 c))))) <$> FindAll dsmlInvokeRe content.
(** The token, XML and addressee formats: a name and an object. *)
Definition braced_calls (e : pat) (content : string) : list draft :=
  (fun c => Some (NormalizeToolName (group 1 c), trim_space (group 2 c))) <$> FindAll e content.

Definition shaped (sh : call_shape) : option (string * string) :=
  let name := NormalizeToolName (if bool_decide (CsName sh = "") then CsTool sh else CsName sh) in
  let args := if bool_decide (CsArguments sh = "") then CsParameters sh else CsArguments sh in
  if bool_decide (name = "") then None else Some (name, if bool_decide (args = "") then "{}" else args).
Definition markdown_calls (content : string) : list draft :=
  Some <$> omap (fun c => sh ← json_call (group 1 c); shaped sh) (FindAll markdownToolRe content).
Definition generic_calls (content : string) : list draft :=
  (fun c =>
    let name := NormalizeToolName (group 1 c) in
    let body := trim_space (group 2 c) in
    if bool_decide (name = "") then sh ← json_call body; shaped sh
    else Some (name, if has_prefix body "{" then body else marshal (JObject {["input" := JString body]})))
  <$> FindAll genericInvokeRe content.

(** ** Bare JSON *)

Definition object_of (text : string) : gmap string jany :=
  match json_any text with Some (JObject m) => m | _ => ∅ end.
(** [m[k].(string)], not empty *)
Definition text_at (k : string) (m : gmap string jany) : option string :=
  match m !! k with Some (JString s) => if bool_decide (s = "") then None else Some s | _ => None end.
(** [m[k]] when it is not [nil] *)
Definition value_at (k : string) (m : gmap string jany) : option jany :=
  match m !! k with Some JNull | None => None | Some v => Some v end.

(** An item of [tool_uses]. *)
Definition tool_use (v : jany) : option (string * string) :=
  match v with
  | JObject u =>
      name ← first_some (fun k => text_at k u) ["recipient_name"; "name"; "tool"];
      Some (NormalizeToolName name,
            match first_some (fun k => value_at k u) ["parameters"; "arguments"; "args"] with Some a => marshal a | None => "{}" end)
  | _ => None
  end.
(** The arguments under the first of two keys, or the object itself. *)
Definition own_args (candidate : string) (keys : list string) (m : gmap string jany) : string :=
  match first_some (fun k => m !! k) keys with Some a => default candidate (any_json a) | None => candidate end.
Definition has (k : string) (m : gmap string jany) : bool := bool_decide (is_Some (m !! k)).
Definition direct_call (candidate : string) (m : gmap string jany) : string * string :=
  match text_at "name" m with
  | Some t => (NormalizeToolName t, own_args candidate ["arguments"; "parameters"] m)
  | None =>
      match text_at "tool" m with
      | Some t => (NormalizeToolName t, own_args candidate ["arguments"; "args"] m)
      | None =>
          (if has "command" m then "native_exec"
           else if has "path" m then
             if has "content" m then "native_file_write"
             else if has "old_string" m then "native_file_edit"
             else if has "query" m || has "pattern" m then "native_file_search"
             else if has "start_line" m || has "line_numbers" m then "native_file_read"
             else ""
           else "", candidate)
      end
  end.

Record bare := mkBare {
  b_string : bool; b_escape : bool; b_depth : nat; b_start : option nat;
  b_calls : list (string * string); b_ranges : list (nat * nat) }.
Definition no_bare : bare := mkBare false false 0 None [] [].

(** The object from [start] to [stop] is complete. *)
Definition take_object (content : string) (start stop : nat) (st : bare) : bare :=
  let candidate := String.substring start (stop - start) content in
  let m := object_of candidate in
  let done_ (calls : list (string * string)) (ranges : list (nat * nat)) := mkBare (b_string st) (b_escape st) (b_depth st) None calls ranges in
  if bool_decide (m = ∅) then done_ (b_calls st) (b_ranges st)
  else
    match m !! "tool_uses" with
    | Some (JArray ((_ :: _) as uses)) =>
        let calls := b_calls st ++ omap tool_use uses in
        done_ calls (if bool_decide (calls = []) then b_ranges st else b_ranges st ++ [(start, stop)])
    | _ =>
        let '(name, args) := direct_call candidate m in
        if bool_decide (name = "") then done_ (b_calls st) (b_ranges st)
        else done_ (b_calls st ++ [(name, args)]) (b_ranges st ++ [(start, stop)])
    end.

(** One byte of the text, the [i]-th. *)
Definition bare_step (content : string) (i : nat) (c : Z) (st : bare) : bare :=
  let '(mkBare str esc depth start calls ranges) := st in
  if esc then mkBare str false depth start calls ranges
  else if (c =? 92) && str then mkBare str true depth start calls ranges
  else if c =? 34 then mkBare (negb str) esc depth start calls ranges
  else if str then st
  else if c =? 123 then mkBare str esc (S depth) (if (depth =? 0)%nat then Some i else start) calls ranges
  else if c =? 125 then
    match depth with
    | O => st
    | S d =>
        let st := mkBare str esc d start calls ranges in
        match d, start with
        | O, Some s => take_object content s (S i) st
        | _, _ => st
        end
    end
  else st.
Fixpoint bare_scan (content : string) (i : nat) (rest : string) (st : bare) : bare :=
  match rest with
  | "" => st
  | String a rest => bare_scan content (S i) rest (bare_step content i (byte_val a) st)
  end.
(** The text outside the ranges. *)
Fixpoint without (content : string) (last : nat) (ranges : list (nat * nat)) : string :=
  match ranges with
  | [] => String.substring last (String.length content - last) content
  | (a, b) :: ranges => String.substring last (a - last) content +:+ without content b ranges
  end.
Definition findAndExtractBareJSONToolCalls (content : string) : string * list (string * string) :=
  if negb (contains_str content "{") || negb (contains_str content "}") then (content, [])
  else
    let st := bare_scan content 0 content no_bare in
    if bool_decide (b_ranges st = []) then (content, [])
    else (trim_space (without content 0 (b_ranges st)), b_calls st).

(** ** All of them *)

Definition marked_calls (content : string) : list draft :=
  dsml_calls content ++ braced_calls dsTokenRe content ++ braced_calls anthropicFuncRe content ++ markdown_calls content ++
  generic_calls content ++ braced_calls toFuncRe content.
Definition clean_markup (text : string) : string :=
  trim_space (RemoveAll cleanGarbageToRe (RemoveAll cleanToRe (RemoveAll cleanSingleTagRe (RemoveAll cleanBlockRe text)))).
Definition ExtractEmbeddedToolCalls (n : nat) (content : string) : string * list ToolCall :=
  if bool_decide (content = "") then (content, [])
  else
    let drafts := marked_calls content in
    if bool_decide (omap id drafts = []) then
      let '(rest, bare) := findAndExtractBareJSONToolCalls content in
      (clean_markup (if bool_decide (bare = []) then content else rest), numbered n (drafts ++ (Some <$> bare)))
    else (clean_markup content, numbered n drafts).

End calls.
