(* ===== verification/Cascade.v ===== *)
(** * The cascade of language-model providers ([internal/llm/router.go])

    A request goes down an ordered list of providers until one answers; a
    provider that failed three times in a row is left alone for a minute; the
    results are counted for the health report.

    A provider is a handle; what it answers is the class [Models], indexed by
    the number of calls made before, so theorems hold for every behaviour of
    the network.  The requests sent are recorded in [calls].  The context is
    observed where the code looks at it: the next entry of the schedule of
    faults says whether it is done.  The order of a [range] over a map is
    picked by the class [MapRange]. *)

From S2P Require Import Prelude GoStrings GoText Io Transcript.
From Stdlib Require Import SpecFloat.
#[local] Open Scope Z_scope.

(** ** Data ([types.go]) *)

Definition TaskKindGeneral : string := "general".
Definition DefaultReasoningEffort : string := "medium".

Record FunctionDefinition := mkFunctionDefinition { FdName : string; FdDescription : string; FdParameters : string }.
Record ToolDefinition := mkToolDefinition { TdType : string; TdFunction : FunctionDefinition }.

Record CompletionOptions := mkOptions {
  Model : string; ReasoningEffort : string; OTaskKind : string; MaxTokens : option Z;
  Tools : list ToolDefinition; StopWords : list string }.

Definition WithDefaults (o : CompletionOptions) : CompletionOptions :=
  mkOptions (Model o) (if bool_decide (ReasoningEffort o = "") then DefaultReasoningEffort else ReasoningEffort o)
    (OTaskKind o) (MaxTokens o) (Tools o) (StopWords o).

Definition with_model (o : CompletionOptions) (m : string) : CompletionOptions :=
  mkOptions m (ReasoningEffort o) (OTaskKind o) (MaxTokens o) (Tools o) (StopWords o).

Record Usage := mkUsage { PromptTokens : Z; CompletionTokens : Z; TotalTokens : Z }.

Record Response := mkResponse {
  RContent : string; RReasoning : string; RToolCalls : list ToolCall; FinishReason : string;
  RUsage : Usage; RModel : string; RProviderItems : list string }.

Definition set_model (r : Response) (m : string) : Response :=
  mkResponse (RContent r) (RReasoning r) (RToolCalls r) (FinishReason r) (RUsage r) m (RProviderItems r).

(** ** The router *)

Record TaskKindStats := mkTaskKindStats { TkTotalCalls : Z; TkSuccesses : Z; TkFailures : Z }.

Record providerMetricsInternal := mkMetrics {
  totalCalls : Z; totalFailures : Z; latencySamples : list Z; taskStats : gmap string TaskKindStats }.

(** A provider is known by its handle. *)
Abbreviation handle := nat.

(** A request as it leaves for a provider. *)
Record Call := mkCall { CTarget : string; CHandle : handle; CMessages : list Message; COptions : CompletionOptions; CStream : bool }.

Record ModelCascadeRouter := mkRouter {
  providers : gmap string handle;
  defaultID : string;
  failures : gmap string Z;
  trippedUntil : gmap string Z;
  metrics : gmap string providerMetricsInternal;
  calls : list Call;
}.

Definition set_breaker (r : ModelCascadeRouter) f t m : ModelCascadeRouter :=
  mkRouter (providers r) (defaultID r) f t m (calls r).
Definition add_call (r : ModelCascadeRouter) (c : Call) : ModelCascadeRouter :=
  mkRouter (providers r) (defaultID r) (failures r) (trippedUntil r) (metrics r) (calls r ++ [c]).

Inductive llm_error :=
  | ErrProviderNotFound (id : string)
  | CircuitOpen (target : string)
  | ProviderError (text : string)
  | ContextDone
  | ErrAllProvidersFailed (last : option llm_error).

(** What the providers answer. *)
Class Models := {
  complete : nat -> Call -> result string Response;
  Stream : Type;
  stream_complete : nat -> Call -> result string Stream;
  Vectors : Type;
  embed : nat -> handle -> list string -> result string Vectors;
}.

Definition NewModelCascadeRouter : ModelCascadeRouter := mkRouter ∅ "" ∅ ∅ ∅ [].
Definition no_metrics : providerMetricsInternal := mkMetrics 0 0 [] ∅.

Definition Count (r : ModelCascadeRouter) : Z := Z.of_nat (size (providers r)).
Definition HasRealProvider (r : ModelCascadeRouter) : bool :=
  existsb (fun p => negb (bool_decide (p.1 = "local-stub"))) (map_to_list (providers r)).
Definition SetDefaultProvider (id : string) (r : ModelCascadeRouter) : ModelCascadeRouter :=
  mkRouter (providers r) id (failures r) (trippedUntil r) (metrics r) (calls r).

Definition RegisterProvider (id : string) (p : handle) (r : ModelCascadeRouter) : ModelCascadeRouter :=
  mkRouter (<[id := p]> (providers r))
    (if bool_decide (defaultID r = "") || (bool_decide (defaultID r = "local-stub") && negb (bool_decide (id = "local-stub")))
     then id else defaultID r)
    (failures r) (trippedUntil r)
    (match metrics r !! id with Some _ => metrics r | None => <[id := no_metrics]> (metrics r) end)
    (calls r).

(** ** Circuit breaker and statistics *)

Definition cascadeRetriesPerProvider : nat := 2.
Definition circuitBreakerThreshold : Z := 3.
Definition circuitBreakerHold : Z := 60 * second.

Definition providerTripped (r : ModelCascadeRouter) (id : string) (t : Z) : bool :=
  match trippedUntil r !! id with Some until => time_before t until | None => false end.

(** The last fifty samples. *)
Definition last50 (l : list Z) : list Z := if 50 <? Z.of_nat (length l) then drop (length l - 50) l else l.

Definition count_call (ts : TaskKindStats) (failed : bool) : TaskKindStats :=
  mkTaskKindStats (TkTotalCalls ts + 1) (TkSuccesses ts + if failed then 0 else 1) (TkFailures ts + if failed then 1 else 0).

Definition count_metrics (met : providerMetricsInternal) (kind : string) (latMs : Z) (failed : bool) : providerMetricsInternal :=
  let kind := if bool_decide (kind = "") then TaskKindGeneral else kind in
  let ts := default (mkTaskKindStats 0 0 0) (taskStats met !! kind) in
  mkMetrics (totalCalls met + 1) (totalFailures met + if failed then 1 else 0)
    (last50 (latencySamples met ++ [latMs])) (<[kind := count_call ts failed]> (taskStats met)).

(** [recordProviderResult] at the instant [t] its clock shows. *)
Definition record_at (id kind : string) (duration : Z) (failed : bool) (t : Z) (r : ModelCascadeRouter) : ModelCascadeRouter :=
  let met := default no_metrics (metrics r !! id) in
  let m := <[id := count_metrics met kind (duration `quot` millisecond) failed]> (metrics r) in
  if failed then
    let n := default 0 (failures r !! id) + 1 in
    set_breaker r (<[id := n]> (failures r))
      (if circuitBreakerThreshold <=? n then <[id := time_add t circuitBreakerHold]> (trippedUntil r) else trippedUntil r) m
  else set_breaker r (<[id := 0]> (failures r)) (delete id (trippedUntil r)) m.

Abbreviation llm := (io ModelCascadeRouter llm_error).

Definition recordProviderResult (id kind : string) (duration : Z) (failed : bool) : llm unit :=
  t ← now; modify (record_at id kind duration failed t).

(** ** Finding a provider *)

(** [id[:strings.Index(id, '/')]], the whole id without a slash. *)
Definition slash_prefix (id : string) : string :=
  match index id "/" with Some i => take_bytes i id | None => id end.
Definition after_slash (id : string) : option string :=
  match index id "/" with Some i => slice_from (S i) id | None => None end.

Section router.
Context `{Unicode} {MR : MapRange} {MS : Models}.

Definition IsContextWindowError (text : string) : bool :=
  let text := to_lower text in
  existsb (contains_str text)
    ["context window"; "context_length"; "maximum context length"; "prompt is too long"; "input is too long"; "too many tokens"].

Definition fuzzy_match (cleanID k : string) : bool :=
  let kLower := to_lower k in
  bool_decide (kLower = cleanID) || has_prefix cleanID kLower || has_prefix kLower cleanID ||
  (bool_decide (cleanID = "google") && bool_decide (kLower = "gemini")) ||
  (bool_decide (cleanID = "gemini") && bool_decide (kLower = "google")).

Definition usable_fallback (k : string) : bool :=
  negb (bool_decide (k = "local-stub") || has_prefix k "local-stub/").

Definition first_provider (p : string -> bool) (l : list (string * handle)) : option handle :=
  first_some (fun kp => if p kp.1 then Some kp.2 else None) l.

Definition GetProvider (id : string) : llm handle :=
  r ← get;
  match providers r !! id with
  | Some p => mret p
  | None =>
      let prefix := slash_prefix id in
      match (if bool_decide (prefix = id) then None else providers r !! prefix) with
      | Some p => mret p
      | None =>
          l ← ranged (providers r);
          match first_provider (fuzzy_match (to_lower prefix)) l with
          | Some p => mret p
          | None =>
              match (if bool_decide (defaultID r = "") || bool_decide (defaultID r = "local-stub") then None
                     else providers r !! defaultID r) with
              | Some p => mret p
              | None =>
                  l ← ranged (providers r);
                  match first_provider usable_fallback l with
                  | Some p => mret p
                  | None => throw (ErrProviderNotFound id)
                  end
              end
          end
      end
  end.

(** ** The cascade *)

Definition lastResortIDs (r : ModelCascadeRouter) (cascadeOrder : list string) : list string :=
  let seen := cascadeOrder ++ (slash_prefix <$> cascadeOrder) in
  filter (fun c => (c ∉ seen) /\ is_Some (providers r !! c)) ["ollama"].

(** The default provider when the caller names none. *)
Definition default_order (r : ModelCascadeRouter) (cascadeOrder : list string) : list string :=
  match cascadeOrder with
  | [] => if negb (bool_decide (defaultID r = "")) && negb (bool_decide (defaultID r = "local-stub"))
          then [defaultID r] else []
  | _ => cascadeOrder
  end.

(** The model named after the slash, unless the options name one. *)
Definition call_options (opts : CompletionOptions) (target : string) : CompletionOptions :=
  match after_slash target with
  | Some m => if bool_decide (Model opts = "") then with_model opts m else opts
  | None => opts
  end.

(** [ctx.Err()] and [case <-ctx.Done()]. *)
Definition ctx_err : llm unit := db ContextDone.

(** One request to a provider, timed. *)
Definition timed_complete (c : Call) : llm (result string Response * Z) :=
  start ← now;
  n ← gets (fun r => length (calls r));
  _ ← modify (fun r => add_call r c);
  fin ← now;
  mret (complete n c, time_sub fin start).

(** The attempts on one provider: [Ok] when it answered, else the last
    error.  After a failure the code waits whenever the attempt is not the
    [cascadeRetriesPerProvider]-th, also when no further attempt follows. *)
Fixpoint attempts_on (left attempt : nat) (c : Call) (kind : string) : llm (result llm_error Response) :=
  _ ← ctx_err;
  '(res, dur) ← timed_complete c;
  match res with
  | Ok resp =>
      _ ← recordProviderResult (CTarget c) kind dur false;
      mret (Ok (if bool_decide (CTarget c = "") then resp else set_model resp (CTarget c)))
  | Err e =>
      _ ← recordProviderResult (CTarget c) kind dur true;
      _ ← (if (S attempt <? cascadeRetriesPerProvider)%nat then (_ ← now; ctx_err) else mret tt);
      match left with
      | O => mret (Err (ProviderError e))
      | S left' => attempts_on left' (S attempt) c kind
      end
  end.

(** The loop over the targets; only the last one is tried twice. *)
Fixpoint try_targets (targets : list string) (messages : list Message) (opts : CompletionOptions)
    (lastErr : option llm_error) : llm Response :=
  match targets with
  | [] => throw (ErrAllProvidersFailed lastErr)
  | target :: rest =>
      if bool_decide (target = "local-stub") then try_targets rest messages opts lastErr
      else
        t ← now; r ← get;
        if providerTripped r target t then try_targets rest messages opts (Some (CircuitOpen target))
        else
          p ← attempt (GetProvider target);
          match p with
          | Err e => try_targets rest messages opts (Some e)
          | Ok h =>
              let c := mkCall target h messages (call_options opts target) false in
              res ← attempts_on (match rest with [] => cascadeRetriesPerProvider - 1 | _ => 0 end) 0 c (OTaskKind opts);
              match res with
              | Ok resp => mret resp
              | Err e => try_targets rest messages opts (Some e)
              end
          end
  end.

Definition CompleteWithCascade (cascadeOrder : list string) (messages : list Message) (opts : CompletionOptions) : llm Response :=
  let opts := WithDefaults opts in
  let messages := SanitizeMessages messages in
  r ← get;
  let order := default_order r cascadeOrder in
  try_targets (order ++ lastResortIDs r order) messages opts None.

(** The streaming cascade tries each target once and does not look at the
    circuit breaker. *)
Fixpoint try_streams (targets : list string) (messages : list Message) (opts : CompletionOptions)
    (lastErr : option llm_error) : llm Stream :=
  match targets with
  | [] => throw (ErrAllProvidersFailed lastErr)
  | target :: rest =>
      if bool_decide (target = "local-stub") then try_streams rest messages opts lastErr
      else
        p ← attempt (GetProvider target);
        match p with
        | Err e => try_streams rest messages opts (Some e)
        | Ok h =>
            let c := mkCall target h messages (call_options opts target) true in
            start ← now;
            n ← gets (fun r => length (calls r));
            _ ← modify (fun r => add_call r c);
            fin ← now;
            match stream_complete n c with
            | Ok ch => _ ← recordProviderResult target (OTaskKind opts) (time_sub fin start) false; mret ch
            | Err e =>
                _ ← recordProviderResult target (OTaskKind opts) (time_sub fin start) true;
                try_streams rest messages opts (Some (ProviderError e))
            end
        end
  end.

Definition StreamCompleteWithCascade (cascadeOrder : list string) (messages : list Message) (opts : CompletionOptions) : llm Stream :=
  let opts := WithDefaults opts in
  let messages := SanitizeMessages messages in
  r ← get;
  try_streams (default_order r cascadeOrder) messages opts None.

Definition Embed (providerID : string) (texts : list string) : llm Vectors :=
  r ← get;
  p ← GetProvider (if bool_decide (providerID = "") then defaultID r else providerID);
  match embed (length (calls r)) p texts with Ok v => mret v | Err e => throw (ProviderError e) end.

(** ** Health *)

Record ProviderHealthReport := mkReport {
  ReportID : string; ReportStatus : string; ReportTrippedUntil : option Z; ReportTotalCalls : Z; ReportTotalFailures : Z;
  P50LatencyMs : Z; P95LatencyMs : Z; ConsecutiveFails : Z; ReportTaskStats : gmap string TaskKindStats }.

(** [float64(n) * 0.95] in double precision; 0.95 is 8556839292003942 / 2^53. *)
Definition float_of_nat (n : nat) : spec_float := binary_normalize 53 1024 (Z.of_nat n) 0 false.
Definition f095 : spec_float := S754_finite false 8556839292003942 (-53).
Definition trunc (f : spec_float) : nat :=
  match f with
  | S754_finite false m e => Z.to_nat (Z.shiftl (Z.pos m) e)
  | _ => 0
  end.

Definition p50Idx (n : nat) : nat := n / 2.
Definition p95Idx (n : nat) : nat :=
  let i := trunc (SFmul 53 1024 (float_of_nat n) f095) in if (n <=? i)%nat then n - 1 else i.

(** [sort.Slice] on integers. *)
Definition sorted_samples (l : list Z) : list Z := merge_sort Z.le l.

Definition health_of (r : ModelCascadeRouter) (t : Z) (id : string) : ProviderHealthReport :=
  let fails := default 0 (failures r !! id) in
  let met := default no_metrics (metrics r !! id) in
  let sorted := sorted_samples (latencySamples met) in
  let sample i := default 0 (sorted !! i) in
  let '(status, until, consecutive) :=
    match trippedUntil r !! id with
    | Some u => if time_before t u then ("circuit_tripped", Some u, 0)
                else if 0 <? fails then ("degraded", None, fails) else ("healthy", None, 0)
    | None => if 0 <? fails then ("degraded", None, fails) else ("healthy", None, 0)
    end in
  mkReport id status until (totalCalls met) (totalFailures met)
    (sample (p50Idx (length sorted))) (sample (p95Idx (length sorted))) consecutive (taskStats met).

Definition GetHealthReport : llm (list ProviderHealthReport) :=
  r ← get; t ← now; l ← ranged (providers r); mret (health_of r t <$> l.*1).

(** The probe asks every provider except the stub; its own context of five
    seconds is part of what the provider answers. *)
Definition ping : list Message := [mkMessage RoleUser "ping" "" [] "" "" []].
Definition no_options : CompletionOptions := mkOptions "" "" "" None [] [].

Fixpoint probe_all (ids : list string) (results : gmap string (option llm_error)) : llm (gmap string (option llm_error)) :=
  match ids with
  | [] => mret results
  | id :: rest =>
      p ← attempt (GetProvider id);
      match p with
      | Err e => probe_all rest (<[id := Some e]> results)
      | Ok h =>
          '(res, dur) ← timed_complete (mkCall id h ping no_options false);
          match res with
          | Err e => _ ← recordProviderResult id TaskKindGeneral dur true; probe_all rest (<[id := Some (ProviderError e)]> results)
          | Ok _ => _ ← recordProviderResult id TaskKindGeneral dur false; probe_all rest (<[id := None]> results)
          end
      end
  end.

Definition RunSelfHealthProbe : llm (gmap string (option llm_error)) :=
  r ← get; l ← ranged (providers r);
  probe_all (filter (fun id => id <> "local-stub") l.*1) ∅.

End router.
