(* ===== verification/CascadeSpec.v ===== *)
(** * What the cascade of providers guarantees

    The breaker and the statistics as functions of the history of results;
    what a request calls, and what its answer is; the health report. *)

From S2P Require Import Prelude GoStrings GoText Io Transcript Cascade.
#[local] Open Scope Z_scope.

(** ** The circuit breaker as a function of the history

    A history of what changes the router: results recorded, providers
    registered, the default chosen. *)

Record outcome := mkOutcome { OcID : string; OcKind : string; OcDuration : Z; OcFailed : bool; OcTime : Z }.

Inductive op :=
  | Record_ (o : outcome)
  | Register_ (id : string) (p : handle)
  | SetDefault_ (id : string).

Definition apply_op (r : ModelCascadeRouter) (o : op) : ModelCascadeRouter :=
  match o with
  | Record_ o => record_at (OcID o) (OcKind o) (OcDuration o) (OcFailed o) (OcTime o) r
  | Register_ id p => RegisterProvider id p r
  | SetDefault_ id => SetDefaultProvider id r
  end.

Definition play (h : list op) : ModelCascadeRouter := foldl apply_op NewModelCascadeRouter h.

(** The results of one provider, oldest first. *)
Definition results_of (id : string) (h : list op) : list outcome :=
  omap (fun o => match o with Record_ x => if bool_decide (OcID x = id) then Some x else None | _ => None end) h.

(** How many of the last results are failures. *)
Fixpoint leading_failures (l : list outcome) : Z :=
  match l with o :: l' => if OcFailed o then 1 + leading_failures l' else 0 | [] => 0 end.
Definition streak (l : list outcome) : Z := leading_failures (reverse l).

Definition kind_of (o : outcome) : string := if bool_decide (OcKind o = "") then TaskKindGeneral else OcKind o.
Definition milliseconds (o : outcome) : Z := OcDuration o `quot` millisecond.
Definition failed_count (l : list outcome) : Z := Z.of_nat (length (filter (fun o => OcFailed o = true) l)).
Definition served_count (l : list outcome) : Z := Z.of_nat (length (filter (fun o => OcFailed o = false) l)).

Definition stats_of (l : list outcome) : option TaskKindStats :=
  match l with
  | [] => None
  | _ => Some (mkTaskKindStats (Z.of_nat (length l)) (served_count l) (failed_count l))
  end.

(** The abstract state of one provider. *)
Record health_spec (l : list outcome) (fails : Z) (until : option Z) (met : providerMetricsInternal) : Prop := {
  spec_fails : fails = streak l;
  spec_until : until = if 3 <=? streak l then (fun o => OcTime o + 60 * second) <$> last l else None;
  spec_calls : totalCalls met = Z.of_nat (length l);
  spec_failures : totalFailures met = failed_count l;
  spec_samples : latencySamples met = drop (length l - 50) (milliseconds <$> l);
  spec_stats : forall k, taskStats met !! k = stats_of (filter (fun o => kind_of o = k) l);
}.

Lemma streak_snoc l o : streak (l ++ [o]) = if OcFailed o then 1 + streak l else 0.
Proof. unfold streak. by rewrite reverse_snoc. Qed.

Lemma last50_snoc {A} (f : A -> Z) (l : list A) x :
  last50 (drop (length l - 50) (f <$> l) ++ [x]) = drop (S (length l) - 50) ((f <$> l) ++ [x]).
Proof.
  unfold last50. rewrite length_app, length_drop, length_fmap. cbn [length].
  destruct (50 <? _) eqn:H.
  - rewrite drop_app_le by (rewrite length_drop, length_fmap; lia). rewrite drop_drop.
    rewrite drop_app_le by (rewrite length_fmap; lia). f_equal. f_equal. lia.
  - destruct (decide (length l < 50)%nat) as [Hl|Hl].
    + replace (length l - 50)%nat with 0%nat by lia. replace (S (length l) - 50)%nat with 0%nat by lia. done.
    + exfalso. apply Z.ltb_ge in H. lia.
Qed.

Lemma failed_count_snoc l o : failed_count (l ++ [o]) = failed_count l + if OcFailed o then 1 else 0.
Proof.
  unfold failed_count. rewrite filter_app, length_app.
  destruct (OcFailed o) eqn:H; [rewrite filter_cons_True by done|rewrite filter_cons_False by (by rewrite H)]; cbn [length filter list_filter]; lia.
Qed.
Lemma served_count_snoc l o : served_count (l ++ [o]) = served_count l + if OcFailed o then 0 else 1.
Proof.
  unfold served_count. rewrite filter_app, length_app.
  destruct (OcFailed o) eqn:H; [rewrite filter_cons_False by (by rewrite H)|rewrite filter_cons_True by done]; cbn [length filter list_filter]; lia.
Qed.

Lemma stats_snoc l o :
  stats_of (l ++ [o]) = Some (count_call (default (mkTaskKindStats 0 0 0) (stats_of l)) (OcFailed o)).
Proof.
  destruct l as [|o' l]; [by destruct o as [? ? ? [] ?]|]. 
  change (stats_of ((o' :: l) ++ [o])) with
    (Some (mkTaskKindStats (Z.of_nat (length ((o' :: l) ++ [o]))) (served_count ((o' :: l) ++ [o])) (failed_count ((o' :: l) ++ [o])))).
  rewrite served_count_snoc, failed_count_snoc, length_app. unfold count_call, stats_of, default; cbv delta [id] beta. cbn [TkTotalCalls TkSuccesses TkFailures].
  do 2 f_equal. cbn [length]. lia.
Qed.

(** One more result of the provider. *)
Lemma health_spec_snoc l o fails until met :
  health_spec l fails until met ->
  health_spec (l ++ [o])
    (if OcFailed o then fails + 1 else 0)
    (if OcFailed o then (if 3 <=? fails + 1 then Some (OcTime o + 60 * second) else until) else None)
    (count_metrics met (OcKind o) (milliseconds o) (OcFailed o)).
Proof.
  intros [Hf Hu Hc Ht Hs Hk]. split; unfold count_metrics; cbn [totalCalls totalFailures latencySamples taskStats].
  - rewrite streak_snoc, Hf. destruct (OcFailed o); lia.
  - rewrite streak_snoc, last_snoc. destruct (OcFailed o); [|done]. rewrite Hf, Hu, (Z.add_comm 1).
    destruct (3 <=? streak l + 1) eqn:H3; [done|]. by replace (3 <=? streak l) with false by lia.
  - rewrite Hc, length_app. cbn [length]. lia.
  - by rewrite Ht, failed_count_snoc.
  - rewrite Hs, fmap_app, length_app. cbn [fmap list_fmap length]. rewrite (last50_snoc milliseconds).
    f_equal. lia.
  - intros k. rewrite filter_app. fold (kind_of o).
    destruct (decide (kind_of o = k)) as [<-|Hne].
    + rewrite lookup_insert_eq, (filter_cons_True _ o) by done. by rewrite stats_snoc, Hk.
    + rewrite lookup_insert_ne by done. rewrite (filter_cons_False _ o) by done. by rewrite app_nil_r, Hk.
Qed.

Lemma results_snoc id h o :
  results_of id (h ++ [o]) = results_of id h ++
    match o with Record_ x => if bool_decide (OcID x = id) then [x] else [] | _ => [] end.
Proof.
  unfold results_of. rewrite omap_app. f_equal. destruct o as [x| |]; cbn; [|done..]. by case_bool_decide.
Qed.

Lemma play_health h id :
  health_spec (results_of id h)
    (default 0 (failures (play h) !! id))
    (trippedUntil (play h) !! id)
    (default no_metrics (metrics (play h) !! id)).
Proof.
  unfold play. induction h as [|o h IH] using rev_ind; [by split|].
  rewrite foldl_snoc, results_snoc. set (r := foldl apply_op NewModelCascadeRouter h) in *.
  destruct o as [x|i p|i]; cbn [apply_op].
  - case_bool_decide as Hid.
    + subst id. specialize (health_spec_snoc _ x _ _ _ IH) as H.
      unfold record_at, set_breaker, milliseconds, time_add, circuitBreakerThreshold, circuitBreakerHold in *.
      destruct (OcFailed x); cbn [failures trippedUntil metrics]; rewrite !lookup_insert_eq; cbn [default].
      * destruct (3 <=? _); [by rewrite lookup_insert_eq|done].
      * by rewrite lookup_delete_eq.
    + rewrite app_nil_r. unfold record_at, set_breaker.
      destruct (OcFailed x); cbn [failures trippedUntil metrics]; rewrite !lookup_insert_ne by done.
      * by destruct (_ <=? _); [rewrite lookup_insert_ne by done|].
      * by rewrite lookup_delete_ne by done.
  - rewrite app_nil_r. unfold RegisterProvider. cbn [failures trippedUntil metrics].
    destruct (metrics r !! i) eqn:Hm; [done|]. destruct (decide (i = id)) as [->|Hne].
    + rewrite lookup_insert_eq. rewrite Hm in IH. done.
    + by rewrite lookup_insert_ne by done.
  - by rewrite app_nil_r.
Qed.

(** C17. Refinement of the breaker: whatever was registered and recorded in
    whatever order, the state kept for a provider is a function of its own
    results.  Its failure count is the number of failures since its last
    success, it is held back for a minute from the last of three or more
    failures in a row, the totals count its results and those of each kind of
    task, and the samples are the last fifty latencies. *)
Theorem breaker_refines h id :
  health_spec (results_of id h)
    (default 0 (failures (play h) !! id))
    (trippedUntil (play h) !! id)
    (default no_metrics (metrics (play h) !! id)).
Proof. apply play_health. Qed.

(** ** What a request calls *)

Section cascade.
Context `{Unicode} {MR : MapRange} {MS : Models}.

(** None of the calls, made after [i] others, was answered. *)
Definition all_failed (i : nat) (cs : list Call) : Prop :=
  forall k c, cs !! k = Some c -> is_ok (complete (i + k) c) = false.

Definition named (resp : Response) (target : string) : Response :=
  if bool_decide (target = "") then resp else set_model resp target.

(** The last of the calls was answered, with this response. *)
Definition answered (i : nat) (cs : list Call) (resp : Response) : Prop :=
  exists cs0 c resp0, cs = cs0 ++ [c] /\ all_failed i cs0 /\ complete (i + length cs0) c = Ok resp0 /\
    resp = named resp0 (CTarget c).

(** What a part of a request may do to the router: calls are added, the
    circuits of providers not called stay as they are, time passes. *)
Definition sent (cs : list Call) (r r' : ModelCascadeRouter) : Prop :=
  calls r' = calls r ++ cs /\ providers r' = providers r /\
  (forall id, Forall (fun c => CTarget c <> id) cs -> trippedUntil r' !! id = trippedUntil r !! id).

Lemma sent_nil r : sent [] r r.
Proof. repeat split. by rewrite app_nil_r. Qed.

Lemma sent_app cs cs' r r' r'' : sent cs r r' -> sent cs' r' r'' -> sent (cs ++ cs') r r''.
Proof.
  intros (H1 & H2 & H3) (G1 & G2 & G3). split; [by rewrite G1, H1, app_assoc|]. split; [by rewrite G2|].
  intros id [Hc Hc']%Forall_app. by rewrite G3, H3.
Qed.

Lemma all_failed_nil i : all_failed i [].
Proof. by intros k c. Qed.

Lemma all_failed_app i cs cs' : all_failed i cs -> all_failed (i + length cs) cs' -> all_failed i (cs ++ cs').
Proof.
  intros H1 H2 k c [Hk|[Hk Hc]]%lookup_app_Some; [by apply H1|].
  apply H2 in Hc. by replace (i + k)%nat with (i + length cs + (k - length cs))%nat by lia.
Qed.

Lemma all_failed_one i c text : complete i c = Err text -> all_failed i [c].
Proof. intros Hc [|k] c'; [|done]. intros [= <-]. by rewrite Nat.add_0_r, Hc. Qed.

Lemma answered_app i cs cs' resp : all_failed i cs -> answered (i + length cs) cs' resp -> answered i (cs ++ cs') resp.
Proof.
  intros Hf (cs0 & c & resp0 & -> & Hf0 & Hc & ->). exists (cs ++ cs0), c, resp0.
  split; [by rewrite app_assoc|]. split; [by apply all_failed_app|]. split; [|done].
  rewrite length_app. by rewrite Nat.add_assoc.
Qed.

(** A call with its result recorded. *)
Lemma called c kind d failed t r : sent [c] r (record_at (CTarget c) kind d failed t (add_call r c)).
Proof.
  unfold record_at, set_breaker, add_call, sent. destruct failed; cbn [calls providers trippedUntil]; split; [done|split; [done|]|done|split; [done|]];
    intros id [Hid _]%Forall_cons.
  - by destruct (_ <=? _); [rewrite lookup_insert_ne|].
  - by rewrite lookup_delete_ne.
Qed.

(** ** Rules for the parts *)

Lemma wp_timed_complete c (Q : result llm_error (result string Response * Z) -> ModelCascadeRouter -> env -> Prop) r e :
  (forall d e', clock e <= clock e' -> Q (Ok (complete (length (calls r)) c, d)) (add_call r c) e') -> wp (timed_complete c) Q r e.
Proof.
  intros HQ. unfold timed_complete. wp_go. apply HQ. unfold env_le in *. lia.
Qed.

Lemma wp_record id kind d failed (Q : result llm_error unit -> ModelCascadeRouter -> env -> Prop) r e :
  (forall t e', clock e <= clock e' -> Q (Ok tt) (record_at id kind d failed t r) e') -> wp (recordProviderResult id kind d failed) Q r e.
Proof. intros HQ. unfold recordProviderResult. wp_go. apply HQ. unfold env_le in *. lia. Qed.

Lemma wp_ctx (Q : result llm_error unit -> ModelCascadeRouter -> env -> Prop) r e :
  (forall res e', clock e <= clock e' -> (res = Ok tt \/ res = Err ContextDone) -> Q res r e') -> wp ctx_err Q r e.
Proof. intros HQ. unfold ctx_err. apply wp_db. intros e' ? ?. unfold env_le in *. split; apply HQ; auto; lia. Qed.

(** The attempts on one provider: between [lo] and [bound] calls, unless the
    context is done. *)
Definition attempted (c : Call) (lo bound : nat) (r : ModelCascadeRouter)
    (res : result llm_error (result llm_error Response)) (r' : ModelCascadeRouter) : Prop :=
  exists n, (n <= bound)%nat /\ sent (replicate n c) r r' /\
    match res with
    | Ok (Ok resp) => answered (length (calls r)) (replicate n c) resp
    | Ok (Err _) => (lo <= n)%nat /\ all_failed (length (calls r)) (replicate n c)
    | Err x => x = ContextDone /\ all_failed (length (calls r)) (replicate n c)
    end.

(** A failed call, then the rest. *)
Lemma attempted_more c bound r r1 res r' :
  sent [c] r r1 -> all_failed (length (calls r)) [c] -> attempted c 0 bound r1 res r' -> attempted c 1 (S bound) r res r'.
Proof.
  intros Hs Hf (n & Hn & Hs' & Hres). exists (S n). split; [lia|].
  assert (Hlen : length (calls r1) = (length (calls r) + length [c])%nat).
  { destruct Hs as (-> & _). by rewrite length_app. }
  rewrite Hlen in Hres. change (replicate (S n) c) with ([c] ++ replicate n c).
  split; [by apply (sent_app [c] _ r r1)|].
  destruct res as [[resp|x]|x].
  - by apply answered_app.
  - destruct Hres. split; [lia|by apply all_failed_app].
  - destruct Hres. split; [done|by apply all_failed_app].
Qed.

Lemma attempted_weaken c lo bound r res r' : attempted c lo bound r res r' -> attempted c 0 bound r res r'.
Proof. intros (n & Hn & Hs & Hres). exists n. split; [done|]. split; [done|]. destruct res as [[]|]; [done| |done]. split; [lia|apply Hres]. Qed.

Definition attempt_post c lo bound r e := fun (res : result llm_error (result llm_error Response)) r' (e' : env) =>
  attempted c lo bound r res r' /\ clock e <= clock e'.

(** A context found done before or after the calls. *)
Lemma attempted_done c lo bound r : attempted c lo bound r (Err ContextDone) r.
Proof. exists 0%nat. split; [lia|]. split; [apply sent_nil|]. split; [done|apply all_failed_nil]. Qed.

Lemma attempts_unfold left attempt c kind :
  attempts_on left attempt c kind =
  (_ ← ctx_err;
   '(res, dur) ← timed_complete c;
   match res with
   | Ok resp =>
       _ ← recordProviderResult (CTarget c) kind dur false;
       mret (Ok (named resp (CTarget c)))
   | Err e =>
       _ ← recordProviderResult (CTarget c) kind dur true;
       _ ← (if (S attempt <? cascadeRetriesPerProvider)%nat then (_ ← now; ctx_err) else mret tt);
       match left with
       | O => mret (Err (ProviderError e))
       | S left' => attempts_on left' (S attempt) c kind
       end
   end).
Proof. by destruct left. Qed.

Lemma attempts_step left attempt c kind bound r e :
  (forall x r1 e1, clock e <= clock e1 ->
     wp (match left with O => mret (Err (ProviderError x)) | S left' => attempts_on left' (S attempt) c kind end)
       (attempt_post c 0 bound r1 e) r1 e1) ->
  wp (attempts_on left attempt c kind) (attempt_post c 1 (S bound) r e) r e.
Proof.
  intros HK. rewrite attempts_unfold.
  apply wp_bind, wp_ctx. intros res e1 He1 [->| ->]; [|split; [apply attempted_done|done]].
  apply wp_bind, wp_timed_complete. intros d e2 He2. cbn iota beta.
  destruct (complete (length (calls r)) c) as [resp|x] eqn:Hc.
  - apply wp_bind, wp_record. intros t e3 He3. apply wp_ret. split; [|lia].
    exists 1%nat. split; [lia|]. split; [apply called|]. exists [], c, resp. split; [done|]. split; [apply all_failed_nil|].
    cbn [length]. by rewrite Nat.add_0_r.
  - assert (Hf := all_failed_one _ _ _ Hc).
    apply wp_bind, wp_record. intros t e3 He3. set (r1 := record_at _ _ _ _ _ _).
    assert (Hs : sent [c] r r1) by apply called.
    assert (Hdone : attempt_post c 1 (S bound) r e (Err ContextDone) r1 e3).
    { split; [|lia]. apply (attempted_more c bound r r1 _ r1 Hs Hf). apply attempted_done. }
    apply wp_bind. destruct (_ <? _)%nat.
    + apply wp_bind, wp_now. intros e4 He4 _. apply wp_ctx. unfold env_le in *. intros res e5 He5 [->| ->].
      * eapply wp_mono; [apply HK; lia|]. intros res' r' e' [Ha He]. split; [by eapply attempted_more|lia].
      * split; [apply Hdone|lia].
    + apply wp_ret. eapply wp_mono; [apply HK; lia|]. intros res' r' e' [Ha He]. split; [by eapply attempted_more|lia].
Qed.

Lemma attempts_trace left attempt c kind r e :
  wp (attempts_on left attempt c kind) (attempt_post c 1 (S left) r e) r e.
Proof.
  revert attempt r e. induction left as [|left IH]; intros attempt r e; apply attempts_step; intros x r1 e1 He1.
  - apply wp_ret. split; [|done]. exists 0%nat. split; [lia|]. split; [apply sent_nil|]. split; [lia|apply all_failed_nil].
  - eapply wp_mono; [apply IH|]. intros res r' e' [Ha He]. split; [by eapply attempted_weaken|lia].
Qed.
(** Finding a provider changes nothing; a provider registered under the name
    itself is the one found. *)
Definition found (r : ModelCascadeRouter) (target : string) (res : result llm_error handle) : Prop :=
  match res with
  | Ok h => (exists k, providers r !! k = Some h) /\ (forall h', providers r !! target = Some h' -> h = h')
  | Err x => x = ErrProviderNotFound target /\ providers r !! target = None
  end.

Lemma ranged_providers (n : nat) (m : gmap string handle) p h :
  first_provider p (range_order _ n (map_to_list m)) = Some h -> exists k, m !! k = Some h.
Proof.
  unfold first_provider. intros (pre & [k h'] & post & Hl & Hx & _)%first_some_Some. exists k. cbn in Hx. destruct (p k); [|done]. injection Hx as ->.
  apply elem_of_map_to_list. rewrite <- (range_perm _ n (map_to_list m)), Hl. set_solver.
Qed.

Lemma wp_ranged {A} (m : gmap string A) (Q : result llm_error (list (string * A)) -> ModelCascadeRouter -> env -> Prop) r e :
  (forall n e', clock e' = clock e -> Q (Ok (range_order _ n (map_to_list m))) r e') -> wp (ranged m) Q r e.
Proof. intros HQ. unfold ranged. apply wp_bind, wp_draw. intros e' _ He _. by apply wp_ret, HQ. Qed.

Lemma GetProvider_found target r e :
  wp (GetProvider target) (fun res r' e' => r' = r /\ clock e' = clock e /\ found r target res) r e.
Proof.
  unfold GetProvider. apply wp_bind, wp_get.
  destruct (providers r !! target) as [h|] eqn:Hd.
  { apply wp_ret. split; [done|]. split; [done|]. split; [by exists target|]. rewrite Hd. by intros ? [= <-]. }
  assert (Hok : forall h k, providers r !! k = Some h -> found r target (Ok h)).
  { intros h k Hk. split; [by exists k|]. by rewrite Hd. }
  destruct (if bool_decide _ then _ else _) as [h|] eqn:Hp.
  { apply wp_ret. split; [done|]. split; [congruence|]. case_bool_decide; [done|]. by eapply Hok. }
  apply wp_bind, wp_ranged. intros n e1 He1. cbv beta iota. destruct (first_provider _ _) as [h|] eqn:Hf.
  { apply wp_ret. split; [done|]. split; [congruence|]. apply ranged_providers in Hf as [k Hk]. by eapply Hok. }
  destruct (if _ || _ then _ else _) as [h|] eqn:Hdef.
  { apply wp_ret. split; [done|]. split; [congruence|]. destruct (_ || _); [done|]. by eapply Hok. }
  apply wp_bind, wp_ranged. intros n' e2 He2. cbv beta iota. destruct (first_provider usable_fallback _) as [h|] eqn:Hf2.
  { apply wp_ret. split; [done|]. split; [congruence|]. apply ranged_providers in Hf2 as [k Hk]. by eapply Hok. }
  apply wp_throw. split; [done|]. split; [congruence|done].
Qed.

(** A call a request may make: to a target of its own other than the stub,
    with the cleaned messages and the target's options. *)
Definition proper_call (targets : list string) (messages : list Message) (opts : CompletionOptions)
    (known : gmap string handle) (c : Call) : Prop :=
  CTarget c ∈ targets /\ CTarget c <> "local-stub" /\ CMessages c = messages /\ COptions c = call_options opts (CTarget c) /\
  (exists k, known !! k = Some (CHandle c)) /\ (forall h, known !! CTarget c = Some h -> CHandle c = h).

(** A target a request cannot fail without having asked. *)
Definition usable (r : ModelCascadeRouter) (target : string) : Prop :=
  target <> "local-stub" /\ is_Some (providers r !! target) /\ trippedUntil r !! target = None.

Record traced (targets : list string) (messages : list Message) (opts : CompletionOptions)
    (r : ModelCascadeRouter) (res : result llm_error Response) (r' : ModelCascadeRouter) (t' : Z) (cs : list Call) : Prop := {
  tr_sent : sent cs r r';
  tr_proper : Forall (proper_call targets messages opts (providers r)) cs;
  tr_bound : (length cs <= S (length targets))%nat;
  tr_held : forall id until, trippedUntil r !! id = Some until -> t' < until -> Forall (fun c => CTarget c <> id) cs;
  tr_result :
    match res with
    | Ok resp => answered (length (calls r)) cs resp
    | Err ContextDone => all_failed (length (calls r)) cs
    | Err (ErrAllProvidersFailed _) => all_failed (length (calls r)) cs /\
        (forall target, target ∈ targets -> usable r target -> exists c, c ∈ cs /\ CTarget c = target)
    | Err _ => False
    end;
}.

Lemma proper_more target targets messages opts known c :
  proper_call targets messages opts known c -> proper_call (target :: targets) messages opts known c.
Proof. intros (H1 & H2). split; [by apply list_elem_of_further|done]. Qed.

(** A target passed over: the rest of the loop from the same router. *)
Lemma traced_skip target targets messages opts r res r' t' cs :
  traced targets messages opts r res r' t' cs -> ~ usable r target ->
  traced (target :: targets) messages opts r res r' t' cs.
Proof.
  intros [Hs Hp Hb Hh Hr] Hu. split; [done|eapply Forall_impl; [exact Hp|intros c; apply proper_more]|cbn; lia|done|].
  destruct res as [resp|[| | | |last]]; try done. destruct Hr as [Hf Hall]. split; [done|].
  intros t [->|Ht]%elem_of_cons Hus; [done|by apply Hall].
Qed.

(** A target asked in vain, then the rest. *)
Lemma traced_more target targets messages opts r r1 res r' t' c n cs :
  CTarget c = target -> (0 < n)%nat -> (n <= 1)%nat \/ targets = [] /\ (n <= 2)%nat ->
  proper_call (target :: targets) messages opts (providers r) c ->
  sent (replicate n c) r r1 -> all_failed (length (calls r)) (replicate n c) ->
  (forall until, trippedUntil r !! target = Some until -> until <= t') ->
  traced targets messages opts r1 res r' t' cs -> traced (target :: targets) messages opts r res r' t' (replicate n c ++ cs).
Proof.
  intros Ht Hn Hb1 Hc Hs Hf Hopen [Hs' Hp Hb Hh Hr].
  assert (Hlen : length (calls r1) = (length (calls r) + length (replicate n c))%nat).
  { destruct Hs as (-> & _). by rewrite length_app. }
  assert (Hprov : providers r1 = providers r) by apply Hs.
  assert (Hother : forall id, id <> target -> trippedUntil r1 !! id = trippedUntil r !! id).
  { intros id Hid. apply Hs. apply Forall_replicate. congruence. }
  split.
  - by eapply sent_app.
  - apply Forall_app. split; [by apply Forall_replicate|]. rewrite Hprov in Hp.
    eapply Forall_impl; [exact Hp|intros c'; apply proper_more].
  - rewrite length_app, length_replicate. cbn [length]. destruct Hb1 as [|[-> ?]]; cbn [length] in *; [lia|].
    destruct cs as [|c' cs]; [cbn; lia|]. apply Forall_cons in Hp as [[Hin _] _]. by apply not_elem_of_nil in Hin.
  - intros id u Hid Hlt. apply Forall_app. destruct (decide (id = target)) as [->|Hne].
    + specialize (Hopen u Hid). lia.
    + split; [apply Forall_replicate; congruence|]. apply (Hh id u); [by rewrite Hother|done].
  - destruct res as [resp|[| | | |last]]; try done; rewrite Hlen in Hr.
    + by apply answered_app.
    + by apply all_failed_app.
    + destruct Hr as [Hf' Hall]. split; [by apply all_failed_app|].
      intros t Hin (Hu1 & Hu2 & Hu3). destruct (decide (t = target)) as [->|Hne].
      * exists c. split; [|done]. apply elem_of_app. left. destruct n; [lia|]. apply list_elem_of_here.
      * apply elem_of_cons in Hin as [|Hin]; [done|]. destruct (Hall t Hin) as (c' & Hc' & <-).
        { split; [done|]. rewrite Hprov, (Hother t Hne). done. }
        exists c'. split; [|done]. apply elem_of_app. by right.
Qed.
(** The invariant of the loop as a postcondition. *)
Definition trace_post targets messages opts r e := fun (res : result llm_error Response) r' (e' : env) =>
  clock e <= clock e' /\ exists cs, traced targets messages opts r res r' (clock e') cs.

Lemma traced_nil messages opts r last t : traced [] messages opts r (Err (ErrAllProvidersFailed last)) r t [].
Proof.
  split; [apply sent_nil|constructor|cbn; lia|constructor|]. split; [apply all_failed_nil|]. by intros ? ?%not_elem_of_nil.
Qed.

Lemma trace_skip target targets messages opts r e e1 m :
  clock e <= clock e1 -> ~ usable r target ->
  wp m (trace_post targets messages opts r e1) r e1 -> wp m (trace_post (target :: targets) messages opts r e) r e1.
Proof.
  intros He Hu Hm. eapply wp_mono; [exact Hm|]. intros res r' e' [He' [cs Hcs]]. split; [lia|].
  exists cs. by apply traced_skip.
Qed.

Lemma try_targets_trace targets messages opts last r e :
  wp (try_targets targets messages opts last) (trace_post targets messages opts r e) r e.
Proof.
  revert last r e. induction targets as [|target rest IH]; intros last r e; cbn [try_targets].
  { apply wp_throw. split; [done|]. exists []. apply traced_nil. }
  case_bool_decide as Hstub.
  { eapply trace_skip; [done|by intros [? _]|apply IH]. }
  apply wp_bind, wp_now. intros e1 He1 _. apply wp_bind, wp_get. cbv beta iota.
  assert (Hle1 : clock e <= clock e1) by (unfold env_le in He1; lia).
  destruct (providerTripped r target (clock e1)) eqn:Htrip.
  { eapply trace_skip; [done| |apply IH]. intros (_ & _ & Hn). unfold providerTripped in Htrip. by rewrite Hn in Htrip. }
  apply wp_bind, wp_attempt. eapply wp_mono; [apply GetProvider_found|].
  intros p r1 e2 (-> & He2 & Hfound). cbv beta iota.
  destruct p as [h|x]; cbv beta iota.
  2: { eapply trace_skip; [lia| |apply IH]. intros (_ & [h Hh] & _). destruct Hfound as [_ Hnone]. by rewrite Hnone in Hh. }
  set (c := mkCall _ _ _ _ _).
  assert (Hc : proper_call (target :: rest) messages opts (providers r) c).
  { destruct Hfound as [Hk Hh]. split; [apply list_elem_of_here|]. by split_and!. }
  assert (Hopen : forall until, trippedUntil r !! target = Some until -> until <= clock e1).
  { intros u Hu. unfold providerTripped, time_before in Htrip. rewrite Hu in Htrip. lia. }
  apply wp_bind. eapply wp_mono; [apply attempts_trace|]. intros res r2 e3 [Hatt He3].
  destruct Hatt as (n & Hn & Hs & Hres).
  assert (Hn' : (n <= 1)%nat \/ rest = [] /\ (n <= 2)%nat).
  { destruct rest; [right|left]; cbn in Hn; auto. }
  assert (Hone : forall res', match res' with
      | Ok resp => answered (length (calls r)) (replicate n c) resp
      | Err x => x = ContextDone /\ all_failed (length (calls r)) (replicate n c)
      end -> trace_post (target :: rest) messages opts r e res' r2 e3).
  { intros res' Hr'. split; [lia|]. exists (replicate n c). split.
    - done.
    - by apply Forall_replicate.
    - rewrite length_replicate. cbn [length]. destruct Hn' as [|[-> ?]]; cbn; lia.
    - intros id u Hid Hlt. apply Forall_replicate. cbn. intros <-. specialize (Hopen u Hid). lia.
    - destruct res' as [|x]; [done|]. by destruct Hr' as [-> ?]. }
  destruct res as [[resp|x]|x].
  - cbv beta iota. apply wp_ret. by apply Hone.
  - cbv beta iota. destruct Hres as [Hpos Hf]. eapply wp_mono; [apply IH|]. intros res' r' e' [He' [cs Hcs]].
    split; [lia|]. exists (replicate n c ++ cs). apply (traced_more target rest messages opts r r2); try done; try lia.
    intros u Hu. specialize (Hopen u Hu). lia.
  - by apply (Hone (Err x)).
Qed.

(** The targets of a request: the order given or the default provider, then
    the local models as a last resort. *)
Definition targets_of (r : ModelCascadeRouter) (cascadeOrder : list string) : list string :=
  let order := default_order r cascadeOrder in order ++ lastResortIDs r order.

Lemma cascade_run cascadeOrder messages opts r e res r' e' :
  CompleteWithCascade cascadeOrder messages opts r e = (res, (r', e')) ->
  exists cs, traced (targets_of r cascadeOrder) (SanitizeMessages messages) (WithDefaults opts) r res r' (clock e') cs.
Proof.
  intros Hrun. refine (run_wp _ (fun res r' e' => exists cs, traced _ _ _ r res r' (clock e') cs) r e res r' e' _ Hrun).
  unfold CompleteWithCascade. apply wp_bind, wp_get. cbv beta iota zeta.
  eapply wp_mono; [apply try_targets_trace|]. intros ? ? ? [_ H']. exact H'.
Qed.

(** A request makes at most one call more than it has targets, each with
    the cleaned messages to the provider registered for its target (never
    under the target of the stub), and all but the last in vain.  It answers with the last
    call's response, named after its target, or fails with every call in
    vain: because the context was done, or after every registered target
    whose circuit was closed had been asked. *)
Theorem cascade_answers cascadeOrder messages opts r e res r' e' :
  CompleteWithCascade cascadeOrder messages opts r e = (res, (r', e')) ->
  exists cs, calls r' = calls r ++ cs /\
    Forall (proper_call (targets_of r cascadeOrder) (SanitizeMessages messages) (WithDefaults opts) (providers r)) cs /\
    (length cs <= S (length (targets_of r cascadeOrder)))%nat /\
    match res with
    | Ok resp => answered (length (calls r)) cs resp
    | Err ContextDone => all_failed (length (calls r)) cs
    | Err (ErrAllProvidersFailed _) => all_failed (length (calls r)) cs /\
        (forall target, target ∈ targets_of r cascadeOrder -> usable r target -> exists c, c ∈ cs /\ CTarget c = target)
    | Err _ => False
    end.
Proof.
  intros Hrun. apply cascade_run in Hrun as [cs [Hs Hp Hb _ Hr]]. exists cs. split_and!; [apply Hs|done..].
Qed.

(** While a circuit stays open, no request calls that provider: it comes
    from at least three failures in a row, the last at most a minute before. *)
Theorem open_circuit_not_called cascadeOrder messages opts h e res r' e' id :
  CompleteWithCascade cascadeOrder messages opts (play h) e = (res, (r', e')) ->
  3 <= streak (results_of id h) ->
  (forall o, last (results_of id h) = Some o -> clock e' < OcTime o + 60 * second) ->
  exists cs, calls r' = calls (play h) ++ cs /\ Forall (fun c => CTarget c <> id) cs.
Proof.
  intros Hrun H3 Hlast. apply cascade_run in Hrun as [cs [Hs _ _ Hh _]]. exists cs. split; [apply Hs|].
  destruct (play_health h id) as [_ Hu _ _ _ _].
  destruct (last (results_of id h)) as [o|] eqn:Hl.
  - apply (Hh id (OcTime o + 60 * second)); [|by apply Hlast]. rewrite Hu.
    replace (3 <=? streak (results_of id h)) with true by lia. done.
  - apply last_None in Hl. rewrite Hl in H3. by cbn in H3.
Qed.
End cascade.

(** ** The health report *)

(** The index of the 95th percentile is computed in double precision; for up
    to fifty samples it is the integer part of the exact product, both
    indices are in range and in order. *)
Lemma percentile_indices n : (0 < n <= 50)%nat ->
  (p50Idx n <= p95Idx n < n)%nat /\ p95Idx n = (95 * n / 100)%nat.
Proof.
  intros Hn.
  assert (Hall : forallb (fun n => (p50Idx n <=? p95Idx n)%nat && (p95Idx n <? n)%nat && (p95Idx n =? 95 * n / 100)%nat) (seq 1 50) = true)
    by (vm_compute; reflexivity).
  rewrite forallb_forall in Hall. specialize (Hall n). rewrite in_seq in Hall. specialize (Hall ltac:(lia)).
  rewrite !andb_true_iff, Nat.leb_le, Nat.ltb_lt, Nat.eqb_eq in Hall. lia.
Qed.

Lemma sorted_sample (l : list Z) i j : (i <= j < length l)%nat ->
  exists x y, sorted_samples l !! i = Some x /\ sorted_samples l !! j = Some y /\ x <= y /\ x ∈ l /\ y ∈ l.
Proof.
  intros Hij. unfold sorted_samples. assert (Hp := merge_sort_Permutation Z.le l).
  assert (Hs : StronglySorted Z.le (merge_sort Z.le l)) by (apply (StronglySorted_merge_sort _)).
  assert (Hlen : length (merge_sort Z.le l) = length l) by (by rewrite Hp).
  destruct (lookup_lt_is_Some_2 (merge_sort Z.le l) i) as [x Hx]; [lia|].
  destruct (lookup_lt_is_Some_2 (merge_sort Z.le l) j) as [y Hy]; [lia|].
  exists x, y. split; [done|]. split; [done|]. split.
  - destruct (decide (i = j)) as [->|Hne]; [simplify_eq; lia|].
    rewrite <- (take_drop j (merge_sort Z.le l)) in Hs. apply (StronglySorted_app_1_elem_of Z.le _ _ x y Hs).
    + apply list_elem_of_lookup_2 with i. rewrite lookup_take_lt by lia. done.
    + apply list_elem_of_lookup_2 with 0%nat. by rewrite lookup_drop, Nat.add_0_r.
  - rewrite <- Hp. split; by eapply list_elem_of_lookup_2.
Qed.

(** Less than a minute since the last result. *)
Definition held (l : list outcome) (t : Z) : bool :=
  match last l with Some o => t <? OcTime o + 60 * second | None => false end.

(** The report of a provider: it says the circuit is open while it is,
    else degraded after a failure; the two percentiles are in order and
    among the last fifty latencies. *)
Theorem health_report h t id :
  let l := results_of id h in
  let recent := drop (length l - 50) (milliseconds <$> l) in
  let rep := health_of (play h) t id in
  ReportStatus rep =
    (if (3 <=? streak l) && held l t then "circuit_tripped"
     else if 0 <? streak l then "degraded" else "healthy") /\
  (l <> [] -> P50LatencyMs rep <= P95LatencyMs rep /\ P50LatencyMs rep ∈ recent /\ P95LatencyMs rep ∈ recent).
Proof.
  intros l recent rep. destruct (play_health h id) as [Hf Hu _ _ Hs _]. fold l in Hf, Hu, Hs. fold recent in Hs.
  split.
  - unfold rep, health_of. rewrite Hf, Hu. destruct (3 <=? streak l) eqn:H3; cbn [andb].
    + unfold held, time_before. destruct (last l) as [o|]; cbn [fmap option_fmap option_map]; [|by destruct (0 <? streak l)].
      destruct (t <? _); [done|]. by destruct (0 <? streak l).
    + by destruct (0 <? streak l).
  - intros Hne. assert (Hlen : (0 < length recent <= 50)%nat).
    { unfold recent. rewrite length_drop, length_fmap. destruct l; [done|cbn [length]; lia]. }
    destruct (percentile_indices (length recent) Hlen) as [Hij _].
    assert (Hsl : length (sorted_samples recent) = length recent) by (unfold sorted_samples; by rewrite merge_sort_Permutation).
    destruct (sorted_sample recent _ _ Hij) as (x & y & Hx & Hy & Hxy & Hin).
    assert (H50 : P50LatencyMs rep = x /\ P95LatencyMs rep = y); [|by destruct H50 as [-> ->]].
    unfold rep, health_of. rewrite Hs. destruct (match trippedUntil (play h) !! id with Some _ => _ | None => _ end) as [[st un] co].
    cbn [P50LatencyMs P95LatencyMs]. by rewrite Hsl, Hx, Hy.
Qed.

(** ** Examples *)

#[local] Instance demo_range : MapRange := {| range_order := fun _ _ l => l; range_perm := fun _ _ _ => reflexivity _ |}.
Definition reply (text : string) : Response := mkResponse text "" [] "stop" (mkUsage 1 1 2) "" [].
(** The provider of handle 0 is down. *)
#[local] Instance demo_models : Models := {|
  complete := fun _ c => if (CHandle c =? 0)%nat then Err "down" else Ok (reply "hello");
  Stream := unit;
  stream_complete := fun _ c => if (CHandle c =? 0)%nat then Err "down" else Ok tt;
  Vectors := unit;
  embed := fun _ _ _ => Ok tt |}.
#[local] Instance demo_unicode : Unicode := ascii_tables.

Definition demo_history : list op :=
  [Register_ "local-stub" 9; Register_ "anthropic" 0; Register_ "openai" 1].
Definition demo_fail (t : Z) : op := Record_ (mkOutcome "anthropic" "" (5 * millisecond) true t).
Definition demo_order : list string := ["anthropic"; "openai/gpt"].

Example falls_back :
  let '(res, (r, _)) := CompleteWithCascade demo_order [mkMessage RoleUser "hi" "" [] "" "" []] no_options (play demo_history) (calm 0) in
  res = Ok (set_model (reply "hello") "openai/gpt") /\ (fun c => (CHandle c, Model (COptions c))) <$> calls r = [(0%nat, ""); (1%nat, "gpt")].
Proof. vm_compute. done. Qed.

(** The stub is skipped under its own name only: another target that starts
    like it is answered by it. *)
Example stub_by_alias :
  (GetProvider "local" (play demo_history) (calm 0)).1 = Ok 9%nat /\
  let '(res, (r, _)) := CompleteWithCascade ["local"] [] no_options (play demo_history) (calm 0) in
  is_ok res = true /\ CHandle <$> calls r = [9%nat].
Proof. vm_compute. done. Qed.

(** Streaming asks a provider whose circuit is open. *)
Example streams_ignore_the_breaker :
  let r := play (demo_history ++ [demo_fail 0; demo_fail 0; demo_fail 0]) in
  providerTripped r "anthropic" 1 = true /\
  CTarget <$> calls (CompleteWithCascade demo_order [] no_options r (calm 1)).2.1 = ["openai/gpt"] /\
  CTarget <$> calls (StreamCompleteWithCascade demo_order [] no_options r (calm 1)).2.1 = ["anthropic"; "openai/gpt"].
Proof. vm_compute. done. Qed.

Lemma cascade_answers_witness :
  exists res r' e' cs,
    CompleteWithCascade demo_order [] no_options (play demo_history) (calm 0) = (res, (r', e')) /\
    calls r' = calls (play demo_history) ++ cs /\ is_ok res = true.
Proof.
  destruct (CompleteWithCascade demo_order [] no_options (play demo_history) (calm 0)) as [res [r' e']] eqn:Hrun.
  destruct (cascade_answers _ _ _ _ _ _ _ _ Hrun) as (cs & Hcs & _).
  exists res, r', e', cs. split; [done|]. split; [exact Hcs|].
  change res with (res, (r', e')).1. rewrite <- Hrun. vm_compute. done.
Defined.

Definition tripped_history : list op := demo_history ++ [demo_fail 0; demo_fail 0; demo_fail 0].

Lemma open_circuit_not_called_witness :
  exists res r' e' cs,
    CompleteWithCascade demo_order [] no_options (play tripped_history) (calm 1) = (res, (r', e')) /\
    3 <= streak (results_of "anthropic" tripped_history) /\
    calls r' = calls (play tripped_history) ++ cs /\ Forall (fun c => CTarget c <> "anthropic") cs.
Proof.
  destruct (CompleteWithCascade demo_order [] no_options (play tripped_history) (calm 1)) as [res [r' e']] eqn:Hrun.
  assert (H3 : 3 <= streak (results_of "anthropic" tripped_history)) by (vm_compute; done).
  assert (He : clock e' = 1).
  { change e' with (res, (r', e')).2.2. rewrite <- Hrun. vm_compute. done. }
  destruct (open_circuit_not_called _ _ _ tripped_history _ _ _ _ "anthropic" Hrun H3) as (cs & Hcs & Hno).
  { rewrite He. vm_compute. intros o [= <-]. done. }
  exists res, r', e', cs. done.
Defined.
