(* ===== verification/AuditLog.v ===== *)
(** * The audit log ([internal/system/audit.go])

    A file of JSON lines in which every entry carries the hash of the entry
    before it.  The state holds the files by path, whether writes are frozen
    (the disk guard) and the logger: the file it has open and the hash it
    will chain to.  Every operation of the file system may fail; a failed
    write may have written a part of its data, which [short_write] picks.

    [json.Marshal] of an entry is written out ([Marshal]); [json.Unmarshal],
    SHA-256, time formats and random ids are the class [AuditWorld], with what
    the code relies on. *)

From S2P Require Import Prelude GoStrings GoText GoPath GoJson Io.
From Stdlib Require Import Ascii.
#[local] Open Scope Z_scope.

(** ** Entries *)

Record AuditLogEntry := mkEntry {
  Timestamp : string; TraceID : string; EAgentID : string; EToolName : string; ERiskLevel : string;
  ExecutionTimeMS : Z; EStatus : string; EError : string; PreviousHash : string; EntryHash : string }.

Definition with_hash (e : AuditLogEntry) (h : string) : AuditLogEntry :=
  mkEntry (Timestamp e) (TraceID e) (EAgentID e) (EToolName e) (ERiskLevel e) (ExecutionTimeMS e) (EStatus e) (EError e)
    (PreviousHash e) h.
Definition with_previous (e : AuditLogEntry) (h : string) : AuditLogEntry :=
  mkEntry (Timestamp e) (TraceID e) (EAgentID e) (EToolName e) (ERiskLevel e) (ExecutionTimeMS e) (EStatus e) (EError e)
    h (EntryHash e).
Definition stamped (e : AuditLogEntry) (ts id : string) : AuditLogEntry :=
  mkEntry ts id (EAgentID e) (EToolName e) (ERiskLevel e) (ExecutionTimeMS e) (EStatus e) (EError e)
    (PreviousHash e) (EntryHash e).

(** A member of the object, after a comma; one with [omitempty] is left out
    when it is empty. *)
Definition member (name value : string) : string := "," +:+ json_quote name +:+ ":" +:+ value.
Definition text_member (name value : string) : string := member name (json_quote value).
Definition omitempty (name value : string) : string := if bool_decide (value = "") then "" else text_member name value.

(** [json.Marshal(entry)] *)
Definition Marshal (e : AuditLogEntry) : string :=
  "{" +:+ json_quote "timestamp" +:+ ":" +:+ json_quote (Timestamp e) +:+
  text_member "trace_id" (TraceID e) +:+ text_member "agent_id" (EAgentID e) +:+
  text_member "tool_name" (EToolName e) +:+ text_member "risk_level" (ERiskLevel e) +:+
  member "execution_time_ms" (pretty (ExecutionTimeMS e)) +:+ text_member "status" (EStatus e) +:+
  omitempty "error" (EError e) +:+ omitempty "previous_hash" (PreviousHash e) +:+
  text_member "entry_hash" (EntryHash e) +:+ "}".

(** Reading replaces what is not UTF-8. *)
Definition coerce_entry (e : AuditLogEntry) : AuditLogEntry :=
  mkEntry (coerce (Timestamp e)) (coerce (TraceID e)) (coerce (EAgentID e)) (coerce (EToolName e)) (coerce (ERiskLevel e))
    (ExecutionTimeMS e) (coerce (EStatus e)) (coerce (EError e)) (coerce (PreviousHash e)) (coerce (EntryHash e)).

(** An entry of UTF-8 texts whose time fits 64 bits. *)
Definition in_int64 (z : Z) : Prop := min_int64 <= z <= max_int64.
Definition wf_entry (e : AuditLogEntry) : Prop := coerce_entry e = e /\ in_int64 (ExecutionTimeMS e).

(** ** What is not in the repository's own code *)

Class AuditWorld := {
  sha256hex : string -> string;              (* hex.EncodeToString(sha256.Sum256(..)) *)
  Unmarshal : string -> option AuditLogEntry;
  rfc3339 : Z -> string;                     (* t.UTC().Format(time.RFC3339) *)
  parse_rfc3339 : string -> option Z;
  file_stamp : Z -> string;                  (* Format 20060102T150405 *)
  random_hex : nat -> string;                (* 16 random bytes in hex *)
  short_write : nat -> nat;                  (* how much a failed write has written *)
  sha256hex_length : forall s, String.length (sha256hex s) = 64%nat;
  sha256hex_text : forall s, coerce (sha256hex s) = sha256hex s;
  rfc3339_text : forall t, coerce (rfc3339 t) = rfc3339 t;
  random_hex_text : forall n, coerce (random_hex n) = random_hex n;
  Unmarshal_Marshal : forall e, in_int64 (ExecutionTimeMS e) -> Unmarshal (Marshal e) = Some (coerce_entry e);
  Unmarshal_wf : forall s e, Unmarshal s = Some e -> wf_entry e;
}.

(** ** State and errors *)

Record AuditLogger := mkLogger {
  logPath : string;
  disk : gmap string string;        (* path to contents *)
  frozen : bool;                    (* WritesFrozen *)
  file : option string;             (* the path open for appending, [None] when it is closed *)
  lastHash : string;
}.

Inductive audit_error :=
  | MkdirFailed | OpenFailed | StatFailed | RenameFailed | WriteFailed | FileClosed | ReadFailed
  | Decoding (index : Z) | ChainFailed (index : Z)
  | SlicePanic.

Definition set_disk (s : AuditLogger) (d : gmap string string) : AuditLogger := mkLogger (logPath s) d (frozen s) (file s) (lastHash s).
Definition set_file (s : AuditLogger) (f : option string) : AuditLogger := mkLogger (logPath s) (disk s) (frozen s) f (lastHash s).
Definition set_last (s : AuditLogger) (h : string) : AuditLogger := mkLogger (logPath s) (disk s) (frozen s) (file s) h.
Definition set_frozen (s : AuditLogger) (b : bool) : AuditLogger := mkLogger (logPath s) (disk s) b (file s) (lastHash s).

Abbreviation audit := (io AuditLogger audit_error).

Definition NEWLINE : ascii := byte_of 10.

(** ** Reading the file *)

Definition rotateSize : Z := Z.shiftl 32 20.

(** [splitLines]: a last line without a line break counts when it is not
    empty. *)
Fixpoint split_from (s acc : string) : list string :=
  match s with
  | "" => if bool_decide (acc = "") then [] else [acc]
  | String a s' => if bool_decide (a = NEWLINE) then acc :: split_from s' "" else split_from s' (acc +:+ String a "")
  end.
Definition splitLines (s : string) : list string := split_from s "".

(** [os.ReadFile(l.logPath)] *)
Definition read_log : audit string :=
  _ ← db ReadFailed; s ← get;
  match disk s !! logPath s with Some data => mret data | None => throw ReadFailed end.

Section logger.
Context `{AuditWorld} `{Unicode}.

(** The loop of VerifyChain. *)
Fixpoint verify_lines (index : Z) (previous : string) (lines : list string) : result audit_error unit :=
  match lines with
  | [] => Ok tt
  | line :: rest =>
      if bool_decide (line = "") then verify_lines (index + 1) previous rest
      else
        match Unmarshal line with
        | None => Err (Decoding index)
        | Some entry =>
            let recorded := EntryHash entry in
            let canonical := Marshal (with_hash entry "") in
            if negb (bool_decide (PreviousHash entry = previous)) || negb (bool_decide (recorded = sha256hex canonical))
            then Err (ChainFailed index)
            else verify_lines (index + 1) recorded rest
        end
  end.

Definition VerifyChain : audit unit :=
  data ← read_log; lift (verify_lines 0 "" (splitLines data)).

(** The entries of some lines, in their order: empty and broken lines are
    passed over. *)
Definition decode_lines (lines : list string) : list AuditLogEntry :=
  omap (fun line => if bool_decide (line = "") then None else Unmarshal line) lines.

Definition ReadRecentEntries (limit : Z) : audit (list AuditLogEntry) :=
  data ← read_log;
  let lines := splitLines data in
  let n := Z.of_nat (length lines) in
  let start := if limit <? n then n - limit else 0 in
  mret (decode_lines (reverse (drop (Z.to_nat start) lines))).

(** ** Writing *)

(** A file is moved aside once it holds more than 32 MB; errors of the move
    are ignored, and when the new file cannot be opened the closed one stays. *)
Definition rotate : audit unit :=
  s ← get;
  match file s with
  | None => mret tt
  | Some p =>
      stat ← attempt (db StatFailed);
      if is_ok stat && (rotateSize <? len (default "" (disk s !! p))) then
        _ ← modify (fun s => set_file s None);
        t ← now;
        _ ← ignore (_ ← db RenameFailed;
                    modify (fun s => match disk s !! logPath s with
                                     | Some c => set_disk s (<[logPath s +:+ "." +:+ file_stamp t := c]> (delete (logPath s) (disk s)))
                                     | None => s
                                     end));
        ignore (_ ← db OpenFailed;
                modify (fun s => set_file (set_disk s (match disk s !! logPath s with Some _ => disk s | None => <[logPath s := ""]> (disk s) end))
                                   (Some (logPath s))))
      else mret tt
  end.

Definition append_to (p data : string) (s : AuditLogger) : AuditLogger :=
  set_disk s (<[p := default "" (disk s !! p) +:+ data]> (disk s)).

(** [l.file.Write(data)] *)
Definition write_file (data : string) : audit unit :=
  s ← get;
  match file s with
  | None => throw FileClosed
  | Some p =>
      w ← attempt (db WriteFailed);
      match w with
      | Ok _ => modify (append_to p data)
      | Err x => n ← draw; _ ← modify (append_to p (take_bytes (short_write n) data)); throw x
      end
  end.

Definition GenerateTraceID : audit string := n ← draw; mret (random_hex n).

(** The entry as it is written: chained and hashed. *)
Definition sealed (e : AuditLogEntry) (previous : string) : AuditLogEntry :=
  let e := with_hash (with_previous e previous) "" in
  with_hash e (sha256hex (Marshal e)).

Definition Log (entry : AuditLogEntry) : audit unit :=
  s ← get;
  if frozen s then mret tt
  else
    _ ← rotate;
    ts ← (if bool_decide (Timestamp entry = "") then t ← now; mret (rfc3339 t) else mret (Timestamp entry));
    id ← (if bool_decide (TraceID entry = "") then GenerateTraceID else mret (TraceID entry));
    s ← get;
    let e := sealed (stamped entry ts id) (lastHash s) in
    _ ← write_file (Marshal e +:+ String NEWLINE "");
    modify (fun s => set_last s (EntryHash e)).

Definition LogAudit (traceID agentID toolName riskLevel status errorMsg : string) (durationMS : Z) : audit unit :=
  id ← (if bool_decide (traceID = "") then GenerateTraceID else mret traceID);
  let agentID := if bool_decide (agentID = "") then "agent_system_core" else agentID in
  t ← now;
  ignore (Log (mkEntry (rfc3339 t) id agentID toolName riskLevel durationMS status errorMsg "" "")).

(** The first entry of an empty log. *)
Definition bootstrap (ts id : string) : AuditLogEntry :=
  mkEntry ts id "agent_system_core" "kernel_bootstrap_security_check" "Low" 5 "Success" "" "" "".

(** [NewAuditLogger]: the logger part of the state starts over. *)
Definition NewAuditLogger (dataDir : string) : audit unit :=
  _ ← db MkdirFailed;
  let p := Join [Join [dataDir; "logs"]; "audit.jsonl"] in
  _ ← db OpenFailed;
  _ ← modify (fun s => mkLogger p (match disk s !! p with Some _ => disk s | None => <[p := ""]> (disk s) end) (frozen s) (Some p) "");
  recent ← attempt (ReadRecentEntries 1);
  _ ← (match recent with Ok (e :: _) => modify (fun s => set_last s (EntryHash e)) | _ => mret tt end);
  stat ← attempt (db StatFailed);
  s ← get;
  if is_ok stat && (len (default "" (disk s !! p)) =? 0) then
    t ← now; id ← GenerateTraceID; ignore (Log (bootstrap (rfc3339 t) id))
  else mret tt.

Definition Close : audit unit :=
  s ← get;
  match file s with None => throw FileClosed | Some _ => modify (fun s => set_file s None) end.

(** ** Searching *)

Record AuditSearchParams := mkParams {
  Query : string; PAgentID : string; PRiskLevel : string; PStatus : string; PToolName : string;
  From : string; To : string; Limit : Z; Offset : Z }.

(** [time.Time{}.IsZero], and the zero time for what does not parse. *)
Definition zero_time : Z := -62135596800 * second.
Definition bound (s : string) : Z := if bool_decide (s = "") then zero_time else default zero_time (parse_rfc3339 s).

Definition exact_filter (wanted value : string) : bool :=
  let f := trim_space (to_lower wanted) in
  bool_decide (f = "") || bool_decide (f = "all") || bool_decide (to_lower value = f).

(** What one entry is tested for. *)
Definition matches (params : AuditSearchParams) (e : AuditLogEntry) : bool :=
  let q := trim_space (to_lower (Query params)) in
  let tool := trim_space (to_lower (PToolName params)) in
  let lo := bound (From params) in
  let hi := bound (To params) in
  exact_filter (PAgentID params) (EAgentID e) &&
  exact_filter (PRiskLevel params) (ERiskLevel e) &&
  exact_filter (PStatus params) (EStatus e) &&
  (bool_decide (tool = "") || contains_str (to_lower (EToolName e)) tool) &&
  ((lo =? zero_time) || match parse_rfc3339 (Timestamp e) with Some t => negb (time_before t lo) | None => true end) &&
  ((hi =? zero_time) || match parse_rfc3339 (Timestamp e) with Some t => negb (time_after t hi) | None => true end) &&
  (bool_decide (q = "") ||
   existsb (fun text => contains_str (to_lower text) q)
     [EToolName e; EAgentID e; TraceID e; EError e; ERiskLevel e; EStatus e]).

(** Addition of two [int]s. *)
Definition int_add (a b : Z) : Z := (a + b + 2 ^ 63) mod 2 ^ 64 - 2 ^ 63.

(** The page [matched[offset:end]]. *)
Definition page (offset limit : Z) (matched : list AuditLogEntry) : result audit_error (list AuditLogEntry) :=
  let total := Z.of_nat (length matched) in
  let offset := if offset <? 0 then 0 else offset in
  let offset := if total <? offset then total else offset in
  let limit := if limit <=? 0 then 100 else limit in
  let fin := int_add offset limit in
  let fin := if total <? fin then total else fin in
  if fin <? offset then Err SlicePanic
  else Ok (take (Z.to_nat (fin - offset)) (drop (Z.to_nat offset) matched)).

Definition SearchEntries (params : AuditSearchParams) : audit (list AuditLogEntry * Z) :=
  data ← read_log;
  let matched := filter (fun e => matches params e = true) (decode_lines (reverse (splitLines data))) in
  p ← lift (page (Offset params) (Limit params) matched);
  mret (p, Z.of_nat (length matched)).

End logger.
