(* ===== verification/AuditLogSpec.v ===== *)
(** * What the audit log guarantees

    The chain of hashes as a predicate on entries; the logger keeps it, the
    last hash pins the whole log, and the three ways in which it breaks or
    does not help: rotation, text that is not UTF-8, entries cut off the end. *)

From S2P Require Import Prelude GoStrings GoText GoPath GoJson Io AuditLog.
From Stdlib Require Import Ascii.
#[local] Open Scope Z_scope.

Section spec.
Context `{W : AuditWorld} `{Unicode}.

(** ** The chain *)

Definition entry_digest (e : AuditLogEntry) : string := sha256hex (Marshal (with_hash e "")).

Fixpoint chained (prev : string) (es : list AuditLogEntry) : Prop :=
  match es with
  | [] => True
  | e :: es' => PreviousHash e = prev /\ EntryHash e = entry_digest e /\ chained (EntryHash e) es'
  end.

Definition last_hash (prev : string) (es : list AuditLogEntry) : string :=
  match last es with Some e => EntryHash e | None => prev end.

(** The file of some entries, and the entries of a file. *)
Definition line_of (e : AuditLogEntry) : string := Marshal e +:+ String NEWLINE "".
Definition file_text (es : list AuditLogEntry) : string := foldr (fun e acc => line_of e +:+ acc) "" es.
Definition recorded (text : string) (es : list AuditLogEntry) : Prop :=
  Forall2 (fun line e => Unmarshal line = Some e) (filter (fun line => line <> "") (splitLines text)) es.

(** What VerifyChain says of a file. *)
Definition verify_text (text : string) : result audit_error unit := verify_lines 0 "" (splitLines text).

Lemma chained_snoc prev es e :
  chained prev (es ++ [e]) <-> chained prev es /\ PreviousHash e = last_hash prev es /\ EntryHash e = entry_digest e.
Proof.
  revert prev. induction es as [|a es IH]; intros prev; cbn [app chained].
  - unfold last_hash. cbn. tauto.
  - rewrite IH. assert (Hl : last_hash (EntryHash a) es = last_hash prev (a :: es)).
    { unfold last_hash. rewrite last_cons. by destruct (last es). }
    rewrite Hl. tauto.
Qed.

Lemma chained_take prev es n : chained prev es -> chained prev (take n es).
Proof.
  revert prev n. induction es as [|a es IH]; intros prev n; [by rewrite take_nil|].
  destruct n as [|n]; [done|]. cbn. naive_solver.
Qed.

(** VerifyChain accepts exactly the chained files. *)
Lemma verify_lines_spec i prev lines :
  verify_lines i prev lines = Ok tt <->
  exists es, Forall2 (fun line e => Unmarshal line = Some e) (filter (fun line => line <> "") lines) es /\ chained prev es.
Proof.
  revert i prev. induction lines as [|l lines IH]; intros i prev; cbn [verify_lines].
  { split; [|done]. intros _. exists []. by split; [constructor|]. }
  destruct (decide (l = "")) as [->|Hl].
  - rewrite bool_decide_eq_true_2 by done. rewrite filter_cons_False by tauto. apply IH.
  - rewrite (bool_decide_eq_false_2 _ Hl), filter_cons_True by done.
    destruct (Unmarshal l) as [e|] eqn:He.
    2: { split; [done|]. intros (es & Hes & _). inversion Hes; subst. congruence. }
    fold (entry_digest e). split.
    + destruct (_ || _) eqn:Hg; [done|]. apply orb_false_iff in Hg as [H1%negb_false_iff H2%negb_false_iff].
      apply bool_decide_eq_true in H1, H2. intros (es & Hes & Hc)%IH. exists (e :: es). split; [by constructor|done].
    + intros (es & Hes & Hc). inversion Hes as [|? e' ? es' He' Hes']; subst. rewrite He in He'. injection He' as <-.
      destruct Hc as (H1 & H2 & Hc). rewrite !bool_decide_eq_true_2 by done. cbn. apply IH. eauto.
Qed.

(** ** Lines *)

Lemma omitempty_no_newline n v : no_byte NEWLINE (omitempty n v) = true.
Proof. unfold omitempty. case_bool_decide; [done|]. unfold text_member, member, NEWLINE. by rewrite !no_byte_app, !json_quote_no_newline. Qed.

Lemma Marshal_no_newline e : no_byte NEWLINE (Marshal e) = true.
Proof.
  unfold Marshal, text_member, member. rewrite !no_byte_app, !omitempty_no_newline. unfold NEWLINE.
  by rewrite !json_quote_no_newline, pretty_no_newline.
Qed.

Lemma Marshal_nonempty e : Marshal e <> "".
Proof. done. Qed.

Lemma split_line a b acc : no_byte NEWLINE a = true -> split_from (a +:+ String NEWLINE b) acc = (acc +:+ a) :: splitLines b.
Proof.
  revert acc. induction a as [|c a IH]; intros acc Ha.
  - change ("" +:+ String NEWLINE b) with (String NEWLINE b). cbn [split_from]. by rewrite bool_decide_eq_true_2, string_app_nil_r.
  - cbn [no_byte] in Ha. apply andb_true_iff in Ha as [Hc%negb_true_iff Ha]. rewrite string_app_cons. cbn [split_from].
    rewrite Hc, (IH _ Ha), string_app_assoc. done.
Qed.

Lemma file_text_app es es' : file_text (es ++ es') = file_text es +:+ file_text es'.
Proof. induction es as [|e es IH]; [done|]. unfold file_text in *. cbn [app foldr]. by rewrite IH, string_app_assoc. Qed.

Lemma splitLines_text es : splitLines (file_text es) = Marshal <$> es.
Proof.
  induction es as [|e es IH]; [done|]. unfold file_text, splitLines in *. cbn [foldr fmap list_fmap]. unfold line_of at 1.
  rewrite string_app_assoc. change (String NEWLINE "" +:+ ?x) with (String NEWLINE x).
  rewrite (split_line _ _ "" (Marshal_no_newline e)). by rewrite <- IH.
Qed.

Lemma lines_nonempty (es : list AuditLogEntry) : filter (fun line => line <> "") (Marshal <$> es) = Marshal <$> es.
Proof. induction es as [|e es IH]; [done|]. cbn [fmap list_fmap]. by rewrite filter_cons_True, IH by done. Qed.

Lemma recorded_text es : Forall wf_entry es -> recorded (file_text es) es.
Proof.
  intros Hes. unfold recorded. rewrite splitLines_text, lines_nonempty.
  induction Hes as [|e es [He Hi] _ IH]; cbn; constructor; [|done]. by rewrite (Unmarshal_Marshal e Hi), He.
Qed.

Lemma recorded_det text es es' : recorded text es -> recorded text es' -> es = es'.
Proof.
  unfold recorded. intros H1. revert es'. induction H1 as [|l e ls es Hl _ IH]; intros es' H2; inversion H2 as [|? e' ? es2 Hl' H2']; subst; [done|].
  f_equal; [congruence|by apply IH].
Qed.

Lemma verify_text_ok es : Forall wf_entry es -> chained "" es -> verify_text (file_text es) = Ok tt.
Proof. intros Hes Hc. apply verify_lines_spec. exists es. split; [by apply recorded_text|done]. Qed.
(** ** The logger keeps the chain *)

(** The log holds a chain of entries and the logger its last hash. *)
Definition holds (s : AuditLogger) (es : list AuditLogEntry) : Prop :=
  disk s !! logPath s = Some (file_text es) /\ file s = Some (logPath s) /\ Forall wf_entry es /\ chained "" es /\
  lastHash s = last_hash "" es.

Definition log_text (s : AuditLogger) : string := default "" (disk s !! logPath s).

Lemma holds_text s es : holds s es -> log_text s = file_text es.
Proof. intros (Hd & _). unfold log_text. by rewrite Hd. Qed.

Lemma last_hash_text es : Forall wf_entry es -> coerce (last_hash "" es) = last_hash "" es.
Proof.
  intros Hes. unfold last_hash. destruct (last es) as [e|] eqn:Hl; [|done].
  apply last_Some_elem_of in Hl. rewrite Forall_forall in Hes. destruct (Hes e Hl) as [He _]. destruct e. unfold coerce_entry in He. cbn in *. congruence.
Qed.

Lemma sealed_wf e prev : wf_entry e -> coerce prev = prev -> wf_entry (sealed e prev).
Proof.
  intros [He Hi] Hp. split; [|done]. destruct e as [ts id ag tn rl ex st er ph eh]. unfold coerce_entry in He. cbn in He. injection He as H1 H2 H3 H4 H5 H6 H7 H8 H9.
  unfold coerce_entry, sealed. set (h := sha256hex _). unfold with_hash, with_previous.
  cbn [Timestamp TraceID EAgentID EToolName ERiskLevel ExecutionTimeMS EStatus EError PreviousHash EntryHash].
  f_equal; try done. apply sha256hex_text.
Qed.

Lemma stamped_wf e ts id : wf_entry e -> coerce ts = ts -> coerce id = id -> wf_entry (stamped e ts id).
Proof.
  intros [He Hi] H1 H2. split; [|done]. destruct e as [ts0 id0 ag tn rl ex st er ph eh].
  unfold coerce_entry, stamped in *. cbn [Timestamp TraceID EAgentID EToolName ERiskLevel ExecutionTimeMS EStatus EError PreviousHash EntryHash] in *.
  injection He as _ _ H3 H4 H5 H6 H7 H8 H9. by rewrite H1, H2, H3, H4, H5, H6, H7, H8, H9.
Qed.

Lemma sealed_digest e prev : EntryHash (sealed e prev) = entry_digest (sealed e prev).
Proof. done. Qed.

Lemma holds_append s es e :
  holds s es -> wf_entry e ->
  let e' := sealed e (lastHash s) in
  holds (set_last (append_to (logPath s) (line_of e') s) (EntryHash e')) (es ++ [e']).
Proof.
  intros (Hd & Hf & Hwf & Hc & Hl) He e'. unfold holds, append_to, set_disk, set_last. cbn [disk logPath file lastHash].
  rewrite lookup_insert_eq, Hd. cbn [default]. split_and!; [|done| | |].
  - rewrite file_text_app. unfold file_text at 3. cbn [foldr]. by rewrite string_app_nil_r.
  - apply Forall_app. split; [done|]. apply Forall_singleton. apply sealed_wf; [done|]. rewrite Hl. by apply last_hash_text.
  - apply chained_snoc. split_and!; [done|by rewrite <- Hl|apply sealed_digest].
  - unfold last_hash. by rewrite last_snoc.
Qed.

(** Below the size of a rotation, nothing is moved. *)
Lemma wp_rotate_small (Q : result audit_error unit -> AuditLogger -> env -> Prop) s e :
  file s = Some (logPath s) -> len (log_text s) <= rotateSize ->
  (forall e', onward e e' -> Q (Ok tt) s e') -> wp rotate Q s e.
Proof.
  intros Hf Hsize HQ. unfold rotate. apply wp_bind, wp_get. cbv beta iota. rewrite Hf. apply wp_bind, wp_attempt.
  assert (Hno : (rotateSize <? len (default "" (disk s !! logPath s))) = false) by (unfold log_text in Hsize; lia).
  apply wp_db_onward; intros e' He'; cbv beta iota; rewrite Hno, andb_false_r; intros; apply wp_ret; by apply HQ.
Qed.

(** A write goes through, or failed without writing anything. *)
Lemma wp_write_atomic data (Q : result audit_error unit -> AuditLogger -> env -> Prop) s e p :
  (forall n, short_write n = 0%nat) -> file s = Some p -> is_Some (disk s !! p) ->
  (forall e', onward e e' -> Q (Ok tt) (append_to p data s) e') ->
  (forall e', faults e <> [] -> onward e e' -> Q (Err WriteFailed) s e') -> wp (write_file data) Q s e.
Proof.
  intros Hz Hf [c Hc] HO HE. unfold write_file. apply wp_bind, wp_get. cbv beta iota. rewrite Hf. apply wp_bind, wp_attempt.
  apply wp_db_onward; cbv beta iota.
  - intros e' He' _. by apply wp_modify, HO.
  - intros e' Hne He'. apply wp_bind, wp_draw_onward. intros e2 He2. cbv beta iota. apply wp_bind, wp_modify, wp_throw.
    assert (Hs : append_to p (take_bytes (short_write (fresh e')) data) s = s).
    { rewrite Hz. unfold append_to, set_disk. destruct s as [lp d fr f lh]. cbn in *. rewrite Hc. cbn [default].
      replace (take_bytes 0 data) with "" by (by destruct data). cbv delta [id] beta. rewrite string_app_nil_r, insert_id by done. done. }
    rewrite Hs. apply HE; [done|]. by transitivity e'.
Qed.

(** Logging adds one entry with the given texts, or none. *)
Definition grown (s : AuditLogger) (es : list AuditLogEntry) (s' : AuditLogger) : Prop :=
  logPath s' = logPath s /\ frozen s' = frozen s /\
  (holds s' es \/ exists e, holds s' (es ++ [e])).

Lemma wp_stamp (b : bool) (m : audit string) (x : string) (Q : result audit_error string -> AuditLogger -> env -> Prop) s e :
  coerce x = x ->
  (forall Q', (forall y e', coerce y = y -> onward e e' -> Q' (Ok y) s e') -> wp m Q' s e) ->
  (forall y e', coerce y = y -> onward e e' -> Q (Ok y) s e') -> wp (if b then m else mret x) Q s e.
Proof. intros Hx Hm HQ. destruct b; [by apply Hm|]. apply wp_ret, HQ; [done|reflexivity]. Qed.

Lemma wp_trace_id (Q : result audit_error string -> AuditLogger -> env -> Prop) s e :
  (forall y e', coerce y = y -> onward e e' -> Q (Ok y) s e') -> wp GenerateTraceID Q s e.
Proof. intros HQ. unfold GenerateTraceID. apply wp_bind, wp_draw_onward. intros e' He'. apply wp_ret, HQ; [apply random_hex_text|done]. Qed.

Lemma wp_timestamp (Q : result audit_error string -> AuditLogger -> env -> Prop) s e :
  (forall y e', coerce y = y -> onward e e' -> Q (Ok y) s e') -> wp (t ← now; mret (rfc3339 t) : audit string) Q s e.
Proof. intros HQ. apply wp_bind, wp_now_onward. intros e' He'. apply wp_ret, HQ; [apply rfc3339_text|done]. Qed.

Lemma Log_grows entry s es e :
  (forall n, short_write n = 0%nat) -> holds s es -> wf_entry entry -> len (log_text s) <= rotateSize ->
  wp (Log entry) (fun r s' e' => grown s es s' /\ onward e e' /\
    (faults e = [] -> r = Ok tt /\ (frozen s = false -> exists x, holds s' (es ++ [x])))) s e.
Proof.
  intros Hz Hs Hw Hsize. unfold Log. apply wp_bind, wp_get. cbv beta iota.
  destruct (frozen s) eqn:Hfr.
  { apply wp_ret. split; [by split_and!; [| |left]|]. split; [reflexivity|]. by split. }
  assert (Hfile : file s = Some (logPath s)) by apply Hs.
  apply wp_bind, wp_rotate_small; [done..|]. intros e1 He1. cbv beta iota.
  assert (Hents : coerce (Timestamp entry) = Timestamp entry /\ coerce (TraceID entry) = TraceID entry).
  { destruct Hw as [Hw _]. destruct entry. unfold coerce_entry in Hw. cbn in *. split; congruence. }
  apply wp_bind, wp_stamp; [apply Hents|intros Q'; apply wp_timestamp|]. intros ts e2 Hts He2. cbv beta iota.
  apply wp_bind, wp_stamp; [apply Hents|intros Q'; apply wp_trace_id|]. intros id e3 Hid He3. cbv beta iota.
  apply wp_bind, wp_get. cbv beta iota zeta. set (x := sealed (stamped entry ts id) (lastHash s)).
  assert (Hadd : holds (set_last (append_to (logPath s) (line_of x) s) (EntryHash x)) (es ++ [x])).
  { apply holds_append; [done|]. by apply stamped_wf. }
  assert (He : onward e e3) by (transitivity e1; [done|]; by transitivity e2).
  apply wp_bind, (wp_write_atomic _ _ s e3 (logPath s)); [done..|by destruct Hs as (-> & _)| |].
  - intros e4 He4. apply wp_modify. split; [split_and!; [done|done|right; by exists x]|].
    split; [by transitivity e3|]. intros _. split; [done|]. intros _. by exists x.
  - intros e4 Hne He4. split; [split_and!; [done..|by left]|]. split; [by transitivity e3|].
    intros Hnone. destruct He as [_ He]. by apply He in Hnone.
Qed.
Lemma LogAudit_grows traceID agentID toolName riskLevel status errorMsg ms s es e :
  (forall n, short_write n = 0%nat) -> holds s es -> len (log_text s) <= rotateSize ->
  Forall (fun t => coerce t = t) [traceID; agentID; toolName; riskLevel; status; errorMsg] -> in_int64 ms ->
  wp (LogAudit traceID agentID toolName riskLevel status errorMsg ms) (fun _ s' e' => grown s es s' /\ onward e e') s e.
Proof.
  intros Hz Hs Hsize Htexts Hms. rewrite !Forall_cons in Htexts. destruct Htexts as (H1 & H2 & H3 & H4 & H5 & H6 & _).
  unfold LogAudit. apply wp_bind, wp_stamp; [done|intros Q'; apply wp_trace_id|]. intros id e1 Hid He1. cbv beta iota zeta.
  apply wp_bind, wp_now_onward. intros e2 He2. cbv beta iota. apply wp_ignore.
  assert (Ha : coerce (if bool_decide (agentID = "") then "agent_system_core" else agentID) = if bool_decide (agentID = "") then "agent_system_core" else agentID)
    by (case_bool_decide; [vm_compute; done|done]).
  eapply wp_mono; [apply (Log_grows _ s es); [done|done| |done]|].
  - split; [|done]. unfold coerce_entry. cbn [Timestamp TraceID EAgentID EToolName ERiskLevel ExecutionTimeMS EStatus EError PreviousHash EntryHash].
    by rewrite rfc3339_text, Hid, Ha, H3, H4, H5, H6.
  - intros r s' e' (Hg & He & _). split; [done|]. transitivity e1; [done|]. by transitivity e2.
Qed.

Lemma wp_db_quiet x (Q : result audit_error unit -> AuditLogger -> env -> Prop) s e :
  faults e = [] -> (forall e', onward e e' -> Q (Ok tt) s e') -> wp (db x) Q s e.
Proof. intros Hf HQ. apply wp_db_onward; [auto|]. intros e' Hne. by rewrite Hf in Hne. Qed.

(** The next statement of a run fails, or does not, as its schedule says. *)
Lemma wp_db_next x (Q : result audit_error unit -> AuditLogger -> env -> Prop) s e :
  (forall e', faults e' = tail (faults e) -> hd false (faults e) = false -> Q (Ok tt) s e') ->
  (forall e', faults e' = tail (faults e) -> hd false (faults e) = true -> Q (Err x) s e') -> wp (db x) Q s e.
Proof. unfold wp, db. intros HO HE. destruct (faults e) as [|[] fs] eqn:Hf; [by apply HO; rewrite ?Hf|by apply HE|by apply HO]. Qed.

Lemma onward_quiet e e' : onward e e' -> faults e = [] -> faults e' = [].
Proof. intros [_ Ho]. exact Ho. Qed.

(** The last entry of a log is what ReadRecentEntries(1) finds. *)
Lemma recent_one s es (Q : result audit_error (list AuditLogEntry) -> AuditLogger -> env -> Prop) e :
  disk s !! logPath s = Some (file_text es) -> Forall wf_entry es ->
  (forall e', hd false (faults e) = false -> Q (Ok (match last es with Some x => [x] | None => [] end)) s e') ->
  (forall e', hd false (faults e) = true -> Q (Err ReadFailed) s e') -> wp (ReadRecentEntries 1) Q s e.
Proof.
  intros Hd Hwf HQ HE. unfold ReadRecentEntries, read_log. apply wp_bind, wp_bind, wp_db_next; [|by intros e' _ Hf; apply HE].
  intros e' _ Hf. cbv beta iota.
  apply wp_bind, wp_get. cbv beta iota. rewrite Hd. apply wp_ret. cbv beta iota zeta. apply wp_ret.
  rewrite splitLines_text, length_fmap.
  assert (Hlast : decode_lines (reverse (drop (Z.to_nat (if 1 <? Z.of_nat (length es) then Z.of_nat (length es) - 1 else 0)) (Marshal <$> es))) =
    match last es with Some x => [x] | None => [] end); [|rewrite Hlast; by apply HQ].
  destruct es as [|x es' _] using rev_ind; [done|]. apply Forall_app in Hwf as [_ [Hx _]%Forall_cons].
  rewrite last_snoc, length_app, fmap_app. cbn [length fmap list_fmap].
  replace (Z.to_nat _) with (length es') by (destruct (Z.ltb_spec 1 (Z.of_nat (length es' + 1))); lia).
  rewrite drop_app_length' by (by rewrite length_fmap). unfold decode_lines, reverse. cbn [rev_append omap list_omap].
  destruct Hx as [Hx Hi]. by rewrite (Unmarshal_Marshal x Hi), Hx.
Qed.

Definition audit_path (dataDir : string) : string := Join [Join [dataDir; "logs"]; "audit.jsonl"].

Lemma file_text_empty es : len (file_text es) = 0 -> es = [].
Proof. destruct es as [|e es]; [done|]. unfold file_text. cbn [foldr]. unfold line_of, len. rewrite !string_length_app. cbn [String.length]. lia. Qed.

(** Opening a log (again): when it succeeds, and the read of the last entry,
    its third statement, does not fail, the logger goes on where the file ends. *)
Definition read_fails (e : env) : bool := nth 2 (faults e) false.

Lemma NewAuditLogger_holds dataDir s es e :
  (forall n, short_write n = 0%nat) -> es = [] \/ read_fails e = false ->
  default "" (disk s !! audit_path dataDir) = file_text es -> Forall wf_entry es -> chained "" es ->
  wp (NewAuditLogger dataDir) (fun r s' _ => r = Ok tt ->
    logPath s' = audit_path dataDir /\ (holds s' es \/ exists x, holds s' (es ++ [x]))) s e.
Proof.
  intros Hz Hread Hd Hwf Hc. unfold NewAuditLogger. fold (audit_path dataDir).
  apply wp_bind, wp_db_next; [|done]. intros e1 He1 _. cbv beta iota zeta.
  apply wp_bind, wp_db_next; [|done]. intros e2 He2 _. cbv beta iota. apply wp_bind, wp_modify. cbv beta iota.
  set (s1 := mkLogger _ _ _ _ _).
  assert (Hd1 : disk s1 !! logPath s1 = Some (file_text es)).
  { cbn [disk logPath s1]. destruct (disk s !! audit_path dataDir) as [c|] eqn:E; [rewrite E|rewrite lookup_insert_eq]; by rewrite <- Hd. }
  assert (Hnext : hd false (faults e2) = read_fails e).
  { unfold read_fails. rewrite He2, He1. by destruct (faults e) as [|? [|? [|? ?]]]. }
  set (s2 := set_last s1 (last_hash "" es)).
  assert (Hs2 : holds s2 es) by (split_and!; done).
  assert (Hgo : forall e4, wp (stat ← attempt (db StatFailed : audit unit); s ← get;
      if is_ok stat && (len (default "" (disk s !! audit_path dataDir)) =? 0) then
        t ← now; id ← GenerateTraceID; ignore (Log (bootstrap (rfc3339 t) id)) else mret tt)
    (fun r s' _ => r = Ok tt -> logPath s' = audit_path dataDir /\ (holds s' es \/ exists x, holds s' (es ++ [x]))) s2 e4).
  { intros e4. assert (Hstay : wp (mret tt : audit unit) (fun r s' _ => r = Ok tt ->
      logPath s' = audit_path dataDir /\ (holds s' es \/ exists x, holds s' (es ++ [x]))) s2 e4) by (apply wp_ret; by split; [|left]).
    apply wp_bind, wp_attempt, wp_db_next; intros e5 _ _; cbv beta iota; apply wp_bind, wp_get; cbv beta iota; [|exact Hstay].
    change (audit_path dataDir) with (logPath s2) at 1. assert (Hd2 := proj1 Hs2). rewrite Hd2. cbn [default is_ok andb]. cbv delta [id] beta.
    destruct (Z.eqb_spec (len (file_text es)) 0) as [Hz0|Hnz]; [|exact Hstay].
    apply wp_bind, wp_now_onward. intros e6 He6. cbv beta iota. apply wp_bind, wp_trace_id. intros id e7 Hid He7. cbv beta iota.
    apply wp_ignore. eapply wp_mono; [apply (Log_grows _ s2 es); [done|done| |]|].
    - split; [|split; vm_compute; done]. unfold coerce_entry, bootstrap. cbn [Timestamp TraceID EAgentID EToolName ERiskLevel ExecutionTimeMS EStatus EError PreviousHash EntryHash].
      rewrite rfc3339_text, Hid. reflexivity.
    - rewrite (holds_text s2 es) by done. rewrite Hz0. vm_compute. done.
    - intros r s' e' ((Hp & _ & Hg) & _) _. split; [by rewrite Hp|done]. }
  apply wp_bind, wp_attempt, (recent_one s1 es); [done..| |].
  - intros e3 _. cbv beta iota. apply wp_bind. destruct (last es) as [x|] eqn:Hl.
    + apply wp_modify. cbv beta iota. assert (Hx : set_last s1 (EntryHash x) = s2) by (unfold s2, last_hash; by rewrite Hl).
      rewrite Hx. apply Hgo.
    + apply wp_ret. cbv beta iota. assert (Hx : s1 = s2) by (unfold s2, last_hash; by rewrite Hl). rewrite Hx. apply Hgo.
  - intros e3 Hf. cbv beta iota. apply wp_bind, wp_ret. cbv beta iota.
    assert (Hx : s1 = s2) by (destruct Hread as [->|Hread]; [done|congruence]). rewrite Hx. apply Hgo.
Qed.
(** ** Life of a log

    What happens to a log that starts empty: entries of UTF-8 text are logged
    while the file is below the size of a rotation, writes are frozen and
    released, the program is started again; statements may fail everywhere, but
    a start that is refused makes no logger, and the one read of the last entry
    at a restart does not fail ([failed_read_breaks_chain] shows why). *)

Definition small (s : AuditLogger) : Prop := len (log_text s) <= rotateSize.

Inductive reach (dataDir : string) : AuditLogger -> Prop :=
  | reach_open s e s' e' :
      disk s !! audit_path dataDir = None -> NewAuditLogger dataDir s e = (Ok tt, (s', e')) -> reach dataDir s'
  | reach_log entry s e r s' e' :
      reach dataDir s -> wf_entry entry -> small s -> Log entry s e = (r, (s', e')) -> reach dataDir s'
  | reach_audit traceID agentID toolName riskLevel status errorMsg ms s e r s' e' :
      reach dataDir s -> Forall (fun t => coerce t = t) [traceID; agentID; toolName; riskLevel; status; errorMsg] -> in_int64 ms -> small s ->
      LogAudit traceID agentID toolName riskLevel status errorMsg ms s e = (r, (s', e')) -> reach dataDir s'
  | reach_freeze b s : reach dataDir s -> reach dataDir (set_frozen s b)
  | reach_restart s e s' e' :
      reach dataDir s -> read_fails e = false -> NewAuditLogger dataDir s e = (Ok tt, (s', e')) -> reach dataDir s'.

Lemma reach_holds dataDir s :
  (forall n, short_write n = 0%nat) -> reach dataDir s -> logPath s = audit_path dataDir /\ exists es, holds s es.
Proof.
  intros Hz. induction 1 as [s e s' e' Hd Hrun|entry s e r s' e' _ [Hp [es Hs]] Hw Hsmall Hrun
    |tr ag tool risk st er ms s e r s' e' _ [Hp [es Hs]] Ht Hms Hsmall Hrun|b s _ [Hp [es Hs]]|s e s' e' _ [Hp [es Hs]] Hf Hrun].
  - destruct (run_wp _ _ _ _ _ _ _ (NewAuditLogger_holds dataDir s [] e Hz (or_introl eq_refl) ltac:(by rewrite Hd) ltac:(constructor) I) Hrun eq_refl)
      as [Hp Hg]. split; [done|]. destruct Hg as [|[x ?]]; eauto.
  - revert Hrun. refine (run_wp _ (fun _ s' _ => _) s e r s' e' _). eapply wp_mono; [by apply (Log_grows entry s es)|].
    cbv beta. intros _ s1 _ ((Hp1 & _ & Hg) & _). split; [congruence|]. destruct Hg as [|[x ?]]; eauto.
  - revert Hrun. refine (run_wp _ (fun _ s' _ => _) s e r s' e' _). eapply wp_mono; [by apply (LogAudit_grows _ _ _ _ _ _ _ s es)|].
    cbv beta. intros _ s1 _ ((Hp1 & _ & Hg) & _). split; [congruence|]. destruct Hg as [|[x ?]]; eauto.
  - split; [done|]. by exists es.
  - assert (Hd : default "" (disk s !! audit_path dataDir) = file_text es) by (rewrite <- Hp; by rewrite (proj1 Hs)).
    destruct (run_wp _ _ _ _ _ _ _ (NewAuditLogger_holds dataDir s es e Hz (or_intror Hf) Hd ltac:(apply Hs) ltac:(apply Hs)) Hrun eq_refl)
      as [Hp1 Hg]. split; [done|]. destruct Hg as [|[x ?]]; eauto.
Qed.

Lemma VerifyChain_text s text e : disk s !! logPath s = Some text ->
  wp VerifyChain (fun r s' _ => s' = s /\ (r = verify_text text \/ faults e <> [] /\ r = Err ReadFailed)) s e.
Proof.
  intros Hd. unfold VerifyChain, read_log. apply wp_bind, wp_bind, wp_db_onward; cbv beta iota.
  - intros e' _ _. apply wp_bind, wp_get. cbv beta iota. rewrite Hd. apply wp_ret. cbv beta iota. apply wp_lift. split; [done|]. by left.
  - intros e' Hne _. split; [done|]. by right.
Qed.

(** C18. The logger keeps the chain: on a log that has not grown past the size
    of a rotation, after any entries of UTF-8 text, freezes and restarts,
    VerifyChain accepts the log and changes nothing (or cannot read it), and
    the logger holds the hash recorded last.  Any statement may fail along the
    way, a failing write writing nothing, but one: the read of the last entry
    at a restart, whose failure the code passes over. *)
Theorem chain_kept dataDir s e :
  (forall n, short_write n = 0%nat) -> reach dataDir s ->
  wp VerifyChain (fun r s' _ => s' = s /\ (r = Ok tt \/ faults e <> [] /\ r = Err ReadFailed)) s e /\
  exists es, recorded (log_text s) es /\ lastHash s = last_hash "" es.
Proof.
  intros Hz Hr. destruct (reach_holds dataDir s Hz Hr) as [_ [es Hs]]. split.
  - rewrite <- (verify_text_ok es) by apply Hs. by apply VerifyChain_text, Hs.
  - exists es. rewrite (holds_text s es Hs). split; [by apply recorded_text, Hs|apply Hs].
Qed.

(** ** What the last hash pins *)

(** Two entries at hand, one of each list, whose canonical texts differ but
    have one SHA-256. *)
Definition clash (es es' : list AuditLogEntry) : Prop := exists x y, x ∈ es /\ y ∈ es' /\
  Marshal (with_hash x "") <> Marshal (with_hash y "") /\ entry_digest x = entry_digest y.

Lemma clash_mono es es' fs fs' : es ⊆ fs -> es' ⊆ fs' -> clash es es' -> clash fs fs'.
Proof. intros H1 H2 (x & y & Hx & Hy & Hc). exists x, y. auto. Qed.

Lemma hash_nonempty s : sha256hex s <> "".
Proof. intros H0. assert (Hl := sha256hex_length s). by rewrite H0 in Hl. Qed.

(** The digest of an entry determines it, but for its recorded hash. *)
Lemma digest_pins e e' : wf_entry e -> wf_entry e' -> entry_digest e = entry_digest e' ->
  with_hash e "" = with_hash e' "" \/ clash [e] [e'].
Proof.
  intros [He Hi] [He' Hi'] Hd.
  destruct (decide (Marshal (with_hash e "") = Marshal (with_hash e' ""))) as [Hm|Hm]; [left|right; exists e, e'; by rewrite !list_elem_of_singleton].
  assert (H1 := Unmarshal_Marshal (with_hash e "") Hi). assert (H2 := Unmarshal_Marshal (with_hash e' "") Hi').
  rewrite Hm, H2 in H1. injection H1 as H1.
  assert (Hc : forall x, coerce_entry x = x -> coerce_entry (with_hash x "") = with_hash x "").
  { intros x Hx. destruct x. unfold coerce_entry, with_hash in *. cbn in *. by injection Hx as -> -> -> -> -> -> -> -> _. }
  rewrite <- (Hc e He), <- (Hc e' He'). unfold coerce_entry. by f_equal.
Qed.

Lemma chain_pins es es' :
  Forall wf_entry es -> Forall wf_entry es' -> chained "" es -> chained "" es' -> last_hash "" es = last_hash "" es' ->
  es = es' \/ clash es es'.
Proof.
  revert es'. induction es as [|e es IH] using rev_ind; intros es' Hw Hw' Hc Hc' Hl.
  - left. destruct es' as [|e' es' _] using rev_ind; [done|]. apply chained_snoc in Hc' as (_ & _ & Hh).
    unfold last_hash in Hl. rewrite last_snoc in Hl. cbn in Hl. rewrite <- Hl in Hh. by apply symmetry, hash_nonempty in Hh.
  - apply chained_snoc in Hc as (Hc & Hp & Hh). destruct es' as [|e' es' _] using rev_ind.
    { unfold last_hash in Hl. rewrite last_snoc in Hl. cbn in Hl. rewrite Hl in Hh. by apply symmetry, hash_nonempty in Hh. }
    apply chained_snoc in Hc' as (Hc' & Hp' & Hh'). apply Forall_app in Hw as [Hw [He _]%Forall_cons]. apply Forall_app in Hw' as [Hw' [He' _]%Forall_cons].
    unfold last_hash in Hl. rewrite !last_snoc in Hl. rewrite Hh, Hh' in Hl.
    destruct (digest_pins e e' He He' Hl) as [Heq|Hcl]; [|right; eapply clash_mono; [..|exact Hcl]; set_solver].
    assert (Hprev : PreviousHash e = PreviousHash e') by exact (f_equal PreviousHash Heq).
    destruct (IH es' Hw Hw' Hc Hc') as [->|Hcl]; [congruence| |right; eapply clash_mono; [..|exact Hcl]; set_solver]. left. do 2 f_equal.
    assert (Hhash : EntryHash e = EntryHash e') by congruence. destruct e, e'. unfold with_hash in Heq. cbn in *. congruence.
Qed.

Lemma recorded_wf text es : recorded text es -> Forall wf_entry es.
Proof. unfold recorded. induction 1; constructor; [by eapply Unmarshal_wf|done]. Qed.

(** C19. What the chain shows and what it does not, for a log as in C18: a file
    VerifyChain accepts whose last hash is the logger's records the very
    entries of the log, unless an entry of that file and an entry of the log
    have different canonical texts with one SHA-256.  But the file alone does
    not show entries deleted from its end: every number of its first lines is
    accepted. *)
Theorem tamper_evident dataDir s :
  (forall n, short_write n = 0%nat) -> reach dataDir s ->
  (forall text es, verify_text text = Ok tt -> recorded text es -> last_hash "" es = lastHash s ->
     recorded (log_text s) es \/ exists logged, recorded (log_text s) logged /\ clash es logged) /\
  (forall n, verify_lines 0 "" (take n (splitLines (log_text s))) = Ok tt).
Proof.
  intros Hz Hr. destruct (reach_holds dataDir s Hz Hr) as [_ [es Hs]]. rewrite (holds_text s es Hs).
  assert (Hwf : Forall wf_entry es) by apply Hs. assert (Hc : chained "" es) by apply Hs. split.
  - intros text es' Hv Hrec Hl. apply verify_lines_spec in Hv as (es2 & Hrec2 & Hc2).
    assert (es2 = es') as -> by (by eapply recorded_det).
    destruct (chain_pins es' es) as [->|]; [by eapply recorded_wf|done..| | |right; exists es; by split; [apply recorded_text|]].
    + rewrite Hl. apply Hs.
    + left. by apply recorded_text.
  - intros n. rewrite splitLines_text, <- fmap_take. apply verify_lines_spec. exists (take n es).
    split; [|by apply chained_take]. rewrite lines_nonempty. rewrite <- (lines_nonempty (take n es)), <- splitLines_text.
    apply recorded_text. by apply Forall_take.
Qed.
(** ** How the chain breaks *)

Lemma rotated_path_ne p t : p +:+ "." +:+ file_stamp t <> p.
Proof. intros Heq%(f_equal String.length). rewrite !string_length_app in Heq. cbn in Heq. lia. Qed.

(** The disk with the log's text moved aside at a time. *)
Definition moved_aside (s : AuditLogger) (text : string) (t : Z) : gmap string string :=
  <[logPath s +:+ "." +:+ file_stamp t := text]> (delete (logPath s) (disk s)).

(** A rotation that succeeds leaves an empty file open. *)
Lemma wp_rotate_large (Q : result audit_error unit -> AuditLogger -> env -> Prop) s e text :
  faults e = [] -> file s = Some (logPath s) -> disk s !! logPath s = Some text -> rotateSize < len text ->
  (forall t e', onward e e' -> clock e <= t -> Q (Ok tt) (mkLogger (logPath s) (<[logPath s := ""]> (moved_aside s text t)) (frozen s) (Some (logPath s)) (lastHash s)) e') ->
  wp rotate Q s e.
Proof.
  intros Hf Hfile Hd Hsize HQ. unfold rotate. apply wp_bind, wp_get. cbv beta iota. rewrite Hfile.
  apply wp_bind, wp_attempt, wp_db_quiet; [done|]. intros e1 He1. cbv beta iota. rewrite Hd. cbn [is_ok andb default]. cbv delta [id] beta.
  rewrite (proj2 (Z.ltb_lt _ _) Hsize). apply wp_bind, wp_modify. cbv beta iota.
  apply wp_bind, wp_now_onward. intros e2 He2. cbv beta iota. apply wp_bind, wp_ignore, wp_bind.
  assert (Hf2 : faults e2 = []) by (eapply onward_quiet; [exact He2|by eapply onward_quiet]).
  apply wp_db_quiet; [done|]. intros e3 He3. cbv beta iota. apply wp_modify. cbv beta iota. cbn [logPath disk set_file]. rewrite Hd.
  apply wp_ignore, wp_bind, wp_db_quiet; [by eapply onward_quiet|]. intros e4 He4. cbv beta iota. apply wp_modify.
  unfold set_disk, set_file. cbn [logPath disk frozen file lastHash].
  rewrite lookup_insert_ne by apply rotated_path_ne. rewrite lookup_delete_eq. apply (HQ (clock e2)).
  - transitivity e1; [done|]. transitivity e2; [done|]. by transitivity e3.
  - destruct He1 as [[] _], He2 as [[] _]. lia.
Qed.

(** An entry that opens a file but chains to an earlier one is refused. *)
Lemma broken_start e rest : wf_entry e -> PreviousHash e <> "" ->
  verify_text (line_of e +:+ rest) = Err (ChainFailed 0).
Proof.
  intros [He Hi] Hp. unfold verify_text, splitLines, line_of. rewrite string_app_assoc. change (String NEWLINE "" +:+ ?x) with (String NEWLINE x).
  rewrite (split_line _ _ "" (Marshal_no_newline e)). change ("" +:+ Marshal e) with (Marshal e).
  cbn [verify_lines]. rewrite (bool_decide_eq_false_2 _ (Marshal_nonempty e)), (Unmarshal_Marshal e Hi), He.
  by rewrite (bool_decide_eq_false_2 _ Hp).
Qed.

(** C20. A rotation breaks the chain: when the file has grown past 32 MB, the
    next entry that is not frozen, in a run in which no statement fails, moves
    the text aside under the time of the rotation and opens a new file that
    holds exactly that entry, chained to the hash of the last entry of the old
    one; and VerifyChain, which expects a file to start a chain, refuses the new
    file for as long as it is the log, whatever is logged after. *)
Theorem rotation_breaks_chain entry s e text :
  faults e = [] -> frozen s = false -> file s = Some (logPath s) -> disk s !! logPath s = Some text -> rotateSize < len text ->
  lastHash s <> "" -> wf_entry entry -> coerce (lastHash s) = lastHash s ->
  wp (Log entry) (fun r s' _ => r = Ok tt /\ exists t ts id, clock e <= t /\
    let x := sealed (stamped entry ts id) (lastHash s) in
    PreviousHash x = lastHash s /\ (forall es, holds s es -> text = file_text es /\ PreviousHash x = last_hash "" es) /\
    s' = mkLogger (logPath s) (<[logPath s := line_of x]> (moved_aside s text t)) false (Some (logPath s)) (EntryHash x) /\
    forall rest, verify_text (line_of x +:+ rest) = Err (ChainFailed 0)) s e.
Proof.
  intros Hf Hfr Hfile Hd Hsize Hlast Hw Hlw. unfold Log. apply wp_bind, wp_get. cbv beta iota. rewrite Hfr.
  apply wp_bind, (wp_rotate_large _ s e text); [done..|]. intros t e1 He1 Ht. cbv beta iota. set (s1 := mkLogger _ _ _ _ _).
  assert (Hents : coerce (Timestamp entry) = Timestamp entry /\ coerce (TraceID entry) = TraceID entry).
  { destruct Hw as [Hw' _]. destruct entry. unfold coerce_entry in Hw'. cbn in *. split; congruence. }
  apply wp_bind, wp_stamp; [apply Hents|intros Q'; apply wp_timestamp|]. intros ts e2 Hts He2. cbv beta iota.
  apply wp_bind, wp_stamp; [apply Hents|intros Q'; apply wp_trace_id|]. intros id e3 Hid He3. cbv beta iota.
  apply wp_bind, wp_get. cbv beta iota zeta. set (x := sealed _ _).
  assert (Hf3 : faults e3 = []).
  { eapply onward_quiet; [|exact Hf]. transitivity e1; [done|]. by transitivity e2. }
  apply wp_bind. unfold write_file. apply wp_bind, wp_get. cbv beta iota. cbn [file s1].
  apply wp_bind, wp_attempt, wp_db_quiet; [done|]. intros e4 He4. cbv beta iota. apply wp_modify. apply wp_modify.
  split; [done|]. exists t, ts, id. split; [done|]. cbv zeta. split; [done|]. split.
  { intros es (Hd' & _ & _ & _ & Hl). split; [congruence|]. exact Hl. }
  split.
  - unfold set_last, append_to, set_disk. cbn [disk logPath frozen file s1]. rewrite lookup_insert_eq, insert_insert_eq, Hfr. done.
  - intros rest. apply broken_start; [|done]. apply sealed_wf; [by apply stamped_wf|done].
Qed.

(** *** Text that is not UTF-8 *)

Lemma foldr_length (f : Z * string -> string) l :
  String.length (foldr (fun q acc => f q +:+ acc) "" l) = sum_list_with (fun q => String.length (f q)) l.
Proof. induction l as [|q l IH]; [done|]. cbn [foldr sum_list_with]. by rewrite string_length_app, IH. Qed.

(** Writing a text and writing what is read back from it: three bytes more
    for every byte that is not UTF-8. *)
Definition stray_seg (q : Z * string) : bool := (q.1 =? rune_error) && (String.length q.2 =? 1)%nat.
Definition stray (s : string) : nat := length (filter (fun q => stray_seg q = true) (segments s)).

Lemma json_rune_length q : whole_seg q -> scalar q.1 ->
  String.length (json_rune q) = (String.length (json_rune (q.1, encode_rune q.1)) +
    if stray_seg q then 3 else 0)%nat.
Proof.
  destruct q as [r p]. intros [Hp|(b & [= -> ->] & Hb)] Hs; cbn [fst snd] in *.
  - rewrite <- Hp. destruct (stray_seg (r, p)) eqn:E; [|lia]. unfold stray_seg in E. cbn [fst snd] in E.
    apply andb_true_iff in E as [->%Z.eqb_eq Hl%Nat.eqb_eq]. rewrite Hp in Hl. by vm_compute in Hl.
  - by vm_compute.
Qed.

Lemma json_body_length s : String.length (json_body s) = (String.length (json_body (coerce s)) + 3 * stray s)%nat.
Proof.
  unfold json_body, stray, coerce. rewrite !foldr_length.
  rewrite (segments_encode_runes _ (runes_scalar s)). unfold runes.
  assert (Hw := segments_whole s). assert (Hs := runes_scalar s). unfold runes in Hs.
  induction Hw as [|q l Hq _ IH]; [done|]. cbn [fmap list_fmap sum_list_with] in *. apply Forall_cons in Hs as [Hsq Hs].
  specialize (IH Hs). rewrite (json_rune_length q Hq Hsq).
  destruct (stray_seg q) eqn:E.
  - rewrite (filter_cons_True _ q) by done. cbn [length]. lia.
  - rewrite (filter_cons_False _ q) by (by rewrite E). lia.
Qed.

Lemma stray_coerce s : stray s = 0%nat -> coerce s = s.
Proof.
  unfold stray, coerce, runes. intros H0%length_zero_iff_nil. rewrite <- (bytes_of_segments s) at 2.
  assert (Hw := segments_whole s). induction Hw as [|q l Hq _ IH]; [done|].
  destruct (stray_seg q) eqn:E; [by rewrite filter_cons_True in H0|].
  rewrite filter_cons_False in H0 by (by rewrite E). unfold encode_runes, bytes_of in *. cbn [fmap list_fmap foldr]. rewrite (IH H0). f_equal.
  destruct Hq as [->|(b & -> & _)]; [done|]. by vm_compute in E.
Qed.

Lemma coerce_empty s : coerce s = "" <-> s = "".
Proof.
  split; [|by intros ->]. unfold coerce, runes, encode_runes. rewrite <- (bytes_of_segments s) at 2.
  destruct (segments s) as [|q l]; [done|]. cbn [fmap list_fmap foldr]. intros Hq.
  assert (Hne : encode_rune q.1 <> "") by (unfold encode_rune; repeat case_match; done).
  destruct (encode_rune q.1); done.
Qed.
Definition texts (e : AuditLogEntry) : list string :=
  [Timestamp e; TraceID e; EAgentID e; EToolName e; ERiskLevel e; EStatus e; EError e].

Lemma quote_length s : String.length (json_quote s) = (String.length (json_quote (coerce s)) + 3 * stray s)%nat.
Proof. unfold json_quote. cbn [String.length]. rewrite !string_length_app, (json_body_length s). lia. Qed.

Lemma omitempty_length n v : String.length (omitempty n v) = (String.length (omitempty n (coerce v)) + 3 * stray v)%nat.
Proof.
  unfold omitempty. destruct (decide (v = "")) as [->|Hv]; [done|].
  rewrite !bool_decide_eq_false_2 by (rewrite ?coerce_empty; done). unfold text_member, member.
  rewrite !string_length_app, (quote_length v). lia.
Qed.

Lemma Marshal_length e : coerce (PreviousHash e) = PreviousHash e ->
  String.length (Marshal (with_hash e "")) =
  (String.length (Marshal (with_hash (coerce_entry e) "")) + 3 * sum_list_with stray (texts e))%nat.
Proof.
  intros Hp. destruct e as [ts id ag tn rl ex st er ph eh]. unfold Marshal, with_hash, coerce_entry, texts, text_member, member in *.
  cbn [Timestamp TraceID EAgentID EToolName ERiskLevel ExecutionTimeMS EStatus EError PreviousHash EntryHash sum_list_with] in *.
  rewrite Hp. rewrite !string_length_app. rewrite (quote_length ts), (quote_length id), (quote_length ag), (quote_length tn), (quote_length rl), (quote_length st), (omitempty_length "error" er).
  lia.
Qed.

Lemma verify_lines_app i prev es rest : Forall wf_entry es -> chained prev es ->
  verify_lines i prev ((Marshal <$> es) ++ rest) = verify_lines (i + Z.of_nat (length es)) (last_hash prev es) rest.
Proof.
  intros Hes. revert i prev. induction Hes as [|e es [He Hi] _ IH]; intros i prev Hc; [by rewrite Z.add_0_r|].
  destruct Hc as (H1 & H2 & Hc). cbn [fmap list_fmap app verify_lines].
  rewrite (bool_decide_eq_false_2 _ (Marshal_nonempty e)), (Unmarshal_Marshal e Hi), He. fold (entry_digest e).
  rewrite !bool_decide_eq_true_2 by done. cbn [negb orb]. rewrite (IH _ _ Hc). f_equal; [cbn [length]; lia|].
  unfold last_hash. rewrite last_cons. by destruct (last es).
Qed.

(** An entry some text of which is not UTF-8 is not what it is read back as. *)
Lemma bad_entry_refused es e :
  Forall wf_entry es -> chained "" es -> in_int64 (ExecutionTimeMS e) -> Exists (fun t => coerce t <> t) (texts e) ->
  let x := sealed e (last_hash "" es) in
  verify_text (file_text es +:+ line_of x) = Err (ChainFailed (Z.of_nat (length es))) \/ clash [x] [coerce_entry x].
Proof.
  intros Hwf Hc Hi Hbad x.
  assert (Hlast := last_hash_text es Hwf).
  assert (Hprev : PreviousHash x = last_hash "" es) by done.
  assert (Hlen : String.length (Marshal (with_hash x "")) <> String.length (Marshal (with_hash (coerce_entry x) ""))).
  { rewrite (Marshal_length x) by done. change (texts x) with (texts e).
    assert (Hpos : (0 < sum_list_with stray (texts e))%nat); [|lia].
    induction Hbad as [t l Ht|t l _ IH]; cbn [sum_list_with]; [|lia].
    destruct (stray t) eqn:E; [|lia]. by apply stray_coerce in E. }
  destruct (decide (EntryHash (coerce_entry x) = entry_digest (coerce_entry x))) as [Hsame|Hdiff].
  - right. exists x, (coerce_entry x). rewrite !list_elem_of_singleton. split_and!; [done|done|congruence|].
    transitivity (EntryHash (coerce_entry x)); [|exact Hsame]. symmetry. apply sha256hex_text.
  - left. unfold verify_text. assert (Hlines : splitLines (file_text es +:+ line_of x) = (Marshal <$> es) ++ [Marshal x]).
    { assert (Hf : file_text es +:+ line_of x = file_text (es ++ [x])).
      { rewrite file_text_app. unfold file_text at 3. cbn [foldr]. by rewrite string_app_nil_r. }
      rewrite Hf, splitLines_text, fmap_app. done. }
    rewrite Hlines, (verify_lines_app 0 "" es _ Hwf Hc). cbn [verify_lines].
    rewrite (bool_decide_eq_false_2 _ (Marshal_nonempty x)), (Unmarshal_Marshal x Hi). fold (entry_digest (coerce_entry x)).
    rewrite (bool_decide_eq_false_2 _ Hdiff), orb_true_r. done.
Qed.

(** A text that is not UTF-8, such as an error message cut inside a
    character, breaks the chain as well: the entry is written with the digest
    of a text that reading it back does not give, and VerifyChain fails at it
    (unless the entry and what it is read back as clash). *)
Theorem bad_text_breaks_chain dataDir entry s e :
  (forall n, short_write n = 0%nat) -> reach dataDir s -> small s -> frozen s = false -> faults e = [] ->
  in_int64 (ExecutionTimeMS entry) -> Exists (fun t => coerce t <> t) (texts entry) ->
  wp (Log entry) (fun r s' _ => r = Ok tt /\
    exists es x, recorded (log_text s) es /\ log_text s' = log_text s +:+ line_of x /\
      (verify_text (log_text s') = Err (ChainFailed (Z.of_nat (length es))) \/ clash [x] [coerce_entry x])) s e.
Proof.
  intros Hz Hr Hsmall Hfr Hf Hi Hbad. destruct (reach_holds dataDir s Hz Hr) as [_ [es Hs]].
  unfold Log. apply wp_bind, wp_get. cbv beta iota. rewrite Hfr.
  assert (Hfile : file s = Some (logPath s)) by apply Hs.
  apply wp_bind, wp_rotate_small; [done..|]. intros e1 He1. cbv beta iota.
  assert (Hts : forall (b : bool) (m : audit string) x (Q : result audit_error string -> AuditLogger -> env -> Prop) e0,
    (forall Q', (forall y e', coerce y = y -> onward e0 e' -> Q' (Ok y) s e') -> wp m Q' s e0) ->
    (forall y e', (b = false -> y = x) -> onward e0 e' -> Q (Ok y) s e') -> wp (if b then m else mret x) Q s e0).
  { intros b m x Q e0 Hm HQ. destruct b; [apply Hm; intros y e' _ He'; by apply HQ|]. apply wp_ret. by apply HQ. }
  apply wp_bind, Hts; [intros Q'; apply wp_timestamp|]. intros ts e2 Hts1 He2. cbv beta iota.
  apply wp_bind, Hts; [intros Q'; apply wp_trace_id|]. intros id e3 Hid1 He3. cbv beta iota.
  apply wp_bind, wp_get. cbv beta iota zeta. rewrite (proj2 (proj2 (proj2 (proj2 Hs)))). set (x := sealed _ _).
  assert (Hf3 : faults e3 = []).
  { eapply onward_quiet; [|exact Hf]. transitivity e1; [done|]. by transitivity e2. }
  apply wp_bind. unfold write_file. apply wp_bind, wp_get. cbv beta iota. rewrite Hfile.
  apply wp_bind, wp_attempt, wp_db_quiet; [done|]. intros e4 He4. cbv beta iota. apply wp_modify. apply wp_modify.
  split; [done|]. exists es, x. rewrite (holds_text s es Hs). split; [by apply recorded_text, Hs|].
  unfold log_text. cbn [disk logPath set_last append_to set_disk]. rewrite lookup_insert_eq, (proj1 Hs). cbn [default]. cbv delta [Datatypes.id] beta.
  split; [done|].
  apply bad_entry_refused; [apply Hs|apply Hs|done|].
  unfold texts in *. cbn [Timestamp TraceID EAgentID EToolName ERiskLevel EStatus EError stamped].
  assert (Hkeep : forall a y, (bool_decide (a = "") = false -> y = a) -> coerce a <> a -> coerce y <> y).
  { intros a y Hy Ha. rewrite Hy; [done|]. apply bool_decide_eq_false. by intros ->. }
  rewrite !Exists_cons in *. destruct Hbad as [Hb|[Hb|Hb]]; [left; by eapply Hkeep|right; left; by eapply Hkeep|by right; right].
Qed.
(** ** Searching *)

Lemma decode_recorded lines es :
  Forall2 (fun line e => Unmarshal line = Some e) (filter (fun line => line <> "") lines) es -> decode_lines lines = es.
Proof.
  revert es. induction lines as [|l lines IH]; intros es; [intros Hf; by inversion Hf|].
  unfold decode_lines in *. cbn [omap list_omap]. destruct (decide (l = "")) as [->|Hl].
  - rewrite bool_decide_eq_true_2, filter_cons_False by tauto. apply IH.
  - rewrite (bool_decide_eq_false_2 _ Hl), filter_cons_True by done. intros Hf. inversion Hf as [|? e ? es' He Hes]; subst.
    rewrite He. f_equal. by apply IH.
Qed.

Lemma decode_reverse lines : decode_lines (reverse lines) = reverse (decode_lines lines).
Proof.
  induction lines as [|l lines IH]; [done|]. rewrite reverse_cons. unfold decode_lines in *. rewrite omap_app, IH. cbn [omap list_omap].
  destruct (if bool_decide (l = "") then _ else _); [by rewrite reverse_cons|by rewrite app_nil_r].
Qed.

Lemma page_exact (offset limit : Z) (matched : list AuditLogEntry) :
  offset <= max_int64 -> limit <= max_int64 -> Z.of_nat (length matched) <= max_int64 ->
  let off := Z.max 0 (Z.min offset (Z.of_nat (length matched))) in
  let lim := if limit <=? 0 then 100 else limit in
  page offset limit matched =
    if off + lim <=? max_int64 then Ok (take (Z.to_nat lim) (drop (Z.to_nat off) matched)) else Err SlicePanic.
Proof.
  intros Ho Hl Ht off lim. unfold page. set (total := Z.of_nat (length matched)) in *.
  assert (Hoff : (let o := if offset <? 0 then 0 else offset in if total <? o then total else o) = off).
  { unfold off. cbv zeta. destruct (Z.ltb_spec offset 0).
    - destruct (Z.ltb_spec total 0); unfold total in *; lia.
    - destruct (Z.ltb_spec total offset); lia. }
  cbv zeta in *. rewrite Hoff. fold lim.
  assert (Hob : 0 <= off <= total) by (unfold off, total; lia).
  assert (Hlb : 0 < lim <= max_int64) by (unfold lim, max_int64 in *; destruct (Z.leb_spec limit 0); lia).
  assert (Hsum : int_add off lim = if off + lim <=? max_int64 then off + lim else off + lim - 2 ^ 64).
  { unfold int_add. unfold max_int64 in *. destruct (Z.leb_spec (off + lim) 9223372036854775807).
    - rewrite Z.mod_small; lia.
    - rewrite <- (Z.mod_unique (off + lim + 2 ^ 63) (2 ^ 64) 1 (off + lim + 2 ^ 63 - 2 ^ 64)); lia. }
  rewrite Hsum. unfold max_int64 in *. destruct (Z.leb_spec (off + lim) 9223372036854775807) as [Hle|Hgt].
  - destruct (Z.ltb_spec total (off + lim)).
    + replace (total <? off) with false by lia. f_equal. rewrite !take_ge; [done|rewrite length_drop; unfold total in *; lia..].
    + replace (off + lim <? off) with false by lia. do 2 f_equal. lia.
  - replace (total <? off + lim - 2 ^ 64) with false by lia. replace (off + lim - 2 ^ 64 <? off) with true by lia. done.
Qed.

(** A search answers the number of all matching entries and the page of
    them asked for, newest first; it panics exactly when the (clamped)
    offset and the limit add up to more than an [int] holds, which a request
    can ask for. *)
Theorem search_exact params s es e :
  is_Some (disk s !! logPath s) -> recorded (log_text s) es ->
  Offset params <= max_int64 -> Limit params <= max_int64 -> Z.of_nat (length es) <= max_int64 ->
  let matched := filter (fun x => matches params x = true) (reverse es) in
  let off := Z.max 0 (Z.min (Offset params) (Z.of_nat (length matched))) in
  let lim := if Limit params <=? 0 then 100 else Limit params in
  wp (SearchEntries params) (fun r s' _ => s' = s /\
    (r = (if off + lim <=? max_int64 then Ok (take (Z.to_nat lim) (drop (Z.to_nat off) matched), Z.of_nat (length matched)) else Err SlicePanic)
     \/ faults e <> [] /\ r = Err ReadFailed)) s e.
Proof.
  intros [text Hd] Hrec Ho Hl Hn matched off lim. unfold SearchEntries, read_log.
  apply wp_bind, wp_bind, wp_db_onward; cbv beta iota; [|intros e' Hne _; split; [done|by right]].
  intros e' _ _. apply wp_bind, wp_get. cbv beta iota. rewrite Hd. apply wp_ret. cbv beta iota zeta.
  unfold log_text in Hrec. rewrite Hd in Hrec. cbn [default] in Hrec. cbv delta [id] beta in Hrec.
  rewrite decode_reverse, (decode_recorded _ _ Hrec). fold matched.
  assert (Hmn : Z.of_nat (length matched) <= max_int64).
  { assert (Hlen := length_filter (fun x => matches params x = true) (reverse es)). rewrite length_reverse in Hlen. unfold matched. lia. }
  rewrite (page_exact _ _ matched Ho Hl Hmn). fold off lim. apply wp_bind, wp_lift.
  destruct (off + lim <=? max_int64); cbv beta iota; [apply wp_ret|]; split; try done; by left.
Qed.
End spec.

(** ** Examples

    A reader of the written form, and a hash that keeps 64 characters. *)

Definition strip (p s : string) : option string :=
  if has_prefix s p then Some (String.substring (String.length p) (String.length s - String.length p) s) else None.
Definition read_value (s : string) : option (string * string) :=
  match strip (String QUOTE "") s with Some s => read_chars s | None => None end.
Definition read_text_member (name s : string) : option (string * string) :=
  match strip ("," +:+ json_quote name +:+ ":") s with Some s => read_value s | None => None end.
Definition read_omitempty (name s : string) : option (string * string) :=
  match strip ("," +:+ json_quote name +:+ ":") s with Some s => read_value s | None => Some ("", s) end.

Definition read_entry (s : string) : option AuditLogEntry :=
  s ← strip ("{" +:+ json_quote "timestamp" +:+ ":") s;
  '(ts, s) ← read_value s;
  '(id, s) ← read_text_member "trace_id" s;
  '(ag, s) ← read_text_member "agent_id" s;
  '(tn, s) ← read_text_member "tool_name" s;
  '(rl, s) ← read_text_member "risk_level" s;
  s ← strip ("," +:+ json_quote "execution_time_ms" +:+ ":") s;
  let '(ex, s) := read_int s in
  '(st, s) ← read_text_member "status" s;
  '(er, s) ← read_omitempty "error" s;
  '(ph, s) ← read_omitempty "previous_hash" s;
  '(eh, s) ← read_text_member "entry_hash" s;
  if bool_decide (s = "}") && (min_int64 <=? ex) && (ex <=? max_int64)
  then Some (coerce_entry (mkEntry ts id ag tn rl ex st er ph eh)) else None.

Lemma strip_app p s : strip p (p +:+ s) = Some s.
Proof.
  unfold strip. rewrite (proj2 (has_prefix_spec _ p)) by eauto. f_equal. rewrite string_length_app.
  replace (String.length p + String.length s - String.length p)%nat with (String.length s) by lia.
  induction p as [|a p IH]; [apply substring_all|]. done.
Qed.

Lemma read_value_quote v t : read_value (json_quote v +:+ t) = Some (coerce v, t).
Proof.
  unfold read_value, json_quote. change (String QUOTE (json_body v +:+ String QUOTE "") +:+ t) with (String QUOTE "" +:+ ((json_body v +:+ String QUOTE "") +:+ t)).
  rewrite strip_app, string_app_assoc. change (String QUOTE "" +:+ t) with (String QUOTE t). apply read_quoted.
Qed.

Lemma read_text_member_app name v t : read_text_member name (text_member name v +:+ t) = Some (coerce v, t).
Proof.
  unfold read_text_member, text_member, member.
  replace (("," +:+ json_quote name +:+ ":" +:+ json_quote v) +:+ t) with (("," +:+ json_quote name +:+ ":") +:+ (json_quote v +:+ t))
    by (by rewrite !string_app_assoc).
  rewrite strip_app. apply read_value_quote.
Qed.

Lemma read_omitempty_app name v t :
  has_prefix t ("," +:+ json_quote name +:+ ":") = false -> read_omitempty name (omitempty name v +:+ t) = Some (coerce v, t).
Proof.
  intros Ht. unfold omitempty. case_bool_decide as Hv.
  - subst v. change ("" +:+ t) with t. unfold read_omitempty, strip. by rewrite Ht.
  - change (read_omitempty name (text_member name v +:+ t)) with
      (match strip ("," +:+ json_quote name +:+ ":") (text_member name v +:+ t) with Some s => read_value s | None => Some ("", text_member name v +:+ t) end).
    unfold text_member, member.
    replace (("," +:+ json_quote name +:+ ":" +:+ json_quote v) +:+ t) with (("," +:+ json_quote name +:+ ":") +:+ (json_quote v +:+ t))
      by (by rewrite !string_app_assoc).
    rewrite strip_app. apply read_value_quote.
Qed.

Lemma read_member_app name v t : strip ("," +:+ json_quote name +:+ ":") (member name v +:+ t) = Some (v +:+ t).
Proof.
  unfold member. replace (("," +:+ json_quote name +:+ ":" +:+ v) +:+ t) with (("," +:+ json_quote name +:+ ":") +:+ (v +:+ t))
    by (by rewrite !string_app_assoc).
  apply strip_app.
Qed.

Lemma read_first v t : strip ("{" +:+ json_quote "timestamp" +:+ ":") ("{" +:+ json_quote "timestamp" +:+ ":" +:+ v +:+ t) = Some (v +:+ t).
Proof. apply (strip_app ("{" +:+ json_quote "timestamp" +:+ ":")). Qed.

(** The members that may be left out are told from what follows them. *)
Lemma after_previous v t : has_prefix (text_member "entry_hash" v +:+ t) ("," +:+ json_quote "previous_hash" +:+ ":") = false.
Proof. reflexivity. Qed.
Lemma after_error p v t :
  has_prefix (omitempty "previous_hash" p +:+ text_member "entry_hash" v +:+ t) ("," +:+ json_quote "error" +:+ ":") = false.
Proof. unfold omitempty. by case_bool_decide. Qed.

Lemma bind_value {A B} (x : option A) (f : A -> option B) a : x = Some a -> (x ≫= f) = f a.
Proof. by intros ->. Qed.

Lemma read_entry_Marshal e : in_int64 (ExecutionTimeMS e) -> read_entry (Marshal e) = Some (coerce_entry e).
Proof.
  intros [Hlo Hhi]. unfold read_entry, Marshal.
  rewrite (bind_value _ _ _ (read_first _ _)).
  rewrite (bind_value _ _ _ (read_value_quote _ _)).
  do 4 rewrite (bind_value _ _ _ (read_text_member_app _ _ _)).
  rewrite (bind_value _ _ _ (read_member_app _ _ _)).
  rewrite read_int_pretty by done.
  rewrite (bind_value _ _ _ (read_text_member_app _ _ _)).
  rewrite (bind_value _ _ _ (read_omitempty_app _ _ _ (after_error _ _ _))).
  rewrite (bind_value _ _ _ (read_omitempty_app _ _ _ (after_previous _ _))).
  rewrite (bind_value _ _ _ (read_text_member_app _ _ _)).
  rewrite bool_decide_eq_true_2 by done. rewrite (proj2 (Z.leb_le _ _) Hlo), (proj2 (Z.leb_le _ _) Hhi). cbn [andb].
  unfold coerce_entry. cbn [Timestamp TraceID EAgentID EToolName ERiskLevel ExecutionTimeMS EStatus EError PreviousHash EntryHash].
  by rewrite !coerce_idem.
Qed.

Lemma ascii_text s : all_bytes (fun b => b <? 128) s = true -> coerce s = s.
Proof.
  intros Hs. apply stray_coerce. unfold stray. rewrite (segments_ascii s Hs). rewrite filter_none; [done|].
  intros q (a & -> & Ha)%list_elem_of_fmap. rewrite all_bytes_chars, forallb_elem in Hs. specialize (Hs a Ha).
  unfold stray_seg, byte_seg. cbn [fst]. change rune_error with 65533. replace (byte_val a =? 65533) with false by lia. done.
Qed.

(** Sixty-four binary digits of a checksum. *)
Fixpoint demo_sum (s : string) : Z := match s with "" => 7 | String a s' => (byte_val a + 257 * demo_sum s') mod 2 ^ 64 end.
Fixpoint demo_bits (n : nat) (z : Z) : string :=
  match n with O => "" | S n' => String (if Z.odd z then "1"%char else "0"%char) (demo_bits n' (z / 2)) end.
Definition demo_hash (s : string) : string := demo_bits 64 (demo_sum s).

Lemma demo_bits_length n z : String.length (demo_bits n z) = n.
Proof. revert z. induction n as [|n IH]; intros z; [done|]. cbn. by rewrite IH. Qed.
Lemma demo_bits_ascii n z : all_bytes (fun b => b <? 128) (demo_bits n z) = true.
Proof. revert z. induction n as [|n IH]; intros z; [done|]. cbn [demo_bits all_bytes]. rewrite IH. by destruct (Z.odd z). Qed.

Lemma read_entry_wf s e : read_entry s = Some e -> wf_entry e.
Proof.
  unfold read_entry. intros He.
  repeat lazymatch type of He with
  | (_ ≫= _) = Some _ => apply bind_Some in He as (? & _ & He)
  | (let '(_, _) := ?x in _) = Some _ => destruct x
  end.
  destruct (_ && _) eqn:Hg in He; [|done]. injection He as <-. rewrite !andb_true_iff, !Z.leb_le in Hg.
  split; [|split; apply Hg]. unfold coerce_entry. cbn [Timestamp TraceID EAgentID EToolName ERiskLevel ExecutionTimeMS EStatus EError PreviousHash EntryHash].
  by rewrite !coerce_idem.
Qed.

#[local] Instance demo_world : AuditWorld := {|
  sha256hex := demo_hash;
  Unmarshal := read_entry;
  rfc3339 := fun _ => "2026-01-01T00:00:00Z";
  parse_rfc3339 := fun _ => None;
  file_stamp := fun _ => "20260101T000000";
  random_hex := fun _ => "00112233445566778899aabbccddeeff";
  short_write := fun _ => 0%nat;
  sha256hex_length := fun s => demo_bits_length 64 (demo_sum s);
  sha256hex_text := fun s => ascii_text _ (demo_bits_ascii 64 (demo_sum s));
  rfc3339_text := fun _ => ascii_text "2026-01-01T00:00:00Z" eq_refl;
  random_hex_text := fun _ => ascii_text "00112233445566778899aabbccddeeff" eq_refl;
  Unmarshal_Marshal := read_entry_Marshal;
  Unmarshal_wf := read_entry_wf |}.
#[local] Instance demo_unicode : Unicode := ascii_tables.

Definition demo_start : AuditLogger := mkLogger "" ∅ false None "".
Definition demo_run (m : audit unit) (s : AuditLogger) : AuditLogger := (m s (calm 0)).2.1.
Definition demo_opened : AuditLogger := demo_run (NewAuditLogger "/data") demo_start.
Definition demo_logged : AuditLogger :=
  demo_run (LogAudit "trace" "agent" "native_exec" "High" "Blocked" "needs <approval>" 3) demo_opened.

Example demo_chain :
  (VerifyChain demo_logged (calm 0)).1 = Ok tt /\
  match ReadRecentEntries 9 demo_logged (calm 0) with
  | (Ok es, _) => EToolName <$> es = ["native_exec"; "kernel_bootstrap_security_check"] /\ EError <$> es = ["needs <approval>"; ""]
  | _ => False
  end.
Proof. vm_compute. done. Qed.

(** A write that fails half-way leaves a broken line, and the next entry is
    appended to it. *)
Example half_written_line :
  let s := append_to (logPath demo_logged) (take_bytes 20 (log_text demo_logged)) demo_logged in
  (VerifyChain (demo_run (LogAudit "t" "a" "tool" "Low" "Success" "" 1) s) (calm 0)).1 = Err (Decoding 2).
Proof. vm_compute. done. Qed.

(** When the read of the last entry fails at a restart, the start goes on with
    an empty hash, and the next entry breaks the chain. *)
Example failed_read_breaks_chain :
  let restarted := NewAuditLogger "/data" demo_logged (mkEnv [false; false; true] 0 [] 0) in
  restarted.1 = Ok tt /\ lastHash restarted.2.1 = "" /\
  (VerifyChain restarted.2.1 (calm 0)).1 = Ok tt /\
  (VerifyChain (demo_run (LogAudit "t" "a" "tool" "Low" "Success" "" 1) restarted.2.1) (calm 0)).1 = Err (ChainFailed 2).
Proof. vm_compute. done. Qed.

(** *** Closed instances of the theorems *)

Lemma demo_reach : reach "/data" demo_opened.
Proof.
  apply (reach_open "/data" demo_start (calm 0) demo_opened (NewAuditLogger "/data" demo_start (calm 0)).2.2); [done|].
  vm_compute. reflexivity.
Qed.

Lemma demo_reach_logged : reach "/data" demo_logged.
Proof.
  set (m := LogAudit "trace" "agent" "native_exec" "High" "Blocked" "needs <approval>" 3).
  apply (reach_audit "/data" "trace" "agent" "native_exec" "High" "Blocked" "needs <approval>" 3 demo_opened (calm 0)
    (m demo_opened (calm 0)).1 _ (m demo_opened (calm 0)).2.2).
  - exact demo_reach.
  - repeat constructor; by apply ascii_text.
  - split; vm_compute; done.
  - unfold small. vm_compute. done.
  - fold m. unfold demo_logged, demo_run. fold m. by destruct (m demo_opened (calm 0)) as [r [s' e']].
Qed.

(** Started again, with a failing statement that does no harm. *)
Definition demo_again : AuditLogger := (NewAuditLogger "/data" demo_logged (mkEnv [false; false; false; true] 0 [] 0)).2.1.
Lemma demo_reach_again : reach "/data" demo_again.
Proof.
  apply (reach_restart "/data" demo_logged (mkEnv [false; false; false; true] 0 [] 0) _
    (NewAuditLogger "/data" demo_logged (mkEnv [false; false; false; true] 0 [] 0)).2.2 demo_reach_logged); [done|].
  vm_compute. reflexivity.
Qed.

Lemma chain_kept_witness :
  reach "/data" demo_again /\
  wp VerifyChain (fun r s' _ => s' = demo_again /\ (r = Ok tt \/ faults (calm 0) <> [] /\ r = Err ReadFailed)) demo_again (calm 0) /\
  exists es, recorded (log_text demo_again) es /\ lastHash demo_again = last_hash "" es.
Proof. split; [exact demo_reach_again|]. apply (chain_kept "/data" demo_again (calm 0)); [done|exact demo_reach_again]. Defined.

Lemma tamper_evident_witness :
  (forall text es, verify_text text = Ok tt -> recorded text es -> last_hash "" es = lastHash demo_logged ->
     recorded (log_text demo_logged) es \/ exists logged, recorded (log_text demo_logged) logged /\ clash es logged) /\
  verify_lines 0 "" (take 1 (splitLines (log_text demo_logged))) = Ok tt.
Proof.
  destruct (tamper_evident "/data" demo_logged) as [H1 H2]; [done|exact demo_reach_logged|]. split; [exact H1|exact (H2 1%nat)].
Defined.

(** A text of any length. *)
Lemma long_text (n : Z) : 0 <= n -> exists s, len s = n.
Proof.
  intros Hn. assert (Hl : forall k, exists s, String.length s = k).
  { induction k as [|k [s Hs]]; [by exists ""|]. exists (String "x" s). cbn. by rewrite Hs. }
  destruct (Hl (Z.to_nat n)) as [s Hs]. exists s. unfold len. rewrite Hs. lia.
Qed.

Definition demo_entry (err : string) : AuditLogEntry := mkEntry "" "" "agent" "tool" "Low" 1 "Failed" err "" "".

Lemma demo_entry_wf : wf_entry (demo_entry "").
Proof. split; [vm_compute; done|split; vm_compute; done]. Qed.

Definition full_logger (text : string) : AuditLogger := mkLogger "/log" {["/log" := text]} false (Some "/log") "h".

Lemma rotation_breaks_chain_witness : exists text,
  rotateSize < len text /\
  wp (Log (demo_entry "")) (fun r s' _ => r = Ok tt /\ exists t ts id, 0 <= t /\
    let x := sealed (stamped (demo_entry "") ts id) "h" in
    PreviousHash x = "h" /\ (forall es, holds (full_logger text) es -> text = file_text es /\ PreviousHash x = last_hash "" es) /\
    s' = mkLogger "/log" (<["/log" := line_of x]> (moved_aside (full_logger text) text t)) false (Some "/log") (EntryHash x) /\
    forall rest, verify_text (line_of x +:+ rest) = Err (ChainFailed 0)) (full_logger text) (calm 0).
Proof.
  assert (Hpos : 0 <= rotateSize + 1) by (apply Z.leb_le; vm_compute; reflexivity).
  destruct (long_text (rotateSize + 1) Hpos) as [text Ht]. exists text.
  assert (Hlt : rotateSize < len text) by (rewrite Ht; apply Z.lt_add_pos_r; done). split; [exact Hlt|].
  assert (Hh : coerce "h" = "h") by (vm_compute; done).
  refine (rotation_breaks_chain (demo_entry "") (full_logger text) (calm 0) text eq_refl eq_refl eq_refl _ Hlt _ demo_entry_wf Hh); [|done].
  unfold full_logger. cbn [disk logPath]. apply lookup_singleton_eq.
Defined.

Lemma bad_text_breaks_chain_witness :
  let entry := demo_entry (String (byte_of 200) "") in
  coerce (EError entry) <> EError entry /\
  wp (Log entry) (fun r s' _ => r = Ok tt /\
    exists es x, recorded (log_text demo_logged) es /\ log_text s' = log_text demo_logged +:+ line_of x /\
      (verify_text (log_text s') = Err (ChainFailed (Z.of_nat (length es))) \/ clash [x] [coerce_entry x])) demo_logged (calm 0).
Proof.
  intros entry. assert (Hbad : coerce (EError entry) <> EError entry) by (vm_compute; done). split; [exact Hbad|].
  apply (bad_text_breaks_chain "/data" entry demo_logged (calm 0)).
  - done.
  - exact demo_reach_logged.
  - unfold small. vm_compute. done.
  - vm_compute. done.
  - done.
  - split; vm_compute; done.
  - unfold texts. do 6 apply Exists_cons_tl. by apply Exists_cons_hd.
Defined.

Definition demo_search (offset limit : Z) : AuditSearchParams := mkParams "" "" "high" "" "" "" "" limit offset.

Lemma search_exact_witness : exists es,
  recorded (log_text demo_logged) es /\
  let params := demo_search 0 20 in
  let matched := filter (fun x => matches params x = true) (reverse es) in
  let off := Z.max 0 (Z.min (Offset params) (Z.of_nat (length matched))) in
  let lim := if Limit params <=? 0 then 100 else Limit params in
  wp (SearchEntries params) (fun r s' _ => s' = demo_logged /\
    (r = (if off + lim <=? max_int64 then Ok (take (Z.to_nat lim) (drop (Z.to_nat off) matched), Z.of_nat (length matched)) else Err SlicePanic)
     \/ faults (calm 0) <> [] /\ r = Err ReadFailed)) demo_logged (calm 0).
Proof.
  destruct (reach_holds "/data" demo_logged) as [_ [es Hs]]; [done|exact demo_reach_logged|].
  assert (Hrec : recorded (log_text demo_logged) es).
  { rewrite (holds_text demo_logged es Hs). apply recorded_text, Hs. }
  assert (Hlen : length es = 2%nat) by (rewrite <- (decode_recorded _ _ Hrec); vm_compute; done).
  exists es. split; [exact Hrec|]. intros params.
  apply (search_exact params demo_logged es (calm 0)).
  - vm_compute. eauto.
  - exact Hrec.
  - vm_compute. done.
  - vm_compute. done.
  - rewrite Hlen. vm_compute. done.
Defined.

(** The largest limit with an offset makes the search panic. *)
Example search_panics : (SearchEntries (demo_search 1 max_int64) demo_logged (calm 0)).1 = Err SlicePanic.
Proof. vm_compute. done. Qed.
