(* ===== verification/Envelope.v ===== *)
(** * Channel messages ([internal/channels/adapter.go], [envelope.go], [media.go])

    What comes in from a chat channel and what goes out to it.  Metadata is a
    map that callees share with their callers; since lifting its aliases into
    the typed fields twice is lifting them once (EnvelopeSpec.v), passing
    messages by value shows the same effects.  A missing map is an empty one. *)

From S2P Require Import Prelude GoStrings GoText.
From Stdlib Require Import Ascii.
#[local] Open Scope Z_scope.

Definition MessageKindText : string := "text".
Definition MessageKindTyping : string := "typing".
Definition MessageKindReaction : string := "reaction".
Definition MessageKindMedia : string := "media".

Abbreviation meta_map := (gmap string string).

Record InboundMessage := mkInbound {
  IChannelID : string; IAccountID : string; ISenderID : string; ISenderName : string;
  ITargetAgent : string; IMentionText : string; IContent : string; IKind : string; IMessageID : string;
  IChatID : string; IThreadID : string; ITimestamp : string; IReaction : string; IMetadata : meta_map }.

Record OutboundMessage := mkOutbound {
  OChannelID : string; OAccountID : string; ORecipient : string; OContent : string; OKind : string;
  OChatID : string; OReplyToID : string; OThreadID : string; OReaction : string; OAction : string; OTyping : bool;
  OMetadata : meta_map; OFileName : string; OMIMEType : string; OFileData : string }.

Record ChannelAccount := mkChannelAccount {
  AccID : string; AccName : string; AccChannel : string; AccToken : string; PhoneID : string; WebhookSecret : string;
  AccEnabled : bool; BoundAgentIDs : list string; DefaultChatID : string; RoutingMode : string;
  RequiresPairing : bool; AccMetadata : meta_map }.

#[export] Instance InboundMessage_eq_dec : EqDecision InboundMessage.
Proof. solve_decision. Defined.
#[export] Instance OutboundMessage_eq_dec : EqDecision OutboundMessage.
Proof. solve_decision. Defined.

(** ** Metadata *)

Definition mediaMetaKeys : list string := ["photo"; "image_url"; "document"; "file_url"; "voice"; "voice_url"; "audio_url"].

(** [m[key]] *)
Definition meta (m : meta_map) (key : string) : string := default "" (m !! key).

Fixpoint FirstNonEmpty (values : list string) : string :=
  match values with
  | [] => ""
  | v :: rest => let s := trim_space v in if bool_decide (s = "") then FirstNonEmpty rest else s
  end.

Definition hasMediaMeta (m : meta_map) : bool :=
  existsb (fun k => negb (bool_decide (trim_space (meta m k) = ""))) mediaMetaKeys.

Definition setMetaIfEmpty (key value : string) (m : meta_map) : meta_map :=
  if bool_decide (value = "") then m
  else if bool_decide (trim_space (meta m key) = "") then <[key := value]> m else m.

(** [if v != "" { m[key] = v }] *)
Definition set_meta (key value : string) (m : meta_map) : meta_map :=
  if bool_decide (value = "") then m else <[key := value]> m.

(** ** Inbound *)

(** The kind of a message that came without one. *)
Definition inbound_kind (kind reaction content : string) (m : meta_map) : string :=
  if negb (bool_decide (kind = "")) then kind
  else if negb (bool_decide (reaction = "")) && bool_decide (trim_space content = "") then MessageKindReaction
  else if hasMediaMeta m then MessageKindMedia
  else MessageKindText.

(** [InboundMessage.Normalize] *)
Definition NormalizeInbound (i : InboundMessage) : InboundMessage :=
  let m := IMetadata i in
  let acc := FirstNonEmpty [IAccountID i; meta m "account_id"] in
  let m := set_meta "account_id" acc m in
  let chat := FirstNonEmpty [IChatID i; meta m "chat_id"; meta m "channel_id"; meta m "from"] in
  let m := setMetaIfEmpty "channel_id" chat (setMetaIfEmpty "chat_id" chat m) in
  let msg := FirstNonEmpty [IMessageID i; meta m "message_id"; meta m "msg_id"; meta m "ts"] in
  let m := setMetaIfEmpty "msg_id" msg (setMetaIfEmpty "message_id" msg m) in
  let thread := FirstNonEmpty [IThreadID i; meta m "thread_id"; meta m "thread_ts"] in
  let m := setMetaIfEmpty "thread_ts" thread (setMetaIfEmpty "thread_id" thread m) in
  let stamp := FirstNonEmpty [ITimestamp i; meta m "timestamp"; meta m "date"; meta m "ts"] in
  let m := setMetaIfEmpty "timestamp" stamp m in
  let reaction := FirstNonEmpty [IReaction i; meta m "reaction"] in
  let m := set_meta "reaction" reaction m in
  mkInbound (IChannelID i) acc (ISenderID i) (ISenderName i) (ITargetAgent i) (IMentionText i) (IContent i)
    (inbound_kind (IKind i) reaction (IContent i) m) msg chat thread stamp reaction m.

(** A control event is typing or a reaction: no agent turn. *)
Definition IsControlEvent (i : InboundMessage) : bool :=
  bool_decide (IKind i = MessageKindTyping) || bool_decide (IKind i = MessageKindReaction).

Definition RecipientForReply (i : InboundMessage) : string :=
  let i := NormalizeInbound i in
  FirstNonEmpty [IChatID i; meta (IMetadata i) "chat_id"; meta (IMetadata i) "channel_id"; ISenderID i].
Definition ConversationID (i : InboundMessage) : string := RecipientForReply i.

(** ** Outbound *)

Definition HasFile (data : string) (m : meta_map) : bool := negb (bool_decide (data = "")) || hasMediaMeta m.

Definition outbound_kind (kind content reaction data : string) (typing : bool) (m : meta_map) : string :=
  let blank := bool_decide (trim_space content = "") in
  let hasFile := HasFile data m in
  if negb (bool_decide (kind = "")) then kind
  else if typing && blank && bool_decide (reaction = "") && negb hasFile then MessageKindTyping
  else if negb (bool_decide (reaction = "")) && blank && negb hasFile then MessageKindReaction
  else if hasFile then MessageKindMedia
  else MessageKindText.

(** [OutboundMessage.Normalize] *)
Definition NormalizeOutbound (o : OutboundMessage) : OutboundMessage :=
  let m := OMetadata o in
  let acc := FirstNonEmpty [OAccountID o; meta m "account_id"] in
  let m := set_meta "account_id" acc m in
  let chat := FirstNonEmpty [OChatID o; meta m "chat_id"; meta m "channel_id"; ORecipient o] in
  let m := setMetaIfEmpty "channel_id" chat (setMetaIfEmpty "chat_id" chat m) in
  let reply := FirstNonEmpty [OReplyToID o; meta m "reply_to_id"; meta m "reply_to_msg_id"; meta m "reply_to_message_id"; meta m "reply_to_ts"] in
  let m := setMetaIfEmpty "reply_to_msg_id" reply (setMetaIfEmpty "reply_to_id" reply m) in
  let thread := FirstNonEmpty [OThreadID o; meta m "thread_id"; meta m "thread_ts"] in
  let m := setMetaIfEmpty "thread_ts" thread (setMetaIfEmpty "thread_id" thread m) in
  let reaction := FirstNonEmpty [OReaction o; meta m "reaction"] in
  let m := set_meta "reaction" reaction m in
  let action := FirstNonEmpty [OAction o; meta m "action"] in
  let m := set_meta "action" action m in
  let typing := OTyping o || bool_decide (meta m "typing" = "true") || bool_decide (OKind o = MessageKindTyping) || bool_decide (action = "typing") in
  let m := if typing then <["typing" := "true"]> m else m in
  let name := FirstNonEmpty [OFileName o; meta m "file_name"] in
  let m := setMetaIfEmpty "file_name" name m in
  let mime := FirstNonEmpty [OMIMEType o; meta m "mime_type"] in
  let m := setMetaIfEmpty "mime_type" mime m in
  mkOutbound (OChannelID o) acc (ORecipient o) (OContent o) (outbound_kind (OKind o) (OContent o) reaction (OFileData o) typing m)
    chat reply thread reaction action typing m name mime (OFileData o).

(** [NewReply], [NewTyping] and [NewReaction] work on a copy of the metadata. *)
Definition NewReply (i : InboundMessage) (content : string) : OutboundMessage :=
  let i := NormalizeInbound i in
  NormalizeOutbound (mkOutbound (IChannelID i) (IAccountID i) (RecipientForReply i) content MessageKindText
    (FirstNonEmpty [IChatID i; RecipientForReply i]) (IMessageID i) (IThreadID i) "" "" false (IMetadata i) "" "" "").

Definition NewTyping (i : InboundMessage) : OutboundMessage :=
  let i := NormalizeInbound i in
  NormalizeOutbound (mkOutbound (IChannelID i) (IAccountID i) (RecipientForReply i) "" MessageKindTyping
    (FirstNonEmpty [IChatID i; RecipientForReply i]) "" "" "" "typing" true (IMetadata i) "" "" "").

Definition NewReaction (i : InboundMessage) (emoji : string) : OutboundMessage :=
  let i := NormalizeInbound i in
  NormalizeOutbound (mkOutbound (IChannelID i) (IAccountID i) (RecipientForReply i) "" MessageKindReaction
    (FirstNonEmpty [IChatID i; RecipientForReply i]) (IMessageID i) "" (trim_space emoji) "" false (IMetadata i) "" "" "").

(** ** Mentions *)

(** [strings.SplitN(s, sep, n)] for a separator of one byte. *)
Fixpoint split_n (n : nat) (c : ascii) (s acc : string) : list string :=
  match n with
  | O => []
  | S O => [acc +:+ s]
  | S n' =>
      (fix go (s acc : string) : list string :=
         match s with
         | "" => [acc]
         | String a s' => if bool_decide (a = c) then acc :: split_n n' c s' "" else go s' (acc +:+ String a "")
         end) s acc
  end.

Definition ExtractAgentMention (text : string) : string * string :=
  let trimmed := trim_space text in
  if bool_decide (trimmed = "") then ("", "")
  else
    let slash :=
      if has_prefix trimmed "/agent " || has_prefix trimmed "/ask " then
        match split_n 3 " "%char trimmed "" with
        | [_; a; c] => Some (trim_space a, trim_space c)
        | [_; a] => Some (trim_space a, "")
        | _ => None
        end
      else None in
    match slash with
    | Some r => r
    | None =>
        if has_prefix trimmed "@" then
          match fields trimmed with
          | f :: _ => (trim_right (trim_prefix f "@") [58; 44], trim_space (trim_prefix trimmed f))
          | [] => ("", trimmed)
          end
        else ("", trimmed)
    end.

(** ** Attachments ([media.go]) *)

Section media.
Context `{Unicode}.

(** [filepath.Ext]: from the last dot of the last path element. *)
Definition Ext (name : string) : string :=
  let base := match split_last name "/"%char with Some (_, b) => b | None => name end in
  match split_last base "."%char with Some (_, e) => "." +:+ e | None => "" end.

Definition before_semicolon (s : string) : string :=
  match index s ";" with Some i => take_bytes i s | None => s end.

Definition MediaKindFromName (name mimeType : string) : string :=
  let mime := to_lower (trim_space (before_semicolon mimeType)) in
  let ext := to_lower (Ext name) in
  if has_prefix mime "image/" && negb (bool_decide (ext = ".svg")) && negb (bool_decide (ext = ".svgz")) then "photo"
  else if bool_decide (mime = "image/svg+xml") then "document"
  else if has_prefix mime "audio/" || bool_decide (ext ∈ [".ogg"; ".mp3"; ".wav"; ".m4a"]) then "voice"
  else if bool_decide (ext ∈ [".png"; ".jpg"; ".jpeg"; ".gif"; ".webp"]) then "photo"
  else "document".

Definition AttachMediaMetadata (m : meta_map) (name mimeType : string) : meta_map :=
  let m := if bool_decide (name = "") then m
           else <["media_kind" := MediaKindFromName name mimeType]> (<["file_name" := name]> m) in
  if bool_decide (mimeType = "") then m else <["mime_type" := mimeType]> m.

End media.
