(* ===== verification/EnvelopeSpec.v ===== *)
(** * Channel messages: lifting metadata once is enough

    Normalizing a message twice is normalizing it once, and a reply goes to
    the conversation its message came from. *)

From S2P Require Import Prelude GoStrings GoText Envelope.
#[local] Open Scope Z_scope.

(** ** The first non-empty text *)

Lemma FirstNonEmpty_trimmed l : trim_space (FirstNonEmpty l) = FirstNonEmpty l.
Proof. induction l as [|v l IH]; [done|]. cbn. case_bool_decide; [done|apply trim_space_idem]. Qed.

Lemma FirstNonEmpty_head v l : v <> "" -> trim_space v = v -> FirstNonEmpty (v :: l) = v.
Proof. intros Hv Ht. cbn. rewrite Ht. by case_bool_decide. Qed.

Lemma FirstNonEmpty_none a l : FirstNonEmpty (a :: l) = "" -> trim_space a = "" /\ FirstNonEmpty l = "".
Proof. cbn. case_bool_decide as Ha; [done|]. intros Hn. by rewrite Hn in Ha. Qed.

(** Lifting again finds the value lifted before, unless another value turned
    up where none was. *)
Lemma lift_again v a l l' : v = FirstNonEmpty (a :: l) -> (v = "" -> l' = l) -> FirstNonEmpty (v :: l') = v.
Proof.
  intros -> Hl. destruct (decide (FirstNonEmpty (a :: l) = "")) as [He|Hne].
  - rewrite (Hl He), He. by apply FirstNonEmpty_none in He as [_ He].
  - apply FirstNonEmpty_head; [done|apply FirstNonEmpty_trimmed].
Qed.

(** ** Metadata *)

Lemma set_meta_ne k k' v m : k <> k' -> set_meta k v m !! k' = m !! k'.
Proof. intros Hk. unfold set_meta. case_bool_decide; [done|]. by rewrite lookup_insert_ne. Qed.
Lemma setMetaIfEmpty_ne k k' v m : k <> k' -> setMetaIfEmpty k v m !! k' = m !! k'.
Proof. intros Hk. unfold setMetaIfEmpty. do 2 (case_bool_decide; [try done|try done]). by rewrite lookup_insert_ne. Qed.

Lemma meta_set_ne k k' v m : k <> k' -> meta (set_meta k v m) k' = meta m k'.
Proof. intros Hk. unfold meta. by rewrite set_meta_ne. Qed.
Lemma meta_setIf_ne k k' v m : k <> k' -> meta (setMetaIfEmpty k v m) k' = meta m k'.
Proof. intros Hk. unfold meta. by rewrite setMetaIfEmpty_ne. Qed.
Lemma meta_insert_ne k k' v m : k <> k' -> meta (<[k := v]> m) k' = meta m k'.
Proof. intros Hk. unfold meta. by rewrite lookup_insert_ne. Qed.

Lemma set_meta_empty k m : set_meta k "" m = m.
Proof. done. Qed.
Lemma setMetaIfEmpty_empty k m : setMetaIfEmpty k "" m = m.
Proof. done. Qed.

Lemma set_meta_eq k v m : v <> "" -> set_meta k v m !! k = Some v.
Proof. intros Hv. unfold set_meta. case_bool_decide; [done|]. by rewrite lookup_insert_eq. Qed.
Lemma setMetaIfEmpty_eq k v m : v <> "" -> trim_space v = v -> trim_space (meta (setMetaIfEmpty k v m) k) <> "".
Proof.
  intros Hv Ht. unfold setMetaIfEmpty. case_bool_decide; [done|]. case_bool_decide; [|done].
  unfold meta. rewrite lookup_insert_eq. change (default "" (Some v)) with v. by rewrite Ht.
Qed.

(** Writing what is there already changes nothing. *)
Lemma set_meta_fixed k v m : (v <> "" -> m !! k = Some v) -> set_meta k v m = m.
Proof. intros Hm. unfold set_meta. case_bool_decide; [done|]. by apply insert_id, Hm. Qed.
Lemma setMetaIfEmpty_fixed k v m : (v <> "" -> trim_space (meta m k) <> "") -> setMetaIfEmpty k v m = m.
Proof. intros Hm. unfold setMetaIfEmpty. case_bool_decide as Hv; [done|]. case_bool_decide as Ht; [|done]. by destruct (Hm Hv). Qed.

Create Rewrite HintDb envelope.
#[export] Hint Rewrite meta_set_ne meta_setIf_ne meta_insert_ne set_meta_ne setMetaIfEmpty_ne using done : envelope.

(** A value read again from the metadata it was written to. *)
Ltac again := eapply lift_again; [reflexivity|]; let H := fresh in intros H;
  rewrite ?H, ?set_meta_empty, ?setMetaIfEmpty_empty; autorewrite with envelope; reflexivity.
Ltac written := apply set_meta_fixed; intros ?; autorewrite with envelope; by apply set_meta_eq.
Ltac written_if := apply setMetaIfEmpty_fixed; intros ?; autorewrite with envelope; apply setMetaIfEmpty_eq; [done|apply FirstNonEmpty_trimmed].

(** The metadata after [NormalizeInbound], from the values lifted. *)
Definition inbound_meta (acc chat msg thread stamp reaction : string) (m : meta_map) : meta_map :=
  set_meta "reaction" reaction (setMetaIfEmpty "timestamp" stamp (setMetaIfEmpty "thread_ts" thread (setMetaIfEmpty "thread_id" thread
    (setMetaIfEmpty "msg_id" msg (setMetaIfEmpty "message_id" msg (setMetaIfEmpty "channel_id" chat (setMetaIfEmpty "chat_id" chat
      (set_meta "account_id" acc m)))))))).

(** One phase of a body as a local definition. *)
Ltac intro_let y := lazymatch goal with |- (let x := ?v in @?f x) = ?r => pose (y := v); change (f y = r); cbv beta end.

(** What the phases read is what the message came with. *)
Lemma inbound_flat ch ac se na ta me co ki mi chat th ti re m :
  let acc := FirstNonEmpty [ac; meta m "account_id"] in
  let c := FirstNonEmpty [chat; meta m "chat_id"; meta m "channel_id"; meta m "from"] in
  let i := FirstNonEmpty [mi; meta m "message_id"; meta m "msg_id"; meta m "ts"] in
  let t := FirstNonEmpty [th; meta m "thread_id"; meta m "thread_ts"] in
  let s := FirstNonEmpty [ti; meta m "timestamp"; meta m "date"; meta m "ts"] in
  let r := FirstNonEmpty [re; meta m "reaction"] in
  let M := inbound_meta acc c i t s r m in
  NormalizeInbound (mkInbound ch ac se na ta me co ki mi chat th ti re m) =
    mkInbound ch acc se na ta me co (inbound_kind ki r co M) i c t s r M.
Proof.
  intros acc c i t s r M. cbv delta [NormalizeInbound] beta.
  intro_let m0. intro_let acc'. intro_let m1. intro_let c'. intro_let m2. intro_let i'. intro_let m3. intro_let t'. intro_let m4.
  intro_let s'. intro_let m5. intro_let r'. intro_let m6.
  assert (Ec : c' = c) by (unfold c', m1; cbn [IChatID]; by autorewrite with envelope).
  assert (Ei : i' = i) by (unfold i', m2, m1; cbn [IMessageID]; by autorewrite with envelope).
  assert (Et : t' = t) by (unfold t', m3, m2, m1; cbn [IThreadID]; by autorewrite with envelope).
  assert (Es : s' = s) by (unfold s', m4, m3, m2, m1; cbn [ITimestamp]; by autorewrite with envelope).
  assert (Er : r' = r) by (unfold r', m5, m4, m3, m2, m1; cbn [IReaction]; by autorewrite with envelope).
  assert (EM : m6 = M) by (unfold m6, m5, m4, m3, m2, m1; rewrite Er, Es, Et, Ei, Ec; reflexivity).
  cbn [IChannelID ISenderID ISenderName ITargetAgent IMentionText IContent IKind]. rewrite EM, Ec, Ei, Et, Es, Er. reflexivity.
Qed.

Lemma inbound_kind_again k r co M M' : inbound_kind (inbound_kind k r co M) r co M' = inbound_kind k r co M.
Proof.
  assert (Hne : inbound_kind k r co M <> "") by (unfold inbound_kind; repeat case_match; try done; by destruct (bool_decide_reflect (k = ""))).
  unfold inbound_kind at 1. by rewrite bool_decide_eq_false_2.
Qed.

Lemma inbound_again i : NormalizeInbound (NormalizeInbound i) = NormalizeInbound i.
Proof.
  destruct i as [ch ac se na ta me co ki mi chat th ti re m]. rewrite inbound_flat.
  set (acc := FirstNonEmpty [ac; _]). set (c := FirstNonEmpty [chat; _; _; _]). set (i := FirstNonEmpty [mi; _; _; _]).
  set (t := FirstNonEmpty [th; _; _]). set (s := FirstNonEmpty [ti; _; _; _]). set (r := FirstNonEmpty [re; _]).
  rewrite inbound_flat. set (M := inbound_meta acc c i t s r m).
  assert (Ha : FirstNonEmpty [acc; meta M "account_id"] = acc) by (unfold M, inbound_meta; again).
  assert (Hc : FirstNonEmpty [c; meta M "chat_id"; meta M "channel_id"; meta M "from"] = c) by (unfold M, inbound_meta; again).
  assert (Hi : FirstNonEmpty [i; meta M "message_id"; meta M "msg_id"; meta M "ts"] = i) by (unfold M, inbound_meta; again).
  assert (Ht : FirstNonEmpty [t; meta M "thread_id"; meta M "thread_ts"] = t) by (unfold M, inbound_meta; again).
  assert (Hs : FirstNonEmpty [s; meta M "timestamp"; meta M "date"; meta M "ts"] = s) by (unfold M, inbound_meta; again).
  assert (Hr : FirstNonEmpty [r; meta M "reaction"] = r) by (unfold M, inbound_meta; again).
  rewrite Ha, Hc, Hi, Ht, Hs, Hr. 
  assert (HM : inbound_meta acc c i t s r M = M); [|by rewrite HM, inbound_kind_again].
  unfold inbound_meta at 1.
  assert (H1 : set_meta "account_id" acc M = M) by (unfold M, inbound_meta; written). rewrite H1.
  assert (H2 : setMetaIfEmpty "chat_id" c M = M) by (unfold M, inbound_meta; written_if). rewrite H2.
  assert (H3 : setMetaIfEmpty "channel_id" c M = M) by (unfold M, inbound_meta; written_if). rewrite H3.
  assert (H4 : setMetaIfEmpty "message_id" i M = M) by (unfold M, inbound_meta; written_if). rewrite H4.
  assert (H5 : setMetaIfEmpty "msg_id" i M = M) by (unfold M, inbound_meta; written_if). rewrite H5.
  assert (H6 : setMetaIfEmpty "thread_id" t M = M) by (unfold M, inbound_meta; written_if). rewrite H6.
  assert (H7 : setMetaIfEmpty "thread_ts" t M = M) by (unfold M, inbound_meta; written_if). rewrite H7.
  assert (H8 : setMetaIfEmpty "timestamp" s M = M) by (unfold M, inbound_meta; written_if). rewrite H8.
  unfold M, inbound_meta. written.
Qed.

(** The metadata after [NormalizeOutbound]. *)
Definition outbound_meta (acc chat reply thread reaction action : string) (typing : bool) (name mime : string) (m : meta_map) : meta_map :=
  let m := set_meta "action" action (set_meta "reaction" reaction (setMetaIfEmpty "thread_ts" thread (setMetaIfEmpty "thread_id" thread
    (setMetaIfEmpty "reply_to_msg_id" reply (setMetaIfEmpty "reply_to_id" reply (setMetaIfEmpty "channel_id" chat (setMetaIfEmpty "chat_id" chat
      (set_meta "account_id" acc m)))))))) in
  setMetaIfEmpty "mime_type" mime (setMetaIfEmpty "file_name" name (set_meta "typing" (if typing then "true" else "") m)).

Lemma outbound_flat ch ac rc co ki chat rp th re act ty m name mime data :
  let acc := FirstNonEmpty [ac; meta m "account_id"] in
  let c := FirstNonEmpty [chat; meta m "chat_id"; meta m "channel_id"; rc] in
  let q := FirstNonEmpty [rp; meta m "reply_to_id"; meta m "reply_to_msg_id"; meta m "reply_to_message_id"; meta m "reply_to_ts"] in
  let t := FirstNonEmpty [th; meta m "thread_id"; meta m "thread_ts"] in
  let r := FirstNonEmpty [re; meta m "reaction"] in
  let a := FirstNonEmpty [act; meta m "action"] in
  let y := ty || bool_decide (meta m "typing" = "true") || bool_decide (ki = MessageKindTyping) || bool_decide (a = "typing") in
  let n := FirstNonEmpty [name; meta m "file_name"] in
  let x := FirstNonEmpty [mime; meta m "mime_type"] in
  let M := outbound_meta acc c q t r a y n x m in
  NormalizeOutbound (mkOutbound ch ac rc co ki chat rp th re act ty m name mime data) =
    mkOutbound ch acc rc co (outbound_kind ki co r data y M) c q t r a y M n x data.
Proof.
  intros acc c q t r a y n x M. cbv delta [NormalizeOutbound] beta.
  intro_let m0. intro_let acc'. intro_let m1. intro_let c'. intro_let m2. intro_let q'. intro_let m3. intro_let t'. intro_let m4.
  intro_let r'. intro_let m5. intro_let a'. intro_let m6. intro_let y'. intro_let m7. intro_let n'. intro_let m8. intro_let x'. intro_let m9.
  assert (Ec : c' = c) by (unfold c', m1; cbn [OChatID ORecipient]; by autorewrite with envelope).
  assert (Eq : q' = q) by (unfold q', m2, m1; cbn [OReplyToID]; by autorewrite with envelope).
  assert (Et : t' = t) by (unfold t', m3, m2, m1; cbn [OThreadID]; by autorewrite with envelope).
  assert (Er : r' = r) by (unfold r', m4, m3, m2, m1; cbn [OReaction]; by autorewrite with envelope).
  assert (Ea : a' = a) by (unfold a', m5, m4, m3, m2, m1; cbn [OAction]; by autorewrite with envelope).
  assert (Ey : y' = y) by (unfold y', m6, m5, m4, m3, m2, m1; rewrite Ea; cbn [OTyping OKind]; by autorewrite with envelope).
  assert (E7 : m7 = set_meta "typing" (if y' then "true" else "") m6) by (unfold m7; by destruct y').
  assert (En : n' = n) by (unfold n'; rewrite E7; unfold m6, m5, m4, m3, m2, m1; cbn [OFileName]; by autorewrite with envelope).
  assert (Ex : x' = x) by (unfold x', m8; rewrite E7; unfold m6, m5, m4, m3, m2, m1; cbn [OMIMEType]; by autorewrite with envelope).
  assert (EM : m9 = M).
  { unfold m9, m8. rewrite E7. unfold m6, m5, m4, m3, m2, m1. rewrite Ex, En, Ey, Ea, Er, Et, Eq, Ec. reflexivity. }
  cbn [OChannelID ORecipient OContent OKind OFileData]. rewrite EM, Ec, Eq, Et, Er, Ea, Ey, En, Ex. reflexivity.
Qed.

Lemma outbound_kind_again k co r data y M M' y' : outbound_kind (outbound_kind k co r data y M) co r data y' M' = outbound_kind k co r data y M.
Proof.
  assert (Hne : outbound_kind k co r data y M <> "").
  { unfold outbound_kind. destruct (bool_decide_reflect (k = "")); [|done]. cbn [negb]. by repeat case_match. }
  unfold outbound_kind at 1. by rewrite bool_decide_eq_false_2.
Qed.

Lemma outbound_kind_typing k co r data M : k <> MessageKindTyping -> outbound_kind k co r data false M <> MessageKindTyping.
Proof. intros Hk. unfold outbound_kind. destruct (bool_decide_reflect (k = "")); [|done]. cbn [negb andb]. by repeat case_match. Qed.

Lemma outbound_again o : NormalizeOutbound (NormalizeOutbound o) = NormalizeOutbound o.
Proof.
  destruct o as [ch ac rc co ki chat rp th re act ty m name mime data]. rewrite outbound_flat.
  set (acc := FirstNonEmpty [ac; _]). set (c := FirstNonEmpty [chat; _; _; _]). set (q := FirstNonEmpty [rp; _; _; _; _]).
  set (t := FirstNonEmpty [th; _; _]). set (r := FirstNonEmpty [re; _]). set (a := FirstNonEmpty [act; _]).
  set (n := FirstNonEmpty [name; _]). set (x := FirstNonEmpty [mime; _]).
  set (y := ty || _ || _ || _). rewrite outbound_flat. set (M := outbound_meta acc c q t r a y n x m).
  assert (Ha : FirstNonEmpty [acc; meta M "account_id"] = acc) by (unfold M, outbound_meta; again).
  assert (Hc : FirstNonEmpty [c; meta M "chat_id"; meta M "channel_id"; rc] = c) by (unfold M, outbound_meta; again).
  assert (Hq : FirstNonEmpty [q; meta M "reply_to_id"; meta M "reply_to_msg_id"; meta M "reply_to_message_id"; meta M "reply_to_ts"] = q)
    by (unfold M, outbound_meta; again).
  assert (Ht : FirstNonEmpty [t; meta M "thread_id"; meta M "thread_ts"] = t) by (unfold M, outbound_meta; again).
  assert (Hr : FirstNonEmpty [r; meta M "reaction"] = r) by (unfold M, outbound_meta; again).
  assert (Hb : FirstNonEmpty [a; meta M "action"] = a) by (unfold M, outbound_meta; again).
  assert (Hn : FirstNonEmpty [n; meta M "file_name"] = n) by (unfold M, outbound_meta; again).
  assert (Hx : FirstNonEmpty [x; meta M "mime_type"] = x) by (unfold M, outbound_meta; again).
  rewrite Ha, Hc, Hq, Ht, Hr, Hb, Hn, Hx, outbound_kind_again.
  assert (Hy : y || bool_decide (meta M "typing" = "true") || bool_decide (outbound_kind ki co r data y M = MessageKindTyping) || bool_decide (a = "typing") = y).
  { destruct y eqn:Ey; [done|]. unfold y in Ey. apply orb_false_iff in Ey as [Ey Ey4]. apply orb_false_iff in Ey as [Ey Ey3]. apply orb_false_iff in Ey as [_ Ey2].
    apply bool_decide_eq_false in Ey2, Ey3. rewrite Ey4. cbn [orb]. rewrite orb_false_r. apply orb_false_iff. split; apply bool_decide_eq_false.
    - unfold M, outbound_meta. cbv zeta. rewrite set_meta_empty. autorewrite with envelope. exact Ey2.
    - by apply outbound_kind_typing. }
  rewrite Hy. assert (HM : outbound_meta acc c q t r a y n x M = M); [|by rewrite HM].
  unfold outbound_meta at 1. cbv zeta.
  assert (H1 : set_meta "account_id" acc M = M) by (unfold M, outbound_meta; written). rewrite H1.
  assert (H2 : setMetaIfEmpty "chat_id" c M = M) by (unfold M, outbound_meta; written_if). rewrite H2.
  assert (H3 : setMetaIfEmpty "channel_id" c M = M) by (unfold M, outbound_meta; written_if). rewrite H3.
  assert (H4 : setMetaIfEmpty "reply_to_id" q M = M) by (unfold M, outbound_meta; written_if). rewrite H4.
  assert (H5 : setMetaIfEmpty "reply_to_msg_id" q M = M) by (unfold M, outbound_meta; written_if). rewrite H5.
  assert (H6 : setMetaIfEmpty "thread_id" t M = M) by (unfold M, outbound_meta; written_if). rewrite H6.
  assert (H7 : setMetaIfEmpty "thread_ts" t M = M) by (unfold M, outbound_meta; written_if). rewrite H7.
  assert (H8 : set_meta "reaction" r M = M) by (unfold M, outbound_meta; written). rewrite H8.
  assert (H9 : set_meta "action" a M = M) by (unfold M, outbound_meta; written). rewrite H9.
  assert (H10 : set_meta "typing" (if y then "true" else "") M = M) by (unfold M, outbound_meta; written). rewrite H10.
  assert (H11 : setMetaIfEmpty "file_name" n M = M) by (unfold M, outbound_meta; written_if). rewrite H11.
  unfold M, outbound_meta. written_if.
Qed.

(** Lifting the metadata of a message a second time changes nothing,
    inbound or outbound: so it does not matter that callees normalize a
    message, and the map it shares with its caller, again. *)
Theorem normalize_once i o :
  NormalizeInbound (NormalizeInbound i) = NormalizeInbound i /\ NormalizeOutbound (NormalizeOutbound o) = NormalizeOutbound o.
Proof. split; [apply inbound_again|apply outbound_again]. Qed.

(** ** Replies *)

Lemma recipient_chat i : IChatID (NormalizeInbound i) <> "" -> RecipientForReply i = IChatID (NormalizeInbound i).
Proof.
  intros Hc. unfold RecipientForReply. apply FirstNonEmpty_head; [done|].
  destruct i as [ch ac se na ta me co ki mi chat th ti re m]. rewrite inbound_flat. cbn [IChatID]. apply FirstNonEmpty_trimmed.
Qed.

Lemma no_chat i : IChatID (NormalizeInbound i) = "" ->
  FirstNonEmpty [meta (IMetadata (NormalizeInbound i)) "chat_id"; meta (IMetadata (NormalizeInbound i)) "channel_id"] = "".
Proof.
  destruct i as [ch ac se na ta me co ki mi chat th ti re m]. rewrite inbound_flat. cbn [IChatID IMetadata]. unfold inbound_meta. intros Hc.
  rewrite Hc, !setMetaIfEmpty_empty. autorewrite with envelope. apply FirstNonEmpty_none in Hc as [_ Hc].
  cbn in Hc |- *. repeat case_bool_decide; congruence.
Qed.

Lemma first_chat c R k1 k2 rest :
  trim_space R = R -> (c <> "" -> R = c) -> (c = "" -> FirstNonEmpty [k1; k2] = "") ->
  FirstNonEmpty (FirstNonEmpty [c; R] :: k1 :: k2 :: rest) = FirstNonEmpty (R :: rest).
Proof.
  intros Ht Hc Hk. destruct (decide (c = "")) as [->|Hne].
  - specialize (Hk eq_refl). change (FirstNonEmpty ["" ; R]) with (FirstNonEmpty [R]). destruct (decide (R = "")) as [->|HR].
    + change (FirstNonEmpty [""]) with "". change (FirstNonEmpty ("" :: ?l)) with (FirstNonEmpty l).
      apply FirstNonEmpty_none in Hk as [H1 H2%FirstNonEmpty_none]. destruct H2 as [H2 _]. cbn [FirstNonEmpty]. by rewrite H1, H2.
    + rewrite (FirstNonEmpty_head R []), !(FirstNonEmpty_head R) by done. done.
  - specialize (Hc Hne). subst R. by rewrite !(FirstNonEmpty_head c) by done.
Qed.

(** A reply, a typing frame or a reaction goes to the channel, account
    and conversation of the message it answers, whatever metadata the
    message carries. *)
Theorem answers_go_back i content emoji o :
  o = NewReply i content \/ o = NewTyping i \/ o = NewReaction i emoji ->
  OChannelID o = IChannelID i /\ OAccountID o = IAccountID (NormalizeInbound i) /\
  ORecipient o = RecipientForReply i /\ OChatID o = RecipientForReply i.
Proof.
  intros Ho.
  assert (Hn : NormalizeInbound (NormalizeInbound i) = NormalizeInbound i) by apply inbound_again.
  assert (Hrec : RecipientForReply (NormalizeInbound i) = RecipientForReply i) by (unfold RecipientForReply; by rewrite Hn).
  assert (Hacc : FirstNonEmpty [IAccountID (NormalizeInbound i); meta (IMetadata (NormalizeInbound i)) "account_id"] = IAccountID (NormalizeInbound i)).
  { rewrite <- Hn at 3. destruct (NormalizeInbound i) as [ch ac se na ta me co ki mi chat th ti re m]. by rewrite inbound_flat. }
  set (n := NormalizeInbound i) in *.
  assert (Hchat : forall rest, FirstNonEmpty (FirstNonEmpty [IChatID n; RecipientForReply i] :: meta (IMetadata n) "chat_id" :: meta (IMetadata n) "channel_id" :: rest)
    = FirstNonEmpty (RecipientForReply i :: rest)).
  { intros rest. apply first_chat; [apply FirstNonEmpty_trimmed|apply recipient_chat|apply no_chat]. }
  assert (Hend : FirstNonEmpty [RecipientForReply i; RecipientForReply i] = RecipientForReply i).
  { assert (Ht : trim_space (RecipientForReply i) = RecipientForReply i) by apply FirstNonEmpty_trimmed.
    generalize dependent (RecipientForReply i). intros R _ _ Ht. cbn [FirstNonEmpty]. rewrite Ht. by case_bool_decide. }
  assert (Hch : IChannelID n = IChannelID i) by (unfold n; by destruct i).
  destruct Ho as [->|[-> | ->]]; unfold NewReply, NewTyping, NewReaction; fold n; rewrite outbound_flat; cbn [OChannelID OAccountID ORecipient OChatID];
    rewrite ?Hrec, Hacc, Hchat, Hend; done.
Qed.

Definition demo_inbound : InboundMessage :=
  mkInbound "telegram" "acc_1" "u1" "Ann" "" "" "hello" "" "" "" "" "" "" {["channel_id" := "C42"; "ts" := "17.5"]}.

Lemma answers_go_back_witness :
  OChannelID (NewReply demo_inbound "hi") = "telegram" /\ ORecipient (NewReply demo_inbound "hi") = "C42".
Proof.
  destruct (answers_go_back demo_inbound "hi" "" (NewReply demo_inbound "hi")) as (Hc & _ & Hr & _); [by left|].
  rewrite Hc, Hr. split; vm_compute; reflexivity.
Defined.
