(* ===== verification/Pairing.v ===== *)
(** * Channel pairing ([internal/channels/pairing.go], the guard of [router.go])

    Who may talk to the agents over a chat channel: one-time codes with a limit
    on wrong guesses, the operator's list, the policies, and the tables they are
    kept in.  Failures of most statements are ignored, as in the code, so the
    memory and the tables may differ. *)

From S2P Require Import Prelude GoStrings GoText Envelope Io.
From Stdlib Require Import Ascii.
From stdpp Require Import fin.

#[local] Open Scope Z_scope.

(** ** Data *)

Definition pairingCodeLength : nat := 8.
Definition pairingCodeAlphabet : string := "ABCDEFGHJKLMNPQRSTUVWXYZ23456789".
Definition pairingFailLimit : Z := 5.
Definition pairingFailWindow : Z := 15 * minute.

Record PendingSender := mkPending {
  PeChannelID : string; PeSenderID : string; PeSenderName : string; LastContent : string; FirstSeen : Z; LastSeen : Z }.
Record AuthorizedUser := mkUser {
  UChannelID : string; USenderID : string; USenderName : string; PairedAt : Z; LastActiveAt : Z; UStatus : string }.
Record PairingRequest := mkPairing { PCode : string; PChannelID : string; PCreatedAt : Z; PExpiresAt : Z }.

(** The manager in memory, and its three tables by primary key. *)
Record PairingManager := mkPairingManager {
  pm_db : bool;
  activeCodes : gmap string PairingRequest; users : gmap string AuthorizedUser; policies : gmap string bool;
  pending : gmap string PendingSender; failCount : gmap string Z; failWindow : gmap string Z;
  t_auth : gmap (string * string) AuthorizedUser; t_policy : gmap string bool; t_codes : gmap string PairingRequest }.

Definition with_codes m p := mkPairingManager (pm_db p) m (users p) (policies p) (pending p) (failCount p) (failWindow p) (t_auth p) (t_policy p) (t_codes p).
Definition with_users m p := mkPairingManager (pm_db p) (activeCodes p) m (policies p) (pending p) (failCount p) (failWindow p) (t_auth p) (t_policy p) (t_codes p).
Definition with_policies m p := mkPairingManager (pm_db p) (activeCodes p) (users p) m (pending p) (failCount p) (failWindow p) (t_auth p) (t_policy p) (t_codes p).
Definition with_pending m p := mkPairingManager (pm_db p) (activeCodes p) (users p) (policies p) m (failCount p) (failWindow p) (t_auth p) (t_policy p) (t_codes p).
Definition with_fails c w p := mkPairingManager (pm_db p) (activeCodes p) (users p) (policies p) (pending p) c w (t_auth p) (t_policy p) (t_codes p).
Definition with_t_auth m p := mkPairingManager (pm_db p) (activeCodes p) (users p) (policies p) (pending p) (failCount p) (failWindow p) m (t_policy p) (t_codes p).
Definition with_t_policy m p := mkPairingManager (pm_db p) (activeCodes p) (users p) (policies p) (pending p) (failCount p) (failWindow p) (t_auth p) m (t_codes p).
Definition with_t_codes m p := mkPairingManager (pm_db p) (activeCodes p) (users p) (policies p) (pending p) (failCount p) (failWindow p) (t_auth p) (t_policy p) m.

Definition fresh_manager (open : bool) : PairingManager := mkPairingManager open ∅ ∅ ∅ ∅ ∅ ∅ ∅ ∅ ∅.

Inductive pairing_error := PairingDb | NoRandomness | ChannelRequired | IdsRequired.
Abbreviation pop := (io PairingManager pairing_error).

(** [rand.Int(rand.Reader, n)]: the answer of a draw, below the bound, or an
    error of the reader. *)
Class Randomness := { rand_int : nat -> option (fin 32) }.


(** What [ValidateAndPair] returns: [(false, nil)], [(false, ErrPairingLocked)],
    [(true, nil)], and [(true, err)] when only the table could not be written. *)
Inductive pair_result := Refused | Locked | Paired | PairedUnstored.
#[export] Instance pair_result_eq_dec : EqDecision pair_result. Proof. solve_decision. Defined.

Section pairing.
Context `{U : Unicode} `{R : Randomness} `{F : Folding}.

Definition norm_channel (channelID : string) : string := to_lower (trim_space channelID).
Definition pairingKey (channelID senderID : string) : string := norm_channel channelID +:+ ":" +:+ trim_space senderID.

(** A statement on the tables, when there is a database. *)
Definition exec (f : PairingManager -> PairingManager) : pop unit :=
  m ← get;
  if pm_db m then (_ ← db PairingDb; modify f) else mret tt.

(** ** Starting up *)

Definition load_users (p : PairingManager) : gmap string AuthorizedUser :=
  list_to_map ((fun x : string * string * AuthorizedUser => (pairingKey x.1.1 x.1.2, x.2)) <$>
    filter (fun x => UStatus x.2 = "active") (map_to_list (t_auth p))).
Definition load_policies (p : PairingManager) : gmap string bool :=
  list_to_map ((fun x : string * bool => (to_lower x.1, x.2)) <$> filter (fun x => x.1 <> "") (map_to_list (t_policy p))).

(** [NewPairingManager] over the tables an earlier process left. *)
Definition NewPairingManager : pop unit :=
  _ ← modify (fun p => with_codes ∅ (with_users ∅ (with_policies ∅ (with_pending ∅ (with_fails ∅ ∅ p)))));
  m ← get;
  if negb (pm_db m) then mret tt
  else
    _ ← db PairingDb;
    _ ← db PairingDb;
    _ ← modify (fun p => with_users (load_users p) p);
    _ ← db PairingDb;
    _ ← modify (fun p => with_policies (load_policies p) p);
    t ← now;
    _ ← ignore (exec (fun p => with_t_codes (filter (fun x => t < PExpiresAt x.2) (t_codes p)) p));
    _ ← db PairingDb;
    modify (fun p => with_codes (filter (fun x => t < PExpiresAt x.2 /\ PCode x.2 <> "") (t_codes p)) p).

(** ** Codes *)

Definition alphabet_at (i : fin 32) : ascii := default "A"%char (String.get (fin_to_nat i) pairingCodeAlphabet).

Fixpoint generate (n : nat) : pop string :=
  match n with
  | O => mret ""
  | S n' =>
    k ← draw;
    match rand_int k with
    | None => throw NoRandomness
    | Some i => rest ← generate n'; mret (String (alphabet_at i) rest)
    end
  end.
Definition generatePairingCode : pop string := generate pairingCodeLength.

(** Codes that are not past their end at [t]. *)
Definition unexpired (t : Z) (m : gmap string PairingRequest) : gmap string PairingRequest :=
  filter (fun x => time_after t (PExpiresAt x.2) = false) m.

Definition GeneratePairingCode (channelID : string) : pop string :=
  t ← now;
  _ ← modify (fun p => with_codes (unexpired t (activeCodes p)) p);
  code ← generatePairingCode;
  let channelID := norm_channel channelID in
  let channelID := if bool_decide (channelID = "") then "all" else channelID in
  let req := mkPairing code channelID t (time_add t (10 * minute)) in
  _ ← modify (fun p => with_codes (<[code := req]> (activeCodes p)) p);
  _ ← ignore (exec (fun p => with_t_codes (<[code := req]> (t_codes p)) p));
  mret code.

Definition isPairingCode (code : string) : bool :=
  (len code =? Z.of_nat pairingCodeLength) && forallb (fun c => bool_decide (c ∈ runes pairingCodeAlphabet)) (runes code).

Definition pin_cutset : list Z := runes (":,.!?()[]{}'" +:+ String (byte_of 34) "").

(** [None]: the slice panics; [Some ""]: no code. *)
Definition ExtractPairingPIN (text : string) : option string :=
  let trimmed := trim_space text in
  match index (to_lower trimmed) "/pair" with
  | None => Some ""
  | Some idx =>
    match slice_from (idx + 5) trimmed with
    | None => None
    | Some rest =>
      match fields (trim_space rest) with
      | [] => Some ""
      | f :: _ =>
        let code := to_upper (trim_chars f pin_cutset) in
        Some (if isPairingCode code then code else "")
      end
    end
  end.

(** ** Users *)

Definition upsert (key : string * string) (name : string) (t : Z) (m : gmap (string * string) AuthorizedUser) : gmap (string * string) AuthorizedUser :=
  match m !! key with
  | Some u => <[key := mkUser (UChannelID u) (USenderID u) name (PairedAt u) t "active"]> m
  | None => <[key := mkUser key.1 key.2 name t t "active"]> m
  end.

Definition add_user (channelID senderID senderName : string) (t : Z) (p : PairingManager) : PairingManager :=
  let key := pairingKey channelID senderID in
  with_users (<[key := mkUser channelID senderID senderName t t "active"]> (users p)) (with_pending (delete key (pending p)) p).

Definition bump (key : string) (p : PairingManager) : PairingManager :=
  with_fails (<[key := default 0 (failCount p !! key) + 1]> (failCount p)) (failWindow p) p.

Definition open_window (key : string) (t : Z) (p : PairingManager) : PairingManager :=
  match failWindow p !! key with
  | Some started => if pairingFailWindow <? time_sub t started then with_fails (<[key := 0]> (failCount p)) (<[key := t]> (failWindow p)) p else p
  | None => with_fails (<[key := 0]> (failCount p)) (<[key := t]> (failWindow p)) p
  end.

Definition code_serves (req : PairingRequest) (channelID : string) : bool :=
  let reqChannel := to_lower (PChannelID req) in
  bool_decide (reqChannel = "") || bool_decide (reqChannel = "all") || bool_decide (reqChannel = channelID).

Definition ValidateAndPair (channelID code senderID senderName : string) : pop pair_result :=
  let channelID := norm_channel channelID in
  let code := to_upper (trim_space code) in
  let failKey := pairingKey channelID senderID in
  t ← now;
  _ ← modify (open_window failKey t);
  p ← get;
  if pairingFailLimit <=? default 0 (failCount p !! failKey) then mret Locked
  else match activeCodes p !! code with
  | None => _ ← modify (bump failKey); mret Refused
  | Some req =>
    if negb (code_serves req channelID) then (_ ← modify (bump failKey); mret Refused)
    else
      t1 ← now;
      if time_after t1 (PExpiresAt req)
      then (_ ← modify (fun p => bump failKey (with_codes (delete code (activeCodes p)) p)); mret Refused)
      else
        _ ← modify (fun p => with_fails (delete failKey (failCount p)) (delete failKey (failWindow p))
                               (with_codes (delete code (activeCodes p)) p));
        _ ← ignore (exec (fun p => with_t_codes (delete code (t_codes p)) p));
        t2 ← now;
        _ ← modify (add_user channelID senderID senderName t2);
        stored ← attempt (exec (fun p => with_t_auth (upsert (channelID, senderID) senderName t2 (t_auth p)) p));
        mret (if is_ok stored then Paired else PairedUnstored)
  end.

Definition IsAuthorized (channelID senderID : string) (p : PairingManager) : bool :=
  match users p !! pairingKey channelID senderID with Some u => bool_decide (UStatus u = "active") | None => false end.

Definition touch (t : Z) (u : AuthorizedUser) : AuthorizedUser :=
  mkUser (UChannelID u) (USenderID u) (USenderName u) (PairedAt u) t (UStatus u).

Definition TouchUser (channelID senderID : string) : pop unit :=
  let key := pairingKey channelID senderID in
  p ← get;
  match users p !! key with
  | None => mret tt
  | Some u =>
    t ← now;
    _ ← modify (fun p => with_users (<[key := touch t u]> (users p)) p);
    ignore (exec (fun p => with_t_auth (alter (touch t) (channelID, senderID) (t_auth p)) p))
  end.

Definition ListAuthorized (channelID : string) (p : PairingManager) : list AuthorizedUser :=
  filter (fun u => UStatus u = "active" /\ (channelID = "" \/ UChannelID u = channelID)) (snd <$> map_to_list (users p)).

Definition revoke (u : AuthorizedUser) : AuthorizedUser :=
  mkUser (UChannelID u) (USenderID u) (USenderName u) (PairedAt u) (LastActiveAt u) "revoked".

Definition RevokeUser (channelID senderID : string) : pop unit :=
  let key := pairingKey channelID senderID in
  _ ← modify (fun p => with_users (delete key (users p)) (with_pending (delete key (pending p)) p));
  exec (fun p => with_t_auth (alter revoke (channelID, senderID) (t_auth p)) p).

Definition AuthorizeSender (channelID senderID senderName : string) : pop unit :=
  if bool_decide (trim_space channelID = "") || bool_decide (trim_space senderID = "") then throw IdsRequired
  else
    let channelID := norm_channel channelID in
    t ← now;
    let senderName := if bool_decide (senderName = "") then senderID else senderName in
    _ ← modify (add_user channelID senderID senderName t);
    exec (fun p => with_t_auth (upsert (channelID, senderID) senderName t (t_auth p)) p).

(** ** Listings, policies, waiting senders *)

Definition ListActiveCodes : pop (list PairingRequest) :=
  t ← now;
  _ ← modify (fun p => with_codes (unexpired t (activeCodes p)) p);
  gets (fun p => snd <$> map_to_list (activeCodes p)).

Definition ListPolicies (p : PairingManager) : gmap string bool := policies p.
Definition ChannelRequiresPairing (channelID : string) (p : PairingManager) : bool :=
  default false (policies p !! norm_channel channelID).

Definition SetChannelRequiresPairing (channelID : string) (required : bool) : pop unit :=
  let channelID := norm_channel channelID in
  if bool_decide (channelID = "") then throw ChannelRequired
  else
    _ ← modify (fun p => with_policies (<[channelID := required]> (policies p)) p);
    exec (fun p => with_t_policy (<[channelID := required]> (t_policy p)) p).

Definition NoteUnpaired (channelID senderID senderName content : string) : pop unit :=
  if bool_decide (senderID = "") then mret tt
  else
    t ← now;
    let key := pairingKey channelID senderID in
    let c := trim_space content in
    let c := if 240 <? len c then take_bytes 240 c else c in
    modify (fun p => with_pending (<[key :=
      match pending p !! key with
      | Some prev => mkPending (PeChannelID prev) (PeSenderID prev) senderName c (FirstSeen prev) t
      | None => mkPending (norm_channel channelID) senderID senderName c t t
      end]> (pending p)) p).

Definition ListPending (p : PairingManager) : list PendingSender := snd <$> map_to_list (pending p).

(** ** The guard of inbound messages ([router.go]) *)

Definition pairingRequired (accts : option (gmap string ChannelAccount)) (msg : InboundMessage) (p : PairingManager) : bool :=
  ChannelRequiresPairing (IChannelID msg) p ||
  match accts with
  | None => false
  | Some m =>
    (negb (bool_decide (IAccountID msg = "")) && match m !! IAccountID msg with Some a => RequiresPairing a | None => false end)
    || existsb (fun x => equal_fold (AccChannel x.2) (IChannelID msg) && RequiresPairing x.2) (map_to_list m)
  end.

Inductive guard_result := LetThrough | JustPaired | PairingFailed | UnpairedSender | GuardPanic.

Definition enforcePairing (accts : option (gmap string ChannelAccount)) (msg : InboundMessage) : pop guard_result :=
  p ← get;
  if negb (pairingRequired accts msg p) then mret LetThrough
  else if IsAuthorized (IChannelID msg) (ISenderID msg) p
  then (_ ← TouchUser (IChannelID msg) (ISenderID msg); mret LetThrough)
  else
    let unpaired : pop guard_result :=
      _ ← NoteUnpaired (IChannelID msg) (ISenderID msg) (ISenderName msg) (IContent msg); mret UnpairedSender in
    match ExtractPairingPIN (IContent msg) with
    | None => mret GuardPanic
    | Some pin =>
      if bool_decide (pin = "") then unpaired
      else
        r ← ValidateAndPair (IChannelID msg) pin (ISenderID msg) (ISenderName msg);
        match r with
        | Locked | PairedUnstored => mret PairingFailed
        | Paired => mret JustPaired
        | Refused => unpaired
        end
    end.

End pairing.
