(* ===== verification/PairingSpec.v ===== *)
(** * What channel pairing promises

    A sender becomes authorized only through the operator or a live code for
    its channel, used up by that; wrong guesses are bounded; a code that was
    generated is recognized in a message and pairs. *)

From S2P Require Import Prelude GoStrings GoText Envelope Io Pairing.
From Stdlib Require Import Ascii.
From stdpp Require Import fin.

#[local] Open Scope Z_scope.

Section spec.
Context `{U : Unicode} `{R : Randomness} `{F : Folding}.

(** ** One attempt *)

Definition live (c ch : string) (t : Z) (p : PairingManager) : Prop :=
  exists req, activeCodes p !! c = Some req /\ code_serves req ch = true /\ t <= PExpiresAt req.

(** What an attempt with code [c] by key [k] for channel [ch] does. *)
Definition attempted (k ch c : string) (res : pair_result) (p p' : PairingManager) (t : Z) : Prop :=
  let opened := open_window k t p in
  let n := default 0 (failCount opened !! k) in
  match res with
  | Locked => pairingFailLimit <= n /\ p' = opened
  | Refused => n < pairingFailLimit /\ users p' = users p /\ failCount p' = <[k := n + 1]> (failCount opened) /\
               failWindow p' = failWindow opened
  | Paired | PairedUnstored =>
    n < pairingFailLimit /\ live c ch t p /\ activeCodes p' = delete c (activeCodes p) /\
    failCount p' = delete k (failCount opened) /\ failWindow p' = delete k (failWindow opened) /\
    exists u, users p' = <[k := u]> (users p) /\ UStatus u = "active" /\ UChannelID u = ch
  end.

Lemma open_window_same k t p :
  users (open_window k t p) = users p /\ activeCodes (open_window k t p) = activeCodes p.
Proof. unfold open_window. destruct (failWindow p !! k); [destruct (_ <? _)|]; done. Qed.

Lemma exec_wp f p e (Q : result pairing_error unit -> PairingManager -> env -> Prop) :
  (forall p' e', p' = p \/ p' = f p -> onward e e' -> Q (Ok tt) p' e') -> (forall e', onward e e' -> Q (Err PairingDb) p e') ->
  wp (exec f) Q p e.
Proof.
  intros HO HE. unfold exec. apply wp_bind, wp_get. destruct (pm_db p).
  - apply wp_bind, wp_db_onward; [|auto]. intros e' He' _. apply wp_modify. apply HO; [by right|done].
  - apply wp_ret, HO; [by left|reflexivity].
Qed.

Lemma ValidateAndPair_wp ch code sender name p e :
  wp (ValidateAndPair ch code sender name) (fun r p' e' => onward e e' /\ exists res t, r = Ok res /\ clock e <= t <= clock e' /\
    attempted (pairingKey (norm_channel ch) sender) (norm_channel ch) (to_upper (trim_space code)) res p p' t /\
    (res = Refused -> ~ live (to_upper (trim_space code)) (norm_channel ch) (clock e') p)) p e.
Proof.
  unfold ValidateAndPair. cbv zeta. set (k := pairingKey _ _). set (c := to_upper _).
  apply wp_bind, wp_now_onward. intros e1 H1. apply wp_bind, wp_modify, wp_bind, wp_get.
  destruct (open_window_same k (clock e1) p) as [Hu Hc]. set (q := open_window k (clock e1) p) in *.
  assert (Hle : clock e <= clock e1) by apply H1.
  destruct (_ <=? _) eqn:Hlim.
  - apply wp_ret. split; [done|]. exists Locked, (clock e1). split; [done|]. split; [lia|]. split; [|done]. split; [|done]. by apply Z.leb_le.
  - apply Z.leb_gt in Hlim. rewrite Hc. destruct (activeCodes p !! c) as [req|] eqn:Hreq.
    2:{ apply wp_bind, wp_modify, wp_ret. split; [done|]. exists Refused, (clock e1). split; [done|]. split; [lia|].
        split; [split; [exact Hlim|by split_and!]|]. intros _ (r & Hr & _). congruence. }
    destruct (code_serves req _) eqn:Hserves; cbn [negb].
    2:{ apply wp_bind, wp_modify, wp_ret. split; [done|]. exists Refused, (clock e1). split; [done|]. split; [lia|].
        split; [split; [exact Hlim|by split_and!]|]. intros _ (r & Hr & Hs & _). congruence. }
    apply wp_bind, wp_now_onward. intros e2 H2. destruct (time_after _ _) eqn:Hexp.
    { apply wp_bind, wp_modify, wp_ret. assert (H12 : onward e e2) by by transitivity e1. split; [done|].
      exists Refused, (clock e1). split; [done|]. split; [destruct H2 as [[] _]; lia|].
      split; [split; [exact Hlim|by split_and!]|]. intros _ (r & Hr & _ & Hle'). unfold time_after in Hexp. apply Z.ltb_lt in Hexp.
      rewrite Hreq in Hr. injection Hr as <-. lia. }
    apply wp_bind, wp_modify, wp_bind, wp_ignore.
    set (q1 := with_fails _ _ _). assert (Hq1 : forall p', p' = q1 \/ p' = with_t_codes (delete c (t_codes q1)) q1 ->
      users p' = users p /\ activeCodes p' = delete c (activeCodes p) /\
      failCount p' = delete k (failCount q) /\ failWindow p' = delete k (failWindow q)).
    { intros p' [-> | ->]; subst q1; cbn; by rewrite Hu, Hc. }
    assert (Hrest : forall p' e', users p' = users p -> activeCodes p' = delete c (activeCodes p) ->
      failCount p' = delete k (failCount q) -> failWindow p' = delete k (failWindow q) -> onward e2 e' -> wp (
      t2 ← now; _ ← modify (add_user (norm_channel ch) sender name t2);
      stored ← attempt (exec (fun p => with_t_auth (upsert (norm_channel ch, sender) name t2 (t_auth p)) p));
      mret (if is_ok stored then Paired else PairedUnstored))
      (fun r p' e' => onward e e' /\ exists res t, r = Ok res /\ clock e <= t <= clock e' /\ attempted k (norm_channel ch) c res p p' t /\
        (res = Refused -> ~ live c (norm_channel ch) (clock e') p)) p' e').
    { intros p' e3 Hu' Hc' Hfc Hfw H3. apply wp_bind, wp_now_onward. intros e4 H4. apply wp_bind, wp_modify, wp_bind, wp_attempt.
      assert (Hfin : forall stored p5 e5, users p5 = users (add_user (norm_channel ch) sender name (clock e4) p') ->
        activeCodes p5 = activeCodes p' -> failCount p5 = failCount p' -> failWindow p5 = failWindow p' -> onward e4 e5 ->
        onward e e5 /\ exists res t, Ok (E:=pairing_error) (if is_ok (stored : result pairing_error unit) then Paired else PairedUnstored) = Ok res /\
          clock e <= t <= clock e5 /\ attempted k (norm_channel ch) c res p p5 t /\ (res = Refused -> ~ live c (norm_channel ch) (clock e5) p)).
      { intros stored p5 e5 Hu5 Hc5 Hfc5 Hfw5 H5. assert (H05 : onward e e5) by (etransitivity; [exact H1|]; etransitivity; [exact H2|]; etransitivity; [exact H3|]; by etransitivity).
        split; [done|]. eexists _, (clock e1). split; [done|].
        split; [destruct H2 as [[] _], H3 as [[] _], H4 as [[] _], H5 as [[] _]; lia|].
        assert (Ha : (default 0 (failCount q !! k) < pairingFailLimit /\ live c (norm_channel ch) (clock e1) p /\
          activeCodes p5 = delete c (activeCodes p) /\ failCount p5 = delete k (failCount q) /\ failWindow p5 = delete k (failWindow q) /\
          exists u, users p5 = <[k := u]> (users p) /\ UStatus u = "active" /\ UChannelID u = norm_channel ch)).
        { split; [exact Hlim|]. split.
          - exists req. split; [done|]. split; [done|]. unfold time_after in Hexp. apply Z.ltb_ge in Hexp. destruct H2 as [[] _]. lia.
          - split; [by rewrite Hc5|]. split; [by rewrite Hfc5|]. split; [by rewrite Hfw5|]. eexists. rewrite Hu5. cbn. rewrite Hu'. by split_and!. }
        by destruct (is_ok stored); split. }
      apply exec_wp; [intros p5 e5 [-> | ->] H5|intros e5 H5]; apply wp_ret; by apply (Hfin _ _ _). }
    apply exec_wp; [intros p' e3 Hp' H3|intros e3 H3].
    + destruct (Hq1 p' Hp') as (?&?&?&?). by apply Hrest.
    + destruct (Hq1 q1) as (?&?&?&?); [by left|]. by apply Hrest.
Qed.

(** ** Sequences of operations *)

Inductive pair_op :=
  | OGenerate (channel : string) | OPair (channel code sender name : string) | OTouch (channel sender : string)
  | ORevoke (channel sender : string) | OAuthorize (channel sender name : string) | OListCodes
  | OPolicy (channel : string) (required : bool) | ONote (channel sender name content : string)
  | OInbound (accts : option (gmap string ChannelAccount)) (msg : InboundMessage).

(** The message is an attempt to pair. *)
Definition makes_attempt (a : option (gmap string ChannelAccount)) (m : InboundMessage) (p : PairingManager) : bool :=
  pairingRequired a m p && negb (IsAuthorized (IChannelID m) (ISenderID m) p)
  && match ExtractPairingPIN (IContent m) with Some pin => negb (bool_decide (pin = "")) | None => false end.

(** How such an attempt went. *)
Definition seen_from_guard (g : guard_result) : option pair_result :=
  match g with JustPaired => Some Paired | UnpairedSender => Some Refused | PairingFailed => Some Locked | _ => None end.

Definition run_pair (o : pair_op) : pop (option pair_result) :=
  match o with
  | OGenerate ch => _ ← GeneratePairingCode ch; mret None
  | OPair ch c s n => r ← ValidateAndPair ch c s n; mret (Some r)
  | OTouch ch s => _ ← TouchUser ch s; mret None
  | ORevoke ch s => _ ← RevokeUser ch s; mret None
  | OAuthorize ch s n => _ ← AuthorizeSender ch s n; mret None
  | OListCodes => _ ← ListActiveCodes; mret None
  | OPolicy ch b => _ ← SetChannelRequiresPairing ch b; mret None
  | ONote ch s n c => _ ← NoteUnpaired ch s n c; mret None
  | OInbound a m => p ← get; g ← enforcePairing a m; mret (if makes_attempt a m p then seen_from_guard g else None)
  end.

Definition pair_step (x y : PairingManager * env) : Prop := exists o r, run_pair o x.1 x.2 = (r, y).

Definition active (k : string) (p : PairingManager) : Prop := exists u, users p !! k = Some u /\ UStatus u = "active".

Definition by_code (k channel code sender : string) (x y : PairingManager * env) : Prop :=
  k = pairingKey (norm_channel channel) sender /\
  exists t, clock x.2 <= t /\ live (to_upper (trim_space code)) (norm_channel channel) t x.1 /\
    activeCodes y.1 !! to_upper (trim_space code) = None.

(** The step that lets the sender of key [k] in. *)
Definition lets_in (k : string) (x y : PairingManager * env) : Prop :=
  exists o r, run_pair o x.1 x.2 = (r, y) /\
    match o with
    | OAuthorize ch s _ => k = pairingKey (norm_channel ch) s
    | OPair ch c s _ => by_code k ch c s x y
    | OInbound _ m => exists pin, ExtractPairingPIN (IContent m) = Some pin /\ pin <> "" /\ by_code k (IChannelID m) pin (ISenderID m) x y
    | _ => False
    end.

(** An active row of the table that a restart reads back under key [k]. *)
Definition stored (k : string) (p : PairingManager) : Prop :=
  exists c s u, t_auth p !! (c, s) = Some u /\ UStatus u = "active" /\ pairingKey c s = k.

(** Only keys of [X] are new, in memory and in the table. *)
Definition news (X : string -> Prop) (p p' : PairingManager) : Prop := forall k,
  (active k p' -> active k p \/ X k) /\ (stored k p' -> stored k p \/ X k).
(** Nobody new is let in. *)
Definition no_more : PairingManager -> PairingManager -> Prop := news (fun _ => False).
#[local] Instance no_more_preorder : PreOrder no_more.
Proof.
  split; [by intros p k; split; left|]. intros p1 p2 p3 H12 H23 k. destruct (H12 k) as [A1 S1], (H23 k) as [A2 S2].
  split; [intros Ha; destruct (A2 Ha) as [?|[]]; auto|intros Hs; destruct (S2 Hs) as [?|[]]; auto].
Qed.
Lemma no_more_same p p' : users p' = users p -> t_auth p' = t_auth p -> no_more p p'.
Proof. intros Hu Ht k. unfold active, stored. rewrite Hu, Ht. by split; left. Qed.
Lemma no_more_news X p p' : no_more p p' -> news X p p'.
Proof. intros H k. destruct (H k) as [Ha Hs]. split; [intros Hk; destruct (Ha Hk) as [?|[]]|intros Hk; destruct (Hs Hk) as [?|[]]]; auto. Qed.
Lemma news_then X p p1 p2 : news X p p1 -> no_more p1 p2 -> news X p p2.
Proof.
  intros H1 H2 k. destruct (H1 k) as [A1 S1], (H2 k) as [A2 S2].
  split; [intros Ha; destruct (A2 Ha) as [?|[]]; auto|intros Hs; destruct (S2 Hs) as [?|[]]; auto].
Qed.
Lemma news_if (X Y : string -> Prop) p p' : (forall k, X k -> Y k) -> news X p p' -> news Y p p'.
Proof. intros HXY H k. destruct (H k) as [Ha Hs]. split; [intros Hk; destruct (Ha Hk)|intros Hk; destruct (Hs Hk)]; auto. Qed.

(** Rows changed in place, by a change that makes none active, are no news. *)
Lemma alter_no_more (f : AuthorizedUser -> AuthorizedUser) key p :
  (forall u, UStatus (f u) = "active" -> UStatus u = "active") -> no_more p (with_t_auth (alter f key (t_auth p)) p).
Proof.
  intros Hf k. split; [by left|]. intros (c & s & u & Hu & Hs & Hk). left. cbn in Hu.
  apply lookup_alter_Some in Hu as [(-> & v & Hv & ->)|[_ Hu]]; [exists c, s, v; split_and!; auto|by exists c, s, u].
Qed.
(** A row written is news of its key only. *)
Lemma upsert_news c s n t p : news (eq (pairingKey c s)) p (with_t_auth (upsert (c, s) n t (t_auth p)) p).
Proof.
  intros k. split; [intros (u & Hu & Hs); left; by exists u|]. intros (c' & s' & u & Hu & Hs & Hk). cbn in Hu.
  assert (Hor : (c', s') = (c, s) \/ t_auth p !! (c', s') = Some u).
  { unfold upsert in Hu. destruct (t_auth p !! (c, s)); apply lookup_insert_Some in Hu as [[<- _]|[_ Hu]]; auto. }
  destruct Hor as [[= <- <-]|Hold]; [by right|]. left. by exists c', s', u.
Qed.

Lemma exec_no_more f : (forall p, no_more p (f p)) -> keeps no_more (exec f).
Proof. intros Hf. unfold exec. keeps_go. apply Hf. Qed.

Lemma generate_no_more n : keeps no_more (generate n).
Proof. induction n as [|n IH]; cbn [generate]; keeps_go. Qed.

Lemma touch_no_more k t u p : users p !! k = Some u -> no_more p (with_users (<[k := touch t u]> (users p)) p).
Proof.
  intros Hu k'. split; [|by left]. intros (u' & Hk' & Hs). left. cbn in Hk'. apply lookup_insert_Some in Hk' as [[<- <-]|[_ Hk']].
  - by exists u.
  - by exists u'.
Qed.

Lemma TouchUser_no_more ch s : keeps no_more (TouchUser ch s).
Proof.
  intros p e. unfold TouchUser. apply wp_bind, wp_get. destruct (users p !! _) as [u|] eqn:Hu; [|apply wp_ret; reflexivity].
  apply wp_bind, wp_now. intros e1 _ _. apply wp_bind, wp_modify, wp_ignore.
  eapply wp_keeps; [by apply exec_no_more; intros q; apply alter_no_more|]. intros _ p' e' Hp'. etransitivity; [|exact Hp'].
  by apply touch_no_more.
Qed.

Lemma NoteUnpaired_no_more ch s n c : keeps no_more (NoteUnpaired ch s n c).
Proof. unfold NoteUnpaired. keeps_go. by apply no_more_same. Qed.

Lemma delete_no_more k p p' : users p' = delete k (users p) -> t_auth p' = t_auth p -> no_more p p'.
Proof.
  intros H Ht k'. split; [|unfold stored; rewrite Ht; by left]. intros (u & Hu & Hs). left.
  rewrite H in Hu. apply lookup_delete_Some in Hu as [_ Hu]. by exists u.
Qed.

(** The rows after an attempt: a new one only of the key that paired. *)
Lemma ValidateAndPair_rows ch code sender name p e :
  wp (ValidateAndPair ch code sender name) (fun r p' _ => forall k, stored k p' -> stored k p \/
    k = pairingKey (norm_channel ch) sender /\ r = Ok Paired) p e.
Proof.
  assert (Hsame : forall (r : result pairing_error pair_result) p', t_auth p' = t_auth p -> forall k, stored k p' -> stored k p \/
    k = pairingKey (norm_channel ch) sender /\ r = Ok Paired).
  { intros r p' Hp' k Hk. left. unfold stored in *. by rewrite Hp' in Hk. }
  assert (Hopen : forall k t, t_auth (open_window k t p) = t_auth p).
  { intros k t. unfold open_window. destruct (failWindow p !! k); [destruct (_ <? _)|]; done. }
  unfold ValidateAndPair. cbv zeta. apply wp_bind, wp_now. intros e1 _ _. apply wp_bind, wp_modify, wp_bind, wp_get.
  destruct (_ <=? _); [by apply wp_ret, Hsame|].
  destruct (activeCodes _ !! _) as [req|]; [|by apply wp_bind, wp_modify, wp_ret, Hsame; cbn].
  destruct (code_serves req _); cbn [negb]; [|by apply wp_bind, wp_modify, wp_ret, Hsame; cbn].
  apply wp_bind, wp_now. intros e2 _ _. destruct (time_after _ _); [by apply wp_bind, wp_modify, wp_ret, Hsame; cbn|].
  apply wp_bind, wp_modify, wp_bind, wp_ignore. set (q := with_fails _ _ _).
  assert (Hq : t_auth q = t_auth p) by (subst q; cbn; done). clearbody q.
  assert (Hrest : forall p' e', t_auth p' = t_auth p -> wp (
      t2 ← now; _ ← modify (add_user (norm_channel ch) sender name t2);
      stored ← attempt (exec (fun p => with_t_auth (upsert (norm_channel ch, sender) name t2 (t_auth p)) p));
      mret (if is_ok stored then Paired else PairedUnstored))
      (fun r p' _ => forall k, stored k p' -> stored k p \/ k = pairingKey (norm_channel ch) sender /\ r = Ok Paired) p' e').
  { intros p' e3 Hp'. apply wp_bind, wp_now. intros e4 _ _. apply wp_bind, wp_modify, wp_bind, wp_attempt.
    apply exec_wp; [intros p5 e5 [-> | ->] _|intros e5 _]; apply wp_ret; [by apply Hsame| |by apply Hsame].
    intros k Hk. apply upsert_news in Hk as [Hk|<-]; [left|by right]. unfold stored in *. cbn in Hk. by rewrite Hp' in Hk. }
  apply exec_wp; [intros p' e3 [-> | ->] _|intros e3 _]; by apply Hrest.
Qed.

(** After an attempt, only the key that paired is new. *)
Lemma attempted_active k ch c res p p' t k' :
  attempted k ch c res p p' t -> active k' p' -> active k' p \/
    (k' = k /\ live c ch t p /\ activeCodes p' !! c = None).
Proof.
  destruct (open_window_same k t p) as [Hu _]. destruct res; cbn.
  - intros (_ & Hus & _) (u & Hk & Hs). left. exists u. by rewrite <- Hus.
  - intros (_ & ->) (u & Hk & Hs). left. exists u. by rewrite <- Hu.
  - intros (_ & Hl & Hc & _ & _ & u & Hus & _) (u' & Hk & Hs). rewrite Hus in Hk. apply lookup_insert_Some in Hk as [[<- _]|[_ Hk]].
    + right. split; [done|]. split; [done|]. by rewrite Hc, lookup_delete_eq.
    + left. by exists u'.
  - intros (_ & Hl & Hc & _ & _ & u & Hus & _) (u' & Hk & Hs). rewrite Hus in Hk. apply lookup_insert_Some in Hk as [[<- _]|[_ Hk]].
    + right. split; [done|]. split; [done|]. by rewrite Hc, lookup_delete_eq.
    + left. by exists u'.
Qed.

Lemma ValidateAndPair_news ch code sender name p e :
  wp (ValidateAndPair ch code sender name) (fun r p' e' => (exists res, r = Ok res) /\
    news (fun k => by_code k ch code sender (p, e) (p', e')) p p') p e.
Proof.
  eapply wp_mono; [apply wp_and; [apply ValidateAndPair_wp|apply ValidateAndPair_rows]|]. cbv beta.
  intros r p' e' [(_ & res & t & -> & Ht & Hat & _) Hrows]. split; [by exists res|]. intros k. split.
  - intros Hk. destruct (attempted_active _ _ _ _ _ _ _ k Hat Hk) as [?|(-> & Hl & Hd)]; [by left|].
    right. split; [done|]. exists t. cbn. split; [lia|done].
  - intros Hk. destruct (Hrows k Hk) as [?|[-> [= ->]]]; [by left|]. right. split; [done|]. exists t. cbn.
    destruct Hat as (_ & Hl & Hc & _). split; [lia|]. split; [done|]. by rewrite Hc, lookup_delete_eq.
Qed.

Lemma enforcePairing_wp a m p e :
  wp (enforcePairing a m) (fun _ p' e' => news (fun k => exists pin, ExtractPairingPIN (IContent m) = Some pin /\ pin <> "" /\
    by_code k (IChannelID m) pin (ISenderID m) (p, e) (p', e')) p p') p e.
Proof.
  unfold enforcePairing. apply wp_bind, wp_get. destruct (negb _); [by apply wp_ret, no_more_news|].
  destruct (IsAuthorized _ _ p).
  - apply wp_bind. eapply wp_keeps; [apply TouchUser_no_more|]. by intros [u|x] p' e' Hp'; apply no_more_news.
  - destruct (ExtractPairingPIN _) as [pin|] eqn:Hpin; [|by apply wp_ret, no_more_news].
    case_bool_decide as Hne.
    { apply wp_bind. eapply wp_keeps; [apply NoteUnpaired_no_more|]. by intros [u|x] p' e' Hp'; apply no_more_news. }
    apply wp_bind. eapply wp_mono; [apply ValidateAndPair_news|]. cbv beta. intros r p1 e1 [[res ->] Hn].
    assert (Hnow : forall p' e', activeCodes p' = activeCodes p1 -> no_more p1 p' ->
      news (fun k => exists pin0, Some pin = Some pin0 /\ pin0 <> "" /\ by_code k (IChannelID m) pin0 (ISenderID m) (p, e) (p', e')) p p').
    { intros p' e' Hc Hno. eapply news_then; [|exact Hno]. eapply news_if; [|exact Hn]. cbv beta.
      intros k (Hk & t & Ht & Hl & Hd). exists pin. split; [done|]. split; [done|]. split; [done|]. exists t. cbn in *. by rewrite Hc. }
    destruct res; [|by apply wp_ret, Hnow|by apply wp_ret, Hnow|by apply wp_ret, Hnow].
    unfold NoteUnpaired. case_bool_decide; [by apply wp_bind, wp_ret, wp_ret, Hnow|].
    apply wp_bind, wp_bind, wp_now. intros e2 _ _. apply wp_modify, wp_ret, Hnow; [done|]. by apply no_more_same.
Qed.

Lemma wp_answer {A B} (m : pop A) (f : A -> B) (Q : PairingManager -> env -> Prop) p e :
  wp m (fun _ => Q) p e -> wp ((a ← m; mret (f a)) : pop B) (fun _ => Q) p e.
Proof. intros H. apply wp_bind. eapply wp_mono; [exact H|]. by intros [a|x] p' e' HQ. Qed.

Lemma AuthorizeSender_wp ch s n p e :
  wp (AuthorizeSender ch s n) (fun _ p' _ => news (eq (pairingKey (norm_channel ch) s)) p p') p e.
Proof.
  unfold AuthorizeSender. destruct (_ || _); [by apply wp_throw, no_more_news|].
  apply wp_bind, wp_now. intros e1 _ _. cbv zeta. set (name := if bool_decide (n = "") then s else n). apply wp_bind, wp_modify.
  set (q := add_user _ _ _ _ p).
  assert (Hq : news (eq (pairingKey (norm_channel ch) s)) p q).
  { intros k. split; [|by left]. intros (u & Hu & Hs). cbn in Hu. apply lookup_insert_Some in Hu as [[<- _]|[_ Hu]]; [by right|].
    left. by exists u. }
  apply exec_wp; [intros p' e' [-> | ->] _|intros e' _]; [done| |done].
  intros k. destruct (Hq k) as [Ha Hs], (upsert_news (norm_channel ch) s name (clock e1) q k) as [Ha' Hs'].
  split; [intros Hk; destruct (Ha' Hk)|intros Hk; destruct (Hs' Hk)]; auto.
Qed.

Lemma step_news x y : pair_step x y -> news (fun k => lets_in k x y) x.1 y.1.
Proof.
  intros (o & r & Hrun). destruct x as [p e], y as [p' e']. cbn [fst snd] in *.
  assert (Hgo : news (fun k => match o with
      | OAuthorize ch s _ => k = pairingKey (norm_channel ch) s
      | OPair ch c s _ => by_code k ch c s (p, e) (p', e')
      | OInbound _ m => exists pin, ExtractPairingPIN (IContent m) = Some pin /\ pin <> "" /\ by_code k (IChannelID m) pin (ISenderID m) (p, e) (p', e')
      | _ => False end) p p').
  2:{ eapply news_if; [|exact Hgo]. intros k Hk. by exists o, r. }
  assert (Hno : forall A (m : pop A) (f : A -> option pair_result), keeps no_more m ->
    wp (a ← m; mret (f a)) (fun _ p' _ => news (fun _ => False) p p') p e).
  { intros A m f Hm. apply wp_answer. apply Hm. }
  destruct o; cbn [run_pair] in Hrun; revert Hrun; of_run.
  - apply Hno. unfold GeneratePairingCode, generatePairingCode. pose proof (generate_no_more pairingCodeLength).
    keeps_go; try by apply no_more_same. by apply exec_no_more; intros q; apply no_more_same.
  - apply wp_answer. eapply wp_mono; [apply ValidateAndPair_news|]. by intros _ p1 e1 [_ H].
  - apply Hno, TouchUser_no_more.
  - apply Hno. unfold RevokeUser. keeps_go; [by eapply delete_no_more|]. apply exec_no_more. intros q. by apply alter_no_more.
  - apply wp_answer. eapply wp_mono; [apply AuthorizeSender_wp|]. cbv beta. intros _ p1 e1 H. eapply news_if; [|exact H]. by intros k <-.
  - apply Hno. unfold ListActiveCodes. keeps_go. by apply no_more_same.
  - apply Hno. unfold SetChannelRequiresPairing. keeps_go; [by apply no_more_same|]. apply exec_no_more. intros q. by apply no_more_same.
  - apply Hno, NoteUnpaired_no_more.
  - apply wp_bind, wp_get, wp_answer, enforcePairing_wp.
Qed.

(** ** Restarts *)

(** A new process starts on the tables the last one left. *)
Definition restarts (x y : PairingManager * env) : Prop := exists r, NewPairingManager x.1 x.2 = (r, y).
Definition life_step (x y : PairingManager * env) : Prop := pair_step x y \/ restarts x y.

Lemma load_users_active k p : (exists u, load_users p !! k = Some u /\ UStatus u = "active") -> stored k p.
Proof.
  intros (u & Hu & Hs). unfold load_users in Hu. apply elem_of_list_to_map_2 in Hu.
  apply list_elem_of_fmap in Hu as ([[c s] v] & [= -> ->] & Hin). cbn [fst snd] in *.
  apply list_elem_of_filter in Hin as [_ Hin]. apply elem_of_map_to_list in Hin. by exists c, s, v.
Qed.

(** What a process holds at its start comes from rows; the rows stay. *)
Lemma NewPairingManager_wp p e :
  wp NewPairingManager (fun _ p' _ => t_auth p' = t_auth p /\ forall k, active k p' -> stored k p) p e.
Proof.
  assert (Hst : forall p' k, users p' = ∅ \/ users p' = load_users p -> active k p' -> stored k p).
  { intros p' k [H|H] (u & Hu & Hs); rewrite H in Hu; [by rewrite lookup_empty in Hu|]. apply load_users_active. by exists u. }
  assert (Hend : forall p', t_auth p' = t_auth p -> (users p' = ∅ \/ users p' = load_users p) ->
    t_auth p' = t_auth p /\ forall k, active k p' -> stored k p).
  { intros p' Ht Hu. split; [done|]. intros k. by apply Hst. }
  unfold NewPairingManager, exec.
  apply wp_bind, wp_modify, wp_bind, wp_get. cbn [pm_db with_codes with_users with_policies with_pending with_fails].
  destruct (pm_db p) eqn:Hdb; cbn [negb]; [|apply wp_ret; by apply Hend; [|left]].
  apply wp_bind, wp_db. intros e1 _ _ _. split; [|by apply Hend; [|left]].
  apply wp_bind, wp_db. intros e2 _ _ _. split; [|by apply Hend; [|left]].
  apply wp_bind, wp_modify, wp_bind, wp_db. intros e3 _ _ _. split; [|by apply Hend; [|right]].
  apply wp_bind, wp_modify, wp_bind, wp_now. intros e4 _ _. apply wp_bind, wp_ignore, wp_bind, wp_get.
  cbn [pm_db with_codes with_users with_policies with_pending with_fails]. rewrite Hdb.
  apply wp_bind, wp_db. intros e5 _ _ _. split; [apply wp_modify|];
    (apply wp_bind, wp_db; intros e6 _ _ _; split; [apply wp_modify|]; by apply Hend; [|right]).
Qed.

Lemma active_dec k p : active k p \/ ~ active k p.
Proof.
  unfold active. destruct (users p !! k) as [u|]; [|right; by intros (u & ? & _)].
  destruct (decide (UStatus u = "active")); [left; by exists u|right; intros (u' & [= <-] & ?); done].
Qed.

Lemma stored_dec k p : stored k p \/ ~ stored k p.
Proof.
  destruct (decide (map_Exists (fun (key : string * string) u => UStatus u = "active" /\ pairingKey key.1 key.2 = k) (t_auth p))) as [H|H].
  - left. destruct H as ([c s] & u & Hu & Hs & Hk). by exists c, s, u.
  - right. intros (c & s & u & Hu & Hs & Hk). apply H. by exists (c, s), u.
Qed.

(** Along a run, a sender who was out is out, with no row it had not, until a
    step lets them in or a restart reads their old row. *)
Lemma run_let_in k x y :
  rtc life_step x y -> ~ active k x.1 ->
  (exists x1 x2, rtc life_step x x1 /\ rtc life_step x2 y /\
    (lets_in k x1 x2 \/ restarts x1 x2 /\ stored k x1.1 /\ stored k x.1)) \/
  (~ active k y.1 /\ (stored k y.1 -> stored k x.1)).
Proof.
  intros Hrun Hx. revert y Hrun. apply rtc_ind_r; [by right|]. intros y z Hrun Hst IH.
  destruct IH as [(x1 & x2 & H1 & H2 & Hl)|[Hna Hs]].
  { left. exists x1, x2. split; [done|]. split; [by eapply rtc_r|done]. }
  assert (Hhere : lets_in k y z \/ restarts y z /\ stored k y.1 /\ stored k x.1 ->
    exists x1 x2, rtc life_step x x1 /\ rtc life_step x2 z /\
      (lets_in k x1 x2 \/ restarts x1 x2 /\ stored k x1.1 /\ stored k x.1)).
  { intros H. exists y, z. by split; [|split; [apply rtc_refl|]]. }
  destruct Hst as [Hst|[r Hst]].
  - destruct (step_news _ _ Hst k) as [Ha Hsto].
    destruct (active_dec k z.1) as [Hz|Hz]; [destruct (Ha Hz); [done|]; left; by apply Hhere; left|].
    destruct (stored_dec k z.1) as [Hsz|Hsz]; [|by right].
    destruct (Hsto Hsz) as [Hsy|Hl]; [right; by split; auto|]. left. by apply Hhere; left.
  - destruct z as [p' e']. pose proof (run_wp _ _ _ _ _ _ _ (NewPairingManager_wp y.1 y.2) Hst) as [Ht Hk]. cbn [fst] in *.
    assert (Hsy : stored k p' -> stored k y.1) by (unfold stored; by rewrite Ht).
    destruct (active_dec k p') as [Hz|Hz]; [|right; by split; auto].
    left. apply Hhere. right. split; [by exists r|]. auto.
Qed.

(** C9. Nobody talks to the agents uninvited: when a sender who was not
    authorized is, after any sequence of operations, restarts and failures,
    then some step of it let exactly this sender in: the operator named them,
    or they gave, in an attempt or in a message, a code that was live, served
    their channel, and was used up by it.  The one exception is a restart that
    reads an active row of this sender back which the table held from the
    start, as after a revocation under another spelling
    ([revoked_until_restart]). *)
Theorem authorized_by_invitation k x y :
  rtc life_step x y -> active k y.1 -> ~ active k x.1 ->
  exists x1 x2, rtc life_step x x1 /\ rtc life_step x2 y /\
    (lets_in k x1 x2 \/ restarts x1 x2 /\ stored k x1.1 /\ stored k x.1).
Proof. intros Hrun Hy Hx. by destruct (run_let_in k x y Hrun Hx) as [?|[Hn _]]. Qed.

(** ** Wrong guesses *)

Definition op_key (o : pair_op) : option string :=
  match o with
  | OPair ch _ s _ => Some (pairingKey (norm_channel ch) s)
  | OInbound _ m => Some (pairingKey (norm_channel (IChannelID m)) (ISenderID m))
  | _ => None
  end.

(** The step is a guess by key [k] that was looked at and refused. *)
Definition wrong_guess (k : string) (o : pair_op) (r : result pairing_error (option pair_result)) : bool :=
  bool_decide (op_key o = Some k) && match r with Ok (Some Refused) => true | _ => false end.

(** [n] wrong guesses by [k] along a run in which [k] is never let in. *)
Inductive guesses (k : string) : nat -> PairingManager * env -> PairingManager * env -> Prop :=
  | g_nil x : guesses k 0 x x
  | g_step o r x y z n : run_pair o x.1 x.2 = (r, y) -> ~ active k y.1 -> guesses k n y z ->
      guesses k ((if wrong_guess k o r then 1 else 0) + n) x z.

Definition spent (k : string) (p : PairingManager) : Z := default 0 (failCount p !! k).
Definition same_fails (p p' : PairingManager) : Prop := failCount p' = failCount p /\ failWindow p' = failWindow p.
#[local] Instance same_fails_preorder : PreOrder same_fails.
Proof. split; [done|]. intros p1 p2 p3 [] []. split; congruence. Qed.

Lemma exec_same_fails f : (forall p, same_fails p (f p)) -> keeps same_fails (exec f).
Proof. intros Hf. unfold exec. keeps_go. apply Hf. Qed.

(** What one step does to the record of key [k], when it is not let in. *)
Definition tally (k : string) (wrong : bool) (p : PairingManager) (t0 : Z) (p' : PairingManager) (t1 : Z) : Prop :=
  if wrong then exists t, t0 <= t <= t1 /\ let q := open_window k t p in
    spent k q < pairingFailLimit /\ spent k p' = spent k q + 1 /\ failWindow p' !! k = failWindow q !! k
  else (spent k p' = spent k p /\ failWindow p' !! k = failWindow p !! k) \/
       exists t, t0 <= t <= t1 /\ let q := open_window k t p in spent k p' = spent k q /\ failWindow p' !! k = failWindow q !! k.

Lemma same_fails_tally k p p' t0 t1 : same_fails p p' -> tally k false p t0 p' t1.
Proof. intros [H1 H2]. left. unfold spent. by rewrite H1, H2. Qed.

Lemma open_window_other k k' t p : k <> k' -> spent k (open_window k' t p) = spent k p /\ failWindow (open_window k' t p) !! k = failWindow p !! k.
Proof.
  intros Hk. unfold open_window, spent.
  destruct (failWindow p !! k'); [destruct (_ <? _)|]; cbn; rewrite ?lookup_insert_ne; done.
Qed.

Lemma attempted_tally k k' ch c res p p' t t0 t1 :
  attempted k' ch c res p p' t -> t0 <= t <= t1 -> ~ active k p' ->
  tally k (bool_decide (k' = k) && bool_decide (res = Refused)) p t0 p' t1.
Proof.
  intros Hat Ht Hn. case_bool_decide as Hk; cbn [andb].
  - subst k'. destruct res; cbn in Hat.
    + rewrite bool_decide_true by done. destruct Hat as (Hlt & _ & Hc & Hw). exists t. split; [done|]. cbv zeta.
      split; [exact Hlt|]. unfold spent. by rewrite Hc, lookup_insert_eq, Hw.
    + destruct Hat as [_ ->]. right. by exists t.
    + destruct Hat as (_ & _ & _ & _ & _ & u & Hu & Hs & _). destruct Hn. exists u. by rewrite Hu, lookup_insert_eq.
    + destruct Hat as (_ & _ & _ & _ & _ & u & Hu & Hs & _). destruct Hn. exists u. by rewrite Hu, lookup_insert_eq.
  - destruct (open_window_other k k' t p) as [H1 H2]; [done|]. unfold spent in H1. left. unfold spent.
    destruct res; cbn in Hat.
    + destruct Hat as (_ & _ & -> & ->). by rewrite lookup_insert_ne, H1, H2.
    + destruct Hat as [_ ->]. done.
    + destruct Hat as (_ & _ & _ & -> & -> & _). by rewrite !lookup_delete_ne, H1, H2.
    + destruct Hat as (_ & _ & _ & -> & -> & _). by rewrite !lookup_delete_ne, H1, H2.
Qed.
Lemma tally_later k b p p1 p2 t0 t1 t2 : tally k b p t0 p1 t1 -> same_fails p1 p2 -> t1 <= t2 -> tally k b p t0 p2 t2.
Proof.
  unfold tally, spent. intros H [-> ->] Ht. destruct b.
  - destruct H as (t & Htt & H). exists t. split; [lia|exact H].
  - destruct H as [H|(t & Htt & H)]; [by left|]. right. exists t. split; [lia|exact H].
Qed.

Lemma generate_fails n : keeps same_fails (generate n).
Proof. induction n as [|n IH]; cbn [generate]; keeps_go. Qed.
Lemma generate_quiet n : quiet (generate n).
Proof. induction n as [|n IH]; cbn [generate]; quiet_go. Qed.
#[local] Hint Resolve generate_fails : keeps.
#[local] Hint Resolve generate_quiet : quiet.
#[local] Hint Extern 5 (keeps same_fails (exec _)) => (apply exec_same_fails; intros ?; by split) : keeps.

Lemma TouchUser_fails ch s : keeps same_fails (TouchUser ch s).
Proof. unfold TouchUser. keeps_go; by split. Qed.
Lemma NoteUnpaired_fails ch s n c : keeps same_fails (NoteUnpaired ch s n c).
Proof. unfold NoteUnpaired. keeps_go; by split. Qed.

(** The operations that make no attempt. *)
Lemma run_pair_fails o : op_key o = None -> keeps same_fails (run_pair o).
Proof.
  destruct o; try done; intros _; cbn [run_pair];
    unfold GeneratePairingCode, generatePairingCode, TouchUser, RevokeUser, AuthorizeSender, ListActiveCodes,
      SetChannelRequiresPairing, NoteUnpaired, ExtractPairingPIN; keeps_go; by split.
Qed.
Lemma run_pair_quiet o : quiet (run_pair o).
Proof.
  destruct o; cbn [run_pair]; unfold enforcePairing, GeneratePairingCode, generatePairingCode, ValidateAndPair, TouchUser, RevokeUser,
    AuthorizeSender, ListActiveCodes, SetChannelRequiresPairing, NoteUnpaired, exec; quiet_go.
Qed.

Lemma NoteUnpaired_wp ch s n c p e :
  wp (NoteUnpaired ch s n c) (fun r p' e' => r = Ok tt /\ users p' = users p /\ same_fails p p' /\ onward e e') p e.
Proof.
  unfold NoteUnpaired. case_bool_decide; [by apply wp_ret|].
  apply wp_bind, wp_now_onward. intros e1 H1. by apply wp_modify.
Qed.

Lemma some_key (k k' : string) : bool_decide (Some k' = Some k) = bool_decide (k' = k).
Proof. apply bool_decide_ext. split; [by intros [= ->]|by intros ->]. Qed.

Lemma inbound_tally a m k p e :
  wp (run_pair (OInbound a m)) (fun r p' e' => ~ active k p' ->
    tally k (wrong_guess k (OInbound a m) r) p (clock e) p' (clock e')) p e.
Proof.
  cbn [run_pair]. apply wp_bind, wp_get. unfold wrong_guess, makes_attempt, enforcePairing. cbn [op_key].
  set (k' := pairingKey _ _).
  assert (Hsf : forall (r : result pairing_error (option pair_result)) p' (e' : env), r <> Ok (Some Refused) -> same_fails p p' -> ~ active k p' ->
    tally k (bool_decide (Some k' = Some k) && match r with Ok (Some Refused) => true | _ => false end) p (clock e) p' (clock e')).
  { intros r p' e' Hr Hs _. assert (match r with Ok (Some Refused) => true | _ => false end = false) as ->.
    { destruct r as [[[]|]|]; done. }
    rewrite andb_false_r. by apply same_fails_tally. }
  apply wp_bind, wp_bind, wp_get. destruct (pairingRequired a m p); cbn [negb andb]; [|exact (Hsf (Ok None) p e ltac:(discriminate) ltac:(done))].
  destruct (IsAuthorized _ _ p); cbn [negb andb].
  - apply wp_bind. eapply wp_keeps; [apply TouchUser_fails|]. intros [u|x] p' e' Hp';
      [exact (Hsf (Ok None) p' e' ltac:(discriminate) Hp')|exact (Hsf (Err x) p' e' ltac:(discriminate) Hp')].
  - destruct (ExtractPairingPIN _) as [pin|]; [|exact (Hsf (Ok None) p e ltac:(discriminate) ltac:(done))].
    destruct (bool_decide (pin = "")); cbn [negb].
    + apply wp_bind. eapply wp_keeps; [apply NoteUnpaired_fails|]. intros [u|x] p' e' Hp';
        [exact (Hsf (Ok None) p' e' ltac:(discriminate) Hp')|exact (Hsf (Err x) p' e' ltac:(discriminate) Hp')].
    + apply wp_bind. eapply wp_mono; [apply ValidateAndPair_wp|]. cbv beta. fold k'.
      intros _ p1 e1 (_ & res & t & -> & Ht & Hat & _). clearbody k'.
      assert (Htal : ~ active k p1 -> tally k (bool_decide (Some k' = Some k) && bool_decide (res = Refused)) p (clock e) p1 (clock e1)).
      { intros Hn. rewrite some_key. by eapply attempted_tally. }
      assert (Hother : res <> Refused -> ~ active k p1 -> tally k (bool_decide (Some k' = Some k) && false) p (clock e) p1 (clock e1)).
      { intros Hr Hn. rewrite (bool_decide_false (res = Refused)) in Htal by done. by apply Htal. }
      destruct res; [|exact (Hother ltac:(discriminate))..]. rewrite (bool_decide_true (Refused = Refused) eq_refl), andb_true_r in Htal.
      apply wp_bind. eapply wp_mono; [apply NoteUnpaired_wp|]. cbv beta. intros r p2 e2 (-> & Hu & Hs & H2).
      apply wp_ret, wp_ret. intros Hn. cbn [seen_from_guard]. rewrite andb_true_r. destruct H2 as [[H2 _] _].
      assert (Hn1 : ~ active k p1). { intros (v & Hv & Hvs). apply Hn. exists v. rewrite Hu. split; assumption. }
      exact (tally_later k _ p p1 p2 _ _ _ (Htal Hn1) Hs H2).
Qed.

Lemma step_tally k o p e r p' e' :
  run_pair o p e = (r, (p', e')) -> ~ active k p' -> onward e e' /\ tally k (wrong_guess k o r) p (clock e) p' (clock e').
Proof.
  intros Hrun Hn. split; [exact (run_wp _ _ _ _ _ _ _ (run_pair_quiet o p e) Hrun)|].
  destruct (op_key o) as [k'|] eqn:Hk.
  - destruct o; cbn [op_key] in Hk; try discriminate Hk; revert Hrun Hn; [|of_run; apply inbound_tally]. of_run. cbn [run_pair].
    apply wp_bind. eapply wp_mono; [apply ValidateAndPair_wp|]. cbv beta. intros _ p1 e1 (_ & res & t & -> & Ht & Hat & _).
    apply wp_ret. intros Hn. unfold wrong_guess. cbn [op_key].
    pose proof (attempted_tally k _ _ _ _ _ _ _ (clock e) (clock e1) Hat Ht Hn) as H.
    rewrite some_key. destruct res; try exact H; by rewrite andb_false_r in *.
  - unfold wrong_guess. rewrite Hk, bool_decide_false by done. cbn [andb].
    apply same_fails_tally. by apply (keeps_run _ _ _ _ _ _ _ (run_pair_fails o Hk) Hrun).
Qed.

Lemma guesses_clock k n x y : guesses k n x y -> clock x.2 <= clock y.2.
Proof.
  induction 1 as [x|o r [p e] [p1 e1] z n Hrun Hn Hg IH]; [lia|]. cbn [fst snd] in *.
  destruct (step_tally k _ _ _ _ _ _ Hrun Hn) as [[[Hc _] _] _]. lia.
Qed.

(** A window is over when fifteen minutes have passed since it began. *)
Lemma open_window_spec k t p :
  let q := open_window k t p in
  (q = p /\ exists w, failWindow p !! k = Some w /\ t <= w + pairingFailWindow) \/
  (spent k q = 0 /\ failWindow q !! k = Some t /\ forall w, failWindow p !! k = Some w -> w + pairingFailWindow < t).
Proof.
  cbv zeta. unfold open_window, spent. destruct (failWindow p !! k) as [w|]; [|right; cbn; by rewrite !lookup_insert_eq].
  assert (Hw : (pairingFailWindow <? time_sub t w) = (pairingFailWindow <? t - w)).
  { unfold time_sub. change pairingFailWindow with 900000000000. unfold min_int64, max_int64.
    apply eq_true_iff_eq. rewrite !Z.ltb_lt. lia. }
  rewrite Hw. destruct (pairingFailWindow <? t - w) eqn:Hlt.
  - apply Z.ltb_lt in Hlt. right. cbn. rewrite !lookup_insert_eq. split_and!; try done. intros w' [= <-]. lia.
  - apply Z.ltb_ge in Hlt. left. split; [done|]. exists w. split; [done|lia].
Qed.

(** From when on a new window can begin, and what the present one leaves. *)
Definition next_window (k : string) (x : PairingManager * env) : Z :=
  match failWindow x.1 !! k with None => clock x.2 | Some w => Z.max (clock x.2) (w + pairingFailWindow + 1) end.
Definition left_now (k : string) (p : PairingManager) : Z :=
  match failWindow p !! k with None => 0 | Some _ => Z.max 0 (pairingFailLimit - spent k p) end.
(** How many windows can begin between [o] and [t]. *)
Definition windows (o t : Z) : Z := if t <? o then 0 else 1 + (t - o) / (pairingFailWindow + 1).

Lemma windows_mono o o' t : o <= o' -> windows o' t <= windows o t.
Proof.
  intros Ho. unfold windows. change (pairingFailWindow + 1) with 900000000001.
  destruct (t <? o') eqn:H1, (t <? o) eqn:H2; rewrite ?Z.ltb_lt, ?Z.ltb_ge in *; try lia.
  - pose proof (Z.div_pos (t - o) 900000000001). lia.
  - pose proof (Z.div_le_mono (t - o') (t - o) 900000000001). lia.
Qed.
Lemma windows_next o o' t : o <= t -> o + pairingFailWindow + 1 <= o' -> windows o' t + 1 <= windows o t.
Proof.
  intros Ht Ho. unfold windows. change (pairingFailWindow + 1) with 900000000001. change pairingFailWindow with 900000000000 in Ho.
  destruct (t <? o') eqn:H1, (t <? o) eqn:H2; rewrite ?Z.ltb_lt, ?Z.ltb_ge in *; try lia.
  - pose proof (Z.div_pos (t - o) 900000000001). lia.
  - pose proof (Z.div_le_mono (t - o' + 1 * 900000000001) (t - o) 900000000001) as H. rewrite Z.div_add in H by lia. lia.
Qed.

(** Wrong guesses are paid for by what the windows allow. *)
Lemma guesses_paid k n x y :
  guesses k n x y -> Z.of_nat n <= left_now k x.1 + pairingFailLimit * windows (next_window k x) (clock y.2).
Proof.
  induction 1 as [x|o r [p e] [p1 e1] z n Hrun Hn Hg IH]; cbn [fst snd] in *.
  { unfold left_now, windows, next_window. change (pairingFailWindow + 1) with 900000000001. change pairingFailLimit with 5.
    pose proof (Z.div_pos (clock x.2 - match failWindow x.1 !! k with Some w => Z.max (clock x.2) (w + pairingFailWindow + 1) | None => clock x.2 end) 900000000001).
    destruct (_ <? _) eqn:Hlt; rewrite ?Z.ltb_ge in *; destruct (failWindow x.1 !! k); lia. }
  destruct (step_tally k _ _ _ _ _ _ Hrun Hn) as [[[He1 _] _] Htal]. assert (Hz : clock e1 <= clock z.2) by exact (guesses_clock _ _ _ _ Hg).
  assert (Hsame : spent k p1 = spent k p -> failWindow p1 !! k = failWindow p !! k ->
    Z.of_nat n <= left_now k p + pairingFailLimit * windows (next_window k (p, e)) (clock z.2)).
  { intros H1 H2. unfold left_now, next_window in *. cbn [fst snd] in *. rewrite H1, H2 in IH.
    change pairingFailLimit with 5 in *. destruct (failWindow p !! k) as [w|].
    - pose proof (windows_mono (Z.max (clock e) (w + pairingFailWindow + 1)) (Z.max (clock e1) (w + pairingFailWindow + 1)) (clock z.2)). lia.
    - pose proof (windows_mono (clock e) (clock e1) (clock z.2)). lia. }
  (* a step that opened a window at [t], or looked at the one that was open *)
  assert (Hopen : forall (b : bool) t, clock e <= t <= clock e1 -> let q := open_window k t p in
    spent k p1 = spent k q + (if b then 1 else 0) -> failWindow p1 !! k = failWindow q !! k -> (b = true -> spent k q < pairingFailLimit) ->
    Z.of_nat n + (if b then 1 else 0) <= left_now k p + pairingFailLimit * windows (next_window k (p, e)) (clock z.2)).
  { intros b t Ht. generalize (open_window_spec k t p). cbv zeta. generalize (open_window k t p). intros q Hsp H1 H2 Hlim.
    destruct Hsp as [[Hq (w & Hw & Hwt)]|(Hq1 & Hq2 & Hold)].
    - rewrite Hq, Hw in H2. rewrite Hq in H1, Hlim. unfold left_now, next_window in *. cbn [fst snd] in *. rewrite H2, H1 in IH. rewrite Hw.
      pose proof (windows_mono (Z.max (clock e) (w + pairingFailWindow + 1)) (Z.max (clock e1) (w + pairingFailWindow + 1)) (clock z.2)).
      change pairingFailLimit with 5 in *. destruct b; [specialize (Hlim eq_refl)|]; lia.
    - rewrite Hq2 in H2. rewrite Hq1 in H1. unfold left_now, next_window in IH. cbn [fst snd] in IH. rewrite H2, H1 in IH.
      assert (Hnx : next_window k (p, e) <= t).
      { unfold next_window. cbn [fst snd]. destruct (failWindow p !! k) as [w|]; [specialize (Hold w eq_refl)|]; lia. }
      pose proof (windows_next (next_window k (p, e)) (Z.max (clock e1) (t + pairingFailWindow + 1)) (clock z.2)).
      assert (0 <= left_now k p) by (unfold left_now; destruct (failWindow p !! k); lia).
      change pairingFailLimit with 5 in *. destruct b; lia. }
  destruct (wrong_guess k o r); cbn in Htal.
  - destruct Htal as (t & Ht & Hlt & Hs1 & Hw1). specialize (Hopen true t Ht Hs1 Hw1 (fun _ => Hlt)). cbn in Hopen. lia.
  - destruct Htal as [[H1 H2]|(t & Ht & H1 & H2)]; [specialize (Hsame H1 H2); cbn; lia|].
    specialize (Hopen false t Ht). cbv zeta in Hopen. rewrite Z.add_0_r in Hopen. specialize (Hopen H1 H2 ltac:(discriminate)). cbn in *. lia.
Qed.

(** Counts of failures are never negative in a process. *)
Definition no_debt (p : PairingManager) : Prop := forall k, 0 <= spent k p.
Definition no_new_debt (p p' : PairingManager) : Prop := no_debt p -> no_debt p'.
#[local] Instance no_new_debt_preorder : PreOrder no_new_debt.
Proof. unfold no_new_debt. split; [by intros p|]. intros p1 p2 p3. auto. Qed.
Lemma same_fails_debt p p' : failCount p' = failCount p -> no_new_debt p p'.
Proof. intros H Hp k. unfold spent. rewrite H. apply Hp. Qed.
Lemma no_debt_insert k v p p' : 0 <= v -> failCount p' = <[k := v]> (failCount p) -> no_debt p -> no_debt p'.
Proof.
  intros Hv H Hp k'. unfold spent. rewrite H. destruct (decide (k' = k)) as [->|]; [by rewrite lookup_insert_eq|].
  rewrite lookup_insert_ne by done. apply Hp.
Qed.
Lemma open_window_debt k t p : no_new_debt p (open_window k t p).
Proof.
  unfold open_window. destruct (failWindow p !! k); [destruct (_ <? _)|]; try done;
    intros Hp; by eapply (no_debt_insert k 0).
Qed.
Lemma ValidateAndPair_debt ch c s n : keeps no_new_debt (ValidateAndPair ch c s n).
Proof.
  assert (Hb : forall k p q, no_debt p -> failCount q = <[k := default 0 (failCount p !! k) + 1]> (failCount p) -> no_debt q).
  { intros k p q Hp H. eapply no_debt_insert; [|exact H|exact Hp]. specialize (Hp k). unfold spent in Hp. lia. }
  unfold ValidateAndPair, exec. keeps_go; try (by apply open_window_debt); try (by apply same_fails_debt);
    intros Hp; try (by eapply Hb).
  intros k. unfold spent. cbn. destruct (decide (k = pairingKey (norm_channel ch) s)) as [->|];
    [by rewrite lookup_delete_eq|]. rewrite lookup_delete_ne by done. apply Hp.
Qed.
Lemma life_step_debt x y : life_step x y -> no_new_debt x.1 y.1.
Proof.
  assert (Hsf : forall A (m : pop A), keeps same_fails m -> keeps no_new_debt m).
  { intros A m. apply keeps_weaken. intros p p' [H _]. by apply same_fails_debt. }
  intros [(o & r & Hrun)|[r Hrun]]; destruct y as [p' e']; cbn [fst].
  - eapply (keeps_run no_new_debt); [|exact Hrun]. destruct (op_key o) eqn:Ho; [|by apply Hsf, run_pair_fails].
    destruct o; try discriminate Ho; cbn [run_pair].
    + apply keeps_bind; [apply _|apply ValidateAndPair_debt|intros ?; apply keeps_ret; apply _].
    + pose proof (fun ch s n c => Hsf _ _ (NoteUnpaired_fails ch s n c)). pose proof (fun ch s => Hsf _ _ (TouchUser_fails ch s)).
      pose proof ValidateAndPair_debt. unfold enforcePairing. keeps_go; auto.
  - eapply (keeps_run no_new_debt); [|exact Hrun].
    assert (Hf : forall p q, failCount q = ∅ -> no_new_debt p q).
    { intros p q H _ k. unfold spent. by rewrite H, lookup_empty. }
    unfold NewPairingManager, exec. keeps_go; first [by apply Hf|by apply same_fails_debt].
Qed.

(** C10. Guessing is bounded: in a life that began with no failure on record,
    restarts before included, the wrong codes of a sender that are looked at
    and refused along a run of one process in which that sender is not let in
    are at most five for each window of fifteen minutes that the run can touch:
    the one that may be open at its start, and one more for the start and for
    every fifteen minutes that pass, whatever else happens meanwhile and on
    whatever route the codes come.  Windows are fixed, not sliding: within
    fifteen minutes five codes are refused at most when no window is open at
    the start, ten otherwise. *)
Theorem guesses_bounded k n z x y :
  failCount z.1 = ∅ -> rtc life_step z x -> guesses k n x y ->
  let T := clock y.2 - clock x.2 in
  Z.of_nat n <= 5 * (match failWindow x.1 !! k with None => 1 | Some _ => 2 end + T / (pairingFailWindow + 1)) /\
  (T <= pairingFailWindow -> (n <= 10)%nat /\ (failWindow x.1 !! k = None -> (n <= 5)%nat)).
Proof.
  intros Hz Hrun Hg. cbv zeta. pose proof (guesses_clock _ _ _ _ Hg) as Hc.
  assert (Hd : 0 <= spent k x.1).
  { assert (Hnd : no_debt z.1) by (intros k'; unfold spent; by rewrite Hz, lookup_empty).
    clear Hz Hg Hc. induction Hrun as [x|x1 x2 x3 Hst _ IH]; [apply Hnd|]. by apply IH, (life_step_debt _ _ Hst). }
  assert (Hgen : Z.of_nat n <= 5 * (match failWindow x.1 !! k with None => 1 | Some _ => 2 end + (clock y.2 - clock x.2) / (pairingFailWindow + 1))).
  { pose proof (guesses_paid k n x y Hg) as Hp. change pairingFailLimit with 5 in Hp.
    assert (Hw : windows (next_window k x) (clock y.2) <= windows (clock x.2) (clock y.2)).
    { apply windows_mono. unfold next_window. destruct (failWindow x.1 !! k); lia. }
    unfold windows in Hw at 2. rewrite (proj2 (Z.ltb_ge _ _) Hc) in Hw.
    unfold left_now in Hp. change pairingFailLimit with 5 in Hp. destruct (failWindow x.1 !! k); lia. }
  split; [exact Hgen|]. intros HT. rewrite Z.div_small in Hgen by (change pairingFailWindow with 900000000000 in *; lia).
  split; [destruct (failWindow x.1 !! k); lia|]. intros Hnone. rewrite Hnone in Hgen. lia.
Qed.


(** ** A generated code, from the operator's screen to the chat *)

Definition code_byte (b : Z) : bool := bool_decide (b ∈ byte_val <$> chars pairingCodeAlphabet).

Lemma code_byte_all (P : Z -> bool) b :
  forallb P (byte_val <$> chars pairingCodeAlphabet) = true -> code_byte b = true -> P b = true.
Proof. intros HP Hb%bool_decide_eq_true. rewrite forallb_elem in HP. auto. Qed.

Lemma alphabet_code_byte (i : fin 32) : code_byte (byte_val (alphabet_at i)) = true.
Proof.
  assert (H : forallb (fun n => code_byte (byte_val (default "A"%char (String.get n pairingCodeAlphabet)))) (seq 0 32) = true) by (vm_compute; reflexivity).
  rewrite forallb_elem in H. apply H. apply elem_of_seq. pose proof (fin_to_nat_lt i). lia.
Qed.

Lemma generate_wp n p e :
  wp (generate n) (fun r p' e' => p' = p /\ onward e e' /\ forall code, r = Ok code ->
    String.length code = n /\ all_bytes code_byte code = true) p e.
Proof.
  revert p e. induction n as [|n IH]; intros p e; cbn [generate].
  - apply wp_ret. split; [done|]. split; [reflexivity|]. by intros c [= <-].
  - apply wp_bind, wp_draw_onward. intros e1 H1. destruct (rand_int _) as [i|]; [|by apply wp_throw].
    apply wp_bind. eapply wp_mono; [apply IH|]. cbv beta. intros r p2 e2 (-> & H2 & Hc).
    assert (H12 : onward e e2) by by transitivity e1. destruct r as [rest|x]; [|by split].
    destruct (Hc rest eq_refl) as [Hl Hb]. apply wp_ret. split; [done|]. split; [done|]. intros c [= <-]. cbn [String.length all_bytes].
    by rewrite Hl, Hb, alphabet_code_byte.
Qed.

Section code.
Variable code : string.
Hypothesis Hlen : String.length code = pairingCodeLength.
Hypothesis Hbytes : all_bytes code_byte code = true.

Lemma code_all (P : Z -> bool) : forallb P (byte_val <$> chars pairingCodeAlphabet) = true -> all_bytes P code = true.
Proof. intros HP. eapply all_bytes_impl; [|exact Hbytes]. intros b. by apply code_byte_all. Qed.

Lemma code_ascii : all_bytes (fun b => b <? 128) code = true.
Proof. apply code_all. vm_compute. reflexivity. Qed.
Lemma code_upper : to_upper code = code.
Proof.
  apply (map_runes_fixed _ code_byte); [|exact Hbytes]. intros b Hb.
  pose proof (code_byte_all (fun b => (b <? 128) && (rune_upper b =? b)) b ltac:(vm_compute; reflexivity) Hb) as H.
  apply andb_true_iff in H as [H1 H2]. by rewrite <- Z.ltb_lt, <- Z.eqb_eq.
Qed.
Lemma code_trim : trim_space code = code.
Proof. apply trim_fixed, code_all. vm_compute. reflexivity. Qed.
Lemma code_trim_chars : trim_chars code pin_cutset = code.
Proof.
  apply (trim_fixed (fun p => bool_decide (p.1 ∈ pin_cutset))), code_all. vm_compute. reflexivity.
Qed.
Lemma code_nonempty : code <> "".
Proof. intros ->. discriminate Hlen. Qed.
Lemma code_fields : fields code = [code].
Proof. apply fields_fixed; [|exact code_nonempty]. apply code_all. vm_compute. reflexivity. Qed.

Lemma code_is_code : isPairingCode code = true.
Proof.
  unfold isPairingCode, len. rewrite Hlen, Z.eqb_refl. cbn [andb].
  change (runes code) with ((segments code).*1). rewrite (segments_ascii _ code_ascii).
  rewrite <- list_fmap_compose. change (fst ∘ byte_seg) with byte_val. pose proof Hbytes as Hb. rewrite all_bytes_chars in Hb.
  rewrite forallb_elem in Hb. apply forallb_elem. intros x (a & -> & Ha)%list_elem_of_fmap. specialize (Hb a Ha).
  unfold runes. rewrite segments_ascii by (vm_compute; reflexivity). rewrite <- list_fmap_compose. exact Hb.
Qed.

Lemma code_segs_visible : Forall (fun x => seg_space x = false) (byte_seg <$> chars code).
Proof.
  apply Forall_fmap, Forall_forall. intros a Ha%list_elem_of_In.
  assert (H : all_bytes (fun b => negb (is_space b)) code = true) by (apply code_all; vm_compute; reflexivity).
  rewrite all_bytes_chars, forallb_elem in H. specialize (H a Ha). by apply negb_true_iff in H.
Qed.

Lemma trim_before (l : list (Z * string)) :
  reverse (drop_while seg_space (reverse (l ++ (byte_seg <$> chars code)))) = l ++ (byte_seg <$> chars code).
Proof.
  rewrite reverse_app, drop_while_app; [by rewrite reverse_app, !reverse_involutive| |].
  - intros Hn. apply code_nonempty. destruct code as [|a c]; [done|]. apply (f_equal List.length) in Hn.
    rewrite length_reverse, length_fmap in Hn. discriminate Hn.
  - apply Forall_reverse, code_segs_visible.
Qed.

Lemma pair_command : ExtractPairingPIN ("/pair " +:+ code) = Some code.
Proof.
  assert (Hsegs : segments ("/pair " +:+ code) = (byte_seg <$> chars "/pair ") ++ (byte_seg <$> chars code)).
  { rewrite segments_app_ascii, (segments_ascii code code_ascii) by (vm_compute; reflexivity). by rewrite segments_ascii. }
  assert (Htrim : trim_space ("/pair " +:+ code) = "/pair " +:+ code).
  { unfold trim_space. rewrite Hsegs. change (drop_while seg_space ((byte_seg <$> chars "/pair ") ++ (byte_seg <$> chars code)))
      with ((byte_seg <$> chars "/pair ") ++ (byte_seg <$> chars code)).
    rewrite trim_before, <- Hsegs. apply bytes_of_segments. }
  assert (Hafter : trim_space (" " +:+ code) = code).
  { unfold trim_space. change (segments (" " +:+ code)) with ((32, " "):: segments code). cbn [drop_while seg_space fst].
    change (is_space 32) with true. cbv iota. exact code_trim. }
  unfold ExtractPairingPIN. cbv zeta. rewrite Htrim, to_lower_app by (vm_compute; reflexivity).
  assert (Hidx : index (to_lower "/pair " +:+ to_lower code) "/pair" = Some 0%nat).
  { assert (Hp : has_prefix (to_lower "/pair " +:+ to_lower code) "/pair" = true) by (apply has_prefix_spec; by exists (" " +:+ to_lower code)).
    destruct (to_lower "/pair " +:+ to_lower code); cbn [index]; by rewrite Hp. }
  rewrite Hidx. unfold slice_from. rewrite bool_decide_true by (rewrite string_length_app; cbn; lia).
  assert (Hsub : String.substring (0 + 5) (String.length ("/pair " +:+ code) - (0 + 5)) ("/pair " +:+ code) = " " +:+ code).
  { rewrite string_length_app. cbn -[String.length]. change (String.length "/pair ") with 6%nat.
    replace (6 + String.length code - 5)%nat with (String.length (" " +:+ code)) by (rewrite string_length_app; cbn; lia).
    apply (substring_all (" " +:+ code)). }
  rewrite Hsub, Hafter, code_fields, code_trim_chars, code_upper, code_is_code. done.
Qed.
End code.

Lemma GeneratePairingCode_wp ch p e :
  wp (GeneratePairingCode ch) (fun r p' e' => onward e e' /\ forall code, r = Ok code ->
    String.length code = pairingCodeLength /\ all_bytes code_byte code = true /\ failCount p' = failCount p /\
    exists t, clock e <= t <= clock e' /\ activeCodes p' !! code = Some (mkPairing code
      (if bool_decide (norm_channel ch = "") then "all" else norm_channel ch) t (t + 10 * minute))) p e.
Proof.
  unfold GeneratePairingCode. apply wp_bind, wp_now_onward. intros e1 H1. apply wp_bind, wp_modify, wp_bind.
  eapply wp_mono; [apply generate_wp|]. cbv beta. intros r p1 e2 (-> & H2 & Hc).
  assert (H12 : onward e e2) by by transitivity e1. destruct r as [code|x]; [|by split].
  destruct (Hc code eq_refl) as [Hl Hb]. cbv zeta. apply wp_bind, wp_modify, wp_bind, wp_ignore.
  apply exec_wp; [intros p' e3 Hp' H3|intros e3 H3]; apply wp_ret; (split; [by transitivity e2|]); intros c [= <-];
    (split; [done|]); (split; [done|]); [destruct Hp' as [-> | ->]|]; (split; [done|]); exists (clock e1);
    (split; [destruct H1 as [[] _], H2 as [[] _], H3 as [[] _]; lia|]); cbn; by rewrite lookup_insert_eq.
Qed.

(** A generated code works, once, as it is shown: a message "/pair CODE" is
    read as this code, and given within ten minutes on its channel by a sender
    who is not locked out it authorizes that sender and is gone. *)
Theorem generated_code_pairs ch p e code p1 e1 sender name e2 r p2 e3 :
  GeneratePairingCode ch p e = (Ok code, (p1, e1)) ->
  to_lower (norm_channel ch) = norm_channel ch ->
  spent (pairingKey (norm_channel ch) sender) p1 < pairingFailLimit ->
  ValidateAndPair ch code sender name p1 e2 = (r, (p2, e3)) -> clock e3 <= clock e + 10 * minute ->
  ExtractPairingPIN ("/pair " +:+ code) = Some code /\ (r = Ok Paired \/ r = Ok PairedUnstored) /\
  active (pairingKey (norm_channel ch) sender) p2 /\ activeCodes p2 !! code = None.
Proof.
  intros Hgen Hch Hs Hval Hclock. pose proof (run_wp _ _ _ _ _ _ _ (GeneratePairingCode_wp ch p e) Hgen) as [_ Hg].
  destruct (Hg code eq_refl) as (Hlen & Hb & Hf & t & Ht & Hreq). split; [by apply pair_command|].
  pose proof (run_wp _ _ _ _ _ _ _ (ValidateAndPair_wp ch code sender name p1 e2) Hval) as (Hon & res & t2 & -> & Ht2 & Hat & Href).
  rewrite (code_trim code Hb), (code_upper code Hb) in *. set (k := pairingKey _ _) in *.
  assert (Hlive : live code (norm_channel ch) (clock e3) p1).
  { eexists. split; [exact Hreq|]. cbn [PChannelID PExpiresAt code_serves]. split; [|lia].
    unfold code_serves. cbn [PChannelID]. case_bool_decide as Hempty.
    - change (to_lower "all") with "all". by rewrite (bool_decide_true ("all" = "all")), orb_true_r.
    - by rewrite Hch, (bool_decide_true (norm_channel ch = norm_channel ch)), orb_true_r. }
  assert (Hopen : default 0 (failCount (open_window k t2 p1) !! k) < pairingFailLimit).
  { unfold open_window, spent in *. destruct (failWindow p1 !! k); [destruct (_ <? _)|]; cbn; rewrite ?lookup_insert_eq; cbn;
      try exact Hs; by compute. }
  destruct res; cbn in Hat.
  - by destruct (Href eq_refl).
  - destruct Hat as [Hge _]. lia.
  - destruct Hat as (_ & _ & Hc & _ & _ & u & Hu & Hus & _). split; [by left|]. split.
    + exists u. by rewrite Hu, lookup_insert_eq.
    + by rewrite Hc, lookup_delete_eq.
  - destruct Hat as (_ & _ & Hc & _ & _ & u & Hu & Hus & _). split; [by right|]. split.
    + exists u. by rewrite Hu, lookup_insert_eq.
    + by rewrite Hc, lookup_delete_eq.
Qed.

End spec.

(** ** Closed instances *)

#[local] Existing Instance ascii_tables.
#[local] Instance demo_random : Randomness := {| rand_int := fun _ => Some (7%fin : fin 32) |}.
#[local] Instance demo_folding : Folding := {| simple_fold := fun _ _ => false |}.

Definition demo_code : string := "HHHHHHHH".
Definition state_after {A} (m : pop A) (x : PairingManager * env) : PairingManager * env := snd (m x.1 x.2).
Definition demo_start : PairingManager * env := (fresh_manager true, calm 1000).
Definition demo_ready : PairingManager * env := state_after (GeneratePairingCode " Telegram ") demo_start.
Definition demo_message : InboundMessage := mkInbound "telegram" "" "42" "Ann" "" "" ("hello /pair " +:+ "hhhhhhhh.") "" "" "" "" "" "" ∅.
Definition demo_joined : PairingManager * env :=
  state_after (run_pair (OInbound None demo_message)) (state_after (run_pair (OPolicy "telegram" true)) demo_ready).

Lemma run_state {A} (m : pop A) x : m x.1 x.2 = (fst (m x.1 x.2), state_after m x).
Proof. unfold state_after. by destruct (m x.1 x.2). Qed.

(** Joined, and the process started again. *)
Definition demo_again : PairingManager * env := state_after NewPairingManager demo_joined.
Lemma demo_life : rtc life_step demo_ready demo_again.
Proof.
  apply (rtc_r demo_ready demo_joined); [|right; eexists; exact (run_state NewPairingManager demo_joined)].
  eapply rtc_l; [left; eexists (OPolicy "telegram" true), _; apply run_state|].
  eapply rtc_l; [left; eexists (OInbound None demo_message), _; apply run_state|]. apply rtc_refl.
Qed.

Lemma authorized_by_invitation_witness :
  exists x1 x2, rtc life_step demo_ready x1 /\ rtc life_step x2 demo_again /\
    (lets_in "telegram:42" x1 x2 \/ restarts x1 x2 /\ stored "telegram:42" x1.1 /\ stored "telegram:42" demo_ready.1).
Proof.
  apply authorized_by_invitation; [exact demo_life| |].
  - eexists. split; [vm_compute; reflexivity|]. reflexivity.
  - intros (u & Hu & _). vm_compute in Hu. discriminate Hu.
Defined.

(** Five wrong codes, then a sixth that is not looked at. *)
Definition wrong : pair_op := OPair "telegram" "ZZZZZZZZ" "13" "Eve".
Fixpoint tries (n : nat) (x : PairingManager * env) : PairingManager * env :=
  match n with O => x | S n' => tries n' (state_after (run_pair wrong) x) end.

Lemma tries_guesses n x :
  forallb (fun m => match users (tries m x).1 !! "telegram:13" with None => true | _ => false end) (seq 0 (S n)) = true ->
  exists m, guesses "telegram:13" m x (tries n x) /\ m = list_sum ((fun i =>
    if wrong_guess "telegram:13" wrong (fst (run_pair wrong (tries i x).1 (tries i x).2)) then 1%nat else 0%nat) <$> seq 0 n).
Proof.
  revert x. induction n as [|n IH]; intros x Hn; [exists 0%nat; split; [constructor|done]|].
  cbn [tries]. destruct (IH (state_after (run_pair wrong) x)) as (m & Hg & ->).
  - rewrite forallb_elem in *. intros i Hi. apply elem_of_seq in Hi. apply (Hn (S i)). apply elem_of_seq. lia.
  - eexists. split.
    + eapply g_step; [apply run_state| |exact Hg].
      rewrite forallb_elem in Hn. specialize (Hn 1%nat ltac:(apply elem_of_seq; lia)). cbn [tries] in Hn.
      intros (u & Hu & _). by rewrite Hu in Hn.
    + cbn [seq fmap list_fmap list_sum]. f_equal. rewrite <- (fmap_S_seq 0 n), <- list_fmap_compose. done.
Qed.

(** One wrong code, then seven more: four of them are looked at. *)
Definition demo_tried : PairingManager * env := state_after (run_pair wrong) demo_ready.
Lemma guesses_bounded_witness : (4 <= 10)%nat.
Proof.
  destruct (tries_guesses 7 demo_tried) as (m & Hg & Hm); [vm_compute; reflexivity|]. vm_compute in Hm. subst m.
  apply (guesses_bounded "telegram:13" 4 demo_ready demo_tried (tries 7 demo_tried)); [reflexivity| |exact Hg|].
  - eapply rtc_l; [left; exists wrong; eexists; apply run_state|]. apply rtc_refl.
  - vm_compute. discriminate.
Defined.

Lemma generated_code_pairs_witness :
  ExtractPairingPIN ("/pair " +:+ demo_code) = Some demo_code /\
  activeCodes (state_after (ValidateAndPair " Telegram " demo_code "42" "Ann") demo_ready).1 !! demo_code = None.
Proof.
  destruct (generated_code_pairs " Telegram " (fresh_manager true) (calm 1000) demo_code demo_ready.1 demo_ready.2 "42" "Ann" demo_ready.2
    (fst (ValidateAndPair " Telegram " demo_code "42" "Ann" demo_ready.1 demo_ready.2))
    (state_after (ValidateAndPair " Telegram " demo_code "42" "Ann") demo_ready).1
    (state_after (ValidateAndPair " Telegram " demo_code "42" "Ann") demo_ready).2) as (H1 & _ & _ & H2).
  - vm_compute. reflexivity.
  - vm_compute. reflexivity.
  - vm_compute. reflexivity.
  - exact (eq_trans (run_state _ _) (f_equal (pair _) (surjective_pairing _))).
  - vm_compute. discriminate.
  - split; [exact H1|exact H2].
Defined.

(** A revocation with the channel's name in capitals is forgotten by a restart:
    the row is kept under the lower-case name. *)
Example revoked_until_restart :
  let x := state_after (AuthorizeSender "Telegram" "42" "Ann") demo_start in
  let y := state_after (RevokeUser "Telegram" "42") x in
  IsAuthorized "Telegram" "42" y.1 = false /\ IsAuthorized "Telegram" "42" (state_after NewPairingManager y).1 = true.
Proof. vm_compute. by split. Qed.

(** Lower-casing can lengthen a text: U+023A takes two bytes and its lower case
    three, so the position found in the lower-cased message lies past the end
    of the message, and the slice panics. *)
Example long_lower_case_panics :
  ExtractPairingPIN (U := {| uni_lower := fun r => if r =? 570 then 11365 else r; uni_upper := id |})
    (encode_runes (replicate 6 570) +:+ "/pair") = None.
Proof. vm_compute. reflexivity. Qed.
