(* ===== verification/Untrusted.v ===== *)
(** * External text shown to the model ([internal/mailcal/untrusted.go])

    Mail and calendar text written by others is cleaned of hidden characters,
    shortened, kept from forging a block marker, and framed as data. *)

From S2P Require Import Prelude GoStrings GoText.
From Stdlib Require Import Ascii.

#[local] Open Scope Z_scope.

(** ** Cleaning *)

Definition hiddenRune (r : Z) : bool :=
  ((8203 <=? r) && (r <=? 8207)) || ((8234 <=? r) && (r <=? 8238)) || ((8288 <=? r) && (r <=? 8292))
  || ((8294 <=? r) && (r <=? 8297)) || (r =? 65279) || (r =? 173).

(** What the loop over the runes writes. *)
Definition kept (r : Z) : bool :=
  (r =? 10) || (r =? 9) || (negb (r =? 13) && negb (hiddenRune r || is_control r)).

Definition NL : string := String (byte_of 10) "".
Definition three_lines : string := NL +:+ NL +:+ NL.
Definition two_lines : string := NL +:+ NL.

(** [for strings.Contains(out, three) { out = ReplaceAll(out, three, two) }] *)
Fixpoint collapse (fuel : nat) (s : string) : string :=
  match fuel with
  | O => s
  | S fuel' => if contains_str s three_lines then collapse fuel' (Replace [(three_lines, two_lines)] s) else s
  end.

Definition truncation_note (n : Z) : string := NL +:+ "[truncated " +:+ pretty n +:+ " characters]".

Definition SanitizeText (s : string) (maxRunes : Z) : string :=
  let out := encode_runes (filter (fun r => kept r = true) (runes s)) in
  let out := trim_space (collapse (String.length out) out) in
  let r := runes out in
  let n := Z.of_nat (List.length r) in
  if (0 <? maxRunes) && (maxRunes <? n)
  then encode_runes (take (Z.to_nat maxRunes) r) +:+ truncation_note (n - maxRunes)
  else out.

(** ** Framing *)

Definition open_marker : string := "[UNTRUSTED".
Definition close_marker : string := "[/UNTRUSTED".
Definition neutralizer : list (string * string) := [(open_marker, "[ UNTRUSTED"); (close_marker, "[ /UNTRUSTED")].

Definition cleanMeta (v : string) : string :=
  Replace neutralizer (Replace [(String (byte_of 34) "", "'"); (NL, " "); (String (byte_of 9) "", " ")] (SanitizeText v 200)).

(** [strconv.Quote], the verb [%q] of package [fmt]. *)
Class Quoting := { quote : string -> string }.

Definition key_le (a b : string) : Prop := String.leb a b = true.
#[export] Instance key_le_dec a b : Decision (key_le a b). Proof. unfold key_le. apply _. Defined.

Section wrap.
Context `{Q : Quoting}.

Definition header (kind : string) (meta : gmap string string) : string :=
  "[UNTRUSTED " +:+ kind
  +:+ foldr (fun k acc => (" " +:+ k +:+ "=" +:+ quote (cleanMeta (default "" (meta !! k)))) +:+ acc) ""
        (merge_sort key_le (map_to_list meta).*1)
  +:+ "]".

Definition block_body (text : string) (maxRunes : Z) : string := Replace neutralizer (SanitizeText text maxRunes).

Definition WrapUntrusted (kind : string) (meta : gmap string string) (text : string) (maxRunes : Z) : string :=
  header kind meta +:+ NL +:+ block_body text maxRunes +:+ NL +:+ "[/UNTRUSTED " +:+ kind +:+ "]".
End wrap.

(** ** No marker survives *)

Definition neutral (s : string) : string := Replace neutralizer s.

(** Up to the first bracket, nothing changes. *)
Lemma neutral_other a s : a <> "["%char -> neutral (String a s) = String a (neutral s).
Proof.
  intros Ha. unfold neutral, Replace. cbn [replace_from].
  assert (first_match neutralizer (String a s) = None) as ->; [|done].
  unfold first_match, neutralizer, open_marker, close_marker. cbn [find fst has_prefix].
  by rewrite !(bool_decide_false ("["%char = a)) by done.
Qed.

Lemma neutral_bracket s :
  (exists t, s = open_marker +:+ t /\ neutral s = "[ UNTRUSTED" +:+ neutral t) \/
  (exists t, s = close_marker +:+ t /\ neutral s = "[ /UNTRUSTED" +:+ neutral t) \/
  (has_prefix s open_marker = false /\ has_prefix s close_marker = false /\
   (s = "" \/ exists a t, s = String a t /\ neutral s = String a (neutral t))).
Proof.
  destruct (has_prefix s open_marker) eqn:Ho.
  { apply has_prefix_spec in Ho as (t & ->). left. exists t. split; [done|].
    unfold neutral, Replace. change (open_marker +:+ t) with (String "[" ("UNTRUSTED" +:+ t)). cbn [replace_from].
    assert (first_match neutralizer (String "[" ("UNTRUSTED" +:+ t)) = Some (open_marker, "[ UNTRUSTED")) as -> by done.
    cbv iota. change (String.length open_marker - 1)%nat with (String.length "UNTRUSTED"). by rewrite replace_skip. }
  destruct (has_prefix s close_marker) eqn:Hc.
  { apply has_prefix_spec in Hc as (t & ->). right. left. exists t. split; [done|].
    unfold neutral, Replace. change (close_marker +:+ t) with (String "[" ("/UNTRUSTED" +:+ t)). cbn [replace_from].
    assert (first_match neutralizer (String "[" ("/UNTRUSTED" +:+ t)) = Some (close_marker, "[ /UNTRUSTED")) as -> by done.
    cbv iota. change (String.length close_marker - 1)%nat with (String.length "/UNTRUSTED"). by rewrite replace_skip. }
  right. right. split; [done|]. split; [done|]. destruct s as [|a t]; [by left|]. right. exists a, t. split; [done|].
  unfold neutral, Replace. cbn [replace_from]. unfold first_match, neutralizer. cbn [find fst]. by rewrite Ho, Hc.
Qed.

Lemma neutral_prefix w s : no_byte "[" w = true -> has_prefix (neutral s) w = has_prefix s w.
Proof.
  revert s. induction w as [|c w IH]; intros s Hw; [by destruct s, (neutral _)|]. cbn [no_byte] in Hw.
  apply andb_true_iff in Hw as [Hc Hw]. apply negb_true_iff, bool_decide_eq_false in Hc.
  destruct s as [|a s]; [done|]. destruct (decide (a = "["%char)) as [->|Ha].
  - assert (Hb : exists t, neutral (String "[" s) = String "[" t).
    { destruct (neutral_bracket (String "[" s)) as [(t & _ & ->)|[(t & _ & ->)|(_ & _ & [?|(a & t & [= <- <-] & ->)])]]; try done.
      - by exists (" UNTRUSTED" +:+ neutral t).
      - by exists (" /UNTRUSTED" +:+ neutral t).
      - by exists (neutral s). }
    destruct Hb as (t & ->). cbn [has_prefix]. by rewrite (bool_decide_false (c = "["%char)) by done.
  - rewrite neutral_other by done. cbn [has_prefix]. by rewrite IH.
Qed.

(** Neither marker. *)
Definition unmarked (s : string) : Prop := contains_str s open_marker = false /\ contains_str s close_marker = false.

Lemma unmarked_cons a s :
  unmarked (String a s) <-> unmarked s /\ has_prefix (String a s) open_marker = false /\ has_prefix (String a s) close_marker = false.
Proof.
  unfold unmarked. cbn [contains_str]. rewrite !orb_false_iff. tauto.
Qed.
Lemma unmarked_other a s : a <> "["%char -> unmarked s -> unmarked (String a s).
Proof.
  intros Ha Hs. apply unmarked_cons. split; [done|]. unfold open_marker, close_marker. cbn [has_prefix].
  by rewrite !(bool_decide_false ("["%char = a)) by done.
Qed.
Lemma unmarked_others w s : no_byte "[" w = true -> unmarked s -> unmarked (w +:+ s).
Proof.
  induction w as [|a w IH]; [done|]. cbn [no_byte]. intros [Ha Hw]%andb_true_iff Hs. rewrite string_app_cons.
  apply unmarked_other; [|by apply IH]. by apply negb_true_iff, bool_decide_eq_false in Ha.
Qed.
Lemma unmarked_open_gap w s : no_byte "[" w = true -> unmarked s -> unmarked (String "[" (String " " (w +:+ s))).
Proof.
  intros Hw Hs. apply unmarked_cons. split; [|by split]. apply unmarked_other; [done|]. by apply unmarked_others.
Qed.

Lemma neutral_unmarked s : unmarked (neutral s).
Proof.
  induction s as [s IH] using (induction_ltof1 _ String.length); unfold ltof in IH.
  destruct (neutral_bracket s) as [(t & Hs & ->)|[(t & Hs & ->)|(Ho & Hc & Hrest)]].
  - apply (unmarked_open_gap "UNTRUSTED"); [done|]. apply IH. rewrite Hs, string_length_app. cbn. lia.
  - apply (unmarked_open_gap "/UNTRUSTED"); [done|]. apply IH. rewrite Hs, string_length_app. cbn. lia.
  - destruct Hrest as [->|(a & t & -> & ->)]; [done|]. apply unmarked_cons. split; [apply IH; cbn; lia|].
    assert (Hcons : forall w x, no_byte "[" w = true -> has_prefix (String a x) (String "[" w) = bool_decide ("["%char = a) && has_prefix x w) by done.
    change open_marker with (String "[" "UNTRUSTED") in *. change close_marker with (String "[" "/UNTRUSTED") in *.
    rewrite Hcons in Ho, Hc |- * by done. rewrite Hcons by done.
    rewrite !neutral_prefix by done. by split.
Qed.
