(* ===== verification/Ics.v ===== *)
(** * Calendar text ([internal/mailcal/provkit/icskit/icskit.go])

    iCalendar as a tree of components and properties: reading, editing and
    writing.  The loops that are not structural carry fuel; running out of it
    is [None], and [IcsSpec] shows when that cannot happen. *)

From S2P Require Import Prelude GoStrings GoText.
From Stdlib Require Import Ascii.

#[local] Open Scope Z_scope.

Record Param := mkParam { ParamName : string; ParamValues : list string }.
Record Property := mkProperty { PropName : string; PropParams : list Param; PropValue : string }.
Inductive Component := mkComponent (name : string) (props : list Property) (children : list Component).

Definition CName (c : Component) : string := let 'mkComponent n _ _ := c in n.
Definition CProps (c : Component) : list Property := let 'mkComponent _ ps _ := c in ps.
Definition CChildren (c : Component) : list Component := let 'mkComponent _ _ ch := c in ch.

(** What [ErrMalformed] is wrapped with. *)
Inductive malformed :=
  | NoParamValue | UnterminatedQuote | NoColon | EmptyName | TooManyLines
  | TooDeep | TwoTops | Unbalanced (name : string) | OutsideComponent | MissingEnd.

Definition maxDepth : nat := 8.
Definition maxLines : Z := 200000.

Definition CR : string := String (byte_of 13) "".
Definition LF : string := String (byte_of 10) "".
Definition CRLF : string := CR +:+ LF.
Definition DQ : ascii := byte_of 34.

(** [strings.Split(s, sep)] for a separator of one byte, [strings.Cut] at a
    byte, and [strings.ContainsAny] for ASCII characters. *)
Fixpoint split_byte (c : ascii) (s : string) : list string :=
  match s with
  | "" => [""]
  | String a s' => if bool_decide (a = c) then "" :: split_byte c s'
                   else match split_byte c s' with h :: t => String a h :: t | [] => [] end
  end.
Fixpoint cut_byte (c : ascii) (s : string) : option (string * string) :=
  match s with
  | "" => None
  | String a s' => if bool_decide (a = c) then Some ("", s') else (fun p => (String a p.1, p.2)) <$> cut_byte c s'
  end.
Definition any_byte (s : string) (cs : list ascii) : bool := existsb (fun a => bool_decide (a ∈ cs)) (chars s).

(** ** Reading *)

(** Continuation lines; [out] is newest first. *)
Definition unfold_line (out : list string) (line : string) : list string :=
  match line, out with
  | "", _ => out
  | String a rest, last :: out' =>
    if bool_decide (a = " "%char) || bool_decide (a = byte_of 9) then (last +:+ rest) :: out' else line :: out
  | _, [] => [line]
  end.
Definition physical_lines (s : string) : list string := split_byte (byte_of 10) (Replace [(CR, LF)] (Replace [(CRLF, LF)] s)).
Definition unfold_ (s : string) : list string := reverse (foldl unfold_line [] (physical_lines s)).

(** What is before the first of two bytes, and the rest from there. *)
Fixpoint until_separator (s : string) : string * string :=
  match s with
  | "" => ("", "")
  | String a s' =>
    if bool_decide (a = ","%char) || bool_decide (a = ";"%char) then ("", s)
    else let (v, rest) := until_separator s' in (String a v, rest)
  end.

Definition param_value (rest : string) : result malformed (string * string) :=
  match rest with
  | String a rest' =>
    if bool_decide (a = DQ) then match cut_byte DQ rest' with Some p => Ok p | None => Err UnterminatedQuote end
    else Ok (until_separator rest)
  | "" => Ok ("", "")
  end.

(** The inner loop: the values of one parameter. *)
Fixpoint param_values (fuel : nat) (rest : string) (vs : list string) : option (result malformed (list string * string)) :=
  match fuel with
  | O => None
  | S fuel' =>
    match param_value rest with
    | Err e => Some (Err e)
    | Ok (v, rest') =>
      match rest' with
      | String a rest'' =>
        if bool_decide (a = ","%char) then param_values fuel' rest'' (vs ++ [v]) else Some (Ok (vs ++ [v], rest'))
      | "" => Some (Ok (vs ++ [v], ""))
      end
    end
  end.

Definition trim_semicolon (s : string) : string :=
  match s with String a s' => if bool_decide (a = ";"%char) then s' else s | "" => "" end.

Section reading.
Context `{U : Unicode}.

Fixpoint split_params (fuel : nat) (rest : string) (params : list Param) : option (result malformed (list Param)) :=
  match fuel with
  | O => None
  | S fuel' =>
    if bool_decide (rest = "") then Some (Ok params)
    else match cut_byte "=" rest with
         | None | Some ("", _) => Some (Err NoParamValue)
         | Some (name, rest') =>
           match param_values (S (String.length rest')) rest' [] with
           | None => None
           | Some (Err e) => Some (Err e)
           | Some (Ok (vs, rest'')) => split_params fuel' (trim_semicolon rest'') (params ++ [mkParam (to_upper name) vs])
           end
         end
  end.
Definition splitParams (rest : string) : option (result malformed (list Param)) := split_params (S (String.length rest)) rest [].

(** The first colon outside quotation marks: what is before and after it. *)
Fixpoint find_colon (inQuote : bool) (line : string) : option (string * string) :=
  match line with
  | "" => None
  | String a line' =>
    if bool_decide (a = ":"%char) && negb inQuote then Some ("", line')
    else (fun p => (String a p.1, p.2)) <$> find_colon (if bool_decide (a = DQ) then negb inQuote else inQuote) line'
  end.

Definition parseLine (line : string) : option (result malformed Property) :=
  match find_colon false line with
  | None | Some ("", _) => Some (Err NoColon)
  | Some (head, value) =>
    let (name, rest) := default (head, "") (cut_byte ";" head) in
    let name := to_upper (trim_space name) in
    if bool_decide (name = "") then Some (Err EmptyName)
    else if bool_decide (rest = "") then Some (Ok (mkProperty name [] value))
    else match splitParams rest with
         | None => None
         | Some (Err e) => Some (Err e)
         | Some (Ok params) => Some (Ok (mkProperty name params value))
         end
  end.

(** The components still open, innermost first.  The code links a component to
    its parent through a pointer when it opens; as nobody sees the tree before
    all are closed, it joins its parent here when it closes. *)
Record reading := mkReading { stack : list Component; root : option Component }.

Definition add_child (c parent : Component) : Component := mkComponent (CName parent) (CProps parent) (CChildren parent ++ [c]).
Definition add_prop (p : Property) (c : Component) : Component := mkComponent (CName c) (CProps c ++ [p]) (CChildren c).

Definition read_prop (p : Property) (s : reading) : result malformed reading :=
  if bool_decide (PropName p = "BEGIN") then
    if bool_decide (maxDepth <= List.length (stack s))%nat then Err TooDeep
    else if bool_decide (stack s = []) && bool_decide (is_Some (root s)) then Err TwoTops
    else Ok (mkReading (mkComponent (to_upper (PropValue p)) [] [] :: stack s) (root s))
  else if bool_decide (PropName p = "END") then
    match stack s with
    | [] => Err (Unbalanced (PropValue p))
    | top :: below =>
      if negb (bool_decide (CName top = to_upper (PropValue p))) then Err (Unbalanced (PropValue p))
      else match below with
           | [] => Ok (mkReading [] (Some top))
           | parent :: below' => Ok (mkReading (add_child top parent :: below') (root s))
           end
    end
  else match stack s with
       | [] => Err OutsideComponent
       | top :: below => Ok (mkReading (add_prop p top :: below) (root s))
       end.

Fixpoint read_lines (lines : list string) (s : reading) : option (result malformed reading) :=
  match lines with
  | [] => Some (Ok s)
  | line :: lines' =>
    match parseLine line with
    | None => None
    | Some (Err e) => Some (Err e)
    | Some (Ok p) => match read_prop p s with Err e => Some (Err e) | Ok s' => read_lines lines' s' end
    end
  end.

Definition Parse (text : string) : option (result malformed Component) :=
  let lines := unfold_ text in
  if maxLines <? Z.of_nat (List.length lines) then Some (Err TooManyLines)
  else match read_lines lines (mkReading [] None) with
       | None => None
       | Some (Err e) => Some (Err e)
       | Some (Ok s) => match root s, stack s with Some c, [] => Some (Ok c) | _, _ => Some (Err MissingEnd) end
       end.
End reading.

(** ** Editing *)

Definition Find (name : string) (c : Component) : option Component := find (fun ch => bool_decide (CName ch = name)) (CChildren c).
Definition All (name : string) (c : Component) : list Component := filter (fun ch => CName ch = name) (CChildren c).
Definition Get (name : string) (c : Component) : option Property := find (fun p => bool_decide (PropName p = name)) (CProps c).
Definition Values (name : string) (c : Component) : list Property := filter (fun p => PropName p = name) (CProps c).

Definition Param_ (name : string) (p : Property) : string :=
  match find (fun q => bool_decide (ParamName q = name) && negb (bool_decide (ParamValues q = []))) (PropParams p) with
  | Some q => default "" (head (ParamValues q))
  | None => ""
  end.

Definition Remove (name : string) (c : Component) : Component :=
  mkComponent (CName c) (filter (fun p => PropName p <> name) (CProps c)) (CChildren c).
Definition Set_ (name value : string) (params : list Param) (c : Component) : Component :=
  let c := Remove name c in
  mkComponent (CName c) (CProps c ++ [mkProperty name params value]) (CChildren c).

(** [TEXT] values. *)
Definition BS : string := String (byte_of 92) "".
Definition escapes : list (string * string) :=
  [(BS, BS +:+ BS); (";", BS +:+ ";"); (",", BS +:+ ","); (CRLF, BS +:+ "n"); (LF, BS +:+ "n"); (CR, BS +:+ "n")].
Definition Escape (s : string) : string := Replace escapes s.

Fixpoint Unescape (s : string) : string :=
  match s with
  | "" => ""
  | String a s' =>
    match s' with
    | String b s'' =>
      if bool_decide (a = byte_of 92)
      then String (if bool_decide (b = "n"%char) || bool_decide (b = "N"%char) then byte_of 10 else b) (Unescape s'')
      else String a (Unescape s')
    | "" => String a ""
    end
  end.

(** ** Writing *)

(** [utf8.RuneStart]. *)
Definition RuneStart (a : ascii) : bool := negb (Z.land (byte_val a) 192 =? 128).
Definition byte_at (n : nat) (s : string) : ascii := default (byte_of 0) (String.get n s).

(** [for cut > 0 && !utf8.RuneStart(line[cut]) { cut-- }] *)
Fixpoint back_up (line : string) (cut : nat) : nat :=
  match cut with O => O | S cut' => if RuneStart (byte_at cut line) then cut else back_up line cut' end.

Definition drop_bytes (n : nat) (s : string) : string := String.substring n (String.length s - n) s.

Fixpoint write_line (fuel : nat) (first : bool) (line : string) : option string :=
  match fuel with
  | O => None
  | S fuel' =>
    let limit := if first then 75%nat else 74%nat in
    let lead := if first then "" else " " in
    if bool_decide (line = "") then Some ""
    else if bool_decide (String.length line <= limit)%nat then Some (lead +:+ line +:+ CRLF)
    else let cut := back_up line limit in
         (fun rest => lead +:+ take_bytes cut line +:+ CRLF +:+ rest) <$> write_line fuel' false (drop_bytes cut line)
  end.
Definition writeLine (line : string) : option string := write_line (S (String.length line)) true line.

Definition quoted_value (v : string) : string :=
  if any_byte v [","%char; ";"%char; ":"%char] then String DQ (v +:+ String DQ "") else v.
Definition param_text (q : Param) : string := ";" +:+ ParamName q +:+ "=" +:+ join (quoted_value <$> ParamValues q) ",".
Definition line (p : Property) : string := PropName p +:+ foldr (fun q acc => param_text q +:+ acc) "" (PropParams p) +:+ ":" +:+ PropValue p.

(** The guard against a value that could start a new line. *)
Definition writable (p : Property) : bool :=
  negb (any_byte (PropValue p) [byte_of 13; byte_of 10] || any_byte (PropName p) [byte_of 13; byte_of 10; ":"%char; ";"%char]).

Fixpoint component_lines (c : Component) : list string :=
  match c with
  | mkComponent name props children =>
    ("BEGIN:" +:+ name) :: (line <$> filter (fun p => writable p = true) props) ++ flat_map component_lines children ++ ["END:" +:+ name]
  end.

Definition Serialize (c : Component) : option string :=
  foldr (fun l acc => w ← writeLine l; rest ← acc; Some (w +:+ rest)) (Some "") (component_lines c).
