(* ===== verification/IcsSpec.v ===== *)
(** * What calendar text promises

    A well-formed calendar is read back exactly as it was written, text values
    survive escaping, and reading always ends.

    Folding first: a well-formed UTF-8 line is cut into physical lines of at
    most 75 octets without cutting a rune, the loop always ends, and unfolding
    gives the line back.  An ill-formed line can keep the loop going for ever. *)

From S2P Require Import Prelude GoStrings GoText Ics.
From Stdlib Require Import Ascii.

#[local] Open Scope Z_scope.

(** ** Bytes by position *)

Lemma byte_at_app_r s t n : byte_at (String.length s + n) (s +:+ t) = byte_at n t.
Proof. induction s as [|a s IH]; [done|]. exact IH. Qed.
Lemma byte_at_app_l s t n : (n < String.length s)%nat -> byte_at n (s +:+ t) = byte_at n s.
Proof.
  revert n. induction s as [|a s IH]; intros n; cbn; [lia|]. destruct n as [|n]; [done|]. intros H. apply IH. lia.
Qed.
Lemma take_bytes_app s t : take_bytes (String.length s) (s +:+ t) = s.
Proof. induction s as [|a s IH]; [by destruct t|]. unfold take_bytes in *. rewrite string_app_cons. cbn. by rewrite IH. Qed.
Lemma drop_bytes_app s t : drop_bytes (String.length s) (s +:+ t) = t.
Proof.
  unfold drop_bytes. rewrite string_length_app. replace (String.length s + String.length t - String.length s)%nat with (String.length t) by lia.
  induction s as [|a s IH]; [apply substring_all|]. exact IH.
Qed.

(** ** The bytes of a rune *)

(** [w] has no byte that starts a rune. *)
Fixpoint tail_bytes (w : string) : bool := match w with "" => true | String a w' => negb (RuneStart a) && tail_bytes w' end.

Lemma start_small z : 0 <= z < 128 -> RuneStart (byte_of z) = true.
Proof.
  intros Hz. unfold RuneStart. rewrite byte_val_of by lia. apply negb_true_iff, Z.eqb_neq.
  change 192 with (Z.shiftl 3 6). intros He. assert (Hb : Z.testbit (Z.land z (Z.shiftl 3 6)) 7 = true) by (by rewrite He).
  rewrite Z.land_spec in Hb. apply andb_true_iff in Hb as [Hb _].
  destruct (decide (z = 0)) as [->|]; [done|]. rewrite Z.bits_above_log2 in Hb; [done|lia|]. apply Z.log2_lt_pow2; lia.
Qed.

(** Bits 6 and 7 of a byte. *)
Lemma land_192 v : 0 <= v < 256 -> Z.land v 192 = 64 * (v / 64).
Proof.
  intros Hv. change 192 with (Z.shiftl (Z.ones 2) 6). replace v with (Z.lor (Z.shiftl (v / 64) 6) (v mod 64)) at 1.
  - rewrite Z.land_lor_distr_l, <- Z.shiftl_land.
    assert (Z.land (v mod 64) (Z.shiftl (Z.ones 2) 6) = 0) as ->.
    { change (v mod 64) with (v mod 2 ^ 6). rewrite <- (land_ones_mod v 6), <- Z.land_assoc by lia. by rewrite Z.land_0_r. }
    rewrite Z.lor_0_r, land_ones_mod by lia. change (2 ^ 2) with 4. rewrite Z.shiftl_mul_pow2 by lia. change (2 ^ 6) with 64. zdiv.
  - rewrite (lor_shift _ _ 6) by pow_zdiv. pow_zdiv.
Qed.
Lemma start_spec v : 0 <= v < 256 -> RuneStart (byte_of v) = negb (v / 64 =? 2).
Proof.
  intros Hv. unfold RuneStart. rewrite byte_val_of, land_192 by lia. f_equal. apply Bool.eq_iff_eq_true. rewrite !Z.eqb_eq. zdiv.
Qed.

Lemma encode_bytes r : scalar r ->
  exists a w, encode_rune r = String a w /\ RuneStart a = true /\ tail_bytes w = true /\ (String.length w <= 3)%nat.
Proof.
  intros [Hr Hsur]. unfold encode_rune.
  destruct ((r <? 0) || (1114111 <? r) || ((55296 <=? r) && (r <=? 57343))) eqn:Hbad; [exfalso; lia|].
  assert (Hm : forall a, Z.land a 63 = a mod 64) by (intros a; by apply (land_ones_mod a 6)).
  rewrite !Hm, !Z.shiftr_div_pow2 by lia. change (2 ^ 6) with 64. change (2 ^ 12) with 4096. change (2 ^ 18) with 262144.
  assert (Hl : forall tag k q, 0 <= k -> 0 <= q < 2 ^ k -> 0 <= tag -> (tag + 1) * 2 ^ k <= 256 ->
    RuneStart (byte_of (Z.lor (Z.shiftl tag k) q)) = negb ((tag * 2 ^ k + q) / 64 =? 2)).
  { intros tag k q Hk Hq Ht Hhi. rewrite (tag_or tag k q) by done. apply start_spec. nia. }
  assert (Hc : forall q, RuneStart (byte_of (Z.lor 128 (q mod 64))) = false).
  { intros q. rewrite (Hl 2 6) by pow_zdiv. change (2 * 2 ^ 6) with 128. apply negb_false_iff, Z.eqb_eq. zdiv. }
  destruct (r <? 128) eqn:H1; [|destruct (r <? 2048) eqn:H2; [|destruct (r <? 65536) eqn:H3]]; eexists _, _; (split; [reflexivity|]);
    cbn [tail_bytes String.length]; rewrite ?Hc; (split; [|split; [done|lia]]).
  - apply start_small. lia.
  - rewrite (Hl 6 5) by (try lia; zdiv). apply negb_true_iff, Z.eqb_neq. zdiv.
  - rewrite (Hl 14 4) by (try lia; zdiv). apply negb_true_iff, Z.eqb_neq. zdiv.
  - rewrite (Hl 30 3) by (try lia; zdiv). apply negb_true_iff, Z.eqb_neq. zdiv.
Qed.

Lemma tail_byte_at w t m : tail_bytes w = true -> (m < String.length w)%nat -> RuneStart (byte_at m (w +:+ t)) = false.
Proof.
  revert m. induction w as [|a w IH]; intros m; cbn [tail_bytes String.length]; [lia|]. intros [Ha Hw]%andb_true_iff Hm.
  destruct m as [|m]; [by apply negb_true_iff|]. apply IH; [done|lia].
Qed.

(** ** Where the line is cut *)

Lemma back_up_at line b n :
  (0 < b <= n)%nat -> RuneStart (byte_at b line) = true ->
  (forall m, (b < m <= n)%nat -> RuneStart (byte_at m line) = false) -> back_up line n = b.
Proof.
  intros Hb Hs Hm. induction n as [|n IH]; [lia|]. cbn [back_up].
  destruct (decide (b = S n)) as [->|Hne]; [by rewrite Hs|]. rewrite Hm by lia. apply IH; [lia|]. intros m Hm'. apply Hm. lia.
Qed.

(** The longest prefix of whole runes that fits. *)
Lemma rune_boundary l limit :
  Forall scalar l -> (limit < String.length (encode_runes l))%nat ->
  exists l1 r l2, l = l1 ++ r :: l2 /\ (String.length (encode_runes l1) <= limit < String.length (encode_runes l1) + String.length (encode_rune r))%nat.
Proof.
  intros Hl. revert limit. induction Hl as [|r l Hr Hl IH]; intros limit Hlim; [cbn in Hlim; lia|].
  unfold encode_runes in Hlim. cbn [foldr] in Hlim. fold (encode_runes l) in Hlim. rewrite string_length_app in Hlim.
  destruct (decide (limit < String.length (encode_rune r))%nat) as [Hlt|Hge].
  - exists [], r, l. split; [done|]. cbn. lia.
  - destruct (IH (limit - String.length (encode_rune r))%nat) as (l1 & r' & l2 & -> & H1); [lia|].
    exists (r :: l1), r', l2. split; [done|]. unfold encode_runes at 1 2. cbn [foldr]. fold (encode_runes l1). rewrite string_length_app. lia.
Qed.

Lemma encode_cons r l : encode_runes (r :: l) = encode_rune r +:+ encode_runes l.
Proof. done. Qed.

Lemma cut_at_boundary l limit :
  Forall scalar l -> (4 <= limit < String.length (encode_runes l))%nat ->
  exists l1 l2, l = l1 ++ l2 /\ l1 <> [] /\ l2 <> [] /\ (String.length (encode_runes l1) <= limit)%nat /\
    back_up (encode_runes l) limit = String.length (encode_runes l1).
Proof.
  intros Hl Hlim. destruct (rune_boundary l limit Hl) as (l1 & r & l2 & -> & H1); [lia|].
  apply Forall_app in Hl as [Hl1 [Hr Hl2]%Forall_cons]. destruct (encode_bytes r Hr) as (a & w & He & Ha & Hw & Hlen).
  exists l1, (r :: l2). split; [done|]. rewrite He in H1. cbn [String.length] in H1.
  assert (Hne : l1 <> []) by (intros ->; cbn in H1; lia). split; [done|]. split; [done|]. split; [lia|].
  rewrite encode_runes_app, encode_cons, He. apply back_up_at.
  - lia.
  - rewrite <- (Nat.add_0_r (String.length _)), byte_at_app_r. exact Ha.
  - intros m Hm. replace m with (String.length (encode_runes l1) + S (m - String.length (encode_runes l1) - 1))%nat by lia.
    rewrite byte_at_app_r. rewrite string_app_cons. apply (tail_byte_at w); [done|lia].
Qed.

(** ** The physical lines *)

Definition physical (ps : list (list Z)) : list string :=
  match ps with [] => [] | p :: ps' => encode_runes p :: ((fun q => " " +:+ encode_runes q) <$> ps') end.
Definition with_crlf (l : list string) : string := foldr (fun p acc => p +:+ CRLF +:+ acc) "" l.

(** Whole runes, none empty, within the limits. *)
Definition pieces_of (l : list Z) (first : bool) (ps : list (list Z)) : Prop :=
  concat ps = l /\ Forall (fun p => p <> []) ps /\
  match ps with
  | [] => True
  | p :: ps' => (String.length (encode_runes p) <= if first then 75 else 74)%nat /\ Forall (fun q => String.length (encode_runes q) <= 74)%nat ps'
  end.

Lemma encode_nonnil l : Forall scalar l -> l <> [] -> encode_runes l <> "".
Proof. intros Hl Hne. destruct Hl as [|r l Hr _]; [done|]. destruct (encode_bytes r Hr) as (a & w & He & _). by rewrite encode_cons, He. Qed.

Lemma write_line_pieces fuel l first :
  Forall scalar l -> l <> [] -> (String.length (encode_runes l) < fuel)%nat ->
  exists p ps, pieces_of l first (p :: ps) /\
    write_line fuel first (encode_runes l) =
      Some ((if first then "" else " ") +:+ encode_runes p +:+ CRLF +:+ with_crlf ((fun q => " " +:+ encode_runes q) <$> ps)).
Proof.
  revert l first. induction fuel as [|fuel IH]; intros l first Hl Hne Hf; [lia|]. cbn [write_line].
  rewrite (bool_decide_false (encode_runes l = "")) by by apply encode_nonnil. case_bool_decide as Hfit.
  - exists l, []. split; [|done]. split; [cbn; by rewrite app_nil_r|]. split; [by constructor|]. by split.
  - destruct (cut_at_boundary l (if first then 75 else 74)%nat Hl) as (l1 & l2 & -> & Hn1 & Hn2 & Hle & ->); [destruct first; lia|].
    rewrite encode_runes_app, take_bytes_app, drop_bytes_app in *. apply Forall_app in Hl as [Hl1 Hl2].
    rewrite string_length_app in Hf. assert (0 < String.length (encode_runes l1))%nat.
    { pose proof (encode_nonnil l1 Hl1 Hn1). destruct (encode_runes l1); [done|]. cbn. lia. }
    destruct (IH l2 false Hl2 Hn2) as (p & ps & (Hc & Hnn & Hfirst) & ->); [lia|].
    exists l1, (p :: ps). split.
    + split; [cbn in *; by rewrite Hc|]. split; [by constructor|]. split; [done|]. constructor; apply Hfirst.
    + cbn [fmap option_fmap option_map with_crlf foldr list_fmap]. by rewrite !string_app_assoc.
Qed.

(** More fuel than the line has bytes changes nothing. *)
Lemma writeLine_physical l :
  Forall scalar l -> l <> [] -> exists ps, pieces_of l true ps /\ ps <> [] /\ writeLine (encode_runes l) = Some (with_crlf (physical ps)).
Proof.
  intros Hl Hne. destruct (write_line_pieces (S (String.length (encode_runes l))) l true Hl Hne) as (p & ps & Hp & Hw); [lia|].
  exists (p :: ps). split; [done|]. split; [done|]. exact Hw.
Qed.

(** ** Text that never folds *)

Lemma back_up_zero line n : (forall m, (0 < m <= n)%nat -> RuneStart (byte_at m line) = false) -> back_up line n = 0%nat.
Proof. induction n as [|n IH]; intros Hm; [done|]. cbn [back_up]. rewrite Hm by lia. apply IH. intros m Hm'. apply Hm. lia. Qed.

Lemma drop_zero s : drop_bytes 0 s = s.
Proof. unfold drop_bytes. rewrite Nat.sub_0_r. apply substring_all. Qed.

(** A byte followed by too many continuation bytes: the loop writes empty
    physical lines for ever. *)
Lemma hostile_line a w fuel first :
  tail_bytes w = true -> (75 <= String.length w)%nat -> write_line fuel first (String a w) = None.
Proof.
  intros Hw Hlen. revert first. induction fuel as [|fuel IH]; intros first; [done|]. cbn [write_line].
  rewrite (bool_decide_false (String a w = "")) by done. rewrite bool_decide_false by (destruct first; cbn [String.length]; lia).
  rewrite back_up_zero; [by rewrite drop_zero, IH|]. intros m Hm. destruct m as [|m]; [lia|].
  change (byte_at (S m) (String a w)) with (byte_at m w). rewrite <- (string_app_nil_r w).
  apply tail_byte_at; [done|]. destruct first; lia.
Qed.

(** ** Unfolding *)

Definition plain_line (s : string) : Prop := no_byte (byte_of 13) s = true /\ no_byte (byte_of 10) s = true.

Lemma Replace_other ps a s :
  Forall (fun p => exists b t, p.1 = String b t /\ b <> a) ps -> Replace ps (String a s) = String a (Replace ps s).
Proof.
  intros Hps. unfold Replace. cbn [replace_from]. assert (first_match ps (String a s) = None) as ->; [|done].
  unfold first_match. induction Hps as [|p ps (b & t & Hp & Hb) _ IH]; [done|]. cbn [find]. rewrite Hp. cbn [has_prefix].
  by rewrite bool_decide_false by done.
Qed.
Lemma Replace_others ps w s :
  Forall (fun p => exists b t, p.1 = String b t /\ no_byte b w = true) ps -> Replace ps (w +:+ s) = w +:+ Replace ps s.
Proof.
  intros Hps. induction w as [|a w IH]; [done|]. rewrite !string_app_cons. rewrite Replace_other.
  - rewrite IH; [done|]. eapply Forall_impl; [exact Hps|]. intros p (b & t & Hp & Hb). exists b, t. split; [done|].
    cbn [no_byte] in Hb. by apply andb_true_iff in Hb as [_ ?].
  - eapply Forall_impl; [exact Hps|]. intros p (b & t & Hp & Hb). exists b, t. split; [done|]. cbn [no_byte] in Hb.
    apply andb_true_iff in Hb as [Hb _]. apply negb_true_iff, bool_decide_eq_false in Hb. congruence.
Qed.
Lemma Replace_match ps old new s :
  first_match ps (old +:+ s) = Some (old, new) -> old <> "" -> Replace ps (old +:+ s) = new +:+ Replace ps s.
Proof.
  intros Hf Hne. destruct old as [|a old]; [done|]. unfold Replace. rewrite string_app_cons in *. cbn [replace_from]. rewrite Hf.
  cbn [String.length]. rewrite Nat.sub_1_r. cbn [pred]. by rewrite replace_skip.
Qed.

Definition with_lf (l : list string) : string := foldr (fun p acc => p +:+ LF +:+ acc) "" l.

Lemma crlf_to_lf l : Forall plain_line l -> Replace [(CRLF, LF)] (with_crlf l) = with_lf l.
Proof.
  induction 1 as [|p l [Hp _] _ IH]; [done|]. cbn [with_crlf with_lf foldr].
  rewrite Replace_others by (constructor; [by exists (byte_of 13), LF|done]). f_equal.
  rewrite (Replace_match _ CRLF LF); [f_equal; exact IH|by destruct (foldr _ _ l)|done].
Qed.
Lemma no_cr l : Forall plain_line l -> Replace [(CR, LF)] (with_lf l) = with_lf l.
Proof.
  induction 1 as [|p l [Hp _] _ IH]; [done|]. cbn [with_lf foldr]. unfold with_lf in IH.
  rewrite Replace_others by (constructor; [by exists (byte_of 13), ""|done]). f_equal.
  change LF with (String (byte_of 10) "") at 2 4. rewrite !string_app_cons. rewrite Replace_other; [f_equal; exact IH|].
  constructor; [by exists (byte_of 13), ""|done].
Qed.
Lemma split_at_lf p s : no_byte (byte_of 10) p = true -> split_byte (byte_of 10) (p +:+ LF +:+ s) = p :: split_byte (byte_of 10) s.
Proof.
  induction p as [|a p IH].
  - intros _. change ("" +:+ LF +:+ s) with (String (byte_of 10) s). cbn [split_byte]. by rewrite bool_decide_true.
  - cbn [no_byte]. intros [Ha Hp]%andb_true_iff. apply negb_true_iff, bool_decide_eq_false in Ha.
    rewrite string_app_cons. cbn [split_byte]. by rewrite bool_decide_false, (IH Hp) by done.
Qed.
Lemma split_with_lf l : Forall plain_line l -> split_byte (byte_of 10) (with_lf l) = l ++ [""].
Proof.
  induction 1 as [|p l [_ Hp] _ IH]; [done|]. cbn [with_lf foldr app]. rewrite (split_at_lf p _ Hp). f_equal. exact IH.
Qed.

Lemma physical_lines_crlf l : Forall plain_line l -> physical_lines (with_crlf l) = l ++ [""].
Proof. intros Hl. unfold physical_lines. by rewrite crlf_to_lf, no_cr, split_with_lf. Qed.

Lemma with_crlf_app l m : with_crlf (l ++ m) = with_crlf l +:+ with_crlf m.
Proof. induction l as [|p l IH]; [done|]. cbn [app with_crlf foldr]. unfold with_crlf in IH. by rewrite IH, !string_app_assoc. Qed.

(** A logical line starts with no blank. *)
Definition unblank (s : string) : Prop := match s with "" => False | String a _ => a <> " "%char /\ a <> byte_of 9 end.

Lemma unfold_continuations out last ps :
  foldl unfold_line (last :: out) ((fun q => " " +:+ encode_runes q) <$> ps) = (last +:+ encode_runes (concat ps)) :: out.
Proof.
  revert last. induction ps as [|p ps IH]; intros last; cbn [fmap list_fmap foldl concat].
  - by rewrite string_app_nil_r.
  - change (" " +:+ encode_runes p) with (String " " (encode_runes p)). cbn [unfold_line]. rewrite (bool_decide_true (" "%char = " "%char)) by done.
    cbn [orb]. by rewrite IH, encode_runes_app, string_app_assoc.
Qed.

Lemma unfold_physical out ps :
  ps <> [] -> Forall (fun p => p <> []) ps -> Forall scalar (concat ps) -> unblank (encode_runes (concat ps)) ->
  foldl unfold_line out (physical ps) = encode_runes (concat ps) :: out.
Proof.
  intros Hne Hnn Hsc Hb. destruct ps as [|p ps]; [done|]. cbn [physical foldl concat] in *. apply Forall_cons in Hnn as [Hp _].
  rewrite encode_runes_app in *. apply Forall_app in Hsc as [Hsp _]. pose proof (encode_nonnil p Hsp Hp).
  destruct (encode_runes p) as [|a w] eqn:He; [done|]. rewrite string_app_cons in Hb. destruct Hb as [Hb1 Hb2].
  assert (unfold_line out (String a w) = String a w :: out) as ->.
  { destruct out as [|l out]; [done|]. cbn [unfold_line]. by rewrite (bool_decide_false (a = " "%char)), (bool_decide_false (a = byte_of 9)). }
  by rewrite unfold_continuations.
Qed.

(** A line of text that can be folded: whole runes, and neither a line break
    in it nor a blank before it. *)
Definition foldable (s : string) : Prop :=
  exists l, s = encode_runes l /\ Forall scalar l /\ unblank s /\ plain_line s.

Lemma no_byte_pieces c ps : Forall scalar (concat ps) -> no_byte c (encode_runes (concat ps)) = true -> Forall (fun p => no_byte c (encode_runes p) = true) ps.
Proof.
  induction ps as [|p ps IH]; cbn [concat]; [constructor|]. rewrite encode_runes_app, no_byte_app, andb_true_iff, Forall_app. intros [_ H] [H1 H2].
  constructor; auto.
Qed.

Lemma plain_physical ps : Forall scalar (concat ps) -> plain_line (encode_runes (concat ps)) -> Forall plain_line (physical ps).
Proof.
  intros Hs [H1 H2]. pose proof (no_byte_pieces _ ps Hs H1) as F1. pose proof (no_byte_pieces _ ps Hs H2) as F2.
  destruct ps as [|p ps]; [constructor|]. cbn [physical]. apply Forall_cons in F1 as [? F1], F2 as [? F2]. constructor; [by split|].
  apply Forall_fmap. rewrite Forall_forall in *. intros q Hq. split; rewrite no_byte_app; cbn [compose]; [by rewrite F1|by rewrite F2].
Qed.

Lemma foldable_written s :
  foldable s -> exists ps, writeLine s = Some (with_crlf ps) /\ Forall plain_line ps /\
    Forall (fun p => (String.length p <= 75)%nat) ps /\ forall out, foldl unfold_line out ps = s :: out.
Proof.
  intros (l & -> & Hl & Hb & Hp). assert (Hne : l <> []) by (intros ->; done).
  destruct (writeLine_physical l Hl Hne) as (ps & (Hc & Hnn & Hlim) & Hps & ->). subst l. exists (physical ps). split; [done|].
  split; [by apply plain_physical|]. split.
  - destruct ps as [|p ps]; [constructor|]. destruct Hlim as [Hl1 Hl2]. cbn [physical]. constructor; [done|]. apply Forall_fmap.
    eapply Forall_impl; [exact Hl2|]. intros q Hq. exact (le_n_S _ _ Hq).
  - intros out. by apply unfold_physical.
Qed.

(** All the lines of a text. *)
Lemma foldable_all ls :
  Forall foldable ls -> exists ps, foldr (fun l acc => w ← writeLine l; rest ← acc; Some (w +:+ rest)) (Some "") ls = Some (with_crlf ps) /\
    Forall plain_line ps /\ Forall (fun p => (String.length p <= 75)%nat) ps /\ forall out, foldl unfold_line out ps = reverse ls ++ out.
Proof.
  induction 1 as [|s ls Hs _ (ps & Hw & Hp & Hl & Hu)]; [by exists []|].
  destruct (foldable_written s Hs) as (qs & Hw' & Hp' & Hl' & Hu'). exists (qs ++ ps). split; [|split; [|split]].
  - cbn [foldr]. rewrite Hw'. cbn [mbind option_bind]. rewrite Hw. cbn. by rewrite with_crlf_app.
  - by apply Forall_app.
  - by apply Forall_app.
  - intros out. by rewrite foldl_app, Hu', Hu, reverse_cons, <- app_assoc.
Qed.

Lemma unfold_written ls ps : Forall plain_line ps -> (forall out, foldl unfold_line out ps = reverse ls ++ out) -> unfold_ (with_crlf ps) = ls.
Proof.
  intros Hp Hu. unfold unfold_. rewrite physical_lines_crlf, foldl_app, Hu by done. cbn [foldl]. rewrite app_nil_r.
  assert (forall out, unfold_line out "" = out) as -> by (by intros [|]). apply reverse_involutive.
Qed.

(** ** Reading and writing *)

#[local] Open Scope Z_scope.

(** ** Cutting at a byte *)

Lemma cut_byte_at c w s : no_byte c w = true -> cut_byte c (w +:+ String c s) = Some (w, s).
Proof.
  induction w as [|a w IH].
  - intros _. change ("" +:+ String c s) with (String c s). cbn [cut_byte]. by rewrite bool_decide_true.
  - cbn [no_byte]. intros [Ha Hw]%andb_true_iff. apply negb_true_iff, bool_decide_eq_false in Ha. rewrite string_app_cons. cbn [cut_byte].
    by rewrite bool_decide_false, (IH Hw) by done.
Qed.
Lemma cut_byte_none c w : no_byte c w = true -> cut_byte c w = None.
Proof.
  induction w as [|a w IH]; [done|]. cbn [no_byte cut_byte]. intros [Ha Hw]%andb_true_iff. apply negb_true_iff, bool_decide_eq_false in Ha.
  by rewrite bool_decide_false, (IH Hw) by done.
Qed.
Lemma any_byte_false s cs : any_byte s cs = false -> forall c, c ∈ cs -> no_byte c s = true.
Proof.
  unfold any_byte. induction s as [|a s IH]; [done|]. cbn [chars existsb no_byte]. rewrite orb_false_iff, bool_decide_eq_false. intros [Ha Hs] c Hc.
  rewrite (IH Hs c Hc), andb_true_r. apply negb_true_iff, bool_decide_eq_false. by intros ->.
Qed.
Lemma any_byte_no s cs : (forall c, c ∈ cs -> no_byte c s = true) -> any_byte s cs = false.
Proof.
  unfold any_byte. induction s as [|a s IH]; [done|]. cbn [chars existsb]. intros H. rewrite IH.
  - rewrite orb_false_r. apply bool_decide_eq_false. intros Ha. specialize (H a Ha). cbn [no_byte] in H. by rewrite bool_decide_true in H.
  - intros c Hc. specialize (H c Hc). cbn [no_byte] in H. by apply andb_true_iff in H as [_ ?].
Qed.

(** ** Parameters *)

Definition value_ok (v : string) : Prop := no_byte DQ v = true.

(** What ends a value: a comma, a semicolon, or the end. *)
Definition separated (t : string) : Prop := match t with "" => True | String a _ => a = ","%char \/ a = ";"%char end.

Lemma until_separator_at v t :
  no_byte "," v = true -> no_byte ";" v = true -> separated t -> until_separator (v +:+ t) = (v, t).
Proof.
  induction v as [|a v IH]; cbn [no_byte].
  - intros _ _ Ht. change ("" +:+ t) with t. destruct t as [|b t]; [done|]. cbn [until_separator]. by destruct Ht as [-> | ->].
  - intros [Ha1 Hv1]%andb_true_iff [Ha2 Hv2]%andb_true_iff Ht. apply negb_true_iff, bool_decide_eq_false in Ha1, Ha2. rewrite string_app_cons.
    cbn [until_separator]. by rewrite (bool_decide_false _ Ha1), (bool_decide_false _ Ha2), (IH Hv1 Hv2 Ht).
Qed.

Lemma param_value_at v t : value_ok v -> separated t -> param_value (quoted_value v +:+ t) = Ok (v, t).
Proof.
  intros Hv Ht. unfold quoted_value. destruct (any_byte v _) eqn:Hq.
  - rewrite string_app_cons, string_app_assoc. change (String DQ "" +:+ t) with (String DQ t). cbn [param_value].
    rewrite bool_decide_true by done. by rewrite (cut_byte_at DQ v t Hv).
  - assert (Hs : until_separator (v +:+ t) = (v, t)).
    { apply until_separator_at; [| |done]; apply (any_byte_false v _ Hq); set_solver. }
    unfold param_value. destruct (v +:+ t) as [|a s] eqn:He; [by rewrite <- Hs|]. rewrite bool_decide_false; [by rewrite Hs|].
    intros ->. destruct v as [|b v].
    + change ("" +:+ t) with t in He. subst t. by destruct Ht.
    + rewrite string_app_cons in He. injection He as -> _. unfold value_ok in Hv. cbn [no_byte] in Hv. by rewrite bool_decide_true in Hv.
Qed.

Lemma join_cons x y l sep : join (x :: y :: l) sep = x +:+ sep +:+ join (y :: l) sep.
Proof. done. Qed.

Lemma param_values_at fuel vs acc t :
  vs <> [] -> Forall value_ok vs -> (t = "" \/ exists t', t = String ";" t') -> (List.length vs <= fuel)%nat ->
  param_values fuel (join (quoted_value <$> vs) "," +:+ t) acc = Some (Ok (acc ++ vs, t)).
Proof.
  intros Hne Hvs Ht. revert fuel acc. induction Hvs as [|v vs Hv Hvs IH]; [done|]. intros fuel acc Hf.
  destruct fuel as [|fuel]; [cbn in Hf; lia|]. assert (Hst : separated t) by (destruct Ht as [->|(t' & ->)]; [done|by right]).
  destruct vs as [|w vs]; cbn [fmap list_fmap].
  - cbn [join param_values]. rewrite param_value_at by done. destruct Ht as [->|(t' & ->)]; [done|].
    rewrite (bool_decide_false (";"%char = ","%char)) by done. done.
  - rewrite join_cons, !string_app_assoc. change ("," +:+ ?x) with (String "," x). cbn [param_values].
    rewrite param_value_at by (try done; by left). rewrite bool_decide_true by done.
    change (quoted_value w :: list_fmap _ _ quoted_value vs) with (quoted_value <$> (w :: vs)). rewrite IH; [|done|cbn in *; lia].
    by rewrite <- app_assoc.
Qed.

Section spec.
Context `{U : Unicode}.

(** ** Well-formed calendars *)

(** Whole runes, no line break. *)
Definition utf8 (s : string) : Prop := exists l, s = encode_runes l /\ Forall scalar l.
Definition text_ok (s : string) : Prop := utf8 s /\ plain_line s.

Definition param_ok (q : Param) : Prop :=
  ParamName q <> "" /\ to_upper (ParamName q) = ParamName q /\ text_ok (ParamName q) /\
  Forall (fun c => no_byte c (ParamName q) = true) ["="%char; ";"%char; ":"%char; DQ] /\
  ParamValues q <> [] /\ Forall (fun v => value_ok v /\ text_ok v) (ParamValues q).

Definition property_ok (p : Property) : Prop :=
  to_upper (trim_space (PropName p)) = PropName p /\ unblank (PropName p) /\ text_ok (PropName p) /\
  Forall (fun c => no_byte c (PropName p) = true) [";"%char; ":"%char; DQ] /\ PropName p <> "BEGIN" /\ PropName p <> "END" /\
  Forall param_ok (PropParams p) /\ text_ok (PropValue p).

Fixpoint component_ok (c : Component) : Prop :=
  match c with
  | mkComponent name props children =>
    to_upper name = name /\ text_ok name /\ Forall property_ok props /\
    (fix all l := match l with [] => True | ch :: l' => component_ok ch /\ all l' end) children
  end.

Fixpoint depth (c : Component) : nat := match c with mkComponent _ _ children => S (foldr (fun ch acc => Nat.max (depth ch) acc) 0%nat children) end.

Definition calendar_ok (c : Component) : Prop :=
  component_ok c /\ (depth c <= maxDepth)%nat /\ Z.of_nat (List.length (component_lines c)) <= maxLines.

Lemma component_ind' (P : Component -> Prop) :
  (forall name props children, Forall P children -> P (mkComponent name props children)) -> forall c, P c.
Proof.
  intros H. fix IH 1. intros [name props children]. apply H. induction children as [|ch l IHl]; constructor; [apply IH|exact IHl].
Qed.

Lemma children_ok name props children :
  component_ok (mkComponent name props children) <->
  to_upper name = name /\ text_ok name /\ Forall property_ok props /\ Forall component_ok children.
Proof.
  cbn [component_ok]. assert (forall l, (fix all l := match l with [] => True | ch :: l' => component_ok ch /\ all l' end) l <-> Forall component_ok l) as Hl.
  { induction l as [|ch l IH]; [by split; [constructor|]|]. by rewrite Forall_cons, <- IH. }
  by rewrite Hl.
Qed.

(** ** One line *)

Definition param_body (q : Param) : string := ParamName q +:+ "=" +:+ join (quoted_value <$> ParamValues q) ",".

Lemma join_longer (f : string -> string) vs sep : vs <> [] -> sep <> "" -> (List.length vs <= S (String.length (join (f <$> vs) sep)))%nat.
Proof.
  intros Hne Hsep. destruct vs as [|v vs]; [done|]. clear Hne. revert v. induction vs as [|w vs IH]; intros v; [cbn; lia|].
  cbn [fmap list_fmap]. rewrite join_cons, !string_length_app. specialize (IH w). cbn [fmap list_fmap List.length] in *.
  destruct sep; [done|]. cbn [String.length]. lia.
Qed.

Lemma split_params_step fuel q t acc :
  param_ok q -> (t = "" \/ exists t', t = String ";" t') ->
  split_params (S fuel) (param_body q +:+ t) acc = split_params fuel (trim_semicolon t) (acc ++ [q]).
Proof.
  intros (Hne & Hup & _ & Hc & Hvne & Hv) Ht. rewrite !Forall_cons in Hc. destruct Hc as (Heq & _).
  assert (Hv' : Forall value_ok (ParamValues q)) by (eapply Forall_impl; [exact Hv|]; by intros v [? _]).
  assert (Hb : param_body q +:+ t = ParamName q +:+ String "=" (join (quoted_value <$> ParamValues q) "," +:+ t))
    by (unfold param_body; by rewrite !string_app_assoc).
  rewrite Hb. cbn [split_params]. rewrite (cut_byte_at "=" _ _ Heq). destruct q as [n vs]. cbn [ParamName ParamValues] in *.
  destruct n as [|a n]; [done|]. rewrite bool_decide_false by done.
  rewrite param_values_at; [by rewrite Hup|done|done|done|].
  pose proof (join_longer quoted_value vs "," Hvne ltac:(done)). rewrite string_length_app. lia.
Qed.

Lemma split_params_at fuel params acc :
  Forall param_ok params -> (List.length params < fuel)%nat ->
  split_params fuel (join (param_body <$> params) ";") acc = Some (Ok (acc ++ params)).
Proof.
  intros Hps. revert fuel acc. induction Hps as [|q params Hq Hps IH]; intros fuel acc Hf; (destruct fuel as [|fuel]; [cbn in Hf; lia|]).
  { cbn. by rewrite app_nil_r. }
  cbn [fmap list_fmap List.length] in *. destruct params as [|q' params].
  - cbn [join fmap list_fmap]. rewrite <- (string_app_nil_r (param_body q)), split_params_step by eauto.
    destruct fuel as [|fuel]; [lia|]. done.
  - cbn [fmap list_fmap] in *. rewrite join_cons. change (";" +:+ ?x) with (String ";" x). rewrite split_params_step by eauto.
    cbn [trim_semicolon]. rewrite bool_decide_true by done. rewrite IH by lia. by rewrite <- app_assoc.
Qed.

Lemma splitParams_at params : params <> [] -> Forall param_ok params -> splitParams (join (param_body <$> params) ";") = Some (Ok params).
Proof.
  intros Hne Hps. unfold splitParams. apply (split_params_at _ params []); [done|].
  assert (Hl : forall q l, Forall param_ok (q :: l) -> (List.length (q :: l) < S (String.length (join (param_body <$> (q :: l)) ";")))%nat).
  { clear. intros q l. revert q. induction l as [|r l IH]; intros q Hq.
    - cbn. unfold param_body. rewrite !string_length_app. cbn [String.length]. lia.
    - cbn [fmap list_fmap]. rewrite join_cons, !string_length_app. apply Forall_cons in Hq as [_ Hq]. specialize (IH r Hq).
      cbn [fmap list_fmap List.length] in *. cbn [String.length]. lia. }
  destruct params as [|q params]; [done|]. by apply Hl.
Qed.

(** ** Where the value starts *)

Definition before (w : string) (o : option (string * string)) : option (string * string) := (fun p => (w +:+ p.1, p.2)) <$> o.
Lemma before_before v w o : before v (before w o) = before (v +:+ w) o.
Proof. destruct o as [[a b]|]; cbn; [by rewrite string_app_assoc|done]. Qed.
Lemma before_cons a o : (fun p : string * string => (String a p.1, p.2)) <$> o = before (String a "") o.
Proof. done. Qed.

Lemma find_colon_skip w s b : no_byte ":" w = true -> no_byte DQ w = true -> find_colon b (w +:+ s) = before w (find_colon b s).
Proof.
  induction w as [|a w IH]; cbn [no_byte].
  - intros _ _. change ("" +:+ s) with s. by destruct (find_colon b s) as [[? ?]|].
  - intros [Ha1 Hw1]%andb_true_iff [Ha2 Hw2]%andb_true_iff. apply negb_true_iff, bool_decide_eq_false in Ha1, Ha2.
    rewrite string_app_cons. cbn [find_colon]. rewrite (bool_decide_false _ Ha1), (bool_decide_false _ Ha2). cbn [andb].
    by rewrite (IH Hw1 Hw2), before_cons, before_before.
Qed.
Lemma find_colon_inside w s : no_byte DQ w = true -> find_colon true (w +:+ s) = before w (find_colon true s).
Proof.
  induction w as [|a w IH]; cbn [no_byte].
  - intros _. change ("" +:+ s) with s. by destruct (find_colon true s) as [[? ?]|].
  - intros [Ha Hw]%andb_true_iff. apply negb_true_iff, bool_decide_eq_false in Ha.
    rewrite string_app_cons. cbn [find_colon]. rewrite (bool_decide_false _ Ha), andb_false_r. by rewrite (IH Hw), before_cons, before_before.
Qed.
Lemma find_colon_value v s : value_ok v -> find_colon false (quoted_value v +:+ s) = before (quoted_value v) (find_colon false s).
Proof.
  intros Hv. unfold quoted_value. destruct (any_byte v _) eqn:Hq.
  - rewrite string_app_cons, string_app_assoc. change (String DQ "" +:+ s) with (String DQ s). cbn [find_colon].
    rewrite (bool_decide_false (DQ = ":"%char)), (bool_decide_true (DQ = DQ)) by done. cbn [andb negb]. rewrite (find_colon_inside v _ Hv).
    cbn [find_colon]. rewrite (bool_decide_false (DQ = ":"%char)), (bool_decide_true (DQ = DQ)) by done. cbn [andb negb].
    rewrite !before_cons, !before_before. done.
  - apply find_colon_skip; [|done]. apply (any_byte_false v _ Hq). set_solver.
Qed.
Lemma find_colon_join vs s :
  Forall value_ok vs -> find_colon false (join (quoted_value <$> vs) "," +:+ s) = before (join (quoted_value <$> vs) ",") (find_colon false s).
Proof.
  induction 1 as [|v vs Hv Hvs IH].
  - change (join (quoted_value <$> []) "," +:+ s) with s. by destruct (find_colon false s) as [[? ?]|].
  - destruct vs as [|w vs]; cbn [fmap list_fmap] in *; [by apply find_colon_value|].
    rewrite join_cons, !string_app_assoc. rewrite (find_colon_value v _ Hv), (find_colon_skip "," _ false), IH, !before_before by done.
    by rewrite !string_app_assoc.
Qed.
Lemma find_colon_params params s :
  Forall param_ok params ->
  find_colon false (foldr (fun q acc => param_text q +:+ acc) "" params +:+ s)
  = before (foldr (fun q acc => param_text q +:+ acc) "" params) (find_colon false s).
Proof.
  induction 1 as [|q params Hq _ IH].
  - change (foldr _ "" [] +:+ s) with s. by destruct (find_colon false s) as [[? ?]|].
  - cbn [foldr]. destruct Hq as (_ & _ & _ & Hc & _ & Hv). rewrite !Forall_cons in Hc. destruct Hc as (_ & _ & Hcol & Hdq & _).
    assert (Hv' : Forall value_ok (ParamValues q)) by (eapply Forall_impl; [exact Hv|]; by intros v [? _]).
    unfold param_text at 1 3. rewrite !string_app_assoc.
    rewrite (find_colon_skip ";" _ false), (find_colon_skip (ParamName q)), (find_colon_skip "=" _ false) by done.
    by rewrite (find_colon_join _ _ Hv'), IH, !before_before, !string_app_assoc.
Qed.

Lemma params_text q params : foldr (fun q acc => param_text q +:+ acc) "" (q :: params) = String ";" (join (param_body <$> (q :: params)) ";").
Proof.
  revert q. induction params as [|r params IH]; intros q.
  - cbn [foldr join fmap list_fmap]. by rewrite string_app_nil_r.
  - cbn [fmap list_fmap]. rewrite join_cons. cbn [foldr] in *. rewrite IH.
    change (param_text q) with (String ";" (param_body q)). by rewrite string_app_cons.
Qed.

Lemma parseLine_line p : property_ok p -> parseLine (line p) = Some (Ok p).
Proof.
  intros (Hup & Hub & _ & Hc & _ & _ & Hps & _). rewrite !Forall_cons in Hc. destruct Hc as (Hsemi & Hcol & Hdq & _).
  destruct p as [n ps v]. unfold line. cbn [PropName PropParams PropValue] in *. unfold parseLine.
  rewrite (find_colon_skip n _ false Hcol Hdq), (find_colon_params ps _ Hps).
  change (":" +:+ v) with (String ":" v). cbn [find_colon]. rewrite bool_decide_true by done. cbn [andb negb].
  unfold before. cbn [fmap option_fmap option_map fst snd]. rewrite string_app_nil_r.
  assert (Hne : n <> "") by (by intros ->). assert (Hhd : exists a w, n +:+ foldr (fun q acc => param_text q +:+ acc) "" ps = String a w).
  { destruct n as [|a n]; [done|]. by eexists _, _. }
  destruct Hhd as (a & w & Hhd). rewrite Hhd. cbv iota. rewrite <- Hhd. clear Hhd a w. destruct ps as [|q ps].
  - cbn [foldr]. rewrite string_app_nil_r, (cut_byte_none ";" n Hsemi). cbn [default id]. cbv beta iota zeta delta [id]. by rewrite Hup, (bool_decide_false _ Hne), bool_decide_true.
  - rewrite (params_text q ps), (cut_byte_at ";" n _ Hsemi). cbn [default id]. cbv beta iota zeta delta [id]. rewrite Hup, (bool_decide_false _ Hne).
    rewrite splitParams_at by done. rewrite bool_decide_false; [done|]. apply Forall_cons in Hps as [(Hnq & _) _]. unfold param_body.
    destruct ps; cbn [fmap list_fmap]; rewrite ?join_cons; cbn [join]; by destruct (ParamName q).
Qed.

(** ** What is written can be folded *)

Lemma utf8_app s t : utf8 s -> utf8 t -> utf8 (s +:+ t).
Proof. intros (l & -> & Hl) (m & -> & Hm). exists (l ++ m). by rewrite encode_runes_app, Forall_app. Qed.
Lemma utf8_ascii s : all_bytes (fun b => b <? 128) s = true -> utf8 s.
Proof.
  intros Hs. exists (runes s). split; [|apply runes_scalar]. rewrite <- (list_fmap_id (runes s)). symmetry.
  apply (map_runes_fixed id (fun b => b <? 128)); [|done]. intros b Hb. by apply Z.ltb_lt in Hb.
Qed.
Lemma text_app s t : text_ok s -> text_ok t -> text_ok (s +:+ t).
Proof. intros [Hs [H1 H2]] [Ht [H3 H4]]. split; [by apply utf8_app|]. split; rewrite no_byte_app; [by rewrite H1, H3|by rewrite H2, H4]. Qed.
Lemma text_ascii s : all_bytes (fun b => (b <? 128) && negb (b =? 13) && negb (b =? 10)) s = true -> text_ok s.
Proof.
  intros Hs. split; [apply utf8_ascii; eapply all_bytes_impl; [|exact Hs]; intros b; by rewrite !andb_true_iff; intros [[? _] _]|].
  split; (induction s as [|a s IH]; [done|]; cbn [all_bytes] in Hs; apply andb_true_iff in Hs as [Ha Hs]; cbn [no_byte]; rewrite (IH Hs), andb_true_r;
    apply negb_true_iff, bool_decide_eq_false; intros ->; done).
Qed.
#[local] Hint Resolve text_app text_ascii : core.

Lemma quoted_value_text v : text_ok v -> text_ok (quoted_value v).
Proof.
  intros Hv. unfold quoted_value. destruct (any_byte _ _); [|done].
  change (String DQ (v +:+ String DQ "")) with (String DQ "" +:+ v +:+ String DQ ""). auto.
Qed.
Lemma join_text vs sep : text_ok sep -> Forall text_ok vs -> text_ok (join vs sep).
Proof.
  intros Hsep. induction 1 as [|v vs Hv Hvs IH]; [by apply text_ascii|]. destruct vs as [|w vs]; [done|]. rewrite join_cons. auto.
Qed.
Lemma param_text_ok q : param_ok q -> text_ok (param_text q).
Proof.
  intros (_ & _ & Hn & _ & _ & Hv). unfold param_text. repeat apply text_app; [by apply text_ascii|done|by apply text_ascii|].
  apply join_text; [by apply text_ascii|]. apply Forall_fmap. eapply Forall_impl; [exact Hv|]. intros v [_ H]. by apply quoted_value_text.
Qed.
Lemma params_text_ok params : Forall param_ok params -> text_ok (foldr (fun q acc => param_text q +:+ acc) "" params).
Proof. induction 1 as [|q l Hq _ IH]; [by apply text_ascii|]. cbn [foldr]. apply text_app; [by apply param_text_ok|done]. Qed.

Lemma foldable_text s : unblank s -> text_ok s -> foldable s.
Proof. intros Hb [(l & -> & Hl) Hp]. by exists l. Qed.

Lemma line_foldable p : property_ok p -> foldable (line p).
Proof.
  intros (_ & Hub & Hn & _ & _ & _ & Hps & Hv). unfold line. apply foldable_text.
  - destruct (PropName p) as [|a n]; [done|]. exact Hub.
  - repeat apply text_app; [done|by apply params_text_ok|by apply text_ascii|done].
Qed.

Lemma begin_foldable n : text_ok n -> foldable ("BEGIN:" +:+ n).
Proof. intros Hn. apply foldable_text; [done|]. apply text_app; [by apply text_ascii|done]. Qed.
Lemma end_foldable n : text_ok n -> foldable ("END:" +:+ n).
Proof. intros Hn. apply foldable_text; [done|]. apply text_app; [by apply text_ascii|done]. Qed.

Lemma property_writable p : property_ok p -> writable p = true.
Proof.
  intros (_ & _ & [_ [Hn1 Hn2]] & Hc & _ & _ & _ & [_ [Hv1 Hv2]]). rewrite !Forall_cons in Hc. destruct Hc as (Hsemi & Hcol & _).
  unfold writable. rewrite !any_byte_no; [done| |]; intros c Hc; repeat (apply elem_of_cons in Hc as [->|Hc]; [done|]); by apply not_elem_of_nil in Hc.
Qed.
Lemma filter_writable ps : Forall property_ok ps -> filter (fun p => writable p = true) ps = ps.
Proof. induction 1 as [|p ps Hp _ IH]; [done|]. rewrite filter_cons_True by by apply property_writable. by rewrite IH. Qed.

Lemma component_foldable c : component_ok c -> Forall foldable (component_lines c).
Proof.
  induction c as [n ps ch IH] using component_ind'. rewrite children_ok. intros (_ & Hn & Hps & Hch). cbn [component_lines].
  rewrite filter_writable by done. constructor; [by apply begin_foldable|]. rewrite !Forall_app. split; [|split].
  - apply Forall_fmap. eapply Forall_impl; [exact Hps|]. intros p. apply line_foldable.
  - clear -IH Hch. induction IH as [|c l Hc _ IHl]; [constructor|]. apply Forall_cons in Hch as [? ?]. cbn [flat_map]. apply Forall_app. auto.
  - constructor; [by apply end_foldable|constructor].
Qed.

(** ** Reading a component *)

Lemma parse_begin n : parseLine ("BEGIN:" +:+ n) = Some (Ok (mkProperty "BEGIN" [] n)).
Proof. reflexivity. Qed.
Lemma parse_end n : parseLine ("END:" +:+ n) = Some (Ok (mkProperty "END" [] n)).
Proof. reflexivity. Qed.

Lemma read_cons l ls s p s' :
  parseLine l = Some (Ok p) -> read_prop p s = Ok s' -> read_lines (l :: ls) s = read_lines ls s'.
Proof. intros Hl Hp. cbn [read_lines]. by rewrite Hl, Hp. Qed.

Lemma read_props ps n qs ch st r ls :
  Forall property_ok ps ->
  read_lines ((line <$> ps) ++ ls) (mkReading (mkComponent n qs ch :: st) r) = read_lines ls (mkReading (mkComponent n (qs ++ ps) ch :: st) r).
Proof.
  intros Hps. revert qs. induction Hps as [|p ps Hp _ IH]; intros qs; [by rewrite app_nil_r|]. cbn [fmap list_fmap app].
  erewrite read_cons; [|by apply parseLine_line|].
  - change ((list_fmap Property string line ps) ++ ls) with ((line <$> ps) ++ ls). rewrite (IH (qs ++ [p])). by rewrite <- app_assoc.
  - destruct Hp as (_ & _ & _ & _ & Hb & He & _). unfold read_prop. by rewrite (bool_decide_false _ Hb), (bool_decide_false _ He).
Qed.

(** What closing a component leaves. *)
Definition attach (c : Component) (s : reading) : reading :=
  match stack s with [] => mkReading [] (Some c) | parent :: below => mkReading (add_child c parent :: below) (root s) end.

Lemma read_component c s ls :
  component_ok c -> (List.length (stack s) + depth c <= maxDepth)%nat -> (stack s = [] -> root s = None) ->
  read_lines (component_lines c ++ ls) s = read_lines ls (attach c s).
Proof.
  revert s ls. induction c as [n ps ch IH] using component_ind'. intros s ls Hok Hd Hr.
  apply children_ok in Hok as (Hup & Hn & Hps & Hch). cbn [component_lines depth] in *. rewrite filter_writable by done.
  cbn [app]. erewrite read_cons; [|apply parse_begin|].
  2: { unfold read_prop. cbn [PropName]. rewrite bool_decide_true by done. rewrite bool_decide_false by lia.
       rewrite (proj2 (andb_false_iff _ _)); [done|]. destruct (stack s); [right; by rewrite Hr|by left]. }
  cbn [PropValue]. rewrite Hup, <- app_assoc, read_props by done. rewrite <- app_assoc. cbn [app].
  assert (Hkids : forall chs, Forall (fun c => forall s ls, component_ok c -> (List.length (stack s) + depth c <= maxDepth)%nat -> (stack s = [] -> root s = None) ->
      read_lines (component_lines c ++ ls) s = read_lines ls (attach c s)) chs -> Forall component_ok chs ->
      (List.length (stack s) + S (foldr (fun ch acc => Nat.max (depth ch) acc) 0%nat chs) <= maxDepth)%nat ->
      forall done_ ls, read_lines (flat_map component_lines chs ++ ls) (mkReading (mkComponent n ps done_ :: stack s) (root s)) =
        read_lines ls (mkReading (mkComponent n ps (done_ ++ chs) :: stack s) (root s))).
  { clear. induction 1 as [|c chs Hc _ IHl]; intros Hok Hd done_ ls; [by rewrite app_nil_r|]. apply Forall_cons in Hok as [Hok1 Hok2].
    cbn [flat_map foldr] in *. rewrite <- app_assoc, Hc; [|done|cbn; lia|done]. cbn [attach stack root add_child CName CProps CChildren app].
    change (add_child c (mkComponent n ps done_)) with (mkComponent n ps (done_ ++ [c])). rewrite IHl; [by rewrite <- app_assoc|done|lia]. }
  rewrite (Hkids ch IH Hch Hd). cbn [app]. rewrite (read_cons _ _ _ (mkProperty "END" [] n) (attach (mkComponent n ps ch) s)); [done|apply parse_end|].
  unfold read_prop. cbn [PropName PropValue stack CName root]. rewrite bool_decide_false, bool_decide_true by done.
  rewrite (bool_decide_true (n = to_upper n)) by done. cbn [negb]. unfold attach. by destruct (stack s).
Qed.

(** C12. A well-formed calendar is written in lines of at most 75 octets, the
    loops that write and read it end, and reading gives the same calendar:
    nothing is lost or changed, whatever properties it has. *)
Theorem calendar_roundtrip c :
  calendar_ok c -> exists lines, Serialize c = Some (with_crlf lines) /\
    Forall (fun l => plain_line l /\ (String.length l <= 75)%nat) lines /\ Parse (with_crlf lines) = Some (Ok c).
Proof.
  intros (Hok & Hd & Hlen). destruct (foldable_all _ (component_foldable c Hok)) as (ps & Hw & Hp & Hl & Hu).
  exists ps. split; [exact Hw|]. split; [by apply Forall_and|]. unfold Parse. rewrite (unfold_written _ _ Hp Hu).
  rewrite (proj2 (Z.ltb_ge _ _)) by done. rewrite <- (app_nil_r (component_lines c)).
  rewrite read_component; [done|done|cbn; lia|done].
Qed.

(** ** Text values *)

Definition newlines_only (s : string) : string := Replace [(CRLF, LF); (CR, LF)] s.

(** What [Escape] does at the first byte: a line break becomes two bytes, a
    special character is prefixed, and any other byte stays. *)
Lemma Escape_break t : Escape (CRLF +:+ t) = (BS +:+ "n") +:+ Escape t.
Proof. by apply Replace_match. Qed.
Lemma Escape_byte a s :
  ~ (a = byte_of 13 /\ exists t, s = String (byte_of 10) t) ->
  exists w, Escape (String a s) = w +:+ Escape s /\
    ((w = BS +:+ "n" /\ (a = byte_of 13 \/ a = byte_of 10)) \/
     (w = BS +:+ String a "" /\ (a = byte_of 92 \/ a = ";"%char \/ a = ","%char)) \/
     (w = String a "" /\ Forall (fun c => a <> c) [byte_of 92; ";"%char; ","%char; byte_of 10; byte_of 13])).
Proof.
  intros Hn. assert (Hesc : forall new, first_match escapes (String a s) = Some (String a "", new) -> Escape (String a s) = new +:+ Escape s).
  { intros new Hf. change (String a s) with (String a "" +:+ s). by apply Replace_match. }
  destruct (decide (a = byte_of 92)) as [->|H92]; [exists (BS +:+ BS); split; [by apply Hesc|tauto]|].
  destruct (decide (a = ";"%char)) as [->|H59]; [exists (BS +:+ ";"); split; [by apply Hesc|tauto]|].
  destruct (decide (a = ","%char)) as [->|H44]; [exists (BS +:+ ","); split; [by apply Hesc|tauto]|].
  destruct (decide (a = byte_of 10)) as [->|H10]; [exists (BS +:+ "n"); split; [by apply Hesc|tauto]|].
  destruct (decide (a = byte_of 13)) as [->|H13].
  - exists (BS +:+ "n"). split; [|tauto]. apply Hesc. unfold first_match, escapes. cbn [find fst].
    assert (Hp : has_prefix (String (byte_of 13) s) CRLF = false); [|by rewrite Hp].
    apply not_true_iff_false. intros (t & Ht)%has_prefix_spec. injection Ht as Ht. apply Hn. split; [done|]. by exists t.
  - exists (String a ""). split; [|right; right; split; [done|repeat constructor; congruence]].
    apply Replace_other. repeat constructor; cbn [fst]; eexists _, _; (split; [reflexivity|congruence]).
Qed.

Lemma crlf_dec a s : {exists t, a = byte_of 13 /\ s = String (byte_of 10) t} + {~ (a = byte_of 13 /\ exists t, s = String (byte_of 10) t)}.
Proof.
  destruct (decide (a = byte_of 13)) as [->|]; [|right; by intros [? _]]. destruct s as [|b s]; [right; by intros [_ [??]]|].
  destruct (decide (b = byte_of 10)) as [->|]; [left; eauto|right; intros [_ [? [=]]]; done].
Qed.

(** Induction along the steps of [Escape]. *)
Lemma escape_ind (P : string -> Prop) :
  P "" -> (forall t, P t -> P (CRLF +:+ t)) ->
  (forall a s, ~ (a = byte_of 13 /\ exists t, s = String (byte_of 10) t) -> P s -> P (String a s)) -> forall s, P s.
Proof.
  intros H0 Hb Ha s. induction s as [s IH] using (induction_ltof1 _ String.length); unfold ltof in IH. destruct s as [|a s]; [done|].
  destruct (crlf_dec a s) as [H|H].
  - destruct H as (t & -> & ->). apply (Hb t), IH. cbn. lia.
  - apply Ha; [done|]. apply IH. cbn. lia.
Qed.

Lemma newlines_byte a s : ~ (a = byte_of 13 /\ exists t, s = String (byte_of 10) t) ->
  newlines_only (String a s) = String (if bool_decide (a = byte_of 13) then byte_of 10 else a) (newlines_only s).
Proof.
  intros Hn. case_bool_decide as H13.
  - subst a. change (String (byte_of 13) s) with (CR +:+ s). unfold newlines_only. rewrite (Replace_match _ CR LF); [done| |done].
    unfold first_match. cbn [find fst]. assert (Hp : has_prefix (CR +:+ s) CRLF = false); [|by rewrite Hp].
    apply not_true_iff_false. intros (t & Ht)%has_prefix_spec. injection Ht as Ht. apply Hn. split; [done|]. by exists t.
  - apply Replace_other. repeat constructor; cbn [fst]; [exists (byte_of 13), LF|exists (byte_of 13), ""]; (split; [done|congruence]).
Qed.

Lemma Unescape_escaped b t : Unescape (String (byte_of 92) (String b t)) =
  String (if bool_decide (b = "n"%char) || bool_decide (b = "N"%char) then byte_of 10 else b) (Unescape t).
Proof. reflexivity. Qed.
Lemma Unescape_plain a t : a <> byte_of 92 -> Unescape (String a t) = String a (Unescape t).
Proof. intros Ha. destruct t; [done|]. cbn [Unescape]. by rewrite bool_decide_false. Qed.

Lemma unescape_escape s : Unescape (Escape s) = newlines_only s /\ plain_line (Escape s).
Proof.
  induction s as [|t [IH [Hc Hl]]|a s Hn [IH [Hc Hl]]] using escape_ind; [done| |].
  - rewrite Escape_break. split; [|split; rewrite no_byte_app; [by rewrite Hc|by rewrite Hl]].
    change ((BS +:+ "n") +:+ Escape t) with (String (byte_of 92) (String "n" (Escape t))). rewrite Unescape_escaped, IH.
    unfold newlines_only. by rewrite (Replace_match _ CRLF LF).
  - destruct (Escape_byte a s Hn) as (w & -> & Hw). rewrite (newlines_byte a s Hn).
    destruct Hw as [[-> Ha]|[[-> Ha]|[-> Ha]]].
    + split; [|split; rewrite no_byte_app; [by rewrite Hc|by rewrite Hl]].
      change ((BS +:+ "n") +:+ Escape s) with (String (byte_of 92) (String "n" (Escape s))). rewrite Unescape_escaped, IH.
      by destruct Ha as [-> | ->].
    + split; [|split; rewrite no_byte_app; [rewrite Hc|rewrite Hl]; destruct Ha as [-> |[-> | ->]]; done].
      change ((BS +:+ String a "") +:+ Escape s) with (String (byte_of 92) (String a (Escape s))). rewrite Unescape_escaped, IH.
      by destruct Ha as [-> |[-> | ->]].
    + rewrite !Forall_cons in Ha. destruct Ha as (H92 & H59 & H44 & H10 & H13 & _). split.
      * change (String a "" +:+ Escape s) with (String a (Escape s)). by rewrite (Unescape_plain a _ H92), IH, bool_decide_false.
      * split; rewrite no_byte_app; [rewrite Hc|rewrite Hl]; cbn [no_byte]; by rewrite bool_decide_false.
Qed.

(** Text put into a calendar is read back as it was, with every kind of
    line break as one newline, and its written form starts no new line: the
    guard of the writer never drops it. *)
Theorem text_roundtrip s : Unescape (Escape s) = newlines_only s /\ plain_line (Escape s).
Proof. apply unescape_escape. Qed.

(** ** Reading ends *)

Lemma cut_byte_length c s v r : cut_byte c s = Some (v, r) -> (String.length r < String.length s)%nat.
Proof.
  revert v. induction s as [|a s IH]; intros v; cbn [cut_byte]; [done|]. case_bool_decide; [intros [= _ <-]; cbn; lia|].
  destruct (cut_byte c s) as [[v' r']|] eqn:Hc; [|done]. intros [= _ <-]. specialize (IH _ eq_refl). cbn. lia.
Qed.
Lemma until_separator_length s v r : until_separator s = (v, r) -> (String.length r <= String.length s)%nat.
Proof.
  revert v. induction s as [|a s IH]; intros v; cbn [until_separator]; [by intros [= _ <-]|]. destruct (_ || _); [by intros [= _ <-]|].
  destruct (until_separator s) as [v' r'] eqn:Hs. intros [= _ <-]. specialize (IH _ eq_refl). cbn. lia.
Qed.
Lemma param_value_length s v r : param_value s = Ok (v, r) -> (String.length r <= String.length s)%nat.
Proof.
  destruct s as [|a s]; cbn [param_value]; [by intros [= _ <-]|]. case_bool_decide.
  - destruct (cut_byte DQ s) as [[v' r']|] eqn:Hc; [|done]. intros [= _ <-]. apply cut_byte_length in Hc. cbn. lia.
  - intros H1. apply (until_separator_length (String a s) v r). congruence.
Qed.

Lemma param_values_total fuel s vs :
  (String.length s < fuel)%nat -> exists r, param_values fuel s vs = Some r /\ forall vs' t, r = Ok (vs', t) -> (String.length t <= String.length s)%nat.
Proof.
  revert s vs. induction fuel as [|fuel IH]; intros s vs Hf; [lia|]. cbn [param_values].
  destruct (param_value s) as [[v r]|e] eqn:Hp; [|eexists; split; [done|by intros]]. apply param_value_length in Hp.
  destruct r as [|a r]; [eexists; split; [done|]; intros ? ? [= _ <-]; cbn; lia|]. case_bool_decide.
  - destruct (IH r (vs ++ [v])) as (res & -> & Hres); [cbn in *; lia|]. eexists. split; [done|]. intros vs' t Ht.
    specialize (Hres _ _ Ht). cbn in *. lia.
  - eexists. split; [done|]. intros ? ? [= _ <-]. done.
Qed.

Lemma split_params_total fuel s ps : (String.length s < fuel)%nat -> split_params fuel s ps <> None.
Proof.
  revert s ps. induction fuel as [|fuel IH]; intros s ps Hf; [lia|]. cbn [split_params]. case_bool_decide; [done|].
  destruct (cut_byte "=" s) as [[[|a n] r]|] eqn:Hc; [done| |done]. apply cut_byte_length in Hc.
  destruct (param_values_total (S (String.length r)) r []) as (res & -> & Hres); [lia|]. destruct res as [[vs t]|e]; [|done].
  specialize (Hres _ _ eq_refl). apply IH. destruct t as [|b t]; cbn [trim_semicolon]; [cbn; lia|]. case_bool_decide; cbn in *; lia.
Qed.

Lemma parseLine_total l : parseLine l <> None.
Proof.
  unfold parseLine. destruct (find_colon false l) as [[[|a n] v]|]; [done| |done].
  destruct (default _ _) as [name rest]. case_bool_decide; [done|]. case_bool_decide; [done|].
  pose proof (split_params_total (S (String.length rest)) rest [] ltac:(lia)) as Ht. unfold splitParams.
  by destruct (split_params _ rest []) as [[?|?]|].
Qed.

(** An open component at height [k] of the stack leaves room for what is in it. *)
Fixpoint room (st : list Component) : Prop :=
  match st with [] => True | top :: below => (List.length below + depth top <= maxDepth)%nat /\ room below end.
Definition reading_ok (s : reading) : Prop := room (stack s) /\ match root s with Some c => (depth c <= maxDepth)%nat | None => True end.

Lemma depth_add c p : depth (add_child c p) = Nat.max (depth p) (S (depth c)).
Proof.
  destruct p as [n ps ch]. cbn [add_child CChildren depth]. rewrite foldr_app. cbn [foldr]. rewrite Nat.max_0_r.
  induction ch as [|x ch IH]; cbn [foldr]; lia.
Qed.
Lemma depth_prop q p : depth (add_prop q p) = depth p.
Proof. by destruct p. Qed.

Lemma read_prop_ok p s s' : reading_ok s -> read_prop p s = Ok s' -> reading_ok s'.
Proof.
  intros [Hs Hr]. unfold read_prop. case_bool_decide.
  { case_bool_decide as Hd; [done|]. destruct (_ && _); [done|]. intros [= <-]. split; [|done]. cbn. split; [|done]. unfold maxDepth in *. lia. }
  case_bool_decide.
  - destruct (stack s) as [|top below] eqn:Hst; [done|]. destruct (negb _); [done|]. destruct Hs as [Ht Hs]. destruct below as [|parent below].
    + intros [= <-]. split; [done|]. cbn in *. lia.
    + intros [= <-]. destruct Hs as [Hp Hs]. split; [|done]. cbn [room stack]. rewrite depth_add. cbn [List.length] in Ht. split; [lia|done].
  - destruct (stack s) as [|top below] eqn:Hst; [done|]. intros [= <-]. split; [|done]. cbn [room stack]. rewrite depth_prop. exact Hs.
Qed.
Lemma read_lines_ok ls s : reading_ok s -> exists r, read_lines ls s = Some r /\ forall s', r = Ok s' -> reading_ok s'.
Proof.
  revert s. induction ls as [|l ls IH]; intros s Hs; cbn [read_lines]; [eexists; split; [done|]; by intros s' [= <-]|].
  pose proof (parseLine_total l). destruct (parseLine l) as [[p|e]|]; [|eexists; split; [done|by intros]|done].
  destruct (read_prop p s) as [s1|e] eqn:Hp; [|eexists; split; [done|by intros]]. eapply IH, read_prop_ok; done.
Qed.

(** C13. Reading ends on every text, and a calendar that is accepted is nested
    at most eight deep.  Writing ends on every line of whole runes, with the
    fuel of its length, but a byte followed by 75 continuation bytes keeps the
    writer going for ever. *)
Theorem reading_ends text :
  (exists r, Parse text = Some r /\ forall c, r = Ok c -> (depth c <= maxDepth)%nat) /\
  (utf8 text -> writeLine text <> None) /\
  (forall a w fuel, text = String a w -> tail_bytes w = true -> (75 <= String.length w)%nat -> write_line fuel true text = None).
Proof.
  split; [|split].
  - unfold Parse. destruct (_ <? _); [eexists; split; [done|by intros]|].
    destruct (read_lines_ok (unfold_ text) (mkReading [] None)) as (r & -> & Hr); [done|]. destruct r as [s|e]; [|eexists; split; [done|by intros]].
    destruct (Hr s eq_refl) as [_ Hc]. destruct (root s) as [c|], (stack s); (eexists; split; [done|]; by intros ? [= <-]).
  - intros (l & -> & Hl). destruct (decide (l = [])) as [->|Hne]; [done|].
    destruct (writeLine_physical l Hl Hne) as (ps & _ & _ & ->). done.
  - intros a w fuel -> Hw Hlen. by apply hostile_line.
Qed.

(** ** Editing *)

Lemma ascii_byte_utf8 a s : byte_val a < 128 -> utf8 s -> utf8 (String a s).
Proof.
  intros Ha Hs. apply (utf8_app (String a "")); [|done]. apply utf8_ascii. cbn [all_bytes]. by rewrite (proj2 (Z.ltb_lt _ _) Ha).
Qed.

Lemma Escape_utf8 l : Forall scalar l -> utf8 (Escape (encode_runes l)).
Proof.
  induction l as [l IH] using (induction_ltof1 _ (@List.length Z)); unfold ltof in IH. intros Hl.
  destruct Hl as [|r l Hr Hl]; [by apply utf8_ascii|]. rewrite encode_cons. destruct (Z.lt_ge_cases r 128) as [Hlt|Hge].
  - rewrite (encode_low r Hr Hlt). change (String (byte_of r) "" +:+ encode_runes l) with (String (byte_of r) (encode_runes l)).
    destruct (crlf_dec (byte_of r) (encode_runes l)) as [(t & Hr13 & Ht)|Hn].
    + rewrite Hr13, Ht. change (String (byte_of 13) (String (byte_of 10) t)) with (CRLF +:+ t). rewrite Escape_break.
      apply utf8_app; [by apply utf8_ascii|]. destruct Hl as [|r' l Hr' Hl]; [done|]. rewrite encode_cons in Ht.
      destruct (Z.lt_ge_cases r' 128) as [Hlt'|Hge'].
      * rewrite (encode_low r' Hr' Hlt') in Ht. injection Ht as _ Ht. change ("" +:+ encode_runes l) with (encode_runes l) in Ht. rewrite <- Ht.
        apply IH; [cbn; lia|done].
      * exfalso. pose proof (encode_high r' Hr' Hge') as Hh. destruct (encode_bytes r' Hr') as (b & w & Heb & _).
        rewrite Heb in Ht, Hh. injection Ht as -> _. done.
    + destruct (Escape_byte _ _ Hn) as (w & -> & Hw). assert (Hrest : utf8 (Escape (encode_runes l))) by (apply IH; [cbn; lia|done]).
      apply utf8_app; [|done]. destruct Hw as [[-> _]|[[-> Ha]|[-> _]]]; [by apply utf8_ascii| |].
      * apply utf8_ascii. by destruct Ha as [-> |[-> | ->]].
      * apply ascii_byte_utf8; [|by apply utf8_ascii]. rewrite byte_val_of by (destruct Hr; lia). done.
  - unfold Escape. rewrite Replace_others.
    + apply utf8_app; [exists [r]; split; [by rewrite encode_cons, string_app_nil_r|by constructor]|]. apply IH; [cbn; lia|done].
    + pose proof (encode_high r Hr Hge) as Hh. repeat constructor; cbn [fst]; eexists _, _; (split; [reflexivity|]); by apply high_no_byte.
Qed.

Lemma Escape_text v : utf8 v -> text_ok (Escape v).
Proof. intros (l & -> & Hl). split; [by apply Escape_utf8|]. apply unescape_escape. Qed.

Lemma filter_filter_ne (n m : string) (ps : list Property) : m <> n ->
  filter (fun p => PropName p = m) (filter (fun p => PropName p <> n) ps) = filter (fun p => PropName p = m) ps.
Proof.
  intros Hm. induction ps as [|p ps IH]; [done|]. destruct (decide (PropName p = n)) as [He|He].
  - rewrite (filter_cons_False (fun p => PropName p <> n)) by (by intros ?). rewrite IH. rewrite filter_cons_False by congruence. done.
  - rewrite (filter_cons_True (fun p => PropName p <> n)) by done. rewrite !filter_cons. by rewrite IH.
Qed.

(** Setting a text value: the component stays well formed, the value is read
    back as typed, and nothing else changes. *)
Lemma Set_text_ok c name v :
  component_ok c -> property_ok (mkProperty name [] "") -> utf8 v -> component_ok (Set_ name (Escape v) [] c).
Proof.
  destruct c as [n ps ch]. rewrite children_ok. intros (Hup & Hn & Hps & Hch) (H1 & H2 & H3 & H4 & H5 & H6 & H7 & _) Hv.
  cbn [Set_ Remove CName CProps CChildren]. apply children_ok. split; [done|]. split; [done|]. split; [|done]. apply Forall_app. split.
  - rewrite Forall_forall in *. intros p [_ Hp]%list_elem_of_filter. by apply Hps.
  - constructor; [|constructor]. exact (conj H1 (conj H2 (conj H3 (conj H4 (conj H5 (conj H6 (conj H7 (Escape_text v Hv)))))))).
Qed.
Lemma Set_text_others c name v m : m <> name -> Values m (Set_ name v [] c) = Values m c.
Proof.
  intros Hm. destruct c as [n ps ch]. unfold Values. cbn [Set_ Remove CName CProps CChildren]. rewrite filter_app, filter_filter_ne by done.
  by rewrite (filter_cons_False _ (mkProperty name [] v)), filter_nil, app_nil_r by (cbn; congruence).
Qed.
Lemma Set_text_value c name v : Values name (Set_ name v [] c) = [mkProperty name [] v].
Proof.
  destruct c as [n ps ch]. unfold Values. cbn [Set_ Remove CName CProps CChildren]. rewrite filter_app.
  rewrite (filter_cons_True _ (mkProperty name [] v)) by done. rewrite filter_nil.
  assert (filter (fun p => PropName p = name) (filter (fun p => PropName p <> name) ps) = []) as ->; [|done].
  induction ps as [|p ps IH]; [done|]. destruct (decide (PropName p = name)).
  - rewrite (filter_cons_False (fun p => PropName p <> name)) by (by intros ?). exact IH.
  - rewrite (filter_cons_True (fun p => PropName p <> name)) by done. by rewrite filter_cons_False.
Qed.

(** Editing an event keeps what the edit does not name, and the text comes back. *)
Theorem text_edit c name v :
  component_ok c -> property_ok (mkProperty name [] "") -> utf8 v ->
  let c' := Set_ name (Escape v) [] c in
  component_ok c' /\ (Unescape ∘ PropValue) <$> Values name c' = [newlines_only v] /\
  CName c' = CName c /\ CChildren c' = CChildren c /\ forall m, m <> name -> Values m c' = Values m c.
Proof.
  intros Hc Hn Hv. cbv zeta. split; [by apply Set_text_ok|]. split; [|split; [done|split; [done|]]].
  - rewrite Set_text_value. cbn. by rewrite (proj1 (unescape_escape v)).
  - intros m Hm. by apply Set_text_others.
Qed.
End spec.

(** ** A calendar with an invitation *)

#[local] Existing Instance ascii_tables.

Definition demo_event : Component :=
  mkComponent "VCALENDAR"
    [mkProperty "VERSION" [] "2.0"]
    [mkComponent "VEVENT"
       [mkProperty "SUMMARY" [mkParam "LANGUAGE" ["en"]] (Escape ("Plan; budget, 2025" +:+ LF +:+ "please bring the numbers of the last quarter and a pen"));
        mkProperty "ATTENDEE" [mkParam "CN" ["Ada; Lovelace"; "AL"]; mkParam "PARTSTAT" ["NEEDS-ACTION"]] "mailto:ada@example.com"]
       [mkComponent "VALARM" [mkProperty "TRIGGER" [] "-PT15M"] []]].

Lemma demo_event_ok : calendar_ok demo_event.
Proof.
  assert (Ht : forall s, all_bytes (fun b => (b <? 128) && negb (b =? 13) && negb (b =? 10)) s = true -> text_ok s) by apply text_ascii.
  split; [|split; [vm_compute; lia|vm_compute; discriminate]].
  cbn [component_ok demo_event]. unfold property_ok, param_ok.
  repeat first [split | constructor]; try (apply Ht); try (vm_compute; (reflexivity || discriminate)); try done.
Qed.

Lemma calendar_roundtrip_witness : exists lines, Serialize demo_event = Some (with_crlf lines) /\
  Forall (fun l => plain_line l /\ (String.length l <= 75)%nat) lines /\ Parse (with_crlf lines) = Some (Ok demo_event).
Proof. apply (calendar_roundtrip demo_event). exact demo_event_ok. Defined.

(** The same, evaluated. *)
Example demo_event_lines : (fun t => Parse t) <$> Serialize demo_event = Some (Some (Ok demo_event)).
Proof. vm_compute. reflexivity. Qed.

(** A calendar is read whose second, longer line is ill-formed UTF-8; it can
    never be written again. *)
Fixpoint repeat_byte (n : nat) (a : ascii) : string := match n with O => "" | S n' => String a (repeat_byte n' a) end.
Definition hostile_text : string :=
  "BEGIN:VCALENDAR" +:+ CRLF +:+ "X:" +:+ repeat_byte 80 (byte_of 128) +:+ CRLF +:+ "END:VCALENDAR" +:+ CRLF.
Example hostile_accepted :
  exists c, Parse hostile_text = Some (Ok c) /\ Serialize c = None /\
    forall fuel first, write_line fuel first (":" +:+ repeat_byte 80 (byte_of 128)) = None.
Proof.
  eexists. split; [vm_compute; reflexivity|]. split; [vm_compute; reflexivity|]. intros fuel first. by apply hostile_line; [vm_compute; reflexivity|vm_compute; lia].
Qed.
