(* ===== verification/Planner.v ===== *)
(** * Plans of an agent ([internal/agent/planner.go])

    A plan is a list of steps with dependencies by id.  The steps come from a
    language model and are normalized; they are run in dependency order. *)

From S2P Require Import Prelude GoStrings GoText.

#[local] Open Scope Z_scope.

Definition StepKindProduce : string := "produce".
Definition StepKindResearch : string := "research".
Definition StepKindVerify : string := "verify".
Definition StepStatusPending : string := "pending".
Definition StepStatusInProgress : string := "in_progress".
Definition StepStatusCompleted : string := "completed".
Definition StepStatusFailed : string := "failed".
Definition StepStatusPaused : string := "paused".
Definition approvalPausedMarker : string := "[APPROVAL_PAUSED]".

Record PlanStep := mkStep {
  ID : string; Title : string; Description : string; Acceptance : string; AgentRole : string;
  Kind : string; Atomic : bool; Dependencies : list string; Status : string; Result : string
}.
Record TaskPlan := mkPlan { Goal_ : string; Steps : list PlanStep; CreatedAt : Z }.

Definition with_status (st r : string) (s : PlanStep) : PlanStep :=
  mkStep (ID s) (Title s) (Description s) (Acceptance s) (AgentRole s) (Kind s) (Atomic s) (Dependencies s) st r.
Definition with_deps (ds : list string) (s : PlanStep) : PlanStep :=
  mkStep (ID s) (Title s) (Description s) (Acceptance s) (AgentRole s) (Kind s) (Atomic s) ds (Status s) (Result s).
Definition with_steps (f : list PlanStep -> list PlanStep) (p : TaskPlan) : TaskPlan := mkPlan (Goal_ p) (f (Steps p)) (CreatedAt p).

Definition pending (s : PlanStep) : bool := bool_decide (Status s = "pending").
Definition completed (s : PlanStep) : bool := bool_decide (Status s = "completed").

(** ** Normalization *)

Definition maxPlanSteps : nat := 5.
Definition collapseSpace (s : string) : string := join (fields (trim_space s)) " ".

Section normalize.
Context `{U : Unicode}.

Definition normalizeStepKind (kind : string) : string :=
  let k := to_lower (collapseSpace kind) in
  if bool_decide (k ∈ [StepKindProduce; StepKindResearch; StepKindVerify]) then k else "".

(** The dependencies of a step: not empty, not itself, each once. *)
Fixpoint clean_deps (id : string) (deps : list string) (depSeen : list string) : list string :=
  match deps with
  | [] => []
  | dep :: deps' =>
    let dep := collapseSpace dep in
    if bool_decide (dep = "") || bool_decide (dep = id) || bool_decide (dep ∈ depSeen) then clean_deps id deps' depSeen
    else dep :: clean_deps id deps' (dep :: depSeen)
  end.

Definition task_id (n : nat) : string := "task_" +:+ pretty (Z.of_nat n).

(** The first loop; [out] is what has been collected, [seen] its ids. *)
Fixpoint collect_steps (role : string) (steps : list PlanStep) (out : list PlanStep) (seen : list string) : list PlanStep :=
  match steps with
  | [] => out
  | step :: steps' =>
    if bool_decide (maxPlanSteps <= List.length out)%nat then out
    else
      let title := collapseSpace (Title step) in
      let desc := collapseSpace (Description step) in
      let desc := if bool_decide (desc = "") then title else desc in
      if bool_decide (desc = "") then collect_steps role steps' out seen
      else
        let id := collapseSpace (ID step) in
        let id := if bool_decide (id = "") then task_id (List.length out + 1) else id in
        let id := if bool_decide (id ∈ seen) then task_id (List.length out + 1) else id in
        let r := collapseSpace (AgentRole step) in
        let r := if bool_decide (r = "") then role else r in
        collect_steps role steps'
          (out ++ [mkStep id title desc (collapseSpace (Acceptance step)) r (normalizeStepKind (Kind step)) (Atomic step)
                     (clean_deps id (Dependencies step) []) "pending" (Result step)])
          (id :: seen)
  end.

Definition normalizePlanSteps (steps : list PlanStep) (fallbackRole : string) : list PlanStep :=
  let role := if bool_decide (fallbackRole = "") then "general" else fallbackRole in
  let out := collect_steps role steps [] [] in
  let known := ID <$> out in
  (fun s => with_deps (filter (fun d => d ∈ known) (Dependencies s)) s) <$> out.
End normalize.

Definition defaultPlanSteps (goal role : string) : list PlanStep :=
  let trimmed := trim_space goal in
  [mkStep "task_1" "Gather inputs"
     ("Collect the facts, files, and constraints required to execute: " +:+ trimmed)
     "Named sources or files are identified and the execution constraints are explicit." role StepKindResearch false [] "pending" "";
   mkStep "task_2" "Produce and verify"
     ("Create the requested deliverable and verify it against the original goal: " +:+ trimmed)
     "The deliverable exists with tool evidence and matches the goal." role StepKindProduce false ["task_1"] "pending" ""].

(** [agents] are the ids of the agents that are available. *)
Definition fallbackPlanRole (agents : list string) : string :=
  match agents with a :: _ => if bool_decide (a = "") then "general" else a | [] => "general" end.

(** What the language model answered: nothing usable, or steps. *)
Definition plan_steps `{Unicode} (goal : string) (agents : list string) (answer : option (list PlanStep)) : list PlanStep :=
  let fallback := defaultPlanSteps goal (fallbackPlanRole agents) in
  match answer with
  | None => fallback
  | Some steps =>
    let out := normalizePlanSteps steps (fallbackPlanRole agents) in
    let out := if bool_decide (out = []) then fallback else out in
    match out with [s] => if Atomic s then out else fallback | _ => out end
  end.

(** ** Questions about a plan *)

Definition completed_ids (steps : list PlanStep) : list string := ID <$> filter (fun s => completed s = true) steps.

Definition ready (done : list string) (s : PlanStep) : bool :=
  (pending s || bool_decide (Status s = "")) && forallb (fun d => bool_decide (d ∈ done)) (Dependencies s).
Definition ReadySteps (p : TaskPlan) : list PlanStep := filter (fun s => ready (completed_ids (Steps p)) s = true) (Steps p).
Definition NextReadyStep (p : TaskPlan) : option PlanStep := head (ReadySteps p).
Definition HasReadyStep (p : TaskPlan) : bool := bool_decide (is_Some (NextReadyStep p)).

Definition ProgressPercent (p : TaskPlan) : Z :=
  match Steps p with
  | [] => 0
  | steps => (Z.of_nat (List.length (filter (fun s => completed s = true) steps)) * 100) `quot` Z.of_nat (List.length steps)
  end.
Definition AllStepsCompleted (p : TaskPlan) : bool := negb (bool_decide (Steps p = [])) && forallb completed (Steps p).
Definition StepStatus (id : string) (p : TaskPlan) : string :=
  match find (fun s => bool_decide (ID s = id)) (Steps p) with Some s => Status s | None => "" end.
Definition requiresArtifact (s : PlanStep) : bool := bool_decide (Kind s = StepKindProduce).

Definition summary_line (s : PlanStep) : string :=
  let result := trim_space (Result s) in
  let result := if bool_decide (result = "") then Status s else result in
  let result := if 180 <? len result then take_bytes 180 result +:+ "..." else result in
  String (byte_of 10) "" +:+ "- " +:+ ID s +:+ ": " +:+ result.
Definition CompletionSummary (p : TaskPlan) : string :=
  "All plan steps completed." +:+ foldr (fun s acc => summary_line s +:+ acc) "" (Steps p).

(** ** Changes of a plan *)

Section marks.
Context `{U : Unicode}.

Definition isApprovalPauseResult (result : string) : bool :=
  contains_str result approvalPausedMarker || contains_str (to_lower result) "human approval required" || contains_str result "approval_id=".

Definition ReopenAllSteps (p : TaskPlan) : TaskPlan := with_steps (fmap (with_status "pending" "")) p.

(** Failed steps that are, or are not, a wait for approval. *)
Definition reopen (approval : bool) (s : PlanStep) : PlanStep :=
  if bool_decide (Status s = "failed") && Bool.eqb (isApprovalPauseResult (Result s)) approval then with_status "pending" (Result s) s else s.
Definition reopens (approval : bool) (s : PlanStep) : bool :=
  bool_decide (Status s = "failed") && Bool.eqb (isApprovalPauseResult (Result s)) approval.
Definition ReopenFailedSteps (p : TaskPlan) : bool * TaskPlan := (existsb (reopens false) (Steps p), with_steps (fmap (reopen false)) p).
Definition reopenApprovalFailedSteps (p : TaskPlan) : bool * TaskPlan := (existsb (reopens true) (Steps p), with_steps (fmap (reopen true)) p).

(** [err.Error()] of an error that is neither a cancellation nor a deadline. *)
Definition transient_texts : list string :=
  ["token quota exhausted"; "rate limit"; "too many requests"; "429"; "503"; "502"; "overloaded"; "connection reset";
   "connection refused"; "timeout"; "deadline exceeded"; "LLM providers in cascade failed"].
Definition isTransientExecutionError (cancelled : bool) (err : string) : bool :=
  cancelled || existsb (contains_str (to_lower err)) transient_texts.
End marks.

(** The first step with that id. *)
Fixpoint mark (id status result : string) (steps : list PlanStep) : list PlanStep :=
  match steps with
  | [] => []
  | s :: steps' => if bool_decide (ID s = id) then with_status status result s :: steps' else s :: mark id status result steps'
  end.
Definition MarkStep (id status result : string) (p : TaskPlan) : TaskPlan := with_steps (mark id status result) p.

Definition finish_step (result : string) (s : PlanStep) : PlanStep :=
  if completed s || bool_decide (Status s = "failed") then s
  else with_status "completed" (if bool_decide (trim_space (Result s) = "") then result else Result s) s.
Definition markRemainingComplete (result : string) (p : TaskPlan) : TaskPlan := with_steps (fmap (finish_step result)) p.

(** ** [ExecutePlan] *)

Inductive plan_error := EmptyPlan | StepFailed (id description err : string) | Deadlock.

Section execute.
(** What the executor of a step may use and change. *)
Context {W : Type} (stepExecutor : PlanStep -> W -> result string string * W).

Inductive pass_end :=
  | PassDone (comp : list string) (progress allDone : bool) (w : W)
  | PassFailed (e : plan_error) (w : W).

(** One round over the steps, which are changed in place; [comp] are the ids
    completed in this call. *)
Fixpoint pass (steps : list PlanStep) (comp : list string) (progress allDone : bool) (w : W) : list PlanStep * pass_end :=
  match steps with
  | [] => ([], PassDone comp progress allDone w)
  | s :: rest =>
    if completed s then let (rest', r) := pass rest comp progress allDone w in (s :: rest', r)
    else if forallb (fun d => bool_decide (d ∈ comp)) (Dependencies s) && pending s then
      let (res, w') := stepExecutor (with_status "in_progress" (Result s) s) w in
      match res with
      | Err err => (with_status "failed" err s :: rest, PassFailed (StepFailed (ID s) (Description s) err) w')
      | Ok out => let (rest', r) := pass rest (ID s :: comp) true false w' in (with_status "completed" out s :: rest', r)
      end
    else let (rest', r) := pass rest comp progress false w in (s :: rest', r)
  end.

(** The rounds; out of fuel is [None]. *)
Fixpoint rounds (fuel : nat) (steps : list PlanStep) (comp : list string) (w : W) : option (list PlanStep * option plan_error * W) :=
  match fuel with
  | O => None
  | S fuel' =>
    match pass steps comp false true w with
    | (steps', PassFailed e w') => Some (steps', Some e, w')
    | (steps', PassDone comp' progress allDone w') =>
      if allDone then Some (steps', None, w')
      else if negb progress then Some (steps', Some Deadlock, w')
      else rounds fuel' steps' comp' w'
    end
  end.

Definition ExecutePlan (p : TaskPlan) (w : W) : option (TaskPlan * option plan_error * W) :=
  if bool_decide (Steps p = []) then Some (p, Some EmptyPlan, w)
  else match rounds (S (List.length (Steps p))) (Steps p) [] w with
       | Some (steps, e, w') => Some (mkPlan (Goal_ p) steps (CreatedAt p), e, w')
       | None => None
       end.
End execute.
