(* ===== verification/Tasks.v ===== *)
(** * Missions ([internal/agent/tasks.go])

    The table of tasks, the plan each one carries as JSON, the listing written
    to TASKS.md, and the heartbeat settings. *)

From S2P Require Import Prelude GoStrings Io Tables GoText Planner.

#[local] Open Scope Z_scope.

Record AutonomousTask := mkTask {
  TID : string; TTitle : string; TDescription : string; TStatus : string; TPriority : string; AssignedAgentID : string;
  TargetChannel : string; TargetAccountID : string; Progress : Z; ExecutionLog : string; SessionID : string; CreatedBy : string;
  TCreatedAt : Z; TUpdatedAt : Z; CompletedAt : option Z; TPlan : option TaskPlan; StalledCycles : Z; FailCount : Z
}.
(** A row of [autonomous_tasks]: the columns of a task, with its plan as text. *)
Record TaskRow := mkTaskRow { row_task : AutonomousTask; plan_json : string }.

Definition with_plan (p : option TaskPlan) (t : AutonomousTask) : AutonomousTask :=
  mkTask (TID t) (TTitle t) (TDescription t) (TStatus t) (TPriority t) (AssignedAgentID t) (TargetChannel t) (TargetAccountID t) (Progress t)
    (ExecutionLog t) (SessionID t) (CreatedBy t) (TCreatedAt t) (TUpdatedAt t) (CompletedAt t) p (StalledCycles t) (FailCount t).
Definition with_outcome (status : string) (progress : Z) (done_at : option Z) (t : AutonomousTask) : AutonomousTask :=
  mkTask (TID t) (TTitle t) (TDescription t) status (TPriority t) (AssignedAgentID t) (TargetChannel t) (TargetAccountID t) progress
    (ExecutionLog t) (SessionID t) (CreatedBy t) (TCreatedAt t) (TUpdatedAt t) done_at (TPlan t) (StalledCycles t) (FailCount t).
Definition with_counts (stalled fail : Z) (t : AutonomousTask) : AutonomousTask :=
  mkTask (TID t) (TTitle t) (TDescription t) (TStatus t) (TPriority t) (AssignedAgentID t) (TargetChannel t) (TargetAccountID t) (Progress t)
    (ExecutionLog t) (SessionID t) (CreatedBy t) (TCreatedAt t) (TUpdatedAt t) (CompletedAt t) (TPlan t) stalled fail.
Definition with_updated (at_ : Z) (t : AutonomousTask) : AutonomousTask :=
  mkTask (TID t) (TTitle t) (TDescription t) (TStatus t) (TPriority t) (AssignedAgentID t) (TargetChannel t) (TargetAccountID t) (Progress t)
    (ExecutionLog t) (SessionID t) (CreatedBy t) (TCreatedAt t) at_ (CompletedAt t) (TPlan t) (StalledCycles t) (FailCount t).

Record HeartbeatConfig := mkHeartbeat {
  HEnabled : bool; IntervalMinutes : Z; Directives : string; HTargetChannel : string; HTargetAccountID : string; AckMaxChars : Z;
  StructuredDirectives : string;  (* the list of directives, as its JSON text *)
  ActiveHoursStart : string; ActiveHoursEnd : string; ActiveHoursTimezone : string
}.
Definition with_directives (d : string) (c : HeartbeatConfig) : HeartbeatConfig :=
  mkHeartbeat (HEnabled c) (IntervalMinutes c) d (HTargetChannel c) (HTargetAccountID c) (AckMaxChars c) (StructuredDirectives c)
    (ActiveHoursStart c) (ActiveHoursEnd c) (ActiveHoursTimezone c).

(** [has_db]: the manager has a database; [has_dir]: it has an agents directory. *)
Record TaskManager := mkTasks {
  has_db : bool; has_dir : bool; t_tasks : list TaskRow; t_messages : list string; t_conversations : list string;
  t_settings : option string; tasks_md : option string; heartbeat_md : option string
}.
Definition set_tasks f m := mkTasks (has_db m) (has_dir m) (f (t_tasks m)) (t_messages m) (t_conversations m) (t_settings m) (tasks_md m) (heartbeat_md m).
Definition set_talk f m := mkTasks (has_db m) (has_dir m) (t_tasks m) (f (t_messages m)) (t_conversations m) (t_settings m) (tasks_md m) (heartbeat_md m).
Definition set_convs f m := mkTasks (has_db m) (has_dir m) (t_tasks m) (t_messages m) (f (t_conversations m)) (t_settings m) (tasks_md m) (heartbeat_md m).
Definition set_settings s m := mkTasks (has_db m) (has_dir m) (t_tasks m) (t_messages m) (t_conversations m) s (tasks_md m) (heartbeat_md m).
Definition set_tasks_md s m := mkTasks (has_db m) (has_dir m) (t_tasks m) (t_messages m) (t_conversations m) (t_settings m) s (heartbeat_md m).
Definition set_heartbeat_md s m := mkTasks (has_db m) (has_dir m) (t_tasks m) (t_messages m) (t_conversations m) (t_settings m) (tasks_md m) s.

Inductive task_error := TaskDb | NoTask | TitleRequired | ConfigEncoding.

(** JSON, random bytes in hexadecimal, and [time.RFC3339]. *)
Class TaskCodec := {
  encode_plan : TaskPlan -> option string;
  decode_plan : string -> option TaskPlan;
  encode_config : HeartbeatConfig -> option string;
  merge_config : string -> HeartbeatConfig -> HeartbeatConfig;   (* what json.Unmarshal makes of the defaults *)
  random_hex : nat -> string;
  rfc3339 : Z -> string
}.

Abbreviation task_op := (io TaskManager task_error).

Definition or_default (d s : string) : string := if bool_decide (s = "") then d else s.
Definition conv_id (id : string) : string := "conv_task_" +:+ id.

Section tasks.
Context `{C : TaskCodec} `{U : Unicode}.

(** The plan of a row; text that does not decode is no plan. *)
Definition row_plan (text : string) : option TaskPlan := if bool_decide (trim_space text = "") then None else decode_plan text.
Definition scan_task (r : TaskRow) : AutonomousTask := with_plan (row_plan (plan_json r)) (row_task r).

(** ** Listings *)

Definition priority_rank (p : string) : Z :=
  if bool_decide (p = "p0_critical") then 1 else if bool_decide (p = "p1_high") then 2
  else if bool_decide (p = "p2_normal") then 3 else if bool_decide (p = "p3_low") then 4 else 5.
Definition backlog_order (a b : TaskRow) : Prop :=
  priority_rank (TPriority (row_task a)) < priority_rank (TPriority (row_task b)) \/
  (priority_rank (TPriority (row_task a)) = priority_rank (TPriority (row_task b)) /\ TUpdatedAt (row_task b) <= TUpdatedAt (row_task a)).
#[export] Instance backlog_order_dec a b : Decision (backlog_order a b). Proof. unfold backlog_order. apply _. Defined.

Definition nl : string := String (byte_of 10) "".
Definition tick : string := String (byte_of 96) "".
Definition active_item (t : AutonomousTask) : string :=
  "- [ ] **[" +:+ TPriority t +:+ "]** " +:+ TTitle t +:+ " *(Status: " +:+ TStatus t +:+ ", Progress: " +:+ pretty (Progress t) +:+ "%)*" +:+ nl
  +:+ "  - ID: " +:+ tick +:+ TID t +:+ tick +:+ " | Assigned: " +:+ tick +:+ AssignedAgentID t +:+ tick +:+ nl +:+ "  - " +:+ TDescription t.
Definition completed_item (t : AutonomousTask) : string := "- [x] **[" +:+ TPriority t +:+ "]** " +:+ TTitle t +:+ " *(Status: completed)*".

Definition markdown (t : Z) (rows : list TaskRow) : string :=
  let items := row_task <$> merge_sort backlog_order rows in
  let active := active_item <$> filter (fun t => TStatus t <> "completed") items in
  let done := completed_item <$> filter (fun t => TStatus t = "completed") items in
  "# ActonOS Autonomous Tasks Backlog" +:+ nl +:+ "> Last synchronized: " +:+ rfc3339 t +:+ " UTC" +:+ nl +:+ nl
  +:+ "## Active Backlog" +:+ nl +:+ nl
  +:+ (if bool_decide (active = []) then "*No active tasks currently pending in backlog.*" +:+ nl +:+ nl else foldr (fun i acc => i +:+ nl +:+ nl +:+ acc) "" active)
  +:+ "## Completed & Archived Missions" +:+ nl +:+ nl
  +:+ (if bool_decide (done = []) then "*No completed missions recorded.*" +:+ nl +:+ nl else foldr (fun i acc => i +:+ nl +:+ acc) "" done +:+ nl).

(** Every caller drops its error. *)
Definition syncToMarkdownLocked : task_op unit :=
  m ← get;
  if negb (has_db m) || negb (has_dir m) then mret tt
  else
    _ ← db TaskDb;
    t ← now;
    modify (set_tasks_md (Some (markdown t (t_tasks m)))).

Definition ListTasks (status priority : string) : task_op (list AutonomousTask) :=
  m ← get;
  if negb (has_db m) then mret []
  else
    _ ← db TaskDb;
    let wanted col s := bool_decide (s = "") || bool_decide (s = "all") || bool_decide (col = s) in
    mret (scan_task <$> merge_sort backlog_order
      (filter (fun r => wanted (TStatus (row_task r)) status && wanted (TPriority (row_task r)) priority = true) (t_tasks m))).

(** ** One task *)

Definition find_task (id : string) (l : list TaskRow) : option TaskRow := find (fun r => bool_decide (TID (row_task r) = id)) l.

Definition CreateTask (t : AutonomousTask) : task_op AutonomousTask :=
  id ← (if bool_decide (TID t = "") then n ← draw; at_ ← now; mret ("task_" +:+ pretty (at_ `div` second) +:+ "_" +:+ random_hex n) else mret (TID t));
  at_ ← now;
  let t := mkTask id (TTitle t) (TDescription t) (or_default "pending" (TStatus t)) (or_default "p2_normal" (TPriority t))
    (or_default "auto" (AssignedAgentID t)) (or_default "all" (TargetChannel t)) (or_default "all" (TargetAccountID t)) (Progress t)
    (ExecutionLog t) (or_default (conv_id id) (SessionID t)) (CreatedBy t) at_ at_ (CompletedAt t) (TPlan t) (StalledCycles t) (FailCount t) in
  m ← get;
  _ ← (if negb (has_db m) then mret tt
       else
         _ ← db TaskDb;
         if bool_decide (is_Some (find_task id (t_tasks m))) then throw TaskDb   (* PRIMARY KEY *)
         else modify (set_tasks (fun l => l ++ [mkTaskRow (with_plan None (with_outcome (TStatus t) (Progress t) None t))
                                                   (match TPlan t with Some p => default "" (encode_plan p) | None => "" end)])));
  _ ← ignore syncToMarkdownLocked;
  mret t.

Definition new_mission (title description agent : string) : AutonomousTask :=
  mkTask "" title description "pending" "p2_normal" agent "" "" 0 "" "" "agent" 0 0 None None 0 0.
Definition EnqueueMission (title description assignedAgentID : string) : task_op string :=
  let title := trim_space title in
  if bool_decide (title = "") then throw TitleRequired
  else t ← CreateTask (new_mission title (trim_space description) (trim_space assignedAgentID)); mret (TID t).

Definition GetTask (id : string) : task_op AutonomousTask :=
  m ← get;
  if negb (has_db m) then throw NoTask
  else
    _ ← db TaskDb;
    match find_task id (t_tasks m) with Some r => mret (scan_task r) | None => throw NoTask end.

(** Whether an update is an operator starting a task again. *)
Definition rewound (old new : Z) : bool := (0 <? old) && (new =? 0).
Definition isOperatorReset (oldStatus : string) (oldProgress : Z) (t : AutonomousTask) : bool :=
  rewound oldProgress (Progress t) ||
  (bool_decide (oldStatus ∈ ["blocked"; "failed"; "cancelled"]) && bool_decide (TStatus t ∈ ["pending"; "in_progress"])).

(** The plan handed in is a pointer: the caller sees the steps reopened. *)
Definition reopened_plan (oldProgress : Z) (reset : bool) (t : AutonomousTask) (p : TaskPlan) : TaskPlan :=
  if rewound oldProgress (Progress t) then ReopenAllSteps p else if reset then snd (ReopenFailedSteps p) else p.
(** The text of the plan when none is handed in: the old one, reopened. *)
Definition reopened_text (oldProgress : Z) (reset : bool) (t : AutonomousTask) (old : string) : string :=
  if bool_decide (trim_space old = "") || negb reset then old
  else match decode_plan old with
       | None => old
       | Some p =>
         if bool_decide (Steps p = []) then old
         else if rewound oldProgress (Progress t) then default old (encode_plan (ReopenAllSteps p))
         else let (changed, p') := ReopenFailedSteps p in if changed then default old (encode_plan p') else old
       end.

(** [UPDATE autonomous_tasks SET ...]: the identity, session, author and birth
    of the row stay. *)
Definition update_task_row (t : AutonomousTask) (text : string) (r : TaskRow) : TaskRow :=
  mkTaskRow (mkTask (TID (row_task r)) (TTitle t) (TDescription t) (TStatus t) (TPriority t) (AssignedAgentID t) (TargetChannel t) (TargetAccountID t)
    (Progress t) (ExecutionLog t) (SessionID (row_task r)) (CreatedBy (row_task r)) (TCreatedAt (row_task r)) (TUpdatedAt t) (CompletedAt t) None
    (StalledCycles t) (FailCount t)) text.

(** What the caller's task is after the update's own assignments. *)
Definition closed_task (at_ : Z) (t : AutonomousTask) : AutonomousTask :=
  let t := with_updated at_ t in
  if bool_decide (TStatus t = "completed") && bool_decide (CompletedAt t = None) then with_outcome (TStatus t) 100 (Some at_) t else t.

(** Returns the caller's plan, which it may have changed even when the
    statement fails, and the error. *)
Definition UpdateTask (t : AutonomousTask) : task_op (option TaskPlan * result task_error unit) :=
  m ← get;
  if negb (has_db m) then mret (TPlan t, Ok tt)
  else
    at_ ← now;
    let t := closed_task at_ t in
    old ← attempt (_ ← db TaskDb; m ← get; match find_task (TID t) (t_tasks m) with Some r => mret r | None => throw NoTask end);
    let '(oldStatus, oldProgress, oldPlan) :=
      match old with Ok r => (TStatus (row_task r), Progress (row_task r), plan_json r) | Err _ => ("", 0, "") end in
    let reset := isOperatorReset oldStatus oldProgress t in
    let t := if reset then with_counts 0 0 t else t in
    let plan := reopened_plan oldProgress reset t <$> TPlan t in
    let text := match plan with Some p => default "" (encode_plan p) | None => reopened_text oldProgress reset t oldPlan end in
    r ← attempt (_ ← db TaskDb;
                 _ ← modify (set_tasks (update_where (fun r => bool_decide (TID (row_task r) = TID t)) (update_task_row t text)));
                 ignore syncToMarkdownLocked);
    mret (plan, r).

Definition DeleteTask (id : string) : task_op unit :=
  m ← get;
  _ ← (if negb (has_db m) then mret tt
       else
         session ← attempt (_ ← db TaskDb; m ← get; match find_task id (t_tasks m) with Some r => mret (SessionID (row_task r)) | None => throw NoTask end);
         let session := match session with Ok s => s | Err _ => "" end in
         _ ← db TaskDb;
         _ ← modify (set_tasks (filter (fun r => TID (row_task r) <> id)));
         for_each (fun cid =>
             _ ← ignore (_ ← db TaskDb; modify (set_talk (filter (fun c => c <> cid))));
             ignore (_ ← db TaskDb; modify (set_convs (filter (fun c => c <> cid)))))
           (conv_id id :: (if bool_decide (session = "") || bool_decide (session = conv_id id) then [] else [session])));
  ignore syncToMarkdownLocked.

(** ** Heartbeat settings *)

Definition legacyDefaultHeartbeatDirective : string :=
  "Autonomous standing supervisor. Routinely review pending tasks in TASKS.md and monitor system stability.".
Definition default_config : HeartbeatConfig := mkHeartbeat true 5 "" "all" "all" 300 "" "" "" "".
Definition drop_legacy (c : HeartbeatConfig) : HeartbeatConfig :=
  if bool_decide (trim_space (Directives c) = legacyDefaultHeartbeatDirective) then with_directives "" c else c.

Definition GetHeartbeatConfig : task_op HeartbeatConfig :=
  m ← get;
  raw ← (if has_db m then attempt (_ ← db TaskDb; m ← get; match t_settings m with Some s => mret s | None => throw NoTask end) else mret (Err NoTask));
  let cfg := match raw with Ok s => if bool_decide (s = "") then default_config else merge_config s default_config | Err _ => default_config end in
  let cfg := if bool_decide (Directives cfg = "") && has_dir m then
               match heartbeat_md m with Some s => if bool_decide (s = "") then cfg else with_directives s cfg | None => cfg end
             else cfg in
  mret (drop_legacy cfg).

Definition SaveHeartbeatConfig (cfg : HeartbeatConfig) : task_op unit :=
  let cfg := drop_legacy cfg in
  m ← get;
  _ ← (if has_db m then
         match encode_config cfg with
         | None => throw ConfigEncoding
         | Some raw => _ ← db TaskDb; modify (set_settings (Some raw))
         end
       else mret tt);
  if has_dir m then modify (set_heartbeat_md (Some (Directives cfg))) else mret tt.
End tasks.
