(* ===== verification/PlanEngine.v ===== *)
(** * Working through a plan ([internal/agent/engine_plan.go])

    The engine runs the ready steps of a mission's plan, one or a few at a
    time, marks what came of each, and stores the plan after every turn.  The
    agents themselves, that is the loop around the language model, are a
    class: whatever they answer, the handlers below decide what becomes of the
    plan. *)

From S2P Require Import Prelude GoStrings Io Tables Registry GoText Planner Tasks.

#[local] Open Scope Z_scope.

Record Response := mkResponse { RContent : string; RToolCalls : list string; RTokens : Z }.
Inductive step_error := NeedsApproval (msg : string) | WasCancelled (msg : string) | OtherError (msg : string).
Definition err_text (e : step_error) : string := match e with NeedsApproval m | WasCancelled m | OtherError m => m end.

Inductive spawn_end := SpawnRefused | SpawnCancelled (msg : string) | SpawnOutput (out : string) (tokens : Z).

Definition history : Type := list (string * string).

(** What the engine is wired to, and what it is told: the answer to a question
    may be another every time, which the number of the question stands for. *)
Class Agents := {
  has_planner : bool; has_task_manager : bool; has_agent_manager : bool; has_swarm : bool;
  list_agents : nat -> option (list string);
  knows_agent : nat -> string -> bool;
  max_runs : nat -> string -> option Z;
  ask_planner : nat -> string -> option (list PlanStep);
  spawn : nat -> string -> PlanStep -> spawn_end;
  run_agent : nat -> string -> string -> history -> option Response * option step_error;
  ctx_err : nat -> option string;
  step_prompt : string -> string -> string -> string -> string -> string
}.

Definition maxAutonomousPlanStepsPerPulse : nat := 8.
Definition planStepNoHandoffNudge : string :=
  "No operator is waiting. Do not ask permission and do not offer the next step. Execute the current plan step now with tools and produce its deliverable.".
Definition cannedSuccessPhrase : string := "Completed requested operations successfully.".
Definition cannot_advance : string := "Plan cannot advance; remaining steps are blocked on unfinished or failed dependencies.".
Definition deliverableWriteTools : list string := ["native_file_write"; "native_file_edit"; "native_workspace_write"].

Section engine.
Context `{C : TaskCodec} `{U : Unicode} `{F : Folding} `{A : Agents}.

Definition IsCannedOrEmptyCompletion (content : string) : bool :=
  let trimmed := trim_space content in bool_decide (trimmed = "") || equal_fold trimmed cannedSuccessPhrase.
Definition HasDeliverableWrite (calls : list string) : bool := existsb (fun c => bool_decide (NormalizeToolName c ∈ deliverableWriteTools)) calls.

Definition planStepShouldComplete (step : PlanStep) (content : string) (resp : option Response) : bool :=
  if IsCannedOrEmptyCompletion content then false
  else
    let calls := match resp with Some r => RToolCalls r | None => [] end in
    let wrote := HasDeliverableWrite calls in
    if requiresArtifact step && negb wrote && bool_decide (calls = []) then false
    else negb (bool_decide (trim_space content = "")) || wrote.

Definition ExecuteStepWithHistory (agentID message : string) (h : history) : task_op (option Response * option step_error) :=
  n ← draw; mret (run_agent n agentID message h).

(** ** Storing the plan *)

(** The task with the plan, its status and progress brought in line. *)
Definition synced_task (task : AutonomousTask) (plan : TaskPlan) : AutonomousTask :=
  let task := with_plan (Some plan) task in
  if AllStepsCompleted plan then
    if bool_decide (TStatus task ∈ ["cancelled"; "blocked"]) then task
    else with_outcome "completed" 100 (CompletedAt task) task
  else
    let task := if bool_decide (TStatus task = "completed") then with_outcome "in_progress" (Progress task) None task else task in
    let pct := ProgressPercent plan in
    if Progress task <? pct then with_outcome (TStatus task) pct (CompletedAt task) task else task.

(** Changes the caller's task and, through the pointer, perhaps the plan. *)
Definition writeTaskPlan (task : AutonomousTask) (plan : TaskPlan) : task_op (AutonomousTask * TaskPlan) :=
  if negb has_task_manager then mret (task, plan)
  else
    let task := synced_task task plan in
    r ← UpdateTask task;
    let plan := default plan (fst r) in
    mret (with_plan (Some plan) task, plan).

(** [taskID] is the mission named by the context. *)
Definition persistTaskPlan (taskID : string) (plan : TaskPlan) : task_op TaskPlan :=
  if negb has_task_manager || bool_decide (taskID = "") then mret plan
  else
    task ← attempt (GetTask taskID);
    match task with
    | Err _ => mret plan
    | Ok task => r ← writeTaskPlan task plan; mret (snd r)
    end.

(** ** Running steps *)

Definition step_brief (s : PlanStep) : string :=
  if negb (bool_decide (trim_space (Title s) = "")) && negb (equal_fold (trim_space (Title s)) (trim_space (Description s)))
  then Title s +:+ " " +:+ String (byte_of 226) (String (byte_of 128) (String (byte_of 148) "")) +:+ " " +:+ Description s
  else Description s.

(** A step for a role nobody has is handed to a sub-agent; otherwise the agent
    of the role, or the mission's own, runs it. *)
Definition executeIndividualPlanStep (agentID goal : string) (step : PlanStep) (h : history)
  : task_op (option Response * string * option step_error) :=
  n ← draw;
  let wants := negb (bool_decide (AgentRole step = "")) && negb (bool_decide (AgentRole step = "general")) && has_agent_manager in
  let known := wants && knows_agent n (AgentRole step) in
  sub ← (if wants && negb known && has_swarm then k ← draw; mret (spawn k agentID step) else mret SpawnRefused);
  match sub with
  | SpawnCancelled msg => mret (None, "", Some (WasCancelled msg))
  | SpawnOutput out tokens => mret (Some (mkResponse out [] tokens), out, None)
  | SpawnRefused =>
    r ← ExecuteStepWithHistory (if known then AgentRole step else agentID)
          (step_prompt (ID step) goal (step_brief step) (AgentRole step) (Acceptance step)) h;
    let '(resp, err) := r in
    match err with
    | Some e => mret (resp, "", Some e)
    | None =>
      let content := match resp with Some r => RContent r | None => "" end in
      mret (resp, (if planStepShouldComplete step content resp then content else ""), None)
    end
  end.

(** What a step's end makes of the plan. *)
Definition transient (e : step_error) : bool :=
  isTransientExecutionError (match e with WasCancelled _ => true | _ => false end) (err_text e).
Definition record_outcome (id content : string) (err : option step_error) (p : TaskPlan) : TaskPlan :=
  match err with
  | Some (NeedsApproval msg) => MarkStep id StepStatusPaused (approvalPausedMarker +:+ " " +:+ msg) p
  | Some e =>
    if transient e then MarkStep id StepStatusPending ("Transient error (will retry): " +:+ err_text e) p
    else MarkStep id StepStatusFailed (err_text e) p
  | None => if bool_decide (content = "") then p else MarkStep id "completed" content p
  end.

(** ** One turn *)

Definition turn : Type := option Response * option TaskPlan * option step_error.

(** The plan at hand, or a new one. *)
Definition ensure_plan (goal taskID : string) (plan : option TaskPlan) : task_op (result string TaskPlan) :=
  let build :=
    n ← draw;
    match list_agents n with
    | None => mret (Err "listing agents for planning")
    | Some agents =>
      t ← now;
      k ← draw;
      p ← persistTaskPlan taskID (mkPlan goal (plan_steps goal agents (ask_planner k goal)) t);
      mret (Ok p)
    end in
  match plan with
  | Some p => if bool_decide (Steps p = []) then build else mret (Ok p)
  | None => build
  end.

(** When nothing is ready, steps that failed waiting for an approval are tried
    again. *)
Definition reopen_if_idle (taskID : string) (p : TaskPlan) : task_op TaskPlan :=
  if bool_decide (ReadySteps p = []) && fst (reopenApprovalFailedSteps p)
  then persistTaskPlan taskID (snd (reopenApprovalFailedSteps p)) else mret p.

Definition idle_turn (p : TaskPlan) : turn :=
  (Some (mkResponse (if AllStepsCompleted p then CompletionSummary p else cannot_advance) [] 0), Some p, None).

Definition ExecuteNextPlanStep (agentID goal taskID : string) (plan : option TaskPlan) (h : history) : task_op turn :=
  if negb has_planner then r ← ExecuteStepWithHistory agentID goal h; mret (fst r, plan, snd r)
  else
    e ← ensure_plan goal taskID plan;
    match e with
    | Err msg => mret (None, plan, Some (OtherError msg))
    | Ok p =>
      p ← reopen_if_idle taskID p;
      match NextReadyStep p with
      | None => mret (idle_turn p)
      | Some step =>
        r ← executeIndividualPlanStep agentID goal step h;
        let '(resp, content, err) := r in
        p ← persistTaskPlan taskID (record_outcome (ID step) content err p);
        mret (resp, Some p, err)
      end
    end.

(** The agents of a batch run at the same time; as each answers whatever it
    answers, running them one after the other is one of the orders. *)
Fixpoint run_batch (agentID goal : string) (batch : list PlanStep) (h : history)
  : task_op (list (PlanStep * (option Response * string * option step_error))) :=
  match batch with
  | [] => mret []
  | s :: batch' => r ← executeIndividualPlanStep agentID goal s h; rs ← run_batch agentID goal batch' h; mret ((s, r) :: rs)
  end.

Definition record_batch (results : list (PlanStep * (option Response * string * option step_error))) (p : TaskPlan) : TaskPlan :=
  foldl (fun p x => let '(s, (_, content, err)) := x in record_outcome (ID s) content err p) p results.
Definition batch_error (results : list (PlanStep * (option Response * string * option step_error))) : option step_error :=
  head (omap (fun x => snd (snd x)) results).
Definition batch_response (results : list (PlanStep * (option Response * string * option step_error))) : Response :=
  let said := omap (fun x : PlanStep * (option Response * string * option step_error) =>
      match x.2.1.1 with
      | Some r => if bool_decide (RContent r = "") then None else Some ("[" +:+ ID x.1 +:+ "]: " +:+ RContent r)
      | None => None
      end) results in
  mkResponse (join said (String (byte_of 10) (String (byte_of 10) ""))) []
    (foldr (fun x acc => match x.2.1.1 with Some r => RTokens r | None => 0 end + acc) 0 results).

Definition ExecuteBurstPlanSteps (agentID goal taskID : string) (plan : option TaskPlan) (h : history) : task_op turn :=
  if negb has_planner then r ← ExecuteStepWithHistory agentID goal h; mret (fst r, plan, snd r)
  else
    e ← ensure_plan goal taskID plan;
    match e with
    | Err msg => mret (None, plan, Some (OtherError msg))
    | Ok p =>
      p ← reopen_if_idle taskID p;
      match ReadySteps p with
      | [] => mret (idle_turn p)
      | [_] => ExecuteNextPlanStep agentID goal taskID (Some p) h
      | steps =>
        n ← draw;
        let limit := match (if has_agent_manager then max_runs n agentID else None) with Some m => if 0 <? m then m else 3 | None => 3 end in
        let numToRun := Z.min (Z.of_nat (List.length steps)) limit in
        if numToRun <=? 1 then ExecuteNextPlanStep agentID goal taskID (Some p) h
        else
          results ← run_batch agentID goal (take (Z.to_nat numToRun) steps) h;
          p ← persistTaskPlan taskID (record_batch results p);
          mret (Some (batch_response results), Some p, batch_error results)
      end
    end.

(** ** A whole pulse *)

(** At most [fuel] more turns; [last] is the last response. *)
Fixpoint drain (fuel : nat) (agentID goal taskID : string) (task : AutonomousTask) (plan : option TaskPlan)
    (retries : nat) (last : option Response) (h : history) : task_op (option Response * option step_error) :=
  match fuel with
  | O => mret (last, None)
  | S fuel' =>
    n ← draw;
    match ctx_err n with
    | Some msg => mret (last, Some (WasCancelled msg))
    | None =>
      let readyID := match plan with Some p => match NextReadyStep p with Some s => ID s | None => "" end | None => "" end in
      t ← ExecuteBurstPlanSteps agentID goal taskID plan h;
      let '(resp, nextPlan, stepErr) := t in
      w ← match nextPlan with
          | Some p => w ← writeTaskPlan task p; mret (fst w, Some (snd w))
          | None => mret (task, plan)
          end;
      let '(task, plan) := w in
      match stepErr, plan with
      | Some e, _ => mret (resp, Some e)
      | None, None => mret (resp, None)
      | None, Some p =>
        if AllStepsCompleted p then mret (resp, None)
        else if match resp with Some r => IsCannedOrEmptyCompletion (RContent r) | None => false end then mret (resp, None)
        else match NextReadyStep p with
             | None => mret (resp, None)
             | Some next =>
               let h := match resp with
                        | Some r => if bool_decide (trim_space (RContent r) = "") then h else h ++ [("assistant", RContent r)]
                        | None => h
                        end in
               if negb (bool_decide (readyID = "")) && bool_decide (ID next = readyID) then
                 if (0 <? retries)%nat then mret (resp, None)
                 else drain fuel' agentID goal taskID task plan (S retries) resp (h ++ [("user", planStepNoHandoffNudge)])
               else drain fuel' agentID goal taskID task plan 0 resp h
             end
      end
    end
  end.

Definition ExecuteAutonomousGoal (agentID goal taskID : string) (h : history) : task_op (option Response * option step_error) :=
  if negb has_planner || bool_decide (taskID = "") || negb has_task_manager then ExecuteStepWithHistory agentID goal h
  else
    task ← attempt (GetTask taskID);
    match task with
    | Err _ => ExecuteStepWithHistory agentID goal h
    | Ok task => drain maxAutonomousPlanStepsPerPulse agentID goal taskID task (TPlan task) 0 None h
    end.

(** ** After an approval ([engine_resume.go]) *)

(** [stepID] is the step named in the goal of the run that was resumed, which
    [PlanStepIDFromPrompt] reads. *)
Definition finishPlanStepAfterResume (taskID stepID : string) (resp : option Response) : task_op unit :=
  if negb has_task_manager || bool_decide (taskID = "") then mret tt
  else
    task ← attempt (GetTask taskID);
    match task with
    | Err _ => mret tt
    | Ok task =>
      match TPlan task with
      | None => mret tt
      | Some p =>
        let waiting s := bool_decide (Status s = StepStatusPaused) || (bool_decide (Status s = StepStatusFailed) && isApprovalPauseResult (Result s)) in
        let stepID := if bool_decide (stepID = "") then match find waiting (Steps p) with Some s => ID s | None => "" end else stepID in
        if bool_decide (stepID = "") then mret tt
        else
          let content := match resp with Some r => RContent r | None => "" end in
          let p := MarkStep stepID (if IsCannedOrEmptyCompletion content then StepStatusPending else StepStatusCompleted) content p in
          let task := if bool_decide (TStatus task = "blocked") then with_outcome "in_progress" (Progress task) None task else task in
          _ ← writeTaskPlan task p;
          mret tt
      end
    end.
End engine.
