(* ===== verification/PlanEngineSpec.v ===== *)
(** * What plans and the engine that runs them promise

    The shape of a normalized plan, its progress, and [ExecutePlan]: it ends,
    runs every step after its dependencies and at most once, and says truly
    why it stopped.

    An abstract scheduler knows only which steps are finished: it may finish a
    step whose dependencies are.  Whatever the agents answer and whatever
    statements fail, a turn of the engine is a run of this scheduler. *)

From S2P Require Import Prelude GoStrings Io Tables Registry GoText Planner Tasks PlanEngine.

#[local] Open Scope Z_scope.

(** ** Normalization *)

Section normalize.
Context `{U : Unicode}.

Definition step_ok (s : PlanStep) : Prop :=
  pending s = true /\ Description s <> "" /\ ID s <> "" /\ AgentRole s <> "" /\
  Kind s ∈ [""; StepKindProduce; StepKindResearch; StepKindVerify] /\
  NoDup (Dependencies s) /\ ID s ∉ Dependencies s.

Lemma clean_deps_ok id deps seen :
  let ds := clean_deps id deps seen in NoDup ds /\ (id ∉ ds) /\ forall d, d ∈ ds -> (d ∉ seen) /\ d <> "".
Proof.
  revert seen. induction deps as [|dep deps IH]; intros seen; cbn [clean_deps].
  { split; [constructor|]. split; [by apply not_elem_of_nil|]. intros d Hd. by apply not_elem_of_nil in Hd. }
  cbv zeta. destruct (_ || _) eqn:Hskip; [apply IH|]. rewrite !orb_false_iff, !bool_decide_eq_false in Hskip. destruct Hskip as [[Hne Hid] Hseen].
  destruct (IH (collapseSpace dep :: seen)) as (Hnd & Hnid & Hin). split; [|split].
  - constructor; [|done]. intros H%Hin. set_solver.
  - rewrite not_elem_of_cons. by split.
  - intros d [->|Hd]%elem_of_cons; [done|]. apply Hin in Hd. set_solver.
Qed.

Lemma task_id_ne n : task_id n <> "".
Proof. unfold task_id. by rewrite string_app_cons. Qed.

Lemma collect_steps_ok role steps out seen :
  role <> "" -> Forall step_ok out -> (List.length out <= maxPlanSteps)%nat ->
  Forall step_ok (collect_steps role steps out seen) /\ (List.length (collect_steps role steps out seen) <= maxPlanSteps)%nat.
Proof.
  intros Hrole. revert out seen. induction steps as [|step steps IH]; intros out seen Hout Hlen; [done|]. cbn [collect_steps].
  case_bool_decide as Hfull; [done|]. cbv zeta.
  set (desc := if bool_decide (collapseSpace (Description step) = "") then _ else _). case_bool_decide as Hd; [by apply IH|].
  set (id0 := if bool_decide (collapseSpace (ID step) = "") then _ else _). set (id := if bool_decide (id0 ∈ seen) then _ else _).
  set (r := if bool_decide (collapseSpace (AgentRole step) = "") then _ else _). apply IH.
  - apply Forall_app. split; [done|]. constructor; [|constructor].
    destruct (clean_deps_ok id (Dependencies step) []) as (Hnd & Hnid & _). unfold step_ok. cbn [pending Status Description ID AgentRole Kind Dependencies].
    split; [done|]. split; [done|]. split; [|split; [|split; [|by split]]].
    + unfold id, id0. repeat case_bool_decide; try apply task_id_ne; done.
    + unfold r. by case_bool_decide.
    + unfold normalizeStepKind. case_bool_decide as Hk; [|set_solver]. by right.
  - rewrite length_app. cbn. lia.
Qed.

(** Whatever the language model answered, a normalized plan has at most
    five steps, all pending, each with a description, an id, a role and a
    known kind, whose dependencies are distinct, exist in the plan, and do not
    include the step itself. *)
Theorem normalized_plan steps role :
  let out := normalizePlanSteps steps role in
  (List.length out <= maxPlanSteps)%nat /\ Forall step_ok out /\
  forall s d, s ∈ out -> d ∈ Dependencies s -> exists s', s' ∈ out /\ ID s' = d.
Proof.
  cbv zeta. unfold normalizePlanSteps. set (r := if bool_decide (role = "") then "general" else role).
  assert (Hr : r <> "") by (unfold r; by case_bool_decide).
  destruct (collect_steps_ok r steps [] [] Hr ltac:(constructor) ltac:(cbn; lia)) as [Hok Hlen].
  set (out := collect_steps r steps [] []) in *. set (known := ID <$> out). split; [by rewrite length_fmap|]. split.
  - apply Forall_fmap. eapply Forall_impl; [exact Hok|]. intros s (H1 & H2 & H3 & H4 & H5 & H6 & H7).
    unfold step_ok, compose. cbn [with_deps pending Status Description ID AgentRole Kind Dependencies].
    repeat split; try done; [by apply NoDup_filter|]. rewrite list_elem_of_filter. by intros [_ ?].
  - intros s d (s0 & -> & Hs0)%list_elem_of_fmap Hd. cbn [with_deps Dependencies] in Hd. apply list_elem_of_filter in Hd as [Hk _].
    unfold known in Hk. apply list_elem_of_fmap in Hk as (s1 & -> & Hs1).
    exists (with_deps (filter (fun d => d ∈ known) (Dependencies s1)) s1). split; [|done]. apply list_elem_of_fmap. by exists s1.
Qed.

(** Two steps may still share an id: a repeated [task_2] in second place is
    renamed [task_2]. *)
Example repeated_id :
  let s := mkStep "task_2" "t" "d" "" "" "" false [] "" "" in ID <$> normalizePlanSteps [s; s] "" = ["task_2"; "task_2"].
Proof. vm_compute. reflexivity. Qed.
End normalize.

(** The transient error of a cascade is never recognized: no lower-cased text
    has the capitals of the marker. *)
Example cascade_error_is_fatal : isTransientExecutionError (U := ascii_tables) false "all LLM providers in cascade failed" = false.
Proof. vm_compute. reflexivity. Qed.

(** ** Progress *)

Lemma completed_count steps :
  List.length (filter (fun s => completed s = true) steps) = List.length steps <-> forallb completed steps = true.
Proof.
  induction steps as [|s steps IH]; [done|]. cbn [forallb]. destruct (completed s) eqn:Hs.
  - rewrite filter_cons_True by done. cbn [List.length andb]. rewrite <- IH. lia.
  - rewrite filter_cons_False by (by rewrite Hs). cbn [List.length andb].
    pose proof (length_filter (fun s => completed s = true) steps). split; [lia|done].
Qed.

(** Progress is a percentage, and full exactly when every step is completed. *)
Lemma ProgressPercent_bounds p : 0 <= ProgressPercent p <= 100 /\ (ProgressPercent p = 100 <-> AllStepsCompleted p = true).
Proof.
  unfold ProgressPercent, AllStepsCompleted. destruct (Steps p) as [|s l]; [by split|].
  rewrite bool_decide_false by done. cbn [negb andb]. rewrite <- completed_count.
  pose proof (length_filter (fun s => completed s = true) (s :: l)) as Hle. assert (Hn : (0 < List.length (s :: l))%nat) by (cbn; lia).
  revert Hle Hn. generalize (List.length (filter (fun s => completed s = true) (s :: l))), (List.length (s :: l)). intros c n Hle Hn.
  rewrite Z.quot_div_nonneg by lia. split; [split; [apply Z.div_pos; lia|apply Z.div_le_upper_bound; lia]|]. split.
  - intros He. pose proof (Z.mul_div_le (Z.of_nat c * 100) (Z.of_nat n) ltac:(lia)) as Hm. rewrite He in Hm. lia.
  - intros ->. rewrite Z.mul_comm. apply Z.div_mul. lia.
Qed.

(** ** One round *)

Section execute.
Context {W : Type} (stepExecutor : PlanStep -> W -> result string string * W).

Fixpoint done_after (comp : list string) (tr : list PlanStep) : list string :=
  match tr with [] => comp | s :: tr' => done_after (ID s :: comp) tr' end.

Lemma done_after_mono comp tr d : d ∈ comp -> d ∈ done_after comp tr.
Proof. revert comp. induction tr as [|s tr IH]; intros comp H; cbn; [done|]. apply IH. set_solver. Qed.






(** ** All rounds *)






End execute.

(** A step whose dependency was completed before the call is never run: the
    call only counts what it completes itself. *)
Example completed_dependency_deadlocks :
  let a := mkStep "a" "" "x" "" "" "" false [] "completed" "r" in
  let b := mkStep "b" "" "y" "" "" "" false ["a"] "pending" "" in
  let run := fun (_ : PlanStep) (w : unit) => (Ok "done", w) in
  ((fun x => snd (fst x)) <$> ExecutePlan run (mkPlan "" [a; b] 0) tt) = Some (Some Deadlock) /\ ReadySteps (mkPlan "" [a; b] 0) = [b].
Proof. vm_compute. by split. Qed.

(** Plans are not checked before they run: of two steps with one id both run,
    and what does not depend on an unknown step, or is not on a cycle, is run
    before the deadlock is reported. *)
Example bad_plans_run :
  let st id ds := mkStep id "" "x" "" "" "" false ds "pending" "" in
  let run := fun (s : PlanStep) (w : list string) => (Ok "done" : result string string, w ++ [ID s]) in
  let went l := (fun x => (snd (fst x), snd x)) <$> ExecutePlan run (mkPlan "" l 0) [] in
  went [st "a" []; st "a" []] = Some (None, ["a"; "a"]) /\
  went [st "a" []; st "b" ["nowhere"]] = Some (Some Deadlock, ["a"]) /\
  went [st "a" []; st "b" ["c"]; st "c" ["b"]] = Some (Some Deadlock, ["a"]).
Proof. vm_compute. by split_and!. Qed.

(** ** The engine schedules the graph of steps *)


(** ** The abstract scheduler *)

(** The graph: a step's id and what it waits for. *)
Definition graph (p : TaskPlan) : list (string * list string) := (fun s => (ID s, Dependencies s)) <$> Steps p.
Definition finished (p : TaskPlan) : gset string := list_to_set (completed_ids (Steps p)).

Inductive sched (g : list (string * list string)) : gset string -> gset string -> Prop :=
  sched_finish i ds (D : gset string) :
    (i, ds) ∈ g -> i ∉ D -> (forall d, d ∈ ds -> d ∈ D) -> sched g D ({[i]} ∪ D).

(** ** Marking a step *)

Lemma elem_of_finished p x : x ∈ finished p <-> exists s, s ∈ Steps p /\ completed s = true /\ ID s = x.
Proof.
  unfold finished, completed_ids. rewrite elem_of_list_to_set, list_elem_of_fmap. setoid_rewrite list_elem_of_filter. naive_solver.
Qed.

Definition marked (id st r : string) (s : PlanStep) : PlanStep := if bool_decide (ID s = id) then with_status st r s else s.

Lemma mark_not_there id st r (l : list PlanStep) : id ∉ ID <$> l -> marked id st r <$> l = l.
Proof.
  induction l as [|s l IH]; [done|]. rewrite fmap_cons, not_elem_of_cons. intros [Hs Hl]. cbn [fmap list_fmap].
  unfold marked at 1. rewrite bool_decide_false by done. by rewrite (IH Hl).
Qed.
Lemma mark_marked id st r l : NoDup (ID <$> l) -> mark id st r l = marked id st r <$> l.
Proof.
  induction l as [|s l IH]; [done|]. rewrite fmap_cons, NoDup_cons. intros [Hs Hl]. cbn [mark fmap list_fmap]. unfold marked at 1.
  case_bool_decide as He; [|by rewrite IH]. f_equal. symmetry. apply mark_not_there. by rewrite <- He.
Qed.

Lemma MarkStep_graph id st r p : graph (MarkStep id st r p) = graph p.
Proof.
  unfold graph, MarkStep, with_steps. cbn [Steps]. induction (Steps p) as [|s l IH]; [done|]. cbn [mark].
  case_bool_decide; cbn [fmap list_fmap]; [done|]. f_equal. exact IH.
Qed.
Lemma graph_ids p : ID <$> Steps p = (graph p).*1.
Proof. unfold graph. rewrite <- list_fmap_compose. done. Qed.

Lemma MarkStep_in id st r p s : NoDup (ID <$> Steps p) -> s ∈ Steps p -> ID s <> id -> s ∈ Steps (MarkStep id st r p).
Proof.
  intros Hnd Hs Hne. unfold MarkStep, with_steps. cbn [Steps]. rewrite mark_marked by done. apply list_elem_of_fmap. exists s.
  split; [|done]. unfold marked. by rewrite bool_decide_false.
Qed.

(** Ids are unique, so a mark touches the one step. *)
Lemma MarkStep_finished id st r p s :
  NoDup (ID <$> Steps p) -> s ∈ Steps p -> ID s = id -> completed s = false ->
  finished (MarkStep id st r p) = if bool_decide (st = "completed") then {[id]} ∪ finished p else finished p.
Proof.
  intros Hnd Hs Hid Hc. apply set_eq. intros x. rewrite elem_of_finished. unfold MarkStep, with_steps. cbn [Steps].
  rewrite mark_marked by done.
  assert (Huniq : forall s', s' ∈ Steps p -> ID s' = id -> s' = s).
  { intros s' Hs' He. apply list_elem_of_lookup in Hs as [i Hi], Hs' as [j Hj]. rewrite <- Hid in He.
    assert (j = i) as ->; [|congruence]. apply (NoDup_lookup (ID <$> Steps p) j i (ID s') Hnd); rewrite list_lookup_fmap; [by rewrite Hj|rewrite Hi; cbn; congruence]. }
  setoid_rewrite list_elem_of_fmap. case_bool_decide as Hst.
  - subst st. rewrite elem_of_union, elem_of_singleton, elem_of_finished. split.
    + intros (s1 & (s2 & -> & Hs2) & Hc1 & <-). unfold marked in *. case_bool_decide as He; [by left|]. right. by exists s2.
    + intros [->|(s2 & Hs2 & Hc2 & <-)].
      * exists (with_status "completed" r s). split; [|by split]. exists s. split; [|done]. unfold marked. by rewrite bool_decide_true.
      * exists s2. split; [|done]. exists s2. split; [|done]. unfold marked. rewrite bool_decide_false; [done|]. intros He.
        rewrite (Huniq s2 Hs2 He) in Hc2. congruence.
  - rewrite elem_of_finished. split.
    + intros (s1 & (s2 & -> & Hs2) & Hc1 & <-). unfold marked in *. case_bool_decide as He; [|by exists s2].
      exfalso. unfold completed in Hc1. cbn [with_status Status] in Hc1. by apply bool_decide_eq_true in Hc1.
    + intros (s2 & Hs2 & Hc2 & <-). exists s2. split; [|done]. exists s2. split; [|done]. unfold marked.
      rewrite bool_decide_false; [done|]. intros He. rewrite (Huniq s2 Hs2 He) in Hc2. congruence.
Qed.

Section engine.
Context `{C : TaskCodec} `{U : Unicode} `{F : Folding} `{A : Agents}.

(** A step that may be finished now. *)
Definition runnable (p : TaskPlan) (s : PlanStep) : Prop :=
  s ∈ Steps p /\ completed s = false /\ forall d, d ∈ Dependencies s -> d ∈ finished p.

(** The plan after a change: the same graph, more finished. *)
Definition advances (p p' : TaskPlan) : Prop := graph p' = graph p /\ rtc (sched (graph p)) (finished p) (finished p').

Lemma advances_refl p : advances p p.
Proof. by split. Qed.
Lemma advances_trans p1 p2 p3 : advances p1 p2 -> advances p2 p3 -> advances p1 p3.
Proof. intros [H1 H2] [H3 H4]. split; [congruence|]. rewrite H1 in H4. by etransitivity. Qed.

Lemma MarkStep_advances id st r p s :
  NoDup (ID <$> Steps p) -> runnable p s -> ID s = id -> advances p (MarkStep id st r p).
Proof.
  intros Hnd (Hs & Hc & Hd) Hid. split; [apply MarkStep_graph|]. rewrite (MarkStep_finished id st r p s) by done.
  case_bool_decide; [|done]. apply rtc_once. apply (sched_finish _ id (Dependencies s)); [| |done].
  - unfold graph. apply list_elem_of_fmap. exists s. by rewrite Hid.
  - rewrite elem_of_finished. intros (s' & Hs' & Hc' & He).
    apply list_elem_of_lookup in Hs as [i Hi], Hs' as [j Hj].
    assert (j = i) as ->; [|congruence]. apply (NoDup_lookup (ID <$> Steps p) j i (ID s') Hnd); rewrite list_lookup_fmap; [by rewrite Hj|rewrite Hi; cbn; congruence].
Qed.

Lemma record_outcome_mark id content err p :
  record_outcome id content err p = p \/ exists st r, record_outcome id content err p = MarkStep id st r p.
Proof. unfold record_outcome. destruct err as [[]|]; [| | |case_bool_decide]; try destruct (transient _); eauto. Qed.

Lemma record_outcome_advances s content err p :
  NoDup (ID <$> Steps p) -> runnable p s -> advances p (record_outcome (ID s) content err p).
Proof.
  intros Hnd Hs. destruct (record_outcome_mark (ID s) content err p) as [->|(st & r & ->)]; [apply advances_refl|by eapply MarkStep_advances].
Qed.

Lemma sched_mono g D D' : rtc (sched g) D D' -> D ⊆ D'.
Proof. induction 1 as [|D1 D2 D3 H _ IH]; [done|]. destruct H. set_solver. Qed.

Lemma record_outcome_runnable s s' content err p :
  NoDup (ID <$> Steps p) -> runnable p s -> runnable p s' -> ID s' <> ID s -> runnable (record_outcome (ID s) content err p) s'.
Proof.
  intros Hnd Hs (Hs1 & Hc & Hd) Hne. destruct (record_outcome_advances s content err p Hnd Hs) as [_ Hadv]. apply sched_mono in Hadv.
  split; [|split; [done|]].
  - destruct (record_outcome_mark (ID s) content err p) as [->|(st & r & ->)]; [done|]. by apply MarkStep_in.
  - intros d Hdd. set_solver.
Qed.

Lemma record_batch_advances results p :
  NoDup (ID <$> Steps p) -> NoDup (ID <$> results.*1) -> Forall (runnable p) results.*1 -> advances p (record_batch results p).
Proof.
  revert p. induction results as [|[s [[resp content] err]] results IH]; intros p Hnd Hids Hrun; [apply advances_refl|].
  cbn [fmap list_fmap fst] in Hids, Hrun. apply NoDup_cons in Hids as [Hnin Hids]. apply Forall_cons in Hrun as [Hs Hrun].
  pose proof (record_outcome_advances s content err p Hnd Hs) as Hadv. eapply advances_trans; [exact Hadv|].
  change (record_batch ((s, (resp, content, err)) :: results) p) with (record_batch results (record_outcome (ID s) content err p)).
  apply IH; [|done|].
  - by rewrite graph_ids, (proj1 Hadv), <- graph_ids.
  - rewrite Forall_forall in *. intros s' Hs'. apply record_outcome_runnable; [done|done|by apply Hrun|].
    intros He. apply Hnin. rewrite <- He. by apply list_elem_of_fmap_2.
Qed.

(** ** What is ready may be finished *)

Lemma ready_runnable p s : s ∈ ReadySteps p -> runnable p s.
Proof.
  unfold ReadySteps. rewrite list_elem_of_filter. unfold ready. rewrite andb_true_iff, forallb_elem. intros [[Hp Hd] Hs].
  split; [done|]. split.
  - apply orb_true_iff in Hp as [Hp|Hp]; unfold pending, completed in *; apply bool_decide_eq_true in Hp; apply bool_decide_eq_false; congruence.
  - intros d Hdd. specialize (Hd d Hdd). apply bool_decide_eq_true in Hd. unfold finished. by rewrite elem_of_list_to_set.
Qed.
Lemma ready_nodup p : NoDup (ID <$> Steps p) -> NoDup (ID <$> ReadySteps p).
Proof.
  intros H. eapply sublist_NoDup; [exact H|]. apply fmap_sublist, sublist_filter.
Qed.

(** ** Storing the plan leaves it as it is *)

Lemma attempt_ends {S E T} (m : io S E T) s e : wp (attempt m) (fun r _ _ => exists x, r = Ok x) s e.
Proof. unfold wp, attempt. destruct (m s e) as [r [s' e']]. by eexists. Qed.

Lemma GetTask_reads id s e :
  wp (GetTask id) (fun r s' _ => s' = s /\ forall t, r = Ok t -> exists row, find_task id (t_tasks s) = Some row /\ t = scan_task row) s e.
Proof.
  unfold GetTask. wp_go; (split; [done|]); intros ? Ht; simplify_eq; eauto.
Qed.

(** What the update reads of the old row; nothing when the read fails. *)
Definition read_old (id : string) (s : TaskManager) (old : string * Z) : Prop :=
  old = ("", 0) \/ exists row, find_task id (t_tasks s) = Some row /\ old = (TStatus (row_task row), Progress (row_task row)).

Lemma UpdateTask_plan t s e :
  wp (UpdateTask t) (fun r _ _ => exists plan x, r = Ok (plan, x) /\
    (plan = TPlan t \/ exists old at_, read_old (TID t) s old /\
       plan = reopened_plan (snd old) (isOperatorReset (fst old) (snd old) (closed_task at_ t)) (closed_task at_ t) <$> TPlan t)) s e.
Proof.
  assert (Hid : forall at_, TID (closed_task at_ t) = TID t) by (intros at_; unfold closed_task; by destruct (_ && _)).
  assert (Hplan : forall at_, TPlan (closed_task at_ t) = TPlan t) by (intros at_; unfold closed_task; by destruct (_ && _)).
  unfold UpdateTask. apply wp_bind, wp_get. cbn beta iota. destruct (negb (has_db s)); [apply wp_ret; eexists _, _; split; [done|by left]|].
  apply wp_bind, wp_now. intros e1 _ _. cbn beta iota zeta. apply wp_bind.
  eapply (wp_mono _ (fun r s' _ => s' = s /\ exists o, r = Ok o /\ match o with Ok row => find_task (TID t) (t_tasks s) = Some row | Err _ => True end)).
  { apply wp_attempt. rewrite Hid. wp_go; (split; [done|]); eexists; (split; [done|]); try done. }
  intros r s' e2 (-> & o & -> & Ho). cbn beta iota.
  assert (Hold : exists old, read_old (TID t) s old /\ exists pl, match o with Ok r => (TStatus (row_task r), Progress (row_task r), plan_json r) | Err _ => ("", 0, "") end = (old, pl)).
  { destruct o as [row|]; [exists (TStatus (row_task row), Progress (row_task row))|exists ("", 0)]; (split; [|by eexists]); [right; eauto|by left]. }
  destruct Hold as ([oldS oldP] & Hr & pl & ->). cbv zeta. set (b := isOperatorReset oldS oldP _). apply wp_bind.
  eapply (wp_mono _ (fun r _ _ => exists x, r = Ok x)).
  { apply attempt_ends. }
  intros r3 s3 e3 (x & ->). cbn beta iota. apply wp_ret. eexists _, x. split; [reflexivity|]. right. exists (oldS, oldP), (clock e1). split; [exact Hr|].
  cbn [fst snd]. fold b. destruct b; [change (TPlan (with_counts 0 0 (closed_task (clock e1) t))) with (TPlan (closed_task (clock e1) t))|]; by rewrite Hplan.
Qed.

Definition in_line (task t : AutonomousTask) : Prop :=
  (TStatus t = TStatus task \/ TStatus t = "completed" \/ (TStatus task = "completed" /\ TStatus t = "in_progress")) /\
  (Progress t = Progress task \/ Progress task < Progress t \/ 100 <= Progress t).

Lemma synced_in_line task p : in_line task (synced_task task p).
Proof.
  unfold synced_task. cbv zeta. destruct (AllStepsCompleted p).
  - destruct (bool_decide _); (split; [cbn; auto|cbn; lia]).
  - case_bool_decide as Hc.
    + destruct (_ <? _) eqn:Hlt; (split; [right; right; by split|]); cbn in *; lia.
    + destruct (_ <? _) eqn:Hlt; (split; [by left|]); cbn in *; lia.
Qed.
Lemma closed_in_line task t at_ : in_line task t -> in_line task (closed_task at_ t).
Proof.
  intros [Hs Hp]. unfold closed_task. cbv zeta. destruct (_ && _); [|by split]. split; [exact Hs|]. cbn. lia.
Qed.

Lemma synced_no_reset task p at_ old :
  old = ("", 0) \/ old = (TStatus task, Progress task) ->
  reopened_plan (snd old) (isOperatorReset (fst old) (snd old) (closed_task at_ (synced_task task p))) (closed_task at_ (synced_task task p)) p = p.
Proof.
  intros Hold. pose proof (closed_in_line _ _ at_ (synced_in_line task p)) as Ht. revert Ht. generalize (closed_task at_ (synced_task task p)).
  intros t Ht.
  destruct Ht as [Hst Hpr]. unfold reopened_plan.
  assert (Hrew : rewound (snd old) (Progress t) = false).
  { unfold rewound. destruct Hold as [->| ->]; cbn [snd]; lia. }
  assert (Hreset : isOperatorReset (fst old) (snd old) t = false); [|by rewrite Hreset, Hrew].
  unfold isOperatorReset. rewrite Hrew. cbn [orb]. apply andb_false_iff. destruct Hold as [->| ->]; cbn [fst]; [by left|].
  destruct (decide (TStatus task ∈ ["blocked"; "failed"; "cancelled"])) as [Hin|Hin]; [right|left; by apply bool_decide_eq_false].
  apply bool_decide_eq_false. intros Hin2.
  repeat apply elem_of_cons in Hin as [Hin|Hin]; try by apply not_elem_of_nil in Hin.
  all: repeat apply elem_of_cons in Hin2 as [Hin2|Hin2]; try by apply not_elem_of_nil in Hin2.
  all: destruct Hst as [Hst|[Hst|[Hst Hst2]]]; congruence.
Qed.

Lemma writeTaskPlan_plan task p s e :
  (forall row, find_task (TID task) (t_tasks s) = Some row -> TStatus (row_task row) = TStatus task /\ Progress (row_task row) = Progress task) ->
  wp (writeTaskPlan task p) (fun r _ _ => exists t, r = Ok (t, p)) s e.
Proof.
  intros Hrow. unfold writeTaskPlan. destruct (negb has_task_manager); [apply wp_ret; by eexists|]. cbv zeta. apply wp_bind.
  eapply wp_mono; [apply UpdateTask_plan|]. intros r s' e' (plan & x & -> & Hplan). cbn beta iota. apply wp_ret. eexists. cbn [fst].
  assert (Hsp : TPlan (synced_task task p) = Some p).
  { unfold synced_task. destruct (AllStepsCompleted p); [case_bool_decide|]; try done. cbv zeta. repeat case_bool_decide; by destruct (_ <? _). }
  assert (Hid : TID (synced_task task p) = TID task).
  { unfold synced_task. destruct (AllStepsCompleted p); [case_bool_decide|]; try done. cbv zeta. repeat case_bool_decide; by destruct (_ <? _). }
  assert (plan = Some p) as ->; [|done]. destruct Hplan as [->|(old & at_ & Hr & ->)]; [done|]. rewrite Hsp. cbn [fmap option_fmap option_map].
  f_equal. apply synced_no_reset. rewrite Hid in Hr. destruct Hr as [->|(row & Hf & ->)]; [by left|]. right. destruct (Hrow row Hf) as [-> ->]. done.
Qed.

Lemma persistTaskPlan_plan taskID p s e : wp (persistTaskPlan taskID p) (fun r _ _ => r = Ok p) s e.
Proof.
  unfold persistTaskPlan. destruct (_ || _); [by apply wp_ret|]. apply wp_bind, wp_attempt.
  eapply wp_mono; [apply GetTask_reads|]. intros r s' e' (-> & Ht). cbn beta iota. destruct r as [t|x]; [|by apply wp_ret].
  destruct (Ht t eq_refl) as (row & Hf & ->). apply wp_bind. eapply wp_mono; [apply writeTaskPlan_plan|].
  - intros row' Hf'. assert (TID (scan_task row) = taskID) as Hid.
    { apply find_some in Hf as [_ Hf]. by apply bool_decide_eq_true in Hf. }
    rewrite Hid in Hf'. rewrite Hf in Hf'. injection Hf' as <-. done.
  - intros r2 s2 e2 (t & ->). cbn beta iota. by apply wp_ret.
Qed.

(** ** A turn *)

Lemma ensure_plan_keeps goal taskID p s e : Steps p <> [] -> wp (ensure_plan goal taskID (Some p)) (fun r s' e' => r = Ok (Ok p)) s e.
Proof. intros Hp. unfold ensure_plan. rewrite bool_decide_false by done. by apply wp_ret. Qed.

Lemma reopen_advances p : graph (snd (reopenApprovalFailedSteps p)) = graph p /\ finished (snd (reopenApprovalFailedSteps p)) = finished p.
Proof.
  cbn [reopenApprovalFailedSteps snd]. split.
  - unfold graph, with_steps. cbn [Steps]. rewrite <- list_fmap_compose. apply list_fmap_ext. intros i s _. unfold compose, reopen. by destruct (_ && _).
  - apply set_eq. intros x. rewrite !elem_of_finished. unfold with_steps. cbn [Steps]. setoid_rewrite list_elem_of_fmap. split.
    + intros (s & (s0 & -> & Hs0) & Hc & <-). unfold reopen in *. destruct (_ && _); [done|]. by exists s0.
    + intros (s & Hs & Hc & <-). exists (reopen true s). assert (reopen true s = s) as ->; [|split; [|done]; exists s; split; [|done]].
      all: unfold reopen; destruct (_ && _) eqn:Hf; [|done]; apply andb_true_iff in Hf as [Hf _]; unfold completed in Hc;
        apply bool_decide_eq_true in Hf, Hc; congruence.
Qed.

Lemma reopen_if_idle_advances taskID p s e : wp (reopen_if_idle taskID p) (fun r _ _ => exists p', r = Ok p' /\ advances p p') s e.
Proof.
  unfold reopen_if_idle. destruct (_ && _); [|apply wp_ret; exists p; split; [done|apply advances_refl]].
  eapply wp_mono; [apply persistTaskPlan_plan|]. intros r s' e' ->. eexists. split; [done|]. destruct (reopen_advances p) as [Hg Hf].
  split; [done|]. by rewrite Hf.
Qed.

(** The turn gives back a plan the scheduler can reach. *)
Definition turn_advances (p : TaskPlan) (r : result task_error turn) : Prop :=
  exists resp p' err, r = Ok (resp, Some p', err) /\ advances p p'.

Lemma ExecuteStepWithHistory_ends agentID m h s e : wp (ExecuteStepWithHistory agentID m h) (fun r _ _ => exists x, r = Ok x) s e.
Proof. unfold ExecuteStepWithHistory. wp_go. by eexists. Qed.

Lemma executeIndividual_ends agentID goal st h s e : wp (executeIndividualPlanStep agentID goal st h) (fun r _ _ => exists x, r = Ok x) s e.
Proof.
  unfold executeIndividualPlanStep. apply wp_bind, wp_draw. intros e1 _ _ _. cbn beta iota zeta. apply wp_bind.
  eapply (wp_mono _ (fun r _ _ => exists x, r = Ok x)); [destruct (_ && _ && _); wp_go; by eexists|]. intros r s1 e2 (sub & ->). cbn beta iota.
  destruct sub; [|apply wp_ret; by eexists..]. apply wp_bind. eapply wp_mono; [apply ExecuteStepWithHistory_ends|].
  intros r s2 e3 ([resp err] & ->). cbn beta iota. destruct err; apply wp_ret; by eexists.
Qed.

Lemma run_batch_ends agentID goal batch h s e :
  wp (run_batch agentID goal batch h) (fun r _ _ => exists rs, r = Ok rs /\ rs.*1 = batch) s e.
Proof.
  revert s e. induction batch as [|st batch IH]; intros s e; cbn [run_batch]; [apply wp_ret; by exists []|].
  apply wp_bind. eapply wp_mono; [apply executeIndividual_ends|]. intros r s1 e1 (x & ->). cbn beta iota.
  apply wp_bind. eapply wp_mono; [apply IH|]. intros r s2 e2 (rs & -> & Hrs). cbn beta iota. apply wp_ret. exists ((st, x) :: rs). split; [done|].
  cbn. by f_equal.
Qed.

Lemma without_planner_advances agentID goal p h s e :
  wp (r ← ExecuteStepWithHistory agentID goal h; mret (fst r, Some p, snd r)) (fun r _ _ => turn_advances p r) s e.
Proof.
  apply wp_bind. eapply wp_mono; [apply ExecuteStepWithHistory_ends|]. intros r s1 e1 (x & ->). cbn beta iota. apply wp_ret.
  eexists _, p, _. split; [done|apply advances_refl].
Qed.

Lemma advances_nodup p p' : advances p p' -> NoDup (ID <$> Steps p) -> NoDup (ID <$> Steps p').
Proof. intros [Hg _]. rewrite !graph_ids. by rewrite Hg. Qed.

Lemma next_turn_advances agentID goal taskID p h s e :
  Steps p <> [] -> NoDup (ID <$> Steps p) -> wp (ExecuteNextPlanStep agentID goal taskID (Some p) h) (fun r _ _ => turn_advances p r) s e.
Proof.
  intros Hp Hnd. unfold ExecuteNextPlanStep. destruct (negb has_planner); [apply without_planner_advances|].
  apply wp_bind. eapply wp_mono; [by apply ensure_plan_keeps|]. intros r s1 e1 ->. cbn beta iota.
  apply wp_bind. eapply wp_mono; [apply reopen_if_idle_advances|]. intros r s2 e2 (p1 & -> & H1). cbn beta iota.
  destruct (NextReadyStep p1) as [st|] eqn:Hst; [|apply wp_ret; eexists _, p1, _; by split].
  apply wp_bind. eapply wp_mono; [apply executeIndividual_ends|]. intros r s3 e3 ([[resp content] err] & ->). cbn beta iota.
  apply wp_bind. eapply wp_mono; [apply persistTaskPlan_plan|]. intros r s4 e4 ->. cbn beta iota. apply wp_ret.
  eexists _, _, _. split; [reflexivity|]. eapply advances_trans; [exact H1|]. apply record_outcome_advances; [by eapply advances_nodup|].
  apply ready_runnable. unfold NextReadyStep in Hst. destruct (ReadySteps p1); [done|]. injection Hst as ->. by left.
Qed.

Lemma burst_turn_advances agentID goal taskID p h s e :
  Steps p <> [] -> NoDup (ID <$> Steps p) -> wp (ExecuteBurstPlanSteps agentID goal taskID (Some p) h) (fun r _ _ => turn_advances p r) s e.
Proof.
  intros Hp Hnd. unfold ExecuteBurstPlanSteps. destruct (negb has_planner); [apply without_planner_advances|].
  apply wp_bind. eapply wp_mono; [by apply ensure_plan_keeps|]. intros r s1 e1 ->. cbn beta iota.
  apply wp_bind. eapply wp_mono; [apply reopen_if_idle_advances|]. intros r s2 e2 (p1 & -> & H1). cbn beta iota.
  pose proof (advances_nodup _ _ H1 Hnd) as Hnd1.
  assert (Hp1 : Steps p1 <> []).
  { intros He. apply Hp. apply (f_equal (List.length (A:=_))) in He. assert (Hl : List.length (graph p1) = List.length (graph p)) by (by rewrite (proj1 H1)).
    unfold graph in Hl. rewrite !length_fmap in Hl. rewrite He in Hl. by apply nil_length_inv. }
  assert (Hnext : forall s e, wp (ExecuteNextPlanStep agentID goal taskID (Some p1) h) (fun r _ _ => turn_advances p r) s e).
  { intros s' e'. eapply wp_mono; [by apply next_turn_advances|]. intros r _ _ (resp & p' & err & -> & H'). eexists _, _, _. split; [done|].
    by eapply advances_trans. }
  destruct (ReadySteps p1) as [|st1 [|st2 l]] eqn:Hready; [apply wp_ret; eexists _, p1, _; by split|apply Hnext|].
  rewrite <- Hready. clear Hready. apply wp_bind, wp_draw. intros e3 _ _ _. cbn beta iota zeta. destruct (_ <=? 1); [apply Hnext|].
  apply wp_bind. eapply wp_mono; [apply run_batch_ends|]. intros r s3 e4 (rs & -> & Hrs). cbn beta iota.
  apply wp_bind. eapply wp_mono; [apply persistTaskPlan_plan|]. intros r s4 e5 ->. cbn beta iota. apply wp_ret.
  eexists _, _, _. split; [reflexivity|]. eapply advances_trans; [exact H1|]. apply record_batch_advances; [done| |].
  - rewrite Hrs. eapply sublist_NoDup; [apply (ready_nodup p1 Hnd1)|]. apply fmap_sublist, sublist_take.
  - rewrite Hrs. apply Forall_forall. intros s' Hs'. apply ready_runnable. eapply elem_of_take in Hs'. by destruct Hs' as (i & Hi & _); eapply list_elem_of_lookup_2.
Qed.

(** C15. The engine refines the scheduler of the graph: whatever the agents
    answer, fail with or are refused, however many steps run at once, and
    whatever statement fails, a turn leaves the graph as it is and finishes
    steps only after all they depend on; a finished step stays finished. *)
Theorem turn_refines agentID goal taskID p h s e resp plan err s' e' :
  NoDup (ID <$> Steps p) -> Steps p <> [] ->
  ExecuteBurstPlanSteps agentID goal taskID (Some p) h s e = (Ok (resp, plan, err), (s', e')) ->
  exists p', plan = Some p' /\ graph p' = graph p /\ rtc (sched (graph p)) (finished p) (finished p').
Proof.
  intros Hnd Hp Hrun. destruct (run_wp _ _ _ _ _ _ _ (burst_turn_advances agentID goal taskID p h s e Hp Hnd) Hrun) as (? & p' & ? & [= <- -> <-] & H).
  by exists p'.
Qed.
End engine.

(** ** A plan that can go on does *)

(** Dependencies are in the plan and do not run in a circle, and what is not
    completed is pending: then some step is ready, until all are completed. *)
Theorem never_idle (rank : string -> nat) p :
  (forall s d, s ∈ Steps p -> d ∈ Dependencies s -> (rank d < rank (ID s))%nat /\ exists s', s' ∈ Steps p /\ ID s' = d) ->
  (forall s, s ∈ Steps p -> completed s = true \/ pending s = true) ->
  Steps p <> [] -> AllStepsCompleted p = false -> ReadySteps p <> [].
Proof.
  intros Hdeps Hst Hne Hall. unfold AllStepsCompleted in Hall. rewrite (bool_decide_false _ Hne) in Hall. cbn [negb andb] in Hall.
  assert (Hopen : exists s, s ∈ Steps p /\ completed s = false).
  { clear -Hall. induction (Steps p) as [|s l IH]; [done|]. cbn [forallb] in Hall. destruct (completed s) eqn:Hs.
    - destruct (IH Hall) as (s' & H1 & H2). exists s'. split; [by right|done].
    - exists s. split; [by left|done]. }
  assert (Hfind : forall n s, rank (ID s) = n -> s ∈ Steps p -> completed s = false -> exists s', s' ∈ ReadySteps p).
  { intros n. induction n as [n IH] using lt_wf_ind. intros s Hr Hs Hc. destruct (ready (completed_ids (Steps p)) s) eqn:Hready.
    - exists s. unfold ReadySteps. rewrite list_elem_of_filter. by split.
    - unfold ready in Hready. destruct (Hst s Hs) as [?|Hp]; [congruence|]. rewrite Hp in Hready. cbn [orb andb] in Hready.
      assert (Hd : exists d, d ∈ Dependencies s /\ d ∉ completed_ids (Steps p)).
      { clear -Hready. induction (Dependencies s) as [|d l IHl]; [done|]. cbn [forallb] in Hready. case_bool_decide as Hin.
        - destruct (IHl Hready) as (d' & H1 & H2). exists d'. split; [by right|done].
        - exists d. split; [by left|done]. }
      destruct Hd as (d & Hd & Hn). destruct (Hdeps s d Hs Hd) as (Hlt & s' & Hs' & Hid). apply (IH (rank d) ltac:(lia) s'); [by rewrite Hid|done|].
      destruct (completed s') eqn:Hc'; [|done]. exfalso. apply Hn. unfold completed_ids. apply list_elem_of_fmap. exists s'. split; [done|].
      rewrite list_elem_of_filter. by split. }
  destruct Hopen as (s & Hs & Hc). destruct (Hfind _ s eq_refl Hs Hc) as (s' & Hs'). intros He. rewrite He in Hs'. by apply not_elem_of_nil in Hs'.
Qed.

(** ** A small mission *)

#[local] Instance plain_codec : TaskCodec := {|
  encode_plan p := Some (Goal_ p); decode_plan s := None; encode_config _ := Some ""; merge_config _ c := c;
  random_hex n := pretty (N.of_nat n); rfc3339 t := pretty t |}.
#[local] Instance plain_folding : Folding := {| simple_fold a b := a =? b |}.
#[local] Instance demo_agents : Agents := {|
  has_planner := true; has_task_manager := true; has_agent_manager := true; has_swarm := false;
  list_agents _ := Some ["agent"]; knows_agent _ _ := false; max_runs _ _ := None; ask_planner _ _ := None;
  spawn _ _ _ := SpawnRefused; run_agent n _ _ _ := (Some (mkResponse "written" ["native_file_write"] 7), None);
  ctx_err _ := None; step_prompt id _ _ _ _ := id |}.
#[local] Existing Instance ascii_tables.

Definition demo_step (id : string) (deps : list string) : PlanStep := mkStep id "" "work" "" "general" "produce" false deps "pending" "".
Definition demo_plan : TaskPlan := mkPlan "goal" [demo_step "a" []; demo_step "b" []; demo_step "c" ["a"; "b"]] 0.
Definition demo_row : TaskRow := mkTaskRow (mkTask "m" "mission" "" "in_progress" "p2_normal" "auto" "all" "all" 0 "" "" "user" 0 0 None None 0 0) "".
Definition demo_tasks : TaskManager := mkTasks true true [demo_row] [] [] None None None.
Definition demo_turn := ExecuteBurstPlanSteps "agent" "goal" "m" (Some demo_plan) [] demo_tasks (mkEnv [] 0 [] 0).
Definition turn_of (r : result task_error turn * (TaskManager * env)) : turn := match fst r with Ok t => t | Err _ => (None, None, None) end.

Lemma turn_refines_witness :
  exists p', snd (fst (turn_of demo_turn)) = Some p' /\ graph p' = graph demo_plan /\ rtc (sched (graph demo_plan)) (finished demo_plan) (finished p').
Proof.
  apply (turn_refines "agent" "goal" "m" demo_plan [] demo_tasks (mkEnv [] 0 [] 0) (fst (fst (turn_of demo_turn))) (snd (fst (turn_of demo_turn)))
    (snd (turn_of demo_turn)) (fst (snd demo_turn)) (snd (snd demo_turn))).
  - apply (bool_decide_unpack (NoDup (ID <$> Steps demo_plan))). vm_compute. exact I.
  - discriminate.
  - vm_compute. reflexivity.
Defined.

(** The first turn ran both independent steps, and brought the mission to two
    thirds. *)
Example demo_turn_runs :
  Status <$> Steps (default demo_plan (snd (fst (turn_of demo_turn)))) = ["completed"; "completed"; "pending"] /\
  Progress ∘ row_task <$> t_tasks (fst (snd demo_turn)) = [66].
Proof. vm_compute. by split. Qed.
