(* ===== verification/Heartbeat.v ===== *)
(** * The heartbeat ([internal/agent/heartbeat.go, heartbeat_cycle.go,
      heartbeat_agents.go, heartbeat_classify.go])

    The daemon that works without being asked: on a tick, a wake-up or the
    operator's word it picks one mission of the backlog and has the engine
    advance it, or runs the standing directives of the system and of other
    agents, and decides what of it the operator is told.  The engine's turns
    are those of [PlanEngine]; sessions, approvals, agents, time zones and the
    cron scheduler's count are a class. *)

From Stdlib Require Import Ascii.
From S2P Require Import Prelude GoStrings Regex Io Tables Registry GoText RegexFind Planner Tasks PlanEngine.
#[local] Open Scope Z_scope.

(** ** Texts *)

Definition heartbeatOKToken : string := "HEARTBEAT_OK".
Definition defaultAckMaxChars : Z := 300.
Definition nominalTokens : list string := [heartbeatOKToken; "SYSTEM_NOMINAL"; "ALL_NOMINAL"; "ZERO_TASKS_PENDING"].
Definition nominalExactPhrases : list string :=
  ["heartbeat ok"; "heartbeat_ok"; "ok"; "system ok"; "everything is ok"; "everything is nominal"; "system nominal"; "system is nominal";
   "all systems nominal"; "all systems operational"; "zero tasks pending"; "no actionable tasks"; "no actionable items";
   "no proactive notification required"; "không có vấn đề gì"; "mọi thứ đều ổn"; "hệ thống bình thường"; "hệ thống hoạt động bình thường";
   "không cần hành động"; "không có tác vụ nào cần xử lý"; "tất cả đều ổn"].
Definition notificationIntentKeywords : list string :=
  ["gửi thông báo"; "gửi tới"; "gửi đến"; "báo cho"; "thông báo cho"; "gửi cho"; "send to"; "send it to"; "notify"; "send a message"; "send this to"].
Definition idleChatterPatterns : list string :=
  ["chào bieber"; "chào anh"; "chào bạn"; "xin chào"; "tôi đã sẵn sàng"; "tôi đang sẵn sàng"; "em đã sẵn sàng"; "sẵn sàng hỗ trợ";
   "bạn cần tôi hỗ trợ"; "bạn muốn tôi hỗ trợ"; "anh cần em hỗ trợ"; "cần hỗ trợ gì";
   "how can i help"; "how can i assist"; "what would you like"; "i'm ready to help"; "i am ready to help"; "ready to assist"; "what can i do for you"].

(** [isTokenBoundaryRune(rune(b))] of one byte: letters and digits of Latin-1. *)
Definition isTokenBoundaryByte (b : Z) : bool :=
  ((65 <=? b) && (b <=? 90)) || ((97 <=? b) && (b <=? 122)) || ((48 <=? b) && (b <=? 57)) || (b =? 95) ||
  (b =? 170) || (b =? 181) || (b =? 186) || ((192 <=? b) && (b <=? 214)) || ((216 <=? b) && (b <=? 246)) || ((248 <=? b) && (b <=? 255)).
Definition boundary_at (i : nat) (s : string) : bool :=
  match String.get i s with Some a => isTokenBoundaryByte (byte_val a) | None => false end.

(** [(rest, true)] as [Some rest] *)
Definition stripBoundaryToken (s token : string) (prefix : bool) : option string :=
  let n := String.length token in
  if prefix then
    if negb (has_prefix s token) then None
    else if boundary_at n s then None
    else Some (trim_space (String.substring n (String.length s - n) s))
  else if negb (has_suffix s token) then None
  else if (n <? String.length s)%nat && boundary_at (String.length s - n - 1) s then None
  else Some (trim_space (take_bytes (String.length s - n) s)).

Section texts.
Context `{U : Unicode}.

Definition ack_cutset : list Z := [32; 46; 33; 59; 10; 13; 9; 42; 96; 34; 39].
Definition classifyHeartbeatResponse (content : string) (ackMaxChars : Z) : bool * string :=
  let trimmed := trim_space content in
  if bool_decide (trimmed = "") then (true, "")
  else
    let limit := if ackMaxChars <=? 0 then defaultAckMaxChars else ackMaxChars in
    let short (o : option string) := match o with Some rest => len rest <=? limit | None => false end in
    if existsb (fun tok => short (stripBoundaryToken trimmed tok true) || short (stripBoundaryToken trimmed tok false)) nominalTokens then (true, "")
    else if bool_decide (trim_chars (to_lower trimmed) ack_cutset ∈ nominalExactPhrases) then (true, "")
    else (false, trimmed).

Definition mentionsNotificationIntent (text : string) : bool := existsb (contains_str (to_lower text)) notificationIntentKeywords.
Definition looksLikeIdleChatter (content : string) : bool :=
  let trimmed := trim_space content in
  if bool_decide (trimmed = "") then false
  else if (250 <? List.length (runes trimmed))%nat then false
  else existsb (contains_str (to_lower trimmed)) idleChatterPatterns.

Definition progressRe : pat :=
  let digit := PCls (in_range 48 57) in
  pseq [PChr 91; plit "PROGRESS:"; PStar true pspace; PCap 1 (pplus digit); popt (PChr 37); PChr 93].
Definition blockedRe : pat := pseq [PChr 91; plit "TASK_BLOCKED:"; PStar true (PCls (fun c => negb (c =? 93))); PChr 93].
Definition cleanFullContent (content : string) : string :=
  trim_space (RemoveAll blockedRe (RemoveAll progressRe (replace_all content "[TASK_COMPLETED]" ""))).
Definition shortSummary (content : string) (maxLen : Z) : string :=
  let cleaned := cleanFullContent content in
  if (3 <? maxLen) && (maxLen <? len cleaned) then take_bytes (Z.to_nat (maxLen - 3)) cleaned +:+ "..." else cleaned.

(** ** Directives *)

Fixpoint split_lines (s acc : string) : list string :=
  match s with
  | "" => [acc]
  | String a s => if bool_decide (a = byte_of 10) then acc :: split_lines s "" else split_lines s (acc +:+ String a "")
  end.
(** What is left of a line outside comments, and whether one is still open. *)
Fixpoint uncomment (fuel : nat) (inComment : bool) (trimmed : string) : bool * string :=
  match fuel with
  | O => (inComment, trimmed)
  | S fuel =>
      if inComment || has_prefix trimmed "<!--" then
        match index trimmed "-->" with
        | Some i => uncomment fuel false (trim_space (String.substring (i + 3) (String.length trimmed - (i + 3)) trimmed))
        | None => (true, "")
        end
      else (inComment, trimmed)
  end.
Definition headingRe : re := rs [rplus (one 35); ropt (RSeq re_space any)].
Definition bulletRe : re :=
  rs [RCls (fun c => (c =? 45) || (c =? 42) || (c =? 43)); RStar re_space;
      ropt (rs [one 91; ropt (RAlt re_space (RCls (fun c => (c =? 88) || (c =? 120)))); one 93; RStar re_space])].
Definition fenceRe : re :=
  rs [one 96; one 96; one 96;
      RStar (RCls (fun c => in_range 65 90 c || in_range 97 122 c || in_range 48 57 c || (c =? 95) || (c =? 45)))].
Definition blank_line (trimmed : string) : bool :=
  bool_decide (trimmed = "") || match_runes headingRe (runes trimmed) || match_runes bulletRe (runes trimmed) || match_runes fenceRe (runes trimmed).
Fixpoint any_directive (inComment : bool) (lines : list string) : bool :=
  match lines with
  | [] => false
  | line :: lines =>
      let trimmed := trim_space line in
      let '(inComment, trimmed) := uncomment (S (String.length trimmed)) inComment trimmed in
      negb (blank_line trimmed) || any_directive inComment lines
  end.
Definition hasActionableHeartbeatDirectives (content : string) : bool :=
  if bool_decide (trim_space content = legacyDefaultHeartbeatDirective) then false else any_directive false (split_lines content "").

End texts.

(** ** Clock times *)

Definition is_digit (a : ascii) : bool := (48 <=? byte_val a) && (byte_val a <=? 57).
Fixpoint digits (s : string) (acc : Z) : option Z :=
  match s with
  | "" => Some acc
  | String a s => if is_digit a then digits s (10 * acc + (byte_val a - 48)) else None
  end.
(** [strconv.Atoi] *)
Definition Atoi (s : string) : option Z :=
  let signed (neg : bool) (t : string) :=
    if bool_decide (t = "") then None
    else match digits t 0 with
         | Some n => let v := if neg then - n else n in if (- 2 ^ 63 <=? v) && (v <? 2 ^ 63) then Some v else None
         | None => None
         end in
  match s with
  | String a t => if byte_val a =? 45 then signed true t else if byte_val a =? 43 then signed false t else signed false s
  | "" => None
  end.
Definition parseHHMM (v : string) : option Z :=
  match index v ":" with
  | None => None
  | Some i =>
      match Atoi (take_bytes i v), Atoi (String.substring (S i) (String.length v - S i) v) with
      | Some hh, Some mm =>
          if (hh <? 0) || (24 <? hh) || (mm <? 0) || (59 <? mm) || ((hh =? 24) && negb (mm =? 0)) then None else Some (hh * 60 + mm)
      | _, _ => None
      end
  end.

(** ** What the daemon is wired to

    [zone tz t] is the offset of a time zone at an instant in seconds, [None]
    when there is no such zone; [cron_jobs] counts an agent's jobs, [None]
    without a scheduler; [pending_agents] are the agents of the pending
    approvals that are listed; [paused_tool] is the tool an approval error is
    about. *)
Record AgentHeartbeatConfig := mkAgentHeartbeat {
  AEnabled : bool; AIntervalMinutes : Z; ADirectives : string; ATargetChannel : string; ATargetAccountID : string;
  AHoursStart : string; AHoursEnd : string; AHoursTimezone : string }.
Record TriggerRule := mkTrigger { RuleType : string; RuleFilter : string; RuleExpression : string }.
Record PulseAgent := mkPulseAgent {
  PAgentID : string; PName : string; PSystem : bool; PStatus : string; PHeartbeat : option AgentHeartbeatConfig; PTriggers : list TriggerRule }.

Class Surroundings := {
  llm_configured : nat -> bool;
  heartbeat_agents : nat -> option (list PulseAgent);
  has_approvals : bool; pending_agents : nat -> option (list string);
  has_run_table : bool; has_sessions : bool; has_bus : bool; has_proactive : bool;
  open_session : nat -> list string -> option string;
  recent_history : nat -> string -> history;
  cron_jobs : nat -> string -> option Z;
  zone : string -> Z -> option Z;
  paused_tool : string -> string;
  pulse_prompt : string -> string -> string }.

Record HeartbeatRun := mkRun { HRunID : string; HAgentID : string; ExecutedAt : Z; RunStatus_ : string; Summary : string; TokensUsed : Z }.
Record taskStallState := mkStall { lastProgress : Z; stalledCycles : Z; notified : bool }.
Definition no_stall : taskStallState := mkStall 0 0 false.

(** What leaves the daemon: engine turns with the tools denied to them,
    messages for the operator, saved lines of conversations, and the rest. *)
Inductive beat :=
  | BMission (taskID agentID : string) (denied : list string)
  | BPulse (agentID prompt : string) (denied : list string)
  | BNotify (agentID job content channel account : string)
  | BSaved (conv agentID role content : string)
  | BRegister (jobID agentID name expr prompt : string)
  | BScan
  | BReclaim
  | BWake.

Record Daemon := mkDaemon {
  d_tasks : TaskManager;
  lastRun : option Z;
  stallTracker : gmap string taskStallState;
  lastAgentPulse : gmap string Z;
  d_interval : Z; d_enabled : bool; d_running : bool; d_stopped : bool;   (* [stopCh] is closed *)
  d_channel : string; d_account : string; d_ack : Z;
  d_start : string; d_end : string; d_zone : string;
  heartbeat_runs : list HeartbeatRun;
  beats : list beat }.
Definition set_d_tasks t d := mkDaemon t (lastRun d) (stallTracker d) (lastAgentPulse d) (d_interval d) (d_enabled d) (d_running d) (d_stopped d) (d_channel d)
  (d_account d) (d_ack d) (d_start d) (d_end d) (d_zone d) (heartbeat_runs d) (beats d).
Definition set_last t d := mkDaemon (d_tasks d) (Some t) (stallTracker d) (lastAgentPulse d) (d_interval d) (d_enabled d) (d_running d) (d_stopped d) (d_channel d)
  (d_account d) (d_ack d) (d_start d) (d_end d) (d_zone d) (heartbeat_runs d) (beats d).
Definition set_stalls f d := mkDaemon (d_tasks d) (lastRun d) (f (stallTracker d)) (lastAgentPulse d) (d_interval d) (d_enabled d) (d_running d) (d_stopped d) (d_channel d)
  (d_account d) (d_ack d) (d_start d) (d_end d) (d_zone d) (heartbeat_runs d) (beats d).
Definition set_pulse a t d := mkDaemon (d_tasks d) (lastRun d) (stallTracker d) (<[a := t]> (lastAgentPulse d)) (d_interval d) (d_enabled d) (d_running d) (d_stopped d)
  (d_channel d) (d_account d) (d_ack d) (d_start d) (d_end d) (d_zone d) (heartbeat_runs d) (beats d).
Definition set_runs f d := mkDaemon (d_tasks d) (lastRun d) (stallTracker d) (lastAgentPulse d) (d_interval d) (d_enabled d) (d_running d) (d_stopped d) (d_channel d)
  (d_account d) (d_ack d) (d_start d) (d_end d) (d_zone d) (f (heartbeat_runs d)) (beats d).
Definition add_beat b d := mkDaemon (d_tasks d) (lastRun d) (stallTracker d) (lastAgentPulse d) (d_interval d) (d_enabled d) (d_running d) (d_stopped d) (d_channel d)
  (d_account d) (d_ack d) (d_start d) (d_end d) (d_zone d) (heartbeat_runs d) (beats d ++ [b]).
Definition set_running on d := mkDaemon (d_tasks d) (lastRun d) (stallTracker d) (lastAgentPulse d) (d_interval d) (d_enabled d) on (d_stopped d) (d_channel d)
  (d_account d) (d_ack d) (d_start d) (d_end d) (d_zone d) (heartbeat_runs d) (beats d).

Definition set_stopped d := mkDaemon (d_tasks d) (lastRun d) (stallTracker d) (lastAgentPulse d) (d_interval d) (d_enabled d) false true (d_channel d)
  (d_account d) (d_ack d) (d_start d) (d_end d) (d_zone d) (heartbeat_runs d) (beats d).

(** [NewHeartbeatDaemon] *)
Definition NewHeartbeatDaemon (tasks : TaskManager) (interval : Z) : Daemon :=
  mkDaemon tasks None ∅ ∅ (if interval <=? 0 then 5 * minute else interval) true false false "all" "all" defaultAckMaxChars "" "" "" [] [].

(** The assignments of [SyncConfig] and [Start]. *)
Definition apply_config (cfg : HeartbeatConfig) (d : Daemon) : Daemon :=
  mkDaemon (d_tasks d) (lastRun d) (stallTracker d) (lastAgentPulse d)
    (if 0 <? IntervalMinutes cfg then IntervalMinutes cfg * minute else d_interval d) (HEnabled cfg) (d_running d) (d_stopped d)
    (if bool_decide (HTargetChannel cfg = "") then d_channel d else HTargetChannel cfg)
    (if bool_decide (HTargetAccountID cfg = "") then d_account d else HTargetAccountID cfg)
    (if 0 <? AckMaxChars cfg then AckMaxChars cfg else d_ack d)
    (ActiveHoursStart cfg) (ActiveHoursEnd cfg) (ActiveHoursTimezone cfg) (heartbeat_runs d) (beats d).

Definition with_log (l : string) (t : AutonomousTask) : AutonomousTask :=
  mkTask (TID t) (TTitle t) (TDescription t) (TStatus t) (TPriority t) (AssignedAgentID t) (TargetChannel t) (TargetAccountID t) (Progress t)
    l (SessionID t) (CreatedBy t) (TCreatedAt t) (TUpdatedAt t) (CompletedAt t) (TPlan t) (StalledCycles t) (FailCount t).
Definition with_session (c : string) (t : AutonomousTask) : AutonomousTask :=
  mkTask (TID t) (TTitle t) (TDescription t) (TStatus t) (TPriority t) (AssignedAgentID t) (TargetChannel t) (TargetAccountID t) (Progress t)
    (ExecutionLog t) c (CreatedBy t) (TCreatedAt t) (TUpdatedAt t) (CompletedAt t) (TPlan t) (StalledCycles t) (FailCount t).
Definition with_state (status : string) (t : AutonomousTask) : AutonomousTask := with_outcome status (Progress t) (CompletedAt t) t.
Definition with_progress (p : Z) (t : AutonomousTask) : AutonomousTask := with_outcome (TStatus t) p (CompletedAt t) t.
Definition with_fails (n : Z) (t : AutonomousTask) : AutonomousTask := with_counts (StalledCycles t) n t.

Definition maxFailCyclesBeforeBlock : Z := 3.
Definition maxStalledCyclesBeforeEscalation : Z := 3.
Definition minTriggerGap : Z := 15 * second.
Definition DefaultCronJobsPerAgent : Z := 8.
Definition primaryAgentID : string := "agent_system_core".
Definition StatusActive : string := "active".

Section heartbeat.
Context `{C : TaskCodec} `{U : Unicode} `{F : Folding} `{A : Agents} `{W : Surroundings}.
Abbreviation hop := (io Daemon task_error).

Definition tasks_op {X} (m : task_op X) : hop X := zoom d_tasks set_d_tasks m.
Definition note (b : beat) : hop unit := modify (add_beat b).

(** [withinActiveHoursLocked] and [withinAgentActiveHours] *)
Definition within_hours (start stop tz : string) (t : Z) : bool :=
  if bool_decide (start = "") && bool_decide (stop = "") then true
  else match parseHHMM start, parseHHMM stop with
       | Some a, Some b =>
           if a =? b then false
           else
             let offset := if bool_decide (tz = "") then 0 else default 0 (zone tz t) in
             let m := ((t `div` second + offset) mod 86400) `div` 60 in
             if a <? b then (a <=? m) && (m <? b) else (a <=? m) || (m <? b)
       | _, _ => true
       end.

(** ** Records of runs *)

Definition run_id : hop string := n ← draw; mret ("hb_" +:+ random_hex n).
Definition recordRun (r : HeartbeatRun) : hop unit :=
  if negb has_run_table then mret tt else ignore (_ ← db TaskDb; modify (set_runs (fun l => l ++ [r]))).
Definition recordSkip (agentID reason : string) : hop HeartbeatRun :=
  t ← now; id ← run_id;
  let r := mkRun id agentID t "skipped" reason 0 in
  _ ← recordRun r; mret r.
(** The run made when the cycle began, as it ended. *)
Definition close_run (id agent : string) (at_ : Z) (status summary : string) (tokens : Z) : hop HeartbeatRun :=
  let r := mkRun id agent at_ status summary tokens in
  _ ← recordRun r; mret r.
Definition newest_run (a b : HeartbeatRun) : Prop := ExecutedAt b <= ExecutedAt a.
#[export] Instance newest_run_dec a b : Decision (newest_run a b). Proof. unfold newest_run. apply _. Defined.
Definition GetRecentRuns (limit : Z) : hop (list HeartbeatRun) :=
  if negb has_run_table then mret []
  else
    _ ← db TaskDb;
    d ← get;
    mret (take (Z.to_nat (if (limit <=? 0) || (100 <? limit) then 20 else limit)) (merge_sort newest_run (heartbeat_runs d))).

(** ** The mission to work on *)

Definition isLegacySystemMission (t : AutonomousTask) : bool := bool_decide (CreatedBy t = "system").
Definition assignee (t : AutonomousTask) : string :=
  if bool_decide (AssignedAgentID t = "") || bool_decide (AssignedAgentID t = "auto") then primaryAgentID else AssignedAgentID t.
Definition agentHasPendingApproval (agentID : string) : hop bool :=
  if negb has_approvals || bool_decide (agentID = "") then mret false
  else n ← draw; mret (match pending_agents n with Some l => bool_decide (agentID ∈ l) | None => false end).
Definition waiting_approval : string := "paused: operator approval required".
(** The first mission of a list whose agent does not wait for the operator;
    [wait] is what to say when there is none. *)
Fixpoint first_runnable (l : list AutonomousTask) (wait : string) : hop (option AutonomousTask * string) :=
  match l with
  | [] => mret (None, wait)
  | t :: l =>
      if isLegacySystemMission t then first_runnable l wait
      else
        waits ← agentHasPendingApproval (assignee t);
        if (waits : bool) then first_runnable l waiting_approval else mret (Some t, "")
  end.
Definition listed (status : string) : hop (list AutonomousTask) :=
  r ← attempt (tasks_op (ListTasks status "")); mret (match r with Ok l => l | Err _ => [] end).
Definition selectRunnableMission : hop (option AutonomousTask * string) :=
  if negb has_task_manager then mret (None, "")
  else
    running ← listed "in_progress";
    x ← first_runnable running "";
    match x with
    | (Some t, _) => mret (Some t, "")
    | (None, wait) =>
        pending ← listed "pending";
        x ← first_runnable pending wait;
        match x with
        | (Some t, _) => mret (Some t, "")
        | (None, wait) =>
            blocked ← listed "blocked";
            if forallb isLegacySystemMission blocked then mret (None, wait) else mret (None, "blocked: operator review required")
        end
    end.

(** ** What a turn makes of a mission *)

Definition adopted (latest task : AutonomousTask) : AutonomousTask :=
  let task := match TPlan latest with Some p => with_plan (Some p) task | None => task end in
  if Progress task <? Progress latest then with_progress (Progress latest) task else task.
Definition adoptPersistedPlan (task : AutonomousTask) : hop AutonomousTask :=
  if negb has_task_manager then mret task
  else latest ← attempt (tasks_op (GetTask (TID task))); mret (match latest with Ok l => adopted l task | Err _ => task end).
(** The plan is shared with the caller through a pointer. *)
Definition update (task : AutonomousTask) : hop AutonomousTask :=
  r ← tasks_op (UpdateTask task); mret (with_plan (fst r) task).
Definition persistMissionTask (task : AutonomousTask) : hop AutonomousTask :=
  if negb has_task_manager then mret task else task ← adoptPersistedPlan task; update task.

Definition stall_step (st : option taskStallState) (status : string) (progress : Z) : option taskStallState * (bool * Z) :=
  if negb (bool_decide (status = "in_progress")) then (None, (false, 0))
  else
    let st := default no_stall st in
    let st := if (progress =? 0) || (lastProgress st <? progress) then mkStall progress 0 false
              else mkStall (lastProgress st) (stalledCycles st + 1) (notified st) in
    if (maxStalledCyclesBeforeEscalation <=? stalledCycles st) && negb (notified st)
    then (Some (mkStall (lastProgress st) (stalledCycles st) true), (true, stalledCycles st))
    else (Some st, (false, stalledCycles st)).
Definition trackTaskStall (taskID status : string) (progress : Z) : hop (bool * Z) :=
  d ← get;
  let '(st, r) := stall_step (stallTracker d !! taskID) status progress in
  _ ← modify (set_stalls (partial_alter (fun _ => st) taskID));
  mret r.

Definition VerifySemanticConsistency (goal output : string) : bool :=
  negb (bool_decide (trim_space output = "")) && negb (contains_str output "I cannot fulfill this request" && negb (bool_decide (goal = ""))).
Definition failed_markers : list string :=
  ["error executing tool"; "tool execution blocked"; "approval required"; "failed:"; "tests failed"].
Definition action_words : list string := ["code"; "file"; "execute"; "implement"; "fix"].
Definition VerifyTaskCompletion (goal output : string) (calls : list string) : bool :=
  VerifySemanticConsistency goal output && negb (existsb (contains_str (to_lower output)) failed_markers) &&
  (negb (existsb (contains_str (to_lower goal)) action_words) || negb (bool_decide (calls = []))).

Definition missionWorkGoal (title description : string) : string :=
  let title := trim_space title in
  let description := trim_space description in
  if negb (bool_decide (title = "")) && negb (bool_decide (description = "")) && negb (equal_fold title description) then title +:+ nl +:+ description
  else if negb (bool_decide (description = "")) then description else title.

Definition plan_done (t : AutonomousTask) : bool := match TPlan t with Some p => AllStepsCompleted p | None => false end.
Definition plan_open (t : AutonomousTask) : bool :=
  match TPlan t with Some p => negb (bool_decide (Steps p = [])) && negb (AllStepsCompleted p) | None => false end.
Definition in_step (t : AutonomousTask) : AutonomousTask :=
  match TPlan t with Some p => if Progress t <? ProgressPercent p then with_progress (ProgressPercent p) t else t | None => t end.
(** [activeTask.Progress] after [[PROGRESS: n%]] *)
Definition claimed_progress (content : string) (t : AutonomousTask) : Z :=
  match FindAll progressRe content with
  | c :: _ => match Atoi (group 1 c) with Some p => if Progress t <? p then p else Progress t | None => Progress t end
  | [] => Progress t
  end.
Definition advanced (t : AutonomousTask) (log : string) : string :=
  "Advanced mission '" +:+ TTitle t +:+ "' to " +:+ pretty (Progress t) +:+ "%. " +:+ log.
Definition completed_mission (log : string) (t : AutonomousTask) : AutonomousTask * string :=
  let t := with_fails 0 (with_outcome "completed" 100 (CompletedAt t) t) in
  (if bool_decide (trim_space log = "") then t else with_log log t, "Completed mission: '" +:+ TTitle t +:+ "'. " +:+ log).
(** The mission after a turn that answered, and the summary of the run. *)
Definition after_answer (resp : Response) (t : AutonomousTask) : AutonomousTask * string :=
  let content := trim_space (RContent resp) in
  let log := shortSummary content 250 in
  let t := in_step t in
  let deliverable := negb (plan_open t) && HasDeliverableWrite (RToolCalls resp) in
  if IsCannedOrEmptyCompletion content && negb (plan_done t) && negb deliverable && negb (bool_decide (TStatus t = "completed")) then
    let t := with_log "Empty or canned success ignored; mission remains in progress." (with_fails (FailCount t + 1) (with_state "in_progress" t)) in
    let summary := "Mission '" +:+ TTitle t +:+ "' produced no actionable output." in
    if maxFailCyclesBeforeBlock <=? FailCount t then (with_state "blocked" t, summary +:+ " [blocked after empty completions]") else (t, summary)
  else if plan_open t then (with_log log (with_state "in_progress" t), advanced t log)
  else if plan_done t || bool_decide (TStatus t = "completed") then completed_mission log t
  else if deliverable || (contains_str content "[TASK_COMPLETED]" && VerifyTaskCompletion (TDescription t) content (RToolCalls resp)) then completed_mission log t
  else if contains_str content "[TASK_COMPLETED]" then
    (with_log ("Completion claim rejected by deterministic verification. " +:+ log) (with_state "in_progress" t),
     "Mission '" +:+ TTitle t +:+ "' requires additional verification.")
  else if contains_str content "[TASK_BLOCKED" then
    (with_log log (with_state "blocked" t), "Mission '" +:+ TTitle t +:+ "' blocked. " +:+ log)
  else
    let t := with_progress (claimed_progress content t) (with_state "in_progress" t) in
    (with_log log t, advanced t log).
(** The mission after a turn that failed for good. *)
Definition after_failure (msg : string) (t : AutonomousTask) : AutonomousTask * string :=
  let summary := "Failed executing task '" +:+ TTitle t +:+ "': " +:+ msg in
  let t := with_log summary (with_fails (FailCount t + 1) t) in
  if maxFailCyclesBeforeBlock <=? FailCount t then (with_state "blocked" t, summary +:+ " [blocked after repeated execution errors]") else (t, summary).
Definition stall_note (cycles : Z) : string :=
  " [STALL WARNING: no progress advancement across " +:+ pretty cycles +:+ " consecutive heartbeat cycles " +:+ "—" +:+ " operator review recommended]".
Definition after_stall (stalled : bool) (cycles : Z) (t : AutonomousTask) (summary : string) : AutonomousTask * string :=
  let t := with_counts cycles (FailCount t) t in
  if stalled && bool_decide (TStatus t = "in_progress")
  then (with_state "blocked" (with_log (ExecutionLog t +:+ stall_note cycles) t), summary +:+ stall_note cycles)
  else (t, summary).

Definition already_notified (calls : list string) : bool := existsb (fun c => bool_decide (c ∈ ["native_channel_notify"; "channel_notify"])) calls.
Definition redundant_report (content : string) : bool :=
  existsb (has_prefix content)
    ["The notification has been successfully sent"; "Successfully dispatched proactive notification"; "Notification sent"].
Definition ready_more (t : AutonomousTask) : bool :=
  bool_decide (TStatus t = "in_progress") && match TPlan t with Some p => HasReadyStep p | None => false end.

(** ** A mission's cycle *)

Definition denied_for (agentID : string) : hop (list string) :=
  n ← draw; mret (match cron_jobs n agentID with Some k => if DefaultCronJobsPerAgent <=? k then ["native_cron_schedule"] else [] | None => [] end).
Definition save (conv agentID role content : string) : hop unit := if has_sessions then note (BSaved conv agentID role content) else mret tt.
Definition notify (agentID job content channel account : string) : hop unit := note (BNotify agentID job content channel account).

Definition step_text (t : AutonomousTask) (directives : string) : string :=
  "[Heartbeat Task Step]" +:+ nl +:+ "Task: " +:+ TTitle t +:+ " (Priority: " +:+ TPriority t +:+ ", Current Progress: " +:+ pretty (Progress t) +:+ "%)" +:+ nl +:+
  "Directive: " +:+ TDescription t +:+ nl +:+ "Standing Directives: " +:+ directives.
(** The conversation of a mission with its recent history. *)
Definition mission_session (t : AutonomousTask) (agentID directives : string) : hop (AutonomousTask * string * history) :=
  let conv := if bool_decide (SessionID t = "") then conv_id (TID t) else SessionID t in
  let t := with_session conv t in
  if negb has_sessions then mret (t, conv, [])
  else
    n ← draw;
    let conv := match open_session n ["mission"; TID t; TTitle t; TDescription t; agentID] with
                | Some c => if bool_decide (c = "") then conv else c
                | None => conv
                end in
    k ← draw;
    _ ← save conv agentID "user" (step_text t directives);
    mret (t, conv, recent_history k conv).

(** Only the log is told when the result goes nowhere though it was asked to
    be sent. *)
Definition warn_undelivered (t : AutonomousTask) : hop unit :=
  if bool_decide (TargetChannel t = "none") && mentionsNotificationIntent (TTitle t +:+ " " +:+ TDescription t) then
    modify (set_stalls (partial_alter (fun st => let st := default no_stall st in Some (mkStall (lastProgress st) (stalledCycles st) true)) (TID t +:+ ":notify_misconfig")))
  else mret tt.

(** The operator is told when there is someone to tell and something new. *)
Definition tell_mission (t : AutonomousTask) (agentID : string) (resp : Response) : hop unit :=
  let content := trim_space (RContent resp) in
  if has_bus && negb (already_notified (RToolCalls resp)) && negb (redundant_report content) && negb (ready_more t) &&
     negb (bool_decide (TargetChannel t = "none")) && negb (bool_decide (TargetChannel t = ""))
  then notify agentID ("Mission: " +:+ TTitle t) (cleanFullContent content) (TargetChannel t) (TargetAccountID t)
  else mret tt.
Definition wake_for_more (t : AutonomousTask) : hop unit :=
  if negb has_task_manager then mret tt
  else
    pending ← listed "pending";
    if (bool_decide (TStatus t = "completed") && negb (bool_decide (pending = []))) || ready_more t then note BWake else mret tt.

Definition answered (run agentID conv : string) (at_ : Z) (t : AutonomousTask) (resp : Response) : hop HeartbeatRun :=
  _ ← save conv agentID "assistant" (RContent resp);
  let '(t, summary) := after_answer resp t in
  st ← trackTaskStall (TID t) (TStatus t) (Progress t);
  let '(t, summary) := after_stall (fst st) (snd st) t summary in
  t ← persistMissionTask t;
  _ ← tell_mission t agentID resp;
  _ ← wake_for_more t;
  close_run run agentID at_ "action_taken" summary (RTokens resp).
Definition failed (run agentID : string) (at_ : Z) (t : AutonomousTask) (e : step_error) : hop HeartbeatRun :=
  match e with
  | NeedsApproval msg =>
      _ ← persistMissionTask (with_log ("Paused: operator approval required for tool '" +:+ paused_tool msg +:+ "'.") t);
      close_run run agentID at_ "approval_required" ("Mission '" +:+ TTitle t +:+ "' paused: operator approval required for '" +:+ paused_tool msg +:+ "'.") 0
  | _ =>
      if transient e then
        let summary := "Mission '" +:+ TTitle t +:+ "' temporarily paused on rate/token limit: " +:+ err_text e +:+ " (will retry on next pulse)" in
        _ ← persistMissionTask (with_log summary t);
        close_run run agentID at_ "action_taken" summary 0
      else
        let '(t, summary) := after_failure (err_text e) t in
        _ ← persistMissionTask t;
        close_run run agentID at_ "error" summary 0
  end.
Definition work_on (run directives : string) (at_ : Z) (t : AutonomousTask) : hop HeartbeatRun :=
  let agentID := assignee t in
  t ← (if bool_decide (TStatus t = "pending") then update (with_state "in_progress" t) else mret t);
  _ ← warn_undelivered t;
  x ← mission_session t agentID directives;
  let '(t, conv, h) := x in
  denied ← denied_for agentID;
  _ ← note (BMission (TID t) agentID denied);
  r ← tasks_op (ExecuteAutonomousGoal agentID (missionWorkGoal (TTitle t) (TDescription t)) (TID t) h);
  t ← adoptPersistedPlan t;
  match r with
  | (_, Some e) => failed run agentID at_ t e
  | (Some resp, None) => answered run agentID conv at_ t resp
  | (None, None) => close_run run agentID at_ "" "" 0
  end.

(** ** Directives *)

(** One pulse of an agent: the status and summary of its run, and the tokens.
    [conv] names the session its lines are saved in. *)
Definition pulse_lines (conv : string) (agentID directives : string) (resp : Response) : hop unit :=
  _ ← save conv agentID "user" ("[Heartbeat Pulse]" +:+ nl +:+ "Standing Directives: " +:+ directives);
  save conv agentID "assistant" (RContent resp).
Definition pulse_session (title agentID : string) : hop string :=
  n ← draw; mret (default "" (open_session n ["system"; "heartbeat"; title; "Routine Heartbeat Pulse"; agentID])).
(** Whether a reply says nothing, and what it says. *)
Definition silent (resp : Response) (ack : Z) : bool * string :=
  let '(isAck, alert) := classifyHeartbeatResponse (trim_space (RContent resp)) ack in
  (isAck || (bool_decide (RToolCalls resp = []) && looksLikeIdleChatter alert), alert).

Definition custom_pulse (now_ : Z) (manual : bool) (a : PulseAgent) : hop unit :=
  match PHeartbeat a with
  | None => mret tt
  | Some cfg =>
      if PSystem a || negb (bool_decide (PStatus a = StatusActive)) || negb (AEnabled cfg) then mret tt
      else if negb manual && negb (within_hours (AHoursStart cfg) (AHoursEnd cfg) (AHoursTimezone cfg) now_) then ignore (recordSkip (PAgentID a) "active_hours")
      else
        d ← get;
        let gap := (if AIntervalMinutes cfg <? 5 then 5 else AIntervalMinutes cfg) * minute in
        let soon := match lastAgentPulse d !! PAgentID a with Some last => time_sub now_ last <? gap | None => false end in
        if negb manual && soon then ignore (recordSkip (PAgentID a) "interval")
        else
          let directives := trim_space (ADirectives cfg) in
          if negb (hasActionableHeartbeatDirectives directives) then mret tt
          else
            denied ← denied_for (PAgentID a);
            let prompt := pulse_prompt directives ("Autonomous pulse for agent: " +:+ PName a +:+ " (" +:+ PAgentID a +:+ ")") in
            _ ← note (BPulse (PAgentID a) prompt denied);
            r ← tasks_op (ExecuteStepWithHistory (PAgentID a) prompt []);
            run ← run_id;
            _ ← match r with
                | (_, Some e) => close_run run (PAgentID a) now_ "error" (err_text e) 0
                | (None, None) => close_run run (PAgentID a) now_ "" "" 0
                | (Some resp, None) =>
                    _ ← (if has_sessions then conv ← pulse_session ("Heartbeat: " +:+ PName a) (PAgentID a); pulse_lines conv (PAgentID a) directives resp else mret tt);
                    d ← get;
                    let '(isAck, alert) := silent resp (d_ack d) in
                    if isAck then close_run run (PAgentID a) now_ "ok" ("Agent " +:+ PName a +:+ " nominal. No proactive notification required.") (RTokens resp)
                    else
                      let channel := if bool_decide (ATargetChannel cfg = "") then "all" else ATargetChannel cfg in
                      _ ← (if has_bus && negb (already_notified (RToolCalls resp)) && negb (bool_decide (channel = "none"))
                           then notify (PAgentID a) ("Pulse: " +:+ PName a) (cleanFullContent alert) channel (ATargetAccountID cfg) else mret tt);
                      close_run run (PAgentID a) now_ "action_taken" (shortSummary alert 250) (RTokens resp)
                end;
            modify (set_pulse (PAgentID a) now_)
  end.
Definition checkCustomAgentPulses (now_ : Z) (manual : bool) : hop unit :=
  n ← draw;
  if negb has_agent_manager || negb (llm_configured n) then mret tt
  else k ← draw; match heartbeat_agents k with None => mret tt | Some l => for_each (custom_pulse now_ manual) l end.

Definition backlog_summary : hop string :=
  if negb has_task_manager then mret "All previous backlog missions are COMPLETED. There are ZERO pending or in-progress tasks."
  else
    l ← listed "completed";
    mret (if bool_decide (l = []) then "All previous backlog missions are COMPLETED. There are ZERO pending or in-progress tasks."
          else "All " +:+ pretty (Z.of_nat (List.length l)) +:+ " previous backlog missions have been COMPLETED. There are 0 active or pending tasks in backlog.").
(** The standing directives of the system. *)
Definition routine (run directives : string) (at_ now_ : Z) (manual : bool) : hop HeartbeatRun :=
  denied ← denied_for primaryAgentID;
  backlog ← backlog_summary;
  let prompt := pulse_prompt directives backlog in
  _ ← note (BPulse primaryAgentID prompt denied);
  r ← tasks_op (ExecuteStepWithHistory primaryAgentID prompt []);
  let onward (m : hop HeartbeatRun) : hop HeartbeatRun := r ← m; _ ← checkCustomAgentPulses now_ manual; mret r in
  match r with
  | (_, Some (NeedsApproval msg)) =>
      close_run run primaryAgentID at_ "approval_required" ("Standing directive paused: operator approval required for '" +:+ paused_tool msg +:+ "'.") 0
  | (_, Some e) => onward (close_run run primaryAgentID at_ "error" (err_text e) 0)
  | (None, None) => onward (close_run run primaryAgentID at_ "" "" 0)
  | (Some resp, None) =>
      _ ← (if has_sessions then conv ← pulse_session "Heartbeat Pulse" primaryAgentID; pulse_lines conv primaryAgentID directives resp else mret tt);
      d ← get;
      let '(isAck, alert) := silent resp (d_ack d) in
      if isAck then onward (close_run run primaryAgentID at_ "ok" "System nominal. Zero tasks pending. No proactive notification required." (RTokens resp))
      else
        _ ← (if has_bus && negb (already_notified (RToolCalls resp)) && negb (redundant_report alert) &&
                negb (bool_decide (d_channel d = "none")) && negb (bool_decide (d_channel d = ""))
             then notify primaryAgentID "Heartbeat Pulse" (cleanFullContent alert) (d_channel d) (d_account d) else mret tt);
        onward (close_run run primaryAgentID at_ "action_taken" (shortSummary alert 250) (RTokens resp))
  end.

(** ** The cycle *)

Definition standing : hop string :=
  if negb has_task_manager then mret "" else c ← attempt (tasks_op GetHeartbeatConfig); mret (match c with Ok c => Directives c | Err _ => "" end).
(** Whether a cycle that nobody asked for has to wait. *)
Definition too_soon (d : Daemon) (t : Z) : bool := match lastRun d with Some l => time_sub t l <? minTriggerGap | None => false end.
(** A cycle that goes ahead. *)
Definition cycle_body (now_ : Z) (manual : bool) : hop HeartbeatRun :=
  n ← draw;
  if negb (llm_configured n) then
    t ← now; run ← run_id; close_run run primaryAgentID t "ok" "Heartbeat nominal (waiting for LLM provider configuration)." 0
  else
    directives ← standing;
    x ← selectRunnableMission;
    t ← now; run ← run_id;
    _ ← note BReclaim;
    match x with
    | (Some task, _) => work_on run directives t task
    | (None, wait) =>
        if negb (bool_decide (wait = "")) then close_run run primaryAgentID t "skipped" wait 0
        else if negb (hasActionableHeartbeatDirectives directives) then
          _ ← (if has_proactive then note BScan else mret tt);
          r ← close_run run primaryAgentID t "ok" "System nominal. Zero tasks pending. No actionable heartbeat directives." 0;
          _ ← checkCustomAgentPulses now_ manual;
          mret r
        else routine run directives t now_ manual
    end.
Definition checkCycle (manual : bool) : hop HeartbeatRun :=
  now_ ← now;
  d ← get;
  if negb manual && too_soon d now_ then recordSkip primaryAgentID "cooldown"
  else if negb manual && negb (within_hours (d_start d) (d_end d) (d_zone d) now_) then recordSkip primaryAgentID "active_hours"
  else _ ← modify (set_last now_); cycle_body now_ manual.

(** ** The daemon *)

Definition TriggerWakeup : hop unit := note BWake.
Definition SyncConfig (cfg : HeartbeatConfig) : hop unit := _ ← modify (apply_config cfg); TriggerWakeup.
Definition TriggerManualPulse : hop HeartbeatRun := checkCycle true.
(** What the loop does on a tick and on a wake-up, until it sees that the
    channel [stopCh] is closed. *)
Definition on_wake : hop unit := d ← get; if d_enabled d then _ ← checkCycle false; mret tt else mret tt.

Definition register_rules (a : PulseAgent) : hop unit :=
  if negb (bool_decide (PStatus a = StatusActive)) then mret tt
  else
    for_each (fun '(i, r) =>
        if negb (bool_decide (RuleType r = "cron_schedule")) || bool_decide (trim_space (RuleExpression r) = "") then mret tt
        else note (BRegister ("trigger_" +:+ PAgentID a +:+ "_" +:+ pretty (N.of_nat i)) (PAgentID a) ("trigger:" +:+ PName a) (RuleExpression r) (trim_space (RuleFilter r))))
      (imap pair (PTriggers a)).
Definition syncTriggerRules : hop unit :=
  n ← draw;
  match cron_jobs n primaryAgentID with
  | None => mret tt
  | Some _ =>
      if negb has_agent_manager then mret tt
      else k ← draw; match heartbeat_agents k with None => mret tt | Some l => for_each register_rules l end
  end.
(** The first wake-up comes three seconds later. *)
Definition Start : hop unit :=
  d ← get;
  if d_running d then mret tt
  else
    _ ← modify (set_running true);
    _ ← (if negb has_task_manager then mret tt
         else c ← attempt (tasks_op GetHeartbeatConfig); match c with Ok c => modify (apply_config c) | Err _ => mret tt end);
    _ ← syncTriggerRules;
    TriggerWakeup.
(** [false]: a closed channel is closed again, which panics. *)
Definition Stop : hop bool :=
  d ← get;
  if negb (d_running d) then mret true
  else if d_stopped d then _ ← modify (set_running false); mret false
  else _ ← modify set_stopped; mret true.

End heartbeat.
