(* ===== verification/HeartbeatSpec.v ===== *)
(** * What the heartbeat promises

    A cycle works on one mission or runs pulses, tells the operator at most
    once per turn, and when nobody asked for it keeps to its hours and its
    gap; no prose completes a mission whose plan is open; a mission that goes
    on without progress is blocked, unless its progress is still nought. *)

From Stdlib Require Import Ascii.
From S2P Require Import Prelude GoStrings Regex Io Tables Registry GoText RegexFind Planner Tasks PlanEngine Heartbeat.
#[local] Open Scope Z_scope.

(** ** What leaves the daemon *)

Section spec.
Context `{C : TaskCodec} `{U : Unicode} `{F : Folding} `{A : Agents} `{W : Surroundings}.
Abbreviation hop := (io Daemon task_error).

Fixpoint count (f : beat -> bool) (l : list beat) : nat := match l with [] => 0%nat | b :: l => ((if f b then 1 else 0) + count f l)%nat end.
Lemma count_app f l m : count f (l ++ m) = (count f l + count f m)%nat.
Proof. induction l as [|b l IH]; [done|]. cbn. rewrite IH. lia. Qed.
Definition missions : list beat -> nat := count (fun b => match b with BMission _ _ _ => true | _ => false end).
Definition pulses : list beat -> nat := count (fun b => match b with BPulse _ _ _ => true | _ => false end).
Definition tells : list beat -> nat := count (fun b => match b with BNotify _ _ _ _ _ => true | _ => false end).

(** Steps that log nothing, and that leave the log and the last cycle. *)
Definition apart (s s' : Daemon) : Prop := lastRun s' = lastRun s /\ beats s' = beats s.
#[export] Instance apart_preorder : PreOrder apart.
Proof. split; [by intros s|]. intros s1 s2 s3 [H1 H2] [H3 H4]. split; congruence. Qed.
Lemma apart_tasks {X} (m : task_op X) : keeps apart (tasks_op m).
Proof. intros s e. unfold tasks_op. apply wp_zoom. unfold wp. by destruct (m (d_tasks s) e) as [r [s' e']]. Qed.
Hint Resolve apart_tasks : keeps.
Ltac apart_go := keeps_go; try by split.

Lemma apart_recordRun r : keeps apart (recordRun r).
Proof. unfold recordRun. apart_go. Qed.
Lemma apart_run_id : keeps apart run_id.
Proof. unfold run_id. apart_go. Qed.
Hint Resolve apart_recordRun apart_run_id : keeps.
Lemma apart_close_run id a t st su n : keeps apart (close_run id a t st su n).
Proof. unfold close_run. apart_go. Qed.
Lemma apart_recordSkip a r : keeps apart (recordSkip a r).
Proof. unfold recordSkip. apart_go. Qed.
Lemma apart_listed st : keeps apart (listed st).
Proof. unfold listed. apart_go. Qed.
Lemma apart_waits a : keeps apart (agentHasPendingApproval a).
Proof. unfold agentHasPendingApproval. apart_go. Qed.
Hint Resolve apart_close_run apart_recordSkip apart_listed apart_waits : keeps.
Lemma apart_adopt t : keeps apart (adoptPersistedPlan t).
Proof. unfold adoptPersistedPlan. apart_go. Qed.
Lemma apart_update t : keeps apart (update t).
Proof. unfold update. apart_go. Qed.
Hint Resolve apart_adopt apart_update : keeps.
Lemma apart_persist t : keeps apart (persistMissionTask t).
Proof. unfold persistMissionTask. apart_go. Qed.
Lemma apart_stall id st p : keeps apart (trackTaskStall id st p).
Proof. unfold trackTaskStall. apart_go. Qed.
Lemma apart_warn t : keeps apart (warn_undelivered t).
Proof. unfold warn_undelivered. apart_go. Qed.
Lemma apart_denied a : keeps apart (denied_for a).
Proof. unfold denied_for. apart_go. Qed.
Lemma apart_standing : keeps apart standing.
Proof. unfold standing. apart_go. Qed.
Lemma apart_backlog : keeps apart backlog_summary.
Proof. unfold backlog_summary. apart_go. Qed.
Lemma apart_session t a : keeps apart (pulse_session t a).
Proof. unfold pulse_session. apart_go. Qed.
Hint Resolve apart_persist apart_stall apart_warn apart_denied apart_standing apart_backlog apart_session : keeps.


(** Turns of the engine and statements only draw and go onward. *)
Lemma quiet_tasks {X} (m : task_op X) : quiet m -> quiet (tasks_op m).
Proof. intros Hm s e. unfold tasks_op. apply wp_zoom. apply Hm. Qed.
Lemma quiet_ListTasks st p : quiet (ListTasks st p).
Proof. unfold ListTasks. quiet_go. Qed.
Lemma quiet_GetTask id : quiet (GetTask id).
Proof. unfold GetTask. quiet_go. Qed.
Lemma quiet_UpdateTask t : quiet (UpdateTask t).
Proof. unfold UpdateTask, syncToMarkdownLocked. quiet_go. Qed.
Lemma quiet_config : quiet GetHeartbeatConfig.
Proof. unfold GetHeartbeatConfig. quiet_go. Qed.
Lemma quiet_step a g h : quiet (PlanEngine.ExecuteStepWithHistory a g h).
Proof. unfold PlanEngine.ExecuteStepWithHistory. quiet_go. Qed.
Hint Resolve quiet_ListTasks quiet_GetTask quiet_UpdateTask quiet_config quiet_step : quiet.
Lemma quiet_write t p : quiet (writeTaskPlan t p).
Proof. unfold writeTaskPlan. quiet_go. Qed.
Hint Resolve quiet_write : quiet.
Lemma quiet_persist_plan id p : quiet (persistTaskPlan id p).
Proof. unfold persistTaskPlan. quiet_go. Qed.
Hint Resolve quiet_persist_plan : quiet.
Lemma quiet_plan_step a g s h : quiet (executeIndividualPlanStep a g s h).
Proof. unfold executeIndividualPlanStep. quiet_go. Qed.
Lemma quiet_ensure g id p : quiet (ensure_plan g id p).
Proof. unfold ensure_plan. quiet_go. Qed.
Lemma quiet_reopen id p : quiet (reopen_if_idle id p).
Proof. unfold reopen_if_idle. quiet_go. Qed.
Hint Resolve quiet_plan_step quiet_ensure quiet_reopen : quiet.
Lemma quiet_batch a g l h : quiet (run_batch a g l h).
Proof. induction l as [|x l IH]; cbn [run_batch]; quiet_go. Qed.
Lemma quiet_next a g id p h : quiet (ExecuteNextPlanStep a g id p h).
Proof. unfold ExecuteNextPlanStep. quiet_go. Qed.
Hint Resolve quiet_batch quiet_next : quiet.
Lemma quiet_burst a g id p h : quiet (ExecuteBurstPlanSteps a g id p h).
Proof. unfold ExecuteBurstPlanSteps. quiet_go. Qed.
Hint Resolve quiet_burst : quiet.
Lemma quiet_drain fuel : forall a g id t p r l h, quiet (drain fuel a g id t p r l h).
Proof. induction fuel as [|n IH]; intros a g id t p r l h; cbn [drain]; quiet_go. Qed.
Hint Resolve quiet_drain : quiet.
Lemma quiet_goal a g id h : quiet (ExecuteAutonomousGoal a g id h).
Proof. unfold ExecuteAutonomousGoal. quiet_go. Qed.
Hint Resolve quiet_goal : quiet.
Ltac hop_quiet := quiet_go; try (apply quiet_tasks; quiet_go).
Lemma quiet_hop_recordRun r : quiet (recordRun r).
Proof. unfold recordRun. hop_quiet. Qed.
#[local] Hint Resolve quiet_hop_recordRun : quiet.
Lemma quiet_hop_run_id : quiet (run_id).
Proof. unfold run_id. hop_quiet. Qed.
#[local] Hint Resolve quiet_hop_run_id : quiet.
Lemma quiet_hop_close_run id a t st su n : quiet (close_run id a t st su n).
Proof. unfold close_run, recordRun. hop_quiet. Qed.
#[local] Hint Resolve quiet_hop_close_run : quiet.
Lemma quiet_hop_recordSkip a r : quiet (recordSkip a r).
Proof. unfold recordSkip, recordRun. hop_quiet. Qed.
#[local] Hint Resolve quiet_hop_recordSkip : quiet.
Lemma quiet_hop_listed st : quiet (listed st).
Proof. unfold listed. hop_quiet. Qed.
#[local] Hint Resolve quiet_hop_listed : quiet.
Lemma quiet_hop_agentHasPendingApproval a : quiet (agentHasPendingApproval a).
Proof. unfold agentHasPendingApproval. hop_quiet. Qed.
#[local] Hint Resolve quiet_hop_agentHasPendingApproval : quiet.
Lemma quiet_hop_adoptPersistedPlan t : quiet (adoptPersistedPlan t).
Proof. unfold adoptPersistedPlan. hop_quiet. Qed.
#[local] Hint Resolve quiet_hop_adoptPersistedPlan : quiet.
Lemma quiet_hop_update t : quiet (update t).
Proof. unfold update. hop_quiet. Qed.
#[local] Hint Resolve quiet_hop_update : quiet.
Lemma quiet_hop_persistMissionTask t : quiet (persistMissionTask t).
Proof. unfold persistMissionTask. hop_quiet. Qed.
#[local] Hint Resolve quiet_hop_persistMissionTask : quiet.
Lemma quiet_hop_trackTaskStall id st p : quiet (trackTaskStall id st p).
Proof. unfold trackTaskStall. hop_quiet. Qed.
#[local] Hint Resolve quiet_hop_trackTaskStall : quiet.
Lemma quiet_hop_warn_undelivered t : quiet (warn_undelivered t).
Proof. unfold warn_undelivered. hop_quiet. Qed.
#[local] Hint Resolve quiet_hop_warn_undelivered : quiet.
Lemma quiet_hop_denied_for a : quiet (denied_for a).
Proof. unfold denied_for. hop_quiet. Qed.
#[local] Hint Resolve quiet_hop_denied_for : quiet.
Lemma quiet_hop_standing : quiet (standing).
Proof. unfold standing. hop_quiet. Qed.
#[local] Hint Resolve quiet_hop_standing : quiet.
Lemma quiet_hop_backlog_summary : quiet (backlog_summary).
Proof. unfold backlog_summary. hop_quiet. Qed.
#[local] Hint Resolve quiet_hop_backlog_summary : quiet.
Lemma quiet_hop_pulse_session t a : quiet (pulse_session t a).
Proof. unfold pulse_session. hop_quiet. Qed.
#[local] Hint Resolve quiet_hop_pulse_session : quiet.

(** Steps aside: they log nothing, and go onward. *)
Definition aside {X} (m : hop X) : Prop := keeps apart m /\ quiet m.
Ltac aside_go := split; [apart_go|hop_quiet].

(** ** What a cycle adds to the log *)

Section adding.
Variable Free : string -> Prop.        (* the agents that may be given work *)
Definition fair (b : beat) : Prop := match b with BMission _ a _ => Free a | _ => True end.

(** [adds G m]: what [m] adds to the log is fair and its missions, pulses and
    messages are as [G] says, however it ends; it leaves the time of the last
    cycle. *)
Definition adds (G : nat -> nat -> nat -> Prop) {X} (m : hop X) : Prop :=
  forall s e, wp m (fun _ s' e' => onward e e' /\ lastRun s' = lastRun s /\
    exists new, beats s' = beats s ++ new /\ Forall fair new /\ G (missions new) (pulses new) (tells new)) s e.
Definition nothing (m p t : nat) : Prop := (m = 0 /\ p = 0 /\ t = 0)%nat.
Definition one_tell (m p t : nat) : Prop := (m = 0 /\ p = 0 /\ t <= 1)%nat.
Definition one_mission (m p t : nat) : Prop := (m <= 1 /\ p = 0 /\ t <= m)%nat.
Definition some_pulses (m p t : nat) : Prop := (m = 0 /\ t <= p)%nat.

Lemma adds_bind G1 G2 (G : nat -> nat -> nat -> Prop) {X Y} (m : hop X) (f : X -> hop Y) : adds G1 m -> (forall a, adds G2 (f a)) ->
  (forall a b c a' b' c', G1 a b c -> G2 a' b' c' -> G (a + a') (b + b') (c + c'))%nat -> (forall a b c, G1 a b c -> G a b c) -> adds G (m ≫= f).
Proof.
  intros Hm Hf HG H1 s e. apply wp_bind. eapply wp_mono; [apply Hm|]. cbv beta. intros [a|x] s1 e1 (He & Hl & n1 & Hb & Hn & Hg).
  - eapply wp_mono; [apply Hf|]. cbv beta. intros r s2 e2 (He2 & Hl2 & n2 & Hb2 & Hn2 & Hg2). split; [by transitivity e1|]. split; [congruence|].
    exists (n1 ++ n2). split; [by rewrite Hb2, Hb, app_assoc|]. split; [by apply Forall_app|]. unfold missions, pulses, tells in *. rewrite !count_app. by apply HG.
  - split; [done|]. split; [done|]. exists n1. split_and!; [done|done|by apply H1].
Qed.
Lemma adds_weaken G (G' : nat -> nat -> nat -> Prop) {X} (m : hop X) : adds G m -> (forall a b c, G a b c -> G' a b c) -> adds G' m.
Proof.
  intros Hm HG s e. eapply wp_mono; [apply Hm|]. cbv beta. intros r s' e' (He & Hl & n & Hb & Hf & Hg). split; [done|]. split; [done|]. exists n. auto.
Qed.
Lemma adds_apart (G : nat -> nat -> nat -> Prop) {X} (m : hop X) : aside m -> G 0%nat 0%nat 0%nat -> adds G m.
Proof.
  intros [Hm Hq] HG s e. eapply wp_mono; [apply wp_and; [apply Hm|apply Hq]|]. cbv beta. intros r s' e' [[Hl Hb] He]. split; [done|]. split; [done|].
  exists []. rewrite app_nil_r. auto.
Qed.
Lemma adds_note (G : nat -> nat -> nat -> Prop) b : fair b -> G (missions [b]) (pulses [b]) (tells [b]) -> adds G (note b).
Proof. intros Hb HG s e. unfold note. apply wp_modify. split; [done|]. split; [done|]. exists [b]. split_and!; [done|by constructor|done]. Qed.
Lemma adds_each {X} (f : X -> hop unit) l : (forall x, adds some_pulses (f x)) -> adds some_pulses (for_each f l).
Proof.
  intros Hf. induction l as [|x l IH]; cbn [for_each]; [apply adds_apart; [aside_go|by unfold some_pulses; lia]|].
  apply (adds_bind some_pulses some_pulses); [apply Hf|intros _; apply IH|unfold some_pulses; lia|done].
Qed.
Ltac grade := unfold nothing, one_tell, one_mission, some_pulses in *; cbn; lia.
Lemma adds_then G {X Y} (m : hop X) (f : X -> hop Y) : G 0%nat 0%nat 0%nat -> adds nothing m -> (forall a, adds G (f a)) -> adds G (m ≫= f).
Proof.
  intros HG Hm Hf. eapply (adds_bind nothing G); [exact Hm|exact Hf| |].
  - intros a b c a' b' c' (-> & -> & ->). done.
  - by intros a b c (-> & -> & ->).
Qed.
Lemma adds_none {X} (m : hop X) : aside m -> adds nothing m.
Proof. intros Hm. by apply adds_apart. Qed.
Lemma adds_ret G {X} (x : X) : G 0%nat 0%nat 0%nat -> adds G (mret x : hop X).
Proof. intros HG. apply adds_apart; [|done]. aside_go. Qed.
Lemma adds_one_tell {X} (m : hop X) : adds nothing m -> adds one_tell m.
Proof. intros Hm. eapply adds_weaken; [exact Hm|]. intros. grade. Qed.
Lemma adds_pulse_tell {X} (m : hop X) : adds nothing m -> adds some_pulses m.
Proof. intros Hm. eapply adds_weaken; [exact Hm|]. intros. grade. Qed.

Lemma adds_save c a r t : adds nothing (save c a r t).
Proof. unfold save. destruct has_sessions; [by apply adds_note|by apply adds_ret]. Qed.
Lemma adds_notify a j c ch ac : adds one_tell (notify a j c ch ac).
Proof. apply adds_note; [done|grade]. Qed.
Lemma adds_lines c a d r : adds nothing (pulse_lines c a d r).
Proof. unfold pulse_lines. apply adds_then; [done|apply adds_save|intros _; apply adds_save]. Qed.
Lemma adds_session t a d : adds nothing (mission_session t a d).
Proof.
  unfold mission_session. cbv zeta. destruct (negb has_sessions); [by apply adds_ret|].
  apply adds_then; [done|apply adds_none; aside_go|intros n]. apply adds_then; [done|apply adds_none; aside_go|intros k].
  apply adds_then; [done|apply adds_save|intros _; by apply adds_ret].
Qed.
Lemma adds_tell t a r : adds one_tell (tell_mission t a r).
Proof. unfold tell_mission. cbv zeta. destruct (_ && _); [apply adds_notify|apply adds_ret; grade]. Qed.
Lemma adds_wake t : adds nothing (wake_for_more t).
Proof.
  unfold wake_for_more. destruct (negb has_task_manager); [by apply adds_ret|]. apply adds_then; [done|apply adds_none; aside_go|intros l].
  destruct (_ || _); [by apply adds_note|by apply adds_ret].
Qed.
Lemma adds_answered run a c at_ t r : adds one_tell (answered run a c at_ t r).
Proof.
  unfold answered. apply adds_then; [grade|apply adds_save|intros _]. destruct (after_answer r t) as [t1 s1].
  apply adds_then; [grade|apply adds_none; aside_go|intros st]. destruct (after_stall _ _ _ _) as [t2 s2].
  apply adds_then; [grade|apply adds_none; aside_go|intros t3].
  apply (adds_bind one_tell nothing); [apply adds_tell|intros _|intros; grade|done].
  apply adds_then; [done|apply adds_wake|intros _; apply adds_none; aside_go].
Qed.
Lemma adds_failed run a at_ t e : adds nothing (failed run a at_ t e).
Proof.
  unfold failed. apply adds_none. destruct e; cbv zeta; try destruct (transient _); try destruct (after_failure _ _); aside_go.
Qed.
Lemma adds_work run d at_ t : Free (assignee t) -> adds one_mission (work_on run d at_ t).
Proof.
  intros Hfree. unfold work_on. cbv zeta. set (a := assignee t) in *. clearbody a.
  apply adds_then; [grade|apply adds_none; destruct (bool_decide _); aside_go|intros t1].
  apply adds_then; [grade|apply adds_none; aside_go|intros _]. apply adds_then; [grade|apply adds_session|intros [[t2 conv] h]].
  apply adds_then; [grade|apply adds_none; aside_go|intros denied].
  apply (adds_bind (fun m p t => m = 1 /\ p = 0 /\ t = 0)%nat one_tell); [by apply adds_note| |intros; grade|intros; grade].
  intros _. apply adds_then; [grade|apply adds_none; aside_go|intros r]. apply adds_then; [grade|apply adds_none; aside_go|intros t3].
  destruct r as [[resp|] [e|]]; [by apply adds_one_tell, adds_failed|apply adds_answered|by apply adds_one_tell, adds_failed|].
  apply adds_one_tell, adds_none. aside_go.
Qed.

(** A pulse and what follows it. *)
Lemma adds_pulse a p d {X} (m : hop X) : adds one_tell m -> adds some_pulses (_ ← note (BPulse a p d); m).
Proof.
  intros Hm. apply (adds_bind (fun m p t => m = 0 /\ p = 1 /\ t = 0)%nat one_tell); [by apply adds_note|done|intros; grade|intros; grade].
Qed.
Lemma adds_custom t manual a : adds some_pulses (custom_pulse t manual a).
Proof.
  unfold custom_pulse. destruct (PHeartbeat a) as [cfg|]; [|apply adds_ret; grade]. destruct (_ || _); [apply adds_ret; grade|].
  destruct (_ && _); [apply adds_pulse_tell, adds_none; aside_go|]. apply adds_then; [grade|apply adds_none; aside_go|intros d]. cbv zeta.
  destruct (_ && _); [apply adds_pulse_tell, adds_none; aside_go|]. destruct (negb _); [apply adds_ret; grade|].
  apply adds_then; [grade|apply adds_none; aside_go|intros den]. apply adds_pulse. apply adds_then; [grade|apply adds_none; aside_go|intros r].
  apply adds_then; [grade|apply adds_none; aside_go|intros id]. apply (adds_bind one_tell nothing); [|intros _; apply adds_none; aside_go|intros; grade|done].
  destruct r as [[resp|] [e|]]; try by (apply adds_one_tell, adds_none; aside_go).
  apply adds_then; [grade| |intros _].
  { destruct has_sessions; [|by apply adds_ret]. apply adds_then; [done|apply adds_none; aside_go|intros c; apply adds_lines]. }
  apply adds_then; [grade|apply adds_none; aside_go|intros d2]. destruct (silent _ _) as [[|] alert]; [apply adds_one_tell, adds_none; aside_go|].
  cbv zeta. apply (adds_bind one_tell nothing); [|intros _; apply adds_none; aside_go|intros; grade|done].
  destruct (_ && _); [apply adds_notify|apply adds_ret; grade].
Qed.
Lemma adds_customs t manual : adds some_pulses (checkCustomAgentPulses t manual).
Proof.
  unfold checkCustomAgentPulses. apply adds_then; [grade|apply adds_none; aside_go|intros n]. destruct (_ || _); [apply adds_ret; grade|].
  apply adds_then; [grade|apply adds_none; aside_go|intros k]. destruct (heartbeat_agents k) as [l|]; [|apply adds_ret; grade].
  apply adds_each, adds_custom.
Qed.
Lemma adds_routine run d at_ t manual : adds some_pulses (routine run d at_ t manual).
Proof.
  unfold routine. apply adds_then; [grade|apply adds_none; aside_go|intros den]. apply adds_then; [grade|apply adds_none; aside_go|intros b].
  cbv zeta. apply (adds_bind (fun m p t => m = 0 /\ p = 1 /\ t = 0)%nat (fun m p t => m = 0 /\ t <= p + 1)%nat); [by apply adds_note| |intros; grade|intros; grade].
  intros _. set (G := fun m p t : nat => (m = 0 /\ t <= p + 1)%nat).
  assert (Hon : forall m : hop HeartbeatRun, aside m -> adds some_pulses (r ← m; _ ← checkCustomAgentPulses t manual; mret r)).
  { intros m Hm. apply adds_then; [grade|by apply adds_none|intros r]. apply (adds_bind some_pulses nothing); [apply adds_customs|intros _; by apply adds_ret|intros; grade|done]. }
  assert (HG : forall X (m : hop X), adds some_pulses m -> adds G m) by (intros X m Hm; eapply adds_weaken; [exact Hm|]; unfold G; intros; grade).
  apply adds_then; [unfold G; lia|apply adds_none; aside_go|intros r].
  assert (Hend : forall a st su n, adds G (close_run run a at_ st su n)) by (intros; apply HG, adds_pulse_tell, adds_none; aside_go).
  destruct r as [[resp|] [[m1|m2|m3]|]]; cbv beta iota; first [by apply Hend|by apply HG, Hon; aside_go|idtac].
  apply adds_then; [unfold G; lia| |intros _].
  { destruct has_sessions; [|by apply adds_ret]. apply adds_then; [done|apply adds_none; aside_go|intros c; apply adds_lines]. }
  apply adds_then; [unfold G; lia|apply adds_none; aside_go|intros d2]. destruct (silent _ _) as [[|] alert]; [apply HG, Hon; aside_go|].
  apply (adds_bind one_tell some_pulses); [destruct (_ && _); [apply adds_notify|apply adds_ret; grade]|intros _; apply Hon; aside_go|unfold G; intros; grade|unfold G; intros; grade].
Qed.

Definition one_turn (m p t : nat) : Prop := (m <= 1 /\ (m = 1 -> p = 0) /\ t <= m + p)%nat.
(** A cycle once its mission is chosen. *)
Lemma adds_chosen run dir at_ now_ manual (sel : option AutonomousTask) wait : match sel with Some t => Free (assignee t) | None => True end ->
  adds one_turn
    match sel with
    | Some task => work_on run dir at_ task
    | None =>
        if negb (bool_decide (wait = "")) then close_run run primaryAgentID at_ "skipped" wait 0
        else if negb (hasActionableHeartbeatDirectives dir) then
          _ ← (if has_proactive then note BScan else mret tt);
          r ← close_run run primaryAgentID at_ "ok" "System nominal. Zero tasks pending. No actionable heartbeat directives." 0;
          _ ← checkCustomAgentPulses now_ manual;
          mret r
        else routine run dir at_ now_ manual
    end.
Proof.
  assert (Hzero : one_turn 0 0 0) by (unfold one_turn; lia).
  assert (Hpulse : forall X (m : hop X), adds some_pulses m -> adds one_turn m)
    by (intros X m Hm; eapply adds_weaken; [exact Hm|]; unfold one_turn, some_pulses; lia).
  intros Hsel. destruct sel as [task|].
  - eapply adds_weaken; [by apply adds_work|]. unfold one_mission, one_turn. lia.
  - destruct (negb (bool_decide _)); [apply adds_apart; [aside_go|done]|]. destruct (negb (hasActionableHeartbeatDirectives _)); [|apply Hpulse, adds_routine].
    apply adds_then; [done|destruct has_proactive; [by apply adds_note|by apply adds_ret]|intros _].
    apply adds_then; [done|apply adds_none; aside_go|intros r]. apply Hpulse.
    apply (adds_bind some_pulses nothing); [apply adds_customs|intros _; by apply adds_ret|intros; grade|done].
Qed.
End adding.

(** ** The mission that is chosen *)

(** An agent that is not in the listing of pending approvals (the newest
    fifty) consulted at a draw from [k] on and before [m]; a listing that failed
    counts as an empty one. *)
Definition consulted (k m : nat) (a : string) : Prop :=
  has_approvals = false \/ exists n, (k <= n < m)%nat /\ a ∉ default [] (pending_agents n).
Lemma consulted_wider k m k' m' a : (k' <= k)%nat -> (m <= m')%nat -> consulted k m a -> consulted k' m' a.
Proof. intros Hk Hm [Ha|(n & Hn & Hin)]; [by left|]. right. exists n. split; [lia|done]. Qed.
Lemma fair_impl (P Q : string -> Prop) l : (forall a, P a -> Q a) -> Forall (fair P) l -> Forall (fair Q) l.
Proof. intros HPQ Hl. eapply Forall_impl; [exact Hl|]. intros []; cbn; auto. Qed.

Lemma assignee_named t : assignee t <> "".
Proof. unfold assignee. do 2 case_bool_decide; try done. Qed.
Definition chosen (s : Daemon) (e : env) (r : result task_error (option AutonomousTask * string)) (s' : Daemon) (e' : env) : Prop :=
  apart s s' /\ onward e e' /\ match r with Ok (Some t, _) => consulted (fresh e) (fresh e') (assignee t) | _ => True end.
Lemma first_runnable_free l w s e : wp (first_runnable l w) (chosen s e) s e.
Proof.
  revert w s e. induction l as [|t l IH]; intros w s e; cbn [first_runnable]; [by apply wp_ret|]. destruct (isLegacySystemMission t); [apply IH|].
  apply wp_bind. unfold agentHasPendingApproval. rewrite (bool_decide_false _ (assignee_named t)), orb_false_r.
  destruct has_approvals eqn:Ha; cbn [negb]; [|apply wp_ret, wp_ret; split_and!; [done|done|by left]].
  apply wp_bind, wp_draw_next. intros e' He' _ Hf. cbv beta iota. apply wp_ret.
  assert (Hfree : assignee t ∉ default [] (pending_agents (fresh e)) -> chosen s e (Ok (Some t, "")) s e').
  { intros Hin. split_and!; [done|done|]. right. exists (fresh e). split; [lia|done]. }
  destruct (pending_agents (fresh e)) as [p|] eqn:Hp; cbn [default] in Hfree; [|apply wp_ret, Hfree; set_solver].
  case_bool_decide as Hin; [|by apply wp_ret, Hfree]. eapply wp_mono; [apply IH|]. cbv beta. intros r s2 e2 (Hs & He2 & Hr).
  split_and!; [done|by transitivity e'|]. destruct r as [[[t'|] ?]|]; [|done..]. eapply consulted_wider; [|done|exact Hr]. lia.
Qed.
Lemma chosen_after s s1 s2 e e1 e2 r : apart s s1 -> onward e e1 -> chosen s1 e1 r s2 e2 -> chosen s e r s2 e2.
Proof.
  intros Hs He (Hs2 & He2 & Hr). split_and!; [by transitivity s1|by transitivity e1|]. destruct r as [[[t'|] ?]|]; [|done..].
  eapply consulted_wider; [|done|exact Hr]. by destruct He as [[_ ?] _].
Qed.
Lemma wp_aside {X} (m : hop X) (Q : result task_error X -> Daemon -> env -> Prop) s e : aside m ->
  (forall r s' e', apart s s' -> onward e e' -> Q r s' e') -> wp m Q s e.
Proof. intros [Hm Hq] HQ. eapply wp_mono; [apply wp_and; [apply Hm|apply Hq]|]. cbv beta. intros r s' e' [? ?]. auto. Qed.
Lemma select_free s e : wp selectRunnableMission (chosen s e) s e.
Proof.
  unfold selectRunnableMission. destruct (negb has_task_manager); [by apply wp_ret|].
  apply wp_bind, wp_aside; [aside_go|]. intros [l|x] s1 e1 H1 He1; [|by split_and!].
  apply wp_bind. eapply wp_mono; [apply first_runnable_free|]. cbv beta. intros r s2 e2 H2%(chosen_after _ _ _ _ _ _ _ H1 He1).
  destruct r as [[[t|] w]|x]; [by apply wp_ret| |done]. destruct H2 as (H2 & He2 & _).
  apply wp_bind, wp_aside; [aside_go|]. intros [l2|x] s3 e3 H3 He3; [|by split_and!; [transitivity s2|transitivity e2|]].
  assert (H03 : apart s s3) by by transitivity s2. assert (He03 : onward e e3) by by transitivity e2.
  apply wp_bind. eapply wp_mono; [apply first_runnable_free|]. cbv beta. intros r s4 e4 H4%(chosen_after _ _ _ _ _ _ _ H03 He03).
  destruct r as [[[t|] w2]|x]; [by apply wp_ret| |done]. destruct H4 as (H4 & He4 & _).
  apply wp_bind, wp_aside; [aside_go|]. intros [l3|x] s5 e5 H5 He5; [|by split_and!; [transitivity s4|transitivity e4|]].
  destruct (forallb _ _); apply wp_ret; split_and!; [transitivity s4|transitivity e4| |transitivity s4|transitivity e4|]; done.
Qed.

(** What a cycle does, once it goes ahead. *)
Definition turned (s : Daemon) (e : env) (s' : Daemon) (e' : env) : Prop :=
  lastRun s' = lastRun s /\ exists new, beats s' = beats s ++ new /\ Forall (fair (consulted (fresh e) (fresh e'))) new /\
    one_turn (missions new) (pulses new) (tells new).
Lemma turned_apart s e s' e' : apart s s' -> turned s e s' e'.
Proof. intros [Hl Hb]. split; [done|]. exists []. rewrite app_nil_r. split_and!; [done|constructor|unfold one_turn; cbn; lia]. Qed.
Lemma body_turned t manual s e : wp (cycle_body t manual) (fun _ => turned s e) s e.
Proof.
  unfold cycle_body. apply wp_bind, wp_aside; [aside_go|]. intros [n|x] s1 e1 H1 He1; [|by apply turned_apart].
  destruct (negb (llm_configured n)); [apply wp_aside; [aside_go|]; intros _ s2 e2 H2 _; apply turned_apart; by transitivity s1|].
  apply wp_bind, wp_aside; [aside_go|]. intros [dir|x] s2 e2 H2 He2; [|apply turned_apart; by transitivity s1].
  assert (H02 : apart s s2) by by transitivity s1. assert (He02 : onward e e2) by by transitivity e1.
  apply wp_bind. eapply wp_mono; [apply select_free|]. cbv beta. intros r s3 e3 H3%(chosen_after _ _ _ _ _ _ _ H02 He02).
  destruct H3 as (H3 & He3 & Hsel). destruct r as [[sel wait]|x]; [|by apply turned_apart].
  set (Free := consulted (fresh e) (fresh e3)). assert (Hsel' : match sel with Some t => Free (assignee t) | None => True end) by by destruct sel.
  eapply (wp_mono _ (fun _ s' e' => onward e3 e' /\ lastRun s' = lastRun s3 /\
    exists new, beats s' = beats s3 ++ new /\ Forall (fair Free) new /\ one_turn (missions new) (pulses new) (tells new))).
  - match goal with |- wp ?m _ _ _ => assert (Hm : adds Free one_turn m); [|apply Hm] end.
    assert (Hzero : one_turn 0 0 0) by (unfold one_turn; lia).
    apply adds_then; [done|apply adds_none; aside_go|intros at_]. apply adds_then; [done|apply adds_none; aside_go|intros run].
    apply adds_then; [done|by apply adds_note|intros _]. by apply adds_chosen.
  - cbv beta. intros r s' e' (He' & Hl & new & Hb & Hf & Hg). destruct H3 as [Hl3 Hb3]. split; [congruence|]. exists new.
    split_and!; [by rewrite Hb, Hb3| |done]. eapply fair_impl; [|exact Hf]. intros a Ha. eapply consulted_wider; [done| |exact Ha]. by destruct He' as [[_ ?] _].
Qed.

(** C34. Whoever calls for a cycle: it works on one mission at most, and only
    of an agent without an entry in the listing of pending approvals that was
    consulted in this cycle, the newest fifty; a listing that failed counts as
    empty.  It then runs no pulses, and it tells the operator once per turn at
    most.  A cycle nobody asked for that does anything comes within the
    configured hours and at least fifteen seconds after the last. *)
Theorem heartbeat_restraint manual s e : wp (checkCycle manual) (fun _ s' e' => exists new, beats s' = beats s ++ new /\
    Forall (fair (consulted (fresh e) (fresh e'))) new /\
    (missions new <= 1)%nat /\ (missions new = 1%nat -> pulses new = 0%nat) /\ (tells new <= missions new + pulses new)%nat /\
    (manual = false -> new <> [] -> exists t, lastRun s' = Some t /\ within_hours (d_start s) (d_end s) (d_zone s) t = true /\
      forall l, lastRun s = Some l -> minTriggerGap <= time_sub t l)) s e.
Proof.
  unfold checkCycle. apply wp_bind, wp_now_onward. intros e1 He1. cbv beta iota. apply wp_bind, wp_get. cbv beta iota.
  assert (Hskip : forall Q r, (forall s' e', beats s' = beats s ++ [] -> Q s' e') -> wp (recordSkip primaryAgentID r) (fun _ => Q) s e1).
  { intros Q r HQ. apply (wp_keeps apart); [apply apart_recordSkip|]. intros _ s' e' [_ Hb]. apply HQ. by rewrite app_nil_r. }
  assert (Hnone : forall s' e', beats s' = beats s ++ [] -> exists new, beats s' = beats s ++ new /\ Forall (fair (consulted (fresh e) (fresh e'))) new /\
    (missions new <= 1)%nat /\ (missions new = 1%nat -> pulses new = 0%nat) /\ (tells new <= missions new + pulses new)%nat /\
    (manual = false -> new <> [] -> exists t, lastRun s' = Some t /\ within_hours (d_start s) (d_end s) (d_zone s) t = true /\
      forall l, lastRun s = Some l -> minTriggerGap <= time_sub t l)).
  { intros s' e' Hb. exists []. split_and!; [done|constructor|cbn; lia..|done]. }
  destruct (negb manual && too_soon s (clock e1)) eqn:Hsoon; [by apply Hskip|]. destruct (negb manual && negb _) eqn:Hhours; [by apply Hskip|]. clear Hskip Hnone.
  assert (Htime : manual = false -> within_hours (d_start s) (d_end s) (d_zone s) (clock e1) = true /\
    forall l, lastRun s = Some l -> minTriggerGap <= time_sub (clock e1) l).
  { intros ->. cbn [negb andb] in *. apply negb_false_iff in Hhours. split; [done|]. intros l Hl. unfold too_soon in Hsoon. rewrite Hl in Hsoon. lia. }
  apply wp_bind, wp_modify. cbv beta iota.
  eapply wp_mono; [apply body_turned|]. cbv beta. intros r s' e' (Hl & new & Hb & Hf & Hm & Hp & Ht). exists new. split_and!; try done.
  - eapply fair_impl; [|exact Hf]. intros a. apply consulted_wider; [|done]. by destruct He1 as [[_ ?] _].
  - intros Hman _. exists (clock e1). by destruct (Htime Hman).
Qed.

(** ** When a mission is done *)

(** A mission that is not completed, and one that is. *)
Lemma goes_on (u v : AutonomousTask) (x y : string) (P : Prop) : TStatus u = "in_progress" \/ TStatus u = "blocked" -> (u, x) = (v, y) ->
  TStatus v ∈ ["completed"; "in_progress"; "blocked"] /\ (TStatus v = "completed" -> P).
Proof. intros Hu [= <- _]. destruct Hu as [-> | ->]; (split; [|done]); [by right; left|by right; right; left]. Qed.
Lemma ends_well (v : AutonomousTask) (P Q : Prop) : TStatus v = "completed" /\ Progress v = 100 /\ FailCount v = 0 -> P /\ Q ->
  TStatus v ∈ ["completed"; "in_progress"; "blocked"] /\ (TStatus v = "completed" -> P /\ Progress v = 100 /\ FailCount v = 0 /\ Q).
Proof. intros (-> & -> & ->) [HP HQ]. split; [by left|done]. Qed.
Lemma completed_mission_done log t u s : completed_mission log t = (u, s) -> TStatus u = "completed" /\ Progress u = 100 /\ FailCount u = 0.
Proof. unfold completed_mission. cbv zeta. destruct (bool_decide _); intros [= <- _]; done. Qed.
Lemma in_step_same t : TStatus (in_step t) = TStatus t /\ plan_open (in_step t) = plan_open t /\ plan_done (in_step t) = plan_done t /\ TDescription (in_step t) = TDescription t.
Proof. unfold in_step, plan_open, plan_done. destruct (TPlan t) as [p|] eqn:Hp; [|by rewrite Hp]. destruct (_ <? _); [|by rewrite Hp]. cbn. by rewrite Hp. Qed.

(** C35. An answer completes a mission only when no step of its plan is open,
    and then because it was completed, its plan is done, an artifact was
    written, or a claim of completion passed the verification; whatever else
    it says, the mission stays in progress or is blocked. *)
Theorem no_completion_by_prose resp t t' summary : after_answer resp t = (t', summary) ->
  TStatus t' ∈ ["completed"; "in_progress"; "blocked"] /\
  (TStatus t' = "completed" ->
    plan_open t = false /\ Progress t' = 100 /\ FailCount t' = 0 /\
    (TStatus t = "completed" \/ plan_done t = true \/ HasDeliverableWrite (RToolCalls resp) = true \/
     contains_str (trim_space (RContent resp)) "[TASK_COMPLETED]" = true /\
     VerifyTaskCompletion (TDescription t) (trim_space (RContent resp)) (RToolCalls resp) = true)).
Proof.
  unfold after_answer. cbv zeta. generalize (shortSummary (trim_space (RContent resp)) 250) as log. generalize (trim_space (RContent resp)) as c. intros c log.
  destruct (in_step_same t) as (Hst & Hopen & Hdone & Hdesc). rewrite Hst, Hopen, Hdone, Hdesc.
  destruct (IsCannedOrEmptyCompletion c && _ && _ && _); [destruct (_ <=? _); apply goes_on; auto|].
  destruct (plan_open t); [apply goes_on; auto|].
  destruct (plan_done t || _) eqn:Hd.
  { intros Hu%completed_mission_done. apply ends_well; [done|]. split; [done|]. apply orb_true_iff in Hd as [Hd|Hd%bool_decide_eq_true]; auto. }
  destruct (_ || (_ && _)) eqn:Hw.
  { intros Hu%completed_mission_done. apply ends_well; [done|]. split; [done|]. apply orb_true_iff in Hw as [Hw|[Hw1 Hw2]%andb_true_iff]; auto 6. }
  destruct (contains_str c "[TASK_COMPLETED]"); [apply goes_on; auto|]. destruct (contains_str c "[TASK_BLOCKED"); apply goes_on; auto.
Qed.

(** ** Missions without progress *)

(** The mission and what is kept of its stalls, after a cycle that answered. *)
Definition cycle_outcome (st : option taskStallState) (t : AutonomousTask) (resp : Response) : option taskStallState * AutonomousTask :=
  let '(t, summary) := after_answer resp t in
  let '(st, (stalled, cycles)) := stall_step st (TStatus t) (Progress t) in
  (st, fst (after_stall stalled cycles t summary)).
(** A number of cycles; what the engine and others make of the mission before
    each is whatever it is. *)
Fixpoint outcomes (st : option taskStallState) (l : list (AutonomousTask * Response)) : list AutonomousTask :=
  match l with [] => [] | (t, resp) :: l => let '(st, t) := cycle_outcome st t resp in t :: outcomes st l end.

Definition patience (st : option taskStallState) : Z :=
  match st with Some s => if notified s then 0 else 3 * (100 - lastProgress s) + (2 - stalledCycles s) | None => 300 end.
Definition watched (st : option taskStallState) : Prop :=
  match st with Some s => notified s = false /\ 0 <= stalledCycles s <= 2 /\ 0 < lastProgress s <= 100 | None => True end.
Lemma after_stall_status b c t s : TStatus (fst (after_stall b c t s)) = "in_progress" -> TStatus t = "in_progress" /\ b = false.
Proof.
  unfold after_stall. destruct b; cbn [andb]; [|done]. cbn. case_bool_decide as Hs; cbn; [done|]. intros Ht. by destruct Hs.
Qed.
Lemma after_stall_progress b c t s : Progress (fst (after_stall b c t s)) = Progress t.
Proof. unfold after_stall. destruct b; cbn [andb]; [|done]. by case_bool_decide. Qed.
Lemma stall_step_patience st p : watched st -> 0 < p <= 100 -> (stall_step st "in_progress" p).2.1 = false ->
  watched (stall_step st "in_progress" p).1 /\ patience (stall_step st "in_progress" p).1 < patience st /\ 0 <= patience (stall_step st "in_progress" p).1.
Proof.
  intros Hw Hp. unfold stall_step. cbn [negb bool_decide]. rewrite bool_decide_true by done. cbn [negb]. rewrite (proj2 (Z.eqb_neq p 0)) by lia. cbn [orb].
  destruct st as [[lp k n]|]; cbn [default lastProgress stalledCycles notified watched patience no_stall] in *.
  - destruct Hw as (-> & Hk & Hlp). cbn [from_option id lastProgress stalledCycles notified]. unfold maxStalledCyclesBeforeEscalation.
    case_eq (lp <? p); intros Hlt; cbn [lastProgress stalledCycles notified].
    + cbn. lia.
    + case_eq (3 <=? k + 1); intros Hle; cbn; [done|]. lia.
  - rewrite (proj2 (Z.ltb_lt 0 p)) by lia. cbn. lia.
Qed.

(** C36. Of the cycles of a mission in which the engine answered, in a daemon
    that was not restarted and from an entry of stalls that was not noticed yet
    (none, at first), three hundred at most leave the mission in progress with a
    progress from 1 to 100: one that goes on without progress is blocked.
    Cycles that failed leave the entry alone and are not counted; nothing is
    said of a mission at nought, or of one set going again after the notice. *)
Theorem stuck_mission_is_blocked st l : watched st ->
  Forall (fun t => TStatus t = "in_progress" /\ 0 < Progress t <= 100) (outcomes st l) -> Z.of_nat (length l) <= patience st <= 300.
Proof.
  assert (Hpos : forall st, watched st -> 0 <= patience st <= 300).
  { intros [[lp k n]|]; cbn; [|done]. intros (-> & ? & ?). lia. }
  revert st. induction l as [|[t resp] l IH]; intros st Hw; [by intros _; apply Hpos|]. cbn [outcomes length].
  unfold cycle_outcome. destruct (after_answer resp t) as [t1 summary]. destruct (stall_step st _ _) as [st' [stalled cycles]] eqn:Hstep.
  intros [[Hs Hp] Hrest]%Forall_cons. rewrite after_stall_progress in Hp. apply after_stall_status in Hs as [Hs ->]. rewrite Hs in Hstep.
  pose proof (stall_step_patience st (Progress t1) Hw Hp) as Hd. rewrite Hstep in Hd. cbn [fst snd] in Hd. destruct (Hd eq_refl) as (Hw' & Hlt & _).
  specialize (IH st' Hw' Hrest). specialize (Hpos st Hw). lia.
Qed.

(** [cycle_outcome] is what the daemon does after an answer: it leaves the
    mission's entry so. *)
Definition same_stalls (s s' : Daemon) : Prop := stallTracker s' = stallTracker s.
#[export] Instance same_stalls_preorder : PreOrder same_stalls.
Proof. split; [by intros s|]. intros s1 s2 s3 H1 H2. unfold same_stalls in *. congruence. Qed.
Lemma stalls_tasks {X} (m : task_op X) : keeps same_stalls (tasks_op m).
Proof. intros s e. unfold tasks_op. apply wp_zoom. unfold wp. by destruct (m (d_tasks s) e) as [r [s' e']]. Qed.
Hint Resolve stalls_tasks : keeps.
Ltac stalls_go := keeps_go; try done.
Lemma stalls_save c a r t : keeps same_stalls (save c a r t).
Proof. unfold save, note. stalls_go. Qed.
Lemma stalls_adopt t : keeps same_stalls (adoptPersistedPlan t).
Proof. unfold adoptPersistedPlan. stalls_go. Qed.
Hint Resolve stalls_adopt : keeps.
Lemma stalls_persist t : keeps same_stalls (persistMissionTask t).
Proof. unfold persistMissionTask, update. stalls_go. Qed.
Lemma stalls_close id a t st su n : keeps same_stalls (close_run id a t st su n).
Proof. unfold close_run, recordRun. stalls_go. Qed.
Lemma stalls_tell t a r : keeps same_stalls (tell_mission t a r).
Proof. unfold tell_mission, notify, note. cbv zeta. stalls_go. Qed.
Lemma stalls_wake t : keeps same_stalls (wake_for_more t).
Proof. unfold wake_for_more, listed, note. stalls_go. Qed.
Hint Resolve stalls_persist stalls_close stalls_tell stalls_wake : keeps.
Lemma after_answer_id resp t : TID (fst (after_answer resp t)) = TID t.
Proof.
  unfold after_answer, completed_mission. cbv zeta. generalize (shortSummary (trim_space (RContent resp)) 250) as log. generalize (trim_space (RContent resp)) as c. intros c log.
  assert (Hin : TID (in_step t) = TID t) by (unfold in_step; destruct (TPlan t); [|done]; by destruct (_ <? _)).
  repeat (case_match; cbn [fst TID with_log with_fails with_state with_progress with_outcome with_counts]; try done).
Qed.
Lemma answered_tracks run a c at_ t resp s e : wp (answered run a c at_ t resp)
  (fun r s' _ => match r with Ok _ => stallTracker s' !! TID t = (cycle_outcome (stallTracker s !! TID t) t resp).1 | Err _ => True end) s e.
Proof.
  unfold answered, cycle_outcome. pose proof (after_answer_id resp t) as Hid. destruct (after_answer resp t) as [t1 summary]. cbn [fst] in Hid.
  apply wp_bind. apply (wp_keeps same_stalls); [apply stalls_save|]. intros r s1 e1 H1. destruct r as [[]|]; [|done].
  apply wp_bind. unfold trackTaskStall. apply wp_bind, wp_get. cbv beta iota. rewrite Hid, H1. destruct (stall_step _ _ _) as [st [stalled cycles]].
  apply wp_bind, wp_modify. cbv beta iota. apply wp_ret. cbv beta iota. cbn [fst snd]. destruct (after_stall _ _ _ _) as [t2 s2].
  match goal with |- wp ?m _ ?s0 ?e0 => assert (Hk : keeps same_stalls m) by stalls_go; apply (wp_keeps same_stalls); [exact Hk|] end.
  intros r s3 e3 H3. destruct r; [|done]. rewrite H3. cbn [set_stalls stallTracker fst]. by rewrite lookup_partial_alter_eq.
Qed.

(** At nought nothing is ever noticed, and after one notice nothing more
    until progress is made, whoever has set the mission going again. *)
Lemma never_stalled_at_zero st : stall_step st "in_progress" 0 = (Some (mkStall 0 0 false), (false, 0)).
Proof. done. Qed.
Lemma noticed_once p k q : 0 < q <= p -> stall_step (Some (mkStall p k true)) "in_progress" q = (Some (mkStall p (k + 1) true), (false, k + 1)).
Proof.
  intros Hq. unfold stall_step. cbn. rewrite (proj2 (Z.eqb_neq q 0)), (proj2 (Z.ltb_ge p q)) by lia. cbn. by rewrite andb_false_r.
Qed.
(** Three turns in a row that fail for good block a mission. *)
Lemma failing_mission_blocked m1 m2 m3 t : 0 <= FailCount t -> TStatus (fst (after_failure m3 (fst (after_failure m2 (fst (after_failure m1 t)))))) = "blocked".
Proof.
  intros Hf. assert (Hcount : forall m u, FailCount (fst (after_failure m u)) = FailCount u + 1) by (intros m u; unfold after_failure; cbv zeta; by destruct (_ <=? _)).
  unfold after_failure at 1. cbv zeta. cbn [FailCount with_log with_fails with_counts]. rewrite !Hcount, (proj2 (Z.leb_le _ _)); [done|]. unfold maxFailCyclesBeforeBlock. lia.
Qed.

(** ** A daemon that is started again

    [Stop] closes the channel for good: after a restart the loop ends at once
    and the next [Stop] panics. *)
Definition stays_up (s s' : Daemon) : Prop := (d_running s = true -> d_running s' = true) /\ (d_stopped s = true -> d_stopped s' = true).
#[export] Instance stays_up_preorder : PreOrder stays_up.
Proof. split; [by intros s|]. intros s1 s2 s3 [H1 H2] [H3 H4]. split; auto. Qed.
Lemma up_tasks {X} (m : task_op X) : keeps stays_up (tasks_op m).
Proof. intros s e. unfold tasks_op. apply wp_zoom. unfold wp. by destruct (m (d_tasks s) e) as [r [s' e']]. Qed.
Hint Resolve up_tasks : keeps.
Lemma up_rules a : keeps stays_up (register_rules a).
Proof. unfold register_rules, note. case_match; [keeps_go; by split|]. apply keeps_for_each; [apply _|]. intros [i r]. keeps_go; by split. Qed.
Hint Resolve up_rules : keeps.
Lemma up_sync : keeps stays_up syncTriggerRules.
Proof. unfold syncTriggerRules. keeps_go; apply up_rules. Qed.
Hint Resolve up_sync : keeps.
Lemma started s e : d_stopped s = true -> wp Start (fun _ s' _ => d_running s' = true /\ d_stopped s' = true) s e.
Proof.
  intros Hs. unfold Start. apply wp_bind, wp_get. cbv beta iota. destruct (d_running s) eqn:Hr; [by apply wp_ret|]. apply wp_bind, wp_modify. cbv beta iota.
  match goal with |- wp ?m _ _ _ => assert (Hk : keeps stays_up m) by (unfold TriggerWakeup, note; keeps_go; by split); apply (wp_keeps stays_up); [exact Hk|] end.
  intros r s' e' [H1 H2]. split; [by apply H1|by apply H2].
Qed.
Lemma restarted_stop_panics s e : d_stopped s = true -> wp (_ ← Start; Stop) (fun r _ _ => match r with Ok b => b = false | Err _ => True end) s e.
Proof.
  intros Hs. apply wp_bind. eapply wp_mono; [by apply started|]. cbv beta. intros [[]|x] s1 e1 [Hr Hst]; [|done].
  unfold Stop. apply wp_bind, wp_get. cbv beta iota. rewrite Hr, Hst. cbn [negb]. apply wp_bind, wp_modify. by apply wp_ret.
Qed.
End spec.

(** ** Directives and comments *)

Lemma bytes_reverse_length l : String.length (bytes_of (reverse l)) = String.length (bytes_of l).
Proof. induction l as [|x l IH]; [done|]. rewrite reverse_cons. change (x :: l) with ([x] ++ l). rewrite !bytes_of_app, !string_length_app, IH. lia. Qed.
Lemma bytes_drop_length p l : (String.length (bytes_of (drop_while p l)) <= String.length (bytes_of l))%nat.
Proof. destruct (drop_while_drop p l) as [n ->]. rewrite <- (take_drop n l) at 2. rewrite bytes_of_app, string_length_app. lia. Qed.
Lemma trim_space_shorter s : (String.length (trim_space s) <= String.length s)%nat.
Proof.
  unfold trim_space. rewrite bytes_reverse_length. etransitivity; [apply bytes_drop_length|]. rewrite bytes_reverse_length.
  etransitivity; [apply bytes_drop_length|]. by rewrite bytes_of_segments.
Qed.
Lemma substring_length_min n m s : (String.length (String.substring n m s) <= String.length s - n)%nat.
Proof. revert n m. induction s as [|c s IH]; intros [|n] [|m]; cbn; try lia; [specialize (IH 0%nat m)|specialize (IH n 0%nat)|specialize (IH n (S m))]; lia. Qed.
(** The loop over a line's comments ends: more fuel than the line has bytes
    changes nothing. *)
Lemma uncomment_enough f g c t : (String.length t < f)%nat -> (String.length t < g)%nat -> uncomment f c t = uncomment g c t.
Proof.
  revert g c t. induction f as [|f IH]; intros [|g] c t Hf Hg; try lia. cbn [uncomment].
  destruct (c || _) eqn:Hc; [|done]. destruct (index t "-->") as [i|] eqn:Hi; [|done].
  assert (Ht : (0 < String.length t)%nat) by (destruct t; [done|cbn; lia]).
  assert (Hl : (String.length (trim_space (String.substring (i + 3) (String.length t - (i + 3)) t)) < String.length t)%nat).
  { eapply Nat.le_lt_trans; [apply trim_space_shorter|]. eapply Nat.le_lt_trans; [apply substring_length_min|]. lia. }
  apply IH; lia.
Qed.

(** ** Closed examples *)

#[local] Existing Instance ascii_tables.
#[local] Instance plain_folding : Folding := {| simple_fold a b := a =? b |}.
Definition demo_mission : AutonomousTask :=
  mkTask "m" "Weekly report" "Write the report file" "in_progress" "p2_normal" "auto" "all" "all" 50 "" "" "user" 0 0 None None 0 0.
Definition demo_answer (c : string) (calls : list string) : Response := mkResponse c calls 7.

Lemma no_completion_by_prose_witness :
  let '(t, s) := after_answer (demo_answer "All done. [TASK_COMPLETED]" ["native_shell"]) demo_mission in
  TStatus t = "completed" /\ plan_open demo_mission = false.
Proof.
  pose proof (no_completion_by_prose (demo_answer "All done. [TASK_COMPLETED]" ["native_shell"]) demo_mission _ _ eq_refl) as [_ H].
  split; [vm_compute; reflexivity|]. apply H. vm_compute. reflexivity.
Defined.
Definition demo_cycles (n : nat) : list (AutonomousTask * Response) := replicate n (demo_mission, demo_answer "Still collecting the numbers." []).
Lemma stuck_mission_is_blocked_witness : watched None /\ Z.of_nat (length (demo_cycles 3)) <= patience None <= 300.
Proof.
  split; [exact I|]. apply (stuck_mission_is_blocked None (demo_cycles 3)); [exact I|].
  apply (bool_decide_unpack (Forall (fun t => TStatus t = "in_progress" /\ 0 < Progress t <= 100) (outcomes None (demo_cycles 3)))). vm_compute. exact I.
Defined.

(** The fourth cycle at the same progress blocks the mission. *)
Example fourth_cycle : TStatus <$> outcomes None (demo_cycles 4) = ["in_progress"; "in_progress"; "in_progress"; "blocked"].
Proof. vm_compute. reflexivity. Qed.
(** The examples of the tests of the code. *)
Example directives_read :
  hasActionableHeartbeatDirectives "" = false /\ hasActionableHeartbeatDirectives legacyDefaultHeartbeatDirective = false /\
  hasActionableHeartbeatDirectives ("<!-- scheduler note -->" +:+ nl +:+ "# Heartbeat" +:+ nl +:+ nl +:+ "- [ ]" +:+ nl +:+ "```markdown" +:+ nl +:+ "```") = false /\
  hasActionableHeartbeatDirectives ("<!--" +:+ nl +:+ "not a directive" +:+ nl +:+ "-->" +:+ nl +:+ "## Still idle") = false /\
  hasActionableHeartbeatDirectives ("# Ops" +:+ nl +:+ "Check the deployment health endpoint.") = true.
Proof. vm_compute. by split_and!. Qed.
Example answers_classified :
  classifyHeartbeatResponse "HEARTBEAT_OK" 300 = (true, "") /\ classifyHeartbeatResponse "Everything is OK." 300 = (true, "") /\
  (classifyHeartbeatResponse "HEARTBEAT_OKAY, disk full" 300).1 = false /\ (classifyHeartbeatResponse "Disk at 97%." 300).1 = false.
Proof. vm_compute. by split_and!. Qed.
(** The byte after the token is read as a character: the first of an ellipsis
    is taken for a letter. *)
Example ellipsis_is_an_alert : (classifyHeartbeatResponse "HEARTBEAT_OK…" 300).1 = false /\ (classifyHeartbeatResponse "HEARTBEAT_OK..." 300).1 = true.
Proof. vm_compute. by split. Qed.
(** A claim of progress is taken at its word, and the reason of a block is
    not kept. *)
Example progress_claimed : Progress (after_answer (demo_answer "[PROGRESS: 900%] going well" []) demo_mission).1 = 900.
Proof. vm_compute. reflexivity. Qed.
Example reason_lost :
  let t := (after_answer (demo_answer "[TASK_BLOCKED: no access to the drive]" []) demo_mission).1 in TStatus t = "blocked" /\ ExecutionLog t = "".
Proof. vm_compute. by split. Qed.
