(* ===== verification/Bus.v ===== *)
(** * The event bus ([internal/bus])

    Events go to the subscribers of their type and of the wildcard; a full
    subscriber loses the event.  A Go channel is a buffer and whether it is
    closed; channels are numbered in the order they were made, and sending on
    a closed one or closing it again is a panic.

    A section under the bus's mutex runs alone.  [Publish] has two of them,
    with the persist hook between: other operations may come in there, and
    the steps of BusSpec.v let them. *)

From S2P Require Import Prelude Io.
#[local] Open Scope Z_scope.

Definition DefaultChannelBufferSize : nat := 64.

Section bus.
Context {P : Type}.

Record Event := mkEvent {
  EID : string; EType : string; EAgent : string; ETimestamp : Z; EPayload : P; EMetadata : gmap string string }.

Record channel := mkChannel { buffer : list Event; chan_closed : bool }.

(** [persist] says whether a hook is set; the hook is a parameter of
    [Publish]. *)
Record EventBus := mkEventBus {
  chans : list channel;
  subscribers : gmap string (list nat);
  closed : bool;
  dropped : Z;
  persist : bool }.

Inductive bus_panic := SendOnClosed | CloseOfClosed.

Definition NewEventBus : EventBus := mkEventBus [] ∅ false 0 false.
Definition SetPersist (b : EventBus) : EventBus := mkEventBus (chans b) (subscribers b) (closed b) (dropped b) true.

Definition set_chans (b : EventBus) (l : list channel) : EventBus :=
  mkEventBus l (subscribers b) (closed b) (dropped b) (persist b).
Definition set_subscribers (b : EventBus) (m : gmap string (list nat)) : EventBus :=
  mkEventBus (chans b) m (closed b) (dropped b) (persist b).

Definition subs_of (b : EventBus) (eventType : string) : list nat := default [] (subscribers b !! eventType).

(** [select { case ch <- event: default: b.dropped.Add(1) }] *)
Definition offer (event : Event) (b : EventBus) (ch : nat) : result bus_panic EventBus :=
  match chans b !! ch with
  | None => Ok b
  | Some c =>
      if chan_closed c then Err SendOnClosed
      else if (length (buffer c) <? DefaultChannelBufferSize)%nat
      then Ok (set_chans b (<[ch := mkChannel (buffer c ++ [event]) false]> (chans b)))
      else Ok (mkEventBus (chans b) (subscribers b) (closed b) (dropped b + 1) (persist b))
  end.

Fixpoint offer_all (event : Event) (b : EventBus) (subs : list nat) : result bus_panic EventBus :=
  match subs with
  | [] => Ok b
  | ch :: rest => b ← offer event b ch; offer_all event b rest
  end.

(** The second section of [Publish]: the subscribers of the type, then those
    of the wildcard. *)
Definition fan_out (event : Event) (b : EventBus) : result bus_panic EventBus :=
  if closed b then Ok b
  else
    b ← offer_all event b (subs_of b (EType event));
    offer_all event b (subs_of b "*").

Definition DroppedEvents (b : EventBus) : Z := dropped b.

(** The new channel and the bus. *)
Definition Subscribe (eventType : string) (b : EventBus) : nat * EventBus :=
  let ch := length (chans b) in
  if closed b then (ch, set_chans b (chans b ++ [mkChannel [] true]))
  else (ch, set_subscribers (set_chans b (chans b ++ [mkChannel [] false]))
              (<[eventType := subs_of b eventType ++ [ch]]> (subscribers b))).

Definition close_chan (ch : nat) (b : EventBus) : result bus_panic EventBus :=
  match chans b !! ch with
  | None => Ok b
  | Some c => if chan_closed c then Err CloseOfClosed else Ok (set_chans b (<[ch := mkChannel (buffer c) true]> (chans b)))
  end.

(** The list without its first occurrence of [ch]. *)
Fixpoint remove_first (ch : nat) (l : list nat) : list nat :=
  match l with
  | [] => []
  | x :: l' => if bool_decide (x = ch) then l' else x :: remove_first ch l'
  end.

Definition Unsubscribe (eventType : string) (ch : nat) (b : EventBus) : result bus_panic EventBus :=
  match subscribers b !! eventType with
  | None => Ok b
  | Some subs =>
      if bool_decide (ch ∈ subs) then close_chan ch (set_subscribers b (<[eventType := remove_first ch subs]> (subscribers b)))
      else Ok b
  end.

Fixpoint close_all (l : list nat) (b : EventBus) : result bus_panic EventBus :=
  match l with
  | [] => Ok b
  | ch :: rest => b ← close_chan ch b; close_all rest b
  end.

(** Closing different channels in another order leaves the same bus. *)
Definition Close (b : EventBus) : result bus_panic EventBus :=
  if closed b then Ok b
  else
    b' ← close_all (concat (snd <$> map_to_list (subscribers b))) b;
    Ok (mkEventBus (chans b') ∅ true (dropped b') (persist b')).

(** [ev, ok := <-ch]: an event, the end of a closed channel, or the receiver
    blocks. *)
Inductive received := Got (ev : Event) | Ended | Blocks.

Definition Receive (ch : nat) (b : EventBus) : received * EventBus :=
  match chans b !! ch with
  | None => (Blocks, b)
  | Some c =>
      match buffer c with
      | ev :: rest => (Got ev, set_chans b (<[ch := mkChannel rest (chan_closed c)]> (chans b)))
      | [] => (if chan_closed c then Ended else Blocks, b)
      end
  end.

End bus.
Arguments Event : clear implicits.
Arguments channel : clear implicits.
Arguments EventBus : clear implicits.

(** ** The bus inside a larger state *)

Class BusHost (P S : Type) := { bus_of : S -> EventBus P; set_bus : EventBus P -> S -> S }.

Section publish.
Context {P S E : Type} `{BusHost P S} `{Uuid}.
Variable panic : bus_panic -> E.
Variable hook : Event P -> io S E (Event P).

Definition NewEvent (eventType agentID : string) (payload : P) : io S E (Event P) :=
  n ← draw; t ← now; mret (mkEvent (uuid n) eventType agentID t payload ∅).

Definition on_bus (f : EventBus P -> result bus_panic (EventBus P)) : io S E unit :=
  s ← get;
  match f (bus_of s) with
  | Ok b => modify (set_bus b)
  | Err x => throw (panic x)
  end.

(** A failing hook has changed nothing of the event. *)
Definition Publish (event : Event P) : io S E unit :=
  s ← get;
  if closed (bus_of s) then mret tt
  else
    event ← (if persist (bus_of s) then
               r ← attempt (hook event);
               mret (match r with Ok ev => ev | Err _ => event end)
             else mret event);
    on_bus (fan_out event).
End publish.
