(* ===== verification/BusSpec.v ===== *)
(** * What the event bus promises

    Publishers, subscribers and the shutdown interleave in any order between
    the bus's critical sections.  The bus never panics, and each channel
    carries, in order, events of the abstract bus [topics], which loses
    nothing: what is missing is counted. *)

From S2P Require Import Prelude Io Bus.
#[local] Open Scope Z_scope.

Section spec.
Context {P : Type}.

(** ** The bus with its publishers and readers *)

Record system := mkSystem {
  the_bus : EventBus P;
  inflight : list (Event P);           (* between the two sections of Publish *)
  read : gmap nat (list (Event P)) }.  (* what each channel's readers have taken *)

Inductive bus_op :=
  | Begin (ev : Event P)            (* the first section of Publish, and the hook *)
  | Deliver (i : nat)               (* the second section, of one publisher *)
  | Sub (eventType : string)
  | Unsub (eventType : string) (ch : nat)
  | Shut
  | Read (ch : nat).

Definition on_the_bus (s : system) (r : result bus_panic (EventBus P)) : result bus_panic system :=
  b ← r; Ok (mkSystem b (inflight s) (read s)).

Definition bus_step (s : system) (o : bus_op) : result bus_panic system :=
  match o with
  | Begin ev => Ok (if closed (the_bus s) then s else mkSystem (the_bus s) (inflight s ++ [ev]) (read s))
  | Deliver i =>
      match inflight s !! i with
      | Some ev => b ← fan_out ev (the_bus s); Ok (mkSystem b (delete i (inflight s)) (read s))
      | None => Ok s
      end
  | Sub t => Ok (mkSystem (Subscribe t (the_bus s)).2 (inflight s) (read s))
  | Unsub t ch => on_the_bus s (Unsubscribe t ch (the_bus s))
  | Shut => on_the_bus s (Close (the_bus s))
  | Read ch =>
      let '(r, b) := Receive ch (the_bus s) in
      Ok (mkSystem b (inflight s)
            (match r with Got ev => <[ch := default [] (read s !! ch) ++ [ev]]> (read s) | _ => read s end))
  end.

Fixpoint bus_run (ops : list bus_op) (s : system) : result bus_panic system :=
  match ops with
  | [] => Ok s
  | o :: rest => s ← bus_step s o; bus_run rest s
  end.

Definition new_system : system := mkSystem NewEventBus [] ∅.

(** ** The abstract bus: for each subscription its topic, whether it is still
    there, and every event published for it *)

Record topic := mkTopic { tname : string; topen : bool; tevents : list (Event P) }.
Record topics := mkTopics { tlist : list topic; tclosed : bool; tpending : list (Event P) }.

(** A subscriber of the wildcard gets an event of type "*" twice. *)
Definition copies (t : string) (ev : Event P) : list (Event P) :=
  (if bool_decide (t = EType ev) then [ev] else []) ++ (if bool_decide (t = "*") then [ev] else []).

Definition hear (ev : Event P) (t : topic) : topic :=
  if topen t then mkTopic (tname t) true (tevents t ++ copies (tname t) ev) else t.
Definition shut (t : topic) : topic := mkTopic (tname t) false (tevents t).

Definition topic_step (a : topics) (o : bus_op) : topics :=
  match o with
  | Begin ev => if tclosed a then a else mkTopics (tlist a) false (tpending a ++ [ev])
  | Deliver i =>
      match tpending a !! i with
      | Some ev => mkTopics (if tclosed a then tlist a else hear ev <$> tlist a) (tclosed a) (delete i (tpending a))
      | None => a
      end
  | Sub t => mkTopics (tlist a ++ [mkTopic t (negb (tclosed a)) []]) (tclosed a) (tpending a)
  | Unsub t ch =>
      match tlist a !! ch with
      | Some x => if topen x && bool_decide (tname x = t) then mkTopics (<[ch := shut x]> (tlist a)) (tclosed a) (tpending a) else a
      | None => a
      end
  | Shut => if tclosed a then a else mkTopics (shut <$> tlist a) true (tpending a)
  | Read _ => a
  end.

Definition topic_run (ops : list bus_op) : topics := fold_left topic_step ops (mkTopics [] false []).

(** What a channel has carried so far. *)
Definition carried (s : system) (ch : nat) : list (Event P) :=
  default [] (read s !! ch) ++ match chans (the_bus s) !! ch with Some c => buffer c | None => [] end.

Definition missing (s : system) (ch : nat) (t : topic) : Z := Z.of_nat (length (tevents t)) - Z.of_nat (length (carried s ch)).
Definition total_missing (s : system) (l : list topic) : Z := foldr Z.add 0 (imap (missing s) l).

(** ** The simulation *)

Record simulates (s : system) (a : topics) : Prop := {
  sim_closed : closed (the_bus s) = tclosed a;
  sim_pending : inflight s = tpending a;
  sim_length : length (chans (the_bus s)) = length (tlist a);
  sim_open ch c t : chans (the_bus s) !! ch = Some c -> tlist a !! ch = Some t -> chan_closed c = negb (topen t);
  sim_subs ty ch : ch ∈ subs_of (the_bus s) ty <-> exists t, tlist a !! ch = Some t /\ topen t = true /\ tname t = ty;
  sim_nodup ty : NoDup (subs_of (the_bus s) ty);
  sim_shut : tclosed a = true -> Forall (fun t => topen t = false) (tlist a);
  sim_carried ch t : tlist a !! ch = Some t -> sublist (carried s ch) (tevents t);
  sim_fits ch c : chans (the_bus s) !! ch = Some c -> (length (buffer c) <= DefaultChannelBufferSize)%nat;
  sim_dropped : dropped (the_bus s) = total_missing s (tlist a) }.

(** ** Sums *)

Definition total (l : list Z) : Z := foldr Z.add 0 l.

Lemma total_app l m : total (l ++ m) = total l + total m.
Proof. induction l as [|x l IH]; cbn; [done|]. unfold total in *. cbn. lia. Qed.
Lemma total_insert l i x y : l !! i = Some x -> total (<[i := y]> l) = total l - x + y.
Proof.
  revert i. induction l as [|z l IH]; intros [|i] Hi; cbn in Hi; [done|done| |].
  - injection Hi as ->. cbn. lia.
  - change (z + total (<[i:=y]> l) = z + total l - x + y). rewrite (IH i Hi). lia.
Qed.

Lemma total_missing_same s s' l : (forall ch, carried s' ch = carried s ch) -> total_missing s' l = total_missing s l.
Proof.
  intros Hc. unfold total_missing. f_equal. apply imap_ext. intros i t _. unfold missing. by rewrite Hc.
Qed.

(** ** One event to one subscriber *)

Definition give (ev : Event P) (ch : nat) (l : list topic) : list topic :=
  alter (fun t => mkTopic (tname t) (topen t) (tevents t ++ [ev])) ch l.
Definition with_list (a : topics) (l : list topic) : topics := mkTopics l (tclosed a) (tpending a).
Definition with_bus (s : system) (b : EventBus P) : system := mkSystem b (inflight s) (read s).

Lemma offer_sim s a ev ch t :
  simulates s a -> tlist a !! ch = Some t -> topen t = true ->
  exists b, offer ev (the_bus s) ch = Ok b /\ subscribers b = subscribers (the_bus s) /\ simulates (with_bus s b) (with_list a (give ev ch (tlist a))).
Proof.
  intros Hs Ht Hopen. destruct (lookup_lt_is_Some_2 (chans (the_bus s)) ch) as [c Hc].
  { rewrite (sim_length s a Hs). by eapply lookup_lt_Some. }
  assert (Hcc : chan_closed c = false) by (rewrite (sim_open s a Hs ch c t Hc Ht), Hopen; done).
  remember (length (buffer c) <? DefaultChannelBufferSize)%nat as room eqn:Hroom.
  assert (Hgive : forall i x', give ev ch (tlist a) !! i = Some x' -> exists x, tlist a !! i = Some x /\ tname x' = tname x /\ topen x' = topen x /\ tevents x' = tevents x ++ (if decide (i = ch) then [ev] else [])).
  { intros i x' Hi. unfold give in Hi. rewrite list_lookup_alter in Hi. destruct (decide (ch = i)) as [->|Hne].
    - rewrite decide_True by done. destruct (tlist a !! i) as [x|]; [|done]. cbn in Hi. injection Hi as <-. by exists x.
    - rewrite decide_False by congruence. exists x'. by rewrite app_nil_r. }
  assert (Hgive' : forall i x, tlist a !! i = Some x -> exists x', give ev ch (tlist a) !! i = Some x' /\ tname x' = tname x /\ topen x' = topen x).
  { intros i x Hi. unfold give. rewrite list_lookup_alter. destruct (decide (ch = i)) as [->|_]; rewrite Hi; cbn; eexists; (split; [reflexivity|done]). }
  assert (Hsame : forall b, length (chans b) = length (chans (the_bus s)) -> subscribers b = subscribers (the_bus s) -> closed b = closed (the_bus s) ->
    (forall i c', chans b !! i = Some c' -> exists c0, chans (the_bus s) !! i = Some c0 /\ chan_closed c' = chan_closed c0) ->
    (forall i, carried (with_bus s b) i = carried s i ++ (if decide (i = ch) then (if room then [ev] else []) else [])) ->
    (forall i c', chans b !! i = Some c' -> (length (buffer c') <= DefaultChannelBufferSize)%nat) ->
    dropped b = dropped (the_bus s) + (if room then 0 else 1) ->
    simulates (with_bus s b) (with_list a (give ev ch (tlist a)))).
  { intros b Hlen Hsubs Hcl Hch Hcar Hfit Hdrop. destruct Hs as [S1 S2 S3 S4 S5 S6 S7 S8 S9 S10]. split; cbn [the_bus inflight tclosed tlist tpending with_bus with_list].
    - by rewrite Hcl.
    - done.
    - rewrite Hlen, S3. unfold give. by rewrite length_alter.
    - intros i c' x' Hi Hx. destruct (Hch i c' Hi) as (c0 & Hi0 & ->). destruct (Hgive i x' Hx) as (x & Hx0 & _ & -> & _). eauto.
    - intros ty i. unfold subs_of. rewrite Hsubs. fold (subs_of (the_bus s) ty). rewrite S5. split.
      + intros (x & Hx & Ho & Hn). destruct (Hgive' i x Hx) as (x' & Hx' & Hn' & Ho'). exists x'. rewrite Hn', Ho'. done.
      + intros (x' & Hx' & Ho & Hn). destruct (Hgive i x' Hx') as (x & Hx & Hn' & Ho' & _). exists x. rewrite <- Hn', <- Ho'. done.
    - intros ty. unfold subs_of. rewrite Hsubs. apply S6.
    - intros Hac. specialize (S7 Hac). rewrite Forall_lookup in S7. specialize (S7 ch t Ht). congruence.
    - intros i x' Hx'. destruct (Hgive i x' Hx') as (x & Hx & _ & _ & ->). rewrite Hcar. specialize (S8 i x Hx).
      destruct (decide (i = ch)); [|by rewrite !app_nil_r]. destruct room; [by apply sublist_app|]. rewrite app_nil_r. by apply sublist_inserts_r.
    - exact Hfit.
    - assert (Himap : imap (missing (with_bus s b)) (give ev ch (tlist a)) =
        <[ch := missing s ch t + (if room then 0 else 1)]> (imap (missing s) (tlist a))).
      { apply list_eq. intros i. rewrite list_lookup_imap. destruct (decide (i = ch)) as [->|Hne].
        - rewrite list_lookup_insert_eq by (rewrite length_imap; by eapply lookup_lt_Some). unfold give. rewrite list_lookup_alter_eq, Ht. cbn. f_equal.
          unfold missing. rewrite Hcar, decide_True by done. cbn [tevents]. rewrite !length_app. destruct room; cbn [length]; lia.
        - rewrite list_lookup_insert_ne by done. rewrite list_lookup_imap. unfold give. rewrite list_lookup_alter_ne by done.
          destruct (tlist a !! i) as [x|]; [|done]. cbn. f_equal. unfold missing. by rewrite Hcar, decide_False, app_nil_r. }
      unfold total_missing. rewrite Himap. fold (total (<[ch := missing s ch t + (if room then 0 else 1)]> (imap (missing s) (tlist a)))).
      rewrite (total_insert _ ch (missing s ch t)) by (by rewrite list_lookup_imap, Ht). unfold total. fold (total_missing s (tlist a)). rewrite Hdrop, S10. lia. }
  unfold offer. rewrite Hc, Hcc, <- Hroom. symmetry in Hroom. destruct room.
  - eexists. split; [done|]. split; [done|]. apply Hsame; cbn [chans subscribers closed dropped set_chans]; try done.
    + by rewrite length_insert.
    + intros i c' Hi. apply list_lookup_insert_Some in Hi as [(-> & <- & _)|[_ Hi]]; [by exists c|by exists c'].
    + intros i. unfold carried. cbn [the_bus chans set_chans read with_bus]. destruct (decide (i = ch)) as [->|Hne].
      * rewrite list_lookup_insert_eq by (by eapply lookup_lt_Some). rewrite Hc. cbn [buffer]. by rewrite app_assoc.
      * by rewrite list_lookup_insert_ne, app_nil_r by done.
    + intros i c' Hi. apply list_lookup_insert_Some in Hi as [(-> & <- & _)|[_ Hi]]; [|by eapply sim_fits].
      cbn [buffer]. rewrite length_app. cbn. apply Nat.ltb_lt in Hroom. lia.
    + lia.
  - eexists. split; [done|]. split; [done|]. apply Hsame; cbn [chans subscribers closed dropped set_chans]; try done.
    + intros i c' Hi. by exists c'.
    + intros i. unfold carried. cbn [the_bus chans set_chans read with_bus]. by destruct (decide (i = ch)); rewrite app_nil_r.
    + intros i c' Hi. by eapply sim_fits.
Qed.

Definition open_in (l : list topic) (ch : nat) : Prop := exists t, l !! ch = Some t /\ topen t = true.

Lemma open_in_give ev i l ch : open_in l ch -> open_in (give ev i l) ch.
Proof.
  intros (t & Ht & Ho). unfold open_in, give. rewrite list_lookup_alter. destruct (decide (i = ch)) as [->|_]; rewrite Ht; cbn; eexists; (split; [reflexivity|done]).
Qed.

Lemma open_in_fold ev subs l ch : open_in l ch -> open_in (fold_left (fun l ch => give ev ch l) subs l) ch.
Proof. revert l. induction subs as [|i subs IH]; intros l Hl; [done|]. cbn [fold_left]. by apply IH, open_in_give. Qed.

Lemma offer_all_sim s a ev subs :
  simulates s a -> Forall (open_in (tlist a)) subs ->
  exists b, offer_all ev (the_bus s) subs = Ok b /\ subscribers b = subscribers (the_bus s) /\
    simulates (with_bus s b) (with_list a (fold_left (fun l ch => give ev ch l) subs (tlist a))).
Proof.
  revert s a. induction subs as [|ch subs IH]; intros s a Hs Hopen.
  - exists (the_bus s). split; [done|]. split; [done|]. by destruct s, a.
  - apply Forall_cons in Hopen as [(t & Ht & Ho) Hrest].
    destruct (offer_sim s a ev ch t Hs Ht Ho) as (b & Hb & Hsubs & Hs').
    destruct (IH _ _ Hs') as (b' & Hb' & Hsubs' & Hs'').
    { eapply Forall_impl; [exact Hrest|]. intros i. apply open_in_give. }
    exists b'. cbn [offer_all fold_left]. rewrite Hb. split; [exact Hb'|]. split; [by rewrite Hsubs'|exact Hs''].
Qed.

Lemma give_fold ev subs l i : NoDup subs -> fold_left (fun l ch => give ev ch l) subs l !! i =
  (fun t => mkTopic (tname t) (topen t) (tevents t ++ (if bool_decide (i ∈ subs) then [ev] else []))) <$> l !! i.
Proof.
  revert l. induction subs as [|ch subs IH]; intros l Hnd; cbn [fold_left].
  - destruct (l !! i) as [[n o evs]|]; cbn; [|done]. by rewrite app_nil_r.
  - apply NoDup_cons in Hnd as [Hni Hnd]. rewrite IH by done. unfold give. rewrite list_lookup_alter.
    destruct (decide (ch = i)) as [->|Hne].
    + rewrite <- option_fmap_compose. destruct (l !! i); cbn; [|done]. f_equal.
      rewrite bool_decide_eq_false_2 by done. rewrite (bool_decide_eq_true_2 (i ∈ i :: subs)) by (by apply elem_of_cons; left). by rewrite app_nil_r.
    + destruct (l !! i); cbn; [|done]. do 3 f_equal. rewrite (bool_decide_ext _ (i ∈ ch :: subs)); [done|]. rewrite elem_of_cons. naive_solver.
Qed.

Lemma fan_out_sim s a ev : simulates s a ->
  exists b, fan_out ev (the_bus s) = Ok b /\ simulates (with_bus s b) (with_list a (if tclosed a then tlist a else hear ev <$> tlist a)).
Proof.
  intros Hs. unfold fan_out. rewrite (sim_closed s a Hs). destruct (tclosed a) eqn:Hcl.
  - exists (the_bus s). split; [done|]. by destruct s, a.
  - assert (Hall : forall ty, Forall (open_in (tlist a)) (subs_of (the_bus s) ty)).
    { intros ty. apply Forall_forall. intros ch Hch. apply (sim_subs s a Hs) in Hch as (t & Ht & Ho & _). by exists t. }
    destruct (offer_all_sim s a ev _ Hs (Hall (EType ev))) as (b1 & Hb1 & Hsubs1 & Hs1).
    assert (Hstar : subs_of b1 "*" = subs_of (the_bus s) "*") by (unfold subs_of; by rewrite Hsubs1).
    destruct (offer_all_sim _ _ ev (subs_of (the_bus s) "*") Hs1) as (b2 & Hb2 & _ & Hs2).
    { cbn [tlist with_list]. eapply Forall_impl; [apply Hall|]. cbn beta. intros i Hi.
      by apply open_in_fold. }
    exists b2. rewrite Hb1. split; [cbn [mbind result_bind]; by rewrite Hstar|].
    assert (Heq : fold_left (fun l ch => give ev ch l) (subs_of (the_bus s) "*") (fold_left (fun l ch => give ev ch l) (subs_of (the_bus s) (EType ev)) (tlist a)) = hear ev <$> tlist a).
    { apply list_eq. intros i. rewrite !give_fold by apply (sim_nodup s a Hs). rewrite list_lookup_fmap, <- option_fmap_compose.
      destruct (tlist a !! i) as [t|] eqn:Ht; [|done]. cbn. f_equal. unfold hear.
      assert (Hin : forall ty, bool_decide (i ∈ subs_of (the_bus s) ty) = topen t && bool_decide (tname t = ty)).
      { intros ty. apply eq_true_iff_eq. rewrite andb_true_iff, !bool_decide_eq_true, (sim_subs s a Hs). split.
        - intros (t' & Ht' & Ho & Hn). by simplify_eq.
        - intros [Ho Hn]. by exists t. }
      rewrite !Hin. unfold copies. destruct t as [n [] evs]; cbn [topen tname tevents andb]; [by rewrite app_assoc|by rewrite !app_nil_r]. }
    unfold with_list in Hs2 |- *. cbn [tlist tclosed tpending] in Hs2. rewrite Heq in Hs2. exact Hs2.
Qed.

(** ** Closing *)

Definition shut_chan (c : channel P) : channel P := mkChannel (buffer c) true.
Definition chan_open (b : EventBus P) (ch : nat) : Prop := exists c, chans b !! ch = Some c /\ chan_closed c = false.

Lemma close_all_ok l b : NoDup l -> Forall (chan_open b) l ->
  exists b', close_all l b = Ok b' /\ subscribers b' = subscribers b /\ closed b' = closed b /\ dropped b' = dropped b /\
    length (chans b') = length (chans b) /\
    forall i, chans b' !! i = (fun c => if bool_decide (i ∈ l) then shut_chan c else c) <$> chans b !! i.
Proof.
  revert b. induction l as [|ch l IH]; intros b Hnd Hopen; cbn [close_all].
  - exists b. split_and!; try done. intros i. by destruct (chans b !! i).
  - apply NoDup_cons in Hnd as [Hni Hnd]. apply Forall_cons in Hopen as [(c & Hc & Hcc) Hopen].
    unfold close_chan. rewrite Hc, Hcc. cbn [mbind result_bind]. set (b1 := set_chans b _).
    destruct (IH b1 Hnd) as (b' & Hb' & Hs & Hcl & Hd & Hlen & Hat).
    { rewrite Forall_forall in Hopen |- *. intros i Hi. destruct (Hopen i Hi) as (c' & Hc' & Hcc').
      exists c'. split; [|done]. unfold b1. cbn [chans set_chans]. rewrite list_lookup_insert_ne by (intros <-; done). done. }
    exists b'. split; [exact Hb'|]. split; [exact Hs|]. split; [exact Hcl|]. split; [exact Hd|].
    split; [rewrite Hlen; unfold b1; cbn [chans set_chans]; by rewrite length_insert|].
    intros i. rewrite Hat. unfold b1. cbn [chans set_chans]. destruct (decide (i = ch)) as [->|Hne].
    + rewrite list_lookup_insert_eq by (by eapply lookup_lt_Some). rewrite Hc. cbn.
      rewrite bool_decide_eq_false_2 by done. rewrite bool_decide_eq_true_2 by (apply elem_of_cons; by left). done.
    + rewrite list_lookup_insert_ne by done. destruct (chans b !! i); [|done]. cbn.
      rewrite (bool_decide_ext (i ∈ ch :: l) (i ∈ l)); [done|]. rewrite elem_of_cons. naive_solver.
Qed.

Lemma NoDup_concat_by {A B} (key : B -> option A) (L : list (A * list B)) :
  NoDup L.*1 -> Forall (fun kl => NoDup kl.2 /\ Forall (fun x => key x = Some kl.1) kl.2) L -> NoDup (concat L.*2).
Proof.
  induction L as [|[k l] L IH]; intros Hk HL; cbn; [constructor|].
  apply NoDup_cons in Hk as [Hni Hk]. apply Forall_cons in HL as [[Hnd Hl] HL]. apply NoDup_app. split; [done|]. split; [|by apply IH].
  intros x Hx Hc. apply Hni. rewrite Forall_forall in Hl. specialize (Hl x Hx). cbn [fst snd] in Hl.
  apply list_elem_of_In, in_concat in Hc as (l' & Hl' & Hxl'). apply list_elem_of_In in Hl'. apply list_elem_of_In in Hxl'.
  apply list_elem_of_fmap in Hl' as ([k' l2] & -> & HkL). rewrite Forall_forall in HL. destruct (HL _ HkL) as [_ Hkey].
  rewrite Forall_forall in Hkey. specialize (Hkey x Hxl'). cbn [fst snd] in Hkey. rewrite Hl in Hkey. injection Hkey as ->.
  apply list_elem_of_fmap. by exists (k', l2).
Qed.

Lemma in_some_list (b : EventBus P) ch : ch ∈ concat (snd <$> map_to_list (subscribers b)) <-> exists ty, ch ∈ subs_of b ty.
Proof.
  rewrite list_elem_of_In, in_concat. split.
  - intros (l & Hl & Hch). apply list_elem_of_In in Hl. apply list_elem_of_In in Hch. apply list_elem_of_fmap in Hl as ([ty l'] & -> & Hty%elem_of_map_to_list).
    exists ty. unfold subs_of. by rewrite Hty.
  - intros (ty & Hch). unfold subs_of in Hch. destruct (subscribers b !! ty) as [l|] eqn:Hl; [|by apply not_elem_of_nil in Hch].
    exists l. rewrite <- !list_elem_of_In. split; [|done]. apply list_elem_of_fmap. exists (ty, l). split; [done|]. by apply elem_of_map_to_list.
Qed.

Lemma open_subscriber s a ty ch : simulates s a -> ch ∈ subs_of (the_bus s) ty -> chan_open (the_bus s) ch.
Proof.
  intros Hs Hch. apply (sim_subs s a Hs) in Hch as (t & Ht & Ho & _).
  destruct (lookup_lt_is_Some_2 (chans (the_bus s)) ch) as [c Hc]; [rewrite (sim_length s a Hs); by eapply lookup_lt_Some|].
  exists c. split; [done|]. by rewrite (sim_open s a Hs ch c t Hc Ht), Ho.
Qed.

Lemma carried_shut s b' (l : list nat) :
  (forall i, chans b' !! i = (fun c => if bool_decide (i ∈ l) then shut_chan c else c) <$> chans (the_bus s) !! i) ->
  forall i, carried (with_bus s b') i = carried s i.
Proof.
  intros Hat i. unfold carried. cbn [the_bus read with_bus]. rewrite Hat. destruct (chans (the_bus s) !! i); [|done]. cbn. by case_bool_decide.
Qed.

Lemma missing_tevents s l l' : length l = length l' -> (forall i t t', l !! i = Some t -> l' !! i = Some t' -> tevents t = tevents t') ->
  total_missing s l = total_missing s l'.
Proof.
  intros Hlen Hev. unfold total_missing. f_equal. apply list_eq. intros i. rewrite !list_lookup_imap.
  destruct (l !! i) as [t|] eqn:Hi.
  - destruct (lookup_lt_is_Some_2 l' i) as [t' Hi']; [rewrite <- Hlen; by eapply lookup_lt_Some|]. rewrite Hi'. cbn. f_equal. unfold missing. by rewrite (Hev i t t').
  - apply lookup_ge_None in Hi. by rewrite (proj2 (lookup_ge_None l' i)) by lia.
Qed.

Lemma Close_sim s a : simulates s a ->
  exists b, Close (the_bus s) = Ok b /\ simulates (with_bus s b) (topic_step a Shut).
Proof.
  intros Hs. unfold Close, topic_step. rewrite (sim_closed s a Hs). destruct (tclosed a) eqn:Hcl; [exists (the_bus s); split; [done|]; by destruct s|].
  set (l := concat _).
  destruct (close_all_ok l (the_bus s)) as (b' & Hb' & _ & _ & Hd & Hlen & Hat).
  - apply (NoDup_concat_by (fun ch => tname <$> tlist a !! ch)); [apply NoDup_fst_map_to_list|].
    apply Forall_forall. intros [ty subs] Hty%elem_of_map_to_list. cbn [fst snd].
    assert (Hsubs : subs_of (the_bus s) ty = subs) by (unfold subs_of; by rewrite Hty). rewrite <- Hsubs. split; [apply (sim_nodup s a Hs)|].
    apply Forall_forall. intros ch Hch. apply (sim_subs s a Hs) in Hch as (t & -> & _ & <-). done.
  - apply Forall_forall. intros ch [ty Hch]%in_some_list. by eapply open_subscriber.
  - rewrite Hb'. cbn [mbind result_bind]. eexists. split; [done|].
    assert (Hcar := carried_shut s b' l Hat). destruct Hs as [S1 S2 S3 S4 S5 S6 S7 S8 S9 S10].
    split; cbn [the_bus with_bus closed chans subscribers dropped inflight tclosed tlist tpending]; try done.
    + by rewrite Hlen, S3, length_fmap.
    + intros ch c t Hc Ht. rewrite list_lookup_fmap in Ht. destruct (tlist a !! ch) as [t0|] eqn:Ht0; [|done]. cbn in Ht. injection Ht as <-. cbn [topen shut negb].
      rewrite Hat in Hc. destruct (chans (the_bus s) !! ch) as [c0|] eqn:Hc0; [|done]. cbn in Hc. injection Hc as <-. case_bool_decide as Hl; [done|].
      rewrite (S4 ch c0 t0 Hc0 Ht0). destruct (topen t0) eqn:Ho; [|done]. destruct Hl. apply in_some_list. exists (tname t0). apply S5. by exists t0.
    + intros ty ch. unfold subs_of. cbn [subscribers]. rewrite lookup_empty. split; [intros H; by apply not_elem_of_nil in H|].
      intros (t & Ht & Ho & _). rewrite list_lookup_fmap in Ht. destruct (tlist a !! ch); [|done]. cbn in Ht. injection Ht as <-. done.
    + intros ty. unfold subs_of. cbn [subscribers]. rewrite lookup_empty. constructor.
    + intros _. apply Forall_forall. intros t (t0 & -> & _)%list_elem_of_fmap. done.
    + intros ch t Ht. rewrite list_lookup_fmap in Ht. destruct (tlist a !! ch) as [t0|] eqn:Ht0; [|done]. cbn in Ht. injection Ht as <-.
      change (carried _ ch) with (carried (with_bus s b') ch). rewrite Hcar. exact (S8 ch t0 Ht0).
    + intros ch c Hc. rewrite Hat in Hc. destruct (chans (the_bus s) !! ch) as [c0|] eqn:Hc0; [|done]. cbn in Hc. injection Hc as <-.
      specialize (S9 ch c0 Hc0). by case_bool_decide.
    + rewrite Hd, S10. transitivity (total_missing s (shut <$> tlist a)); [|symmetry; apply total_missing_same; intros i; apply (Hcar i)]. apply missing_tevents; [by rewrite length_fmap|].
      intros i t t' Ht Ht'. rewrite list_lookup_fmap, Ht in Ht'. cbn in Ht'. by injection Ht' as <-.
Qed.

(** ** Leaving, joining, reading *)

Lemma elem_of_remove_first ch l x : NoDup l -> x ∈ remove_first ch l <-> x ∈ l /\ x <> ch.
Proof.
  induction l as [|y l IH]; intros Hnd; cbn; [set_solver|]. apply NoDup_cons in Hnd as [Hy Hnd].
  case_bool_decide as Heq; [subst y|].
  - rewrite elem_of_cons. split; [intros Hx; split; [by right|by intros ->]|]. by intros [[->|?] ?].
  - rewrite !elem_of_cons, IH by done. naive_solver.
Qed.
Lemma NoDup_remove_first ch l : NoDup l -> NoDup (remove_first ch l).
Proof.
  induction l as [|y l IH]; intros Hnd; cbn; [done|]. apply NoDup_cons in Hnd as [Hy Hnd]. case_bool_decide; [done|].
  apply NoDup_cons. split; [|by apply IH]. intros Hx. by apply elem_of_remove_first in Hx as [Hx _].
Qed.

Lemma Unsubscribe_sim s a ty ch : simulates s a ->
  exists b, Unsubscribe ty ch (the_bus s) = Ok b /\ simulates (with_bus s b) (topic_step a (Unsub ty ch)).
Proof.
  intros Hs. cbn [topic_step].
  assert (Hno : ch ∉ subs_of (the_bus s) ty -> match tlist a !! ch with
    | Some x => if topen x && bool_decide (tname x = ty) then mkTopics (<[ch := shut x]> (tlist a)) (tclosed a) (tpending a) else a
    | None => a end = a).
  { intros Hni. destruct (tlist a !! ch) as [t|] eqn:Ht; [|done]. destruct (topen t) eqn:Ho; [|done]. case_bool_decide as Hn; [|done].
    destruct Hni. apply (sim_subs s a Hs). by exists t. }
  unfold Unsubscribe. destruct (subscribers (the_bus s) !! ty) as [subs|] eqn:Hsub.
  2:{ exists (the_bus s). split; [done|]. rewrite Hno by (unfold subs_of; rewrite Hsub; apply not_elem_of_nil). by destruct s. }
  assert (Hsubs : subs_of (the_bus s) ty = subs) by (unfold subs_of; by rewrite Hsub).
  case_bool_decide as Hin.
  2:{ exists (the_bus s). split; [done|]. rewrite Hno by (by rewrite Hsubs). by destruct s. }
  rewrite <- Hsubs in Hin. destruct (open_subscriber s a ty ch Hs Hin) as (c & Hc & Hcc).
  destruct (proj1 (sim_subs s a Hs ty ch) Hin) as (t & Ht & Ho & Hn).
  unfold close_chan. cbn [chans set_subscribers]. rewrite Hc, Hcc, Ht, Ho, (bool_decide_eq_true_2 _ Hn). cbn [andb].
  eexists. split; [done|]. assert (Hnd := sim_nodup s a Hs).
  set (b := set_chans _ _). assert (Hcar : forall i, carried (with_bus s b) i = carried s i).
  { apply (carried_shut s b [ch]). intros i. unfold b. cbn [chans set_chans set_subscribers]. destruct (decide (i = ch)) as [->|Hne].
    - rewrite list_lookup_insert_eq by (by eapply lookup_lt_Some). rewrite Hc. cbn. by rewrite bool_decide_eq_true_2 by (by apply list_elem_of_singleton).
    - rewrite list_lookup_insert_ne by done. destruct (chans (the_bus s) !! i); [|done]. cbn.
      by rewrite bool_decide_eq_false_2 by (by rewrite list_elem_of_singleton). }
  assert (Hof : forall ty', subs_of b ty' = if decide (ty' = ty) then remove_first ch subs else subs_of (the_bus s) ty').
  { intros ty'. unfold subs_of, b. cbn [subscribers set_chans set_subscribers]. destruct (decide (ty' = ty)) as [->|Hne]; [by rewrite lookup_insert_eq|by rewrite lookup_insert_ne]. }
  destruct Hs as [S1 S2 S3 S4 S5 S6 S7 S8 S9 S10].
  split; cbn [the_bus with_bus inflight tclosed tlist tpending]; try done.
  - unfold b. cbn [chans set_chans set_subscribers]. by rewrite !length_insert.
  - intros i c' t' Hc' Ht'. unfold b in Hc'. cbn [chans set_chans set_subscribers] in Hc'. destruct (decide (i = ch)) as [->|Hne].
    + rewrite list_lookup_insert_eq in Hc' by (by eapply lookup_lt_Some). rewrite list_lookup_insert_eq in Ht' by (by eapply lookup_lt_Some). by simplify_eq.
    + rewrite list_lookup_insert_ne in Hc' by done. rewrite list_lookup_insert_ne in Ht' by done. eauto.
  - intros ty' i. rewrite Hof. assert (Hdec : i = ch \/ i <> ch) by (destruct (decide (i = ch)); auto).
    destruct Hdec as [->|Hne].
    + rewrite list_lookup_insert_eq by (by eapply lookup_lt_Some). split.
      * intros Hi. exfalso. destruct (decide (ty' = ty)) as [->|Hty]; [by apply elem_of_remove_first in Hi as [_ ?]; [|rewrite <- Hsubs]|].
        apply S5 in Hi as (t' & Ht' & _ & Hn'). simplify_eq.
      * intros (t' & [= <-] & Ho' & _). done.
    + rewrite list_lookup_insert_ne, <- S5 by done. destruct (decide (ty' = ty)) as [->|Hty]; [|done].
      rewrite elem_of_remove_first by (rewrite <- Hsubs; apply Hnd). rewrite Hsubs. naive_solver.
  - intros ty'. rewrite Hof. destruct (decide (ty' = ty)); [|apply Hnd]. apply NoDup_remove_first. rewrite <- Hsubs. apply Hnd.
  - intros Hcl. apply Forall_insert; [by apply S7|done].
  - intros i t' Ht'. rewrite Hcar. destruct (decide (i = ch)) as [->|Hne].
    + rewrite list_lookup_insert_eq in Ht' by (by eapply lookup_lt_Some). injection Ht' as <-. exact (S8 ch t Ht).
    + rewrite list_lookup_insert_ne in Ht' by done. eauto.
  - intros i c' Hc'. unfold b in Hc'. cbn [chans set_chans set_subscribers] in Hc'.
    apply list_lookup_insert_Some in Hc' as [(-> & <- & _)|[_ Hc']]; [exact (S9 _ c Hc)|by eapply S9].
  - change (dropped b) with (dropped (the_bus s)). rewrite S10. transitivity (total_missing s (<[ch := shut t]> (tlist a))); [|symmetry; by apply total_missing_same].
    apply missing_tevents; [by rewrite length_insert|]. intros i t1 t2 H1 H2. apply list_lookup_insert_Some in H2 as [(-> & <- & _)|[_ H2]]; by simplify_eq.
Qed.

Lemma Subscribe_sim s a ty : simulates s a -> (forall ch, (length (chans (the_bus s)) <= ch)%nat -> read s !! ch = None) ->
  simulates (with_bus s (Subscribe ty (the_bus s)).2) (topic_step a (Sub ty)).
Proof.
  intros Hs Hread. set (n := length (chans (the_bus s))). set (b := (Subscribe ty (the_bus s)).2).
  assert (Hn : length (tlist a) = n) by (symmetry; apply (sim_length s a Hs)).
  assert (Hb : chans b = chans (the_bus s) ++ [mkChannel [] (tclosed a)] /\ closed b = closed (the_bus s) /\ dropped b = dropped (the_bus s) /\
    forall ty', subs_of b ty' = subs_of (the_bus s) ty' ++ (if tclosed a then [] else if decide (ty' = ty) then [n] else [])).
  { unfold b, Subscribe. rewrite (sim_closed s a Hs). destruct (tclosed a) eqn:Hac; cbn [snd].
    - split_and!; try done; try (transitivity (tclosed a); [apply (sim_closed s a Hs)|exact Hac]). intros ty'. by rewrite app_nil_r.
    - split_and!; try done; try (transitivity (tclosed a); [apply (sim_closed s a Hs)|exact Hac]). intros ty'. unfold subs_of at 1. cbn [subscribers set_chans set_subscribers].
      destruct (decide (ty' = ty)) as [->|Hne]; [by rewrite lookup_insert_eq|]. by rewrite lookup_insert_ne, app_nil_r. }
  destruct Hb as (Hch & Hcl & Hdr & Hsub).
  assert (Hcar : forall i, carried (with_bus s b) i = carried s i).
  { intros i. unfold carried. cbn [the_bus read with_bus]. rewrite Hch. destruct (decide (i < n)%nat).
    - by rewrite lookup_app_l.
    - rewrite (proj2 (lookup_ge_None (chans (the_bus s)) i)) by lia. destruct (decide (i = n)) as [->|Hne].
      + by rewrite list_lookup_middle.
      + rewrite (proj2 (lookup_ge_None _ i)); [done|]. rewrite length_app. cbn. fold n. lia. }
  destruct Hs as [S1 S2 S3 S4 S5 S6 S7 S8 S9 S10].
  assert (Hlast : forall i t, (tlist a ++ [mkTopic ty (negb (tclosed a)) []]) !! i = Some t ->
    (tlist a !! i = Some t /\ (i < n)%nat) \/ (i = n /\ t = mkTopic ty (negb (tclosed a)) [])).
  { intros i t Ht. apply lookup_app_Some in Ht as [Ht|[Hle Ht]]; [left; split; [done|rewrite <- Hn; by eapply lookup_lt_Some]|].
    apply list_lookup_singleton_Some in Ht as [Hi <-]. right. split; [lia|done]. }
  split; cbn [the_bus with_bus inflight tclosed tlist tpending topic_step]; try done.
  - by rewrite Hcl.
  - rewrite Hch, !length_app, S3. done.
  - intros i c t Hc Ht. rewrite Hch in Hc. destruct (Hlast i t Ht) as [[Ht' Hlt]|[-> ->]].
    + rewrite lookup_app_l in Hc by done. eauto.
    + rewrite list_lookup_middle in Hc by done. injection Hc as <-. cbn. by destruct (tclosed a).
  - intros ty' i. rewrite Hsub, elem_of_app. split.
    + intros [Hi|Hi].
      * apply S5 in Hi as (t & Ht & Ho & Hnm). exists t. split; [by apply lookup_app_l_Some|done].
      * destruct (tclosed a) eqn:Hac; [by apply not_elem_of_nil in Hi|]. destruct (decide (ty' = ty)) as [->|]; [|by apply not_elem_of_nil in Hi].
        apply list_elem_of_singleton in Hi as ->. eexists. split; [by apply list_lookup_middle|done].
    + intros (t & Ht & Ho & Hnm). destruct (Hlast i t Ht) as [[Ht' _]|[-> ->]]; [left; apply S5; by exists t|]. right.
      cbn [topen tname] in Ho, Hnm. destruct (tclosed a); [done|]. rewrite decide_True by done. by apply list_elem_of_singleton.
  - intros ty'. rewrite Hsub. apply NoDup_app. split; [apply S6|]. split.
    + intros i Hi Hi'. apply S5 in Hi as (t & Ht & _). assert (i = n) as -> by (destruct (tclosed a); [by apply not_elem_of_nil in Hi'|];
        destruct (decide (ty' = ty)); [by apply list_elem_of_singleton in Hi'|by apply not_elem_of_nil in Hi']).
      apply lookup_lt_Some in Ht. lia.
    + destruct (tclosed a); [constructor|]. destruct (decide (ty' = ty)); [apply NoDup_singleton|constructor].
  - intros Hac. apply Forall_app. split; [by apply S7|]. constructor; [by rewrite Hac|constructor].
  - intros i t Ht. rewrite Hcar. destruct (Hlast i t Ht) as [[Ht' _]|[-> ->]]; [by apply S8|].
    unfold carried. rewrite Hread by done. rewrite (proj2 (lookup_ge_None (chans (the_bus s)) n)) by done. constructor.
  - intros i c Hc. rewrite Hch in Hc. apply lookup_app_Some in Hc as [Hc|[_ Hc]]; [by eapply S9|].
    apply list_lookup_singleton_Some in Hc as [_ <-]. cbn. unfold DefaultChannelBufferSize. lia.
  - rewrite Hdr, S10. transitivity (total_missing s (tlist a ++ [mkTopic ty (negb (tclosed a)) []])); [|symmetry; by apply total_missing_same].
    unfold total_missing. rewrite imap_app. fold (total (imap (missing s) (tlist a))). fold (total (imap (missing s) (tlist a) ++ imap (missing s ∘ Nat.add (length (tlist a))) [mkTopic ty (negb (tclosed a)) []])).
    rewrite total_app. cbn. unfold missing. rewrite Nat.add_0_r, Hn. unfold carried. rewrite Hread by done.
    rewrite (proj2 (lookup_ge_None (chans (the_bus s)) n)) by done. cbn. lia.
Qed.

Definition reads_exist (s : system) : Prop := forall ch, (length (chans (the_bus s)) <= ch)%nat -> read s !! ch = None.

Lemma Read_sim s a ch : simulates s a -> reads_exist s ->
  exists s', bus_step s (Read ch) = Ok s' /\ simulates s' a /\ reads_exist s'.
Proof.
  intros Hs Hr. unfold bus_step, Receive. destruct (chans (the_bus s) !! ch) as [[[|ev rest] cc]|] eqn:Hc; cbn [buffer chan_closed].
  - exists s. split; [by destruct cc; destruct s|done].
  - eexists. split; [done|]. set (s' := mkSystem _ _ _).
    assert (Hlt : (ch < length (chans (the_bus s)))%nat) by (by eapply lookup_lt_Some).
    assert (Hcar : forall i, carried s' i = carried s i).
    { intros i. unfold carried, s'. cbn [the_bus read chans set_chans]. destruct (decide (i = ch)) as [->|Hne].
      - rewrite lookup_insert_eq, list_lookup_insert_eq, Hc by done. cbn. cbv delta [id] beta. by rewrite <- app_assoc.
      - by rewrite lookup_insert_ne, list_lookup_insert_ne. }
    split.
    + destruct Hs as [S1 S2 S3 S4 S5 S6 S7 S8 S9 S10]. split; unfold s'; cbn [the_bus inflight chans set_chans closed dropped]; try done.
      * by rewrite length_insert.
      * intros i c t Hi Ht. apply list_lookup_insert_Some in Hi as [(<- & <- & _)|[_ Hi]]; [exact (S4 _ _ t Hc Ht)|eauto].
      * intros i t Ht. fold s'. rewrite Hcar. eauto.
      * intros i c Hi. apply list_lookup_insert_Some in Hi as [(<- & <- & _)|[_ Hi]]; [|by eapply S9]. specialize (S9 _ _ Hc). cbn [buffer length] in *. lia.
      * rewrite S10. symmetry. by apply total_missing_same.
    + intros i Hi. unfold s' in *. cbn [the_bus read chans set_chans] in *. rewrite length_insert in Hi. rewrite lookup_insert_ne by lia. by apply Hr.
  - exists s. split; [by destruct s|done].
Qed.

Lemma reads_longer s b : reads_exist s -> (length (chans (the_bus s)) <= length (chans b))%nat -> reads_exist (with_bus s b).
Proof. intros Hr Hle ch Hch. cbn [the_bus with_bus] in Hch. apply Hr. lia. Qed.

Lemma step_sim s a o : simulates s a -> reads_exist s ->
  exists s', bus_step s o = Ok s' /\ simulates s' (topic_step a o) /\ reads_exist s'.
Proof.
  intros Hs Hr.
  assert (Hkeep : forall b l p, simulates (with_bus s b) (mkTopics l (tclosed a) p) -> length l = length (tlist a) -> reads_exist (with_bus s b)).
  { intros b l p Hb Hl. apply reads_longer; [done|]. apply sim_length in Hb. cbn [the_bus with_bus tlist] in Hb. rewrite (sim_length s a Hs), Hb. lia. }
  destruct o as [ev|i|ty|ty ch| |ch].
  - cbn [bus_step topic_step]. eexists. split; [done|]. rewrite (sim_closed s a Hs). destruct (tclosed a) eqn:Hcl; [done|]. split; [|exact Hr].
    destruct Hs as [S1 S2 S3 S4 S5 S6 S7 S8 S9 S10]. split; cbn [the_bus inflight tclosed tpending tlist]; try done; [by rewrite S1|by rewrite S2].
  - cbn [bus_step topic_step]. rewrite (sim_pending s a Hs). destruct (tpending a !! i) as [ev|] eqn:Hi; [|by exists s].
    destruct (fan_out_sim s a ev Hs) as (b & Hb & Hs'). rewrite Hb. cbn [mbind result_bind]. eexists. split; [done|].
    assert (Hr' : reads_exist (with_bus s b)) by (apply (Hkeep _ _ _ Hs'); destruct (tclosed a); by rewrite ?length_fmap).
    split; [|exact Hr']. destruct Hs' as [S1 S2 S3 S4 S5 S6 S7 S8 S9 S10].
    split; cbn [the_bus inflight with_bus with_list tclosed tpending tlist] in *; try done.
  - cbn [bus_step]. eexists. split; [done|]. split; [by apply Subscribe_sim|].
    apply (reads_longer s); [done|]. unfold Subscribe. destruct (closed (the_bus s)); cbn [snd chans set_chans set_subscribers]; rewrite length_app; lia.
  - destruct (Unsubscribe_sim s a ty ch Hs) as (b & Hb & Hs'). cbn [bus_step]. unfold on_the_bus. rewrite Hb. cbn [mbind result_bind].
    eexists. split; [done|]. split; [exact Hs'|]. apply (reads_longer s); [done|]. rewrite (sim_length s a Hs).
    apply sim_length in Hs'. cbn [the_bus with_bus] in Hs'. rewrite Hs'. cbn [topic_step].
    destruct (tlist a !! ch) as [t|]; [|done]. destruct (_ && _); cbn [tlist]; by rewrite ?length_insert.
  - destruct (Close_sim s a Hs) as (b & Hb & Hs'). cbn [bus_step]. unfold on_the_bus. rewrite Hb. cbn [mbind result_bind].
    eexists. split; [done|]. split; [exact Hs'|]. apply (reads_longer s); [done|]. rewrite (sim_length s a Hs).
    apply sim_length in Hs'. cbn [the_bus with_bus] in Hs'. rewrite Hs'. cbn [topic_step]. destruct (tclosed a); cbn [tlist]; by rewrite ?length_fmap.
  - by apply Read_sim.
Qed.

Lemma new_simulates : simulates new_system (mkTopics [] false []).
Proof.
  split; cbn; try done.
  - intros ty ch. unfold subs_of. cbn. split; [intros H; by apply not_elem_of_nil in H|by intros (t & ? & _)].
  - intros ty. unfold subs_of. cbn. constructor.
Qed.

Lemma run_sim ops s a : simulates s a -> reads_exist s ->
  exists s', bus_run ops s = Ok s' /\ simulates s' (fold_left topic_step ops a).
Proof.
  revert s a. induction ops as [|o ops IH]; intros s a Hs Hr; [by exists s|]. cbn [bus_run fold_left].
  destruct (step_sim s a o Hs Hr) as (s1 & H1 & Hs1 & Hr1). rewrite H1. cbn [mbind result_bind]. by apply IH.
Qed.

Lemma total_zero l : Forall (fun z => 0 <= z) l -> total l = 0 -> Forall (fun z => z = 0) l.
Proof.
  induction 1 as [|z l Hz Hl IH]; intros Ht; [constructor|].
  assert (Hpos : 0 <= total l) by (clear - Hl; induction Hl as [|x l Hx _ IH]; [done|]; change (0 <= x + total l); lia).
  change (z + total l = 0) in Ht. constructor; [lia|apply IH; lia].
Qed.

Lemma sublist_full (l m : list (Event P)) : sublist l m -> (length m <= length l)%nat -> l = m.
Proof.
  intros Hsub Hlen. revert Hlen. induction Hsub as [|x l m Hs IH|x l m Hs IH]; intros Hlen; [done|cbn in Hlen; f_equal; apply IH; lia|].
  apply sublist_length in Hs. cbn in Hlen. lia.
Qed.

(** C23. Whatever the order in which publishers, subscribers, readers and the
    shutdown take their turns, no operation panics, and each channel carries,
    in the order they were published, events of its topic from the time it
    was subscribed: a buffer never holds more than 64, the counter tells how
    many events are missing, and while it is zero none is. *)
Theorem bus_delivers (ops : list bus_op) :
  exists s, bus_run ops new_system = Ok s /\
    let topics := tlist (topic_run ops) in
    length (chans (the_bus s)) = length topics /\
    (forall ch t, topics !! ch = Some t -> sublist (carried s ch) (tevents t)) /\
    (forall ch c, chans (the_bus s) !! ch = Some c -> (length (buffer c) <= 64)%nat) /\
    DroppedEvents (the_bus s) = total_missing s topics /\
    (DroppedEvents (the_bus s) = 0 -> forall ch t, topics !! ch = Some t -> carried s ch = tevents t).
Proof.
  destruct (run_sim ops new_system _ new_simulates) as (s & Hrun & Hs); [done|]. exists s. split; [exact Hrun|].
  fold (topic_run ops) in Hs. cbv zeta. split; [apply (sim_length _ _ Hs)|]. split; [apply (sim_carried _ _ Hs)|].
  split; [apply (sim_fits _ _ Hs)|]. split; [apply (sim_dropped _ _ Hs)|].
  unfold DroppedEvents. rewrite (sim_dropped _ _ Hs). intros Hz ch t Ht.
  apply sublist_full; [by apply (sim_carried _ _ Hs)|].
  assert (Hnn : Forall (fun z => 0 <= z) (imap (missing s) (tlist (topic_run ops)))).
  { apply Forall_forall. intros z Hz'. apply elem_of_lookup_imap in Hz' as (i & x & -> & Hx).
    unfold missing. assert (Hsub := sim_carried _ _ Hs i x Hx). apply sublist_length in Hsub. lia. }
  apply total_zero in Hnn; [|exact Hz]. rewrite Forall_lookup in Hnn. specialize (Hnn ch (missing s ch t)).
  rewrite list_lookup_imap, Ht in Hnn. specialize (Hnn eq_refl). unfold missing in Hnn. lia.
Qed.
End spec.

(** ** Examples *)

Definition demo_event (ty : string) (n : Z) : Event Z := mkEvent "" ty "" n n ∅.

(** A bus closed between the two sections of [Publish] delivers nothing. *)
Example closed_meanwhile :
  match bus_run [Sub "a"; Begin (demo_event "a" 1); Shut; Deliver 0; Read 0] new_system with
  | Ok s => carried s 0 = [] /\ inflight s = [] /\ closed (the_bus s) = true
  | Err _ => False
  end.
Proof. vm_compute. done. Qed.

(** The sixty-fifth event is lost when nobody reads. *)
Example full_buffer :
  match bus_run (Sub "a" :: concat ((fun n => [Begin (demo_event "a" n); Deliver 0]) <$> seqZ 0 66)) new_system with
  | Ok s => length (carried s 0) = 64%nat /\ dropped (the_bus s) = 2
  | Err _ => False
  end.
Proof. vm_compute. done. Qed.
