(* ===== verification/InboundQueue.v ===== *)
(** * The inbound queue ([internal/channels/inbound_queue.go])

    Channel messages are written to a table before the event bus spreads
    them, and claimed from there.  [encoding/json] is the class
    [MessageCodec]; a message without metadata and one with empty metadata
    are the same message of the model. *)

From S2P Require Import Prelude GoStrings Io Tables GoText GoJson Envelope Bus.
#[local] Open Scope Z_scope.

(** ** Payloads of events

    What the channels read of a payload: an [InboundMessage], the members of
    a [map[string]any] that are texts, or something else. *)
Inductive payload := PInbound (m : InboundMessage) | PMap (texts : gmap string string) | POther.

(** [payload["key"].(string)], the empty text when it is none. *)
Definition text_field (m : gmap string string) (key : string) : string := default "" (m !! key).

Definition EventChannelMessage : string := "channel.message_inbound".
Definition EventChannelAdapterError : string := "channel.adapter_error".
Definition EventChannelAdapterRecovered : string := "channel.adapter_recovered".
Definition EventAgentActionDone : string := "agent.action_done".

(** A message of UTF-8 texts. *)
Definition utf8 (s : string) : Prop := coerce s = s.
Definition wf_message (m : InboundMessage) : Prop :=
  Forall utf8 [IChannelID m; IAccountID m; ISenderID m; ISenderName m; ITargetAgent m; IMentionText m; IContent m; IKind m; IMessageID m;
    IChatID m; IThreadID m; ITimestamp m; IReaction m] /\ map_Forall (fun k v => utf8 k /\ utf8 v) (IMetadata m).

Class MessageCodec := {
  encode_message : InboundMessage -> string;
  decode_message : string -> option InboundMessage;
  decode_encode : forall m, wf_message m -> decode_message (encode_message m) = Some m;
}.

(** ** The table *)

Record QueuedInbound := mkQueued { QID : string; QMessage : InboundMessage }.

Record InboundRow := mkInboundRow { RowID : string; PayloadJSON : string; RowCreated : Z; Acked : bool }.

(** [queue_db]: there is a database. *)
Record InboundQueue := mkQueue { queue_db : bool; queue_rows : list InboundRow }.

Inductive queue_error := QueueDb.
Abbreviation qop := (io InboundQueue queue_error).

Definition set_rows (q : InboundQueue) (l : list InboundRow) : InboundQueue := mkQueue (queue_db q) l.
Definition ack_row (r : InboundRow) : InboundRow := mkInboundRow (RowID r) (PayloadJSON r) (RowCreated r) true.
Definition has_id (id : string) (r : InboundRow) : bool := bool_decide (RowID r = id).

Section queue.
Context `{Uuid} `{MessageCodec}.

(** The id is the primary key of the table. *)
Definition Enqueue (msg : InboundMessage) : qop string :=
  q ← get;
  if negb (queue_db q) then mret ""
  else
    n ← draw;
    let id := "inb_" +:+ uuid n in
    t ← now;
    _ ← db QueueDb;
    if existsb (has_id id) (queue_rows q) then throw QueueDb
    else _ ← modify (fun q => set_rows q (queue_rows q ++ [mkInboundRow id (encode_message msg) t false])); mret id.

(** The hook given to the bus: the event, with the id of its row. *)
Definition PersistEvent (ev : Event payload) : qop (Event payload) :=
  if negb (bool_decide (EType ev = EventChannelMessage)) then mret ev
  else
    match EPayload ev with
    | PInbound msg =>
        id ← Enqueue (NormalizeInbound msg);
        mret (mkEvent (EID ev) (EType ev) (EAgent ev) (ETimestamp ev) (EPayload ev) (<["inbound_id" := id]> (EMetadata ev)))
    | _ => mret ev
    end.

(** The rows read, without those that do not decode. *)
Definition decode_row (r : InboundRow) : option QueuedInbound :=
  m ← decode_message (PayloadJSON r); Some (mkQueued (RowID r) (NormalizeInbound m)).

Definition unacked (q : InboundQueue) : list InboundRow :=
  order_asc RowCreated (filter (fun r => Acked r = false) (queue_rows q)).

Definition Pending (limit : Z) : qop (list QueuedInbound) :=
  q ← get;
  if negb (queue_db q) then mret []
  else
    let limit := if limit <=? 0 then 32 else limit in
    _ ← db QueueDb;
    _ ← db QueueDb;   (* rows.Scan, rows.Err *)
    mret (omap decode_row (take (Z.to_nat limit) (unacked q))).

Definition Ack (id : string) : qop unit :=
  q ← get;
  if negb (queue_db q) || bool_decide (id = "") then mret tt
  else _ ← db QueueDb; modify (fun q => set_rows q (update_where (has_id id) ack_row (queue_rows q))).

(** Beside an error the code returns the items as well; no caller uses them. *)
Definition Claim (limit : Z) : qop (list QueuedInbound) :=
  pending ← Pending limit;
  _ ← for_each (fun item => Ack (QID item)) pending;
  mret pending.

Definition CountPending : qop Z :=
  q ← get;
  if negb (queue_db q) then mret 0
  else _ ← db QueueDb; mret (Z.of_nat (length (filter (fun r => Acked r = false) (queue_rows q)))).
End queue.
