(* ===== verification/QueueSpec.v ===== *)
(** * What the inbound queue promises

    Without failures the table is a first-in first-out queue of messages;
    with any failures, no row is claimed twice. *)

From S2P Require Import Prelude GoStrings Io Tables GoText GoJson Envelope EnvelopeSpec Bus InboundQueue.
From Stdlib Require Import Ascii.
#[local] Open Scope Z_scope.

Section spec.
Context `{U : Uuid} `{C : MessageCodec}.

(** ** Operations in sequence *)

Inductive queue_op := QPersist (ev : Event payload) | QClaim (limit : Z) | QAck (id : string) | QCount.

(** What an operation handed to the router: the items of a claim that went
    through. *)
Definition do_op (o : queue_op) : qop (list QueuedInbound) :=
  match o with
  | QPersist ev => _ ← ignore (PersistEvent ev); mret []
  | QClaim limit => r ← attempt (Claim limit); mret (match r with Ok items => items | Err _ => [] end)
  | QAck id => _ ← ignore (Ack id); mret []
  | QCount => _ ← ignore CountPending; mret []
  end.

Fixpoint do_ops (ops : list queue_op) : qop (list (list QueuedInbound)) :=
  match ops with
  | [] => mret []
  | o :: rest => out ← do_op o; outs ← do_ops rest; mret (out :: outs)
  end.

(** ** The table *)

(** Ids are different and were drawn, and rows stand in the order they were
    created. *)
Record table_ok (q : InboundQueue) (e : env) : Prop := {
  ok_ids : NoDup (RowID <$> queue_rows q);
  ok_drawn : Forall (fun r => exists n, (n < fresh e)%nat /\ RowID r = "inb_" +:+ uuid n) (queue_rows q);
  ok_sorted : StronglySorted (fun r s => RowCreated r <= RowCreated s) (queue_rows q);
  ok_past : Forall (fun r => RowCreated r <= clock e) (queue_rows q) }.

Lemma table_ok_onward q e e' : table_ok q e -> onward e e' -> table_ok q e'.
Proof.
  intros [H1 H2 H3 H4] [[Hc Hf] _]. split; [done| |done|].
  - eapply Forall_impl; [exact H2|]. intros r (n & Hn & Hr). exists n. split; [lia|done].
  - eapply Forall_impl; [exact H4|]. cbn. lia.
Qed.

Definition ack_ids (ids : list string) (l : list InboundRow) : list InboundRow :=
  (fun r => if bool_decide (RowID r ∈ ids) then ack_row r else r) <$> l.

Lemma ack_ids_nil l : ack_ids [] l = l.
Proof.
  unfold ack_ids. rewrite <- (list_fmap_id l) at 2. apply list_fmap_ext. intros i r _. by rewrite bool_decide_eq_false_2 by apply not_elem_of_nil.
Qed.
Lemma ack_ids_cons id ids l : ack_ids ids (update_where (has_id id) ack_row l) = ack_ids (id :: ids) l.
Proof.
  unfold ack_ids, update_where. rewrite <- list_fmap_compose. apply list_fmap_ext. intros i r _. cbn. unfold has_id.
  assert (Hr : forall b : bool, RowID (if b then ack_row r else r) = RowID r) by by intros []. rewrite Hr.
  destruct (decide (RowID r = id)) as [Hid|Hid].
  - rewrite (bool_decide_eq_true_2 (RowID r = id)) by done. rewrite (bool_decide_eq_true_2 (RowID r ∈ id :: ids)) by (rewrite Hid; by apply elem_of_cons; left).
    by case_bool_decide.
  - rewrite (bool_decide_eq_false_2 (RowID r = id)) by done. rewrite (bool_decide_ext (RowID r ∈ id :: ids) (RowID r ∈ ids)); [done|].
    rewrite elem_of_cons. naive_solver.
Qed.

Lemma ack_ids_ids ids l : RowID <$> ack_ids ids l = RowID <$> l.
Proof. unfold ack_ids. rewrite <- list_fmap_compose. apply list_fmap_ext. intros i r _. cbn. by case_bool_decide. Qed.

Lemma ack_ids_ok q e ids : table_ok q e -> table_ok (set_rows q (ack_ids ids (queue_rows q))) e.
Proof.
  intros [H1 H2 H3 H4]. split; cbn [queue_rows set_rows].
  - by rewrite ack_ids_ids.
  - unfold ack_ids. apply Forall_fmap. eapply Forall_impl; [exact H2|]. intros r Hr. cbn. by case_bool_decide.
  - unfold ack_ids. clear -H3. induction H3 as [|r l _ IH Hr]; cbn; constructor; [done|]. apply Forall_fmap. eapply Forall_impl; [exact Hr|].
    intros s Hs. cbn. by repeat case_bool_decide.
  - unfold ack_ids. apply Forall_fmap. eapply Forall_impl; [exact H4|]. intros r Hr. cbn. by case_bool_decide.
Qed.

Lemma unacked_filter q e : table_ok q e -> unacked q = filter (fun r => Acked r = false) (queue_rows q).
Proof. intros Hq. apply order_asc_sorted. apply (StronglySorted_filter _), Hq. Qed.

(** ** The operations *)

Lemma set_rows_same q : set_rows q (queue_rows q) = q.
Proof. by destruct q. Qed.

(** Acknowledging some rows: with all of them done when it goes through. *)
Lemma acks_wp ids q e :
  queue_db q = true -> Forall (fun id => id <> "") ids ->
  wp (for_each Ack ids) (fun r q' e' => onward e e' /\ exists done, done `sublist_of` ids /\ q' = set_rows q (ack_ids done (queue_rows q)) /\
    (faults e = [] -> is_ok r = true) /\ (is_ok r = true -> done = ids)) q e.
Proof.
  revert q e. induction ids as [|id ids IH]; intros q e Hdb Hne; cbn [for_each].
  - apply wp_ret. split; [reflexivity|]. exists []. by rewrite ack_ids_nil, set_rows_same.
  - apply Forall_cons in Hne as [Hid Hne]. apply wp_bind. unfold Ack at 1. apply wp_bind, wp_get. cbv beta iota.
    rewrite Hdb, bool_decide_eq_false_2 by done. cbn [negb orb]. apply wp_bind, wp_db_onward; cbv beta iota.
    + intros e1 He1 _. apply wp_modify. cbv beta iota. eapply wp_mono; [by apply IH|]. cbv beta.
      intros r q' e' (He' & done & Hd & -> & Hf & Hr). split; [by transitivity e1|]. exists (id :: done). cbn [queue_rows set_rows].
      rewrite ack_ids_cons. split; [by constructor|]. split; [done|]. split; [|intros Hok; by rewrite Hr]. intros Hnf. apply Hf, He1, Hnf.
    + intros e1 Hf He1. split; [done|]. exists []. rewrite ack_ids_nil, set_rows_same. split; [apply sublist_nil_l|]. split; [done|]. split; done.
Qed.

Lemma wp_for_each_fmap {A B S E} (f : B -> io S E unit) (g : A -> B) l Q s e :
  wp (for_each f (g <$> l)) Q s e -> wp (for_each (fun x => f (g x)) l) Q s e.
Proof.
  assert (Heq : for_each f (g <$> l) s e = for_each (fun x => f (g x)) l s e); [|unfold wp; by rewrite Heq].
  revert s e. induction l as [|x l IH]; intros s e; [done|]. cbn [for_each fmap list_fmap]. unfold mbind, io_bind.
  destruct (f (g x) s e) as [[u|y] [s' e']]; [apply IH|done].
Qed.

Definition items_of (q : InboundQueue) (limit : Z) : list QueuedInbound :=
  omap decode_row (take (Z.to_nat (if limit <=? 0 then 32 else limit)) (unacked q)).

Lemma items_ids q limit : exists rs, rs `sublist_of` unacked q /\ QID <$> items_of q limit = RowID <$> rs.
Proof.
  unfold items_of. set (n := Z.to_nat _). exists (filter (fun r => is_Some (decode_row r)) (take n (unacked q))).
  split; [transitivity (take n (unacked q)); [apply sublist_filter|apply sublist_take]|].
  induction (take n (unacked q)) as [|r l IH]; [done|]. cbn [omap list_omap]. destruct (decode_row r) as [x|] eqn:Hx.
  - rewrite filter_cons_True by (by rewrite Hx). cbn [fmap list_fmap]. f_equal; [|exact IH].
    unfold decode_row in Hx. destruct (decode_message _); [|done]. by injection Hx as <-.
  - rewrite filter_cons_False by (rewrite Hx; by intros []). exact IH.
Qed.

Lemma Claim_wp limit q e :
  table_ok q e ->
  wp (Claim limit) (fun r q' e' => onward e e' /\ exists done, q' = set_rows q (ack_ids done (queue_rows q)) /\
    (queue_db q = true -> faults e = [] -> is_ok r = true) /\
    (forall items, r = Ok items -> items = (if queue_db q then items_of q limit else []) /\ done = QID <$> items)) q e.
Proof.
  intros Hq. unfold Claim, Pending. apply wp_bind, wp_bind, wp_get. cbv beta iota. destruct (queue_db q) eqn:Hdb; cbn [negb].
  - cbv zeta. apply wp_bind, wp_db_onward; cbv beta iota.
    2:{ intros e' Hf He'. split; [done|]. exists []. rewrite ack_ids_nil, set_rows_same. done. }
    intros e1 He1 _. apply wp_bind, wp_db_onward; cbv beta iota.
    2:{ intros e' Hf He'. split; [by transitivity e1|]. exists []. rewrite ack_ids_nil, set_rows_same. split; [done|]. split; [|done]. intros _ H0. by apply He1 in H0. }
    intros e2 He2 _. apply wp_ret. fold (items_of q limit). apply wp_bind.
    assert (Hne : Forall (fun id => id <> "") (QID <$> items_of q limit)).
    { destruct (items_ids q limit) as (rs & Hrs & ->). apply Forall_fmap, Forall_forall. intros r Hr. cbn.
      assert (Hin : r ∈ queue_rows q).
      { apply (sublist_subseteq _ _ Hrs) in Hr. rewrite (unacked_filter q e Hq) in Hr. by apply list_elem_of_filter in Hr as [_ ?]. }
      pose proof (ok_drawn q e Hq) as Hd. rewrite Forall_forall in Hd. by destruct (Hd r Hin) as (n & _ & ->). }
    apply wp_for_each_fmap. eapply wp_mono; [by apply acks_wp|]. cbv beta. intros r q' e' (He' & done & _ & Hq' & Hf & Hr).
    assert (He : onward e e') by (transitivity e1; [done|]; by transitivity e2).
    destruct r as [u|x]; [apply wp_ret|]; (split; [exact He|]); exists done; (split; [exact Hq'|]); split; try done.
    + intros items [= <-]. split; [done|]. by apply Hr.
    + intros _ H0. by apply Hf, He2, He1, H0.
  - apply wp_ret. apply wp_bind. cbn [for_each]. apply wp_ret. apply wp_ret. split; [reflexivity|]. exists []. rewrite ack_ids_nil, set_rows_same.
    split; [done|]. split; [done|]. intros items [= <-]. done.
Qed.

Lemma fresh_id q e : table_ok q e -> existsb (has_id ("inb_" +:+ uuid (fresh e))) (queue_rows q) = false.
Proof.
  intros Hq. apply existsb_false_elem. intros r Hr. unfold has_id. apply bool_decide_eq_false. intros Heq.
  pose proof (ok_drawn q e Hq) as Hd. rewrite Forall_forall in Hd. destruct (Hd r Hr) as (n & Hn & Hid).
  rewrite Hid in Heq. apply (inj (String.append "inb_")) in Heq. apply uuid_inj in Heq. lia.
Qed.

(** The row of a new message stands at the end. *)
Lemma Enqueue_wp msg q e :
  table_ok q e ->
  wp (Enqueue msg) (fun r q' e' => onward e e' /\ table_ok q' e' /\
    match r with
    | Ok _ => if queue_db q then exists row, q' = set_rows q (queue_rows q ++ [row]) /\ Acked row = false /\ PayloadJSON row = encode_message msg
              else q' = q
    | Err _ => q' = q /\ faults e <> []
    end) q e.
Proof.
  intros Hq. unfold Enqueue. apply wp_bind, wp_get. cbv beta iota. destruct (queue_db q) eqn:Hdb; cbn [negb].
  2:{ apply wp_ret. by split. }
  apply wp_bind, wp_draw_next. intros e1 He1 Hc1 Hf1. cbv beta iota zeta. apply wp_bind, wp_now_onward. intros e2 He2. cbv beta iota.
  assert (H12 : onward e e2) by (by transitivity e1).
  apply wp_bind, wp_db_onward; cbv beta iota.
  2:{ intros e' Hf He'. assert (He : onward e e') by (by transitivity e2). split; [done|]. split; [by eapply table_ok_onward|]. split; [done|].
      intros H0. by apply Hf, H12. }
  intros e3 He3 Hc3. assert (He : onward e e3) by (by transitivity e2). rewrite (fresh_id q e Hq).
  apply wp_bind, wp_modify, wp_ret. split; [done|]. cbv beta iota. split.
  - pose proof (table_ok_onward q e e3 Hq He) as [H1 H2 H3 H4]. split; cbn [queue_rows set_rows].
    + rewrite fmap_app. apply NoDup_app. split; [done|]. split; [|apply NoDup_singleton]. intros id Hid Hin. apply list_elem_of_singleton in Hin as ->.
      apply list_elem_of_fmap in Hid as (r & Hr & Hin). pose proof (fresh_id q e Hq) as Hfresh. rewrite existsb_false_elem in Hfresh.
      specialize (Hfresh r Hin). unfold has_id in Hfresh. apply bool_decide_eq_false in Hfresh. by rewrite <- Hr in Hfresh.
    + apply Forall_app. split; [done|]. constructor; [|constructor]. exists (fresh e). split; [|done]. destruct He2 as [[_ ?] _], He3 as [[_ ?] _]. lia.
    + apply StronglySorted_app_2; [|done|repeat constructor]. intros x y Hx Hy. apply list_elem_of_singleton in Hy as ->. cbn [RowCreated].
      pose proof (ok_past q e Hq) as Hp. rewrite Forall_forall in Hp. specialize (Hp x Hx). destruct He2 as [[? _] _]. lia.
    + apply Forall_app. split; [done|]. constructor; [|constructor]. cbn [RowCreated]. lia.
  - eexists. split; [done|]. by split.
Qed.

(** The message a hooked event carries, as it is stored. *)
Definition published (ev : Event payload) : list InboundMessage :=
  if bool_decide (EType ev = EventChannelMessage) then match EPayload ev with PInbound msg => [NormalizeInbound msg] | _ => [] end else [].

Lemma PersistEvent_wp ev q e :
  table_ok q e ->
  wp (PersistEvent ev) (fun r q' e' => onward e e' /\ table_ok q' e' /\
    (q' = q \/ exists row, q' = set_rows q (queue_rows q ++ [row]) /\ Acked row = false) /\
    (queue_db q = true -> faults e = [] -> match published ev with
       | [] => q' = q
       | msg :: _ => exists row, q' = set_rows q (queue_rows q ++ [row]) /\ Acked row = false /\ PayloadJSON row = encode_message msg
       end)) q e.
Proof.
  intros Hq. unfold PersistEvent, published. case_bool_decide as Hty; cbn [negb].
  2:{ apply wp_ret. split; [reflexivity|]. split; [done|]. split; [by left|done]. }
  destruct (EPayload ev) as [msg|m|] eqn:Hp; [|apply wp_ret; split; [reflexivity|]; split; [done|]; split; [by left|done]..].
  apply wp_bind. eapply wp_mono; [by apply Enqueue_wp|]. cbv beta. intros r q' e' (He & Hok & Hr).
  assert (Hend : onward e e' /\ table_ok q' e' /\
    (q' = q \/ exists row, q' = set_rows q (queue_rows q ++ [row]) /\ Acked row = false) /\
    (queue_db q = true -> faults e = [] ->
       exists row, q' = set_rows q (queue_rows q ++ [row]) /\ Acked row = false /\ PayloadJSON row = encode_message (NormalizeInbound msg)));
    [|by destruct r; [apply wp_ret|]].
  split; [done|]. split; [done|]. destruct r as [id|x].
  - destruct (queue_db q); [|split; [by left|done]]. destruct Hr as (row & -> & Ha & Hj). split; [right; by exists row|].
    intros _ _. by exists row.
  - destruct Hr as [-> Hf]. split; [by left|done].
Qed.

(** ** No row twice *)

(** What was handed out is acknowledged. *)
Definition handed (ids : list string) (q : InboundQueue) : Prop :=
  forall id, id ∈ ids -> exists r, r ∈ queue_rows q /\ RowID r = id /\ Acked r = true.

Lemma handed_ack ids ids' q : handed ids q -> handed ids (set_rows q (ack_ids ids' (queue_rows q))).
Proof.
  intros Hh id Hid. destruct (Hh id Hid) as (r & Hr & Hrid & Ha). exists r. split; [|done]. cbn [queue_rows set_rows].
  apply list_elem_of_fmap. exists r. split; [|done]. case_bool_decide; [|done]. unfold ack_row. destruct r; cbn in *; by subst.
Qed.
Lemma handed_snoc ids q row : handed ids q -> handed ids (set_rows q (queue_rows q ++ [row])).
Proof. intros Hh id Hid. destruct (Hh id Hid) as (r & Hr & Hrest). exists r. split; [apply elem_of_app; by left|done]. Qed.

Lemma row_by_id l r s : NoDup (RowID <$> l) -> r ∈ l -> s ∈ l -> RowID r = RowID s -> r = s.
Proof.
  intros Hnd Hr Hs Heq. apply list_elem_of_lookup in Hr as [i Hi], Hs as [j Hj].
  assert (i = j) as ->; [|congruence].
  apply (NoDup_lookup (RowID <$> l) i j (RowID r)); [done|by rewrite list_lookup_fmap, Hi|by rewrite list_lookup_fmap, Hj, Heq].
Qed.

Lemma items_fresh q e limit ids : table_ok q e -> handed ids q ->
  NoDup (QID <$> items_of q limit) /\ (forall id, id ∈ QID <$> items_of q limit -> id ∉ ids) /\
  handed (QID <$> items_of q limit) (set_rows q (ack_ids (QID <$> items_of q limit) (queue_rows q))).
Proof.
  intros Hq Hh. destruct (items_ids q limit) as (rs & Hrs & ->).
  rewrite (unacked_filter q e Hq) in Hrs. assert (Hin : forall r, r ∈ rs -> r ∈ queue_rows q /\ Acked r = false).
  { intros r Hr. apply (sublist_subseteq _ _ Hrs) in Hr. apply list_elem_of_filter in Hr. tauto. }
  split_and!.
  - eapply sublist_NoDup; [apply (ok_ids q e Hq)|]. apply fmap_sublist. etransitivity; [exact Hrs|apply sublist_filter].
  - intros id (r & -> & Hr)%list_elem_of_fmap Hid. destruct (Hh _ Hid) as (s & Hs & Heq & Ha). destruct (Hin r Hr) as [Hr' Hna].
    assert (s = r) as -> by (by eapply row_by_id; [apply (ok_ids q e Hq)|..]). congruence.
  - intros id Hid. assert (Hid' := Hid). apply list_elem_of_fmap in Hid' as (r & -> & Hr). destruct (Hin r Hr) as [Hr' _].
    exists (ack_row r). split; [|done]. cbn [queue_rows set_rows]. apply list_elem_of_fmap. exists r. by rewrite bool_decide_eq_true_2.
Qed.

Lemma do_op_wp o ids q e :
  table_ok q e -> handed ids q ->
  wp (do_op o) (fun r q' e' => exists out, r = Ok out /\ table_ok q' e' /\ handed (ids ++ (QID <$> out)) q' /\
    NoDup (QID <$> out) /\ (forall id, id ∈ QID <$> out -> id ∉ ids)) q e.
Proof.
  intros Hq Hh. assert (Hnil : forall q' e', table_ok q' e' -> handed ids q' -> exists out, Ok (E := queue_error) ([] : list QueuedInbound) = Ok out /\ table_ok q' e' /\
    handed (ids ++ (QID <$> out)) q' /\ NoDup (QID <$> out) /\ (forall id, id ∈ QID <$> out -> id ∉ ids)).
  { intros q' e' H1 H2. exists []. rewrite app_nil_r. split_and!; [done..|constructor|]. intros id Hid. by apply not_elem_of_nil in Hid. }
  destruct o as [ev|limit|id|]; cbn [do_op].
  - apply wp_bind, wp_ignore. eapply wp_mono; [by apply PersistEvent_wp|]. cbv beta. intros _ q' e' (_ & Hok & Hor & _). apply wp_ret.
    apply Hnil; [done|]. destruct Hor as [->|(row & -> & _)]; [done|by apply handed_snoc].
  - apply wp_bind, wp_attempt. eapply wp_mono; [by apply Claim_wp|]. cbv beta. intros r q' e' (He & done & -> & _ & Hr). apply wp_ret.
    destruct r as [items|x].
    + destruct (Hr items eq_refl) as [Hitems ->]. exists items. split; [done|]. split; [eapply table_ok_onward; [by apply ack_ids_ok|done]|].
      destruct (queue_db q).
      * subst items. destruct (items_fresh q e limit ids Hq Hh) as (Hnd & Hdis & Hh'). split; [|done].
        intros id [Hid|Hid]%elem_of_app; [exact (handed_ack _ _ _ Hh id Hid)|exact (Hh' id Hid)].
      * subst items. rewrite app_nil_r. split; [by apply handed_ack|]. split; [constructor|]. intros id Hid. by apply not_elem_of_nil in Hid.
    + apply Hnil; [eapply table_ok_onward; [by apply ack_ids_ok|done]|by apply handed_ack].
  - apply wp_bind, wp_ignore. unfold Ack. apply wp_bind, wp_get. cbv beta iota. destruct (_ || _); [by apply wp_ret, wp_ret, Hnil|].
    assert (Hupd : set_rows q (update_where (has_id id) ack_row (queue_rows q)) = set_rows q (ack_ids [id] (queue_rows q))) by (by rewrite <- ack_ids_cons, ack_ids_nil).
    apply wp_bind, wp_db_onward; cbv beta iota.
    + intros e' He' _. apply wp_modify, wp_ret. rewrite Hupd. apply Hnil; [eapply table_ok_onward; [by apply ack_ids_ok|done]|by apply handed_ack].
    + intros e' _ He'. apply wp_ret, Hnil; [by eapply table_ok_onward|done].
  - apply wp_bind, wp_ignore. unfold CountPending. apply wp_bind, wp_get. cbv beta iota. destruct (negb _); [by apply wp_ret, wp_ret, Hnil|].
    apply wp_bind, wp_db_onward; cbv beta iota; intros e' **; [apply wp_ret|]; apply wp_ret, Hnil; try done; by eapply table_ok_onward.
Qed.

Lemma do_ops_wp ops ids q e :
  table_ok q e -> handed ids q ->
  wp (do_ops ops) (fun r q' e' => exists outs, r = Ok outs /\ table_ok q' e' /\
    NoDup (QID <$> concat outs) /\ (forall id, id ∈ QID <$> concat outs -> id ∉ ids)) q e.
Proof.
  revert ids q e. induction ops as [|o ops IH]; intros ids q e Hq Hh; cbn [do_ops].
  - apply wp_ret. exists []. split_and!; [done..|constructor|]. intros id Hid. by apply not_elem_of_nil in Hid.
  - apply wp_bind. eapply wp_mono; [by apply do_op_wp|]. cbv beta. intros r q1 e1 (out & -> & Hq1 & Hh1 & Hnd & Hdis).
    apply wp_bind. eapply wp_mono; [by apply IH|]. cbv beta. intros r q2 e2 (outs & -> & Hq2 & Hnd2 & Hdis2). apply wp_ret.
    exists (out :: outs). cbn [concat]. rewrite fmap_app. split_and!; [done..| |].
    + apply NoDup_app. split; [done|]. split; [|done]. intros id Hid Hid2. apply (Hdis2 id Hid2), elem_of_app. by right.
    + intros id [Hid|Hid]%elem_of_app; [by apply Hdis|]. intros Hin. apply (Hdis2 id Hid), elem_of_app. by left.
Qed.

(** Whatever is published, claimed and acknowledged and whatever
    statements fail, the router is handed no row of the queue twice. *)
Theorem claimed_once ops database e :
  wp (do_ops ops) (fun r _ _ => exists outs, r = Ok outs /\ NoDup (QID <$> concat outs)) (mkQueue database []) e.
Proof.
  eapply wp_mono; [apply (do_ops_wp ops [])|].
  - split; cbn; constructor.
  - intros id Hid. by apply not_elem_of_nil in Hid.
  - cbv beta. intros r q' e' (outs & -> & _ & Hnd & _). by exists outs.
Qed.

(** ** First in, first out *)

Definition batch (limit : Z) : nat := Z.to_nat (if limit <=? 0 then 32 else limit).

(** The abstract queue: a claim takes from the front what is published at the
    end. *)
Definition fifo_step (o : queue_op) (l : list InboundMessage) : list InboundMessage * list InboundMessage :=
  match o with
  | QPersist ev => ([], l ++ published ev)
  | QClaim limit => (take (batch limit) l, drop (batch limit) l)
  | QAck _ | QCount => ([], l)
  end.
Fixpoint fifo_run (ops : list queue_op) (l : list InboundMessage) : list (list InboundMessage) :=
  match ops with
  | [] => []
  | o :: rest => let '(out, l') := fifo_step o l in out :: fifo_run rest l'
  end.

(** Only the queue itself acknowledges, and messages are of UTF-8 texts. *)
Definition fifo_op (o : queue_op) : Prop :=
  match o with
  | QPersist ev => match EPayload ev with PInbound msg => wf_message (NormalizeInbound msg) | _ => True end
  | QAck _ => False
  | _ => True
  end.

Definition waiting (q : InboundQueue) (l : list InboundMessage) : Prop :=
  queue_db q = true /\ Forall2 (fun r m => decode_row r = Some (mkQueued (RowID r) m)) (unacked q) l.

Lemma waiting_items q l limit : waiting q l ->
  QMessage <$> items_of q limit = take (batch limit) l /\ QID <$> items_of q limit = RowID <$> take (batch limit) (unacked q).
Proof.
  intros [_ Hw]. unfold items_of. fold (batch limit). apply (Forall2_take _ _ _ (batch limit)) in Hw.
  induction Hw as [|r m rs ms Hr _ IH]; [done|]. cbn [omap list_omap]. rewrite Hr. cbn. destruct IH as [-> ->]. done.
Qed.

Lemma filter_front (l m : list InboundRow) : NoDup (RowID <$> l ++ m) -> filter (fun r => RowID r ∉ RowID <$> l) (l ++ m) = m.
Proof.
  rewrite fmap_app. intros (_ & Hdis & _)%NoDup_app. rewrite filter_app, filter_none, app_nil_l.
  - apply filter_all. intros r Hr Hin. apply (Hdis _ Hin). by apply list_elem_of_fmap_2.
  - intros r Hr Hni. apply Hni. by apply list_elem_of_fmap_2.
Qed.

Lemma unacked_after q e n : table_ok q e ->
  unacked (set_rows q (ack_ids (RowID <$> take n (unacked q)) (queue_rows q))) = drop n (unacked q).
Proof.
  intros Hq. rewrite (unacked_filter _ e) by by apply ack_ids_ok. cbn [queue_rows set_rows].
  assert (Hgen : forall ids, filter (fun r => Acked r = false) (ack_ids ids (queue_rows q)) = filter (fun r => RowID r ∉ ids) (unacked q)).
  { intros ids. rewrite (unacked_filter q e Hq). induction (queue_rows q) as [|r l IH]; [done|]. unfold ack_ids. cbn [fmap list_fmap].
    fold (ack_ids ids l). destruct (Acked r) eqn:Ha.
    - rewrite (filter_cons_False (fun r => Acked r = false) r l) by congruence. rewrite filter_cons_False; [exact IH|]. by case_bool_decide; cbn; rewrite ?Ha.
    - rewrite (filter_cons_True (fun r => Acked r = false) r l) by done. case_bool_decide as Hin.
      + rewrite filter_cons_False by done. by rewrite filter_cons_False by auto.
      + rewrite filter_cons_True by done. rewrite filter_cons_True by done. by rewrite IH. }
  rewrite Hgen. assert (Hnd : NoDup (RowID <$> unacked q)).
  { eapply sublist_NoDup; [apply (ok_ids q e Hq)|]. rewrite (unacked_filter q e Hq). apply fmap_sublist, sublist_filter. }
  rewrite <- (take_drop n (unacked q)) in Hnd. rewrite <- (filter_front _ _ Hnd). by rewrite take_drop.
Qed.

Lemma waiting_app q e l row m : table_ok q e -> table_ok (set_rows q (queue_rows q ++ [row])) e -> waiting q l ->
  Acked row = false -> PayloadJSON row = encode_message m -> wf_message m -> NormalizeInbound m = m ->
  waiting (set_rows q (queue_rows q ++ [row])) (l ++ [m]).
Proof.
  intros Hq Hq' [Hdb Hw] Ha Hj Hwf Hn. split; [done|]. rewrite (unacked_filter _ e Hq'). cbn [queue_rows set_rows].
  rewrite filter_app, <- (unacked_filter q e Hq), filter_cons_True, filter_nil by done. apply Forall2_app; [done|]. constructor; [|constructor].
  unfold decode_row. rewrite Hj, decode_encode by done. cbn. by rewrite Hn.
Qed.

Lemma do_op_fifo o l q e :
  table_ok q e -> waiting q l -> faults e = [] -> fifo_op o ->
  wp (do_op o) (fun r q' e' => exists out, r = Ok out /\ table_ok q' e' /\ faults e' = [] /\
    QMessage <$> out = (fifo_step o l).1 /\ waiting q' (fifo_step o l).2) q e.
Proof.
  intros Hq Hw Hf Ho. destruct o as [ev|limit|id|]; cbn [do_op fifo_step fst snd]; [| |done|].
  - apply wp_bind, wp_ignore. eapply wp_mono; [by apply PersistEvent_wp|]. cbv beta. intros _ q' e' (He & Hok & _ & Hrow). apply wp_ret.
    exists []. split; [done|]. split; [done|]. split; [by apply He|]. split; [done|]. specialize (Hrow (proj1 Hw) Hf).
    unfold published in *. cbn [fifo_op] in Ho. destruct (bool_decide _); [|subst q'; by rewrite app_nil_r].
    destruct (EPayload ev) as [msg|m|]; [|subst q'; by rewrite app_nil_r..]. destruct Hrow as (row & -> & Ha & Hj).
    eapply waiting_app; [by eapply table_ok_onward|done|done|done|done|done|apply inbound_again].
  - apply wp_bind, wp_attempt. eapply wp_mono; [by apply Claim_wp|]. cbv beta. intros r q' e' (He & done & -> & Hok & Hr). apply wp_ret.
    specialize (Hok (proj1 Hw) Hf). destruct r as [items|x]; [|discriminate Hok]. destruct (Hr items eq_refl) as [Hitems ->].
    rewrite (proj1 Hw) in Hitems. subst items. destruct (waiting_items q l limit Hw) as [Hm Hids].
    exists (items_of q limit). split; [done|]. split; [eapply table_ok_onward; [by apply ack_ids_ok|done]|]. split; [by apply He|]. split; [exact Hm|].
    split; [apply Hw|]. rewrite Hids, (unacked_after q e (batch limit) Hq). apply Forall2_drop, Hw.
  - apply wp_bind, wp_ignore. unfold CountPending. apply wp_bind, wp_get. cbv beta iota. rewrite (proj1 Hw). cbn [negb].
    apply wp_bind, wp_db_onward; cbv beta iota; [|by intros e' Hne; destruct Hne]. intros e' He _. apply wp_ret, wp_ret.
    exists []. split; [done|]. split; [by eapply table_ok_onward|]. split; [by apply He|done].
Qed.

Lemma do_ops_fifo ops l q e :
  table_ok q e -> waiting q l -> faults e = [] -> Forall fifo_op ops ->
  wp (do_ops ops) (fun r _ _ => exists outs, r = Ok outs /\ (fmap (M:=list) QMessage <$> outs) = fifo_run ops l) q e.
Proof.
  revert l q e. induction ops as [|o ops IH]; intros l q e Hq Hw Hf Hops; cbn [do_ops fifo_run].
  - apply wp_ret. by exists [].
  - apply Forall_cons in Hops as [Ho Hops]. apply wp_bind. eapply wp_mono; [by apply (do_op_fifo o l)|]. cbv beta.
    intros r q1 e1 (out & -> & Hq1 & Hf1 & Hout & Hw1). apply wp_bind. eapply wp_mono; [by apply (IH (fifo_step o l).2)|]. cbv beta.
    intros r q2 e2 (outs & -> & Houts). apply wp_ret. exists (out :: outs). split; [done|]. destruct (fifo_step o l) as [o1 l1]. cbn in *. by rewrite Hout, Houts.
Qed.

(** While no statement fails, the queue is a first-in first-out queue:
    claims hand out the messages published, of UTF-8 texts, as they were
    normalized, in the order they were published, as many at a time as asked
    for (32 when not said), and each in the first claim it can be in. *)
Theorem queue_is_fifo ops e :
  faults e = [] -> Forall fifo_op ops ->
  wp (do_ops ops) (fun r _ _ => exists outs, r = Ok outs /\ (fmap (M:=list) QMessage <$> outs) = fifo_run ops []) (mkQueue true []) e.
Proof. intros Hf Hops. apply do_ops_fifo; [split; cbn; constructor|split; [done|constructor]|done|done]. Qed.
End spec.

(** ** A codec

    Any injective text will do for closed examples: the number of the message
    in binary. *)

Fixpoint binary (p : positive) : string :=
  match p with xH => "" | xO q => String "0"%char (binary q) | xI q => String "1"%char (binary q) end.
Fixpoint of_binary (s : string) : positive :=
  match s with "" => xH | String "0"%char q => xO (of_binary q) | String _ q => xI (of_binary q) end.

Lemma of_binary_binary p : of_binary (binary p) = p.
Proof. induction p as [p IH|p IH|]; cbn; by rewrite ?IH. Qed.

#[local] Instance message_eq_dec : EqDecision InboundMessage.
Proof. solve_decision. Defined.
#[local] Instance message_countable : Countable InboundMessage.
Proof.
  apply (inj_countable'
    (fun m => (IChannelID m, IAccountID m, ISenderID m, ISenderName m, ITargetAgent m, IMentionText m, IContent m, IKind m, IMessageID m,
       (IChatID m, IThreadID m, ITimestamp m, IReaction m, IMetadata m)))
    (fun '(a, b, c, d, e, f, g, h, i, (j, k, l, m, n)) => mkInbound a b c d e f g h i j k l m n)).
  by intros [].
Defined.

Definition demo_codec : MessageCodec :=
  {| encode_message m := binary (encode m); decode_message s := decode (of_binary s);
     decode_encode m _ := eq_trans (f_equal decode (of_binary_binary (encode m))) (countable.decode_encode m) |}.
Definition demo_uuid : Uuid := {| uuid n := pretty (N.of_nat n); uuid_inj := _ |}.

Definition plain_message (channel sender content : string) : InboundMessage :=
  mkInbound channel "" sender "Ann" "" "" content "" "" "" "" "" "" ∅.
Definition inbound_event (m : InboundMessage) : Event payload := mkEvent "" EventChannelMessage "" 0 (PInbound m) ∅.

#[local] Existing Instances demo_codec demo_uuid.

Definition demo_ops : list queue_op :=
  [QPersist (inbound_event (plain_message "telegram" "7" "one")); QPersist (inbound_event (plain_message "telegram" "8" "two"));
   QClaim 1; QCount; QClaim 0].

Definition normal_text (sender content : string) : InboundMessage :=
  mkInbound "telegram" "" sender "Ann" "" "" content MessageKindText "" "" "" "" "" ∅.
Lemma wf_normal_text sender content : utf8 sender -> utf8 content -> wf_message (normal_text sender content).
Proof. intros Hs Hc. split; [|apply map_Forall_empty]. cbn. repeat (apply Forall_cons; split; [done|]). constructor. Qed.

Lemma queue_is_fifo_witness :
  Forall fifo_op demo_ops /\
  wp (do_ops demo_ops) (fun r _ _ => exists outs, r = Ok outs /\ (fmap (M:=list) QMessage <$> outs) = fifo_run demo_ops []) (mkQueue true []) (calm 0) /\
  fifo_run demo_ops [] = [[]; []; [normal_text "7" "one"]; []; [normal_text "8" "two"]].
Proof.
  assert (Hops : Forall fifo_op demo_ops).
  { assert (H1 : NormalizeInbound (plain_message "telegram" "7" "one") = normal_text "7" "one") by (vm_compute; reflexivity).
    assert (H2 : NormalizeInbound (plain_message "telegram" "8" "two") = normal_text "8" "two") by (vm_compute; reflexivity).
    unfold demo_ops. apply Forall_cons. split; [cbn [fifo_op EPayload inbound_event]; rewrite H1; by apply wf_normal_text|].
    apply Forall_cons. split; [cbn [fifo_op EPayload inbound_event]; rewrite H2; by apply wf_normal_text|]. by repeat constructor. }
  split; [exact Hops|]. split; [exact (queue_is_fifo demo_ops (calm 0) eq_refl Hops)|]. vm_compute. reflexivity.
Defined.
