(* ===== verification/ChannelManager.v ===== *)
(** * Channel manager and sessions

    [internal/channels/manager.go]: the accounts, the adapters and their
    health, and the dispatch of outbound messages.
    [internal/channels/session.go]: the conversations of channel senders.

    An adapter is an interface of the code: a handle, with the class
    [Adapters] for its name and for how sending ends; what was handed to an
    adapter is recorded in [sent], its starts and stops in [lifecycle]. *)

From S2P Require Import Prelude GoStrings Io Tables GoText Transcript Envelope Bus InboundQueue.
From Stdlib Require Import Ascii.
#[local] Open Scope Z_scope.

(** ** The manager *)

Abbreviation adapter := nat.

Record AccountStatus := mkStatus { Connected : bool; LastError : string; LastErrorAt : option Z }.

Inductive adapter_call := Started (a : adapter) | Stopped (a : adapter).

(** The context in use is the manager's own until [Start] brings another. *)
Record ChannelManager := mkManager {
  accounts : gmap string ChannelAccount;
  adapters : gmap string adapter;
  statuses : gmap string AccountStatus;
  own_done : bool;
  given : option bool;       (* a context given by Start, and whether it is done *)
  sent : list (string * OutboundMessage);
  lifecycle : list adapter_call }.

Inductive channel_error := DispatchErrors (succeeded : nat) (errs : list (string * string)) | NoAdapter (channel : string).
Abbreviation mop := (io ChannelManager channel_error).

Class Adapters := {
  adapter_name : adapter -> string;
  adapter_send : nat -> adapter -> OutboundMessage -> option string }.

Definition set_accounts' (m : ChannelManager) x := mkManager x (adapters m) (statuses m) (own_done m) (given m) (sent m) (lifecycle m).
Definition set_adapters (m : ChannelManager) x := mkManager (accounts m) x (statuses m) (own_done m) (given m) (sent m) (lifecycle m).
Definition set_statuses (m : ChannelManager) x := mkManager (accounts m) (adapters m) x (own_done m) (given m) (sent m) (lifecycle m).
Definition add_sent (m : ChannelManager) x := mkManager (accounts m) (adapters m) (statuses m) (own_done m) (given m) (sent m ++ [x]) (lifecycle m).
Definition add_life (m : ChannelManager) l := mkManager (accounts m) (adapters m) (statuses m) (own_done m) (given m) (sent m) (lifecycle m ++ l).

Definition NewChannelManager : ChannelManager := mkManager ∅ ∅ ∅ false None [] [].

Definition ctx_live (m : ChannelManager) : bool := match given m with Some done => negb done | None => negb (own_done m) end.

(** One event of the health subscriptions. *)
Definition applyAdapterHealthEvent (ev : Event payload) (recovered : bool) : mop unit :=
  match EPayload ev with
  | PMap p =>
      let accountID := text_field p "account_id" in
      if bool_decide (accountID = "") then mret tt
      else if recovered then modify (fun m => set_statuses m (<[accountID := mkStatus true "" None]> (statuses m)))
      else t ← now; modify (fun m => set_statuses m (<[accountID := mkStatus false (text_field p "error") (Some t)]> (statuses m)))
  | _ => mret tt
  end.

Definition UnregisterAdapter `{Unicode} (name : string) (m : ChannelManager) : ChannelManager :=
  let key := to_lower name in
  match adapters m !! key with
  | Some a => set_adapters (add_life m [Stopped a]) (delete key (adapters m))
  | None => m
  end.

Definition GetAdapter `{Unicode} (name : string) (m : ChannelManager) : option adapter := adapters m !! to_lower name.
Definition GetAccounts (m : ChannelManager) : list ChannelAccount := snd <$> map_to_list (accounts m).
Definition GetAccountStatuses (m : ChannelManager) : gmap string AccountStatus := statuses m.
Definition GetAccountByID (id : string) (m : ChannelManager) : option ChannelAccount := accounts m !! id.

Definition with_account_id (acc : ChannelAccount) (id : string) : ChannelAccount :=
  mkChannelAccount id (AccName acc) (AccChannel acc) (AccToken acc) (PhoneID acc) (WebhookSecret acc) (AccEnabled acc)
    (BoundAgentIDs acc) (DefaultChatID acc) (RoutingMode acc) (RequiresPairing acc) (AccMetadata acc).

Definition sync_account (newMap : gmap string ChannelAccount) (acc : ChannelAccount) : gmap string ChannelAccount :=
  let acc := if bool_decide (AccID acc = "") then with_account_id acc (AccChannel acc +:+ "_" +:+ pretty (Z.of_nat (size newMap) + 1)) else acc in
  <[AccID acc := acc]> newMap.
Definition SyncAccounts (l : list ChannelAccount) (m : ChannelManager) : ChannelManager :=
  set_accounts' m (fold_left sync_account l ∅).

(** The one agent an account is bound to. *)
Definition single_binding (acc : ChannelAccount) : option string :=
  match BoundAgentIDs acc with
  | [id] => if bool_decide (id = "*") || bool_decide (id = "all") then None else Some id
  | _ => None
  end.
Definition FindBoundAgent (accountID : string) (m : ChannelManager) : string :=
  default "" (acc ← accounts m !! accountID; single_binding acc).

Section manager.
Context `{Unicode} `{MapRange} `{Adapters}.

Definition RegisterAdapter (a : adapter) (m : ChannelManager) : ChannelManager :=
  let m' := set_adapters m (<[to_lower (adapter_name a) := a]> (adapters m)) in
  if ctx_live m then add_life m' [Started a] else m'.

(** [done] says whether the context given, if any can be done at all, is. *)
Definition StartManager (ctx : option bool) : mop unit :=
  _ ← modify (fun m => match ctx with
      | Some done => mkManager (accounts m) (adapters m) (statuses m) (own_done m) (Some done) (sent m) (lifecycle m)
      | None => m end);
  m ← get; l ← ranged (adapters m);
  modify (fun m => add_life m (Started <$> l.*2)).

Definition StopManager : mop unit :=
  _ ← modify (fun m => mkManager (accounts m) (adapters m) (statuses m) true (given m) (sent m) (lifecycle m));
  m ← get; l ← ranged (adapters m);
  modify (fun m => add_life m (Stopped <$> l.*2)).

(** The loop over the adapters: the errors and the number of successes. *)
Fixpoint send_all (targetChannel : string) (msg : OutboundMessage) (l : list (string * adapter)) : mop (list (string * string) * nat) :=
  match l with
  | [] => mret ([], 0%nat)
  | (name, a) :: rest =>
      if bool_decide (targetChannel = "all") || bool_decide (targetChannel = name) then
        _ ← modify (fun m => add_sent m (name, msg));
        n ← draw;
        '(errs, dispatched) ← send_all targetChannel msg rest;
        mret (match adapter_send n a msg with Some err => ((name, err) :: errs, dispatched) | None => (errs, S dispatched) end)
      else send_all targetChannel msg rest
  end.

Definition SendMessage (msg : OutboundMessage) : mop unit :=
  let msg := NormalizeOutbound msg in
  m ← get;
  let target := to_lower (trim_space (OChannelID msg)) in
  let target := if bool_decide (target = "") then "all" else target in
  l ← ranged (adapters m);
  '(errs, dispatched) ← send_all target msg l;
  match errs with
  | _ :: _ => throw (DispatchErrors dispatched errs)
  | [] => if bool_decide (dispatched = 0%nat) && negb (bool_decide (target = "all")) then throw (NoAdapter target) else mret tt
  end.

Definition Send (channelID accountID recipient content : string) : mop unit :=
  SendMessage (mkOutbound channelID accountID recipient content "" "" "" "" "" "" false ∅ "" "" "").
End manager.

(** ** Sessions *)

Record ConvRow := mkConvRow { ConvAgent : string; ConvTitle : string; ConvCreated : Z; ConvUpdated : Z }.
Record MessageRow := mkMessageRow {
  MsgID : string; MsgConv : string; MsgAgent : string; MsgRole : string; MsgContent : string; MsgToolCalls : string; MsgCreated : Z }.

(** [session_db]: there is a database; [sink]: an embedding sink is set,
    [embedded] what was handed to it. *)
Record ChannelSessionManager := mkSessions {
  session_db : bool; conversations : gmap string ConvRow; messages : list MessageRow;
  sink : bool; embedded : list (string * string * string) }.

Definition set_conversations (s : ChannelSessionManager) m := mkSessions (session_db s) m (messages s) (sink s) (embedded s).
Definition add_message (s : ChannelSessionManager) r := mkSessions (session_db s) (conversations s) (messages s ++ [r]) (sink s) (embedded s).
Definition add_embedded (s : ChannelSessionManager) x := mkSessions (session_db s) (conversations s) (messages s) (sink s) (embedded s ++ [x]).

Inductive session_error := SessionDb | SlicePanic.
Abbreviation sop := (io ChannelSessionManager session_error).

(** [json.Marshal] of a list of calls. *)
Class CallsCodec := { encode_calls : list ToolCall -> string }.

(** [fmt.Sprintf("conv_%s_%s_%s", ...)] *)
Definition session_id (channelID senderID agentID : string) : string :=
  if bool_decide (channelID = "mission") then "conv_task_" +:+ senderID
  else if bool_decide (agentID = "") then "conv_" +:+ channelID +:+ "_" +:+ senderID
  else "conv_" +:+ channelID +:+ "_" +:+ senderID +:+ "_" +:+ agentID.

Section sessions.
Context `{Unicode} `{Uuid} `{CallsCodec}.

Definition channel_icon (channelID : string) : string :=
  if bool_decide (channelID = "whatsapp") then "💬" else if bool_decide (channelID = "discord") then "🎮"
  else if bool_decide (channelID = "mission") then "🎯" else if bool_decide (channelID = "system") then "⚡" else "📱".

(** [strings.ToUpper(channelID[:1]) + channelID[1:]]; the slices panic on an
    empty text. *)
Definition capitalized (channelID : string) : option string :=
  match channelID with
  | "" => None
  | _ => rest ← slice_from 1 channelID; Some (to_upper (take_bytes 1 channelID) +:+ rest)
  end.

Definition session_title (channelID senderID senderName firstMessage : string) : option string :=
  let dispName := if bool_decide (senderName = "") then senderID else senderName in
  cap ← capitalized channelID;
  Some (if bool_decide (channelID = "mission") then "🎯 Mission: " +:+ dispName
        else if bool_decide (channelID = "system") then "⚡ System: " +:+ dispName
        else if (0 <? len firstMessage) && (len firstMessage <=? 30) then channel_icon channelID +:+ " " +:+ cap +:+ ": " +:+ firstMessage
        else channel_icon channelID +:+ " " +:+ cap +:+ ": " +:+ dispName).

(** The id, and whether the conversation could be stored. *)
Definition GetOrCreateSession (channelID senderID senderName firstMessage agentID : string) : sop (string * bool) :=
  let convID := session_id channelID senderID agentID in
  s ← get;
  if negb (session_db s) then mret (convID, true)
  else
    t ← now;
    row ← attempt (_ ← db SessionDb; s ← get; mret (conversations s !! convID));
    match row with
    | Err _ => mret (convID, true)
    | Ok (Some c) =>
        _ ← ignore (_ ← db SessionDb; modify (fun s => set_conversations s (<[convID := mkConvRow agentID (ConvTitle c) (ConvCreated c) t]> (conversations s))));
        mret (convID, true)
    | Ok None =>
        match session_title channelID senderID senderName firstMessage with
        | None => throw SlicePanic
        | Some title =>
            stored ← attempt (_ ← db SessionDb; modify (fun s => set_conversations s (<[convID := mkConvRow agentID title t t]> (conversations s))));
            mret (convID, is_ok stored)
        end
    end.

Definition isExternalChannelConversation (conversationID : string) : bool :=
  existsb (has_prefix conversationID) ["conv_telegram_"; "conv_whatsapp_"; "conv_discord_"].

(** [toolCalls] is [None] for the untyped nil. *)
Definition SaveMessage (convID agentID role content : string) (toolCalls : option (list ToolCall)) : sop unit :=
  s ← get;
  if negb (session_db s) then mret tt
  else
    n ← draw;
    let msgID := "msg_" +:+ uuid n in
    t ← now;
    let calls := match toolCalls with Some l => encode_calls l | None => "" end in
    _ ← db SessionDb;
    _ ← modify (fun s => add_message s (mkMessageRow msgID convID agentID role content calls t));
    if bool_decide (role = RoleUser) && sink s && isExternalChannelConversation convID
    then modify (fun s => add_embedded s (msgID, agentID, convID)) else mret tt.

(** A row the history replays. *)
Definition replayed (r : MessageRow) : option Message :=
  if (bool_decide (MsgRole r = RoleUser) || bool_decide (MsgRole r = RoleAssistant)) && negb (bool_decide (trim_space (MsgContent r) = ""))
  then Some (mkMessage (MsgRole r) (MsgContent r) "" [] "" "" []) else None.

(** The newest rows first, by time and row number. *)
Definition recent_rows (convID : string) (limit : Z) (l : list MessageRow) : list MessageRow :=
  take (Z.to_nat limit) (reverse (order_asc MsgCreated (filter (fun r => MsgConv r = convID) l))).

Definition LoadRecentHistory (convID : string) (limit : Z) : sop (list Message) :=
  s ← get;
  if negb (session_db s) || (limit <=? 0) then mret []
  else
    r ← attempt (db SessionDb);
    match r with
    | Err _ => mret []
    | Ok _ => mret (reverse (omap replayed (recent_rows convID limit (messages s))))
    end.
End sessions.
