(* ===== verification/Router.v ===== *)
(** * The message router ([internal/channels/router.go])

    Inbound messages of the channels are claimed from the queue (or taken
    from the bus), pass the pairing guard, are given to the agent they are
    for with the recent history of their conversation, and are answered
    through the channel manager.

    [AgentProvider] and [EngineExecutor] are interfaces of the code: classes
    here, asked with the number of the request.  The typing frame that a
    goroutine repeats while the agent works is sent [pulses] more times. *)

From S2P Require Import Prelude GoStrings GoText Io Envelope Pairing Transcript Cascade Bus InboundQueue ChannelManager.
From Stdlib Require Import Ascii.
#[local] Open Scope Z_scope.

(** The fields of an [AgentManifest] that routing reads. *)
Record AgentManifest := mkManifest {
  MAgentID : string; MName : string; MStatus : string; MIsSystem : bool; ListenChannels : list string }.

Definition StatusActive : string := "active".
Definition DefaultSystemAgentID : string := "agent_system_core".

Class AgentProvider := { list_agents : nat -> option (list AgentManifest) }.

(** The answer may be missing without an error. *)
Class EngineExecutor := {
  execute : nat -> string -> string -> string -> list Message -> result string (option Response);
  pulses : nat -> nat }.

(** One run of the engine, as it is asked for. *)
Record Run := mkRun { RunAgent : string; RunConv : string; RunPrompt : string; RunHistory : list Message }.

Record MessageRouter := mkRouter {
  r_channelMgr : option ChannelManager;
  r_sessionMgr : option ChannelSessionManager;
  r_pairing : option PairingManager;
  r_inbound : option InboundQueue;
  r_bus : EventBus payload;
  r_subs : option (nat * nat);      (* channelSub and doneSub, once started *)
  r_engine : bool;                  (* an engine is set *)
  r_runs : list Run }.

Definition set_mgr (x : option ChannelManager) r := mkRouter x (r_sessionMgr r) (r_pairing r) (r_inbound r) (r_bus r) (r_subs r) (r_engine r) (r_runs r).
Definition set_sessions (x : option ChannelSessionManager) r := mkRouter (r_channelMgr r) x (r_pairing r) (r_inbound r) (r_bus r) (r_subs r) (r_engine r) (r_runs r).
Definition set_pairing (x : option PairingManager) r := mkRouter (r_channelMgr r) (r_sessionMgr r) x (r_inbound r) (r_bus r) (r_subs r) (r_engine r) (r_runs r).
Definition set_inbound (x : option InboundQueue) r := mkRouter (r_channelMgr r) (r_sessionMgr r) (r_pairing r) x (r_bus r) (r_subs r) (r_engine r) (r_runs r).
Definition set_r_bus (x : EventBus payload) r := mkRouter (r_channelMgr r) (r_sessionMgr r) (r_pairing r) (r_inbound r) x (r_subs r) (r_engine r) (r_runs r).
Definition set_subs (x : option (nat * nat)) r := mkRouter (r_channelMgr r) (r_sessionMgr r) (r_pairing r) (r_inbound r) (r_bus r) x (r_engine r) (r_runs r).
Definition add_run (x : Run) r := mkRouter (r_channelMgr r) (r_sessionMgr r) (r_pairing r) (r_inbound r) (r_bus r) (r_subs r) (r_engine r) (r_runs r ++ [x]).

#[export] Instance router_bus : BusHost payload MessageRouter := {| bus_of := r_bus; set_bus := set_r_bus |}.

Inductive route_error :=
  | ErrUnpairedSender | PairingError | EngineMissing | EngineError (text : string) | HookFailed
  | RoutePanic.
Abbreviation rop := (io MessageRouter route_error).

(** Run an operation of a part that may be missing. *)
Definition within {S X A} (view : MessageRouter -> option S) (upd : option S -> MessageRouter -> MessageRouter)
    (m : io S X A) : rop (option (result X A)) := fun r e =>
  match view r with
  | None => (Ok None, (r, e))
  | Some s => let '(res, (s', e')) := m s e in (Ok (Some res), (upd (Some s') r, e'))
  end.

Definition on_mgr {A} : io ChannelManager channel_error A -> rop (option (result channel_error A)) := within r_channelMgr set_mgr.
Definition on_sessions {A} : io ChannelSessionManager session_error A -> rop (option (result session_error A)) := within r_sessionMgr set_sessions.
Definition on_pairing {A} : io PairingManager pairing_error A -> rop (option (result pairing_error A)) := within r_pairing set_pairing.
Definition on_inbound {A} : io InboundQueue queue_error A -> rop (option (result queue_error A)) := within r_inbound set_inbound.

Definition newline : string := String (byte_of 10) "".

Section router.
Context `{Unicode} `{Folding} `{MapRange} `{Uuid} `{Adapters} `{MessageCodec} `{CallsCodec} `{AgentProvider} `{EngineExecutor}.

(** ** Which agent *)

Definition containsWildcard (l : list string) : bool := existsb (fun s => bool_decide (s = "*") || bool_decide (s = "all")) l.

Definition AgentListensTo (a : AgentManifest) (channelID accountID : string) : bool :=
  match ListenChannels a with
  | [] => true
  | l => existsb (fun ch =>
      let ch := trim_space (to_lower ch) in
      bool_decide (ch = "*") || bool_decide (ch = "all") || equal_fold ch channelID
      || (negb (bool_decide (accountID = "")) && equal_fold ch (channelID +:+ ":" +:+ accountID))) l
  end.

Definition active_agent (a : AgentManifest) : bool := bool_decide (MStatus a = StatusActive).

(** The agent is the one mentioned. *)
Definition is_target (target : string) (a : AgentManifest) : bool :=
  bool_decide (MAgentID a = target) || equal_fold (MAgentID a) target
  || bool_decide (to_lower (replace_all (MName a) " " "_") = to_lower (trim_space target)) || equal_fold (MName a) target.

Definition mentioned (agents : list AgentManifest) (msg : InboundMessage) : option string :=
  if bool_decide (ITargetAgent msg = "") || bool_decide (ITargetAgent msg = "default") then None
  else first_some (fun a => if active_agent a && is_target (ITargetAgent msg) a && AgentListensTo a (IChannelID msg) (IAccountID msg)
                            then Some (MAgentID a) else None) agents.

Definition bound (agents : list AgentManifest) (mgr : option ChannelManager) (msg : InboundMessage) : option string :=
  m ← mgr;
  if bool_decide (IAccountID msg = "") then None
  else
    acc ← GetAccountByID (IAccountID msg) m;
    match BoundAgentIDs acc with
    | [_] =>
        boundID ← single_binding acc;
        first_some (fun a => if bool_decide (MAgentID a = boundID) && active_agent a then Some (MAgentID a) else None) agents
    | ids =>
        first_some (fun boundID =>
          if bool_decide (boundID = "*") || bool_decide (boundID = "all") then None
          else first_some (fun a => if bool_decide (MAgentID a = boundID) && active_agent a && AgentListensTo a (IChannelID msg) (IAccountID msg)
                                    then Some (MAgentID a) else None) agents) ids
    end.

Definition explicitMatches (agents : list AgentManifest) (msg : InboundMessage) : list string :=
  MAgentID <$> filter (fun a => negb (MIsSystem a) && active_agent a && negb (bool_decide (ListenChannels a = []))
    && negb (containsWildcard (ListenChannels a)) && AgentListensTo a (IChannelID msg) (IAccountID msg) = true) agents.

Definition resolve (agents : list AgentManifest) (mgr : option ChannelManager) (msg : InboundMessage) : string :=
  match mentioned agents msg with
  | Some id => id
  | None =>
      match bound agents mgr msg with
      | Some id => id
      | None => match explicitMatches agents msg with [id] => id | _ => DefaultSystemAgentID end
      end
  end.

Definition ResolveAgent (msg : InboundMessage) : rop string :=
  n ← draw; r ← get;
  mret (match list_agents n with
        | None | Some [] => DefaultSystemAgentID
        | Some agents => resolve agents (r_channelMgr r) msg
        end).

(** ** The guard *)

Definition dispatch (msg : OutboundMessage) : rop unit := _ ← on_mgr (SendMessage (NormalizeOutbound msg)); mret tt.

Definition replyPairing (msg : InboundMessage) (content : string) : rop unit :=
  if bool_decide (trim_space content = "") then mret tt else _ ← on_mgr (SendMessage (NewReply msg content)); mret tt.

Definition not_paired_text : string :=
  "This chat is not paired yet. Ask the ActonOS operator for a pairing code, then send:" +:+ newline +:+ "/pair ABCD2345".

(** [enforcePairing]; the part that decides is in Pairing.v. *)
Definition guard (msg : InboundMessage) : rop unit :=
  r ← get;
  g ← on_pairing (enforcePairing (accounts <$> r_channelMgr r) msg);
  match g with
  | None | Some (Ok LetThrough) => mret tt
  | Some (Ok JustPaired) => replyPairing msg "Paired. You can chat with the agent now."
  | Some (Ok UnpairedSender) => _ ← replyPairing msg not_paired_text; throw ErrUnpairedSender
  | Some (Ok GuardPanic) => throw RoutePanic
  | Some (Ok PairingFailed) | Some (Err _) => throw PairingError
  end.

(** ** Routing *)

Definition chat_meta (msg : InboundMessage) (senderID : string) : string :=
  if bool_decide (IChannelID msg = "") then ""
  else
    let chatID := FirstNonEmpty [IChatID msg; senderID] in
    if bool_decide (chatID = "")
    then "[Channel: " +:+ IChannelID msg +:+ " | Account: " +:+ IAccountID msg +:+ " | Sender ID: " +:+ ISenderID msg +:+ "]" +:+ newline
    else "[Channel: " +:+ IChannelID msg +:+ " | Account: " +:+ IAccountID msg +:+ " | Chat ID: " +:+ chatID +:+ " | Sender: " +:+ ISenderName msg +:+ "]" +:+ newline.

Fixpoint repeat_dispatch (n : nat) (frame : OutboundMessage) : rop unit :=
  match n with
  | O => mret tt
  | S n' => _ ← dispatch frame; repeat_dispatch n' frame
  end.

Definition notify_tools : list string := ["native_channel_notify"; "channel_notify"].

Definition save (convID agentID role content : string) (calls : option (list ToolCall)) : rop unit :=
  if bool_decide (convID = "") then mret tt else _ ← on_sessions (SaveMessage convID agentID role content calls); mret tt.

(** The engine's part of a turn: the run, the typing frames meanwhile. *)
Definition run_engine (run : Run) (frame : OutboundMessage) : rop (result string (option Response)) :=
  _ ← dispatch frame;
  n ← gets (fun r => length (r_runs r));
  _ ← modify (add_run run);
  _ ← repeat_dispatch (pulses n) frame;
  mret (execute n (RunAgent run) (RunConv run) (RunPrompt run) (RunHistory run)).

(** [Route] from the moment the history is loaded. *)
Definition talk (msg : InboundMessage) (targetAgent convID : string) (history : list Message) : rop unit :=
  _ ← save convID targetAgent RoleUser (IContent msg) None;
  r ← get;
  if negb (r_engine r) then throw EngineMissing
  else
    resp ← run_engine (mkRun targetAgent convID (chat_meta msg (ConversationID msg) +:+ IContent msg) history) (NewTyping msg);
    match resp with
    | Err text =>
        _ ← dispatch (NewReply msg ("⚠️ Unable to process request: " +:+ text));
        throw (EngineError text)
    | Ok None => mret tt
    | Ok (Some resp) =>
        _ ← save convID targetAgent RoleAssistant (RContent resp) (Some (RToolCalls resp));
        if existsb (fun tc => bool_decide (FnName (TcFunction tc) ∈ notify_tools)) (RToolCalls resp) then mret tt
        else dispatch (NewReply msg (RContent resp))
    end.

(** [Route] after the guard. *)
Definition turn (msg : InboundMessage) : rop unit :=
  targetAgent ← ResolveAgent msg;
  session ← on_sessions (GetOrCreateSession (IChannelID msg) (ConversationID msg) (ISenderName msg) (IContent msg) targetAgent);
  convID ← match session with
           | None => mret ""
           | Some (Ok (id, _)) => mret id
           | Some (Err _) => throw RoutePanic
           end;
  history ← (if bool_decide (convID = "") then mret None else on_sessions (LoadRecentHistory convID 6));
  talk msg targetAgent convID (match history with Some (Ok l) => l | _ => [] end).

Definition Route (msg : InboundMessage) : rop unit :=
  let msg := NormalizeInbound msg in
  if IsControlEvent msg then mret tt else _ ← guard msg; turn msg.

(** ** The queue and the loop *)

(** An error of [Route] is logged, a panic ends the process. *)
Definition route_logged (msg : InboundMessage) : rop unit :=
  res ← attempt (Route msg);
  match res with Err RoutePanic => throw RoutePanic | _ => mret tt end.

Definition drainInboundQueue : rop unit :=
  claimed ← on_inbound (Claim 32);
  match claimed with
  | Some (Ok items) => for_each (fun item => route_logged (QMessage item)) items
  | _ => mret tt
  end.

(** The hook [SetInboundQueue] gives to the bus. *)
Definition persist_hook (ev : Event payload) : rop (Event payload) :=
  res ← on_inbound (PersistEvent ev);
  match res with None => mret ev | Some (Ok ev') => mret ev' | Some (Err _) => throw HookFailed end.

Definition PublishEvent (ev : Event payload) : rop unit := Publish (fun _ => RoutePanic) persist_hook ev.

Definition SetInboundQueue (q : option InboundQueue) (r : MessageRouter) : MessageRouter :=
  let r := set_inbound q r in
  match q with Some _ => set_r_bus (SetPersist (r_bus r)) r | None => r end.

Definition StartRouter : rop unit :=
  _ ← modify (fun r =>
      let '(channelSub, b) := Subscribe EventChannelMessage (r_bus r) in
      let '(doneSub, b) := Subscribe EventAgentActionDone b in
      set_subs (Some (channelSub, doneSub)) (set_r_bus b r));
  drainInboundQueue.

Definition or_all (s : string) : string := if bool_decide (s = "") then "all" else s.

(** A scheduled job's answer, sent to its channel. *)
Definition notification (p : gmap string string) : OutboundMessage :=
  mkOutbound (or_all (text_field p "target_channel")) (or_all (text_field p "target_account_id")) (text_field p "target_recipient")
    ("⏰ **[" +:+ text_field p "job_name" +:+ "]**" +:+ newline +:+ newline +:+ text_field p "content") "" "" "" "" "" "" false ∅ "" "" "".

Inductive loop_event := TickerFires | ChannelReady | DoneReady.

(** One turn of the loop; it ends when a subscription is closed. *)
Definition loop_step (o : loop_event) : rop bool :=
  r ← get;
  match r_subs r with
  | None => mret false
  | Some (channelSub, doneSub) =>
      match o with
      | TickerFires => _ ← drainInboundQueue; mret true
      | ChannelReady =>
          let '(got, b) := Receive channelSub (r_bus r) in
          _ ← modify (set_r_bus b);
          match got with
          | Ended => mret false
          | Blocks => mret true
          | Got ev =>
              match EPayload ev with
              | PInbound msg => _ ← (match r_inbound r with Some _ => drainInboundQueue | None => route_logged msg end); mret true
              | _ => mret true
              end
          end
      | DoneReady =>
          let '(got, b) := Receive doneSub (r_bus r) in
          _ ← modify (set_r_bus b);
          match got with
          | Ended => mret false
          | Blocks => mret true
          | Got ev =>
              match EPayload ev with
              | PMap p =>
                  if bool_decide (text_field p "type" = "proactive_cron_notification")
                  then _ ← on_mgr (SendMessage (notification p)); mret true
                  else mret true
              | _ => mret true
              end
          end
      end
  end.
End router.
