(* ===== verification/RouterSpec.v ===== *)
(** * What the router promises

    An agent works on a message only after the pairing guard let it through,
    with the history of its conversation and for an agent that may take it;
    a published message is routed even when the bus drops it. *)

From S2P Require Import Prelude GoStrings Io Tables GoText Transcript Cascade Envelope EnvelopeSpec Pairing Bus BusSpec InboundQueue QueueSpec ChannelManager Router.
#[local] Open Scope Z_scope.

Lemma wp_within {S X A} view upd (m : io S X A) (Q : result route_error (option (result X A)) -> MessageRouter -> env -> Prop) r e :
  match view r with
  | None => Q (Ok None) r e
  | Some s => wp m (fun res s' e' => Q (Ok (Some res)) (upd (Some s') r) e') s e
  end -> wp (within view upd m) Q r e.
Proof. unfold wp, within. destruct (view r) as [s|]; [|done]. by destruct (m s e) as [res [s' e']]. Qed.

Section spec.
Context `{Unicode} `{Folding} `{MapRange} `{Uuid} `{Adapters} `{MessageCodec} `{CallsCodec} `{AgentProvider} `{EngineExecutor}.

(** ** Sending changes the channel manager only *)

Definition only_mgr (r r' : MessageRouter) : Prop := r' = set_mgr (r_channelMgr r') r.

#[local] Instance only_mgr_preorder : PreOrder only_mgr.
Proof.
  unfold only_mgr. split; [intros []; done|]. intros r1 r2 r3 R1 R2. rewrite R2, R1. done.
Qed.

Lemma only_mgr_set r m : only_mgr r (set_mgr m r).
Proof. by destruct r. Qed.

Lemma quiet_send_all target msg l : quiet (send_all target msg l).
Proof. induction l as [|[name a] l IH]; cbn [send_all]; quiet_go. Qed.
#[local] Hint Resolve quiet_send_all : quiet.

Lemma quiet_SendMessage msg : quiet (SendMessage msg).
Proof. unfold SendMessage, ranged. quiet_go. Qed.

Lemma on_mgr_send msg (Q : result route_error (option (result channel_error unit)) -> MessageRouter -> env -> Prop) r e :
  (forall x r' e', only_mgr r r' -> onward e e' -> Q (Ok x) r' e') -> wp (on_mgr (SendMessage msg)) Q r e.
Proof.
  intros HQ. apply wp_within. destruct (r_channelMgr r) as [m|]; [|by apply HQ].
  eapply wp_mono; [apply quiet_SendMessage|]. cbv beta. intros x m' e' He. apply HQ; [apply only_mgr_set|done].
Qed.

Lemma dispatch_wp msg (Q : result route_error unit -> MessageRouter -> env -> Prop) r e :
  (forall r' e', only_mgr r r' -> onward e e' -> Q (Ok tt) r' e') -> wp (dispatch msg) Q r e.
Proof. intros HQ. unfold dispatch. apply wp_bind, on_mgr_send. intros x r' e' Hr He. cbv beta iota. by apply wp_ret, HQ. Qed.

Lemma replyPairing_wp msg content (Q : result route_error unit -> MessageRouter -> env -> Prop) r e :
  (forall r' e', only_mgr r r' -> onward e e' -> Q (Ok tt) r' e') -> wp (replyPairing msg content) Q r e.
Proof.
  intros HQ. unfold replyPairing. case_bool_decide; [by apply wp_ret, HQ|].
  apply wp_bind, on_mgr_send. intros x r' e' Hr He. cbv beta iota. by apply wp_ret, HQ.
Qed.

Lemma repeat_dispatch_wp n msg (Q : result route_error unit -> MessageRouter -> env -> Prop) r e :
  (forall r' e', only_mgr r r' -> onward e e' -> Q (Ok tt) r' e') -> wp (repeat_dispatch n msg) Q r e.
Proof.
  revert r e. induction n as [|n IH]; intros r e HQ; cbn [repeat_dispatch]; [by apply wp_ret, HQ|].
  apply wp_bind, dispatch_wp. intros r' e' Hr He. cbv beta iota. apply IH. intros r2 e2 Hr2 He2. apply HQ; [by transitivity r'|by transitivity e'].
Qed.

(** ** Sessions *)

Definition replay (convID : string) (s : ChannelSessionManager) : list Message :=
  reverse (omap replayed (recent_rows convID 6 (messages s))).

Definition talk_kept (s s' : ChannelSessionManager) : Prop := messages s' = messages s /\ session_db s' = session_db s.

Lemma GetOrCreateSession_wp ch sender name first ag s e :
  wp (GetOrCreateSession ch sender name first ag) (fun r s' e' => onward e e' /\ talk_kept s s' /\
    ((exists b, r = Ok (session_id ch sender ag, b)) \/ (r = Err SlicePanic /\ ch = ""))) s e.
Proof.
  unfold GetOrCreateSession. apply wp_bind, wp_get. cbv beta iota.
  destruct (negb (session_db s)); [apply wp_ret; split; [reflexivity|]; split; [done|left; by eexists]|].
  apply wp_bind, wp_now_onward. intros e1 He1. cbv beta iota. apply wp_bind, wp_attempt, wp_bind.
  assert (Hend : forall b s' e', onward e1 e' -> talk_kept s s' -> onward e e' /\ talk_kept s s' /\
    ((exists b', @Ok session_error (string * bool) (session_id ch sender ag, b) = Ok (session_id ch sender ag, b')) \/ (@Ok session_error (string * bool) (session_id ch sender ag, b) = Err SlicePanic /\ ch = ""))).
  { intros b s' e' He' Hs'. split; [by transitivity e1|]. split; [done|]. left. by eexists. }
  apply wp_db_onward; cbv beta iota; [|intros e' _ He'; by apply wp_ret, Hend].
  intros e2 He2 _. apply wp_bind, wp_get, wp_ret. cbv beta iota. destruct (conversations s !! _) as [c|].
  - apply wp_bind, wp_ignore, wp_bind, wp_db_onward; cbv beta iota.
    + intros e3 He3 _. apply wp_modify, wp_ret, Hend; [by transitivity e2|done].
    + intros e3 _ He3. apply wp_ret, Hend; [by transitivity e2|done].
  - destruct (session_title _ _ _ _) as [title|] eqn:Ht.
    + apply wp_bind, wp_attempt, wp_bind, wp_db_onward; cbv beta iota.
      * intros e3 He3 _. apply wp_modify, wp_ret, Hend; [by transitivity e2|done].
      * intros e3 _ He3. apply wp_ret, Hend; [by transitivity e2|done].
    + apply wp_throw. split; [by transitivity e1|]. split; [done|]. right. split; [done|].
      unfold session_title in Ht. destruct ch; [done|]. exfalso. cbn in Ht. unfold slice_from in Ht. cbn in Ht. repeat case_match; done.
Qed.

Lemma LoadRecentHistory_wp convID s e :
  wp (LoadRecentHistory convID 6) (fun r s' e' => onward e e' /\ s' = s /\ exists l, r = Ok l /\ (l = [] \/ l = replay convID s) /\
    (session_db s = true -> faults e = [] -> l = replay convID s)) s e.
Proof.
  unfold LoadRecentHistory. apply wp_bind, wp_get. cbv beta iota. destruct (session_db s) eqn:Hdb; cbn [negb orb].
  - apply wp_bind, wp_attempt, wp_db_onward; cbv beta iota.
    + intros e' He' _. apply wp_ret. split; [done|]. split; [done|]. eexists. split; [done|]. split; [by right|done].
    + intros e' Hf He'. apply wp_ret. split; [done|]. split; [done|]. exists []. split; [done|]. split; [by left|done].
  - apply wp_ret. split; [reflexivity|]. split; [done|]. exists []. split; [done|]. split; [by left|done].
Qed.

Definition row_is (r : MessageRow) (convID ag role content : string) : Prop :=
  MsgConv r = convID /\ MsgAgent r = ag /\ MsgRole r = role /\ MsgContent r = content.

Lemma SaveMessage_wp convID ag role content calls s e :
  wp (SaveMessage convID ag role content calls) (fun r s' e' => onward e e' /\ session_db s' = session_db s /\
    (session_db s = true -> faults e = [] -> exists row, messages s' = messages s ++ [row] /\ row_is row convID ag role content)) s e.
Proof.
  unfold SaveMessage. apply wp_bind, wp_get. cbv beta iota. destruct (session_db s) eqn:Hdb; cbn [negb].
  2:{ apply wp_ret. by split. }
  apply wp_bind, wp_draw_onward. intros e1 He1. cbv beta iota zeta. apply wp_bind, wp_now_onward. intros e2 He2. cbv beta iota.
  assert (H12 : onward e e2) by (by transitivity e1).
  apply wp_bind, wp_db_onward; cbv beta iota.
  2:{ intros e' Hf He'. split; [by transitivity e2|]. split; [done|]. intros _ Hno. destruct Hf. by apply H12. }
  intros e3 He3 _. apply wp_bind, wp_modify. cbv beta iota.
  assert (Hend : forall s', messages s' = messages s ++ [mkMessageRow ("msg_" +:+ uuid (fresh e)) convID ag role content (match calls with Some l => encode_calls l | None => "" end) (clock e2)] ->
    session_db s' = session_db s -> onward e e3 /\ session_db s' = true /\ (true = true -> faults e = [] -> exists row, messages s' = messages s ++ [row] /\ row_is row convID ag role content)).
  { intros s' Hm Hs'. split; [by transitivity e2|]. split; [congruence|]. intros _ _. eexists. split; [exact Hm|]. done. }
  destruct (_ && _); [apply wp_modify|apply wp_ret]; by apply Hend.
Qed.

(** ** A turn *)

(** What is left alone besides the runs, the sessions and the manager. *)
Definition frame (r r' : MessageRouter) : Prop :=
  r_inbound r' = r_inbound r /\ r_bus r' = r_bus r /\ r_subs r' = r_subs r /\ r_engine r' = r_engine r.

Definition may_run (ag : string) : Prop :=
  ag = DefaultSystemAgentID \/ exists n agents a, list_agents n = Some agents /\ a ∈ agents /\ MStatus a = StatusActive /\ MAgentID a = ag.

Lemma first_agent (p : AgentManifest -> bool) agents id :
  first_some (fun a => if p a then Some (MAgentID a) else None) agents = Some id -> exists a, a ∈ agents /\ p a = true /\ MAgentID a = id.
Proof.
  intros (l1 & a & l2 & -> & Ha & _)%first_some_Some. destruct (p a) eqn:Hp; [|done]. injection Ha as <-.
  exists a. split; [apply elem_of_app; right; apply elem_of_cons; by left|done].
Qed.

Lemma resolve_active agents mgr msg :
  resolve agents mgr msg = DefaultSystemAgentID \/ exists a, a ∈ agents /\ MStatus a = StatusActive /\ MAgentID a = resolve agents mgr msg.
Proof.
  assert (Hact : forall a, active_agent a = true -> MStatus a = StatusActive) by (intros a; unfold active_agent; by intros ?%bool_decide_eq_true).
  unfold resolve. destruct (mentioned agents msg) as [id|] eqn:Hm.
  { right. unfold mentioned in Hm. destruct (_ || _); [done|]. apply first_agent in Hm as (a & Ha & Hp & <-).
    apply andb_true_iff in Hp as [[Hp _]%andb_true_iff _]. exists a. auto. }
  destruct (bound agents mgr msg) as [id|] eqn:Hb.
  { right. unfold bound in Hb. destruct mgr as [m|]; [|done]. cbn in Hb. case_bool_decide; [done|].
    destruct (GetAccountByID _ m) as [acc|]; [|done]. cbn in Hb.
    assert (Hmany : forall ids, first_some (fun boundID => if bool_decide (boundID = "*") || bool_decide (boundID = "all") then None
        else first_some (fun a => if bool_decide (MAgentID a = boundID) && active_agent a && AgentListensTo a (IChannelID msg) (IAccountID msg) then Some (MAgentID a) else None) agents) ids = Some id ->
        exists a, a ∈ agents /\ MStatus a = StatusActive /\ MAgentID a = id).
    { intros ids (l1 & bid & l2 & _ & Hin & _)%first_some_Some. destruct (_ || _); [done|]. apply first_agent in Hin as (a & Ha & Hp & <-).
      apply andb_true_iff in Hp as [[_ Hp]%andb_true_iff _]. exists a. auto. }
    destruct (BoundAgentIDs acc) as [|b1 [|b2 bs]]; [done| |exact (Hmany (b1 :: b2 :: bs) Hb)].
    destruct (single_binding acc) as [bid|]; [|done]. cbn in Hb. apply first_agent in Hb as (a & Ha & Hp & <-).
    apply andb_true_iff in Hp as [_ Hp]. exists a. auto. }
  destruct (explicitMatches agents msg) as [|id [|id2 l]] eqn:He; [by left| |by left].
  right. assert (Hin : id ∈ explicitMatches agents msg) by (rewrite He; apply elem_of_cons; by left).
  unfold explicitMatches in Hin. apply list_elem_of_fmap in Hin as (a & -> & Hin). apply list_elem_of_filter in Hin as [Hp Ha].
  rewrite !andb_true_iff in Hp. exists a. split; [done|]. split; [|done]. apply Hact. apply Hp.
Qed.

Lemma ResolveAgent_wp msg (Q : result route_error string -> MessageRouter -> env -> Prop) r e :
  (forall ag e', may_run ag -> onward e e' -> Q (Ok ag) r e') -> wp (ResolveAgent msg) Q r e.
Proof.
  intros HQ. unfold ResolveAgent. apply wp_bind, wp_draw_onward. intros e' He'. cbv beta iota. apply wp_bind, wp_get, wp_ret. cbv beta iota.
  apply HQ; [|done]. destruct (list_agents (fresh e)) as [[|a l]|] eqn:Hl; [by left| |by left].
  destruct (resolve_active (a :: l) (r_channelMgr r) msg) as [->|(x & Hx & Hs & Hid)]; [by left|]. right. by exists (fresh e), (a :: l), x.
Qed.
(** The conversation a turn belongs to. *)
Definition turn_conv (r : MessageRouter) (msg : InboundMessage) (ag : string) : string :=
  match r_sessionMgr r with Some _ => session_id (IChannelID msg) (ConversationID msg) ag | None => "" end.

(** The run a turn asks for. *)
Definition run_for (r : MessageRouter) (msg : InboundMessage) (run : Run) : Prop :=
  may_run (RunAgent run) /\ RunConv run = turn_conv r msg (RunAgent run) /\
  RunPrompt run = chat_meta msg (ConversationID msg) +:+ IContent msg /\
  (RunHistory run = [] \/ exists s, r_sessionMgr r = Some s /\ RunHistory run = replay (RunConv run) s).

Definition answer (r : MessageRouter) (run : Run) : result string (option Response) :=
  execute (length (r_runs r)) (RunAgent run) (RunConv run) (RunPrompt run) (RunHistory run).

(** The rows a turn adds when nothing fails. *)
Definition recorded (r : MessageRouter) (msg : InboundMessage) (run : Run) (s s' : ChannelSessionManager) : Prop :=
  RunHistory run = replay (RunConv run) s /\
  exists user rest, messages s' = messages s ++ user :: rest /\
    row_is user (RunConv run) (RunAgent run) RoleUser (IContent msg) /\
    match answer r run with
    | Ok (Some resp) => exists row, rest = [row] /\ row_is row (RunConv run) (RunAgent run) RoleAssistant (RContent resp)
    | _ => rest = []
    end.

Lemma session_id_nonempty ch sender ag : session_id ch sender ag <> "".
Proof. unfold session_id. by repeat case_bool_decide. Qed.

(** [save] touches only the sessions. *)
Lemma save_wp convID ag role content calls (Q : result route_error unit -> MessageRouter -> env -> Prop) r e :
  (forall x e', onward e e' ->
     match r_sessionMgr r, x with
     | None, None => True
     | Some s, Some s' => session_db s' = session_db s /\
         (convID <> "" -> session_db s = true -> faults e = [] -> exists row, messages s' = messages s ++ [row] /\ row_is row convID ag role content)
     | _, _ => False
     end -> Q (Ok tt) (set_sessions x r) e') ->
  wp (save convID ag role content calls) Q r e.
Proof.
  intros HQ. unfold save. case_bool_decide as Hc.
  - apply wp_ret. replace r with (set_sessions (r_sessionMgr r) r) at 1 by (by destruct r). apply HQ; [reflexivity|].
    destruct (r_sessionMgr r); [|done]. split; [done|]. intros Hne. done.
  - apply wp_bind, wp_within. destruct (r_sessionMgr r) as [s|] eqn:Hs.
    + eapply wp_mono; [apply SaveMessage_wp|]. cbv beta. intros x s' e' (He & Hdb & Hrow). cbv beta iota. apply wp_ret. apply HQ; [done|]. by split.
    + cbv beta iota. apply wp_ret. replace r with (set_sessions None r) at 1 by (destruct r; cbn in Hs; by subst). by apply HQ.
Qed.

Lemma set_sessions_twice x y r : set_sessions x (set_sessions y r) = set_sessions x r.
Proof. done. Qed.
Lemma set_sessions_same r : set_sessions (r_sessionMgr r) r = r.
Proof. by destruct r. Qed.

(** Everything but the manager and the runs. *)
Definition steady (r r' : MessageRouter) : Prop :=
  frame r r' /\ r_pairing r' = r_pairing r /\ r_sessionMgr r' = r_sessionMgr r.
#[local] Instance steady_preorder : PreOrder steady.
Proof.
  unfold steady, frame. split; [done|]. intros r1 r2 r3 ((A1 & A2 & A3 & A4) & A5 & A6) ((B1 & B2 & B3 & B4) & B5 & B6).
  by rewrite B1, B2, B3, B4, B5, B6.
Qed.

Lemma only_mgr_steady r r' : only_mgr r r' -> steady r r' /\ r_runs r' = r_runs r.
Proof. unfold only_mgr. by intros ->. Qed.

Lemma run_engine_wp run fr (Q : result route_error (result string (option Response)) -> MessageRouter -> env -> Prop) r e :
  (forall r' e', onward e e' -> steady r r' -> r_runs r' = r_runs r ++ [run] -> Q (Ok (answer r run)) r' e') ->
  wp (run_engine run fr) Q r e.
Proof.
  intros HQ. unfold run_engine. apply wp_bind, dispatch_wp. intros r1 e1 [Hs1 Hr1]%only_mgr_steady He1. cbv beta iota.
  apply wp_bind, wp_gets. cbv beta iota. apply wp_bind, wp_modify. cbv beta iota.
  apply wp_bind, repeat_dispatch_wp. intros r2 e2 [Hs2 Hr2]%only_mgr_steady He2. cbv beta iota. apply wp_ret. rewrite Hr1.
  apply HQ; [by transitivity e1| |by rewrite Hr2; cbn; rewrite Hr1]. transitivity r1; [done|].
  destruct Hs2 as ((?&?&?&?)&?&?). unfold steady, frame. cbn in *. by split_and!.
Qed.

(** What a turn leaves, in the state [r'] and the environment [e']. *)
Definition turn_post (msg : InboundMessage) (r : MessageRouter) (e : env) (res : result route_error unit) (r' : MessageRouter) (e' : env) : Prop :=
  onward e e' /\ frame r r' /\ r_pairing r' = r_pairing r /\
  ((exists run, r_runs r' = r_runs r ++ [run] /\ run_for r msg run /\ res <> Err RoutePanic /\
      (forall s, r_sessionMgr r = Some s -> session_db s = true -> faults e = [] -> exists s', r_sessionMgr r' = Some s' /\ recorded r msg run s s') /\
      is_ok res = is_ok (answer r run))
   \/ (r_runs r' = r_runs r /\
       ((res = Err RoutePanic /\ IChannelID msg = "" /\ r_sessionMgr r <> None) \/ (res = Err EngineMissing /\ r_engine r = false)))).

(** The part of a turn from the engine on; [r3] is the state with the user's
    message stored. *)
Lemma after_engine_wp msg run r r3 e e3 :
  onward e e3 -> frame r r3 -> r_pairing r3 = r_pairing r -> r_runs r3 = r_runs r -> r_engine r = true ->
  run_for r msg run ->
  match r_sessionMgr r, r_sessionMgr r3 with
  | None, None => True
  | Some s, Some s3 => session_db s3 = session_db s /\ (session_db s = true -> faults e = [] ->
      RunHistory run = replay (RunConv run) s /\ exists user, messages s3 = messages s ++ [user] /\ row_is user (RunConv run) (RunAgent run) RoleUser (IContent msg))
  | _, _ => False
  end ->
  wp (resp ← run_engine run (NewTyping msg);
      match resp with
      | Err text => _ ← dispatch (NewReply msg ("⚠️ Unable to process request: " +:+ text)); throw (EngineError text)
      | Ok None => mret tt
      | Ok (Some resp) =>
          _ ← save (RunConv run) (RunAgent run) RoleAssistant (RContent resp) (Some (RToolCalls resp));
          if existsb (fun tc => bool_decide (FnName (TcFunction tc) ∈ notify_tools)) (RToolCalls resp) then mret tt
          else dispatch (NewReply msg (RContent resp))
      end) (turn_post msg r e) r3 e3.
Proof.
  intros He3 Hfr3 Hp3 Hruns3 Heng Hrun Hsess. apply wp_bind, run_engine_wp. intros r4 e4 He4 (Hfr4 & Hp4 & Hs4) Hruns4. cbv beta iota.
  assert (Hans : answer r3 run = answer r run) by (unfold answer; by rewrite Hruns3). rewrite Hans.
  assert (He : onward e e4) by (by transitivity e3).
  assert (Hframe : forall r', frame r4 r' -> frame r r').
  { intros r' (F1&F2&F3&F4). destruct Hfr3 as (A1&A2&A3&A4), Hfr4 as (B1&B2&B3&B4). unfold frame. rewrite F1, F2, F3, F4, B1, B2, B3, B4. done. }
  assert (Hend : forall res r' e', onward e4 e' -> frame r4 r' -> r_pairing r' = r_pairing r4 -> r_runs r' = r_runs r4 -> res <> Err RoutePanic -> is_ok res = is_ok (answer r run) ->
    (forall s s4, r_sessionMgr r = Some s -> r_sessionMgr r4 = Some s4 -> session_db s4 = session_db s -> session_db s = true -> faults e = [] ->
       exists s' rest, r_sessionMgr r' = Some s' /\ messages s' = messages s4 ++ rest /\
       match answer r run with
       | Ok (Some resp) => exists row, rest = [row] /\ row_is row (RunConv run) (RunAgent run) RoleAssistant (RContent resp)
       | _ => rest = []
       end) -> turn_post msg r e res r' e').
  { intros res r' e' He' Hf' Hp' Hr' Hres Hok Hrest. split; [by transitivity e4|]. split; [by apply Hframe|]. split; [congruence|].
    left. exists run. split; [congruence|]. split; [done|]. split; [done|]. split; [|done].
    intros s Hs Hdb Hnf. rewrite Hs in Hsess. destruct (r_sessionMgr r3) as [s3|] eqn:Hs3; [|done]. destruct Hsess as [Hdb3 Huser].
    destruct (Huser Hdb Hnf) as (Hh & user & Hm3 & Hu). destruct (Hrest s s3 Hs Hs4 Hdb3 Hdb Hnf) as (s' & rest & Hs' & Hm' & Hrow).
    exists s'. split; [done|]. split; [done|]. exists user, rest. rewrite Hm', Hm3, <- app_assoc. done. }
  destruct (answer r run) as [[resp|]|text] eqn:Ha.
  - apply wp_bind, save_wp. intros x e5 He5 Hx. cbv beta iota.
    assert (Hlast : forall r' e', only_mgr (set_sessions x r4) r' -> onward e5 e' -> turn_post msg r e (Ok tt) r' e').
    { intros r' e' Ho He'. unfold only_mgr in Ho. apply Hend; [by transitivity e5|by rewrite Ho|by rewrite Ho|by rewrite Ho|done|done|].
      intros s s4 Hs Hs4' Hdb4 Hdb Hnf. rewrite Hs4' in Hx. destruct x as [s5|]; [|done]. destruct Hx as [_ Hrow].
      assert (Hne : RunConv run <> "").
      { destruct Hrun as (_ & -> & _). unfold turn_conv. rewrite Hs. apply session_id_nonempty. }
      destruct (Hrow Hne) as (row & Hm & Hr); [congruence|by apply He|]. exists s5, [row]. rewrite Ho. split; [done|]. split; [done|]. by exists row. }
    destruct (existsb _ _); [apply wp_ret, Hlast; reflexivity|]. apply dispatch_wp. intros r' e' Ho He'. by apply Hlast.
  - apply wp_ret. apply Hend; try done. intros s s4 _ Hs4' _ _ _. exists s4, []. by rewrite app_nil_r.
  - apply wp_bind, dispatch_wp. intros r' e' Ho He'. cbv beta iota. apply wp_throw. unfold only_mgr in Ho.
    apply Hend; try done; try by rewrite Ho. intros s s4 _ Hs4' _ _ _. exists s4, []. rewrite app_nil_r, Ho. done.
Qed.

(** The state [x] of the sessions with the history [hist] read from it. *)
Definition loaded (r : MessageRouter) (e : env) (conv : string) (x : option ChannelSessionManager) (hist : list Message) : Prop :=
  match r_sessionMgr r, x with
  | None, None => hist = []
  | Some s, Some s3 => talk_kept s s3 /\ (hist = [] \/ hist = replay conv s) /\ (session_db s = true -> faults e = [] -> hist = replay conv s)
  | _, _ => False
  end.

Lemma talk_wp msg ag hist x r e e3 :
  onward e e3 -> may_run ag -> loaded r e (turn_conv r msg ag) x hist ->
  wp (talk msg ag (turn_conv r msg ag) hist) (turn_post msg r e) (set_sessions x r) e3.
Proof.
  intros He3 Hag Hx. unfold talk. set (conv := turn_conv r msg ag) in *. set (run := mkRun ag conv _ hist).
  apply wp_bind, save_wp. cbn [r_sessionMgr set_sessions]. intros y e4 He4 Hy. cbv beta iota. rewrite set_sessions_twice.
  assert (He : onward e e4) by (by transitivity e3).
  apply wp_bind, wp_get. cbv beta iota. cbn [r_engine set_sessions]. destruct (r_engine r) eqn:Heng; cbn [negb].
  2:{ apply wp_throw. split; [done|]. split; [done|]. split; [done|]. right. split; [done|]. by right. }
  apply (after_engine_wp msg run r (set_sessions y r) e e4); try done.
  - split; [done|]. split; [done|]. split; [done|]. unfold loaded in Hx. destruct (r_sessionMgr r) as [s|], x as [s3|]; try done; [|by left].
    destruct Hx as (_ & [->|Hh] & _); [by left|]. right. by exists s.
  - cbn [r_sessionMgr set_sessions]. unfold loaded in Hx. destruct (r_sessionMgr r) as [s|] eqn:Hs, x as [s3|]; try done.
    destruct y as [s4|]; [|done]. destruct Hx as ((Hm & Hdb) & _ & Hh), Hy as [Hdb4 Hrow]. split; [congruence|]. intros Hdb' Hnf. split; [by apply Hh|].
      destruct Hrow as (row & Hrow & Hr); [unfold conv, turn_conv; rewrite Hs; apply session_id_nonempty|congruence|by apply He3|]. exists row. split; [congruence|done].
Qed.

Lemma turn_wp msg r e : wp (turn msg) (turn_post msg r e) r e.
Proof.
  unfold turn. apply wp_bind, ResolveAgent_wp. intros ag e1 Hag He1. cbv beta iota. apply wp_bind, wp_within.
  destruct (r_sessionMgr r) as [s|] eqn:Hs.
  - assert (Hconv : turn_conv r msg ag = session_id (IChannelID msg) (ConversationID msg) ag) by (unfold turn_conv; by rewrite Hs).
    eapply wp_mono; [apply GetOrCreateSession_wp|]. cbv beta. intros x s2 e2 (He2 & Hkept & Hx). cbv beta iota. apply wp_bind.
    assert (H12 : onward e e2) by (by transitivity e1). destruct Hx as [[b ->]|[-> Hch]].
    + apply wp_ret. cbv beta iota. rewrite <- Hconv. rewrite bool_decide_eq_false_2 by (rewrite Hconv; apply session_id_nonempty).
      apply wp_bind, wp_within. cbn [r_sessionMgr set_sessions]. eapply wp_mono; [apply LoadRecentHistory_wp|]. cbv beta.
      intros x s3 e3 (He3 & -> & l & -> & Hl & Hexact). cbv beta iota. rewrite set_sessions_twice. apply talk_wp; [by transitivity e2|done|].
      unfold loaded. rewrite Hs. destruct Hkept as [Hm Hdb]. assert (Hrep : replay (turn_conv r msg ag) s2 = replay (turn_conv r msg ag) s) by (unfold replay; by rewrite Hm).
      rewrite Hrep in Hl, Hexact. split; [by split|]. split; [done|]. intros Hdb' Hnf. apply Hexact; [congruence|by apply H12].
    + apply wp_throw. split; [done|]. split; [done|]. split; [done|]. right. split; [done|]. left. split; [done|]. split; [done|]. by rewrite Hs.
  - cbv beta iota. apply wp_bind, wp_ret. cbv beta iota. rewrite bool_decide_eq_true_2 by done. apply wp_bind, wp_ret. cbv beta iota.
    assert (Hconv : turn_conv r msg ag = "") by (unfold turn_conv; by rewrite Hs).
    assert (Hsame : set_sessions None r = r) by (destruct r; cbn in Hs; by subst).
    rewrite <- Hsame at 2. rewrite <- Hconv. apply talk_wp; [done|done|]. unfold loaded. by rewrite Hs.
Qed.

(** ** The guard *)

Definition guard_accounts (r : MessageRouter) : option (gmap string ChannelAccount) := accounts <$> r_channelMgr r.

(** How the guard let a message through. *)
Definition admitted (r : MessageRouter) (e : env) (msg : InboundMessage) : Prop :=
  match r_pairing r with
  | None => True
  | Some p => pairingRequired (guard_accounts r) msg p = false \/ IsAuthorized (IChannelID msg) (ISenderID msg) p = true \/
      (enforcePairing (guard_accounts r) msg p e).1 = Ok JustPaired
  end.

(** The guard lets the message through as things are: pairing is not required
    for it, or its sender is authorized. *)
Definition welcome (r : MessageRouter) (msg : InboundMessage) : Prop :=
  match r_pairing r with
  | None => True
  | Some p => pairingRequired (guard_accounts r) msg p = false \/ IsAuthorized (IChannelID msg) (ISenderID msg) p = true
  end.

Lemma quiet_TouchUser ch s : quiet (TouchUser ch s).
Proof. unfold TouchUser, exec. quiet_go. Qed.
Lemma quiet_NoteUnpaired ch s n c : quiet (NoteUnpaired ch s n c).
Proof. unfold NoteUnpaired. quiet_go. Qed.
Lemma quiet_ValidateAndPair ch c s n : quiet (ValidateAndPair ch c s n).
Proof. unfold ValidateAndPair, exec. quiet_go. Qed.
#[local] Hint Resolve quiet_TouchUser quiet_NoteUnpaired quiet_ValidateAndPair : quiet.
Lemma quiet_enforcePairing a msg : quiet (enforcePairing a msg).
Proof. unfold enforcePairing. cbv zeta. quiet_go. Qed.

Lemma let_through a msg p e : (enforcePairing a msg p e).1 = Ok LetThrough ->
  pairingRequired a msg p = false \/ IsAuthorized (IChannelID msg) (ISenderID msg) p = true.
Proof.
  assert (Hwp : wp (enforcePairing a msg) (fun x _ _ => x = Ok LetThrough -> pairingRequired a msg p = false \/ IsAuthorized (IChannelID msg) (ISenderID msg) p = true) p e).
  { unfold enforcePairing. apply wp_bind, wp_get. cbv beta iota zeta. destruct (pairingRequired a msg p); cbn [negb]; [|apply wp_ret; auto].
    destruct (IsAuthorized _ _ p); [apply wp_bind; eapply wp_mono; [apply quiet_TouchUser|]; intros [u|x] ? ? _; [apply wp_ret|]; auto|].
    assert (Hno : forall q e0, wp (_ ← NoteUnpaired (IChannelID msg) (ISenderID msg) (ISenderName msg) (IContent msg); mret UnpairedSender : pop guard_result)
      (fun x _ _ => x = Ok LetThrough -> true = false \/ false = true) q e0).
    { intros q e0. apply wp_bind. eapply wp_mono; [apply quiet_NoteUnpaired|]. intros [u|x] ? ? _; [by apply wp_ret|done]. }
    destruct (ExtractPairingPIN _) as [pin|]; [|by apply wp_ret]. case_bool_decide; [apply Hno|].
    apply wp_bind. eapply wp_mono; [apply quiet_ValidateAndPair|]. cbv beta. intros [[]|x] q e1 _; try (by apply wp_ret); [apply Hno|done]. }
  unfold wp in Hwp. destruct (enforcePairing a msg p e) as [x [q e1]]. exact Hwp.
Qed.

Lemma TouchUser_ok ch s p e : wp (TouchUser ch s) (fun x _ _ => x = Ok tt) p e.
Proof.
  unfold TouchUser. apply wp_bind, wp_get. cbv beta iota zeta. destruct (users p !! _); [|by apply wp_ret].
  apply wp_bind, wp_now. intros e1 _ _. apply wp_bind, wp_modify, wp_ignore. unfold wp. by destruct (exec _ _ _) as [? [? ?]].
Qed.
Lemma welcome_through a msg p e :
  pairingRequired a msg p = false \/ IsAuthorized (IChannelID msg) (ISenderID msg) p = true ->
  wp (enforcePairing a msg) (fun x _ _ => x = Ok LetThrough) p e.
Proof.
  intros Hw. unfold enforcePairing. apply wp_bind, wp_get. cbv beta iota zeta. destruct (pairingRequired a msg p); cbn [negb]; [|by apply wp_ret].
  destruct Hw as [Hw|Hw]; [done|]. rewrite Hw. apply wp_bind. eapply wp_mono; [apply TouchUser_ok|]. cbv beta. intros _ q e' ->. by apply wp_ret.
Qed.

Lemma inbound_guard_wp msg (Q : result route_error unit -> MessageRouter -> env -> Prop) r e :
  (forall res r' e', onward e e' -> frame r r' -> r_sessionMgr r' = r_sessionMgr r -> r_runs r' = r_runs r ->
     (is_ok res = true -> admitted r e msg) -> (welcome r msg -> res = Ok tt) -> Q res r' e') ->
  wp (guard msg) Q r e.
Proof.
  intros HQ. unfold guard. apply wp_bind, wp_get. cbv beta iota. apply wp_bind, wp_within. fold (guard_accounts r).
  destruct (r_pairing r) as [p|] eqn:Hp.
  2:{ cbv beta iota. apply wp_ret. apply HQ; try done. intros _. unfold admitted. by rewrite Hp. }
  assert (Hlt := let_through (guard_accounts r) msg p e). assert (Hwt := welcome_through (guard_accounts r) msg p e). assert (Hq := quiet_enforcePairing (guard_accounts r) msg p e).
  unfold wp at 1. unfold wp in Hq, Hwt. destruct (enforcePairing (guard_accounts r) msg p e) as [x [p' e1]] eqn:Hrun. cbn [fst] in Hlt. cbv beta iota.
  assert (Hwel : welcome r msg -> x = Ok LetThrough) by (unfold welcome; by rewrite Hp).
  assert (Hadm : x = Ok JustPaired \/ x = Ok LetThrough -> admitted r e msg).
  { unfold admitted. rewrite Hp, Hrun. cbn [fst]. intros [->| ->]; [by right; right|]. destruct (Hlt eq_refl); auto. }
  assert (Hend : forall (res : result route_error unit) r' e', only_mgr (set_pairing (Some p') r) r' -> onward e1 e' -> (is_ok res = true -> x = Ok JustPaired \/ x = Ok LetThrough) ->
    (x = Ok LetThrough -> res = Ok tt) -> Q res r' e').
  { intros res r' e' Ho He' Hres Hlet. unfold only_mgr in Ho. apply HQ; [by transitivity e1|by rewrite Ho|by rewrite Ho|by rewrite Ho|auto|auto]. }
  destruct x as [[]|x].
  - apply wp_ret, Hend; [reflexivity..|auto|done].
  - apply replyPairing_wp. intros r' e' Ho He'. apply Hend; auto.
  - apply wp_throw, Hend; [reflexivity..|done|done].
  - apply wp_bind, replyPairing_wp. intros r' e' Ho He'. cbv beta iota. apply wp_throw, Hend; [done..|by intros ?|done].
  - apply wp_throw, Hend; [reflexivity..|done|done].
  - apply wp_throw, Hend; [reflexivity..|done|done].
Qed.

(** ** Routing one message *)

Lemma Route_wp msg r e :
  let n := NormalizeInbound msg in
  wp (Route msg) (fun res r' e' => onward e e' /\ frame r r' /\
    ((exists run, r_runs r' = r_runs r ++ [run] /\ IsControlEvent n = false /\ admitted r e n /\ run_for r n run /\ res <> Err RoutePanic /\
        (forall s, r_sessionMgr r = Some s -> session_db s = true -> faults e = [] -> exists s', r_sessionMgr r' = Some s' /\ recorded r n run s s'))
     \/ (r_runs r' = r_runs r /\
         (IsControlEvent n = true \/ ~ welcome r n \/ IChannelID n = "" \/ r_engine r = false)))) r e.
Proof.
  intros n. unfold Route. fold n. destruct (IsControlEvent n) eqn:Hctl.
  { apply wp_ret. split; [reflexivity|]. split; [done|]. right. split; [done|]. by left. }
  apply wp_bind, inbound_guard_wp. intros res r1 e1 He1 Hf1 Hs1 Hr1 Hadm Hnone. destruct res as [[]|x].
  2:{ split; [done|]. split; [done|]. right. split; [done|]. right; left. intros Hw. discriminate (Hnone Hw). }
  specialize (Hadm eq_refl). eapply wp_mono; [apply turn_wp|]. cbv beta. intros res r' e' (He' & Hf' & Hp' & Hor).
  split; [by transitivity e1|]. split.
  { destruct Hf1 as (A1&A2&A3&A4), Hf' as (B1&B2&B3&B4). unfold frame. by rewrite B1, B2, B3, B4. }
  assert (Hans : forall run, answer r1 run = answer r run) by (intros run; unfold answer; by rewrite Hr1).
  destruct Hor as [(run & Hruns & Hrun & Hnp & Hrec & _)|[Hruns Hwhy]].
  - left. exists run. split; [congruence|]. split; [done|]. split; [done|].
    assert (Hconv : forall ag, turn_conv r1 n ag = turn_conv r n ag) by (intros ag; unfold turn_conv; by rewrite Hs1).
    split; [|split; [done|]].
    + destruct Hrun as (H1' & H2' & H3' & H4'). split; [done|]. rewrite <- Hconv. split; [done|]. split; [done|]. by rewrite Hs1 in H4'.
    + intros s Hs Hdb Hnf. rewrite <- Hs1 in Hs. destruct (Hrec s Hs Hdb) as (s' & Hs' & Hhist & user & rest & Hm & Hu & Hrest); [by apply He1|].
      exists s'. split; [done|]. split; [done|]. exists user, rest. rewrite Hans in Hrest. done.
  - right. split; [congruence|]. right; right. destruct Hwhy as [(_ & Hch & _)|(_ & Heng)]; [by left|right]. destruct Hf1 as (_&_&_&Hf1). congruence.
Qed.

(** C21. Routing a message makes at most one run of the engine, and only for
    a message that is not a control event and that the guard let through: no
    pairing is required, or the sender is authorized, or just paired with a
    code.  The run is for the system's agent or an active one, in the
    conversation of the sender, with the message and the recent history of
    that conversation. *)
Theorem agents_run_behind_the_guard msg r e :
  let n := NormalizeInbound msg in
  wp (Route msg) (fun _ r' _ => r_runs r' = r_runs r \/
    exists run, r_runs r' = r_runs r ++ [run] /\ IsControlEvent n = false /\ admitted r e n /\ run_for r n run) r e.
Proof.
  intros n. eapply wp_mono; [apply Route_wp|]. cbv beta. intros res r' e' (_ & _ & [(run & H1' & H2' & H3' & H4' & _)|[Hr _]]); [right|by left].
  by exists run.
Qed.

(** ** The conversation *)

Definition rows_of (convID : string) (s : ChannelSessionManager) : list MessageRow := filter (fun r => MsgConv r = convID) (messages s).

Lemma reverse_take_reverse {A} n (l : list A) : reverse (take n (reverse l)) = drop (length l - n) l.
Proof. rewrite take_reverse, reverse_involutive. done. Qed.

Lemma omap_reverse {A B} (f : A -> option B) (l : list A) : omap f (reverse l) = reverse (omap f l).
Proof.
  induction l as [|x l IH]; [done|]. rewrite reverse_cons, omap_app, IH.
  assert (Hc : omap f (x :: l) = omap f [x] ++ omap f l) by (cbn; by destruct (f x)). rewrite Hc, reverse_app. f_equal. cbn. by destruct (f x).
Qed.

Lemma replay_last convID s : StronglySorted (fun x y => MsgCreated x <= MsgCreated y) (messages s) ->
  replay convID s = omap replayed (drop (length (rows_of convID s) - 6) (rows_of convID s)).
Proof.
  intros Hs. unfold replay, recent_rows. rewrite order_asc_sorted by (by apply (StronglySorted_filter _)). fold (rows_of convID s).
  rewrite <- omap_reverse, reverse_take_reverse. done.
Qed.

(** While no statement fails, the agent is shown the user's and the
    agent's own texts among the last six rows of the conversation, before
    the message it answers; the message and then the answer, when there is
    one, are added to the conversation. *)
Theorem conversation_grows msg r e s :
  faults e = [] -> r_sessionMgr r = Some s -> session_db s = true ->
  StronglySorted (fun x y => MsgCreated x <= MsgCreated y) (messages s) ->
  let n := NormalizeInbound msg in
  wp (Route msg) (fun _ r' _ => forall run, r_runs r' = r_runs r ++ [run] ->
    let rows := rows_of (RunConv run) s in
    RunHistory run = omap replayed (drop (length rows - 6) rows) /\
    exists s' user rest, r_sessionMgr r' = Some s' /\ messages s' = messages s ++ user :: rest /\
      row_is user (RunConv run) (RunAgent run) RoleUser (IContent n) /\
      match answer r run with
      | Ok (Some resp) => exists row, rest = [row] /\ row_is row (RunConv run) (RunAgent run) RoleAssistant (RContent resp)
      | _ => rest = []
      end) r e.
Proof.
  intros Hf Hs Hdb Hsort n. eapply wp_mono; [apply Route_wp|]. cbv beta. intros res r' e' (_ & _ & Hor) run Hrun. cbv zeta.
  destruct Hor as [(run' & Hr' & _ & _ & _ & _ & Hrec)|[Hr _]].
  - rewrite Hr' in Hrun. apply app_inj_1 in Hrun as [_ [= ->]]; [|done]. destruct (Hrec s Hs Hdb Hf) as (s' & Hs' & Hh & user & rest & Hm & Hu & Hrest).
    rewrite Hh, (replay_last _ _ Hsort). split; [done|]. by exists s', user, rest.
  - rewrite Hr in Hrun. apply (f_equal length) in Hrun. rewrite length_app in Hrun. cbn in Hrun. lia.
Qed.

(** ** No message is lost *)

Definition bus_ready (b : EventBus payload) : Prop :=
  closed b = false /\ persist b = true /\ Forall (chan_open b) (subs_of b EventChannelMessage ++ subs_of b "*").

(** The same bus but for its buffers and its count of lost events. *)
Definition bus_grown (b b' : EventBus payload) : Prop :=
  subscribers b' = subscribers b /\ closed b' = closed b /\ persist b' = persist b /\ forall ch, chan_open b ch -> chan_open b' ch.

#[local] Instance bus_grown_preorder : PreOrder bus_grown.
Proof.
  unfold bus_grown. split; [by intros b|]. intros b1 b2 b3 (A1 & A2 & A3 & A4) (B1 & B2 & B3 & B4). rewrite B1, B2, B3, A1, A2, A3. auto 10.
Qed.

Lemma bus_ready_grown b b' : bus_ready b -> bus_grown b b' -> bus_ready b'.
Proof.
  intros (Hc & Hp & Ho) (Hs & Hc' & Hp' & Ho'). unfold bus_ready, subs_of. rewrite Hs, Hc', Hp'. split; [done|]. split; [done|].
  eapply Forall_impl; [exact Ho|]. exact Ho'.
Qed.

Lemma grown_at b ch c c' : chans b !! ch = Some c -> chan_closed c' = chan_closed c -> bus_grown b (set_chans b (<[ch := c']> (chans b))).
Proof.
  intros Hc Hcl. split; [done|]. split; [done|]. split; [done|]. intros i (x & Hx & Ho). destruct (decide (ch = i)) as [<-|Hne].
  - exists c'. cbn. rewrite list_lookup_insert_eq by (by eapply lookup_lt_Some). split; [done|]. congruence.
  - exists x. cbn. by rewrite list_lookup_insert_ne.
Qed.

Lemma offer_grown ev b ch : chan_open b ch -> exists b', offer ev b ch = Ok b' /\ bus_grown b b'.
Proof.
  intros (c & Hc & Ho). unfold offer. rewrite Hc, Ho. case_match; eexists; (split; [reflexivity|]); [by apply (grown_at b ch c)|done].
Qed.
Lemma offer_all_grown ev subs b : Forall (chan_open b) subs -> exists b', offer_all ev b subs = Ok b' /\ bus_grown b b'.
Proof.
  revert b. induction subs as [|ch subs IH]; intros b Ho; cbn [offer_all]; [by exists b|]. apply Forall_cons in Ho as [Hch Ho].
  destruct (offer_grown ev b ch Hch) as (b1 & -> & H1'). cbn [mbind result_bind]. destruct (IH b1) as (b2 & -> & H2').
  - eapply Forall_impl; [exact Ho|]. apply H1'.
  - exists b2. split; [done|]. by transitivity b1.
Qed.
Lemma fan_out_grown ev b : bus_ready b -> EType ev = EventChannelMessage -> exists b', fan_out ev b = Ok b' /\ bus_grown b b'.
Proof.
  intros (Hc & _ & Ho) Hty. unfold fan_out. rewrite Hc, Hty. apply Forall_app in Ho as [Ho1 Ho2].
  destruct (offer_all_grown ev _ b Ho1) as (b1 & -> & H1'). cbn [mbind result_bind].
  destruct (offer_all_grown ev (subs_of b1 "*") b1) as (b2 & -> & H2').
  - unfold subs_of in *. destruct H1' as (-> & _ & _ & H1'). eapply Forall_impl; [exact Ho2|exact H1'].
  - exists b2. split; [done|]. by transitivity b1.
Qed.
Lemma Receive_grown ch b : bus_grown b (Receive ch b).2 /\ (chan_open b ch -> (Receive ch b).1 <> Ended).
Proof.
  unfold Receive. destruct (chans b !! ch) as [c|] eqn:Hc; [|done]. destruct (buffer c) as [|ev rest].
  - split; [done|]. intros (x & Hx & Ho). rewrite Hx in Hc. injection Hc as ->. by rewrite Ho.
  - split; [by apply (grown_at b ch c)|done].
Qed.

(** Whom the guard lets through now, it lets through after whatever the router
    does: it changes no policy and no account, and takes no sender off. *)
Definition pairing_kept (p p' : PairingManager) : Prop :=
  policies p' = policies p /\ forall ch s, IsAuthorized ch s p = true -> IsAuthorized ch s p' = true.
#[local] Instance pairing_kept_preorder : PreOrder pairing_kept.
Proof. unfold pairing_kept. split; [done|]. intros p1 p2 p3 [A1 A2] [B1 B2]. split; [congruence|auto]. Qed.
Lemma pairing_kept_same p p' : policies p' = policies p -> users p' = users p -> pairing_kept p p'.
Proof. intros Hp Hu. split; [done|]. intros ch s. unfold IsAuthorized. by rewrite Hu. Qed.
Lemma pairing_kept_insert k u p p' : policies p' = policies p -> users p' = <[k := u]> (users p) -> UStatus u = "active" -> pairing_kept p p'.
Proof.
  intros Hp Hu Hs. split; [done|]. intros ch s. unfold IsAuthorized. rewrite Hu. destruct (decide (k = pairingKey ch s)) as [<-|Hk].
  - rewrite lookup_insert_eq. intros _. by rewrite bool_decide_eq_true_2.
  - by rewrite lookup_insert_ne.
Qed.
Lemma exec_kept f : (forall p, pairing_kept p (f p)) -> keeps pairing_kept (exec f).
Proof. intros Hf. unfold exec. keeps_go. apply Hf. Qed.
#[local] Hint Extern 5 (keeps pairing_kept (exec _)) => (apply exec_kept; intros ?; by apply pairing_kept_same) : keeps.

Lemma TouchUser_kept ch s : keeps pairing_kept (TouchUser ch s).
Proof.
  intros p e. unfold TouchUser. apply wp_bind, wp_get. destruct (users p !! _) as [u|] eqn:Hu; [|apply wp_ret; reflexivity].
  apply wp_bind, wp_now. intros e1 _ _. apply wp_bind, wp_modify, wp_ignore.
  eapply wp_keeps; [apply exec_kept; intros q; by apply pairing_kept_same|]. intros _ p' e' Hp'. etransitivity; [|exact Hp'].
  split; [done|]. intros ch' s'. unfold IsAuthorized. cbn [users with_users]. destruct (decide (pairingKey ch s = pairingKey ch' s')) as [<-|Hk].
  - by rewrite lookup_insert_eq, Hu.
  - by rewrite lookup_insert_ne.
Qed.
Lemma NoteUnpaired_kept ch s n c : keeps pairing_kept (NoteUnpaired ch s n c).
Proof. unfold NoteUnpaired. keeps_go. by apply pairing_kept_same. Qed.
Lemma ValidateAndPair_kept ch c s n : keeps pairing_kept (ValidateAndPair ch c s n).
Proof.
  assert (Hopen : forall k t p, pairing_kept p (open_window k t p)).
  { intros k t p. unfold open_window. destruct (failWindow p !! k); [destruct (_ <? _)|]; by apply pairing_kept_same. }
  unfold ValidateAndPair. cbv zeta. keeps_go; first [apply Hopen|by apply pairing_kept_same|by eapply pairing_kept_insert].
Qed.
#[local] Hint Resolve TouchUser_kept NoteUnpaired_kept ValidateAndPair_kept : keeps.
Lemma enforcePairing_kept a m : keeps pairing_kept (enforcePairing a m).
Proof. unfold enforcePairing. cbv zeta. keeps_go. Qed.

Definition doors_kept (r r' : MessageRouter) : Prop :=
  guard_accounts r' = guard_accounts r /\
  match r_pairing r, r_pairing r' with None, None => True | Some p, Some p' => pairing_kept p p' | _, _ => False end.
#[local] Instance doors_kept_preorder : PreOrder doors_kept.
Proof.
  unfold doors_kept. split.
  - intros r. split; [done|]. destruct (r_pairing r); [reflexivity|done].
  - intros r1 r2 r3 [A1 A2] [B1 B2]. split; [congruence|].
    destruct (r_pairing r1), (r_pairing r2), (r_pairing r3); try done. by etransitivity.
Qed.
Lemma doors_same r r' : guard_accounts r' = guard_accounts r -> r_pairing r' = r_pairing r -> doors_kept r r'.
Proof. intros Ha Hp. split; [done|]. rewrite Hp. destruct (r_pairing r); [reflexivity|done]. Qed.

Lemma doors_welcome r r' m : doors_kept r r' -> welcome r m -> welcome r' m.
Proof.
  unfold doors_kept, welcome. intros [Ha Hp]. destruct (r_pairing r) as [p|], (r_pairing r') as [p'|]; try done.
  destruct Hp as [Hpol Hau]. rewrite Ha. intros [Hr|Hr]; [left|right; by apply Hau].
  unfold pairingRequired, ChannelRequiresPairing in *. by rewrite Hpol.
Qed.

Lemma keeps_within {S X A} view upd (m : io S X A) (Rs : S -> S -> Prop) :
  keeps Rs m -> (forall r s s', view r = Some s -> Rs s s' -> doors_kept r (upd (Some s') r)) -> keeps doors_kept (within view upd m).
Proof.
  intros Hm Hr r e. apply wp_within. destruct (view r) as [s|] eqn:Hv; [|reflexivity].
  eapply wp_keeps; [exact Hm|]. intros x s' e' Hs. by apply (Hr r s s').
Qed.
Lemma keeps_any {S X A} (m : io S X A) : keeps (fun _ _ => True) m.
Proof. intros s e. unfold wp. by destruct (m s e) as [? [? ?]]. Qed.
Lemma send_all_accounts target msg l : keeps (fun m m' : ChannelManager => accounts m' = accounts m) (send_all target msg l).
Proof.
  assert (PreOrder (fun m m' : ChannelManager => accounts m' = accounts m)) by (split; [done|intros m1 m2 m3 ? ?; congruence]).
  induction l as [|[name a] l IH]; cbn [send_all]; keeps_go; done.
Qed.
Lemma SendMessage_accounts msg : keeps (fun m m' : ChannelManager => accounts m' = accounts m) (SendMessage msg).
Proof.
  assert (PreOrder (fun m m' : ChannelManager => accounts m' = accounts m)) by (split; [done|intros m1 m2 m3 ? ?; congruence]).
  pose proof send_all_accounts. unfold SendMessage, ranged. cbv zeta. keeps_go; auto.
Qed.
Lemma on_mgr_doors msg : keeps doors_kept (on_mgr (SendMessage msg)).
Proof.
  eapply keeps_within; [apply SendMessage_accounts|]. intros r m m' Hm Ha. apply doors_same; [|done].
  unfold guard_accounts. cbn. rewrite Hm. cbn. by rewrite Ha.
Qed.
Lemma on_sessions_doors {A} (m : sop A) : keeps doors_kept (on_sessions m).
Proof. eapply keeps_within; [apply keeps_any|]. intros r s s' _ _. by apply doors_same. Qed.
Lemma on_inbound_doors {A} (m : qop A) : keeps doors_kept (on_inbound m).
Proof. eapply keeps_within; [apply keeps_any|]. intros r s s' _ _. by apply doors_same. Qed.
Lemma on_pairing_doors a m : keeps doors_kept (on_pairing (enforcePairing a m)).
Proof. eapply keeps_within; [apply enforcePairing_kept|]. intros r p p' Hp Hk. split; [done|]. cbn. by rewrite Hp. Qed.
#[local] Hint Resolve on_mgr_doors on_sessions_doors on_inbound_doors on_pairing_doors : keeps.

Lemma dispatch_doors msg : keeps doors_kept (dispatch msg).
Proof. unfold dispatch. keeps_go. Qed.
Lemma replyPairing_doors msg c : keeps doors_kept (replyPairing msg c).
Proof. unfold replyPairing. keeps_go. Qed.
Lemma save_doors c a ro t l : keeps doors_kept (save c a ro t l).
Proof. unfold save. keeps_go. Qed.
#[local] Hint Resolve dispatch_doors replyPairing_doors save_doors : keeps.
Lemma repeat_dispatch_doors n f : keeps doors_kept (repeat_dispatch n f).
Proof. induction n as [|n IH]; cbn [repeat_dispatch]; keeps_go. Qed.
#[local] Hint Resolve repeat_dispatch_doors : keeps.
Lemma Route_doors msg : keeps doors_kept (Route msg).
Proof. unfold Route, guard, turn, talk, run_engine, ResolveAgent. cbv zeta. keeps_go; by apply doors_same. Qed.
#[local] Hint Resolve Route_doors : keeps.
Lemma route_logged_doors msg : keeps doors_kept (route_logged msg).
Proof. unfold route_logged. keeps_go. Qed.
#[local] Hint Resolve route_logged_doors : keeps.
Lemma drain_doors : keeps doors_kept drainInboundQueue.
Proof. unfold drainInboundQueue. keeps_go. Qed.
#[local] Hint Resolve drain_doors : keeps.
Lemma loop_step_doors o : keeps doors_kept (loop_step o).
Proof. unfold loop_step. keeps_go; by apply doors_same. Qed.
Lemma PublishEvent_doors ev : keeps doors_kept (PublishEvent ev).
Proof.
  unfold PublishEvent, Publish, persist_hook, on_bus. keeps_go; try by apply doors_same.
Qed.

(** A router that is started, with a queue and an engine; [l] are the messages
    that wait. *)
Definition live (l : list InboundMessage) (r : MessageRouter) (e : env) : Prop :=
  faults e = [] /\ r_engine r = true /\ bus_ready (r_bus r) /\
  (exists c d, r_subs r = Some (c, d) /\ chan_open (r_bus r) c /\ chan_open (r_bus r) d) /\
  exists q, r_inbound r = Some q /\ table_ok q e /\ waiting q l.

(** Messages as the queue hands them out, that call for an agent. *)
Definition routable (m : InboundMessage) : Prop := NormalizeInbound m = m /\ IsControlEvent m = false /\ IChannelID m <> "".

(** The run that works on the message. *)
Definition works_on (m : InboundMessage) (run : Run) : Prop := RunPrompt run = chat_meta m (ConversationID m) +:+ IContent m /\ may_run (RunAgent run).

Lemma live_frame l r e r' e' : live l r e -> onward e e' -> frame r r' -> live l r' e'.
Proof.
  intros (Hf & Heng & Hb & Hs & q & Hq & Hok & Hw) He (F1 & F2 & F3 & F4). unfold live. rewrite F1, F2, F3, F4.
  split; [by apply He|]. split; [done|]. split; [done|]. split; [done|]. exists q. split; [done|]. split; [by eapply table_ok_onward|done].
Qed.

Lemma live_bus l r e b : live l r e -> bus_grown (r_bus r) b -> live l (set_r_bus b r) e.
Proof.
  intros (Hf & Heng & Hb & (c & d & Hs & Hc & Hd) & Hq) Hg. split; [done|]. split; [done|].
  split; [by eapply bus_ready_grown|]. split; [|exact Hq]. exists c, d. split; [done|]. split; by apply Hg.
Qed.

Lemma wp_doors {A} (m : rop A) (P Q : result route_error A -> MessageRouter -> env -> Prop) r e :
  keeps doors_kept m -> wp m P r e -> (forall res r' e', P res r' e' -> doors_kept r r' -> Q res r' e') -> wp m Q r e.
Proof. intros Hm HP HQ. specialize (Hm r e). unfold wp in *. destruct (m r e) as [res [r' e']]. auto. Qed.

(** Messages that call for an agent and that the guard lets through. *)
Definition invited (r : MessageRouter) (l : list InboundMessage) : Prop := Forall routable l /\ Forall (welcome r) l.
Lemma invited_doors r r' l : doors_kept r r' -> invited r l -> invited r' l.
Proof. intros Hd [Hr Hw]. split; [done|]. eapply Forall_impl; [exact Hw|]. intros m. by apply doors_welcome. Qed.
Lemma invited_app r l l' : invited r (l ++ l') <-> invited r l /\ invited r l'.
Proof. unfold invited. rewrite !Forall_app. tauto. Qed.
Lemma invited_drop r n l : invited r l -> invited r (drop n l).
Proof. intros [? ?]. by split; apply Forall_drop. Qed.
Lemma invited_take r n l : invited r l -> invited r (take n l).
Proof. intros [? ?]. by split; apply Forall_take. Qed.

Lemma route_logged_wp m l r e : live l r e -> routable m -> welcome r m ->
  wp (route_logged m) (fun res r' e' => res = Ok tt /\ live l r' e' /\ exists run, r_runs r' = r_runs r ++ [run] /\ works_on m run) r e.
Proof.
  intros Hl (Hn & Hctl & Hch) Hwel. unfold route_logged. apply wp_bind, wp_attempt. eapply wp_mono; [apply Route_wp|]. rewrite Hn. cbv beta.
  intros res r' e' (He & Hf & Hor). assert (Heng : r_engine r = true) by apply Hl.
  destruct Hor as [(run & Hruns & _ & _ & Hrun & Hnp & _)|[_ Hwhy]]; [|exfalso; destruct Hwhy as [?|[?|[?|?]]]; congruence || auto].
  assert (Hend : live l r' e' /\ exists run, r_runs r' = r_runs r ++ [run] /\ works_on m run).
  { split; [by eapply live_frame; eauto|]. exists run. split; [done|]. destruct Hrun as (Hag & _ & Hpr & _). by split. }
  destruct res as [[]|[]]; try (by apply wp_ret). done.
Qed.

Lemma route_items_wp (items : list QueuedInbound) l r e : live l r e -> invited r (QMessage <$> items) ->
  wp (for_each (fun item => route_logged (QMessage item)) items) (fun res r' e' => res = Ok tt /\ live l r' e' /\
    exists runs, r_runs r' = r_runs r ++ runs /\ Forall2 works_on (QMessage <$> items) runs) r e.
Proof.
  revert r e. induction items as [|item items IH]; intros r e Hl Hm; cbn [for_each].
  - apply wp_ret. split; [done|]. split; [done|]. exists []. rewrite app_nil_r. split; [done|constructor].
  - rewrite fmap_cons in Hm. apply (invited_app _ [_]) in Hm as [[Hi Hwi] Hm]. apply Forall_cons in Hi as [Hi _], Hwi as [Hwi _].
    apply wp_bind. eapply wp_doors; [apply route_logged_doors|by apply (route_logged_wp _ l)|]. cbv beta.
    intros res r1 e1 (-> & Hl1 & run & Hr1 & Hw) Hd. eapply wp_mono; [apply IH; [done|by eapply invited_doors]|]. cbv beta.
    intros res r2 e2 (-> & Hl2 & runs & Hr2 & Hws).
    split; [done|]. split; [done|]. exists (run :: runs). rewrite Hr2, Hr1, <- app_assoc. split; [done|]. cbn. by constructor.
Qed.

Lemma drain_wp l r e : live l r e -> invited r l ->
  wp drainInboundQueue (fun res r' e' => res = Ok tt /\ live (drop 32 l) r' e' /\
    exists runs, r_runs r' = r_runs r ++ runs /\ Forall2 works_on (take 32 l) runs) r e.
Proof.
  intros Hl Hm. destruct Hl as (Hf & Heng & Hb & Hs & q & Hq & Hok & Hw). unfold drainInboundQueue. apply wp_bind, wp_within. rewrite Hq.
  eapply wp_mono; [by apply (Claim_wp 32)|]. cbv beta. intros res q' e' (He & ids & -> & Hres & Hit).
  specialize (Hres (proj1 Hw) Hf). destruct res as [items|x]; [|discriminate Hres]. destruct (Hit items eq_refl) as [Hitems ->].
  rewrite (proj1 Hw) in Hitems. subst items. destruct (waiting_items q l 32 Hw) as [Hms Hids]. cbv beta iota.
  eapply wp_mono; [apply (route_items_wp _ (drop 32 l))|].
  - split; [by apply He|]. split; [done|]. split; [done|]. split; [done|]. eexists. split; [reflexivity|].
    rewrite Hids. split; [eapply table_ok_onward; [by apply ack_ids_ok|done]|]. split; [apply Hw|]. change (batch 32) with 32%nat.
    rewrite (unacked_after q e 32 Hok). apply Forall2_drop, Hw.
  - rewrite Hms. by apply (invited_take r).
  - cbv beta. intros res r' e2 (-> & Hl2 & runs & Hr & Hws). rewrite Hms in Hws. split; [done|]. split; [done|]. by exists runs.
Qed.

(** ** Publishing and the loop *)

Lemma PersistEvent_type ev q e : wp (PersistEvent ev) (fun res _ _ => forall ev', res = Ok ev' -> EType ev' = EType ev) q e.
Proof.
  unfold PersistEvent. destruct (negb _); [apply wp_ret; by intros ? [= ->]|]. destruct (EPayload ev) as [msg| |]; try (apply wp_ret; by intros ? [= ->]).
  apply wp_bind. apply (wp_mono _ (fun _ _ _ => True)); [unfold wp; by destruct (Enqueue _ _ _) as [? []]|].
  intros [id|x] q' e' _; [apply wp_ret; by intros ? [= <-]|done].
Qed.

(** An event of the channels with a message that calls for an agent. *)
Definition channel_event (ev : Event payload) (m : InboundMessage) : Prop :=
  EType ev = EventChannelMessage /\ exists msg, EPayload ev = PInbound msg /\ m = NormalizeInbound msg /\
  wf_message m /\ IsControlEvent m = false /\ IChannelID m <> "".

Lemma channel_event_routable ev m : channel_event ev m -> routable m.
Proof. intros (_ & msg & _ & -> & _ & Hctl & Hch). split; [apply inbound_again|done]. Qed.

Lemma PublishEvent_wp ev m l r e : live l r e -> channel_event ev m ->
  wp (PublishEvent ev) (fun res r' e' => res = Ok tt /\ live (l ++ [m]) r' e' /\ r_runs r' = r_runs r) r e.
Proof.
  intros (Hf & Heng & Hb & Hs & q & Hq & Hok & Hw) (Hty & msg & Hmsg & Hm & Hwf & _). unfold PublishEvent, Publish.
  apply wp_bind, wp_get. cbv beta iota. cbn [bus_of router_bus]. assert (Hb' := Hb). destruct Hb' as (Hcl & Hper & Hopen). rewrite Hcl, Hper.
  apply wp_bind, wp_bind, wp_attempt. unfold persist_hook. apply wp_bind, wp_within. rewrite Hq.
  assert (Htype := PersistEvent_type ev q e). eapply wp_mono; [apply wp_and; [exact Htype|by apply PersistEvent_wp]|]. cbv beta.
  intros res q' e' (Hres & He & Hok' & _ & Hrow). specialize (Hrow (proj1 Hw) Hf). unfold published in Hrow.
  rewrite bool_decide_eq_true_2 in Hrow by done. rewrite Hmsg in Hrow. destruct Hrow as (row & -> & Ha & Hj). cbv beta iota.
  set (r1 := set_inbound _ r).
  assert (Hl1 : live (l ++ [m]) r1 e').
  { split; [by apply He|]. split; [done|]. split; [done|]. split; [done|]. eexists. split; [reflexivity|]. split; [done|].
    apply (waiting_app q e'); try done; [by eapply table_ok_onward|by rewrite Hm|rewrite Hm; apply inbound_again]. }
  assert (Hspread : forall ev', EType ev' = EType ev ->
    wp (on_bus (fun _ => RoutePanic) (fan_out ev')) (fun res r' e' => res = Ok tt /\ live (l ++ [m]) r' e' /\ r_runs r' = r_runs r) r1 e').
  { intros ev' Hev'. unfold on_bus. apply wp_bind, wp_get. cbv beta iota. change (bus_of r1) with (r_bus r1). destruct (fan_out_grown ev' (r_bus r1)) as (b & -> & Hg); [done|congruence|].
    apply wp_modify. split; [done|]. split; [by apply live_bus|done]. }
  destruct res as [ev'|x]; cbv beta iota; [apply wp_ret|apply wp_throw]; apply wp_ret; cbv beta iota; apply Hspread; auto.
Qed.

(** A publication by an adapter, or a turn of the loop. *)
Inductive wake := WPublish (ev : Event payload) (m : InboundMessage) | WLoop (o : loop_event).
Definition wake_ok (w : wake) : Prop := match w with WPublish ev m => channel_event ev m | WLoop _ => True end.
Definition wakes_for (ws : list wake) : list InboundMessage := omap (fun w : wake => match w with WPublish _ m => Some m | WLoop _ => None end) ws.

(** The loop, as long as it goes on, among publications. *)
Fixpoint run_wakes (ws : list wake) : rop bool :=
  match ws with
  | [] => mret true
  | WPublish ev _ :: rest => _ ← PublishEvent ev; run_wakes rest
  | WLoop o :: rest => go ← loop_step o; if (go : bool) then run_wakes rest else mret false
  end.

(** Some of the waiting messages are worked on, in order. *)
Definition advanced (l : list InboundMessage) (r : MessageRouter) (l' : list InboundMessage) (r' : MessageRouter) : Prop :=
  exists worked runs, l = worked ++ l' /\ r_runs r' = r_runs r ++ runs /\ Forall2 works_on worked runs.

Lemma advanced_none l r r' : r_runs r' = r_runs r -> advanced l r l r'.
Proof. intros Hr. exists [], []. rewrite app_nil_r. split; [done|]. split; [done|constructor]. Qed.
Lemma advanced_drain l r r' : (exists runs, r_runs r' = r_runs r ++ runs /\ Forall2 works_on (take 32 l) runs) -> advanced l r (drop 32 l) r'.
Proof. intros (runs & Hr & Hw). exists (take 32 l), runs. by rewrite take_drop. Qed.
Lemma advanced_same_runs l r0 r l' r' : r_runs r0 = r_runs r -> advanced l r0 l' r' -> advanced l r l' r'.
Proof. intros Heq (w & runs & Hl & Hr & Hw). exists w, runs. by rewrite Hr, Heq. Qed.

Lemma loop_step_wp o l r e : live l r e -> invited r l ->
  wp (loop_step o) (fun res r' e' => res = Ok true /\ exists l', live l' r' e' /\ advanced l r l' r' /\ (o = TickerFires -> l' = drop 32 l)) r e.
Proof.
  intros Hl Hm. unfold loop_step. apply wp_bind, wp_get. cbv beta iota. assert (Hl' := Hl). destruct Hl' as (_ & _ & _ & (c & d & -> & Hc & Hd) & q & Hq & _).
  assert (Hdrain : forall r0, live l r0 e -> r_runs r0 = r_runs r -> doors_kept r r0 ->
    wp (_ ← drainInboundQueue; mret true : rop bool) (fun res r' e' => res = Ok true /\ exists l', live l' r' e' /\ advanced l r l' r' /\ (o = TickerFires -> l' = drop 32 l)) r0 e).
  { intros r0 Hl0 Hr0 Hd0. apply wp_bind. eapply wp_mono; [apply (drain_wp l); [done|by eapply invited_doors]|]. cbv beta. intros res r' e' (-> & Hl' & Hruns). cbv beta iota. apply wp_ret. split; [done|].
    exists (drop 32 l). split; [done|]. split; [|done]. apply (advanced_same_runs _ r0); [done|]. by apply advanced_drain. }
  destruct o.
  - by apply Hdrain.
  - destruct (Receive_grown c (r_bus r)) as [Hg Hne]. specialize (Hne Hc). destruct (Receive c (r_bus r)) as [got b]. cbn [fst snd] in Hg, Hne.
    apply wp_bind, wp_modify. cbv beta iota. assert (Hlb := live_bus l r e b Hl Hg).
    assert (Hstay : wp (mret true : rop bool) (fun res r' e' => res = Ok true /\ exists l', live l' r' e' /\ advanced l r l' r' /\ (ChannelReady = TickerFires -> l' = drop 32 l)) (set_r_bus b r) e).
    { apply wp_ret. split; [done|]. exists l. split; [done|]. split; [by apply advanced_none|done]. }
    destruct got as [ev| |]; [|done|exact Hstay]. destruct (EPayload ev); [|exact Hstay..]. rewrite Hq. apply Hdrain; [done|done|by apply doors_same].
  - destruct (Receive_grown d (r_bus r)) as [Hg Hne]. specialize (Hne Hd). destruct (Receive d (r_bus r)) as [got b]. cbn [fst snd] in Hg, Hne.
    apply wp_bind, wp_modify. cbv beta iota. assert (Hlb := live_bus l r e b Hl Hg).
    assert (Hstay : wp (mret true : rop bool) (fun res r' e' => res = Ok true /\ exists l', live l' r' e' /\ advanced l r l' r' /\ (DoneReady = TickerFires -> l' = drop 32 l)) (set_r_bus b r) e).
    { apply wp_ret. split; [done|]. exists l. split; [done|]. split; [by apply advanced_none|done]. }
    destruct got as [ev| |]; [|done|exact Hstay]. destruct (EPayload ev) as [| p|]; [exact Hstay| |exact Hstay]. case_bool_decide; [|exact Hstay].
    apply wp_bind, on_mgr_send. intros x r' e' Ho He. cbv beta iota. apply wp_ret. split; [done|]. exists l. apply only_mgr_steady in Ho as [(Hf & Hp' & _) Hr].
    split; [eapply live_frame; [exact Hlb|done|done]|]. split; [by apply advanced_none|done].
Qed.

Lemma run_wakes_wp ws l r e : live l r e -> invited r (l ++ wakes_for ws) -> Forall wake_ok ws ->
  wp (run_wakes ws) (fun res r' e' => res = Ok true /\ exists l', live l' r' e' /\ invited r' l' /\ advanced (l ++ wakes_for ws) r l' r') r e.
Proof.
  revert l r e. induction ws as [|w ws IH]; intros l r e Hl Hm Hws; cbn [run_wakes].
  - apply wp_ret. split; [done|]. exists l. cbn in *. rewrite app_nil_r in *. split; [done|]. split; [done|]. by apply advanced_none.
  - apply Forall_cons in Hws as [Hw Hws]. destruct w as [ev m|o]; apply wp_bind.
    + eapply wp_doors; [apply PublishEvent_doors|by apply (PublishEvent_wp ev m l)|]. cbv beta. intros res r1 e1 (-> & Hl1 & Hr1) Hd. cbv beta iota.
      assert (Hm1 : invited r1 ((l ++ [m]) ++ wakes_for ws)).
      { rewrite <- app_assoc. by eapply invited_doors. }
      eapply wp_mono; [by apply (IH (l ++ [m]))|]. cbv beta. intros res r2 e2 (-> & l' & Hl2 & Hm2 & Hadv). split; [done|]. exists l'. split; [done|]. split; [done|].
      rewrite <- app_assoc in Hadv. by apply (advanced_same_runs _ r1).
    + change (wakes_for (WLoop o :: ws)) with (wakes_for ws) in *.
      eapply wp_doors; [apply loop_step_doors|apply (loop_step_wp o l); [done|by apply invited_app in Hm as [? _]]|]. cbv beta.
      intros res r1 e1 (-> & l1 & Hl1 & (w1 & runs1 & -> & Hr1 & Hw1) & _) Hd. cbv beta iota.
      assert (Hm1 : invited r1 (l1 ++ wakes_for ws)).
      { eapply invited_doors; [exact Hd|]. rewrite <- app_assoc in Hm. by apply invited_app in Hm as [_ ?]. }
      eapply wp_mono; [by apply (IH l1)|]. cbv beta.
      intros res r2 e2 (-> & l' & Hl2 & Hm2 & w2 & runs2 & Heq & Hr2 & Hw2). split; [done|]. exists l'. split; [done|]. split; [done|].
      exists (w1 ++ w2), (runs1 ++ runs2). rewrite <- !app_assoc, Heq, Hr2, Hr1, <- app_assoc.
      split; [done|]. split; [done|]. by apply Forall2_app.
Qed.

Lemma run_wakes_app ws ws' r e : run_wakes (ws ++ ws') r e = (go ← run_wakes ws; if (go : bool) then run_wakes ws' else mret false : rop bool) r e.
Proof.
  revert r e. induction ws as [|w ws IH]; intros r e; [done|]. cbn [app run_wakes]. unfold mbind, io_bind in *.
  destruct w as [ev m|o].
  - destruct (PublishEvent ev r e) as [[u|x] [r1 e1]]; [apply IH|done].
  - destruct (loop_step o r e) as [[[]|x] [r1 e1]]; [apply IH|done|done].
Qed.

Definition ticks_of (k : nat) : list wake := replicate k (WLoop TickerFires).

Lemma ticks_wp k l r e : live l r e -> invited r l ->
  wp (run_wakes (ticks_of k)) (fun res r' e' => res = Ok true /\ live (drop (32 * k) l) r' e' /\ advanced l r (drop (32 * k) l) r') r e.
Proof.
  revert l r e. induction k as [|k IH]; intros l r e Hl Hm; cbn [ticks_of replicate run_wakes].
  - apply wp_ret. cbn. split; [done|]. split; [done|by apply advanced_none].
  - apply wp_bind. eapply wp_doors; [apply loop_step_doors|by apply (loop_step_wp TickerFires l)|]. cbv beta. intros res r1 e1 (-> & l1 & Hl1 & (w1 & runs1 & Heq1 & Hr1 & Hw1) & Hd) Hdoors. cbv beta iota.
    specialize (Hd eq_refl). subst l1. eapply wp_mono; [apply (IH (drop 32 l)); [done|eapply invited_doors; [exact Hdoors|by apply invited_drop]]|]. cbv beta.
    rewrite drop_drop. replace (32 + 32 * k)%nat with (32 * S k)%nat by lia.
    intros res r2 e2 (-> & Hl2 & w2 & runs2 & Heq & Hr2 & Hw2). split; [done|]. split; [done|].
    exists (w1 ++ w2), (runs1 ++ runs2). rewrite <- app_assoc, <- Heq, Hr2, Hr1, <- app_assoc. split; [done|]. split; [done|]. by apply Forall2_app.
Qed.

(** C22. No message is lost while the database works.  Take a router that is
    started, with an open bus, a queue and an engine, and any messages waiting
    in the queue; let any messages of UTF-8 text be published that are no
    control events and name a channel, such that the guard lets all of them
    through as things are at the start: no pairing is required for them, or
    their sender is authorized.  Then, whatever publications and turns of the
    loop come in what order, and whatever the bus drops, every message gets a
    run of the engine, one each and in order, those that waited before those
    published, once the ticker has fired often enough (32 messages a time). *)
Theorem no_wake_lost l ws k r e :
  live l r e -> Forall wake_ok ws -> Forall routable l -> Forall (welcome r) (l ++ wakes_for ws) ->
  (length (l ++ wakes_for ws) <= 32 * k)%nat ->
  wp (run_wakes (ws ++ ticks_of k)) (fun res r' _ => res = Ok true /\
    exists runs, r_runs r' = r_runs r ++ runs /\ Forall2 works_on (l ++ wakes_for ws) runs) r e.
Proof.
  intros Hl Hws Hrl Hwel Hk. unfold wp at 1. rewrite run_wakes_app. apply wp_bind.
  assert (Hinv : invited r (l ++ wakes_for ws)).
  { split; [|done]. apply Forall_app. split; [done|]. clear -Hws. induction Hws as [|[ev m|o] ws Hw _ IH]; cbn; [constructor|constructor|exact IH].
    - by eapply channel_event_routable.
    - exact IH. }
  eapply wp_mono; [by apply (run_wakes_wp ws l)|]. cbv beta.
  intros res r1 e1 (-> & l1 & Hl1 & Hm1 & w1 & runs1 & Heq & Hr1 & Hw1). cbv beta iota. eapply wp_mono; [by apply (ticks_wp k l1)|]. cbv beta.
  intros res r2 e2 (-> & _ & w2 & runs2 & Heq2 & Hr2 & Hw2). split; [done|].
  assert (Hnil : drop (32 * k) l1 = []).
  { apply drop_ge. rewrite Heq, length_app in Hk. lia. }
  rewrite Hnil, app_nil_r in Heq2. subst w2. exists (runs1 ++ runs2). rewrite Hr2, Hr1, <- app_assoc. split; [done|].
  rewrite Heq. by apply Forall2_app.
Qed.
End spec.

(** ** Closed examples *)

#[local] Existing Instances ascii_tables demo_codec demo_uuid.
#[local] Instance demo_fold : Folding := {| simple_fold := fun _ _ => false |}.
#[local] Instance demo_order : MapRange := {| range_order := fun _ _ l => l; range_perm := fun _ _ _ => reflexivity _ |}.
#[local] Instance demo_adapters : Adapters := {| adapter_name := fun _ => "telegram"; adapter_send := fun _ _ _ => None |}.
#[local] Instance demo_calls : CallsCodec := {| encode_calls := fun _ => "null" |}.
#[local] Instance demo_agents : AgentProvider := {| list_agents := fun _ => Some [mkManifest "ag_1" "Helper" StatusActive false ["telegram"]] |}.
#[local] Instance demo_engine : EngineExecutor :=
  {| execute := fun _ _ _ prompt _ => Ok (Some (mkResponse ("re: " +:+ prompt) "" [] "stop" (mkUsage 1 1 2) "demo" [])); pulses := fun _ => 1%nat |}.

Definition demo_rows : list MessageRow :=
  [mkMessageRow "m1" "conv_telegram_7_ag_1" "ag_1" RoleUser "hello" "" 1; mkMessageRow "m2" "conv_telegram_7_ag_1" "ag_1" RoleAssistant "hi" "" 2].
Definition demo_sessions : ChannelSessionManager := mkSessions true ∅ demo_rows false [].
Definition demo_bus : EventBus payload :=
  SetPersist (Subscribe EventAgentActionDone (Subscribe EventChannelMessage NewEventBus).2).2.
Definition demo_router : MessageRouter :=
  mkRouter (Some NewChannelManager) (Some demo_sessions) None (Some (mkQueue true [])) demo_bus (Some (0%nat, 1%nat)) true [].

Definition demo_run : Run :=
  mkRun "ag_1" "conv_telegram_7_ag_1" (chat_meta (normal_text "7" "one") "7" +:+ "one") (omap replayed demo_rows).

Lemma conversation_grows_witness :
  exists res r' e' run, Route (normal_text "7" "one") demo_router (calm 5) = (res, (r', e')) /\ r_runs r' = [run] /\
    RunAgent run = "ag_1" /\ Content <$> RunHistory run = ["hello"; "hi"] /\
    exists s' user rest, r_sessionMgr r' = Some s' /\ messages s' = demo_rows ++ user :: rest /\ MsgContent user = "one".
Proof.
  destruct (Route (normal_text "7" "one") demo_router (calm 5)) as [res [r' e']] eqn:Hrun.
  assert (Hsort : StronglySorted (fun x y => MsgCreated x <= MsgCreated y) demo_rows) by (repeat constructor; cbn; lia).
  assert (Hwp := conversation_grows (normal_text "7" "one") demo_router (calm 5) demo_sessions eq_refl eq_refl eq_refl Hsort).
  unfold wp in Hwp. rewrite Hrun in Hwp. assert (Hruns : r_runs (Route (normal_text "7" "one") demo_router (calm 5)).2.1 = [demo_run]) by (vm_compute; reflexivity).
  rewrite Hrun in Hruns. cbn [fst snd] in Hruns. exists res, r', e', demo_run. split; [done|]. split; [exact Hruns|].
  destruct (Hwp demo_run Hruns) as (Hh & s' & user & rest & Hs' & Hm & (_ & _ & _ & Hu) & _).
  split; [vm_compute; reflexivity|]. split; [vm_compute; reflexivity|]. exists s', user, rest. split; [exact Hs'|]. split; [exact Hm|exact Hu].
Defined.

Definition demo_wakes : list wake :=
  [WPublish (inbound_event (plain_message "telegram" "7" "one")) (normal_text "7" "one"); WLoop DoneReady;
   WPublish (inbound_event (plain_message "telegram" "8" "two")) (normal_text "8" "two")].

(** The same router with pairing required, and the two senders paired. *)
Definition demo_paired : PairingManager :=
  with_policies {["telegram" := true]}
    (with_users (<["telegram:7" := mkUser "telegram" "7" "" 0 0 "active"]> {["telegram:8" := mkUser "telegram" "8" "" 0 0 "active"]})
       (fresh_manager true)).
Definition demo_guarded : MessageRouter := set_pairing (Some demo_paired) demo_router.

Lemma demo_live : live [] demo_guarded (calm 5).
Proof.
  assert (Hopen : forall ch, (ch < 2)%nat -> chan_open demo_bus ch).
  { intros [|[|ch]] Hch; [exists (mkChannel [] false); by split|exists (mkChannel [] false); by split|lia]. }
  split; [done|]. split; [done|]. split.
  - split; [done|]. split; [done|]. change (Forall (chan_open demo_bus) [0%nat]). constructor; [apply Hopen; lia|constructor].
  - split; [exists 0%nat, 1%nat; split; [done|]; split; apply Hopen; lia|]. exists (mkQueue true []). split; [done|]. split; [split; cbn; constructor|].
    split; [done|constructor].
Qed.

Lemma no_wake_lost_witness :
  wp (run_wakes (demo_wakes ++ ticks_of 1)) (fun res r' _ => res = Ok true /\
    exists runs, r_runs r' = runs /\ Forall2 works_on [normal_text "7" "one"; normal_text "8" "two"] runs) demo_guarded (calm 5).
Proof.
  assert (Hws : Forall wake_ok demo_wakes).
  { assert (Hone : forall s c, utf8 s -> utf8 c -> NormalizeInbound (plain_message "telegram" s c) = normal_text s c ->
      channel_event (inbound_event (plain_message "telegram" s c)) (normal_text s c)).
    { intros s c Hs Hc Hn. split; [done|]. exists (plain_message "telegram" s c). split; [done|]. split; [done|]. split; [by apply wf_normal_text|]. by split. }
    repeat (apply Forall_cons; split); [..|constructor]; cbn [wake_ok]; [apply Hone; try done; vm_compute; reflexivity|done|apply Hone; try done; vm_compute; reflexivity]. }
  assert (Hwel : Forall (welcome demo_guarded) [normal_text "7" "one"; normal_text "8" "two"]).
  { repeat constructor; right; vm_compute; reflexivity. }
  exact (no_wake_lost [] demo_wakes 1 demo_guarded (calm 5) demo_live Hws ltac:(constructor) Hwel ltac:(cbn; lia)).
Defined.

(** A message whose row could not be written is spread on the bus, but the
    loop looks in the table only: nobody works on it. *)
Example failed_insert_is_lost :
  let run := run_wakes ([WPublish (inbound_event (plain_message "telegram" "7" "one")) (normal_text "7" "one"); WLoop ChannelReady] ++ ticks_of 2) in
  r_runs (run demo_router (mkEnv [true] 5 [] 0)).2.1 = [] /\
  length <$> (buffer <$> chans (r_bus (run demo_router (mkEnv [true] 5 [] 0)).2.1)) = [0%nat; 0%nat].
Proof. vm_compute. by split. Qed.

(** Two senders of two agents share a conversation. *)
Example shared_conversation : session_id "telegram" "5" "a_b" = session_id "telegram" "5_a" "b".
Proof. reflexivity. Qed.
