(* ===== verification/FileEdit.v ===== *)
(** * Editing text in a file ([internal/tools/native_file_edit.go])

    [performFuzzyLineEdit] looks for the text to replace exactly, then line
    by line without trailing blanks, then without leading ones either, then
    without blank lines around it.

    The replacement of lines appends to slices of one array.  A slice is its
    elements and its capacity: an append that fits writes into the array,
    under the slices that share it; how far the runtime grows an array that
    is too small is the class [Growth]. *)

From S2P Require Import Prelude GoStrings GoText GoPath.
From Stdlib Require Import Ascii.
#[local] Open Scope Z_scope.

Definition LF : string := String (byte_of 10) "".
Definition CR : string := String (byte_of 13) "".

Class Growth := { grow : nat -> nat -> nat; grow_enough : forall c n, (n <= grow c n)%nat }.

Inductive edit_error :=
  | StartBeyond (start total : Z)
  | Ambiguous (count : nat)
  | NotFound (closest : option Z)
  | EditPanic.

(** [strings.Count(s, sub)] for [sub] not empty. *)
Fixpoint count_from (sub : string) (skip : nat) (s : string) : nat :=
  match s with
  | "" => 0
  | String _ s' =>
      match skip with
      | S k => count_from sub k s'
      | O => if has_prefix s sub then S (count_from sub (String.length sub - 1) s') else count_from sub 0 s'
      end
  end.
Definition Count (s sub : string) : nat := count_from sub 0 s.

(** [strings.Replace(s, old, new, 1)] *)
Definition replace_one (s old new : string) : string :=
  match index s old with
  | Some i => take_bytes i s +:+ new +:+ String.substring (i + String.length old) (String.length s - (i + String.length old)) s
  | None => s
  end.

Definition replace_found (allowMultiple : bool) (s old new : string) : string :=
  if allowMultiple then Replace [(old, new)] s else replace_one s old new.

Definition splitLines (s : string) : list string := split_byte (byte_of 10) s.
Definition splitCleanLines (s : string) : list string := splitLines (trim_suffix (trim_suffix s LF) CR).

Definition rebuildFullContent (lines : list string) (start stop : nat) (newSub : string) : string :=
  (if (1 <? start)%nat then join (take (start - 1) lines) LF +:+ LF else "") +:+ newSub +:+
  (if (stop <? length lines)%nat then LF +:+ join (drop stop lines) LF else "").

(** The places where the lines of the target stand, up to [norm]. *)
Definition fits_at (norm : string -> string) (subLines targetLines : list string) (i : nat) : bool :=
  bool_decide (norm <$> take (length targetLines) (drop i subLines) = norm <$> targetLines).
Definition line_matches (norm : string -> string) (subLines targetLines : list string) : list nat :=
  if (length targetLines <=? length subLines)%nat
  then filter (fun i => fits_at norm subLines targetLines i = true) (seq 0 (length subLines - length targetLines + 1))
  else [].

Definition trim_line_end (s : string) : string := trim_right s [32; 9; 13].

Section edit.
Context `{G : Growth}.

(** [append(append(newLines[:idx], repl...), newLines[idx+n:]...)]: when the
    first append fits, it writes over the lines the second one reads.  A
    slice past the end is a panic. *)
Definition splice (n : nat) (repl : list string) (x : list string * nat) (idx : nat) : option (list string * nat) :=
  let '(l, c) := x in
  if (length l <? idx + n)%nat then None
  else
    let '(head, c', l') :=
      if (idx + length repl <=? c)%nat
      then (take idx l ++ repl, c, take (length l) (take idx l ++ repl ++ drop (idx + length repl) l))
      else (take idx l ++ repl, grow c (idx + length repl), l) in
    let suffix := drop (idx + n) l' in
    let total := (length head + length suffix)%nat in
    Some (head ++ suffix, if (total <=? c')%nat then c' else grow c' total).

(** From the last match to the first. *)
Fixpoint splice_all (n : nat) (repl : list string) (x : list string * nat) (ms : list nat) : option (list string * nat) :=
  match ms with
  | [] => Some x
  | idx :: rest => x' ← splice n repl x idx; splice_all n repl x' rest
  end.

(** The two strategies by lines: [None] when nothing is found. *)
Definition by_lines (norm : string -> string) (subLines targetLines replLines : list string) (allowMultiple : bool) :
    option (result edit_error string) :=
  match line_matches norm subLines targetLines with
  | [] => None
  | ms =>
      if (1 <? length ms)%nat && negb allowMultiple then Some (Err (Ambiguous (length ms)))
      else
        Some (match splice_all (length targetLines) replLines (subLines, length subLines) (reverse (if allowMultiple then ms else take 1 ms)) with
              | None => Err EditPanic
              | Some (newLines, _) => Ok (join newLines LF)
              end)
  end.

(** The strategies by text. *)
Definition by_text (subContent target repl : string) (allowMultiple : bool) : option (result edit_error string) :=
  match Count subContent target with
  | O => None
  | S n => if (0 <? n)%nat && negb allowMultiple then Some (Err (Ambiguous (S n))) else Some (Ok (replace_found allowMultiple subContent target repl))
  end.

Definition closest (subLines targetLines : list string) (start : nat) : option Z :=
  match first_some (fun tl => if bool_decide (trim_space tl = "") then None else Some (trim_space tl)) targetLines with
  | None => None
  | Some first =>
      first_some (fun p : nat * string => if contains_str (trim_space p.2) first || contains_str first (trim_space p.2)
                              then Some (Z.of_nat (start + p.1)) else None) (imap pair subLines)
  end.

(** The first and the last line to look at. *)
Definition edit_range (total : nat) (startLine endLine : Z) : result edit_error (nat * nat) :=
  let total := Z.of_nat total in
  let start := if startLine <=? 0 then 1 else startLine in
  let stop := if (endLine <=? 0) || (total <? endLine) then total else endLine in
  if total <? start then Err (StartBeyond start total)
  else if stop <? start - 1 then Err EditPanic     (* lines[start-1:end] *)
  else Ok (Z.to_nat start, Z.to_nat stop).

Definition range_lines (lines : list string) (start stop : nat) : list string := take (stop - (start - 1)) (drop (start - 1) lines).

Definition performFuzzyLineEdit (normFile normTarget normRepl : string) (startLine endLine : Z) (allowMultiple : bool) :
    result edit_error string :=
  let lines := splitLines normFile in
  '(start, stop) ← edit_range (length lines) startLine endLine;
  let subLines := range_lines lines start stop in
  let subContent := join subLines LF in
  let targetLines := splitCleanLines normTarget in
  let replLines := splitCleanLines normRepl in
  let trimmedTarget := trim_chars normTarget [10; 13] in
  let strategies :=
    [by_text subContent normTarget normRepl allowMultiple;
     by_lines trim_line_end subLines targetLines replLines allowMultiple;
     by_lines trim_space subLines targetLines replLines allowMultiple;
     if negb (bool_decide (trimmedTarget = "")) && negb (bool_decide (trimmedTarget = normTarget))
     then by_text subContent trimmedTarget (trim_chars normRepl [10; 13]) allowMultiple else None] in
  match first_some id strategies with
  | Some (Ok newSub) => Ok (rebuildFullContent lines start stop newSub)
  | Some (Err e) => Err e
  | None => Err (NotFound (closest subLines targetLines start))
  end.

(** The edit of [FileEditTool.Execute], on the bytes of the file. *)
Definition normalize_newlines (s : string) : string := Replace [(CR +:+ LF, LF)] s.
Definition edit_content (data target replacement : string) (startLine endLine : Z) (allowMultiple : bool) : result edit_error string :=
  performFuzzyLineEdit (normalize_newlines data) (normalize_newlines target) (normalize_newlines replacement) startLine endLine allowMultiple.
End edit.
