(* ===== verification/FileEditSpec.v ===== *)
(** * What an edit does

    An exact match is replaced and nothing else; a match by lines is replaced
    by the new lines, but a longer replacement that fits into the lines that
    follow overwrites them. *)

From S2P Require Import Prelude GoStrings GoText GoPath FileEdit.
From Stdlib Require Import Ascii.
#[local] Open Scope Z_scope.

(** ** Lines *)

Lemma split_nonempty c s : split_byte c s <> [].
Proof. destruct s as [|a s]; cbn; [done|]. case_bool_decide; [done|]. by destruct (split_byte c s). Qed.

Lemma join_split c s : join (split_byte c s) (String c "") = s.
Proof.
  induction s as [|a s IH]; [done|]. cbn [split_byte]. assert (Hne := split_nonempty c s). case_bool_decide as Ha.
  - subst a. destruct (split_byte c s) as [|x l]; [done|]. cbn [join]. rewrite <- IH. done.
  - destruct (split_byte c s) as [|x l]; [done|]. rewrite <- IH. by destruct l.
Qed.

Lemma join_app l m sep : l <> [] -> m <> [] -> join (l ++ m) sep = join l sep +:+ sep +:+ join m sep.
Proof.
  intros Hl Hm. induction l as [|x l IH]; [done|]. destruct l as [|y l].
  - cbn. by destruct m.
  - change (x +:+ sep +:+ join ((y :: l) ++ m) sep = (x +:+ sep +:+ join (y :: l) sep) +:+ sep +:+ join m sep).
    rewrite IH by done. by rewrite !string_app_assoc.
Qed.

(** The text before the range, and after it. *)
Definition edit_before (f : string) (start : nat) : string :=
  if (1 <? start)%nat then join (take (start - 1) (splitLines f)) LF +:+ LF else "".
Definition edit_after (f : string) (stop : nat) : string :=
  if (stop <? length (splitLines f))%nat then LF +:+ join (drop stop (splitLines f)) LF else "".
Definition range_text (f : string) (start stop : nat) : string := join (range_lines (splitLines f) start stop) LF.

Lemma edit_range_ok f sl el s e : edit_range (length (splitLines f)) sl el = Ok (s, e) ->
  (1 <= s)%nat /\ (s <= length (splitLines f))%nat /\ (s <= S e)%nat /\ (e <= length (splitLines f))%nat.
Proof.
  assert (Hn : (0 < length (splitLines f))%nat).
  { unfold splitLines. assert (Hne := split_nonempty (byte_of 10) f). destruct (split_byte _ f); [done|cbn; lia]. }
  unfold edit_range. set (n := length (splitLines f)) in *. clearbody n.
  destruct (_ <? _) eqn:H1; [done|]. destruct (_ <? _ - 1) eqn:H2; [done|]. intros [= <- <-].
  apply Z.ltb_ge in H1, H2. destruct (sl <=? 0) eqn:H3; destruct ((el <=? 0) || (Z.of_nat n <? el)) eqn:H4;
    rewrite ?orb_false_iff, ?Z.leb_gt, ?Z.ltb_ge in *; lia.
Qed.

(** The file is the range between what is before and after it. *)
Lemma file_parts f s e : (1 <= s)%nat -> (s <= e)%nat -> (e <= length (splitLines f))%nat ->
  f = edit_before f s +:+ range_text f s e +:+ edit_after f e.
Proof.
  intros H1 H2 H3. rewrite <- (join_split (byte_of 10) f) at 1. fold LF. fold (splitLines f). unfold edit_before, edit_after, range_text, range_lines.
  set (l := splitLines f) in *. clearbody l. replace (e - (s - 1))%nat with (S (e - s)) by lia.
  assert (Hmid : take (S (e - s)) (drop (s - 1) l) <> []).
  { intros Heq. apply (f_equal length) in Heq. rewrite length_take, length_drop in Heq. change (length (@nil string)) with 0%nat in Heq. lia. }
  assert (Hl : l = take (s - 1) l ++ take (S (e - s)) (drop (s - 1) l) ++ drop e l).
  { replace (drop e l) with (drop (S (e - s)) (drop (s - 1) l)) by (rewrite drop_drop; f_equal; lia). by rewrite !take_drop. }
  rewrite Hl at 1. set (mid := take (S (e - s)) _) in *. clearbody mid.
  assert (Htail : join (mid ++ drop e l) LF = join mid LF +:+ (if (e <? length l)%nat then LF +:+ join (drop e l) LF else "")).
  { destruct (e <? length l)%nat eqn:He.
    - apply Nat.ltb_lt in He. apply join_app; [done|]. intros Heq. apply (f_equal length) in Heq. rewrite length_drop in Heq. change (length (@nil string)) with 0%nat in Heq. lia.
    - apply Nat.ltb_ge in He. rewrite drop_ge, app_nil_r, string_app_nil_r by lia. done. }
  destruct (1 <? s)%nat eqn:Hs.
  - apply Nat.ltb_lt in Hs. rewrite join_app, Htail, !string_app_assoc; [done| |].
    + intros Heq. apply (f_equal length) in Heq. rewrite length_take in Heq. change (length (@nil string)) with 0%nat in Heq. lia.
    + destruct mid; done.
  - apply Nat.ltb_ge in Hs. replace (s - 1)%nat with 0%nat by lia. cbn [take app]. exact Htail.
Qed.

(** ** Occurrences *)

Lemma take_bytes_front s t : take_bytes (String.length s) (s +:+ t) = s.
Proof. unfold take_bytes. induction s as [|a s IH]; [by destruct t|]. change (String a (String.substring 0 (String.length s) (s +:+ t)) = String a s). by rewrite IH. Qed.
Lemma substring_back s t : String.substring (String.length s) (String.length t) (s +:+ t) = t.
Proof. induction s as [|a s IH]; [apply substring_all|]. exact IH. Qed.

Lemma index_Some s sub i : index s sub = Some i -> exists a b, s = a +:+ sub +:+ b /\ String.length a = i.
Proof.
  revert i. induction s as [|c s IH]; intros i; cbn [index].
  - destruct (has_prefix "" sub) eqn:Hp; [|done]. intros [= <-]. apply has_prefix_spec in Hp as [b Hb]. by exists "", b.
  - destruct (has_prefix (String c s) sub) eqn:Hp.
    + intros [= <-]. apply has_prefix_spec in Hp as [b Hb]. by exists "", b.
    + destruct (index s sub) as [j|]; [|done]. intros [= <-]. destruct (IH j eq_refl) as (a & b & -> & <-). by exists (String c a), b.
Qed.

Lemma index_front s sub : has_prefix s sub = true -> index s sub = Some 0%nat.
Proof. intros Hp. destruct s; cbn [index]; by rewrite Hp. Qed.

(** What stands before the first occurrence, and after it. *)
Lemma replace_one_at a sub b new : index (a +:+ sub +:+ b) sub = Some (String.length a) -> replace_one (a +:+ sub +:+ b) sub new = a +:+ new +:+ b.
Proof.
  intros Hi. unfold replace_one. rewrite Hi, take_bytes_front. do 2 f_equal.
  assert (Hlen : (String.length a + String.length sub = String.length (a +:+ sub))%nat) by (by rewrite string_length_app).
  rewrite Hlen, <- string_app_assoc, (string_length_app (a +:+ sub) b).
  replace (String.length (a +:+ sub) + String.length b - String.length (a +:+ sub))%nat with (String.length b) by lia. apply substring_back.
Qed.

Lemma count_index s sub : sub <> "" -> Count s sub <> 0%nat -> exists i, index s sub = Some i.
Proof.
  intros Hne. unfold Count. induction s as [|c s IH]; cbn [count_from index]; [done|].
  destruct (has_prefix (String c s) sub); [intros _; by eexists|]. intros Hc. destruct (IH Hc) as [i ->]. by eexists.
Qed.

(** With one occurrence, replacing all and replacing the first are the same. *)
Lemma count_skip sub p s : count_from sub (String.length p) (p +:+ s) = count_from sub 0 s.
Proof. induction p as [|a p IH]; [done|]. exact IH. Qed.

Lemma replace_none old new s : old <> "" -> Count s old = 0%nat -> Replace [(old, new)] s = s.
Proof.
  intros Hne. unfold Count, Replace. induction s as [|c s IH]; [done|]. cbn [count_from replace_from]. unfold first_match. cbn [find fst].
  destruct (has_prefix (String c s) old); [done|]. intros Hc. by rewrite IH.
Qed.

Lemma replace_all_one s old new : old <> "" -> Count s old = 1%nat -> Replace [(old, new)] s = replace_one s old new.
Proof.
  intros Hne. induction s as [|c s IH]; [done|]. unfold Count, Replace. cbn [count_from replace_from]. unfold first_match. cbn [find fst].
  destruct (has_prefix (String c s) old) eqn:Hp.
  - apply has_prefix_spec in Hp as [b Hb]. destruct old as [|o old]; [done|]. injection Hb as -> Hb. subst s.
    cbn [String.length]. rewrite ?Nat.sub_succ, ?Nat.sub_0_r, count_skip, replace_skip. intros [= Hc].
    assert (Hb : replace_from [(String o old, new)] 0 b = b) by (by apply replace_none). rewrite Hb. symmetry.
    apply (replace_one_at "" (String o old) b new). apply index_front, has_prefix_spec. by exists b.
  - intros Hc. unfold Replace in IH. rewrite (IH Hc). unfold replace_one. cbn [index]. rewrite Hp.
    destruct (index s old) as [i|]; [|done]. done.
Qed.

Lemma replace_found_one multiple s old new : old <> "" -> Count s old = 1%nat ->
  exists a b, s = a +:+ old +:+ b /\ replace_found multiple s old new = a +:+ new +:+ b.
Proof.
  intros Hne Hc. assert (Heq : replace_found multiple s old new = replace_one s old new) by (destruct multiple; [by apply replace_all_one|done]).
  destruct (count_index s old Hne) as [i Hi]; [by rewrite Hc|]. destruct (index_Some s old i Hi) as (a & b & -> & <-).
  exists a, b. split; [done|]. rewrite Heq. by apply replace_one_at.
Qed.

(** ** An exact match *)

Section edit.
Context `{G : Growth}.

Lemma empty_range f s e t : (s <= S e)%nat -> ~ (s <= e)%nat -> Count (range_text f s e) t = 0%nat.
Proof. intros H1 H2. unfold range_text, range_lines. by replace (e - (s - 1))%nat with 0%nat by lia. Qed.

(** Where the text to replace stands once in the range of lines, it is
    replaced and every other byte of the file stays; where it stands more
    often, the edit is refused unless all are to be replaced. *)
Theorem edit_exact f target repl startLine endLine multiple s e :
  target <> "" -> edit_range (length (splitLines f)) startLine endLine = Ok (s, e) ->
  match Count (range_text f s e) target with
  | O => True
  | S O => exists a b, f = edit_before f s +:+ (a +:+ target +:+ b) +:+ edit_after f e /\
      performFuzzyLineEdit f target repl startLine endLine multiple = Ok (edit_before f s +:+ (a +:+ repl +:+ b) +:+ edit_after f e)
  | n => multiple = false -> performFuzzyLineEdit f target repl startLine endLine multiple = Err (Ambiguous n)
  end.
Proof.
  intros Hne Hr. destruct (edit_range_ok _ _ _ _ _ Hr) as (H1 & H2 & H3 & H4). unfold performFuzzyLineEdit. rewrite Hr. cbn [mbind result_bind].
  fold (range_text f s e). cbn [first_some]. unfold by_text at 1 3.
  destruct (Count (range_text f s e) target) as [|[|n]] eqn:Hc; [done| |].
  - cbn [Nat.ltb Nat.leb andb id]. assert (Hse : (s <= e)%nat).
    { destruct (decide (s <= e)%nat); [done|]. by rewrite (empty_range f s e target H3) in Hc. }
    destruct (replace_found_one multiple _ target repl Hne Hc) as (a & b & Heq & Hnew). exists a, b. rewrite Hnew.
    split; [|done]. rewrite <- Heq. by apply file_parts.
  - by intros ->.
Qed.

(** ** A match by lines *)

(** What follows the new lines: when they are more than the old ones and fit
    into the array, the last of them again, and then what they did not
    overwrite. *)
Definition after_splice (n : nat) (repl l : list string) (i : nat) : list string :=
  if (n <? length repl)%nat && (i + length repl <=? length l)%nat then drop n repl ++ drop (i + length repl) l else drop (i + n) l.

Lemma splice_at n repl l i : (i + n <= length l)%nat ->
  exists c, splice n repl (l, length l) i = Some (take i l ++ repl ++ after_splice n repl l i, c).
Proof.
  intros Hi. unfold splice, after_splice. rewrite (proj2 (Nat.ltb_ge _ _) Hi).
  destruct (i + length repl <=? length l)%nat eqn:Hfit; eexists; rewrite <- app_assoc.
  - apply Nat.leb_le in Hfit. rewrite andb_true_r. do 4 f_equal. rewrite take_ge by (rewrite !length_app, length_take, length_drop; lia).
    rewrite drop_app. rewrite drop_ge by (rewrite length_take; lia). rewrite length_take_le by lia. cbn [app].
    replace (i + n - i)%nat with n by lia. rewrite drop_app. destruct (n <? length repl)%nat eqn:Hn.
    + apply Nat.ltb_lt in Hn. by replace (n - length repl)%nat with 0%nat by lia.
    + apply Nat.ltb_ge in Hn. rewrite drop_ge by lia. cbn [app]. rewrite drop_drop. f_equal. lia.
  - rewrite andb_false_r. reflexivity.
Qed.

Lemma line_matches_range norm l ts i : i ∈ line_matches norm l ts -> (i + length ts <= length l)%nat.
Proof.
  unfold line_matches. destruct (_ <=? _)%nat eqn:Hle; [|by intros ?%not_elem_of_nil]. apply Nat.leb_le in Hle.
  intros [_ Hi]%list_elem_of_filter. apply elem_of_seq in Hi. lia.
Qed.

(** Where the text stands nowhere exactly but its lines stand once, up to
    blanks at their ends, these lines are replaced, the lines before them
    stay, and so do the lines after them if the new lines are no more than
    the old ones or do not fit into the range; otherwise the last new lines
    are written twice, over lines that are lost. *)
Theorem edit_by_lines f target repl startLine endLine multiple s e i :
  edit_range (length (splitLines f)) startLine endLine = Ok (s, e) -> Count (range_text f s e) target = 0%nat ->
  let l := range_lines (splitLines f) s e in
  line_matches trim_line_end l (splitCleanLines target) = [i] ->
  performFuzzyLineEdit f target repl startLine endLine multiple =
    Ok (edit_before f s +:+
        join (take i l ++ splitCleanLines repl ++ after_splice (length (splitCleanLines target)) (splitCleanLines repl) l i) LF +:+
        edit_after f e).
Proof.
  intros Hr Hc l Hm. unfold performFuzzyLineEdit. rewrite Hr. cbn [mbind result_bind]. fold (range_text f s e). fold l. cbn [first_some].
  unfold by_text at 1. rewrite Hc. cbn [id first_some]. unfold by_lines at 1. rewrite Hm. cbn [length Nat.ltb Nat.leb andb id].
  assert (Hsame : reverse (if multiple then [i] else take 1 [i]) = [i]) by by destruct multiple. rewrite Hsame. cbn [splice_all].
  destruct (splice_at (length (splitCleanLines target)) (splitCleanLines repl) l i) as [c ->]; [|done].
  apply (line_matches_range trim_line_end). rewrite Hm. apply elem_of_cons. by left.
Qed.
End edit.

(** ** Closed examples *)

#[local] Instance demo_growth : Growth.
Proof. refine {| grow c n := n |}. lia. Defined.

Definition demo_file : string := join ["one "; "two"; "three"; "four"; "five"] LF.

Lemma edit_exact_witness :
  (exists a b, demo_file = edit_before demo_file 1 +:+ (a +:+ "three" +:+ b) +:+ edit_after demo_file 5 /\
     performFuzzyLineEdit demo_file "three" "3" 0 0 false = Ok (edit_before demo_file 1 +:+ (a +:+ "3" +:+ b) +:+ edit_after demo_file 5)) /\
  performFuzzyLineEdit demo_file "three" "3" 0 0 false = Ok (join ["one "; "two"; "3"; "four"; "five"] LF).
Proof.
  split; [|vm_compute; reflexivity].
  assert (H := edit_exact demo_file "three" "3" 0 0 false 1 5 ltac:(discriminate) eq_refl).
  replace (Count (range_text demo_file 1 5) "three") with 1%nat in H by (vm_compute; reflexivity). exact H.
Defined.

(** Four lines for two, found without their trailing blanks: the last two new
    lines are written twice, over "three" and "four". *)
Lemma edit_by_lines_witness :
  performFuzzyLineEdit demo_file (join ["one"; "two"] LF) (join ["1"; "2"; "3"; "4"] LF) 0 0 false =
    Ok (edit_before demo_file 1 +:+
        join (take 0 (splitLines demo_file) ++ ["1"; "2"; "3"; "4"] ++ ["3"; "4"] ++ ["five"]) LF +:+ edit_after demo_file 5).
Proof.
  exact (edit_by_lines demo_file (join ["one"; "two"] LF) (join ["1"; "2"; "3"; "4"] LF) 0 0 false 1 5 0 eq_refl eq_refl eq_refl).
Defined.

(** Lines up to the one before the first: the slice expression panics. *)
Example backward_range_panics : performFuzzyLineEdit demo_file "two" "2" 4 1 false = Err EditPanic.
Proof. reflexivity. Qed.

(** Three overlapping places, all to be replaced: after the last of them is
    replaced, the slice for the first reads past the end. *)
Example overlapping_matches_panic :
  performFuzzyLineEdit (join ["x "; "x "; "x "; "x "] LF) (join ["x"; "x"; "x"] LF) "y" 0 0 true = Err EditPanic.
Proof. vm_compute. reflexivity. Qed.
