(* ===== verification/Vfs.v ===== *)
(** * A file system with symbolic links

    What package [os] and [filepath.EvalSymlinks] do of a Linux file system:
    a node for each path of elements, and the walk of a path, which follows a
    link wherever it meets one, within a number of links: 40 for the kernel,
    255 for [EvalSymlinks].  Permissions and other processes are left out. *)

From S2P Require Import Prelude GoStrings GoPath.

Inductive node := Dir | File (data : string) | Link (target : string).

(** The root is there always. *)
Abbreviation fsys := (gmap (list string) node).
Definition node_at (f : fsys) (p : list string) : option node := if bool_decide (p = []) then Some Dir else f !! p.

Inductive walked :=
  | Found (p : list string) (n : node)   (* the place reached and what is there *)
  | Fresh (p : list string)              (* nothing there, in a directory that is *)
  | NoEntry | NotDir | TooManyLinks.

Definition parent (p : list string) : list string := take (length p - 1) p.

(** [follow]: a link at the end is followed as well. *)
Fixpoint walk (links : nat) (f : fsys) (follow : bool) {struct links} : list string -> list string -> walked :=
  fix go (cur todo : list string) {struct todo} : walked :=
    match todo with
    | [] => Found cur Dir
    | x :: rest =>
        if bool_decide (x = "") || bool_decide (x = ".") then go cur rest
        else if bool_decide (x = "..") then go (parent cur) rest
        else
          match node_at f (cur ++ [x]) with
          | None => match rest with [] => Fresh (cur ++ [x]) | _ => NoEntry end
          | Some Dir => go (cur ++ [x]) rest
          | Some (File d) => match rest with [] => Found (cur ++ [x]) (File d) | _ => NotDir end
          | Some (Link t) =>
              let expand := match links with
                | O => TooManyLinks
                | S k => walk k f follow (if rooted t then [] else cur) (split_byte slash t ++ rest)
                end in
              match rest with
              | [] => if follow then expand else Found (cur ++ [x]) (Link t)
              | _ => expand
              end
          end
    end.

Definition kernel_links : nat := 40.
Definition eval_links : nat := 255.

(** The kernel's walk of an absolute path. *)
Definition kernel (f : fsys) (follow : bool) (path : string) : walked := walk kernel_links f follow [] (split_byte slash path).

(** [os.Lstat], [os.Stat] and [os.Readlink] without an error. *)
Definition Lstat (f : fsys) (path : string) : option node := match kernel f false path with Found _ n => Some n | _ => None end.
Definition Stat (f : fsys) (path : string) : option node := match kernel f true path with Found _ n => Some n | _ => None end.
Definition Readlink (f : fsys) (path : string) : option string := match Lstat f path with Some (Link t) => Some t | _ => None end.


(** [filepath.EvalSymlinks] of an absolute path. *)
Definition EvalSymlinks (f : fsys) (path : string) : option string :=
  match walk eval_links f true [] (split_byte slash path) with Found p _ => Some (abs_path p) | _ => None end.

(** ** The walk *)

Section walk.
Implicit Types (f : fsys) (p cur todo rest : list string).

(** A name: not a step that stays or goes up. *)
Definition named (x : string) : Prop := x <> "" /\ x <> "." /\ x <> "..".

Lemma walk_nil k f fl cur : walk k f fl cur [] = Found cur Dir.
Proof. by destruct k. Qed.
Lemma walk_skip k f fl cur x rest : x = "" \/ x = "." -> walk k f fl cur (x :: rest) = walk k f fl cur rest.
Proof. destruct k, 1; subst; done. Qed.
Lemma walk_up k f fl cur rest : walk k f fl cur (".." :: rest) = walk k f fl (parent cur) rest.
Proof. by destruct k. Qed.

Lemma walk_name k f fl cur x rest : named x ->
  walk k f fl cur (x :: rest) =
    match node_at f (cur ++ [x]) with
    | None => match rest with [] => Fresh (cur ++ [x]) | _ => NoEntry end
    | Some Dir => walk k f fl (cur ++ [x]) rest
    | Some (File d) => match rest with [] => Found (cur ++ [x]) (File d) | _ => NotDir end
    | Some (Link t) =>
        let expand := match k with O => TooManyLinks | S k => walk k f fl (if rooted t then [] else cur) (split_byte slash t ++ rest) end in
        match rest with [] => if fl then expand else Found (cur ++ [x]) (Link t) | _ => expand end
    end.
Proof.
  intros (H1 & H2 & H3). destruct k; cbn [walk]; rewrite (bool_decide_false (x = "")), (bool_decide_false (x = ".")), (bool_decide_false (x = "..")) by done; done.
Qed.

(** The cases of an element. *)
Lemma element_cases (x : string) : (x = "" \/ x = ".") \/ x = ".." \/ named x.
Proof.
  destruct (decide (x = "")); [auto|]. destruct (decide (x = ".")); [auto|]. destruct (decide (x = "..")); [auto|]. right; right. by split.
Qed.

(** Induction along a walk. *)
Lemma walk_ind (P : nat -> list string -> list string -> Prop) :
  (forall k cur, P k cur []) ->
  (forall k cur x rest, (x = "" \/ x = ".") -> P k cur rest -> P k cur (x :: rest)) ->
  (forall k cur rest, P k (parent cur) rest -> P k cur (".." :: rest)) ->
  (forall k cur x rest, named x -> P k (cur ++ [x]) rest -> (forall k' cur' todo', (k' < k)%nat -> P k' cur' todo') -> P k cur (x :: rest)) ->
  forall k cur todo, P k cur todo.
Proof.
  intros H1 H2 H3 H4 k. induction (lt_wf k) as [k _ IH]. intros cur todo. revert cur. induction todo as [|x rest IHt]; intros cur; [apply H1|].
  destruct (element_cases x) as [Hx|[->|Hx]]; [by apply H2|by apply H3|]. apply H4; auto.
Qed.

(** ** Where a walk ends *)

Definition no_slash (l : list string) : Prop := Forall (fun x => no_byte slash x = true) l.
Lemma entry_named x : entry_name x -> named x.
Proof. by intros ((? & ? & _) & ?). Qed.
Lemma named_entry x : named x -> no_byte slash x = true -> entry_name x.
Proof. by intros (? & ? & ?). Qed.


(** A directory reached through directories only. *)
Definition real_dir f p : Prop := Forall entry_name p /\ forall q, q `prefix_of` p -> node_at f q = Some Dir.
(** An entry in such a directory. *)
Definition real_entry f p : Prop := exists d x, p = d ++ [x] /\ entry_name x /\ real_dir f d.

Lemma real_dir_nil f : real_dir f [].
Proof. split; [constructor|]. intros q Hq. apply prefix_nil_inv in Hq. by subst. Qed.
Lemma real_dir_prefix f p q : real_dir f p -> q `prefix_of` p -> real_dir f q.
Proof.
  intros [Hn Hp] [r ->]. split; [by apply Forall_app in Hn as [? _]|]. intros q' Hq'. apply Hp. by apply prefix_app_r.
Qed.
Lemma real_dir_parent f p : real_dir f p -> real_dir f (parent p).
Proof. intros Hp. eapply real_dir_prefix; [done|]. exists (drop (length p - 1) p). unfold parent. by rewrite take_drop. Qed.
Lemma real_dir_snoc f p x : real_dir f p -> entry_name x -> node_at f (p ++ [x]) = Some Dir -> real_dir f (p ++ [x]).
Proof.
  intros [Hn Hp] Hx Hd. split; [apply Forall_app; split; [done|by constructor]|]. intros q Hq.
  destruct (decide (q = p ++ [x])) as [->|Hne]; [done|]. apply Hp. destruct Hq as [r Hr]. induction r as [|y r _] using rev_ind.
  - rewrite app_nil_r in Hr. by subst.
  - rewrite app_assoc in Hr. apply app_inj_2 in Hr as [-> _]; [|done]. by exists r.
Qed.

Definition lands f (fl : bool) (w : walked) : Prop :=
  match w with
  | Found p Dir => real_dir f p
  | Found p n => real_entry f p /\ node_at f p = Some n /\ (fl = true -> forall t, n <> Link t)
  | Fresh p => real_entry f p /\ node_at f p = None
  | _ => True
  end.

Lemma walk_lands k f fl cur todo : no_slash todo -> real_dir f cur -> lands f fl (walk k f fl cur todo).
Proof.
  revert k cur todo. apply (walk_ind (fun k cur todo => no_slash todo -> real_dir f cur -> lands f fl (walk k f fl cur todo))).
  - intros k cur _ Hc. by rewrite walk_nil.
  - intros k cur x rest Hx IH Hs Hc. apply Forall_cons in Hs as [_ Hs]. rewrite walk_skip by done. auto.
  - intros k cur rest IH Hs Hc. apply Forall_cons in Hs as [_ Hs]. rewrite walk_up. by apply IH; [|apply real_dir_parent].
  - intros k cur x rest Hx IH IHk Hs Hc. apply Forall_cons in Hs as [Hsx Hs]. rewrite walk_name by done.
    assert (Hex := named_entry x Hx Hsx). assert (Hentry : real_entry f (cur ++ [x])) by by exists cur, x.
    destruct (node_at f (cur ++ [x])) as [[|d|t]|] eqn:Hn.
    + apply IH; [done|]. by apply real_dir_snoc.
    + destruct rest; [|done]. split; [done|]. by split.
    + assert (Hexp : lands f fl (match k with O => TooManyLinks | S k => walk k f fl (if rooted t then [] else cur) (split_byte slash t ++ rest) end)).
      { destruct k as [|k]; [done|]. apply IHk; [lia|by apply Forall_app; split; [apply split_byte_no|]|]. destruct (rooted t); [apply real_dir_nil|done]. }
      cbv zeta. destruct rest; [destruct fl|]; [exact Hexp| |exact Hexp]. split; [done|]. by split.
    + by destruct rest.
Qed.

(** A walk over directories. *)
Lemma walk_through k f fl cur t rest : real_dir f (cur ++ t) -> walk k f fl cur (t ++ rest) = walk k f fl (cur ++ t) rest.
Proof.
  revert cur. induction t as [|x t IH]; intros cur Hd; [by rewrite app_nil_r|].
  assert (Hx : real_dir f (cur ++ [x])).
  { eapply real_dir_prefix; [exact Hd|]. exists t. by rewrite <- app_assoc. }
  cbn [app]. rewrite walk_name.
  - destruct Hx as [_ Hx]. rewrite (Hx (cur ++ [x])) by done. rewrite IH; by rewrite <- app_assoc.
  - destruct Hx as [Hx _]. apply Forall_app in Hx as [_ Hx]. apply Forall_cons in Hx as [Hx _]. by apply entry_named.
Qed.

(** More links make no difference to a walk that has enough. *)
Lemma walk_more k f fl cur todo : walk k f fl cur todo <> TooManyLinks -> forall k', (k <= k')%nat -> walk k' f fl cur todo = walk k f fl cur todo.
Proof.
  revert k cur todo. apply (walk_ind (fun k cur todo => walk k f fl cur todo <> TooManyLinks -> forall k', (k <= k')%nat -> walk k' f fl cur todo = walk k f fl cur todo)).
  - intros k cur _ k' _. by rewrite !walk_nil.
  - intros k cur x rest Hx IH Hw k' Hk. rewrite !(walk_skip _ _ _ _ x) in * by done. auto.
  - intros k cur rest IH Hw k' Hk. rewrite !walk_up in *. auto.
  - intros k cur x rest Hx IH IHk Hw k' Hk. rewrite !walk_name in * by done. destruct (node_at f (cur ++ [x])) as [[|d|t]|]; try done; [auto|].
    cbv zeta in *. destruct k as [|k].
    + destruct rest; [destruct fl|]; done.
    + destruct k' as [|k']; [lia|]. destruct rest; [destruct fl; [|done]|]; apply IHk; try done; lia.
Qed.

(** The walk of a path and then of what follows it. *)
Lemma walk_app k f fl cur q rest : rest <> [] ->
  match walk k f true cur q with
  | Found p Dir => exists j, (j <= k)%nat /\ walk k f fl cur (q ++ rest) = walk j f fl p rest
  | Found p (File _) => walk k f fl cur (q ++ rest) = NotDir
  | Found p (Link _) => False
  | Fresh _ | NoEntry => walk k f fl cur (q ++ rest) = NoEntry
  | NotDir => walk k f fl cur (q ++ rest) = NotDir
  | TooManyLinks => walk k f fl cur (q ++ rest) = TooManyLinks
  end.
Proof.
  intros Hrest. revert k cur q. apply (walk_ind (fun k cur q => match walk k f true cur q with
  | Found p Dir => exists j, (j <= k)%nat /\ walk k f fl cur (q ++ rest) = walk j f fl p rest
  | Found p (File _) => walk k f fl cur (q ++ rest) = NotDir
  | Found p (Link _) => False
  | Fresh _ | NoEntry => walk k f fl cur (q ++ rest) = NoEntry
  | NotDir => walk k f fl cur (q ++ rest) = NotDir
  | TooManyLinks => walk k f fl cur (q ++ rest) = TooManyLinks
  end)).
  - intros k cur. rewrite walk_nil. by exists k.
  - intros k cur x q Hx IH. cbn [app]. rewrite !(walk_skip _ _ _ _ x) by done. exact IH.
  - intros k cur q IH. cbn [app]. rewrite !walk_up. exact IH.
  - intros k cur x q Hx IH IHk. cbn [app]. rewrite !walk_name by done. destruct (node_at f (cur ++ [x])) as [[|d|t]|].
    + exact IH.
    + destruct q; [|done]. cbn. by destruct rest.
    + cbv zeta. destruct k as [|k].
      { destruct q; cbn; by destruct rest. }
      specialize (IHk k (if rooted t then [] else cur) (split_byte slash t ++ q) (Nat.lt_succ_diag_r k)). rewrite <- app_assoc in IHk.
      assert (Hr : match q ++ rest with [] => if fl then walk k f fl (if rooted t then [] else cur) (split_byte slash t ++ q ++ rest) else Found (cur ++ [x]) (Link t)
          | _ => walk k f fl (if rooted t then [] else cur) (split_byte slash t ++ q ++ rest) end = walk k f fl (if rooted t then [] else cur) (split_byte slash t ++ q ++ rest)).
      { destruct q; cbn; [by destruct rest|done]. }
      rewrite Hr. assert (Hq : match q with [] => walk k f true (if rooted t then [] else cur) (split_byte slash t ++ q)
          | _ => walk k f true (if rooted t then [] else cur) (split_byte slash t ++ q) end = walk k f true (if rooted t then [] else cur) (split_byte slash t ++ q)) by by destruct q.
      cbv iota. rewrite Hq. destruct (walk k f true _ _) as [p [|d|u]|p| | |]; try exact IHk. destruct IHk as (j & Hj & Heq). exists j. split; [lia|done].
    + destruct q; cbn; by destruct rest.
Qed.
End walk.
