(* ===== verification/SafePath.v ===== *)
(** * Paths below a root ([internal/security/path.go])

    [ResolvePathWithBase] gives the file tools the path they work on: it
    follows links, and refuses what leaves the root.  The file system does
    not change meanwhile; [wd] is the working directory. *)

From S2P Require Import Prelude GoStrings GoPath Vfs.

Inductive path_error := ErrPathEscape | ResolvingRoot | ResolvingBase | ResolvingPath | CheckingContainment.

Section path.
Variable wd : option string.
Variable f : fsys.

(** [filepath.Abs] *)
Definition Abs (path : string) : option string :=
  if rooted path then Some (Clean path) else (fun w => Join [w; path]) <$> wd.

Fixpoint nearest_go (fuel : nat) (path current : string) : string :=
  match fuel with
  | O => path
  | S fuel' =>
      match Lstat f current with
      | Some _ => current
      | None =>
          let up := filepath_Dir current in
          if bool_decide (up = current) then path else nearest_go fuel' path up
      end
  end.
(** A path has no more parents than bytes. *)
Definition nearestExistingParent (path : string) : string := nearest_go (S (String.length path)) path path.

Definition canonicalizePotentialPath (path : string) : string :=
  let existing := nearestExistingParent path in
  match EvalSymlinks f existing with
  | None => path
  | Some resolved =>
      if bool_decide (existing = path) then resolved
      else match Rel existing path with None => path | Some rel => Join [resolved; rel] end
  end.

Definition maxSymlinkHops : nat := 40.

(** The loop over the chain of links: a relative target is taken from the
    parent by name. *)
Fixpoint chase (hops : nat) (current : string) : string :=
  match hops with
  | O => current
  | S hops' =>
      match Readlink f current with
      | None => current
      | Some target => chase hops' (Clean (if rooted target then target else Join [filepath_Dir current; target]))
      end
  end.

Definition followDanglingSymlink (path : string) : option string :=
  match Readlink f path with None => None | Some _ => Some (canonicalizePotentialPath (chase maxSymlinkHops path)) end.

Definition resolve_candidate (candidate : string) (allowMissing : bool) : result path_error string :=
  let checkPath := if allowMissing then nearestExistingParent candidate else candidate in
  match EvalSymlinks f checkPath with
  | Some resolved =>
      if allowMissing && negb (bool_decide (checkPath = candidate))
      then match Rel checkPath candidate with None => Err ResolvingPath | Some rel => Ok (Join [resolved; rel]) end
      else Ok resolved
  | None =>
      if negb allowMissing then Err ResolvingPath
      else
        match followDanglingSymlink checkPath with
        | Some followed => match Rel checkPath candidate with None => Err ResolvingPath | Some rel => Ok (Join [followed; rel]) end
        | None => Ok candidate
        end
  end.

Definition contained (root candidate : string) : result path_error string :=
  match Rel root candidate with
  | None => Err CheckingContainment
  | Some rel => if climbs rel || rooted rel then Err ErrPathEscape else Ok candidate
  end.

Definition ResolvePathWithBase (allowedRoot baseDir requested : string) (allowMissing : bool) : result path_error string :=
  if rooted requested then Err ErrPathEscape
  else
    match Abs allowedRoot, Abs baseDir with
    | None, _ => Err ResolvingRoot
    | _, None => Err ResolvingBase
    | Some root, Some base =>
        candidate ← resolve_candidate (Join [canonicalizePotentialPath base; Clean requested]) allowMissing;
        contained (canonicalizePotentialPath root) candidate
    end.

Definition ResolvePath (root requested : string) (allowMissing : bool) : result path_error string :=
  ResolvePathWithBase root root requested allowMissing.
End path.
