(* ===== verification/SafePathSpec.v ===== *)
(** * No way out of the root

    What the kernel opens or creates at a path that [ResolvePathWithBase]
    answers lies below the root: always for existing files, and for new ones
    as long as no more than forty links are met and no link in the middle of
    the path dangles.  Closed examples show the two exceptions. *)

From S2P Require Import Prelude GoStrings GoPath Vfs SafePath.

(** What an open of the path works on: an entry that is there or the place of
    a new one. *)
Definition opens (f : fsys) (path : string) (p : list string) : Prop :=
  match kernel f true path with Found q _ | Fresh q => p = q | _ => False end.

#[local] Opaque walk kernel_links eval_links.

Section spec.
Variable f : fsys.
Implicit Types (l p q t : list string).

(** ** Walks of clean paths *)

Lemma entry_no_slash l : Forall entry_name l -> no_slash l.
Proof. intros Hl. eapply Forall_impl; [exact Hl|]. by intros x ((_ & _ & ?) & _). Qed.

Lemma walk_abs k fl l : Forall entry_name l -> walk k f fl [] (split_byte slash (abs_path l)) = walk k f fl [] l.
Proof.
  intros Hl. rewrite split_abs, walk_skip by (try done; by left). case_bool_decide as Hn; [|done]. subst l.
  rewrite walk_skip by by left. done.
Qed.

Lemma kernel_abs fl l : Forall entry_name l -> kernel f fl (abs_path l) = walk kernel_links f fl [] l.
Proof. apply walk_abs. Qed.

Lemma Eval_abs l s : Forall entry_name l -> EvalSymlinks f (abs_path l) = Some s ->
  exists p n, s = abs_path p /\ walk eval_links f true [] l = Found p n.
Proof.
  intros Hl. unfold EvalSymlinks. rewrite walk_abs by done. destruct (walk _ _ _ _ _) as [p n| | | |]; [|done..]. intros [= <-]. by exists p, n.
Qed.
Lemma Eval_none l : Forall entry_name l -> EvalSymlinks f (abs_path l) = None -> forall p n, walk eval_links f true [] l <> Found p n.
Proof. intros Hl He p n Hw. unfold EvalSymlinks in He. by rewrite walk_abs, Hw in He. Qed.

Lemma links_le : (kernel_links <= eval_links)%nat.
Proof. apply Nat.leb_le. vm_compute. reflexivity. Qed.

Lemma found_entries k l p n : Forall entry_name l -> walk k f true [] l = Found p n -> Forall entry_name p.
Proof.
  intros Hl Hw. assert (H := walk_lands k f true [] l (entry_no_slash l Hl) (real_dir_nil f)). rewrite Hw in H.
  assert (He : real_entry f p -> Forall entry_name p).
  { intros (d & x & -> & Hx & [Hd _]). apply Forall_app. split; [done|by constructor]. }
  destruct n; [apply H|apply He, H..].
Qed.

(** A place a walk ended at, as a path of its own. *)
Lemma found_again k k' l p n : Forall entry_name l -> walk k f true [] l = Found p n -> walk k' f true [] p = Found p n.
Proof.
  intros Hl Hw. assert (H := walk_lands k f true [] l (entry_no_slash l Hl) (real_dir_nil f)). rewrite Hw in H.
  assert (Hend : (exists d, n = File d) -> real_entry f p /\ node_at f p = Some n -> walk k' f true [] p = Found p n).
  { intros [d ->] [(q & x & -> & Hx & Hq) Hn]. rewrite (walk_through k' f true [] q [x]) by done. cbn [app].
    rewrite walk_name by by apply entry_named. by rewrite Hn. }
  destruct n as [|d|u].
  - rewrite <- (app_nil_r p) at 1. rewrite (walk_through k' f true [] p []) by done. by rewrite walk_nil.
  - apply Hend; [by exists d|]. by destruct H as (? & ? & _).
  - destruct H as (_ & _ & H). by destruct (H eq_refl u).
Qed.

(** Not a link at the end: following makes no difference. *)
Lemma walk_follow k cur todo p n : walk k f false cur todo = Found p n -> (forall u, n <> Link u) -> walk k f true cur todo = Found p n.
Proof.
  intros Hw Hn. revert Hw. revert k cur todo.
  apply (walk_ind (fun k cur todo => walk k f false cur todo = Found p n -> walk k f true cur todo = Found p n)).
  - intros k cur. by rewrite !walk_nil.
  - intros k cur x rest Hx IH. by rewrite !(walk_skip _ _ _ _ x) by done.
  - intros k cur rest IH. by rewrite !walk_up.
  - intros k cur x rest Hx IH IHk. rewrite !walk_name by done. destruct (node_at f (cur ++ [x])) as [[|d|u]|]; try done.
    cbv zeta. destruct rest; [intros [= _ <-]; by destruct (Hn u)|]. destruct k as [|k]; [done|]. apply IHk. lia.
Qed.

(** ** The nearest existing parent *)

Lemma nearest_spec l : Forall entry_name l ->
  exists q t, l = q ++ t /\ nearestExistingParent f (abs_path l) = abs_path q /\ Lstat f (abs_path q) <> None /\
    (forall x t', t = x :: t' -> Lstat f (abs_path (q ++ [x])) = None).
Proof.
  intros Hl. unfold nearestExistingParent.
  assert (Hgo : forall cur fuel t, l = cur ++ t -> (length cur < fuel)%nat -> (forall x t', t = x :: t' -> Lstat f (abs_path (cur ++ [x])) = None) ->
    exists q t', l = q ++ t' /\ nearest_go f fuel (abs_path l) (abs_path cur) = abs_path q /\ Lstat f (abs_path q) <> None /\
      (forall x t'', t' = x :: t'' -> Lstat f (abs_path (q ++ [x])) = None)).
  { intros cur. induction cur as [|y cur IH] using rev_ind; intros fuel t Heq Hfuel Ht; destruct fuel as [|fuel]; [lia| |lia|]; cbn [nearest_go].
    - assert (Hroot : Lstat f (abs_path []) = Some Dir) by (unfold Lstat; by rewrite kernel_abs, walk_nil). rewrite Hroot. by exists [], t.
    - destruct (Lstat f (abs_path (cur ++ [y]))) as [n|] eqn:Hn.
      + exists (cur ++ [y]), t. split; [done|]. split; [done|]. split; [by rewrite Hn|done].
      + assert (Hcy : Forall entry_name (cur ++ [y])) by (rewrite Heq in Hl; by apply Forall_app in Hl as [? _]).
        rewrite Dir_abs, length_app by done. cbn [length]. rewrite Nat.add_sub, take_app_length. rewrite bool_decide_eq_false_2.
        * apply (IH fuel (y :: t)); [by rewrite Heq, <- app_assoc|rewrite length_app in Hfuel; cbn in Hfuel; lia|]. by intros x t' [= <- <-].
        * apply Forall_app in Hcy as Hc. intros He. apply abs_path_inj in He; [|apply Hc|done]. apply (f_equal length) in He. rewrite length_app in He. cbn in He. lia. }
  apply (Hgo l _ []); [by rewrite app_nil_r| |done].
  assert (Hlen : (length l <= String.length (abs_path l))%nat); [|lia]. unfold abs_path, render. rewrite string_length_app. cbn [String.length].
  clear -Hl. assert (Hj : (length l <= S (String.length (join l "/")))%nat); [|lia].
  induction Hl as [|x l [(Hx & _) _] Hl IH]; [cbn; lia|]. destruct l as [|y l]; [cbn; lia|].
  change (join (x :: y :: l) "/") with (x +:+ "/" +:+ join (y :: l) "/"). rewrite !string_length_app. cbn [length String.length] in *. destruct x; [done|]. cbn [String.length]. lia.
Qed.

(** ** Paths the kernel takes as they are *)

(** Nothing else is opened than the path itself. *)
Definition exact (l : list string) : Prop := Forall entry_name l /\ forall p, opens f (abs_path l) p -> p = l.

(** The kernel's limit of links is not met on the way. *)
Definition few_links (path : string) : Prop := forall q, q `prefix_of` elems path -> kernel f false (abs_path q) <> TooManyLinks.

Lemma gap q x p : Forall entry_name q -> entry_name x -> walk eval_links f true [] q = Found p Dir ->
  Lstat f (abs_path (q ++ [x])) = None -> kernel f false (abs_path (q ++ [x])) <> TooManyLinks -> node_at f (p ++ [x]) = None.
Proof.
  intros Hq Hx Hw Hnone Hfew. assert (Hqx : Forall entry_name (q ++ [x])) by (apply Forall_app; split; [done|by constructor]).
  unfold Lstat in Hnone. rewrite kernel_abs in Hnone, Hfew by done.
  rewrite <- (walk_more _ f false _ _ Hfew _ links_le) in Hnone. assert (Happ := walk_app eval_links f false [] q [x] ltac:(done)). rewrite Hw in Happ.
  destruct Happ as (j & _ & Happ). rewrite Happ, walk_name in Hnone by by apply entry_named.
  destruct (node_at f (p ++ [x])) as [[|d|u]|]; [by rewrite walk_nil in Hnone|done..].
Qed.

(** What the walk of [q] reached, with the entries that are not there. *)
Lemma exact_beyond q t p n : Forall entry_name (q ++ t) -> walk eval_links f true [] q = Found p n ->
  (forall x t', t = x :: t' -> Lstat f (abs_path (q ++ [x])) = None) -> (forall x t', t = x :: t' -> kernel f false (abs_path (q ++ [x])) <> TooManyLinks) ->
  exact (p ++ t).
Proof.
  intros Hqt Hw Hnone Hfew. apply Forall_app in Hqt as Hqt'. destruct Hqt' as [Hq Ht]. assert (Hp := found_entries _ _ _ _ Hq Hw).
  assert (Hpt : Forall entry_name (p ++ t)) by by apply Forall_app. split; [done|]. intros p'. unfold opens. rewrite kernel_abs by done.
  destruct t as [|x t].
  { rewrite app_nil_r in *. by rewrite (found_again _ kernel_links _ _ _ Hq Hw). }
  apply Forall_cons in Ht as [Hx Ht]. assert (Hlands := walk_lands eval_links f true [] q (entry_no_slash q Hq) (real_dir_nil f)). rewrite Hw in Hlands.
  assert (Hbeyond := walk_app kernel_links f true [] p (x :: t) ltac:(done)). rewrite (found_again _ kernel_links _ _ _ Hq Hw) in Hbeyond.
  destruct n as [|d|u]; [|by rewrite Hbeyond|done].
  destruct Hbeyond as (j & _ & ->). rewrite walk_name by by apply entry_named.
  rewrite (gap q x p) by (try done; by eauto). destruct t; [by intros ->|done].
Qed.

(** ** The candidate *)

Lemma join_rel p t : Forall entry_name p -> Forall entry_name t -> Join [abs_path p; if bool_decide (t = []) then "." else join t "/"] = abs_path (p ++ t).
Proof. apply Join_abs. Qed.

Lemma Readlink_none l : Forall entry_name l -> EvalSymlinks f (abs_path l) = None -> Lstat f (abs_path l) <> None -> Readlink f (abs_path l) <> None.
Proof.
  intros Hl He Hls. unfold Readlink. destruct (Lstat f (abs_path l)) as [n|] eqn:Hn; [|done].
  assert (Hnl : (forall u, n <> Link u) -> False).
  { intros Hnl. unfold Lstat in Hn. rewrite kernel_abs in Hn by done. destruct (walk kernel_links f false [] l) as [p m| | | |] eqn:Hw; [|done..].
    injection Hn as <-. apply walk_follow in Hw; [|done]. apply (Eval_none l Hl He p m). rewrite <- Hw. apply walk_more; [by rewrite Hw|apply links_le]. }
  destruct n; [by exfalso; apply Hnl|by exfalso; apply Hnl|done].
Qed.

Lemma chase_abs hops l : Forall entry_name l -> exists m, Forall entry_name m /\ chase f hops (abs_path l) = abs_path m.
Proof.
  revert l. induction hops as [|hops IH]; intros l Hl; cbn [chase]; [by exists l|]. destruct (Readlink f (abs_path l)) as [t|]; [|by exists l].
  assert (Hr : rooted (if rooted t then t else Join [filepath_Dir (abs_path l); t]) = true).
  { destruct (rooted t) eqn:Ht; [done|]. rewrite Dir_abs by done. unfold Join. rewrite filter_cons_True by done.
    destruct (decide (t = "")) as [->|Hne].
    - rewrite filter_cons_False, filter_nil by naive_solver. by rewrite rooted_Clean.
    - rewrite filter_cons_True, filter_nil by done. by rewrite rooted_Clean. }
  destruct (Clean_abs _ Hr) as [-> He]. by apply IH.
Qed.

(** A path whose walk breaks at a link that dangles opens nothing. *)
Lemma broken q t : Forall entry_name (q ++ t) -> t <> [] -> EvalSymlinks f (abs_path q) = None -> exact (q ++ t).
Proof.
  intros Hqt Ht He. split; [done|]. intros p. unfold opens. rewrite kernel_abs by done. apply Forall_app in Hqt as [Hq _].
  assert (Hno := Eval_none q Hq He). assert (Happ := walk_app eval_links f true [] q t Ht).
  destruct (walk kernel_links f true [] (q ++ t)) as [p' n|p'| | |] eqn:Hk; try done.
  - rewrite <- (walk_more _ f true _ _ ltac:(by rewrite Hk) _ links_le) in Hk. destruct (walk eval_links f true [] q) as [p2 n2| | | |]; [by destruct (Hno p2 n2)|congruence..].
  - rewrite <- (walk_more _ f true _ _ ltac:(by rewrite Hk) _ links_le) in Hk. destruct (walk eval_links f true [] q) as [p2 n2| | | |]; [by destruct (Hno p2 n2)|congruence..].
Qed.

Lemma canonical_exact l : Forall entry_name l -> few_links (abs_path l) -> Readlink f (abs_path l) = None ->
  exists m, canonicalizePotentialPath f (abs_path l) = abs_path m /\ exact m.
Proof.
  intros Hl Hfew Hrl. destruct (nearest_spec l Hl) as (q & t & -> & Hnear & Hls & Hnone). apply Forall_app in Hl as Hl'. destruct Hl' as [Hq Ht].
  unfold canonicalizePotentialPath. rewrite Hnear.
  assert (Hfew' : forall x t', t = x :: t' -> kernel f false (abs_path (q ++ [x])) <> TooManyLinks).
  { intros x t' ->. apply Hfew. rewrite elems_abs by done. exists t'. by rewrite <- app_assoc. }
  destruct (EvalSymlinks f (abs_path q)) as [s|] eqn:He.
  - destruct (Eval_abs _ _ Hq He) as (p & n & -> & Hw). assert (Hex := exact_beyond q t p n Hl Hw Hnone Hfew').
    case_bool_decide as Heq.
    + apply abs_path_inj in Heq; [|done..]. assert (t = []) as ->; [|rewrite app_nil_r in Hex; by exists p].
      rewrite <- (app_nil_r q) in Heq at 1. by apply app_inv_head in Heq.
    + rewrite Rel_abs by done. rewrite join_rel; [by exists (p ++ t)|exact (found_entries _ _ _ _ Hq Hw)|done].
  - exists (q ++ t). split; [done|]. apply broken; [done| |done]. intros ->. rewrite app_nil_r in Hrl. by apply (Readlink_none q Hq He Hls).
Qed.

(** Requests that stay clear of the limits: the kernel's limit of links is not
    met, no link in the middle dangles, and the chain from a dangling link
    ends before the fortieth. *)
Definition tame (candidate : string) : Prop :=
  few_links candidate /\
  (EvalSymlinks f (nearestExistingParent f candidate) = None -> nearestExistingParent f candidate = candidate) /\
  (forall u, Readlink f candidate = Some u -> few_links (chase f maxSymlinkHops candidate) /\ Readlink f (chase f maxSymlinkHops candidate) = None).

Lemma candidate_exact l allowMissing c : Forall entry_name l -> (allowMissing = true -> tame (abs_path l)) ->
  resolve_candidate f (abs_path l) allowMissing = Ok c -> exists m, c = abs_path m /\ exact m.
Proof.
  intros Hl Htame. unfold resolve_candidate. destruct allowMissing; cbn [negb andb].
  - destruct (Htame eq_refl) as (Hfew & Hmid & Hchain). destruct (nearest_spec l Hl) as (q & t & Heq & Hnear & Hls & Hnone). rewrite Hnear in *.
    assert (Hl' := Hl). rewrite Heq in Hl'. apply Forall_app in Hl' as Hl''. destruct Hl'' as [Hq Ht].
    destruct (EvalSymlinks f (abs_path q)) as [s|] eqn:He.
    + destruct (Eval_abs _ _ Hq He) as (p & n & -> & Hw).
      assert (Hex : exact (p ++ t)).
      { apply (exact_beyond q t p n Hl' Hw Hnone). intros x t' ->. apply Hfew. rewrite elems_abs by done. exists t'. by rewrite Heq, <- app_assoc. }
      case_bool_decide as Hsame; cbn [negb].
      * intros [= <-]. apply abs_path_inj in Hsame; [|done..]. assert (t = []) as ->; [|rewrite app_nil_r in Hex; by exists p].
        rewrite Heq in Hsame. rewrite <- (app_nil_r q) in Hsame at 1. by apply app_inv_head in Hsame.
      * rewrite Heq, Rel_abs by done. intros [= <-]. rewrite join_rel; [by exists (p ++ t)|exact (found_entries _ _ _ _ Hq Hw)|done].
    + specialize (Hmid eq_refl). apply abs_path_inj in Hmid; [|done..]. subst q. unfold followDanglingSymlink.
      destruct (Readlink f (abs_path l)) as [u|] eqn:Hrl; [|by destruct (Readlink_none l Hl He Hls)].
      destruct (Hchain u eq_refl) as [Hfew2 Hend]. destruct (chase_abs maxSymlinkHops l Hl) as (m & Hm & Hch). rewrite Hch in *.
      destruct (canonical_exact m Hm Hfew2 Hend) as (m' & -> & Hex). assert (Hrel := Rel_abs l [] Hl ltac:(constructor)). rewrite app_nil_r in Hrel. rewrite Hrel.
      intros [= <-]. assert (Hj := join_rel m' [] (proj1 Hex) ltac:(constructor)). rewrite app_nil_r in Hj. exists m'. by split.
  - destruct (EvalSymlinks f (abs_path l)) as [s|] eqn:He; [|done]. intros [= <-]. destruct (Eval_abs _ _ Hl He) as (p & n & -> & Hw).
    exists p. split; [done|]. rewrite <- (app_nil_r p). apply (exact_beyond l [] p n); [by rewrite app_nil_r|done..].
Qed.

(** ** Below the root *)

Lemma Abs_rooted wd path a : (forall w, wd = Some w -> rooted w = true) -> Abs wd path = Some a -> exists l, Forall entry_name l /\ a = abs_path l.
Proof.
  intros Hwd. unfold Abs. destruct (rooted path) eqn:Hr.
  - intros [= <-]. destruct (Clean_abs path Hr) as [-> Hl]. by eexists.
  - destruct wd as [w|]; [|done]. cbn. intros [= <-]. specialize (Hwd w eq_refl). unfold Join.
    destruct w as [|c w]; [done|]. rewrite filter_cons_True by done.
    assert (Hj : exists s', rooted s' = true /\ match String c w :: filter (fun x => x <> "") [path] with [] => "" | l' => Clean (join l' "/") end = Clean s').
    { destruct (decide (path = "")) as [->|Hne]; [rewrite filter_cons_False, filter_nil by naive_solver|rewrite filter_cons_True, filter_nil by done]; eexists; (split; [|reflexivity]); done. }
    destruct Hj as (s' & Hs' & ->). destruct (Clean_abs s' Hs') as [-> Hl]. by eexists.
Qed.

Lemma canonical_rooted l : Forall entry_name l -> exists m, Forall entry_name m /\ canonicalizePotentialPath f (abs_path l) = abs_path m.
Proof.
  intros Hl. destruct (nearest_spec l Hl) as (q & t & -> & Hnear & _ & _). apply Forall_app in Hl as Hl'. destruct Hl' as [Hq Ht].
  unfold canonicalizePotentialPath. rewrite Hnear. destruct (EvalSymlinks f (abs_path q)) as [s|] eqn:He; [|by exists (q ++ t)].
  destruct (Eval_abs _ _ Hq He) as (p & n & -> & Hw). assert (Hp := found_entries _ _ _ _ Hq Hw). case_bool_decide; [by exists p|].
  rewrite Rel_abs by done. rewrite join_rel by done. exists (p ++ t). split; [by apply Forall_app|done].
Qed.

Lemma Join_rooted l s : Forall entry_name l -> s <> "" -> exists m, Forall entry_name m /\ Join [abs_path l; s] = abs_path m.
Proof.
  intros Hl Hs. unfold Join. rewrite filter_cons_True by done. rewrite filter_cons_True, filter_nil by done.
  destruct (Clean_abs (join [abs_path l; s] "/") eq_refl) as [-> He]. by eexists.
Qed.

Lemma contained_below r m c : Forall entry_name r -> Forall entry_name m -> contained (abs_path r) (abs_path m) = Ok c -> c = abs_path m /\ r `prefix_of` m.
Proof.
  intros Hr Hm. unfold contained. assert (Hwithin := proj1 (Rel_within (abs_path r) (abs_path m))).
  destruct (Rel (abs_path r) (abs_path m)) as [rel|]; [|done]. destruct (climbs rel || rooted rel) eqn:Hc; [done|]. intros [= <-]. split; [done|].
  apply orb_false_iff in Hc as [Hc _]. destruct (Hwithin Hc) as (_ & rest & He & _). rewrite !elems_abs in He by done. by exists rest.
Qed.

(** The candidate of a request. *)
Definition candidate_of (base requested : string) : string := Join [canonicalizePotentialPath f base; Clean requested].

(** C24. Whatever links there are, what is opened at the path answered for an
    existing file lies below the canonical root; where missing files are
    allowed, what is opened or created lies there too, if the kernel's limit
    of links is not met and no link in the middle of the path dangles. *)
Theorem resolved_below_root wd allowedRoot baseDir requested allowMissing c root base p :
  (forall w, wd = Some w -> rooted w = true) ->
  ResolvePathWithBase wd f allowedRoot baseDir requested allowMissing = Ok c ->
  Abs wd allowedRoot = Some root -> Abs wd baseDir = Some base ->
  (allowMissing = true -> tame (candidate_of base requested)) ->
  opens f c p -> elems (canonicalizePotentialPath f root) `prefix_of` p.
Proof.
  intros Hwd Hres Hroot Hbase Htame Hopen. unfold ResolvePathWithBase in Hres. rewrite Hroot, Hbase in Hres. destruct (rooted requested); [done|].
  destruct (Abs_rooted wd _ _ Hwd Hroot) as (lr & Hlr & ->), (Abs_rooted wd _ _ Hwd Hbase) as (lb & Hlb & ->).
  destruct (canonical_rooted lr Hlr) as (r & Hr & Hcr), (canonical_rooted lb Hlb) as (b & Hb & Hcb). unfold candidate_of in Htame. rewrite Hcr, Hcb in *.
  apply result_bind_Ok in Hres as (c' & Hc' & Hres).
  assert (Hcl : Clean requested <> "").
  { rewrite Clean_render. unfold render. destruct (rooted requested); [done|]. case_bool_decide as Hn; [done|].
    apply plain_join_not; [done|apply elems_clean|]. cbn. repeat constructor. }
  destruct (Join_rooted b (Clean requested) Hb Hcl) as (l & Hl & Hj). rewrite Hj in *.
  destruct (candidate_exact l allowMissing c' Hl Htame Hc') as (m & -> & Hm & Hex).
  apply contained_below in Hres as [-> Hpre]; [|done..]. rewrite elems_abs by done. by rewrite (Hex p Hopen).
Qed.
End spec.

(** ** Closed examples *)

#[local] Transparent walk kernel_links eval_links.

(** A workspace with a link to a directory in it and a link out of it. *)
Definition demo_fs : fsys := list_to_map
  [(["ws"], Dir); (["etc"], Dir); (["etc"; "secret"], File "s"); (["ws"; "a"], Dir); (["ws"; "a"; "f"], File "x");
   (["ws"; "l"], Link "a"); (["ws"; "out"], Link "/etc")].

Definition links_ok (path : string) : bool :=
  forallb (fun i => match kernel demo_fs false (abs_path (take i (elems path))) with TooManyLinks => false | _ => true end) (seq 0 (S (length (elems path)))).
Lemma links_ok_few path : links_ok path = true -> few_links demo_fs path.
Proof.
  unfold links_ok. rewrite forallb_forall. intros Hall q [r Hr] Hk. specialize (Hall (length q)). rewrite Hr, take_app_length, Hk in Hall.
  apply diff_false_true, Hall, in_seq. rewrite length_app. lia.
Qed.

Lemma resolved_below_root_witness :
  ResolvePathWithBase None demo_fs "/ws" "/ws" "l/new" true = Ok "/ws/a/new" /\ ["ws"] `prefix_of` ["ws"; "a"; "new"].
Proof.
  assert (Hres : ResolvePathWithBase None demo_fs "/ws" "/ws" "l/new" true = Ok "/ws/a/new") by (vm_compute; reflexivity). split; [exact Hres|].
  assert (Hc : candidate_of demo_fs "/ws" "l/new" = "/ws/l/new") by (vm_compute; reflexivity).
  assert (Hroot : elems (canonicalizePotentialPath demo_fs "/ws") = ["ws"]) by (vm_compute; reflexivity). rewrite <- Hroot.
  apply (resolved_below_root demo_fs None "/ws" "/ws" "l/new" true "/ws/a/new" "/ws" "/ws" ["ws"; "a"; "new"]); [intros w Hw; discriminate Hw|exact Hres|reflexivity|reflexivity| |].
  - intros _. rewrite Hc. split; [apply links_ok_few; vm_compute; reflexivity|]. split; [vm_compute; discriminate|]. intros u Hu. vm_compute in Hu. discriminate.
  - vm_compute. reflexivity.
Defined.

Example out_of_the_root : ResolvePath None demo_fs "/ws" "out/secret" true = Err ErrPathEscape /\ ResolvePath None demo_fs "/ws" "../etc/secret" false = Err ErrPathEscape.
Proof. vm_compute. by split. Qed.

Definition nth_link (i : nat) : string := "l" +:+ pretty (N.of_nat i).
(** [n] links in a row, the last one with the target given. *)
Definition chain (n : nat) (target : string) : list (list string * node) :=
  imap (fun i _ => (["ws"; nth_link i], Link (if bool_decide (S i = n) then target else nth_link (S i)))) (replicate n tt).
Definition base_entries : list (list string * node) := [(["ws"], Dir); (["etc"], Dir); (["etc"; "secret"], File "s"); (["ws"; "dir"], Dir); (["ws"; "dir"; "x"], Link "/etc/secret")].

(** More than forty links in the middle: the kernel gives up where
    [EvalSymlinks] goes on, the last element is taken for missing, and the
    link it is is not looked at. *)
Example long_chain_escapes :
  let f : fsys := list_to_map (chain 45 "dir" ++ base_entries) in
  ResolvePath None f "/ws" "l0/x" true = Ok "/ws/dir/x" /\ opens f "/ws/dir/x" ["etc"; "secret"].
Proof. vm_compute. by split. Qed.

(** More than forty links to a missing file: the hops end at a link, which is
    answered as it is. *)
Example long_dangling_chain_escapes :
  let f : fsys := list_to_map (chain 45 "/etc/new" ++ base_entries) in
  ResolvePath None f "/ws" "l0" true = Ok "/ws/l40" /\ opens f "/ws/l40" ["etc"; "new"].
Proof. vm_compute. by split. Qed.

(** A dangling link in the middle, below a linked directory: its relative
    target is taken from the wrong parent, where there is a link. *)
Example dangling_parent_escapes :
  let f : fsys := list_to_map [(["ws"], Dir); (["etc"], Dir); (["etc"; "secret"], File "s"); (["ws"; "deep"], Dir); (["ws"; "deep"; "er"], Dir);
    (["ws"; "d"], Link "deep/er"); (["ws"; "deep"; "er"; "dl"], Link "../y"); (["ws"; "y"], Dir); (["ws"; "y"; "x"], Link "/etc/secret")] in
  ResolvePath None f "/ws" "d/dl/x" true = Ok "/ws/y/x" /\ opens f "/ws/y/x" ["etc"; "secret"].
Proof. vm_compute. by split. Qed.
