(* ===== verification/SafeDial.v ===== *)
(** * Outbound addresses ([internal/security/safedial.go], [network.go])

    The screen of URLs and the choice of the one address to dial.  An
    address ([net.IP]) is its bytes.  Name resolution, [net.ParseIP] and
    [url.Parse] are the class [Net]; an attempt to connect is recorded. *)

From S2P Require Import Prelude GoStrings GoText.
#[local] Open Scope Z_scope.

(** ** [net.IP] *)

Abbreviation ip := (list Z).

Definition v4_prefix : ip := [0; 0; 0; 0; 0; 0; 0; 0; 0; 0; 255; 255].
Definition To4 (a : ip) : option ip :=
  if bool_decide (length a = 4%nat) then Some a
  else if bool_decide (length a = 16%nat) && bool_decide (take 12 a = v4_prefix) then Some (drop 12 a)
  else None.
Definition at_ (a : ip) (i : nat) : Z := nth i a 0.

(** [ip.Equal]: an IPv4 address is equal to its form of sixteen bytes. *)
Definition Equal (a b : ip) : bool :=
  if bool_decide (length a = length b) then bool_decide (a = b)
  else if bool_decide (length a = 4%nat) && bool_decide (length b = 16%nat) then bool_decide (v4_prefix ++ a = b)
  else if bool_decide (length a = 16%nat) && bool_decide (length b = 4%nat) then bool_decide (a = v4_prefix ++ b)
  else false.

Definition IPv6loopback : ip := replicate 15 0 ++ [1].
Definition IsUnspecified (a : ip) : bool := Equal a (v4_prefix ++ [0; 0; 0; 0]) || Equal a (replicate 16 0).
Definition IsLoopback (a : ip) : bool :=
  match To4 a with Some v => at_ v 0 =? 127 | None => Equal a IPv6loopback end.
Definition IsPrivate (a : ip) : bool :=
  match To4 a with
  | Some v => (at_ v 0 =? 10) || ((at_ v 0 =? 172) && (Z.land (at_ v 1) 240 =? 16)) || ((at_ v 0 =? 192) && (at_ v 1 =? 168))
  | None => bool_decide (length a = 16%nat) && (Z.land (at_ a 0) 254 =? 252)
  end.
Definition IsMulticast (a : ip) : bool :=
  match To4 a with Some v => Z.land (at_ v 0) 240 =? 224 | None => bool_decide (length a = 16%nat) && (at_ a 0 =? 255) end.
Definition IsInterfaceLocalMulticast (a : ip) : bool :=
  bool_decide (length a = 16%nat) && (at_ a 0 =? 255) && (Z.land (at_ a 1) 15 =? 1).
Definition IsLinkLocalMulticast (a : ip) : bool :=
  match To4 a with
  | Some v => (at_ v 0 =? 224) && (at_ v 1 =? 0) && (at_ v 2 =? 0)
  | None => bool_decide (length a = 16%nat) && (at_ a 0 =? 255) && (Z.land (at_ a 1) 15 =? 2)
  end.
Definition IsLinkLocalUnicast (a : ip) : bool :=
  match To4 a with
  | Some v => (at_ v 0 =? 169) && (at_ v 1 =? 254)
  | None => bool_decide (length a = 16%nat) && (at_ a 0 =? 254) && (Z.land (at_ a 1) 192 =? 128)
  end.

(** ** The screens *)

Definition unsafeIP (a : ip) : bool :=
  IsLoopback a || IsPrivate a || IsLinkLocalUnicast a || IsLinkLocalMulticast a || IsUnspecified a || IsMulticast a.

Definition isCarrierGradeNAT (a : ip) : bool :=
  match To4 a with Some v => (at_ v 0 =? 100) && (Z.land (at_ v 1) 192 =? 64) | None => false end.

(** [ConnectTimeout] and [TLS] play no part in the choice of an address. *)
Record DialPolicy := mkPolicy { OwnResolver : bool; AllowLoopback : bool }.

Definition unsafe (p : DialPolicy) (a : ip) : bool :=
  if AllowLoopback p && IsLoopback a then false
  else unsafeIP a || IsInterfaceLocalMulticast a || isCarrierGradeNAT a || Equal a (v4_prefix ++ [255; 255; 255; 255]).

Record parsed_url := mkUrl { Scheme : string; HasUser : bool; Hostname : string }.

(** The answers of a resolver may differ from one request to the next. *)
Class Net := {
  parse_ip : string -> option ip;
  lookup_ip : nat -> string -> option (list ip);     (* the system's *)
  own_resolve : nat -> string -> option (list ip);   (* the policy's, when it has one *)
  parse_url : string -> option parsed_url }.

Inductive net_error := ErrUnsafeAddress | ErrUnsafeURL | ResolveFailed | BadURL | BadPort (port : Z).

Section dial.
Context `{Unicode} `{Net}.

Definition local_name (host : string) : bool :=
  bool_decide (host = "") || bool_decide (host = "localhost") || has_suffix host ".localhost".

Definition resolve_host (p : DialPolicy) (n : nat) (host : string) : option (list ip) :=
  if OwnResolver p then own_resolve n host else lookup_ip n host.

Definition SafeAddr (p : DialPolicy) (n : nat) (host : string) : result net_error ip :=
  let host := trim_suffix (to_lower (trim_space host)) "." in
  if local_name host then Err ErrUnsafeAddress
  else
    match parse_ip host with
    | Some a => if unsafe p a then Err ErrUnsafeAddress else Ok a
    | None =>
        match resolve_host p n host with
        | None | Some [] => Err ResolveFailed
        | Some (a :: rest) => if existsb (unsafe p) (a :: rest) then Err ErrUnsafeAddress else Ok a
        end
    end.

(** The address dialed with its port, when it comes to that. *)
Definition DialTCP (p : DialPolicy) (n : nat) (host : string) (port : Z) : result net_error (ip * Z) :=
  if (port <? 1) || (65535 <? port) then Err (BadPort port)
  else a ← SafeAddr p n host; Ok (a, port).

Definition ValidateOutboundURL (n : nat) (rawURL : string) : result net_error unit :=
  match parse_url rawURL with
  | None => Err BadURL
  | Some u =>
      if negb (bool_decide (Scheme u ∈ ["http"; "https"; "ws"; "wss"])) then Err ErrUnsafeURL
      else if HasUser u then Err ErrUnsafeURL
      else
        let host := trim_suffix (to_lower (Hostname u)) "." in
        if local_name host then Err ErrUnsafeURL
        else
          match parse_ip host with
          | Some a => if unsafeIP a then Err ErrUnsafeURL else Ok tt
          | None =>
              match lookup_ip n host with
              | None => Err ResolveFailed
              | Some addrs => if existsb unsafeIP addrs then Err ErrUnsafeURL else Ok tt
              end
          end
  end.
End dial.
