(* ===== verification/SafeDialSpec.v ===== *)
(** * No local address is dialed

    The tests on bytes are tests of the address against the ranges for local
    use; other ranges that are not globally reachable are dialed. *)

From S2P Require Import Prelude GoStrings GoText SafeDial.
From Stdlib Require Import ZifyBool Btauto.
#[local] Open Scope Z_scope.

(** ** Addresses as numbers *)

Definition byte_ip (a : ip) : Prop := Forall (fun b => 0 <= b < 256) a.
Definition number (a : ip) : Z := fold_left (fun n b => n * 256 + b) a 0.

Definition in_ranges (n : Z) (l : list (Z * Z)) : bool := existsb (fun r => (r.1 <=? n) && (n <=? r.2)) l.

(** The ranges for local use, as first and last addresses.  IPv4: this host
    (0.0.0.0), private use (10/8, 172.16/12, 192.168/16), carrier-grade NAT
    (100.64/10), loopback (127/8), link-local (169.254/16), multicast (224/4) and
    broadcast.  IPv6: unspecified, loopback, unique local (fc00::/7), link-local
    (fe80::/10) and multicast (ff00::/8). *)
Definition local4 : list (Z * Z) :=
  [(number [0;0;0;0], number [0;0;0;0]); (number [10;0;0;0], number [10;255;255;255]); (number [100;64;0;0], number [100;127;255;255]);
   (number [127;0;0;0], number [127;255;255;255]); (number [169;254;0;0], number [169;254;255;255]); (number [172;16;0;0], number [172;31;255;255]);
   (number [192;168;0;0], number [192;168;255;255]); (number [224;0;0;0], number [239;255;255;255]); (number [255;255;255;255], number [255;255;255;255])].
Definition local6 : list (Z * Z) :=
  [(0, 0); (1, 1); (Z.shiftl 252 120, Z.shiftl 254 120 - 1); (Z.shiftl 65152 112, Z.shiftl 65216 112 - 1); (Z.shiftl 255 120, Z.shiftl 256 120 - 1)].

(** The other ranges that IANA registers as not globally reachable, or that
    embed an IPv4 address.  IPv4: this network (0/8), 192.0.0.0/24, the ranges for
    documentation, 192.88.99.0/24, benchmarking (198.18/15) and 240/4.  IPv6: NAT64
    (64:ff9b::/96, 64:ff9b:1::/48), discard-only (100::/64), 2001::/23,
    documentation (2001:db8::/32), 6to4 (2002::/16) and site-local (fec0::/10). *)
Definition other_special4 : list (Z * Z) :=
  [(number [0;0;0;1], number [0;255;255;255]); (number [192;0;0;0], number [192;0;0;255]); (number [192;0;2;0], number [192;0;2;255]);
   (number [192;88;99;0], number [192;88;99;255]); (number [198;18;0;0], number [198;19;255;255]); (number [198;51;100;0], number [198;51;100;255]);
   (number [203;0;113;0], number [203;0;113;255]); (number [240;0;0;0], number [255;255;255;254])].
Definition block6 (prefix bits : Z) : Z * Z := (Z.shiftl prefix (128 - bits), Z.shiftl (prefix + 1) (128 - bits) - 1).
Definition other_special6 : list (Z * Z) :=
  [block6 (Z.shiftl 6619035 64) 96; block6 (Z.shiftl 6619035 16 + 1) 48; block6 (Z.shiftl 256 48) 64; block6 (Z.shiftr 536936448 9) 23;
   block6 536939960 32; block6 8194 16; block6 (Z.shiftr 65216 6) 10].
Definition other_special (a : ip) : bool :=
  match To4 a with Some v => in_ranges (number v) other_special4 | None => in_ranges (number a) other_special6 end.

(** An address for local use. *)
Definition local_range (a : ip) : bool :=
  match To4 a with Some v => in_ranges (number v) local4 | None => in_ranges (number a) local6 end.

(** ** Bytes *)

Lemma byte_check (p q : Z -> bool) b :
  forallb (fun n => Bool.eqb (p (Z.of_nat n)) (q (Z.of_nat n))) (seq 0 256) = true -> 0 <= b < 256 -> p b = q b.
Proof.
  intros Hall Hb. rewrite forallb_forall in Hall. specialize (Hall (Z.to_nat b)). rewrite Z2Nat.id in Hall by lia.
  apply eqb_prop, Hall, in_seq. lia.
Qed.

Lemma land_240_16 b : 0 <= b < 256 -> (Z.land b 240 =? 16) = (16 <=? b) && (b <=? 31).
Proof. intros Hb. apply (byte_check (fun b => Z.land b 240 =? 16) (fun b => (16 <=? b) && (b <=? 31))); [vm_compute; reflexivity|done]. Qed.
Lemma land_240_224 b : 0 <= b < 256 -> (Z.land b 240 =? 224) = (224 <=? b) && (b <=? 239).
Proof. intros Hb. apply (byte_check (fun b => Z.land b 240 =? 224) (fun b => (224 <=? b) && (b <=? 239))); [vm_compute; reflexivity|done]. Qed.
Lemma land_192_64 b : 0 <= b < 256 -> (Z.land b 192 =? 64) = (64 <=? b) && (b <=? 127).
Proof. intros Hb. apply (byte_check (fun b => Z.land b 192 =? 64) (fun b => (64 <=? b) && (b <=? 127))); [vm_compute; reflexivity|done]. Qed.
Lemma land_192_128 b : 0 <= b < 256 -> (Z.land b 192 =? 128) = (128 <=? b) && (b <=? 191).
Proof. intros Hb. apply (byte_check (fun b => Z.land b 192 =? 128) (fun b => (128 <=? b) && (b <=? 191))); [vm_compute; reflexivity|done]. Qed.
Lemma land_254_252 b : 0 <= b < 256 -> (Z.land b 254 =? 252) = (252 <=? b) && (b <=? 253).
Proof. intros Hb. apply (byte_check (fun b => Z.land b 254 =? 252) (fun b => (252 <=? b) && (b <=? 253))); [vm_compute; reflexivity|done]. Qed.

Lemma number_app a b : number (a ++ b) = number a * 256 ^ Z.of_nat (length b) + number b.
Proof.
  unfold number. rewrite fold_left_app. generalize (fold_left (fun n b0 => n * 256 + b0) a 0). intros n.
  assert (Hg : forall l m, fold_left (fun n b0 => n * 256 + b0) l m = m * 256 ^ Z.of_nat (length l) + fold_left (fun n b0 => n * 256 + b0) l 0).
  { induction l as [|x l IH]; intros m; cbn [fold_left length]; [lia|]. rewrite IH, (IH (0 * 256 + x)). rewrite Nat2Z.inj_succ, Z.pow_succ_r by lia. lia. }
  apply Hg.
Qed.
Lemma number_bounds a : byte_ip a -> 0 <= number a < 256 ^ Z.of_nat (length a).
Proof.
  induction a as [|x a IH] using rev_ind; intros Ha; [cbn; lia|]. apply Forall_app in Ha as [Ha Hx]. apply Forall_cons in Hx as [Hx _].
  specialize (IH Ha). rewrite number_app, length_app, Nat2Z.inj_add, Z.pow_add_r by lia.
  change (256 ^ Z.of_nat (length [x])) with 256. change (number [x]) with (0 * 256 + x). nia.
Qed.
Lemma number_inj a b : byte_ip a -> byte_ip b -> length a = length b -> number a = number b -> a = b.
Proof.
  revert b. induction a as [|x a IH] using rev_ind; intros b Ha Hb Hlen Hn.
  - by destruct b.
  - destruct (exists_last (l := b)) as (b' & y & ->); [intros ->; rewrite length_app in Hlen; cbn in Hlen; lia|].
    apply Forall_app in Ha as [Ha Hx], Hb as [Hb Hy]. apply Forall_cons in Hx as [Hx _], Hy as [Hy _].
    rewrite !number_app in Hn. change (256 ^ Z.of_nat (length [x])) with 256 in Hn. change (256 ^ Z.of_nat (length [y])) with 256 in Hn.
    change (number [x]) with x in Hn. change (number [y]) with y in Hn. rewrite !length_app in Hlen. cbn in Hlen.
    assert (x = y) by lia. subst y. f_equal. apply IH; [done|done|lia|lia].
Qed.

(** ** IPv4 *)

Definition unsafe4 (v : ip) : bool :=
  match v with
  | [b0; b1; b2; b3] =>
      (b0 =? 127) || ((b0 =? 10) || ((b0 =? 172) && (Z.land b1 240 =? 16)) || ((b0 =? 192) && (b1 =? 168))) || ((b0 =? 169) && (b1 =? 254)) ||
      (b0 =? 0) && (b1 =? 0) && (b2 =? 0) && (b3 =? 0) || (Z.land b0 240 =? 224) || ((b0 =? 100) && (Z.land b1 192 =? 64)) ||
      ((b0 =? 255) && (b1 =? 255) && (b2 =? 255) && (b3 =? 255))
  | _ => false
  end.

(** Each range, by the bytes. *)
Lemma ranges4 b0 b1 b2 b3 : byte_ip [b0; b1; b2; b3] ->
  let n := ((b0 * 256 + b1) * 256 + b2) * 256 + b3 in
  (0 <=? n) && (n <=? 0) = (b0 =? 0) && (b1 =? 0) && (b2 =? 0) && (b3 =? 0) /\
  (167772160 <=? n) && (n <=? 184549375) = (b0 =? 10) /\
  (1681915904 <=? n) && (n <=? 1686110207) = (b0 =? 100) && ((64 <=? b1) && (b1 <=? 127)) /\
  (2130706432 <=? n) && (n <=? 2147483647) = (b0 =? 127) /\
  (2851995648 <=? n) && (n <=? 2852061183) = (b0 =? 169) && (b1 =? 254) /\
  (2886729728 <=? n) && (n <=? 2887778303) = (b0 =? 172) && ((16 <=? b1) && (b1 <=? 31)) /\
  (3232235520 <=? n) && (n <=? 3232301055) = (b0 =? 192) && (b1 =? 168) /\
  (3758096384 <=? n) && (n <=? 4026531839) = (224 <=? b0) && (b0 <=? 239) /\
  (4294967295 <=? n) && (n <=? 4294967295) = (b0 =? 255) && (b1 =? 255) && (b2 =? 255) && (b3 =? 255).
Proof. intros Hb. repeat (apply Forall_cons in Hb as [? Hb]). cbv zeta. repeat split; lia. Qed.

Lemma unsafe4_ranges b0 b1 b2 b3 : byte_ip [b0; b1; b2; b3] -> unsafe4 [b0; b1; b2; b3] = in_ranges (number [b0; b1; b2; b3]) local4.
Proof.
  intros Hb. destruct (ranges4 _ _ _ _ Hb) as (H0' & H1' & H2' & H3' & H4' & H5' & H6' & H7' & H8').
  repeat (apply Forall_cons in Hb as [? Hb]). unfold unsafe4. rewrite land_240_16, land_240_224, land_192_64 by done.
  change (number [b0; b1; b2; b3]) with ((((0 * 256 + b0) * 256 + b1) * 256 + b2) * 256 + b3). rewrite Z.mul_0_l, Z.add_0_l.
  set (n := ((b0 * 256 + b1) * 256 + b2) * 256 + b3) in *. change (in_ranges n local4) with
    (((0 <=? n) && (n <=? 0)) || (((167772160 <=? n) && (n <=? 184549375)) || (((1681915904 <=? n) && (n <=? 1686110207)) || (((2130706432 <=? n) && (n <=? 2147483647)) ||
     (((2851995648 <=? n) && (n <=? 2852061183)) || (((2886729728 <=? n) && (n <=? 2887778303)) || (((3232235520 <=? n) && (n <=? 3232301055)) ||
     (((3758096384 <=? n) && (n <=? 4026531839)) || (((4294967295 <=? n) && (n <=? 4294967295)) || false))))))))).
  rewrite H0', H1', H2', H3', H4', H5', H6', H7', H8'. btauto.
Qed.

(** ** IPv6 *)

Lemma scaled_le k low c m : 0 <= low < k -> (c * k <=? m * k + low) = (c <=? m) /\ (m * k + low <=? c * k - 1) = (m <? c).
Proof.
  intros Hl. split; apply eq_true_iff_eq; rewrite !Z.leb_le, ?Z.ltb_lt; split; intros H'.
  - destruct (Z.le_gt_cases c m); [done|]. assert ((m + 1) * k <= c * k) by (apply Z.mul_le_mono_nonneg_r; lia). lia.
  - assert (c * k <= m * k) by (apply Z.mul_le_mono_nonneg_r; lia). lia.
  - destruct (Z.lt_ge_cases m c); [done|]. assert (c * k <= m * k) by (apply Z.mul_le_mono_nonneg_r; lia). lia.
  - assert ((m + 1) * k <= c * k) by (apply Z.mul_le_mono_nonneg_r; lia). lia.
Qed.

Lemma ranges6 a0 a1 low : 0 <= a0 < 256 -> 0 <= a1 < 256 -> 0 <= low < 2 ^ 112 ->
  let n := (a0 * 256 + a1) * 2 ^ 112 + low in
  (Z.shiftl 252 120 <=? n) && (n <=? Z.shiftl 254 120 - 1) = (252 <=? a0) && (a0 <=? 253) /\
  (Z.shiftl 65152 112 <=? n) && (n <=? Z.shiftl 65216 112 - 1) = (a0 =? 254) && ((128 <=? a1) && (a1 <=? 191)) /\
  (Z.shiftl 255 120 <=? n) && (n <=? Z.shiftl 256 120 - 1) = (a0 =? 255).
Proof.
  intros H1 H2 H3. cbv zeta. rewrite !Z.shiftl_mul_pow2 by lia. change (2 ^ 120) with (256 * 2 ^ 112). set (k := 2 ^ 112) in *. clearbody k.
  rewrite !Z.mul_assoc, !(proj1 (scaled_le k low _ _ H3)), !(proj2 (scaled_le k low _ _ H3)). repeat split; lia.
Qed.

Lemma equal_number a b : length a = 16%nat -> length b = 16%nat -> byte_ip a -> byte_ip b -> Equal a b = (number a =? number b).
Proof.
  intros Ha Hb Hba Hbb. unfold Equal. rewrite bool_decide_eq_true_2 by congruence. case_bool_decide as He; symmetry.
  - subst b. apply Z.eqb_refl.
  - apply Z.eqb_neq. intros Hn. apply He, number_inj; [done|done|congruence|done].
Qed.

Lemma not_mapped a v : length a = 16%nat -> length v = 4%nat -> To4 a = None -> Equal a (v4_prefix ++ v) = false.
Proof.
  intros Ha Hv Hn. unfold Equal. rewrite length_app, Hv. cbn [length v4_prefix Nat.add]. rewrite bool_decide_eq_true_2 by done.
  apply bool_decide_eq_false. intros ->. unfold To4 in Hn. rewrite length_app, Hv in Hn. cbn [length v4_prefix Nat.add] in Hn. done.
Qed.

Lemma unsafe6_ranges p a : AllowLoopback p = false -> byte_ip a -> length a = 16%nat -> To4 a = None -> unsafe p a = in_ranges (number a) local6.
Proof.
  intros Hp Hb Hlen Hn. unfold unsafe, unsafeIP, IsLoopback, IsPrivate, IsLinkLocalUnicast, IsLinkLocalMulticast, IsUnspecified, IsMulticast, IsInterfaceLocalMulticast, isCarrierGradeNAT.
  rewrite Hp, Hn, Hlen. cbn [andb]. rewrite !bool_decide_eq_true_2 by done. cbn [andb]. rewrite !(not_mapped a) by done.
  rewrite !equal_number by (try done; repeat (constructor; [lia|]); constructor).
  destruct a as [|a0 [|a1 rest]]; [done..|]. apply Forall_cons in Hb as Hb'. destruct Hb' as [H0' Hb1]. apply Forall_cons in Hb1 as [H1' Hbr].
  change (at_ (a0 :: a1 :: rest) 0) with a0. change (at_ (a0 :: a1 :: rest) 1) with a1. rewrite land_254_252, land_192_128 by done.
  assert (Hlow := number_bounds rest Hbr). cbn [length] in Hlen. injection Hlen as Hlen. rewrite Hlen in Hlow. change (256 ^ Z.of_nat 14) with (2 ^ 112) in Hlow.
  assert (Hnum : number (a0 :: a1 :: rest) = (a0 * 256 + a1) * 2 ^ 112 + number rest).
  { change (a0 :: a1 :: rest) with ([a0; a1] ++ rest). rewrite number_app, Hlen. change (256 ^ Z.of_nat 14) with (2 ^ 112). cbn. lia. }
  rewrite Hnum. destruct (ranges6 a0 a1 (number rest) H0' H1' Hlow) as (E1 & E2 & E3).
  set (n := (a0 * 256 + a1) * 2 ^ 112 + number rest) in *. change (number IPv6loopback) with 1. change (number (replicate 16 0)) with 0.
  assert (Hz : (0 <=? n) && (n <=? 0) = (n =? 0)) by lia. assert (Ho : (1 <=? n) && (n <=? 1) = (n =? 1)) by lia.
  unfold in_ranges, local6. cbn [existsb fst snd]. rewrite E1, E2, E3, Hz, Ho. btauto.
Qed.

Lemma To4_some a v : To4 a = Some v -> (length a = 4%nat /\ a = v) \/ (length a = 16%nat /\ a = v4_prefix ++ v).
Proof.
  unfold To4. case_bool_decide as H4; [intros [= <-]; by left|]. case_bool_decide as H16; [|done]. cbn [andb]. case_bool_decide as Ht; [|done].
  intros [= <-]. right. split; [done|]. by rewrite <- Ht, take_drop.
Qed.

Lemma unsafe_v4 p a v : AllowLoopback p = false -> To4 a = Some v -> length v = 4%nat -> unsafe p a = unsafe4 v.
Proof.
  intros Hp Hv Hlv. unfold unsafe, unsafeIP, IsLoopback, IsPrivate, IsLinkLocalUnicast, IsLinkLocalMulticast, IsUnspecified, IsMulticast, IsInterfaceLocalMulticast, isCarrierGradeNAT.
  rewrite Hp, Hv. destruct v as [|b0 [|b1 [|b2 [|b3 [|? ?]]]]]; try done. change (at_ [b0;b1;b2;b3] 0) with b0. change (at_ [b0;b1;b2;b3] 1) with b1. change (at_ [b0;b1;b2;b3] 2) with b2.
  assert (Heq : forall w0 w1 w2 w3, Equal a (v4_prefix ++ [w0; w1; w2; w3]) = (b0 =? w0) && (b1 =? w1) && (b2 =? w2) && (b3 =? w3)).
  { intros w0 w1 w2 w3. assert (Hl : Equal a (v4_prefix ++ [w0; w1; w2; w3]) = bool_decide ([b0;b1;b2;b3] = [w0;w1;w2;w3])).
    { destruct (To4_some _ _ Hv) as [[_ ->]|[_ ->]]; apply bool_decide_ext; (split; [intros He; injection He; intros; by subst|by intros ->]). }
    rewrite Hl. apply eq_true_iff_eq. rewrite bool_decide_eq_true, !andb_true_iff, !Z.eqb_eq. split; [by intros [= -> -> -> ->]|by intros [[[-> ->] ->] ->]]. }
  assert (H6 : Equal a (replicate 16 0) = false /\ bool_decide (length a = 16%nat) && (at_ a 0 =? 255) = false).
  { destruct (To4_some _ _ Hv) as [[_ ->]|[_ ->]]; (split; [apply bool_decide_eq_false; intros He; discriminate He|reflexivity]). }
  destruct H6 as [-> ->]. rewrite !Heq, !orb_false_r. cbn [andb]. unfold unsafe4.
  destruct ((b0 =? 224) && (b1 =? 0) && (b2 =? 0)) eqn:Hm; [|by rewrite orb_false_r].
  apply andb_true_iff in Hm as [[->%Z.eqb_eq _]%andb_true_iff _]. change (Z.land 224 240 =? 224) with true. by rewrite !orb_true_r.
Qed.

(** ** The address dialed *)

(** What [net.IP] holds. *)
Definition wf_ip (a : ip) : Prop := byte_ip a /\ (length a = 4%nat \/ length a = 16%nat).

Lemma unsafe_local p a : AllowLoopback p = false -> wf_ip a -> unsafe p a = local_range a.
Proof.
  intros Hp [Hb Hlen]. unfold local_range. destruct (To4 a) as [v|] eqn:Hv.
  - assert (H4 : length v = 4%nat /\ byte_ip v).
    { destruct (To4_some _ _ Hv) as [[H4 ->]|[H16 ->]]; [by split|]. rewrite length_app in H16. cbn in H16. split; [lia|]. by apply Forall_app in Hb as [_ ?]. }
    destruct H4 as [H4 Hbv]. rewrite (unsafe_v4 p a v Hp Hv H4). destruct v as [|b0 [|b1 [|b2 [|b3 [|? ?]]]]]; try done. by apply unsafe4_ranges.
  - apply unsafe6_ranges; try done. destruct Hlen as [Hlen|]; [|done]. exfalso. unfold To4 in Hv. by rewrite Hlen, bool_decide_eq_true_2 in Hv.
Qed.

(** Two lists of ranges with no address in common. *)
Definition apart (l l' : list (Z * Z)) : bool := forallb (fun r => forallb (fun q => (r.2 <? q.1) || (q.2 <? r.1)) l') l.
Lemma apart_ranges l l' n : apart l l' = true -> in_ranges n l = true -> in_ranges n l' = false.
Proof.
  unfold apart, in_ranges. intros Ha Hn. apply not_true_iff_false. intros Hn'.
  apply existsb_exists in Hn as (r & Hr & Hrn), Hn' as (q & Hq & Hqn).
  rewrite forallb_forall in Ha. specialize (Ha r Hr). rewrite forallb_forall in Ha. specialize (Ha q Hq). lia.
Qed.

(** None of the other ranges is refused. *)
Lemma special_is_dialed p a : AllowLoopback p = false -> wf_ip a -> other_special a = true -> unsafe p a = false.
Proof.
  intros Hp Ha Hs. rewrite (unsafe_local p a Hp Ha). unfold other_special, local_range in *.
  destruct (To4 a) as [v|]; [apply (apart_ranges other_special4)|apply (apart_ranges other_special6)]; [vm_compute; reflexivity|done..].
Qed.

Section dial.
Context `{Unicode} `{Net}.

(** The answers are addresses. *)
Definition answers_ok : Prop :=
  (forall s a, parse_ip s = Some a -> wf_ip a) /\ (forall n s l, lookup_ip n s = Some l -> Forall wf_ip l) /\ (forall n s l, own_resolve n s = Some l -> Forall wf_ip l).

(** C25. A connection goes to a port of 16 bits at an address in none of the
    ranges for local use ([local_range]; not every range that is not public,
    see [special_is_dialed]): the host's own when it is an address, and
    otherwise the first of a single answer of the resolver, in which no address
    is local.  This is for the policy of production, which lets no loopback
    through, and for resolvers and a parser that answer with addresses of four
    or sixteen bytes. *)
Theorem no_local_dialed p n host port a port' :
  AllowLoopback p = false -> answers_ok -> DialTCP p n host port = Ok (a, port') ->
  port' = port /\ 1 <= port <= 65535 /\ local_range a = false /\
  let name := trim_suffix (to_lower (trim_space host)) "." in
  (parse_ip name = Some a \/
   (parse_ip name = None /\ exists rest, resolve_host p n name = Some (a :: rest) /\ Forall (fun b => local_range b = false) (a :: rest))).
Proof.
  intros Hp (Hparse & Hlook & Hown) Hdial. unfold DialTCP in Hdial. destruct ((port <? 1) || (65535 <? port)) eqn:Hport; [done|].
  apply orb_false_iff in Hport as [H1'%Z.ltb_ge H2'%Z.ltb_ge]. apply result_bind_Ok in Hdial as (a' & Haddr & [= -> ->]). split; [done|]. split; [lia|].
  cbv zeta. unfold SafeAddr in Haddr. set (name := trim_suffix (to_lower (trim_space host)) ".") in *. destruct (local_name name); [done|].
  destruct (parse_ip name) as [b|] eqn:Hb.
  - destruct (unsafe p b) eqn:Hu; [done|]. injection Haddr as ->. rewrite (unsafe_local p a Hp (Hparse _ _ Hb)) in Hu. split; [done|by left].
  - destruct (resolve_host p n name) as [[|b rest]|] eqn:Hr; [done| |done]. destruct (existsb (unsafe p) (b :: rest)) eqn:Hu; [done|]. injection Haddr as ->.
    assert (Hwf : Forall wf_ip (a :: rest)) by (unfold resolve_host in Hr; destruct (OwnResolver p); eauto).
    assert (Hall : Forall (fun b => local_range b = false) (a :: rest)).
    { rewrite Forall_forall in Hwf |- *. intros b Hin. rewrite <- (unsafe_local p b Hp (Hwf b Hin)). by apply (proj1 (existsb_false_elem _ _) Hu). }
    split; [by apply Forall_cons in Hall as [? _]|]. right. split; [done|]. by exists rest.
Qed.
End dial.

(** ** Closed examples *)

#[local] Existing Instance ascii_tables.
#[local] Instance demo_net : Net :=
  {| parse_ip := fun s => if bool_decide (s = "10.1.2.3") then Some [10;1;2;3] else None;
     lookup_ip := fun n s => if bool_decide (s = "example.com") then Some [[93;184;216;34]] else if bool_decide (s = "rebind.test") then Some (if Nat.eqb n 0 then [[93;184;216;34]] else [[127;0;0;1]]) else None;
     own_resolve := fun _ _ => None;
     parse_url := fun s => if bool_decide (s = "http://cgn.test/") then Some (mkUrl "http" false "cgn.test") else None |}.

Lemma no_local_dialed_witness :
  DialTCP (mkPolicy false false) 0 "Example.com." 443 = Ok ([93;184;216;34], 443) /\ local_range [93;184;216;34] = false.
Proof.
  assert (Hd : DialTCP (mkPolicy false false) 0 "Example.com." 443 = Ok ([93;184;216;34], 443)) by (vm_compute; reflexivity). split; [exact Hd|].
  assert (Hwf : forall a b c d, 0 <= a < 256 -> 0 <= b < 256 -> 0 <= c < 256 -> 0 <= d < 256 -> wf_ip [a; b; c; d]).
  { intros a b c d Ha Hb Hc Hd'. split; [|by left]. repeat (constructor; [done|]). constructor. }
  apply (no_local_dialed (mkPolicy false false) 0 "Example.com." 443 [93;184;216;34] 443 eq_refl); [|exact Hd].
  split; [|split].
  - intros s a. cbn. case_bool_decide; [|done]. intros [= <-]. apply Hwf; lia.
  - intros n s l. cbn. case_bool_decide; [intros [= <-]; constructor; [apply Hwf; lia|constructor]|]. case_bool_decide; [|done].
    intros [= <-]. destruct (Nat.eqb n 0); (constructor; [apply Hwf; lia|constructor]).
  - intros n s l. done.
Defined.

(** Addresses that are not public, and are dialed: 0.1.2.3, 198.18.0.1, 240.0.0.1,
    fec0::1, and 127.0.0.1 as 64:ff9b::7f00:1 and as 2002:7f00:1::. *)
Example not_public_but_dialed :
  forallb (fun a => other_special a && negb (unsafe (mkPolicy false false) a))
    [[0;1;2;3]; [198;18;0;1]; [240;0;0;1]; [254;192;0;0;0;0;0;0;0;0;0;0;0;0;0;1];
     [0;100;255;155;0;0;0;0;0;0;0;0;127;0;0;1]; [32;2;127;0;0;1;0;0;0;0;0;0;0;0;0;0]] = true.
Proof. vm_compute. reflexivity. Qed.

(** Carrier-grade NAT passes the screen of URLs. *)
Example url_screen_lets_through : unsafeIP [100;64;0;1] = false /\ local_range [100;64;0;1] = true.
Proof. by split. Qed.
