(* ===== verification/Cron.v ===== *)
(** * The cron scheduler ([internal/agent/cron_scheduler.go])

    Jobs in memory, their rows, and the entries of the cron library.  A job
    in memory is an object that the map and the closure of its entry share:
    [heap] holds the objects, a reference is their number.  The library
    ([robfig/cron]) is the class [CronLib] with what it documents; the engine
    and the recipients the class [CronWorld].

    The methods hold the mutex while they run.  [executeJob] takes it for its
    guard, for the time of the run and for its deferred end: these are steps
    of their own. *)

From S2P Require Import Prelude GoStrings Io Tables.
From Stdlib Require Import Ascii.
#[local] Open Scope Z_scope.

Definition DefaultCronJobsPerAgent : Z := 8.

Record CronJob := mkJob {
  JID : string; JAgentID : string; JName : string; CronExpr : string; JPrompt : string;
  TargetChannel : string; TargetAccountID : string; TargetRecipient : string; Enabled : bool;
  LastRun : option Z; NextRun : option Z; entryID : nat }.

(** An entry fires the object [r]. *)
Class CronLib := {
  cron_state : Type;
  new_cron : cron_state;
  entries : cron_state -> gmap nat nat;
  AddFunc : string -> nat -> cron_state -> option (nat * cron_state);
  RemoveEntry : nat -> cron_state -> cron_state;
  EntryNext : nat -> cron_state -> option Z;
  entries_new : entries new_cron = ∅;
  entries_add : forall e r c id c', AddFunc e r c = Some (id, c') -> id <> 0%nat /\ entries c !! id = None /\ entries c' = <[id := r]> (entries c);
  entries_remove : forall id c, entries (RemoveEntry id c) = delete id (entries c) }.

Class CronWorld := {
  default_recipient : string -> string;
  has_configured_llm : nat -> bool;
  execute_step : nat -> string -> string -> result string (option (string * Z));   (* content, tokens *)
  elapsed : nat -> Z;
  random_hex : nat -> string }.

Record JobRow := mkJobRow {
  RAgent : string; RName : string; RExpr : string; RPrompt : string; RChannel : string; RAccount : string; RRecipient : string;
  REnabled : bool; RLastRun : option Z; RCreated : Z; RUpdated : Z }.

Record CronExecutionRecord := mkRecord {
  XID : string; XJob : string; XAgent : string; XStatus : string; XPrompt : string; XOutput : string; XError : string;
  DurationMS : Z; TokensUsed : Z; ExecutedAt : option Z }.

Record proactive_event := mkProactive {
  PAgent : string; PJob : string; PName : string; PChannel : string; PAccount : string; PRecipient : string; PContent : string }.

Inductive phase := Skipped | Working | Done.

Section cron.
Context `{CronLib} `{CronWorld} `{MapRange}.

Record CronScheduler := mkScheduler {
  cron : cron_state; heap : list CronJob; jobs : gmap string nat; runningJobs : gset string;
  has_db : bool; cron_rows : gmap string JobRow; history : list CronExecutionRecord;
  has_getter : bool; has_engine : bool; has_bus : bool;
  inflight : list (nat * phase);            (* executions that have not ended, with their object *)
  steps : list (string * string);           (* runs of the engine: agent and prompt *)
  published : list proactive_event }.

Inductive cron_error := CronDb | QuotaExceeded (agent : string) | InvalidCron (expr : string).
Abbreviation cop := (io CronScheduler cron_error).

Definition set_cron s x := mkScheduler x (heap s) (jobs s) (runningJobs s) (has_db s) (cron_rows s) (history s) (has_getter s) (has_engine s) (has_bus s) (inflight s) (steps s) (published s).
Definition set_heap s x := mkScheduler (cron s) x (jobs s) (runningJobs s) (has_db s) (cron_rows s) (history s) (has_getter s) (has_engine s) (has_bus s) (inflight s) (steps s) (published s).
Definition set_jobs s x := mkScheduler (cron s) (heap s) x (runningJobs s) (has_db s) (cron_rows s) (history s) (has_getter s) (has_engine s) (has_bus s) (inflight s) (steps s) (published s).
Definition set_running s x := mkScheduler (cron s) (heap s) (jobs s) x (has_db s) (cron_rows s) (history s) (has_getter s) (has_engine s) (has_bus s) (inflight s) (steps s) (published s).
Definition set_cron_rows s x := mkScheduler (cron s) (heap s) (jobs s) (runningJobs s) (has_db s) x (history s) (has_getter s) (has_engine s) (has_bus s) (inflight s) (steps s) (published s).
Definition set_history s x := mkScheduler (cron s) (heap s) (jobs s) (runningJobs s) (has_db s) (cron_rows s) x (has_getter s) (has_engine s) (has_bus s) (inflight s) (steps s) (published s).
Definition set_inflight s x := mkScheduler (cron s) (heap s) (jobs s) (runningJobs s) (has_db s) (cron_rows s) (history s) (has_getter s) (has_engine s) (has_bus s) x (steps s) (published s).
Definition add_step s x := mkScheduler (cron s) (heap s) (jobs s) (runningJobs s) (has_db s) (cron_rows s) (history s) (has_getter s) (has_engine s) (has_bus s) (inflight s) (steps s ++ [x]) (published s).
Definition add_published s x := mkScheduler (cron s) (heap s) (jobs s) (runningJobs s) (has_db s) (cron_rows s) (history s) (has_getter s) (has_engine s) (has_bus s) (inflight s) (steps s) (published s ++ [x]).

Definition with_entry (j : CronJob) (id : nat) (next : option Z) : CronJob :=
  mkJob (JID j) (JAgentID j) (JName j) (CronExpr j) (JPrompt j) (TargetChannel j) (TargetAccountID j) (TargetRecipient j) (Enabled j) (LastRun j) next id.
Definition with_targets (j : CronJob) (channel account recipient : string) : CronJob :=
  mkJob (JID j) (JAgentID j) (JName j) (CronExpr j) (JPrompt j) channel account recipient (Enabled j) (LastRun j) (NextRun j) (entryID j).
Definition with_last_run (j : CronJob) (t : Z) : CronJob :=
  mkJob (JID j) (JAgentID j) (JName j) (CronExpr j) (JPrompt j) (TargetChannel j) (TargetAccountID j) (TargetRecipient j) (Enabled j) (Some t) (NextRun j) (entryID j).

Definition line_feed : string := String "010"%char "".
Definition quoted (s : string) : string := String "034"%char s +:+ String "034"%char "".
Definition all_if_empty (s : string) : string := if bool_decide (s = "") then "all" else s.

(** Make the object of a job and list it, with its entry when it is enabled. *)
Definition schedule (j : CronJob) (s : CronScheduler) : option (CronJob * CronScheduler) :=
  let r := length (heap s) in
  match AddFunc (CronExpr j) r (cron s) with
  | None => None
  | Some (id, c) => let j := with_entry j id (EntryNext id c) in Some (j, set_heap (set_cron s c) (heap s ++ [j]))
  end.
Definition list_job (id : string) (r : nat) (s : CronScheduler) : CronScheduler := set_jobs s (<[id := r]> (jobs s)).

(** ** Loading *)

Definition job_of_row (id : string) (r : JobRow) : CronJob :=
  mkJob id (RAgent r) (RName r) (RExpr r) (RPrompt r) (RChannel r) (all_if_empty (RAccount r)) (RRecipient r) (REnabled r) (RLastRun r) None 0.

Definition hydrate (j : CronJob) (s : CronScheduler) : CronScheduler :=
  let r := length (heap s) in
  let plain := list_job (JID j) r (set_heap s (heap s ++ [j])) in
  if Enabled j then match schedule j s with Some (_, s') => list_job (JID j) r s' | None => plain end
  else plain.

Definition loadJobsFromDB : cop unit :=
  s ← get;
  if negb (has_db s) then mret tt
  else
    q ← attempt (db CronDb);
    match q with
    | Err _ => mret tt
    | Ok _ =>
        rows ← ranged (cron_rows s);
        for_each (fun kr : string * JobRow =>
          scanned ← attempt (db CronDb);
          match scanned with Err _ => mret tt | Ok _ => modify (hydrate (job_of_row kr.1 kr.2)) end) rows
    end.

(** A scheduler at start: [rows] and [past] are what the database holds. *)
Definition fresh_scheduler (database : bool) (rows : gmap string JobRow) (past : list CronExecutionRecord) (getter engine bus : bool) : CronScheduler :=
  mkScheduler new_cron [] ∅ ∅ database rows past getter engine bus [] [] [].

(** [SetDB]: attach the database that holds [rows] and [past] and load it;
    what is in memory stays. *)
Definition SetDB (rows : gmap string JobRow) (past : list CronExecutionRecord) : cop unit :=
  _ ← modify (fun s => mkScheduler (cron s) (heap s) (jobs s) (runningJobs s) true rows past (has_getter s) (has_engine s) (has_bus s) (inflight s) (steps s) (published s));
  loadJobsFromDB.

Definition SetDefaultRecipientGetter : cop unit :=
  modify (fun s => mkScheduler (cron s) (heap s) (jobs s) (runningJobs s) (has_db s) (cron_rows s) (history s) true (has_engine s) (has_bus s) (inflight s) (steps s) (published s)).
Definition GetDefaultRecipient (channel : string) : cop string :=
  s ← get; mret (if has_getter s then default_recipient channel else "").

(** ** Registration *)

Definition owned_by (agent : string) (s : CronScheduler) : Z :=
  Z.of_nat (size (filter (fun kr : string * nat => (JAgentID <$> heap s !! kr.2) = Some agent) (jobs s))).
Definition CountJobsForAgent (agent : string) (s : CronScheduler) : Z := owned_by agent s.

Definition upsert (j : CronJob) (now : Z) (old : option JobRow) : JobRow :=
  mkJobRow (JAgentID j) (JName j) (CronExpr j) (JPrompt j) (TargetChannel j) (TargetAccountID j) (TargetRecipient j) (Enabled j)
    (match old with Some r => RLastRun r | None => LastRun j end) (match old with Some r => RCreated r | None => now end) now.

(** The entry of a job that is replaced or removed goes. *)
Definition drop_entry (id : string) (s : CronScheduler) : CronScheduler :=
  match r ← jobs s !! id; heap s !! r with
  | Some j => if bool_decide (entryID j = 0%nat) then s else set_cron s (RemoveEntry (entryID j) (cron s))
  | None => s
  end.

Definition with_defaults (getter : bool) (j : CronJob) : CronJob :=
  let channel := all_if_empty (TargetChannel j) in
  with_targets j channel (TargetAccountID j) (if bool_decide (TargetRecipient j = "") && getter then default_recipient channel else TargetRecipient j).

Definition RegisterJob (job : CronJob) : cop unit :=
  s ← get;
  if negb (bool_decide (JAgentID job = "")) && negb (bool_decide (is_Some (jobs s !! JID job))) && (DefaultCronJobsPerAgent <=? owned_by (JAgentID job) s)
  then throw (QuotaExceeded (JAgentID job))
  else
    _ ← modify (drop_entry (JID job));
    s ← get;
    let r := length (heap s) in
    let j := with_defaults (has_getter s) job in
    _ ← (if Enabled job then
           match schedule j s with
           | None => throw (InvalidCron (CronExpr job))
           | Some (_, s') => modify (fun _ => s')
           end
         else modify (fun s => set_heap s (heap s ++ [j])));
    _ ← modify (list_job (JID job) r);
    s ← get;
    if negb (has_db s) then mret tt
    else
      t ← now;
      _ ← modify (fun s => set_heap s (alter (fun j => with_targets j (TargetChannel j) (all_if_empty (TargetAccountID j)) (TargetRecipient j)) r (heap s)));
      ignore (_ ← db CronDb; modify (fun s => match heap s !! r with
        | Some j => set_cron_rows s (<[JID job := upsert j t (cron_rows s !! JID job)]> (cron_rows s))
        | None => s end)).

Definition RemoveJob (jobID : string) : cop unit :=
  _ ← modify (fun s => set_jobs (drop_entry jobID s) (delete jobID (jobs s)));
  s ← get;
  if negb (has_db s) then mret tt
  else ignore (_ ← db CronDb; modify (fun s => set_cron_rows s (delete jobID (cron_rows s)))).

Definition ListJobs : cop (list CronJob) :=
  s ← get; l ← ranged (jobs s);
  mret (omap (fun kr : string * nat => j ← heap s !! kr.2;
    Some (if bool_decide (entryID j = 0%nat) then j else with_entry j (entryID j) (EntryNext (entryID j) (cron s)))) l).

Definition RegisterCron (id agentID cronExpr prompt targetChannel targetAccountID targetRecipient : string) : cop unit :=
  s ← get;
  let channel := all_if_empty targetChannel in
  let recipient := if bool_decide (targetRecipient = "") && has_getter s then default_recipient channel else targetRecipient in
  RegisterJob (mkJob id agentID id cronExpr prompt channel (all_if_empty targetAccountID) recipient true None None 0).

Definition RemoveCron (id : string) : cop unit := RemoveJob id.

(** The columns of [ListCrons], in the order of the source. *)
Definition cron_fields (j : CronJob) : list string * bool * option Z * option Z :=
  ([JID j; JName j; JAgentID j; CronExpr j; JPrompt j; TargetChannel j; TargetAccountID j; TargetRecipient j], Enabled j, NextRun j, LastRun j).
Definition ListCrons : cop (list (list string * bool * option Z * option Z)) := l ← ListJobs; mret (cron_fields <$> l).

(** ** Execution *)

Definition with_record_id (x : CronExecutionRecord) (id : string) : CronExecutionRecord :=
  mkRecord id (XJob x) (XAgent x) (XStatus x) (XPrompt x) (XOutput x) (XError x) (DurationMS x) (TokensUsed x) (ExecutedAt x).

Definition recordExecution (rec : CronExecutionRecord) : cop unit :=
  s ← get;
  if negb (has_db s) then mret tt
  else
    rec ← (if bool_decide (XID rec = "") then
             n ← draw; t ← now; mret (with_record_id rec ("ceh_" +:+ pretty t +:+ "_" +:+ random_hex n))
           else mret rec);
    ignore (_ ← db CronDb; modify (fun s => set_history s (filter (fun x => XID x <> XID rec) (history s) ++ [rec]))).

Definition BuildCronExecutionPrompt (job : CronJob) : string :=
  "[AUTONOMOUS PROACTIVE NOTIFICATION TRIGGER]" +:+ line_feed +:+
  "Task Name: " +:+ JName job +:+ line_feed +:+
  "Task Directive / Reminder Content: " +:+ JPrompt job +:+ line_feed +:+
  "Push Channel: " +:+ TargetChannel job +:+ line_feed +:+ line_feed +:+
  "YOU ARE EXECUTING AN AUTOMATED NOTIFICATION / REPORT TO YOUR OWNER." +:+ line_feed +:+
  "CRITICAL INSTRUCTIONS:" +:+ line_feed +:+
  "1. Output the complete, actual message/content directly as your final response text." +:+ line_feed +:+
  "2. DO NOT invoke 'native_channel_notify' tool because the ActonOS Cron Engine will automatically push your response text directly to the target channel (" +:+ TargetChannel job +:+ ")." +:+ line_feed +:+
  "3. DO NOT output meta-commentary, conversational filler, or status updates like " +:+ quoted "The notification has been sent via Telegram" +:+
  " or " +:+ quoted "Dispatched successfully" +:+ ". Simply output the actual content itself." +:+ line_feed +:+
  "4. Address the owner respectfully and naturally in their language (Vietnamese if applicable).".

(** The first section: the object is skipped when its job is running. *)
Definition trigger (r : nat) : cop unit :=
  modify (fun s =>
    match heap s !! r with
    | None => s
    | Some j =>
        if bool_decide (JID j ∈ runningJobs s) then set_inflight s (inflight s ++ [(r, Skipped)])
        else set_inflight (set_running s ({[JID j]} ∪ runningJobs s)) (inflight s ++ [(r, Working)])
    end).

Definition redundant_report (content : string) : bool :=
  has_prefix content "The notification has been successfully sent" || has_prefix content "Successfully dispatched proactive notification"
  || has_prefix content "Notification sent".

Definition record_id (t : Z) (j : CronJob) : string := "ceh_" +:+ pretty t +:+ "_" +:+ JID j.

Definition touch_job (r : nat) (t : Z) : cop unit :=
  _ ← modify (fun s => set_heap s (alter (fun j => with_last_run j t) r (heap s)));
  s ← get;
  match heap s !! r with
  | Some j =>
      if negb (has_db s) then mret tt
      else ignore (_ ← db CronDb; modify (fun s => set_cron_rows s (alter (fun row =>
        mkJobRow (RAgent row) (RName row) (RExpr row) (RPrompt row) (RChannel row) (RAccount row) (RRecipient row) (REnabled row) (Some t) (RCreated row) t) (JID j) (cron_rows s))))
  | None => mret tt
  end.

(** The work between the guard and the deferred end. *)
Definition work (r : nat) : cop unit :=
  t ← now;
  _ ← touch_job r t;
  s ← get;
  match heap s !! r with
  | None => mret tt
  | Some j =>
      n ← draw;
      if has_engine s && negb (has_configured_llm n) then
        t ← now;
        recordExecution (mkRecord (record_id t j) (JID j) (JAgentID j) "skipped" (JPrompt j) "Execution skipped: no real LLM provider configured in Settings." "" 0 0 (LastRun j))
      else
        answer ← (if has_engine s then
                    let prompt := BuildCronExecutionPrompt j in
                    _ ← modify (fun s => add_step s (JAgentID j, prompt));
                    mret (execute_step n (JAgentID j) prompt)
                  else mret (Ok (Some ("Simulated proactive output for " +:+ JName j, 0))));
        let '(content, tokens) := match answer with Ok (Some x) => x | _ => ("", 0) end in
        let '(status, text) := match answer with Err e => ("failed", e) | Ok _ => ("success", "") end in
        t ← now;
        _ ← recordExecution (mkRecord (record_id t j) (JID j) (JAgentID j) status (JPrompt j) content text (elapsed n) tokens (LastRun j));
        if has_bus s && negb (bool_decide (content = "")) && negb (redundant_report content)
           && negb (bool_decide (TargetChannel j = "none")) && negb (bool_decide (TargetChannel j = ""))
        then modify (fun s => add_published s (mkProactive (JAgentID j) (JID j) (JName j) (TargetChannel j) (TargetAccountID j) (TargetRecipient j) content))
        else mret tt
  end.

(** The deferred function, after a skipped execution as well. *)
Definition cleanup (i : nat) : cop unit :=
  modify (fun s =>
    match inflight s !! i with
    | None => s
    | Some (r, _) =>
        let s := set_inflight s (take i (inflight s) ++ drop (S i) (inflight s)) in
        match heap s !! r with Some j => set_running s (runningJobs s ∖ {[JID j]}) | None => s end
    end).

Definition set_phase (i : nat) (p : phase) (s : CronScheduler) : CronScheduler :=
  set_inflight s (alter (fun x : nat * phase => (x.1, p)) i (inflight s)).

(** The next step of the [i]-th execution under way. *)
Definition advance (i : nat) : cop unit :=
  s ← get;
  match inflight s !! i with
  | Some (r, Working) => _ ← work r; modify (set_phase i Done)
  | Some (_, _) => cleanup i
  | None => mret tt
  end.

(** ** History *)

Definition newest_records (limit : Z) (l : list CronExecutionRecord) : list CronExecutionRecord :=
  take (Z.to_nat limit) (reverse (order_asc (fun x => default 0 (ExecutedAt x)) l)).

Definition GetExecutionHistory (jobID : string) (limit : Z) : cop (list CronExecutionRecord) :=
  s ← get;
  if negb (has_db s) then mret []
  else
    let limit := if (limit <=? 0) || (50 <? limit) then 10 else limit in
    _ ← db CronDb; _ ← db CronDb;
    mret (newest_records limit (filter (fun x => XJob x = jobID) (history s))).

Definition ListAllExecutionHistory (limit : Z) : cop (list CronExecutionRecord) :=
  s ← get;
  if negb (has_db s) then mret []
  else
    let limit := if (limit <=? 0) || (100 <? limit) then 30 else limit in
    _ ← db CronDb; _ ← db CronDb;
    mret (newest_records limit (history s)).
End cron.
