(* ===== verification/CronProps.v ===== *)
(** * What the cron scheduler promises

    The entries of the cron library, the jobs in memory and their rows say
    the same thing, whatever is registered, removed, fired and read; the quota,
    a restart, and what a run that overlaps another does. *)

From S2P Require Import Prelude GoStrings Io Tables Cron.
#[local] Open Scope Z_scope.

Section spec.
Context `{L : CronLib} `{W : CronWorld} `{M : MapRange}.
Abbreviation cop := (io CronScheduler cron_error).

(** ** Calls in sequence *)

Inductive cron_call :=
  | CRegister (job : CronJob) | CRemove (id : string) | CList
  | CTrigger (r : nat) | CAdvance (i : nat) | CHistory (id : string) (limit : Z) | CAllHistory (limit : Z).

Definition do_call (c : cron_call) : cop unit :=
  match c with
  | CRegister job => ignore (RegisterJob job)
  | CRemove id => RemoveJob id
  | CList => ignore ListJobs
  | CTrigger r => trigger r
  | CAdvance i => advance i
  | CHistory id limit => ignore (GetExecutionHistory id limit)
  | CAllHistory limit => ignore (ListAllExecutionHistory limit)
  end.

(** The scheduler of a process: start on a database, then the calls. *)
Definition session (calls : list cron_call) : cop unit := _ ← loadJobsFromDB; for_each do_call calls.

(** A caller outside the package cannot set the entry. *)
Definition from_outside (c : cron_call) : Prop := match c with CRegister job => entryID job = 0%nat | _ => True end.

(** ** What executions and reads leave alone *)

Definition core (j : CronJob) : CronJob := with_last_run j 0.
Definition row_core (r : JobRow) : JobRow :=
  mkJobRow (RAgent r) (RName r) (RExpr r) (RPrompt r) (RChannel r) (RAccount r) (RRecipient r) (REnabled r) None 0 0.

Record same_jobs (s s' : CronScheduler) : Prop := {
  same_cron : cron s' = cron s;
  same_list : jobs s' = jobs s;
  same_db : has_db s' = has_db s;
  same_heap : core <$> heap s' = core <$> heap s;
  same_rows : row_core <$> cron_rows s' = row_core <$> cron_rows s }.

#[local] Instance same_jobs_preorder : PreOrder same_jobs.
Proof. split; [by intros s; split|]. intros s1 s2 s3 [] []. split; congruence. Qed.

Lemma fmap_alter_same {A B} (f : A -> B) (g : A -> A) (i : nat) (l : list A) :
  (forall x, f (g x) = f x) -> f <$> alter g i l = f <$> l.
Proof.
  intros Hg. apply list_eq. intros k. rewrite !list_lookup_fmap, list_lookup_alter. case_decide as Hik; [|done].
  rewrite Hik. destruct (l !! k); cbn; by rewrite ?Hg.
Qed.
Lemma map_fmap_alter_same {A B} (f : A -> B) (g : A -> A) (i : string) (m : gmap string A) :
  (forall x, f (g x) = f x) -> f <$> alter g i m = f <$> m.
Proof.
  intros Hg. apply map_eq. intros k. rewrite !lookup_fmap, lookup_alter. case_decide as Hik; [|done].
  rewrite Hik. destruct (m !! k); cbn; by rewrite ?Hg.
Qed.

Ltac same := try typeclasses eauto; try reflexivity; try (split; reflexivity).

Lemma keeps_record rec : keeps same_jobs (recordExecution rec).
Proof. unfold recordExecution. keeps_go; same. Qed.
Lemma keeps_touch r t : keeps same_jobs (touch_job r t).
Proof.
  unfold touch_job. keeps_go; same.
  - split; try reflexivity. cbn [heap set_heap]. by apply fmap_alter_same.
  - split; try reflexivity. cbn [cron_rows set_cron_rows]. by apply map_fmap_alter_same.
Qed.
#[local] Hint Resolve keeps_record keeps_touch : keeps.
Lemma keeps_trigger r : keeps same_jobs (trigger r).
Proof. unfold trigger. keeps_go. destruct (heap s !! r); [case_bool_decide|]; same. Qed.
Lemma keeps_cleanup i : keeps same_jobs (cleanup i).
Proof. unfold cleanup. keeps_go. destruct (inflight s !! i) as [[r p]|]; [|same]. cbn. destruct (heap s !! r); same. Qed.
Lemma keeps_work r : keeps same_jobs (work r).
Proof. unfold work. keeps_go; same. Qed.
#[local] Hint Resolve keeps_trigger keeps_cleanup keeps_work : keeps.
Lemma keeps_advance i : keeps same_jobs (advance i).
Proof. unfold advance. keeps_go; same. Qed.
Lemma keeps_ListJobs : keeps same_jobs ListJobs.
Proof. unfold ListJobs, ranged. keeps_go; same. Qed.
Lemma keeps_history id limit : keeps same_jobs (GetExecutionHistory id limit).
Proof. unfold GetExecutionHistory. keeps_go; same. Qed.
Lemma keeps_all_history limit : keeps same_jobs (ListAllExecutionHistory limit).
Proof. unfold ListAllExecutionHistory. keeps_go; same. Qed.
#[local] Hint Resolve keeps_advance keeps_ListJobs keeps_history keeps_all_history : keeps.

(** The calls that change neither jobs nor entries. *)
Definition passive (c : cron_call) : Prop := match c with CRegister _ | CRemove _ => False | _ => True end.
Lemma call_cases c : passive c \/ (exists job, c = CRegister job) \/ (exists id, c = CRemove id).
Proof. destruct c; cbn; eauto. Qed.
Lemma keeps_passive c : passive c -> keeps same_jobs (do_call c).
Proof. intros Hc. destruct c; cbn in Hc; try done; cbn [do_call]; keeps_go; same. Qed.

Lemma quiet_record rec : quiet (recordExecution rec). Proof. unfold recordExecution. quiet_go. Qed.
Lemma quiet_touch r t : quiet (touch_job r t). Proof. unfold touch_job. quiet_go. Qed.
#[local] Hint Resolve quiet_record quiet_touch : quiet.
Lemma quiet_work r : quiet (work r). Proof. unfold work. quiet_go. Qed.
Lemma quiet_cleanup i : quiet (cleanup i). Proof. unfold cleanup. quiet_go. Qed.
#[local] Hint Resolve quiet_work quiet_cleanup : quiet.
Lemma quiet_passive c : passive c -> quiet (do_call c).
Proof.
  destruct c; try done; intros _; cbn [do_call]; unfold ListJobs, ranged, trigger, advance, GetExecutionHistory, ListAllExecutionHistory; quiet_go.
Qed.

(** ** Registration *)

Definition over_quota (job : CronJob) (s : CronScheduler) : bool :=
  negb (bool_decide (JAgentID job = "")) && negb (bool_decide (is_Some (jobs s !! JID job))) && (DefaultCronJobsPerAgent <=? owned_by (JAgentID job) s).

(** A new object [j] is listed, with the library in state [c] and, when it
    was written, its row. *)
Definition entered (c : cron_state) (j : CronJob) (row : option JobRow) (s : CronScheduler) : CronScheduler :=
  let s := set_jobs (set_heap (set_cron s c) (heap s ++ [j])) (<[JID j := length (heap s)]> (jobs s)) in
  match row with None => s | Some x => set_cron_rows s (<[JID j := x]> (cron_rows s)) end.

(** What the library did for [j], the object with number [r]. *)
Definition arranged (c : cron_state) (r : nat) (j : CronJob) (c' : cron_state) : Prop :=
  if Enabled j then AddFunc (CronExpr j) r c = Some (entryID j, c') else c' = c.

(** The fields a restart keeps. *)
Definition text (j : CronJob) : CronJob := with_last_run (with_entry j 0 None) 0.
Definition saved (id : string) (r : JobRow) : CronJob := text (job_of_row id r).

Lemma drop_entry_cron id s : exists c, drop_entry id s = set_cron s c.
Proof.
  unfold drop_entry. destruct (_ ≫= _) as [j|]; [case_bool_decide|]; [exists (cron s)|eexists; reflexivity|exists (cron s)]; by destruct s.
Qed.

Definition account_all (j : CronJob) : CronJob := with_targets j (TargetChannel j) (all_if_empty (TargetAccountID j)) (TargetRecipient j).

Lemma all_if_empty_idem a : all_if_empty (all_if_empty a) = all_if_empty a.
Proof. unfold all_if_empty. by repeat case_bool_decide. Qed.
Lemma saved_upsert j t old : JID j = JID (account_all j) /\ saved (JID j) (upsert (account_all j) t old) = text (account_all j).
Proof. split; [done|]. destruct j, old; unfold saved, job_of_row, upsert, text, account_all; cbn; by rewrite all_if_empty_idem. Qed.

(** How a registration that went through ends. *)
Record registered (job : CronJob) (s : CronScheduler) (calm_db : Prop) (s' : CronScheduler) : Prop := {
  reg_shape : exists c j row, s' = entered c j row (drop_entry (JID job) s) /\
    JID j = JID job /\ JAgentID j = JAgentID job /\ Enabled j = Enabled job /\ CronExpr j = CronExpr job /\ (Enabled job = false -> entryID j = entryID job) /\
    arranged (cron (drop_entry (JID job) s)) (length (heap s)) j c /\
    (calm_db -> has_db s = true -> exists x, row = Some x /\ saved (JID job) x = text j) }.

Lemma alter_last (f : CronJob -> CronJob) l j r : r = length l -> alter f r (l ++ [j]) = l ++ [f j].
Proof. intros ->. rewrite alter_app_r_alt by lia. by rewrite Nat.sub_diag. Qed.
Lemma lookup_last (l : list CronJob) j r : r = length l -> (l ++ [j]) !! r = Some j.
Proof. intros ->. by apply list_lookup_middle. Qed.

(** Listing [j], the last object, and writing its row. *)
Lemma wp_persist (job j : CronJob) c s0 (Q : result cron_error unit -> CronScheduler -> env -> Prop) e r :
  r = length (heap s0) -> JID j = JID job ->
  (forall row e', (faults e = [] -> faults e' = []) ->
    (faults e = [] -> has_db s0 = true -> exists x, row = Some x /\ saved (JID job) x = text (account_all j)) ->
    Q (Ok tt) (entered c (if has_db s0 then account_all j else j) row s0) e') ->
  wp (_ ← modify (list_job (JID job) r);
      s ← get;
      if negb (has_db s) then mret tt
      else
        t ← now;
        _ ← modify (fun s => set_heap s (alter account_all r (heap s)));
        ignore (_ ← db CronDb; modify (fun s => match heap s !! r with
          | Some j => set_cron_rows s (<[JID job := upsert j t (cron_rows s !! JID job)]> (cron_rows s))
          | None => s end))) Q (set_heap (set_cron s0 c) (heap s0 ++ [j])) e.
Proof.
  intros Hr Hid HQ. apply wp_bind, wp_modify. cbv beta iota. apply wp_bind, wp_get. cbv beta iota. cbn [has_db list_job set_jobs set_heap set_cron].
  destruct (has_db s0) eqn:Hdb; cbn [negb].
  2: { apply wp_ret. refine (eq_rect _ (fun x => Q (Ok tt) x e) (HQ None e _ _) _ _); [done|done|]. unfold entered, list_job. by rewrite Hid, Hr. }
  apply wp_bind, wp_now_onward. intros e1 [_ He1]. cbv beta iota. apply wp_bind, wp_modify. cbv beta iota. apply wp_ignore, wp_bind.
  unfold list_job. cbn [heap set_heap set_jobs set_cron]. rewrite alter_last by done.
  apply wp_db_onward.
  - intros e2 [_ He2] _. cbv beta iota. apply wp_modify. cbn [heap set_heap set_jobs set_cron cron_rows]. rewrite lookup_last by done.
    set (x := upsert _ _ _).
    refine (eq_rect _ (fun y => Q (Ok tt) y e2) (HQ (Some x) e2 _ _) _ _); [auto| |].
    + intros _ _. exists x. split; [done|]. rewrite <- Hid. apply saved_upsert.
    + unfold entered, account_all. cbn. by rewrite Hid, Hr.
  - intros e2 Hf [_ He2]. cbv beta iota.
    refine (eq_rect _ (fun y => Q (Ok tt) y e2) (HQ None e2 _ _) _ _); [auto| |].
    + intros Hn. destruct Hf. auto.
    + unfold entered, account_all. cbn. by rewrite Hid, Hr.
Qed.

Lemma wp_RegisterJob job (Q : result cron_error unit -> CronScheduler -> env -> Prop) s e :
  (over_quota job s = true -> Q (Err (QuotaExceeded (JAgentID job))) s e) ->
  (over_quota job s = false -> Enabled job = true -> AddFunc (CronExpr job) (length (heap s)) (cron (drop_entry (JID job) s)) = None ->
   Q (Err (InvalidCron (CronExpr job))) (drop_entry (JID job) s) e) ->
  (forall s' e', (faults e = [] -> faults e' = []) -> over_quota job s = false -> registered job s (faults e = []) s' -> Q (Ok tt) s' e') ->
  wp (RegisterJob job) Q s e.
Proof.
  intros HQuota HBad HOk. unfold RegisterJob. apply wp_bind, wp_get. cbv beta iota. fold (over_quota job s).
  destruct (over_quota job s) eqn:Hq; [apply wp_throw; auto|]. clear HQuota.
  apply wp_bind, wp_modify. cbv beta iota. apply wp_bind, wp_get. cbv beta iota zeta.
  destruct (drop_entry_cron (JID job) s) as [c0 Hc0].
  assert (Hlen : length (heap (drop_entry (JID job) s)) = length (heap s)) by by rewrite Hc0.
  assert (Hdb : has_db (drop_entry (JID job) s) = has_db s) by by rewrite Hc0.
  set (s0 := drop_entry (JID job) s) in *. rewrite Hlen.
  assert (Hfin : forall (j : CronJob) c, JID j = JID job -> JAgentID j = JAgentID job -> Enabled j = Enabled job -> CronExpr j = CronExpr job ->
    (Enabled job = false -> entryID j = entryID job) ->
    arranged (cron s0) (length (heap s)) j c -> forall row e', (faults e = [] -> faults e' = []) ->
    (faults e = [] -> has_db s0 = true -> exists x, row = Some x /\ saved (JID job) x = text (account_all j)) ->
    Q (Ok tt) (entered c (if has_db s0 then account_all j else j) row s0) e').
  { intros j c H1' H2' H3' H4' H5' Harr row e' He' Hrow. apply HOk; [done|done|]. split. exists c, (if has_db s0 then account_all j else j), row.
    split; [done|]. split; [by destruct (has_db s0)|]. split; [by destruct (has_db s0)|]. split; [by destruct (has_db s0)|]. split; [by destruct (has_db s0)|].
    split; [intros Hen; destruct (has_db s0); cbn; auto|]. split; [by destruct (has_db s0)|].
    intros Hf Hd. rewrite <- Hdb in Hd. rewrite Hd in *. by apply Hrow. }
  destruct (Enabled job) eqn:Hen.
  - unfold schedule. cbn [with_defaults CronExpr with_targets]. rewrite Hlen.
    destruct (AddFunc _ _ _) as [[id c]|] eqn:Hadd.
    2: { apply wp_bind, wp_throw. cbv beta iota. apply HBad; auto. }
    apply wp_bind, wp_modify. cbv beta iota. eapply wp_persist; [done|done|]. cbv zeta. apply Hfin; try done. unfold arranged. by cbn; rewrite Hen.
  - apply wp_bind, wp_modify. cbv beta iota.
    replace (set_heap s0 (heap s0 ++ [_])) with (set_heap (set_cron s0 (cron s0)) (heap s0 ++ [with_defaults (has_getter s0) job])) by by destruct s0.
    eapply wp_persist; [done|done|]. apply Hfin; try done. unfold arranged. by cbn; rewrite Hen.
Qed.

Lemma wp_RemoveJob id (Q : result cron_error unit -> CronScheduler -> env -> Prop) s e :
  (forall s' e', (faults e = [] -> faults e' = []) -> cron s' = cron (drop_entry id s) -> heap s' = heap s -> jobs s' = delete id (jobs s) -> has_db s' = has_db s ->
    (cron_rows s' = cron_rows s \/ cron_rows s' = delete id (cron_rows s)) -> (faults e = [] -> has_db s = true -> cron_rows s' = delete id (cron_rows s)) ->
    Q (Ok tt) s' e') ->
  wp (RemoveJob id) Q s e.
Proof.
  intros HQ. unfold RemoveJob. apply wp_bind, wp_modify. cbv beta iota. apply wp_bind, wp_get. cbv beta iota.
  destruct (drop_entry_cron id s) as [c Hc]. rewrite Hc in *. cbn [has_db set_jobs set_cron jobs].
  destruct (has_db s) eqn:Hdb; cbn [negb]; [|apply wp_ret, HQ; auto; intros; congruence].
  apply wp_ignore, wp_bind, wp_db_onward.
  - intros e' [_ He'] _. cbv beta iota. apply wp_modify, HQ; auto.
  - intros e' Hf [_ He']. cbv beta iota. apply HQ; auto. by intros.
Qed.

(** ** Loading *)

(** Where a scan gets to: the rows that were loaded, each once. *)
Lemma wp_load (I : list (string * JobRow) -> CronScheduler -> Prop) rows past getter engine bus e :
  I [] (fresh_scheduler true rows past getter engine bus) ->
  (forall done id r s, NoDup ((done ++ [(id, r)]).*1) -> (forall x, x ∈ done ++ [(id, r)] -> rows !! x.1 = Some x.2) -> I done s -> I (done ++ [(id, r)]) (hydrate (job_of_row id r) s)) ->
  wp loadJobsFromDB (fun _ s' e' => (faults e = [] -> faults e' = []) /\
    exists l, NoDup l.*1 /\ (forall x, x ∈ l -> rows !! x.1 = Some x.2) /\ (faults e = [] -> forall id r, rows !! id = Some r -> (id, r) ∈ l) /\ I l s')
    (fresh_scheduler true rows past getter engine bus) e.
Proof.
  intros H0' Hstep. unfold loadJobsFromDB. apply wp_bind, wp_get. cbv beta iota. cbn [has_db fresh_scheduler negb].
  apply wp_bind, wp_attempt, wp_db_onward.
  2: { intros e' Hf [_ He']. cbv beta iota. apply wp_ret. split; [done|]. exists []. split; [constructor|]. split; [intros x Hx; set_solver|]. by split. }
  intros e1 [_ He1] _. cbv beta iota. apply wp_bind. unfold ranged. apply wp_bind, wp_draw_onward. intros e2 [_ He2]. cbv beta iota. apply wp_ret. cbv beta iota.
  set (all := range_order _ (fresh e1) (map_to_list (cron_rows (fresh_scheduler true rows past getter engine bus)))).
  assert (Hperm : all ≡ₚ map_to_list rows) by apply range_perm. clearbody all.
  assert (Hall : forall x, x ∈ all -> rows !! x.1 = Some x.2).
  { intros [id r]. rewrite Hperm. by rewrite elem_of_map_to_list. }
  assert (Hnd : NoDup all.*1) by (rewrite Hperm; apply NoDup_fst_map_to_list).
  assert (Hcomplete : forall id r, rows !! id = Some r -> (id, r) ∈ all) by (intros id r Hr; rewrite Hperm; by apply elem_of_map_to_list).
  assert (Hfaults : faults e = [] -> faults e2 = []) by auto. clear He1 He2 Hperm e1.
  set (s0 := fresh_scheduler _ _ _ _ _ _) in *. clearbody s0.
  assert (Hgen : forall todo seen kept s e2, all = seen ++ todo -> kept `sublist_of` seen -> (faults e = [] -> kept = seen) -> I kept s -> (faults e = [] -> faults e2 = []) ->
    wp (for_each (fun kr : string * JobRow => scanned ← attempt (db CronDb);
          match scanned with Err _ => mret tt | Ok _ => modify (hydrate (job_of_row kr.1 kr.2)) end) todo)
      (fun _ s' e' => (faults e = [] -> faults e' = []) /\
    exists l, NoDup l.*1 /\ (forall x, x ∈ l -> rows !! x.1 = Some x.2) /\ (faults e = [] -> forall id r, rows !! id = Some r -> (id, r) ∈ l) /\ I l s') s e2).
  2: { by apply (Hgen all [] []). }
  clear -Hstep Hall Hnd Hcomplete. intros todo. induction todo as [|[id r] todo IH]; intros seen kept s e2 Hl Hsub Hkept HI Hf; cbn [for_each].
  - apply wp_ret. split; [done|]. exists kept. rewrite app_nil_r in Hl. rewrite Hl in *. split.
    { eapply sublist_NoDup; [exact Hnd|]. by apply (fmap_sublist _). }
    split; [intros x Hx; apply Hall; eapply elem_of_sublist; eauto|]. split; [|done]. intros He. by rewrite (Hkept He).
  - apply wp_bind, wp_bind, wp_attempt. assert (Hl' : all = (seen ++ [(id, r)]) ++ todo) by by rewrite <- app_assoc.
    assert (Hsub' : kept ++ [(id, r)] `sublist_of` seen ++ [(id, r)]) by by apply sublist_app.
    apply wp_db_onward.
    + intros e3 [_ He3] _. cbv beta iota. apply wp_modify. cbv beta iota.
      apply (IH (seen ++ [(id, r)]) (kept ++ [(id, r)])); [done|done|intros He; by rewrite (Hkept He)| |auto]. apply Hstep; [| |done].
      * eapply sublist_NoDup; [|exact (fmap_sublist _ _ _ Hsub')]. rewrite Hl', fmap_app in Hnd. by apply NoDup_app in Hnd as [? _].
      * intros x Hx. apply Hall. rewrite Hl'. apply elem_of_app. left. eapply elem_of_sublist; eauto.
    + intros e3 Hne [_ He3]. cbv beta iota. apply wp_ret. cbv beta iota.
      apply (IH (seen ++ [(id, r)]) kept); [done|by apply sublist_inserts_r|intros He; destruct Hne; auto|done|auto].
Qed.
End spec.

(** ** The theorems *)

#[local] Open Scope Z_scope.

Section spec.
Context `{L : CronLib} `{W : CronWorld} `{M : MapRange}.
Abbreviation cop := (io CronScheduler cron_error).

(** ** Entries and jobs *)

(** An entry fires the listed object of its job, which is enabled and knows
    the entry; with [strict], a listed job that is enabled has its entry. *)
Record tied (strict : Prop) (s : CronScheduler) : Prop := {
  tied_jobs : forall id r, jobs s !! id = Some r -> exists j, heap s !! r = Some j /\ JID j = id;
  tied_entries : forall eid r, entries (cron s) !! eid = Some r ->
    eid <> 0%nat /\ exists j, heap s !! r = Some j /\ jobs s !! JID j = Some r /\ entryID j = eid /\ Enabled j = true;
  tied_armed : strict -> forall id r j, jobs s !! id = Some r -> heap s !! r = Some j ->
    (Enabled j = true -> entries (cron s) !! entryID j = Some r) /\ (Enabled j = false -> entryID j = 0%nat) }.

Lemma core_lookup s s' r j : same_jobs s s' -> heap s' !! r = Some j -> exists j', heap s !! r = Some j' /\ core j' = core j.
Proof.
  intros Hs Hj. pose proof (f_equal (.!! r) (same_heap _ _ Hs)) as Hl. cbv beta in Hl. rewrite !list_lookup_fmap, Hj in Hl.
  destruct (heap s !! r) as [j'|]; [|done]. injection Hl as Hl. exists j'. split; [done|]. symmetry. unfold core, with_last_run. by f_equal.
Qed.
Lemma core_eq j j' : core j = core j' -> JID j = JID j' /\ JAgentID j = JAgentID j' /\ entryID j = entryID j' /\ Enabled j = Enabled j'.
Proof. by intros [=]. Qed.
Lemma same_jobs_sym s s' : same_jobs s s' -> same_jobs s' s.
Proof. by intros []. Qed.

Lemma tied_same strict s s' : same_jobs s s' -> tied strict s -> tied strict s'.
Proof.
  intros Hs [H1' H2' H3']. pose proof (same_jobs_sym _ _ Hs) as Hs'. split; rewrite ?(same_cron _ _ Hs), ?(same_list _ _ Hs).
  - intros id r Hr. destruct (H1' id r Hr) as (j & Hj & Hid). destruct (core_lookup _ _ _ _ Hs' Hj) as (j' & Hj' & Hc). exists j'.
    apply core_eq in Hc. naive_solver.
  - intros eid r Hr. destruct (H2' eid r Hr) as (Hne & j & Hj & Hl & He & Hen). destruct (core_lookup _ _ _ _ Hs' Hj) as (j' & Hj' & Hc).
    apply core_eq in Hc as (Hc1 & _ & Hc2 & Hc3). split; [done|]. exists j'. rewrite Hc1, Hc2, Hc3. done.
  - intros Hst id r j Hl Hj. destruct (core_lookup _ _ _ _ Hs Hj) as (j' & Hj' & Hc). apply core_eq in Hc as (_ & _ & Hc2 & Hc3).
    rewrite <- Hc2, <- Hc3. eauto.
Qed.

(** After the entry of [id] is dropped, no entry fires an object of [id]. *)
Lemma drop_entries strict id s : tied strict s ->
  (forall eid r, entries (cron (drop_entry id s)) !! eid = Some r -> entries (cron s) !! eid = Some r /\ jobs s !! id <> Some r) /\
  (strict -> forall k r j, k <> id -> jobs s !! k = Some r -> heap s !! r = Some j -> Enabled j = true -> entries (cron (drop_entry id s)) !! entryID j = Some r).
Proof.
  intros Ht. pose proof Ht as [H1' H2' H3']. unfold drop_entry. destruct (jobs s !! id) as [r0|] eqn:Hl; cbn [mbind option_bind].
  2: { split; [by intros|]. intros Hst k r j _ Hk Hj Hen. by apply (H3' Hst k r j). }
  destruct (H1' id r0 Hl) as (j0 & Hj0 & Hid). rewrite Hj0. case_bool_decide as Hz.
  - split.
    + intros eid r Hr. split; [done|]. intros [= <-]. destruct (H2' eid r0 Hr) as (Hne & j & Hj & _ & He & _). congruence.
    + intros Hst k r j _ Hk Hj Hen. by apply (H3' Hst k r j).
  - cbn [cron set_cron]. rewrite entries_remove. split.
    + intros eid r Hr. apply lookup_delete_Some in Hr as [Hne Hr]. split; [done|]. intros [= <-].
      destruct (H2' eid r0 Hr) as (_ & j & Hj & _ & He & _). congruence.
    + intros Hst k r j Hne Hk Hj Hen. pose proof (proj1 (H3' Hst k r j Hk Hj) Hen) as Hr. apply lookup_delete_Some. split; [|done].
      intros Heq. rewrite <- Heq in Hr. destruct (decide (Enabled j0 = true)) as [He0|He0].
      * pose proof (proj1 (H3' Hst id r0 j0 Hl Hj0) He0) as Hr0. destruct (H1' k r Hk) as (j1 & Hj1 & Hk1). congruence.
      * apply not_true_is_false in He0. by apply (proj2 (H3' Hst id r0 j0 Hl Hj0)) in He0.
Qed.

Lemma drop_entry_rest id s : heap (drop_entry id s) = heap s /\ jobs (drop_entry id s) = jobs s /\ cron_rows (drop_entry id s) = cron_rows s /\ has_db (drop_entry id s) = has_db s.
Proof. destruct (drop_entry_cron id s) as [c ->]. done. Qed.

Lemma entered_view c j row s :
  cron (entered c j row s) = c /\ heap (entered c j row s) = heap s ++ [j] /\ jobs (entered c j row s) = <[JID j := length (heap s)]> (jobs s) /\ has_db (entered c j row s) = has_db s.
Proof. by destruct row. Qed.

(** A new object takes the place of the one its job had. *)
Lemma tied_enter (strict : Prop) c j s s' : tied strict s ->
  arranged (cron (drop_entry (JID j) s)) (length (heap s)) j c \/ (~ strict) /\ c = cron (drop_entry (JID j) s) ->
  (strict -> Enabled j = false -> entryID j = 0%nat) ->
  cron s' = c -> heap s' = heap s ++ [j] -> jobs s' = <[JID j := length (heap s)]> (jobs s) -> tied strict s'.
Proof.
  intros Ht Harr Hen0 Hc Hh Hl. destruct (drop_entries strict (JID j) s Ht) as [Hdrop Hkeep]. pose proof Ht as [H1' H2' H3'].
  assert (Hnew : (heap s ++ [j]) !! length (heap s) = Some j) by by apply lookup_last.
  assert (Hold : forall eid r, entries (cron (drop_entry (JID j) s)) !! eid = Some r -> eid <> 0%nat /\ exists j0, (heap s ++ [j]) !! r = Some j0 /\
    <[JID j := length (heap s)]> (jobs s) !! JID j0 = Some r /\ entryID j0 = eid /\ Enabled j0 = true).
  { intros eid r Hr. destruct (Hdrop eid r Hr) as [Hr' Hne]. destruct (H2' eid r Hr') as (Hz & j0 & Hj0 & Hl0 & He & Hen).
    split; [done|]. exists j0. split; [by apply lookup_app_l_Some|]. split; [|done]. rewrite lookup_insert_ne; [done|]. intros Heq. by rewrite <- Heq in Hl0. }
  assert (Hent : (Enabled j = true /\ entryID j <> 0%nat /\ entries (cron (drop_entry (JID j) s)) !! entryID j = None /\ entries c = <[entryID j := length (heap s)]> (entries (cron (drop_entry (JID j) s)))) \/
    ((strict -> Enabled j = false) /\ c = cron (drop_entry (JID j) s))).
  { destruct Harr as [Harr|[Hns ->]]; [|by right]. unfold arranged in Harr. destruct (Enabled j); [left|by right].
    split; [done|]. by apply entries_add in Harr. }
  split; rewrite ?Hc, ?Hh, ?Hl.
  - intros id r. destruct (decide (id = JID j)) as [->|Hne].
    + rewrite lookup_insert_eq. intros [= <-]. by exists j.
    + rewrite lookup_insert_ne by done. intros Hr. destruct (H1' id r Hr) as (j0 & Hj0 & Hid). exists j0. split; [by apply lookup_app_l_Some|done].
  - intros eid r. destruct Hent as [(Hen & Hz & Hnone & ->)|[Hen ->]]; [|apply Hold].
    destruct (decide (entryID j = eid)) as [<-|Hne].
    + rewrite lookup_insert_eq. intros [= <-]. split; [done|]. exists j. by rewrite lookup_insert_eq.
    + rewrite lookup_insert_ne by done. apply Hold.
  - intros Hst id r j0 Hr Hj0. destruct (decide (id = JID j)) as [->|Hne].
    + rewrite lookup_insert_eq in Hr. injection Hr as <-. rewrite Hnew in Hj0. injection Hj0 as <-.
      destruct Hent as [(Hen & _ & _ & ->)|[Hen ->]]; [|specialize (Hen Hst)]; rewrite Hen; split; try done; [intros _; apply lookup_insert_eq|intros _; auto].
    + rewrite lookup_insert_ne in Hr by done. destruct (H1' id r Hr) as (j1 & Hj1 & Hid). rewrite (lookup_app_l_Some _ _ _ _ Hj1) in Hj0. injection Hj0 as <-.
      split; [|apply (H3' Hst id r j1 Hr Hj1)]. intros Hen1. pose proof (Hkeep Hst id r j1 Hne Hr Hj1 Hen1) as Hk.
      destruct Hent as [(_ & _ & Hnone & ->)|[_ ->]]; [|done]. rewrite lookup_insert_ne; [done|]. intros Heq. congruence.
Qed.

Lemma tied_remove strict id s s' : tied strict s -> cron s' = cron (drop_entry id s) -> heap s' = heap s -> jobs s' = delete id (jobs s) -> tied strict s'.
Proof.
  intros Ht Hc Hh Hl. destruct (drop_entries strict id s Ht) as [Hdrop Hkeep]. pose proof Ht as [H1' H2' H3']. split; rewrite ?Hc, ?Hh, ?Hl.
  - intros k r [_ Hr]%lookup_delete_Some. eauto.
  - intros eid r Hr. destruct (Hdrop eid r Hr) as [Hr' Hne]. destruct (H2' eid r Hr') as (Hz & j0 & Hj0 & Hl0 & He & Hen). split; [done|]. exists j0.
    split; [done|]. split; [|done]. rewrite lookup_delete_ne; [done|]. by intros ->.
  - intros Hst k r j [Hne Hr]%lookup_delete_Some Hj. split; [|apply (H3' Hst k r j Hr Hj)]. intros Hen. by apply (Hkeep Hst k).
Qed.

Lemma tied_drop id s : tied False s -> tied False (drop_entry id s).
Proof.
  intros Ht. destruct (drop_entries False id s Ht) as [Hdrop _]. destruct (drop_entry_rest id s) as (Hh & Hl & _). destruct Ht as [H1' H2' _].
  split; rewrite ?Hh, ?Hl; [done| |done]. intros eid r Hr. apply (H2' eid r). by apply Hdrop.
Qed.

Lemma drop_absent id s : jobs s !! id = None -> drop_entry id s = s.
Proof. intros H. unfold drop_entry. by rewrite H. Qed.

Lemma hydrate_view j s : entryID j = 0%nat -> exists c j', cron (hydrate j s) = c /\ heap (hydrate j s) = heap s ++ [j'] /\
  jobs (hydrate j s) = <[JID j' := length (heap s)]> (jobs s) /\ has_db (hydrate j s) = has_db s /\ cron_rows (hydrate j s) = cron_rows s /\
  JID j' = JID j /\ JAgentID j' = JAgentID j /\ text j' = text j /\ (Enabled j' = false -> entryID j' = 0%nat) /\
  (arranged (cron s) (length (heap s)) j' c \/ AddFunc (CronExpr j) (length (heap s)) (cron s) = None /\ c = cron s).
Proof.
  intros Hz. unfold hydrate. destruct (Enabled j) eqn:Hen.
  - unfold schedule. destruct (AddFunc _ _ _) as [[eid c]|] eqn:Hadd.
    + eexists _, _. split; [reflexivity|]. split; [reflexivity|]. repeat (split; [done|]). split; [by cbn; rewrite Hen|].
      left. unfold arranged. cbn. by rewrite Hen.
    + eexists _, _. split; [reflexivity|]. split; [reflexivity|]. repeat (split; [done|]). by right.
  - eexists _, _. split; [reflexivity|]. split; [reflexivity|]. repeat (split; [done|]). left. unfold arranged. by rewrite Hen.
Qed.

Section strict.
Context (strict : Prop) (valid : string -> Prop).
Hypothesis valid_accepted : strict -> forall expr r c, valid expr -> AddFunc expr r c <> None.

Definition call_valid (c : cron_call) : Prop := match c with CRegister job => valid (CronExpr job) | _ => True end.

Definition loaded (done : list (string * JobRow)) (s : CronScheduler) : Prop :=
  tied strict s /\ forall id r, jobs s !! id = Some r -> id ∈ done.*1.

Lemma loaded_step done id r s : NoDup ((done ++ [(id, r)]).*1) -> (strict -> valid (RExpr r)) -> loaded done s -> loaded (done ++ [(id, r)]) (hydrate (job_of_row id r) s).
Proof.
  intros Hnd Hv [Ht Hin]. rewrite fmap_app in Hnd. apply NoDup_app in Hnd as (_ & Hnew & _). cbn in Hnew.
  destruct (hydrate_view (job_of_row id r) s eq_refl) as (c & j & Hc & Hh & Hl & _ & _ & Hid & _ & _ & Hz & Harr). cbn [JID job_of_row] in Hid.
  assert (Hno : jobs s !! JID j = None).
  { destruct (jobs s !! JID j) as [r0|] eqn:Hr0; [|done]. apply Hin in Hr0. rewrite Hid in Hr0. destruct (Hnew _ Hr0). set_solver. }
  split.
  - apply (tied_enter strict c j s); [done| |auto|done|done|done]. rewrite drop_absent by done. destruct Harr as [Harr|[Hf Hcc]]; [by left|]. right.
    split; [|done]. intros Hst. by apply (valid_accepted Hst _ _ _ (Hv Hst)) in Hf.
  - intros k r0. rewrite Hl, fmap_app, elem_of_app. destruct (decide (k = JID j)) as [->|Hne].
    + intros _. right. rewrite Hid. cbn. set_solver.
    + rewrite lookup_insert_ne by done. intros Hk. left. eauto.
Qed.

Lemma loaded_start rows past getter engine bus : loaded [] (fresh_scheduler true rows past getter engine bus).
Proof.
  assert (Hnone : forall id r, jobs (fresh_scheduler true rows past getter engine bus) !! id = Some r -> False) by (cbn [jobs fresh_scheduler]; intros id r; by rewrite lookup_empty).
  split; [|intros id r Hr; by destruct (Hnone id r)]. split; [intros id r Hr; by destruct (Hnone id r)| |intros _ id r j Hr; by destruct (Hnone id r)].
  intros eid r. cbn [cron fresh_scheduler]. by rewrite entries_new, lookup_empty.
Qed.

Lemma tied_call c s e : (strict -> from_outside c) -> (strict -> call_valid c) -> tied strict s -> wp (do_call c) (fun _ s' _ => tied strict s') s e.
Proof.
  intros Hout Hv Ht. destruct (call_cases c) as [Hp|[[job ->]|[id ->]]].
  - eapply wp_mono; [apply keeps_passive; exact Hp|]. cbv beta. intros _ s' _ Hs. by eapply tied_same.
  - cbn [do_call]. apply wp_ignore, wp_RegisterJob; [done| |].
    + intros _ Hen Hadd. assert (Hns : ~ strict) by (intros Hst; exact (valid_accepted Hst _ _ _ (Hv Hst) Hadd)).
      destruct (tied_drop (JID job) s) as [H1' H2' _]; [by destruct Ht; split|]. by split.
    + intros s' e' _ _ [(c & j & row & -> & Hid & _ & Hen & _ & Hz & Harr & _)]. destruct (drop_entry_rest (JID job) s) as (Hh & Hl & _).
      destruct (entered_view c j row (drop_entry (JID job) s)) as (Hc' & Hh' & Hl' & _). rewrite Hh in *. rewrite Hl in *.
      apply (tied_enter strict c j s); [done|left; by rewrite Hid| |done|done|done]. intros Hst Hj. rewrite Hz by congruence. exact (Hout Hst).
  - apply wp_RemoveJob. intros. by eapply tied_remove.
Qed.

Lemma tied_session rows past getter engine bus calls e :
  (strict -> forall c, c ∈ calls -> from_outside c) -> (strict -> (forall id r, rows !! id = Some r -> valid (RExpr r)) /\ (forall c, c ∈ calls -> call_valid c)) ->
  wp (session calls) (fun _ s _ => tied strict s) (fresh_scheduler true rows past getter engine bus) e.
Proof.
  intros Hout Hv. unfold session. apply wp_bind. eapply wp_mono; [apply (wp_load loaded)|].
  - apply loaded_start.
  - intros done id r s Hnd Hin. apply loaded_step; [done|]. intros Hst. apply (proj1 (Hv Hst) id). apply (Hin (id, r)). set_solver.
  - cbv beta. intros [u|x] s e' (_ & l & _ & _ & _ & Ht & _); [|done]. eapply wp_for_each; [exact Ht|]. intros c s2 e2 Hc. apply tied_call; [auto|].
    intros Hst. by apply (Hv Hst).
Qed.
End strict.

(** ** The quota *)

Section quota.
Context (agent_of : string -> string).

(** An id belongs to one agent. *)
Definition bound (c : cron_call) : Prop := match c with CRegister job => JAgentID job = agent_of (JID job) | _ => True end.
Definition count (a : string) (ids : gset string) : Z := Z.of_nat (size (filter (fun id => agent_of id = a) ids)).

Record within (s : CronScheduler) : Prop := {
  within_tied : tied False s;
  within_agents : forall id r j, jobs s !! id = Some r -> heap s !! r = Some j -> JAgentID j = agent_of id;
  within_quota : forall a, a <> "" -> count a (dom (jobs s)) <= DefaultCronJobsPerAgent }.

Lemma owned_by_count a s : within s -> owned_by a s = count a (dom (jobs s)).
Proof.
  intros [Ht Ha _]. unfold owned_by, count. rewrite <- size_dom. do 2 f_equal. apply dom_filter_L. intros id. rewrite elem_of_filter, elem_of_dom.
  split.
  - intros [Hid [r Hr]]. exists r. split; [done|]. cbn. destruct (tied_jobs _ _ Ht id r Hr) as (j & Hj & _). rewrite Hj. cbn. by rewrite (Ha id r j Hr Hj), Hid.
  - intros (r & Hr & Hx). cbn in Hx. destruct (heap s !! r) as [j|] eqn:Hj; [|done]. injection Hx as Hx. rewrite (Ha id r j) in Hx by done. eauto.
Qed.

Lemma count_insert a id (X : gset string) : count a ({[id]} ∪ X) <= (if decide (agent_of id = a /\ id ∉ X) then count a X + 1 else count a X).
Proof.
  unfold count. case_decide as Hd.
  - assert (size (filter (fun id => agent_of id = a) ({[id]} ∪ X)) <= 1 + size (filter (fun id => agent_of id = a) X))%nat; [|lia].
    trans (size ({[id]} ∪ filter (fun id => agent_of id = a) X)); [apply subseteq_size; set_solver|].
    rewrite size_union_alt, size_singleton. apply Nat.add_le_mono_l, subseteq_size. set_solver.
  - apply Nat2Z.inj_le, subseteq_size. intros k. rewrite !elem_of_filter. intros [Hk Hin]. split; [done|].
    destruct (decide (k ∈ X)) as [|Hno]; [done|]. destruct Hd. assert (k = id) as -> by set_solver. done.
Qed.

Lemma within_enter job s s' : within s -> over_quota job s = false -> JAgentID job = agent_of (JID job) -> tied False s' ->
  (exists j, heap s' = heap s ++ [j] /\ JAgentID j = JAgentID job) -> jobs s' = <[JID job := length (heap s)]> (jobs s) -> within s'.
Proof.
  intros Hw Hq Hag Ht' (j & Hh & Hja) Hl. pose proof Hw as [Ht Ha Hc]. split; [done| |].
  - rewrite Hl, Hh. intros id r j0. destruct (decide (id = JID job)) as [->|Hne].
    + rewrite lookup_insert_eq. intros [= <-]. rewrite lookup_last by done. intros [= <-]. congruence.
    + rewrite lookup_insert_ne by done. intros Hr. destruct (tied_jobs _ _ Ht id r Hr) as (j1 & Hj1 & _).
      rewrite (lookup_app_l_Some _ _ _ _ Hj1). intros [= <-]. by apply (Ha id r).
  - intros a Hne. rewrite Hl, dom_insert_L. etransitivity; [apply count_insert|]. case_decide as Hd; [|auto]. destruct Hd as [Hd Hnew].
    unfold over_quota in Hq. rewrite Hag, Hd, (bool_decide_eq_false_2 (a = "")) in Hq by done.
    rewrite bool_decide_eq_false_2 in Hq by (by rewrite <- elem_of_dom). cbn in Hq. rewrite owned_by_count in Hq by done. lia.
Qed.

Lemma within_same s s' : same_jobs s s' -> within s -> within s'.
Proof.
  intros Hs [Ht Ha Hc]. split; [by eapply tied_same| |by rewrite (same_list _ _ Hs)]. rewrite (same_list _ _ Hs). intros id r j Hr Hj.
  destruct (core_lookup _ _ _ _ Hs Hj) as (j' & Hj' & Hcc). apply core_eq in Hcc as (_ & Hcc & _). rewrite <- Hcc. eauto.
Qed.

Lemma within_call c s e : bound c -> within s -> wp (do_call c) (fun _ s' _ => within s') s e.
Proof.
  intros Hb Hw. pose proof (tied_call False (fun _ => False) (fun H => False_ind _ H) c s e (fun H => False_ind _ H) (fun H => False_ind _ H) (within_tied _ Hw)) as Htied.
  destruct (call_cases c) as [Hp|[[job ->]|[id ->]]].
  - eapply wp_mono; [apply keeps_passive; exact Hp|]. cbv beta. intros _ s' _ Hs. by eapply within_same.
  - eapply wp_mono; [apply wp_and; [exact Htied|]|cbv beta; intros r s' e' [Ht' Hs']; exact (Hs' Ht')].
    cbn [do_call]. apply wp_ignore, wp_RegisterJob; [done| |].
    + intros _ _ _ Ht'. destruct (drop_entry_rest (JID job) s) as (Hh & Hl & _). destruct Hw as [_ Ha Hc]. split; [done| |]; rewrite ?Hh, ?Hl; done.
    + intros s' e' _ Hq [(c & j & row & -> & Hid & Hja & _)] Ht'. destruct (drop_entry_rest (JID job) s) as (Hh & Hl & _).
      destruct (entered_view c j row (drop_entry (JID job) s)) as (_ & Hh' & Hl' & _). rewrite Hh in *. rewrite Hl in *. rewrite Hid in *.
      eapply within_enter; eauto.
  - eapply wp_mono; [apply wp_and; [exact Htied|]|cbv beta; intros r s' e' [Ht' Hs']; exact (Hs' Ht')].
    cbn [do_call]. apply wp_RemoveJob. intros s' e' _ _ Hh Hl _ _ _ Ht'. destruct Hw as [_ Ha Hc]. split; [done| |].
    + rewrite Hh, Hl. intros k r j [_ Hr]%lookup_delete_Some. by apply Ha.
    + intros a Hne. etransitivity; [|exact (Hc a Hne)]. unfold count. apply Nat2Z.inj_le, subseteq_size. rewrite Hl. set_solver.
Qed.

Lemma within_session rows past getter engine bus calls e :
  (forall c, c ∈ calls -> bound c) -> (forall id r, rows !! id = Some r -> RAgent r = agent_of id) ->
  (forall a, a <> "" -> count a (dom rows) <= DefaultCronJobsPerAgent) ->
  wp (session calls) (fun _ s _ => within s) (fresh_scheduler true rows past getter engine bus) e.
Proof.
  intros Hb Hag Hc. unfold session. apply wp_bind. eapply wp_mono; [apply (wp_load (fun done s => loaded False done s /\
    forall id r j, jobs s !! id = Some r -> heap s !! r = Some j -> JAgentID j = agent_of id))|].
  - split; [apply loaded_start|]. cbn. intros id r j Hr. by rewrite lookup_empty in Hr.
  - intros done id r s Hnd Hin [Hl Hags]. split.
    { apply (loaded_step False (fun _ => False) (fun H => False_ind _ H)); [done|done|done]. }
    destruct (hydrate_view (job_of_row id r) s eq_refl) as (c & j & _ & Hh & Hlist & _ & _ & Hid & Hja & _).
    intros k r0 j0. rewrite Hlist, Hh. destruct (decide (k = JID j)) as [->|Hne].
    + rewrite lookup_insert_eq. intros [= <-]. rewrite lookup_last by done. intros [= <-]. rewrite Hja, Hid. cbn. apply Hag. apply (Hin (id, r)). set_solver.
    + rewrite lookup_insert_ne by done. intros Hr. destruct (tied_jobs _ _ (proj1 Hl) k r0 Hr) as (j1 & Hj1 & _).
      rewrite (lookup_app_l_Some _ _ _ _ Hj1). intros [= <-]. by apply (Hags k r0).
  - cbv beta. intros res s e' (_ & l & _ & Hin & _ & [Ht Hdom] & Hags).
    assert (Hw : within s).
    { split; [done|done|]. intros a Hne. etransitivity; [|exact (Hc a Hne)]. unfold count. apply Nat2Z.inj_le, subseteq_size.
      intros k. rewrite !elem_of_filter, !elem_of_dom. intros [Hk [r Hr]]. split; [done|].
      apply Hdom in Hr. apply list_elem_of_fmap in Hr as ([k' row] & -> & Hr). eexists. exact (Hin _ Hr). }
    destruct res; [|exact Hw].
    eapply wp_for_each; [exact Hw|]. intros c s2 e2 Hcc. apply within_call. auto.
Qed.
End quota.

(** ** A restart *)

(** What is listed under [id]. *)
Definition listed (s : CronScheduler) (id : string) : option CronJob := text <$> (jobs s !! id ≫= fun r => heap s !! r).

Record stored (s : CronScheduler) : Prop := {
  stored_db : has_db s = true;
  stored_objects : forall id r, jobs s !! id = Some r -> is_Some (heap s !! r);
  stored_rows : forall id, listed s id = saved id <$> cron_rows s !! id }.

Lemma listed_same s s' id : same_jobs s s' -> listed s' id = listed s id.
Proof.
  intros Hs. unfold listed. rewrite (same_list _ _ Hs). destruct (jobs s !! id) as [r|]; [|done]. cbn.
  pose proof (f_equal (.!! r) (same_heap _ _ Hs)) as Hl. cbv beta in Hl. rewrite !list_lookup_fmap in Hl.
  destruct (heap s !! r) as [j|], (heap s' !! r) as [j'|]; try done. cbn in *. injection Hl. intros. f_equal. unfold text, with_last_run, with_entry. cbn. by f_equal.
Qed.

Lemma stored_same s s' : same_jobs s s' -> stored s -> stored s'.
Proof.
  intros Hs [Hd Ho Hr]. split; [by rewrite (same_db _ _ Hs)| |].
  - rewrite (same_list _ _ Hs). intros id r Hl. destruct (Ho id r Hl) as [j Hj]. destruct (core_lookup _ _ _ _ (same_jobs_sym _ _ Hs) Hj) as (j' & Hj' & _). eauto.
  - intros id. rewrite (listed_same _ _ _ Hs), Hr. pose proof (f_equal (.!! id) (same_rows _ _ Hs)) as Hl. cbv beta in Hl. rewrite !lookup_fmap in Hl.
    destruct (cron_rows s !! id) as [x|], (cron_rows s' !! id) as [y|]; try done. cbn in *. injection Hl. intros. f_equal.
    unfold saved, text, job_of_row, with_last_run, with_entry. cbn. by f_equal; congruence.
Qed.

Lemma listed_insert s s' id j : (forall id r, jobs s !! id = Some r -> is_Some (heap s !! r)) -> heap s' = heap s ++ [j] -> jobs s' = <[id := length (heap s)]> (jobs s) ->
  (forall id r, jobs s' !! id = Some r -> is_Some (heap s' !! r)) /\ listed s' id = Some (text j) /\ forall k, k <> id -> listed s' k = listed s k.
Proof.
  intros Ho Hh Hl. unfold listed. rewrite Hl, Hh. split; [|split].
  - intros k r. destruct (decide (k = id)) as [->|Hne].
    + rewrite lookup_insert_eq. intros [= <-]. rewrite lookup_last by done. eauto.
    + rewrite lookup_insert_ne by done. intros Hr. destruct (Ho k r Hr) as [x Hx]. exists x. by apply lookup_app_l_Some.
  - rewrite lookup_insert_eq. cbn. by rewrite lookup_last.
  - intros k Hne. rewrite lookup_insert_ne by done. destruct (jobs s !! k) as [r|] eqn:Hr; [|done]. cbn. destruct (Ho k r Hr) as [x Hx].
    by rewrite Hx, (lookup_app_l_Some _ _ _ _ Hx).
Qed.

Lemma stored_call c s e : faults e = [] -> stored s -> wp (do_call c) (fun _ s' e' => faults e' = [] /\ stored s') s e.
Proof.
  intros He Hs. destruct (call_cases c) as [Hp|[[job ->]|[id ->]]].
  - eapply wp_and_quiet; [by apply quiet_passive|apply keeps_passive; exact Hp|]. cbv beta. intros _ s' e' Hss [_ Hf]. split; [auto|by eapply stored_same].
  - cbn [do_call]. apply wp_ignore, wp_RegisterJob.
    + by split.
    + intros _ _ _. split; [done|]. destruct (drop_entry_rest (JID job) s) as (Hh & Hl & Hr & Hd). destruct Hs as [H1' H2' H3']. unfold listed in H3'. split; unfold listed; rewrite ?Hh, ?Hl, ?Hr, ?Hd; done.
    + intros s' e' Hf _ [(c & j & row & -> & Hid & _ & _ & _ & _ & _ & Hrow)]. split; [auto|]. destruct (Hrow He (stored_db _ Hs)) as (x & -> & Hx).
      destruct (drop_entry_rest (JID job) s) as (Hh & Hl & Hr & Hd).
      destruct (entered_view c j (Some x) (drop_entry (JID job) s)) as (_ & Hh' & Hl' & Hd'). rewrite Hh, ?Hl in *. rewrite Hid in Hl'.
      destruct (listed_insert s _ (JID job) j (stored_objects _ Hs) Hh' Hl') as (Ho & Hj & Hk).
      split; [by rewrite Hd', Hd, (stored_db _ Hs)|done|]. intros id. change (cron_rows (entered _ _ _ _)) with (<[JID j := x]> (cron_rows (drop_entry (JID job) s))). rewrite Hr, Hid.
      destruct (decide (id = JID job)) as [->|Hne].
      * rewrite Hj, lookup_insert_eq. cbn. by rewrite Hx.
      * rewrite Hk, lookup_insert_ne by done. apply Hs.
  - cbn [do_call]. apply wp_RemoveJob. intros s' e' Hf _ Hh Hl Hd _ Hr. split; [auto|]. specialize (Hr He (stored_db _ Hs)). split; [by rewrite Hd, (stored_db _ Hs)| |].
    + rewrite Hl, Hh. intros k r [_ Hk]%lookup_delete_Some. by apply (stored_objects _ Hs k).
    + intros k. unfold listed. rewrite Hl, Hh, Hr. destruct (decide (id = k)) as [->|Hne]; [by rewrite !lookup_delete_eq|].
      rewrite !lookup_delete_ne by done. apply Hs.
Qed.

Lemma stored_load rows past getter engine bus e : faults e = [] ->
  wp loadJobsFromDB (fun _ s e' => faults e' = [] /\ cron_rows s = rows /\ stored s) (fresh_scheduler true rows past getter engine bus) e.
Proof.
  intros He. eapply wp_mono; [apply (wp_load (fun done s => has_db s = true /\ cron_rows s = rows /\ (forall id r, jobs s !! id = Some r -> is_Some (heap s !! r)) /\
    (forall id r, (id, r) ∈ done -> listed s id = Some (saved id r)) /\ forall id, id ∉ done.*1 -> listed s id = None))|].
  - split; [done|]. split; [done|]. split; [cbn; intros id r Hr; by rewrite lookup_empty in Hr|]. split; [intros id r Hin; set_solver|].
    intros id _. unfold listed. cbn. by rewrite lookup_empty.
  - intros done id r s Hnd Hin (Hd & Hrows & Ho & Hdone & Hrest).
    destruct (hydrate_view (job_of_row id r) s eq_refl) as (c & j & _ & Hh & Hl & Hd' & Hrows' & Hid & _ & Htext & _). rewrite Hid in Hl.
    destruct (listed_insert s _ _ j Ho Hh Hl) as (Ho' & Hj & Hk). cbn [JID job_of_row] in *.
    split; [congruence|]. split; [congruence|]. split; [done|]. rewrite fmap_app in *. apply NoDup_app in Hnd as (_ & Hnew & _). split.
    + intros k x [Hx|Hx]%elem_of_app.
      * rewrite Hk; [by apply Hdone|]. intros ->. apply (Hnew id); [|cbn; set_solver]. apply list_elem_of_fmap. by exists (id, x).
      * assert ((k, x) = (id, r)) as [= -> ->] by set_solver. by rewrite Hj, Htext.
    + intros k Hx. rewrite not_elem_of_app in Hx. destruct Hx as [Hx1 Hx2]. rewrite Hk; [by apply Hrest|]. cbn in Hx2. set_solver.
  - cbv beta. intros _ s e' (Hf & l & Hnd & Hin & Hall & Hd & Hrows & Ho & Hdone & Hrest). split; [auto|]. split; [done|]. split; [done|done|].
    intros id. rewrite Hrows. destruct (rows !! id) as [r|] eqn:Hr; cbn; [by apply Hdone, Hall|]. apply Hrest.
    intros ([k x] & -> & Hx)%list_elem_of_fmap. apply Hin in Hx. cbn in *. congruence.
Qed.

(** ** The theorems *)

(** C26. Whatever is registered, replaced, removed, fired and read, and
    whichever statements and expressions fail: an entry of the cron library
    fires the object that is listed under its job now, an enabled job that
    knows the entry; so no entry of a removed or replaced job is left, and a
    job has one entry at most. *)
Theorem entries_are_current rows past getter engine bus calls e :
  wp (session calls) (fun _ s _ => forall eid r, entries (cron s) !! eid = Some r ->
      exists j, heap s !! r = Some j /\ jobs s !! JID j = Some r /\ entryID j = eid /\ Enabled j = true /\
        forall eid' r' j', entries (cron s) !! eid' = Some r' -> heap s !! r' = Some j' -> JID j' = JID j -> eid' = eid)
    (fresh_scheduler true rows past getter engine bus) e.
Proof.
  eapply wp_mono; [apply (tied_session False (fun _ => False)); done|]. cbv beta. intros _ s _ [_ Ht _] eid r Hr.
  destruct (Ht eid r Hr) as (_ & j & Hj & Hl & He & Hen). exists j. repeat (split; [done|]). intros eid' r' j' Hr' Hj' Hid.
  destruct (Ht eid' r' Hr') as (_ & j2 & Hj2 & Hl2 & He2 & _). rewrite Hj' in Hj2. injection Hj2 as <-. rewrite Hid, Hl in Hl2. injection Hl2 as <-. congruence.
Qed.

(** When the library accepts the expressions, the entries are exactly
    those of the enabled jobs: every enabled job that is listed fires. *)
Theorem enabled_jobs_are_armed (valid : string -> Prop) rows past getter engine bus calls e :
  (forall expr r c, valid expr -> AddFunc expr r c <> None) ->
  (forall id r, rows !! id = Some r -> valid (RExpr r)) -> (forall c, c ∈ calls -> from_outside c /\ call_valid valid c) ->
  wp (session calls) (fun _ s _ => forall eid r, entries (cron s) !! eid = Some r <->
      exists id j, jobs s !! id = Some r /\ heap s !! r = Some j /\ entryID j = eid /\ Enabled j = true)
    (fresh_scheduler true rows past getter engine bus) e.
Proof.
  intros Hv Hrows Hcalls. eapply wp_mono; [apply (tied_session True valid)|].
  - auto.
  - intros _ c Hc. by apply Hcalls.
  - intros _. split; [done|]. intros c Hc. by apply Hcalls.
  - cbv beta. intros _ s _ [_ Ht Ha] eid r. split.
    + intros Hr. destruct (Ht eid r Hr) as (_ & j & Hj & Hl & He & Hen). by exists (JID j), j.
    + intros (id & j & Hl & Hj & <- & Hen). by apply (Ha I id r j).
Qed.

(** As long as an id keeps its agent, no agent ever has more than
    [DefaultCronJobsPerAgent] jobs. *)
Theorem quota_holds (agent_of : string -> string) rows past getter engine bus calls e :
  (forall c, c ∈ calls -> bound agent_of c) -> (forall id r, rows !! id = Some r -> RAgent r = agent_of id) ->
  (forall a, a <> "" -> count agent_of a (dom rows) <= DefaultCronJobsPerAgent) ->
  wp (session calls) (fun _ s _ => forall a, a <> "" -> CountJobsForAgent a s <= DefaultCronJobsPerAgent)
    (fresh_scheduler true rows past getter engine bus) e.
Proof.
  intros Hb Hag Hc. eapply wp_mono; [by apply (within_session agent_of)|]. cbv beta. intros _ s _ Hw a Hne.
  unfold CountJobsForAgent. rewrite (owned_by_count agent_of) by done. by apply Hw.
Qed.

(** While the database answers, a restart finds the jobs that were
    listed, in every field but the times of the last and next run. *)
Theorem restart_keeps_jobs rows past getter engine bus calls getter' engine' bus' e : faults e = [] ->
  wp (session calls) (fun _ s e' => wp loadJobsFromDB (fun _ s' _ => forall id, listed s' id = listed s id)
      (fresh_scheduler true (cron_rows s) (history s) getter' engine' bus') e')
    (fresh_scheduler true rows past getter engine bus) e.
Proof.
  intros He. unfold session. apply wp_bind. eapply wp_mono; [by apply stored_load|]. cbv beta. intros res s1 e1 (He1 & _ & Hs1).
  assert (Hend : forall s e, faults e = [] /\ stored s -> wp loadJobsFromDB (fun _ s' _ => forall id, listed s' id = listed s id)
      (fresh_scheduler true (cron_rows s) (history s) getter' engine' bus') e).
  { intros s e' [He' Hs]. eapply wp_mono; [by apply stored_load|]. cbv beta. intros _ s' _ (_ & Hr & Hs') id. by rewrite (stored_rows _ Hs'), Hr, (stored_rows _ Hs). }
  destruct res as [u|]; [|by apply Hend]. eapply wp_mono; [apply (wp_for_each _ _ (fun s e => faults e = [] /\ stored s)); [done|]|].
  - intros c s e' _ [He' Hs]. by apply stored_call.
  - cbv beta. intros _ s e' Hs. by apply Hend.
Qed.
End spec.

(** ** Closed runs *)

(** A library that refuses the expression [bad]. *)
Definition demo_add (expr : string) (r : nat) (c : gmap nat nat) : option (nat * gmap nat nat) :=
  if bool_decide (expr = "bad") then None else let id := base.fresh ({[0%nat]} ∪ dom c : gset nat) in Some (id, <[id := r]> c).

Lemma demo_add_ok expr r c id c' : demo_add expr r c = Some (id, c') -> id <> 0%nat /\ c !! id = None /\ c' = <[id := r]> c.
Proof.
  unfold demo_add. case_bool_decide; [done|]. intros [= <- <-]. pose proof (is_fresh ({[0%nat]} ∪ dom c : gset nat)) as Hf.
  rewrite elem_of_union, elem_of_singleton, elem_of_dom in Hf. split; [by intros Heq; apply Hf; left|]. split; [|done].
  apply eq_None_not_Some. intros Hs. apply Hf. by right.
Qed.

#[local] Instance demo_lib : CronLib :=
  {| cron_state := gmap nat nat; new_cron := ∅; entries c := c; AddFunc := demo_add; RemoveEntry id c := delete id c; EntryNext _ _ := Some 60;
     entries_new := eq_refl; entries_add := demo_add_ok; entries_remove _ _ := eq_refl |}.
#[local] Instance demo_world : CronWorld :=
  {| default_recipient _ := ""; has_configured_llm _ := true; execute_step _ _ _ := Ok (Some ("It is noon.", 12)); elapsed _ := 5; random_hex _ := "00" |}.
#[local] Instance demo_range : MapRange := {| range_order _ _ l := l; range_perm _ _ _ := Permutation_refl _ |}.

Definition demo_job (id agent expr : string) : CronJob := mkJob id agent id expr "Say the time" "telegram" "" "7" true None None 0.
Definition demo_row : JobRow := mkJobRow "main" "night" "@daily" "Sleep" "all" "" "" true None 0 0.
Definition demo_rows : gmap string JobRow := {[ "night" := demo_row ]}.
Definition demo_calls : list cron_call :=
  [CRegister (demo_job "noon" "main" "0 12 * * *"); CTrigger 1; CRegister (demo_job "noon" "main" "5 12 * * *"); CAdvance 0; CRemove "night"; CAdvance 0].

Definition after {A} (m : io CronScheduler cron_error A) (s : CronScheduler) : CronScheduler := (m s (calm 100)).2.1.

(** The run of the replaced object ends as usual; the entry left is that of
    the new one. *)
Example demo_end :
  let s := after (session demo_calls) (fresh_scheduler true demo_rows [] false true true) in
  (map_to_list (entries (cron s)), map_to_list (jobs s), (fun r => (XJob r, XStatus r)) <$> history s, PContent <$> published s) =
  ([(2%nat, 2%nat)], [("noon", 2%nat)], [("noon", "success")], ["It is noon."]).
Proof. vm_compute. reflexivity. Qed.

Lemma demo_rows_inv id r : demo_rows !! id = Some r -> id = "night" /\ r = demo_row.
Proof. unfold demo_rows. intros [<- <-]%lookup_singleton_Some. done. Qed.
Lemma demo_calls_inv (P : cron_call -> Prop) : Forall P demo_calls -> forall c, c ∈ demo_calls -> P c.
Proof. intros H. by apply Forall_forall. Qed.

Lemma enabled_jobs_are_armed_witness :
  wp (session demo_calls) (fun _ s _ => forall eid r, entries (cron s) !! eid = Some r <->
      exists id j, jobs s !! id = Some r /\ heap s !! r = Some j /\ entryID j = eid /\ Enabled j = true)
    (fresh_scheduler true demo_rows [] false true true) (calm 100).
Proof.
  apply (enabled_jobs_are_armed (fun expr => expr <> "bad")).
  - intros expr r c Hne. cbn. unfold demo_add. by rewrite bool_decide_eq_false_2.
  - intros id r Hr. apply demo_rows_inv in Hr as [_ ->]. done.
  - apply (demo_calls_inv (fun c => from_outside c /\ call_valid _ c)). by repeat constructor.
Defined.

Lemma quota_holds_witness :
  wp (session demo_calls) (fun _ s _ => forall a, a <> "" -> CountJobsForAgent a s <= DefaultCronJobsPerAgent)
    (fresh_scheduler true demo_rows [] false true true) (calm 100).
Proof.
  apply (quota_holds (fun _ => "main")).
  - apply (demo_calls_inv (bound (fun _ => "main"))). by repeat constructor.
  - intros id r Hr. apply demo_rows_inv in Hr as [_ ->]. done.
  - intros a _. unfold count. trans (Z.of_nat (size (dom demo_rows : gset string))); [|by vm_compute].
    apply Nat2Z.inj_le, subseteq_size. set_solver.
Defined.

Lemma restart_keeps_jobs_witness :
  faults (calm 100) = [] /\
  wp (session demo_calls) (fun _ s e' => wp loadJobsFromDB (fun _ s' _ => forall id, listed s' id = listed s id)
      (fresh_scheduler true (cron_rows s) (history s) false true true) e')
    (fresh_scheduler true demo_rows [] false true true) (calm 100).
Proof. split; [reflexivity|]. exact (restart_keeps_jobs demo_rows [] false true true demo_calls false true true (calm 100) eq_refl). Defined.

(** A refused expression leaves the job that was listed, still enabled,
    without an entry. *)
Example refused_update_disarms :
  let s := after (session [CRegister (demo_job "noon" "main" "0 12 * * *"); CRegister (demo_job "noon" "main" "bad")]) (fresh_scheduler true ∅ [] false true true) in
  (map_to_list (entries (cron s)), (fun j => (CronExpr j, Enabled j)) <$> heap s, map_to_list (jobs s)) = ([], [("0 12 * * *", true)], [("noon", 0%nat)]).
Proof. vm_compute. reflexivity. Qed.

(** The end of a skipped execution frees the job while the first one still
    runs: the third execution overlaps it. *)
Example overlap_after_skip :
  let job := demo_job "noon" "main" "0 12 * * *" in
  inflight (after (session [CRegister job; CTrigger 0; CTrigger 0; CAdvance 1; CTrigger 0]) (fresh_scheduler true ∅ [] false true true)) = [(0%nat, Working); (0%nat, Working)] /\
  inflight (after (session [CRegister job; CTrigger 0; CTrigger 0]) (fresh_scheduler true ∅ [] false true true)) = [(0%nat, Working); (0%nat, Skipped)].
Proof. vm_compute. done. Qed.

(** Registering an id again under another agent is not counted. *)
Example quota_bypass :
  let mine i := CRegister (demo_job ("m" +:+ pretty (i : nat)) "main" "@daily") in
  let s := after (session ((mine <$> seq 0 8) ++ [CRegister (demo_job "x" "other" "@daily"); CRegister (demo_job "x" "main" "@daily"); mine 9%nat])) (fresh_scheduler true ∅ [] false true true) in
  CountJobsForAgent "main" s = 9.
Proof. vm_compute. reflexivity. Qed.

(** [SetDB] on a scheduler that has loaded the same rows leaves a second
    entry. *)
Example second_load_doubles :
  let s := after (_ ← loadJobsFromDB; SetDB demo_rows []) (fresh_scheduler true demo_rows [] false true true) in
  (size (entries (cron s)), size (jobs s)) = (2%nat, 1%nat).
Proof. vm_compute. reflexivity. Qed.
