(* ===== verification/WsDisk.v ===== *)
(** * The workspace on disk ([internal/workspace/store.go], [named.go])

    Rows of nodes, the files they own and the projection of their names, after
    the escaping of path segments in URLs. *)

From S2P Require Import Prelude GoStrings GoPath Io Tables GoText.
From Stdlib Require Import Ascii.
#[local] Open Scope Z_scope.

Definition alnum (b : Z) : bool := ((48 <=? b) && (b <=? 57)) || ((65 <=? b) && (b <=? 90)) || ((97 <=? b) && (b <=? 122)).

(** The bytes a path segment keeps: letters, digits and [-_.~$&+:=@]. *)
Definition segment_byte (b : Z) : bool := alnum b || bool_decide (b ∈ [45; 95; 46; 126; 36; 38; 43; 58; 61; 64]).

Definition upperhex (d : Z) : ascii := byte_of (if d <? 10 then 48 + d else 55 + d).
Definition unhex (a : ascii) : option Z :=
  let b := byte_val a in
  if (48 <=? b) && (b <=? 57) then Some (b - 48)
  else if (97 <=? b) && (b <=? 102) then Some (b - 87)
  else if (65 <=? b) && (b <=? 70) then Some (b - 55)
  else None.

Fixpoint PathEscape (s : string) : string :=
  match s with
  | "" => ""
  | String a s' =>
      if segment_byte (byte_val a) then String a (PathEscape s')
      else String "%"%char (String (upperhex (byte_val a / 16)) (String (upperhex (byte_val a mod 16)) (PathEscape s')))
  end.

Fixpoint PathUnescape (s : string) : option string :=
  match s with
  | "" => Some ""
  | String "%"%char (String h (String l s')) =>
      match unhex h, unhex l, PathUnescape s' with
      | Some x, Some y, Some t => Some (String (byte_of (16 * x + y)) t)
      | _, _, _ => None
      end
  | String "%"%char _ => None
  | String a s' => match PathUnescape s' with Some t => Some (String a t) | None => None end
  end.

Lemma unhex_upperhex d : 0 <= d < 16 -> unhex (upperhex d) = Some d.
Proof.
  intros Hd. unfold unhex, upperhex. destruct (d <? 10) eqn:Hlt.
  - apply Z.ltb_lt in Hlt. rewrite byte_val_of by lia. by replace ((48 <=? 48 + d) && (48 + d <=? 57)) with true by lia; f_equal; lia.
  - apply Z.ltb_ge in Hlt. rewrite byte_val_of by lia.
    replace ((48 <=? 55 + d) && (55 + d <=? 57)) with false by lia. replace ((97 <=? 55 + d) && (55 + d <=? 102)) with false by lia.
    replace ((65 <=? 55 + d) && (55 + d <=? 70)) with true by lia. f_equal. lia.
Qed.

Lemma PathUnescape_plain a s : a <> "%"%char -> PathUnescape (String a s) = match PathUnescape s with Some t => Some (String a t) | None => None end.
Proof. intros Ha. destruct a as [[] [] [] [] [] [] [] []]; try reflexivity. by destruct Ha. Qed.

(** Every text is read back. *)
Theorem escape_roundtrip s : PathUnescape (PathEscape s) = Some s.
Proof.
  induction s as [|a s IH]; [done|]. cbn [PathEscape]. pose proof (byte_val_range a) as Hr. destruct (segment_byte (byte_val a)) eqn:Hs.
  - rewrite PathUnescape_plain, IH; [done|]. by intros ->.
  - change (PathUnescape (String "%" (String (upperhex (byte_val a / 16)) (String (upperhex (byte_val a mod 16)) (PathEscape s)))))
      with (match unhex (upperhex (byte_val a / 16)), unhex (upperhex (byte_val a mod 16)), PathUnescape (PathEscape s) with
            | Some x, Some y, Some t => Some (String (byte_of (16 * x + y)) t) | _, _, _ => None end).
    rewrite !unhex_upperhex by (apply Z.mod_pos_bound || (split; [apply Z.div_pos|apply Z.div_lt_upper_bound]); lia). rewrite IH.
    rewrite <- Z_div_mod_eq_full, byte_of_val. done.
Qed.

(** A segment has only bytes that segments keep, and [%]. *)
Lemma escape_bytes s : all_bytes (fun b => segment_byte b || (b =? 37)) (PathEscape s) = true.
Proof.
  induction s as [|a s IH]; [done|]. cbn [PathEscape]. pose proof (byte_val_range a) as Hr.
  assert (Hhex : forall d, 0 <= d < 16 -> segment_byte (byte_val (upperhex d)) = true).
  { intros d Hd. unfold segment_byte, alnum, upperhex. destruct (d <? 10) eqn:Hlt.
    - apply Z.ltb_lt in Hlt. rewrite byte_val_of by lia. replace ((48 <=? 48 + d) && (48 + d <=? 57)) with true by lia. done.
    - apply Z.ltb_ge in Hlt. rewrite byte_val_of by lia. replace ((65 <=? 55 + d) && (55 + d <=? 90)) with true by lia. by rewrite orb_true_r. }
  destruct (segment_byte (byte_val a)) eqn:Hs; cbn [all_bytes].
  - by rewrite Hs, IH.
  - rewrite IH, !Hhex by (apply Z.mod_pos_bound || (split; [apply Z.div_pos|apply Z.div_lt_upper_bound]); lia).
    by rewrite andb_true_r.
Qed.

Lemma escape_nonempty s : s <> "" -> PathEscape s <> "".
Proof. destruct s as [|a s]; [done|]. cbn. by destruct (segment_byte _). Qed.

Lemma escape_no_byte c s : segment_byte (byte_val c) || (byte_val c =? 37) = false -> no_byte c (PathEscape s) = true.
Proof.
  intros Hc. pose proof (escape_bytes s) as Hb. induction (PathEscape s) as [|a t IH]; [done|]. cbn [all_bytes no_byte] in *.
  apply andb_true_iff in Hb as [Ha Hb]. rewrite IH by done. rewrite andb_true_r. 
  case_bool_decide as Heq; [|done]. rewrite Heq in Ha. congruence.
Qed.

(** ** Rows and files

    A file of the store stands at [root/folder/name]; [blobs] gives the inode
    of each, [inodes] what an inode holds.  The projection [named] is a tree
    of directories and files that share the inodes of the store where the
    disk makes hard links ([Disk]): what a program writes into a projected
    file is then written into the store's.

    Operations of the disk fail for the reasons written here (a name taken or
    missing, a directory in the way); statements of the database may fail at
    any time. *)

#[local] Open Scope Z_scope.

Definition VirtualRoot : string := "/data/workspace".
Definition rootFolderID : string := "00000000-0000-0000-0000-000000000000".
Definition maxNameBytes : Z := 4096.
Definition AgentViewName : string := "user-workspace".

Inductive node_type := FileNode | DirectoryNode.
#[export] Instance node_type_eq_dec : EqDecision node_type.
Proof. solve_decision. Defined.

Record NodeRow := mkRow {
  NodeID : string; ParentID : string; NodeName : string; NodeType : node_type; MIMEType : string; SizeBytes : Z; ContentHash : string;
  RelativePath : string; Version : Z; NodeCreated : string; NodeUpdated : string; NodeDeleted : option string }.

(** A node as it is handed out. *)
Record Node := mkNode { Row : NodeRow; VirtualPathOf : string; ExecPath : string }.

Inductive named_entry := NamedDir | NamedFile (inode : nat).
#[export] Instance named_entry_eq_dec : EqDecision named_entry.
Proof. solve_decision. Defined.

Record Store := mkStore {
  nodes : gmap string NodeRow; fts : list (string * string);            (* node id, name *)
  blobs : gmap (string * string) nat; inodes : gmap nat string; folders : gset string;
  named : gmap (list string) named_entry;
  execByID : gmap string string; idByExec : gmap string string; namedPaused : bool }.

Definition set_nodes s x := mkStore x (fts s) (blobs s) (inodes s) (folders s) (named s) (execByID s) (idByExec s) (namedPaused s).
Definition set_fts s x := mkStore (nodes s) x (blobs s) (inodes s) (folders s) (named s) (execByID s) (idByExec s) (namedPaused s).
Definition set_blobs s x := mkStore (nodes s) (fts s) x (inodes s) (folders s) (named s) (execByID s) (idByExec s) (namedPaused s).
Definition set_inodes s x := mkStore (nodes s) (fts s) (blobs s) x (folders s) (named s) (execByID s) (idByExec s) (namedPaused s).
Definition set_folders s x := mkStore (nodes s) (fts s) (blobs s) (inodes s) x (named s) (execByID s) (idByExec s) (namedPaused s).
Definition set_named s x := mkStore (nodes s) (fts s) (blobs s) (inodes s) (folders s) x (execByID s) (idByExec s) (namedPaused s).
Definition set_exec s x y := mkStore (nodes s) (fts s) (blobs s) (inodes s) (folders s) (named s) x y (namedPaused s).
Definition set_paused s x := mkStore (nodes s) (fts s) (blobs s) (inodes s) (folders s) (named s) (execByID s) (idByExec s) x.

Inductive ws_error := ErrNotFound | ErrConflict | ErrInvalidName | ErrInvalidNode | ErrVersion | BadEscape | DbFailed | DiskFailed.
#[export] Instance ws_error_eq_dec : EqDecision ws_error.
Proof. solve_decision. Defined.

(** What the code uses of the platform: printable runes, the tables of MIME
    types, the text of times, whether the disk makes hard links. *)
Class Disk := {
  is_print : Z -> bool;
  print_ascii : forall r, 0 <= r < 128 -> is_print r = (32 <=? r) && (r <=? 126);
  DetectContentType : string -> string;
  TypeByExtension : string -> string;
  format_time : Z -> string;
  hard_links : bool;
  fts_match : string -> string -> option bool }.     (* query, name; None when the query is refused *)

Abbreviation wop := (io Store ws_error).

(** ** Names and storage paths *)

(** [utf8.ValidString]: every segment is the encoding of its rune. *)
Definition valid_utf8 (s : string) : bool := forallb (fun p : Z * string => bool_decide (encode_rune p.1 = p.2)) (segments s).

Definition ValidateName (name : string) : result ws_error unit :=
  if bool_decide (name = "") || negb (valid_utf8 name) || (maxNameBytes <? len name) || negb (no_byte (byte_of 0) name) then Err ErrInvalidName else Ok tt.

(** The texts [uuid.Parse] reads and writes back unchanged. *)
Definition lower_hex (b : Z) : bool := ((48 <=? b) && (b <=? 57)) || ((97 <=? b) && (b <=? 102)).
Definition canonical_uuid (s : string) : bool :=
  match split_byte (byte_of 45) s with
  | [a; b; c; d; e] =>
      bool_decide (String.length a = 8%nat) && bool_decide (String.length b = 4%nat) && bool_decide (String.length c = 4%nat) &&
      bool_decide (String.length d = 4%nat) && bool_decide (String.length e = 12%nat) && forallb (all_bytes lower_hex) [a; b; c; d; e]
  | _ => false
  end.

(** [uuid.NewString]; nothing is assumed about collisions. *)
Class NodeIds := {
  uuid : nat -> string;
  uuid_canonical : forall n, canonical_uuid (uuid n) = true;
  uuid_not_root : forall n, uuid n <> rootFolderID }.

Definition storageRelativePath (parentID fileID : string) : result ws_error string :=
  let parentID := if bool_decide (parentID = "") then rootFolderID else parentID in
  if negb (canonical_uuid parentID) then Err ErrInvalidNode
  else if negb (canonical_uuid fileID) then Err ErrInvalidNode
  else Ok (Join [parentID; fileID]).

(** The folder and the file under [root] ([filepath.Rel] of what was joined
    to the root cannot climb). *)
Definition storagePath (relativePath : string) : result ws_error (string * string) :=
  let clean := Clean relativePath in
  if rooted clean || bool_decide (clean = ".") || climbs clean then Err ErrInvalidNode
  else
    match split_byte slash clean with
    | [folder; file] => match storageRelativePath folder file with Ok _ => Ok (folder, file) | Err e => Err e end
    | _ => Err ErrInvalidNode
    end.

Definition hashContent `{Platform} (content : string) : string := sha256_hex content.

Definition mime_head `{Unicode} (m : string) : string := to_lower (trim_space (match split_byte (byte_of 59) m with x :: _ => x | [] => "" end)).
Definition file_ext (name : string) : string :=
  let base := match split_last name slash with Some (_, r) => r | None => name end in
  match split_last base (byte_of 46) with Some (_, r) => String (byte_of 46) r | None => "" end.
Definition octet_stream : string := "application/octet-stream".

Definition detectMIME `{Unicode} `{Disk} (name requested content : string) : string :=
  if negb (bool_decide (requested = "")) && negb (bool_decide (requested = octet_stream)) then mime_head requested
  else if negb (bool_decide (DetectContentType content = octet_stream)) then mime_head (DetectContentType content)
  else if negb (bool_decide (TypeByExtension (file_ext name) = "")) then mime_head (TypeByExtension (file_ext name))
  else octet_stream.

(** ** Rows *)

Definition live (r : NodeRow) : bool := bool_decide (NodeDeleted r = None).
Definition live_row (s : Store) (id : string) : option NodeRow := r ← nodes s !! id; if live r then Some r else None.

(** The unique index of live names. *)
Definition name_taken (s : Store) (parent name id : string) : bool :=
  bool_decide (map_Exists (fun k (r : NodeRow) => live r = true /\ ParentID r = parent /\ NodeName r = name /\ k <> id) (nodes s)).

(** Children are named in the order of their ids. *)
Definition id_before (a b : NodeRow) : Prop := String.leb (NodeID a) (NodeID b) = true.
#[export] Instance id_before_dec a b : Decision (id_before a b) := decide (_ = true).

(** [lower] and [COLLATE NOCASE] of SQLite. *)
Definition sql_lower (s : string) : string := map_bytes ascii_lower s.
Definition listed_before (a b : NodeRow) : Prop :=
  let rank r := match NodeType r with DirectoryNode => 0 | FileNode => 1 end in
  rank a < rank b \/ rank a = rank b /\
  (match String.compare (sql_lower (NodeName a)) (sql_lower (NodeName b)) with
   | Lt => True | Gt => False | Eq => String.leb (NodeName a) (NodeName b) = true end).
#[export] Instance listed_before_dec a b : Decision (listed_before a b).
Proof. unfold listed_before. destruct (String.compare _ _); apply _. Defined.

Definition live_rows (s : Store) (p : NodeRow -> bool) : list NodeRow := filter (fun r => live r && p r = true) (map_to_list (nodes s)).*2.
Definition children_of (s : Store) (parent : string) : list NodeRow :=
  merge_sort listed_before (live_rows s (fun r => bool_decide (ParentID r = parent))).

(** The ids below [id], level by level; the recursive query ends when a level
    is empty. *)
Definition next_level (p : NodeRow -> bool) (s : Store) (l : list string) : list string :=
  NodeID <$> filter (fun r => p r && bool_decide (ParentID r ∈ l) = true) (map_to_list (nodes s)).*2.
Fixpoint levels (fuel : nat) (p : NodeRow -> bool) (s : Store) (l : list string) : list string :=
  match fuel with O => [] | S fuel' => match l with [] => [] | _ => l ++ levels fuel' p s (next_level p s l) end end.
Definition row_count (s : Store) : nat := size (nodes s).
Definition descendants (s : Store) (id : string) : list string := levels (S (row_count s)) live s (next_level live s [id]).
Definition subtree (p : NodeRow -> bool) (s : Store) (id : string) : list string := levels (S (row_count s)) p s [id].

(** ** Names of the projection *)

Definition windowsReservedNames : list string :=
  ["CON"; "PRN"; "AUX"; "NUL"; "COM1"; "COM2"; "COM3"; "COM4"; "COM5"; "COM6"; "COM7"; "COM8"; "COM9";
   "LPT1"; "LPT2"; "LPT3"; "LPT4"; "LPT5"; "LPT6"; "LPT7"; "LPT8"; "LPT9"].

(** The bytes [\/:*?], quotation mark, [<>|]. *)
Definition forbidden_runes : list Z := [92; 47; 58; 42; 63; 34; 60; 62; 124].
Definition safe_rune `{Disk} (r : Z) : Z :=
  if bool_decide (r = 0) || (r <? 32) || negb (is_print r) then 95 else if bool_decide (r ∈ forbidden_runes) then 95 else r.
Definition dot_or_space : list Z := [32; 46].

Definition sanitizeFSName `{Unicode} `{Disk} (name : string) : string :=
  let name := trim_space name in
  if bool_decide (name = "") || bool_decide (name = ".") then "unnamed"
  else if bool_decide (name = "..") then "unnamed-dotdot"
  else
    let out := trim_right (encode_runes (safe_rune <$> runes name)) dot_or_space in
    let out := if bool_decide (out = "") then "unnamed" else out in
    let '(stem, ext) := match split_last out (byte_of 46) with
      | Some (l, r) => if bool_decide (l = "") then (out, "") else (l, String (byte_of 46) r)
      | None => (out, "")
      end in
    let out := if bool_decide (to_upper stem ∈ windowsReservedNames) then "_" +:+ out else out in
    if 240 <? len out then
      let keepExt := if 16 <? len ext then take_bytes 16 ext else ext in
      trim_right (take_bytes (Z.to_nat (240 - len keepExt)) out) dot_or_space +:+ keepExt
    else out.

Definition id_suffix (id : string) : string := take_bytes 8 (Replace [("-", "")] id).
Definition uniqueExecName `{Unicode} `{Disk} (name id : string) (used : gmap string string) : string :=
  let safe := sanitizeFSName name in
  match used !! safe with
  | Some existing => if bool_decide (existing = id) then safe else safe +:+ "-" +:+ id_suffix id
  | None => safe
  end.

(** The names of siblings, in the order of their ids. *)
Fixpoint name_siblings `{Unicode} `{Disk} (l : list NodeRow) (used : gmap string string) : list (NodeRow * string) :=
  match l with
  | [] => []
  | r :: l' => let name := uniqueExecName (NodeName r) (NodeID r) used in (r, name) :: name_siblings l' (<[name := NodeID r]> used)
  end.

Definition siblings (active : list NodeRow) (parent : string) : list NodeRow :=
  merge_sort id_before (filter (fun r => ParentID r = parent) active).

(** The paths below [parent], a parent before its children; a path is the
    list of its names. *)
Fixpoint visit `{Unicode} `{Disk} (fuel : nat) (active : list NodeRow) (parent : string) (parentRel : list string) : list (string * list string) :=
  match fuel with
  | O => []
  | S fuel' =>
      '(r, name) ← name_siblings (siblings active parent) ∅;
      let rel := if bool_decide (join parentRel "/" = "") then [name] else parentRel ++ [name] in
      (NodeID r, rel) :: (if decide (NodeType r = DirectoryNode) then visit fuel' active (NodeID r) rel else [])
  end.

Definition rel_path (rel : list string) : string := join rel "/".
Definition assigned `{Unicode} `{Disk} (active : list NodeRow) : list (string * list string) := visit (S (length active)) active "" [].
(** Both maps; of two nodes with one path the later has it. *)
Definition assignExecPaths `{Unicode} `{Disk} (active : list NodeRow) : gmap string string * gmap string string :=
  (list_to_map ((fun p : string * list string => (p.1, rel_path p.2)) <$> assigned active),
   list_to_map (reverse ((fun p : string * list string => (rel_path p.2, p.1)) <$> assigned active))).

(** ** The disk *)

Section disk.
Context `{Unicode} `{NodeIds} `{Disk} `{MapRange}.
Abbreviation wop := (io Store ws_error).

Definition sop (f : Store -> result ws_error Store) : wop unit :=
  s ← get; match f s with Ok s' => modify (fun _ => s') | Err e => throw e end.

(** [os.Mkdir], [os.MkdirAll], [os.Remove], [os.RemoveAll] of a folder of the store. *)
Definition mkdir_folder (id : string) (s : Store) : result ws_error Store :=
  if bool_decide (id ∈ folders s) then Err DiskFailed else Ok (set_folders s ({[id]} ∪ folders s)).
Definition mkdir_all_folder (id : string) (s : Store) : Store := set_folders s ({[id]} ∪ folders s).
Definition remove_folder (id : string) (s : Store) : Store :=
  if bool_decide (map_Exists (fun k (_ : nat) => k.1 = id) (blobs s)) then s else set_folders s (folders s ∖ {[id]}).
Definition remove_all_folder (id : string) (s : Store) : Store :=
  set_folders (set_blobs s (filter (fun kv : (string * string) * nat => kv.1.1 <> id) (blobs s))) (folders s ∖ {[id]}).

(** [os.Rename], [os.Remove] of a file of the store. *)
Definition rename_blob (src dst : string * string) (s : Store) : result ws_error Store :=
  match blobs s !! src with
  | Some i => if bool_decide (dst.1 ∈ folders s) then Ok (set_blobs s (<[dst := i]> (delete src (blobs s)))) else Err DiskFailed
  | None => Err DiskFailed
  end.
Definition try_rename (src dst : string * string) (s : Store) : Store := match rename_blob src dst s with Ok s' => s' | Err _ => s end.
Definition remove_blob (p : string * string) (s : Store) : Store := set_blobs s (delete p (blobs s)).

(** A temporary file in the folder of [target] that holds [content]. *)
Definition stageWorkspaceFile (target : string * string) (content : string) : wop (string * string) :=
  n ← draw;
  let staged := (target.1, ".workspace-" +:+ uuid n) in
  _ ← modify (fun s => let s := mkdir_all_folder target.1 s in
    set_inodes (set_blobs s (<[staged := n]> (blobs s))) (<[n := content]> (inodes s)));
  mret staged.

(** The original is kept as a backup; [rollback] puts it back, [finalize]
    removes it. *)
Definition installWorkspaceFile (staged target : string * string) : wop ((Store -> Store) * (Store -> Store)) :=
  n ← draw;
  let backup := (target.1, target.2 +:+ ".backup-" +:+ uuid n) in
  s ← get;
  let hadOriginal := bool_decide (is_Some (blobs s !! target)) in
  _ ← modify (try_rename target backup);
  moved ← attempt (sop (rename_blob staged target));
  match moved with
  | Err e => _ ← modify (if hadOriginal then try_rename backup target else id); throw e
  | Ok _ => mret (fun s => (if hadOriginal then try_rename backup target else id) (remove_blob target s), if hadOriginal then remove_blob backup else id)
  end.

(** ** The projection of names *)

(** [os.MkdirAll] under the projection, whose root is []: a file in the way
    is an error. *)
Definition prefixes_of (p : list string) : list (list string) := (fun n => take n p) <$> seq 0 (S (length p)).
Definition named_mkdir_all (p : list string) (s : Store) : result ws_error Store :=
  foldl (fun acc q => s ← acc; match named s !! q with Some (NamedFile _) => Err DiskFailed | _ => Ok (set_named s (<[q := NamedDir]> (named s))) end) (Ok s) (prefixes_of p).

Definition parent_dir (p : list string) : list string := take (length p - 1) p.

(** [os.Remove] under the projection: a directory that is not empty stays. *)
Definition named_remove (p : list string) (s : Store) : Store :=
  if bool_decide (map_Exists (fun q (_ : named_entry) => p `prefix_of` q /\ q <> p) (named s)) then s else set_named s (delete p (named s)).
Definition named_remove_all (gone : list string -> bool) (s : Store) : Store :=
  set_named s (filter (fun kv : list string * named_entry => gone kv.1 = false) (named s)).

Definition linkNamedFile (source : string * string) (dest : list string) : wop unit :=
  _ ← sop (named_mkdir_all (parent_dir dest));
  s ← get;
  if match blobs s !! source with Some i => bool_decide (named s !! dest = Some (NamedFile i)) | None => false end then mret tt
  else
    _ ← modify (named_remove dest);
    s ← get;
    match blobs s !! source with
    | None => throw DiskFailed
    | Some i =>
        if hard_links && bool_decide (named s !! dest = None) then modify (fun s => set_named s (<[dest := NamedFile i]> (named s)))
        else
          if bool_decide (named s !! dest = Some NamedDir) then throw DiskFailed
          else
            n ← draw;
            modify (fun s => set_named (set_inodes s (<[n := default "" (inodes s !! i)]> (inodes s))) (<[dest := NamedFile n]> (named s)))
    end.

Definition ignoredNamedExtra (rel : list string) : bool :=
  existsb (fun part =>
    let lower := to_lower part in
    bool_decide (lower ∈ ["__pycache__"; ".ds_store"; "thumbs.db"]) || has_prefix part "." || has_suffix lower ".pyc") rel.

(** What the walk collects and [os.RemoveAll] takes away, with what is below. *)
Definition named_extra (s : Store) (previous desired : gset string) (rel : list string) : bool :=
  match named s !! rel with
  | None => false
  | Some entry =>
      negb (bool_decide (rel = [])) &&
      negb (bool_decide (rel_path rel ∈ desired)) &&
      negb (bool_decide (entry = NamedDir) && existsb (fun want => has_prefix want (rel_path rel +:+ "/")) (elements desired)) &&
      (bool_decide (rel_path rel ∈ previous) || ignoredNamedExtra rel)
  end.
Definition removeNamedExtras (previous desired : gset string) (s : Store) : Store :=
  named_remove_all (fun p => existsb (named_extra s previous desired) (prefixes_of p)) s.

Definition active_nodes (s : Store) : list NodeRow := live_rows s (fun _ => true).

Definition project_node (p : string * string) : wop unit :=
  s ← get;
  match live_row s p.1 with
  | None => mret tt
  | Some node =>
      let target := filter (fun part => part <> "") (split_byte slash p.2) in
      match NodeType node with
      | DirectoryNode => sop (named_mkdir_all target)
      | FileNode =>
          if bool_decide (RelativePath node = "") then mret tt
          else source ← lift (storagePath (RelativePath node)); linkNamedFile source target
      end
  end.

Definition rebuildNamedLocked : wop unit :=
  _ ← sop (named_mkdir_all []);
  _ ← db DbFailed;
  s ← get;
  let previous := dom (idByExec s) in
  let '(byID, byExec) := assignExecPaths (active_nodes s) in
  _ ← modify (fun s => set_exec s byID byExec);
  todo ← ranged byID;
  _ ← for_each project_node todo;
  modify (removeNamedExtras previous (list_to_set (map_to_list byID).*2)).

Definition refreshNamed : wop unit :=
  s ← get; if namedPaused s then mret tt else ignore rebuildNamedLocked.
End disk.
