(* ===== verification/WsDiskSpec.v ===== *)
(** * Lemmas about names, storage paths and the disk of the workspace *)

From S2P Require Import Prelude GoStrings GoPath Io Tables GoText WsDisk.
From Stdlib Require Import Ascii.
#[local] Open Scope Z_scope.

(** ** Identifiers and the paths made of them *)

Lemma split_byte_nonempty c s : split_byte c s <> [].
Proof. destruct s as [|a s]; [done|]. cbn. case_bool_decide; [done|]. by destruct (split_byte c s). Qed.
Lemma uuid_join_split c s : join (split_byte c s) (String c "") = s.
Proof.
  induction s as [|a s IH]; [done|]. cbn. pose proof (split_byte_nonempty c s) as Hne. case_bool_decide as Ha.
  - destruct (split_byte c s) as [|x l]; [done|]. change (String c (join (x :: l) (String c "")) = String a s). by rewrite IH, Ha.
  - destruct (split_byte c s) as [|x l]; [done|]. rewrite <- IH. by destruct l.
Qed.

Lemma split_canonical s : canonical_uuid s = true -> all_bytes (fun b => lower_hex b || (b =? 45)) s = true /\ String.length s = 36%nat.
Proof.
  intros Hs. pose proof (uuid_join_split (byte_of 45) s) as Hj. change (String (byte_of 45) "") with "-" in Hj.
  unfold canonical_uuid in Hs. destruct (split_byte (byte_of 45) s) as [|a [|b [|c [|d [|e [|]]]]]] eqn:Hsp; try done.
  rewrite <- Hj. rewrite !andb_true_iff, !bool_decide_eq_true in Hs. destruct Hs as (((((Ha & Hb) & Hc) & Hd) & He) & Hx).
  cbn [forallb] in Hx. rewrite !andb_true_iff in Hx. destruct Hx as (Xa & Xb & Xc & Xd & Xe & _).
  assert (Hw : forall t, all_bytes lower_hex t = true -> all_bytes (fun b => lower_hex b || (b =? 45)) t = true).
  { intros t. apply all_bytes_impl. intros z Hz. by rewrite Hz. }
  cbn [join]. rewrite !all_bytes_app, !string_length_app, (Hw a Xa), (Hw b Xb), (Hw c Xc), (Hw d Xd), (Hw e Xe). cbn. split; [done|lia].
Qed.

Lemma canonical_no_byte c s : canonical_uuid s = true -> lower_hex (byte_val c) || (byte_val c =? 45) = false -> no_byte c s = true.
Proof.
  intros Hs Hc. apply split_canonical in Hs as [Hs _]. induction s as [|a s IH]; [done|]. cbn [all_bytes no_byte] in *.
  apply andb_true_iff in Hs as [Ha Hs]. rewrite IH, andb_true_r by done. case_bool_decide as Heq; [|done]. rewrite Heq in Ha. congruence.
Qed.

Lemma canonical_entry s : canonical_uuid s = true -> entry_name s.
Proof.
  intros Hs. pose proof (split_canonical s Hs) as [_ Hl]. split; [split; [|split]|].
  - by intros ->.
  - by intros ->.
  - by apply canonical_no_byte.
  - by intros ->.
Qed.

(** Names with a dot are no identifiers: those of staged files and backups. *)
Lemma dotted_not_canonical a b : canonical_uuid (a +:+ "." +:+ b) = false.
Proof.
  apply not_true_iff_false. intros Hs. apply (canonical_no_byte (byte_of 46)) in Hs; [|done]. rewrite no_byte_app in Hs.
  apply andb_true_iff in Hs as [_ Hs]. cbn in Hs. done.
Qed.

Definition storage_folder (parentID : string) : string := if bool_decide (parentID = "") then rootFolderID else parentID.

Lemma rel_clean p f : canonical_uuid p = true -> canonical_uuid f = true ->
  Join [p; f] = join [p; f] "/" /\ Clean (join [p; f] "/") = join [p; f] "/" /\ split_byte slash (join [p; f] "/") = [p; f] /\ rooted (join [p; f] "/") = false.
Proof.
  intros Hp Hf. pose proof (canonical_entry _ Hp) as Ep. pose proof (canonical_entry _ Hf) as Ef.
  assert (Hne : p <> "" /\ f <> "") by (split; [apply Ep|apply Ef]).
  assert (Hr : join [p; f] "/" = render false [p; f]) by done.
  assert (Hcl : clean_list false [p; f]) by (apply entry_names_clean, Forall_cons_2, Forall_cons_2, Forall_nil_2; done).
  assert (Hroot : rooted (join [p; f] "/") = false).
  { rewrite Hr. apply rooted_render. by apply Hcl. }
  assert (HC : Clean (join [p; f] "/") = join [p; f] "/").
  { rewrite Clean_render, Hroot. rewrite Hr at 1. by rewrite elems_render. }
  split; [|split; [done|split; [|done]]].
  - unfold Join. rewrite filter_cons_True, filter_cons_True, filter_nil by apply Hne. exact HC.
  - apply split_join. apply Forall_cons_2, Forall_cons_2, Forall_nil_2; [apply Ep|apply Ef].
Qed.

Lemma storageRelativePath_Ok p f rel : storageRelativePath p f = Ok rel <->
  canonical_uuid (storage_folder p) = true /\ canonical_uuid f = true /\ rel = join [storage_folder p; f] "/".
Proof.
  unfold storageRelativePath. fold (storage_folder p). destruct (canonical_uuid (storage_folder p)) eqn:Hp; cbn [negb]; [|naive_solver].
  destruct (canonical_uuid f) eqn:Hf; cbn [negb]; [|naive_solver]. rewrite (proj1 (rel_clean _ _ Hp Hf)). naive_solver.
Qed.

(** The path a node records is the one its file is found at. *)
Lemma storagePath_rel p f rel : storageRelativePath p f = Ok rel -> storagePath rel = Ok (storage_folder p, f).
Proof.
  intros (Hp & Hf & ->)%storageRelativePath_Ok. destruct (rel_clean _ _ Hp Hf) as (HJ & HC & HS & HR).
  unfold storagePath. rewrite HC, HR. assert (Hdot : join [storage_folder p; f] "/" <> ".").
  { intros Heq. rewrite Heq in HS. done. }
  assert (Hcl : climbs (join [storage_folder p; f] "/") = false).
  { unfold climbs. rewrite bool_decide_eq_false_2 by (intros Heq; by rewrite Heq in HS). cbn [orb]. apply not_true_iff_false.
    intros (t & Ht)%has_prefix_spec. rewrite Ht in HS. cbn in HS. injection HS as Hfolder _. by rewrite <- Hfolder in Hp. }
  rewrite bool_decide_eq_false_2, Hcl by done. cbn [orb]. rewrite HS. unfold storageRelativePath.
  assert (Hsf : storage_folder p <> "") by apply (canonical_entry _ Hp). rewrite bool_decide_eq_false_2 by done. by rewrite Hp, Hf.
Qed.

(** ** What is on the disk *)

(** The files that nodes may own; staged files and backups have other names. *)
Definition proper (p : string * string) : Prop := canonical_uuid p.2 = true.

Definition bounded (s : Store) (e : env) : Prop := forall i, is_Some (inodes s !! i) -> (i < fresh e)%nat.

(** Nothing that nodes own was touched; inodes were only added. *)
Record disk_kept (s s' : Store) : Prop := {
  kept_blobs : forall p, proper p -> blobs s' !! p = blobs s !! p;
  kept_inodes : inodes s ⊆ inodes s';
  kept_folders : folders s ⊆ folders s' }.
#[export] Instance disk_kept_preorder : PreOrder disk_kept.
Proof.
  split; [by intros s; split|]. intros s1 s2 s3 [A1 A2 A3] [B1 B2 B3]. split; [|by etransitivity|set_solver]. intros p Hp. by rewrite B1, A1.
Qed.

Lemma bounded_le s e e' : bounded s e -> env_le e e' -> bounded s e'.
Proof. intros Hb [_ Hf] i Hi. specialize (Hb i Hi). lia. Qed.

Lemma bounded_new s e i : bounded s e -> (fresh e <= i)%nat -> inodes s !! i = None.
Proof. intros Hb Hi. apply eq_None_not_Some. intros Hs. specialize (Hb i Hs). lia. Qed.

Lemma add_inode s e c : bounded s e -> inodes s ⊆ <[fresh e := c]> (inodes s).
Proof. intros Hb. apply insert_subseteq. by apply (bounded_new s e). Qed.
Lemma bounded_add s e e' m c : bounded s e -> m = <[fresh e := c]> (inodes s) -> (fresh e < fresh e')%nat -> forall i, is_Some (m !! i) -> (i < fresh e')%nat.
Proof.
  intros Hb -> Hf i. destruct (decide (i = fresh e)) as [->|Hne]; [lia|]. rewrite lookup_insert_ne by done. intros Hi. specialize (Hb i Hi). lia.
Qed.

(** ** The projection leaves the store alone *)

Record projected (s s' : Store) : Prop := {
  proj_nodes : nodes s' = nodes s; proj_fts : fts s' = fts s; proj_blobs : blobs s' = blobs s; proj_folders : folders s' = folders s;
  proj_paused : namedPaused s' = namedPaused s; proj_inodes : inodes s ⊆ inodes s' }.

Section disk.
Context `{U : Unicode} `{I : NodeIds} `{D : Disk} `{M : MapRange}.
Abbreviation wop := (io Store ws_error).

#[export] Instance projected_preorder : PreOrder projected.
Proof. split; [by intros s; split|]. intros s1 s2 s3 [] []. split; try congruence. by etransitivity. Qed.

Definition apart (s0 : Store) (e0 : env) (s : Store) (e : env) : Prop := projected s0 s /\ bounded s e /\ env_le e0 e.

Lemma named_mkdir_projected p s s' : named_mkdir_all p s = Ok s' -> exists m, s' = set_named s m.
Proof.
  unfold named_mkdir_all. assert (Hgen : forall l acc, (exists m, acc = Ok (set_named s m)) \/ (exists e, acc = Err e) ->
    foldl (fun acc q => s ← acc; match named s !! q with Some (NamedFile _) => Err DiskFailed | _ => Ok (set_named s (<[q := NamedDir]> (named s))) end) acc l = Ok s' ->
    exists m, s' = set_named s m).
  { induction l as [|q l IH]; intros acc Hacc; cbn [foldl].
    - destruct Hacc as [[m ->]|[e ->]]; [|done]. intros [= <-]. by exists m.
    - apply IH. destruct Hacc as [[m ->]|[e ->]]; cbn [mbind result_bind]; [|right; by exists e].
      destruct (named (set_named s m) !! q) as [[]|]; [left; by eexists|right; by eexists|left; by eexists]. }
  apply Hgen. left. exists (named s). by destruct s.
Qed.

Lemma projected_named s0 s m : projected s0 s -> projected s0 (set_named s m).
Proof. intros []. by split. Qed.

Lemma wp_sop (f : Store -> result ws_error Store) (Q : result ws_error unit -> Store -> env -> Prop) s e :
  (forall s', f s = Ok s' -> Q (Ok tt) s' e) -> (forall x, f s = Err x -> Q (Err x) s e) -> wp (sop f) Q s e.
Proof.
  intros HO HE. unfold sop. apply wp_bind, wp_get. cbv beta iota. destruct (f s) as [s'|x]; [apply wp_modify; auto|apply wp_throw; auto].
Qed.

Lemma named_remove_named p s : exists m, named_remove p s = set_named s m.
Proof. unfold named_remove. case_bool_decide; [exists (named s); by destruct s|by eexists]. Qed.

Lemma link_apart source dest s0 e0 s e : apart s0 e0 s e -> wp (linkNamedFile source dest) (fun _ => apart s0 e0) s e.
Proof.
  intros (Hp & Hb & He). unfold linkNamedFile. apply wp_bind, wp_sop; [|done].
  intros s1 [m1 ->]%named_mkdir_projected. cbv beta iota. apply wp_bind, wp_get. cbv beta iota.
  destruct (match blobs _ !! source with Some i => _ | None => _ end).
  { apply wp_ret. split; [by apply projected_named|done]. }
  apply wp_bind, wp_modify. cbv beta iota. apply wp_bind, wp_get. cbv beta iota.
  destruct (named_remove_named dest (set_named s m1)) as [m2 ->].
  destruct (blobs _ !! source) as [i|]; [|apply wp_throw; split; [by do 2 apply projected_named|done]].
  destruct (hard_links && _); [apply wp_modify; split; [by do 3 apply projected_named|done]|].
  case_bool_decide; [apply wp_throw; split; [by do 2 apply projected_named|done]|].
  apply wp_bind, wp_draw. intros e' He' _ Hfresh. cbv beta iota. apply wp_modify. cbn [set_named set_inodes inodes named].
  split; [|split].
  - apply projected_named. destruct Hp as [H1' H2' H3' H4' H5' H6']. split; try done. cbn [inodes set_inodes set_named]. etransitivity; [exact H6'|by apply add_inode].
  - unfold bounded. cbn [inodes set_named set_inodes]. eapply bounded_add; [exact Hb|done|lia].
  - by transitivity e.
Qed.

Lemma project_apart x s0 e0 s e : apart s0 e0 s e -> wp (project_node x) (fun _ => apart s0 e0) s e.
Proof.
  intros Ha. unfold project_node. apply wp_bind, wp_get. cbv beta iota. destruct (live_row s x.1) as [r|]; [|by apply wp_ret].
  destruct (NodeType r).
  - case_bool_decide; [by apply wp_ret|]. apply wp_bind, wp_lift. destruct (storagePath _); [by apply link_apart|done].
  - apply wp_sop; [|done]. intros s' [m ->]%named_mkdir_projected. destruct Ha as (Hp & Hb & He). split; [by apply projected_named|done].
Qed.

Lemma wp_ranged_any {A} (m : gmap string A) (Q : result ws_error (list (string * A)) -> Store -> env -> Prop) s e :
  (forall n e', onward e e' -> Q (Ok (range_order _ n (map_to_list m))) s e') -> wp (ranged m) Q s e.
Proof. intros HQ. unfold ranged. apply wp_bind, wp_draw_onward. intros e' He'. apply wp_ret, HQ, He'. Qed.

Lemma refresh_apart s e : bounded s e -> wp refreshNamed (fun r s' e' => r = Ok tt /\ apart s e s' e') s e.
Proof.
  intros Hb. assert (Hs : apart s e s e) by (split; [reflexivity|split; [done|reflexivity]]). unfold refreshNamed.
  apply wp_bind, wp_get. cbv beta iota. destruct (namedPaused s); [by apply wp_ret|]. apply wp_ignore.
  enough (Hgoal : wp rebuildNamedLocked (fun _ => apart s e) s e) by (eapply wp_mono; [exact Hgoal|]; by intros).
  unfold rebuildNamedLocked. apply wp_bind, wp_sop; [|done]. intros s0 [m0 ->]%named_mkdir_projected. cbv beta iota. apply wp_bind, wp_db. intros e1 He1 _ _. assert (Hp0 : projected s (set_named s m0)) by by apply projected_named.
  assert (Hb0 : bounded (set_named s m0) e1) by by eapply (bounded_le s).
  split; cbv beta iota; [|split; [done|by split]].
  apply wp_bind, wp_get. cbv beta iota. destruct (assignExecPaths _) as [byID byExec]. apply wp_bind, wp_modify. cbv beta iota.
  apply wp_bind, wp_ranged_any. intros n e2 [He2 _]. cbv beta iota. apply wp_bind.
  eapply wp_mono; [apply (wp_for_each _ _ (apart s e))|].
  - split; [by split|]. split; [by eapply (bounded_le (set_named s m0) e1)|by transitivity e1].
  - intros x s1 e3 _ Ha. by apply project_apart.
  - cbv beta. intros r s1 e3 (Hp & Hb3 & He3). destruct r; [|done]. apply wp_modify. split; [by apply projected_named|done].
Qed.

(** ** Installing a file *)

Lemma stage_spec target content s e : proper target -> bounded s e ->
  wp (stageWorkspaceFile target content) (fun r s' e' => exists staged i, r = Ok staged /\ staged.1 = target.1 /\ ~ proper staged /\ (exists x, staged.2 = "." +:+ x) /\
    nodes s' = nodes s /\ fts s' = fts s /\ disk_kept s s' /\ bounded s' e' /\ env_le e e' /\ target.1 ∈ folders s' /\
    blobs s' !! staged = Some i /\ inodes s' !! i = Some content) s e.
Proof.
  intros Ht Hb. unfold stageWorkspaceFile. apply wp_bind, wp_draw. intros e1 He1 _ Hf1. cbv beta iota. apply wp_bind, wp_modify. cbv beta iota. apply wp_ret.
  set (staged := (target.1, ".workspace-" +:+ uuid (fresh e))). exists staged, (fresh e).
  assert (Hnp : ~ proper staged) by (intros Hc; exact (eq_true_false_abs _ Hc (dotted_not_canonical "" ("workspace-" +:+ uuid (fresh e))))).
  split; [done|]. split; [done|]. split; [done|]. split; [by eexists|]. split; [done|]. split; [done|]. cbn [mkdir_all_folder set_folders set_blobs set_inodes blobs inodes folders].
  split; [|split; [|split; [done|split; [set_solver|split; [apply lookup_insert_eq|apply lookup_insert_eq]]]]].
  - split; cbn [mkdir_all_folder set_folders set_blobs set_inodes blobs inodes folders]; [|by apply add_inode|set_solver].
    intros p Hp. apply lookup_insert_ne. by intros ->.
  - unfold bounded. eapply bounded_add; [exact Hb|reflexivity|lia].
Qed.

Lemma dotted_ne f x y : canonical_uuid f = true -> "." +:+ x <> f +:+ y.
Proof.
  intros Hf. pose proof (canonical_no_byte (byte_of 46) f Hf eq_refl) as Hd. pose proof (split_canonical f Hf) as [_ Hl].
  destruct f as [|a f]; [done|]. cbn in Hd. apply andb_true_iff in Hd as [Ha _]. intros Heq. injection Heq as Heq _. rewrite <- Heq in Ha. done.
Qed.

Lemma try_rename_Some src dst s i : blobs s !! src = Some i -> dst.1 ∈ folders s -> try_rename src dst s = set_blobs s (<[dst := i]> (delete src (blobs s))).
Proof. intros Hs Hd. unfold try_rename, rename_blob. by rewrite Hs, bool_decide_eq_true_2. Qed.
Lemma try_rename_None src dst s : blobs s !! src = None -> try_rename src dst s = s.
Proof. intros Hs. unfold try_rename, rename_blob. by rewrite Hs. Qed.
Lemma rename_Ok src dst s i : blobs s !! src = Some i -> dst.1 ∈ folders s -> rename_blob src dst s = Ok (set_blobs s (<[dst := i]> (delete src (blobs s)))).
Proof. intros Hs Hd. unfold rename_blob. by rewrite Hs, bool_decide_eq_true_2. Qed.

Lemma install_spec staged target i s e : staged.1 = target.1 -> target.1 ∈ folders s -> proper target -> ~ proper staged -> (exists x, staged.2 = "." +:+ x) ->
  blobs s !! staged = Some i ->
  wp (installWorkspaceFile staged target) (fun r s' e' => onward e e' /\ exists rb fin b, r = Ok (rb, fin) /\ s' = set_blobs s b /\
    b !! target = Some i /\ (forall p, proper p -> p <> target -> b !! p = blobs s !! p) /\
    (exists b', rb s' = set_blobs s b' /\ forall p, proper p -> b' !! p = blobs s !! p) /\
    (exists b', fin s' = set_blobs s b' /\ forall p, proper p -> b' !! p = b !! p)) s e.
Proof.
  intros Hdir Hfold Ht Hst [x Hx] Hi. unfold installWorkspaceFile. apply wp_bind, wp_draw_onward. intros e1 He1. cbv beta iota.
  set (backup := (target.1, target.2 +:+ ".backup-" +:+ uuid (fresh e))).
  assert (Hbp : ~ proper backup) by (intros Hc; exact (eq_true_false_abs _ Hc (dotted_not_canonical target.2 ("backup-" +:+ uuid (fresh e))))).
  assert (Hst_t : staged <> target) by (by intros ->). assert (Hb_t : backup <> target) by (intros Heq; by rewrite Heq in Hbp).
  assert (Hst_b : staged <> backup).
  { intros Heq. apply (f_equal snd) in Heq. cbn in Heq. rewrite Hx in Heq. by apply (dotted_ne target.2 x (".backup-" +:+ uuid (fresh e)) Ht). }
  apply wp_bind, wp_get. cbv beta iota. apply wp_bind, wp_modify. cbv beta iota.
  destruct (blobs s !! target) as [j|] eqn:Hj.
  - rewrite bool_decide_eq_true_2 by eauto. rewrite (try_rename_Some target backup s j) by done.
    apply wp_bind, wp_attempt, wp_sop.
    2: { intros x0 Hr. exfalso. rewrite (rename_Ok staged target _ i) in Hr; [done| |done]. cbn [blobs set_blobs].
         rewrite lookup_insert_ne by done. by rewrite lookup_delete_ne. }
    intros s' Hr. rewrite (rename_Ok staged target _ i) in Hr; [| |done].
    2: { cbn [blobs set_blobs]. rewrite lookup_insert_ne by done. by rewrite lookup_delete_ne. }
    injection Hr as <-. cbv beta iota. apply wp_ret. split; [done|]. cbn [blobs set_blobs].
    set (b := <[target := i]> (delete staged (<[backup := j]> (delete target (blobs s))))). eexists _, _, b.
    split; [done|]. split; [done|]. split; [apply lookup_insert_eq|]. split; [|split].
    + intros p Hp Hne. unfold b. rewrite lookup_insert_ne by done. rewrite lookup_delete_ne by (by intros ->).
      rewrite lookup_insert_ne by (by intros ->). by rewrite lookup_delete_ne.
    + unfold remove_blob. cbn [blobs set_blobs]. rewrite (try_rename_Some backup target _ j); [|cbn [blobs set_blobs]; unfold b|done].
      2: { rewrite lookup_delete_ne by done. rewrite lookup_insert_ne by done. rewrite lookup_delete_ne by done. apply lookup_insert_eq. }
      cbn [blobs set_blobs]. eexists. split; [done|]. intros p Hp. destruct (decide (p = target)) as [->|Hne]; [by rewrite lookup_insert_eq|].
      rewrite lookup_insert_ne by done. rewrite lookup_delete_ne by (by intros ->). rewrite lookup_delete_ne by done. unfold b.
      rewrite lookup_insert_ne by done. rewrite lookup_delete_ne by (by intros ->). rewrite lookup_insert_ne by (by intros ->). by rewrite lookup_delete_ne.
    + unfold remove_blob. cbn [blobs set_blobs]. eexists. split; [done|]. intros p Hp. apply lookup_delete_ne. by intros ->.
  - rewrite bool_decide_eq_false_2 by (by intros []). rewrite try_rename_None by done.
    apply wp_bind, wp_attempt, wp_sop; [|intros x0 Hr; by rewrite (rename_Ok staged target _ i) in Hr].
    intros s' Hr. rewrite (rename_Ok staged target _ i) in Hr by done. injection Hr as <-. cbv beta iota. apply wp_ret. split; [done|]. cbn [blobs set_blobs].
    eexists _, _, _. split; [done|]. split; [done|]. split; [apply lookup_insert_eq|]. split; [|split].
    + intros p Hp Hne. rewrite lookup_insert_ne by done. apply lookup_delete_ne. by intros ->.
    + eexists. split; [done|]. cbn [blobs set_blobs]. intros p Hp. destruct (decide (p = target)) as [->|Hne]; [by rewrite lookup_delete_eq, Hj|].
      rewrite lookup_delete_ne by done. rewrite lookup_insert_ne by done. apply lookup_delete_ne. by intros ->.
    + by eexists.
Qed.
End disk.
