(* ===== verification/Workspace.v ===== *)
(** * The operations of the workspace ([store.go], [store_write.go],
    [store_mutate.go], [store_search.go], [named.go] in [internal/workspace])

    A transaction is the statements between [BeginTx] and [Commit]; when one
    of them or the commit fails, the tables are those of the beginning, while
    what was done to the disk is undone by the code, where it is. *)

From S2P Require Import Prelude GoStrings GoPath Io Tables GoText WsDisk.
From Stdlib Require Import Ascii.
#[local] Open Scope Z_scope.

Record WriteRequest := mkWrite { WID : string; WParentID : string; WName : string; WContent : string; WMIMEType : string; ExpectedVersion : Z }.

(** Paths in the order of a walk. *)
Fixpoint list_str_le (a b : list string) : bool :=
  match a, b with
  | [], _ => true
  | _ :: _, [] => false
  | x :: a', y :: b' => match String.compare x y with Lt => true | Gt => false | Eq => list_str_le a' b' end
  end.

Section workspace.
Context `{Unicode} `{Platform} `{NodeIds} `{Disk} `{MapRange}.
Abbreviation wop := (io Store ws_error).

Definition transaction {A} (body : wop A) : wop A :=
  _ ← db DbFailed;
  s0 ← get;
  r ← attempt body;
  match r with
  | Ok a => mret a
  | Err e => _ ← modify (fun s => set_fts (set_nodes s (nodes s0)) (fts s0)); throw e
  end.

Definition ensureParent (parentID : string) : wop unit :=
  if bool_decide (parentID = "") then mret tt
  else
    _ ← db DbFailed;
    s ← get;
    match live_row s parentID with
    | None => throw ErrNotFound
    | Some r => if decide (NodeType r = DirectoryNode) then mret tt else throw ErrInvalidNode
    end.

(** ** Reading *)

Definition maxDepth : nat := 1024.

(** The escaped names from the top down to [current]; the code stops after
    [maxDepth] names, so the fuel is never used up. *)
Fixpoint ancestry (fuel : nat) (current : string) (seen acc : list string) : wop (list string) :=
  match fuel with
  | O => throw ErrInvalidNode
  | S fuel' =>
      if bool_decide (current = "") then mret acc
      else if bool_decide (current ∈ seen) then throw ErrInvalidNode
      else
        _ ← db DbFailed;
        s ← get;
        match live_row s current with
        | None => throw ErrNotFound
        | Some r =>
            let acc := PathEscape (NodeName r) :: acc in
            if (maxDepth <? length acc)%nat then throw ErrInvalidNode else ancestry fuel' (ParentID r) (current :: seen) acc
        end
  end.

Definition VirtualPath (id : string) : wop string :=
  if bool_decide (id = "") then mret VirtualRoot
  else segments ← ancestry (S (S maxDepth)) id [] []; mret (VirtualRoot +:+ "/" +:+ join segments "/").

Definition lookupExecPath (s : Store) (id : string) : string := default "" (execByID s !! id).

Definition Get (id : string) : wop Node :=
  _ ← db DbFailed;
  s ← get;
  match live_row s id with
  | None => throw ErrNotFound
  | Some r => path ← VirtualPath id; s ← get; mret (mkNode r path (lookupExecPath s id))
  end.

Definition attachDerivedPaths (r : NodeRow) : wop Node :=
  path ← attempt (VirtualPath (NodeID r)); s ← get;
  mret (mkNode r (match path with Ok p => p | Err _ => "" end) (lookupExecPath s (NodeID r))).

Definition List_ (parentID : string) : wop (list Node) :=
  _ ← ensureParent parentID;
  _ ← db DbFailed;
  s ← get;
  mapM attachDerivedPaths (children_of s parentID).

Fixpoint crumbs (fuel : nat) (current : string) (seen : list string) (acc : list Node) : wop (list Node) :=
  match fuel with
  | O => throw ErrInvalidNode
  | S fuel' =>
      if bool_decide (current = "") then mret acc
      else if bool_decide (current ∈ seen) then throw ErrInvalidNode
      else
        node ← Get current;
        if decide (NodeType (Row node) = DirectoryNode) then
          let acc := node :: acc in
          if (maxDepth <? length acc)%nat then throw ErrInvalidNode else crumbs fuel' (ParentID (Row node)) (current :: seen) acc
        else throw ErrInvalidNode
  end.
Definition Breadcrumbs (directoryID : string) : wop (list Node) := crumbs (S (S maxDepth)) directoryID [] [].

Definition find_child (s : Store) (parent name : string) : option NodeRow :=
  head (live_rows s (fun r => bool_decide (ParentID r = parent) && bool_decide (NodeName r = name))).

Fixpoint descend (parent : string) (last : option NodeRow) (raw : list string) : wop (option NodeRow) :=
  match raw with
  | [] => mret last
  | x :: rest =>
      match PathUnescape x with
      | None => throw BadEscape
      | Some name =>
          _ ← db DbFailed;
          s ← get;
          match find_child s parent name with
          | None => throw ErrNotFound
          | Some r => descend (NodeID r) (Some r) rest
          end
      end
  end.

Definition backslash_to_slash (s : string) : string := Replace [(String (byte_of 92) "", "/")] s.

Definition ResolveLegacyPath (legacyPath : string) : wop Node :=
  let p := trim_chars (trim_prefix (trim_space (backslash_to_slash legacyPath)) VirtualRoot) [47] in
  if bool_decide (p = "") then throw ErrInvalidNode
  else
    last ← descend "" None (split_byte slash p);
    match last with Some r => attachDerivedPaths r | None => throw ErrInvalidNode end.

Definition ResolveRef (ref : string) : wop Node :=
  let ref := trim_space (backslash_to_slash ref) in
  if bool_decide (ref = "") then throw ErrInvalidNode
  else
    byID ← attempt (Get ref);
    match byID with
    | Ok node => mret node
    | Err _ =>
        let trimmed := trim_chars (trim_prefix (trim_prefix (trim_prefix (trim_prefix ref VirtualRoot) "/") (AgentViewName +:+ "/")) AgentViewName) [47] in
        if bool_decide (trimmed = "") then throw ErrInvalidNode
        else
          byPath ← attempt (ResolveLegacyPath trimmed);
          match byPath with
          | Ok node => mret node
          | Err _ => s ← get; match idByExec s !! trimmed with
              | Some id => if bool_decide (id = "") then throw ErrNotFound else Get id
              | None => throw ErrNotFound end
          end
    end.

(** Depth first; [Get] refuses what lies deeper than [maxDepth]. *)
Fixpoint walk_from (fuel : nat) (id : string) : wop (list Node) :=
  match fuel with
  | O => throw ErrInvalidNode
  | S fuel' =>
      node ← Get id;
      if decide (NodeType (Row node) = DirectoryNode) then
        children ← List_ (NodeID (Row node));
        below ← mapM (fun child => walk_from fuel' (NodeID (Row child))) children;
        mret (node :: concat below)
      else mret [node]
  end.
Definition Walk (rootIDs : list string) : wop (list Node) :=
  ids ← (match rootIDs with [] => roots ← List_ ""; mret ((fun n => NodeID (Row n)) <$> roots) | _ => mret rootIDs end);
  found ← mapM (walk_from (S (S maxDepth))) ids;
  mret (concat found).

(** ** Writing *)

Definition stamp : wop string := t ← now; mret (format_time t).
Definition insert_row (r : NodeRow) : wop unit :=
  _ ← db DbFailed;
  s ← get;
  if bool_decide (is_Some (nodes s !! NodeID r)) || name_taken s (ParentID r) (NodeName r) (NodeID r) then throw ErrConflict
  else modify (fun s => set_nodes s (<[NodeID r := r]> (nodes s))).

Definition CreateDirectory (parentID name : string) : wop Node :=
  _ ← lift (ValidateName name);
  _ ← ensureParent parentID;
  t ← stamp;
  n ← draw;
  let id := uuid n in
  _ ← sop (mkdir_folder id);
  r ← attempt (insert_row (mkRow id parentID name DirectoryNode "inode/directory" 0 "" "" 1 t t None));
  match r with
  | Err e => _ ← modify (remove_folder id); throw e
  | Ok _ => _ ← refreshNamed; Get id
  end.

Definition index_name (id name : string) : wop unit :=
  _ ← db DbFailed; _ ← modify (fun s => set_fts s (filter (fun x => x.1 <> id) (fts s)));
  _ ← db DbFailed; modify (fun s => set_fts s (fts s ++ [(id, name)])).

(** The row of a new file, or the one of [WID] with its next version. *)
Definition new_file_row (req : WriteRequest) (t hash : string) : wop NodeRow :=
  _ ← ensureParent (WParentID req);
  n ← draw;
  rel ← lift (storageRelativePath (WParentID req) (uuid n));
  let r := mkRow (uuid n) (WParentID req) (WName req) FileNode (detectMIME (WName req) (WMIMEType req) (WContent req))
    (len (WContent req)) hash rel 1 t t None in
  _ ← insert_row r; mret r.

Definition next_version (r : NodeRow) (mime : string) (size : Z) (hash t : string) : NodeRow :=
  mkRow (NodeID r) (ParentID r) (NodeName r) (NodeType r) mime size hash (RelativePath r) (Version r + 1) (NodeCreated r) t (NodeDeleted r).

Definition next_file_row (req : WriteRequest) (t hash : string) : wop NodeRow :=
  _ ← db DbFailed;
  s ← get;
  match live_row s (WID req) with
  | None => throw ErrNotFound
  | Some r =>
      if decide (NodeType r = FileNode) then
        if (0 <? ExpectedVersion req) && negb (ExpectedVersion req =? Version r) then throw ErrVersion
        else
          let r' := next_version r (detectMIME (NodeName r) (WMIMEType req) (WContent req)) (len (WContent req)) hash t in
          _ ← db DbFailed;
          _ ← modify (fun s => set_nodes s (<[WID req := r']> (nodes s)));
          mret r'
      else throw ErrInvalidNode
  end.

(** [Write] up to the commit: the file that is installed is taken back when
    the commit fails. *)
Definition write_file (r : NodeRow) (content : string) : wop unit :=
  target ← lift (storagePath (RelativePath r));
  staged ← stageWorkspaceFile target content;
  res ← attempt (
    _ ← index_name (NodeID r) (NodeName r);
    '(rollbackFile, finalizeFile) ← installWorkspaceFile staged target;
    committed ← attempt (db DbFailed);
    match committed with
    | Err e => _ ← modify rollbackFile; throw e
    | Ok _ => modify finalizeFile
    end);
  _ ← modify (remove_blob staged);
  lift res.

Definition Write (req : WriteRequest) : wop Node :=
  if bool_decide (WID req = "") && match ValidateName (WName req) with Ok _ => false | Err _ => true end then throw ErrInvalidName
  else
    id ← transaction (
      t ← stamp;
      let hash := hashContent (WContent req) in
      r ← (if bool_decide (WID req = "") then new_file_row req t hash else next_file_row req t hash);
      _ ← write_file r (WContent req);
      mret (NodeID r));
    _ ← refreshNamed;
    Get id.

(** A handle on what the file holds. *)
Definition Open (id : string) : wop (Node * nat) :=
  node ← Get id;
  if decide (NodeType (Row node) = FileNode) then
    target ← lift (storagePath (RelativePath (Row node)));
    s ← get;
    match blobs s !! target with None => throw ErrNotFound | Some i => mret (node, i) end
  else throw ErrInvalidNode.

Definition wrap_int64 (x : Z) : Z := (x + 2 ^ 63) mod 2 ^ 64 - 2 ^ 63.

Definition Read (id : string) (offset limit : Z) : wop (Node * string) :=
  if (offset <? 0) || (limit <? 0) then throw ErrInvalidNode
  else
    '(node, i) ← Open id;
    let size := SizeBytes (Row node) in
    if size <=? offset then mret (node, "")
    else
      let limit := if (limit =? 0) || (size <? wrap_int64 (offset + limit)) then size - offset else limit in
      s ← get;
      let content := default "" (inodes s !! i) in
      mret (node, String.substring (Z.to_nat offset) (Z.to_nat (Z.min limit (len content - offset))) content).

(** ** Moving and deleting *)

Definition moved_row (r : NodeRow) (parent name rel t : string) : NodeRow :=
  mkRow (NodeID r) parent name (NodeType r) (MIMEType r) (SizeBytes r) (ContentHash r) rel (Version r + 1) (NodeCreated r) t (NodeDeleted r).

(** Moving the file of a node; what undoes it is handed back. *)
Definition move_file (currentRel newRel : string) : wop (Store -> Store) :=
  if bool_decide (newRel = currentRel) then mret (fun s => s)
  else
    currentTarget ← lift (storagePath currentRel);
    newTarget ← lift (storagePath newRel);
    _ ← modify (mkdir_all_folder newTarget.1);
    _ ← sop (rename_blob currentTarget newTarget);
    mret (try_rename newTarget currentTarget).

Definition or_undo (undo : Store -> Store) (m : wop unit) : wop unit :=
  r ← attempt m; match r with Ok _ => mret tt | Err e => _ ← modify undo; throw e end.

Definition Rename (id newParentID newName : string) (expectedVersion : Z) : wop Node :=
  _ ← lift (ValidateName newName);
  if bool_decide (newParentID = id) then throw ErrInvalidNode
  else
    _ ← transaction (
      _ ← ensureParent newParentID;
      _ ← (if bool_decide (newParentID = "") then mret tt
           else _ ← db DbFailed; s ← get; if bool_decide (newParentID ∈ descendants s id) then throw ErrInvalidNode else mret tt);
      _ ← db DbFailed;
      s ← get;
      match live_row s id with
      | None => throw ErrNotFound
      | Some r =>
          if (0 <? expectedVersion) && negb (Version r =? expectedVersion) then throw ErrVersion
          else
            t ← stamp;
            newRel ← (if decide (NodeType r = FileNode) then lift (storageRelativePath newParentID id) else mret (RelativePath r));
            _ ← db DbFailed;
            s ← get;
            if name_taken s newParentID newName id then throw ErrConflict
            else
              _ ← modify (fun s => set_nodes s (<[id := moved_row r newParentID newName newRel t]> (nodes s)));
              if decide (NodeType r = FileNode) then
                rollbackMove ← move_file (RelativePath r) newRel;
                _ ← or_undo rollbackMove (_ ← db DbFailed;
                  modify (fun s => set_fts s ((fun x : string * string => if bool_decide (x.1 = id) then (x.1, newName) else x) <$> fts s)));
                or_undo rollbackMove (db DbFailed)
              else db DbFailed
      end);
    _ ← refreshNamed;
    Get id.

Definition deleted_row (t : string) (r : NodeRow) : NodeRow :=
  mkRow (NodeID r) (ParentID r) (NodeName r) (NodeType r) (MIMEType r) (SizeBytes r) (ContentHash r) (RelativePath r) (Version r + 1)
    (NodeCreated r) t (Some t).
(** The live rows among [ids] are marked as deleted. *)
Definition mark_deleted (t : string) (ids : list string) (s : Store) : Store :=
  set_nodes s (map_imap (fun k r => Some (if bool_decide (k ∈ ids) && live r then deleted_row t r else r)) (nodes s)).

Definition deletionStorageTargets (id : string) (recursive : bool) : wop (list string * list string) :=
  _ ← db DbFailed;
  s ← get;
  let targets := omap (live_row s) (if recursive then subtree live s id else [id]) in
  mret (filter (fun p => p <> "") (RelativePath <$> filter (fun r => NodeType r = FileNode) targets),
        NodeID <$> filter (fun r => NodeType r = DirectoryNode) targets).

Definition remove_stored (relativePath : string) : wop unit := target ← lift (storagePath relativePath); modify (remove_blob target).

Definition Delete (id : string) (expectedVersion : Z) (recursive : bool) : wop unit :=
  node ← Get id;
  if (0 <? expectedVersion) && negb (Version (Row node) =? expectedVersion) then throw ErrVersion
  else
    _ ← (if bool_decide (NodeType (Row node) = DirectoryNode) && negb recursive then
           _ ← db DbFailed; s ← get; if bool_decide (children_of s id = []) then mret tt else throw ErrConflict
         else mret tt);
    '(storagePaths, directoryIDs) ← deletionStorageTargets id recursive;
    _ ← transaction (
      t ← stamp;
      _ ← (if recursive then
             _ ← db DbFailed; _ ← modify (fun s => mark_deleted t (subtree live s id) s);
             _ ← db DbFailed; modify (fun s => set_fts s (filter (fun x => x.1 ∉ subtree (fun _ => true) s id) (fts s)))
           else
             _ ← db DbFailed; _ ← modify (mark_deleted t [id]);
             _ ← db DbFailed; modify (fun s => set_fts s (filter (fun x => x.1 <> id) (fts s))));
      db DbFailed);
    _ ← for_each remove_stored storagePaths;
    _ ← for_each (fun d => modify (remove_all_folder d)) directoryIDs;
    refreshNamed.

(** ** Searching *)

Definition dquote : string := String (byte_of 34) "".
Definition ftsQuery (query : string) : string :=
  join ((fun part => dquote +:+ Replace [(dquote, dquote +:+ dquote)] part +:+ dquote +:+ "*") <$> fields query) " AND ".

(** [LIKE] on runes: [%] any text, [_] one rune, letters of ASCII alike. *)
Fixpoint like_runes (p : list string) : list string -> bool :=
  match p with
  | [] => fun s => bool_decide (s = [])
  | c :: p' =>
      if bool_decide (c = "%") then
        fix any (s : list string) := like_runes p' s || match s with [] => false | _ :: s' => any s' end
      else fun s => match s with [] => false | d :: s' => (bool_decide (c = "_") || bool_decide (sql_lower c = sql_lower d)) && like_runes p' s' end
  end.
Definition sql_like (s pattern : string) : bool := like_runes (segments pattern).*2 (segments s).*2.

Definition found_before (like : string) (a b : NodeRow) : Prop :=
  let rank r := if sql_like (sql_lower (NodeName r)) like then 0 else 1 in
  rank a < rank b \/ rank a = rank b /\ String.leb (NodeUpdated b) (NodeUpdated a) = true.
#[export] Instance found_before_dec like a b : Decision (found_before like a b).
Proof. unfold found_before. apply _. Defined.

Definition Search (query parentID : string) (limit : Z) : wop (list Node) :=
  let limit := if (limit <=? 0) || (200 <? limit) then 50 else limit in
  let query := trim_space query in
  if bool_decide (query = "") then all ← List_ parentID; mret (take (Z.to_nat limit) all)
  else
    let match_ := ftsQuery query in
    let like := "%" +:+ to_lower query +:+ "%" in
    _ ← db DbFailed;
    s ← get;
    if existsb (fun x => bool_decide (fts_match match_ x.2 = None)) (fts s) then throw DbFailed
    else
      let indexed := (filter (fun x => fts_match match_ x.2 = Some true) (fts s)).*1 in
      all ← ranged (nodes s);
      let found := filter (fun r => live r && (bool_decide (parentID = "") || bool_decide (ParentID r = parentID)) &&
        (sql_like (sql_lower (NodeName r)) like || bool_decide (NodeID r ∈ indexed)) = true) all.*2 in
      mapM attachDerivedPaths (take (Z.to_nat limit) (merge_sort (found_before like) found)).

Definition Duplicate (id parentID name : string) : wop Node :=
  '(node, content) ← Read id 0 0;
  let name := if bool_decide (name = "") then NodeName (Row node) +:+ " copy" else name in
  Write (mkWrite "" parentID name content (MIMEType (Row node)) 0).

Definition MediaKind (mimeType : string) : string :=
  if bool_decide (mimeType = "inode/directory") then "dir"
  else if has_prefix mimeType "image/" then "image"
  else if bool_decide (mimeType = "application/pdf") then "pdf"
  else if contains_str mimeType "json" then "json"
  else if contains_str mimeType "csv" || contains_str mimeType "tab-separated" then "csv"
  else if has_prefix mimeType "text/" || contains_str mimeType "xml" || contains_str mimeType "javascript" then "text"
  else if has_prefix mimeType "audio/" then "audio"
  else if has_prefix mimeType "video/" then "video"
  else if contains_str mimeType "zip" || contains_str mimeType "archive" || contains_str mimeType "compressed" then "archive"
  else "binary".

Record Stats_ := mkStats { TotalSize : Z; TotalFiles : Z; TotalDirectories : Z; Breakdown : gmap string Z }.
Definition stat_category (mimeType : string) : string :=
  if has_prefix mimeType "image/" || has_prefix mimeType "audio/" || has_prefix mimeType "video/" then "media"
  else if contains_str mimeType "json" || contains_str mimeType "csv" || contains_str mimeType "xml" || contains_str mimeType "sql" then "data"
  else if has_prefix mimeType "text/" then "documents"
  else if contains_str mimeType "pdf" || contains_str mimeType "officedocument" then "documents"
  else "other".
Definition total (l : list Z) : Z := foldr Z.add 0 l.
Definition add_size (m : gmap string Z) (r : NodeRow) : gmap string Z :=
  let c := stat_category (MIMEType r) in <[c := default 0 (m !! c) + SizeBytes r]> m.
Definition Stats : wop Stats_ :=
  _ ← db DbFailed;
  _ ← db DbFailed;
  s ← get;
  let files := live_rows s (fun r => bool_decide (NodeType r = FileNode)) in
  mret (mkStats (total (SizeBytes <$> files)) (Z.of_nat (length files)) (Z.of_nat (length (live_rows s (fun r => bool_decide (NodeType r = DirectoryNode)))))
    (foldl add_size (list_to_map ((fun c => (c, 0)) <$> ["documents"; "code"; "data"; "media"; "other"])) files)).

(** ** What programs did in the projection *)

Definition path_before (a b : list string * named_entry) : Prop := list_str_le a.1 b.1 = true.
#[export] Instance path_before_dec a b : Decision (path_before a b) := decide (_ = true).

Definition named_files (s : Store) : list (list string * named_entry) := merge_sort path_before (map_to_list (named s)).

(** The files the walk reads: path, node and content. *)
Definition pending_files (s : Store) : list (list string * string * string) :=
  omap (fun x : list string * named_entry =>
    match x.2 with
    | NamedDir => None
    | NamedFile i =>
        let id := default "" (idByExec s !! rel_path x.1) in
        if bool_decide (x.1 = []) || bool_decide (id = "") && ignoredNamedExtra x.1 then None else Some (x.1, id, default "" (inodes s !! i))
    end) (named_files s).

Fixpoint ensure_dirs (parent : string) (dirs : list string) : wop string :=
  match dirs with
  | [] => mret parent
  | d :: rest =>
      _ ← db DbFailed;
      s ← get;
      match find_child s parent d with
      | Some r => if decide (NodeType r = DirectoryNode) then ensure_dirs (NodeID r) rest else throw ErrInvalidNode
      | None => created ← CreateDirectory parent d; ensure_dirs (NodeID (Row created)) rest
      end
  end.

Definition ingestNamedFile (rel : list string) (content : string) : wop Node :=
  parent ← ensure_dirs "" (parent_dir rel);
  let name := List.last rel "" in
  _ ← db DbFailed;
  s ← get;
  match find_child s parent name with
  | Some r => if decide (NodeType r = FileNode) then Write (mkWrite (NodeID r) "" "" content "" 0) else throw ErrInvalidNode
  | None => Write (mkWrite "" parent name content "" 0)
  end.

(** One file: the id of the node that was written, and whether it is new. *)
Definition reconcile_file (x : list string * string * string) : wop (option (string * bool)) :=
  let '(rel, id, content) := x in
  if bool_decide (id = "") then node ← ingestNamedFile rel content; mret (Some (NodeID (Row node), true))
  else
    got ← attempt (Get id);
    match got with
    | Err _ => mret None
    | Ok node =>
        if decide (NodeType (Row node) = FileNode) then
          if bool_decide (hashContent content = ContentHash (Row node)) && (len content =? SizeBytes (Row node)) then mret None
          else _ ← Write (mkWrite id "" "" content "" 0); mret (Some (id, false))
        else mret None
    end.

Definition ReconcileNamed : wop (list string * list string) :=     (* updated, created *)
  s ← get;
  _ ← modify (fun s => set_paused s true);
  r ← attempt (mapM reconcile_file (pending_files s));
  _ ← modify (fun s => set_paused s false);
  _ ← refreshNamed;
  match r with
  | Err e => throw e
  | Ok l => mret ((filter (fun x => x.2 = false) (omap (fun x => x) l)).*1, (filter (fun x => x.2 = true) (omap (fun x => x) l)).*1)
  end.

(** A workspace on an empty database and an empty disk. *)
Definition NewStore : Store := mkStore ∅ [] ∅ ∅ {[rootFolderID]} ∅ ∅ ∅ false.
End workspace.
