(* ===== verification/WorkspaceSpec.v ===== *)
(** * The workspace: what every operation keeps

    The live nodes are a forest of directories and files with different names
    among siblings, and the file of every live node stands where its row
    says, with the recorded content; creating and writing keep it so. *)

From S2P Require Import Prelude GoStrings GoPath Io Tables GoText WsDisk WsDiskSpec Workspace.
#[local] Open Scope Z_scope.

(** ** Reading *)

Create HintDb reads discriminated.

Section reads.
Context `{U : Unicode} `{P : Platform} `{I : NodeIds} `{D : Disk} `{M : MapRange}.
Abbreviation wop := (io Store ws_error).

(** [m] changes nothing. *)
Definition reads {A} (m : wop A) : Prop := keeps eq m /\ quiet m.

Lemma wp_reads {A} (m : wop A) (Q : result ws_error A -> Store -> env -> Prop) s e :
  reads m -> (forall r e', onward e e' -> Q r s e') -> wp m Q s e.
Proof.
  intros [Hk Hq] HQ. eapply wp_mono; [apply wp_and; [apply Hk|apply Hq]|]. cbv beta. intros r s' e' [<- He]. auto.
Qed.

Lemma reads_ret {A} (a : A) : reads (mret a). Proof. split; [apply keeps_ret; typeclasses eauto|apply quiet_ret]. Qed.
Lemma reads_throw {A} x : reads (throw x : wop A). Proof. split; [apply keeps_throw; typeclasses eauto|apply quiet_throw]. Qed.
Lemma reads_lift {A} (r : result ws_error A) : reads (lift r). Proof. split; [apply keeps_lift; typeclasses eauto|apply quiet_lift]. Qed.
Lemma reads_get : reads get. Proof. split; [apply keeps_get; typeclasses eauto|apply quiet_get]. Qed.
Lemma reads_db x : reads (db x). Proof. split; [apply keeps_db; typeclasses eauto|apply quiet_db]. Qed.
Lemma reads_now : reads now. Proof. split; [apply keeps_now; typeclasses eauto|apply quiet_now]. Qed.
Lemma reads_draw : reads draw. Proof. split; [apply keeps_draw; typeclasses eauto|apply quiet_draw]. Qed.
Lemma reads_bind {A B} (m : wop A) (f : A -> wop B) : reads m -> (forall a, reads (f a)) -> reads (m ≫= f).
Proof. intros [K1 Q1] H2. split; [apply keeps_bind; [typeclasses eauto|done|]|apply quiet_bind; [done|]]; intros a; apply H2. Qed.
Lemma reads_attempt {A} (m : wop A) : reads m -> reads (attempt m).
Proof. intros [K Q]. split; [by apply keeps_attempt|by apply quiet_attempt]. Qed.
Lemma reads_mapM {A B} (f : A -> wop B) l : (forall x, reads (f x)) -> reads (mapM f l).
Proof.
  intros Hf. induction l as [|x l IH]; [apply reads_ret|]. cbn. apply reads_bind; [done|]. intros y. apply reads_bind; [done|]. intros ys. apply reads_ret.
Qed.

Ltac reads_go :=
  repeat lazymatch goal with
  | |- reads (mret _) => apply reads_ret
  | |- reads (throw _) => apply reads_throw
  | |- reads (lift _) => apply reads_lift
  | |- reads get => apply reads_get
  | |- reads (db _) => apply reads_db
  | |- reads now => apply reads_now
  | |- reads draw => apply reads_draw
  | |- reads (_ ≫= _) => apply reads_bind; [|intros ?]
  | |- reads (attempt _) => apply reads_attempt
  | |- reads (mapM _ _) => apply reads_mapM; intros ?
  | |- reads (if ?b then _ else _) => destruct b
  | |- reads (match ?x with _ => _ end) => destruct x
  | |- reads (let _ := _ in _) => cbv zeta
  | |- reads _ => solve [auto 2 with reads nocore]
  end.

Lemma reads_ensureParent p : reads (ensureParent p). Proof. unfold ensureParent. reads_go. Qed.
Lemma reads_ancestry fuel : forall k seen acc, reads (ancestry fuel k seen acc).
Proof. induction fuel as [|n IH]; intros k seen acc; cbn [ancestry]; [apply reads_throw|]. reads_go; apply IH. Qed.
#[local] Hint Resolve reads_ensureParent reads_ancestry : reads.
Lemma reads_VirtualPath id : reads (VirtualPath id). Proof. unfold VirtualPath. reads_go. Qed.
#[local] Hint Resolve reads_VirtualPath : reads.
Lemma reads_Get id : reads (Get id). Proof. unfold Get. reads_go. Qed.
Lemma reads_attach r : reads (attachDerivedPaths r). Proof. unfold attachDerivedPaths. reads_go. Qed.
#[local] Hint Resolve reads_Get reads_attach : reads.
Lemma reads_List p : reads (List_ p). Proof. unfold List_. reads_go. Qed.
Lemma reads_crumbs fuel : forall k seen acc, reads (crumbs fuel k seen acc).
Proof. induction fuel as [|n IH]; intros k seen acc; cbn [crumbs]; [apply reads_throw|]. reads_go; apply IH. Qed.
Lemma reads_descend raw : forall p last, reads (descend p last raw).
Proof. induction raw as [|x raw IH]; intros p last; cbn [descend]; reads_go; apply IH. Qed.
#[local] Hint Resolve reads_List reads_crumbs reads_descend : reads.
Lemma reads_Legacy p : reads (ResolveLegacyPath p). Proof. unfold ResolveLegacyPath. reads_go. Qed.
#[local] Hint Resolve reads_Legacy : reads.
Lemma reads_Ref p : reads (ResolveRef p). Proof. unfold ResolveRef. reads_go. Qed.
Lemma reads_walk fuel : forall id, reads (walk_from fuel id).
Proof. induction fuel as [|n IH]; intros id; cbn [walk_from]; [apply reads_throw|]. reads_go; apply IH. Qed.
#[local] Hint Resolve reads_Ref reads_walk : reads.
Lemma reads_Walk ids : reads (Walk ids). Proof. unfold Walk. reads_go. Qed.
Lemma reads_Breadcrumbs id : reads (Breadcrumbs id). Proof. unfold Breadcrumbs. reads_go. Qed.
Lemma reads_Open id : reads (Open id). Proof. unfold Open. reads_go. Qed.
#[local] Hint Resolve reads_Open : reads.
Lemma reads_Read id a b : reads (Read id a b). Proof. unfold Read. reads_go. Qed.
Lemma reads_Search q p l : reads (Search q p l). Proof. unfold Search, ranged. reads_go. Qed.
Lemma reads_Stats : reads Stats. Proof. unfold Stats. reads_go. Qed.
Lemma reads_targets id r : reads (deletionStorageTargets id r). Proof. unfold deletionStorageTargets. reads_go. Qed.
Lemma reads_stamp : reads stamp. Proof. unfold stamp. reads_go. Qed.
End reads.
#[export] Hint Resolve reads_ensureParent reads_VirtualPath reads_Get reads_attach reads_List reads_Legacy reads_Ref reads_Walk reads_Breadcrumbs
  reads_Open reads_Read reads_Search reads_Stats reads_targets reads_stamp reads_ret reads_lift reads_db : reads.

(** ** The forest *)

Lemma live_row_Some s k r : live_row s k = Some r <-> nodes s !! k = Some r /\ NodeDeleted r = None.
Proof.
  unfold live_row, live. destruct (nodes s !! k) as [x|]; cbn; [|naive_solver]. case_bool_decide; naive_solver.
Qed.

Section forest.
Context (s : Store).

Hypothesis ids : forall k r, nodes s !! k = Some r -> NodeID r = k /\ k <> "".

(** The ids from a node up to the top. *)
Inductive chain : string -> list string -> Prop :=
  | chain_top : chain "" []
  | chain_node k r l : live_row s k = Some r -> chain (ParentID r) l -> chain k (k :: l).

Lemma live_nonempty k r : live_row s k = Some r -> k <> "" /\ NodeID r = k.
Proof. intros [Hk _]%live_row_Some. by apply ids in Hk as [? ?]. Qed.

Lemma chain_det k l : chain k l -> forall l', chain k l' -> l = l'.
Proof.
  induction 1 as [|k r l Hr Hc IH]; intros l' H'; inversion H' as [|k' r' l2 Hr' Hc']; subst; try done.
  - by apply live_nonempty in Hr' as [? _].
  - by apply live_nonempty in Hr as [? _].
  - f_equal. apply IH. by simplify_eq.
Qed.

Lemma chain_suffix k l x : chain k l -> x ∈ l -> exists l1 l2, l = l1 ++ x :: l2 /\ chain x (x :: l2).
Proof.
  induction 1 as [|k r l Hr Hc IH]; intros Hx; [set_solver|]. apply elem_of_cons in Hx as [->|Hx].
  - exists [], l. split; [done|]. by econstructor.
  - destruct (IH Hx) as (l1 & l2 & -> & Hx2). by exists (k :: l1), l2.
Qed.

Lemma chain_NoDup k l : chain k l -> NoDup l.
Proof.
  induction 1 as [|k r l Hr Hc IH]; [constructor|]. apply NoDup_cons. split; [|done]. intros Hin.
  destruct (chain_suffix _ _ _ Hc Hin) as (l1 & l2 & Hl & Hx). assert (Hk : chain k (k :: l)) by by econstructor.
  pose proof (chain_det _ _ Hk _ Hx) as Heq. injection Heq as Heq. apply (f_equal length) in Hl. rewrite Heq, length_app in Hl. cbn in Hl. lia.
Qed.

Lemma chain_live k l x : chain k l -> x ∈ l -> exists r, live_row s x = Some r.
Proof. induction 1; intros Hx; [set_solver|]. apply elem_of_cons in Hx as [->|Hx]; eauto. Qed.

Lemma chain_length k l : chain k l -> (length l <= row_count s)%nat.
Proof.
  intros Hc. unfold row_count. rewrite <- (size_dom (D := gset string)). pose proof (chain_NoDup _ _ Hc) as Hnd.
  rewrite <- (size_list_to_set (C := gset string) l Hnd). apply subseteq_size. intros x Hx%elem_of_list_to_set.
  destruct (chain_live _ _ _ Hc Hx) as [r [Hr _]%live_row_Some]. apply elem_of_dom. eauto.
Qed.

(** [k] is [n] steps below [id]. *)
Inductive up : string -> nat -> string -> Prop :=
  | up_here k : up k 0 k
  | up_step k r n id : live_row s k = Some r -> up (ParentID r) n id -> up k (S n) id.

Lemma up_last k n id : up k (S n) id -> exists m r, up k n m /\ live_row s m = Some r /\ ParentID r = id.
Proof.
  revert k. induction n as [|n IH]; intros k H; inversion H as [|? r ? ? Hr Hu]; subst.
  - inversion Hu; subst. exists k, r. split; [constructor|done].
  - apply IH in Hu as (m & r' & Hu & Hm). exists m, r'. split; [by econstructor|done].
Qed.
Lemma up_snoc k n m r : up k n m -> live_row s m = Some r -> up k (S n) (ParentID r).
Proof. induction 1; intros; econstructor; eauto. constructor. Qed.

Lemma up_chain k n id l : chain k l -> up k n id -> (n <= length l)%nat /\ chain id (drop n l).
Proof.
  intros Hc Hu. revert l Hc. induction Hu as [k|k r n id Hr Hu IH]; intros l Hc; [split; [lia|by rewrite drop_0]|].
  inversion Hc as [|? r' l' Hr' Hc']; subst; [by apply live_nonempty in Hr as [? _]|]. rewrite Hr in Hr'. injection Hr' as <-.
  destruct (IH _ Hc') as [Hn Hd]. split; [cbn; lia|done].
Qed.

Lemma elem_next_level (p : NodeRow -> bool) l k : k ∈ next_level p s l <-> exists r, nodes s !! k = Some r /\ p r = true /\ ParentID r ∈ l.
Proof.
  unfold next_level. rewrite list_elem_of_fmap. split.
  - intros (r & -> & Hr). apply list_elem_of_filter in Hr as [Hp Hr]. apply andb_true_iff in Hp as [Hp Hin%bool_decide_eq_true].
    apply list_elem_of_fmap in Hr as ([k' r'] & -> & Hk%elem_of_map_to_list). cbn in *. rewrite (proj1 (ids _ _ Hk)). eauto.
  - intros (r & Hk & Hp & Hin). exists r. split; [by rewrite (proj1 (ids _ _ Hk))|]. apply list_elem_of_filter. split.
    + by rewrite Hp, bool_decide_eq_true_2.
    + apply list_elem_of_fmap. exists (k, r). split; [done|]. by apply elem_of_map_to_list.
Qed.

Lemma elem_next_live l k : k ∈ next_level live s l <-> exists r, live_row s k = Some r /\ ParentID r ∈ l.
Proof.
  rewrite elem_next_level. unfold live. split; intros (r & H1 & H2); exists r; rewrite ?live_row_Some in *; rewrite ?bool_decide_eq_true in *; naive_solver.
Qed.

Lemma levels_complete fuel : forall l k n id, up k n id -> id ∈ l -> (n < fuel)%nat -> k ∈ levels fuel live s l.
Proof.
  induction fuel as [|fuel IH]; intros l k n id Hu Hid Hn; [lia|]. cbn [levels]. destruct l as [|x l]; [set_solver|]. apply elem_of_app.
  destruct n as [|n]; [left; by inversion Hu; subst|]. right. apply up_last in Hu as (m & r & Hu & Hm & Hp).
  apply (IH _ _ n m Hu); [|lia]. apply elem_next_live. exists r. by rewrite Hp.
Qed.
Lemma levels_sound fuel : forall l k, k ∈ levels fuel live s l -> exists n id, up k n id /\ id ∈ l.
Proof.
  induction fuel as [|fuel IH]; intros l k Hk; cbn [levels] in Hk; [set_solver|]. destruct l as [|x l]; [set_solver|]. apply elem_of_app in Hk as [Hk|Hk].
  - exists 0%nat, k. split; [constructor|done].
  - apply IH in Hk as (n & m & Hu & Hm). apply elem_next_live in Hm as (r & Hr & Hp). exists (S n), (ParentID r). split; [|done]. by apply up_snoc with m.
Qed.

(** The fuel of the recursive queries is enough where the nodes are a forest. *)
Lemma subtree_spec id k l : chain k l -> (k ∈ subtree live s id <-> exists n, up k n id).
Proof.
  intros Hc. unfold subtree. split.
  - intros Hk. apply levels_sound in Hk as (n & id' & Hu & Hid). exists n. by apply list_elem_of_singleton in Hid as ->.
  - intros [n Hu]. apply (levels_complete _ _ _ n id Hu); [by apply list_elem_of_singleton|]. destruct (up_chain _ _ _ _ Hc Hu) as [Hn _].
    pose proof (chain_length _ _ Hc). lia.
Qed.
Lemma descendants_spec id k l : chain k l -> (k ∈ descendants s id <-> exists n, up k (S n) id).
Proof.
  intros Hc. unfold descendants. split.
  - intros Hk. apply levels_sound in Hk as (n & m & Hu & Hm). apply elem_next_live in Hm as (r & Hr & Hp). apply list_elem_of_singleton in Hp as Hp.
    exists n. rewrite <- Hp. by apply up_snoc with m.
  - intros [n Hu]. pose proof (up_last _ _ _ Hu) as (m & r & Hu' & Hm & Hp). apply (levels_complete _ _ _ n m Hu').
    + apply elem_next_live. exists r. split; [done|]. by apply list_elem_of_singleton.
    + destruct (up_chain _ _ _ _ Hc Hu) as [Hn _]. pose proof (chain_length _ _ Hc). lia.
Qed.
End forest.

(** ** The invariant *)

Section invariant.
Context `{U : Unicode} `{P : Platform} `{I : NodeIds} `{D : Disk} `{M : MapRange}.
Abbreviation wop := (io Store ws_error).

Definition parent_ok (s : Store) (r : NodeRow) : Prop :=
  ParentID r = "" \/ exists p, live_row s (ParentID r) = Some p /\ NodeType p = DirectoryNode.

(** The file of a node: where it stands and what it holds. *)
Definition file_at (s : Store) (k : string) (r : NodeRow) (c : string) : Prop :=
  exists i, blobs s !! (storage_folder (ParentID r), k) = Some i /\ inodes s !! i = Some c.

Record file_ok (pure : nat -> Prop) (s : Store) (k : string) (r : NodeRow) : Prop := {
  file_path : storageRelativePath (ParentID r) k = Ok (RelativePath r);
  file_folder : storage_folder (ParentID r) ∈ folders s;
  file_content : exists i c, (blobs s !! (storage_folder (ParentID r), k) = Some i /\ inodes s !! i = Some c) /\ (pure i -> ContentHash r = hashContent c /\ SizeBytes r = len c) }.

(** What rows record of a file's content is true of it where its inode is [pure]. *)
Record ws_ok (pure : nat -> Prop) (s : Store) (e : env) : Prop := {
  ok_ids : forall k r, nodes s !! k = Some r -> NodeID r = k /\ exists n, (n < fresh e)%nat /\ k = uuid n;
  ok_bounded : bounded s e;
  ok_parent : forall k r, live_row s k = Some r -> parent_ok s r;
  ok_chain : forall k r, live_row s k = Some r -> exists l, chain s k l;
  ok_valid : forall k r, live_row s k = Some r -> ValidateName (NodeName r) = Ok tt;
  ok_names : forall k1 r1 k2 r2, live_row s k1 = Some r1 -> live_row s k2 = Some r2 -> ParentID r1 = ParentID r2 -> NodeName r1 = NodeName r2 -> k1 = k2;
  ok_files : forall k r, live_row s k = Some r -> NodeType r = FileNode -> file_ok pure s k r }.

Lemma uuid_proper n : canonical_uuid (uuid n) = true /\ uuid n <> "" /\ uuid n <> rootFolderID.
Proof. split; [apply uuid_canonical|]. split; [|apply uuid_not_root]. intros Hn. pose proof (uuid_canonical n) as Hc. by rewrite Hn in Hc. Qed.

Lemma ok_id pure s e k r : ws_ok pure s e -> nodes s !! k = Some r -> NodeID r = k /\ canonical_uuid k = true /\ k <> "" /\ k <> rootFolderID.
Proof. intros Hs Hk. destruct (ok_ids _ _ _ Hs _ _ Hk) as (Hid & n & _ & ->). split; [done|apply uuid_proper]. Qed.
Lemma ok_forest pure s e : ws_ok pure s e -> forall k r, nodes s !! k = Some r -> NodeID r = k /\ k <> "".
Proof. intros Hs k r Hk. destruct (ok_id _ _ _ _ _ Hs Hk) as (? & _ & ? & _). done. Qed.

Lemma live_row_nodes s s' k : nodes s' = nodes s -> live_row s' k = live_row s k.
Proof. intros Hn. unfold live_row. by rewrite Hn. Qed.
Lemma chain_transfer s s' k l : (forall x r, x ∈ l -> live_row s x = Some r -> exists r', live_row s' x = Some r' /\ ParentID r' = ParentID r) -> chain s k l -> chain s' k l.
Proof.
  intros H Hc. induction Hc as [|k r l Hr Hc IH]; [constructor|]. destruct (H k r) as (r' & Hr' & Hp); [set_solver|done|].
  econstructor; [exact Hr'|]. rewrite Hp. apply IH. intros x rx Hx. apply H. set_solver.
Qed.

(** The files that rows own stay where they are. *)
Definition owned_kept (s s' : Store) : Prop :=
  forall k r, live_row s k = Some r -> NodeType r = FileNode -> blobs s' !! (storage_folder (ParentID r), k) = blobs s !! (storage_folder (ParentID r), k).

Lemma ws_owned pure s s' e e' : nodes s' = nodes s -> owned_kept s s' -> inodes s ⊆ inodes s' -> folders s ⊆ folders s' -> bounded s' e' -> env_le e e' ->
  ws_ok pure s e -> ws_ok pure s' e'.
Proof.
  intros Hn Hd Hi Hf Hb He Hs. pose proof Hs as [H1' _ H3' H4' Hv' H5' H6']. assert (Hl : forall k, live_row s' k = live_row s k) by (intros; by apply live_row_nodes).
  split.
  - rewrite Hn. intros k r Hk. destruct (H1' k r Hk) as (Hid & n & Hlt & ->). split; [done|]. exists n. split; [|done]. destruct He. lia.
  - done.
  - intros k r Hr. rewrite Hl in Hr. destruct (H3' k r Hr) as [Hp|(p & Hp & Hd')]; [by left|]. right. exists p. by rewrite Hl.
  - intros k r Hr. rewrite Hl in Hr. destruct (H4' k r Hr) as [l Hc]. exists l. eapply chain_transfer; [|exact Hc]. intros x rx _ Hx. exists rx. by rewrite Hl.
  - intros k r. rewrite Hl. apply Hv'.
  - intros k1 r1 k2 r2. rewrite !Hl. apply H5'.
  - intros k r Hr Ht. rewrite Hl in Hr. destruct (H6' k r Hr Ht) as [F1 F2 (i & c & [Hbi Hic] & Hc)]. split; [done|set_solver|]. exists i, c. split; [|done]. split; [by rewrite Hd|by eapply lookup_weaken].
Qed.
Lemma ws_kept pure s s' e e' : nodes s' = nodes s -> disk_kept s s' -> bounded s' e' -> env_le e e' -> ws_ok pure s e -> ws_ok pure s' e'.
Proof.
  intros Hn [Hd Hi Hf] Hb He Hs. apply (ws_owned pure s s' e e'); try done. intros k r [Hr _]%live_row_Some _. apply Hd.
  by apply (ok_id _ _ _ _ _ Hs Hr).
Qed.
Lemma ws_onward pure s e e' : ws_ok pure s e -> onward e e' -> ws_ok pure s e'.
Proof. intros Hs [He _]. eapply ws_kept; [done|reflexivity| |exact He|exact Hs]. eapply bounded_le; [apply Hs|done]. Qed.

Lemma projected_kept s s' : projected s s' -> disk_kept s s'.
Proof. intros []. split; [congruence|done|set_solver]. Qed.

(** [refreshNamed] and what follows it. *)
Lemma wp_refresh (Q : result ws_error unit -> Store -> env -> Prop) s e : bounded s e ->
  (forall s' e', projected s s' -> bounded s' e' -> env_le e e' -> Q (Ok tt) s' e') -> wp refreshNamed Q s e.
Proof. intros Hb HQ. eapply wp_mono; [by apply refresh_apart|]. cbv beta. intros r s' e' [-> (Hp & Hb' & He)]. auto. Qed.
Lemma ws_projected pure s s' e e' : ws_ok pure s e -> projected s s' -> bounded s' e' -> env_le e e' -> ws_ok pure s' e'.
Proof. intros Hs Hp Hb He. eapply ws_kept; [apply Hp|by apply projected_kept|done|done|done]. Qed.

(** ** A row that is put into the table *)

(** [r] fits into [s]: it is a new node, or the next state of one that stays
    where it is. *)
Record fits (s : Store) (r : NodeRow) : Prop := {
  fit_live : NodeDeleted r = None;
  fit_parent : parent_ok s r;
  fit_valid : ValidateName (NodeName r) = Ok tt;
  fit_names : forall k r', live_row s k = Some r' -> ParentID r' = ParentID r -> NodeName r' = NodeName r -> k = NodeID r;
  fit_old : nodes s !! NodeID r = None \/ exists old, live_row s (NodeID r) = Some old /\ ParentID old = ParentID r /\ NodeType old = NodeType r }.

Lemma live_insert s s' r k : nodes s' = <[NodeID r := r]> (nodes s) -> NodeDeleted r = None ->
  live_row s' k = if decide (k = NodeID r) then Some r else live_row s k.
Proof.
  intros Hn Hd. unfold live_row at 1. rewrite Hn. case_decide as Hk.
  - rewrite Hk, lookup_insert_eq. cbn. unfold live. by rewrite bool_decide_eq_true_2.
  - by rewrite lookup_insert_ne by done.
Qed.

Lemma parent_not_self s e pure r : ws_ok pure s e -> fits s r -> NodeID r <> "" -> ParentID r <> NodeID r.
Proof.
  intros Hs [Hd Hp _ _ Hold] Hne Heq. destruct Hold as [Hnone|(old & Ho & Hpo & _)].
  - destruct Hp as [Hp|(p & Hp & _)]; [congruence|]. apply live_row_Some in Hp as [Hp _]. congruence.
  - destruct (ok_chain _ _ _ Hs _ _ Ho) as [l Hc]. pose proof (ok_forest _ _ _ Hs) as Hf. inversion Hc as [|? r' l' Hr Hc']; subst; [congruence|].
    rewrite Ho in Hr. injection Hr as <-. rewrite Hpo, Heq in Hc'. pose proof (chain_det s Hf _ _ Hc _ Hc') as Hl.
    apply (f_equal length) in Hl. cbn in Hl. lia.
Qed.

Lemma ws_put pure s s' e e' r : ws_ok pure s e -> fits s r -> nodes s' = <[NodeID r := r]> (nodes s) ->
  (exists n, (n < fresh e')%nat /\ NodeID r = uuid n) -> bounded s' e' -> env_le e e' ->
  (forall p, proper p -> p.2 <> NodeID r -> blobs s' !! p = blobs s !! p) -> inodes s ⊆ inodes s' -> folders s ⊆ folders s' ->
  (NodeType r = FileNode -> file_ok pure s' (NodeID r) r) -> ws_ok pure s' e'.
Proof.
  intros Hs Hfit Hn Hid Hb He Hblob Hino Hfold Hfile. pose proof Hfit as [Hd Hp Hvalid Hnames Hold].
  assert (Hl : forall k, live_row s' k = if decide (k = NodeID r) then Some r else live_row s k) by (intros; by apply live_insert).
  assert (Hne : NodeID r <> "") by (destruct Hid as (n & _ & ->); apply uuid_proper).
  assert (Hself : ParentID r <> NodeID r) by by apply (parent_not_self s e pure).
  assert (Hpar : forall r', parent_ok s r' -> parent_ok s' r').
  { intros r' [Hr'|(p & Hr' & Ht)]; [by left|]. right. rewrite Hl. case_decide as Hk; [|by exists p]. exists r. split; [done|].
    rewrite Hk in Hr'. destruct Hold as [Hnone|(old & Ho & _ & Hto)]; [apply live_row_Some in Hr' as [Hr' _]; congruence|congruence]. }
  assert (Hstep : forall x rx, live_row s x = Some rx -> exists r', live_row s' x = Some r' /\ ParentID r' = ParentID rx).
  { intros x rx Hx. rewrite Hl. case_decide as Hk; [|by exists rx]. exists r. split; [done|]. rewrite Hk in Hx.
    destruct Hold as [Hnone|(old & Ho & Hpo & _)]; [apply live_row_Some in Hx as [Hx _]; congruence|congruence]. }
  assert (Hch : forall k l, chain s k l -> chain s' k l) by (intros k l; apply chain_transfer; auto).
  split.
  - rewrite Hn. intros k r'. destruct (decide (k = NodeID r)) as [->|Hk].
    + rewrite lookup_insert_eq. intros [= <-]. split; [done|exact Hid].
    + rewrite lookup_insert_ne by done. intros Hr'. destruct (ok_ids _ _ _ Hs _ _ Hr') as (Hid' & n & Hlt & ->). split; [done|]. exists n. split; [|done]. destruct He. lia.
  - done.
  - intros k r' Hr'. rewrite Hl in Hr'. case_decide as Hk; [injection Hr' as <-; auto|]. apply Hpar. by apply (ok_parent _ _ _ Hs k).
  - intros k r' Hr'. rewrite Hl in Hr'. case_decide as Hk.
    + injection Hr' as <-. rewrite Hk. assert (Hcp : exists l, chain s (ParentID r) l).
      { destruct Hp as [->|(p & Hp & _)]; [exists []; constructor|by apply (ok_chain _ _ _ Hs _ p)]. }
      destruct Hcp as [l Hc]. exists (NodeID r :: l). econstructor; [by rewrite Hl, decide_True|auto].
    + destruct (ok_chain _ _ _ Hs _ _ Hr') as [l Hc]. eauto.
  - intros k r' Hr'. rewrite Hl in Hr'. case_decide; [by injection Hr' as <-|by apply (ok_valid _ _ _ Hs k)].
  - intros k1 r1 k2 r2. rewrite !Hl. case_decide as Hk1; case_decide as Hk2; intros Hr1 Hr2 Hpp Hnn.
    + congruence.
    + injection Hr1 as <-. rewrite Hk1. symmetry. by apply (Hnames k2 r2).
    + injection Hr2 as <-. rewrite Hk2. by apply (Hnames k1 r1).
    + by apply (ok_names _ _ _ Hs k1 r1 k2 r2).
  - intros k r' Hr' Ht. rewrite Hl in Hr'. case_decide as Hk; [injection Hr' as <-; rewrite Hk; auto|].
    destruct (ok_files _ _ _ Hs _ _ Hr' Ht) as [F1 F2 (i & c & [Hbi Hic] & Hc)]. split; [done|set_solver|]. exists i, c. split; [|done].
    apply live_row_Some in Hr' as [Hr' _]. destruct (ok_id _ _ _ _ _ Hs Hr') as (_ & Hcan & _).
    split; [by rewrite Hblob|by eapply lookup_weaken].
Qed.
End invariant.

(** ** Creating and writing *)

#[local] Open Scope Z_scope.

Section write.
Context `{U : Unicode} `{P : Platform} `{I : NodeIds} `{D : Disk} `{M : MapRange}.
Abbreviation wop := (io Store ws_error).

(** ** Statements *)

Lemma wp_transaction {A} (body : wop A) (Q : result ws_error A -> Store -> env -> Prop) s e :
  (forall e1, onward e e1 -> Q (Err DbFailed) s e1) ->
  (forall e1, onward e e1 -> wp body (fun r s' e' => match r with Ok a => Q (Ok a) s' e' | Err x => Q (Err x) (set_fts (set_nodes s' (nodes s)) (fts s)) e' end) s e1) ->
  wp (transaction body) Q s e.
Proof.
  intros HF HB. unfold transaction. apply wp_bind, wp_db_onward; [|intros e1 _ He1; by apply HF]. intros e1 He1 _. cbv beta iota.
  apply wp_bind, wp_get. cbv beta iota. apply wp_bind, wp_attempt. eapply wp_mono; [by apply HB|]. cbv beta. intros [a|x] s' e' HQ.
  - by apply wp_ret.
  - apply wp_bind, wp_modify. cbv beta iota. by apply wp_throw.
Qed.

Lemma wp_ensureParent p (Q : result ws_error unit -> Store -> env -> Prop) s e :
  (forall e', onward e e' -> (p = "" \/ exists r, live_row s p = Some r /\ NodeType r = DirectoryNode) -> Q (Ok tt) s e') ->
  (forall x e', onward e e' -> Q (Err x) s e') -> wp (ensureParent p) Q s e.
Proof.
  intros HO HE. unfold ensureParent. case_bool_decide as Hp; [apply wp_ret, HO; [reflexivity|by left]|].
  apply wp_bind, wp_db_onward; [|intros e' _ He'; by apply HE]. intros e' He' _. cbv beta iota. apply wp_bind, wp_get. cbv beta iota.
  destruct (live_row s p) as [r|] eqn:Hr; [|by apply wp_throw, HE]. case_decide as Ht; [|by apply wp_throw, HE]. apply wp_ret, HO; [done|]. right. eauto.
Qed.

Lemma wp_row_stamp (Q : result ws_error string -> Store -> env -> Prop) s e : (forall t e', onward e e' -> Q (Ok t) s e') -> wp stamp Q s e.
Proof. intros HQ. unfold stamp. apply wp_bind, wp_now_onward. intros e' He'. cbv beta iota. by apply wp_ret, HQ. Qed.

Lemma name_free s p n id : name_taken s p n id = false -> forall k r, live_row s k = Some r -> ParentID r = p -> NodeName r = n -> k = id.
Proof.
  intros Hf k r [Hk Hd]%live_row_Some Hp Hn. apply bool_decide_eq_false in Hf. destruct (decide (k = id)) as [|Hne]; [done|]. destruct Hf.
  exists k, r. split; [done|]. split; [|done]. unfold live. by apply bool_decide_eq_true_2.
Qed.

Lemma wp_insert_row r (Q : result ws_error unit -> Store -> env -> Prop) s e :
  (forall x e', onward e e' -> Q (Err x) s e') ->
  (forall e', onward e e' -> nodes s !! NodeID r = None -> name_taken s (ParentID r) (NodeName r) (NodeID r) = false ->
    Q (Ok tt) (set_nodes s (<[NodeID r := r]> (nodes s))) e') -> wp (insert_row r) Q s e.
Proof.
  intros HE HO. unfold insert_row. apply wp_bind, wp_db_onward; [|intros e' _ He'; by apply HE]. intros e' He' _. cbv beta iota. apply wp_bind, wp_get. cbv beta iota.
  destruct (bool_decide _ || _) eqn:Hb; [by apply wp_throw, HE|]. apply orb_false_iff in Hb as [Hb1%bool_decide_eq_false Hb2].
  apply wp_modify, HO; [done| |done]. by apply eq_None_not_Some.
Qed.

Lemma wp_lift_validate n (Q : result ws_error unit -> Store -> env -> Prop) s e :
  (ValidateName n = Ok tt -> Q (Ok tt) s e) -> (forall x, Q (Err x) s e) -> wp (lift (ValidateName n)) Q s e.
Proof. intros HO HE. apply wp_lift. destruct (ValidateName n) as [[]|x]; auto. Qed.

(** ** [CreateDirectory] *)

Lemma new_row_fits s r : nodes s !! NodeID r = None -> NodeDeleted r = None -> ValidateName (NodeName r) = Ok tt -> name_taken s (ParentID r) (NodeName r) (NodeID r) = false ->
  (ParentID r = "" \/ exists p, live_row s (ParentID r) = Some p /\ NodeType p = DirectoryNode) -> fits s r.
Proof. intros Hn Hd Hv Hf Hp. split; [done|done|done| |by left]. by apply name_free. Qed.

Lemma create_ws pure parentID name s e : ws_ok pure s e -> wp (CreateDirectory parentID name) (fun _ => ws_ok pure) s e.
Proof.
  intros Hs. unfold CreateDirectory. apply wp_bind, wp_lift_validate; [|by intros]. intros Hv. cbv beta iota.
  apply wp_bind, wp_ensureParent; [|intros x e1 He1; by eapply ws_onward]. intros e1 He1 Hp. cbv beta iota.
  apply wp_bind, wp_row_stamp. intros t e2 He2. cbv beta iota. apply wp_bind, wp_draw. intros e3 He3 _ Hf3. cbv beta iota zeta.
  assert (Hs2 : ws_ok pure s e2) by (eapply ws_onward; [exact Hs|by transitivity e1]).
  assert (Hs3 : ws_ok pure s e3) by (eapply ws_kept; [done|reflexivity|eapply bounded_le; [apply Hs2|done]|exact He3|done]).
  apply wp_bind, wp_sop; [|by intros]. intros s1 Hs1. cbv beta iota.
  unfold mkdir_folder in Hs1. case_bool_decide as Hnew; [done|]. injection Hs1 as <-. set (id := uuid (fresh e2)) in *.
  assert (Hkept : disk_kept s (set_folders s ({[id]} ∪ folders s))) by (split; [done|done|set_solver]).
  apply wp_bind, wp_attempt, wp_insert_row.
  - intros x e4 He4. cbv beta iota. apply wp_bind, wp_modify. cbv beta iota. apply wp_throw.
    eapply ws_kept; [| |eapply bounded_le; [|apply He4]|apply He4|exact Hs3].
    + unfold remove_folder. by case_bool_decide.
    + unfold remove_folder. case_bool_decide; [done|]. split; [done|done|]. cbn [folders set_folders]. set_solver.
    + unfold remove_folder. case_bool_decide; apply Hs3.
  - intros e4 He4 Hnone Hfree. cbv beta iota. set (r := mkRow _ _ _ _ _ _ _ _ _ _ _ _) in *.
    assert (Hs4 : ws_ok pure (set_nodes (set_folders s ({[id]} ∪ folders s)) (<[NodeID r := r]> (nodes s))) e4).
    { eapply (ws_put pure s _ e3 e4 r); [exact Hs3|by apply new_row_fits|done| |eapply bounded_le; [apply Hs3|apply He4]|apply He4|done|done|cbn [folders set_nodes set_folders]; set_solver|done].
      exists (fresh e2). split; [|done]. destruct He4 as [[_ Hle] _]. lia. }
    apply wp_bind, wp_refresh; [apply Hs4|]. intros s5 e5 Hp5 Hb5 He5. cbv beta iota.
    eapply wp_reads; [apply reads_Get|]. intros res e6 He6. eapply ws_onward; [|exact He6]. by eapply ws_projected.
Qed.

(** ** [Write] *)

(** A file of the workspace: its row and what it holds. *)
Definition stored (s : Store) (k : string) (r : NodeRow) (c : string) : Prop := live_row s k = Some r /\ NodeType r = FileNode /\ file_at s k r c.

Lemma index_spec k n s e : wp (index_name k n) (fun _ s' e' => onward e e' /\ exists f, s' = set_fts s f) s e.
Proof.
  assert (Hself : s = set_fts s (fts s)) by by destruct s. unfold index_name.
  apply wp_bind, wp_db_onward; [|intros e1 _ He1; split; [done|by eexists]]. intros e1 He1 _. cbv beta iota. apply wp_bind, wp_modify. cbv beta iota.
  apply wp_bind, wp_db_onward; [|intros e2 _ He2; split; [by transitivity e1|by eexists]]. intros e2 He2 _. cbv beta iota. apply wp_modify.
  split; [by transitivity e1|by eexists].
Qed.

(** The file at [target] is the old one or, without an error, the new one;
    nothing else that nodes own has changed. *)
Definition written (target : string * string) (content : string) (s : Store) (e : env) (res : result ws_error unit) (s' : Store) (e' : env) : Prop :=
  bounded s' e' /\ env_le e e' /\ nodes s' = nodes s /\ inodes s ⊆ inodes s' /\ folders s ⊆ folders s' /\
  (forall p, proper p -> p <> target -> blobs s' !! p = blobs s !! p) /\
  match res with
  | Ok _ => target.1 ∈ folders s' /\ exists i, blobs s' !! target = Some i /\ inodes s' !! i = Some content
  | Err _ => blobs s' !! target = blobs s !! target
  end.

Lemma write_file_spec r content target s e : storageRelativePath (ParentID r) (NodeID r) = Ok (RelativePath r) -> target = (storage_folder (ParentID r), NodeID r) ->
  bounded s e ->
  wp (write_file r content) (written target content s e) s e.
Proof.
  intros Hrel Htarget Hb. assert (Ht : proper target) by (apply storageRelativePath_Ok in Hrel as (_ & Hk & _); by rewrite Htarget).
  unfold write_file. rewrite (storagePath_rel _ _ _ Hrel), <- Htarget. apply wp_bind, wp_lift. cbv beta iota.
  apply wp_bind. eapply wp_mono; [by apply stage_spec|]. cbv beta. intros res s1 e1 (staged & i & -> & Hdir & Hnp & Hdot & Hn1 & _ & Hk1 & Hb1 & He1 & Hf1 & Hst & Hic).
  cbv beta iota. destruct Hk1 as [K1 K2 K3].
  assert (Hdone : forall (res : result ws_error unit) s2 e2 b, onward e1 e2 -> (exists f, s2 = set_fts (set_blobs s1 b) f) ->
    (forall p, proper p -> p <> target -> b !! p = blobs s1 !! p) ->
    match res with Ok _ => b !! target = Some i | Err _ => b !! target = blobs s1 !! target end ->
    wp (_ ← modify (remove_blob staged); lift res) (written target content s e) s2 e2).
  { intros res s2 e2 b He2 [f ->] Hother Hres. apply wp_bind, wp_modify. cbv beta iota. apply wp_lift. unfold written. cbn [remove_blob set_blobs set_fts blobs inodes nodes folders].
    assert (Hd : forall p, proper p -> delete staged b !! p = b !! p) by (intros p Hp; apply lookup_delete_ne; by intros ->).
    split; [eapply bounded_le; [exact Hb1|apply He2]|]. split; [transitivity e1; [done|apply He2]|]. split; [done|]. split; [done|]. split; [done|].
    split; [intros p Hp Hne; by rewrite Hd, Hother, K1|]. destruct res; [|by rewrite Hd, Hres, K1]. split; [done|]. exists i. by rewrite Hd. }
  apply wp_bind, wp_attempt, wp_bind. eapply wp_mono; [apply index_spec|]. cbv beta. intros res s2 e2 [He2 [f2 ->]].
  destruct res as [u|x]; cbv beta iota; [|apply (Hdone (Err x) _ _ (blobs s1)); [done|by exists f2; destruct s1|done|done]].
  apply wp_bind. eapply wp_mono; [apply (install_spec staged target i); done|]. cbv beta.
  intros res s3 e3 (He3 & rb & fin & b & -> & -> & Hbt & Hbo & (b1 & Hrb & Hb1o) & (b2 & Hfin & Hb2o)). cbv beta iota.
  assert (He13 : onward e1 e3) by by transitivity e2.
  apply wp_bind, wp_attempt, wp_db_onward.
  - intros e4 He4 _. cbv beta iota. apply wp_modify. rewrite Hfin. apply (Hdone (Ok tt) _ _ b2); [by transitivity e3|by exists f2| |by rewrite Hb2o].
    intros p Hp Hne. rewrite Hb2o by done. by apply Hbo.
  - intros e4 _ He4. cbv beta iota. apply wp_bind, wp_modify. cbv beta iota. apply wp_throw. rewrite Hrb.
    apply (Hdone (Err DbFailed) _ _ b1); [by transitivity e3|by exists f2|intros p Hp _; by apply Hb1o|by apply Hb1o].
Qed.

(** The row that a request leads to. *)
Definition next_state (req : WriteRequest) (s : Store) (r : NodeRow) : Prop :=
  if decide (WID req = "") then
    nodes s !! NodeID r = None /\ ParentID r = WParentID req /\ NodeName r = WName req /\ Version r = 1
  else
    exists old, NodeID r = WID req /\ live_row s (WID req) = Some old /\ NodeType old = FileNode /\ ParentID r = ParentID old /\ NodeName r = NodeName old /\
      Version r = Version old + 1 /\ (0 < ExpectedVersion req -> ExpectedVersion req = Version old).

Record new_row (req : WriteRequest) (s : Store) (e' : env) (r : NodeRow) : Prop := {
  new_fits : fits s r;
  new_type : NodeType r = FileNode;
  new_path : storageRelativePath (ParentID r) (NodeID r) = Ok (RelativePath r);
  new_hash : ContentHash r = hashContent (WContent req);
  new_size : SizeBytes r = len (WContent req);
  new_id : exists n, (n < fresh e')%nat /\ NodeID r = uuid n;
  new_state : next_state req s r }.

Lemma row_spec pure req t s e : ws_ok pure s e -> (WID req = "" -> ValidateName (WName req) = Ok tt) ->
  wp (if bool_decide (WID req = "") then new_file_row req t (hashContent (WContent req)) else next_file_row req t (hashContent (WContent req)))
    (fun res s' e' => onward e e' /\ match res with Err _ => s' = s | Ok r => s' = set_nodes s (<[NodeID r := r]> (nodes s)) /\ new_row req s e' r end) s e.
Proof.
  intros Hs Hval. case_bool_decide as Hid.
  - unfold new_file_row. apply wp_bind, wp_ensureParent; [|by intros]. intros e1 He1 Hp. cbv beta iota.
    apply wp_bind, wp_draw_next. intros e2 He2 _ Hf2. cbv beta iota. assert (He02 : onward e e2) by by transitivity e1. apply wp_bind, wp_lift.
    destruct (storageRelativePath (WParentID req) (uuid (fresh e1))) as [rel|x] eqn:Hrel; [|done]. cbv beta iota zeta.
    set (r := mkRow _ _ _ _ _ _ _ _ _ _ _ _). apply wp_bind, wp_insert_row; [intros x e3 He3; split; [by transitivity e2|done]|].
    intros e3 He3 Hnone Hfree. cbv beta iota. apply wp_ret. split; [by transitivity e2|]. split; [done|].
    split; try done; [apply new_row_fits; auto| |].
    + exists (fresh e1). split; [|done]. destruct He3 as [[_ ?] _]. lia.
    + unfold next_state. by rewrite decide_True.
  - unfold next_file_row. apply wp_bind, wp_db_onward; [|by intros]. intros e1 He1 _. cbv beta iota. apply wp_bind, wp_get. cbv beta iota.
    destruct (live_row s (WID req)) as [r|] eqn:Hr; [|by apply wp_throw]. case_decide as Ht; [|by apply wp_throw].
    destruct ((0 <? ExpectedVersion req) && _) eqn:Hv; [by apply wp_throw|]. cbv zeta. set (r' := next_version _ _ _ _ _).
    apply wp_bind, wp_db_onward; [|intros e2 _ He2; cbv beta iota; split; [by transitivity e1|done]]. intros e2 He2 _. cbv beta iota. apply wp_bind, wp_modify. cbv beta iota. apply wp_ret.
    pose proof Hr as [Hn Hd]%live_row_Some. destruct (ok_ids _ _ _ Hs _ _ Hn) as (Hkey & n & Hlt & Hu). assert (Hk : NodeID r' = WID req) by exact Hkey.
    assert (He : onward e e2) by by transitivity e1. split; [done|]. split; [by rewrite Hk|]. split; try done.
    + split; [done| | | |right; exists r; by rewrite Hk].
      * exact (ok_parent _ _ _ Hs _ _ Hr).
      * exact (ok_valid _ _ _ Hs _ _ Hr).
      * intros k r2 Hr2 Hp Hnm. rewrite Hk. by apply (ok_names _ _ _ Hs k r2 (WID req) r).
    + rewrite Hk. exact (file_path _ _ _ _ (ok_files _ _ _ Hs _ _ Hr Ht)).
    + exists n. rewrite Hk. split; [|done]. destruct He as [[_ ?] _]. lia.
    + unfold next_state. rewrite decide_False by done. exists r. repeat (split; [done|]). intros Hpos. apply andb_false_iff in Hv as [Hv|Hv].
      * apply Z.ltb_ge in Hv. lia.
      * apply negb_false_iff, Z.eqb_eq in Hv. done.
Qed.

Lemma stored_kept pure s s' e k r c : ws_ok pure s e -> nodes s' = nodes s -> disk_kept s s' -> stored s' k r c <-> stored s k r c.
Proof.
  intros Hs Hn [Hb Hi _]. unfold stored. rewrite (live_row_nodes s s') by done. split; intros (Hr & Ht & i & Hbi & Hic); (split; [done|split; [done|]]); exists i.
  - pose proof Hr as [Hr' _]%live_row_Some. destruct (ok_id _ _ _ _ _ Hs Hr') as (_ & Hcan & _). rewrite Hb in Hbi by done. split; [done|].
    destruct (ok_files _ _ _ Hs _ _ Hr Ht) as [_ _ (i' & c' & [Hbi' Hic'] & _)]. rewrite Hbi in Hbi'. injection Hbi' as <-.
    pose proof (lookup_weaken _ _ _ _ Hic' Hi). congruence.
  - pose proof Hr as [Hr' _]%live_row_Some. destruct (ok_id _ _ _ _ _ Hs Hr') as (_ & Hcan & _). rewrite Hb by done. split; [done|]. by eapply lookup_weaken.
Qed.

Lemma wp_Get id (Q : result ws_error Node -> Store -> env -> Prop) s e :
  (forall x e', onward e e' -> Q (Err x) s e') -> (forall node e', onward e e' -> live_row s id = Some (Row node) -> Q (Ok node) s e') -> wp (Get id) Q s e.
Proof.
  intros HE HO. unfold Get. apply wp_bind, wp_db_onward; [|intros e1 _ He1; by apply HE]. intros e1 He1 _. cbv beta iota. apply wp_bind, wp_get. cbv beta iota.
  destruct (live_row s id) as [r|] eqn:Hr; [|by apply wp_throw, HE]. apply wp_bind. eapply wp_reads; [apply reads_VirtualPath|]. intros [p|x] e2 He2; cbv beta iota.
  - apply wp_bind, wp_get. cbv beta iota. apply wp_ret, HO; [by transitivity e1|done].
  - apply HE. by transitivity e1.
Qed.

(** What a write may leave: everything as it was, with an error, or the new
    state of the file, and nothing else changed. *)
Definition write_outcome (req : WriteRequest) (s : Store) (res : result ws_error Node) (s' : Store) : Prop :=
  ((exists x, res = Err x) /\ forall k r c, stored s' k r c <-> stored s k r c) \/
  (exists r, next_state req s r /\ stored s' (NodeID r) r (WContent req) /\ (forall k r' c, k <> NodeID r -> stored s' k r' c <-> stored s k r' c) /\
    forall node, res = Ok node -> Row node = r).

Lemma write_spec pure req s e : ws_ok pure s e -> wp (Write req) (fun res s' e' => ws_ok pure s' e' /\ write_outcome req s res s') s e.
Proof.
  intros Hs. unfold Write. destruct (bool_decide (WID req = "") && _) eqn:Hname; [apply wp_throw; split; [done|left; split; [by eexists|done]]|].
  assert (Hval : WID req = "" -> ValidateName (WName req) = Ok tt).
  { intros Hid. rewrite Hid in Hname. by destruct (ValidateName (WName req)) as [[]|]. }
  assert (Hfail : forall x s2 e2, nodes s2 = nodes s -> disk_kept s s2 -> bounded s2 e2 -> env_le e e2 -> ws_ok pure s2 e2 /\ write_outcome req s (Err x) s2).
  { intros x s2 e2 Hn Hd Hb He. split; [by apply (ws_kept pure s s2 e e2)|]. left. split; [by eexists|]. intros k r c. by apply (stored_kept pure _ _ e). }
  apply wp_bind, wp_transaction; [intros e1 He1; apply Hfail; [done|reflexivity| |apply He1]; eapply bounded_le; [apply Hs|apply He1]|]. intros e1 He1.
  apply wp_bind, wp_row_stamp. intros t e2 He2. cbv beta iota zeta. assert (He02 : onward e e2) by by transitivity e1.
  assert (Hs2 : ws_ok pure s e2) by by eapply ws_onward.
  apply wp_bind. eapply wp_mono; [by apply (row_spec pure)|]. cbv beta. intros [r|x] s3 e3 [He3 H3]; cbv beta iota.
  2: { rewrite H3. apply Hfail; [done|by split|eapply bounded_le; [apply Hs2|apply He3]|transitivity e2; [apply He02|apply He3]]. }
  destruct H3 as [-> Hnew]. set (target := (storage_folder (ParentID r), NodeID r)).
  apply wp_bind. eapply wp_mono; [apply (write_file_spec r (WContent req) target); [apply Hnew|done|eapply bounded_le; [apply Hs2|apply He3]]|].
  cbv beta. intros res s4 e4 (Hb4 & He4 & Hn4 & Hi4 & Hf4 & Ho4 & Hres). cbn [nodes set_nodes blobs inodes folders] in *.
  assert (He04 : env_le e e4) by (transitivity e2; [apply He02|transitivity e3; [apply He3|done]]). destruct res as [u|x]; cbv beta iota.
  2: { apply Hfail; [done| |done|done]. split; [|done|done]. intros p Hp. cbn [blobs set_nodes set_fts].
       destruct (decide (p = target)) as [->|Hne]; [done|by apply Ho4]. }
  apply wp_ret. cbv beta iota. destruct Hres as (Hfold & i & Hbi & Hic).
  assert (Hfile : file_at s4 (NodeID r) r (WContent req)) by by exists i.
  assert (Hother : forall p, proper p -> p.2 <> NodeID r -> blobs s4 !! p = blobs s !! p) by (intros p Hp Hne; apply Ho4; [done|by intros ->]).
  assert (Hs4 : ws_ok pure s4 e4).
  { eapply (ws_put pure s s4 e2 e4 r); [done|apply Hnew|done| |done|transitivity e3; [apply He3|done]|exact Hother|done|done|].
    - destruct (new_id _ _ _ _ Hnew) as (n & Hlt & Hn). exists n. split; [destruct He4; lia|done].
    - intros _. split; [apply Hnew|done|]. exists i, (WContent req). split; [done|]. intros _. split; apply Hnew. }
  assert (Hl4 : forall k, live_row s4 k = if decide (k = NodeID r) then Some r else live_row s k) by (intros k; apply live_insert; [done|apply Hnew]).
  assert (Hout : forall res, (forall node, res = Ok node -> Row node = r) -> forall s5, projected s4 s5 -> write_outcome req s res s5).
  { intros res Hrow s5 Hp5. right. exists r. split; [apply Hnew|].
    assert (Hst : forall k r' c, stored s5 k r' c <-> stored s4 k r' c) by (intros; eapply stored_kept; [exact Hs4|apply Hp5|by apply projected_kept]).
    split; [apply Hst; split; [by rewrite Hl4, decide_True|split; [apply Hnew|done]]|]. split; [|done]. intros k r' c Hne. rewrite Hst. unfold stored. rewrite Hl4, decide_False by done.
    split; intros (Hr' & Ht' & j & Hj & Hjc); (split; [done|split; [done|]]); exists j; pose proof Hr' as [Hr2 _]%live_row_Some; destruct (ok_id _ _ _ _ _ Hs Hr2) as (_ & Hcan & _).
    - rewrite Hother in Hj by done. split; [done|]. destruct (ok_files _ _ _ Hs _ _ Hr' Ht') as [_ _ (i' & c' & [Hbi' Hic'] & _)]. rewrite Hj in Hbi'. injection Hbi' as <-.
      pose proof (lookup_weaken _ _ _ _ Hic' Hi4). congruence.
    - rewrite Hother by done. split; [done|]. by eapply lookup_weaken. }
  apply wp_bind, wp_refresh; [done|]. intros s5 e5 Hp5 Hb5 He5. cbv beta iota. assert (Hs5 : ws_ok pure s5 e5) by by eapply ws_projected.
  apply wp_Get.
  - intros x e6 He6. split; [by eapply ws_onward|]. apply Hout; [by intros|done].
  - intros node e6 He6 Hrow. split; [by eapply ws_onward|]. apply Hout; [|done]. intros node' [= <-].
    rewrite (live_row_nodes s4 s5), Hl4, decide_True in Hrow by (done || apply Hp5). by injection Hrow.
Qed.
End write.
