(* ===== verification/WorkspaceTree.v ===== *)
(** * The workspace: moving, deleting and its users

    Moving and deleting keep what [WorkspaceSpec] names; so do the calls of
    the store's users and what sandboxed programs do in the projection of
    names. *)

From S2P Require Import Prelude GoStrings GoPath Io Tables GoText WsDisk WsDiskSpec Workspace WorkspaceSpec.
#[local] Open Scope Z_scope.

Section tree.
Context `{U : Unicode} `{P : Platform} `{I : NodeIds} `{D : Disk} `{M : MapRange}.
Abbreviation wop := (io Store ws_error).

(** ** [Rename] *)

Lemma not_below s id y ly : (forall k r, nodes s !! k = Some r -> NodeID r = k /\ k <> "") -> chain s y ly -> y <> id -> y ∉ descendants s id -> id ∉ ly.
Proof.
  intros Hf Hc Hne Hnd Hin. destruct (chain_suffix s Hf _ _ _ Hc Hin) as (l1 & l2 & -> & Hid).
  assert (Hup : forall k l1, chain s k (l1 ++ id :: l2) -> up s k (length l1) id).
  { clear. intros k l1. revert k. induction l1 as [|x l1 IH]; intros k Hc; inversion Hc as [|? r l Hr Hc']; subst; cbn; [constructor|]. econstructor; [exact Hr|]. by apply IH. }
  destruct l1 as [|x l1]; [inversion Hc; subst; by destruct Hne|]. apply Hnd. apply (descendants_spec s Hf _ _ _ Hc). exists (length l1). exact (Hup y (x :: l1) Hc).
Qed.

Lemma ws_move pure s s' e e' id r y name rel t : ws_ok pure s e -> live_row s id = Some r ->
  (y = "" \/ exists p, live_row s y = Some p /\ NodeType p = DirectoryNode) -> y <> id -> (y <> "" -> y ∉ descendants s id) -> name_taken s y name id = false -> ValidateName name = Ok tt ->
  nodes s' = <[id := moved_row r y name rel t]> (nodes s) -> bounded s' e' -> env_le e e' ->
  (forall p, proper p -> p.2 <> id -> blobs s' !! p = blobs s !! p) -> inodes s ⊆ inodes s' -> folders s ⊆ folders s' ->
  (NodeType r = FileNode -> file_ok pure s' id (moved_row r y name rel t)) -> ws_ok pure s' e'.
Proof.
  intros Hs Hr Hy Hne Hnd Hfree Hval Hn Hb He Hblob Hino Hfold Hfile. pose proof (ok_forest _ _ _ Hs) as Hforest.
  set (r' := moved_row r y name rel t) in *. pose proof Hr as [Hrow Hd]%live_row_Some.
  assert (Hid : NodeID r' = id) by apply (Hforest _ _ Hrow).
  assert (Hl : forall k, live_row s' k = if decide (k = id) then Some r' else live_row s k).
  { intros k. rewrite <- Hid. apply (live_insert s s' r'); [by rewrite Hid|done]. }
  assert (Hdir : forall k p, live_row s k = Some p -> NodeType p = DirectoryNode -> exists p', live_row s' k = Some p' /\ NodeType p' = DirectoryNode).
  { intros k p Hp Ht. rewrite Hl. case_decide as Hk; [|by exists p]. exists r'. split; [done|]. cbn. rewrite Hk in Hp. congruence. }
  assert (Hpar : forall r0, parent_ok s r0 -> parent_ok s' r0).
  { intros r0 [H0'|(p & Hp & Ht)]; [by left|]. right. by apply (Hdir _ p). }
  assert (Hychain : exists l, chain s' y l).
  { destruct Hy as [->|(p & Hp & _)]; [exists []; constructor|]. destruct (ok_chain _ _ _ Hs _ _ Hp) as [l Hc]. exists l.
    destruct (live_nonempty s Hforest _ _ Hp) as [Hy0 _]. pose proof (not_below s id y l Hforest Hc Hne (Hnd Hy0)) as Hni.
    eapply chain_transfer; [|exact Hc]. intros x rx Hx Hrx. exists rx. rewrite Hl, decide_False by (by intros ->). done. }
  assert (Hch : forall k l, chain s k l -> exists l', chain s' k l').
  { intros k l Hc. induction Hc as [|k r0 l Hr0 Hc [l' IH]]; [exists []; constructor|]. destruct (decide (k = id)) as [->|Hk].
    - destruct Hychain as [ly Hly]. exists (id :: ly). apply (chain_node s' id r'); [by rewrite Hl, decide_True|done].
    - exists (k :: l'). apply (chain_node s' k r0); [by rewrite Hl, decide_False|done]. }
  split.
  - rewrite Hn. intros k r0. destruct (decide (k = id)) as [->|Hk].
    + rewrite lookup_insert_eq. intros [= <-]. destruct (ok_ids _ _ _ Hs _ _ Hrow) as (_ & n & Hlt & ->). split; [done|]. exists n. split; [|done]. destruct He. lia.
    + rewrite lookup_insert_ne by done. intros H0'. destruct (ok_ids _ _ _ Hs _ _ H0') as (Hid' & n & Hlt & ->). split; [done|]. exists n. split; [|done]. destruct He. lia.
  - done.
  - intros k r0. rewrite Hl. case_decide as Hk; intros Hr0; [|apply Hpar; by apply (ok_parent _ _ _ Hs k)]. injection Hr0 as <-.
    destruct Hy as [->|(p & Hp & Ht)]; [by left|right; by apply (Hdir _ p)].
  - intros k r0. rewrite Hl. case_decide as Hk; intros Hr0.
    + destruct (ok_chain _ _ _ Hs _ _ Hr) as [l Hc]. rewrite Hk. by apply (Hch _ l).
    + destruct (ok_chain _ _ _ Hs _ _ Hr0) as [l Hc]. by apply (Hch _ l).
  - intros k r0. rewrite Hl. case_decide as Hk; intros Hr0; [by injection Hr0 as <-|by apply (ok_valid _ _ _ Hs k)].
  - pose proof (name_free _ _ _ _ Hfree) as Hnf. intros k1 r1 k2 r2. rewrite !Hl. case_decide as Hk1; case_decide as Hk2; intros Hr1 Hr2 Hpp Hnn.
    + congruence.
    + injection Hr1 as <-. rewrite Hk1. symmetry. by apply (Hnf k2 r2).
    + injection Hr2 as <-. rewrite Hk2. by apply (Hnf k1 r1).
    + by apply (ok_names _ _ _ Hs k1 r1 k2 r2).
  - intros k r0. rewrite Hl. case_decide as Hk; intros Hr0 Ht; [injection Hr0 as <-; rewrite Hk; by apply Hfile|].
    destruct (ok_files _ _ _ Hs _ _ Hr0 Ht) as [F1 F2 (i & c & [Hbi Hic] & Hc)]. split; [done|set_solver|]. exists i, c. split; [|done].
    apply live_row_Some in Hr0 as [Hr0 _]. destruct (ok_id _ _ _ _ _ Hs Hr0) as (_ & Hcan & _). split; [by rewrite Hblob|by eapply lookup_weaken].
Qed.

(** Moving a file: what was done and what undoes it. *)
Record file_moved (s : Store) (src dst : string * string) (undo : Store -> Store) (s' : Store) : Prop := {
  moved_shape : exists b f, s' = set_folders (set_blobs s b) f /\ folders s ⊆ f /\ (forall p, proper p -> p <> src -> p <> dst -> b !! p = blobs s !! p) /\ b !! dst = blobs s !! src;
  moved_folder : dst.1 ∈ folders s';
  moved_undo : forall f, nodes (undo (set_fts s' f)) = nodes s' /\ inodes (undo (set_fts s' f)) = inodes s /\ folders s ⊆ folders (undo (set_fts s' f)) /\
    forall p, p <> dst \/ src = dst -> proper p -> blobs (undo (set_fts s' f)) !! p = blobs s !! p }.

Lemma move_spec parent parent' id cur new i s e : storageRelativePath parent id = Ok cur -> storageRelativePath parent' id = Ok new ->
  storage_folder parent ∈ folders s -> blobs s !! (storage_folder parent, id) = Some i ->
  wp (move_file cur new) (fun res s' e' => e' = e /\ exists undo, res = Ok undo /\
    file_moved s (storage_folder parent, id) (storage_folder parent', id) undo s') s e.
Proof.
  intros Hcur Hnew Hfold Hi. unfold move_file. case_bool_decide as Heq.
  - apply wp_ret. split; [done|]. eexists. split; [done|]. assert (Hsf : storage_folder parent' = storage_folder parent).
    { rewrite Heq in Hnew. apply storagePath_rel in Hcur, Hnew. congruence. }
    rewrite Hsf. split; [|done|by intros f]. exists (blobs s), (folders s). by split; [destruct s|].
  - rewrite (storagePath_rel _ _ _ Hcur), (storagePath_rel _ _ _ Hnew). set (src := (storage_folder parent, id)) in *. set (dst := (storage_folder parent', id)).
    assert (Hsd : src <> dst).
    { intros Hsd. apply Heq. apply (f_equal fst) in Hsd. cbn in Hsd. apply storageRelativePath_Ok in Hcur as (_ & _ & ->), Hnew as (_ & _ & ->). by rewrite Hsd. }
    apply wp_bind, wp_lift. cbv beta iota. apply wp_bind, wp_lift. cbv beta iota. apply wp_bind, wp_modify. cbv beta iota.
    apply wp_bind, wp_sop; [|intros x Hx; exfalso; by rewrite (rename_Ok src dst _ i) in Hx by (done || cbn; set_solver)].
    intros s' Hx. rewrite (rename_Ok src dst _ i) in Hx by (done || cbn; set_solver). injection Hx as <-. cbv beta iota. apply wp_ret. split; [done|].
    eexists. split; [done|]. cbn [mkdir_all_folder set_folders set_blobs blobs folders]. split.
    + exists (<[dst := i]> (delete src (blobs s))), ({[storage_folder parent']} ∪ folders s). split; [reflexivity|]. split; [set_solver|]. split; [|rewrite lookup_insert_eq; by rewrite Hi].
      intros p _ Hp1 Hp2. by rewrite lookup_insert_ne, lookup_delete_ne.
    + cbn. set_solver.
    + intros f. rewrite (try_rename_Some dst src _ i); [|cbn; apply lookup_insert_eq|cbn; set_solver]. split; [done|]. split; [done|].
      cbn [blobs inodes folders set_blobs set_fts set_folders mkdir_all_folder]. split; [set_solver|]. intros p [Hp|]; [|done]. intros _.
      destruct (decide (p = src)) as [->|H1']; [by rewrite lookup_insert_eq, Hi|]. by rewrite lookup_insert_ne, lookup_delete_ne, lookup_insert_ne, lookup_delete_ne.
Qed.

Lemma wp_or_undo undo (m : wop unit) (Q : result ws_error unit -> Store -> env -> Prop) s e :
  wp m (fun r s' e' => match r with Ok _ => Q (Ok tt) s' e' | Err x => Q (Err x) (undo s') e' end) s e -> wp (or_undo undo m) Q s e.
Proof.
  intros Hm. unfold or_undo. apply wp_bind, wp_attempt. eapply wp_mono; [exact Hm|]. cbv beta. intros [[]|x] s' e' HQ; [by apply wp_ret|].
  apply wp_bind, wp_modify. cbv beta iota. by apply wp_throw.
Qed.

(** The file of [id] after its move belongs to the row that was moved. *)
Lemma moved_file_ok pure s s' id r y name rel t undo : canonical_uuid id = true -> file_ok pure s id r -> storageRelativePath y id = Ok rel ->
  file_moved s (storage_folder (ParentID r), id) (storage_folder y, id) undo s' -> inodes s' = inodes s -> file_ok pure s' id (moved_row r y name rel t).
Proof.
  intros Hcan [F1 F2 (i & c & [Hbi Hic] & Hc)] Hrel [(b & f & -> & _ & _ & Hdst) Hfold _] Hino. split; [done|done|].
  exists i, c. split; [|done]. cbn [blobs set_folders set_blobs moved_row ParentID]. rewrite Hdst, Hbi. done.
Qed.

(** A move that is possible. *)
Record movable (s : Store) (id : string) (r : NodeRow) (y name : string) : Prop := {
  mv_row : live_row s id = Some r;
  mv_parent : y = "" \/ exists p, live_row s y = Some p /\ NodeType p = DirectoryNode;
  mv_self : y <> id;
  mv_below : y <> "" -> y ∉ descendants s id;
  mv_free : name_taken s y name id = false;
  mv_valid : ValidateName name = Ok tt }.

(** The tables can go back to those of [s]. *)
Definition can_restore (s s' : Store) : Prop := owned_kept s s' /\ inodes s' = inodes s /\ folders s ⊆ folders s'.

Lemma ws_restored pure s e s' e' : ws_ok pure s e -> can_restore s s' -> onward e e' -> ws_ok pure (set_fts (set_nodes s' (nodes s)) (fts s)) e'.
Proof.
  intros Hs (Ho & Hi & Hf) [He _]. apply (ws_owned pure s _ e e'); try done; cbn [inodes set_fts set_nodes]; [by rewrite Hi|].
  intros j. cbn [inodes set_fts set_nodes]. rewrite Hi. eapply bounded_le; [apply Hs|done].
Qed.

Lemma wp_rename_dir pure id r y name t s e0 e : ws_ok pure s e0 -> onward e0 e -> movable s id r y name -> NodeType r = DirectoryNode ->
  wp (db DbFailed) (fun res s' e' => onward e e' /\ match res with Ok _ => ws_ok pure s' e' | Err _ => can_restore s s' end)
    (set_nodes s (<[id := moved_row r y name (RelativePath r) t]> (nodes s))) e.
Proof.
  intros Hs He [M1 M2 M3 M4 M5 M6] Ht. apply wp_db_onward; [|intros e1 _ He1; by split]. intros e1 He1 _. split; [done|].
  apply (ws_move pure s _ e0 e1 id r y name (RelativePath r) t); try done; [eapply bounded_le; [apply Hs|]| |congruence]; (transitivity e; [apply He|apply He1]).
Qed.

Lemma wp_rename_file pure id r y name rel t s e0 e : ws_ok pure s e0 -> onward e0 e -> movable s id r y name -> NodeType r = FileNode ->
  storageRelativePath y id = Ok rel ->
  wp (rollbackMove ← move_file (RelativePath r) rel;
      _ ← or_undo rollbackMove (_ ← db DbFailed;
        modify (fun s => set_fts s ((fun x : string * string => if bool_decide (x.1 = id) then (x.1, name) else x) <$> fts s)));
      or_undo rollbackMove (db DbFailed))
    (fun res s' e' => onward e e' /\ match res with Ok _ => ws_ok pure s' e' | Err _ => can_restore s s' end)
    (set_nodes s (<[id := moved_row r y name rel t]> (nodes s))) e.
Proof.
  intros Hs He Hmov Ht Hrel. pose proof Hmov as [Hr M2 M3 M4 M5 M6]. pose proof Hr as [Hrow _]%live_row_Some. destruct (ok_id _ _ _ _ _ Hs Hrow) as (_ & Hcan & _).
  set (s1 := set_nodes s _). pose proof (ok_files _ _ _ Hs _ _ Hr Ht) as [F1 F2 (i & c & [Hbi Hic] & Hcc)].
  apply wp_bind. eapply wp_mono; [by apply (move_spec (ParentID r) y id (RelativePath r) rel i s1 e)|].
  cbv beta. intros res s7 e7 (-> & undo & -> & Hmv). cbv beta iota. pose proof Hmv as [(b & f & -> & Hff & Hbo & Hbd) Hfold Hundo]. set (s7 := set_folders (set_blobs s1 b) f) in *.
  assert (Hun : forall g, can_restore s (undo (set_fts s7 g))).
  { intros g. destruct (Hundo g) as (_ & Hi & Hfs & Hbs). split; [|by split]. intros k rk Hk Htk. pose proof Hk as [Hkr _]%live_row_Some.
    apply Hbs; [|by apply (ok_id _ _ _ _ _ Hs Hkr)]. destruct (decide (k = id)) as [->|Hne]; [|left; by intros [=]]. rewrite Hr in Hk. injection Hk as <-.
    destruct (decide (storage_folder (ParentID r) = storage_folder y)) as [->|Hd]; [by right|left; by intros [=]]. }
  assert (Hok : forall g e8, onward e e8 -> ws_ok pure (set_fts s7 g) e8).
  { intros g e8 He8. assert (He' : env_le e0 e8) by (transitivity e; [apply He|apply He8]).
    apply (ws_move pure s _ e0 e8 id r y name rel t); try done; [by eapply bounded_le; [apply Hs|]| |].
    - intros p Hp Hne. cbn [blobs set_fts set_folders set_blobs s7]. apply Hbo; [done|by intros ->|by intros ->].
    - intros _. assert (H1f : file_ok pure s1 id r) by (split; [done|done|exists i, c; split; done]).
      destruct (moved_file_ok pure s1 s7 id r y name rel t undo Hcan H1f Hrel Hmv eq_refl) as [G1 G2 G3]. by split. }
  apply wp_bind, wp_or_undo, wp_bind, wp_db_onward; [|intros e7 _ He7; cbv beta iota; split; [done|exact (Hun (fts s7))]].
  intros e7 He7 _. cbv beta iota. apply wp_modify. cbv beta iota. apply wp_or_undo, wp_db_onward.
  - intros e8 He8 _. assert (He' : onward e e8) by by transitivity e7. split; [done|by apply Hok].
  - intros e8 _ He8. cbv beta iota. split; [by transitivity e7|apply Hun].
Qed.

(** The check that the new parent is not below the node. *)
Lemma wp_move_check id y (Q : result ws_error unit -> Store -> env -> Prop) s e :
  (forall e', onward e e' -> (y <> "" -> y ∉ descendants s id) -> Q (Ok tt) s e') -> (forall x e', onward e e' -> Q (Err x) s e') ->
  wp (if bool_decide (y = "") then mret tt
      else _ ← db DbFailed; s ← get; if bool_decide (y ∈ descendants s id) then throw ErrInvalidNode else mret tt) Q s e.
Proof.
  intros HO HE. case_bool_decide as Hy; [by apply wp_ret, HO|]. apply wp_bind, wp_db_onward; [|intros e1 _ He1; by apply HE].
  intros e1 He1 _. cbv beta iota. apply wp_bind, wp_get. cbv beta iota. case_bool_decide as Hd; [by apply wp_throw, HE|]. by apply wp_ret, HO.
Qed.

Lemma rename_ws pure id y name v s e : ws_ok pure s e -> wp (Rename id y name v) (fun _ => ws_ok pure) s e.
Proof.
  intros Hs. unfold Rename. apply wp_bind, wp_lift_validate; [|by intros]. intros Hval. cbv beta iota. case_bool_decide as Hself; [by apply wp_throw|].
  assert (Hback : forall e2, onward e e2 -> ws_ok pure (set_fts (set_nodes s (nodes s)) (fts s)) e2).
  { intros e2 He2. by apply (ws_restored pure s e s e2). }
  apply wp_bind, wp_transaction; [intros e1 He1; by eapply ws_onward|]. intros e1 He1.
  apply wp_bind, wp_ensureParent; [|intros x e2 He2; apply Hback; by transitivity e1]. intros e2 He2 Hy. cbv beta iota.
  assert (He02 : onward e e2) by by transitivity e1.
  apply wp_bind, wp_move_check; [|intros x e3 He3; apply Hback; by transitivity e2]. intros e3 He3 Hnd. cbv beta iota. assert (He03 : onward e e3) by by transitivity e2.
  apply wp_bind, wp_db_onward; [|intros e4 _ He4; apply Hback; by transitivity e3]. intros e4 He4 _. cbv beta iota. assert (He04 : onward e e4) by by transitivity e3.
  apply wp_bind, wp_get. cbv beta iota. destruct (live_row s id) as [r|] eqn:Hr; [|by apply wp_throw, Hback].
  destruct ((0 <? v) && _); [by apply wp_throw, Hback|]. apply wp_bind, wp_row_stamp. intros t e5 He5. cbv beta iota. assert (He05 : onward e e5) by by transitivity e4.
  assert (Hend : forall s7 e7, ws_ok pure s7 e7 -> wp (_ ← refreshNamed; Get id) (fun _ => ws_ok pure) s7 e7).
  { intros s7 e7 Hs7. apply wp_bind, wp_refresh; [apply Hs7|]. intros s8 e8 Hp8 Hb8 He8. cbv beta iota. eapply wp_reads; [apply reads_Get|].
    intros _ e9 He9. eapply ws_onward; [|exact He9]. by apply (ws_projected pure s7 s8 e7 e8). }
  assert (Htail : forall (res : result ws_error unit) s' e6 e', onward e e6 -> onward e6 e' /\ match res with Ok _ => ws_ok pure s' e' | Err _ => can_restore s s' end ->
    match res with
    | Ok _ => wp (_ ← refreshNamed; Get id) (fun _ => ws_ok pure) s' e'
    | Err _ => ws_ok pure (set_fts (set_nodes s' (nodes s)) (fts s)) e'
    end).
  { intros [[]|x] s' e6 e' He6 [He' H']; [by apply Hend|]. apply (ws_restored pure s e); [done|done|by transitivity e6]. }
  apply wp_bind. destruct (decide (NodeType r = FileNode)) as [Ht|Ht].
  - apply wp_lift. destruct (storageRelativePath y id) as [rel|x] eqn:Hrel; cbv beta iota; [|by apply Hback].
    apply wp_bind, wp_db_onward; [|intros e6 _ He6; apply Hback; by transitivity e5]. intros e6 He6 _. cbv beta iota. apply wp_bind, wp_get. cbv beta iota.
    destruct (name_taken s y name id) eqn:Hfree; [apply wp_throw, Hback; by transitivity e5|]. apply wp_bind, wp_modify. cbv beta iota.
    assert (He06 : onward e e6) by by transitivity e5. eapply wp_mono; [by apply (wp_rename_file pure id r y name rel t s e e6)|].
    intros res s' e' H'. exact (Htail res s' e6 e' He06 H').
  - apply wp_ret. cbv beta iota. apply wp_bind, wp_db_onward; [|intros e6 _ He6; apply Hback; by transitivity e5]. intros e6 He6 _. cbv beta iota. apply wp_bind, wp_get. cbv beta iota.
    destruct (name_taken s y name id) eqn:Hfree; [apply wp_throw, Hback; by transitivity e5|]. apply wp_bind, wp_modify. cbv beta iota.
    assert (He06 : onward e e6) by by transitivity e5. eapply wp_mono; [apply (wp_rename_dir pure id r y name t s e e6); try done; by destruct (NodeType r)|].
    intros res s' e' H'. exact (Htail res s' e6 e' He06 H').
Qed.

(** ** [Delete] *)

(** [s'] has everything of [s] that live nodes of [s'] own. *)
Lemma ws_spared pure s s' e e' : ws_ok pure s e -> nodes s' = nodes s -> inodes s' = inodes s -> onward e e' ->
  (forall k r, live_row s k = Some r -> NodeType r = FileNode ->
     blobs s' !! (storage_folder (ParentID r), k) = blobs s !! (storage_folder (ParentID r), k) /\ storage_folder (ParentID r) ∈ folders s') ->
  ws_ok pure s' e'.
Proof.
  intros Hs Hn Hi [He _] Hown. pose proof Hs as [H1' H2' H3' H4' Hv' H5' H6']. assert (Hl : forall k, live_row s' k = live_row s k) by (intros; by apply live_row_nodes).
  split.
  - rewrite Hn. intros k r Hk. destruct (H1' k r Hk) as (Hid & n & Hlt & ->). split; [done|]. exists n. split; [|done]. destruct He. lia.
  - intros i. rewrite Hi. eapply bounded_le; [exact H2'|done].
  - intros k r. rewrite Hl. intros Hr. destruct (H3' k r Hr) as [Hp|(p & Hp & Ht)]; [by left|]. right. exists p. by rewrite Hl.
  - intros k r. rewrite Hl. intros Hr. destruct (H4' k r Hr) as [l Hc]. exists l. eapply chain_transfer; [|exact Hc]. intros x rx _ Hx. exists rx. by rewrite Hl.
  - intros k r. rewrite Hl. apply Hv'.
  - intros k1 r1 k2 r2. rewrite !Hl. apply H5'.
  - intros k r. rewrite Hl. intros Hr Ht. destruct (H6' k r Hr Ht) as [F1 F2 (i & c & [Hbi Hic] & Hc)]. destruct (Hown k r Hr Ht) as [Hb Hf].
    split; [done|done|]. exists i, c. split; [|done]. rewrite Hb, Hi. done.
Qed.

(** Live nodes below one of [ids] are among [ids]. *)
Definition closed (s : Store) (ids : list string) : Prop := forall k r, live_row s k = Some r -> ParentID r ∈ ids -> k ∈ ids.

Lemma live_mark t ids s k : live_row (mark_deleted t ids s) k = if decide (k ∈ ids) then None else live_row s k.
Proof.
  unfold live_row, mark_deleted. cbn [nodes set_nodes]. rewrite map_lookup_imap. destruct (nodes s !! k) as [r|]; cbn; [|by case_decide].
  case_decide as Hk; [|by rewrite bool_decide_eq_false_2]. rewrite bool_decide_eq_true_2 by done. cbn. by destruct (live r) eqn:Hr; cbn; [|rewrite Hr].
Qed.
Lemma mark_id t ids s k r : nodes (mark_deleted t ids s) !! k = Some r -> exists r0, nodes s !! k = Some r0 /\ NodeID r = NodeID r0.
Proof.
  unfold mark_deleted. cbn [nodes set_nodes]. rewrite map_lookup_imap. destruct (nodes s !! k) as [r0|]; cbn; [|done]. intros [= <-]. exists r0. by case_match.
Qed.

Lemma ws_mark pure t ids s s' e e' : ws_ok pure s e -> closed s ids -> nodes s' = nodes (mark_deleted t ids s) -> blobs s' = blobs s -> inodes s' = inodes s ->
  folders s' = folders s -> onward e e' -> ws_ok pure s' e'.
Proof.
  intros Hs Hc Hn Hb Hi Hf [He _]. pose proof Hs as [H1' H2' H3' H4' Hv' H5' H6'].
  assert (Hl : forall k, live_row s' k = if decide (k ∈ ids) then None else live_row s k).
  { intros k. rewrite <- (live_mark t ids s k). by apply live_row_nodes. }
  assert (Hlive : forall k r, live_row s' k = Some r -> (k ∉ ids) /\ live_row s k = Some r) by (intros k r; rewrite Hl; by case_decide).
  assert (Hstay : forall k r p, live_row s' k = Some r -> live_row s (ParentID r) = Some p -> live_row s' (ParentID r) = Some p).
  { intros k r p [Hk Hr]%Hlive Hp. rewrite Hl, decide_False; [done|]. intros Hin. by destruct Hk; apply (Hc k r). }
  split.
  - rewrite Hn. intros k r (r0 & Hk & ->)%mark_id. destruct (H1' k r0 Hk) as (Hid & n & Hlt & ->). split; [done|]. exists n. split; [|done]. destruct He. lia.
  - intros i. rewrite Hi. eapply bounded_le; [exact H2'|done].
  - intros k r Hr. pose proof (Hlive _ _ Hr) as [_ Hr']. destruct (H3' k r Hr') as [Hp|(p & Hp & Ht)]; [by left|]. right. exists p. eauto.
  - intros k r Hr. pose proof (Hlive _ _ Hr) as [Hk Hr']. destruct (H4' k r Hr') as [l Hch]. exists l. clear r Hr Hr'.
    induction Hch as [|k r0 l Hr0 Hch IH]; [constructor|]. econstructor; [by rewrite Hl, decide_False|]. apply IH.
    intros Hin. by destruct Hk; apply (Hc k r0).
  - intros k r [_ Hr]%Hlive. by apply (Hv' k).
  - intros k1 r1 k2 r2 [_ Hr1]%Hlive [_ Hr2]%Hlive. by apply H5'.
  - intros k r [_ Hr]%Hlive Ht. destruct (H6' k r Hr Ht) as [F1 F2 (i & c & [Hbi Hic] & Hcc)]. split; [done|by rewrite Hf|].
    exists i, c. split; [|done]. by rewrite Hb, Hi.
Qed.

Lemma subtree_closed pure s e id : ws_ok pure s e -> closed s (subtree live s id).
Proof.
  intros Hs k r Hr Hp. pose proof (ok_forest _ _ _ Hs) as Hf. destruct (ok_chain _ _ _ Hs _ _ Hr) as [l Hc]. pose proof Hc as Hc0.
  inversion Hc as [|? r' l' Hr' Hc']; subst; [by apply (live_nonempty s Hf) in Hr as [? _]|]. rewrite Hr in Hr'. injection Hr' as <-.
  apply (subtree_spec s Hf _ _ _ Hc') in Hp as [n Hu]. apply (subtree_spec s Hf _ _ _ Hc0). exists (S n). by econstructor.
Qed.

Lemma children_none s id k r : children_of s id = [] -> live_row s k = Some r -> ParentID r <> id.
Proof.
  intros Hnil [Hk Hd]%live_row_Some Hp. unfold children_of in Hnil. pose proof (merge_sort_Permutation listed_before (live_rows s (fun r => bool_decide (ParentID r = id)))) as Hperm.
  rewrite Hnil in Hperm. apply Permutation_nil in Hperm. assert (Hin : r ∈ live_rows s (fun r => bool_decide (ParentID r = id))).
  { unfold live_rows. apply list_elem_of_filter. split; [unfold live; by rewrite !bool_decide_eq_true_2|]. apply list_elem_of_fmap. exists (k, r). split; [done|by apply elem_of_map_to_list]. }
  rewrite Hperm in Hin. set_solver.
Qed.

Lemma single_closed pure s e id r : ws_ok pure s e -> live_row s id = Some r -> (NodeType r = DirectoryNode -> children_of s id = []) -> closed s [id].
Proof.
  intros Hs Hr Hd k rk Hk Hp. apply list_elem_of_singleton in Hp. exfalso. pose proof (ok_forest _ _ _ Hs) as Hf.
  destruct (ok_parent _ _ _ Hs _ _ Hk) as [Hp0|(p & Hp0 & Ht)].
  - apply (live_nonempty s Hf) in Hr as [Hne _]. congruence.
  - rewrite Hp, Hr in Hp0. injection Hp0 as <-. by apply (children_none s id k rk (Hd Ht)).
Qed.

(** What is removed belongs to nodes that are no longer live. *)
Definition unowned (s : Store) (target : string * string) : Prop :=
  forall k r, live_row s k = Some r -> NodeType r = FileNode -> (storage_folder (ParentID r), k) <> target.
Definition unowned_folder (s : Store) (d : string) : Prop :=
  forall k r, live_row s k = Some r -> NodeType r = FileNode -> storage_folder (ParentID r) <> d.

Lemma ws_remove_blob pure s e e' p : ws_ok pure s e -> onward e e' -> unowned s p -> ws_ok pure (remove_blob p s) e'.
Proof.
  intros Hs He Hu. apply (ws_spared pure s _ e); [done..|]. intros k r Hr Ht. cbn [blobs folders remove_blob set_blobs]. split.
  - apply lookup_delete_ne. intros Heq. by apply (Hu k r).
  - apply (file_folder _ _ _ _ (ok_files _ _ _ Hs _ _ Hr Ht)).
Qed.
Lemma ws_remove_folder pure s e e' d : ws_ok pure s e -> onward e e' -> unowned_folder s d -> ws_ok pure (remove_all_folder d s) e'.
Proof.
  intros Hs He Hu. apply (ws_spared pure s _ e); [done..|]. intros k r Hr Ht. specialize (Hu k r Hr Ht).
  cbn [blobs folders remove_all_folder set_blobs set_folders]. split.
  - rewrite map_lookup_filter. destruct (blobs s !! _) as [i|]; cbn; [|done]. by rewrite option_guard_True.
  - pose proof (file_folder _ _ _ _ (ok_files _ _ _ Hs _ _ Hr Ht)). set_solver.
Qed.

Lemma wp_targets (id : string) (recursive : bool) ids (Q : result ws_error (list string * list string) -> Store -> env -> Prop) s e :
  ids = (if recursive then subtree live s id else [id]) ->
  (forall x e', onward e e' -> Q (Err x) s e') ->
  (forall paths dirs e', onward e e' ->
    (forall p, p ∈ paths -> exists k r, k ∈ ids /\ live_row s k = Some r /\ NodeType r = FileNode /\ p = RelativePath r) ->
    (forall d, d ∈ dirs -> exists k r, k ∈ ids /\ live_row s k = Some r /\ NodeType r = DirectoryNode /\ d = NodeID r) -> Q (Ok (paths, dirs)) s e') ->
  wp (deletionStorageTargets id recursive) Q s e.
Proof.
  intros Hids HE HO. unfold deletionStorageTargets. apply wp_bind, wp_db_onward; [|intros e1 _ He1; by apply HE]. intros e1 He1 _. cbv beta iota.
  apply wp_bind, wp_get. cbv beta iota zeta. rewrite <- Hids. clear Hids.
  assert (Hin : forall r, r ∈ omap (live_row s) ids -> exists k, k ∈ ids /\ live_row s k = Some r) by (intros r (k & Hk & Hr)%list_elem_of_omap; eauto).
  apply wp_ret, HO; [done| |].
  - intros p [_ Hp]%list_elem_of_filter. apply list_elem_of_fmap in Hp as (r & -> & [Ht Hr]%list_elem_of_filter). destruct (Hin r Hr) as (k & Hk & Hl). eauto 8.
  - intros d (r & -> & [Ht Hr]%list_elem_of_filter)%list_elem_of_fmap. destruct (Hin r Hr) as (k & Hk & Hl). eauto 8.
Qed.

Lemma unowned_target pure s s1 e t ids k r target : ws_ok pure s e -> nodes s1 = nodes (mark_deleted t ids s) -> k ∈ ids -> live_row s k = Some r -> NodeType r = FileNode ->
  storagePath (RelativePath r) = Ok target -> unowned s1 target.
Proof.
  intros Hs Hn Hk Hr Ht Htarget k' r' Hr' _. pose proof (file_path _ _ _ _ (ok_files _ _ _ Hs _ _ Hr Ht)) as Hp. rewrite (storagePath_rel _ _ _ Hp) in Htarget.
  injection Htarget as <-. intros [= _ ->]. rewrite (live_row_nodes (mark_deleted t ids s) s1), live_mark, decide_True in Hr' by done. done.
Qed.

Lemma unowned_dir pure s s1 e t ids k r : ws_ok pure s e -> closed s ids -> nodes s1 = nodes (mark_deleted t ids s) -> k ∈ ids -> live_row s k = Some r -> unowned_folder s1 (NodeID r).
Proof.
  intros Hs Hc Hn Hk Hr k' r' Hr' _ Heq. rewrite (live_row_nodes (mark_deleted t ids s) s1), live_mark in Hr' by done. case_decide as Hk'; [done|].
  pose proof Hr as [Hrow _]%live_row_Some. destruct (ok_id _ _ _ _ _ Hs Hrow) as (Hid & _ & Hne & Hroot). rewrite Hid in Heq. unfold storage_folder in Heq.
  case_bool_decide; [by rewrite <- Heq in Hroot|]. destruct Hk'. apply (Hc k' r'); [done|by rewrite Heq].
Qed.

(** The loops over what was collected. *)
Lemma wp_sweep {A} (f : A -> wop unit) (l : list A) pure s e : ws_ok pure s e ->
  (forall x s' e', x ∈ l -> nodes s' = nodes s -> ws_ok pure s' e' -> wp (f x) (fun _ s'' e'' => nodes s'' = nodes s' /\ ws_ok pure s'' e'') s' e') ->
  wp (for_each f l) (fun _ s' e' => nodes s' = nodes s /\ ws_ok pure s' e') s e.
Proof.
  intros Hs Hf. apply (wp_for_each f l (fun s' e' => nodes s' = nodes s /\ ws_ok pure s' e')); [done|]. intros x s' e' Hx [Hn Hs'].
  eapply wp_mono; [by apply Hf|]. cbv beta. intros _ s2 e2 [Hn2 Hs2]. split; [congruence|done].
Qed.

Lemma wp_delete_rows t (id : string) (recursive : bool) ids s e (Q : result ws_error unit -> Store -> env -> Prop) :
  ids = (if recursive then subtree live s id else [id]) ->
  (forall x s' e', onward e e' -> blobs s' = blobs s -> inodes s' = inodes s -> folders s' = folders s -> Q (Err x) s' e') ->
  (forall s' e', onward e e' -> nodes s' = nodes (mark_deleted t ids s) -> blobs s' = blobs s -> inodes s' = inodes s -> folders s' = folders s -> Q (Ok tt) s' e') ->
  wp (_ ← (if recursive then
             _ ← db DbFailed; _ ← modify (fun s => mark_deleted t (subtree live s id) s);
             _ ← db DbFailed; modify (fun s => set_fts s (filter (fun x => x.1 ∉ subtree (fun _ => true) s id) (fts s)))
           else
             _ ← db DbFailed; _ ← modify (mark_deleted t [id]);
             _ ← db DbFailed; modify (fun s => set_fts s (filter (fun x => x.1 <> id) (fts s))));
      db DbFailed) Q s e.
Proof.
  intros -> HE HO. apply wp_bind. destruct recursive.
  all: apply wp_bind, wp_db_onward; [|intros e1 _ He1; by apply HE]; intros e1 He1 _; cbv beta iota; apply wp_bind, wp_modify; cbv beta iota.
  all: apply wp_bind, wp_db_onward; [|intros e2 _ He2; apply HE; [by transitivity e1|done..]]; intros e2 He2 _; cbv beta iota; apply wp_modify; cbv beta iota.
  all: assert (He02 : onward e e2) by (by transitivity e1).
  all: apply wp_db_onward; [|intros e3 _ He3; apply HE; [by transitivity e2|done..]]; intros e3 He3 _; apply HO; [by transitivity e2|done..].
Qed.

Lemma delete_sweep pure t ids s s1 e e1 paths dirs : ws_ok pure s e -> closed s ids -> ws_ok pure s1 e1 -> nodes s1 = nodes (mark_deleted t ids s) ->
  (forall p, p ∈ paths -> exists k r, k ∈ ids /\ live_row s k = Some r /\ NodeType r = FileNode /\ p = RelativePath r) ->
  (forall d, d ∈ dirs -> exists k r, k ∈ ids /\ live_row s k = Some r /\ NodeType r = DirectoryNode /\ d = NodeID r) ->
  wp (_ ← for_each remove_stored paths; _ ← for_each (fun d => modify (remove_all_folder d)) dirs; refreshNamed) (fun _ => ws_ok pure) s1 e1.
Proof.
  intros Hs Hc Hs1 Hn Hpaths Hdirs. apply wp_bind. eapply wp_mono; [apply (wp_sweep remove_stored paths pure s1 e1 Hs1)|].
  { intros p s2 e2 Hp Hn2 Hs2. destruct (Hpaths p Hp) as (k & r & Hk & Hr & Ht & ->). unfold remove_stored. apply wp_bind, wp_lift.
    destruct (storagePath (RelativePath r)) as [target|x] eqn:Htarget; cbv beta iota; [|done]. apply wp_modify. split; [done|].
    apply (ws_remove_blob pure s2 e2); [done|done|]. by apply (unowned_target pure s s2 e t ids k r); [|congruence|..]. }
  cbv beta. intros [[]|x] s2 e2 [Hn2 Hs2]; [|done]. apply wp_bind. eapply wp_mono; [apply (wp_sweep _ dirs pure s2 e2 Hs2)|].
  { intros d s3 e3 Hd Hn3 Hs3. destruct (Hdirs d Hd) as (k & r & Hk & Hr & Ht & ->). apply wp_modify. split; [done|].
    apply (ws_remove_folder pure s3 e3); [done|done|]. by apply (unowned_dir pure s s3 e t ids k r); [| |congruence|..]. }
  cbv beta. intros [[]|x] s3 e3 [Hn3 Hs3]; [|done]. apply wp_refresh; [apply Hs3|]. intros s4 e4 Hp4 Hb4 He4. by apply (ws_projected pure s3 s4 e3 e4).
Qed.

Lemma delete_ws pure id v recursive s e : ws_ok pure s e -> wp (Delete id v recursive) (fun _ => ws_ok pure) s e.
Proof.
  intros Hs. unfold Delete. apply wp_bind, wp_Get; [intros x e1 He1; by eapply ws_onward|]. intros node e1 He1 Hr. cbv beta iota.
  assert (Hs1 : ws_ok pure s e1) by by eapply ws_onward. destruct ((0 <? v) && _); [by apply wp_throw|].
  set (ids := if recursive then subtree live s id else [id]).
  enough (Hrest : forall e2, onward e1 e2 -> closed s ids -> wp (
    '(storagePaths, directoryIDs) ← deletionStorageTargets id recursive;
    _ ← transaction (
      t ← stamp;
      _ ← (if recursive then
             _ ← db DbFailed; _ ← modify (fun s => mark_deleted t (subtree live s id) s);
             _ ← db DbFailed; modify (fun s => set_fts s (filter (fun x => x.1 ∉ subtree (fun _ => true) s id) (fts s)))
           else
             _ ← db DbFailed; _ ← modify (mark_deleted t [id]);
             _ ← db DbFailed; modify (fun s => set_fts s (filter (fun x => x.1 <> id) (fts s))));
      db DbFailed);
    _ ← for_each remove_stored storagePaths;
    _ ← for_each (fun d => modify (remove_all_folder d)) directoryIDs;
    refreshNamed) (fun _ => ws_ok pure) s e2).
  { apply wp_bind. destruct recursive; cbn [negb andb]; [rewrite andb_false_r; apply wp_ret, Hrest; [done|by eapply subtree_closed]|].
    rewrite andb_true_r. case_bool_decide as Ht; [|apply wp_ret, Hrest; [done|by eapply single_closed]].
    apply wp_bind, wp_db_onward; [|intros e2 _ He2; by eapply ws_onward]. intros e2 He2 _. cbv beta iota. apply wp_bind, wp_get. cbv beta iota.
    case_bool_decide; [|apply wp_throw; by eapply ws_onward]. apply wp_ret, Hrest; [done|by eapply single_closed]. }
  intros e2 He2 Hc. assert (Hs2 : ws_ok pure s e2) by by eapply ws_onward. apply wp_bind, (wp_targets id recursive ids); [done|intros x e3 He3; by eapply ws_onward|].
  intros paths dirs e3 He3 Hpaths Hdirs. cbv beta iota. assert (Hs3 : ws_ok pure s e3) by by eapply ws_onward.
  apply wp_bind, wp_transaction; [intros e4 He4; by eapply ws_onward|]. intros e4 He4. apply wp_bind, wp_row_stamp. intros t e5 He5. cbv beta iota.
  assert (He35 : onward e3 e5) by by transitivity e4. apply (wp_delete_rows t id recursive ids); [done| |].
  - intros x s6 e6 He6 Hb Hi Hf. apply (ws_restored pure s e3); [done| |by transitivity e5]. split; [|split; [done|by rewrite Hf]]. intros k r _ _. by rewrite Hb.
  - intros s6 e6 He6 Hn Hb Hi Hf. apply (delete_sweep pure t ids s s6 e3 e6); try done. apply (ws_mark pure t ids s s6 e3 e6); try done. by transitivity e5.
Qed.
End tree.

(** ** The users of a workspace *)

#[local] Open Scope Z_scope.

Inductive ws_call :=
  | WGet (id : string) | WList (parent : string) | WBreadcrumbs (id : string) | WResolve (ref : string) | WWalk (ids : list string)
  | WRead (id : string) (offset limit : Z) | WSearch (query parent : string) (limit : Z) | WStats
  | WCreate (parent name : string) | WWrite (req : WriteRequest) | WDuplicate (id parent name : string)
  | WRename (id parent name : string) (version : Z) | WDelete (id : string) (version : Z) (recursive : bool)
  | WReconcile
  | WProgram (path : list string) (change : option string).       (* a program writes or removes a file *)

Definition by_program (c : ws_call) : bool := match c with WProgram _ _ => true | _ => false end.

Section calls.
Context `{U : Unicode} `{P : Platform} `{I : NodeIds} `{D : Disk} `{M : MapRange}.
Abbreviation wop := (io Store ws_error).

(** A program under the projection writes through the inode that is there. *)
Definition program_step (path : list string) (change : option string) : wop unit :=
  s ← get;
  match change with
  | None => modify (fun s => set_named s (delete path (named s)))
  | Some c =>
      match named s !! path with
      | Some NamedDir => throw DiskFailed
      | Some (NamedFile i) => modify (fun s => set_inodes s (alter (fun _ => c) i (inodes s)))
      | None => n ← draw; modify (fun s => set_named (set_inodes s (<[n := c]> (inodes s))) (<[path := NamedFile n]> (named s)))
      end
  end.

Definition perform (c : ws_call) : wop unit :=
  match c with
  | WGet id => _ ← Get id; mret tt
  | WList p => _ ← List_ p; mret tt
  | WBreadcrumbs id => _ ← Breadcrumbs id; mret tt
  | WResolve ref => _ ← ResolveRef ref; mret tt
  | WWalk ids => _ ← Walk ids; mret tt
  | WRead id a b => _ ← Read id a b; mret tt
  | WSearch q p l => _ ← Search q p l; mret tt
  | WStats => _ ← Stats; mret tt
  | WCreate p n => _ ← CreateDirectory p n; mret tt
  | WWrite req => _ ← Write req; mret tt
  | WDuplicate id p n => _ ← Duplicate id p n; mret tt
  | WRename id p n v => _ ← Rename id p n v; mret tt
  | WDelete id v r => Delete id v r
  | WReconcile => _ ← ReconcileNamed; mret tt
  | WProgram path change => program_step path change
  end.

(** Whatever the calls return, the next one is made. *)
Definition serve (calls : list ws_call) : wop unit := for_each (fun c => ignore (perform c)) calls.

(** ** The calls keep the invariant *)

Lemma wp_mapM {A B} (f : A -> wop B) l (Inv : Store -> env -> Prop) s e :
  Inv s e -> (forall x s e, Inv s e -> wp (f x) (fun _ => Inv) s e) -> wp (mapM f l) (fun _ => Inv) s e.
Proof.
  intros HI Hf. revert s e HI. induction l as [|x l IH]; intros s e HI; cbn [mapM]; [done|]. apply wp_bind.
  eapply wp_mono; [by apply Hf|]. cbv beta. intros [y|z] s' e' HI'; [|done]. apply wp_bind. eapply wp_mono; [by apply IH|].
  cbv beta. by intros [ys|z] s2 e2 HI2.
Qed.

Lemma wp_then {A B} (m : wop A) (f : A -> wop B) (Inv : Store -> env -> Prop) s e :
  wp m (fun _ => Inv) s e -> (forall a s e, Inv s e -> wp (f a) (fun _ => Inv) s e) -> wp (m ≫= f) (fun _ => Inv) s e.
Proof. intros Hm Hf. apply wp_bind. eapply wp_mono; [exact Hm|]. cbv beta. intros [a|x] s' e' HI; auto. Qed.

Lemma read_ws pure {A} (m : wop A) s e : reads m -> ws_ok pure s e -> wp m (fun _ => ws_ok pure) s e.
Proof. intros Hm Hs. eapply wp_reads; [exact Hm|]. intros _ e' He'. by eapply ws_onward. Qed.

Lemma write_ws pure req s e : ws_ok pure s e -> wp (Write req) (fun _ => ws_ok pure) s e.
Proof. intros Hs. eapply wp_mono; [by apply (write_spec pure)|]. by cbv beta; intros r s' e' [? _]. Qed.

Lemma duplicate_ws pure id p n s e : ws_ok pure s e -> wp (Duplicate id p n) (fun _ => ws_ok pure) s e.
Proof.
  intros Hs. unfold Duplicate. apply wp_then; [apply read_ws; [apply reads_Read|done]|]. intros [node c] s' e' Hs'. by apply write_ws.
Qed.

Lemma dirs_ws pure dirs : forall parent s e, ws_ok pure s e -> wp (ensure_dirs parent dirs) (fun _ => ws_ok pure) s e.
Proof.
  induction dirs as [|d rest IH]; intros parent s e Hs; cbn [ensure_dirs]; [by apply wp_ret|].
  apply wp_then; [by apply read_ws; [apply reads_db|]|]. intros _ s1 e1 Hs1. apply wp_bind, wp_get. cbv beta iota.
  destruct (find_child s1 parent d) as [r|]; [case_decide; [by apply IH|by apply wp_throw]|].
  apply wp_then; [by apply create_ws|]. intros node s2 e2 Hs2. by apply IH.
Qed.

Lemma ingest_ws pure rel c s e : ws_ok pure s e -> wp (ingestNamedFile rel c) (fun _ => ws_ok pure) s e.
Proof.
  intros Hs. unfold ingestNamedFile. apply wp_then; [by apply dirs_ws|]. intros parent s1 e1 Hs1. cbv zeta.
  apply wp_then; [by apply read_ws; [apply reads_db|]|]. intros _ s2 e2 Hs2. apply wp_bind, wp_get. cbv beta iota.
  destruct (find_child s2 parent _) as [r|]; [case_decide; [by apply write_ws|by apply wp_throw]|]. by apply write_ws.
Qed.

Lemma wp_attempt_ws pure {A} (m : wop A) s e : wp m (fun _ => ws_ok pure) s e -> wp (attempt m) (fun _ => ws_ok pure) s e.
Proof. intros Hm. by apply wp_attempt. Qed.

Lemma reconcile_file_ws pure x s e : ws_ok pure s e -> wp (reconcile_file x) (fun _ => ws_ok pure) s e.
Proof.
  intros Hs. destruct x as [[rel id] c]. unfold reconcile_file. case_bool_decide.
  - apply wp_then; [by apply ingest_ws|]. intros node s1 e1 Hs1. by apply wp_ret.
  - apply wp_then; [apply wp_attempt_ws, read_ws; [apply reads_Get|done]|]. intros [node|x] s1 e1 Hs1; [|by apply wp_ret].
    destruct (decide (NodeType (Row node) = FileNode)); [|by apply wp_ret]. destruct (bool_decide _ && _); [by apply wp_ret|]. apply wp_then; [by apply write_ws|]. intros node' s2 e2 Hs2. by apply wp_ret.
Qed.

Lemma ws_paused pure s e b : ws_ok pure s e -> ws_ok pure (set_paused s b) e.
Proof. intros Hs. apply (ws_kept pure s _ e e); [done|by split|apply Hs|reflexivity|done]. Qed.

Lemma refresh_ws pure s e : ws_ok pure s e -> wp refreshNamed (fun _ => ws_ok pure) s e.
Proof. intros Hs. apply wp_refresh; [apply Hs|]. intros s' e' Hp Hb He. by apply (ws_projected pure s s' e e'). Qed.

Lemma reconcile_ws pure s e : ws_ok pure s e -> wp ReconcileNamed (fun _ => ws_ok pure) s e.
Proof.
  intros Hs. unfold ReconcileNamed. apply wp_bind, wp_get. cbv beta iota. apply wp_bind, wp_modify. cbv beta iota.
  apply (wp_then _ _ (ws_ok pure)).
  { apply wp_attempt_ws, (wp_mapM _ _ (ws_ok pure)); [by apply ws_paused|]. intros x s1 e1 Hs1. by apply reconcile_file_ws. }
  intros r s1 e1 Hs1. apply wp_bind, wp_modify. cbv beta iota. apply wp_then; [by apply refresh_ws, ws_paused|]. intros _ s2 e2 Hs2. by destruct r.
Qed.

Lemma ws_weaken (p q : nat -> Prop) s e : (forall i, q i -> p i) -> ws_ok p s e -> ws_ok q s e.
Proof.
  intros Hpq [H1' H2' H3' H4' Hv' H5' H6']. split; try done. intros k r Hr Ht. destruct (H6' k r Hr Ht) as [F1 F2 (i & c & Hc & Hpure)].
  split; [done|done|]. exists i, c. split; [done|]. auto.
Qed.

(** A program may change what a file holds, not where it stands. *)
Lemma ws_edited (p q : nat -> Prop) s s' e e' : ws_ok p s e -> nodes s' = nodes s -> blobs s' = blobs s -> folders s' = folders s ->
  (forall i c, inodes s !! i = Some c -> exists c', inodes s' !! i = Some c' /\ (q i -> p i /\ c' = c)) -> bounded s' e' -> env_le e e' -> ws_ok q s' e'.
Proof.
  intros Hs Hn Hb Hf Hi Hbd He. pose proof Hs as [H1' H2' H3' H4' Hv' H5' H6']. assert (Hl : forall k, live_row s' k = live_row s k) by (intros; by apply live_row_nodes).
  split.
  - rewrite Hn. intros k r Hk. destruct (H1' k r Hk) as (Hid & n & Hlt & ->). split; [done|]. exists n. split; [|done]. destruct He. lia.
  - done.
  - intros k r. rewrite Hl. intros Hr. destruct (H3' k r Hr) as [Hp|(d & Hp & Ht)]; [by left|]. right. exists d. by rewrite Hl.
  - intros k r. rewrite Hl. intros Hr. destruct (H4' k r Hr) as [l Hc]. exists l. eapply chain_transfer; [|exact Hc]. intros x rx _ Hx. exists rx. by rewrite Hl.
  - intros k r. rewrite Hl. apply Hv'.
  - intros k1 r1 k2 r2. rewrite !Hl. apply H5'.
  - intros k r. rewrite Hl. intros Hr Ht. destruct (H6' k r Hr Ht) as [F1 F2 (i & c & [Hbi Hic] & Hc)]. destruct (Hi i c Hic) as (c' & Hc' & Hq).
    split; [done|by rewrite Hf|]. exists i, c'. rewrite Hb. split; [done|]. intros Hqi. destruct (Hq Hqi) as [Hpi ->]. auto.
Qed.

(** The file a program writes into. *)
Definition touched (c : ws_call) (s : Store) : gset nat :=
  match c with
  | WProgram path (Some _) => match named s !! path with Some (NamedFile i) => {[i]} | _ => ∅ end
  | _ => ∅
  end.

(** The files that programs have written into when all calls are served. *)
Fixpoint written_into (calls : list ws_call) (s : Store) (e : env) : gset nat :=
  match calls with
  | [] => ∅
  | c :: rest => let '(_, (s', e')) := perform c s e in touched c s ∪ written_into rest s' e'
  end.

Lemma program_ws T path change s e : ws_ok (.∉ T) s e ->
  wp (program_step path change) (fun _ => ws_ok (.∉ T ∪ touched (WProgram path change) s)) s e.
Proof.
  intros Hs. pose proof (ok_bounded _ _ _ Hs) as Hb. unfold program_step, touched. apply wp_bind, wp_get. cbv beta iota. destruct change as [c|].
  2: { apply wp_modify. apply (ws_edited (.∉ T) _ s _ e e); try done. intros i c Hc. exists c. split; [done|set_solver]. }
  destruct (named s !! path) as [[|i]|] eqn:Hp; [apply wp_throw, (ws_weaken (.∉ T)); [set_solver|done]| |].
  - apply wp_modify. apply (ws_edited (.∉ T) _ s _ e e); try done; cbn [inodes set_inodes].
    + intros j d Hj. destruct (decide (i = j)) as [->|Hne]; [rewrite lookup_alter_eq, Hj; exists c; split; [done|set_solver]|].
      rewrite lookup_alter_ne by done. exists d. split; [done|set_solver].
    + intros j. cbn [inodes set_inodes]. rewrite lookup_alter_is_Some. apply Hb.
  - apply wp_bind, wp_draw. intros e1 He1 _ Hf1. cbv beta iota. apply wp_modify, (ws_edited (.∉ T) _ s _ e e1); try done; cbn [inodes set_inodes set_named].
    + intros j d Hj. rewrite lookup_insert_ne; [exists d; split; [done|set_solver]|]. intros <-. assert (is_Some (inodes s !! fresh e)) as Hx%Hb by by exists d. lia.
    + unfold bounded. cbn [inodes set_named set_inodes]. eapply bounded_add; [exact Hb|done|lia].
Qed.

Lemma perform_ws T c s e : ws_ok (.∉ T) s e -> wp (perform c) (fun _ => ws_ok (.∉ T ∪ touched c s)) s e.
Proof.
  intros Hs. destruct c as [| | | | | | | | | | | | | |path change]; try (cbn [touched]; rewrite (right_id_L ∅ (∪) T)); cbn [perform];
    try (apply wp_then; [apply read_ws; [solve [auto with reads nocore]|done]|intros ? s1 e1 Hs1; by apply wp_ret]).
  - apply wp_then; [by apply create_ws|]. intros ? s1 e1 Hs1. by apply wp_ret.
  - apply wp_then; [by apply write_ws|]. intros ? s1 e1 Hs1. by apply wp_ret.
  - apply wp_then; [by apply duplicate_ws|]. intros ? s1 e1 Hs1. by apply wp_ret.
  - apply wp_then; [by apply rename_ws|]. intros ? s1 e1 Hs1. by apply wp_ret.
  - by apply delete_ws.
  - apply wp_then; [by apply reconcile_ws|]. intros ? s1 e1 Hs1. by apply wp_ret.
  - by apply program_ws.
Qed.

Lemma serve_ws calls : forall T s e, ws_ok (.∉ T) s e -> wp (serve calls) (fun _ => ws_ok (.∉ T ∪ written_into calls s e)) s e.
Proof.
  induction calls as [|c rest IH]; intros T s e Hs; [apply wp_ret; cbn; by rewrite (right_id_L ∅ (∪) T)|]. unfold serve. cbn [for_each].
  pose proof (perform_ws T c s e Hs) as Hp. unfold wp in Hp. cbn [written_into]. destruct (perform c s e) as [r [s1 e1]] eqn:Hrun.
  apply wp_bind, wp_ignore. unfold wp. rewrite Hrun. rewrite (assoc_L (∪) T). by apply IH.
Qed.

(** Without programs there is no such file. *)
Lemma no_program calls : forall s e, Forall (fun c => by_program c = false) calls -> written_into calls s e = ∅.
Proof.
  induction calls as [|c rest IH]; intros s e; [done|]. intros [Hc Hrest]%Forall_cons. cbn [written_into]. destruct (perform c s e) as [r [s' e']].
  rewrite IH by done. destruct c; done || set_solver.
Qed.

Lemma new_ws pure e : ws_ok pure NewStore e.
Proof. split; try done. intros i [c Hi]. done. Qed.
End calls.
