(* ===== verification/WorkspaceProps.v ===== *)
(** * The theorems about the workspace

    The virtual path of a node is read back to that node and the names of the
    projection stay inside of it; then the theorems: the forest of nodes and
    their files, writes, what is read, paths and the names of the projection. *)

From S2P Require Import Prelude GoStrings GoPath Io Tables GoText WsDisk WsDiskSpec Workspace WorkspaceSpec WorkspaceTree.
From Stdlib Require Import Ascii.
#[local] Open Scope Z_scope.

(** ** Text *)

Definition path_byte (b : Z) : bool := segment_byte b || (b =? 37).

Lemma segment_byte_range b : segment_byte b = true -> 36 <= b <= 126.
Proof.
  unfold segment_byte, alnum. intros [H|H%bool_decide_eq_true]%orb_true_iff; [lia|].
  rewrite !elem_of_cons in H. set_solver by lia.
Qed.
Lemma path_byte_range b : path_byte b = true -> 36 <= b <= 126 /\ b <> 47 /\ b <> 92.
Proof.
  unfold path_byte. intros Hb. assert (Hr : 36 <= b <= 126) by (apply orb_true_iff in Hb as [Hb|Hb]; [by apply segment_byte_range|lia]).
  split; [done|]. by split; intros ->.
Qed.

Lemma Replace_absent c new s : no_byte c s = true -> Replace [(String c "", new)] s = s.
Proof.
  unfold Replace. induction s as [|a s IH]; [done|]. cbn [no_byte]. intros [Ha%negb_true_iff%bool_decide_eq_false Hs]%andb_true_iff.
  cbn [replace_from first_match find has_prefix fst]. destruct (decide (c = a)) as [->|Hne]; [done|]. rewrite bool_decide_eq_false_2 by done. cbn [andb]. by rewrite IH.
Qed.

Lemma substring_tail p t : String.substring (String.length p) (String.length (p +:+ t) - String.length p) (p +:+ t) = t.
Proof.
  induction p as [|a p IH]; [cbn; rewrite Nat.sub_0_r; apply substring_all|]. rewrite string_app_cons. cbn [String.length]. exact IH.
Qed.
Lemma trim_prefix_app p t : trim_prefix (p +:+ t) p = t.
Proof. unfold trim_prefix. rewrite (proj2 (has_prefix_spec _ _)) by eauto. apply substring_tail. Qed.

Lemma all_bytes_join p l : p 47 = true -> Forall (fun x => all_bytes p x = true) l -> all_bytes p (join l "/") = true.
Proof.
  intros Hp. induction 1 as [|x l Hx Hl IH]; [done|]. destruct l as [|y l]; [done|].
  change (join (x :: y :: l) "/") with (x +:+ "/" +:+ join (y :: l) "/"). rewrite !all_bytes_app, Hx, IH. change (all_bytes p "/") with (p 47 && true). by rewrite Hp.
Qed.

Lemma trim_slashes s : all_bytes (fun b => b <? 128) s = true ->
  (exists a t, s = String a t /\ a <> slash) -> (exists t a, s = t +:+ String a "" /\ a <> slash) -> trim_chars (String slash s) [47] = s.
Proof.
  intros Hs (a & t & Hat & Ha) (t' & z & Htz & Hz). unfold trim_chars. assert (Hcut : forall c, c <> slash -> bool_decide (byte_val c ∈ [47]) = false).
  { intros c Hc. apply bool_decide_eq_false. intros Hin%list_elem_of_singleton. apply Hc. by rewrite <- (byte_of_val c), Hin. }
  change (String slash s) with ("/" +:+ s). rewrite segments_app_ascii by done. rewrite (segments_ascii s Hs). set (cut := fun p : Z * string => bool_decide (p.1 ∈ [47])).
  assert (Hskip : forall a l, a <> slash -> drop_while cut (byte_seg a :: l) = byte_seg a :: l) by (intros a' l Ha'; cbn [drop_while]; unfold cut at 1; cbn [fst byte_seg]; by rewrite Hcut).
  assert (Hd : drop_while cut (segments "/" ++ (byte_seg <$> chars s)) = byte_seg <$> chars s).
  { transitivity (drop_while cut (byte_seg <$> chars s)); [reflexivity|]. rewrite Hat. by apply Hskip. }
  rewrite Hd. assert (Hd2 : drop_while cut (reverse (byte_seg <$> chars s)) = reverse (byte_seg <$> chars s)).
  { rewrite Htz. assert (Hch : chars (t' +:+ String z "") = chars t' ++ [z]) by (clear; induction t' as [|b t' IH]; [done|]; rewrite string_app_cons; cbn; by rewrite IH).
    rewrite Hch, fmap_app, reverse_app. by apply Hskip. }
  rewrite Hd2, reverse_involutive. apply bytes_of_chars.
Qed.

Lemma last_byte s : s <> "" -> exists t a, s = t +:+ String a "".
Proof.
  induction s as [|a s IH]; [done|]. intros _. destruct (decide (s = "")) as [->|Hs]; [by exists "", a|].
  destruct (IH Hs) as (t & z & ->). exists (String a t), z. done.
Qed.
Lemma join_last x l : exists t, join (l ++ [x]) "/" = t +:+ x.
Proof.
  induction l as [|y l [t IH]]; [by exists ""|]. destruct (l ++ [x]) as [|z l'] eqn:Hl; [by destruct l|].
  cbn [app]. rewrite Hl. change (join (y :: z :: l') "/") with (y +:+ "/" +:+ join (z :: l') "/"). exists (y +:+ "/" +:+ t). rewrite IH, !string_app_assoc. done.
Qed.

(** What [ResolveLegacyPath] makes of the text of a virtual path. *)
Lemma legacy_text segs : segs <> [] -> Forall (fun x => x <> "" /\ all_bytes path_byte x = true) segs ->
  trim_chars (trim_prefix (trim_space (backslash_to_slash (VirtualRoot +:+ "/" +:+ join segs "/"))) VirtualRoot) [47] = join segs "/" /\
  split_byte slash (join segs "/") = segs /\ join segs "/" <> "".
Proof.
  intros Hne Hall. set (p := join segs "/"). set (q := fun b => path_byte b || (b =? 47)).
  assert (Hq : all_bytes q p = true).
  { apply all_bytes_join; [done|]. eapply Forall_impl; [exact Hall|]. intros x [_ Hx]. eapply all_bytes_impl; [|exact Hx]. unfold q. by intros b ->. }
  assert (Hrange : forall b, q b = true -> 36 <= b <= 126 /\ b <> 92).
  { unfold q. intros b [Hb|Hb]%orb_true_iff; [pose proof (path_byte_range b Hb)|]; lia. }
  assert (Hends : forall x, x <> "" -> all_bytes path_byte x = true -> (exists a t, x = String a t /\ a <> slash) /\ exists t a, x = t +:+ String a "" /\ a <> slash).
  { intros x Hx Hb. assert (Hsl : forall a, path_byte (byte_val a) = true -> a <> slash) by (intros a Ha ->; done). split.
    - destruct x as [|a t]; [done|]. cbn in Hb. apply andb_true_iff in Hb as [Ha _]. eauto.
    - destruct (last_byte x Hx) as (t & a & ->). rewrite all_bytes_app in Hb. apply andb_true_iff in Hb as [_ Ha]. cbn in Ha. rewrite andb_true_r in Ha. eauto. }
  assert (Hfirst : exists a t, p = String a t /\ a <> slash).
  { destruct segs as [|x l]; [done|]. inversion Hall as [|? ? [Hx Hb] _]; subst. destruct (Hends x Hx Hb) as [(a & t & -> & Ha) _].
    unfold p. destruct l as [|y l]; [by exists a, t|].
    change (join (String a t :: y :: l) "/") with (String a t +:+ "/" +:+ join (y :: l) "/"). rewrite string_app_cons. by eexists _, _. }
  assert (Hlast : exists t a, p = t +:+ String a "" /\ a <> slash).
  { destruct (exists_last Hne) as (l & x & ->). apply Forall_app in Hall as [_ Hx]. inversion Hx as [|? ? [Hx0 Hb] _]; subst.
    destruct (Hends x Hx0 Hb) as [_ (t & a & Hxa & Ha)]. destruct (join_last x l) as [t' Hj]. exists (t' +:+ t), a. split; [|done].
    unfold p. by rewrite Hj, Hxa, string_app_assoc. }
  assert (Hfull : all_bytes q (VirtualRoot +:+ "/" +:+ p) = true) by (by rewrite !all_bytes_app, Hq).
  split; [|split].
  - unfold backslash_to_slash. rewrite Replace_absent.
    2: { clear -Hfull Hrange. induction (VirtualRoot +:+ "/" +:+ p) as [|a s IH]; [done|]. cbn [all_bytes no_byte] in *. apply andb_true_iff in Hfull as [Ha Hs].
         rewrite (IH Hs), andb_true_r. apply negb_true_iff, bool_decide_eq_false. intros ->. destruct (Hrange _ Ha). done. }
    unfold trim_space. rewrite trim_fixed.
    2: { eapply all_bytes_impl; [|exact Hfull]. intros b Hb. destruct (Hrange b Hb) as [Hr _]. unfold seg_space, is_space. cbn [fst]. lia. }
    rewrite trim_prefix_app. change ("/" +:+ p) with (String slash p). apply trim_slashes; [|done|done].
    eapply all_bytes_impl; [|exact Hq]. intros b Hb. destruct (Hrange b Hb). lia.
  - destruct segs as [|x l]; [done|]. apply split_join. eapply Forall_impl; [exact Hall|]. intros y [_ Hy]. clear -Hy.
    induction y as [|a y IH]; [done|]. cbn [all_bytes no_byte] in *. apply andb_true_iff in Hy as [Ha Hy]. rewrite (IH Hy), andb_true_r.
    apply negb_true_iff, bool_decide_eq_false. by intros ->.
  - destruct Hfirst as (a & t & -> & _). done.
Qed.

(** ** Up and down the tree *)

Section paths.
Context `{U : Unicode} `{P : Platform} `{I : NodeIds} `{D : Disk} `{M : MapRange}.
Abbreviation wop := (io Store ws_error).

Lemma db_calm (x : ws_error) (s : Store) e : faults e = [] -> db x s e = (Ok tt, (s, e)).
Proof. intros He. unfold db. by rewrite He. Qed.

(** The names on the way up, escaped. *)
Definition trail (s : Store) (l : list string) : list string := (fun k => PathEscape (default "" (NodeName <$> live_row s k))) <$> l.

Lemma ancestry_calm s e fuel : faults e = [] -> forall k l seen acc segs,
  (forall k r, nodes s !! k = Some r -> NodeID r = k /\ k <> "") -> chain s k l ->
  ancestry fuel k seen acc s e = (Ok segs, (s, e)) -> segs = reverse (trail s l) ++ acc.
Proof.
  intros He. induction fuel as [|n IH]; intros k l seen acc segs Hf Hc; cbn [ancestry]; [by intros [=]|]. case_bool_decide as Hk.
  { intros [= <-]. inversion Hc as [|? r l' Hr]; subst; [done|]. by apply (live_nonempty s Hf) in Hr as [? _]. }
  case_bool_decide; [by intros [=]|]. unfold mbind at 1, io_bind at 1. rewrite db_calm by done. cbn [mbind io_bind get].
  inversion Hc as [|? r l' Hr Hc']; subst; [done|]. unfold mbind at 1, io_bind at 1. cbn [get]. rewrite Hr.
  destruct (_ <? _)%nat; [by intros [=]|]. intros Hrun. apply (IH _ l') in Hrun; [|done|done]. rewrite Hrun.
  assert (Ht : trail s (k :: l') = PathEscape (NodeName r) :: trail s l') by (unfold trail; cbn [fmap list_fmap]; by rewrite Hr).
  by rewrite Ht, reverse_cons, <- app_assoc.
Qed.

Fixpoint down (s : Store) (p : string) (ks : list string) : Prop :=
  match ks with [] => True | k :: ks' => (exists r, live_row s k = Some r /\ ParentID r = p) /\ down s k ks' end.

Lemma last_default {A} (x : A) l a b : List.last (x :: l) a = List.last (x :: l) b.
Proof. revert x. induction l as [|y l IH]; intros x; [done|]. exact (IH y). Qed.
Lemma down_snoc s p ks k r : down s p ks -> live_row s k = Some r -> ParentID r = List.last ks p -> down s p (ks ++ [k]).
Proof.
  revert p. induction ks as [|x ks IH]; intros p Hd Hk Hp; cbn in *; [eauto|]. destruct Hd as [Hx Hd]. split; [done|]. apply IH; [done|done|].
  rewrite Hp. destruct ks as [|y ks]; [done|]. apply (last_default y ks).
Qed.
Lemma chain_down s k l : chain s k l -> down s "" (reverse l) /\ List.last (reverse l) "" = k.
Proof.
  induction 1 as [|k r l Hr Hc [IH1 IH2]]; [done|]. rewrite reverse_cons. split; [apply (down_snoc _ _ _ _ r); congruence|by apply last_last].
Qed.

Lemma find_child_live pure s e k r : ws_ok pure s e -> live_row s k = Some r -> find_child s (ParentID r) (NodeName r) = Some r.
Proof.
  intros Hs Hr. unfold find_child. set (l := live_rows s _).
  assert (Hall : forall r', r' ∈ l <-> exists k', live_row s k' = Some r' /\ ParentID r' = ParentID r /\ NodeName r' = NodeName r).
  { intros r'. unfold l, live_rows. rewrite list_elem_of_filter, list_elem_of_fmap, !andb_true_iff, !bool_decide_eq_true. split.
    - intros [(Hl & Hp & Hn) ([k' r2] & -> & Hk'%elem_of_map_to_list)]. cbn in *. exists k'. split; [|done]. apply live_row_Some. split; [done|]. unfold live in Hl. by apply bool_decide_eq_true in Hl.
    - intros (k' & [Hk' Hd]%live_row_Some & Hp & Hn). split; [split; [unfold live; by apply bool_decide_eq_true|done]|]. exists (k', r'). split; [done|by apply elem_of_map_to_list]. }
  assert (Hin : r ∈ l) by (apply Hall; eauto). destruct l as [|r' l'] eqn:Hl; [set_solver|]. cbn. f_equal.
  destruct (proj1 (Hall r')) as (k' & Hk' & Hp & Hn); [left|]. assert (k' = k) as -> by by eapply (ok_names _ _ _ Hs). congruence.
Qed.

Lemma descend_calm pure s e0 e ks : ws_ok pure s e0 -> faults e = [] -> forall p last k r, down s p (ks ++ [k]) -> live_row s k = Some r ->
  descend p last (trail s (ks ++ [k])) s e = (Ok (Some r), (s, e)).
Proof.
  intros Hs He. assert (Hstep : forall x rx p last rest, live_row s x = Some rx -> ParentID rx = p ->
    descend p last (trail s (x :: rest)) s e = descend x (Some rx) (trail s rest) s e).
  { intros x rx p last rest Hx Hp. unfold trail. cbn [fmap list_fmap descend]. rewrite escape_roundtrip, Hx. cbn [fmap option_fmap option_map default].
    unfold mbind at 1, io_bind at 1. rewrite db_calm by done. unfold mbind at 1, io_bind at 1. cbn [get]. cbn [option_map option_fmap default from_option id].
    rewrite <- Hp, (find_child_live pure s e0 x) by done. by rewrite (proj2 (live_nonempty s (ok_forest _ _ _ Hs) _ _ Hx)). }
  induction ks as [|x ks IH]; intros p last k r Hd Hk; cbn [app down] in *.
  - destruct Hd as [(r' & Hr' & Hp) _]. rewrite Hk in Hr'. injection Hr' as <-. by rewrite (Hstep k r).
  - destruct Hd as [(rx & Hx & Hp) Hd]. rewrite (Hstep x rx) by done. by apply IH.
Qed.

Lemma ancestry_gone s e n k segs s' e' : faults e = [] -> k <> "" -> live_row s k = None -> ancestry (S n) k [] [] s e <> (Ok segs, (s', e')).
Proof.
  intros He Hk Hr. cbn [ancestry]. rewrite bool_decide_eq_false_2 by done. rewrite bool_decide_eq_false_2 by set_solver.
  unfold mbind at 1, io_bind at 1. rewrite db_calm by done. unfold mbind at 1, io_bind at 1. cbn [get]. by rewrite Hr.
Qed.

#[local] Opaque maxDepth.
Lemma VirtualPath_calm pure s e0 e id path : ws_ok pure s e0 -> faults e = [] -> id <> "" -> VirtualPath id s e = (Ok path, (s, e)) ->
  exists l r, chain s id (id :: l) /\ live_row s id = Some r /\ path = VirtualRoot +:+ "/" +:+ join (trail s (reverse (id :: l))) "/".
Proof.
  intros Hs He Hid. unfold VirtualPath. rewrite bool_decide_eq_false_2 by done. unfold mbind, io_bind. destruct (ancestry _ _ _ _ s e) as [[segs|x] [s' e']] eqn:Ha; [|by intros [=]].
  intros [= <- -> ->]. destruct (live_row s id) as [r|] eqn:Hr.
  - destruct (ok_chain _ _ _ Hs _ _ Hr) as [l Hc]. inversion Hc as [|? r' l' Hr' Hc']; subst; [done|]. exists l', r. split; [done|]. split; [done|].
    apply (ancestry_calm _ _ _ He _ (id :: l')) in Ha; [|exact (ok_forest _ _ _ Hs)|done]. rewrite Ha, app_nil_r. unfold trail. by rewrite fmap_reverse.
  - exfalso. by apply (ancestry_gone s e (S maxDepth) id segs s e).
Qed.

Lemma trail_segments pure s e l : ws_ok pure s e -> (forall k, k ∈ l -> exists r, live_row s k = Some r) -> Forall (fun x => x <> "" /\ all_bytes path_byte x = true) (trail s l).
Proof.
  intros Hs Hl. apply Forall_fmap, Forall_forall. intros k Hk. destruct (Hl k Hk) as [r Hr]. cbn. rewrite Hr. cbn. split; [|apply escape_bytes].
  apply escape_nonempty. pose proof (ok_valid _ _ _ Hs _ _ Hr) as Hv. intros Hn. by rewrite Hn in Hv.
Qed.

Lemma legacy_calm pure s e0 e id path r : ws_ok pure s e0 -> faults e = [] -> live_row s id = Some r -> VirtualPath id s e = (Ok path, (s, e)) ->
  ResolveLegacyPath path s e = (Ok (mkNode r path (lookupExecPath s id)), (s, e)).
Proof.
  intros Hs He Hr Hpath. pose proof (ok_forest _ _ _ Hs) as Hf. destruct (live_nonempty s Hf _ _ Hr) as [Hid Hrid].
  destruct (VirtualPath_calm _ _ _ _ _ _ Hs He Hid Hpath) as (l & r' & Hc & Hr' & Htext). rewrite Hr in Hr'. injection Hr' as <-.
  assert (Hsegs : Forall (fun x => x <> "" /\ all_bytes path_byte x = true) (trail s (reverse (id :: l)))).
  { eapply trail_segments; [done|]. intros k Hk. rewrite elem_of_reverse in Hk. by apply (chain_live s Hf id (id :: l)). }
  destruct (legacy_text (trail s (reverse (id :: l)))) as (Htrim & Hsplit & Hne); [rewrite reverse_cons; unfold trail; rewrite fmap_app; by destruct (_ <$> reverse l)|done|].
  unfold ResolveLegacyPath. rewrite Htext, Htrim, bool_decide_eq_false_2 by done. rewrite Hsplit, <- Htext.
  destruct (chain_down _ _ _ Hc) as [Hd _]. rewrite reverse_cons in Hd |- *. unfold mbind at 1, io_bind at 1. rewrite (descend_calm pure s e0 e _ Hs He "" None id r Hd Hr).
  unfold attachDerivedPaths. rewrite Hrid. unfold mbind at 1, io_bind at 1. unfold attempt. rewrite Hpath. done.
Qed.
End paths.

(** ** Names of the projection *)

Definition ends_with (a : ascii) (s : string) : Prop := exists t, s = t +:+ String a "".

Lemma snoc_inj t1 t2 a b : t1 +:+ String a "" = t2 +:+ String b "" -> t1 = t2 /\ a = b.
Proof.
  revert t2. induction t1 as [|x t1 IH]; intros [|y t2]; rewrite ?string_app_cons.
  - by intros [= ->].
  - intros [= _ Hx]. by destruct t2.
  - intros [= _ Hx]. by destruct t1.
  - intros [= -> Hx]. by destruct (IH t2 Hx) as [-> ->].
Qed.
Lemma ends_app a x y : y <> "" -> ends_with a (x +:+ y) -> ends_with a y.
Proof.
  intros Hy [t Ht]. destruct (last_byte y Hy) as (t' & z & ->). rewrite <- string_app_assoc in Ht. apply snoc_inj in Ht as [_ ->]. by exists t'.
Qed.
Lemma ends_all a (p : Z -> bool) s : ends_with a s -> all_bytes p s = true -> p (byte_val a) = true.
Proof. intros [t ->]. rewrite all_bytes_app. cbn. rewrite andb_true_r. by intros [_ ?]%andb_true_iff. Qed.

Lemma encode_rune_nonempty r : encode_rune r <> "".
Proof. unfold encode_rune. repeat case_match; done. Qed.

Lemma trim_right_front s cutset : exists t, s = trim_right s cutset +:+ t.
Proof.
  unfold trim_right. destruct (drop_while_drop (fun q => bool_decide (q.1 ∈ cutset)) (reverse (segments s))) as [n ->].
  rewrite reverse_drop, reverse_involutive. set (k := (length (reverse (segments s)) - n)%nat). exists (bytes_of (drop k (segments s))).
  by rewrite <- bytes_of_app, take_drop, bytes_of_segments.
Qed.

Lemma trim_right_ends s cutset r : 0 <= r < 128 -> r ∈ cutset -> ~ ends_with (byte_of r) (trim_right s cutset).
Proof.
  intros Hr Hcut. unfold trim_right. pose proof (drop_while_head (fun q : Z * string => bool_decide (q.1 ∈ cutset)) (reverse (segments s))) as Hhead.
  destruct (drop_while_drop (fun q : Z * string => bool_decide (q.1 ∈ cutset)) (reverse (segments s))) as [n Hn]. rewrite Hn in *. clear Hn.
  destruct (drop n (reverse (segments s))) as [|q l] eqn:Hd; [intros [[|? ?] Ht]; done|]. apply bool_decide_eq_false in Hhead. rewrite reverse_cons, bytes_of_app.
  assert (Hq : q ∈ segments s) by (apply elem_of_reverse; rewrite <- (take_drop n (reverse (segments s))), Hd; set_solver).
  pose proof (segments_whole s) as Hw. rewrite Forall_forall in Hw. specialize (Hw q Hq).
  pose proof (runes_scalar s) as Hsc. rewrite Forall_forall in Hsc. assert (Hqs : scalar q.1) by (apply Hsc; unfold runes; apply list_elem_of_fmap; eauto).
  assert (Hb : bytes_of [q] = q.2) by (unfold bytes_of; cbn; apply string_app_nil_r). rewrite Hb. intros He. apply ends_app in He.
  2: { destruct Hw as [->|(b & -> & _)]; [apply encode_rune_nonempty|done]. }
  assert (Hrv : byte_val (byte_of r) = r) by (apply byte_val_of; lia).
  destruct Hw as [Hw|(b & -> & Hb2)].
  - rewrite Hw in He. destruct (decide (q.1 < 128)) as [Hlt|Hge].
    + rewrite (encode_low _ Hqs Hlt) in He. destruct He as [t Ht]. change (String (byte_of q.1) "") with ("" +:+ String (byte_of q.1) "") in Ht.
      apply snoc_inj in Ht as [_ Ht]. apply (f_equal byte_val) in Ht. rewrite Hrv in Ht. rewrite byte_val_of in Ht by (destruct Hqs; lia). by rewrite Ht in Hhead.
    + pose proof (ends_all _ _ _ He (encode_high _ Hqs ltac:(lia))) as Hx. rewrite Hrv in Hx. lia.
  - cbn in He. destruct He as [t Ht]. change (String b "") with ("" +:+ String b "") in Ht. apply snoc_inj in Ht as [_ ->]. lia.
Qed.

(** No control byte and none of the bytes that file systems refuse. *)
Definition refused_bytes : list Z := [34; 42; 47; 58; 60; 62; 63; 92; 124].
Definition ok_byte (b : Z) : bool := (32 <=? b) && negb (bool_decide (b ∈ refused_bytes)).

Record safe_component (limit : Z) (x : string) : Prop := {
  safe_bytes : all_bytes ok_byte x = true;
  safe_dot : x <> ".";
  safe_dots : x <> "..";
  safe_length : len x <= limit }.

Section names.
Context `{U : Unicode} `{D : Disk}.

Lemma safe_rune_bytes r : scalar r -> all_bytes ok_byte (encode_rune (safe_rune r)) = true.
Proof.
  intros Hr. unfold safe_rune. destruct (bool_decide (r = 0) || (r <? 32) || _) eqn:Hp; [reflexivity|]. destruct (bool_decide (r ∈ forbidden_runes)) eqn:Hf; [reflexivity|].
  destruct (decide (r < 128)) as [Hlt|Hge].
  - rewrite (encode_low r Hr Hlt). cbn [all_bytes]. destruct Hr as [Hr _]. rewrite byte_val_of, andb_true_r by lia. unfold ok_byte.
    assert (Hf' : bool_decide (r ∈ refused_bytes) = false) by (apply bool_decide_eq_false; apply bool_decide_eq_false in Hf; intros Hin; apply Hf; unfold refused_bytes, forbidden_runes in *; rewrite !elem_of_cons in *; naive_solver).
    rewrite Hf', andb_true_r. apply Z.leb_le. rewrite !orb_false_iff in Hp. lia.
  - eapply all_bytes_impl; [|apply (encode_high r Hr); lia]. intros b Hb%Z.leb_le. unfold ok_byte. apply andb_true_iff. split; [lia|].
    apply negb_true_iff, bool_decide_eq_false. unfold refused_bytes. rewrite !elem_of_cons, elem_of_nil. lia.
Qed.

Lemma safe_runes_bytes l : Forall scalar l -> all_bytes ok_byte (encode_runes (safe_rune <$> l)) = true.
Proof. induction 1 as [|r l Hr Hl IH]; [done|]. unfold encode_runes in *. cbn. by rewrite all_bytes_app, safe_rune_bytes, IH. Qed.

Lemma front_bytes p s x t : s = x +:+ t -> all_bytes p s = true -> all_bytes p x = true.
Proof. intros ->. rewrite all_bytes_app. by intros [? _]%andb_true_iff. Qed.

Lemma take_front n s : exists t, s = take_bytes n s +:+ t /\ (String.length (take_bytes n s) <= n)%nat.
Proof.
  unfold take_bytes. revert n. induction s as [|a s IH]; intros n; [exists ""; destruct n; cbn; split; (done || lia)|].
  destruct n as [|n]; [exists (String a s); split; [done|cbn; lia]|]. destruct (IH n) as (t & Ht & Hl). exists t. cbn [String.substring String.length]. rewrite string_app_cons. split; [by rewrite <- Ht|lia].
Qed.

Lemma split_ext s l r : split_last s (byte_of 46) = Some (l, r) -> ~ ends_with (byte_of 46) s -> r <> "" /\ split_last r (byte_of 46) = None.
Proof.
  intros Hs He. split; [|by eapply split_last_right]. intros ->. apply split_last_Some in Hs. apply He. by exists l.
Qed.

(** A text that ends in no dot is neither of the two. *)
Lemma no_dots x : ~ ends_with (byte_of 46) x -> x <> "." /\ x <> "..".
Proof. intros He. split; intros ->; apply He; [by exists ""|by exists "."]. Qed.

(** The last steps of [sanitizeFSName]. *)
Definition shorten (out ext : string) : string :=
  if 240 <? len out then
    let keepExt := if 16 <? len ext then take_bytes 16 ext else ext in
    trim_right (take_bytes (Z.to_nat (240 - len keepExt)) out) dot_or_space +:+ keepExt
  else out.

Lemma shorten_safe out ext : all_bytes ok_byte out = true -> ~ ends_with (byte_of 46) out -> all_bytes ok_byte ext = true ->
  (ext = "" \/ exists r, ext = String (byte_of 46) r /\ r <> "" /\ split_last r (byte_of 46) = None) -> safe_component 240 (shorten out ext).
Proof.
  intros Hout He Hext Hshape. unfold shorten. destruct (240 <? len out) eqn:Hlen; [|destruct (no_dots _ He); split; [done|done|done|lia]].
  set (keep := if 16 <? len ext then take_bytes 16 ext else ext).
  assert (Hkeep : (exists t, ext = keep +:+ t) /\ len keep <= 16).
  { unfold keep. destruct (16 <? len ext) eqn:H16; [|split; [exists ""; by rewrite string_app_nil_r|lia]]. destruct (take_front 16 ext) as (t & Ht & Hl). split; [by exists t|unfold len; lia]. }
  destruct Hkeep as [[t Ht] Hk]. set (cutted := take_bytes _ out). destruct (take_front (Z.to_nat (240 - len keep)) out) as (t2 & Ht2 & Hl2). fold cutted in Ht2, Hl2.
  destruct (trim_right_front cutted dot_or_space) as [t3 Ht3]. set (x := trim_right cutted dot_or_space) in *.
  pose proof (no_dots x (trim_right_ends cutted dot_or_space 46 ltac:(lia) ltac:(set_solver))) as [Hx1 Hx2].
  assert (Hnd : keep <> "" -> ~ ends_with (byte_of 46) keep).
  { intros Hne. destruct Hshape as [->|(r & -> & Hr & Hnone)]; [by destruct keep|]. destruct keep as [|a k] eqn:Hkeq; [done|].
    rewrite string_app_cons in Ht. injection Ht as <- Hrk. intros [u Hu]. destruct u as [|b u].
    - change ("" +:+ ?y) with y in Hu. injection Hu as ->. assert (Hext1 : String.length keep = 1%nat) by (by rewrite Hkeq). unfold keep in Hext1.
      destruct r as [|z r]; [done|]. destruct (16 <? len _); [|done]. cbn in Hext1. by destruct r.
    - rewrite string_app_cons in Hu. injection Hu as _ Hu. apply (split_last_None_iff r (byte_of 46)); [done|]. exists u, t. by rewrite Hrk, Hu, string_app_assoc. }
  split.
  - rewrite all_bytes_app, (front_bytes _ _ _ _ Ht3), (front_bytes _ _ _ _ Ht); [done|done|]. by eapply front_bytes.
  - destruct (decide (keep = "")) as [->|Hne]; [by rewrite string_app_nil_r|]. intros Heq. apply (Hnd Hne), (ends_app _ x keep Hne). rewrite Heq. by exists "".
  - destruct (decide (keep = "")) as [->|Hne]; [by rewrite string_app_nil_r|]. intros Heq. apply (Hnd Hne), (ends_app _ x keep Hne). rewrite Heq. by exists ".".
  - unfold len. rewrite string_length_app. apply (f_equal String.length) in Ht3. rewrite string_length_app in Ht3. unfold len in *. lia.
Qed.

Lemma sanitize_safe name : safe_component 240 (sanitizeFSName name).
Proof.
  unfold sanitizeFSName. set (n := trim_space name). destruct (_ || _); [split; [done..|vm_compute; congruence]|]. case_bool_decide; [split; [done..|vm_compute; congruence]|].
  pose proof (trim_right_ends (encode_runes (safe_rune <$> runes n)) dot_or_space 46 ltac:(lia) ltac:(set_solver)) as He.
  destruct (trim_right_front (encode_runes (safe_rune <$> runes n)) dot_or_space) as [t Ht].
  pose proof (front_bytes _ _ _ _ Ht (safe_runes_bytes _ (runes_scalar n))) as Hb. set (o := trim_right _ dot_or_space) in *. clearbody o. clear Ht t.
  set (out := if bool_decide (o = "") then "unnamed" else o). assert (Hout : all_bytes ok_byte out = true /\ ~ ends_with (byte_of 46) out).
  { unfold out. case_bool_decide; [|done]. split; [done|]. intros [u Hu]. change "unnamed" with ("unname" +:+ String (byte_of 100) "") in Hu. by apply snoc_inj in Hu as [_ Hu]. }
  clearbody out. clear Hb He o. destruct Hout as [Hb He]. cbv zeta.
  destruct (split_last out (byte_of 46)) as [[l r]|] eqn:Hsplit; [destruct (bool_decide (l = ""))|].
  all: fold (shorten (if bool_decide (to_upper out ∈ windowsReservedNames) then "_" +:+ out else out) "") || idtac.
  all: fold (shorten (if bool_decide (to_upper l ∈ windowsReservedNames) then "_" +:+ out else out) (String (byte_of 46) r)) || idtac.
  all: assert (Hpre : forall b : bool, all_bytes ok_byte (if b then "_" +:+ out else out) = true /\ ~ ends_with (byte_of 46) (if b then "_" +:+ out else out))
    by (intros []; [|done]; split; [by rewrite all_bytes_app, Hb|]; intros Hend; destruct (decide (out = "")) as [->|Hne]; [destruct Hend as [u Hu]; change ("_" +:+ "") with ("" +:+ String (byte_of 95) "") in Hu; by apply snoc_inj in Hu as [_ Hu]|by apply ends_app in Hend]).
  - apply shorten_safe; [apply Hpre|apply Hpre|done|by left].
  - destruct (split_ext _ _ _ Hsplit He) as [Hr Hn]. apply shorten_safe; [apply Hpre|apply Hpre| |right; eauto].
    apply split_last_Some in Hsplit. rewrite Hsplit, all_bytes_app in Hb. by apply andb_true_iff in Hb as [_ Hb].
  - apply shorten_safe; [apply Hpre|apply Hpre|done|by left].
Qed.

Lemma hex_bytes s : all_bytes (fun b => lower_hex b || (b =? 45)) s = true -> all_bytes ok_byte s = true /\ no_byte (byte_of 46) s = true.
Proof.
  intros Hs. split.
  - eapply all_bytes_impl; [|exact Hs]. intros b Hb. unfold lower_hex in Hb. unfold ok_byte. apply andb_true_iff. split; [lia|].
    apply negb_true_iff, bool_decide_eq_false. unfold refused_bytes. rewrite !elem_of_cons, elem_of_nil. lia.
  - induction s as [|a s IH]; [done|]. cbn [all_bytes no_byte] in *. apply andb_true_iff in Hs as [Ha Hs]. rewrite (IH Hs), andb_true_r.
    apply negb_true_iff, bool_decide_eq_false. by intros ->.
Qed.

Lemma Replace_bytes p c s : all_bytes p s = true -> all_bytes p (Replace [(String c "", "")] s) = true.
Proof.
  unfold Replace. induction s as [|a s IH]; [done|]. cbn [all_bytes]. intros [Ha Hs]%andb_true_iff.
  cbn [replace_from first_match find has_prefix fst]. destruct (bool_decide (c = a) && true); cbn [String.length Nat.sub]; [by apply IH|]. cbn [all_bytes]. by rewrite Ha, IH.
Qed.

Lemma unique_safe name id used : canonical_uuid id = true -> safe_component 249 (uniqueExecName name id used).
Proof.
  intros Hid. pose proof (sanitize_safe name) as [H1' H2' H3' H4']. unfold uniqueExecName. set (safe := sanitizeFSName name) in *.
  assert (Hplain : safe_component 249 safe) by (split; [done..|lia]). destruct (used !! safe) as [ex|]; [|done]. case_bool_decide; [done|].
  destruct (take_front 8 (Replace [("-", "")] id)) as (t & Ht & Hl). fold (id_suffix id) in Ht, Hl.
  destruct (hex_bytes (id_suffix id)) as [Hb Hdot].
  { eapply front_bytes; [exact Ht|]. apply (Replace_bytes _ "-"%char). apply split_canonical in Hid as [Hid _]. exact Hid. }
  assert (Hend : ~ ends_with (byte_of 46) (safe +:+ "-" +:+ id_suffix id)).
  { intros He%ends_app; [|done]. destruct He as [u Hu]. apply (f_equal (no_byte (byte_of 46))) in Hu. rewrite !no_byte_app, Hdot in Hu. cbn in Hu. by rewrite andb_false_r in Hu. }
  destruct (no_dots _ Hend) as [Hd1 Hd2]. split; [by rewrite !all_bytes_app, H1', Hb|done|done|].
  unfold len in *. rewrite !string_length_app. cbn [String.length]. lia.
Qed.

Lemma siblings_safe l : Forall (fun r => canonical_uuid (NodeID r) = true) l ->
  forall used, Forall (fun x => canonical_uuid (NodeID x.1) = true /\ safe_component 249 x.2) (name_siblings l used).
Proof.
  induction 1 as [|r l Hr Hl IH]; intros used; cbn [name_siblings]; [constructor|]. constructor; [|apply IH]. split; [done|]. by apply unique_safe.
Qed.

Lemma visit_safe active fuel : Forall (fun r => canonical_uuid (NodeID r) = true) active -> forall parent rel, Forall (safe_component 249) rel ->
  Forall (fun p : string * list string => Forall (safe_component 249) p.2) (visit fuel active parent rel).
Proof.
  intros Hact. induction fuel as [|n IH]; intros parent rel Hrel; cbn [visit]; [constructor|]. apply Forall_forall. intros p Hp.
  apply list_elem_of_bind in Hp as ([r name] & Hp & Hin).
  assert (Hsib : Forall (fun r => canonical_uuid (NodeID r) = true) (siblings active parent)).
  { unfold siblings. rewrite Forall_forall in Hact |- *. intros x Hx. apply Hact. rewrite merge_sort_Permutation in Hx. by apply list_elem_of_filter in Hx as [_ ?]. }
  pose proof (siblings_safe _ Hsib ∅) as Hs. rewrite Forall_forall in Hs. destruct (Hs _ Hin) as [_ Hname]. cbn in Hname.
  set (rel' := if bool_decide (join rel "/" = "") then [name] else rel ++ [name]) in *.
  assert (Hrel' : Forall (safe_component 249) rel') by (unfold rel'; case_bool_decide; [by apply Forall_singleton|apply Forall_app; split; [done|by apply Forall_singleton]]).
  apply elem_of_cons in Hp as [->|Hp]; [done|]. destruct (decide _); [|set_solver]. specialize (IH (NodeID r) rel' Hrel'). rewrite Forall_forall in IH. by apply IH.
Qed.

Lemma exec_safe active : Forall (fun r => canonical_uuid (NodeID r) = true) active ->
  map_Forall (fun _ rel => exists parts, rel = rel_path parts /\ Forall (safe_component 249) parts) (assignExecPaths active).1.
Proof.
  intros Hact id rel Hrel. cbn in Hrel. apply elem_of_list_to_map_2 in Hrel. apply list_elem_of_fmap in Hrel as ([id' parts] & [= -> ->] & Hin).
  exists parts. split; [done|]. pose proof (visit_safe active (S (length active)) Hact "" [] ltac:(constructor)) as Hv. rewrite Forall_forall in Hv. exact (Hv _ Hin).
Qed.
End names.

(** ** The theorems *)

#[local] Open Scope Z_scope.

Section props.
Context `{U : Unicode} `{P : Platform} `{I : NodeIds} `{D : Disk} `{M : MapRange}.
Abbreviation wop := (io Store ws_error).

Lemma serve_kept calls e : wp (serve calls) (fun _ => ws_ok (.∉ written_into calls NewStore e)) NewStore e.
Proof. rewrite <- (left_id_L ∅ (∪) (written_into calls NewStore e)). apply serve_ws, new_ws. Qed.

Lemma wp_serve calls (Q : Store -> env -> Prop) e :
  (forall s e', ws_ok (.∉ written_into calls NewStore e) s e' -> Q s e') -> wp (serve calls) (fun _ => Q) NewStore e.
Proof. intros HQ. eapply wp_mono; [apply serve_kept|]. cbv beta. eauto. Qed.

(** C27. Whatever is called in whatever order, whatever statements fail and
    whatever programs do under the projection of names: the live nodes are a
    forest of directories and files, siblings have different valid names, and
    the file of every live node stands where its row says; unless a program
    wrote into that very file, it holds what its row records. *)
Theorem forest_kept calls e : wp (serve calls) (fun _ => ws_ok (.∉ written_into calls NewStore e)) NewStore e.
Proof. apply serve_kept. Qed.

(** C28. A write leaves every file as it was and reports an error, or it leaves
    the new file or the next version of the one that was there, with the new
    content, and every other file as it was; a stale version is refused. *)
Theorem write_is_atomic calls req e :
  wp (serve calls) (fun _ s e1 => wp (Write req) (fun res s' _ => write_outcome req s res s') s e1) NewStore e.
Proof.
  apply wp_serve. intros s e1 Hs. eapply wp_mono; [by eapply write_spec|]. by cbv beta; intros res s' e2 [_ ?].
Qed.

(** The part of a text that [Read] is asked for. *)
Definition part_of (content : string) (offset limit : Z) : string :=
  let rest := String.substring (Z.to_nat offset) (String.length content - Z.to_nat offset) content in
  if limit =? 0 then rest else take_bytes (Z.to_nat limit) rest.

Lemma substring_min n m s : String.substring n m s = String.substring n (m `min` (String.length s - n))%nat s.
Proof.
  revert n m. induction s as [|a s IH]; intros n m; [by destruct n, m|]. destruct n as [|n]; cbn [String.substring String.length].
  - destruct m as [|m]; [done|]. cbn [Nat.min Nat.sub]. f_equal. rewrite (IH 0%nat m). by rewrite Nat.sub_0_r.
  - apply IH.
Qed.
Lemma take_substring k n m s : take_bytes k (String.substring n m s) = String.substring n (k `min` m)%nat s.
Proof.
  unfold take_bytes. revert k n m. induction s as [|a s IH]; intros k n m; [destruct n, m, k; reflexivity|]. destruct n as [|n]; cbn [String.substring].
  - destruct m as [|m]; [by rewrite Nat.min_0_r; destruct k|]. destruct k as [|k]; [done|]. cbn [Nat.min String.substring]. f_equal. apply IH.
  - apply IH.
Qed.
Lemma substring_past n m s : (String.length s <= n)%nat -> String.substring n m s = "".
Proof. revert n m. induction s as [|a s IH]; intros n m Hn; [by destruct n, m|]. destruct n as [|n]; cbn in *; [lia|]. apply IH. lia. Qed.

Lemma part_spec c offset limit : 0 <= offset < 2 ^ 63 -> 0 <= limit < 2 ^ 63 -> len c < 2 ^ 63 ->
  (if len c <=? offset then "" else
   let l := if (limit =? 0) || (len c <? wrap_int64 (offset + limit)) then len c - offset else limit in
   String.substring (Z.to_nat offset) (Z.to_nat (Z.min l (len c - offset))) c) = part_of c offset limit.
Proof.
  intros Ho Hl Hc. unfold part_of. destruct (len c <=? offset) eqn:Hp.
  { unfold len in Hp. apply Z.leb_le in Hp. rewrite substring_past by lia. by destruct (limit =? 0); [|destruct (Z.to_nat limit)]. }
  apply Z.leb_gt in Hp. cbv zeta. assert (Hlen : String.length c = Z.to_nat (len c)) by (unfold len; lia).
  destruct (limit =? 0) eqn:H0'; cbn [orb]; [rewrite Z.min_id, Hlen; f_equal; lia|]. apply Z.eqb_neq in H0'. rewrite take_substring.
  destruct (len c <? wrap_int64 (offset + limit)) eqn:Hw.
  - apply Z.ltb_lt in Hw. assert (Hsum : len c < offset + limit).
    { unfold wrap_int64 in Hw. destruct (decide (offset + limit < 2 ^ 63)); [rewrite Z.mod_small in Hw by lia; lia|lia]. }
    rewrite Z.min_id, Hlen. f_equal. lia.
  - rewrite Hlen. f_equal. lia.
Qed.

Lemma read_spec s e id offset limit r c : stored s id r c -> storagePath (RelativePath r) = Ok (storage_folder (ParentID r), id) -> SizeBytes r = len c ->
  0 <= offset < 2 ^ 63 -> 0 <= limit < 2 ^ 63 -> len c < 2 ^ 63 ->
  wp (Read id offset limit) (fun res _ _ => forall node t, res = Ok (node, t) -> Row node = r /\ t = part_of c offset limit) s e.
Proof.
  intros (Hr & Ht & i & Hbi & Hic) Hpath Hsize Ho Hl Hc. unfold Read. rewrite (proj2 (Z.ltb_ge offset 0)), (proj2 (Z.ltb_ge limit 0)) by lia. cbn [orb].
  apply wp_bind. unfold Open. apply wp_bind, wp_Get; [by intros|]. intros node e1 _ Hrow. cbv beta iota. rewrite Hr in Hrow. injection Hrow as Hrow. rewrite <- Hrow.
  rewrite decide_True by done. apply wp_bind, wp_lift. rewrite Hpath. cbv beta iota. apply wp_bind, wp_get. cbv beta iota. rewrite Hbi. apply wp_ret. cbv beta iota.
  pose proof (part_spec c offset limit Ho Hl Hc) as Hpart. rewrite <- Hrow, Hsize. destruct (len c <=? offset).
  - apply wp_ret. by intros node' t [= <- <-].
  - cbv zeta in Hpart |- *. apply wp_bind, wp_get. cbv beta iota. rewrite Hic. cbn [default]. apply wp_ret. by intros node' t [= <- <-].
Qed.

(** What was written is what [Read] returns of every range, also of one
    whose end is past the largest integer; the write's node is the one read. *)
Theorem written_is_read calls req e offset limit :
  Forall (fun c => by_program c = false) calls -> len (WContent req) < 2 ^ 63 -> 0 <= offset < 2 ^ 63 -> 0 <= limit < 2 ^ 63 ->
  wp (serve calls) (fun _ s e1 => wp (Write req) (fun res s' e2 => forall node, res = Ok node ->
    wp (Read (NodeID (Row node)) offset limit) (fun r _ _ => forall n t, r = Ok (n, t) -> Row n = Row node /\ t = part_of (WContent req) offset limit)
      s' e2) s e1) NewStore e.
Proof.
  intros Hcalls Hlen Ho Hl. apply wp_serve. intros s e1 Hs. eapply wp_mono; [by apply (write_spec _ req _ _ Hs)|]. cbv beta.
  intros res s' e2 [Hs' Hout] node ->. destruct Hout as [[[x Hx] _]|(r & _ & Hst & _ & Hrow)]; [done|]. specialize (Hrow node eq_refl). rewrite Hrow.
  pose proof Hst as (Hr & Ht & Hc). pose proof (ok_files _ _ _ Hs' _ _ Hr Ht) as [F1 F2 (j & c' & [Hbj Hjc] & Hp)].
  assert (c' = WContent req) as -> by (destruct Hc as (i & Hbi & Hic); congruence).
  apply read_spec; [done|by apply storagePath_rel| |done..]. apply Hp. by rewrite no_program.
Qed.

(** C29. While no statement fails, the path shown for a node leads back to that
    node and to no other, whatever its name and the names above it are. *)
Theorem paths_read_back calls e e2 : faults e2 = [] ->
  wp (serve calls) (fun _ s _ => forall id r path, live_row s id = Some r -> VirtualPath id s e2 = (Ok path, (s, e2)) ->
    ResolveLegacyPath path s e2 = (Ok (mkNode r path (lookupExecPath s id)), (s, e2))) NewStore e.
Proof. intros He2. apply wp_serve. intros s e1 Hs id r path Hr Hp. by eapply (legacy_calm _ s e1 e2). Qed.

(** Every path of the projection is made of names of at most 249 bytes
    without separators, control bytes and the other bytes that file systems
    refuse, none of them a dot or two dots: no name leads out of it. *)
Theorem projection_stays_inside calls e :
  wp (serve calls) (fun _ s _ => map_Forall (fun _ rel => exists parts, rel = rel_path parts /\ Forall (safe_component 249) parts)
    (assignExecPaths (active_nodes s)).1) NewStore e.
Proof.
  apply wp_serve. intros s e1 Hs. apply exec_safe, Forall_forall. intros r Hr. unfold active_nodes, live_rows in Hr.
  apply list_elem_of_filter in Hr as [_ Hr]. apply list_elem_of_fmap in Hr as ([k r'] & -> & Hk%elem_of_map_to_list).
  destruct (ok_id _ _ _ _ _ Hs Hk) as (Hid & Hcan & _). cbn. by rewrite Hid.
Qed.
End props.

(** ** Closed runs *)

Definition demo_ids : list string :=
  (fun n => "00000000-0000-4000-8000-0000000000" +:+ String (upperhex (Z.of_nat n / 10)) (String (upperhex (Z.of_nat n mod 10)) "")) <$> seq 0 90.
Definition demo_uuid (n : nat) : string := default "00000000-0000-4000-8000-0000000000ff" (demo_ids !! n).
Lemma demo_ids_ok (p : string -> bool) n : forallb p demo_ids = true -> p "00000000-0000-4000-8000-0000000000ff" = true -> p (demo_uuid n) = true.
Proof.
  intros Hall Hd. unfold demo_uuid. destruct (demo_ids !! n) as [x|] eqn:Hx; [|done]. rewrite forallb_elem in Hall. apply Hall. by eapply list_elem_of_lookup_2.
Qed.
Lemma demo_canonical n : canonical_uuid (demo_uuid n) = true.
Proof. by apply demo_ids_ok; vm_compute. Qed.
Lemma demo_not_root n : demo_uuid n <> rootFolderID.
Proof.
  pose proof (demo_ids_ok (fun x => negb (bool_decide (x = rootFolderID))) n ltac:(by vm_compute) ltac:(by vm_compute)) as Hn. cbv beta in Hn.
  by apply negb_true_iff, bool_decide_eq_false in Hn.
Qed.

#[local] Existing Instance ascii_tables.
#[local] Existing Instance plain_platform.
#[local] Instance demo_node_ids : NodeIds := {| uuid := demo_uuid; uuid_canonical := demo_canonical; uuid_not_root := demo_not_root |}.
#[local] Instance demo_disk : Disk :=
  {| is_print r := (32 <=? r) && (r <=? 126); print_ascii _ _ := eq_refl; DetectContentType _ := "text/plain"; TypeByExtension _ := ""; format_time t := pretty t;
     hard_links := true; fts_match _ _ := Some false |}.
#[local] Instance demo_order : MapRange := {| range_order _ _ l := l; range_perm _ _ _ := Permutation_refl _ |}.

Definition demo_write (parent name content : string) : WriteRequest := mkWrite "" parent name content "" 0.
Definition demo_calls : list ws_call := [WCreate "" "notes"; WWrite (demo_write (demo_uuid 0) "a/b.txt" "hello")].
Definition demo_state : Store := (serve demo_calls NewStore (calm 100)).2.1.
Definition run_calls (calls : list ws_call) : Store := (serve calls NewStore (calm 100)).2.1.
Definition shown (s : Store) : list (string * string) := (fun kv => (NodeName kv.2, lookupExecPath s kv.1)) <$> map_to_list (nodes s).
Definition held (s : Store) : list (string * string) :=
  (fun kv => (NodeName kv.2, default "" (i ← blobs s !! (storage_folder (ParentID kv.2), kv.1); inodes s !! i))) <$> map_to_list (nodes s).

Example demo_nodes : (shown demo_state, held demo_state) =
  ([("a/b.txt", "notes/a_b.txt"); ("notes", "notes")], [("a/b.txt", "hello"); ("notes", "")]).
Proof. vm_compute. reflexivity. Qed.

Definition demo_edit : WriteRequest := mkWrite (demo_uuid 2) "" "" "good day" "" 1.
Lemma written_is_read_witness :
  Forall (fun c => by_program c = false) demo_calls /\ len (WContent demo_edit) < 2 ^ 63 /\
  wp (serve demo_calls) (fun _ s e1 => wp (Write demo_edit) (fun res s' e2 => forall node, res = Ok node ->
    wp (Read (NodeID (Row node)) 5 0) (fun r _ _ => forall n t, r = Ok (n, t) -> Row n = Row node /\ t = part_of (WContent demo_edit) 5 0)
      s' e2) s e1) NewStore (calm 100).
Proof.
  assert (Hc : Forall (fun c => by_program c = false) demo_calls) by (by repeat constructor). split; [exact Hc|]. split; [by vm_compute|].
  apply (written_is_read demo_calls demo_edit (calm 100) 5 0 Hc); [by vm_compute|lia|lia].
Defined.

Lemma paths_read_back_witness :
  faults (calm 200) = [] /\
  wp (serve demo_calls) (fun _ s _ => forall id r path, live_row s id = Some r -> VirtualPath id s (calm 200) = (Ok path, (s, calm 200)) ->
    ResolveLegacyPath path s (calm 200) = (Ok (mkNode r path (lookupExecPath s id)), (s, calm 200))) NewStore (calm 100).
Proof. split; [reflexivity|]. exact (paths_read_back demo_calls (calm 100) (calm 200) eq_refl). Defined.

(** The hypotheses hold in a run: the edit is written and read, the path with
    an escaped separator leads back. *)
Example demo_edit_read :
  (match Write demo_edit demo_state (calm 200) with
   | (Ok node, (s, e)) => match (Read (NodeID (Row node)) 5 0 s e).1 with Ok (_, t) => t | Err _ => "" end
   | _ => ""
   end) = "day" /\
  (VirtualPath (demo_uuid 2) demo_state (calm 200)).1 = Ok "/data/workspace/notes/a%2Fb.txt" /\
  (match ResolveLegacyPath "/data/workspace/notes/a%2Fb.txt" demo_state (calm 200) with (Ok node, _) => NodeID (Row node) | _ => "" end) = demo_uuid 2.
Proof. vm_compute. done. Qed.

(** A program that writes into one file leaves the others clean, and the next
    version of that file is clean again. *)
Definition two_files : list ws_call := [WWrite (demo_write "" "a" "one"); WWrite (demo_write "" "b" "two"); WProgram ["a"] (Some "edited")].
Definition dirty (calls : list ws_call) : list (string * bool) :=
  let s := run_calls calls in
  (fun kv => (NodeName kv.2, match blobs s !! (storage_folder (ParentID kv.2), kv.1) with
                             | Some i => bool_decide (i ∈ written_into calls NewStore (calm 100)) | None => true end)) <$> map_to_list (nodes s).
Example one_file_touched :
  held (run_calls two_files) = [("b", "two"); ("a", "edited")] /\ dirty two_files = [("b", false); ("a", true)] /\
  dirty (two_files ++ [WWrite (mkWrite (demo_uuid 0) "" "" "three" "" 0)]) = [("b", false); ("a", false)].
Proof. vm_compute. done. Qed.

(** A dot, 240 spaces and a letter make the empty name: the projection of such
    a file is the root itself, which cannot be replaced, and no file after it
    is projected. *)
Definition dot_name : string := "." +:+ String.concat "" (repeat " " 240) +:+ "x".
Example empty_projected_name :
  sanitizeFSName dot_name = "" /\
  map_to_list (named (run_calls [WWrite (demo_write "" "a" "one"); WWrite (demo_write "" dot_name "two"); WWrite (demo_write "" "b" "three")])) =
    [(["a"], NamedFile 1); ([], NamedDir)].
Proof. vm_compute. done. Qed.

(** A name like the one made for a double shares its path, and the next
    reconciliation writes one file over the other. *)
Definition clash : list ws_call := [WWrite (demo_write "" "a_-00000000" "three"); WWrite (demo_write "" "a?" "one"); WWrite (demo_write "" "a*" "two")].
Example shared_path_loses_content :
  shown (run_calls clash) = [("a?", "a_"); ("a*", "a_-00000000"); ("a_-00000000", "a_-00000000")] /\
  held (run_calls clash) = [("a?", "one"); ("a*", "two"); ("a_-00000000", "three")] /\
  held (run_calls (clash ++ [WReconcile])) = [("a?", "one"); ("a*", "three"); ("a_-00000000", "three")].
Proof. vm_compute. done. Qed.

(** A name that only begins like the view of the agents loses that beginning. *)
Example view_prefix_is_cut :
  let s := run_calls [WCreate "" "user-workspace-old"; WWrite (demo_write (demo_uuid 0) "x" "one")] in
  lookupExecPath s (demo_uuid 2) = "user-workspace-old/x" /\ (ResolveRef "user-workspace-old/x" s (calm 200)).1 = Err ErrNotFound.
Proof. vm_compute. done. Qed.

(** An underscore of a query stands for any rune. *)
Example search_wildcard :
  match (Search "10_" "" 0 (run_calls [WCreate "" "100"; WCreate "" "10_"]) (calm 200)).1 with Ok l => (fun n => NodeName (Row n)) <$> l | _ => [] end = ["10_"; "100"].
Proof. vm_compute. reflexivity. Qed.

(** A file whose name is no UTF-8 keeps those after it out. *)
Example bad_name_blocks :
  let s := run_calls [WProgram ["a" +:+ String (byte_of 255) ""] (Some "x"); WProgram ["z"] (Some "y"); WReconcile; WReconcile] in
  (shown s, size (named s)) = ([], 3%nat).
Proof. vm_compute. reflexivity. Qed.
