(* ===== verification/SystemAuth.v ===== *)
(** * Administrator authentication ([internal/auth/system_auth.go], [state.go])

    The row of the administrator's password, sessions in memory, the limit on
    wrong logins, and the states of OAuth flows under way.  [Login] is its
    part up to the row that is read and the part after it: between the two
    other requests are served. *)

From S2P Require Import Prelude GoStrings Io Tables GoText.
From Stdlib Require Import Ascii.
#[local] Open Scope Z_scope.

Definition passwordMinLen : Z := 8.
Definition loginFailLimit : Z := 5.
Definition loginFailWindow : Z := 15 * minute.
Definition sessionValidity : Z := 7 * 24 * hour.

Record AuthRow := mkAuthRow { PasswordHash : string; Salt : string; Initialized : bool }.
Record SessionInfo := mkSession { Token : string; SCreatedAt : Z; SExpiresAt : Z }.

(** [auth_db] is whether the manager has a database; the zero time is [None]. *)
Record SystemAuthManager := mkAuth {
  auth_db : bool; admin : option AuthRow; sessions : gmap string SessionInfo;
  failCount : Z; failWindow : option Z; lockedUntil : option Z }.

Definition set_admin s r := mkAuth (auth_db s) r (sessions s) (failCount s) (failWindow s) (lockedUntil s).
Definition set_sessions s x := mkAuth (auth_db s) (admin s) x (failCount s) (failWindow s) (lockedUntil s).
Definition set_fails s c w l := mkAuth (auth_db s) (admin s) (sessions s) c w l.

Definition NewSystemAuthManager (db : bool) (row : option AuthRow) : SystemAuthManager := mkAuth db row ∅ 0 None None.

Inductive auth_error :=
  | ErrNotInitialized | ErrAlreadyInitialized | ErrInvalidCredentials | ErrPasswordTooShort | ErrTooManyAttempts
  | NoRandomness | AuthDbFailed | NoAdminRow | NilDatabase.      (* the last is a panic *)
#[export] Instance auth_error_eq_dec : EqDecision auth_error.
Proof. solve_decision. Defined.

(** [rand.Read], which may fail, and Argon2id with the parameters of the code,
    as hexadecimal text. *)
Class AuthLib := {
  rand_read : nat -> nat -> option string; argon2_hex : string -> string -> string;
  rand_length d n b : rand_read d n = Some b -> String.length b = n }.

(** ** [encoding/hex] *)

Definition hex_digit (d : Z) : ascii := byte_of (if d <? 10 then 48 + d else 87 + d).
Fixpoint hex_encode (s : string) : string :=
  match s with
  | "" => ""
  | String a s' => String (hex_digit (byte_val a / 16)) (String (hex_digit (byte_val a mod 16)) (hex_encode s'))
  end.
Definition from_hex_digit (a : ascii) : option Z :=
  let b := byte_val a in
  if (48 <=? b) && (b <=? 57) then Some (b - 48)
  else if (97 <=? b) && (b <=? 102) then Some (b - 87)
  else if (65 <=? b) && (b <=? 70) then Some (b - 55)
  else None.
Fixpoint hex_decode (s : string) : option string :=
  match s with
  | "" => Some ""
  | String h (String l s') =>
      match from_hex_digit h, from_hex_digit l, hex_decode s' with
      | Some x, Some y, Some t => Some (String (byte_of (16 * x + y)) t)
      | _, _, _ => None
      end
  | _ => None
  end.

Section auth.
Context `{Platform} `{AuthLib}.
Abbreviation aop := (io SystemAuthManager auth_error).

(** ** Passwords *)

Definition hashPassword (password saltHex : string) : string :=
  let salt := match hex_decode saltHex with Some b => b | None => saltHex end in
  "argon2id$v=19$m=32768,t=1,p=4$" +:+ saltHex +:+ "$" +:+ argon2_hex password salt.
Definition legacySHA256Hash (password salt : string) : string := sha256_hex (salt +:+ password +:+ salt).
Definition isLegacyPasswordHash (stored : string) : bool := negb (has_prefix stored "argon2id$").
Definition passwordMatches (password storedHash salt : string) : bool :=
  let candidate := if isLegacyPasswordHash storedHash then legacySHA256Hash password salt else hashPassword password salt in
  if negb (len candidate =? len storedHash) then false else bool_decide (candidate = storedHash).

Definition random_hex (n : nat) : aop string :=
  d ← draw; match rand_read d n with None => throw NoRandomness | Some b => mret (hex_encode b) end.

Definition persistPassword (password : string) : aop unit :=
  salt ← random_hex 16;
  _ ← db AuthDbFailed;
  modify (fun s => set_admin s ((fun r => mkAuthRow (hashPassword password salt) salt (Initialized r)) <$> admin s)).

(** ** Wrong logins *)

Definition window_over (t : Z) (w : option Z) : bool := match w with Some w => loginFailWindow <? time_sub t w | None => false end.

Definition checkLoginLock : aop unit :=
  t ← now;
  s ← get;
  if match lockedUntil s with Some u => time_before t u | None => false end then throw ErrTooManyAttempts
  else if window_over t (failWindow s) then modify (fun s => set_fails s 0 None (lockedUntil s)) else mret tt.

Definition failed_at (t : Z) (s : SystemAuthManager) : SystemAuthManager :=
  let fresh := match failWindow s with None => true | w => window_over t w end in
  let c := (if fresh then 0 else failCount s) + 1 in
  set_fails s c (if fresh then Some t else failWindow s) (if loginFailLimit <=? c then Some (time_add t loginFailWindow) else lockedUntil s).
Definition recordLoginFailure : aop unit := t ← now; modify (failed_at t).
Definition clearLoginFailures : aop unit := modify (fun s => set_fails s 0 None None).

(** ** Sessions *)

Definition generateSession : aop string :=
  token ← random_hex 32;
  t ← now;
  _ ← modify (fun s => set_sessions s (<[token := mkSession token t (time_add t sessionValidity)]> (sessions s)));
  mret token.

Definition ValidateToken (token : string) : aop bool :=
  if bool_decide (token = "") then mret false
  else
    s ← get;
    match sessions s !! token with
    | None => mret false
    | Some session =>
        t ← now;
        if time_after t (SExpiresAt session) then _ ← modify (fun s => set_sessions s (delete token (sessions s))); mret false
        else mret true
    end.

Definition Logout (token : string) : aop unit := modify (fun s => set_sessions s (delete token (sessions s))).

(** ** Setting up, logging in, changing the password *)

Definition IsInitialized : aop bool :=
  s ← get;
  if negb (auth_db s) then mret false
  else _ ← db AuthDbFailed; s ← get; mret (match admin s with Some r => Initialized r | None => false end).

Definition SetupAdmin (password : string) : aop string :=
  if len password <? passwordMinLen then throw ErrPasswordTooShort
  else
    isInit ← IsInitialized;
    if (isInit : bool) then throw ErrAlreadyInitialized
    else
      salt ← random_hex 16;
      s ← get;
      if negb (auth_db s) then throw NilDatabase
      else
        _ ← db AuthDbFailed;
        _ ← modify (fun s => set_admin s (Some (mkAuthRow (hashPassword password salt) salt true)));
        generateSession.

(** A failed query leaves [isInit] false, so that every failure is answered
    with [ErrNotInitialized]. *)
Definition Login_begin : aop AuthRow :=
  s ← get;
  if negb (auth_db s) then throw ErrNotInitialized
  else
    _ ← checkLoginLock;
    _ ← db ErrNotInitialized;
    s ← get;
    match admin s with None => throw ErrNotInitialized | Some r => mret r end.
Definition Login_finish (password : string) (r : AuthRow) : aop string :=
  if negb (passwordMatches password (PasswordHash r) (Salt r)) then _ ← recordLoginFailure; throw ErrInvalidCredentials
  else
    _ ← clearLoginFailures;
    _ ← (if isLegacyPasswordHash (PasswordHash r) then ignore (persistPassword password) else mret tt);
    generateSession.
Definition Login (password : string) : aop string := r ← Login_begin; Login_finish password r.

Definition ChangePassword (currentPassword newPassword : string) : aop unit :=
  if len newPassword <? passwordMinLen then throw ErrPasswordTooShort
  else
    s ← get;
    if negb (auth_db s) then throw NilDatabase
    else
      _ ← db AuthDbFailed;
      s ← get;
      match admin s with
      | None => throw NoAdminRow
      | Some r => if negb (passwordMatches currentPassword (PasswordHash r) (Salt r)) then throw ErrInvalidCredentials else persistPassword newPassword
      end.
End auth.

(** ** States of OAuth flows *)

Record StateSession := mkState { State : string; Provider : string; CodeVerifier : string; RedirectURI : string; StExpiresAt : Z }.
Record StateStore := mkStates { states : gmap string StateSession; ttl : Z }.
Inductive state_error := ErrInvalidState | StateNoRandomness.

Definition NewStateStore (t : Z) : StateStore := mkStates ∅ (if t <=? 0 then 10 * minute else t).

Section states.
Context `{AuthLib}.
Abbreviation sop := (io StateStore state_error).

Definition GenerateState : sop string := d ← draw; match rand_read d 16 with None => throw StateNoRandomness | Some b => mret (hex_encode b) end.

Definition Save (provider codeVerifier redirectURI : string) : sop string :=
  state ← GenerateState;
  t ← now;
  _ ← modify (fun s => mkStates (<[state := mkState state provider codeVerifier redirectURI (time_add t (ttl s))]> (states s)) (ttl s));
  mret state.

Definition Consume (state : string) : sop StateSession :=
  s ← get;
  match states s !! state with
  | None => throw ErrInvalidState
  | Some session =>
      _ ← modify (fun s => mkStates (delete state (states s)) (ttl s));
      t ← now;
      if time_after t (StExpiresAt session) then throw ErrInvalidState else mret session
  end.

(** One tick of [cleanupLoop]. *)
Definition cleanup : sop unit :=
  t ← now; modify (fun s => mkStates (filter (fun kv : string * StateSession => time_after t (StExpiresAt kv.2) = false) (states s)) (ttl s)).
End states.
