(* ===== verification/SystemAuthSpec.v ===== *)
(** * What the administrator's authentication promises

    Requests are served one after another ([served]); what the caller is told
    and when, is the trace.  Wrong logins are bounded in every span of fifteen
    minutes, the manager refines a vault with one secret and a set of open
    tokens, and a state of an OAuth flow is taken once for each time it was
    issued. *)

From S2P Require Import Prelude GoStrings Io Tables GoText SystemAuth.
From Stdlib Require Import Ascii.
#[local] Open Scope Z_scope.

(** ** Requests in sequence *)

Record entry (C A : Type) := mkEntry { request : C; began : Z; ended : Z; answer : A }.
Arguments mkEntry {C A}. Arguments request {C A}. Arguments began {C A}. Arguments ended {C A}. Arguments answer {C A}.

(** A ghost state carried along a trace. *)
Inductive along {G X} (next : G -> X -> G -> Prop) : G -> list X -> G -> Prop :=
  | along_nil g : along next g [] g
  | along_cons g x g1 l g2 : next g x g1 -> along next g1 l g2 -> along next g (x :: l) g2.

Section served.
Context {S E C A : Type} (run : C -> io S E A).

Fixpoint served (cs : list C) (s : S) (e : env) : list (entry C (result E A)) * (S * env) :=
  match cs with
  | [] => ([], (s, e))
  | c :: cs' =>
      let '(r, (s1, e1)) := run c s e in
      let '(tr, se) := served cs' s1 e1 in (mkEntry c (clock e) (clock e1) r :: tr, se)
  end.

Lemma served_keeps {G} (P : C -> Prop) (I : G -> S -> env -> Prop) (next : G -> entry C (result E A) -> G -> Prop) :
  (forall c g s e, P c -> I g s e ->
     wp (run c) (fun r s' e' => exists g', next g (mkEntry c (clock e) (clock e') r) g' /\ I g' s' e') s e) ->
  forall cs g s e, Forall P cs -> I g s e ->
  exists g', along next g (served cs s e).1 g' /\ I g' (served cs s e).2.1 (served cs s e).2.2.
Proof.
  intros Hstep cs g s e Hcs. revert g s e.
  induction Hcs as [|c cs Hc _ IH]; intros g s e HI; cbn; [exists g; split; [constructor|done]|].
  specialize (Hstep c g s e Hc HI). unfold wp in Hstep. destruct (run c s e) as [r [s1 e1]].
  destruct Hstep as (g1 & Hn & HI1). destruct (IH g1 s1 e1 HI1) as (g2 & Ha & HI2).
  destruct (served cs s1 e1) as [tr [s2 e2]]. exists g2. split; [by econstructor|done].
Qed.
End served.

Inductive acall :=
  | AInit | ASetup (password : string) | ALogin (password : string) | AChange (old new : string)
  | AValidate (token : string) | ALogout (token : string).
Inductive areply := Session (token : string) | Holds (b : bool) | Done.

Section auth.
Context `{Platform} `{AuthLib}.

Definition auth_run (c : acall) : io SystemAuthManager auth_error areply :=
  match c with
  | AInit => b ← IsInitialized; mret (Holds b)
  | ASetup p => t ← SetupAdmin p; mret (Session t)
  | ALogin p => t ← Login p; mret (Session t)
  | AChange p q => _ ← ChangePassword p q; mret Done
  | AValidate t => b ← ValidateToken t; mret (Holds b)
  | ALogout t => _ ← Logout t; mret Done
  end.
Abbreviation aentry := (entry acall (result auth_error areply)).

(** ** How many guesses *)

Definition is_login (c : acall) : bool := match c with ALogin _ => true | _ => false end.
(** The password was wrong. *)
Definition refused (x : aentry) : bool := is_login (request x) && match answer x with Err ErrInvalidCredentials => true | _ => false end.
(** The password was right, whether or not a session could be made. *)
Definition passed (x : aentry) : bool :=
  is_login (request x) && match answer x with Ok _ | Err NoRandomness => true | _ => false end.
Definition guesses (tr : list aentry) (t : Z) : nat :=
  length (filter (fun x => (refused x && (t <? ended x) && (ended x <=? t + loginFailWindow)) = true) tr).

(** The number of instants of [l] in the fifteen minutes after [t]. *)
Definition within_span (t : Z) (l : list Z) : nat :=
  length (filter (fun u => t < u <= t + loginFailWindow) l).

Lemma within_span_app t l l' : within_span t (l ++ l') = (within_span t l + within_span t l')%nat.
Proof. unfold within_span. by rewrite filter_app, length_app. Qed.
Lemma within_span_cons t u l :
  within_span t (u :: l) = ((if decide (t < u <= t + loginFailWindow)%Z then 1 else 0) + within_span t l)%nat.
Proof. unfold within_span. rewrite filter_cons. by destruct (decide _). Qed.
Lemma within_span_le t l : (within_span t l <= length l)%nat.
Proof. apply length_filter. Qed.
Lemma within_span_out t l : (forall u, u ∈ l -> ~ t < u <= t + loginFailWindow) -> within_span t l = 0%nat.
Proof.
  intros Hl. induction l as [|u l IH]; [done|]. rewrite within_span_cons, decide_False by (apply Hl; left).
  apply IH. intros v Hv. apply Hl. by right.
Qed.
Lemma window_over_spec t w : window_over t (Some w) = (w + loginFailWindow <? t).
Proof.
  unfold window_over, time_sub. assert (0 < loginFailWindow < max_int64) as Hw by (vm_compute; done).
  assert (min_int64 < 0) as Hm by done. generalize dependent loginFailWindow. intros W Hw.
  generalize dependent max_int64. generalize dependent min_int64. intros a Ha b Hb.
  destruct (Z.ltb_spec (w + W) t), (Z.ltb_spec W (Z.max a (Z.min b (t - w)))); lia || done.
Qed.

Lemma span_pos : 0 < loginFailWindow.
Proof. done. Qed.

(** After [x], few of the past refusals count. *)
Definition few_after (x : Z) (hist : list Z) : Prop := forall t, x <= t + loginFailWindow -> (within_span t hist <= 3)%nat.

(** The refusals [hist] (newest first) since the window [w] began, and before. *)
Record in_window (w : Z) (hist : list Z) (n : Z) (lock : option Z) : Prop := {
  win_split : exists newest cur old, hist = (newest :: cur) ++ old /\ n = Z.of_nat (length (newest :: cur)) /\
    w ∈ newest :: cur /\ (forall u, u ∈ newest :: cur -> w <= u <= newest) /\ newest <= w + loginFailWindow /\
    (forall u, u ∈ old -> u <= w) /\ few_after w old /\
    (forall t, (within_span t (newest :: cur) <= 5)%nat) /\
    (5 <= n -> lock = Some (newest + loginFailWindow)) /\ (n <= 5 \/ newest = w + loginFailWindow) }.

Record tally (x : Z) (hist : list Z) (s : SystemAuthManager) : Prop := {
  tally_past u : u ∈ hist -> u <= x;
  tally_eight t : (within_span t hist <= 8)%nat;
  tally_window : match failWindow s with
                 | None => few_after x hist
                 | Some w => in_window w hist (failCount s) (lockedUntil s)
                 end }.

Definition unlocked (x : Z) (lock : option Z) : Prop := forall u, lock = Some u -> u <= x.

Lemma few_after_mono x x' hist : x <= x' -> few_after x hist -> few_after x' hist.
Proof. intros Hx Hf t Ht. apply Hf. lia. Qed.

Lemma window_ends w x hist n lock : in_window w hist n lock -> unlocked x lock -> w + loginFailWindow < x -> few_after x hist.
Proof.
  intros [(nw & cur & old & -> & -> & Hw & Hb & Hnw & Hold & Hfew & H5 & Hlock & _)] Hun Hx t Ht.
  rewrite within_span_app, (within_span_out t old), Nat.add_0_r.
  2:{ intros u Hu. specialize (Hold u Hu). lia. }
  destruct (decide (5 <= length (nw :: cur))%nat) as [Hl|Hl].
  - specialize (Hun _ (Hlock ltac:(lia))). rewrite within_span_out; [lia|]. intros u Hu. specialize (Hb u Hu). lia.
  - apply list_elem_of_split in Hw as (l1 & l2 & Heq). rewrite Heq in *.
    rewrite length_app in Hl. cbn in Hl. rewrite within_span_app, within_span_cons, decide_False by lia.
    pose proof (within_span_le t l1). pose proof (within_span_le t l2). lia.
Qed.

Lemma window_opens x hist lock :
  (forall u, u ∈ hist -> u <= x) -> (forall t, (within_span t hist <= 8)%nat) -> few_after x hist ->
  in_window x (x :: hist) 1 lock /\ (forall t, (within_span t (x :: hist) <= 8)%nat).
Proof.
  intros Hpast H8 Hfew. split.
  - constructor. exists x, [], hist. split_and!; try done; try (cbn; lia); try by left.
    + intros u ->%list_elem_of_singleton. lia.
    + pose proof span_pos. lia.
    + intros t. pose proof (within_span_le t [x]). cbn [length] in *. lia.
  - intros t. rewrite within_span_cons. specialize (H8 t). destruct (decide _) as [Ht|Ht]; [|done].
    specialize (Hfew t ltac:(lia)). lia.
Qed.

Lemma window_grows w x hist n lock :
  in_window w hist n lock -> (forall u, u ∈ hist -> u <= x) -> unlocked x lock -> x <= w + loginFailWindow ->
  (forall t, (within_span t hist <= 8)%nat) ->
  in_window w (x :: hist) (n + 1) (if loginFailLimit <=? n + 1 then Some (time_add x loginFailWindow) else lock) /\
  (forall t, (within_span t (x :: hist) <= 8)%nat).
Proof.
  intros [(nw & cur & old & -> & -> & Hw & Hb & Hnw & Hold & Hfew & H5 & Hlock & Hn)] Hpast Hun Hx H8.
  pose proof span_pos as HW. assert (nw <= x) as Hnx by (apply Hpast; left).
  (* five or more: every refusal so far was at [w], and this one is a whole window later *)
  assert ((5 <= length (nw :: cur))%nat -> x = w + loginFailWindow /\ nw = w /\ length (nw :: cur) = 5%nat) as Hfull.
  { intros Hl. specialize (Hun _ (Hlock ltac:(lia))). destruct (Hb nw ltac:(left)). lia. }
  assert (forall t, (within_span t (x :: nw :: cur) <= 5)%nat) as H5'.
  { intros t. rewrite within_span_cons. destruct (decide _) as [Ht|Ht]; [|by apply H5].
    destruct (decide (5 <= length (nw :: cur))%nat) as [Hl|Hl].
    - destruct (Hfull Hl) as (-> & -> & _). rewrite within_span_out; [lia|]. intros u Hu. specialize (Hb u Hu). lia.
    - pose proof (within_span_le t (nw :: cur)). lia. }
  split.
  - constructor. exists x, (nw :: cur), old. split_and!; try done.
    + cbn [length]. lia.
    + by right.
    + intros u [->|Hu]%elem_of_cons; [specialize (Hb nw ltac:(left)); lia|]. specialize (Hb u Hu). lia.
    + intros Hl. unfold loginFailLimit. by rewrite (proj2 (Z.leb_le _ _) Hl).
    + destruct (decide (5 <= length (nw :: cur))%nat) as [Hl|Hl]; [right; by apply Hfull|left; lia].
  - intros t. rewrite within_span_cons. destruct (decide _) as [Ht|Ht]; [|by apply H8].
    rewrite within_span_app. destruct (Hb nw ltac:(left)). specialize (Hfew t ltac:(lia)). specialize (H5' t).
    rewrite within_span_cons, decide_True in H5' by done. lia.
Qed.

Lemma tally_fail x hist s : tally x hist s -> unlocked x (lockedUntil s) -> tally x (x :: hist) (failed_at x s).
Proof.
  intros [Hpast H8 Hwin] Hun. unfold failed_at.
  assert (forall u, u ∈ x :: hist -> u <= x) as Hpast' by (intros u [->|Hu]%elem_of_cons; [lia|auto]).
  destruct (failWindow s) as [w|] eqn:Hw.
  - rewrite window_over_spec. destruct (Z.ltb_spec (w + loginFailWindow) x) as [Hover|Hin].
    + destruct (window_opens x hist (lockedUntil s)) as [Ho Ho8]; [done|done|by eapply window_ends|by split].
    + destruct (window_grows w x hist (failCount s) (lockedUntil s)) as [Hg Hg8]; [done..|]. by split.
  - destruct (window_opens x hist (lockedUntil s)) as [Ho Ho8]; [done|done|done|]. by split.
Qed.
Lemma login_tally_later x x' hist s : x <= x' -> tally x hist s -> tally x' hist s.
Proof.
  intros Hx [Hpast H8 Hwin]. split; [|done|].
  - intros u Hu. specialize (Hpast u Hu). lia.
  - destruct (failWindow s); [done|]. by eapply few_after_mono.
Qed.
Lemma tally_clear x s : failWindow s = None -> tally x [] s.
Proof. intros Hw. split; [set_solver|intros; cbn; lia|]. rewrite Hw. intros t _. cbn. lia. Qed.

(** What the other calls leave. *)
Definition same_fails (s s' : SystemAuthManager) : Prop :=
  failCount s' = failCount s /\ failWindow s' = failWindow s /\ lockedUntil s' = lockedUntil s.
#[local] Instance same_fails_preorder : PreOrder same_fails.
Proof. split; unfold same_fails; repeat intro; naive_solver congruence. Qed.
Lemma tally_same x hist s s' : same_fails s s' -> tally x hist s -> tally x hist s'.
Proof. intros (Hc & Hw & Hl) [? ? Hwin]. split; [done..|]. by rewrite Hw, Hc, Hl. Qed.

Lemma random_hex_spec n (Q : result auth_error string -> SystemAuthManager -> env -> Prop) s e :
  (forall b e', String.length b = n -> onward e e' -> clock e' = clock e -> Q (Ok (hex_encode b)) s e') ->
  (forall e', onward e e' -> Q (Err NoRandomness) s e') -> wp (random_hex n) Q s e.
Proof.
  intros HO HE. unfold random_hex. apply wp_bind, wp_draw_next. cbv beta iota. intros e' He Hc _.
  destruct (rand_read _ n) as [b|] eqn:Hr; [|apply wp_throw; auto].
  apply wp_ret. apply HO; [by eapply rand_length|done|done].
Qed.
Lemma generateSession_spec (Q : result auth_error string -> SystemAuthManager -> env -> Prop) s e :
  (forall b e', String.length b = 32%nat -> onward e e' ->
     Q (Ok (hex_encode b))
       (set_sessions s (<[hex_encode b := mkSession (hex_encode b) (clock e') (time_add (clock e') sessionValidity)]> (sessions s))) e') ->
  (forall e', onward e e' -> Q (Err NoRandomness) s e') -> wp generateSession Q s e.
Proof.
  intros HO HE. unfold generateSession. apply wp_bind, random_hex_spec; cbv beta iota; [|done].
  intros b e1 Hb He1 Hc1. apply wp_bind, wp_now_onward. cbv beta iota. intros e2 He2.
  apply wp_bind, wp_modify. cbv beta iota. apply wp_ret, HO; [done|]. by transitivity e1.
Qed.
Lemma persistPassword_spec p (Q : result auth_error unit -> SystemAuthManager -> env -> Prop) s e :
  (forall b e', String.length b = 16%nat -> onward e e' ->
     Q (Ok tt) (set_admin s ((fun r => mkAuthRow (hashPassword p (hex_encode b)) (hex_encode b) (Initialized r)) <$> admin s)) e') ->
  (forall x e', x = NoRandomness \/ x = AuthDbFailed -> onward e e' -> Q (Err x) s e') -> wp (persistPassword p) Q s e.
Proof.
  intros HO HE. unfold persistPassword. apply wp_bind, random_hex_spec; cbv beta iota; [|auto].
  intros b e1 Hb He1 Hc1. apply wp_bind, wp_db_onward; cbv beta iota.
  - intros e2 He2 _. apply wp_modify, HO; [done|]. by transitivity e1.
  - intros e2 _ He2. apply HE; [auto|]. by transitivity e1.
Qed.

(** The lock is looked at, and an old window closed. *)
Lemma checkLoginLock_tally hist s e : tally (clock e) hist s ->
  wp checkLoginLock (fun r s' e' => onward e e' /\ tally (clock e') hist s' /\ admin s' = admin s /\ sessions s' = sessions s /\
    (r = Ok tt /\ unlocked (clock e') (lockedUntil s') \/ r = Err ErrTooManyAttempts)) s e.
Proof.
  intros Ht. unfold checkLoginLock. apply wp_bind, wp_now_onward. cbv beta iota. intros e' He.
  apply (login_tally_later _ (clock e')) in Ht; [|apply He].
  apply wp_bind, wp_get. cbv beta iota.
  destruct (match lockedUntil s with Some u => time_before (clock e') u | None => false end) eqn:Hl.
  { apply wp_throw. by auto 10. }
  assert (unlocked (clock e') (lockedUntil s)) as Hun.
  { intros u Hu. rewrite Hu in Hl. unfold time_before in Hl. lia. }
  destruct (window_over _ _) eqn:Hw; [apply wp_modify|apply wp_ret; by auto 10].
  split_and!; try done; [|by left]. destruct Ht as [Hp H8 Hwin]. split; [done..|]. cbn.
  destruct (failWindow s) as [w|]; [|done]. rewrite window_over_spec in Hw.
  eapply window_ends; [done|done|lia].
Qed.

Definition counted (g : list Z) (x : aentry) (g' : list Z) : Prop :=
  g' = if passed x then [] else if refused x then ended x :: g else g.

Lemma Login_finish_tally p r hist s e : tally (clock e) hist s -> unlocked (clock e) (lockedUntil s) ->
  wp (Login_finish p r) (fun x s' e' => exists g',
    counted hist (mkEntry (ALogin p) 0 (clock e') (match x with Ok t => Ok (Session t) | Err x => Err x end)) g' /\ tally (clock e') g' s') s e.
Proof.
  intros Ht Hun. unfold Login_finish. destruct (negb _).
  - unfold recordLoginFailure. apply wp_bind, wp_bind, wp_now_onward. cbv beta iota. intros e' He.
    apply wp_modify. cbv beta iota. apply wp_throw. eexists. split; [reflexivity|]. cbn.
    apply tally_fail; [eapply login_tally_later; [apply He|done]|]. intros u Hu. specialize (Hun u Hu). destruct He as [[? _] _]. lia.
  - apply wp_bind. apply wp_modify. cbv beta iota. apply wp_bind.
    eapply (wp_mono _ (fun r s' _ => r = Ok tt /\ failWindow s' = None)).
    { destruct (isLegacyPasswordHash _); [|by apply wp_ret]. by apply wp_ignore, persistPassword_spec. }
    intros ? s' e' [-> Hs']. cbv beta iota.
    apply generateSession_spec; intros; (eexists; split; [reflexivity|by apply tally_clear]).
Qed.

Lemma Login_tally p hist s e : tally (clock e) hist s ->
  wp (Login p) (fun x s' e' => exists g',
    counted hist (mkEntry (ALogin p) 0 (clock e') (match x with Ok t => Ok (Session t) | Err x => Err x end)) g' /\ tally (clock e') g' s') s e.
Proof.
  intros Ht. unfold Login, Login_begin. apply wp_bind, wp_bind, wp_get. cbv beta iota.
  destruct (negb (auth_db s)); [apply wp_throw; by eexists|].
  apply wp_bind. eapply wp_mono; [by apply checkLoginLock_tally|]. cbv beta.
  intros r s1 e1 (_ & Ht1 & _ & _ & [[-> Hun]| ->]); cbv beta iota; [|by eexists].
  apply wp_bind, wp_db_onward; cbv beta iota.
  2:{ intros e2 _ [[He2 _] _]. eexists. split; [reflexivity|]. by eapply login_tally_later. }
  intros e2 _ Hc. rewrite <- Hc in *. apply wp_bind, wp_get. cbv beta iota.
  destruct (admin s1) as [row|]; [|apply wp_throw; by eexists]. apply wp_ret. by apply Login_finish_tally.
Qed.

Lemma wp_reply {A} (m : io SystemAuthManager auth_error A) (f : A -> areply) Q s e :
  wp m (fun r => Q (match r with Ok a => Ok (f a) | Err x => Err x end)) s e -> wp (a ← m; mret (f a)) Q s e.
Proof. intros Hm. apply wp_bind. eapply wp_mono; [exact Hm|]. by intros [a|x] s' e' HQ. Qed.

(** Calls that are not logins do not touch the count. *)
Lemma other_counts c hist s e : is_login c = false -> keeps same_fails (auth_run c) -> quiet (auth_run c) ->
  tally (clock e) hist s ->
  wp (auth_run c) (fun r s' e' => exists g', counted hist (mkEntry c (clock e) (clock e') r) g' /\ tally (clock e') g' s') s e.
Proof.
  intros Hc Hk Hq Ht. eapply wp_and_quiet; [exact Hq|apply Hk|]. cbv beta. intros r s' e' Hs [[He _] _].
  eexists. split; [reflexivity|]. unfold passed, refused. cbn [request answer]. rewrite Hc. cbn.
  eapply tally_same; [done|]. by eapply login_tally_later.
Qed.
Lemma auth_counts c hist s e : tally (clock e) hist s ->
  wp (auth_run c) (fun r s' e' => exists g', counted hist (mkEntry c (clock e) (clock e') r) g' /\ tally (clock e') g' s') s e.
Proof.
  intros Ht. destruct (is_login c) eqn:Hc.
  - destruct c; try done. cbn. apply wp_reply. eapply wp_mono; [by apply Login_tally|]. by intros [t|x].
  - apply other_counts; [done| | |done]; destruct c; try done; cbn;
      unfold IsInitialized, SetupAdmin, ChangePassword, ValidateToken, Logout, IsInitialized, persistPassword, generateSession, random_hex.
    all: first [solve [quiet_go] | solve [keeps_go; done]].
Qed.

Lemma guesses_along hist tr hist' t : along counted hist tr hist' -> Forall (fun x => passed x = false) tr ->
  within_span t hist' = (guesses tr t + within_span t hist)%nat.
Proof.
  induction 1 as [g|g x g1 tr g2 Hn _ IH]; intros Hp; [done|]. apply Forall_cons in Hp as [Hx Hp].
  rewrite IH by done. unfold counted in Hn. rewrite Hx in Hn. unfold guesses. rewrite filter_cons. rewrite Hn.
  destruct (refused x); cbn [andb]; [|rewrite decide_False by done; lia].
  rewrite within_span_cons. destruct (decide (t < ended x <= _)) as [Hin|Hin].
  - rewrite decide_True by (apply andb_true_iff; lia). cbn. lia.
  - rewrite decide_False; [lia|]. rewrite andb_true_iff. lia.
Qed.

(** Between two logins with the right password, whatever else is asked in
    between, no more than eight wrong passwords are looked at in any span of
    fifteen minutes. *)
Theorem login_guesses_bounded row cs0 cs e t :
  let '(_, (s, e1)) := served auth_run cs0 (NewSystemAuthManager true row) e in
  let tr := (served auth_run cs s e1).1 in
  Forall (fun x => passed x = false) tr -> (guesses tr t <= 8)%nat.
Proof.
  pose proof (served_keeps auth_run (fun _ => True) (fun g s e => tally (clock e) g s) counted
    (fun c g s e _ => auth_counts c g s e)) as Hk.
  destruct (Hk cs0 [] (NewSystemAuthManager true row) e) as (g0 & _ & Hg0); [by apply Forall_true|by apply tally_clear|].
  destruct (served auth_run cs0 _ e) as [tr0 [s e1]]. intros tr Hp.
  destruct (Hk cs g0 s e1 ltac:(by apply Forall_true) Hg0) as (g1 & Ha & Hg1).
  pose proof (guesses_along _ _ _ t Ha Hp). pose proof (tally_eight _ _ _ Hg1 t). unfold tr. lia.
Qed.
(** ** A vault with one secret *)

(** The password of the administrator, whether the device was set up, and the
    tokens open with the instants they end. *)
Record Vault := mkVault { secret : option string; claimed : bool; tokens : gmap string Z }.

Definition token_opened (v : Vault) (tok : string) (x : aentry) (v' : Vault) : Prop :=
  exists u, began x <= u <= ended x /\ v' = mkVault (secret v) (claimed v) (<[tok := u + sessionValidity]> (tokens v)).
Definition token_closed (v : Vault) (tok : string) : Vault := mkVault (secret v) (claimed v) (delete tok (tokens v)).

(** What each answer to each request says of the vault, and what it leaves. *)
Definition vault_step (v : Vault) (x : aentry) (v' : Vault) : Prop :=
  match request x, answer x with
  | AInit, Ok (Holds b) => b = claimed v /\ v' = v
  | AInit, Err AuthDbFailed => v' = v
  | ASetup p, Ok (Session tok) => 8 <= len p /\ claimed v = false /\ token_opened (mkVault (Some p) true (tokens v)) tok x v'
  | ASetup p, Err ErrPasswordTooShort => len p < 8 /\ v' = v
  | ASetup p, Err ErrAlreadyInitialized => claimed v = true /\ v' = v
  | ASetup p, Err NoRandomness => 8 <= len p /\ claimed v = false /\ (v' = v \/ v' = mkVault (Some p) true (tokens v))
  | ASetup p, Err AuthDbFailed => v' = v
  | ALogin p, Ok (Session tok) => secret v = Some p /\ token_opened v tok x v'
  | ALogin p, Err NoRandomness => secret v = Some p /\ v' = v
  | ALogin p, Err ErrInvalidCredentials => is_Some (secret v) /\ secret v <> Some p /\ v' = v
  | ALogin _, Err (ErrNotInitialized | ErrTooManyAttempts) => v' = v
  | AChange p q, Ok Done => secret v = Some p /\ 8 <= len q /\ v' = mkVault (Some q) (claimed v) (tokens v)
  | AChange p q, Err ErrInvalidCredentials => is_Some (secret v) /\ secret v <> Some p /\ v' = v
  | AChange p q, Err ErrPasswordTooShort => len q < 8 /\ v' = v
  | AChange _ _, Err NoAdminRow => secret v = None /\ v' = v
  | AChange p _, Err NoRandomness => secret v = Some p /\ v' = v
  | AChange _ _, Err AuthDbFailed => v' = v
  | AValidate tok, Ok (Holds true) => exists u t, tokens v !! tok = Some u /\ began x <= t <= ended x /\ t <= u /\ v' = v
  | AValidate tok, Ok (Holds false) =>
      tokens v !! tok = None /\ v' = v \/ exists u, tokens v !! tok = Some u /\ u < ended x /\ v' = token_closed v tok
  | ALogout tok, Ok Done => v' = token_closed v tok
  | _, _ => False
  end.

(** The passwords that are tried in the course of a trace. *)
Definition passwords_of (c : acall) : list string :=
  match c with ASetup p | ALogin p => [p] | AChange p q => [p; q] | _ => [] end.

(** Of the passwords [ps], the row lets in [q]. *)
Definition lets_in (ps : list string) (q : string) (r : AuthRow) : Prop :=
  forall p, p ∈ ps -> passwordMatches p (PasswordHash r) (Salt r) = bool_decide (p = q).
Definition row_vault (ps : list string) (row : option AuthRow) (v : Vault) : Prop :=
  match row with
  | None => secret v = None /\ claimed v = false
  | Some r => claimed v = Initialized r /\ exists q, secret v = Some q /\ lets_in ps q r
  end.
Record vault_of (ps : list string) (s : SystemAuthManager) (v : Vault) : Prop := {
  vault_db : auth_db s = true;
  vault_row : row_vault ps (admin s) v;
  vault_tokens : tokens v = SExpiresAt <$> sessions s;
  vault_no_empty : sessions s !! "" = None }.

(** No two of the passwords tried share a hash. *)
Definition no_collision (ps : list string) : Prop :=
  forall p q salt, p ∈ ps -> q ∈ ps -> argon2_hex p salt = argon2_hex q salt -> p = q.

Lemma hashPassword_current p salt : isLegacyPasswordHash (hashPassword p salt) = false.
Proof. reflexivity. Qed.
Lemma matches_iff p h salt :
  passwordMatches p h salt =
  bool_decide ((if isLegacyPasswordHash h then legacySHA256Hash p salt else hashPassword p salt) = h).
Proof.
  unfold passwordMatches. destruct (Z.eqb_spec (len (if isLegacyPasswordHash h then legacySHA256Hash p salt else hashPassword p salt)) (len h)) as [_|Hl];
    cbn [negb]; [done|]. symmetry. apply bool_decide_eq_false. congruence.
Qed.
Lemma hashed_row ps q salt i : no_collision ps -> q ∈ ps -> lets_in ps q (mkAuthRow (hashPassword q salt) salt i).
Proof.
  intros Hps Hq p Hp. cbn. rewrite matches_iff, hashPassword_current. apply bool_decide_ext. split; [|by intros ->].
  unfold hashPassword. intros Heq. repeat apply (inj (String.append _)) in Heq. by eapply Hps.
Qed.
Section vault.
Context (ps : list string) (distinct : no_collision ps).

(** The vault after a request, from [t0] on. *)
Definition vault_post (c : acall) (t0 : Z) (v : Vault) (r : result auth_error areply) (s' : SystemAuthManager) (e' : env) : Prop :=
  exists v', vault_step v (mkEntry c t0 (clock e') r) v' /\ vault_of ps s' v'.

Lemma vault_fails s c w l v : vault_of ps s v -> vault_of ps (set_fails s c w l) v.
Proof. by intros [? ? ? ?]. Qed.
Lemma vault_same s s' v : auth_db s' = auth_db s -> admin s' = admin s -> sessions s' = sessions s -> vault_of ps s v -> vault_of ps s' v.
Proof. intros Hd Ha Hs [? ? ? ?]. split; rewrite ?Hd, ?Ha, ?Hs; done. Qed.
Lemma vault_opens s v b t : String.length b = 32%nat -> vault_of ps s v ->
  vault_of ps (set_sessions s (<[hex_encode b := mkSession (hex_encode b) t (time_add t sessionValidity)]> (sessions s)))
    (mkVault (secret v) (claimed v) (<[hex_encode b := t + sessionValidity]> (tokens v))).
Proof.
  intros Hb [? Hrow Ht Hn]. split; cbn; [done|done| |].
  - by rewrite Ht, fmap_insert.
  - rewrite lookup_insert_ne; [done|]. by destruct b.
Qed.
Lemma vault_closes s v tok : vault_of ps s v -> vault_of ps (set_sessions s (delete tok (sessions s))) (token_closed v tok).
Proof.
  intros [? Hrow Ht Hn]. split; cbn; [done|done| |].
  - by rewrite Ht, fmap_delete.
  - by apply lookup_delete_None; right.
Qed.
(** A new row for the password [p]. *)
Lemma vault_sets s v p salt i c : p ∈ ps -> c = i -> vault_of ps s v ->
  vault_of ps (set_admin s (Some (mkAuthRow (hashPassword p salt) salt i))) (mkVault (Some p) c (tokens v)).
Proof. intros Hp -> [? Hrow Ht Hn]. split; cbn; [done| |done..]. split; [done|]. exists p. split; [done|by apply hashed_row]. Qed.

(** [generateSession] at the end of a request opens a token. *)
Lemma session_opens c t0 v s e (v0 : Vault) : vault_of ps s v -> t0 <= clock e ->
  (forall tok t v', token_opened v tok (mkEntry c t0 t (Ok (Session tok))) v' -> vault_step v0 (mkEntry c t0 t (Ok (Session tok))) v') ->
  (forall t, vault_step v0 (mkEntry c t0 t (Err NoRandomness)) v) ->
  wp generateSession (fun r => vault_post c t0 v0 (match r with Ok t => Ok (Session t) | Err x => Err x end)) s e.
Proof.
  intros Hv Ht0 HO HE. apply generateSession_spec; cbv beta; [|by eexists].
  intros b e' Hb [[He _] _]. eexists. split; [|by apply vault_opens]. apply HO. exists (clock e').
  split; [cbn; lia|done].
Qed.

Lemma vault_validate tok v s e : vault_of ps s v ->
  wp (auth_run (AValidate tok)) (vault_post (AValidate tok) (clock e) v) s e.
Proof.
  intros Hv. cbn. apply wp_reply. unfold ValidateToken. pose proof Hv as [_ _ Ht Hn]. case_bool_decide as Htok.
  { subst. apply wp_ret. exists v. split; [|done]. left. split; [|done]. by rewrite Ht, lookup_fmap, Hn. }
  apply wp_bind, wp_get. cbv beta iota. destruct (sessions s !! tok) as [se|] eqn:Hse.
  2:{ apply wp_ret. exists v. split; [|done]. left. split; [|done]. by rewrite Ht, lookup_fmap, Hse. }
  assert (tokens v !! tok = Some (SExpiresAt se)) as Hu by (by rewrite Ht, lookup_fmap, Hse).
  apply wp_bind, wp_now_onward. cbv beta iota. intros e' [[He _] _].
  unfold time_after. destruct (Z.ltb_spec (SExpiresAt se) (clock e')) as [Hover|Hin].
  - apply wp_bind, wp_modify. cbv beta iota. apply wp_ret. eexists. split; [|by apply vault_closes].
    right. by exists (SExpiresAt se).
  - apply wp_ret. exists v. split; [|done]. exists (SExpiresAt se), (clock e'). cbn. auto with lia.
Qed.
Lemma row_agrees v s r p : vault_of ps s v -> admin s = Some r -> p ∈ ps ->
  exists q, secret v = Some q /\ passwordMatches p (PasswordHash r) (Salt r) = bool_decide (p = q).
Proof. intros [_ Hrow _ _] Hr Hp. rewrite Hr in Hrow. destruct Hrow as (_ & q & Hq & Hl). exists q. split; [done|by apply Hl]. Qed.

Lemma vault_persist p v s e (Q : result auth_error unit -> SystemAuthManager -> env -> Prop) :
  p ∈ ps -> is_Some (admin s) -> vault_of ps s v ->
  (forall s' e', vault_of ps s' (mkVault (Some p) (claimed v) (tokens v)) -> onward e e' -> Q (Ok tt) s' e') ->
  (forall x e', x = NoRandomness \/ x = AuthDbFailed -> onward e e' -> Q (Err x) s e') -> wp (persistPassword p) Q s e.
Proof.
  intros Hp [r Hr] Hv HO HE. apply persistPassword_spec; [|done]. intros b e' _ He. apply HO; [|done].
  rewrite Hr. cbn. apply vault_sets; [done| |done]. destruct Hv as [_ Hrow _ _]. rewrite Hr in Hrow. apply Hrow.
Qed.

Lemma vault_login_finish p r v s e t0 : p ∈ ps -> vault_of ps s v -> admin s = Some r -> t0 <= clock e ->
  wp (Login_finish p r) (fun r => vault_post (ALogin p) t0 v (match r with Ok t => Ok (Session t) | Err x => Err x end)) s e.
Proof.
  intros Hp Hv Hr Ht0. destruct (row_agrees v s r p) as (q & Hq & Hm); [done..|].
  unfold Login_finish. rewrite Hm. case_bool_decide as Hpq; cbn [negb].
  2:{ apply wp_bind, wp_bind, wp_now_onward. cbv beta iota. intros e' _. apply wp_modify. cbv beta iota. apply wp_throw.
      exists v. split; [|by apply vault_fails]. cbn. rewrite Hq. split_and!; [done|congruence|done]. }
  subst q. apply wp_bind, wp_modify. cbv beta iota. apply wp_bind.
  eapply (wp_mono _ (fun x s' e' => x = Ok tt /\ vault_of ps s' v /\ onward e e')).
  { assert (mkVault (Some p) (claimed v) (tokens v) = v) as Hsame by (destruct v; cbn in *; congruence).
    destruct (isLegacyPasswordHash _); [|apply wp_ret; split_and!; [done|by apply vault_fails|done]].
    apply wp_ignore, vault_persist with v; [done|by exists r|by apply vault_fails| |by auto using vault_fails].
    intros s' e' Hs' He. by rewrite Hsame in Hs'. }
  intros ? s' e' (-> & Hs' & [[He _] _]). cbv beta iota. apply session_opens with v; [done|lia|intros; by split|intros; by split].
Qed.

Lemma vault_login p v s e : p ∈ ps -> vault_of ps s v ->
  wp (auth_run (ALogin p)) (vault_post (ALogin p) (clock e) v) s e.
Proof.
  intros Hp Hv. cbn. apply wp_reply. unfold Login, Login_begin. apply wp_bind, wp_bind, wp_get. cbv beta iota.
  rewrite (vault_db _ _ _ Hv). cbn [negb]. apply wp_bind.
  eapply (wp_mono _ (fun r s' e' => onward e e' /\ vault_of ps s' v /\ (r = Ok tt \/ r = Err ErrTooManyAttempts))).
  { unfold checkLoginLock. apply wp_bind, wp_now_onward. cbv beta iota. intros e' He. apply wp_bind, wp_get. cbv beta iota.
    destruct (match lockedUntil s with Some u => _ | None => _ end); [apply wp_throw; by auto|].
    destruct (window_over _ _); [apply wp_modify|apply wp_ret; by auto]. split_and!; [done|by apply vault_fails|by left]. }
  cbv beta. intros r s1 e1 ([[He1 _] _] & Hv1 & [-> | ->]); cbv beta iota; [|by exists v].
  apply wp_bind, wp_db_onward; cbv beta iota; [|intros; by exists v].
  intros e2 _ Hc. apply wp_bind, wp_get. cbv beta iota. destruct (admin s1) as [r|] eqn:Hr.
  - apply wp_ret. apply vault_login_finish; [done..|lia].
  - apply wp_throw. by exists v.
Qed.

Lemma vault_init v s e (Q : result auth_error bool -> SystemAuthManager -> env -> Prop) : vault_of ps s v ->
  (forall e', onward e e' -> Q (Ok (claimed v)) s e') -> (forall e', Q (Err AuthDbFailed) s e') -> wp IsInitialized Q s e.
Proof.
  intros Hv HO HE. unfold IsInitialized. apply wp_bind, wp_get. cbv beta iota. rewrite (vault_db _ _ _ Hv). cbn [negb].
  apply wp_bind, wp_db_onward; cbv beta iota; [|auto]. intros e' He _. apply wp_bind, wp_get. cbv beta iota. apply wp_ret.
  destruct Hv as [_ Hrow _ _]. specialize (HO _ He).
  destruct (admin s) as [r|]; cbn in Hrow; [destruct Hrow as [Hc _]|destruct Hrow as [_ Hc]]; by rewrite Hc in HO.
Qed.
Lemma vault_setup p v s e : p ∈ ps -> vault_of ps s v ->
  wp (auth_run (ASetup p)) (vault_post (ASetup p) (clock e) v) s e.
Proof.
  intros Hp Hv. cbn. apply wp_reply. unfold SetupAdmin, passwordMinLen.
  destruct (Z.ltb_spec (len p) 8) as [Hl|Hl]; [apply wp_throw; by exists v|].
  apply wp_bind, vault_init with v; [done| |intros; by exists v].
  intros e1 [[He1 _] _]. cbv beta iota. destruct (claimed v) eqn:Hc; [apply wp_throw; by exists v|].
  apply wp_bind, random_hex_spec; cbv beta iota; [|intros; exists v; cbn; by auto].
  intros b e2 _ [[He2 _] _] _. apply wp_bind, wp_get. cbv beta iota. rewrite (vault_db _ _ _ Hv). cbn [negb].
  apply wp_bind, wp_db_onward; cbv beta iota; [|intros; by exists v]. intros e3 _ He3.
  apply wp_bind, wp_modify. cbv beta iota.
  apply session_opens with (mkVault (Some p) true (tokens v)); [by apply vault_sets|lia|by intros|intros; cbn; by auto].
Qed.

Lemma vault_change p q v s e : p ∈ ps -> q ∈ ps -> vault_of ps s v ->
  wp (auth_run (AChange p q)) (vault_post (AChange p q) (clock e) v) s e.
Proof.
  intros Hp Hq Hv. cbn. apply wp_bind. unfold ChangePassword, passwordMinLen.
  destruct (Z.ltb_spec (len q) 8) as [Hl|Hl]; [apply wp_throw; by exists v|].
  apply wp_bind, wp_get. cbv beta iota. rewrite (vault_db _ _ _ Hv). cbn [negb].
  apply wp_bind, wp_db_onward; cbv beta iota; [|intros; by exists v].
  intros e1 _ _. apply wp_bind, wp_get. cbv beta iota. destruct (admin s) as [r|] eqn:Hr.
  2:{ apply wp_throw. exists v. split; [|done]. pose proof (vault_row _ _ _ Hv) as Hrow. rewrite Hr in Hrow. by destruct Hrow. }
  destruct (row_agrees v s r p) as (w & Hw & Hm); [done..|]. rewrite Hm. case_bool_decide as Hpw; cbn [negb].
  - subst w. apply vault_persist with v; [done|by exists r|done| |].
    + intros s' e' Hs' _. apply wp_ret. eexists. by split; [|exact Hs'].
    + intros x e' [-> | ->] _; by exists v.
  - apply wp_throw. exists v. split; [|done]. cbn. rewrite Hw. split_and!; [done|congruence|done].
Qed.

Lemma vault_call c v s e : Forall (.∈ ps) (passwords_of c) -> vault_of ps s v ->
  wp (auth_run c) (vault_post c (clock e) v) s e.
Proof.
  intros Hc Hv. destruct c; cbn [passwords_of] in Hc; decompose_Forall_hyps.
  - cbn. apply wp_reply, vault_init with v; [done| |]; intros; by exists v.
  - by apply vault_setup.
  - by apply vault_login.
  - by apply vault_change.
  - by apply vault_validate.
  - cbn. apply wp_bind, wp_modify. cbv beta iota. apply wp_ret. eexists. by split; [|apply vault_closes].
Qed.
Lemma legacy_row q salt i :
  (forall p, p ∈ ps -> legacySHA256Hash p salt = legacySHA256Hash q salt -> p = q) ->
  isLegacyPasswordHash (legacySHA256Hash q salt) = true -> lets_in ps q (mkAuthRow (legacySHA256Hash q salt) salt i).
Proof.
  intros Hq Hl p Hp. cbn. rewrite matches_iff, Hl. apply bool_decide_ext. split; [by apply Hq|by intros ->].
Qed.

(** C40. The manager refines a vault: a login succeeds for the one password and
    no other, only a device that is not set up can be, a password is changed
    with the current one, a token is accepted from when it was issued until
    seven days later or its logout, and no failed request changes anything
    (a set-up that fails at the session has set the password).  This holds for
    rows of either kind of hash, which a login replaces. *)
Theorem auth_refines row v cs e :
  row_vault ps row v -> tokens v = ∅ -> Forall (fun c => Forall (.∈ ps) (passwords_of c)) cs ->
  exists v', along vault_step v (served auth_run cs (NewSystemAuthManager true row) e).1 v'.
Proof.
  intros Hrow Ht Hcs. assert (vault_of ps (NewSystemAuthManager true row) v) as Hv.
  { split; [done|done|by rewrite Ht|done]. }
  destruct (served_keeps auth_run _ (fun v s _ => vault_of ps s v) vault_step (fun c v s e => vault_call c v s e) cs v _ e Hcs Hv)
    as (v' & Ha & _). by exists v'.
Qed.
End vault.
End auth.

(** ** States of OAuth flows *)

Inductive scall := SSave (provider codeVerifier redirectURI : string) | SConsume (state : string) | SCleanup.
Inductive sreply := Issued (state : string) | Taken (session : StateSession) | Swept.

Section states.
Context `{AuthLib}.

Definition state_run (c : scall) : io StateStore state_error sreply :=
  match c with
  | SSave p v r => st ← Save p v r; mret (Issued st)
  | SConsume st => ses ← Consume st; mret (Taken ses)
  | SCleanup => _ ← cleanup; mret Swept
  end.
Abbreviation sentry := (entry scall (result state_error sreply)).

(** The answer hands out the state [st], or takes it. *)
Definition touches (st : string) (x : sentry) : Prop :=
  match answer x with Ok (Issued st') => st' = st | Ok (Taken ses) => State ses = st | _ => False end.

(** Of the requests so far, [ses] was saved by one that no other about its
    state has followed. *)
Definition standing (d : Z) (tr : list sentry) (ses : StateSession) : Prop :=
  exists pre x post u, tr = pre ++ x :: post /\
    request x = SSave (Provider ses) (CodeVerifier ses) (RedirectURI ses) /\ answer x = Ok (Issued (State ses)) /\
    began x <= u <= ended x /\ StExpiresAt ses = u + d /\ Forall (fun y => ~ touches (State ses) y) post.

(** A state taken now was standing, and not expired. *)
Definition state_step (d : Z) (tr : list sentry) (x : sentry) (tr' : list sentry) : Prop :=
  tr' = tr ++ [x] /\ forall ses, answer x = Ok (Taken ses) ->
    request x = SConsume (State ses) /\ standing d tr ses /\ ended x <= StExpiresAt ses.

Definition stands (d : Z) (tr : list sentry) (s : StateStore) : Prop :=
  ttl s = d /\ forall st ses, states s !! st = Some ses -> State ses = st /\ standing d tr ses.

Lemma standing_later d tr x ses : standing d tr ses -> ~ touches (State ses) x -> standing d (tr ++ [x]) ses.
Proof.
  intros (pre & y & post & u & -> & Hr & Ha & [? ?] & Hexp & Hp) Hx. exists pre, y, (post ++ [x]), u.
  split_and!; try done; [by rewrite <- app_assoc|]. apply Forall_app. auto.
Qed.
(** Entries that are left stay as they are when the answer is not about them. *)
Lemma stands_later d tr s s' x : stands d tr s -> ttl s' = ttl s ->
  (forall st ses, states s' !! st = Some ses -> states s !! st = Some ses /\ ~ touches st x) -> stands d (tr ++ [x]) s'.
Proof.
  intros [Hd Hs] Ht Hsub. split; [congruence|]. intros st ses Hst. destruct (Hsub st ses Hst) as [Hold Hx].
  destruct (Hs st ses Hold) as [<- Hses]. split; [done|by apply standing_later].
Qed.

Lemma save_stands d tr p v r s e : stands d tr s ->
  wp (state_run (SSave p v r)) (fun a s' e' => exists tr', state_step d tr (mkEntry (SSave p v r) (clock e) (clock e') a) tr' /\ stands d tr' s') s e.
Proof.
  intros Hs. cbn. apply wp_bind. unfold Save, GenerateState. apply wp_bind, wp_bind, wp_draw_next. cbv beta iota.
  intros e1 _ Hc _. destruct (rand_read _ 16) as [b|].
  2:{ apply wp_throw. eexists. split; [by split|]. apply stands_later with s; [done..|]. cbn. auto. }
  apply wp_ret. cbv beta iota. apply wp_bind, wp_now_onward. cbv beta iota. intros e2 [[He2 _] _].
  apply wp_bind, wp_modify. cbv beta iota. apply wp_ret. apply wp_ret. eexists. split; [by split|]. destruct Hs as [Hd Hs].
  split; [done|]. cbn [states]. intros st ses [[<- <-]|[Hne Hst]]%lookup_insert_Some.
  - split; [done|]. eexists tr, _, [], (clock e2). split_and!; try done; cbn; try lia. by rewrite Hd.
  - destruct (Hs st ses Hst) as [<- Hses]. split; [done|]. by apply standing_later.
Qed.

Lemma consume_stands d tr st s e : stands d tr s ->
  wp (state_run (SConsume st)) (fun a s' e' => exists tr', state_step d tr (mkEntry (SConsume st) (clock e) (clock e') a) tr' /\ stands d tr' s') s e.
Proof.
  intros Hs. cbn. apply wp_bind. unfold Consume. apply wp_bind, wp_get. cbv beta iota.
  destruct (states s !! st) as [ses|] eqn:Hst.
  2:{ apply wp_throw. eexists. split; [by split|]. apply stands_later with s; [done..|]. cbn. auto. }
  apply wp_bind, wp_modify. cbv beta iota. apply wp_bind, wp_now_onward. cbv beta iota. intros e2 _.
  destruct (proj2 Hs st ses Hst) as [<- Hses]. unfold time_after. destruct (Z.ltb_spec (StExpiresAt ses) (clock e2)) as [Hl|Hl].
  - apply wp_throw. eexists. split; [by split|]. apply stands_later with s; [done..|]. cbn.
    intros st' ses' [_ ?]%lookup_delete_Some. auto.
  - do 2 apply wp_ret. eexists. split.
    + split; [done|]. cbn. intros ses' [= <-]. auto.
    + apply stands_later with s; [done..|]. cbn. intros st' ses' [? ?]%lookup_delete_Some. auto.
Qed.

Lemma state_call d c tr s e : stands d tr s ->
  wp (state_run c) (fun a s' e' => exists tr', state_step d tr (mkEntry c (clock e) (clock e') a) tr' /\ stands d tr' s') s e.
Proof.
  intros Hs. destruct c; [by apply save_stands|by apply consume_stands|].
  cbn. apply wp_bind, wp_bind, wp_now_onward. cbv beta iota. intros e' _. apply wp_modify. cbv beta iota. apply wp_ret.
  eexists. split; [by split|]. apply stands_later with s; [done..|]. cbn.
  intros st ses [? _]%map_lookup_filter_Some. auto.
Qed.

Lemma along_states d g tr g' pre x post :
  along (state_step d) g tr g' -> tr = pre ++ x :: post -> state_step d (g ++ pre) x (g ++ pre ++ [x]).
Proof.
  intros Ha. revert pre. induction Ha as [g|g y g1 l g2 Hn _ IH]; intros pre Heq; [by destruct pre|].
  destruct pre as [|z pre]; cbn in Heq; simplify_eq.
  - rewrite app_nil_r. cbn. destruct Hn as [-> Hn]. by split.
  - destruct Hn as [-> _]. specialize (IH pre eq_refl). by rewrite <- !app_assoc in IH.
Qed.

(** A state that is taken was issued before with the provider, verifier and
    address it comes with, was not taken since, and is no older than the
    store's time to live: a redirect cannot be replayed. *)
Theorem state_taken_once d cs e pre x post ses :
  (served state_run cs (NewStateStore d) e).1 = pre ++ x :: post -> answer x = Ok (Taken ses) ->
  request x = SConsume (State ses) /\ standing (if d <=? 0 then 10 * minute else d) pre ses /\ ended x <= StExpiresAt ses.
Proof.
  intros Htr Hx. set (d' := if d <=? 0 then _ else _).
  destruct (served_keeps state_run (fun _ => True) (fun tr s _ => stands d' tr s) (state_step d')
    (fun c tr s e _ => state_call d' c tr s e) cs [] (NewStateStore d) e) as (g & Ha & _).
  - by apply Forall_true.
  - by split.
  - by apply (along_states _ _ _ _ _ _ _ Ha Htr).
Qed.
End states.

(** ** Closed examples *)

(** Texts and hashes that are plain to see, for closed examples. *)
Fixpoint pad (n : nat) (c : ascii) : string := match n with O => "" | Datatypes.S n => String c (pad n c) end.
Lemma pad_length n c : String.length (pad n c) = n.
Proof. induction n; cbn; congruence. Qed.
Lemma some_pad_length (d n : nat) b : Some (pad n (byte_of (Z.of_nat d))) = Some b -> String.length b = n.
Proof. intros [= <-]. apply pad_length. Qed.
#[local] Instance plain_auth : AuthLib := {|
  rand_read := fun d n => Some (pad n (byte_of (Z.of_nat d)));
  argon2_hex := fun p s => (hex_encode s +:+ ":") +:+ p; rand_length := some_pad_length |}.
#[local] Existing Instance plain_platform.

Definition admin_row : AuthRow := mkAuthRow (hashPassword "correct horse" "00") "00" true.
(** Three wrong passwords at the very end of a window and five in the next. *)
Definition guess_calls : list acall := replicate 9 (ALogin "guess").
Definition guess_pace : env :=
  mkEnv [] 0 (map Z.to_N [1000 * second; 0; loginFailWindow; 0; 0; 0; 0; 0; 1]) 0.

Lemma login_guesses_bounded_witness :
  let tr := (served auth_run guess_calls (NewSystemAuthManager true (Some admin_row)) guess_pace).1 in
  Forall (fun x => passed x = false) tr /\ guesses tr (1000 * second + loginFailWindow - 1) = 8%nat /\
  (guesses tr (1000 * second + loginFailWindow - 1) <= 8)%nat.
Proof.
  cbv zeta. split; [apply (bool_decide_unpack _); vm_compute; done|]. split; [vm_compute; done|].
  apply (login_guesses_bounded (Some admin_row) [] guess_calls guess_pace).
  apply (bool_decide_unpack _). vm_compute. done.
Defined.

Definition known : list string := ["correct horse"; "guess guess"; "battery staple"; "short"].
Lemma known_distinct : no_collision known.
Proof. intros p q salt _ _. apply (inj (String.append _)). Qed.
(** A row of the first releases, with a plain hash. *)
Definition old_row : AuthRow := mkAuthRow (legacySHA256Hash "correct horse" "00") "00" true.
Definition day_calls : list acall :=
  [AInit; ASetup "guess guess"; ALogin "guess guess"; ALogin "correct horse"; AValidate (hex_encode (pad 32 (byte_of 1))); AValidate "";
   AChange "correct horse" "short"; AChange "guess guess" "battery staple"; AChange "correct horse" "battery staple";
   ALogin "correct horse"; ALogin "battery staple"; ALogout (hex_encode (pad 32 (byte_of 1)))].

Lemma auth_refines_witness :
  let tr := (served auth_run day_calls (NewSystemAuthManager true (Some old_row)) (calm 0)).1 in
  map answer tr =
    [Ok (Holds true); Err ErrAlreadyInitialized; Err ErrInvalidCredentials; Ok (Session (hex_encode (pad 32 (byte_of 1))));
     Ok (Holds true); Ok (Holds false); Err ErrPasswordTooShort; Err ErrInvalidCredentials; Ok Done;
     Err ErrInvalidCredentials; Ok (Session (hex_encode (pad 32 (byte_of 3)))); Ok Done] /\
  exists v', along vault_step (mkVault (Some "correct horse") true ∅) tr v'.
Proof.
  cbv zeta. split; [vm_compute; done|]. apply (auth_refines known known_distinct).
  - split; [done|]. exists "correct horse". split; [done|]. apply legacy_row; [|vm_compute; done].
    assert (Forall (fun p => legacySHA256Hash p "00" = legacySHA256Hash "correct horse" "00" -> p = "correct horse") known) as Hk.
    { repeat constructor; vm_compute; (done || congruence). }
    intros p Hp. by apply (proj1 (Forall_forall _ _) Hk).
  - done.
  - apply (bool_decide_unpack _). vm_compute. done.
Defined.

Lemma state_taken_once_witness :
  let tr := (served state_run [SSave "github" "v" "/cb"; SConsume (hex_encode (pad 16 (byte_of 0))); SConsume (hex_encode (pad 16 (byte_of 0)))]
    (NewStateStore 0) (calm 0)).1 in
  exists pre x post ses, tr = pre ++ x :: post /\ answer x = Ok (Taken ses) /\ map answer post = [Err ErrInvalidState] /\
  request x = SConsume (State ses) /\ standing (10 * minute) pre ses /\ ended x <= StExpiresAt ses.
Proof.
  eexists [_], _, [_], (mkState (hex_encode (pad 16 (byte_of 0))) "github" "v" "/cb" (10 * minute)).
  split; [vm_compute; reflexivity|]. split; [vm_compute; reflexivity|]. split; [vm_compute; reflexivity|].
  eapply (state_taken_once 0 [SSave "github" "v" "/cb"; SConsume (hex_encode (pad 16 (byte_of 0))); SConsume (hex_encode (pad 16 (byte_of 0)))]
    (calm 0)); vm_compute; reflexivity.
Defined.

(** Each login reads the lock before its password is hashed, so that logins
    that are under way together are all looked at: twenty guesses here. *)
Definition together (n : nat) : io SystemAuthManager auth_error (list (result auth_error string)) :=
  rows ← attempt (foldr (fun _ m => r ← Login_begin; rs ← m; mret (r :: rs)) (mret []) (replicate n tt));
  match rows with
  | Err x => throw x
  | Ok rs => foldr (fun r m => a ← attempt (Login_finish "guess guess" r); l ← m; mret (a :: l)) (mret []) rs
  end.
Example guesses_together :
  (together 20 (NewSystemAuthManager true (Some admin_row)) (calm 0)).1 = Ok (replicate 20 (Err ErrInvalidCredentials)).
Proof. vm_compute. reflexivity. Qed.

(** [ChangePassword] looks at the lock no more than it counts. *)
Example guesses_by_change :
  map answer (served auth_run (replicate 20 (AChange "guess guess" "battery staple")) (NewSystemAuthManager true (Some admin_row)) (calm 0)).1
  = replicate 20 (Err ErrInvalidCredentials).
Proof. vm_compute. reflexivity. Qed.

(** A changed password ends no session. *)
Example change_ends_no_session :
  map answer (served auth_run [ALogin "correct horse"; AChange "correct horse" "battery staple"; AValidate (hex_encode (pad 32 (byte_of 0)))]
    (NewSystemAuthManager true (Some admin_row)) (calm 0)).1
  = [Ok (Session (hex_encode (pad 32 (byte_of 0)))); Ok Done; Ok (Holds true)].
Proof. vm_compute. reflexivity. Qed.
