(* ===== verification/AgentRuns.v ===== *)
(** * Durable runs of agents ([internal/agent/runs.go])

    The tables [agent_runs], [run_events] and [context_snapshots] with every
    statement that may fail: a statement under a context that is done fails as
    one the disk refuses does.  A checkpoint is stored as JSON: the class
    [RunCodec]. *)

From S2P Require Import Prelude GoStrings Io Tables GoText Transcript Cascade.
#[local] Open Scope Z_scope.

(** ** Runs ([RunStatus], [AgentRun], [RunEvent], [RunCheckpoint]) *)

Definition RunRunning : string := "running".
Definition RunCompleted : string := "completed".
Definition RunFailed : string := "failed".
Definition RunApprovalPending : string := "approval_pending".
Definition RunBlocked : string := "blocked".
Definition RunCancelled : string := "cancelled".

Record AgentRun := mkRun {
  RunID : string; RunTrace : string; RunAgent : string; RunGoal : string; RunSource : string;
  RunStatus : string; TerminationReason : string; Iterations : Z; RunUsage : Usage;
  StartedAt : Z; UpdatedAt : Z; CompletedAt : option Z }.

Inductive event_data := DLlm (model : string) (tool_calls : Z) | DTool (tool_call_id observation : string) | DObservation (observation : string).
Record RunEvent := mkRunEvent {
  EvID : string; EvRun : string; EvTrace : string; EvStep : Z; EvType : string; EvStatus : string;
  EvTool : string; EvData : option event_data; EvDuration : Z; EvCreated : option Z }.

Record RunCheckpoint := mkCheckpoint {
  CpRun : string; CpTrace : string; CpAgent : string; CpTask : string; CpGoal : string; CpSource : string;
  CpMessages : list Message; CpIteration : Z; CpUsage : Usage; CpPending : ToolCall; CpConversation : string }.

(** [encoding/json]: a checkpoint with arguments that are not JSON has no text. *)
Class RunCodec := {
  encode_checkpoint : RunCheckpoint -> option string;
  decode_checkpoint : string -> option RunCheckpoint;
  encode_data : option event_data -> string;
  decode_data : string -> option event_data }.

(** ** Tables *)

(** [checkpoint_json] is the empty text where the column is null. *)
Record RunRow := mkRunRow { row_run : AgentRun; checkpoint_json : string }.
Record EventRow := mkEventRow { row_event : RunEvent; data_json : string }.
Record SnapshotRow := mkSnapshot { SnID : string; SnRun : string; SnSummary : string; SnSource : Z; SnRetained : Z; SnAt : Z }.
Record RunStore := mkRunStore { agent_runs : list RunRow; run_events : list EventRow; context_snapshots : list SnapshotRow }.
Definition set_runs f d := mkRunStore (f (agent_runs d)) (run_events d) (context_snapshots d).
Definition set_run_events f d := mkRunStore (agent_runs d) (f (run_events d)) (context_snapshots d).
Definition set_snapshots f d := mkRunStore (agent_runs d) (run_events d) (f (context_snapshots d)).

Inductive run_error := RunDb | EncodingCheckpoint | NoApprovalPending | NoCheckpoint | BadCheckpoint | NoRun | NotCancellable (id : string).

Section runs.
Context `{Platform} `{RunCodec}.
Abbreviation rop := (io RunStore run_error).

Definition new_id (prefix : string) : rop string := n ← draw; mret (prefix +:+ uuid_string n).
Definition no_usage : Usage := mkUsage 0 0 0.

Definition Start (traceID agentID goal source : string) : rop AgentRun :=
  t ← now;
  id ← new_id "run_";
  let run := mkRun id traceID agentID goal source RunRunning "" 0 no_usage t t None in
  _ ← db RunDb;
  _ ← modify (set_runs (fun l => l ++ [mkRunRow run ""]));
  mret run.

Definition stamped (id : string) (t : Z) (ev : RunEvent) : RunEvent :=
  mkRunEvent id (EvRun ev) (EvTrace ev) (EvStep ev) (EvType ev) (EvStatus ev) (EvTool ev) (EvData ev) (EvDuration ev) (Some t).
Definition AppendEvent (ev : RunEvent) : rop unit :=
  id ← (if bool_decide (EvID ev = "") then new_id "evt_" else mret (EvID ev));
  t ← match EvCreated ev with None => now | Some t => mret t end;
  _ ← db RunDb;
  modify (set_run_events (fun l => l ++ [mkEventRow (stamped id t ev) (encode_data (EvData ev))])).

Definition terminal (status : string) : bool := negb (bool_decide (status = RunRunning)) && negb (bool_decide (status = RunApprovalPending)).

(** The run as [Finish] leaves it in memory. *)
Definition finished_at (t : Z) (run : AgentRun) : AgentRun :=
  mkRun (RunID run) (RunTrace run) (RunAgent run) (RunGoal run) (RunSource run) (RunStatus run) (TerminationReason run)
    (Iterations run) (RunUsage run) (StartedAt run) t (if terminal (RunStatus run) then Some t else CompletedAt run).
(** The columns that [Finish] writes. *)
Definition write_finish (run : AgentRun) (r : RunRow) : RunRow :=
  let o := row_run r in
  mkRunRow (mkRun (RunID o) (RunTrace o) (RunAgent o) (RunGoal o) (RunSource o) (RunStatus run) (TerminationReason run)
    (Iterations run) (RunUsage run) (StartedAt o) (UpdatedAt run) (CompletedAt run)) (checkpoint_json r).
Definition has_id (id : string) (r : RunRow) : bool := bool_decide (RunID (row_run r) = id).

(** The pointer is changed also when the statement fails: the run comes first. *)
Definition Finish (run : AgentRun) : rop (AgentRun * result run_error unit) :=
  t ← now;
  let run := finished_at t run in
  r ← attempt (_ ← db RunDb; modify (set_runs (update_where (has_id (RunID run)) (write_finish run))));
  mret (run, r).

Definition with_status (status reason : string) (t : Z) (done_at : option Z) (o : AgentRun) : AgentRun :=
  mkRun (RunID o) (RunTrace o) (RunAgent o) (RunGoal o) (RunSource o) status reason (Iterations o) (RunUsage o) (StartedAt o) t done_at.

Definition touch_checkpoint (data : string) (t : Z) (r : RunRow) : RunRow :=
  let o := row_run r in mkRunRow (with_status (RunStatus o) (TerminationReason o) t (CompletedAt o) o) data.
Definition SaveCheckpoint (c : RunCheckpoint) : rop unit :=
  match encode_checkpoint c with
  | None => throw EncodingCheckpoint
  | Some data => t ← now; _ ← db RunDb; modify (set_runs (update_where (has_id (CpRun c)) (touch_checkpoint data t)))
  end.

Definition LoadCheckpointByTrace (traceID : string) : rop (RunCheckpoint * AgentRun) :=
  _ ← db RunDb;
  s ← get;
  match latest (fun r => StartedAt (row_run r))
          (filter (fun r => RunTrace (row_run r) = traceID /\ RunStatus (row_run r) = RunApprovalPending) (agent_runs s)) with
  | None => throw NoApprovalPending
  | Some r =>
      if bool_decide (checkpoint_json r = "") then throw NoCheckpoint
      else match decode_checkpoint (checkpoint_json r) with None => throw BadCheckpoint | Some c => mret (c, row_run r) end
  end.

(** [ORDER BY started_at DESC LIMIT ?]: rows with one start in the order of the table. *)
Definition started_later (a b : RunRow) : Prop := StartedAt (row_run b) <= StartedAt (row_run a).
#[local] Instance started_later_dec a b : Decision (started_later a b).
Proof. unfold started_later. apply _. Defined.
Definition list_limit (limit : Z) : nat := Z.to_nat (if (limit <=? 0) || (200 <? limit) then 100 else limit).
Definition newest_runs (limit : Z) (l : list RunRow) : list AgentRun := take (list_limit limit) (row_run <$> merge_sort started_later l).

Definition List_ (limit : Z) : rop (list AgentRun) := _ ← db RunDb; s ← get; mret (newest_runs limit (agent_runs s)).

Definition read_event (r : EventRow) : RunEvent :=
  let ev := row_event r in
  mkRunEvent (EvID ev) (EvRun ev) (EvTrace ev) (EvStep ev) (EvType ev) (EvStatus ev) (EvTool ev) (decode_data (data_json r)) (EvDuration ev) (EvCreated ev).
Definition Events (runID : string) : rop (list RunEvent) :=
  _ ← db RunDb;
  s ← get;
  mret (read_event <$> order_asc (fun r => default 0 (EvCreated (row_event r))) (filter (fun r => EvRun (row_event r) = runID) (run_events s))).

(** ** Ending runs from outside *)

Definition Cancel (runID reason : string) : rop unit :=
  t ← now;
  let reason := if bool_decide (reason = "") then "operator_signal" else reason in
  let open r := has_id runID r && bool_decide (RunStatus (row_run r) ∈ [RunRunning; RunApprovalPending]) in
  _ ← db RunDb;
  s ← get;
  _ ← modify (set_runs (update_where open (fun r => mkRunRow (with_status RunCancelled reason t (Some t) (row_run r)) (checkpoint_json r))));
  if bool_decide (affected open (agent_runs s) = 0%nat) then throw (NotCancellable runID) else mret tt.

Definition is_running (r : RunRow) : bool := bool_decide (RunStatus (row_run r) = RunRunning).
Definition ReclaimOrphans : rop nat :=
  t ← now;
  _ ← db RunDb;
  s ← get;
  _ ← modify (set_runs (update_where is_running
         (fun r => mkRunRow (with_status RunBlocked "process_restart_reclaim" t (Some t) (row_run r)) (checkpoint_json r))));
  mret (affected is_running (agent_runs s)).

Definition ReclaimStaleRuns (maxAge : Z) : rop nat :=
  let maxAge := if maxAge <=? 0 then 10 * minute else maxAge in
  c ← now;
  t ← now;
  let stale r := is_running r && (UpdatedAt (row_run r) <? time_add c (- maxAge)) in
  _ ← db RunDb;
  s ← get;
  _ ← modify (set_runs (update_where stale
         (fun r => mkRunRow (with_status RunCancelled "stale_timeout_reclaimed" t (Some t) (row_run r)) (checkpoint_json r))));
  mret (affected stale (agent_runs s)).

Record RunListFilter := mkRunFilter { FAgent : string; FStatus : string; FSource : string; FLimit : Z }.
Definition run_matches (f : RunListFilter) (r : RunRow) : bool :=
  (bool_decide (FAgent f = "") || bool_decide (RunAgent (row_run r) = FAgent f)) &&
  (bool_decide (FStatus f = "") || bool_decide (RunStatus (row_run r) = FStatus f)) &&
  (bool_decide (FSource f = "") || bool_decide (RunSource (row_run r) = FSource f)).
Definition ListFiltered (f : RunListFilter) : rop (list AgentRun) :=
  _ ← ignore (ReclaimStaleRuns (10 * minute));
  _ ← db RunDb;
  s ← get;
  mret (newest_runs (FLimit f) (filter (fun r => run_matches f r = true) (agent_runs s))).

Definition GetRun (runID : string) : rop AgentRun :=
  _ ← db RunDb;
  s ← get;
  match find (has_id runID) (agent_runs s) with None => throw NoRun | Some r => mret (row_run r) end.
End runs.
