(* ===== verification/AgentContext.v ===== *)
(** * The context of an agent's conversation ([internal/agent/context.go])

    How a conversation is kept within the window of a model: the estimate of
    its tokens, pruning in whole blocks, and the shortening of observations. *)

From S2P Require Import Prelude GoStrings GoText Transcript.
#[local] Open Scope Z_scope.

Definition newline : string := String (byte_of 10) "".
Definition ellipsis : string := String (byte_of 226) (String (byte_of 128) (String (byte_of 166) "")).

Definition MaxRawObservationChars : Z := 8000.
Definition maxToolObservationChars : Z := 16000.
Definition defaultModelWindowTokens : Z := 128000.
Definition defaultStreamMaxTokens : Z := 32768.
Definition contextProtocolOverhead : Z := 16000.

(** [json.Marshal] of tool calls; [None] when their arguments are not JSON. *)
Class CallsJson := { calls_json : list ToolCall -> option string }.

(** [s[:n]] and [s[n:]] where the code knows the length. *)
Definition head_bytes (n : Z) (s : string) : string := take_bytes (Z.to_nat n) s.
Definition tail_bytes (n : Z) (s : string) : string := String.substring (Z.to_nat n) (String.length s - Z.to_nat n) s.

Definition set_content (m : Message) (c : string) : Message :=
  mkMessage (Role m) c (ReasoningContent m) (ToolCalls m) (ToolCallID m) (Name m) (ProviderItems m).
Definition with_role (role content : string) : Message := mkMessage role content "" [] "" "" [].

Section context.
Context `{CallsJson}.

(** ** Estimates *)

Definition message_bytes (m : Message) : Z :=
  len (Content m) + len (Name m) + len (ToolCallID m) + 8 +
  (match ToolCalls m with [] => 0 | tcs => match calls_json tcs with Some j => len j | None => 0 end end).
Definition estimateMessagesTokens (l : list Message) : Z :=
  Z.quot (foldr (fun m acc => message_bytes m + acc) 0 l) 3 + Z.of_nat (length l) * 4.

(** ** Shortening *)

Definition compacted : string := newline +:+ ellipsis +:+ "[compacted to fit the model context window]".

Definition capToolObservation (content : string) : string :=
  if len content <=? maxToolObservationChars then content
  else head_bytes maxToolObservationChars content +:+ newline +:+ newline +:+ "[Observation truncated from " +:+ pretty (len content) +:+
       " to " +:+ pretty maxToolObservationChars +:+ " characters. Fetch a narrower URL or quote a specific section.]".

(** The index and length of the longest tool message, the first of equals;
    an empty content is never the longest. *)
Fixpoint longest_tool (i : nat) (l : list Message) (best : option nat * Z) : option nat * Z :=
  match l with
  | [] => best
  | m :: l' =>
      longest_tool (Datatypes.S i) l'
        (if bool_decide (Role m = RoleTool) && (best.2 <? len (Content m)) then (Some i, len (Content m)) else best)
  end.

(** Each round halves the longest tool message; the loop has as many rounds as
    there are bytes in tool messages. *)
Fixpoint shrink (fuel : nat) (maxTokens : Z) (out : list Message) : list Message :=
  if estimateMessagesTokens out <=? maxTokens then out
  else
    match fuel with
    | O => out
    | Datatypes.S fuel' =>
        match longest_tool 0 out (None, 0) with
        | (None, _) => out
        | (Some i, n) =>
            if n <? 128 then out
            else
              let keep := Z.quot n 2 in
              if keep <? 64 then out
              else shrink fuel' maxTokens (alter (fun m => set_content m (head_bytes keep (Content m) +:+ compacted)) i out)
        end
    end.
Definition tool_bytes (l : list Message) : Z :=
  foldr (fun m acc => (if bool_decide (Role m = RoleTool) then len (Content m) else 0) + acc) 0 l.
Definition shrinkMessagesToBudget (l : list Message) (maxTokens : Z) : list Message :=
  shrink (Z.to_nat (tool_bytes l)) (Z.max maxTokens 64) l.

Definition compact_one (maxChars : Z) (m : Message) : Message :=
  if bool_decide (Role m = RoleTool) || (bool_decide (Role m = RoleAssistant) && bool_decide (ToolCalls m = [])) then
    if maxChars <? len (Content m) then set_content m (head_bytes maxChars (Content m) +:+ compacted) else m
  else m.
Definition compactToolObservations (l : list Message) (maxChars : Z) : list Message := compact_one (Z.max maxChars 256) <$> l.

(** ** Pruning *)

(** [messages[i]] for an index in range. *)
Definition no_message : Message := mkMessage "" "" "" [] "" "" [].
Definition at_index (l : list Message) (i : nat) : Message := nth i l no_message.
Definition role_at (l : list Message) (i : nat) (role : string) : bool := bool_decide (Role (at_index l i) = role).

(** [lastUserIdx]; the code's [-1] is [None]. *)
Fixpoint last_user (i : nat) (l : list Message) : option nat :=
  match l with
  | [] => None
  | m :: l' =>
      match last_user (Datatypes.S i) l' with
      | Some j => Some j
      | None => if bool_decide (Role m = RoleUser) then Some i else None
      end
  end.

(** [for start > 1 && messages[start-1].Role == RoleTool { start-- }] *)
Fixpoint back_tools (l : list Message) (start : nat) : nat :=
  match start with
  | Datatypes.S k => if (1 <? start)%nat && role_at l k RoleTool then back_tools l k else start
  | O => start
  end.
Definition block_start (l : list Message) (stop : nat) : nat :=
  let start := (stop - 1)%nat in
  if role_at l start RoleTool then
    let start := back_tools l start in
    if (1 <? start)%nat && negb (bool_decide (ToolCalls (at_index l (start - 1)) = [])) then (start - 1)%nat else start
  else start.

(** The walk backwards from [stop]; it goes back by one message at least. *)
Fixpoint walk_blocks (fuel : nat) (l : list Message) (stop : nat) (remaining : Z) (retained : list Message) : list Message :=
  match fuel with
  | O => retained
  | Datatypes.S fuel' =>
      if (1 <? stop)%nat then
        let start := block_start l stop in
        let block := drop start (take stop l) in
        let cost := estimateMessagesTokens block in
        if remaining <? cost then
          match retained with
          | _ :: _ => retained
          | [] =>
              let block := shrinkMessagesToBudget block remaining in
              walk_blocks fuel' l start (remaining - estimateMessagesTokens block) (block ++ retained)
          end
        else walk_blocks fuel' l start (remaining - cost) (block ++ retained)
      else retained
  end.

Definition checkpoint_note : Message := with_role RoleSystem
  "[Context checkpoint: older dialogue was compacted to stay within the model token budget. Use durable run state and retrieved memory for earlier decisions.]".

(** The message of the user that the turn is about, with its index. *)
Definition active_user (l : list Message) : option (nat * Message) :=
  match last_user 0 l with
  | Some (Datatypes.S k) => Some (Datatypes.S k, at_index l (Datatypes.S k))
  | _ => None
  end.
Definition prune_budget (l : list Message) (maxTokens : Z) : Z :=
  let userPromptCost := match active_user l with Some (_, m) => estimateMessagesTokens [m] | None => 0 end in
  Z.max 128 (maxTokens - estimateMessagesTokens [at_index l 0] - userPromptCost - 64).
Definition with_active_user (l retained : list Message) : list Message :=
  match active_user l with
  | Some (_, u) =>
      if existsb (fun m => bool_decide (Role m = RoleUser) && bool_decide (Content m = Content u)) retained then retained
      else u :: retained
  | None => retained
  end.

Definition PruneMessages (l : list Message) (maxTokens : Z) : list Message :=
  if (length l <=? 2)%nat || (estimateMessagesTokens l <=? maxTokens) then l
  else
    let retained := with_active_user l (walk_blocks (length l) l (length l) (prune_budget l maxTokens) []) in
    let note := if (length retained <? length l - 1)%nat then [checkpoint_note] else [] in
    SanitizeMessages (([at_index l 0] ++ note) ++ retained).

(** The summary kept of what pruning dropped ([PruneAndSnapshot]). *)
Definition summary_line (m : Message) : string :=
  let content := trim_space (Content m) in
  let content := if 600 <? len content then head_bytes 600 content +:+ ellipsis else content in
  if bool_decide (content = "") then "" else Role m +:+ ": " +:+ content +:+ newline.
Definition snapshot_summary (l : list Message) (dropped : nat) : string :=
  let summary := foldr (fun m acc => summary_line m +:+ acc) "" (take (dropped + 2) l) in
  if bool_decide (summary = "") then "Compacted older dialogue history to fit model token budget." else summary.

(** [contextBudget], of the manifest's [MaxTokens]; no manifest is [None]. *)
Definition contextBudget (max_tokens : option Z) : Z :=
  let outputReserve := match max_tokens with Some n => if 0 <? n then n else defaultStreamMaxTokens | None => defaultStreamMaxTokens end in
  let budget := defaultModelWindowTokens - outputReserve - contextProtocolOverhead in
  if budget <? 24000 then 24000 else budget.
End context.
