(* ===== verification/AgentEngine.v ===== *)
(** * The agent engine ([internal/agent/engine.go, lifecycle.go, approval_wait.go])

    What the loops around a language model share: the state, the interfaces to
    the cascade of models and to the tool registry ([Mind], [Hands]), budgets,
    runs, checkpoints, the registry of turns in flight and the waiters for
    approvals.

    A context is observed where the code looks at it: the next entry of the
    schedule of faults says whether it is done. *)

From S2P Require Import Prelude GoStrings Io Tables Risk Approval Registry GoText Transcript Cascade AgentRuns AgentContext.
From Stdlib Require Import SpecFloat.
#[local] Open Scope Z_scope.

(** ** The components the engine calls *)

(** A piece of a streamed answer. *)
Record StreamChunk := mkChunk {
  DeltaContent : string; DeltaReasoning : string; ChCalls : list ToolCall; ChUsage : option Usage; ChDone : bool;
  ChError : option string; ChItems : list string }.

(** The cascade of language models. *)
Class Mind (M : Type) := {
  mind_error : Type;
  mind_complete : list string -> list Message -> CompletionOptions -> io M mind_error Response;
  mind_stream : list string -> list Message -> CompletionOptions -> io M mind_error (list StreamChunk);
  mind_real : M -> bool;
  mind_text : mind_error -> string;
  mind_cancelled : mind_error -> bool;       (* the error is the context's *)
  mind_complete_quiet order messages opts : quiet (mind_complete order messages opts);
  mind_stream_quiet order messages opts : quiet (mind_stream order messages opts) }.

(** The registry of tools. *)
Class Hands (T : Type) := {
  hand_error : Type;
  hand_execute : ctx -> string -> string -> string -> io T hand_error (option ToolResult);
  hand_tools : list string -> list string -> T -> list ToolDefinition;
  hand_text : hand_error -> string;
  hand_cancelled : hand_error -> bool;
  hand_approval : hand_error -> option ApprovalRequest;
  hand_execute_quiet c agent tool args : quiet (hand_execute c agent tool args) }.

(** What the engine is wired to. *)
Class Wiring := {
  has_run_store : bool; has_context_manager : bool; has_context_db : bool; has_tools : bool; has_bus : bool;
  has_verifier : bool; has_in_flight : bool; has_reflection : bool; has_memory : bool; has_token_tracker : bool }.

(** [approvalDecision] *)
Record approvalDecision := mkDecision { Approved : bool; DReason : string }.

(** Text made and taken apart elsewhere: prompts, plans, tagged reasoning and
    tool calls in prose (those of [ProseCalls]), what the decoder says of a text that is not JSON
    and [ctx.Err()] of a context; [operator] is the decision a waiting turn
    gets, [None] when its context is done first; [hourly_tokens] and [monthly_cost] are sums of the
    token tracker, another each time they are asked for, [money] prints
    [%.4f]. *)
Class Prose := {
  cognitive_prompt : nat -> string -> string -> string;
  plan_note : nat -> string -> option string;
  extract_thinking : string -> string -> string * string;
  extract_calls : nat -> string -> string * list ToolCall;
  json_complaint : string -> string;
  ctx_text : string;
  operator : nat -> string -> option approvalDecision;
  memory_count : nat -> string -> Z;
  money : spec_float -> string;
  hourly_tokens : nat -> string -> option Z;
  monthly_cost : nat -> string -> result string spec_float }.

(** ** Data *)

Definition StatusActive : string := "active".
Record AgentManifest := mkManifest {
  AgentID : string; AgentName : string; AgentStatus : string;
  PrimaryModel : string; FallbackModel : string; MReasoningEffort : string; MMaxTokens : Z;
  AuthorizedTools : list string; MaxMonthlyBudgetUSD : spec_float; MaxTokensPerHour : Z; MaxConcurrentRuns : Z }.
Definition with_primary (model : string) (a : AgentManifest) : AgentManifest :=
  mkManifest (AgentID a) (AgentName a) (AgentStatus a) model (FallbackModel a) (MReasoningEffort a) (MMaxTokens a)
    (AuthorizedTools a) (MaxMonthlyBudgetUSD a) (MaxTokensPerHour a) (MaxConcurrentRuns a).

Definition DefaultMaxConcurrentRuns : Z := 2.
Definition DefaultMaxTokensPerHour : Z := 250000.

Record AuditLogEntry := mkAuditEntry { LAgent : string; LAction : string; LTool : string; LParameters : string; LStatus : string; LVerification : string }.
(** Events of a stream; durations are left out. *)
Inductive AgentStreamEvent :=
  | SThought (text : string) | SReasoning (text : string) | SToken (content : string) | STokenReset
  | SToolCall (tool id args : string) | SToolResult (tool id result status : string)
  | SAudit (entry : AuditLogEntry) | SApproval (tool id args : string) (a : ApprovalRequest)
  | SError (text : string) | SDone (content model : string) (usage : Usage).

(** What leaves the engine: requests to the models, the calls they answer with,
    calls of tools, events of the bus, and what is handed to reflection, memory and statistics. *)
Inductive engine_event :=
  | Asked (messages : list Message) (opts : CompletionOptions)
  | Wanted (calls : list ToolCall)
  | Summarizing (tool : string)
  | Called (c : ctx) (agent tool args : string)
  | Published (kind agent : string)
  | Reflected (agent goal content : string)
  | TokensRecorded (agent model source : string) (usage : Usage)
  | Replied (conversation agent content toolCallsJSON : string)
  | ConversationTouched (conversation : string).

Record Engine (M T : Type) := mkEngine {
  agents : gmap string AgentManifest;
  store : RunStore;
  mind : M;
  hands : T;
  by_run : gset string;
  by_agent : gmap string (gset string);
  waiters : gmap string (option approvalDecision);    (* channels of capacity one *)
  stream : list AgentStreamEvent;
  log : list engine_event }.
Arguments mkEngine {M T}. Arguments agents {M T}. Arguments store {M T}. Arguments mind {M T}. Arguments hands {M T}.
Arguments by_run {M T}. Arguments by_agent {M T}. Arguments waiters {M T}. Arguments stream {M T}. Arguments log {M T}.

Section setters.
Context {M T : Type}.
Definition set_store x (e : Engine M T) : Engine M T := mkEngine (agents e) x (mind e) (hands e) (by_run e) (by_agent e) (waiters e) (stream e) (log e).
Definition set_mind x (e : Engine M T) : Engine M T := mkEngine (agents e) (store e) x (hands e) (by_run e) (by_agent e) (waiters e) (stream e) (log e).
Definition set_hands x (e : Engine M T) : Engine M T := mkEngine (agents e) (store e) (mind e) x (by_run e) (by_agent e) (waiters e) (stream e) (log e).
Definition set_flight r a (e : Engine M T) : Engine M T := mkEngine (agents e) (store e) (mind e) (hands e) r a (waiters e) (stream e) (log e).
Definition set_waiters x (e : Engine M T) : Engine M T := mkEngine (agents e) (store e) (mind e) (hands e) (by_run e) (by_agent e) x (stream e) (log e).
Definition add_stream l (e : Engine M T) : Engine M T := mkEngine (agents e) (store e) (mind e) (hands e) (by_run e) (by_agent e) (waiters e) (stream e ++ l) (log e).
Definition add_log l (e : Engine M T) : Engine M T := mkEngine (agents e) (store e) (mind e) (hands e) (by_run e) (by_agent e) (waiters e) (stream e) (log e ++ l).
End setters.

(** ** Pure helpers *)

Definition addUsage (total current : Usage) : Usage :=
  mkUsage (PromptTokens total + PromptTokens current) (CompletionTokens total + CompletionTokens current) (TotalTokens total + TotalTokens current).
Definition truncateRunData (value : string) (limit : Z) : string :=
  if len value <=? limit then value else head_bytes limit value +:+ "...[truncated]".

Definition sourceFromMessage (message fallback : string) : string :=
  if contains_str message "[AUTONOMOUS MISSION" || contains_str message "<autonomous_mission_cycle" then "heartbeat"
  else if contains_str message "[AUTONOMOUS HEARTBEAT" || contains_str message "<autonomous_heartbeat" then "heartbeat"
  else if contains_str message "[AUTONOMOUS PROACTIVE" then "cron"
  else if contains_str message "[Channel:" || contains_str message "[Channel Metadata]" then "channel"
  else fallback.
Definition sourceFromContextOrMessage (c : ctx) (message fallback : string) : string :=
  let src := ExecutionSourceFromContext c in if bool_decide (src = "") then sourceFromMessage message fallback else src.

(** [VerifySemanticConsistency] *)
Definition VerifySemanticConsistency (goal output : string) : bool :=
  if bool_decide (trim_space output = "") then false
  else negb (contains_str output "I cannot fulfill this request" && (0 <? len goal)).

(** The patterns of the verifier, matched against the lower-cased command. *)
Definition forbiddenPatterns : list string :=
  ["rm -rf /"; "rm -rf /*"; ":(){ :|:& };:"; "mkfs"; "dd if=/dev/zero"; "> /dev/sda"; "> /dev/nvme"; "chmod -R 777 /"; "chown -R root /"].
Inductive verify_error := DecodingCommand (why : string) | VerifyNoCommand | ErrForbiddenCommand (pattern : string).
Definition verify_text (e : verify_error) : string :=
  match e with
  | DecodingCommand why => "decoding command arguments: " +:+ why
  | VerifyNoCommand => "command is required"
  | ErrForbiddenCommand p => "forbidden command: command violates deterministic security policy: matched forbidden pattern '" +:+ p +:+ "'"
  end.

Section verify.
Context `{Json} `{Unicode} `{Prose}.
Definition VerifyCommand (cmd : string) : result verify_error unit :=
  let lower := to_lower (trim_space cmd) in
  match find (contains_str lower) forbiddenPatterns with Some p => Err (ErrForbiddenCommand p) | None => Ok tt end.
Definition VerifyToolCommand (input : string) : result verify_error unit :=
  match json_field "command" (NormalizeToolInput input) with
  | None => Err (DecodingCommand (json_complaint input))
  | Some cmd => if bool_decide (trim_space cmd = "") then Err VerifyNoCommand else VerifyCommand cmd
  end.
End verify.

(** ** Errors of a turn *)

Inductive turn_error (ME HE : Type) :=
  | AgentNotFound (id : string) | AgentInactive (id status : string)
  | ErrHourlyTokenQuota (id : string) (used cap : Z) | BudgetCheckFailed (why : string) | BudgetExhausted (id : string) (cost budget : spec_float)
  | ErrConcurrentRunQuota (id : string)
  | ErrRunCancelled
  | ModelFailed (e : ME)
  | StreamFailed (text : string)
  | ToolFailed (e : HE)
  | NoConvergence (id : string)
  | ResumeNotConfigured | ResumeLoad (e : run_error) | ApprovalInvalid (why : string)
  | ResumeUnverified | ResumeExhausted
  | RunIdRequired | RunNotInFlight (id : string) | CancelFailed (e : run_error)
  | WaiterMissing | WaitEnded.
Arguments AgentNotFound {ME HE}. Arguments AgentInactive {ME HE}. Arguments ErrHourlyTokenQuota {ME HE}.
Arguments BudgetCheckFailed {ME HE}. Arguments BudgetExhausted {ME HE}. Arguments ErrConcurrentRunQuota {ME HE}.
Arguments ErrRunCancelled {ME HE}. Arguments ModelFailed {ME HE}. Arguments StreamFailed {ME HE}. Arguments ToolFailed {ME HE}.
Arguments NoConvergence {ME HE}. Arguments ResumeNotConfigured {ME HE}. Arguments ResumeLoad {ME HE}. Arguments ApprovalInvalid {ME HE}.
Arguments ResumeUnverified {ME HE}. Arguments ResumeExhausted {ME HE}. Arguments RunIdRequired {ME HE}. Arguments RunNotInFlight {ME HE}.
Arguments CancelFailed {ME HE}. Arguments WaiterMissing {ME HE}. Arguments WaitEnded {ME HE}.

Section engine.
Context {M T : Type} `{Mn : Mind M} `{Hd : Hands T} `{Wiring} `{Prose} `{Platform} `{RunCodec} `{CallsJson} `{Json} `{Unicode}.
Abbreviation engine := (Engine M T).
Abbreviation eop := (io (Engine M T) (turn_error mind_error hand_error)).

Definition note (l : list engine_event) : eop unit := modify (add_log l).
Definition publish_event (kind agent : string) : eop unit := if has_bus then note [Published kind agent] else mret tt.

(** A component's operation, with its error as a value. *)
Definition on_store {A} (m : io RunStore run_error A) : eop (result run_error A) := fun s e =>
  let '(r, (d, e')) := m (store s) e in (Ok r, (set_store d s, e')).
Definition on_mind {A} (m : io M mind_error A) : eop (result mind_error A) := fun s e =>
  let '(r, (d, e')) := m (mind s) e in (Ok r, (set_mind d s, e')).
Definition on_hands {A} (m : io T hand_error A) : eop (result hand_error A) := fun s e =>
  let '(r, (d, e')) := m (hands s) e in (Ok r, (set_hands d s, e')).

(** [ctx.Err() != nil], [<-ctx.Done()] *)
Definition ctx_done : eop bool := r ← attempt (db WaitEnded); mret (match r with Ok _ => false | Err _ => true end).

(** ** Runs *)

Definition startRun (traceID agentID goal source : string) : eop (option AgentRun) :=
  if negb has_run_store then mret None
  else r ← on_store (Start traceID agentID goal source); mret (match r with Ok run => Some run | Err _ => None end).

Definition with_end (status reason : string) (iterations : Z) (usage : Usage) (run : AgentRun) : AgentRun :=
  mkRun (RunID run) (RunTrace run) (RunAgent run) (RunGoal run) (RunSource run) status reason iterations usage
    (StartedAt run) (UpdatedAt run) (CompletedAt run).
(** The run in memory after the call: it is changed also when the table is not. *)
Definition finishRun (run : option AgentRun) (status reason : string) (iterations : Z) (usage : Usage) : eop (option AgentRun) :=
  match run with
  | None => mret None
  | Some run =>
      if negb has_run_store then mret (Some run)
      else
        r ← on_store (Finish (with_end status reason iterations usage run));
        mret (Some (match r with Ok (run', _) => run' | Err _ => run end))
  end.

Definition run_id (run : option AgentRun) : string := match run with Some r => RunID r | None => "" end.
Definition append_event (run : option AgentRun) (ev : AgentRun -> RunEvent) : eop unit :=
  match run with
  | None => mret tt
  | Some run => _ ← on_store (AppendEvent (ev run)); mret tt
  end.
Definition llm_event (step : Z) (resp : Response) (run : AgentRun) : RunEvent :=
  mkRunEvent "" (RunID run) (RunTrace run) step "llm" "success" "" (Some (DLlm (RModel resp) (Z.of_nat (length (RToolCalls resp))))) 0 None.
Definition tool_event_ (step : Z) (status : string) (tc : ToolCall) (observation : string) (ms : Z) (run : AgentRun) : RunEvent :=
  mkRunEvent "" (RunID run) (RunTrace run) step "tool" status (FnName (TcFunction tc))
    (Some (DTool (TcID tc) (truncateRunData observation 4096))) ms None.

(** [ConversationIDFromContext] is the argument [conv]. *)
Definition normalized_call (tc : ToolCall) : ToolCall :=
  mkToolCall (TcID tc) (TcType tc) (mkFunctionCall (FnName (TcFunction tc)) (NormalizeToolInput (FnArguments (TcFunction tc)))).
Definition saveApprovalCheckpoint (c : ctx) (conv : string) (run : option AgentRun) (agentID goal source : string)
    (messages : list Message) (iteration : Z) (usage : Usage) (pending : ToolCall) : eop unit :=
  match run with
  | None => mret tt
  | Some run =>
      if negb has_run_store then mret tt
      else
        _ ← on_store (SaveCheckpoint (mkCheckpoint (RunID run) (RunTrace run) agentID (TaskIDFromContext c) goal source
              messages iteration usage (normalized_call pending) conv));
        mret tt
  end.

(** [CancelRun]: what cancelling does to a turn is that its context is done. *)
Definition cancelRun (runID : string) (e : engine) : bool := bool_decide (runID ∈ by_run e).
Definition CancelRun (runID : string) : eop unit :=
  if bool_decide (runID = "") then throw RunIdRequired
  else
    interrupted ← gets (cancelRun runID);
    if has_run_store then
      r ← on_store (Cancel runID "operator_signal");
      match r with
      | Err x => if (interrupted : bool) then mret tt else throw (CancelFailed x)
      | Ok _ => mret tt
      end
    else if (interrupted : bool) then mret tt else throw (RunNotInFlight runID).
Definition CancelAgentWork (agentID : string) (e : engine) : nat := size (default ∅ (by_agent e !! agentID) ∩ by_run e).
Definition ReclaimOrphanRuns : eop (result run_error nat) := if has_run_store then on_store ReclaimOrphans else mret (Ok 0%nat).

(** ** Turns in flight *)

Definition track (agentID runID : string) (e : engine) : engine :=
  set_flight ({[runID]} ∪ by_run e) (<[agentID := {[runID]} ∪ default ∅ (by_agent e !! agentID)]> (by_agent e)) e.
Definition untrack (agentID runID : string) (e : engine) : engine :=
  set_flight (by_run e ∖ {[runID]})
    (match by_agent e !! agentID with
     | None => by_agent e
     | Some set =>
         let set := set ∖ {[runID]} in
         if bool_decide (set = ∅) then delete agentID (by_agent e) else <[agentID := set]> (by_agent e)
     end) e.
Definition in_flight_count (agentID : string) (e : engine) : Z := Z.of_nat (size (default ∅ (by_agent e !! agentID))).

(** ** Waiting for an approval *)

Definition register (id : string) (e : engine) : engine :=
  if bool_decide (id = "") then e else match waiters e !! id with Some _ => e | None => set_waiters (<[id := None]> (waiters e)) e end.
Definition unregister (id : string) (e : engine) : engine :=
  if bool_decide (id = "") then e else set_waiters (delete id (waiters e)) e.

(** ** Budgets *)

Definition f08 : spec_float := S754_finite false 7205759403792794 (-53).
Definition autonomous (source : string) : bool := bool_decide (source = "heartbeat") || bool_decide (source = "cron").
(** The manifest is the caller's copy: near the budget its model is replaced. *)
Definition checkBudget (a : AgentManifest) (source : string) : eop AgentManifest :=
  if negb has_token_tracker then mret a
  else
    let hourlyCap := if MaxTokensPerHour a <=? 0 then DefaultMaxTokensPerHour else MaxTokensPerHour a in
    n ← draw;
    _ ← match hourly_tokens n (AgentID a) with
        | Some used => if (hourlyCap <=? used) && autonomous source then throw (ErrHourlyTokenQuota (AgentID a) used hourlyCap) else mret tt
        | None => mret tt
        end;
    if SFleb (MaxMonthlyBudgetUSD a) (S754_zero false) then mret a
    else
      n ← draw;
      match monthly_cost n (AgentID a) with
      | Err why => throw (BudgetCheckFailed why)
      | Ok cost =>
          let budget := MaxMonthlyBudgetUSD a in
          if SFleb budget cost && autonomous source then throw (BudgetExhausted (AgentID a) cost budget)
          else if SFleb (SFmul 53 1024 budget f08) cost && negb (bool_decide (FallbackModel a = "")) then mret (with_primary (FallbackModel a) a)
          else mret a
      end.

(** ** The conversation *)

(** [PruneAndSnapshot]; the caller looks whether there is a manager. *)
Definition PruneAndSnapshot (runID : string) (l : list Message) (maxTokens : Z) : eop (list Message) :=
  let pruned := PruneMessages l maxTokens in
  if negb has_context_db || bool_decide (runID = "") || (length l <=? length pruned)%nat then mret pruned
  else
    n ← draw; t ← now;
    _ ← on_store (_ ← db RunDb;
                  modify (set_snapshots (fun r => r ++ [mkSnapshot ("ctx_" +:+ uuid_string n) runID
                    (snapshot_summary l (length l - length pruned)) (Z.of_nat (length l)) (Z.of_nat (length pruned)) t])));
    mret pruned.
Definition prune_for (run : option AgentRun) (a : AgentManifest) (l : list Message) : eop (list Message) :=
  if has_context_manager then PruneAndSnapshot (run_id run) l (contextBudget (Some (MMaxTokens a))) else mret l.
Definition compactAfterContextWindowError (runID : string) (a : AgentManifest) (l : list Message) : eop (list Message) :=
  let l := compactToolObservations l 4000 in
  if has_context_manager then PruneAndSnapshot runID l (Z.quot (contextBudget (Some (MMaxTokens a))) 2) else mret l.

Definition summarize_options : CompletionOptions := mkOptions "" "" "summarize" None [] [].
Definition summary_prompt (toolName raw : string) : string :=
  "Summarize this large output from tool " +:+ dquote +:+ toolName +:+ dquote +:+ " concisely for an autonomous agent." +:+ newline +:+
  "Preserve all key factual details, numbers, errors, file paths, IDs, and actionable outcomes." +:+ newline +:+
  "Keep under 500 words." +:+ newline +:+ newline +:+ "OUTPUT:" +:+ newline +:+ raw.
Definition stored_at (runID snapID : string) : string :=
  newline +:+ newline +:+ "[Full raw observation stored: view_full:" +:+ runID +:+ ":" +:+ snapID +:+ "]".
Definition truncated_observation (raw runID snapID : string) : string :=
  "[Observation Truncated (Original: " +:+ pretty (len raw) +:+ " chars, retaining 4500 chars)]" +:+ newline +:+
  head_bytes 3000 raw +:+ newline +:+ newline +:+ ellipsis +:+ " [Middle content omitted to prevent context overflow] " +:+ ellipsis +:+
  newline +:+ newline +:+ tail_bytes (len raw - 1500) raw +:+ stored_at runID snapID.

Definition AutoSummarizeObservation (runID toolName raw : string) : eop string :=
  if len raw <=? MaxRawObservationChars then mret raw
  else
    n ← draw;
    let snapID := "snap_obs_" +:+ uuid_string n in
    _ ← (if has_context_db && negb (bool_decide (runID = "")) then
           t ← now;
           _ ← on_store (_ ← db RunDb; modify (set_snapshots (fun r => r ++ [mkSnapshot snapID runID raw 1 1 t])));
           mret tt
         else mret tt);
    real ← gets (fun s => mind_real (mind s));
    if negb real then mret (truncated_observation raw runID snapID)
    else
      _ ← note [Summarizing toolName];
      r ← on_mind (mind_complete [] [with_role RoleUser (summary_prompt toolName raw)] summarize_options);
      match r with
      | Ok resp =>
          if bool_decide (trim_space (RContent resp) = "") then mret (truncated_observation raw runID snapID)
          else
            let '(cleaned, _) := extract_thinking (RContent resp) (RReasoning resp) in
            mret ("[Observation Summary (Original: " +:+ pretty (len raw) +:+ " chars, summarized to " +:+ pretty (len cleaned) +:+ " chars)]" +:+
                  newline +:+ trim_space cleaned +:+ stored_at runID snapID)
      | Err _ => mret (truncated_observation raw runID snapID)
      end.
(** The observation as the loops keep it. *)
Definition observe (run : option AgentRun) (toolName raw : string) : eop string :=
  if has_context_manager then AutoSummarizeObservation (run_id run) toolName raw else mret (capToolObservation raw).

(** ** Models and tools *)

Definition ask (order : list string) (messages : list Message) (opts : CompletionOptions) : eop (result mind_error Response) :=
  _ ← note [Asked messages opts]; on_mind (mind_complete order messages opts).

(** A request to the models, once more on a compacted conversation when it
    did not fit: the conversation then, and the answer. *)
Definition ask_fitting (order : list string) (run : option AgentRun) (a : AgentManifest) (messages : list Message) (opts : CompletionOptions)
  : eop (list Message * result mind_error Response) :=
  r ← ask order messages opts;
  match r with
  | Err x =>
      if IsContextWindowError (mind_text x) then
        messages ← compactAfterContextWindowError (run_id run) a messages;
        r ← ask order messages opts;
        mret (messages, r)
      else mret (messages, r)
  | Ok _ => mret (messages, r)
  end.

Inductive tool_failure := VerifyFailed (e : verify_error) | NoToolRegistry | HandFailed (e : hand_error).
Definition failure_text (f : tool_failure) : string :=
  match f with VerifyFailed e => verify_text e | NoToolRegistry => "tool registry is not configured" | HandFailed e => hand_text e end.
Definition failure_approval (f : tool_failure) : option ApprovalRequest := match f with HandFailed e => hand_approval e | _ => None end.

Definition execute_tool (c : ctx) (agentID name args : string) : eop (result hand_error (option ToolResult)) :=
  _ ← note [Called c agentID name args]; on_hands (hand_execute c agentID name args).
Definition verifyAndExecuteTool (c : ctx) (agentID name args : string) : eop (result tool_failure (option ToolResult)) :=
  match (if has_verifier && bool_decide (name = "native_exec") then VerifyToolCommand args else Ok tt) with
  | Err e => mret (Err (VerifyFailed e))
  | Ok _ =>
      if negb has_tools then mret (Err NoToolRegistry)
      else r ← execute_tool c agentID name args; mret (match r with Ok x => Ok x | Err e => Err (HandFailed e) end)
  end.

Definition cascade_order (a : AgentManifest) : list string :=
  (if bool_decide (PrimaryModel a = "") then [] else [PrimaryModel a]) ++ (if bool_decide (FallbackModel a = "") then [] else [FallbackModel a]).
Definition base_options (a : AgentManifest) (tools : list ToolDefinition) : CompletionOptions :=
  mkOptions "" (if bool_decide (MReasoningEffort a = "") then DefaultReasoningEffort else MReasoningEffort a) ""
    (Some (if 0 <? MMaxTokens a then MMaxTokens a else defaultStreamMaxTokens)) tools [].
Definition with_tools (tools : list ToolDefinition) (o : CompletionOptions) : CompletionOptions :=
  mkOptions (Model o) (ReasoningEffort o) (OTaskKind o) (MaxTokens o) tools (StopWords o).
(** The definitions offered to the model; none is the nil slice. *)
Definition offered (c : ctx) (a : AgentManifest) (t : T) : list ToolDefinition :=
  hand_tools (match AllowedTools c with Some allowed => allowed | None => AuthorizedTools a end) (DeniedTools c) t.

(** ** The end of a turn *)

Definition model_name (a : AgentManifest) (resp : Response) : string :=
  if (bool_decide (RModel resp = "") || negb (contains_str (RModel resp) "/")) && negb (bool_decide (PrimaryModel a = ""))
  then PrimaryModel a else RModel resp.
Definition RecordTokenUsage (agentID model source : string) (usage : Usage) : eop unit :=
  if has_token_tracker then note [TokensRecorded agentID model source usage] else mret tt.
Definition reflect (agentID goal content : string) : eop unit :=
  if has_reflection || has_memory then note [Reflected agentID goal content] else mret tt.
Definition persistConversationReply (conv agentID : string) (resp : Response) : eop unit :=
  let conv := trim_space conv in
  if negb has_memory || bool_decide (conv = "") then mret tt
  else
    let content := trim_space (RContent resp) in
    if bool_decide (content = "") && bool_decide (RToolCalls resp = []) then mret tt
    else
      let content := if bool_decide (content = "") then "Completed requested operations successfully." else content in
      let json := match RToolCalls resp with [] => "" | calls => default "" (calls_json calls) end in
      _ ← ignore (_ ← db WaitEnded; note [Replied conv agentID content json]);
      ignore (_ ← db WaitEnded; note [ConversationTouched conv]).
End engine.
