(* ===== verification/AgentStep.v ===== *)
(** * One turn of an agent ([internal/agent/engine_step.go])

    [ExecuteStepWithHistory]: the conversation goes to the models, the tools
    they call are run, the observations go back, until an answer comes.  The
    [for] loop is a recursion on the iterations left; the body of a turn gives
    its end as a value, for the deferred function to look at. *)

From S2P Require Import Prelude GoStrings Io Tables Risk Approval Registry GoText Transcript Cascade AgentRuns AgentContext AgentEngine.
#[local] Open Scope Z_scope.

Definition maxIterations : nat := 20.

Definition limit_note : Message := with_role RoleSystem
  "Iteration limit reached. Do not call any more tools. Synthesize all observations gathered above into your final comprehensive response to the user.".
Definition empty_retry (reasoning : string) : list Message :=
  [mkMessage RoleAssistant "[no reply]" reasoning [] "" "" [];
   with_role RoleUser "Your last reply was empty. Reply now with your final answer to the request."].
Definition no_response (model : string) : Response := mkResponse "" "" [] "" no_usage model [].
Definition canned_answer : string := "I have processed your request and completed the authorized actions.".

Definition set_rcontent (c reasoning : string) (r : Response) : Response :=
  mkResponse c reasoning (RToolCalls r) (FinishReason r) (RUsage r) (RModel r) (RProviderItems r).
Definition set_rcalls (l : list ToolCall) (r : Response) : Response :=
  mkResponse (RContent r) (RReasoning r) l (FinishReason r) (RUsage r) (RModel r) (RProviderItems r).
Definition set_rusage (u : Usage) (r : Response) : Response :=
  mkResponse (RContent r) (RReasoning r) (RToolCalls r) (FinishReason r) u (RModel r) (RProviderItems r).

(** The variables of the loop; [l_tools] is [opts.Tools], nil when empty. *)
Record Loop := mkLoop {
  l_messages : list Message; l_tools : list ToolDefinition; l_failures : Z; l_retries : nat;
  l_last : string; l_repeated : Z; l_calls : list ToolCall; l_usage : Usage; l_run : option AgentRun;
  l_final : option Response; l_iterations : Z }.
Definition set_messages x l := mkLoop x (l_tools l) (l_failures l) (l_retries l) (l_last l) (l_repeated l) (l_calls l) (l_usage l) (l_run l) (l_final l) (l_iterations l).
Definition set_tools_ x l := mkLoop (l_messages l) x (l_failures l) (l_retries l) (l_last l) (l_repeated l) (l_calls l) (l_usage l) (l_run l) (l_final l) (l_iterations l).
Definition set_failures x l := mkLoop (l_messages l) (l_tools l) x (l_retries l) (l_last l) (l_repeated l) (l_calls l) (l_usage l) (l_run l) (l_final l) (l_iterations l).
Definition set_retries x l := mkLoop (l_messages l) (l_tools l) (l_failures l) x (l_last l) (l_repeated l) (l_calls l) (l_usage l) (l_run l) (l_final l) (l_iterations l).
Definition set_observed last n l := mkLoop (l_messages l) (l_tools l) (l_failures l) (l_retries l) last n (l_calls l) (l_usage l) (l_run l) (l_final l) (l_iterations l).
Definition set_usage x l := mkLoop (l_messages l) (l_tools l) (l_failures l) (l_retries l) (l_last l) (l_repeated l) (l_calls l) x (l_run l) (l_final l) (l_iterations l).
Definition add_calls x l := mkLoop (l_messages l) (l_tools l) (l_failures l) (l_retries l) (l_last l) (l_repeated l) (l_calls l ++ x) (l_usage l) (l_run l) (l_final l) (l_iterations l).
Definition set_final x l := mkLoop (l_messages l) (l_tools l) (l_failures l) (l_retries l) (l_last l) (l_repeated l) (l_calls l) (l_usage l) (l_run l) x (l_iterations l).
Definition set_run x l := mkLoop (l_messages l) (l_tools l) (l_failures l) (l_retries l) (l_last l) (l_repeated l) (l_calls l) (l_usage l) x (l_final l) (l_iterations l).
Definition set_iterations x l := mkLoop (l_messages l) (l_tools l) (l_failures l) (l_retries l) (l_last l) (l_repeated l) (l_calls l) (l_usage l) (l_run l) (l_final l) x.

(** [if resultStr == lastObservation { repeatedObservations++ } else ...] *)
Definition count_observation (s : string) (l : Loop) : Loop :=
  if bool_decide (s = l_last l) then set_observed (l_last l) (l_repeated l + 1) l else set_observed s 0 l.

(** How a turn ended, for the deferred function. *)
Record TurnEnd (E : Type) := mkEnd { te_run : option AgentRun; te_iterations : Z; te_usage : Usage; te_result : result E Response }.
Arguments mkEnd {E}. Arguments te_run {E}. Arguments te_iterations {E}. Arguments te_usage {E}. Arguments te_result {E}.

(** The two messages of one round, appended together. *)
Definition assistant_block (content : string) (resp : Response) (results : list Message) : list Message :=
  mkMessage RoleAssistant content (RReasoning resp) (RToolCalls resp) "" "" (RProviderItems resp) :: results.
Definition tool_message (tc : ToolCall) (content : string) : Message :=
  mkMessage RoleTool content "" [] (TcID tc) (FnName (TcFunction tc)) [].

Section step.
Context {M T : Type} `{Mn : Mind M} `{Hd : Hands T} `{Wiring} `{Prose} `{Platform} `{RunCodec} `{CallsJson} `{Json} `{Unicode}.
Abbreviation err := (turn_error mind_error hand_error).
Abbreviation eop := (io (Engine M T) (turn_error mind_error hand_error)).
Abbreviation turn_end := (TurnEnd (turn_error mind_error hand_error)).

(** What a turn is about. *)
Record Turn := mkTurn { t_ctx : ctx; t_conv : string; t_agent : string; t_goal : string; t_source : string; t_manifest : AgentManifest }.

Definition end_with (l : Loop) (status reason : string) (iterations : Z) (r : result err Response) : eop turn_end :=
  run ← finishRun (l_run l) status reason iterations (l_usage l);
  mret (mkEnd run (l_iterations l) (l_usage l) r).

(** The text a call leaves for the model, the count of failures, the approval
    it needs. *)
Definition outcome_text (name : string) (r : result tool_failure (option ToolResult)) : string :=
  match r with
  | Err f => "Error executing tool " +:+ name +:+ ": " +:+ failure_text f
  | Ok (Some res) => Registry.Content res
  | Ok None => ""
  end.
Definition count_outcome (r : result tool_failure (option ToolResult)) (failures : Z) : Z :=
  match r with Err _ => failures + 1 | Ok (Some _) => 0 | Ok None => failures end.

Definition disable_tools (iter : nat) (l : Loop) : Loop :=
  if (5 <=? l_failures l) || (3 <=? l_repeated l) || (maxIterations - 2 <=? iter)%nat then set_tools_ [] l else l.

Definition needs_approval (r : result tool_failure (option ToolResult)) : option hand_error :=
  match r with
  | Err (HandFailed e) => match hand_approval e with Some _ => Some e | None => None end
  | _ => None
  end.

(** [for _, tc := range resp.ToolCalls]: the loop with the observations so
    far, or the end of the turn. *)
Fixpoint run_calls (u : Turn) (iter : nat) (resp : Response) (calls : list ToolCall) (done : list Message) (l : Loop)
  : eop (turn_end + (Loop * list Message)) :=
  match calls with
  | [] => mret (inr (l, done))
  | tc :: rest =>
      let name := FnName (TcFunction tc) in
      stop ← ctx_done;
      if (stop : bool) then
        x ← end_with l RunCancelled "context_cancelled" (Z.of_nat iter + 1) (Err ErrRunCancelled); mret (inl x)
      else
        r ← verifyAndExecuteTool (t_ctx u) (t_agent u) name (FnArguments (TcFunction tc));
        let l := set_failures (count_outcome r (l_failures l)) l in
        match needs_approval r with
        | Some e =>
            _ ← saveApprovalCheckpoint (t_ctx u) (t_conv u) (l_run l) (t_agent u) (t_goal u) (t_source u)
                  (l_messages l ++ assistant_block "" resp done) (Z.of_nat iter + 1) (l_usage l) tc;
            x ← end_with l RunApprovalPending "approval_required" (Z.of_nat iter + 1) (Err (ToolFailed e));
            mret (inl x)
        | None =>
            text ← observe (l_run l) name (outcome_text name r);
            let l := count_observation text l in
            _ ← append_event (l_run l) (tool_event_ (Z.of_nat iter + 1) (match r with Ok _ => "success" | Err _ => "error" end) tc text 0);
            run_calls u iter resp rest (done ++ [tool_message tc text]) (disable_tools iter l)
        end
  end.

(** The answer with reasoning and calls taken out of its prose. *)
Definition read_answer (tools : list ToolDefinition) (resp : Response) : eop Response :=
  let resp := if bool_decide (RContent resp = "") then resp
              else let '(c, t) := extract_thinking (RContent resp) (RReasoning resp) in set_rcontent c t resp in
  if bool_decide (RToolCalls resp = []) && negb (bool_decide (RContent resp = "")) then
    n ← draw;
    let '(cleaned, embedded) := extract_calls n (RContent resp) in
    let resp := if negb (bool_decide (embedded = [])) && negb (bool_decide (tools = [])) then set_rcalls embedded resp else resp in
    mret (set_rcontent cleaned (RReasoning resp) resp)
  else mret resp.

Definition wants_retry (iter : nat) (resp : Response) (l : Loop) : bool :=
  bool_decide (RToolCalls resp = []) && bool_decide (trim_space (RContent resp) = "") && (l_retries l <? 1)%nat && (iter <? maxIterations - 2)%nat.

(** What an iteration leads to: the end of the turn, a break with
    [converged], or the next iteration. *)
Inductive round := Stop (x : turn_end) | Converged (l : Loop) | Onward (l : Loop).

Definition react_round (u : Turn) (iter : nat) (l : Loop) : eop round :=
  stop ← ctx_done;
  if (stop : bool) then
    x ← end_with l RunCancelled "context_cancelled" (l_iterations l) (Err ErrRunCancelled); mret (Stop x)
  else
    let l := set_iterations (Z.of_nat iter + 1) l in
    let last := bool_decide (iter = maxIterations - 1)%nat in
    let tools := if last then [] else l_tools l in
    let l := if last then set_messages (l_messages l ++ [limit_note]) l else l in
    messages ← prune_for (l_run l) (t_manifest u) (l_messages l);
    answer ← ask_fitting (cascade_order (t_manifest u)) (l_run l) (t_manifest u) messages (base_options (t_manifest u) tools);
    let l := set_messages (answer.1) l in
    match answer.2 with
    | Err x =>
        _ ← publish_event "agent.action_failed" (t_agent u);
        x ← end_with l RunFailed "infrastructure_failure" (Z.of_nat iter + 1) (Err (ModelFailed x)); mret (Stop x)
    | Ok resp =>
        let l := set_usage (addUsage (l_usage l) (RUsage resp)) l in
        _ ← append_event (l_run l) (llm_event (Z.of_nat iter + 1) resp);
        let l := add_calls (RToolCalls resp) l in
        resp ← read_answer tools resp;
        _ ← note [Wanted (RToolCalls resp)];
        let l := set_final (Some resp) l in
        if wants_retry iter resp l then
          mret (Onward (set_retries (Datatypes.S (l_retries l)) (set_messages (l_messages l ++ empty_retry (RReasoning resp)) l)))
        else if bool_decide (RToolCalls resp = []) || negb has_tools || bool_decide (tools = []) then mret (Converged l)
        else
          x ← run_calls u iter resp (RToolCalls resp) [] l;
          match x with
          | inl x => mret (Stop x)
          | inr (l, done) => mret (Onward (set_messages (l_messages l ++ assistant_block "" resp done) l))
          end
    end.

(** The [for] loop: [Onward] when the iterations are used up. *)
Fixpoint react (u : Turn) (left : nat) (l : Loop) : eop round :=
  match left with
  | O => mret (Onward l)
  | Datatypes.S left' =>
      r ← react_round u (maxIterations - left) l;
      match r with Onward l => react u left' l | _ => mret r end
  end.

(** After the loop: the answer as it is given. *)
Definition settle (u : Turn) (l : Loop) : eop turn_end :=
  let resp := match l_final l with Some r => r | None => no_response (PrimaryModel (t_manifest u)) end in
  let resp := if negb (VerifySemanticConsistency (t_goal u) (RContent resp)) && negb (bool_decide (trim_space (RContent resp) = ""))
              then set_rcontent canned_answer (RReasoning resp) resp else resp in
  let resp := set_rusage (l_usage l) resp in
  let resp := match l_calls l with [] => resp | calls => set_rcalls calls resp end in
  _ ← (if bool_decide (RContent resp = "") then mret tt else reflect (t_agent u) (t_goal u) (RContent resp));
  _ ← publish_event "agent.action_done" (t_agent u);
  _ ← RecordTokenUsage (t_agent u) (model_name (t_manifest u) resp) (t_source u) (RUsage resp);
  end_with l RunCompleted "goal_completed" (l_iterations l) (Ok resp).

(** [if !converged]: one more request without tools. *)
Definition recovery (u : Turn) (l : Loop) : eop turn_end :=
  r ← ask (cascade_order (t_manifest u)) (l_messages l) (base_options (t_manifest u) []);
  match r with
  | Ok resp =>
      if bool_decide (RContent resp = "") then
        end_with l RunBlocked "iteration_budget_exhausted" (Z.of_nat maxIterations) (Err (NoConvergence (t_agent u)))
      else settle u (set_usage (addUsage (l_usage l) (RUsage resp)) (set_final (Some resp) l))
  | Err _ => end_with l RunBlocked "iteration_budget_exhausted" (Z.of_nat maxIterations) (Err (NoConvergence (t_agent u)))
  end.

Definition run_loop (u : Turn) (l : Loop) : eop turn_end :=
  r ← react u maxIterations l;
  match r with Stop x => mret x | Converged l => settle u l | Onward l => recovery u l end.

(** The deferred function of a turn that does not panic. *)
Definition error_text (e : err) : string :=
  match e with
  | ModelFailed x => "llm completion: " +:+ mind_text x
  | ToolFailed x => hand_text x
  | StreamFailed text => "llm completion: " +:+ text
  | ErrRunCancelled => "agent run cancelled: " +:+ ctx_text
  | NoConvergence id => "agent " +:+ id +:+ " reached the maximum of " +:+ pretty (Z.of_nat maxIterations) +:+ " ReAct iterations without convergence"
  | _ => ""                                        (* no end of a started turn *)
  end.
Definition context_error (e : err) : bool :=
  match e with ModelFailed x => mind_cancelled x | ToolFailed x => hand_cancelled x | _ => false end.
Definition close_turn (x : turn_end) : eop Response :=
  let end_run status reason := finishRun (te_run x) status reason (te_iterations x) (te_usage x) in
  _ ← (if match te_run x with Some run => bool_decide (RunStatus run = RunRunning) || bool_decide (RunStatus run = "") | None => false end then
         match te_result x with
         | Ok _ => end_run RunCompleted "goal_completed"
         | Err e =>
             if match e with ToolFailed h => bool_decide (is_Some (hand_approval h)) | _ => false end then mret None
             else if context_error e then end_run RunCancelled "timeout_or_cancelled"
             else end_run RunFailed (error_text e)
         end
       else mret None);
  lift (te_result x).

(** [agentMgr.Get] and the checks before a run is started. *)
Definition active_manifest (agentID : string) : eop AgentManifest :=
  s ← get;
  match agents s !! agentID with
  | None => throw (AgentNotFound agentID)
  | Some a =>
      let status := if bool_decide (AgentStatus a = "") then StatusActive else AgentStatus a in
      if bool_decide (status = StatusActive) then mret a else throw (AgentInactive agentID status)
  end.

Definition first_messages (n : nat) (agentID goal : string) (history : list Message) : list Message :=
  let messages := with_role RoleSystem (cognitive_prompt n agentID goal) :: history ++ [with_role RoleUser goal] in
  if bool_decide (history = []) && contains_str goal "[AUTONOMOUS" then
    match plan_note n goal with
    | Some plan =>
        [with_role RoleSystem (cognitive_prompt n agentID goal);
         with_role RoleSystem ("Durable execution plan. Execute only dependency-ready steps and verify each result before advancing:" +:+ newline +:+ plan);
         with_role RoleUser goal]
    | None => messages
    end
  else messages.

Definition fresh_loop (messages : list Message) (tools : list ToolDefinition) (run : option AgentRun) : Loop :=
  mkLoop messages tools 0 0 "" 0 [] no_usage run None 0.

Definition ExecuteStepWithHistory (c : ctx) (conv agentID userMessage : string) (history : list Message) : eop Response :=
  a ← active_manifest agentID;
  let source := sourceFromContextOrMessage c userMessage "chat" in
  a ← checkBudget a source;
  let maxConc := if MaxConcurrentRuns a <=? 0 then DefaultMaxConcurrentRuns else MaxConcurrentRuns a in
  busy ← gets (in_flight_count agentID);
  if has_in_flight && (maxConc <=? busy) then throw (ErrConcurrentRunQuota agentID)
  else
    n ← draw;
    let c := WithTraceID c (trace_string n) in
    run ← startRun (trace_string n) agentID userMessage source;
    let runID := match run with Some r => RunID r | None => trace_string n end in
    _ ← (if has_in_flight then modify (track agentID runID) else mret tt);
    _ ← publish_event "agent.action_started" agentID;
    n ← draw;
    s ← get;
    let tools := if has_tools && negb (bool_decide (AuthorizedTools a = [])) then offered c a (hands s) else [] in
    x ← run_loop (mkTurn c conv agentID userMessage source a) (fresh_loop (first_messages n agentID userMessage history) tools run);
    _ ← (if has_in_flight then modify (untrack agentID runID) else mret tt);
    close_turn x.
End step.
