(* ===== verification/AgentStream.v ===== *)
(** * One turn of an agent, streamed ([internal/agent/engine_stream.go])

    [ExecuteStepStreamWithHistory] and [completeStreamIteration]: the pieces of
    an answer are shown as they arrive, markup withheld, and a turn waits for
    the operator where a tool needs an approval.  The channel of events is the
    list of what was sent on it. *)

From S2P Require Import Prelude GoStrings Io Tables Risk Approval Registry GoText Transcript Cascade AgentRuns AgentContext AgentEngine AgentStep.
#[local] Open Scope Z_scope.

(** ** Markup in pieces of an answer *)

(** [strings.LastIndex] *)
Fixpoint last_index (s sub : string) : option nat :=
  match s with
  | "" => if bool_decide (sub = "") then Some 0%nat else None
  | String _ s' => match last_index s' sub with Some i => Some (Datatypes.S i) | None => if has_prefix s sub then Some 0%nat else None end
  end.
(** The last [b] is before the last [a]; no [b] counts as before. *)
Definition opened_last (s a b : string) : bool :=
  match last_index s a with
  | None => false
  | Some i => match last_index s b with Some j => (j <? i)%nat | None => true end
  end.

Section markup.
Context `{Unicode}.

Definition thinking_tags : list (string * string) :=
  [("<think>", "</think>"); ("<thought>", "</thought>"); ("<thinking>", "</thinking>"); ("[think]", "[/think]"); ("[reasoning]", "[/reasoning]")].
Definition isInsideThinkingBlock (accumulated : string) : bool :=
  existsb (fun t => opened_last (to_lower accumulated) t.1 t.2) thinking_tags.

Definition bar : string := String (byte_of 239) (String (byte_of 189) (String (byte_of 156) "")).
Definition quote (s : string) : string := dquote +:+ s +:+ dquote.
Definition after_last (s a : string) : string := match last_index s a with Some i => tail_bytes (Z.of_nat i) s | None => "" end.

Definition dsml_open (s : string) : bool :=
  (contains_str s ("DSML" +:+ bar +:+ bar +:+ "tool_calls>") || contains_str s "DSML||tool_calls>") &&
  negb (existsb (contains_str s)
    ["/DSML" +:+ bar +:+ bar +:+ "tool_calls>"; "/DSML||tool_calls>";
     "</" +:+ bar +:+ bar +:+ "DSML" +:+ bar +:+ bar +:+ "tool_calls>"; "</||DSML||tool_calls>"]).
Definition tag_open (s : string) : bool :=
  opened_last s "<" ">" &&
  let fragment := to_lower (after_last s "<") in
  existsb (has_prefix fragment) ["<" +:+ bar; "<|"; "<think"; "<thought"; "<tool_call"; "<function="; "<invoke"] || contains_str fragment "dsml".
Definition json_open (s : string) : bool :=
  let trimmed := trim_space s in
  opened_last trimmed "{" "}" &&
  existsb (contains_str (to_lower (after_last trimmed "{")))
    [quote "command"; quote "path"; dquote +:+ "native_"; quote "tool"; quote "arguments"; quote "tool_uses"; quote "recipient_name"].
Definition leaked_call (s : string) : bool :=
  existsb (contains_str (to_lower s)) ["to=functions."; "to=function."; "recipient_name"; quote "tool_uses"; "<|action_"].
Definition isInsideMarkupTag (s : string) : bool := dsml_open s || tag_open s || json_open s || leaked_call s.

(** [(?i)</?(?:think|thought|thinking|\[/?(?:think|reasoning)\])>?] at the head
    of a text, the leftmost alternative first: the rest after the match.  Case
    folding adds the Kelvin sign and the long s. *)
Definition folds (c r : Z) : bool :=
  (r =? c) || ((97 <=? c) && (c <=? 122) && (r =? c - 32)) || ((c =? 107) && (r =? 8490)) || ((c =? 115) && (r =? 383)).
Fixpoint literal (w : list Z) (l : list (Z * string)) : option (list (Z * string)) :=
  match w, l with
  | [], _ => Some l
  | c :: w', p :: l' => if folds c p.1 then literal w' l' else None
  | _, [] => None
  end.
Definition optional (w : list Z) (l : list (Z * string)) : list (Z * string) := default l (literal w l).
Definition thinking_tag (l : list (Z * string)) : option (list (Z * string)) :=
  l ← literal (runes "<") l;
  let l := optional (runes "/") l in
  l ← match first_some (fun w => literal (runes w) l) ["think"; "thought"; "thinking"] with
      | Some l => Some l
      | None =>
          l ← literal (runes "[") l;
          let l := optional (runes "/") l in
          l ← first_some (fun w => literal (runes w) l) ["think"; "reasoning"];
          literal (runes "]") l
      end;
  Some (optional (runes ">") l).
Fixpoint strip_tags (skip : nat) (l : list (Z * string)) : string :=
  match l with
  | [] => ""
  | p :: l' =>
      match skip with
      | Datatypes.S k => strip_tags k l'
      | O => match thinking_tag l with
             | Some rest => strip_tags (length l' - length rest) l'
             | None => p.2 +:+ strip_tags 0 l'
             end
      end
  end.
Definition stripThinkingTags (chunk : string) : string := strip_tags 0 (segments chunk).
End markup.
Example a_long_tag_is_cut : @stripThinkingTags "<thinking>so" = "ing>so".
Proof. vm_compute. reflexivity. Qed.

Section stream.
Context {M T : Type} `{Mn : Mind M} `{Hd : Hands T} `{Wiring} `{Prose} `{Platform} `{RunCodec} `{CallsJson} `{Json} `{Unicode}.
Abbreviation err := (turn_error mind_error hand_error).
Abbreviation eop := (io (Engine M T) (turn_error mind_error hand_error)).
Abbreviation turn_end := (TurnEnd (turn_error mind_error hand_error)).

Definition send (l : list AgentStreamEvent) : eop unit := modify (add_stream l).

(** ** One streamed answer *)

Definition add_content (d : string) (r : Response) : Response := set_rcontent (RContent r +:+ d) (RReasoning r) r.
Definition add_reasoning (d : string) (r : Response) : Response := set_rcontent (RContent r) (RReasoning r +:+ d) r.

(** A piece of content: the answer so far, the events, and whether a token
    was sent. *)
Definition content_piece (d : string) (r : Response) : Response * list AgentStreamEvent * bool :=
  if bool_decide (d = "") then (r, [], false)
  else
    let r := add_content d r in
    let clean := stripThinkingTags d in
    if isInsideThinkingBlock (RContent r) then
      if bool_decide (clean = "") then (r, [], false) else (add_reasoning clean r, [SReasoning clean], false)
    else if negb (isInsideMarkupTag (RContent r)) then
      if bool_decide (clean = "") then (r, [], false) else (r, [SToken clean], true)
    else (r, [], false).

Definition take_chunk (ch : StreamChunk) (r : Response) : Response * list AgentStreamEvent * bool :=
  let '(r, thought) :=
    if bool_decide (DeltaReasoning ch = "") then (r, []) else (add_reasoning (DeltaReasoning ch) r, [SReasoning (DeltaReasoning ch)]) in
  let '(r, shown, token) := content_piece (DeltaContent ch) r in
  (mkResponse (RContent r) (RReasoning r) (RToolCalls r ++ ChCalls ch) (FinishReason r) (default (RUsage r) (ChUsage ch)) (RModel r)
     (RProviderItems r ++ ChItems ch), thought ++ shown, token).

(** The pieces until the channel is closed or one says it is done. *)
Fixpoint read_chunks (chunks : list StreamChunk) (r : Response) (tokens : bool) : eop (result err (Response * bool)) :=
  stop ← ctx_done;
  if (stop : bool) then mret (Err (StreamFailed ctx_text))
  else
    match chunks with
    | [] => mret (Ok (r, tokens))
    | ch :: rest =>
        match ChError ch with
        | Some e => mret (Err (StreamFailed e))
        | None =>
            let '(r, events, token) := take_chunk ch r in
            _ ← send events;
            if ChDone ch then mret (Ok (r, tokens || token)) else read_chunks rest r (tokens || token)
        end
    end.

(** Reasoning and embedded calls out of the whole content. *)
Definition finish_reasoning (r : Response) : eop Response :=
  if bool_decide (RContent r = "") then mret r
  else
    let '(cleaned, thinking) := extract_thinking (RContent r) (RReasoning r) in
    _ ← (if negb (bool_decide (thinking = "")) && bool_decide (RReasoning r = "") then send [SReasoning thinking] else mret tt);
    mret (set_rcontent cleaned thinking r).
Definition finish_calls (r : Response) : eop Response :=
  if bool_decide (RToolCalls r = []) && negb (bool_decide (RContent r = "")) then
    n ← draw;
    let '(cleaned, embedded) := extract_calls n (RContent r) in
    mret (set_rcontent cleaned (RReasoning r) (if bool_decide (embedded = []) then r else set_rcalls embedded r))
  else mret r.
(** What the client has to take back, and what to show instead. *)
Definition corrections (raw : string) (tokens : bool) (r : Response) : list AgentStreamEvent :=
  if negb (bool_decide (RToolCalls r = [])) && tokens then [STokenReset]
  else if bool_decide (RToolCalls r = []) && tokens && negb (bool_decide (RContent r = raw)) then
    STokenReset :: (if bool_decide (RContent r = "") then [] else [SToken (RContent r)])
  else if bool_decide (RToolCalls r = []) && negb tokens && negb (bool_decide (RContent r = "")) then [SToken (RContent r)]
  else [].

(** The pieces to an answer, and what was shown of them put right. *)
Definition deliver (model : string) (chunks : list StreamChunk) : eop (result err Response) :=
  x ← read_chunks chunks (no_response model) false;
  match x with
  | Err e => mret (Err e)
  | Ok (r, tokens) =>
      let raw := RContent r in
      r ← finish_reasoning r;
      r ← finish_calls r;
      _ ← send (corrections raw tokens r);
      mret (Ok r)
  end.
Definition completeStreamIteration (order : list string) (messages : list Message) (opts : CompletionOptions) : eop (result err Response) :=
  _ ← note [Asked messages opts];
  chunks ← on_mind (mind_stream order messages opts);
  match chunks with
  | Err x => mret (Err (ModelFailed x))
  | Ok chunks => deliver (default "" (head order)) chunks
  end.

(** ** Tools *)

Definition thought (text : string) : eop unit := send [SThought text].
Definition audit_entry (agent action tool params status verification : string) : AgentStreamEvent :=
  SAudit (mkAuditEntry agent action tool params status verification).

(** [waitOnApproval] with the waiter of the request: [None] is an error. *)
Definition wait_for_approval (id : string) : eop (option approvalDecision) :=
  n ← draw;
  d ← (if bool_decide (id = "") then mret None else mret (operator n id));
  _ ← modify (unregister id);
  mret d.
(** [NotifyApprovalDecision]: a registered waiter gets the decision. *)
Definition NotifyApprovalDecision (id : string) : eop bool :=
  s ← get;
  if bool_decide (id = "") then mret false
  else
    match waiters s !! id with
    | Some _ => _ ← modify (set_waiters (delete id (waiters s))); mret true
    | None => mret false
    end.

Definition rejected_text (name reason : string) : string :=
  let reason := trim_space reason in
  "Operator rejected tool " +:+ name +:+ (if bool_decide (reason = "") then "" else ": " +:+ reason).
Definition count_hand (r : result hand_error (option ToolResult)) (failures : Z) : Z :=
  match r with Err _ => failures + 1 | Ok (Some _) => 0 | Ok None => failures end.
Definition hand_outcome (name : string) (r : result hand_error (option ToolResult)) : string :=
  match r with Err e => "Error executing tool " +:+ name +:+ ": " +:+ hand_text e | Ok (Some res) => Registry.Content res | Ok None => "" end.

(** A call that came to be executed: its text and status, or the end. *)
Definition with_approval (u : Turn) (iter : nat) (resp : Response) (done : list Message) (l : Loop) (tc : ToolCall)
    (e : hand_error) (a : ApprovalRequest) : eop (turn_end + (Loop * string * string)) :=
  let name := FnName (TcFunction tc) in let args := FnArguments (TcFunction tc) in
  _ ← saveApprovalCheckpoint (t_ctx u) (t_conv u) (l_run l) (t_agent u) (t_goal u) (t_source u)
        (l_messages l ++ assistant_block "" resp done) (Z.of_nat iter + 1) (l_usage l) tc;
  run ← finishRun (l_run l) RunApprovalPending "approval_required" (Z.of_nat iter + 1) (l_usage l);
  let l := set_run run l in
  _ ← modify (register (Approval.AID a));
  _ ← send [audit_entry (t_agent u) "approval_required" name "" "pending" (Approval.AID a);
            SApproval name (TcID tc) args a; SToolResult name (TcID tc) "awaiting human approval" "awaiting_approval";
            SThought ("Waiting for operator approval of '" +:+ name +:+ "'...")];
  d ← wait_for_approval (Approval.AID a);
  match d with
  | None => mret (inl (mkEnd (l_run l) (l_iterations l) (l_usage l) (Err (ToolFailed e))))
  | Some d =>
      if negb (Approved d) then mret (inr (set_failures (l_failures l + 1) l, rejected_text name (DReason d), "rejected"))
      else
        run ← finishRun (l_run l) RunRunning "" (Z.of_nat iter + 1) (l_usage l);
        let l := set_run run l in
        r ← execute_tool (WithApprovalID (t_ctx u) (Approval.AID a)) (t_agent u) name args;
        mret (inr (set_failures (count_hand r (l_failures l)) l, hand_outcome name r, match r with Ok _ => "success" | Err _ => "error" end))
  end.

Definition execute_call (u : Turn) (iter : nat) (resp : Response) (done : list Message) (l : Loop) (tc : ToolCall)
  : eop (turn_end + (Loop * string * string)) :=
  let name := FnName (TcFunction tc) in
  r ← execute_tool (t_ctx u) (t_agent u) name (FnArguments (TcFunction tc));
  match r with
  | Err e =>
      match hand_approval e with
      | Some a => with_approval u iter resp done l tc e a
      | None => mret (inr (set_failures (l_failures l + 1) l, hand_outcome name r, "error"))
      end
  | Ok _ => mret (inr (set_failures (count_hand r (l_failures l)) l, hand_outcome name r, "success"))
  end.

Definition disable_streamed (iter : nat) (l : Loop) : Loop :=
  if (5 <=? l_failures l) || (3 <=? l_repeated l) || (maxIterations - 2 <=? Datatypes.S iter)%nat then set_tools_ [] l else l.

Definition announce_call (u : Turn) (tc : ToolCall) (verdict : option verify_error) : eop unit :=
  let name := FnName (TcFunction tc) in let args := FnArguments (TcFunction tc) in
  send [SToolCall name (TcID tc) args;
        SThought ("Running Tier-1 AST & security policy verification for tool '" +:+ name +:+ "'...");
        audit_entry (t_agent u) "tool_security_check" name args (match verdict with Some _ => "blocked" | None => "verified" end)
          (match verdict with Some e => "Blocked: " +:+ verify_text e | None => "Tier-1 AST Clean & Safe" end)].
Definition report_call (u : Turn) (tc : ToolCall) (text status : string) : eop unit :=
  let name := FnName (TcFunction tc) in
  send [SToolResult name (TcID tc) text status;
        audit_entry (t_agent u) "tool_execution" name (FnArguments (TcFunction tc)) status "Sandboxed Process Isolation Safe";
        SThought ("Tool '" +:+ name +:+ "' returned. Analyzing observation...")].

Fixpoint stream_calls (u : Turn) (iter : nat) (resp : Response) (calls : list ToolCall) (done : list Message) (l : Loop)
  : eop (turn_end + (Loop * list Message)) :=
  match calls with
  | [] => mret (inr (l, done))
  | tc :: rest =>
      let name := FnName (TcFunction tc) in
      let verdict := if has_verifier && bool_decide (name = "native_exec")
                     then match VerifyToolCommand (FnArguments (TcFunction tc)) with Err e => Some e | Ok _ => None end else None in
      _ ← announce_call u tc verdict;
      match verdict with
      | Some e =>
          let text := "Tool execution blocked by policy: " +:+ verify_text e in
          _ ← send [SToolResult name (TcID tc) text "blocked"];
          stream_calls u iter resp rest (done ++ [tool_message tc text]) (set_failures (l_failures l + 1) l)
      | None =>
          _ ← thought ("Executing tool '" +:+ name +:+ "' in isolated runtime sandbox...");
          x ← execute_call u iter resp done l tc;
          match x with
          | inl x => mret (inl x)
          | inr (l, raw, status) =>
              text ← observe (l_run l) name raw;
              let l := count_observation text l in
              _ ← append_event (l_run l) (tool_event_ (Z.of_nat iter + 1) status tc text 0);
              _ ← report_call u tc text status;
              stream_calls u iter resp rest (done ++ [tool_message tc text]) (disable_streamed iter l)
          end
      end
  end.

(** ** The loop *)

Definition stream_error {A} (e : err) (text : string) : eop A := _ ← send [SError text]; throw e.

(** [ask_fitting], streamed. *)
Definition stream_fitting (order : list string) (run : option AgentRun) (a : AgentManifest) (messages : list Message) (opts : CompletionOptions)
  : eop (list Message * result err Response) :=
  r ← completeStreamIteration order messages opts;
  match r with
  | Err x =>
      if IsContextWindowError (match x with ModelFailed x => mind_text x | StreamFailed text => text | _ => "" end) then
        _ ← thought "Input exceeded the model context window. Compacting tool observations and retrying...";
        messages ← compactAfterContextWindowError (run_id run) a messages;
        r ← completeStreamIteration order messages opts;
        mret (messages, r)
      else mret (messages, r)
  | Ok _ => mret (messages, r)
  end.

Definition target_model (a : AgentManifest) : string := if bool_decide (PrimaryModel a = "") then "cascade-llm" else PrimaryModel a.

Definition stream_round (u : Turn) (iter : nat) (l : Loop) : eop round :=
  let a := t_manifest u in
  let l := set_iterations (Z.of_nat iter + 1) l in
  let last := bool_decide (iter = maxIterations - 1)%nat in
  let tools := if last then [] else l_tools l in
  let l := if last then set_messages (l_messages l ++ [limit_note]) l else l in
  _ ← thought ("Deliberating with " +:+ target_model a +:+ " (ReAct iteration " +:+ pretty (Z.of_nat iter + 1) +:+ ")...");
  messages ← prune_for (l_run l) a (l_messages l);
  answer ← stream_fitting (cascade_order a) (l_run l) a messages (base_options a tools);
  let l := set_messages (answer.1) l in
  match answer.2 with
  | Err x =>
      _ ← publish_event "agent.action_failed" (t_agent u);
      _ ← send [SError (match x with ModelFailed x => mind_text x | StreamFailed text => text | _ => "" end)];
      x ← end_with l RunFailed "infrastructure_failure" (Z.of_nat iter + 1) (Err x); mret (Stop x)
  | Ok resp =>
      let l := set_usage (addUsage (l_usage l) (RUsage resp)) l in
      _ ← append_event (l_run l) (llm_event (Z.of_nat iter + 1) resp);
      _ ← note [Wanted (RToolCalls resp)];
      let l := set_final (Some resp) (add_calls (RToolCalls resp) l) in
      if wants_retry iter resp l then
        mret (Onward (set_retries (Datatypes.S (l_retries l)) (set_messages (l_messages l ++ empty_retry (RReasoning resp)) l)))
      else if bool_decide (RToolCalls resp = []) || negb has_tools || bool_decide (tools = []) then
        _ ← send [audit_entry (t_agent u) "cognitive_react_cycle" "" "" "converged" "Tier-2 Semantic Consistency Verified"];
        mret (Converged l)
      else
        x ← stream_calls u iter resp (RToolCalls resp) [] l;
        match x with
        | inl x => mret (Stop x)
        | inr (l, done) => mret (Onward (set_messages (l_messages l ++ assistant_block "" resp done) l))
        end
  end.

Fixpoint stream_react (u : Turn) (left : nat) (l : Loop) : eop round :=
  match left with
  | O => mret (Onward l)
  | Datatypes.S left' =>
      r ← stream_round u (maxIterations - left) l;
      match r with Onward l => stream_react u left' l | _ => mret r end
  end.

Definition stream_settle (u : Turn) (l : Loop) : eop turn_end :=
  let resp := match l_final l with Some r => r | None => no_response (PrimaryModel (t_manifest u)) end in
  let resp := if negb (VerifySemanticConsistency (t_goal u) (RContent resp)) && negb (bool_decide (trim_space (RContent resp) = ""))
              then set_rcontent canned_answer (RReasoning resp) resp else resp in
  let resp := set_rusage (l_usage l) resp in
  let resp := match l_calls l with [] => resp | calls => set_rcalls calls resp end in
  _ ← (if bool_decide (RContent resp = "") then mret tt else reflect (t_agent u) (t_goal u) (RContent resp));
  _ ← publish_event "agent.action_done" (t_agent u);
  _ ← RecordTokenUsage (t_agent u) (model_name (t_manifest u) resp) (t_source u) (RUsage resp);
  _ ← send [SDone (RContent resp) (RModel resp) (RUsage resp)];
  _ ← persistConversationReply (t_conv u) (t_agent u) resp;
  end_with l RunCompleted "goal_completed" (l_iterations l) (Ok resp).

Definition stream_recovery (u : Turn) (l : Loop) : eop turn_end :=
  _ ← thought "Synthesizing final findings and reporting observations...";
  r ← completeStreamIteration (cascade_order (t_manifest u)) (l_messages l) (base_options (t_manifest u) []);
  match r with
  | Ok resp => stream_settle u (set_usage (addUsage (l_usage l) (RUsage resp)) (set_final (Some resp) l))
  | Err _ =>
      x ← end_with l RunBlocked "iteration_budget_exhausted" (l_iterations l) (Err (NoConvergence (t_agent u)));
      _ ← send [SError (error_text (NoConvergence (t_agent u)))];
      mret x
  end.
Definition stream_loop (u : Turn) (l : Loop) : eop turn_end :=
  r ← stream_react u maxIterations l;
  match r with Stop x => mret x | Converged l => stream_settle u l | Onward l => stream_recovery u l end.

Definition refusal_text (e : err) : string :=
  match e with
  | AgentNotFound id => "getting agent " +:+ id +:+ ": agent not found: " +:+ id
  | AgentInactive id status => "agent " +:+ id +:+ " is not active (status=" +:+ status +:+ ")"
  | ErrHourlyTokenQuota id used cap =>
      "agent hourly token quota exhausted: agent " +:+ id +:+ " used " +:+ pretty used +:+ " tokens in the last hour (cap " +:+ pretty cap +:+
      "); degrading autonomous pulses"
  | BudgetCheckFailed why => "checking monthly agent budget: " +:+ why
  | BudgetExhausted id cost budget =>
      "agent " +:+ id +:+ " monthly budget exhausted for autonomous work: spent " +:+ money cost +:+ " USD of " +:+ money budget +:+
      " USD (interactive chat still allowed on fallback)"
  | _ => ""                                        (* no refusal of these checks *)
  end.

Definition ExecuteStepStreamWithHistory (c : ctx) (conv agentID userMessage : string) (history : list Message) : eop Response :=
  a ← attempt (active_manifest agentID);
  match a with
  | Err e => stream_error e (refusal_text e)
  | Ok a =>
      let source := sourceFromContextOrMessage c userMessage "stream" in
      let c := WithExecutionSource c source in
      a ← attempt (checkBudget a source);
      match a with
      | Err e => stream_error e (refusal_text e)
      | Ok a =>
          n ← draw;
          let c := WithTraceID c (trace_string n) in
          run ← startRun (trace_string n) agentID userMessage source;
          _ ← thought ("Activating agent '" +:+ AgentName a +:+ "' (" +:+ PrimaryModel a +:+ ")...");
          _ ← publish_event "agent.action_started" agentID;
          _ ← thought "Retrieving user profile, procedural guidelines, and episodic memory...";
          n ← draw;
          s ← get;
          let count := memory_count n agentID in
          _ ← (if 0 <? count then
                 send [audit_entry agentID "cognitive_memory_retrieval" "" "" "success"
                         ("Retrieved " +:+ pretty count +:+ " memory fragments (episodic diary + semantic vector knowledge)")]
               else mret tt);
          let tools := if has_tools && negb (bool_decide (AuthorizedTools a = [])) then offered c a (hands s) else [] in
          x ← stream_loop (mkTurn c conv agentID userMessage source a) (fresh_loop (first_messages n agentID userMessage history) tools run);
          close_turn x
      end
  end.
End stream.
