(* ===== verification/AgentSpec.v ===== *)
(** * What a turn of an agent promises

    Pruning: the loops end; messages keep their places and all but the length
    of tool results; results are not separated from the answer that wanted
    them, and the message of the user that the turn is about is never lost.

    The turn: its log, cut down to requests, answers and calls of tools
    ([acts]), is a run of an abstract loop ([react_run]): ask, act on what is
    wanted, ask again with the observations; from it follow the bounds.  What
    a streamed answer leaves on the screen is its text, less what looked like
    markup. *)

From S2P Require Import Prelude GoStrings Io Tables Risk Approval Registry GoText Transcript Cascade AgentRuns AgentContext AgentEngine AgentStep AgentStream.
#[local] Open Scope Z_scope.

(** A message as shortening leaves it. *)
Definition shortened (m m' : Message) : Prop :=
  m' = m \/ Role m = RoleTool /\ len (Content m') <= len (Content m) /\ exists c, m' = set_content m c.
#[export] Instance shortened_preorder : PreOrder shortened.
Proof.
  split; [by left|]. intros m1 m2 m3 [->|(Hr & Hl & c & ->)]; [done|]. intros [->|(_ & Hl' & c' & ->)]; right; [by eauto|].
  split; [done|]. split; [cbn in *; lia|by exists c'].
Qed.

Lemma len_nonneg s : 0 <= len s.
Proof. unfold len. lia. Qed.
Lemma substring_short n m s : (String.length (String.substring n m s) <= m)%nat.
Proof. revert n m. induction s as [|c s IH]; intros [|n] [|m]; cbn; try lia; [specialize (IH 0%nat m)|specialize (IH n 0%nat)|specialize (IH n (S m))]; lia. Qed.
Lemma head_bytes_len n s : 0 <= n -> len (head_bytes n s) <= n.
Proof. intros Hn. unfold len, head_bytes, take_bytes. pose proof (substring_short 0 (Z.to_nat n) s). lia. Qed.
Lemma len_app a b : len (a +:+ b) = len a + len b.
Proof. unfold len. rewrite string_length_app. lia. Qed.
Lemma half_bounds n : 0 <= n -> 0 <= Z.quot n 2 /\ n - 1 <= 2 * Z.quot n 2 <= n.
Proof. intros Hn. rewrite Z.quot_div_nonneg by lia. pose proof (Z.div_mod n 2 ltac:(lia)). pose proof (Z.mod_pos_bound n 2 ltac:(lia)). lia. Qed.
(** Half of a long text and the note are shorter than the text. *)
Lemma halved_shorter n s : 128 <= n -> len (head_bytes (Z.quot n 2) s +:+ compacted) < n.
Proof.
  intros Hn. rewrite len_app. pose proof (half_bounds n ltac:(lia)). pose proof (head_bytes_len (Z.quot n 2) s). change (len compacted) with 47. lia.
Qed.

(** ** Shrinking *)

Lemma longest_tool_spec i l b : let '(o, n) := longest_tool i l b in
  b.2 <= n /\ Forall (fun m => Role m = RoleTool -> len (Content m) <= n) l /\
  ((o, n) = b \/ exists k m, o = Some (i + k)%nat /\ l !! k = Some m /\ Role m = RoleTool /\ len (Content m) = n).
Proof.
  revert i b. induction l as [|m l IH]; intros i b; cbn [longest_tool]; [destruct b; split_and!; [done|constructor|by left]|].
  match goal with |- context [longest_tool (S i) l ?b] => set (b' := b) end. specialize (IH (S i) b'). destruct (longest_tool (S i) l b') as [o n].
  destruct IH as (Hle & Hall & Hat).
  assert (b.2 <= b'.2 /\ (Role m = RoleTool -> len (Content m) <= b'.2)) as [Hb Hm].
  { unfold b'. destruct (bool_decide_reflect (Role m = RoleTool)); cbn [andb]; [|done].
    destruct (Z.ltb_spec b.2 (len (Content m))); cbn; lia. }
  split_and!; [lia|constructor; [intros; specialize (Hm ltac:(done)); lia|done]|].
  destruct Hat as [Hat|(k & m' & -> & Hk & Hr & Hl)].
  - unfold b' in Hat. case_bool_decide as Hrole; cbn [andb] in Hat; [|by left].
    destruct (_ <? _); [|by left]. injection Hat as -> ->. right. exists 0%nat, m. rewrite Nat.add_0_r. by split_and!.
  - right. exists (S k), m'. by rewrite Nat.add_succ_r.
Qed.

Lemma tool_bytes_nonneg l : 0 <= tool_bytes l.
Proof. induction l as [|m l IH]; cbn; [done|]. fold (tool_bytes l). pose proof (len_nonneg (Content m)). case_bool_decide; lia. Qed.
Lemma tool_bytes_alter f l i m : l !! i = Some m -> Role m = RoleTool -> Role (f m) = RoleTool -> len (Content (f m)) < len (Content m) ->
  tool_bytes (alter f i l) < tool_bytes l.
Proof.
  revert i. induction l as [|x l IH]; intros [|i]; cbn; try done.
  - intros [= ->] Hr Hr' Hl. rewrite !bool_decide_true by done. fold (tool_bytes l). lia.
  - intros Hi Hr Hr' Hl. fold (tool_bytes (alter f i l)) (tool_bytes l). specialize (IH i Hi Hr Hr' Hl). lia.
Qed.
Lemma shortened_alter f l i m : l !! i = Some m -> shortened m (f m) -> Forall2 shortened l (alter f i l).
Proof.
  revert i. induction l as [|x l IH]; intros [|i]; cbn; try done.
  - intros [= ->] Hm. constructor; [done|]. apply Forall_Forall2_diag, Forall_true. reflexivity.
  - intros Hi Hm. constructor; [reflexivity|by apply IH].
Qed.

Section spec.
Context `{CallsJson}.

(** What a list of messages is shrunk to. *)
Definition shrunk (maxTokens : Z) (l l' : list Message) : Prop :=
  (estimateMessagesTokens l' <= maxTokens \/ Forall (fun m => Role m = RoleTool -> len (Content m) < 128) l') /\ Forall2 shortened l l'.
Lemma shrunk_trans n l1 l2 l3 : Forall2 shortened l1 l2 -> shrunk n l2 l3 -> shrunk n l1 l3.
Proof. intros Hs [He Hs']. split; [done|]. by etransitivity. Qed.

Lemma shrink_spec fuel n l : tool_bytes l <= Z.of_nat fuel -> shrunk n l (shrink fuel n l).
Proof.
  assert (forall l, Forall2 shortened l l) as Hrefl by (intros; apply Forall_Forall2_diag, Forall_true; reflexivity).
  revert l. induction fuel as [|fuel IH]; intros l Hf; cbn [shrink]; destruct (Z.leb_spec (estimateMessagesTokens l) n) as [Hn|Hn]; try (by split; [left|]).
  - split; [right|done]. clear Hn. induction l as [|m l IHl]; [constructor|]. cbn in Hf. fold (tool_bytes l) in Hf.
    pose proof (tool_bytes_nonneg l). pose proof (len_nonneg (Content m)). case_bool_decide; constructor; [lia|apply IHl; lia|done|apply IHl; lia].
  - pose proof (longest_tool_spec 0 l (None, 0)) as Hlong. destruct (longest_tool 0 l (None, 0)) as [o len_]. destruct Hlong as (H0' & Hall & Hat).
    destruct o as [i|].
    2:{ destruct Hat as [[= ->]|(k & m & [=] & _)]. split; [right|done]. eapply Forall_impl; [exact Hall|]. cbv beta. intros m Hm Hr. specialize (Hm Hr). lia. }
    destruct (Z.ltb_spec len_ 128) as [Hs|Hs].
    { split; [right|done]. eapply Forall_impl; [exact Hall|]. cbv beta. intros m Hm Hr. specialize (Hm Hr). lia. }
    destruct Hat as [[=]|(k & m & [= ->] & Hk & Hr & Hl)]. cbn [Nat.add].
    destruct (Z.ltb_spec (Z.quot len_ 2) 64) as [Hq|Hq]; [pose proof (half_bounds len_ ltac:(lia)); lia|].
    pose proof (halved_shorter len_ (Content m) Hs) as Hhalf. eapply shrunk_trans; [eapply shortened_alter; [exact Hk|]|apply IH].
    + right. split; [done|]. split; [cbn; lia|by eexists].
    + pose proof (tool_bytes_alter (fun m => set_content m (head_bytes (Z.quot len_ 2) (Content m) +:+ compacted)) l k m Hk Hr Hr) as Hdec.
      cbn [Content set_content] in Hdec. rewrite Hl in Hdec. specialize (Hdec Hhalf). lia.
Qed.

Lemma shrinking_ends_short l maxTokens : Forall2 shortened l (shrinkMessagesToBudget l maxTokens).
Proof. eapply shrink_spec. rewrite Z2Nat.id; [done|apply tool_bytes_nonneg]. Qed.

(** Shrinking ends within the rounds given, with a list that fits or has no
    tool result of 128 bytes left; it keeps every message in its place and only
    replaces texts of tool results by no longer ones. *)
Theorem shrinking_ends l maxTokens : shrunk (Z.max maxTokens 64) l (shrinkMessagesToBudget l maxTokens).
Proof. apply shrink_spec. rewrite Z2Nat.id; [done|apply tool_bytes_nonneg]. Qed.

(** ** Whole blocks *)

(** No result of a call is at [k] while the answer that wanted it is before. *)
Definition whole (l : list Message) (k : nat) : Prop :=
  (1 < k < length l)%nat -> role_at l k RoleTool = true -> role_at l (k - 1) RoleTool = false /\ ToolCalls (at_index l (k - 1)) = [].

Lemma back_tools_spec l start : (1 <= start)%nat -> (1 <= back_tools l start <= start)%nat /\
  ((1 < back_tools l start)%nat -> role_at l (back_tools l start - 1) RoleTool = false).
Proof.
  induction start as [|k IH]; intros Hs; [lia|]. cbn [back_tools].
  destruct (Nat.ltb_spec 1 (S k)) as [Hk|Hk]; cbn [andb]; [|split; [lia|lia]].
  destruct (role_at l k RoleTool) eqn:Hr.
  - destruct IH as [Hle Hb]; [lia|]. split; [lia|done].
  - split; [lia|]. intros _. by rewrite Nat.sub_succ, Nat.sub_0_r.
Qed.
Lemma block_start_spec l stop : (1 < stop)%nat -> (1 <= block_start l stop < stop)%nat /\ whole l (block_start l stop).
Proof.
  intros Hs. unfold block_start. cbv zeta. destruct (role_at l (stop - 1) RoleTool) eqn:Hr.
  2:{ split; [lia|]. intros _. by rewrite Hr. }
  destruct (back_tools_spec l (stop - 1)) as [Hle Hb]; [lia|]. set (b := back_tools l (stop - 1)) in *. clearbody b.
  destruct (Nat.ltb_spec 1 b) as [H1'|H1']; cbn [andb].
  - specialize (Hb H1'). case_bool_decide as Hc; cbn [negb].
    + split; [lia|]. by intros _ _.
    + split; [lia|]. intros _. by rewrite Hb.
  - split; [lia|]. intros ? _. lia.
Qed.

Lemma drop_take_split {A} (l : list A) k start stop : (k <= start <= stop)%nat -> drop k (take stop l) = drop k (take start l) ++ drop start (take stop l).
Proof.
  intros Hk. rewrite <- (take_drop start (take stop l)) at 1. rewrite take_take, drop_app, Nat.min_l by lia.
  destruct (decide (start <= length l)%nat) as [Hl|Hl].
  - rewrite length_take_le by lia. by replace (k - start)%nat with 0%nat by lia.
  - rewrite (drop_ge (take stop l)) by (rewrite length_take; lia). by rewrite drop_nil.
Qed.

Lemma walk_spec fuel l stop remaining retained : (stop <= fuel)%nat -> (1 <= stop <= length l)%nat -> whole l stop ->
  exists k walked, walk_blocks fuel l stop remaining retained = walked ++ retained /\ (1 <= k <= stop)%nat /\ whole l k /\
    Forall2 shortened (drop k (take stop l)) walked /\ (retained = [] -> (1 < stop)%nat -> (k < stop)%nat).
Proof.
  revert stop remaining retained. induction fuel as [|fuel IH]; intros stop remaining retained Hf Hs Hw; [lia|]. cbn [walk_blocks].
  assert (Hnil : Forall2 shortened (drop stop (take stop l)) []) by (rewrite drop_ge by (rewrite length_take; lia); constructor).
  destruct (Nat.ltb_spec 1 stop) as [H1'|H1'].
  2:{ exists stop, []. split_and!; [done|lia|lia|done|exact Hnil|lia]. }
  destruct (block_start_spec l stop H1') as [Hstart Hws]. cbv zeta. set (start := block_start l stop) in *. set (block := drop start (take stop l)).
  assert (Hstep : forall rem b, Forall2 shortened block b -> exists k walked, walk_blocks fuel l start rem (b ++ retained) = walked ++ retained /\
     (1 <= k <= stop)%nat /\ whole l k /\ Forall2 shortened (drop k (take stop l)) walked /\ (retained = [] -> (1 < stop)%nat -> (k < stop)%nat)).
  { intros rem b Hb. destruct (IH start rem (b ++ retained)) as (k & walked & -> & Hk & Hwk & Hsh & _); [lia|lia|done|].
    exists k, (walked ++ b). rewrite <- app_assoc. split_and!; [done|lia|lia|done| |lia].
    rewrite (drop_take_split l k start stop) by lia. by apply Forall2_app. }
  destruct (_ <? _); [|apply Hstep, Forall_Forall2_diag, Forall_true; reflexivity].
  destruct retained as [|m retained].
  - apply Hstep. apply (shrinking_ends_short block remaining).
  - exists stop, []. split_and!; [done|lia|lia|done|exact Hnil|done].
Qed.

(** ** Pruning *)

Lemma last_user_spec i l j : last_user i l = Some j -> (i <= j)%nat /\ exists m, l !! (j - i)%nat = Some m /\ Role m = RoleUser.
Proof.
  revert i. induction l as [|m l IH]; intros i; cbn [last_user]; [done|]. destruct (last_user (S i) l) as [j'|] eqn:Hl.
  - intros [= ->]. destruct (IH _ Hl) as (Hj & m' & Hm' & Hr). split; [lia|]. exists m'. split; [|done].
    by replace (j - i)%nat with (S (j - S i))%nat by lia.
  - case_bool_decide; [|done]. intros [= ->]. split; [lia|]. exists m. by rewrite Nat.sub_diag.
Qed.
Lemma active_user_spec l i u : active_user l = Some (i, u) -> l !! i = Some u /\ Role u = RoleUser.
Proof.
  unfold active_user. destruct (last_user 0 l) as [[|k]|] eqn:Hl; [done| |done]. intros [= <- <-].
  apply last_user_spec in Hl as (_ & m & Hm & Hr). rewrite Nat.sub_0_r in Hm. unfold at_index. by rewrite (nth_lookup_Some _ _ _ _ Hm).
Qed.
Lemma with_active_user_spec l retained i u : active_user l = Some (i, u) ->
  exists m, m ∈ with_active_user l retained /\ Role m = RoleUser /\ Content m = Content u.
Proof.
  intros Hu. unfold with_active_user. rewrite Hu. destruct (existsb _ retained) eqn:He.
  - apply existsb_exists_elem in He as (m & Hm & [Hr%bool_decide_eq_true Hc%bool_decide_eq_true]%andb_true_iff). by exists m.
  - exists u. split; [left|]. split; [|done]. by apply active_user_spec in Hu as [_ ?].
Qed.

(** C38. A conversation that fits is left alone.  Any other becomes, in a form
    the providers accept, its first message, perhaps a note, perhaps the
    message of the user the turn is about, and the messages from some place on, the last one among them,
    with tool results shortened at most; that place never separates a result
    from the answer that wanted it, and the message of the user is not lost. *)
Theorem pruned_conversation l maxTokens :
  if (length l <=? 2)%nat || (estimateMessagesTokens l <=? maxTokens) then PruneMessages l maxTokens = l
  else exists k note walked, (1 <= k < length l)%nat /\ whole l k /\ Forall2 shortened (drop k l) walked /\
    (note = [] \/ note = [checkpoint_note]) /\
    PruneMessages l maxTokens = SanitizeMessages (at_index l 0 :: note ++ with_active_user l walked) /\
    forall i u, active_user l = Some (i, u) -> l !! i = Some u /\ Role u = RoleUser /\
      exists m, m ∈ with_active_user l walked /\ Role m = RoleUser /\ Content m = Content u.
Proof.
  unfold PruneMessages. destruct (_ || _) eqn:Hfit; [done|]. apply orb_false_iff in Hfit as [Hlen%Nat.leb_gt _].
  destruct (walk_spec (length l) l (length l) (prune_budget l maxTokens) []) as (k & walked & -> & Hk & Hw & Hsh & Hlt); [lia|lia|by intros ?; lia|].
  cbv zeta. rewrite app_nil_r, take_ge in * by done. set (note := if _ : bool then [checkpoint_note] else []).
  exists k, note, walked. split_and!; [lia|specialize (Hlt eq_refl); lia|done|done| |by rewrite <- app_assoc|].
  - unfold note. destruct (_ <? _)%nat; auto.
  - intros i u Hu. split_and!; [by apply active_user_spec in Hu as [? _]|by apply active_user_spec in Hu as [_ ?]|by eapply with_active_user_spec].
Qed.
End spec.


#[local] Open Scope Z_scope.

(** ** The log *)

Definition is_act (ev : engine_event) : bool := match ev with Asked _ _ | Wanted _ | Called _ _ _ _ => true | _ => false end.
Definition acts (l : list engine_event) : list engine_event := filter (fun ev => is_act ev = true) l.
Definition acted {M T} (s : Engine M T) : list engine_event := acts (log s).
Definition is_asked (ev : engine_event) : bool := match ev with Asked _ _ => true | _ => false end.
Definition asked (l : list engine_event) : nat := length (filter (fun ev => is_asked ev = true) l).

Lemma acts_app l l' : acts (l ++ l') = acts l ++ acts l'.
Proof. apply filter_app. Qed.
Lemma asked_app l l' : asked (l ++ l') = (asked l + asked l')%nat.
Proof. unfold asked. by rewrite filter_app, length_app. Qed.

Section logs.
Context {M T : Type} {E : Type}.
Abbreviation eop := (io (Engine M T) E).

(** [logs Q m]: what [m] adds to the acts, with its result, satisfies [Q]. *)
Definition logs {A} (Q : result E A -> list engine_event -> Prop) (m : eop A) : Prop :=
  forall s e, wp m (fun r s' _ => exists l, acted s' = acted s ++ l /\ Q r l) s e.
Definition inert (s s' : Engine M T) : Prop := acted s' = acted s.
#[export] Instance inert_preorder : PreOrder inert.
Proof. split; unfold inert; repeat intro; congruence. Qed.

Lemma logs_ret {A} (Q : result E A -> list engine_event -> Prop) a : Q (Ok a) [] -> logs Q (mret a).
Proof. intros HQ s e. apply wp_ret. exists []. by rewrite app_nil_r. Qed.
Lemma logs_keeps {A} (Q : result E A -> list engine_event -> Prop) (m : eop A) : keeps inert m -> (forall r, Q r []) -> logs Q m.
Proof. intros Hm HQ s e. eapply wp_keeps; [exact Hm|]. intros r s' e' Hs. exists []. by rewrite app_nil_r. Qed.
Lemma logs_mono {A} (P Q : result E A -> list engine_event -> Prop) (m : eop A) : logs P m -> (forall r l, P r l -> Q r l) -> logs Q m.
Proof. intros Hm HQ s e. eapply wp_mono; [apply Hm|]. cbv beta. intros r s' _ (l & Hl & HP). exists l. auto. Qed.
Lemma logs_bind {A B} (P : result E A -> list engine_event -> Prop) (Q : result E B -> list engine_event -> Prop) (m : eop A) (f : A -> eop B) :
  logs P m -> (forall a l, P (Ok a) l -> logs (fun r l' => Q r (l ++ l')) (f a)) -> (forall x l, P (Err x) l -> Q (Err x) l) -> logs Q (m ≫= f).
Proof.
  intros Hm Hf HE s e. apply wp_bind. eapply wp_mono; [apply Hm|]. cbv beta. intros [a|x] s' e' (l & Hl & HP).
  - eapply wp_mono; [by apply Hf|]. cbv beta. intros r s2 _ (l' & Hl' & HQ). exists (l ++ l'). split; [|done].
    by rewrite Hl', Hl, app_assoc.
  - exists l. auto.
Qed.
(** A step that leaves no act. *)
Lemma logs_then {A B} (P : A -> Prop) (Q : result E B -> list engine_event -> Prop) (m : eop A) (f : A -> eop B) :
  logs (fun r l => l = [] /\ match r with Ok a => P a | Err _ => False end) m -> (forall a, P a -> logs Q (f a)) -> logs Q (m ≫= f).
Proof. intros Hm Hf. eapply logs_bind; [exact Hm| |]; cbv beta; [intros a l [-> HP]; by apply Hf|intros x l [_ []]]. Qed.
End logs.
#[export] Hint Resolve inert_preorder : core.

Section spec.
Context {M T : Type} `{Mn : Mind M} `{Hd : Hands T} `{Wiring} `{Prose} `{Platform} `{RunCodec} `{CallsJson} `{Json} `{Unicode}.
Abbreviation err := (turn_error mind_error hand_error).
Abbreviation eop := (io (Engine M T) (turn_error mind_error hand_error)).

(** An operation without acts that always gives a value. *)
Definition calm_op {A} (P : A -> Prop) (m : eop A) : Prop :=
  logs (fun r l => l = [] /\ match r with Ok a => P a | Err _ => False end) m.
Lemma calm_ret {A} (P : A -> Prop) a : P a -> calm_op P (mret a).
Proof. intros HP. by apply logs_ret. Qed.
Lemma calm_bind {A B} (P : A -> Prop) (Q : B -> Prop) (m : eop A) f : calm_op P m -> (forall a, P a -> calm_op Q (f a)) -> calm_op Q (m ≫= f).
Proof. intros Hm Hf. by eapply logs_then. Qed.
Lemma calm_modify f (P : unit -> Prop) : (forall s : Engine M T, acted (f s) = acted s) -> P tt -> calm_op P (modify f).
Proof. intros Hf HP s e. apply wp_modify. exists []. by rewrite app_nil_r, Hf. Qed.
Lemma calm_note l (P : unit -> Prop) : acts l = [] -> P tt -> calm_op P (note l).
Proof. intros Hl HP. apply calm_modify; [|done]. intros s. unfold acted, add_log. cbn. by rewrite acts_app, Hl, app_nil_r. Qed.
Lemma calm_publish kind agent : calm_op (fun _ => True) (publish_event kind agent).
Proof. unfold publish_event. destruct has_bus; [by apply calm_note|by apply calm_ret]. Qed.
Lemma calm_store {A} (m : io RunStore run_error A) : calm_op (fun _ => True) (on_store m).
Proof. intros s e. unfold wp, on_store. destruct (m (store s) e) as [r [d e']]. exists []. by rewrite app_nil_r. Qed.
Lemma calm_mind {A} (m : io M mind_error A) : calm_op (fun _ => True) (on_mind m).
Proof. intros s e. unfold wp, on_mind. destruct (m (mind s) e) as [r [d e']]. exists []. by rewrite app_nil_r. Qed.
Lemma calm_hands {A} (m : io T hand_error A) : calm_op (fun _ => True) (on_hands m).
Proof. intros s e. unfold wp, on_hands. destruct (m (hands s) e) as [r [d e']]. exists []. by rewrite app_nil_r. Qed.
Lemma calm_get (P : Engine M T -> Prop) : (forall s, P s) -> calm_op P get.
Proof. intros HP s e. apply wp_get. exists []. by rewrite app_nil_r. Qed.
Lemma calm_gets {A} (f : Engine M T -> A) (P : A -> Prop) : (forall a, P a) -> calm_op P (gets f).
Proof. intros HP s e. apply wp_gets. exists []. by rewrite app_nil_r. Qed.
Lemma calm_now : calm_op (fun _ => True) now.
Proof. intros s e. apply wp_now. intros. exists []. by rewrite app_nil_r. Qed.
Lemma calm_draw : calm_op (fun _ => True) draw.
Proof. intros s e. apply wp_draw. intros. exists []. by rewrite app_nil_r. Qed.
Lemma calm_ctx_done : calm_op (fun _ => True) ctx_done.
Proof.
  intros s e. unfold ctx_done. apply wp_bind, wp_attempt, wp_db. intros. split; apply wp_ret; exists []; by rewrite app_nil_r.
Qed.

Ltac calm_step :=
  lazymatch goal with
  | |- calm_op _ (mret _) => apply calm_ret; try done
  | |- calm_op _ (_ ≫= _) => eapply (calm_bind (fun _ => True)); [|intros ? _]
  | |- calm_op _ (note _) => apply calm_note; [reflexivity|done]
  | |- calm_op _ (publish_event _ _) => apply calm_publish
  | |- calm_op _ (on_store _) => apply calm_store
  | |- calm_op _ (on_mind _) => apply calm_mind
  | |- calm_op _ get => apply calm_get; done
  | |- calm_op _ (gets _) => apply calm_gets; done
  | |- calm_op _ now => apply calm_now
  | |- calm_op _ draw => apply calm_draw
  | |- calm_op _ ctx_done => apply calm_ctx_done
  | |- calm_op _ (modify _) => apply calm_modify; [reflexivity|done]
  | |- calm_op _ (if ?b then _ else _) => destruct b
  | |- calm_op _ (match ?x with _ => _ end) => destruct x
  | |- calm_op _ (let _ := _ in _) => cbv zeta
  end.
Ltac calm_go := repeat calm_step.

Lemma calm_finishRun run status reason n usage : calm_op (fun _ => True) (finishRun run status reason n usage).
Proof. unfold finishRun. calm_go. Qed.
Lemma calm_append run ev : calm_op (fun _ => True) (append_event run ev).
Proof. unfold append_event. calm_go. Qed.
Lemma calm_checkpoint c conv run agent goal source messages n usage tc :
  calm_op (fun _ => True) (saveApprovalCheckpoint c conv run agent goal source messages n usage tc).
Proof. unfold saveApprovalCheckpoint. calm_go. Qed.
Lemma calm_startRun trace agent goal source : calm_op (fun _ => True) (startRun trace agent goal source).
Proof. unfold startRun. calm_go. Qed.
Lemma calm_observe run tool raw : calm_op (fun _ => True) (observe run tool raw).
Proof. unfold observe, AutoSummarizeObservation. calm_go. Qed.
Lemma calm_end_with l status reason n r :
  calm_op (fun x : TurnEnd err => te_result x = r) (end_with l status reason n r).
Proof. unfold end_with. eapply calm_bind; [apply calm_finishRun|]. intros run _. by apply calm_ret. Qed.

(** The conversation as it is asked with, and as it is compacted. *)
Definition pruned (a : AgentManifest) (l : list Message) : list Message :=
  if has_context_manager then PruneMessages l (contextBudget (Some (MMaxTokens a))) else l.
Definition compacted_for (a : AgentManifest) (l : list Message) : list Message :=
  let l := compactToolObservations l 4000 in
  if has_context_manager then PruneMessages l (Z.quot (contextBudget (Some (MMaxTokens a))) 2) else l.

Lemma calm_snapshot id l n : calm_op (fun x => x = PruneMessages l n) (PruneAndSnapshot id l n).
Proof.
  unfold PruneAndSnapshot. cbv zeta. destruct (_ || _); [by apply calm_ret|].
  do 3 (eapply calm_bind; [calm_step|]; intros ? _). by apply calm_ret.
Qed.
Lemma calm_prune run a l : calm_op (fun x => x = pruned a l) (prune_for run a l).
Proof. unfold prune_for, pruned. destruct has_context_manager; [apply calm_snapshot|by apply calm_ret]. Qed.
Lemma calm_compact id a l : calm_op (fun x => x = compacted_for a l) (compactAfterContextWindowError id a l).
Proof. unfold compactAfterContextWindowError, compacted_for. cbv zeta. destruct has_context_manager; [apply calm_snapshot|by apply calm_ret]. Qed.

(** ** The abstract loop *)

(** One request, or two when the conversation did not fit the first time;
    [msgs'] is the conversation after. *)
Definition asks (a : AgentManifest) (opts : CompletionOptions) (msgs msgs' : list Message) (l : list engine_event) : Prop :=
  (l = [Asked msgs opts] /\ msgs' = msgs) \/ (l = [Asked msgs opts; Asked msgs' opts] /\ msgs' = compacted_for a msgs).

(** What [VerifyToolCommand] refuses is not called. *)
Definition refused (tc : ToolCall) : Prop :=
  has_verifier = true /\ FnName (TcFunction tc) = "native_exec" /\ exists e, VerifyToolCommand (FnArguments (TcFunction tc)) = Err e.
Definition call_of (u : Turn) (tc : ToolCall) : engine_event := Called (t_ctx u) (t_agent u) (FnName (TcFunction tc)) (FnArguments (TcFunction tc)).

(** The calls of tools that the wanted calls lead to: in order, each once. *)
Inductive calls_run (u : Turn) : list ToolCall -> list engine_event -> Prop :=
  | calls_none : calls_run u [] []
  | calls_refused tc calls l : refused tc -> calls_run u calls l -> calls_run u (tc :: calls) l
  | calls_called tc calls l : ~ refused tc -> calls_run u calls l -> calls_run u (tc :: calls) (call_of u tc :: l).
(** One observation for each wanted call, in order. *)
Definition answers (calls : list ToolCall) (results : list Message) : Prop :=
  Forall2 (fun tc m => exists text, m = tool_message tc text) calls results.

(** The loop with [S n] iterations left: its conversation, the tools offered. *)
Definition request_messages (u : Turn) (n : nat) (msgs : list Message) : list Message :=
  pruned (t_manifest u) (if bool_decide (n = 0)%nat then msgs ++ [limit_note] else msgs).
Definition request_tools (n : nat) (tools : list ToolDefinition) : list ToolDefinition := if bool_decide (n = 0)%nat then [] else tools.
Definition request_asks (u : Turn) (n : nat) (msgs : list Message) (tools : list ToolDefinition) : list Message -> list engine_event -> Prop :=
  asks (t_manifest u) (base_options (t_manifest u) (request_tools n tools)) (request_messages u n msgs).

Inductive react_run (u : Turn) : nat -> list Message -> list ToolDefinition -> list engine_event -> Prop :=
  | run_cut n msgs tools : react_run u n msgs tools []
  | run_failed n msgs tools msgs' l : request_asks u n msgs tools msgs' l -> react_run u (S n) msgs tools l
  | run_answered n msgs tools msgs' l calls :
      request_asks u n msgs tools msgs' l -> calls = [] \/ request_tools n tools = [] \/ has_tools = false ->
      react_run u (S n) msgs tools (l ++ [Wanted calls])
  | run_retried n msgs tools msgs' l reasoning l2 :
      request_asks u n msgs tools msgs' l -> react_run u n (msgs' ++ empty_retry reasoning) tools l2 ->
      react_run u (S n) msgs tools (l ++ Wanted [] :: l2)
  | run_stopped n msgs tools msgs' l calls first rest ran :
      request_asks u n msgs tools msgs' l -> request_tools n tools <> [] -> calls = first ++ rest -> calls_run u first ran ->
      react_run u (S n) msgs tools (l ++ Wanted calls :: ran)
  | run_acted n msgs tools msgs' l resp ran results tools' l2 :
      request_asks u n msgs tools msgs' l -> request_tools n tools <> [] -> calls_run u (RToolCalls resp) ran ->
      answers (RToolCalls resp) results -> tools' = tools \/ tools' = [] ->
      react_run u n (msgs' ++ assistant_block "" resp results) tools' l2 ->
      react_run u (S n) msgs tools (l ++ Wanted (RToolCalls resp) :: ran ++ l2).

(** ** The turn is a run of it *)

Lemma ask_logs order msgs opts : logs (fun r l => l = [Asked msgs opts] /\ is_Some (match r with Ok x => Some x | Err _ => None end)) (ask order msgs opts).
Proof.
  intros s e. unfold ask. apply wp_bind, wp_modify. cbv beta iota.
  eapply wp_mono; [apply (calm_mind (mind_complete order msgs opts))|]. cbv beta. intros [x|x] s' _ (l & Hl & -> & Hx); [|done].
  exists [Asked msgs opts]. split; [|by eauto]. rewrite Hl, app_nil_r. unfold acted, add_log. cbn. by rewrite acts_app.
Qed.
Lemma ask_fitting_logs order run a msgs opts :
  logs (fun r l => match r with Ok (msgs', _) => asks a opts msgs msgs' l | Err _ => False end) (ask_fitting order run a msgs opts).
Proof.
  unfold ask_fitting. eapply logs_bind; [apply ask_logs| |]; cbv beta; [|intros x l [_ [? [=]]]].
  intros r l [-> _]. destruct r as [resp|x]; [apply logs_ret; by left|].
  destruct (IsContextWindowError _); [|apply logs_ret; by left].
  eapply (logs_then (fun m => m = compacted_for a msgs)); [apply calm_compact|]. intros m ->.
  eapply logs_bind; [apply ask_logs| |]; cbv beta; [|intros x' l [_ [? [=]]]].
  intros r l [-> _]. apply logs_ret. by right.
Qed.

Lemma execute_logs c agent name args :
  logs (fun r l => l = [Called c agent name args] /\ is_Some (match r with Ok x => Some x | Err _ => None end)) (execute_tool c agent name args).
Proof.
  intros s e. unfold execute_tool. apply wp_bind, wp_modify. cbv beta iota.
  eapply wp_mono; [apply (calm_hands (hand_execute c agent name args))|]. cbv beta. intros [x|x] s' _ (l & Hl & -> & Hx); [|done].
  exists [Called c agent name args]. split; [|by eauto]. rewrite Hl, app_nil_r. unfold acted, add_log. cbn. by rewrite acts_app.
Qed.
Lemma verify_logs u tc : has_tools = true ->
  logs (fun r l => match r with Ok _ => refused tc /\ l = [] \/ ~ refused tc /\ l = [call_of u tc] | Err _ => False end)
    (verifyAndExecuteTool (t_ctx u) (t_agent u) (FnName (TcFunction tc)) (FnArguments (TcFunction tc))).
Proof.
  intros Ht. unfold verifyAndExecuteTool, refused. rewrite Ht. cbn [negb].
  destruct (if has_verifier && _ then _ else _) as [v|v] eqn:Hv.
  - eapply logs_bind; [apply execute_logs| |]; cbv beta; [|intros x l [_ [? [=]]]]. intros r l [-> _]. apply logs_ret. right. split; [|done].
    intros (Hver & Hname & x & Hx). rewrite Hver, Hname, bool_decide_true, Hx in Hv by done. done.
  - apply logs_ret. left. split; [|done]. destruct has_verifier; [|done]. case_bool_decide as Hn; [|done]. cbn in Hv. by eauto.
Qed.

Definition gave_up (r : result err Response) : Prop := exists id, r = Err (NoConvergence id).
(** The loop keeps its conversation; tools are kept or taken away. *)
Definition steady (l l' : Loop) : Prop := l_messages l' = l_messages l /\ (l_tools l' = l_tools l \/ l_tools l' = []).
#[local] Instance steady_preorder : PreOrder steady.
Proof. split; unfold steady; [by auto|]. intros l1 l2 l3 [-> [-> | ->]] [-> [-> | ->]]; by auto. Qed.
Lemma steady_disable iter l : steady l (disable_tools iter l).
Proof. unfold disable_tools. destruct (_ || _); [split; [done|by right]|reflexivity]. Qed.
Lemma steady_count text n l : steady l (count_observation text (set_failures n l)).
Proof. unfold count_observation. case_bool_decide; split; by try left. Qed.

Definition calls_post (u : Turn) (calls : list ToolCall) (done : list Message) (l : Loop)
    (r : result err (TurnEnd err + (Loop * list Message))) (lg : list engine_event) : Prop :=
  match r with
  | Err _ => False
  | Ok (inl x) => ~ gave_up (te_result x) /\ exists first rest, calls = first ++ rest /\ calls_run u first lg
  | Ok (inr (l', done')) => calls_run u calls lg /\ steady l l' /\ exists results, done' = done ++ results /\ answers calls results
  end.

Definition called_once (u : Turn) (tc : ToolCall) (c : list engine_event) : Prop :=
  refused tc /\ c = [] \/ ~ refused tc /\ c = [call_of u tc].
Lemma calls_run_cons u tc calls c lg : called_once u tc c -> calls_run u calls lg -> calls_run u (tc :: calls) (c ++ lg).
Proof. intros [[Hr ->]|[Hr ->]] Hl; [by apply calls_refused|by apply calls_called]. Qed.
Lemma calls_post_cons u tc rest done l l2 text c r lg :
  called_once u tc c -> steady l l2 -> calls_post u rest (done ++ [tool_message tc text]) l2 r lg -> calls_post u (tc :: rest) done l r (c ++ lg).
Proof.
  intros Hc Hs. destruct r as [[x|[l' done']]|x]; cbn; [| |done].
  - intros (Hx & first & rest' & -> & Hl). split; [done|]. exists (tc :: first), rest'. split; [done|by apply calls_run_cons].
  - intros (Hl & Hs' & results & -> & Ha). split; [by apply calls_run_cons|]. split; [by transitivity l2|].
    exists (tool_message tc text :: results). split; [by rewrite <- app_assoc|]. constructor; [by eexists|done].
Qed.
Lemma calls_post_stop u calls first rest done l c x :
  calls = first ++ rest -> calls_run u first c -> ~ gave_up (te_result x) -> calls_post u calls done l (Ok (inl x)) c.
Proof. intros -> Hc Hx. split; [done|]. by exists first, rest. Qed.

Lemma run_calls_logs u iter resp calls done l : has_tools = true ->
  logs (calls_post u calls done l) (run_calls u iter resp calls done l).
Proof.
  intros Ht. revert done l. induction calls as [|tc rest IH]; intros done l; cbn [run_calls].
  { apply logs_ret. split; [constructor|]. split; [reflexivity|]. exists []. rewrite app_nil_r. split; [done|constructor]. }
  cbv zeta. eapply (logs_then (fun _ => True)); [apply calm_ctx_done|]. intros [] _.
  { eapply logs_then; [apply calm_end_with|]. intros x Hx. apply logs_ret.
    eapply (calls_post_stop _ _ []); [done|constructor|]. rewrite Hx. by intros [? [=]]. }
  eapply logs_bind; [by apply verify_logs| |]; cbv beta; [|done]. intros r c Hc.
  destruct (needs_approval r) as [x|] eqn:Hn.
  - eapply logs_then; [apply calm_checkpoint|]. intros _ _. eapply logs_then; [apply calm_end_with|]. intros y Hy. apply logs_ret.
    rewrite app_nil_r. eapply (calls_post_stop _ _ [tc]); [done| |rewrite Hy; by intros [? [=]]].
    rewrite <- (app_nil_r c). apply calls_run_cons; [exact Hc|constructor].
  - eapply logs_then; [apply calm_observe|]. intros text _. eapply logs_then; [apply calm_append|]. intros _ _.
    eapply logs_mono; [apply IH|]. intros x lg. apply calls_post_cons; [exact Hc|].
    etransitivity; [apply steady_count|apply steady_disable].
Qed.

Lemma wanted_logs calls : logs (E := err) (fun r l => l = [Wanted calls] /\ r = Ok tt) (note (M := M) (T := T) [Wanted calls]).
Proof. intros s e. apply wp_modify. exists [Wanted calls]. split; [|done]. unfold acted, add_log. cbn. by rewrite acts_app. Qed.
Lemma calm_read_answer tools resp : calm_op (fun _ => True) (read_answer tools resp).
Proof. unfold read_answer. cbv zeta. destruct (_ && _); [|by apply calm_ret]. eapply calm_bind; [apply calm_draw|]. intros n _. destruct (extract_calls _ _). by apply calm_ret. Qed.

(** What a round with [S n] iterations left does to a run. *)
Definition round_post (u : Turn) (n : nat) (l : Loop) (r : result err round) (lg : list engine_event) : Prop :=
  match r with
  | Err _ => False
  | Ok (Stop x) => ~ gave_up (te_result x) /\ react_run u (S n) (l_messages l) (l_tools l) lg
  | Ok (Converged _) => react_run u (S n) (l_messages l) (l_tools l) lg
  | Ok (Onward l') => (0 < n)%nat /\ forall l2, react_run u n (l_messages l') (l_tools l') l2 -> react_run u (S n) (l_messages l) (l_tools l) (lg ++ l2)
  end.

Lemma round_acts u n iter resp msgs l0 lg l :
  has_tools = true -> request_asks u n (l_messages l0) (l_tools l0) msgs lg -> request_tools n (l_tools l0) <> [] ->
  l_messages l = msgs -> l_tools l = l_tools l0 -> (0 < n)%nat ->
  logs (fun r l2 => round_post u n l0 r (lg ++ Wanted (RToolCalls resp) :: l2))
    (x ← run_calls u iter resp (RToolCalls resp) [] l;
     match x with
     | inl x => mret (Stop x)
     | inr (l, done) => mret (Onward (set_messages (l_messages l ++ assistant_block "" resp done) l))
     end).
Proof.
  intros Ht Hasks Htools Hm Hlt Hn. eapply logs_bind; [by apply run_calls_logs| |]; cbv beta; [|done].
  intros [x|[l' done]] ran Hr; apply logs_ret; rewrite app_nil_r.
  - destruct Hr as (Hx & first & rest & Hcalls & Hran). split; [done|]. by eapply run_stopped.
  - destruct Hr as (Hran & [Hmsgs Htls] & results & -> & Ha). split; [done|]. intros l2 Hl2.
    rewrite <- app_assoc. cbn. eapply run_acted; [done|done|done|exact Ha| |].
    + rewrite Hlt in Htls. exact Htls.
    + rewrite Hm in Hmsgs. rewrite <- Hmsgs. exact Hl2.
Qed.

Lemma react_round_logs u n l : (n < maxIterations)%nat ->
  logs (round_post u n l) (react_round u (maxIterations - S n) l).
Proof.
  intros Hn. assert (bool_decide (maxIterations - S n = maxIterations - 1)%nat = bool_decide (n = 0)%nat) as Hlast.
  { apply bool_decide_ext. lia. }
  unfold react_round. eapply (logs_then (fun _ => True)); [apply calm_ctx_done|]. intros [] _.
  { eapply logs_then; [apply calm_end_with|]. intros x Hx. apply logs_ret. split; [|constructor]. rewrite Hx. by intros [? [=]]. }
  cbv zeta. rewrite Hlast. eapply logs_then; [apply calm_prune|]. intros m ->.
  eapply logs_bind; [apply ask_fitting_logs| |]; cbv beta; [|done]. intros [msgs answer] lg Hasks. cbn [fst snd].
  assert (request_asks u n (l_messages l) (l_tools l) msgs lg) as Hreq.
  { unfold request_asks, request_messages, request_tools. case_bool_decide; exact Hasks. }
  destruct answer as [resp|x].
  2:{ eapply logs_then; [apply calm_publish|]. intros _ _. eapply logs_then; [apply calm_end_with|]. intros y Hy. apply logs_ret.
      rewrite app_nil_r. split; [rewrite Hy; by intros [? [=]]|]. by eapply run_failed. }
  eapply logs_then; [apply calm_append|]. intros _ _. eapply logs_then; [apply calm_read_answer|]. intros resp' _.
  eapply logs_bind; [apply wanted_logs| |]; cbv beta; [|by intros ? ? [_ [=]]]. intros _ ? [-> _].
  assert (l_tools (if bool_decide (n = 0)%nat then set_messages (l_messages (set_iterations (Z.of_nat (maxIterations - S n) + 1) l) ++ [limit_note])
            (set_iterations (Z.of_nat (maxIterations - S n) + 1) l) else set_iterations (Z.of_nat (maxIterations - S n) + 1) l) = l_tools l) as Hlt
    by (case_bool_decide; reflexivity).
  revert Hlt. match goal with |- l_tools ?x = _ -> _ => generalize x end. intros l1 Hlt.
  match goal with |- context [wants_retry ?i ?r ?x] => destruct (wants_retry i r x) eqn:Hw end.
  - unfold wants_retry in Hw. apply andb_prop in Hw as [[[Hc _]%andb_prop _]%andb_prop Hi]. apply bool_decide_eq_true in Hc. rewrite Hc.
    apply logs_ret. rewrite app_nil_r. split; [apply Nat.ltb_lt in Hi; lia|]. cbn [l_messages l_tools set_retries set_messages]. intros l2 Hl2.
    rewrite <- app_assoc. eapply run_retried; [exact Hreq|]. cbn in Hl2. rewrite Hlt in Hl2. exact Hl2.
  - match goal with |- context [bool_decide (RToolCalls resp' = []) || ?b || ?c] => destruct (bool_decide (RToolCalls resp' = []) || b || c) eqn:Hfin end.
    + apply logs_ret. rewrite app_nil_r. eapply run_answered; [exact Hreq|]. unfold request_tools. rewrite !orb_true_iff, negb_true_iff, !bool_decide_eq_true in Hfin.
      cbn in Hfin. destruct (bool_decide (n = 0)%nat); [by auto|]. destruct Hfin as [[?|?]|?]; auto.
    + rewrite !orb_false_iff, negb_false_iff, !bool_decide_eq_false in Hfin. destruct Hfin as [[_ Ht] Htools].
      assert (request_tools n (l_tools l) <> []) as Hrt by (unfold request_tools; by destruct (bool_decide (n = 0)%nat)).
      assert (0 < n)%nat by (unfold request_tools in Hrt; case_bool_decide; [done|lia]).
      eapply logs_mono; [eapply round_acts; [done|exact Hreq|done|done|cbn; exact Hlt|done]|]. cbv beta. intros r l2 Hr. exact Hr.
Qed.

(** The loop always ends with an answer or an error. *)
Lemma react_logs u left l : (0 < left <= maxIterations)%nat ->
  logs (fun r lg => match r with
                    | Ok (Stop x) => ~ gave_up (te_result x) /\ react_run u left (l_messages l) (l_tools l) lg
                    | Ok (Converged _) => react_run u left (l_messages l) (l_tools l) lg
                    | _ => False
                    end) (react u left l).
Proof.
  revert l. induction left as [|n IH]; intros l Hn; [lia|]. cbn [react].
  eapply logs_bind; [apply react_round_logs; lia| |]; cbv beta; [|done]. intros [x|l'|l'] lg Hr.
  - apply logs_ret. by rewrite app_nil_r.
  - apply logs_ret. by rewrite app_nil_r.
  - destruct Hr as [Hpos Hr]. eapply logs_mono; [apply IH; lia|]. cbv beta. intros [[x|x|x]|x] l2; cbn; [|by auto|done|done].
    intros [? ?]. auto.
Qed.

Lemma calm_settle u l : calm_op (fun x : TurnEnd err => ~ gave_up (te_result x)) (settle u l).
Proof.
  unfold settle, reflect, RecordTokenUsage. cbv zeta.
  do 3 (eapply (calm_bind (fun _ => True)); [calm_go|]; intros ? _).
  eapply logs_mono; [apply calm_end_with|]. cbv beta. intros [x|x] lg [-> Hx]; [|done]. split; [done|]. rewrite Hx. by intros [? [=]].
Qed.
Lemma run_loop_logs u l :
  logs (fun r lg => match r with
                    | Ok x => ~ gave_up (te_result x) /\ react_run u maxIterations (l_messages l) (l_tools l) lg
                    | Err _ => False
                    end) (run_loop u l).
Proof.
  unfold run_loop. eapply logs_bind; [apply react_logs; unfold maxIterations; lia| |]; cbv beta; [|by intros].
  intros [x|l'|l'] lg Hr; [| |done].
  - apply logs_ret. by rewrite app_nil_r.
  - eapply logs_mono; [apply calm_settle|]. cbv beta. intros [x|x] l2 [-> Hx]; [|done]. by rewrite app_nil_r.
Qed.

Lemma close_turn_logs (x : TurnEnd err) : logs (fun r lg => lg = [] /\ r = te_result x) (close_turn x).
Proof.
  unfold close_turn. eapply (logs_then (fun _ => True)).
  - destruct (match te_run x with Some _ => _ | None => _ end); [|by apply calm_ret].
    destruct (te_result x) as [?|er]; [apply calm_finishRun|].
    destruct (match er with ToolFailed _ => _ | _ => _ end); [by apply calm_ret|].
    destruct (context_error er); apply calm_finishRun.
  - intros _ _ s e. apply wp_lift. exists []. by rewrite app_nil_r.
Qed.

(** The manifest of a turn: the agent's, near its budget with the fallback. *)
Definition manifest_for (a0 a : AgentManifest) : Prop := a = a0 \/ a = with_primary (FallbackModel a0) a0.
Lemma checkBudget_logs a source :
  logs (fun r lg => lg = [] /\ match r with Ok a' => manifest_for a a' | Err x => ~ gave_up (Err x) end) (checkBudget (M := M) (T := T) a source).
Proof.
  unfold checkBudget, manifest_for. destruct has_token_tracker; cbn [negb]; [|apply logs_ret; by auto].
  cbv zeta. eapply (logs_then (fun _ => True)); [apply calm_draw|]. intros n _.
  eapply (logs_bind (fun r lg => lg = [] /\ match r with Ok _ => True | Err x => ~ gave_up (Err x) end)).
  { destruct (hourly_tokens _ _) as [used|]; [destruct (_ && _)|]; [|by apply logs_ret..].
    intros s e. apply wp_throw. exists []. rewrite app_nil_r. split_and!; [done..|]. by intros [? [=]]. }
  2:{ by intros x l [-> Hx]. }
  intros _ l [-> _]. destruct (SpecFloat.SFleb _ _); [apply logs_ret; by auto|].
  eapply (logs_then (fun _ => True)); [apply calm_draw|]. intros k _. destruct (monthly_cost _ _) as [cost|why].
  - destruct (_ && _); [|destruct (_ && _); apply logs_ret; by auto].
    intros s e. apply wp_throw. exists []. rewrite app_nil_r. split_and!; [done..|]. by intros [? [=]].
  - intros s e. apply wp_throw. exists []. rewrite app_nil_r. split_and!; [done..|]. by intros [? [=]].
Qed.

(** The turn that a call of [ExecuteStepWithHistory] runs for a manifest. *)
Definition turn_run (c : ctx) (conv agentID goal : string) (history : list Message) (a : AgentManifest) (lg : list engine_event) : Prop :=
  exists n k t tools, (tools = [] \/ has_tools = true /\ tools = offered (WithTraceID c (trace_string n)) a t) /\
    react_run (mkTurn (WithTraceID c (trace_string n)) conv agentID goal (sourceFromContextOrMessage c goal "chat") a) maxIterations
      (first_messages k agentID goal history) tools lg.

Lemma logs_throw {A} (Q : result err A -> list engine_event -> Prop) (x : err) : Q (Err x) [] -> logs (M := M) (T := T) Q (throw x).
Proof. intros HQ s e. apply wp_throw. exists []. by rewrite app_nil_r. Qed.

(** After the agent is found. *)
Lemma step_logs a0 c conv agentID goal history (k : AgentManifest -> eop Response) :
  (forall a, logs (fun r lg => ~ gave_up r /\ (lg = [] \/ turn_run c conv agentID goal history a lg)) (k a)) ->
  logs (fun r lg => ~ gave_up r /\ (lg = [] \/ exists a, manifest_for a0 a /\ turn_run c conv agentID goal history a lg))
    (checkBudget a0 (sourceFromContextOrMessage c goal "chat") ≫= k).
Proof.
  intros Hk. eapply logs_bind; [apply checkBudget_logs| |]; cbv beta; [|intros x l [-> Hx]; by auto].
  intros a ? [-> Ha]. eapply logs_mono; [apply Hk|]. cbv beta. cbn [app]. intros r lg [Hr [->|Ht]]; eauto 10.
Qed.

Lemma step_runs c conv agentID goal history s e :
  wp (ExecuteStepWithHistory (M := M) (T := T) c conv agentID goal history)
    (fun r s' _ => exists lg, acted s' = acted s ++ lg /\ ~ gave_up r /\
       (lg = [] \/ exists a0 a, agents s !! agentID = Some a0 /\ manifest_for a0 a /\ turn_run c conv agentID goal history a lg)) s e.
Proof.
  unfold ExecuteStepWithHistory, active_manifest. apply wp_bind, wp_bind, wp_get. cbv beta iota zeta.
  destruct (agents s !! agentID) as [a0|]; [case_bool_decide|].
  2,3: apply wp_throw; exists []; rewrite app_nil_r; split_and!; [done|by intros [? [=]]|by left].
  apply wp_ret. cbv beta iota. eapply wp_mono; [eapply step_logs|].
  2:{ cbv beta. intros r s' _ (lg & Hl & Hr & [->|(a & Ha & Ht)]); eauto 15. }
  intros a. eapply (logs_then (fun _ => True)); [by apply calm_gets|]. intros busy _.
  destruct (has_in_flight && _); [apply logs_throw; split; [by intros [? [=]]|by left]|].
  eapply (logs_then (fun _ => True)); [apply calm_draw|]. intros n _.
  eapply (logs_then (fun _ => True)); [apply calm_startRun|]. intros run _.
  eapply (logs_then (fun _ => True)); [destruct has_in_flight; [by apply calm_modify|by apply calm_ret]|]. intros _ _.
  eapply (logs_then (fun _ => True)); [apply calm_publish|]. intros _ _.
  eapply (logs_then (fun _ => True)); [apply calm_draw|]. intros k _.
  eapply (logs_then (fun _ => True)); [by apply calm_get|]. intros s1 _.
  eapply logs_bind; [apply run_loop_logs| |]; cbv beta; [|by intros]. intros x lg [Hx Hrun].
  eapply (logs_then (fun _ => True)); [destruct has_in_flight; [by apply calm_modify|by apply calm_ret]|]. intros _ _.
  eapply logs_mono; [apply close_turn_logs|]. cbv beta. intros r l2 [-> ->]. split; [done|]. right. exists n, k, (hands s1). rewrite app_nil_r.
  eexists. split; [|exact Hrun]. destruct has_tools; cbn [andb l_tools fresh_loop]; [|by left]. destruct (negb _); auto.
Qed.

(** C30. Whatever the models answer, the tools do and fails, a turn is a run of
    the abstract loop: it asks with the pruned conversation, a second time with
    the compacted one if the first did not fit; it calls the tools that were
    wanted, in order and once each, except those the command check refuses;
    the next request is the conversation with the answer and one observation
    for each wanted call; the tools are offered in nineteen requests at most,
    and the loop never runs out. *)
Theorem turn_is_react_run c conv agentID goal history s e :
  let '(r, (s', _)) := ExecuteStepWithHistory (M := M) (T := T) c conv agentID goal history s e in
  exists lg, acted s' = acted s ++ lg /\ ~ gave_up r /\
    (lg = [] \/ exists a0 a, agents s !! agentID = Some a0 /\ manifest_for a0 a /\ turn_run c conv agentID goal history a lg).
Proof.
  pose proof (step_runs c conv agentID goal history s e) as Hw. unfold wp in Hw.
  by destruct (ExecuteStepWithHistory _ _ _ _ _ s e) as [r [s' e']].
Qed.

(** ** Bounds *)

Lemma asks_acts a opts msgs msgs' l : asks a opts msgs msgs' l -> (asked l <= 2)%nat /\ Forall (fun ev => is_asked ev = true) l.
Proof. intros [[-> _]|[-> _]]; split; cbn; repeat constructor. Qed.
Lemma calls_run_acts u calls ran : calls_run u calls ran ->
  asked ran = 0%nat /\ Forall (fun ev => exists tc, tc ∈ calls /\ ~ refused tc /\ ev = call_of u tc) ran.
Proof.
  induction 1 as [|tc calls l Hr _ [Ha Hf]|tc calls l Hr _ [Ha Hf]]; [by repeat constructor| |].
  - split; [done|]. eapply Forall_impl; [exact Hf|]. cbv beta. intros ev (tc' & ? & ?). exists tc'. split; [by right|done].
  - split; [exact Ha|]. constructor; [exists tc; split; [left|done]|].
    eapply Forall_impl; [exact Hf|]. cbv beta. intros ev (tc' & ? & ?). exists tc'. split; [by right|done].
Qed.
(** Every call of a tool follows an answer that wanted it. *)
Definition founded (u : Turn) (before : list engine_event) (ev : engine_event) : Prop :=
  is_asked ev = true \/ (exists calls, ev = Wanted calls) \/
  exists calls tc, Wanted calls ∈ before /\ tc ∈ calls /\ ~ refused tc /\ ev = call_of u tc.
Definition all_founded (u : Turn) (l : list engine_event) : Prop :=
  forall before ev after, l = before ++ ev :: after -> founded u before ev.

Lemma founded_mono u before before' ev : (forall x, x ∈ before -> x ∈ before') -> founded u before ev -> founded u before' ev.
Proof. intros Hb [?|[?|(calls & tc & Hc & ?)]]; [by left|by right; left|]. right. right. exists calls, tc. auto. Qed.
Lemma all_founded_app u l l' : all_founded u l -> Forall (founded u l) l' -> all_founded u (l ++ l').
Proof.
  intros Hl. induction l' as [|ev l' IH] using rev_ind; [by rewrite app_nil_r|].
  intros [Hf Hev]%Forall_app. specialize (IH Hf). rewrite Forall_singleton in Hev. rewrite app_assoc.
  intros before x after Heq. destruct after as [|y after _] using rev_ind.
  - apply app_inj_tail in Heq as [<- <-]. eapply founded_mono; [|exact Hev]. intros z ?. apply elem_of_app. by left.
  - rewrite app_comm_cons, app_assoc in Heq. apply app_inj_tail in Heq as [Heq _]. by eapply IH.
Qed.
Lemma asks_founded u before a opts msgs msgs' l : asks a opts msgs msgs' l -> Forall (founded u before) l.
Proof. intros [_ Hf]%asks_acts. eapply Forall_impl; [exact Hf|]. by left. Qed.
Lemma wanted_founded u before calls : founded u before (Wanted calls).
Proof. right. left. by eexists. Qed.
Lemma ran_founded u before calls first ran : Wanted calls ∈ before -> (forall tc, tc ∈ first -> tc ∈ calls) -> calls_run u first ran ->
  Forall (founded u before) ran.
Proof.
  intros Hw Hsub [_ Hf]%calls_run_acts. eapply Forall_impl; [exact Hf|]. cbv beta. intros ev (tc & ? & ? & ?).
  right. right. exists calls, tc. auto.
Qed.

Lemma round_founded u before l calls first ran : all_founded u before -> Forall (founded u before) l ->
  (forall tc, tc ∈ first -> tc ∈ calls) -> calls_run u first ran -> all_founded u (before ++ l ++ Wanted calls :: ran).
Proof.
  intros Hb Hl Hsub Hran. change (Wanted calls :: ran) with ([Wanted calls] ++ ran). rewrite !app_assoc. apply all_founded_app.
  - apply all_founded_app; [by apply all_founded_app|]. apply Forall_singleton, wanted_founded.
  - eapply ran_founded; [|done|exact Hran]. apply elem_of_app. right. left.
Qed.
Lemma react_founded u n msgs tools l : react_run u n msgs tools l ->
  forall before, all_founded u before -> all_founded u (before ++ l).
Proof.
  induction 1 as [n msgs tools|n msgs tools msgs' l Hreq|n msgs tools msgs' l calls Hreq _|n msgs tools msgs' l reasoning l2 Hreq _ IH
    |n msgs tools msgs' l calls first rest ran Hreq _ -> Hran|n msgs tools msgs' l resp ran results tools' l2 Hreq _ Hran _ _ _ IH]; intros before Hb.
  - by rewrite app_nil_r.
  - apply all_founded_app; [done|by eapply asks_founded].
  - eapply (round_founded u before l calls [] []); [done|by eapply asks_founded|by intros ? ?%not_elem_of_nil|constructor].
  - change (Wanted [] :: l2) with ([Wanted []] ++ l2). rewrite !app_assoc. apply IH. rewrite <- app_assoc.
    eapply (round_founded u before l [] [] []); [done|by eapply asks_founded|done|constructor].
  - eapply round_founded; [done|by eapply asks_founded| |exact Hran]. intros tc ?. apply elem_of_app. by left.
  - rewrite app_comm_cons, !app_assoc. apply IH. rewrite <- app_assoc. eapply round_founded; [done|by eapply asks_founded|done|exact Hran].
Qed.
Lemma react_asked u n msgs tools l : react_run u n msgs tools l -> (asked l <= 2 * n)%nat.
Proof.
  induction 1 as [n msgs tools|n msgs tools msgs' l [Hreq _]%asks_acts|n msgs tools msgs' l calls [Hreq _]%asks_acts _
    |n msgs tools msgs' l reasoning l2 [Hreq _]%asks_acts _ IH|n msgs tools msgs' l calls first rest ran [Hreq _]%asks_acts _ -> [Hran _]%calls_run_acts
    |n msgs tools msgs' l resp ran results tools' l2 [Hreq _]%asks_acts _ [Hran _]%calls_run_acts _ _ _ IH]; try (cbn; lia).
  - rewrite asked_app. change (asked [Wanted calls]) with 0%nat. lia.
  - rewrite asked_app. change (asked (Wanted [] :: l2)) with (asked l2). lia.
  - rewrite asked_app. change (asked (Wanted (first ++ rest) :: ran)) with (asked ran). lia.
  - rewrite asked_app. change (asked (Wanted (RToolCalls resp) :: ran ++ l2)) with (asked (ran ++ l2)). rewrite asked_app. lia.
Qed.

(** A turn sends at most forty requests to the models, besides those for
    summaries, and calls no tool but one that an answer in the same turn wanted
    and the command check let pass, under the agent's name, with the arguments
    as they came and in the context of the turn. *)
Theorem turn_is_bounded c conv agentID goal history s e :
  let '(_, (s', _)) := ExecuteStepWithHistory (M := M) (T := T) c conv agentID goal history s e in
  exists lg n a, acted s' = acted s ++ lg /\ (asked lg <= 40)%nat /\
    all_founded (mkTurn (WithTraceID c (trace_string n)) conv agentID goal (sourceFromContextOrMessage c goal "chat") a) lg.
Proof.
  pose proof (step_runs c conv agentID goal history s e) as Hw. unfold wp in Hw.
  destruct (ExecuteStepWithHistory _ _ _ _ _ s e) as [r [s' e']]. destruct Hw as (lg & Hl & _ & [->|(a0 & a & _ & _ & n & k & t & tools & _ & Hrun)]).
  - exists [], 0%nat, (mkManifest "" "" "" "" "" "" 0 [] (SpecFloat.S754_zero false) 0 0). split_and!; [done|cbn; lia|]. by intros [|] ? ? ?.
  - exists lg, n, a. split_and!; [done|by apply react_asked in Hrun|]. apply (react_founded _ _ _ _ _ Hrun []). by intros [|] ? ? ?.
Qed.
End spec.

(** ** What a streamed answer shows

    The tokens sent since the last reset, after an answer was received in
    pieces. *)

#[local] Open Scope Z_scope.

(** The text a client has on its screen. *)
Definition show_event (shown : string) (ev : AgentStreamEvent) : string :=
  match ev with SToken c => shown +:+ c | STokenReset => "" | _ => shown end.
Definition shown_after (shown : string) (l : list AgentStreamEvent) : string := foldl show_event shown l.
Definition shown (l : list AgentStreamEvent) : string := shown_after "" l.
Lemma shown_after_app a l l' : shown_after a (l ++ l') = shown_after (shown_after a l) l'.
Proof. apply foldl_app. Qed.

(** ** Answers without markup

    Bytes that begin or belong to what may be withheld: an angle bracket, a
    square bracket, a brace, an equals sign, an underscore.  A text without
    them is shown as it comes, if no letter beyond ASCII becomes one of them
    in lower case. *)

Definition marks (b : Z) : bool := (b =? 60) || (b =? 61) || (b =? 91) || (b =? 95) || (b =? 123).
Definition unmarked (s : string) : Prop := no_bytes marks s = true.
Definition letters_stay `{Unicode} : Prop := forall r, 128 <= r -> marks (uni_lower r) = false.

Lemma low_marks : low_set marks.
Proof. intros b. unfold marks. rewrite !orb_true_iff, !Z.eqb_eq. lia. Qed.
Lemma unmarked_front a b : unmarked (a +:+ b) -> unmarked a /\ unmarked b.
Proof. unfold unmarked. rewrite no_bytes_app. by intros [? ?]%andb_true_iff. Qed.
Lemma unmarked_lacks s x : unmarked s -> no_bytes marks x = false -> contains_str s x = false.
Proof.
  intros Hs Hx. destruct (contains_str s x) eqn:Hc; [|done]. apply contains_str_spec in Hc as (l & r & ->).
  apply unmarked_front in Hs as [_ [Hs _]%unmarked_front]. unfold unmarked in Hs. congruence.
Qed.
Lemma last_index_contains s x i : last_index s x = Some i -> contains_str s x = true.
Proof.
  revert i. induction s as [|a s IH]; intros i; cbn [last_index contains_str].
  - case_bool_decide; [|done]. subst. by intros.
  - destruct (last_index s x) as [j|]; [intros _; by rewrite (IH j), orb_true_r|]. by destruct (has_prefix (String a s) x).
Qed.
Lemma unmarked_closed s a b : unmarked s -> no_bytes marks a = false -> opened_last s a b = false.
Proof.
  intros Hs Ha. unfold opened_last. destruct (last_index s a) as [i|] eqn:Hi; [|done]. apply last_index_contains in Hi.
  by rewrite (unmarked_lacks _ _ Hs Ha) in Hi.
Qed.

Lemma unmarked_encode r : marks r = false -> unmarked (encode_rune r).
Proof.
  intros Hr. assert (Hhigh : forall s, all_bytes (fun b => 128 <=? b) s = true -> unmarked s).
  { intros s. apply all_bytes_impl. intros b Hb%Z.leb_le. unfold marks. rewrite !(proj2 (Z.eqb_neq _ _)) by lia. done. }
  pose proof scalar_error as Herr.
  destruct (decide (scalar r)) as [Hsc|Hsc].
  - destruct (decide (r < 128)) as [Hlt|Hge]; [|apply Hhigh, encode_high; [done|lia]].
    rewrite (encode_low r Hsc Hlt). unfold unmarked, no_bytes. cbn [all_bytes]. destruct Hsc as [[? ?] _]. by rewrite byte_val_of, Hr by lia.
  - assert (encode_rune r = encode_rune rune_error) as ->; [|apply Hhigh, encode_high; [done|by vm_compute]].
    unfold encode_rune. replace ((r <? 0) || (1114111 <? r) || ((55296 <=? r) && (r <=? 57343))) with true; [done|]. unfold scalar in Hsc. lia.
Qed.
Lemma unmarked_runes l : Forall (fun r => marks r = false) l -> unmarked (encode_runes l).
Proof.
  induction 1 as [|r l Hr Hl IH]; [done|]. unfold encode_runes in *. cbn. unfold unmarked. rewrite no_bytes_app. by rewrite (unmarked_encode r Hr), IH.
Qed.
Lemma unmarked_segments s : unmarked s -> Forall (fun q => marks q.1 = false) (segments s).
Proof. apply no_bytes_runes, low_marks. Qed.
Lemma unmarked_lower `{Unicode} s : letters_stay -> unmarked s -> unmarked (to_lower s).
Proof.
  intros Hu Hs%unmarked_segments. unfold to_lower, runes. apply unmarked_runes. rewrite !Forall_fmap. eapply Forall_impl; [exact Hs|].
  intros [r q] Hr. cbn in *. unfold rune_lower. destruct (Z.leb_spec r 127); [|apply Hu; lia].
  destruct ((65 <=? r) && (r <=? 90)) eqn:Hup; [|done]. apply andb_true_iff in Hup as [? ?]. unfold marks. rewrite !(proj2 (Z.eqb_neq _ _)) by lia. done.
Qed.

Lemma thinking_tag_leads r q l : marks r = false -> thinking_tag ((r, q) :: l) = None.
Proof.
  intros Hr. unfold thinking_tag.
  change (runes "<") with [60]. cbn [literal]. assert (folds 60 (r, q).1 = false) as ->; [|done].
  unfold folds, marks in *. cbn [fst]. rewrite !orb_false_iff in Hr. destruct Hr as ((((-> & _) & _) & _) & _). done.
Qed.
Lemma strip_unmarked s : unmarked s -> stripThinkingTags s = s.
Proof.
  intros Hs%unmarked_segments. unfold stripThinkingTags. rewrite <- (bytes_of_segments s) at 2. induction (segments s) as [|p l IH]; [done|].
  apply Forall_cons in Hs as [Hp Hl]. destruct p as [r q]. cbn [strip_tags]. rewrite thinking_tag_leads by done. rewrite IH by done. done.
Qed.
Lemma unmarked_outside `{Unicode} s : letters_stay -> unmarked s -> isInsideThinkingBlock s = false /\ isInsideMarkupTag s = false.
Proof.
  intros Hu Hs. pose proof (unmarked_lower s Hu Hs) as Hlow. split.
  - unfold isInsideThinkingBlock, thinking_tags. cbn [existsb fst snd]. by rewrite !(unmarked_closed _ _ _ Hlow) by done.
  - unfold isInsideMarkupTag, dsml_open, tag_open, json_open, leaked_call. rewrite !(unmarked_lacks s) by done.
    rewrite (unmarked_closed s "<") by done. rewrite (unmarked_closed (trim_space s) "{") by (done || by apply no_bytes_trim).
    cbn [existsb]. by rewrite !(unmarked_lacks _ _ Hlow) by done.
Qed.

(** Bytes that are left out, none put in and none moved. *)
Definition part_of_text (x s : string) : Prop := chars x `sublist_of` chars s.
Lemma chars_app a b : chars (a +:+ b) = chars a ++ chars b.
Proof. induction a as [|c a IH]; [done|]. rewrite string_app_cons. cbn [chars]. by rewrite IH. Qed.
Lemma part_app a b x y : part_of_text a x -> part_of_text b y -> part_of_text (a +:+ b) (x +:+ y).
Proof. unfold part_of_text. rewrite !chars_app. apply sublist_app. Qed.
Lemma part_nil x : part_of_text "" x.
Proof. apply sublist_nil_l. Qed.
Lemma strip_tags_part l : forall k, part_of_text (strip_tags k l) (bytes_of l).
Proof.
  induction l as [|p l IH]; intros k; [apply part_nil|]. change (bytes_of (p :: l)) with (p.2 +:+ bytes_of l).
  assert (Hskip : forall j, part_of_text (strip_tags j l) (p.2 +:+ bytes_of l)) by (intros j; apply (part_app "" _ p.2); [apply part_nil|apply IH]).
  cbn [strip_tags]. destruct k as [|k]; [|apply Hskip]. destruct (thinking_tag _) as [rest|]; [apply Hskip|].
  apply part_app; [by unfold part_of_text|apply IH].
Qed.
Lemma strip_part s : part_of_text (stripThinkingTags s) s.
Proof. unfold stripThinkingTags. rewrite <- (bytes_of_segments s) at 2. apply strip_tags_part. Qed.

Section spec.
Context {M T : Type} `{Mn : Mind M} `{Hd : Hands T} `{Wiring} `{Prose} `{Platform} `{RunCodec} `{CallsJson} `{Json} `{Unicode}.
Abbreviation err := (turn_error mind_error hand_error).
Abbreviation eop := (io (Engine M T) (turn_error mind_error hand_error)).

(** What is shown of a piece after the text [before]. *)
Definition piece (before d : string) : string :=
  if bool_decide (d = "") || isInsideThinkingBlock (before +:+ d) || isInsideMarkupTag (before +:+ d) then "" else stripThinkingTags d.
Fixpoint visible (before : string) (ds : list string) : string :=
  match ds with [] => "" | d :: ds => piece before d +:+ visible (before +:+ d) ds end.
Definition joined (ds : list string) : string := foldr String.append "" ds.
Lemma visible_unmarked before ds : letters_stay -> unmarked (before +:+ joined ds) -> visible before ds = joined ds.
Proof.
  intros Hu. revert before. induction ds as [|d ds IH]; intros before Hs; [done|]. cbn [visible joined foldr] in *. fold (joined ds) in *.
  rewrite <- string_app_assoc in Hs. rewrite IH by done. f_equal. apply unmarked_front in Hs as [Hs _]. destruct (unmarked_outside _ Hu Hs) as [H1' H2'].
  apply unmarked_front in Hs as [_ Hd']. unfold piece. rewrite H1', H2', !orb_false_r. case_bool_decide; [done|by apply strip_unmarked].
Qed.
Lemma visible_part before ds : part_of_text (visible before ds) (joined ds).
Proof.
  revert before. induction ds as [|d ds IH]; intros before; [apply part_nil|]. cbn [visible joined foldr]. fold (joined ds).
  apply part_app; [|apply IH]. unfold piece. destruct (_ || _); [apply part_nil|apply strip_part].
Qed.
(** The pieces that are read: to the first that says it is the last. *)
Fixpoint read_pieces (chunks : list StreamChunk) : list string :=
  match chunks with [] => [] | ch :: rest => DeltaContent ch :: (if ChDone ch then [] else read_pieces rest) end.

Definition shows (text : string) (l : list AgentStreamEvent) : Prop := forall a, shown_after a l = a +:+ text.
Lemma shows_nil : shows "" [].
Proof. intros a. cbn. by rewrite string_app_nil_r. Qed.
Lemma shows_app x y l l' : shows x l -> shows y l' -> shows (x +:+ y) (l ++ l').
Proof. intros Hl Hl' a. by rewrite shown_after_app, Hl, Hl', string_app_assoc. Qed.
Lemma shows_reasoning t : shows "" [SReasoning t].
Proof. intros a. cbn. by rewrite string_app_nil_r. Qed.

Lemma content_piece_spec d r : let '(r', evs, token) := content_piece d r in
  RContent r' = RContent r +:+ d /\ RToolCalls r' = RToolCalls r /\ shows (piece (RContent r) d) evs /\ token = negb (bool_decide (piece (RContent r) d = "")).
Proof.
  unfold content_piece, piece. case_bool_decide as Hd'; cbn [orb].
  { subst. rewrite string_app_nil_r. split_and!; [done|done|apply shows_nil|done]. }
  cbn [RContent add_content set_rcontent]. destruct (isInsideThinkingBlock _); cbn [orb].
  - case_bool_decide; split_and!; (apply shows_nil || apply shows_reasoning || done).
  - destruct (isInsideMarkupTag _); cbn [negb]; [split_and!; (apply shows_nil || done)|].
    case_bool_decide as Hs; [rewrite Hs; split_and!; (apply shows_nil || done)|by split_and!].
Qed.
Lemma take_chunk_spec ch r : let '(r', evs, token) := take_chunk ch r in
  RContent r' = RContent r +:+ DeltaContent ch /\ shows (piece (RContent r) (DeltaContent ch)) evs /\
  token = negb (bool_decide (piece (RContent r) (DeltaContent ch) = "")).
Proof.
  unfold take_chunk. case_bool_decide.
  - pose proof (content_piece_spec (DeltaContent ch) r) as Hc. destruct (content_piece _ _) as [[r' evs] token].
    destruct Hc as (Hc & _ & Hs & Ht). by split_and!.
  - pose proof (content_piece_spec (DeltaContent ch) (add_reasoning (DeltaReasoning ch) r)) as Hc. cbn [RContent add_reasoning set_rcontent] in Hc.
    destruct (content_piece _ _) as [[r' evs] token]. destruct Hc as (Hc & _ & Hs & Ht). split_and!; try done.
Qed.

Definition sent (s s' : Engine M T) (evs : list AgentStreamEvent) : Prop := stream s' = stream s ++ evs.
Lemma wp_send evs (Q : result err unit -> Engine M T -> env -> Prop) s e : Q (Ok tt) (add_stream evs s) e -> wp (send evs) Q s e.
Proof. apply wp_modify. Qed.

Lemma read_chunks_spec chunks r tokens s e :
  wp (read_chunks chunks r tokens) (fun x s' _ => match x with
     | Ok (Ok (r', tokens')) => exists evs, sent s s' evs /\ RContent r' = RContent r +:+ joined (read_pieces chunks) /\
          shows (visible (RContent r) (read_pieces chunks)) evs /\
          tokens' = tokens || negb (bool_decide (visible (RContent r) (read_pieces chunks) = ""))
     | _ => True end) s e.
Proof.
  revert r tokens s e. induction chunks as [|ch rest IH]; intros r tokens s e; cbn [read_chunks].
  all: apply wp_bind; unfold ctx_done; apply wp_bind, wp_attempt, wp_db; intros e'; split; apply wp_ret; cbv beta iota; [|by apply wp_ret].
  { apply wp_ret. exists []. cbn. rewrite string_app_nil_r, orb_false_r. split_and!; [by unfold sent; rewrite app_nil_r|done|apply shows_nil|done]. }
  destruct (ChError ch); [by apply wp_ret|]. pose proof (take_chunk_spec ch r) as Hch. destruct (take_chunk ch r) as [[r1 evs1] token1].
  destruct Hch as (Hr1 & Hs1 & Ht1). apply wp_bind, wp_send. cbv beta iota. cbn [read_pieces]. destruct (ChDone ch).
  - apply wp_ret. exists evs1. cbn. rewrite !string_app_nil_r. by split_and!; [|done|done|subst].
  - eapply wp_mono; [apply IH|]. cbv beta. intros [[[r2 tokens2]|x]|x] s2 e2; [|done..]. intros (evs2 & Hs & Hr2 & Hsh & Ht2).
    exists (evs1 ++ evs2). cbn [visible joined foldr]. fold (joined (read_pieces rest)). rewrite Hr1 in *. split_and!.
    + unfold sent in *. rewrite Hs. cbn. by rewrite app_assoc.
    + by rewrite Hr2, string_app_assoc.
    + by apply shows_app.
    + rewrite Ht2, Ht1, <- orb_assoc, <- negb_andb. do 2 f_equal. destruct (piece (RContent r) (DeltaContent ch)); [|done]. done.
Qed.

Lemma read_chunks_fails chunks r tokens s e :
  wp (read_chunks chunks r tokens) (fun x _ _ => match x with Ok (Ok _) | Ok (Err (StreamFailed _)) => True | _ => False end) s e.
Proof.
  revert r tokens s e. induction chunks as [|ch rest IH]; intros r tokens s e; cbn [read_chunks].
  all: apply wp_bind; unfold ctx_done; apply wp_bind, wp_attempt, wp_db; intros e'; split; apply wp_ret; cbv beta iota; [|by apply wp_ret].
  { by apply wp_ret. }
  destruct (ChError ch); [by apply wp_ret|]. destruct (take_chunk ch r) as [[r1 evs1] token1]. apply wp_bind, wp_send. cbv beta iota.
  destruct (ChDone ch); [by apply wp_ret|apply IH].
Qed.

Lemma wp_finish_reasoning r (Q : result err Response -> Engine M T -> env -> Prop) s e :
  (forall r' s' evs, RToolCalls r' = RToolCalls r -> sent s s' evs -> shows "" evs -> Q (Ok r') s' e) -> wp (finish_reasoning r) Q s e.
Proof.
  intros HQ. assert (sent s s []) by (unfold sent; by rewrite app_nil_r). unfold finish_reasoning. case_bool_decide.
  { apply wp_ret. eapply HQ; [done..|apply shows_nil]. }
  destruct (extract_thinking _ _) as [cleaned thinking]. apply wp_bind. destruct (_ && _).
  - apply wp_send. cbv beta iota. apply wp_ret. eapply HQ; [done|reflexivity|apply shows_reasoning].
  - apply wp_ret. cbv beta iota. apply wp_ret. eapply HQ; [done..|apply shows_nil].
Qed.
Lemma wp_finish_calls r (Q : result err Response -> Engine M T -> env -> Prop) s e :
  (forall r' e', Q (Ok r') s e') -> wp (finish_calls r) Q s e.
Proof.
  intros HQ. unfold finish_calls. destruct (_ && _); [|by apply wp_ret]. apply wp_bind, wp_draw. cbv beta iota. intros.
  destruct (extract_calls _ _) as [cleaned embedded]. by apply wp_ret.
Qed.

(** What is on the screen when an answer was received. *)
Definition displayed (ds : list string) (r : Response) : string :=
  if negb (bool_decide (RToolCalls r = [])) then ""
  else if bool_decide (RContent r = joined ds) && negb (bool_decide (visible "" ds = "")) then visible "" ds
  else RContent r.
Lemma corrections_show ds r evs evs2 : shows (visible "" ds) evs -> shows "" evs2 ->
  shown ((evs ++ evs2) ++ corrections (joined ds) (negb (bool_decide (visible "" ds = ""))) r) = displayed ds r.
Proof.
  intros Hv H2'. unfold shown. rewrite shown_after_app, shown_after_app, Hv, H2', string_app_nil_r. cbn [String.append]. unfold corrections, displayed.
  destruct (decide (visible "" ds = "")) as [Hvis|Hvis]; [rewrite Hvis|]; repeat (case_bool_decide; cbn [negb andb]); cbn; done || congruence.
Qed.

Lemma delivered model chunks (s : Engine M T) e : wp (deliver model chunks) (fun x s' _ => match x with
    | Ok (Ok r) => exists evs, stream s' = stream s ++ evs /\ shown evs = displayed (read_pieces chunks) r
    | Ok (Err (StreamFailed _)) => True | _ => False end) s e.
Proof.
  unfold deliver. apply wp_bind. eapply wp_mono; [apply wp_and; [apply read_chunks_spec|apply read_chunks_fails]|]. cbv beta.
  intros [[[r tokens]|x]|x] s1 e1 [H1' H2']; [|by apply wp_ret|done]. destruct H1' as (evs & Hs1 & Hraw & Hsh & Htok).
  cbn [RContent no_response String.append] in Hraw, Hsh, Htok. cbv zeta. apply wp_bind, wp_finish_reasoning.
  intros r2 s2 evs2 _ Hs2 Hsh2. cbv beta iota. apply wp_bind, wp_finish_calls. intros r3 e3. cbv beta iota. apply wp_bind, wp_send. cbv beta iota. apply wp_ret.
  exists ((evs ++ evs2) ++ corrections (RContent r) tokens r3). split; [cbn; by rewrite Hs2, Hs1, !app_assoc|].
  rewrite Hraw, Htok. cbn [orb]. by apply corrections_show.
Qed.

(** C37. When an answer that came in pieces is accepted, what is on the screen
    of a client is nothing when the answer wants tools, and else a part of its
    text: bytes may be missing, none is added or moved.  It is the whole text
    when the clean-up changed what had come, and when the pieces have none of
    the bytes [< = [ _ {] (where no letter becomes one of them in lower case, as
    in the tables of Unicode); and it is empty only when the text is.  What may
    be missing are pieces that looked like the middle of markup, and tags of
    thinking. *)
Theorem stream_shows_the_answer model chunks (s : Engine M T) e : letters_stay ->
  let '(x, (s', _)) := deliver model chunks s e in
  match x with
  | Ok (Ok r) => exists evs, stream s' = stream s ++ evs /\
      if decide (RToolCalls r = []) then
        part_of_text (shown evs) (RContent r) /\
        (RContent r <> joined (read_pieces chunks) \/ shown evs = "" \/ unmarked (joined (read_pieces chunks)) -> shown evs = RContent r)
      else shown evs = ""
  | Ok (Err (StreamFailed _)) => True
  | _ => False
  end.
Proof.
  intros Hu. pose proof (delivered model chunks s e) as Hw. unfold wp in Hw. destruct (deliver model chunks s e) as [x [s' e']].
  destruct x as [[r|f]|f]; [|done..]. destruct Hw as (evs & Hs & Hsh). exists evs. split; [done|]. rewrite Hsh. unfold displayed. clear Hsh.
  destruct (decide (RToolCalls r = [])) as [Hc|Hc]; [rewrite (bool_decide_true _ Hc)|by rewrite (bool_decide_false _ Hc)]. cbn [negb].
  destruct (bool_decide_reflect (RContent r = joined (read_pieces chunks))) as [Heq|Hne]; cbn [andb]; [|by unfold part_of_text].
  destruct (bool_decide_reflect (visible "" (read_pieces chunks) = "")) as [Hv|Hv]; cbn [negb]; [by unfold part_of_text|].
  rewrite Heq. split; [apply visible_part|]. intros [Hx|[Hx|Hx]]; [done|done|by apply visible_unmarked].
Qed.
End spec.
