(* ===== verification/AgentResume.v ===== *)
(** * Resuming a turn after an approval ([internal/agent/engine_resume.go])

    [ResumeApproved] takes the checkpoint of a paused run, executes the very
    action that was approved, and goes on for ten iterations.  What happens to
    the mission the run belongs to is [PlanEngine]. *)

From S2P Require Import Prelude GoStrings Io Tables Risk Approval Registry GoText Transcript Cascade AgentRuns AgentContext AgentEngine AgentStep.
#[local] Open Scope Z_scope.

Definition resumeMaxIterations : nat := 10.
Definition deferred_note : string := "tool call was deferred pending approval of a concurrent action".

(** ** The transcript that is resumed *)

Definition last_assistant (l : list Message) : option Message := find (fun m => bool_decide (Role m = RoleAssistant)) (rev l).
Definition resultIDs (l : list Message) : list string :=
  ToolCallID <$> filter (fun m => Role m = RoleTool /\ ToolCallID m <> "") l.
Definition resume_messages (cp : RunCheckpoint) (observation : string) : list Message :=
  let l := CpMessages cp ++ [tool_message (CpPending cp) observation] in
  match last_assistant l with
  | Some m =>
      if (1 <? length (ToolCalls m))%nat then
        l ++ ((fun tc => tool_message tc deferred_note) <$> filter (fun tc => TcID tc ∉ resultIDs l) (ToolCalls m))
      else l
  | None => l
  end.

Section resume.
Context {M T : Type} `{Mn : Mind M} `{Hd : Hands T} `{Wiring} `{Prose} `{P : Platform} `{RunCodec} `{CallsJson} `{Json} `{Unicode}.
Abbreviation err := (turn_error mind_error hand_error).
Abbreviation eop := (io (Engine M T) (turn_error mind_error hand_error)).

(** ** The approved action *)

(** The checkpoint and the run, if they are what was approved. *)
Definition matching_checkpoint (approval : ApprovalRequest) : eop (RunCheckpoint * AgentRun) :=
  if negb (has_run_store && has_tools) then throw ResumeNotConfigured
  else
    r ← on_store (LoadCheckpointByTrace (Approval.TraceID approval));
    match r with
    | Err e => throw (ResumeLoad e)
    | Ok (cp, run) =>
        if negb (bool_decide (CpAgent cp = Approval.AgentID approval)) then throw (ApprovalInvalid "agent")
        else if negb (bool_decide (FnName (TcFunction (CpPending cp)) = Approval.ToolName approval)) then throw (ApprovalInvalid "tool")
        else if negb (bool_decide (ActionHash (Approval.AgentID approval) (Approval.ToolName approval)
                        (NormalizeToolInput (FnArguments (TcFunction (CpPending cp)))) = AHash approval))
        then throw (ApprovalInvalid "action")
        else mret (cp, run)
    end.

(** ** The loop *)

Definition answer_block (resp : Response) : Message :=
  mkMessage RoleAssistant (RContent resp) (RReasoning resp) (RToolCalls resp) "" "" (RProviderItems resp).
Definition raw_outcome (r : result hand_error (option ToolResult)) : string :=
  match r with Err e => hand_text e | Ok (Some res) => Registry.Content res | Ok None => "" end.
Definition count_raw (r : result hand_error (option ToolResult)) (failures : Z) : Z :=
  match r with Err _ => failures + 1 | Ok (Some _) => 0 | Ok None => failures end.

(** The result of a call goes to the conversation at once.  Too many failures
    clear the tools of [currentOpts], which is not read again. *)
Fixpoint resume_calls (u : Turn) (step : Z) (calls : list ToolCall) (l : Loop)
  : eop (TurnEnd err + Loop) :=
  match calls with
  | [] => mret (inr l)
  | tc :: rest =>
      let name := FnName (TcFunction tc) in
      r ← execute_tool (t_ctx u) (t_agent u) name (FnArguments (TcFunction tc));
      match (match r with Err e => match hand_approval e with Some _ => Some e | None => None end | Ok _ => None end) with
      | Some e =>
          _ ← saveApprovalCheckpoint (t_ctx u) (t_conv u) (l_run l) (t_agent u) (t_goal u) (t_source u) (l_messages l) step (l_usage l) tc;
          x ← end_with l RunApprovalPending "approval_required" step (Err (ToolFailed e));
          mret (inl x)
      | None =>
          let content := raw_outcome r in
          let l := count_observation content (set_failures (count_raw r (l_failures l)) l) in
          _ ← append_event (l_run l) (tool_event_ step (match r with Ok _ => "success" | Err _ => "error" end) tc content 0);
          resume_calls u step rest (set_messages (l_messages l ++ [tool_message tc (capToolObservation content)]) l)
      end
  end.

(** The answer of a resumed turn is accepted, and counted. *)
Definition resume_settle (u : Turn) (step : Z) (resp : Response) (l : Loop) : eop (TurnEnd err) :=
  if negb (VerifySemanticConsistency (t_goal u) (RContent resp)) then
    end_with l RunFailed "verification_failed" step (Err ResumeUnverified)
  else
    let resp := set_rusage (l_usage l) resp in
    run ← finishRun (l_run l) RunCompleted "goal_completed" step (l_usage l);
    _ ← publish_event "agent.action_done" (t_agent u);
    _ ← (if bool_decide (RContent resp = "") || negb has_reflection then mret tt
         else note [Reflected (t_agent u) (t_goal u) (RContent resp)]);
    _ ← RecordTokenUsage (t_agent u) (model_name (t_manifest u) resp) (t_source u) (l_usage l);
    mret (mkEnd run step (l_usage l) (Ok resp)).

Definition resume_round (u : Turn) (first : Z) (iter : nat) (l : Loop) : eop round :=
  let step := first + Z.of_nat iter + 1 in
  let a := t_manifest u in
  let last := bool_decide (iter = resumeMaxIterations - 1)%nat in
  let tools := if last then [] else l_tools l in
  let l := if last then set_messages (l_messages l ++ [limit_note]) l else l in
  messages ← prune_for (l_run l) a (l_messages l);
  answer ← ask_fitting (cascade_order a) (l_run l) a messages (base_options a tools);
  let l := set_messages (answer.1) l in
  match answer.2 with
  | Err x => x ← end_with l RunFailed "infrastructure_failure" step (Err (ModelFailed x)); mret (Stop x)
  | Ok resp =>
      let l := set_usage (addUsage (l_usage l) (RUsage resp)) l in
      _ ← note [Wanted (RToolCalls resp)];
      if bool_decide (RToolCalls resp = []) || bool_decide (tools = []) then x ← resume_settle u step resp l; mret (Stop x)
      else
        x ← resume_calls u step (RToolCalls resp) (set_messages (l_messages l ++ [answer_block resp]) l);
        match x with inl x => mret (Stop x) | inr l => mret (Onward l) end
  end.
Fixpoint resume_react (u : Turn) (first : Z) (left : nat) (l : Loop) : eop round :=
  match left with
  | O => mret (Onward l)
  | Datatypes.S left' =>
      r ← resume_round u first (resumeMaxIterations - left) l;
      match r with Onward l => resume_react u first left' l | _ => mret r end
  end.

Definition resume_loop (u : Turn) (first : Z) (l : Loop) : eop (TurnEnd err) :=
  r ← resume_react u first resumeMaxIterations l;
  match r with
  | Stop x => mret x
  | Converged l | Onward l => end_with l RunFailed "iteration_budget_exhausted" (first + Z.of_nat resumeMaxIterations) (Err ResumeExhausted)
  end.

(** What is resumed: the approved action is executed with the bytes that were
    approved; the calls of the rest of the turn carry no approval. *)
Definition approved_ctx (c : ctx) (cp : RunCheckpoint) (approval : ApprovalRequest) : ctx :=
  WithApprovalID (WithTraceID c (CpTrace cp)) (AID approval).
Definition resumed_ctx (c : ctx) (cp : RunCheckpoint) : ctx := WithApprovalID (WithTraceID c (CpTrace cp)) "".

Definition resume_from (c : ctx) (approval : ApprovalRequest) (cp : RunCheckpoint) (run : AgentRun) (a : AgentManifest) : eop (TurnEnd err) :=
  r ← execute_tool (approved_ctx c cp approval) (CpAgent cp) (FnName (TcFunction (CpPending cp))) (Input approval);
  match r with
  | Err e =>
      run ← finishRun (Some run) RunFailed "approved_execution_failed" (CpIteration cp) (CpUsage cp);
      mret (mkEnd run (CpIteration cp) (CpUsage cp) (Err (ToolFailed e)))
  | Ok res =>
      let observation := match res with Some res => Registry.Content res | None => "" end in
      _ ← append_event (Some run) (fun run => mkRunEvent "" (RunID run) (RunTrace run) (CpIteration cp) "approval_execution" "success"
            (Approval.ToolName approval) (Some (DObservation (truncateRunData observation 4096))) 0 None);
      s ← get;
      let u := mkTurn (resumed_ctx c cp) (CpConversation cp) (CpAgent cp) (CpGoal cp) (CpSource cp) a in
      resume_loop u (CpIteration cp)
        (set_usage (CpUsage cp) (fresh_loop (resume_messages cp observation) (offered c a (hands s)) (Some run)))
  end.

(** [ResumeApproved] up to the mission. *)
Definition ResumeApproved (c : ctx) (approval : ApprovalRequest) : eop (RunCheckpoint * TurnEnd err) :=
  x ← matching_checkpoint approval;
  let '(cp, run) := x in
  s ← get;
  match agents s !! CpAgent cp with
  | None => throw (AgentNotFound (CpAgent cp))
  | Some a => e ← resume_from c approval cp run a; mret (cp, e)
  end.
End resume.
