(* ===== verification/AgentParts.v ===== *)
(** * The engine's components

    The cascade of models as the engine's [Mind], the tool registry as its
    [Hands]: what the theorems about turns assume of them holds. *)

From S2P Require Import Prelude GoStrings Io Tables Risk Approval Registry GoText Transcript Cascade AgentRuns AgentContext AgentEngine.
#[local] Open Scope Z_scope.

(** The pieces a provider's stream delivers until its channel is closed, and
    how the errors of the registry print. *)
Class StreamReader `{Models} := { stream_chunks : Stream -> list StreamChunk }.
Class ExecTexts := { exec_text : exec_error -> string }.

Fixpoint llm_text `{Prose} (e : llm_error) : string :=
  match e with
  | ErrProviderNotFound id => "provider not found: " +:+ id +:+ " (provider not configured in Settings)"
  | CircuitOpen target => "provider " +:+ target +:+ " circuit-open"
  | ProviderError text => text
  | ContextDone => ctx_text
  | ErrAllProvidersFailed last =>
      "all LLM providers in cascade failed: last error: " +:+ match last with Some e => llm_text e | None => "<nil>" end
  end.

Section cascade.
Context `{Unicode} `{MapRange} `{MS : Models} `{!StreamReader} `{Prose}.

Lemma ranged_quiet {S E A} (m : gmap string A) : quiet (ranged m : io S E (list (string * A))).
Proof. unfold ranged. quiet_go. Qed.
#[local] Hint Resolve ranged_quiet : quiet.
Lemma recordProviderResult_quiet id kind d failed : quiet (recordProviderResult id kind d failed).
Proof. unfold recordProviderResult. quiet_go. Qed.
#[local] Hint Resolve recordProviderResult_quiet : quiet.
Lemma GetProvider_quiet id : quiet (GetProvider id).
Proof. unfold GetProvider. quiet_go. Qed.
#[local] Hint Resolve GetProvider_quiet : quiet.
Lemma attempts_on_quiet left k c kind : quiet (attempts_on left k c kind).
Proof.
  revert k. induction left as [|left IH]; intros k; cbn [attempts_on]; unfold timed_complete, ctx_err; quiet_go; auto.
Qed.
#[local] Hint Resolve attempts_on_quiet : quiet.
Lemma try_targets_quiet targets messages opts last : quiet (try_targets targets messages opts last).
Proof. revert last. induction targets as [|t targets IH]; intros last; cbn [try_targets]; quiet_go; auto. Qed.
Lemma try_streams_quiet targets messages opts last : quiet (try_streams targets messages opts last).
Proof. revert last. induction targets as [|t targets IH]; intros last; cbn [try_streams]; quiet_go; auto. Qed.
#[local] Hint Resolve try_targets_quiet try_streams_quiet : quiet.
Lemma CompleteWithCascade_quiet order messages opts : quiet (CompleteWithCascade order messages opts).
Proof. unfold CompleteWithCascade. quiet_go. Qed.

Definition stream_of (order : list string) (messages : list Message) (opts : CompletionOptions) : io ModelCascadeRouter llm_error (list StreamChunk) :=
  st ← StreamCompleteWithCascade order messages opts; mret (stream_chunks st).
Lemma stream_of_quiet order messages opts : quiet (stream_of order messages opts).
Proof. unfold stream_of, StreamCompleteWithCascade. quiet_go. Qed.

#[export] Instance cascade_mind : Mind ModelCascadeRouter := {|
  mind_error := llm_error;
  mind_complete := CompleteWithCascade;
  mind_stream := stream_of;
  mind_real := HasRealProvider;
  mind_text := llm_text;
  mind_cancelled := fun e => match e with ContextDone => true | _ => false end;
  mind_complete_quiet := CompleteWithCascade_quiet;
  mind_stream_quiet := stream_of_quiet |}.
End cascade.

Section registry.
Context `{Platform} `{Json} `{Unicode} `{ExecTexts}.

Definition definition_of (d : string * string * string) : ToolDefinition :=
  mkToolDefinition "function" (mkFunctionDefinition d.1.1 d.1.2 d.2).
Lemma on_manager_quiet {A} f (m : Approval.op A) : quiet m -> quiet (on_manager f m).
Proof.
  intros Hm r e. unfold wp, on_manager. destruct (manager r) as [am|]; [|reflexivity].
  specialize (Hm am e). unfold wp in Hm. by destruct (m am e) as [[a|x] [am' e']].
Qed.
Lemma Request_quiet task source trace agent tool risk input : quiet (Request task source trace agent tool risk input).
Proof. unfold Request. quiet_go. Qed.
Lemma ValidateApproved_quiet id agent tool input : quiet (ValidateApproved id agent tool input).
Proof. unfold ValidateApproved, Get. quiet_go. Qed.
Lemma ActiveGrant_quiet agent tool task : quiet (ActiveGrant agent tool task).
Proof. unfold ActiveGrant, lookupGrant. quiet_go. Qed.
#[local] Hint Resolve on_manager_quiet Request_quiet ValidateApproved_quiet ActiveGrant_quiet : quiet.
Lemma audit_quiet trace agent tool risk status msg ms : quiet (audit trace agent tool risk status msg ms).
Proof. unfold audit, emit. quiet_go. Qed.
Lemma publish_quiet ev : quiet (publish ev).
Proof. unfold publish, emit. quiet_go. Qed.
#[local] Hint Resolve audit_quiet publish_quiet : quiet.
Lemma check_skill_quiet t : quiet (check_skill t).
Proof. unfold check_skill. quiet_go. Qed.
Lemma resolve_policy_quiet c agent tool input : quiet (resolve_policy c agent tool input).
Proof. unfold resolve_policy. quiet_go. Qed.
Lemma pass_gate_quiet c agent tool input : quiet (pass_gate c agent tool input).
Proof. unfold pass_gate. quiet_go. Qed.
Lemma find_grant_quiet c trace agent tool risk force : quiet (find_grant c trace agent tool risk force).
Proof. unfold find_grant. quiet_go. Qed.
Lemma require_exact_quiet c trace agent tool risk input : quiet (require_exact c trace agent tool risk input).
Proof. unfold require_exact. quiet_go. Qed.
Lemma notify_quiet agent tool d : quiet (notify_files agent tool d) /\ quiet (notify_workspace agent tool d).
Proof. unfold notify_files, notify_workspace, emit. split; quiet_go. Qed.
Lemma run_tool_quiet c t trace agent tool risk input : quiet (run_tool c t trace agent tool risk input).
Proof. unfold run_tool, emit. quiet_go; apply notify_quiet. Qed.
#[local] Hint Resolve check_skill_quiet resolve_policy_quiet pass_gate_quiet find_grant_quiet require_exact_quiet run_tool_quiet : quiet.

Lemma Execute_quiet c agent tool args : quiet (Execute c agent tool args).
Proof. unfold Execute. cbv zeta. quiet_go. Qed.

#[export] Instance registry_hands : Hands ToolRegistry := {|
  hand_error := exec_error;
  hand_execute := Execute;
  hand_tools := fun authorized denied r => definition_of <$> ToLLMToolDefinitions authorized denied r;
  hand_text := exec_text;
  hand_cancelled := fun _ => false;          (* the errors of tools are printed into a new one *)
  hand_approval := fun e => match e with ErrApprovalRequired a => Some a | _ => None end;
  hand_execute_quiet := Execute_quiet |}.
End registry.
