(* ===== verification/AgentRunSpec.v ===== *)
(** * What becomes of a turn's run

    A closed agent for examples ([Demo]); the row of a run says how its turn
    ended; a resumed turn executes what was approved, and goes on as a run of
    an abstract loop ([resume_run]) on the conversation as if the call had been
    answered at once. *)

From S2P Require Import Prelude GoStrings Io Tables Risk Approval Registry GoText Transcript Cascade AgentRuns AgentContext AgentEngine AgentStep AgentStream AgentSpec AgentResume.
#[local] Open Scope Z_scope.

(** ** An agent for closed examples

    A model that reads its answers from a list, a registry whose one guarded
    tool needs an approval, and the texts a turn does not depend on. *)

Module Demo.
#[local] Existing Instances plain_platform plain_json ascii_tables.

Inductive script_error := OutOfScript.
Definition next_line {A} (d : A) : io (list A) script_error A :=
  l ← get; match l with [] => throw OutOfScript | r :: l => _ ← modify (fun _ => l); mret r end.
Lemma next_line_quiet {A} (d : A) : quiet (next_line d).
Proof. unfold next_line. quiet_go. Qed.
Definition no_stream : io (list Response) script_error (list StreamChunk) := mret [].
Lemma no_stream_quiet : quiet no_stream.
Proof. unfold no_stream. quiet_go. Qed.
#[local] Instance script_mind : Mind (list Response) := {|
  mind_error := script_error;
  mind_complete := fun _ _ _ => next_line (no_response "");
  mind_stream := fun _ _ _ => no_stream;
  mind_real := fun _ => false;
  mind_text := fun _ => "no answer";
  mind_cancelled := fun _ => false;
  mind_complete_quiet := fun _ _ _ => next_line_quiet _;
  mind_stream_quiet := fun _ _ _ => no_stream_quiet |}.

(** [mail_send] needs an approval; every tool answers with its arguments. *)
Definition demo_request (agent tool args : string) : ApprovalRequest :=
  mkApproval "apr_1" "0" agent tool "high" "" 0 "" (ActionHash agent tool args) args "pending" "" 0 0 None "" "" "" true.
Definition demo_execute (c : ctx) (agent tool args : string) : io unit (option ApprovalRequest) (option ToolResult) :=
  if bool_decide (tool = "mail_send") && bool_decide (c_approval c = "") then throw (Some (demo_request agent tool args))
  else mret (Some (mkToolResult args None "")).
Lemma demo_execute_quiet c agent tool args : quiet (demo_execute c agent tool args).
Proof. unfold demo_execute. quiet_go. Qed.
Definition demo_tool (name : string) : ToolDefinition := mkToolDefinition "function" (mkFunctionDefinition name "" "{}").
#[local] Instance demo_hands : Hands unit := {|
  hand_error := option ApprovalRequest;
  hand_execute := demo_execute;
  hand_tools := fun _ _ _ => [demo_tool "mail_send"; demo_tool "web_search"];
  hand_text := fun _ => "approval required";
  hand_cancelled := fun _ => false;
  hand_approval := id;
  hand_execute_quiet := demo_execute_quiet |}.

#[local] Instance demo_wiring : Wiring := {|
  has_run_store := true; has_context_manager := true; has_context_db := true; has_tools := true; has_bus := true; has_verifier := true;
  has_in_flight := true; has_reflection := false; has_memory := false; has_token_tracker := false |}.
#[local] Instance demo_prose : Prose := {|
  cognitive_prompt := fun _ agent _ => "You are " +:+ agent; plan_note := fun _ _ => None;
  extract_thinking := fun c t => (c, t); extract_calls := fun _ c => (c, []); json_complaint := fun _ => "not an object"; ctx_text := "context canceled";
  operator := fun _ _ => None; memory_count := fun _ _ => 0; money := fun _ => ""; hourly_tokens := fun _ _ => None; monthly_cost := fun _ _ => Err "" |}.
#[local] Instance demo_calls_json : CallsJson := {| calls_json := fun _ => None |}.

Definition mail_call : ToolCall := mkToolCall "call_1" "function" (mkFunctionCall "mail_send" "{}").
Definition search_call : ToolCall := mkToolCall "call_2" "function" (mkFunctionCall "web_search" "{}").
Definition wants_both : Response := mkResponse "" "" [mail_call; search_call] "tool_calls" (mkUsage 3 2 5) "m" [].
Definition says_done : Response := mkResponse "Sent." "" [] "stop" (mkUsage 7 1 8) "m" [].

Definition demo_manifest : AgentManifest :=
  mkManifest "agt" "Agent" "active" "p/m" "" "" 0 ["mail_send"; "web_search"] (SpecFloat.S754_zero false) 0 0.
Definition paused_messages : list Message :=
  [with_role RoleSystem "You are agt"; with_role RoleUser "Send it"] ++ assistant_block "" wants_both [].
Definition paused : RunCheckpoint := mkCheckpoint "run_1" "0" "agt" "" "Send it" "chat" paused_messages 1 (mkUsage 3 2 5) mail_call "conv".
#[local] Instance demo_codec : RunCodec := {|
  encode_checkpoint := fun cp => if bool_decide (CpRun cp = CpRun paused) then Some "paused" else None;
  decode_checkpoint := fun s => if bool_decide (s = "paused") then Some paused else None;
  encode_data := fun _ => ""; decode_data := fun _ => None |}.

Definition demo_engine (script : list Response) : Engine (list Response) unit :=
  mkEngine {["agt" := demo_manifest]} (mkRunStore [] [] []) script tt ∅ ∅ ∅ [] [].

Definition outline (s : Engine (list Response) unit) : list (string * string) :=
  (fun row => (RunStatus (row_run row), checkpoint_json row)) <$> agent_runs (store s).
(** A turn stops where a tool needs an approval, and is resumed from there. *)
Example stops_and_resumes :
  let '(r1, (s1, e1)) := ExecuteStepWithHistory Background "conv" "agt" "Send it" [] (demo_engine [wants_both; says_done]) (calm 0) in
  let '(r2, (s2, _)) := ResumeApproved Background (demo_request "agt" "mail_send" "{}") s1 e1 in
  r1 = Err (ToolFailed (Some (demo_request "agt" "mail_send" "{}"))) /\
  outline s1 = [("approval_pending", "paused")] /\
  (exists cp x resp, r2 = Ok (cp, x) /\ te_result x = Ok resp /\ RContent resp = "Sent.") /\
  outline s2 = [("completed", "paused")].
Proof. vm_compute. split_and!; [done|done|by do 3 eexists|done]. Qed.

End Demo.
Import Demo.

(** ** Runs

    While no statement fails and the context is not done, the row of a turn's
    run says how the turn ended; the rows that were there stay as they were. *)

Section spec.
Context {M T : Type} `{Mn : Mind M} `{Hd : Hands T} `{Wiring} `{Prose} `{Platform} `{RunCodec} `{CallsJson} `{Json} `{Unicode}.
Abbreviation err := (turn_error mind_error hand_error).
Abbreviation eop := (io (Engine M T) (turn_error mind_error hand_error)).

(** The rows and the acts when the turn starts. *)
Variable base : list RunRow.
Variable old : list engine_event.

Definition rows (s : Engine M T) : list RunRow := agent_runs (store s).
(** The table is the one of the start with one row more; rows that do not
    happen to have the id of that row are untouched. *)
Definition spared (id : string) (r r' : RunRow) : Prop := RunID (row_run r') = RunID (row_run r) /\ (RunID (row_run r) <> id -> r' = r).
Definition grown (row : RunRow) (s : Engine M T) : Prop := exists l, rows s = l ++ [row] /\ Forall2 (spared (RunID (row_run row))) base l.
Definition still (s s' : Engine M T) : Prop := rows s' = rows s /\ acted s' = acted s.
(** What the turn has done. *)
Definition trail (s : Engine M T) (lg : list engine_event) : Prop := acted s = old ++ lg.

Lemma grown_still row s s' : still s s' -> grown row s -> grown row s'.
Proof. intros [Hr _]. unfold grown. by rewrite Hr. Qed.
Lemma trail_still lg s s' : still s s' -> trail s lg -> trail s' lg.
Proof. intros [_ Ha]. unfold trail. by rewrite Ha. Qed.
Lemma grown_unique row row' s : grown row s -> grown row' s -> row' = row.
Proof. intros (l & Hl & _) (l' & Hl' & _). rewrite Hl in Hl'. apply app_inj_tail in Hl' as [_ Heq]. done. Qed.
Lemma grown_update f row s s' : (forall r, RunID (row_run (f r)) = RunID (row_run r)) -> grown row s ->
  rows s' = update_where (has_id (RunID (row_run row))) f (rows s) -> grown (f row) s'.
Proof.
  intros Hf (l & Hl & Hall) Hs'. exists (update_where (has_id (RunID (row_run row))) f l). rewrite Hs', Hl, Hf. unfold update_where, has_id. rewrite fmap_app. cbn.
  rewrite bool_decide_true by done. split; [done|]. apply Forall2_fmap_r. eapply Forall2_impl; [exact Hall|]. cbv beta.
  intros r r' [Hid Hr]. unfold spared. unfold compose. case_bool_decide as Hb; [rewrite Hf; split; [done|congruence]|by split].
Qed.

(** An operation that goes through, and leaves the rows alone. *)
Definition fine {A} (P : A -> Prop) (m : eop A) : Prop :=
  forall s e, faults e = [] -> wp m (fun r s' e' => faults e' = [] /\ rows s' = rows s /\ match r with Ok a => P a | Err _ => False end) s e.

Lemma fine_ret {A} (P : A -> Prop) a : P a -> fine P (mret a).
Proof. intros HP s e He. by apply wp_ret. Qed.
Lemma fine_bind {A B} (P : A -> Prop) (Q : B -> Prop) (m : eop A) (f : A -> eop B) :
  fine P m -> (forall a, P a -> fine Q (f a)) -> fine Q (m ≫= f).
Proof.
  intros Hm Hf s e He. apply wp_bind. eapply wp_mono; [by apply Hm|]. cbv beta. intros [a|x] s' e' (He' & Hr & HP); [|done].
  eapply wp_mono; [by apply (Hf a HP)|]. cbv beta. rewrite Hr. done.
Qed.
(** Such an operation first, and what it adds to the acts. *)
Lemma fine_acts {A B} (P : A -> Prop) (R : result err A -> list engine_event -> Prop) (m : eop A) (f : A -> eop B) Q s e :
  fine P m -> logs R m -> faults e = [] ->
  (forall a s' e' l, P a -> R (Ok a) l -> faults e' = [] -> rows s' = rows s -> acted s' = acted s ++ l -> wp (f a) Q s' e') -> wp (m ≫= f) Q s e.
Proof.
  intros Hm Hl He Hf. apply wp_bind. eapply wp_mono; [apply wp_and; [by apply Hm|apply Hl]|]. cbv beta.
  intros [a|x] s' e' ((He' & Hr & HP) & l & Ha & HR); [|done]. by apply (Hf a s' e' l).
Qed.
Lemma fine_then {A B} (P P' : A -> Prop) (m : eop A) (f : A -> eop B) Q s e :
  fine P m -> calm_op P' m -> faults e = [] -> (forall a s' e', P a -> faults e' = [] -> still s s' -> wp (f a) Q s' e') -> wp (m ≫= f) Q s e.
Proof.
  intros Hm Hc He Hf. eapply fine_acts; [exact Hm|exact Hc|done|]. cbv beta. intros a s' e' l HP [-> _] He' Hr Ha. rewrite app_nil_r in Ha. by apply Hf.
Qed.
Lemma fine_mono {A} (P Q : A -> Prop) (m : eop A) : (forall a, P a -> Q a) -> fine P m -> fine Q m.
Proof. intros HPQ Hm s e He. eapply wp_mono; [by apply Hm|]. cbv beta. intros [a|x] s' e' (?&?&?); auto. Qed.

Lemma fine_modify f (P : unit -> Prop) : (forall s : Engine M T, rows (f s) = rows s) -> P tt -> fine P (modify f).
Proof. intros Hf HP s e He. by apply wp_modify. Qed.
Lemma fine_get : fine (fun _ => True) (get : eop _).
Proof. intros s e He. by apply wp_get. Qed.
Lemma fine_gets {A} (f : Engine M T -> A) : fine (fun _ => True) (gets f).
Proof. intros s e He. by apply wp_gets. Qed.
Lemma fine_now : fine (fun _ => True) (now : eop _).
Proof. intros s e He. apply wp_now_onward. intros e' [_ Hf]. auto. Qed.
Lemma fine_draw : fine (fun _ => True) (draw : eop _).
Proof. intros s e He. apply wp_draw_onward. intros e' [_ Hf]. auto. Qed.
Lemma fine_ctx_done : fine (fun b => b = false) (ctx_done : eop bool).
Proof.
  intros s e He. unfold ctx_done. apply wp_bind, wp_attempt, wp_db_onward; intros e'; [|by rewrite He].
  intros [_ Hf] _. apply wp_ret. auto.
Qed.
(** A component that is quiet. *)
Lemma fine_mind {A} (m : io M mind_error A) : quiet m -> fine (fun _ => True) (on_mind (T := T) m).
Proof.
  intros Hm s e He. unfold wp, on_mind. specialize (Hm (mind s) e). unfold wp in Hm. destruct (m (mind s) e) as [r [d e']].
  destruct Hm as [_ Hf]. auto.
Qed.
Lemma fine_hands {A} (m : io T hand_error A) : quiet m -> fine (fun _ => True) (on_hands (M := M) m).
Proof.
  intros Hm s e He. unfold wp, on_hands. specialize (Hm (hands s) e). unfold wp in Hm. destruct (m (hands s) e) as [r [d e']].
  destruct Hm as [_ Hf]. auto.
Qed.
Definition same_runs (d d' : RunStore) : Prop := agent_runs d' = agent_runs d.
#[local] Instance same_runs_preorder : PreOrder same_runs.
Proof. split; unfold same_runs; repeat intro; congruence. Qed.
Lemma fine_store {A} (m : io RunStore run_error A) :
  quiet m -> keeps same_runs m -> fine (fun _ => True) (on_store m).
Proof.
  intros Hq Hk s e He. unfold wp, on_store. specialize (Hq (store s) e). specialize (Hk (store s) e). unfold wp in *.
  destruct (m (store s) e) as [r [d e']]. destruct Hq as [_ Hf]. split; [auto|]. split; [|done]. exact Hk.
Qed.

Ltac fine_step :=
  lazymatch goal with
  | |- fine _ (mret _) => apply fine_ret; try done
  | |- fine _ (_ ≫= _) => eapply (fine_bind (fun _ => True)); [|intros ? _]
  | |- fine _ (note _) => apply fine_modify; [reflexivity|done]
  | |- fine _ (modify _) => apply fine_modify; [reflexivity|done]
  | |- fine _ get => apply fine_get
  | |- fine _ (gets _) => apply fine_gets
  | |- fine _ now => apply fine_now
  | |- fine _ draw => apply fine_draw
  | |- fine _ ctx_done => eapply fine_mono; [|apply fine_ctx_done]; done
  | |- fine _ (on_mind (mind_complete _ _ _)) => apply fine_mind, mind_complete_quiet
  | |- fine _ (on_hands (hand_execute _ _ _ _)) => apply fine_hands, hand_execute_quiet
  | |- fine _ (on_store _) => apply fine_store; [try quiet_go|try (keeps_go; done)]
  | |- fine _ (if ?b then _ else _) => destruct b
  | |- fine _ (match ?x with _ => _ end) => destruct x
  | |- fine _ (let _ := _ in _) => cbv zeta
  end.
Ltac fine_go := repeat fine_step.

Lemma fine_publish kind agent : fine (fun _ => True) (publish_event kind agent).
Proof. unfold publish_event. fine_go. Qed.
Lemma fine_append run ev : fine (fun _ => True) (append_event run ev).
Proof. unfold append_event, AppendEvent, new_id. fine_go. Qed.
Lemma fine_prune run a l : fine (fun _ => True) (prune_for run a l).
Proof. unfold prune_for, PruneAndSnapshot. fine_go. Qed.
Lemma fine_compact id a l : fine (fun _ => True) (compactAfterContextWindowError id a l).
Proof. unfold compactAfterContextWindowError, PruneAndSnapshot. fine_go. Qed.
Lemma fine_observe run tool raw : fine (fun _ => True) (observe run tool raw).
Proof. unfold observe, AutoSummarizeObservation. fine_go. Qed.
Lemma fine_ask_fitting order run a messages opts : fine (fun _ => True) (ask_fitting order run a messages opts).
Proof. unfold ask_fitting, ask. fine_go; apply fine_compact. Qed.
Lemma fine_verify c agent name args : fine (fun _ => True) (verifyAndExecuteTool c agent name args).
Proof. unfold verifyAndExecuteTool, execute_tool. fine_go. Qed.
Lemma fine_read_answer tools resp : fine (fun _ => True) (read_answer tools resp).
Proof. unfold read_answer. cbv zeta. destruct (_ && _); [|by apply fine_ret]. eapply fine_bind; [apply fine_draw|]. intros n _. destruct (extract_calls _ _). by apply fine_ret. Qed.

(** The notes of a turn's end are no acts. *)
Ltac calm_notes :=
  repeat lazymatch goal with
  | |- calm_op _ (mret _) => apply calm_ret; done
  | |- calm_op _ (note _) => apply calm_note; [reflexivity|done]
  | |- calm_op _ (if ?b then _ else _) => destruct b
  end.

(** ** Ends *)

(** What the run's row says for how the turn ended: status, reason, usage. *)
Definition agrees (r : result err Response) (status reason : string) (usage : Usage) : Prop :=
  match r with
  | Ok resp => status = RunCompleted /\ reason = "goal_completed" /\ RUsage resp = usage
  | Err (ToolFailed e) => is_Some (hand_approval e) /\ status = RunApprovalPending /\ reason = "approval_required"
  | Err (ModelFailed _) => status = RunFailed /\ reason = "infrastructure_failure"
  | _ => False
  end.
Lemma agrees_waiting r status reason usage : agrees r status reason usage -> status = RunApprovalPending -> exists e, r = Err (ToolFailed e).
Proof. destruct r as [|[]]; cbn; try done; [by intros (-> & _)|by intros (-> & _)|by intros (_ & _); eexists]. Qed.

(** What a run keeps from its start to its end. *)
Definition origin (r : AgentRun) : string * string * string * string * string := (RunID r, RunTrace r, RunAgent r, RunGoal r, RunSource r).

(** What the turn did ends with a request, an answer, and the calls of it up to
    the one that waits; the text of the checkpoint holds the conversation of
    that request with the answer and one result for each call before the one
    that waits, the usage, the iterations, and the call. *)
Definition paused_with (u : Turn) (lg : list engine_event) (id trace : string) (n : Z) (usage : Usage) (json : string) : Prop :=
  exists before msgs opts resp first tc rest ran results,
    lg = before ++ [Asked msgs opts; Wanted (RToolCalls resp)] ++ ran ++ [call_of u tc] /\
    RToolCalls resp = first ++ tc :: rest /\ calls_run u first ran /\ answers first results /\
    json = default "" (encode_checkpoint (mkCheckpoint id trace (t_agent u) (TaskIDFromContext (t_ctx u)) (t_goal u) (t_source u)
      (msgs ++ assistant_block "" resp results) n usage (normalized_call tc) (t_conv u))).
Definition checkpointed (u : Turn) (lg : list engine_event) (row : RunRow) : Prop :=
  paused_with u lg (RunID (row_run row)) (RunTrace (row_run row)) (Iterations (row_run row)) (RunUsage (row_run row)) (checkpoint_json row).

(** The row is the run as it is in memory; only a waiting row has a checkpoint. *)
Definition settled (u : Turn) (o : string * string * string * string * string) (x : TurnEnd err) (s : Engine M T) : Prop :=
  exists run row lg, te_run x = Some run /\ grown row s /\ trail s lg /\ origin (row_run row) = o /\
    RunStatus (row_run row) = RunStatus run /\ agrees (te_result x) (RunStatus run) (TerminationReason (row_run row)) (RunUsage (row_run row)) /\
    (CompletedAt (row_run row) = None <-> RunStatus run = RunApprovalPending) /\
    (if decide (RunStatus run = RunApprovalPending) then checkpointed u lg row else checkpoint_json row = "").

(** The run goes on; its row has the checkpoint [json], and the turn did [lg]. *)
Record alive (o : string * string * string * string * string) (run : AgentRun) (json : string) (lg : list engine_event) (s : Engine M T) : Prop := {
  al_origin : origin run = o;
  al_open : CompletedAt run = None;
  al_row : exists row, grown row s /\ origin (row_run row) = o /\ checkpoint_json row = json;
  al_trail : trail s lg }.
Definition live o run lg s : Prop := alive o run "" lg s.

Lemma origin_id r r' o : origin r = o -> origin r' = o -> RunID r = RunID r'.
Proof. unfold origin. congruence. Qed.

Hypothesis stored : has_run_store = true.

Lemma wp_on_store {A} (m : io RunStore run_error A) (Q : result err (result run_error A) -> Engine M T -> env -> Prop) s e :
  wp m (fun r d e' => Q (Ok r) (set_store d s) e') (store s) e -> wp (on_store m) Q s e.
Proof. unfold wp, on_store. by destruct (m (store s) e) as [r [d e']]. Qed.

Lemma Finish_spec run (Q : result run_error (AgentRun * result run_error unit) -> RunStore -> env -> Prop) d e : faults e = [] ->
  (forall t e', faults e' = [] ->
     Q (Ok (finished_at t run, Ok tt)) (set_runs (update_where (has_id (RunID run)) (write_finish (finished_at t run))) d) e') ->
  wp (Finish run) Q d e.
Proof.
  intros He HQ. unfold Finish. apply wp_bind, wp_now_onward. cbv beta iota. intros e1 [_ H1']. apply wp_bind, wp_attempt, wp_bind.
  apply wp_db_onward; cbv beta iota; [|by rewrite H1']. intros e2 [_ H2'] _. apply wp_modify. cbv beta. apply wp_ret. by apply HQ, H2', H1'.
Qed.
Lemma finishRun_spec run json lg status reason n usage o s e (Q : result err (option AgentRun) -> Engine M T -> env -> Prop) :
  alive o run json lg s -> faults e = [] ->
  (forall t s' e' row, faults e' = [] -> origin (row_run row) = o -> checkpoint_json row = json -> trail s' lg ->
     grown (write_finish (finished_at t (with_end status reason n usage run)) row) s' ->
     Q (Ok (Some (finished_at t (with_end status reason n usage run)))) s' e') ->
  wp (finishRun (Some run) status reason n usage) Q s e.
Proof.
  intros [Ho _ (row & Hrow & Hro & Hj) Ht] He HQ. unfold finishRun. rewrite stored. cbn [negb].
  apply wp_bind, wp_on_store, Finish_spec; [done|]. intros t e' He'. apply wp_ret. apply (HQ t _ _ row); [done..|].
  eapply grown_update; [|exact Hrow|]; [done|]. unfold rows. cbn [store set_store agent_runs set_runs with_end RunID].
  by rewrite (origin_id _ _ _ Ho Hro).
Qed.

(** A turn that ends as its result says. *)
Lemma end_settles u l run json lg status reason n r o s e :
  l_run l = Some run -> alive o run json lg s -> faults e = [] -> agrees r status reason (l_usage l) ->
  (if decide (status = RunApprovalPending) then paused_with u lg (RunID run) (RunTrace run) n (l_usage l) json else json = "") ->
  wp (end_with l status reason n r) (fun x s' e' => faults e' = [] /\ match x with Ok x => te_result x = r /\ settled u o x s' | Err _ => False end) s e.
Proof.
  intros Hl Hlive He Hag Hcp. unfold end_with. rewrite Hl. apply wp_bind. eapply finishRun_spec; [exact Hlive|done|].
  intros t s' e' row He' Hro Hj Ht Hrow. cbv beta iota. apply wp_ret. split; [done|]. split; [done|].
  destruct Hlive as [Ho Hopen _ _]. eexists _, _, lg. split; [done|]. split; [exact Hrow|]. split; [done|]. cbn. rewrite Hopen. split_and!; try done.
  - unfold terminal. destruct r as [|[]]; cbn in Hag; try done; destruct_and?; subst; done.
  - case_decide; [|by subst json]. unfold checkpointed. cbn. unfold origin in Ho, Hro. assert (RunID (row_run row) = RunID run /\ RunTrace (row_run row) = RunTrace run) as [-> ->] by (split; congruence).
    by rewrite Hj.
Qed.

Lemma alive_still o run json lg s s' : still s s' -> alive o run json lg s -> alive o run json lg s'.
Proof.
  intros Hs [? ? (row & Hrow & ?) ?]. split; [done|done| |by eapply trail_still]. exists row. split; [by eapply grown_still|done].
Qed.
(** The rows stay, the turn does more. *)
Lemma alive_acts o run json lg s s' l : rows s' = rows s -> acted s' = acted s ++ l -> alive o run json lg s -> alive o run json (lg ++ l) s'.
Proof.
  intros Hr Ha [? ? (row & Hrow & ?) Ht]. split; [done|done| |unfold trail; by rewrite Ha, Ht, app_assoc]. exists row. split; [|done].
  unfold grown. by rewrite Hr.
Qed.

(** The checkpoint of a turn that waits for an approval. *)
Lemma checkpoint_spec u run lg messages n usage tc o s e (Q : result err unit -> Engine M T -> env -> Prop) :
  live o run lg s -> faults e = [] ->
  (forall s' e', faults e' = [] ->
     alive o run (default "" (encode_checkpoint (mkCheckpoint (RunID run) (RunTrace run) (t_agent u) (TaskIDFromContext (t_ctx u)) (t_goal u) (t_source u)
       messages n usage (normalized_call tc) (t_conv u)))) lg s' -> Q (Ok tt) s' e') ->
  wp (saveApprovalCheckpoint (t_ctx u) (t_conv u) (Some run) (t_agent u) (t_goal u) (t_source u) messages n usage tc) Q s e.
Proof.
  intros Hlive He HQ. pose proof Hlive as [Ho Hopen (row & Hrow & Hro & Hj) Ht]. unfold saveApprovalCheckpoint. rewrite stored. cbn [negb].
  set (cp := mkCheckpoint _ _ _ _ _ _ _ _ _ _ _) in *. apply wp_bind, wp_on_store. unfold SaveCheckpoint.
  destruct (encode_checkpoint cp) as [data|] eqn:Henc; cbn [default] in HQ.
  - apply wp_bind, wp_now_onward. cbv beta iota. intros e1 [_ H1']. apply wp_bind, wp_db_onward; cbv beta iota; [|by rewrite H1'].
    intros e2 [_ H2'] _. apply wp_modify. apply wp_ret. apply HQ; [by apply H2', H1'|]. split; [done|done| |done].
    exists (touch_checkpoint data (clock e1) row). split; [|done]. eapply grown_update; [|exact Hrow|]; [done|].
    unfold rows. cbn [store set_store agent_runs set_runs cp CpRun]. by rewrite (origin_id _ _ _ Ho Hro).
  - apply wp_throw. cbv beta iota. apply wp_ret. apply HQ; [done|]. split; [done|done|by exists row|done].
Qed.

(** ** The loop *)

Lemma calls_run_snoc u calls tc ran c : calls_run u calls ran -> called_once u tc c -> calls_run u (calls ++ [tc]) (ran ++ c).
Proof.
  intros Hr Hc. induction Hr as [|tc' calls l Hno Hr IH|tc' calls l Hno Hr IH]; cbn [app].
  - rewrite <- (app_nil_r c). apply calls_run_cons; [done|constructor].
  - by apply calls_refused.
  - by apply calls_called.
Qed.
(** A call that is refused waits for nothing. *)
Lemma refused_waits c agent tc : has_tools = true -> refused tc -> forall (s : Engine M T) e,
  wp (verifyAndExecuteTool c agent (FnName (TcFunction tc)) (FnArguments (TcFunction tc)))
    (fun r _ _ => match r with Ok r => needs_approval (T := T) r = None | Err _ => True end) s e.
Proof.
  intros Ht (Hver & Hname & x & Hx) s e. unfold verifyAndExecuteTool. rewrite Ht, Hver, Hname, bool_decide_true, Hx by done. cbn [negb andb]. by apply wp_ret.
Qed.

Definition calls_settle (u : Turn) (o : string * string * string * string * string) (run : AgentRun) (r : result err (TurnEnd err + (Loop * list Message))) (s' : Engine M T) (e' : env) : Prop :=
  faults e' = [] /\ match r with
                    | Ok (inl x) => settled u o x s'
                    | Ok (inr (l', _)) => l_run l' = Some run /\ exists lg, live o run lg s'
                    | Err _ => False
                    end.
Lemma run_of_count text n l : l_run (count_observation text (set_failures n l)) = l_run l.
Proof. unfold count_observation. by case_bool_decide. Qed.
Lemma run_of_disable iter l : l_run (disable_tools iter l) = l_run l.
Proof. unfold disable_tools. by destruct (_ || _). Qed.

Lemma run_calls_settle u iter resp before opts run o calls : has_tools = true -> forall first ran done l s e,
  RToolCalls resp = first ++ calls -> calls_run u first ran -> answers first done ->
  l_run l = Some run -> live o run (before ++ [Asked (l_messages l) opts; Wanted (RToolCalls resp)] ++ ran) s -> faults e = [] ->
  wp (run_calls u iter resp calls done l) (calls_settle u o run) s e.
Proof.
  intros Htools. induction calls as [|tc rest IH]; intros first ran done l s e Hcalls Hran Hdone Hl Hlive He; cbn [run_calls].
  { apply wp_ret. by split; [|split; [|eexists]]. }
  cbv zeta. eapply fine_then; [apply fine_ctx_done|apply calm_ctx_done|done|]. intros ? s1 e1 -> He1 Hs1. apply (alive_still _ _ _ _ _ _ Hs1) in Hlive.
  apply wp_bind. eapply wp_mono; [apply wp_and; [by apply fine_verify|apply wp_and; [by apply (verify_logs u tc)|]]|].
  { instantiate (1 := fun r _ _ => refused tc -> match r with Ok r => needs_approval r = None | Err _ => True end).
    unfold wp. destruct (verifyAndExecuteTool _ _ _ _ s1 e1) as [r [s2 e2]] eqn:Hv. intros Href.
    pose proof (refused_waits (t_ctx u) (t_agent u) tc Htools Href s1 e1) as Hw. unfold wp in Hw. by rewrite Hv in Hw. }
  cbv beta. intros [r|x] s2 e2 ((He2 & Hr2 & _) & (c & Ha2 & Hc) & Href); [|done].
  apply (alive_acts _ _ _ _ _ _ _ Hr2 Ha2) in Hlive. rewrite <- !app_assoc in Hlive.
  destruct (needs_approval r) as [x|] eqn:Hn.
  - destruct Hc as [[Hr _]|[_ ->]]; [by specialize (Href Hr)|].
    apply wp_bind. cbn [l_run set_failures l_messages l_usage]. rewrite Hl. eapply checkpoint_spec; [exact Hlive|done|].
    intros s3 e3 He3 Hlive3. cbv beta iota. apply wp_bind. eapply wp_mono.
    { eapply (end_settles u _ run); [by cbn|exact Hlive3|exact He3| |].
      - destruct r as [?|[?| |h]]; cbn in Hn; try done. destruct (hand_approval h) eqn:Hh; [|done]. injection Hn as <-. by split; [eexists|].
      - rewrite decide_True by done. exists before, (l_messages l), opts, resp, first, tc, rest, ran, done. split_and!; done. }
    cbv beta. intros [y|y] s4 e4 [He4 Hy]; [|done]. apply wp_ret. split; [done|by apply Hy].
  - eapply fine_then; [apply fine_observe|apply calm_observe|done|]. intros text s3 e3 _ He3 Hs3. apply (alive_still _ _ _ _ _ _ Hs3) in Hlive.
    eapply fine_then; [apply fine_append|apply calm_append|done|]. intros ? s4 e4 _ He4 Hs4. apply (alive_still _ _ _ _ _ _ Hs4) in Hlive.
    eapply (IH (first ++ [tc]) (ran ++ c)); [by rewrite <- app_assoc|by apply calls_run_snoc|apply Forall2_app; [done|by repeat constructor; eexists]| | |done].
    + by rewrite run_of_disable, run_of_count.
    + rewrite (proj1 (steady_disable iter _)), (proj1 (steady_count text _ l)). exact Hlive.
Qed.

(** The last iteration offers no tools, and its answer ends the loop. *)
Definition round_settles (u : Turn) (o : string * string * string * string * string) (run : AgentRun) (iter : nat) (r : result err round) (s' : Engine M T) (e' : env) : Prop :=
  faults e' = [] /\ match r with
                    | Ok (Stop x) => settled u o x s'
                    | Ok (Converged l') => l_run l' = Some run /\ exists lg, live o run lg s'
                    | Ok (Onward l') => l_run l' = Some run /\ (exists lg, live o run lg s') /\ iter <> (maxIterations - 1)%nat
                    | Err _ => False
                    end.
Lemma retry_not_last iter resp l : wants_retry iter resp l = true -> iter <> (maxIterations - 1)%nat.
Proof. unfold wants_retry. intros [_ Hi%Nat.ltb_lt]%andb_true_iff ->. unfold maxIterations in Hi. cbn in Hi. lia. Qed.
Lemma answer_settles u (iter : nat) l run before opts o s e (tools : list ToolDefinition) resp :
  l_run l = Some run -> live o run (before ++ [Asked (l_messages l) opts; Wanted (RToolCalls resp)]) s -> faults e = [] ->
  (iter = (maxIterations - 1)%nat -> tools = []) ->
  wp (if wants_retry iter resp l then
        mret (Onward (set_retries (S (l_retries l)) (set_messages (l_messages l ++ empty_retry (RReasoning resp)) l)))
      else if bool_decide (RToolCalls resp = []) || negb has_tools || bool_decide (tools = []) then mret (Converged l)
      else
        x ← run_calls u iter resp (RToolCalls resp) [] l;
        match x with
        | inl x => mret (Stop x)
        | inr (l, results) => mret (Onward (set_messages (l_messages l ++ assistant_block "" resp results) l))
        end) (round_settles u o run iter) s e.
Proof.
  intros Hl Hlive He Hlast. destruct (wants_retry _ _ _) eqn:Hr.
  { apply wp_ret. split_and!; [done|done|by eexists|by eapply retry_not_last]. }
  destruct (_ || _) eqn:Hend; [apply wp_ret; split_and!; [done|done|by eexists]|]. apply orb_false_iff in Hend as [[_ Hht%negb_false_iff]%orb_false_iff Htools%bool_decide_eq_false].
  apply wp_bind. eapply wp_mono.
  { eapply (run_calls_settle u iter resp before opts run o _ Hht [] []); [done|constructor|constructor|done|by rewrite app_nil_r|done]. }
  cbv beta. intros [[x|[l' results]]|x] s' e' [He' Hx]; [by apply wp_ret| |done]. apply wp_ret.
  destruct Hx as [Hl' Hx]. split_and!; try done. by intros ->%Hlast.
Qed.
Lemma asks_last a opts msgs msgs' l : asks a opts msgs msgs' l -> exists l0, l = l0 ++ [Asked msgs' opts].
Proof. intros [[-> ->]|[-> _]]; [by exists []|by exists [Asked msgs opts]]. Qed.

Lemma react_round_settles u iter l run o lg s e :
  l_run l = Some run -> live o run lg s -> faults e = [] -> wp (react_round u iter l) (round_settles u o run iter) s e.
Proof.
  intros Hl Hlive He. unfold react_round.
  eapply fine_then; [apply fine_ctx_done|apply calm_ctx_done|done|]. intros ? s1 e1 -> He1 Hs1. apply (alive_still _ _ _ _ _ _ Hs1) in Hlive. cbv zeta.
  eapply fine_then; [apply fine_prune|apply calm_prune|done|]. intros m s2 e2 _ He2 Hs2. apply (alive_still _ _ _ _ _ _ Hs2) in Hlive.
  eapply fine_acts; [apply fine_ask_fitting|apply ask_fitting_logs|done|]. intros [m' answer] s3 e3 l3 _ Hasks He3 Hr3 Ha3.
  apply (alive_acts _ _ _ _ _ _ _ Hr3 Ha3) in Hlive. destruct (asks_last _ _ _ _ _ Hasks) as [l0 ->]. clear Hasks. cbn [fst snd].
  match goal with |- context [set_messages m' ?x] => set (l1 := set_messages m' x) end.
  assert (l_run l1 = Some run) as Hl1 by (unfold l1; by destruct (bool_decide (iter = maxIterations - 1)%nat)).
  assert (l_messages l1 = m') as Hm1 by done. clearbody l1. subst m'.
  destruct answer as [resp|x].
  2:{ eapply fine_then; [apply fine_publish|apply calm_publish|done|]. intros ? s4 e4 _ He4 Hs4. apply (alive_still _ _ _ _ _ _ Hs4) in Hlive.
      apply wp_bind. eapply wp_mono; [eapply (end_settles u _ run); [exact Hl1|exact Hlive|done|done|done]|]. cbv beta.
      intros [y|y] s5 e5 [He5 Hy]; [|done]. apply wp_ret. split; [done|by apply Hy]. }
  eapply fine_then; [apply fine_append|apply calm_append|done|]. intros ? s4 e4 _ He4 Hs4. apply (alive_still _ _ _ _ _ _ Hs4) in Hlive.
  eapply fine_then; [apply fine_read_answer|apply calm_read_answer|done|]. intros resp' s5 e5 _ He5 Hs5. apply (alive_still _ _ _ _ _ _ Hs5) in Hlive.
  eapply (fine_acts (fun _ => True)); [by apply fine_modify|apply wanted_logs|done|]. intros ? s6 e6 l6 _ [-> _] He6 Hr6 Ha6.
  apply (alive_acts _ _ _ _ _ _ _ Hr6 Ha6) in Hlive.
  eapply (answer_settles _ _ _ run (lg ++ l0)); [by cbn| |done|intros ->; by rewrite bool_decide_true].
  unfold live. rewrite <- !app_assoc in *. exact Hlive.
Qed.

Lemma react_settles u left l run o lg s e : (0 < left <= maxIterations)%nat ->
  l_run l = Some run -> live o run lg s -> faults e = [] ->
  wp (react u left l) (fun r s' e' => faults e' = [] /\ match r with
     | Ok (Stop x) => settled u o x s' | Ok (Converged l') => l_run l' = Some run /\ exists lg, live o run lg s' | _ => False end) s e.
Proof.
  revert l lg s e. induction left as [|n IH]; intros l lg s e Hn Hl Hlive He; [lia|]; cbn [react].
  apply wp_bind. eapply wp_mono; [by eapply react_round_settles|]. cbv beta. intros [[x|l'|l']|x] s' e' [He' Hx]; [by apply wp_ret..| |done].
  destruct Hx as (? & [lg' Hlg'] & Hiter). eapply IH; [lia|done|exact Hlg'|done].
Qed.

Lemma settle_settles u l run o lg s e :
  l_run l = Some run -> live o run lg s -> faults e = [] ->
  wp (settle u l) (fun x s' e' => faults e' = [] /\ match x with Ok x => settled u o x s' | Err _ => False end) s e.
Proof.
  intros Hl Hlive He. unfold settle, reflect, RecordTokenUsage. cbv zeta.
  eapply (fine_then (fun _ => True) (fun _ => True)); [fine_go|calm_notes|done|]. intros ? s1 e1 _ He1 Hs1. apply (alive_still _ _ _ _ _ _ Hs1) in Hlive.
  eapply (fine_then (fun _ => True)); [apply fine_publish|apply calm_publish|done|]. intros ? s2 e2 _ He2 Hs2. apply (alive_still _ _ _ _ _ _ Hs2) in Hlive.
  eapply (fine_then (fun _ => True) (fun _ => True)); [fine_go|calm_notes|done|]. intros ? s3 e3 _ He3 Hs3. apply (alive_still _ _ _ _ _ _ Hs3) in Hlive.
  eapply wp_mono; [eapply (end_settles u _ run); [exact Hl|exact Hlive|done|by destruct (l_calls l)|done]|]. cbv beta.
  intros [y|y] s4 e4 [He4 Hy]; [|done]. by split; [|apply Hy].
Qed.

Lemma run_loop_settles u l run o lg s e :
  l_run l = Some run -> live o run lg s -> faults e = [] ->
  wp (run_loop u l) (fun x s' e' => faults e' = [] /\ match x with Ok x => settled u o x s' | Err _ => False end) s e.
Proof.
  intros Hl Hlive He. unfold run_loop. apply wp_bind. eapply wp_mono; [eapply react_settles; try done; unfold maxIterations; lia|]. cbv beta.
  intros [[x|l'|l']|x] s' e' [He' Hx]; [by apply wp_ret| |done..]. destruct Hx as [? [lg' ?]]. by eapply settle_settles.
Qed.

(** ** The whole turn *)

(** What ends a turn before there is a run. *)
Definition early (r : result err Response) : Prop :=
  match r with
  | Err (AgentNotFound _ | AgentInactive _ _ | ErrHourlyTokenQuota _ _ _ | BudgetCheckFailed _ | BudgetExhausted _ _ _ | ErrConcurrentRunQuota _) => True
  | _ => False
  end.
Definition untouched (s s' : Engine M T) : Prop := agent_runs (store s') = agent_runs (store s) /\ acted s' = acted s.
(** An operation before there is a run. *)
Definition opening {A} (m : eop A) : Prop :=
  forall s e, faults e = [] -> wp m (fun r s' e' => faults e' = [] /\ untouched s s' /\ match r with Ok _ => True | Err x => early (Err x) end) s e.
Lemma opening_ret {A} (a : A) : opening (mret a).
Proof. intros s e He. by apply wp_ret. Qed.
Lemma opening_throw {A} x : early (Err x) -> opening (throw x : eop A).
Proof. intros Hx s e He. by apply wp_throw. Qed.
Lemma opening_draw : opening draw.
Proof. intros s e He. apply wp_draw_onward. intros e' [_ Hf]. split; [auto|done]. Qed.
Lemma opening_gets {A} (f : Engine M T -> A) : opening (gets f).
Proof. intros s e He. by apply wp_gets. Qed.
Lemma opening_bind {A B} (m : eop A) (f : A -> eop B) : opening m -> (forall a, opening (f a)) -> opening (m ≫= f).
Proof.
  intros Hm Hf s e He. apply wp_bind. eapply wp_mono; [by apply Hm|]. cbv beta. intros [a|x] s' e' (He' & Hs & Hx); [|done].
  eapply wp_mono; [by apply Hf|]. cbv beta. unfold untouched in *. destruct Hs as [-> ->]. done.
Qed.
Lemma opening_budget a source : opening (checkBudget a source).
Proof.
  unfold checkBudget. destruct has_token_tracker; cbn [negb]; [|apply opening_ret]. cbv zeta.
  apply opening_bind; [apply opening_draw|]. intros n. apply opening_bind.
  - destruct (hourly_tokens _ _); [|apply opening_ret]. destruct (_ && _); [by apply opening_throw|apply opening_ret].
  - intros _. destruct (SpecFloat.SFleb _ _); [apply opening_ret|]. apply opening_bind; [apply opening_draw|]. intros n'.
    destruct (monthly_cost _ _); [|by apply opening_throw]. destruct (_ && _); [by apply opening_throw|].
    destruct (_ && _); apply opening_ret.
Qed.

(** The row that a start appends is the run's. *)
Lemma startRun_spec trace agentID goal source s e (Q : result err (option AgentRun) -> Engine M T -> env -> Prop) :
  faults e = [] -> rows s = base -> acted s = old ->
  (forall run s' e', faults e' = [] -> live (RunID run, trace, agentID, goal, source) run [] s' -> Q (Ok (Some run)) s' e') ->
  wp (startRun trace agentID goal source) Q s e.
Proof.
  intros He Hb Ho HQ. unfold startRun. rewrite stored. cbn [negb]. apply wp_bind, wp_on_store. unfold Start, new_id.
  apply wp_bind, wp_now_onward. cbv beta iota. intros e1 [_ H1']. apply wp_bind, wp_bind, wp_draw_onward. cbv beta iota.
  intros e2 [_ H2']. apply wp_ret. cbv beta iota. apply wp_bind, wp_db_onward; cbv beta iota.
  2:{ intros e3 Hf. destruct Hf. by apply H2', H1'. }
  intros e3 [_ H3'] _. apply wp_bind, wp_modify. cbv beta iota. apply wp_ret. apply wp_ret.
  apply HQ; [by apply H3', H2', H1'|]. split; [done|done| |unfold trail; by rewrite app_nil_r].
  unfold rows in Hb. eexists. split; [exists base; split; [|by apply Forall_Forall2_diag, Forall_true]|]; unfold rows; cbn [store set_store agent_runs set_runs].
  { by rewrite Hb. }
  by split.
Qed.

Lemma close_turn_spec u o (x : TurnEnd err) s e (Q : result err Response -> Engine M T -> env -> Prop) :
  settled u o x s -> Q (te_result x) s e -> wp (close_turn x) Q s e.
Proof.
  intros (run & row & lg & Hrun & _ & _ & _ & _ & Hag & _) HQ. unfold close_turn. rewrite Hrun. cbv zeta.
  replace (bool_decide (RunStatus run = RunRunning) || bool_decide (RunStatus run = "")) with false.
  { apply wp_bind, wp_ret. cbv beta iota. by apply wp_lift. }
  symmetry. apply orb_false_iff. destruct (te_result x) as [?|[]]; cbn in Hag; try done; destruct_and?;
    repeat match goal with Heq : RunStatus run = _ |- _ => rewrite Heq end; done.
Qed.
Lemma settled_still u o x s s' : still s s' -> settled u o x s -> settled u o x s'.
Proof.
  intros Hs (run & row & lg & ? & ? & ? & ?). exists run, row, lg. split; [done|]. split; [by eapply grown_still|]. split; [by eapply trail_still|done].
Qed.

(** How a turn that had a run ended: the row it added, and what it did. *)
Definition ended (c : ctx) (conv agentID goal : string) (r : result err Response) (s' : Engine M T) : Prop :=
  exists row lg a, grown row s' /\ trail s' lg /\
    RunAgent (row_run row) = agentID /\ RunGoal (row_run row) = goal /\ RunSource (row_run row) = sourceFromContextOrMessage c goal "chat" /\
    agrees r (RunStatus (row_run row)) (TerminationReason (row_run row)) (RunUsage (row_run row)) /\
    (CompletedAt (row_run row) = None <-> RunStatus (row_run row) = RunApprovalPending) /\
    (if decide (RunStatus (row_run row) = RunApprovalPending) then
       checkpointed (mkTurn (WithTraceID c (RunTrace (row_run row))) conv agentID goal (RunSource (row_run row)) a) lg row
     else checkpoint_json row = "").
Lemma settled_ended c n conv agentID goal a id x s :
  let source := sourceFromContextOrMessage c goal "chat" in
  settled (mkTurn (WithTraceID c n) conv agentID goal source a) (id, n, agentID, goal, source) x s -> ended c conv agentID goal (te_result x) s.
Proof.
  intros source (run & row & lg & _ & Hrow & Ht & Ho & Hst & Hag & Hcomp & Hcp). unfold origin in Ho. injection Ho as _ Htrace Hagent Hgoal Hsource.
  exists row, lg, a. rewrite Hst, Htrace, Hsource. split_and!; done.
Qed.

Lemma step_settles c conv agentID goal history s e : faults e = [] -> rows s = base -> acted s = old ->
  wp (ExecuteStepWithHistory c conv agentID goal history)
    (fun r s' e' => faults e' = [] /\ (untouched s s' /\ early r \/ ended c conv agentID goal r s')) s e.
Proof.
  intros He Hb Ho. unfold ExecuteStepWithHistory, active_manifest. apply wp_bind, wp_bind, wp_get. cbv beta iota zeta.
  destruct (agents s !! agentID) as [a0|]; [case_bool_decide|]; [|apply wp_throw; by split; [|left]..].
  apply wp_ret. cbv beta iota. apply wp_bind. eapply wp_mono; [by apply opening_budget|]. cbv beta.
  intros [a|x] s1 e1 (He1 & Hs1 & Hx); [|split; [done|by left]]. destruct (Hs1) as [Hr1 Ha1]. apply wp_bind, wp_gets. cbv beta iota.
  destruct (has_in_flight && _); [apply wp_throw; split; [done|by left]|].
  apply wp_bind, wp_draw_onward. cbv beta iota. intros e2 [_ H2']. apply wp_bind, startRun_spec; [by apply H2'|by unfold rows in *; congruence|congruence|].
  intros run s3 e3 He3 Hlive. cbv beta iota.
  eapply (fine_then (fun _ => True) (fun _ => True)); [destruct has_in_flight; fine_go|destruct has_in_flight; [by apply calm_modify|by apply calm_ret]|done|].
  intros ? s4 e4 _ He4 Hs4. apply (alive_still _ _ _ _ _ _ Hs4) in Hlive.
  eapply fine_then; [apply fine_publish|apply calm_publish|done|]. intros ? s5 e5 _ He5 Hs5. apply (alive_still _ _ _ _ _ _ Hs5) in Hlive.
  eapply fine_then; [apply fine_draw|apply calm_draw|done|]. intros n s6 e6 _ He6 Hs6. apply (alive_still _ _ _ _ _ _ Hs6) in Hlive.
  apply wp_bind, wp_get. cbv beta iota. apply wp_bind. eapply wp_mono; [by eapply run_loop_settles|]. cbv beta.
  intros [x|x] s7 e7 [He7 Hx7]; [|done].
  eapply (fine_then (fun _ => True) (fun _ => True)); [destruct has_in_flight; fine_go|destruct has_in_flight; [by apply calm_modify|by apply calm_ret]|done|].
  intros ? s8 e8 _ He8 Hs8. apply (settled_still _ _ _ _ _ Hs8) in Hx7. eapply close_turn_spec; [exact Hx7|]. split; [done|]. right. by eapply settled_ended.
Qed.
End spec.

Section theorem.
Context {M T : Type} `{Mn : Mind M} `{Hd : Hands T} `{Wiring} `{Prose} `{Platform} `{RunCodec} `{CallsJson} `{Json} `{Unicode}.

(** C32. While no statement fails and no context is done, a turn that was
    started leaves [agent_runs] with one row more, and rows with other ids as
    they were.  The new row says how the turn ended: completed with the usage of
    the answer, failed when the models failed, waiting when a tool needs an
    approval; only a waiting row has no time of completion.  The row of a
    waiting turn holds the text of its checkpoint, or the empty one if it has
    none: what the turn did ends with a request, an
    answer and the calls of it up to the one that waits, and the checkpoint has
    the conversation of that request with the answer and one result for each
    call before the one that waits, that call, the usage and the iteration.  A
    turn that is refused before it starts leaves the rows and does nothing. *)
Theorem turn_settles_its_run c conv agentID goal history (s : Engine M T) e : has_run_store = true -> faults e = [] ->
  let '(r, (s', _)) := ExecuteStepWithHistory (M := M) (T := T) c conv agentID goal history s e in
  untouched s s' /\ early r \/ ended (agent_runs (store s)) (acted s) c conv agentID goal r s'.
Proof.
  intros Hst He. pose proof (step_settles (agent_runs (store s)) (acted s) Hst c conv agentID goal history s e He eq_refl eq_refl) as Hw. unfold wp in Hw.
  destruct (ExecuteStepWithHistory c conv agentID goal history s e) as [r [s' e']]. apply Hw.
Qed.
End theorem.

(** ** The conversation *)

Lemma find_last {A} (p : A -> bool) (l1 l2 : list A) x : p x = true -> Forall (fun y => p y = false) l2 -> find p (rev (l1 ++ x :: l2)) = Some x.
Proof.
  intros Hx Hl. rewrite rev_app_distr. cbn [rev]. rewrite <- app_assoc. assert (Forall (fun y => p y = false) (rev l2)) as Hr by (by apply Forall_rev).
  induction Hr as [|y l Hy Hr IH]; cbn; [by rewrite Hx|by rewrite Hy].
Qed.
Lemma answers_tools calls results : answers calls results -> Forall (fun m => bool_decide (Role m = RoleAssistant) = false) results.
Proof. induction 1 as [|tc m calls results (text & ->) _ IH]; [constructor|by constructor]. Qed.
Lemma answers_ids calls results : answers calls results -> Forall (fun tc => TcID tc <> "") calls -> resultIDs results = TcID <$> calls.
Proof.
  induction 1 as [|tc m calls results (text & ->) _ IH]; [done|]. intros [Htc Hcalls]%Forall_cons. unfold resultIDs in *.
  rewrite filter_cons_True by by split. cbn. by rewrite IH.
Qed.
Lemma resultIDs_app l l' : resultIDs (l ++ l') = resultIDs l ++ resultIDs l'.
Proof. unfold resultIDs. by rewrite filter_app, fmap_app. Qed.

(** Of calls with different ids, those without a result are the ones left. *)
Lemma calls_left (L : list string) (calls rest : list ToolCall) :
  NoDup (TcID <$> calls ++ rest) -> (forall tc, tc ∈ rest -> TcID tc ∉ L) ->
  filter (fun tc => TcID tc ∉ L ++ (TcID <$> calls)) (calls ++ rest) = rest.
Proof.
  intros Hnd HL. rewrite fmap_app in Hnd. apply NoDup_app in Hnd as (_ & Hdis & _). rewrite filter_app, filter_none, filter_all; [done|..].
  - intros tc Htc [Hin|Hin]%elem_of_app; [by apply HL in Hin|]. apply (Hdis _ Hin). by apply list_elem_of_fmap_2.
  - intros tc Htc Hn. apply Hn, elem_of_app. right. by apply list_elem_of_fmap_2.
Qed.

Section conversation.
Context `{Json} `{Unicode}.

(** C33. A turn, also a resumed one, that was stopped after the [first] calls of
    an answer goes on as if the call had been executed at once, where the calls
    of the answer have ids that are not empty, differ, and have no result in the
    conversation before it: the conversation ends in the same answer with one
    result for every call, in order, the results that were there, the
    observation, and the note for the calls that were left. *)
Theorem resumed_conversation before content resp first tc rest given cp observation :
  RToolCalls resp = first ++ tc :: rest ->
  NoDup (TcID <$> RToolCalls resp) -> Forall (fun tc => TcID tc <> "" /\ TcID tc ∉ resultIDs before) (RToolCalls resp) ->
  answers first given -> CpMessages cp = before ++ assistant_block content resp given -> CpPending cp = normalized_call tc ->
  exists results, resume_messages cp observation = before ++ assistant_block content resp results /\ answers (RToolCalls resp) results /\
    results = given ++ tool_message tc observation :: ((fun tc => tool_message tc deferred_note) <$> rest).
Proof.
  intros Hcalls Hnd Hids Hgiven Hmsgs Hpend. set (block := mkMessage RoleAssistant content (RReasoning resp) (RToolCalls resp) "" "" (RProviderItems resp)).
  rewrite Hcalls, (app_assoc first [tc] rest : first ++ tc :: rest = _) in *.
  apply Forall_app in Hids as [Hids Hleft].
  assert (answers (first ++ [tc]) (given ++ [tool_message tc observation])) as Hans.
  { apply Forall2_app; [done|]. repeat constructor. by eexists. }
  assert (CpMessages cp ++ [tool_message (CpPending cp) observation] = before ++ [block] ++ (given ++ [tool_message tc observation])) as Hl.
  { rewrite Hmsgs, Hpend. unfold assistant_block. by rewrite <- !app_assoc. }
  exists ((given ++ [tool_message tc observation]) ++ ((fun tc => tool_message tc deferred_note) <$> rest)).
  split_and!; [|apply Forall2_app; [done|]; apply Forall2_fmap_r, Forall_Forall2_diag, Forall_true; by eexists|by rewrite <- app_assoc].
  unfold resume_messages. cbv zeta. rewrite Hl. unfold last_assistant. cbn [app].
  rewrite (find_last _ before _ block) by (done || by eapply answers_tools). cbn [ToolCalls block]. rewrite Hcalls.
  change (before ++ block :: given ++ [tool_message tc observation]) with (before ++ [block] ++ (given ++ [tool_message tc observation])).
  destruct (1 <? length ((first ++ [tc]) ++ rest))%nat eqn:Hlen.
  - rewrite (resultIDs_app before), (resultIDs_app [block]), (answers_ids _ _ Hans) by (eapply Forall_impl; [exact Hids|]; by intros ? [? _]).
    change (resultIDs [block]) with (@nil string). rewrite app_nil_l, calls_left; [|done|].
    + unfold assistant_block. by rewrite <- !app_assoc.
    + intros tc' Htc'. by apply (proj1 (Forall_forall _ _) Hleft) in Htc' as [_ ?].
  - apply Nat.ltb_ge in Hlen. rewrite !length_app in Hlen. cbn in Hlen. destruct rest; [|cbn in Hlen; lia].
    cbn [fmap list_fmap]. by rewrite app_nil_r.
Qed.
End conversation.

(** ** The rest of the turn *)

Section spec.
Context {M T : Type} `{Mn : Mind M} `{Hd : Hands T} `{Wiring} `{Prose} `{Pl : Platform} `{RunCodec} `{CallsJson} `{Json} `{Unicode}.
Abbreviation err := (turn_error mind_error hand_error).
Abbreviation eop := (io (Engine M T) (turn_error mind_error hand_error)).

(** The loop with [S n] iterations left.  It is not cut short: it ends with an
    answer, with an error of the models, or with a call that needs another
    approval. *)
Inductive resume_run (u : Turn) : nat -> list Message -> list ToolDefinition -> list engine_event -> Prop :=
  | resume_failed n msgs tools msgs' l : request_asks u n msgs tools msgs' l -> resume_run u (S n) msgs tools l
  | resume_answered n msgs tools msgs' l calls :
      request_asks u n msgs tools msgs' l -> calls = [] \/ request_tools n tools = [] -> resume_run u (S n) msgs tools (l ++ [Wanted calls])
  | resume_stopped n msgs tools msgs' l first tc rest :
      request_asks u n msgs tools msgs' l -> request_tools n tools <> [] ->
      resume_run u (S n) msgs tools (l ++ Wanted (first ++ tc :: rest) :: (call_of u <$> first ++ [tc]))
  | resume_acted n msgs tools msgs' l resp results l2 :
      request_asks u n msgs tools msgs' l -> request_tools n tools <> [] -> answers (RToolCalls resp) results ->
      resume_run u n (msgs' ++ answer_block resp :: results) tools l2 ->
      resume_run u (S n) msgs tools (l ++ Wanted (RToolCalls resp) :: (call_of u <$> RToolCalls resp) ++ l2).

Definition exhausted (r : result err Response) : Prop := r = Err ResumeExhausted.

Definition resumed_calls_post (u : Turn) (calls : list ToolCall) (l : Loop) (r : result err (TurnEnd err + Loop)) (lg : list engine_event) : Prop :=
  match r with
  | Err _ => False
  | Ok (inl x) => ~ exhausted (te_result x) /\ exists first tc rest, calls = first ++ tc :: rest /\ lg = call_of u <$> first ++ [tc]
  | Ok (inr l') => lg = call_of u <$> calls /\ l_tools l' = l_tools l /\ exists results, l_messages l' = l_messages l ++ results /\ answers calls results
  end.
Lemma same_count text n l : l_tools (count_observation text (set_failures n l)) = l_tools l /\ l_messages (count_observation text (set_failures n l)) = l_messages l.
Proof. unfold count_observation. by case_bool_decide. Qed.
Lemma resumed_calls_cons u tc rest l l2 text r lg : l_tools l2 = l_tools l -> l_messages l2 = l_messages l ++ [tool_message tc text] ->
  resumed_calls_post u rest l2 r lg -> resumed_calls_post u (tc :: rest) l r (call_of u tc :: lg).
Proof.
  intros Ht Hm. destruct r as [[x|l']|x]; cbn; [| |done].
  - intros (Hx & first & tc' & rest' & -> & ->). split; [done|]. by exists (tc :: first), tc', rest'.
  - intros (-> & -> & results & -> & Ha). split_and!; [done..|]. rewrite Hm, <- app_assoc. eexists. split; [reflexivity|].
    constructor; [by eexists|done].
Qed.

Lemma resume_calls_logs u step calls l : logs (M := M) (T := T) (resumed_calls_post u calls l) (resume_calls u step calls l).
Proof.
  revert l. induction calls as [|tc rest IH]; intros l; cbn [resume_calls].
  { apply logs_ret. split_and!; [done..|]. exists []. rewrite app_nil_r. split; [done|constructor]. }
  cbv zeta. eapply logs_bind; [apply execute_logs| |]; cbv beta; [|by intros x lg [_ [? [=]]]]. intros r lg [-> _].
  destruct (match r with Err e => _ | Ok _ => None end) as [x|].
  - eapply logs_then; [apply calm_checkpoint|]. intros _ _. eapply logs_then; [apply calm_end_with|]. intros y Hy. apply logs_ret.
    split; [rewrite Hy; by intros [=]|]. by exists [], tc, rest.
  - eapply logs_then; [apply calm_append|]. intros _ _. eapply logs_mono; [apply IH|]. intros y lg'.
    apply (resumed_calls_cons u tc rest l _ (capToolObservation (raw_outcome r))); cbn; by rewrite ?(proj1 (same_count _ _ _)), ?(proj2 (same_count _ _ _)).
Qed.

Lemma calm_record agent model source usage : calm_op (M := M) (T := T) (fun _ => True) (RecordTokenUsage agent model source usage).
Proof. unfold RecordTokenUsage. destruct has_token_tracker; [by apply calm_note|by apply calm_ret]. Qed.
Lemma calm_resume_settle u step resp l : calm_op (M := M) (T := T) (fun x => ~ exhausted (te_result x)) (resume_settle u step resp l).
Proof.
  unfold resume_settle. destruct (VerifySemanticConsistency _ _); cbn [negb].
  2:{ eapply logs_mono; [apply calm_end_with|]. cbv beta. intros [x|x] lg [-> Hx]; [|done]. split; [done|]. rewrite Hx. by intros [=]. }
  cbv zeta. eapply calm_bind; [apply calm_finishRun|]. intros run _. eapply calm_bind; [apply calm_publish|]. intros _ _.
  eapply (calm_bind (fun _ => True)); [destruct (_ || _); [by apply calm_ret|by apply calm_note]|]. intros _ _.
  eapply calm_bind; [apply calm_record|]. intros _ _. by apply calm_ret.
Qed.

(** What an iteration with [S n] left does to a run. *)
Definition resume_post (u : Turn) (n : nat) (l : Loop) (r : result err round) (lg : list engine_event) : Prop :=
  match r with
  | Ok (Stop x) => ~ exhausted (te_result x) /\ resume_run u (S n) (l_messages l) (l_tools l) lg
  | Ok (Onward l') => (0 < n)%nat /\ forall l2, resume_run u n (l_messages l') (l_tools l') l2 -> resume_run u (S n) (l_messages l) (l_tools l) (lg ++ l2)
  | _ => False
  end.
Lemma resume_acts u n step resp msgs l0 lg l :
  request_asks u n (l_messages l0) (l_tools l0) msgs lg -> request_tools n (l_tools l0) <> [] ->
  l_messages l = msgs -> l_tools l = l_tools l0 ->
  logs (M := M) (T := T) (fun r l2 => resume_post u n l0 r (lg ++ Wanted (RToolCalls resp) :: l2))
    (x ← resume_calls u step (RToolCalls resp) (set_messages (l_messages l ++ [answer_block resp]) l);
     match x with inl x => mret (Stop x) | inr l => mret (Onward l) end).
Proof.
  intros Hreq Htools Hm Ht. eapply logs_bind; [apply resume_calls_logs| |]; cbv beta; [|done]. intros [x|l'] lg2 Hpost; apply logs_ret; rewrite app_nil_r.
  - destruct Hpost as (Hx & first & tc & rest & -> & ->). split; [done|]. by eapply resume_stopped.
  - destruct Hpost as (-> & Ht' & results & Hm' & Ha). cbn in Ht', Hm'. split.
    + unfold request_tools in Htools. case_bool_decide; [done|lia].
    + intros l2. rewrite Hm', Ht', Hm, Ht, <- !app_assoc, <- app_comm_cons. cbn [app]. by eapply resume_acted.
Qed.
Lemma resume_round_logs u first n l : (n < resumeMaxIterations)%nat ->
  logs (M := M) (T := T) (resume_post u n l) (resume_round u first (resumeMaxIterations - S n) l).
Proof.
  intros Hn. unfold resume_round. cbv zeta.
  assert (bool_decide ((resumeMaxIterations - S n)%nat = (resumeMaxIterations - 1)%nat) = bool_decide (n = 0)%nat) as -> by (apply bool_decide_ext; lia).
  set (l1 := if bool_decide (n = 0)%nat then set_messages (l_messages l ++ [limit_note]) l else l).
  assert (l_messages l1 = (if bool_decide (n = 0)%nat then l_messages l ++ [limit_note] else l_messages l) /\ l_tools l1 = l_tools l) as [Hm1 Ht1]
    by (unfold l1; by case_bool_decide).
  clearbody l1. eapply logs_then; [apply calm_prune|]. intros msgs0 Hmsgs0. rewrite Hm1 in Hmsgs0. fold (request_messages u n (l_messages l)) in Hmsgs0. subst msgs0.
  fold (request_tools n (l_tools l)). eapply logs_bind; [apply ask_fitting_logs| |]; cbv beta; [|done]. intros [msgs answer] lg Hreq.
  fold (request_asks u n (l_messages l) (l_tools l) msgs lg) in Hreq. cbn [fst snd]. destruct answer as [resp|x].
  2:{ eapply logs_then; [apply calm_end_with|]. intros y Hy. apply logs_ret. rewrite app_nil_r. split; [rewrite Hy; by intros [=]|by eapply resume_failed]. }
  eapply logs_bind; [apply wanted_logs| |]; cbv beta; [|by intros x l' [_ [=]]]. intros _ ? [-> _].
  destruct (_ || _) eqn:Hend.
  - eapply logs_then; [apply calm_resume_settle|]. intros y Hy. apply logs_ret. rewrite app_nil_r.
    split; [done|]. eapply resume_answered; [exact Hreq|]. apply orb_true_iff in Hend as [?%bool_decide_eq_true|?%bool_decide_eq_true]; auto.
  - apply orb_false_iff in Hend as [_ Htools%bool_decide_eq_false].
    eapply logs_mono; [by eapply (resume_acts u n _ resp msgs l)|]. cbv beta. intros r l2 Hr. exact Hr.
Qed.
Lemma resume_react_logs u first left l : (0 < left <= resumeMaxIterations)%nat ->
  logs (M := M) (T := T) (fun r lg => match r with
    | Ok (Stop x) => ~ exhausted (te_result x) /\ resume_run u left (l_messages l) (l_tools l) lg
    | _ => False end) (resume_react u first left l).
Proof.
  revert l. induction left as [|n IH]; intros l Hn; [lia|]. cbn [resume_react].
  eapply logs_bind; [apply resume_round_logs; lia| |]; cbv beta; [|done]. intros [x|l'|l'] lg Hr; [|done|].
  - apply logs_ret. by rewrite app_nil_r.
  - destruct Hr as [Hpos Hr]. eapply logs_mono; [apply IH; lia|]. cbv beta. intros [[x|x|x]|x] l2; cbn; [|done..]. intros [? ?]. auto.
Qed.
Lemma resume_loop_logs u first l :
  logs (M := M) (T := T) (fun r lg => match r with
    | Ok x => ~ exhausted (te_result x) /\ resume_run u resumeMaxIterations (l_messages l) (l_tools l) lg
    | Err _ => False end) (resume_loop u first l).
Proof.
  unfold resume_loop. eapply logs_bind; [apply resume_react_logs; unfold resumeMaxIterations; lia| |]; cbv beta; [|done].
  intros [x|l'|l'] lg Hr; [|done..]. apply logs_ret. by rewrite app_nil_r.
Qed.

(** ** The whole turn *)

(** The checkpoint of a waiting run of the trace, for the action approved. *)
Definition approved (s : Engine M T) (approval : ApprovalRequest) (cp : RunCheckpoint) (run : AgentRun) : Prop :=
  (exists row, row ∈ agent_runs (store s) /\ row_run row = run /\ decode_checkpoint (checkpoint_json row) = Some cp) /\
  RunTrace run = Approval.TraceID approval /\ RunStatus run = RunApprovalPending /\
  CpAgent cp = Approval.AgentID approval /\ FnName (TcFunction (CpPending cp)) = Approval.ToolName approval /\
  ActionHash (Approval.AgentID approval) (Approval.ToolName approval) (NormalizeToolInput (FnArguments (TcFunction (CpPending cp)))) = AHash approval.

Lemma LoadCheckpointByTrace_spec trace d e :
  wp (LoadCheckpointByTrace trace) (fun r _ _ => match r with
    | Ok (cp, run) => (exists row, row ∈ agent_runs d /\ row_run row = run /\ decode_checkpoint (checkpoint_json row) = Some cp) /\
        RunTrace run = trace /\ RunStatus run = RunApprovalPending
    | Err _ => True end) d e.
Proof.
  unfold LoadCheckpointByTrace. apply wp_bind, wp_db. intros e'. split; cbv beta iota; [|done]. apply wp_bind, wp_get. cbv beta iota.
  destruct (latest _ _) as [row|] eqn:Hl; [|by apply wp_throw]. apply latest_Some in Hl as [[[Ht Hs] Hrow]%list_elem_of_filter _].
  case_bool_decide; [by apply wp_throw|]. destruct (decode_checkpoint _) as [cp|] eqn:Hdec; [|by apply wp_throw].
  apply wp_ret. split_and!; [|done..]. by exists row.
Qed.
Lemma matching_checkpoint_spec approval s e :
  wp (matching_checkpoint approval) (fun r s' _ => acted s' = acted s /\ agents s' = agents s /\
    match r with Ok (cp, run) => approved s approval cp run | Err _ => True end) s e.
Proof.
  unfold matching_checkpoint. destruct (negb _); [by apply wp_throw|]. apply wp_bind.
  pose proof (LoadCheckpointByTrace_spec (Approval.TraceID approval) (store s) e) as Hl. unfold wp in Hl. unfold wp at 1, on_store.
  destruct (LoadCheckpointByTrace _ _ _) as [r [d e']]. destruct r as [[cp run]|x]; [|by apply wp_throw].
  destruct Hl as (Hrow & Ht & Hst). do 3 (case_bool_decide; cbn [negb]; [|by apply wp_throw]). apply wp_ret. by split_and!.
Qed.

Lemma resume_from_logs c approval cp run a :
  logs (M := M) (T := T) (fun r lg => match r with
    | Ok x => ~ exhausted (te_result x) /\ exists rest, lg = Called (approved_ctx c cp approval) (CpAgent cp) (FnName (TcFunction (CpPending cp))) (Input approval) :: rest /\
        (rest = [] \/ exists observation tools, resume_run (mkTurn (resumed_ctx c cp) (CpConversation cp) (CpAgent cp) (CpGoal cp) (CpSource cp) a)
           resumeMaxIterations (resume_messages cp observation) tools rest)
    | Err _ => False end) (resume_from c approval cp run a).
Proof.
  unfold resume_from. eapply logs_bind; [apply execute_logs| |]; cbv beta; [|by intros x lg [_ [? [=]]]]. intros r ? [-> _].
  destruct r as [res|x].
  - cbv zeta. eapply logs_then; [apply calm_append|]. intros _ _. eapply (logs_then (fun _ => True)); [by apply calm_get|]. intros s _.
    eapply logs_mono; [apply resume_loop_logs|]. cbv beta. intros [x|x] lg; [|done]. intros [Hx Hrun]. split; [done|]. exists lg. split; [done|].
    right. eexists _, _. exact Hrun.
  - eapply logs_then; [apply calm_finishRun|]. intros run' _. apply logs_ret. split; [by intros [=]|]. exists []. auto.
Qed.

(** The requests, and the contexts of the calls. *)
Definition unapproved (ev : engine_event) : Prop := match ev with Called c _ _ _ => ApprovalIDFromContext c = "" | _ => True end.
Lemma asks_unapproved a opts msgs msgs' l : asks a opts msgs msgs' l -> Forall unapproved l.
Proof. intros [[-> _]|[-> _]]; by repeat constructor. Qed.
Lemma calls_unapproved u calls : ApprovalIDFromContext (t_ctx u) = "" -> Forall unapproved (call_of u <$> calls).
Proof. intros Hu. by apply Forall_fmap, Forall_true. Qed.
Lemma asked_calls u calls : asked (call_of u <$> calls) = 0%nat.
Proof. by induction calls. Qed.
Lemma resume_run_acts u n msgs tools l : ApprovalIDFromContext (t_ctx u) = "" -> resume_run u n msgs tools l ->
  (asked l <= 2 * n)%nat /\ Forall unapproved l.
Proof.
  intros Hu. induction 1 as [n msgs tools msgs' l Hreq|n msgs tools msgs' l calls Hreq _|n msgs tools msgs' l first tc rest Hreq _
    |n msgs tools msgs' l resp results l2 Hreq _ _ _ [IH IHu]]; pose proof (asks_unapproved _ _ _ _ _ Hreq); apply asks_acts in Hreq as [Hreq _].
  - split; [lia|done].
  - rewrite asked_app. split; [change (asked [Wanted calls]) with 0%nat; lia|]. apply Forall_app. split; [done|]. by repeat constructor.
  - rewrite asked_app. split; [|apply Forall_app; split; [done|]; constructor; [done|by apply calls_unapproved]].
    change (asked (Wanted (first ++ tc :: rest) :: ?x)) with (asked x). rewrite asked_calls. lia.
  - rewrite asked_app. change (asked (Wanted (RToolCalls resp) :: ?x)) with (asked x). rewrite asked_app, asked_calls. split; [lia|].
    apply Forall_app. split; [done|]. constructor; [done|]. apply Forall_app. split; [by apply calls_unapproved|done].
Qed.

(** C31. Whatever the models answer, the tools do and fails, resuming after an
    approval executes first, and only for the checkpoint of a waiting run of
    that trace with the same agent, tool and action, the tool with the bytes that were approved, under
    the approval; then the turn is a run of the abstract loop on the resumed
    conversation, with at most twenty requests, no other call carries an
    approval, and the loop never runs out of iterations. *)
Theorem resumes_what_was_approved c approval s e :
  let '(r, (s', _)) := ResumeApproved (M := M) (T := T) c approval s e in
  exists lg, acted s' = acted s ++ lg /\ (asked lg <= 20)%nat /\ match r with Ok (_, x) => ~ exhausted (te_result x) | Err _ => lg = [] end /\
    (lg = [] \/ exists cp run a rest, approved s approval cp run /\ agents s !! CpAgent cp = Some a /\
       lg = Called (WithApprovalID (WithTraceID c (CpTrace cp)) (AID approval)) (Approval.AgentID approval) (Approval.ToolName approval) (Input approval) :: rest /\
       Forall unapproved rest /\
       (rest = [] \/ exists observation tools, resume_run (mkTurn (resumed_ctx c cp) (CpConversation cp) (CpAgent cp) (CpGoal cp) (CpSource cp) a)
          resumeMaxIterations (resume_messages cp observation) tools rest)).
Proof.
  assert (wp (ResumeApproved (M := M) (T := T) c approval) (fun r s' _ => exists lg, acted s' = acted s ++ lg /\ match r with
     | Err _ => lg = []
     | Ok (_, x) => ~ exhausted (te_result x) /\ exists cp run a rest, approved s approval cp run /\ agents s !! CpAgent cp = Some a /\
        lg = Called (approved_ctx c cp approval) (CpAgent cp) (FnName (TcFunction (CpPending cp))) (Input approval) :: rest /\
        (rest = [] \/ exists observation tools, resume_run (mkTurn (resumed_ctx c cp) (CpConversation cp) (CpAgent cp) (CpGoal cp) (CpSource cp) a)
           resumeMaxIterations (resume_messages cp observation) tools rest) end) s e) as Hw.
  { unfold ResumeApproved. apply wp_bind. eapply wp_mono; [apply matching_checkpoint_spec|]. cbv beta.
    intros [[cp run]|x] s1 e1 (Hacted & Hagents & Hok); [|exists []; by rewrite app_nil_r]. apply wp_bind, wp_get. cbv beta iota.
    rewrite Hagents. destruct (agents s !! CpAgent cp) as [a|] eqn:Ha; [|apply wp_throw; exists []; by rewrite app_nil_r].
    apply wp_bind. eapply wp_mono; [apply resume_from_logs|]. cbv beta. intros [x|x] s2 e2 (lg & Hl & Hx); [|done]. apply wp_ret.
    rewrite Hacted in Hl. exists lg. split; [done|]. destruct Hx as [Hx (rest & Hlg & Hrest)]. split; [done|]. eauto 10. }
  unfold wp in Hw. destruct (ResumeApproved _ _ _ _) as [r [s' e']]. destruct Hw as (lg & Hl & Hr). exists lg. split; [done|].
  destruct r as [[cp0 x]|x]; [|rewrite Hr; split_and!; [cbn; lia|done|by left]].
  destruct Hr as (Hx & cp & run & a & rest & Hok & Ha & -> & Hrest).
  assert ((asked rest <= 20)%nat /\ Forall unapproved rest) as [Hasked Hun].
  { destruct Hrest as [->|(observation & tools & Hrun)]; [split; [cbn; lia|constructor]|]. by apply resume_run_acts in Hrun. }
  split; [exact Hasked|]. split; [done|]. right. exists cp, run, a, rest. pose proof Hok as (_ & _ & _ & <- & <- & _). by split_and!.
Qed.
End spec.

(** ** Witnesses *)

#[local] Existing Instances plain_platform plain_json ascii_tables script_mind demo_hands demo_wiring demo_prose demo_calls_json demo_codec.
Lemma resumed_conversation_witness :
  NoDup (TcID <$> RToolCalls wants_both) /\
  exists results, resume_messages paused "sent" =
    [with_role RoleSystem "You are agt"; with_role RoleUser "Send it"] ++ assistant_block "" wants_both results /\
    answers (RToolCalls wants_both) results /\
    results = [] ++ tool_message mail_call "sent" :: ((fun tc => tool_message tc deferred_note) <$> [search_call]).
Proof.
  assert (NoDup (TcID <$> RToolCalls wants_both)) as Hnd by (apply (bool_decide_unpack _); vm_compute; done). split; [exact Hnd|].
  apply (resumed_conversation _ "" wants_both [] mail_call [search_call] [] paused "sent");
    [done|exact Hnd|apply (bool_decide_unpack _); vm_compute; done|constructor|done|done].
Defined.
Lemma turn_settles_its_run_witness :
  let s := demo_engine [wants_both; says_done] in
  let '(r, (s', _)) := ExecuteStepWithHistory Background "conv" "agt" "Send it" [] s (calm 0) in
  outline s' = [("approval_pending", "paused")] /\
  (untouched s s' /\ early r \/ ended [] [] Background "conv" "agt" "Send it" r s').
Proof.
  pose proof (turn_settles_its_run Background "conv" "agt" "Send it" [] (demo_engine [wants_both; says_done]) (calm 0) eq_refl eq_refl) as Ht.
  cbv zeta. destruct (ExecuteStepWithHistory _ _ _ _ _ _ _) as [r [s' e']] eqn:Hrun. split; [|exact Ht].
  assert (s' = (ExecuteStepWithHistory Background "conv" "agt" "Send it" [] (demo_engine [wants_both; says_done]) (calm 0)).2.1) as -> by by rewrite Hrun.
  vm_compute. reflexivity.
Defined.

(** A plain answer in two pieces is on the screen as it came. *)
Definition demo_piece (c : string) (last : bool) : StreamChunk := mkChunk c "" [] None last None [].
Definition demo_pieces : list StreamChunk := [demo_piece "Xin ch" false; demo_piece "ao, it is done." true].
Lemma demo_letters_stay : letters_stay.
Proof. intros r Hr. unfold marks, uni_lower, ascii_tables, id. rewrite !(proj2 (Z.eqb_neq _ _)) by lia. reflexivity. Qed.
Lemma stream_shows_the_answer_witness :
  letters_stay /\
  let '(x, (s', _)) := deliver "m" demo_pieces (demo_engine []) (calm 0) in
  exists r evs, x = Ok (Ok r) /\ stream s' = evs /\ RContent r = "Xin chao, it is done." /\ shown evs = RContent r.
Proof.
  split; [exact demo_letters_stay|].
  pose proof (stream_shows_the_answer "m" demo_pieces (demo_engine []) (calm 0) demo_letters_stay) as Ht.
  destruct (deliver "m" demo_pieces (demo_engine []) (calm 0)) as [x [s' e']] eqn:Hrun.
  assert (Hx : exists r, x = Ok (Ok r) /\ RContent r = "Xin chao, it is done." /\ RToolCalls r = []).
  { assert (x = (deliver "m" demo_pieces (demo_engine []) (calm 0)).1) as -> by by rewrite Hrun. eexists. vm_compute. by split_and!. }
  destruct Hx as (r & -> & Hr & Hc). destruct Ht as (evs & Hs & Ht). rewrite decide_True in Ht by exact Hc.
  exists r, evs. split; [reflexivity|]. split; [exact Hs|]. split; [exact Hr|]. apply (proj2 Ht). right. right. vm_compute. reflexivity.
Defined.
(** What looks like a tag of thinking is lost, though no thinking is there and
    the text of the answer keeps it. *)
Example quoted_tag_is_lost :
  let '(x, (s', _)) := deliver "m" [demo_piece "Use </think> to close." true] (demo_engine []) (calm 0) in
  match x with Ok (Ok r) => (RContent r, shown (stream s')) | _ => ("", "") end = ("Use </think> to close.", "Use  to close.").
Proof. vm_compute. reflexivity. Qed.
