(* ===== verification/ProseSpec.v ===== *)
(** * What conversations and calls in prose promise

    [contract]: what a provider accepts, as a grammar of turns.  The theorems
    show that [SanitizeMessages] always produces it, what it keeps of the
    conversation, and that it leaves an acceptable one alone.

    Prose without markup stays as it is; a call in the format of tokens is
    read back with its arguments and leaves no trace; reasoning between tags
    moves; bare objects that are taken for calls are disjoint parts of the
    text that decode.  The examples show what the expressions take for a call
    that is none. *)

From stdpp Require Import gmap strings.
From S2P Require Import Prelude GoStrings Regex Io Tables Risk Approval Registry GoText RegexFind Transcript ProseCalls Cascade AgentRuns AgentContext AgentEngine AgentStep AgentRunSpec.

(** ** The grammar

    [answers ids calls] relates the ids of the results that follow an
    assistant message to the ids of its calls. *)

Definition same_ids (results calls : list string) : Prop := forall id, id ∈ results <-> id ∈ calls.

Inductive contract (answers : list string -> list string -> Prop) : list Message -> Prop :=
  | contract_end : contract answers []
  | contract_other m l :
      Role m <> RoleAssistant -> Role m <> RoleTool -> contract answers l -> contract answers (m :: l)
  | contract_plain m l :
      Role m = RoleAssistant -> ToolCalls m = [] -> Content m <> "" -> contract answers l -> contract answers (m :: l)
  | contract_calls m results l :
      Role m = RoleAssistant -> ToolCalls m <> [] -> Forall (fun tc => TcID tc <> "") (ToolCalls m) ->
      Forall (fun r => Role r = RoleTool) results -> results <> [] ->
      answers (ToolCallID <$> results) (TcID <$> ToolCalls m) ->
      contract answers l -> contract answers (m :: results ++ l).

(** The calls of every assistant message have different ids (empty ones
    apart). *)
Definition distinct_calls (l : list Message) : Prop :=
  Forall (fun m => Role m = RoleAssistant -> NoDup (TcID <$> validCalls m)) l.

(** The conversation without its tool results, and what may become of one of
    its messages: an assistant message keeps its calls with an id, or loses
    all of them and keeps its text; any other message is kept as it is. *)
Definition turns (l : list Message) : list Message := filter (fun m => Role m <> RoleTool) l.

Definition turn_of (m m' : Message) : Prop :=
  (Role m <> RoleAssistant /\ m' = m) \/
  (Role m = RoleAssistant /\ validCalls m <> [] /\ m' = with_calls m (validCalls m)) \/
  (Role m = RoleAssistant /\ Role m' = RoleAssistant /\ ToolCalls m' = [] /\
   Content m' = content_or (if bool_decide (ToolCalls m = []) then "[Acknowledged]" else "[Completed tool actions]") (Content m)).

(** An acceptable conversation whose plain turns carry nothing else. *)
Definition settled (l : list Message) : Prop :=
  contract Permutation l /\
  Forall (fun m => Role m = RoleAssistant -> ToolCalls m = [] ->
    trim_space (Content m) = Content m /\ ToolCallID m = "" /\ Name m = "") l.

(** ** The look-ahead *)

Lemma sanitize_skip n l : sanitize_from n l = sanitize_from 0 (drop n l).
Proof. revert n. induction l as [|m l IH]; intros [|n]; [done..|]. cbn [drop]. rewrite <- IH. done. Qed.

Lemma sanitize_tools l : sanitize_from (leading_tools l) l = sanitize_from 0 l.
Proof.
  induction l as [|m l IH]; [done|]. cbn [leading_tools]. case_bool_decide as Hm; [|done].
  cbn [sanitize_from]. rewrite IH, Hm. done.
Qed.

Lemma collect_skips E l : (collect E l).1.2 = leading_tools l.
Proof.
  revert E. induction l as [|m l IH]; intros E; [done|]. cbn [collect leading_tools].
  case_bool_decide; [|done]. specialize (IH (if bool_decide (ToolCallID m ∈ E) then E ∖ {[ToolCallID m]} else E)).
  destruct (collect _ l) as [[out n] rest]. cbn in *. by rewrite IH.
Qed.

(** What is collected answers each expected id at most once; what is still
    expected afterwards is the rest of the ids. *)
Lemma collect_spec E l out n rest :
  collect E l = (out, n, rest) ->
  Forall (fun r => Role r = RoleTool /\ r ∈ l) out /\ NoDup (ToolCallID <$> out) /\
  (forall id, id ∈ ToolCallID <$> out <-> id ∈ E /\ id ∉ rest) /\ rest ⊆ E.
Proof.
  revert E out n rest. induction l as [|m l IH]; intros E out n rest; cbn [collect].
  { intros [= <- <- <-]. split_and!; [constructor|constructor|set_solver|done]. }
  case_bool_decide as Hm; [|intros [= <- <- <-]; split_and!; [constructor|constructor|set_solver|done]].
  destruct (collect _ l) as [[out' n'] rest'] eqn:Hc. apply IH in Hc as (Hf & Hnd & Hids & Hsub).
  intros [= <- <- <-].
  assert (Hf' : Forall (fun r => Role r = RoleTool /\ r ∈ m :: l) out').
  { eapply Forall_impl; [exact Hf|]. intros r [? ?]. split; [done|]. by apply list_elem_of_further. }
  case_bool_decide as Hin; cbn [fmap list_fmap].
  - split; [constructor; [split; [done|apply list_elem_of_here]|done]|].
    split; [constructor; [rewrite Hids; set_solver|done]|]. split; [|set_solver].
    intros id. rewrite elem_of_cons, Hids. destruct (decide (id = ToolCallID m)) as [->|]; set_solver.
  - done.
Qed.

(** Results that answer the expected calls, each once, are all collected. *)
Lemma collect_all E results l :
  Forall (fun r => Role r = RoleTool) results -> NoDup (ToolCallID <$> results) ->
  (forall id, id ∈ ToolCallID <$> results -> id ∈ E) -> leading_tools l = 0%nat ->
  exists (n : nat) (rest : gset string), collect E (results ++ l) = (results, n, rest) /\
    (forall id, id ∈ rest <-> id ∈ E /\ id ∉ ToolCallID <$> results).
Proof.
  revert E. induction results as [|r results IH]; intros E Hr Hnd HE Hl; cbn [app].
  - exists 0%nat, E. split; [|set_solver]. destruct l as [|m l]; [done|]. cbn [leading_tools collect] in *. by case_bool_decide.
  - apply Forall_cons in Hr as [Hr Hrs]. cbn [fmap list_fmap] in *. apply NoDup_cons in Hnd as [Hn Hnd].
    cbn [collect]. rewrite (bool_decide_eq_true_2 _ Hr). rewrite bool_decide_eq_true_2 by (apply HE; set_solver).
    destruct (IH (E ∖ {[ToolCallID r]}) Hrs Hnd) as (n & rest & -> & Hrest); [set_solver|done|].
    exists (S n), rest. split; [done|]. intros id. rewrite Hrest. set_solver.
Qed.

(** ** One assistant message *)

Lemma assistant_turn_skips m rest : Role m = RoleAssistant ->
  sanitize_from (assistant_turn m rest).2 rest = sanitize_from 0 rest.
Proof.
  intros Hm. unfold assistant_turn. destruct (ToolCalls m); [done|]. destruct (validCalls m) as [|v vs]; [apply sanitize_tools|].
  assert (H := collect_skips (list_to_set (TcID <$> v :: vs)) rest).
  destruct (collect _ rest) as [[out n] E]. cbn in H. destruct out; cbn [snd]; rewrite H; apply sanitize_tools.
Qed.

Lemma sanitize_assistant m rest : Role m = RoleAssistant ->
  sanitize_from 0 (m :: rest) = (assistant_turn m rest).1 ++ sanitize_from 0 rest.
Proof.
  intros Hm. cbn [sanitize_from]. rewrite (bool_decide_eq_true_2 _ Hm). rewrite <- (assistant_turn_skips m rest Hm).
  by destruct (assistant_turn m rest).
Qed.

Lemma SanitizeMessages_from l : SanitizeMessages l = sanitize_from 0 l.
Proof. by destruct l. Qed.

Lemma content_or_nonempty f c : f <> "" -> content_or f c <> "".
Proof. intros Hf. unfold content_or. by case_bool_decide. Qed.

(** What an assistant message becomes: a plain turn, or the message with its
    calls and their results. *)
Inductive turn_result (m : Message) (rest : list Message) : list Message -> Prop :=
  | turn_plain p :
      Role p = RoleAssistant -> ToolCalls p = [] -> ToolCallID p = "" -> Name p = "" ->
      Content p = content_or (if bool_decide (ToolCalls m = []) then "[Acknowledged]" else "[Completed tool actions]") (Content m) ->
      turn_result m rest [p]
  | turn_calls (real : list Message) (left : gset string) :
      validCalls m <> [] -> real <> [] ->
      Forall (fun r => Role r = RoleTool /\ r ∈ rest) real -> NoDup (ToolCallID <$> real) ->
      (forall id, id ∈ ToolCallID <$> real <-> id ∈ TcID <$> validCalls m /\ id ∉ left) ->
      turn_result m rest (with_calls m (validCalls m) :: real ++
        (synthetic <$> filter (fun tc => TcID tc ∈ left) (validCalls m))).

Lemma assistant_turn_result m rest : turn_result m rest (assistant_turn m rest).1.
Proof.
  unfold assistant_turn. destruct (ToolCalls m) as [|tc tcs] eqn:Htc; cbn [fst].
  { apply turn_plain; try done. by rewrite Htc. }
  assert (Hf : ToolCalls m <> []) by (by rewrite Htc).
  destruct (validCalls m) as [|v vs] eqn:Hv; [by apply turn_plain; rewrite ?bool_decide_eq_false_2|].
  destruct (collect _ rest) as [[out n] left] eqn:Hc. apply collect_spec in Hc as (Hin & Hnd & Hids & _).
  destruct out as [|r out]; [by apply turn_plain; rewrite ?bool_decide_eq_false_2|]. cbn [fst].
  rewrite <- Hv in *. apply turn_calls; [by rewrite Hv|done..|]. intros id. rewrite Hids, elem_of_list_to_set. done.
Qed.

Lemma ids_of_synthetic (l : list ToolCall) : ToolCallID <$> (synthetic <$> l) = TcID <$> l.
Proof. rewrite <- list_fmap_compose. done. Qed.

Lemma ids_filter (left : gset string) (l : list ToolCall) id :
  id ∈ TcID <$> filter (fun tc => TcID tc ∈ left) l <-> id ∈ TcID <$> l /\ id ∈ left.
Proof.
  rewrite !list_elem_of_fmap. setoid_rewrite list_elem_of_filter. naive_solver.
Qed.

(** The ids of the results of a turn are those of its calls; with different
    ids each call has exactly one result. *)
Lemma turn_answers (left : gset string) (real : list Message) (valid : list ToolCall) :
  NoDup (ToolCallID <$> real) -> (forall id, id ∈ ToolCallID <$> real <-> id ∈ TcID <$> valid /\ id ∉ left) ->
  let results := real ++ (synthetic <$> filter (fun tc => TcID tc ∈ left) valid) in
  same_ids (ToolCallID <$> results) (TcID <$> valid) /\
  (NoDup (TcID <$> valid) -> (ToolCallID <$> results) ≡ₚ (TcID <$> valid)).
Proof.
  intros Hnd Hids results.
  assert (Hsame : same_ids (ToolCallID <$> results) (TcID <$> valid)).
  { intros id. unfold results. rewrite fmap_app, elem_of_app, ids_of_synthetic, ids_filter, Hids.
    destruct (decide (id ∈ left)); tauto. }
  split; [done|]. intros Hv. apply NoDup_Permutation; [|done|exact Hsame].
  unfold results. rewrite fmap_app, ids_of_synthetic. apply NoDup_app. split; [done|]. split.
  - intros id Hid Hs. rewrite Hids in Hid. rewrite ids_filter in Hs. tauto.
  - refine (sublist_NoDup _ _ Hv _). apply fmap_sublist, sublist_filter.
Qed.

Lemma valid_nonempty m : Forall (fun tc => TcID tc <> "") (validCalls m).
Proof. apply Forall_forall. intros tc. unfold validCalls. rewrite list_elem_of_filter. tauto. Qed.

Lemma turn_contract (answers : list string -> list string -> Prop) m rest out l :
  Role m = RoleAssistant -> turn_result m rest out ->
  (forall results, same_ids results (TcID <$> validCalls m) ->
     (NoDup (TcID <$> validCalls m) -> results ≡ₚ (TcID <$> validCalls m)) -> answers results (TcID <$> validCalls m)) ->
  contract answers l -> contract answers (out ++ l).
Proof.
  intros Hm Hres Hans Hl. destruct Hres as [p Hp Hc Hi Hn Ht|real left Hv Hr Hf Hnd Hids]; cbn [app].
  - apply contract_plain; [done..| |done]. rewrite Ht. apply content_or_nonempty. by case_bool_decide.
  - destruct (turn_answers left real (validCalls m) Hnd Hids) as [Hs Hp].
    apply contract_calls; [done..| | | | |done]; cbn [ToolCalls with_calls].
    + apply valid_nonempty.
    + apply Forall_app. split; [eapply Forall_impl; [exact Hf|by intros ? []]|]. apply Forall_fmap, Forall_forall. done.
    + by destruct real.
    + by apply Hans.
Qed.

Lemma sanitize_contract (answers : list string -> list string -> Prop) l :
  Forall (fun m => Role m = RoleAssistant -> forall results, same_ids results (TcID <$> validCalls m) ->
     (NoDup (TcID <$> validCalls m) -> results ≡ₚ (TcID <$> validCalls m)) -> answers results (TcID <$> validCalls m)) l ->
  contract answers (sanitize_from 0 l).
Proof.
  induction 1 as [|m l Hm _ IH]; [constructor|].
  destruct (decide (Role m = RoleAssistant)) as [Ha|Ha].
  - rewrite (sanitize_assistant m l Ha). eapply turn_contract; [exact Ha|apply assistant_turn_result|auto|exact IH].
  - cbn [sanitize_from]. rewrite (bool_decide_eq_false_2 _ Ha). case_bool_decide as Ht; [done|]. by constructor.
Qed.

Lemma turns_app l k : turns (l ++ k) = turns l ++ turns k.
Proof. apply filter_app. Qed.

Lemma turns_tools l : Forall (fun r => Role r = RoleTool) l -> turns l = [].
Proof. intros Hl. apply filter_none. intros x Hx Hn. rewrite Forall_forall in Hl. by apply Hn, Hl. Qed.

Lemma turn_result_turn m rest out : Role m = RoleAssistant -> turn_result m rest out ->
  exists m', turns out = [m'] /\ turn_of m m'.
Proof.
  intros Hm [p Hp Hc Hi Hn Ht|real left Hv Hr Hf Hnd Hids].
  - exists p. split; [|right; right; by repeat split].
    unfold turns. rewrite filter_cons_True by (by rewrite Hp). done.
  - exists (with_calls m (validCalls m)). split; [|right; left; by repeat split].
    unfold turns. rewrite filter_cons_True by (cbn; by rewrite Hm). f_equal. apply turns_tools, Forall_app.
    split; [eapply Forall_impl; [exact Hf|by intros ? []]|]. apply Forall_fmap, Forall_forall. done.
Qed.

Lemma sanitize_turns l : Forall2 turn_of (turns l) (turns (sanitize_from 0 l)).
Proof.
  induction l as [|m l IH]; [constructor|].
  destruct (decide (Role m = RoleAssistant)) as [Ha|Ha].
  - rewrite (sanitize_assistant m l Ha), turns_app.
    destruct (turn_result_turn m l _ Ha (assistant_turn_result m l)) as (m' & -> & Hm').
    unfold turns at 1. rewrite filter_cons_True by (by rewrite Ha). by constructor.
  - cbn [sanitize_from]. rewrite (bool_decide_eq_false_2 _ Ha). unfold turns at 1. case_bool_decide as Ht.
    + rewrite filter_cons_False by tauto. done.
    + unfold turns. rewrite !filter_cons_True by done. constructor; [|done]. by left.
Qed.

Lemma sanitize_results l r : r ∈ sanitize_from 0 l -> Role r = RoleTool ->
  r ∈ l \/ exists m tc, m ∈ l /\ tc ∈ ToolCalls m /\ r = synthetic tc.
Proof.
  induction l as [|m l IH]; [by intros ?%not_elem_of_nil|].
  assert (Hl : (r ∈ l \/ exists m tc, m ∈ l /\ tc ∈ ToolCalls m /\ r = synthetic tc) ->
    r ∈ m :: l \/ exists m' tc, m' ∈ m :: l /\ tc ∈ ToolCalls m' /\ r = synthetic tc).
  { intros [?|(m' & tc & ? & ?)]; [left; by apply list_elem_of_further|right; exists m', tc; split; [by apply list_elem_of_further|done]]. }
  destruct (decide (Role m = RoleAssistant)) as [Ha|Ha].
  - rewrite (sanitize_assistant m l Ha). intros [Hr|Hr]%elem_of_app Ht; [|by auto].
    destruct (assistant_turn_result m l) as [p Hp|real left Hv Hne Hf Hnd Hids].
    { apply list_elem_of_singleton in Hr as ->. by rewrite Hp in Ht. }
    apply elem_of_cons in Hr as [->|[Hr|Hr]%elem_of_app]; [cbn in Ht; by rewrite Ha in Ht|rewrite Forall_forall in Hf; apply Hl; left; by apply Hf|].
    apply list_elem_of_fmap in Hr as (tc & -> & [_ Htc]%list_elem_of_filter). unfold validCalls in Htc. apply list_elem_of_filter in Htc as [_ Htc].
    right. exists m, tc. split; [apply list_elem_of_here|done].
  - cbn [sanitize_from]. rewrite (bool_decide_eq_false_2 _ Ha). case_bool_decide; [by auto|].
    intros [->|Hr]%elem_of_cons Ht; [by left; apply list_elem_of_here|by auto].
Qed.

(** ** The transcript that is sent, by turns

    A turn is a message that is no result with the results that follow it at
    once; results before the first turn belong to none. *)
Fixpoint take_tools (l : list Message) : list Message :=
  match l with m :: l' => if bool_decide (Role m = RoleTool) then m :: take_tools l' else [] | [] => [] end.
Fixpoint blocks (l : list Message) : list (Message * list Message) :=
  match l with
  | m :: l' => if bool_decide (Role m = RoleTool) then blocks l' else (m, take_tools l') :: blocks l'
  | [] => []
  end.

(** The first result of each id, apart from the ids seen before. *)
Fixpoint firsts (seen : list string) (rs : list Message) : list Message :=
  match rs with
  | r :: rs' => if bool_decide (ToolCallID r ∈ seen) then firsts seen rs' else r :: firsts (ToolCallID r :: seen) rs'
  | [] => []
  end.
Definition answers_of (m : Message) (rs : list Message) : list Message :=
  filter (fun r => ToolCallID r ∈ (TcID <$> validCalls m)) (firsts [] rs).

(** What a turn becomes.  A message of the assistant keeps its calls, those
    with an id, when a result answers one of them: then come the first results
    of its calls as they stand, and a placeholder for each call without one.
    Otherwise it is left with its text. *)
Definition sent_turn (b : Message * list Message) : list Message :=
  let '(m, rs) := b in
  if bool_decide (Role m = RoleAssistant) then
    match ToolCalls m, validCalls m, answers_of m rs with
    | [], _, _ => [plain_turn "[Acknowledged]" m]
    | _, [], _ => [mkMessage RoleAssistant (content_or "[Completed tool actions]" (Content m)) "" [] "" "" []]
    | _, _, [] => [plain_turn "[Completed tool actions]" m]
    | _, valid, real => with_calls m valid :: (real ++ (synthetic <$> filter (fun tc => TcID tc ∉ (ToolCallID <$> rs)) valid))
    end
  else [m].

Lemma collect_firsts (E0 : list string) (E : gset string) seen l :
  (forall id, id ∈ E <-> id ∈ E0 /\ id ∉ seen) ->
  (collect E l).1.1 = filter (fun r => ToolCallID r ∈ E0) (firsts seen (take_tools l)) /\
  (forall id, id ∈ (collect E l).2 <-> id ∈ E0 /\ id ∉ seen /\ id ∉ (ToolCallID <$> take_tools l)).
Proof.
  revert E seen. induction l as [|m l IH]; intros E seen HE; cbn [collect take_tools].
  { split; [done|]. intros id. cbn. rewrite HE. set_solver. }
  destruct (bool_decide (Role m = RoleTool)).
  2:{ split; [done|]. intros id. cbn. rewrite HE. set_solver. }
  set (E' := if bool_decide (ToolCallID m ∈ E) then _ else E). cbn [firsts fmap list_fmap].
  destruct (decide (ToolCallID m ∈ seen)) as [Hseen|Hseen].
  - rewrite (bool_decide_eq_true_2 _ Hseen).
    assert (Hn : ToolCallID m ∉ E) by (rewrite HE; tauto). subst E'. rewrite (bool_decide_eq_false_2 _ Hn).
    destruct (IH E seen HE) as [IH1 IH2]. destruct (collect E l) as [[out n] rest]. cbn in *. split; [done|].
    intros id. rewrite IH2. set_solver.
  - rewrite (bool_decide_eq_false_2 _ Hseen).
    assert (HE' : forall id, id ∈ E' <-> id ∈ E0 /\ id ∉ ToolCallID m :: seen).
    { intros id. subst E'. case_bool_decide as Hm; rewrite ?elem_of_difference, HE; [set_solver|].
      rewrite not_elem_of_cons. split; [|tauto]. intros [Hi Hs]. split_and!; [done| |done]. intros ->. by rewrite HE in Hm; destruct Hm. }
    destruct (IH E' _ HE') as [IH1 IH2]. destruct (collect E' l) as [[out n] rest]. cbn [fst snd] in *. split.
    + case_bool_decide as Hm; rewrite HE in Hm.
      * rewrite filter_cons_True by tauto. by rewrite IH1.
      * rewrite filter_cons_False by tauto. done.
    + intros id. rewrite IH2. set_solver.
Qed.

Lemma filter_agree {A} (P Q : A -> Prop) `{!forall x, Decision (P x), !forall x, Decision (Q x)} (l : list A) :
  (forall x, x ∈ l -> (P x <-> Q x)) -> filter P l = filter Q l.
Proof.
  induction l as [|x l IH]; intros Hl; [done|].
  assert (Hx : P x <-> Q x) by (apply Hl, list_elem_of_here).
  assert (IH' : filter P l = filter Q l) by (apply IH; intros y Hy; by apply Hl, list_elem_of_further).
  destruct (decide (P x)) as [Hp|Hp].
  - rewrite !filter_cons_True by tauto. by rewrite IH'.
  - rewrite !filter_cons_False by tauto. done.
Qed.

Lemma sanitize_turn_by_turn l : sanitize_from 0 l = (blocks l ≫= sent_turn).
Proof.
  induction l as [|m l IH]; [done|]. cbn [blocks].
  destruct (decide (Role m = RoleAssistant)) as [Ha|Ha].
  - rewrite (sanitize_assistant m l Ha), IH. rewrite bool_decide_eq_false_2 by (by rewrite Ha).
    cbn [mbind list_bind]. f_equal. unfold sent_turn. rewrite (bool_decide_eq_true_2 _ Ha). unfold assistant_turn.
    destruct (ToolCalls m); [done|].
    destruct (collect_firsts (TcID <$> validCalls m) (list_to_set (TcID <$> validCalls m)) [] l) as [H1 H2]; [set_solver|].
    fold (answers_of m (take_tools l)) in H1.
    destruct (validCalls m) as [|v vs] eqn:Hv; [done|]. rewrite <- H1.
    destruct (collect _ l) as [[out n] rest]. cbn [fst snd] in *. destruct out as [|r out]; [done|]. cbn [fst].
    do 2 f_equal. cbn [app]. f_equal. f_equal. apply filter_agree. intros tc Htc. rewrite H2. set_solver.
  - cbn [sanitize_from]. rewrite (bool_decide_eq_false_2 _ Ha). case_bool_decide as Ht; [done|].
    cbn [mbind list_bind]. unfold sent_turn at 1. rewrite (bool_decide_eq_false_2 _ Ha). by rewrite IH.
Qed.

(** C16. Whatever the conversation, what is sent is made turn by turn, as
    [sent_turn] says: messages that are neither the assistant's nor results
    stay as they are; a message of the assistant keeps its calls that have an
    id exactly when one of them is answered by a result that follows at once,
    and is followed by the first result of each of its calls, unchanged, and a
    placeholder for each call without one; otherwise only its text is left.
    So the providers' contract holds: an assistant message with calls is
    followed by results for its calls only, each call answered, and results
    stand nowhere else; no plain turn is empty; where the ids of a message's
    calls differ, each call has exactly one result. *)
Theorem sanitized_transcript l :
  SanitizeMessages l = (blocks l ≫= sent_turn) /\
  contract same_ids (SanitizeMessages l) /\
  (distinct_calls l -> contract Permutation (SanitizeMessages l)) /\
  Forall2 turn_of (turns l) (turns (SanitizeMessages l)) /\
  (forall r, r ∈ SanitizeMessages l -> Role r = RoleTool ->
     r ∈ l \/ exists m tc, m ∈ l /\ tc ∈ ToolCalls m /\ r = synthetic tc).
Proof.
  rewrite SanitizeMessages_from. split_and!.
  - apply sanitize_turn_by_turn.
  - apply sanitize_contract, Forall_forall. auto.
  - intros Hd. apply sanitize_contract. eapply Forall_impl; [exact Hd|]. auto.
  - apply sanitize_turns.
  - apply sanitize_results.
Qed.

(** ** Acceptable conversations are left alone *)

Lemma with_calls_id m : with_calls m (ToolCalls m) = m.
Proof. by destruct m. Qed.

Lemma validCalls_all m : Forall (fun tc => TcID tc <> "") (ToolCalls m) -> validCalls m = ToolCalls m.
Proof. intros H. unfold validCalls. by induction H as [|tc l Htc _ IH]; [|rewrite filter_cons_True, IH]. Qed.

Lemma contract_no_tools answers l : contract answers l -> leading_tools l = 0%nat.
Proof. destruct 1 as [|m l Ha Ht _|m l Ha _ _ _|m rs l Ha _ _ _ _ _ _]; cbn [leading_tools app]; [done|..]; rewrite bool_decide_eq_false_2; try done; by rewrite Ha. Qed.

Lemma settled_fixed l : distinct_calls l -> settled l -> sanitize_from 0 l = l.
Proof.
  intros Hd [Hc Ht]. induction Hc as [|m l Ha Hr _ IH|m l Ha Htc Hn _ IH|m rs l Ha Htc Hids Hrs Hne Hans Hl IH].
  - done.
  - apply Forall_cons in Hd as [_ Hd]. apply Forall_cons in Ht as [_ Ht]. cbn [sanitize_from].
    rewrite (bool_decide_eq_false_2 _ Ha), (bool_decide_eq_false_2 _ Hr). by rewrite IH.
  - apply Forall_cons in Hd as [_ Hd]. apply Forall_cons in Ht as [Hm Ht]. destruct (Hm Ha Htc) as (Htrim & Hi & Hna).
    rewrite (sanitize_assistant m l Ha), IH by done. unfold assistant_turn. rewrite Htc. cbn [fst app]. f_equal.
    unfold plain_turn, content_or. rewrite Htrim, bool_decide_eq_false_2 by done. destruct m; cbn in *; congruence.
  - apply Forall_cons in Hd as [Hdm Hd]. apply Forall_app in Hd as [_ Hd].
    apply Forall_cons in Ht as [_ Ht]. apply Forall_app in Ht as [_ Ht].
    rewrite (sanitize_assistant m (rs ++ l) Ha).
    assert (Hskip : sanitize_from 0 (rs ++ l) = sanitize_from 0 l).
    { clear - Hrs. induction Hrs as [|r rs Hr _ IH]; [done|]. cbn [app sanitize_from].
      rewrite (bool_decide_eq_true_2 _ Hr), bool_decide_eq_false_2 by (by rewrite Hr). done. }
    rewrite Hskip, IH by done. change (m :: rs ++ l) with ((m :: rs) ++ l). f_equal.
    unfold assistant_turn. specialize (Hdm Ha). rewrite (validCalls_all m Hids) in *.
    destruct (collect_all (list_to_set (TcID <$> ToolCalls m)) rs l Hrs) as (n & left & Hcol & Hleft).
    { by rewrite Hans. }
    { intros id. rewrite Hans, elem_of_list_to_set. done. }
    { by eapply contract_no_tools. }
    destruct (ToolCalls m) as [|tc tcs] eqn:Etc; [done|]. rewrite Hcol. destruct rs as [|r rs]; [done|]. cbn [fst].
    rewrite <- Etc, with_calls_id. f_equal. rewrite filter_none; [by rewrite app_nil_r|].
    intros c Hc Hin. rewrite Hleft, elem_of_list_to_set, <- Etc in Hin. destruct Hin as [Hin Hno]. apply Hno. rewrite Hans, <- Etc. done.
Qed.

(** What holds of every turn an assistant message can become, and of the
    other messages, holds of every message sent. *)
Lemma sanitize_forall (P : Message -> Prop) l :
  Forall (fun m => (Role m <> RoleAssistant -> P m) /\
    (Role m = RoleAssistant -> forall rest out, turn_result m rest out -> Forall P out)) l ->
  Forall P (sanitize_from 0 l).
Proof.
  induction 1 as [|m l [Ho Ht] _ IH]; [constructor|].
  destruct (decide (Role m = RoleAssistant)) as [Ha|Ha].
  - rewrite (sanitize_assistant m l Ha). apply Forall_app. split; [|done]. eapply Ht; [done|apply assistant_turn_result].
  - cbn [sanitize_from]. rewrite (bool_decide_eq_false_2 _ Ha). case_bool_decide; [done|]. by constructor; [apply Ho|].
Qed.

(** A turn's messages: the assistant message, then results. *)
Lemma turn_result_forall (P : Message -> Prop) m rest out : turn_result m rest out ->
  (forall p, ToolCalls p = [] -> ToolCallID p = "" -> Name p = "" ->
     (exists f, f <> "" /\ trim_space f = f /\ Content p = content_or f (Content m)) -> P p) ->
  P (with_calls m (validCalls m)) \/ validCalls m = [] -> (forall r, Role r = RoleTool -> P r) -> Forall P out.
Proof.
  intros [p Hp Hc Hi Hn Ht|real left Hv Hr Hf Hnd Hids] Hplain Hcalls Htool.
  - apply Forall_singleton, Hplain; try done.
    exists (if bool_decide (ToolCalls m = []) then "[Acknowledged]" else "[Completed tool actions]"). by case_bool_decide.
  - constructor; [tauto|]. apply Forall_app. split; [eapply Forall_impl; [exact Hf|intros ? []; auto]|].
    apply Forall_fmap, Forall_forall. intros tc _. by apply Htool.
Qed.

Lemma validCalls_idem m : validCalls (with_calls m (validCalls m)) = validCalls m.
Proof. apply (validCalls_all (with_calls m (validCalls m))). apply valid_nonempty. Qed.

Lemma sanitize_distinct l : distinct_calls l -> distinct_calls (sanitize_from 0 l).
Proof.
  intros Hd. apply sanitize_forall. eapply Forall_impl; [exact Hd|]. intros m Hm. split; [done|].
  intros Ha rest out Hout. eapply turn_result_forall; [exact Hout| | |].
  - intros p Hc _ _ _ _. unfold validCalls. rewrite Hc. constructor.
  - left. intros _. rewrite validCalls_idem. auto.
  - intros r Hr. by rewrite Hr.
Qed.

Lemma sanitize_settled l : distinct_calls l -> settled (sanitize_from 0 l).
Proof.
  intros Hd. split.
  { apply sanitize_contract. eapply Forall_impl; [exact Hd|]. auto. }
  apply sanitize_forall, Forall_forall. intros m _. split; [done|].
  intros Ha rest out Hout. eapply turn_result_forall; [exact Hout| | |by intros r ->].
  - intros p _ Hi Hn (f & Hf & Hft & Hc) _ _. split; [|done]. rewrite Hc. unfold content_or.
    case_bool_decide; [done|apply trim_space_idem].
  - destruct (validCalls m) eqn:Hv; [by right|left]. cbn [ToolCalls with_calls]. done.
Qed.

(** Where the calls of each message have different ids, cleaning twice
    is cleaning once, and it changes nothing exactly when the conversation is
    acceptable already and its plain turns are trimmed and carry nothing else. *)
Theorem sanitize_idempotent l :
  distinct_calls l ->
  SanitizeMessages (SanitizeMessages l) = SanitizeMessages l /\
  (SanitizeMessages l = l <-> settled l).
Proof.
  intros Hd. rewrite !SanitizeMessages_from. split; [|split].
  - apply settled_fixed; [by apply sanitize_distinct|by apply sanitize_settled].
  - intros <-. by apply sanitize_settled.
  - by apply settled_fixed.
Qed.

(** ** Examples *)

Definition call (id name : string) : ToolCall := mkToolCall id "function" (mkFunctionCall name "{}").
Definition says (role content : string) : Message := mkMessage role content "" [] "" "" [].
Definition asks (calls : list ToolCall) : Message := mkMessage RoleAssistant "" "" calls "" "" [].
Definition answer (id content : string) : Message := mkMessage RoleTool content "" [] id "tool" [].

Example partial_results :
  SanitizeMessages [says RoleUser "go"; answer "x" "stray"; asks [call "a" "read"; call "" "list"; call "b" "write"];
                    answer "a" "ok"; answer "a" "again"; says RoleAssistant "  "]
  = [says RoleUser "go"; asks [call "a" "read"; call "b" "write"]; answer "a" "ok"; synthetic (call "b" "write");
     says RoleAssistant "[Acknowledged]"].
Proof. vm_compute. reflexivity. Qed.

(** Two calls with one id are both given a placeholder, and cleaning the
    result again drops one of the two. *)
Example repeated_call_id :
  let l := [asks [call "a" "read"; call "b" "write"; call "b" "write"]; answer "a" "ok"] in
  ToolCallID <$> SanitizeMessages l = [""; "a"; "b"; "b"] /\
  ToolCallID <$> SanitizeMessages (SanitizeMessages l) = [""; "a"; "b"].
Proof. vm_compute. done. Qed.

Lemma sanitize_idempotent_witness :
  let l := [says RoleUser "go"; asks [call "a" "read"; call "b" "write"]; answer "b" "ok"] in
  distinct_calls l /\
  SanitizeMessages (SanitizeMessages l) = SanitizeMessages l /\ (SanitizeMessages l = l <-> settled l).
Proof.
  intros l. assert (H : distinct_calls l).
  { repeat (apply Forall_cons; split; [intros _; apply (bool_decide_unpack (NoDup _)); vm_compute; done|]). constructor. }
  split; [exact H|]. exact (sanitize_idempotent l H).
Defined.

(** ** Calls in prose *)


#[local] Open Scope Z_scope.

(** ** Bytes and segments *)

#[local] Arguments cont : simpl never.
#[local] Arguments Z.shiftl : simpl never.
Ltac join_app := rewrite ?string_app_cons; repeat match goal with |- context ["" +:+ ?x] => change ("" +:+ x) with x end; cbv beta iota.
(** A text ends where a byte below 128 begins. *)
Lemma segments_app_lead s a t : byte_val a < 128 -> segments (s +:+ String a t) = segments s ++ segments (String a t).
Proof.
  intros Ha. induction s as [s IH] using (induction_ltof1 _ String.length); unfold ltof in IH.
  destruct (segments_cases s) as [->|[(r & p & s1 & -> & Hp & _ & Hseg)|(b & s1 & -> & Hb & Hseg)]]; [done| |].
  - rewrite string_app_assoc, !Hseg. cbn [app]. f_equal. apply IH. rewrite string_length_app. destruct p; [done|cbn; lia].
  - unfold bad_lead in Hseg. rewrite Hseg, string_app_cons. cbn [app]. rewrite <- IH by (cbn; lia). clear IH. revert Hseg.
    assert (Hc : forall lo hi, 128 <= lo -> cont lo hi a = false) by (intros; unfold cont; lia).
    cbn [segments]. replace (byte_val b <? 128) with false by lia.
    destruct ((194 <=? _) && _); [|destruct ((224 <=? _) && _); [|destruct ((240 <=? _) && _); [|done]]].
    + destruct s1 as [|b1 s1]; join_app; [by rewrite Hc by lia|]. by destruct (cont _ _ b1).
    + destruct s1 as [|b1 [|b2 s2]]; join_app.
      * intros _. destruct t; cbv beta iota; [done|]. by rewrite Hc by (case_match; lia).
      * intros _. by rewrite Hc, andb_false_r by lia.
      * by destruct (cont _ _ b1 && _).
    + destruct s1 as [|b1 [|b2 [|b3 s3]]]; join_app.
      * intros _. destruct t as [|? [|? ?]]; cbv beta iota; [done..|]. by rewrite Hc by (case_match; lia).
      * intros _. destruct t as [|? ?]; cbv beta iota; [done..|]. by rewrite Hc, andb_false_r by lia.
      * intros _. by rewrite Hc, andb_false_r by lia.
      * by destruct (cont _ _ b1 && _ && _).
Qed.

Lemma no_bytes_free f s : low_set f -> no_bytes f s = true -> free f (segments s).
Proof. apply no_bytes_runes. Qed.

(** What begins a markup, a fence, an addressee. *)
Definition markup (b : Z) : bool := (b =? 60) || (b =? 96) || (b =? 61).
Definition plain (s : string) : Prop := no_bytes markup s = true.
Definition just (c : Z) : Z -> bool := Z.eqb c.
Lemma low_just c : 0 <= c < 128 -> low_set (just c).
Proof. intros Hc b ->%Z.eqb_eq. lia. Qed.
Lemma low_markup : low_set markup.
Proof. intros b. unfold markup. lia. Qed.
Lemma plain_app s t : plain s -> plain t -> plain (s +:+ t).
Proof. unfold plain. rewrite no_bytes_app. by intros -> ->. Qed.
Lemma plain_free c s : markup c = true -> plain s -> free (just c) (segments s).
Proof.
  intros Hc Hs. apply no_bytes_free; [apply low_just; by apply low_markup|]. eapply no_bytes_sub; [|exact Hs]. by intros b <-%Z.eqb_eq.
Qed.

(** ** Prose without markup *)

Lemma clean_markup_plain s : plain s -> clean_markup s = trim_space s.
Proof.
  intros Hs. unfold clean_markup. pose proof (no_bytes_free _ _ low_markup Hs) as Hf.
  rewrite (RemoveAll_absent markup cleanBlockRe) by done. rewrite (RemoveAll_absent markup cleanSingleTagRe) by done.
  rewrite (RemoveAll_absent markup cleanToRe) by done. by rewrite (RemoveAll_absent markup cleanGarbageToRe) by done.
Qed.

Section reading.
Context `{CallTexts} `{Unicode}.

Lemma no_marked_calls s : plain s -> marked_calls s = [].
Proof.
  intros Hs. pose proof (no_bytes_free _ _ low_markup Hs) as Hf.
  unfold marked_calls, dsml_calls, braced_calls, markdown_calls, generic_calls. by rewrite !(FindAll_absent markup).
Qed.

(** ** Bare objects *)

Definition slice (content : string) (r : nat * nat) : string := String.substring r.1 (r.2 - r.1) content.
(** The calls an object stands for. *)
Definition object_calls (candidate : string) : list (string * string) :=
  let m := object_of candidate in
  if bool_decide (m = ∅) then []
  else
    match m !! "tool_uses" with
    | Some (JArray ((_ :: _) as uses)) => omap tool_use uses
    | _ => let '(name, args) := direct_call candidate m in if bool_decide (name = "") then [] else [(name, args)]
    end.
(** An object of the text, from its opening to its closing brace. *)
Definition object_at (content : string) (r : nat * nat) : Prop :=
  (r.1 < r.2 <= String.length content)%nat /\ object_of (slice content r) <> ∅ /\
  String.get r.1 content = Some (byte_of 123) /\ String.get (r.2 - 1) content = Some (byte_of 125).
Fixpoint in_order (last : nat) (ranges : list (nat * nat)) : Prop :=
  match ranges with [] => True | r :: ranges => (last <= r.1)%nat /\ in_order r.2 ranges end.
Definition last_end (ranges : list (nat * nat)) : nat := match last ranges with Some r => r.2 | None => 0%nat end.
Lemma in_order_snoc n ranges r : in_order n ranges -> (match last ranges with Some q => q.2 | None => n end <= r.1)%nat -> in_order n (ranges ++ [r]).
Proof.
  revert n. induction ranges as [|q ranges IH]; intros n; [cbn; tauto|]. intros [Hq Ho] Hl. cbn. split; [done|]. apply IH; [done|].
  rewrite last_cons in Hl. by destruct (last ranges).
Qed.

(** After [i] bytes. *)
Definition scanned (content : string) (i : nat) (st : bare) : Prop :=
  Forall (object_at content) (b_ranges st) /\ in_order 0 (b_ranges st) /\ (last_end (b_ranges st) <= i)%nat /\
  b_calls st = b_ranges st ≫= (fun r => object_calls (slice content r)) /\
  match b_start st with Some s => (last_end (b_ranges st) <= s < i)%nat /\ String.get s content = Some (byte_of 123) | None => True end.
Lemma scanned_mono content i st : scanned content i st -> scanned content (S i) st.
Proof. intros (Hr & Ho & Hl & Hc & Hs). repeat split; try done; [lia|]. destruct (b_start st); [|done]. destruct Hs. split; [lia|done]. Qed.
Lemma take_object_scanned content s i st : scanned content i st -> b_start st = Some s -> (i < String.length content)%nat ->
  String.get i content = Some (byte_of 125) -> scanned content (S i) (take_object content s (S i) st).
Proof.
  intros (Hr & Ho & Hl & Hc & Hs) Hst Hi Hg. rewrite Hst in Hs. destruct Hs as [Hs Hgs].
  assert (Hkeep : scanned content (S i) (mkBare (b_string st) (b_escape st) (b_depth st) None (b_calls st) (b_ranges st)))
    by (repeat split; cbn; [done|done|lia|done]).
  assert (Hmore : forall calls, object_of (slice content (s, S i)) <> ∅ -> calls = object_calls (slice content (s, S i)) ->
    scanned content (S i) (mkBare (b_string st) (b_escape st) (b_depth st) None (b_calls st ++ calls) (b_ranges st ++ [(s, S i)]))).
  { intros calls Hm Hcalls. repeat split; cbn [b_ranges b_calls b_start].
    - apply Forall_app. split; [done|]. constructor; [|done]. unfold object_at. cbn [fst snd]. replace (S i - 1)%nat with i by lia.
      split_and!; [lia|lia|done|done|done].
    - apply in_order_snoc; [done|]. unfold last_end in Hs. cbn. lia.
    - unfold last_end. rewrite last_snoc. cbn. lia.
    - by rewrite Hc, Hcalls, bind_app, bind_singleton. }
  unfold take_object. fold (slice content (s, S i)). cbv zeta. change (String.substring s (S i - s) content) with (slice content (s, S i)).
  destruct (decide (object_of (slice content (s, S i)) = ∅)) as [Hm|Hm]; [by rewrite bool_decide_true|]. rewrite bool_decide_false by done.
  specialize (Hmore (object_calls (slice content (s, S i))) Hm eq_refl). revert Hmore. unfold object_calls. rewrite (bool_decide_false _ Hm).
  assert (Hdirect : forall p : string * string,
    scanned content (S i) (mkBare (b_string st) (b_escape st) (b_depth st) None (b_calls st ++ (let '(name, args) := p in if bool_decide (name = "") then [] else [(name, args)])) (b_ranges st ++ [(s, S i)])) ->
    scanned content (S i) (let '(name, args) := p in if bool_decide (name = "") then mkBare (b_string st) (b_escape st) (b_depth st) None (b_calls st) (b_ranges st)
      else mkBare (b_string st) (b_escape st) (b_depth st) None (b_calls st ++ [(name, args)]) (b_ranges st ++ [(s, S i)]))).
  { intros [name args]. by case_bool_decide. }
  destruct (object_of _ !! "tool_uses") as [[| | | |[|v uses]|]|]; try apply Hdirect.
  intros Hmore. case_bool_decide as Hn; [|done]. rewrite Hn. apply app_eq_nil in Hn as [Hn _]. by rewrite Hn in Hkeep.
Qed.
Lemma bare_step_scanned content i a st : scanned content i st -> String.get i content = Some a ->
  scanned content (S i) (bare_step content i (byte_val a) st).
Proof.
  intros Hst Hg. assert (Hi : (i < String.length content)%nat).
  { clear Hst. revert content Hg. induction i as [|i IH]; intros [|b content]; cbn; try done; [lia|]. intros Hg%IH. lia. }
  pose proof (scanned_mono _ _ _ Hst) as Hon. destruct st as [str esc depth start calls ranges]. unfold bare_step.
  assert (Hsame : forall str esc depth, scanned content (S i) (mkBare str esc depth start calls ranges)) by (intros; exact Hon).
  destruct esc; [apply Hsame|]. destruct (_ && str); [apply Hsame|]. destruct (byte_val a =? 34); [apply Hsame|]. destruct str; [apply Hsame|].
  destruct (Z.eqb_spec (byte_val a) 123) as [Ha|_].
  - destruct (depth =? 0)%nat; [|apply Hsame]. destruct Hst as (Hr & Ho & Hl & Hc & _). repeat split; cbn in *; try done; [lia..|].
    by rewrite Hg, <- (byte_of_val a), Ha.
  - destruct (Z.eqb_spec (byte_val a) 125) as [Ha|_]; [|done]. destruct depth as [|d]; [done|].
    destruct d as [|d]; [|apply Hsame]. destruct start as [s|]; [|apply Hsame].
    apply take_object_scanned; [exact Hst|done|done|]. by rewrite Hg, <- (byte_of_val a), Ha.
Qed.
Lemma bare_scan_scanned content pre rest st : content = pre +:+ rest -> scanned content (String.length pre) st ->
  scanned content (String.length content) (bare_scan content (String.length pre) rest st).
Proof.
  revert pre st. induction rest as [|a rest IH]; intros pre st Hc Hst; cbn [bare_scan].
  - rewrite string_app_nil_r in Hc. by subst content.
  - assert (Hl : String.length (pre +:+ String a "") = S (String.length pre)) by (rewrite string_length_app; cbn; lia).
    rewrite <- Hl. apply IH; [by rewrite Hc, string_app_assoc|]. rewrite Hl. apply bare_step_scanned; [done|]. rewrite Hc. clear.
    induction pre as [|b pre IH]; [done|exact IH].
Qed.

(** The objects taken for calls are parts of the text one after the
    other, each from a brace to a brace and one that decodes; the calls are
    theirs in that order, and the rest is the text without them; without one
    the text is as it was. *)
Theorem bare_calls_are_objects content : let '(rest, calls) := findAndExtractBareJSONToolCalls content in
  exists ranges, in_order 0 ranges /\ Forall (object_at content) ranges /\
    calls = ranges ≫= (fun r => object_calls (slice content r)) /\
    rest = if bool_decide (ranges = []) then content else trim_space (without content 0 ranges).
Proof.
  unfold findAndExtractBareJSONToolCalls. destruct (_ || _); [by exists []|].
  assert (Hs : scanned content (String.length content) (bare_scan content 0 content no_bare)).
  { apply (bare_scan_scanned content ""); [done|]. repeat split; cbn; [done|lia]. }
  destruct Hs as (Hr & Ho & _ & Hc & _). destruct (decide (b_ranges (bare_scan content 0 content no_bare) = [])) as [Hn|Hn].
  - rewrite bool_decide_true by done. by exists [].
  - rewrite (bool_decide_false _ Hn). exists (b_ranges (bare_scan content 0 content no_bare)). by rewrite (bool_decide_false _ Hn).
Qed.

(** No part of the text is an object. *)
Definition no_object (s : string) : Prop := forall r, object_of (slice s r) = ∅.
Lemma no_bare_calls s : no_object s -> findAndExtractBareJSONToolCalls s = (s, []).
Proof.
  intros Hs. pose proof (bare_calls_are_objects s) as Hb. destruct (findAndExtractBareJSONToolCalls s) as [rest calls].
  destruct Hb as (ranges & _ & Hr & -> & ->). destruct ranges as [|r ranges]; [done|]. inversion_clear Hr as [|? ? (_ & Hne & _) _]. by destruct Hne.
Qed.

(** Prose without the characters that open a tag, a fence or an
    assignment, and without an object, is shown as it is but for space around
    it, and no call is made of it, braces or not. *)
Theorem plain_prose_kept n content : plain content -> no_object content -> ExtractEmbeddedToolCalls n content = (trim_space content, []).
Proof.
  intros Hp Ho. unfold ExtractEmbeddedToolCalls. case_bool_decide as Hc; [by rewrite Hc|].
  by rewrite no_marked_calls, no_bare_calls, clean_markup_plain by done.
Qed.

(** ** A call in the format of tokens *)

Definition call_begin (bar : string) : string := "<" +:+ bar +:+ "tool call begin" +:+ bar +:+ ">function:".
Definition call_end (bar : string) : string := "<" +:+ bar +:+ "tool call end" +:+ bar +:+ ">".
Definition bars : list string := ["|"; "｜"].

Lemma segments_begin bar s : bar ∈ bars -> segments (call_begin bar +:+ s) = segments (call_begin bar) ++ segments s.
Proof. unfold bars. rewrite !elem_of_cons, elem_of_nil. by intros [->|[->|[]]]. Qed.
Lemma segments_end bar s : bar ∈ bars -> segments (call_end bar +:+ s) = segments (call_end bar) ++ segments s.
Proof. unfold bars. rewrite !elem_of_cons, elem_of_nil. by intros [->|[->|[]]]. Qed.
(** A pattern that begins with [<] and passes over a text that does. *)
Definition passes (e : pat) (t : list seg) : Prop :=
  exists q t', t = q :: t' /\ free (just 60) t' /\ forall s, match_here e (t ++ s) = None.
Ltac tag_cases := unfold bars; rewrite !elem_of_cons, elem_of_nil; intros [->|[->|[]]].
Lemma scan_passes e t s : leads (just 60) e = true -> passes e t -> scan e 0 (t ++ s) = (Plain <$> t) ++ scan e 0 s.
Proof.
  intros Hl (q & t' & -> & Hf & Hn). rewrite <- !app_comm_cons, scan_miss by apply (Hn s). rewrite (scan_over (just 60)) by done. done.
Qed.
Lemma passed_begin bar : bar ∈ bars -> passes dsmlInvokeRe (segments (call_begin bar)) /\ passes anthropicFuncRe (segments (call_begin bar)) /\
  passes genericInvokeRe (segments (call_begin bar)).
Proof. tag_cases; split_and!; eexists _, _; (split; [vm_compute; reflexivity|split; [repeat constructor|intros s; vm_compute; reflexivity]]). Qed.
Lemma passed_end bar : bar ∈ bars -> passes dsmlInvokeRe (segments (call_end bar)) /\ passes anthropicFuncRe (segments (call_end bar)) /\
  passes genericInvokeRe (segments (call_end bar)) /\ passes dsTokenRe (segments (call_end bar)).
Proof. tag_cases; split_and!; eexists _, _; (split; [vm_compute; reflexivity|split; [repeat constructor|intros s; vm_compute; reflexivity]]). Qed.

Lemma token_open {R} bar (T : pat) s c (k : list seg -> caps -> option R) r : bar ∈ bars -> run T s c k = Some r ->
  run (PSeq (bar_open "tool call begin") (PSeq pbars (PSeq (PChr 62) (PSeq (popt (plit "function:")) T)))) (segments (call_begin bar) ++ s) c k = Some r.
Proof. tag_cases; intros HT; vm_compute in HT; vm_compute; by rewrite HT. Qed.
Lemma token_close {R} bar s c (k : list seg -> caps -> option R) r : bar ∈ bars -> k s c = Some r ->
  run (PSeq (bar_open "tool call end") (PSeq pbars (PSeq (PChr 62) PEps))) (segments (call_end bar) ++ s) c k = Some r.
Proof. tag_cases; intros HT; vm_compute; by rewrite HT. Qed.
(** The text of an object, up to the first brace after which [k] goes on. *)
Definition lbrace : seg := (123, "{").
Definition rbrace : seg := (125, "}").
Lemma braced_run {R} w s c (k : list seg -> caps -> option R) r : free (just 60) w ->
  (forall s' c', match s' with q :: _ => just 60 q.1 = false | [] => True end -> k s' c' = None) -> k s c = Some r ->
  run braced (lbrace :: w ++ rbrace :: s) c k = Some r.
Proof.
  intros Hw Hk Hr. change (run (PStar false (PCls (fun _ => true))) (w ++ rbrace :: s) c (fun s c => run (PSeq (PChr 125) PEps) s c k) = Some r).
  rewrite (star_lazy _ w (rbrace :: s)); [exact Hr|by apply Forall_true| |cbn; by rewrite Hr].
  intros v u -> Hu. destruct u as [|q u]; [done|]. cbn [app run]. destruct (_ =? _); [|done]. apply Hk.
  rewrite free_app, free_cons in Hw. destruct Hw as (_ & _ & Hu'). by inversion_clear Hu'.
Qed.

Definition whole_call (bar : string) (nm w : list seg) : list seg :=
  segments (call_begin bar) ++ nm ++ lbrace :: w ++ rbrace :: segments (call_end bar).
Lemma token_match bar nm w s : bar ∈ bars -> nm <> [] -> Forall (fun q => word_char q.1 = true) nm -> free (just 60) w ->
  match_here dsTokenRe (whole_call bar nm w ++ s) = Some (s, [(2%nat, "{" +:+ bytes_of w +:+ "}"); (1%nat, bytes_of nm)]).
Proof.
  intros Hb Hne Hnm Hw. unfold match_here, dsTokenRe, whole_call, pseq. cbn [foldr].
  rewrite <- !app_assoc, <- app_comm_cons, <- app_assoc, <- app_comm_cons.
  apply (token_open bar); [done|].
  apply run_seq, run_cap, plus_greedy; [done|done|done|]. cbv beta.
  apply run_seq, (star_greedy _ []); [done|done|]. cbv beta.
  apply run_seq, run_cap, braced_run; [done|intros; by apply (leads_none (just 60))|]. cbv beta.
  apply (token_close bar); [done|]. rewrite upto_app.
  replace (lbrace :: w ++ rbrace :: segments (call_end bar) ++ s) with ((lbrace :: w ++ [rbrace]) ++ segments (call_end bar) ++ s)
    by (cbn; by rewrite <- app_assoc).
  rewrite upto_app. do 4 f_equal. cbn. by rewrite bytes_of_app.
Qed.

Lemma block_open {R} bar (T : pat) s c (k : list seg -> caps -> option R) r : bar ∈ bars -> run T (segments "function:" ++ s) c k = Some r ->
  run (PSeq (bar_tag false "tool call begin") T) (segments (call_begin bar) ++ s) c k = Some r.
Proof. tag_cases; intros HT; vm_compute in HT; vm_compute; by rewrite HT. Qed.
Lemma block_close {R} bar s c (k : list seg -> caps -> option R) r : bar ∈ bars -> k s c = Some r ->
  run (PSeq (bar_tag false "tool call end") PEps) (segments (call_end bar) ++ s) c k = Some r.
Proof. tag_cases; intros HT; vm_compute; by rewrite HT. Qed.
Lemma no_dsml {R} bar b s c (k : list seg -> caps -> option R) : bar ∈ bars ->
  run (till (PSeq (dsml false "tool_calls") (PChr 62)) b) (segments (call_begin bar) ++ s) c k = None.
Proof. tag_cases; reflexivity. Qed.
Lemma word_free nm : Forall (fun q => word_char q.1 = true) nm -> free (just 60) nm.
Proof. intros Hn. eapply Forall_impl; [exact Hn|]. intros q. unfold word_char, just. lia. Qed.
Lemma block_match bar nm w s : bar ∈ bars -> Forall (fun q => word_char q.1 = true) nm -> free (just 60) w ->
  match_here cleanBlockRe (whole_call bar nm w ++ s) = Some (s, []).
Proof.
  intros Hb Hnm Hw. unfold match_here, cleanBlockRe, palts, whole_call. rewrite <- !app_assoc, <- app_comm_cons, <- app_assoc, <- app_comm_cons.
  apply run_alt_r; [by apply no_dsml|]. apply run_alt_l. unfold till, pseq. cbn [foldr]. apply (block_open bar); [done|].
  apply run_seq. set (u := segments "function:" ++ nm ++ lbrace :: w ++ [rbrace]).
  replace (segments "function:" ++ nm ++ lbrace :: w ++ rbrace :: segments (call_end bar) ++ s) with (u ++ segments (call_end bar) ++ s)
    by (unfold u; rewrite <- !app_assoc, <- app_comm_cons, <- app_assoc; cbn [app]; reflexivity).
  assert (Hu : free (just 60) u).
  { unfold u. rewrite !free_app, free_cons, free_app. split_and!; [vm_compute; by repeat constructor|by apply word_free|done|done|by repeat constructor]. }
  assert (Hend : run (PSeq (bar_tag false "tool call end") PEps) (segments (call_end bar) ++ s) [] (fun s' c => Some (s', c)) = Some (s, []))
    by (apply (block_close bar); [exact Hb|reflexivity]).
  unfold lazy_any, pany. rewrite star_lazy; [exact Hend|by apply Forall_true| |by rewrite Hend].
  intros v x Hx Hne. apply (leads_none (just 60)); [done|]. destruct x as [|q x]; [done|]. rewrite Hx, free_app, free_cons in Hu. tauto.
Qed.

Definition with_call (bar before name body after : string) : string :=
  before +:+ call_begin bar +:+ name +:+ ("{" +:+ body +:+ "}") +:+ call_end bar +:+ after.
Lemma word_ascii name : all_bytes word_char name = true -> all_bytes (fun b => b <? 128) name = true.
Proof. apply all_bytes_impl. intros b. unfold word_char. lia. Qed.
Lemma word_segments name : all_bytes word_char name = true -> Forall (fun q => word_char q.1 = true) (segments name).
Proof.
  intros Hn. rewrite segments_ascii by by apply word_ascii. rewrite all_bytes_chars, forallb_elem in Hn.
  apply Forall_fmap, Forall_forall. intros a Ha. apply (Hn a Ha).
Qed.
Lemma segments_byte a t : byte_val a < 128 -> segments (String a t) = (byte_val a, String a "") :: segments t.
Proof. intros Ha. cbn [segments]. by rewrite (proj2 (Z.ltb_lt _ _)) by done. Qed.
Lemma segments_lead s a t : byte_val a < 128 -> segments (s +:+ String a t) = segments s ++ (byte_val a, String a "") :: segments t.
Proof. intros Ha. by rewrite segments_app_lead, segments_byte by done. Qed.
Lemma with_call_segments bar before name body after : bar ∈ bars -> all_bytes word_char name = true ->
  segments (with_call bar before name body after) = segments before ++ whole_call bar (segments name) (segments body) ++ segments after.
Proof.
  intros Hb Hn. unfold with_call, whole_call. set (t := name +:+ ("{" +:+ body +:+ "}") +:+ call_end bar +:+ after).
  assert (Hlead : segments (before +:+ call_begin bar +:+ t) = segments before ++ segments (call_begin bar +:+ t)).
  { change (call_begin bar +:+ t) with (String (byte_of 60) ((bar +:+ "tool call begin" +:+ bar +:+ ">function:") +:+ t)). by apply segments_app_lead. }
  rewrite Hlead, segments_begin by done. unfold t. rewrite segments_app_ascii by by apply word_ascii.
  assert (Hobj : segments (("{" +:+ body +:+ "}") +:+ call_end bar +:+ after) = lbrace :: segments body ++ rbrace :: segments (call_end bar) ++ segments after).
  { rewrite !string_app_assoc. change ("{" +:+ body +:+ "}" +:+ call_end bar +:+ after) with (String (byte_of 123) (body +:+ String (byte_of 125) (call_end bar +:+ after))).
    rewrite segments_byte by done. by rewrite segments_lead, segments_end by done. }
  by rewrite Hobj, <- !app_assoc, <- app_comm_cons, <- app_assoc, <- app_comm_cons.
Qed.
Lemma trim_braced body : trim_space ("{" +:+ body +:+ "}") = "{" +:+ body +:+ "}".
Proof.
  assert (Hs : segments ("{" +:+ body +:+ "}") = lbrace :: segments body ++ [rbrace]).
  { change ("{" +:+ body +:+ "}") with (String (byte_of 123) (body +:+ String (byte_of 125) "")). by rewrite segments_byte, segments_lead by done. }
  unfold trim_space. rewrite Hs, (drop_while_fixed _ (lbrace :: _)) by done. rewrite app_comm_cons, reverse_app. rewrite drop_while_fixed by done.
  rewrite <- reverse_app, reverse_involutive, <- app_comm_cons, <- Hs. apply bytes_of_segments.
Qed.

(** What the expressions find and leave in such a text. *)
Section one_call.
Context (bar before name body after : string).
Hypothesis Hbar : bar ∈ bars.
Hypothesis Hname : all_bytes word_char name = true.
Hypothesis Hne : name <> "".
Hypothesis Hbefore : plain before.
Hypothesis Hbody : plain body.
Hypothesis Hafter : plain after.
Let text := with_call bar before name body after.

Lemma call_free c : c ∈ [96; 61] -> free (just c) (segments text).
Proof.
  intros Hc. assert (Hm : markup c = true /\ word_char c = false) by (revert Hc; rewrite !elem_of_cons, elem_of_nil; by intros [->|[->|[]]]).
  destruct Hm as [Hm Hw]. unfold text. rewrite with_call_segments by done. unfold whole_call. rewrite !free_app, !free_cons, !free_app, !free_cons.
  split_and!; try by apply plain_free.
  - revert Hbar Hc. rewrite !elem_of_cons, elem_of_nil. unfold bars. rewrite !elem_of_cons, elem_of_nil.
    intros [->|[->|[]]] [->|[->|[]]]; vm_compute; by repeat constructor.
  - eapply Forall_impl; [by apply word_segments|]. intros q Hq. cbn in Hq. unfold just. apply Z.eqb_neq. intros Heq. rewrite <- Heq in Hq. by rewrite Hw in Hq.
  - revert Hc. rewrite !elem_of_cons, elem_of_nil. by intros [->|[->|[]]].
  - revert Hc. rewrite !elem_of_cons, elem_of_nil. by intros [->|[->|[]]].
  - revert Hbar Hc. rewrite !elem_of_cons, elem_of_nil. unfold bars. rewrite !elem_of_cons, elem_of_nil.
    intros [->|[->|[]]] [->|[->|[]]]; vm_compute; by repeat constructor.
Qed.
Let Hopen : forall s, plain s -> free (just 60) (segments s).
Proof. intros s. by apply plain_free. Qed.
Lemma passing_finds_none e : leads (just 60) e = true -> passes e (segments (call_begin bar)) -> passes e (segments (call_end bar)) -> FindAll e text = [].
Proof.
  intros Hl Hb He. unfold FindAll, text. rewrite with_call_segments by done. unfold whole_call.
  rewrite (scan_over (just 60)) by auto. rewrite <- !app_assoc, scan_passes by done.
  rewrite (scan_over (just 60)) by (try done; by apply word_free, word_segments).
  replace ((lbrace :: segments body ++ rbrace :: segments (call_end bar)) ++ segments after)
    with ((lbrace :: segments body ++ [rbrace]) ++ segments (call_end bar) ++ segments after) by (rewrite <- !app_comm_cons, <- !app_assoc; done).
  rewrite (scan_over (just 60)); [|done|rewrite free_cons, free_app; split_and!; [done|auto|by repeat constructor]].
  rewrite scan_passes by done. rewrite <- (app_nil_r (segments after)), (scan_over (just 60)) by auto.
  by rewrite !hits_app, !hits_plain.
Qed.
Lemma one_scan e c : leads markup e = true -> (forall s, match_here e (whole_call bar (segments name) (segments body) ++ s) = Some (s, c)) ->
  scan e 0 (segments text) = (Plain <$> segments before) ++ Hit (whole_call bar (segments name) (segments body)) c :: (Plain <$> segments after).
Proof.
  intros Hl Hm. pose proof (no_bytes_free _ _ low_markup Hbefore) as Hb. pose proof (no_bytes_free _ _ low_markup Hafter) as Ha.
  unfold text. rewrite with_call_segments, (scan_over markup) by done. rewrite (scan_hit _ _ _ c); [|unfold whole_call; revert Hbar; by tag_cases|apply Hm].
  rewrite <- (app_nil_r (segments after)), (scan_over markup) by done. by rewrite !app_nil_r.
Qed.
Lemma marked_one : marked_calls text = [Some (NormalizeToolName name, "{" +:+ body +:+ "}")].
Proof.
  destruct (passed_begin bar Hbar) as (Hb1 & Hb2 & Hb3). destruct (passed_end bar Hbar) as (He1 & He2 & He3 & _).
  assert (Hn : segments name <> []) by (intros Hn; apply Hne; by rewrite <- (bytes_of_segments name), Hn).
  unfold marked_calls, dsml_calls, markdown_calls, generic_calls. rewrite (passing_finds_none dsmlInvokeRe eq_refl Hb1 He1), (passing_finds_none genericInvokeRe eq_refl Hb3 He3).
  unfold braced_calls. rewrite (passing_finds_none anthropicFuncRe eq_refl Hb2 He2).
  rewrite (FindAll_absent (just 96) markdownToolRe) by (try done; by apply call_free; left).
  rewrite (FindAll_absent (just 61) toFuncRe) by (try done; by apply call_free; right; left).
  unfold FindAll. erewrite one_scan; [|done|intros s; apply token_match; [done|done|by apply word_segments|auto]].
  rewrite hits_app, hits_hit, !hits_plain. cbn [fmap list_fmap app].
  unfold group. cbn [find]. rewrite !bytes_of_segments. change ([Some (NormalizeToolName name, trim_space ("{" +:+ body +:+ "}"))] = [Some (NormalizeToolName name, "{" +:+ body +:+ "}")]).
  by rewrite trim_braced.
Qed.
Lemma cleaned_one : clean_markup text = trim_space (before +:+ after).
Proof.
  assert (Hb : RemoveAll cleanBlockRe text = before +:+ after).
  { unfold RemoveAll. erewrite one_scan; [|done|intros s; apply block_match; [done|by apply word_segments|auto]].
    by rewrite kept_app, kept_hit, !kept_plain, bytes_of_app, !bytes_of_segments. }
  rewrite <- clean_markup_plain by by apply plain_app. unfold clean_markup. rewrite Hb.
  rewrite (RemoveAll_absent markup cleanBlockRe (before +:+ after)); [done|done|]. apply no_bytes_free; [apply low_markup|by apply plain_app].
Qed.
End one_call.

(** C39. A call in the format of tokens between prose, with either bar, a name
    of letters, digits and underscores, and prose and arguments without [<], [=]
    and backtick, is read back with its name, normalized, and its arguments as
    they were written, and leaves the prose without it, trimmed.  With those
    bytes it need not be: [rest_of_line_lost], [argument_is_called]. *)
Theorem token_call_read_back n bar before name body after :
  bar ∈ bars -> all_bytes word_char name = true -> name <> "" -> plain before -> plain body -> plain after ->
  ExtractEmbeddedToolCalls n (with_call bar before name body after) =
    (trim_space (before +:+ after),
     [mkToolCall ("call_" +:+ call_rand n 0) "function" (mkFunctionCall (NormalizeToolName name) ("{" +:+ body +:+ "}"))]).
Proof.
  intros Hbar Hname Hne Hb Hw Ha. unfold ExtractEmbeddedToolCalls. rewrite bool_decide_false.
  - by rewrite marked_one, cleaned_one by done.
  - unfold with_call, call_begin. intros Ht. apply (f_equal String.length) in Ht. rewrite !string_length_app in Ht. cbn in Ht. lia.
Qed.
End reading.

(** ** Thinking *)

Definition tags (b : Z) : bool := (b =? 60) || (b =? 91).
Lemma low_tags : low_set tags.
Proof. intros b. unfold tags. lia. Qed.
Definition untagged (s : string) : Prop := no_bytes tags s = true.
Lemma untagged_app s t : untagged s -> untagged t -> untagged (s +:+ t).
Proof. unfold untagged. rewrite no_bytes_app. by intros -> ->. Qed.
Definition thought_tags : list string := ["think"; "thought"; "thinking"].
Definition open_tag (t : string) : string := "<" +:+ t +:+ ">".
Definition close_tag (t : string) : string := "</" +:+ t +:+ ">".
Definition not_blank (t : string) : list string := if bool_decide (trim_space t = "") then [] else [trim_space t].
Definition blank_line : string := String (byte_of 10) (String (byte_of 10) "").

Lemma untagged_finds s : untagged s -> FindAll thinkTagRe s = [] /\ FindAll bracketThinkRe s = [] /\
  RemoveAll thinkTagRe s = s /\ RemoveAll bracketThinkRe s = s.
Proof.
  intros Hs. pose proof (no_bytes_free _ _ low_tags Hs) as Hf.
  split_and!; [apply (FindAll_absent tags)|apply (FindAll_absent tags)|apply (RemoveAll_absent tags)|apply (RemoveAll_absent tags)]; done.
Qed.

Ltac thought_cases := unfold thought_tags; rewrite !elem_of_cons, elem_of_nil; intros [->|[->|[->|[]]]].
Lemma think_open {R} t (T : pat) s c (k : list seg -> caps -> option R) r : t ∈ thought_tags -> run T s c k = Some r ->
  run (PSeq (PChr 60) (PSeq (palts (plit "think") [plit "thought"; plit "thinking"]) (PSeq (PChr 62) T))) (segments (open_tag t) ++ s) c k = Some r.
Proof. thought_cases; intros HT; vm_compute in HT; vm_compute; by rewrite HT. Qed.
Definition think_end : pat :=
  PSeq (PChr 60) (PSeq (PChr 47) (PSeq (palts (plit "think") [plit "thought"; plit "thinking"]) (PSeq (PChr 62) PEps))).
Lemma think_close {R} t s c (k : list seg -> caps -> option R) r : t ∈ thought_tags -> k s c = Some r ->
  run think_end (segments (close_tag t) ++ s) c k = Some r.
Proof. thought_cases; intros HT; vm_compute; by rewrite HT. Qed.
Lemma think_match t w s : t ∈ thought_tags -> free tags w ->
  match_here thinkTagRe ((segments (open_tag t) ++ w ++ segments (close_tag t)) ++ s) = Some (s, [(1%nat, bytes_of w)]).
Proof.
  intros Ht Hw. unfold match_here, thinkTagRe, pseq. cbn [foldr]. fold think_end. rewrite <- !app_assoc.
  apply (think_open t); [done|]. apply run_seq, run_cap.
  assert (Hend : run think_end (segments (close_tag t) ++ s) [(1%nat, bytes_of (upto (w ++ segments (close_tag t) ++ s) (segments (close_tag t) ++ s)))]
    (fun s' c => Some (s', c)) = Some (s, [(1%nat, bytes_of w)])) by (apply (think_close t); [done|]; by rewrite upto_app).
  unfold lazy_any, pany. rewrite star_lazy; [exact Hend|by apply Forall_true| |by rewrite Hend].
  intros v x -> Hx. apply (leads_none tags); [done|]. destruct x as [|q x]; [done|]. rewrite free_app, free_cons in Hw. tauto.
Qed.

Lemma tag_segments t x : t ∈ thought_tags ->
  segments (open_tag t +:+ x) = segments (open_tag t) ++ segments x /\ segments (close_tag t +:+ x) = segments (close_tag t) ++ segments x.
Proof. thought_cases; split; reflexivity. Qed.
Lemma thought_segments t before inside after : t ∈ thought_tags ->
  segments (before +:+ open_tag t +:+ inside +:+ close_tag t +:+ after) =
    segments before ++ (segments (open_tag t) ++ segments inside ++ segments (close_tag t)) ++ segments after.
Proof.
  intros Ht. assert (Hl : forall u v x, segments (u +:+ ("<" +:+ v) +:+ x) = segments u ++ segments (("<" +:+ v) +:+ x))
    by (intros u v x; by apply segments_app_lead).
  rewrite (Hl before (t +:+ ">")). fold (open_tag t). rewrite (proj1 (tag_segments t _ Ht)).
  rewrite (Hl inside ("/" +:+ t +:+ ">")). fold (close_tag t). by rewrite (proj2 (tag_segments t _ Ht)), <- !app_assoc.
Qed.

(** Reasoning between tags moves behind the reasoning that was there,
    trimmed, and the prose around it is shown without it. *)
Theorem thinking_moved t before inside after existing : t ∈ thought_tags -> untagged before -> untagged inside -> untagged after ->
  ExtractThinkingContent (before +:+ open_tag t +:+ inside +:+ close_tag t +:+ after) existing =
    (trim_space (before +:+ after), join (not_blank existing ++ not_blank inside) blank_line).
Proof.
  intros Ht Hb Hi Ha. set (text := before +:+ _).
  pose proof (no_bytes_free _ _ low_tags Hb) as Hfb. pose proof (no_bytes_free _ _ low_tags Hi) as Hfi. pose proof (no_bytes_free _ _ low_tags Ha) as Hfa.
  assert (Hs := thought_segments t before inside after Ht).
  assert (Hscan : scan thinkTagRe 0 (segments text) = (Plain <$> segments before) ++
    Hit (segments (open_tag t) ++ segments inside ++ segments (close_tag t)) [(1%nat, inside)] :: (Plain <$> segments after)).
  { unfold text. rewrite Hs, (scan_over tags) by done. rewrite (scan_hit _ _ _ [(1%nat, inside)]); [|revert Ht; by thought_cases|].
    - rewrite <- (app_nil_r (segments after)), (scan_over tags) by done. by rewrite !app_nil_r.
    - rewrite <- (bytes_of_segments inside) at 2. by apply think_match. }
  assert (Hfree : free (just 91) (segments text)).
  { assert (Hsub : forall l, free tags l -> free (just 91) l).
    { intros l Hl. eapply Forall_impl; [exact Hl|]. intros q. unfold tags, just. lia. }
    unfold text. rewrite Hs, !free_app. split_and!; auto; revert Ht; thought_cases; vm_compute; by repeat constructor. }
  destruct (untagged_finds (before +:+ after)) as (_ & _ & _ & Hclean); [by apply untagged_app|].
  assert (Hfind : FindAll thinkTagRe text = [[(1%nat, inside)]])
    by (unfold FindAll; by rewrite Hscan, hits_app, hits_hit, !hits_plain).
  assert (Hrest : RemoveAll thinkTagRe text = before +:+ after)
    by (unfold RemoveAll; by rewrite Hscan, kept_app, kept_hit, !kept_plain, bytes_of_app, !bytes_of_segments).
  unfold ExtractThinkingContent. rewrite bool_decide_false.
  - rewrite Hfind, (FindAll_absent (just 91) bracketThinkRe), Hrest, Hclean by done. cbn [mbind list_bind app]. by rewrite !app_nil_r.
  - unfold text, open_tag. intros Hn. apply (f_equal String.length) in Hn. rewrite !string_length_app in Hn. cbn in Hn. lia.
Qed.

(** ** In the turn of an agent *)

(** The engine with the functions of this package. *)
Definition llm_texts `{CallTexts} `{Unicode} (P : Prose) : Prose := {|
  cognitive_prompt := @cognitive_prompt P; plan_note := @plan_note P;
  extract_thinking := ExtractThinkingContent; extract_calls := ExtractEmbeddedToolCalls;
  json_complaint := @json_complaint P; ctx_text := @ctx_text P; operator := @operator P; memory_count := @memory_count P;
  money := @money P; hourly_tokens := @hourly_tokens P; monthly_cost := @monthly_cost P |}.

Lemma untagged_thinking s existing : s <> "" -> untagged s -> ExtractThinkingContent s existing = (trim_space s, trim_space existing).
Proof.
  intros Hne Hs. destruct (untagged_finds s Hs) as (H1 & H2 & H3 & H4). unfold ExtractThinkingContent.
  rewrite (bool_decide_false _ Hne), H1, H2, H3, H4. cbn [mbind list_bind app]. rewrite app_nil_r. f_equal. by case_bool_decide.
Qed.

Section turn.
Context {M T : Type} `{Mn : Mind M} `{Hd : Hands T} `{CallTexts} `{Unicode} (P : Prose).
#[local] Instance own_texts : Prose := llm_texts P.

(** An answer of prose without markup, tags and objects is read as it is
    but for space around it: no call comes of it, so that it ends the turn. *)
Theorem plain_answer_read tools resp (s : Engine M T) e :
  RToolCalls resp = [] -> RContent resp <> "" -> plain (RContent resp) -> untagged (RContent resp) -> no_object (trim_space (RContent resp)) ->
  wp (read_answer tools resp) (fun r s' _ => r = Ok (set_rcontent (trim_space (RContent resp)) (trim_space (RReasoning resp)) resp) /\ s' = s) s e.
Proof.
  intros Hc Hne Hp Hu Ho. unfold read_answer. rewrite (bool_decide_false _ Hne). cbn [extract_thinking own_texts llm_texts].
  rewrite untagged_thinking by done. cbn [RContent RToolCalls RReasoning set_rcontent]. rewrite (bool_decide_true _ Hc).
  destruct (decide (trim_space (RContent resp) = "")) as [Ht|Ht]; [rewrite (bool_decide_true _ Ht); by apply wp_ret|]. rewrite (bool_decide_false _ Ht).
  cbn [negb andb]. apply wp_bind, wp_draw. intros e' _ _ _. cbv beta iota. cbn [extract_calls own_texts llm_texts].
  rewrite plain_prose_kept by (try done; by apply no_bytes_trim). rewrite trim_space_idem. by apply wp_ret.
Qed.
End turn.

(** ** Closed examples *)

Module ProseDemo.
#[local] Existing Instance ascii_tables.
(** ['] for a quote. *)
Definition quoted (s : string) : string := replace_all s "'" (String (byte_of 34) "").
Definition exec_object : string := quoted "{'command':'ls'}".
#[local] Instance demo_texts : CallTexts := {
  json_any := fun s => if bool_decide (s = exec_object) then Some (JObject {["command" := JString "ls"]}) else None;
  json_call := fun _ => None;
  any_json := fun v => match v with JObject m => match m !! "input" with Some (JString s) => Some ("{input:" +:+ s +:+ "}") | _ => None end | _ => None end;
  call_rand := fun n k => pretty (N.of_nat (n + k)) }.
Definition extract (s : string) : string * list (string * string) :=
  let '(rest, calls) := ExtractEmbeddedToolCalls 0 (quoted s) in (rest, (fun c => (FnName (TcFunction c), FnArguments (TcFunction c))) <$> calls).

Example bare_command : extract "Look: {'command':'ls'} ok" = ("Look:  ok", [("native_exec", exec_object)]).
Proof. vm_compute. reflexivity. Qed.
(** A quote before the object opens a text that hides it. *)
Example quote_hides_object : extract "The 5' disk: {'command':'ls'}" = (quoted "The 5' disk: {'command':'ls'}", []).
Proof. vm_compute. reflexivity. Qed.
(** The end of any word before an assignment addresses a call. *)
Example code_is_called : extract "if auto=deploy then { return 1 } fi" = ("if au fi", [("deploy", "{ return 1 }")]).
Proof. vm_compute. reflexivity. Qed.
(** The object ends at the first closing brace. *)
Example nested_arguments_cut : extract "to=functions.bash {'a':{'b':1}} done" = ("} done", [("native_exec", quoted "{'a':{'b':1}")]).
Proof. vm_compute. reflexivity. Qed.
Example rest_of_line_lost : extract "Set the timeout to = 30 seconds, then retry." = ("Set the timeout", []).
Proof. vm_compute. reflexivity. Qed.
(** What one call should write is taken for another. *)
Example argument_is_called : extract "<function=write_file>{'content':'to=functions.bash {rm}'}</function>" =
  ("", [("native_file_write", quoted "{'content':'to=functions.bash {rm}'}"); ("native_exec", "{rm}")]).
Proof. vm_compute. reflexivity. Qed.
(** The parameters of an invocation stay text: one input, and shown. *)
Example parameters_stay_text : extract "<invoke name='bash'><parameter name='command'>ls</parameter></invoke>" =
  ("ls", [("native_exec", quoted "{input:<parameter name='command'>ls</parameter>}")]).
Proof. vm_compute. reflexivity. Qed.
Example tag_put_together : ExtractThinkingContent "<thi<think>a</think>nk>b</think>" "" = ("<think>b</think>", "a").
Proof. vm_compute. reflexivity. Qed.

End ProseDemo.
Import ProseDemo.
#[local] Existing Instances ascii_tables demo_texts.

Lemma token_call_read_back_witness :
  ExtractEmbeddedToolCalls 7 (with_call "｜" "Reading. " "read_file" (quoted "'path':'a.txt'") "Done.") =
    ("Reading. Done.", [mkToolCall "call_7" "function" (mkFunctionCall "native_file_read" (quoted "{'path':'a.txt'}"))]).
Proof.
  refine (eq_trans (token_call_read_back 7 "｜" "Reading. " "read_file" (quoted "'path':'a.txt'") "Done." _ _ _ _ _ _) _);
    [right; left|reflexivity|done|reflexivity|vm_compute; reflexivity|reflexivity|vm_compute; reflexivity].
Defined.
Lemma thinking_moved_witness :
  ExtractThinkingContent ("Well, " +:+ open_tag "think" +:+ " why? " +:+ close_tag "think" +:+ "yes.") "Asked." =
    ("Well, yes.", "Asked." +:+ blank_line +:+ "why?").
Proof.
  refine (eq_trans (thinking_moved "think" "Well, " " why? " "yes." "Asked." _ _ _ _) _); [left|reflexivity..|vm_compute; reflexivity].
Defined.

(** A turn with a decoder that finds no object. *)
#[local] Existing Instances Demo.script_mind Demo.demo_hands.
Definition no_json : CallTexts := {| json_any := fun _ => None; json_call := fun _ => None; any_json := fun _ => None; call_rand := fun _ _ => "" |}.
Definition braces : Response := mkResponse " Use f(x) { return 1 } or not. " " Simple " [] "stop" (mkUsage 7 1 8) "m" [].
Lemma plain_answer_read_witness :
  wp (read_answer (H0 := llm_texts (H := no_json) Demo.demo_prose) [] braces)
    (fun r s' _ => r = Ok (set_rcontent "Use f(x) { return 1 } or not." "Simple" braces) /\ s' = Demo.demo_engine []) (Demo.demo_engine []) (calm 0).
Proof.
  exact (plain_answer_read (H := no_json) Demo.demo_prose [] braces (Demo.demo_engine []) (calm 0) eq_refl ltac:(done) eq_refl eq_refl (fun _ => eq_refl)).
Defined.
(** A closing tag alone is no thinking, and stays in the text. *)
Example lone_tag_stays : ExtractThinkingContent "Use </think> to close." "" = ("Use </think> to close.", "").
Proof. vm_compute. reflexivity. Qed.
